(* ===== verification/_CoqProject ===== *)
-Q . S2P
Prelude.v
Pqueue.v
Config.v
ChannelModel.v
Ssd.v
Bytes.v
Nvme.v
FdpLog.v
FdpFtl.v
FdpGeom.v
FdpInv.v
FdpOps.v
FdpAdvance.v
FdpGc.v
FdpWrite.v
FdpInit.v
FdpIo.v
CoreSpec.v
FdpSpec.v
FdpRefine.v
Zns.v
ZnsInv.v
ZnsOps.v
ZnsWrite.v
ZnsIo.v
ZnsInit.v
ZnsProc.v
ZnsAcct.v
ZnsSpec.v
ZnsProps.v
WorkQueue.v
Dma.v
IoData.v
Io.v
IoInv.v
IoSteps.v
IoDispatch.v
IoScan.v
IoProps.v
Sim.v
ConvFtl.v
ConvSim.v
ConvProps.v
SimpleFtl.v
Alloc.v
KvFtl.v
KvTable.v
KvOps.v
KvIo.v
KvIter.v
KvBatch.v
KvProps.v
Pci.v
PciProps.v
Ctrl.v
CtrlProps.v
Admin.v
AdminQueue.v
AdminOps.v
AdminSession.v
AdminProps.v
AdminStart.v
Layout.v
Wire.v
WireProps.v
Double.v
Workload.v
WorkloadProps.v
Driver.v
DriverProps.v
Lifecycle.v
LifecycleProps.v
