(* ===== verification/Prelude.v ===== *)
(** * NVMeVirt-FDP: a verification development

    NVMeVirt is a Linux kernel module that emulates NVMe devices in memory.  A
    dispatcher thread takes commands from the submission queues and hands them to
    the command handler of their namespace, which decides the command's status,
    changes the device's state and computes the time the command would take on a
    real device; worker threads copy the data, wait until that time has come and
    post the completion (src/io.c).  This fork adds a device with Flexible Data
    Placement (FDP): writes carry a placement identifier that selects a reclaim
    unit handle, and data of different handles never share a reclaim unit.

    ** The parts and the files that model them

    - this file: fixed-width integers, the state-and-fault monad, C arrays, the
      weakest preconditions the proofs are written in, automation;
    - Pqueue (src/pqueue/pqueue.c): the array heap with back pointers that holds
      the victim candidates; its callbacks are the class [PqOps];
    - Config (src/ssd_config.h): the compile-time configurations, as records;
    - ChannelModel (src/channel_model.c): bandwidth credits in a ring of time slots;
    - Ssd (src/ssd.c, src/ssd.h): geometry, the NAND tree, timing of NAND
      operations and transfers, the write buffer;
    - Bytes: little-endian accesses to byte arrays;
    - Nvme (src/nvme.h, src/nvmev.h): commands, requests and results;
    - FdpLog (src/fdp_ftl.c lines 1 to 200, src/nvme_fdp.h): event ring, log pages,
      the FDP Events feature;
    - FdpFtl (the rest of src/fdp_ftl.c): the FDP translation layer, handler by
      handler; FdpGeom, FdpInv, FdpOps, FdpAdvance, FdpGc, FdpWrite, FdpInit and
      FdpIo hold its invariant and the proof of each of its operations;
    - CoreSpec, FdpSpec, FdpRefine: the theorems on the parts above;
    - Zns (src/zns_ftl.c, src/zns_ftl.h, src/zns_read_write.c,
      src/zns_mgmt_send.c, src/zns_mgmt_recv.c): the zoned namespace, with zone
      resources and the random write area; ZnsInv, ZnsOps, ZnsWrite, ZnsIo,
      ZnsInit, ZnsProc and ZnsAcct hold its invariant, the zone state machine, the
      write path, reports, initialisation, dispatch and the buffer account;
    - ZnsSpec, ZnsProps: the abstract zone machine and the theorems;
    - Dma (src/dma.c): the client of the DMA engine, from the request of a channel to
      the wait for a transfer; WorkQueue, IoData, Io (src/io.c, the I/O doorbells of
      src/main.c): the work
      queues of the workers, the copying of data by CPU and through Dma, and dispatch,
      worker loop, completion queues and interrupts; IoInv, IoSteps, IoDispatch and
      IoScan hold the interleaving semantics, its invariant, the processing of a
      submission queue and of a worker's scan; IoProps the theorems;
    - ConvFtl (src/conv_ftl.c, src/conv_ftl.h): the conventional translation layer,
      handler by handler; Sim is the calculus of simulations by a map of states,
      ConvSim relates every operation of the layer to that of the FDP layer with one
      handle, ConvProps has the theorems;
    - SimpleFtl (src/simple_ftl.c): the layer without NAND, a schedule over I/O units;
    - Alloc (src/append_only.c, src/bitmap.c): the two space allocators behind the
      class [AllocatorOps] (struct allocator_ops) and what the key-value layer relies
      on, the class [AllocatorLaws];
    - KvFtl (src/kv_ftl.c, src/kv_ftl.h, src/nvme_kv.h): the key-value layer; KvTable
      and KvOps hold the walks along hash chains and the table operations, KvIo the
      invariant, the abstract map and the commands on one key, KvIter iterators,
      KvBatch batches, KvProps the theorems;
    - Pci (src/pci.c, src/pci.h): the configuration space, its settings and the access
      of the host to it; PciProps has its bit lemmas and theorem;
    - Ctrl (src/pci.c, src/nvmev.h): the part of struct nvmev_dev that registers and
      admin commands touch, start-up, the detection of register changes, interrupts;
      CtrlProps: bring-up and reset;
    - Admin (src/admin.c, the admin doorbells of src/main.c): every admin command, as
      reads and writes of physical memory; AdminQueue holds memory and ring lemmas,
      AdminOps one lemma per command, AdminSession any series of commands, AdminProps
      and AdminStart the theorems;
    - Layout: the C rules for the layout of structures, bit fields and unions, as
      functions on descriptions of types; Wire (src/nvme.h, src/nvme_zns.h,
      src/nvme_fdp.h, src/nvme_kv.h, src/pci.h): every structure of these headers as
      such a description; WireProps: reading a member from memory, and the theorems;
    - Workload (src/fdp_workload.c, src/lsm_workload.c): the two host programs that
      write with placement directives, on Double, rounding in double precision;
      WorkloadProps: shuffle, level bands, what a filled device holds;
    - Driver (src/main.c): module parameters, the storage area and its namespaces, the
      dispatcher's loop, procfs; DriverProps: where the areas lie;
    - Lifecycle (src/main.c and the start-up and removal of src/pci.c, src/io.c,
      src/admin.c): the kernel resources the driver holds, as null, live or dangling
      pointers; LifecycleProps: what loading and unloading leave behind.

    ** How state and operations correspond to the code

    A C function is a definition of the same name (without leading underscores) in
    the monad [M S A]: it takes the state [S] and returns a value and the new
    state, or a fault.  Structs are records, arrays reached through pointers are
    values of type [arr], pointers to elements of an array are indices.  State that
    several partitions reach through a shared pointer (the PCIe channel and the
    write buffer of all FDP partitions) is kept once, outside the partitions.  A
    failed NVMEV_ASSERT, an access outside an array, a null dereference, a division
    by zero and a loop that exceeds its bound are faults, so that a theorem that a
    handler returns is a theorem that none of them happens.  Integers are [Z] with
    the wrap-around of their C type written out where a value is stored or an
    unsigned operation may wrap.  The two clocks are classes ([Clock],
    [LocalClock]): sequences of readings of which nothing is assumed but that they
    are not negative.  In the translation layers calls of
    schedule_internal_operation append to a list; the release of buffer space that
    the I/O engine performs for them is a step of its own.  The I/O engine reaches a
    translation layer through the class [IoHandler] (the function pointers of struct
    nvmev_ns, whose scheduled operations the dispatcher then inserts) and its
    promises are the class [IoHandlerLaws]; pfn_valid is a parameter, and physical
    memory is a function from addresses to bytes.  The kernel's dmaengine is the class
    [DmaCore], whose answers are functions of the calls made so far; what its
    documentation says of a completed transfer is the class [DmaLaws].  A copy from an
    allocated buffer checks the size of that buffer (the report buffer of the zoned
    device), as an access to an array does.

    Dispatcher and workers run concurrently.  Io defines each of their functions as
    the code has it; IoSteps gives the interleaving ([io_step]), whose atomic steps
    are those of the dispatcher that a memory barrier or a single store publishes
    (taking and filling an item, inserting it, returning finished items), a worker's
    visit of an item, its reading of the next link, an interrupt, a completion
    doorbell and a call of the handler.  The cursor of a worker is therefore kept
    across arbitrary actions of the dispatcher.

    ** What the theorems show

    - Parts: the heap operations keep the heap a heap over the same elements and
      popping yields the elements in order; a channel request takes its credits
      first-fit; packing a physical address into 64 bits is a bijection; NAND
      timing never changes contents and never runs backwards; the event ring is a
      bounded queue; log pages decode to the state they were filled from.
    - FDP device: in every state reachable by commands, feature changes and buffer
      releases the forward and reverse map and the page states agree, every line is
      in exactly one list and counted right, data stays with its handle or in lines
      the collector filled, and no command faults, provided the host keeps to a
      stated share of the capacity; the device refines a specification in which
      only the handle of each page, the free buffer space and the host byte count
      occur.  Without the proviso a write faults when no line is free.
    - Zoned device: in every reachable state the zones are consistent with their
      descriptors, the resource counters are exact, no command faults, and sessions
      refine an abstract machine of zone states and write pointers; zone
      management, writes, reads, reports and flushes are described branch by
      branch; write buffers are never over-released when the write unit is a whole
      number of pages.  For the shipped configurations two failures are proved: the
      over-release with 512-byte writes, and a division by zero on a zone opened
      with a random write area.

    - Conventional device: it is the FDP layer with a single handle, operation by
      operation and fault by fault ([conv_is_fdp_with_one_handle]); so every session
      refines a specification of which pages were written and how much buffer space
      is left, and the maps, page states and lines agree in every reachable state.

    - Key-value device: in every reachable state, deletions included, every walk along
      a chain ends, the layer shows a map from keys to values and every command changes
      it as specified, whichever allocator serves it; what is stored is what is
      retrieved; iterators list every matching slot once.  Three failures are proved: a
      deletion loses keys behind it, a longer value overwrites its neighbour, a full
      table makes a store endless.
    - Simple device: the completion time and the state of every I/O unit, in closed form.

    - Controller: however the dispatcher's polls fall between the register writes of the
      host, the controller comes up with the queue asked for; the configuration space
      keeps its identity; a doorbell of the admin queue gets exactly one completion per
      announced command, in order, and nothing else in memory changes; queues are
      created as their commands ask; from power-on to the first completions the parts
      compose.  Proved as well: a controller reset keeps a stale queue state, and after a
      shutdown the phase is still stale.

    - Wire formats: a host that reads the identify pages and completions through the
      structures of the headers finds the values the device means; sizes and offsets in
      the code are those of the structures, with the declarations that are too long named
      (checks of the layouts, not of the program).

    - Host programs: the level bands computed in double precision are the exact ones; a
      fill issues one write to every slot, reports success exactly if all were accepted,
      and then leaves every page behind the handle of its level.
    - Driver: storage area and namespaces lie in the reserved region, disjoint; loading,
      any series of events and unloading free nothing twice, and what stays allocated is
      described exactly: not nothing, since the last queue, the page tables of queues
      and, after a failed start, the storage are forgotten.

    - I/O engine: in every interleaving of dispatcher, workers and host no action
      faults, doorbells of submission and completion queues included (a completion
      doorbell outside its ring is proved to hang the dispatcher); every item put to work
      is finished exactly once and not before its
      time, and completion queues are rings with the right phase; an undisturbed
      scan finishes all that is due at the times it reads; processing a submission queue
      starts the consumed commands in order; the work queue stays sorted; the copy by DMA
      moves the same bytes as the copy by the CPU on the first namespace, and to the
      wrong place on any other.

    ** Bounds and fuel

    [while_loop] takes a bound on its rounds, a binary number; the rule [wp_while]
    requires a measure that is below the bound and decreases, so every loop that is
    proved to return terminates by that measure and the bound never cuts it short.
    The bounds are those of the code's own loop variables (cells of the heap, time
    slots of a channel, pages of a range, bytes of a transfer).  Other recursion is
    structural, on lists of indices.

    ** Hypotheses on the host and on the configuration

    The FDP model takes the number of handles from the class [Handles]; the device
    has [FDP_NR_RUH] of them ([fdp_handles]) and the conventional layer is compared
    with one.  FDP: the conventional layout of the shipped devices ([conv_layout]), four
    partitions, fewer logical pages per partition than the pages outside 18 of its
    lines ([cmd_ok], [limit]); the conventional device needs 4 lines instead of 18.
    ZNS: the layout of the shipped zoned devices
    ([zns_layout]), a capacity of whole zones below 2 TiB ([zns_size_ok]), commands
    on blocks of the namespace whose transfer fits in a write buffer, that do not
    ask for a random write area, and reports no longer than the report buffer
    ([zcmd_ok]).  I/O engine: a started device
    ([io_start]), between 2 and 2^31 items per worker, transfers whose length agrees
    with the PRP entries ([copy_safe], [transfer_ok]), and for the comparison of the
    copies a channel and an engine that reports no error ([dma_ready],
    [dma_completes]).  Key-value: keys of one common
    length of at most 16 bytes, a free slot and space for a new value, a replaced value
    that is not shorter than the new one ([command_ok]); kernel buffers outside the
    storage area; all iterator handles free at the start.  Admin: the rings and the
    buffers the host names do not overlap, queue and namespace identifiers exist and
    log pages are not asked for beyond their size (the record [cmd_ok] of
    AdminSession): the code checks none of this.  Host programs: a size of the device in
    the range of off_t and tot * T^L below 2^53, where double precision is exact enough
    ([fill_args]).  Life cycle: queue numbers the device has, no queue created over an
    existing one ([event_ok]).  Each property with hypotheses has a
    witness that meets them on a concrete device.

    ** Not modelled

    The kernel's PCI bus scan and mapping of memory (in Ctrl they always succeed, in
    Lifecycle the answer is a parameter), the kernel's DMA engine, the creation
    and binding of threads, the memory a translation layer allocates and its removal,
    the locks (handlers run on one dispatcher, a completion is posted under the lock of
    its queue), debug output.  In the I/O engine
    queues are not created or deleted during a run (Admin models that on its own copy
    of the queue tables), the interleaving theorems are
    for the CPU copy (io_using_dma is false in the shipped build, and nothing sets
    it), and the
    KV_PROTOTYPE branch of the worker, which hands a command to the key-value layer, is
    left out.  The search of the kernel's bitmap library and the addresses kmalloc
    returns are parameters. *)

From Stdlib Require Import ZArith Lia.
From stdpp Require Import base numbers list gmap.

#[global] Set Default Goal Selector "!".
#[local] Open Scope Z_scope.

Declare Scope nvmev_scope.
Delimit Scope nvmev_scope with nvmev.

(** ** Fixed-width integers

    A C integer of width [w] is a [Z]; the conversions below are the ones C
    performs on assignment.  Unsigned types wrap; [s32] is the two's-complement
    reading of a 32-bit pattern, used where an unsigned value is stored in an
    [int]. *)

Definition u8 (x : Z) : Z := x mod 2 ^ 8.
Definition u16 (x : Z) : Z := x mod 2 ^ 16.
Definition u32 (x : Z) : Z := x mod 2 ^ 32.
Definition u64 (x : Z) : Z := x mod 2 ^ 64.
Definition s32 (x : Z) : Z := (x + 2 ^ 31) mod 2 ^ 32 - 2 ^ 31.

Definition DIV_ROUND_UP (n d : Z) : Z := u64 (n + d - 1) / d.
Definition KB (k : Z) : Z := Z.shiftl k 10.
Definition MB (m : Z) : Z := Z.shiftl m 20.
Definition GB (g : Z) : Z := Z.shiftl g 30.
Definition NS_PER_SEC (s : Z) : Z := s * 1000 * 1000 * 1000.
Definition PAGE_SIZE : Z := 4096.

(** ** Results and the state-and-error monad

    [BUG] is a failed [BUG_ON] / [NVMEV_ASSERT]; [OOPS] is a dereference of a
    null pointer, an access outside an array or a division by zero; [HANG] is a
    loop that has used up the steps the model gives it. *)

Inductive fault : Type := BUG | OOPS | HANG.

#[export] Instance fault_eq_dec : EqDecision fault.
Proof. solve_decision. Defined.

Inductive res (A : Type) : Type :=
| Ok (a : A)
| Fault (f : fault).
Arguments Ok {A} a.
Arguments Fault {A} f.

Definition M (S A : Type) : Type := S → res (A * S).

#[export] Instance M_ret {S} : MRet (M S) := λ A x s, Ok (x, s).
#[export] Instance M_bind {S} : MBind (M S) := λ A B f m s,
  match m s with
  | Ok (a, s') => f a s'
  | Fault e => Fault e
  end.

Definition throw {S A} (f : fault) : M S A := λ _, Fault f.
Definition get {S} : M S S := λ s, Ok (s, s).
Definition put {S} (s : S) : M S unit := λ _, Ok (tt, s).
Definition modify {S} (f : S → S) : M S unit := λ s, Ok (tt, f s).
Definition gets {S A} (f : S → A) : M S A := λ s, Ok (f s, s).

(** [NVMEV_ASSERT(x)] is [BUG_ON(!x)]. *)
Definition NVMEV_ASSERT {S} (b : bool) : M S unit :=
  if b then mret tt else throw BUG.

(** A pointer that may be null, or an array cell that may not exist. *)
Definition deref {S A} (o : option A) : M S A :=
  match o with Some a => mret a | None => throw OOPS end.

Definition when {S} (b : bool) (m : M S unit) : M S unit :=
  if b then m else mret tt.

(** Runs [m] on a component of a larger state. *)
Definition zoom {S T A} (g : S → T) (p : T → S → S) (m : M T A) : M S A := λ s,
  match m (g s) with
  | Ok (a, t) => Ok (a, p t s)
  | Fault e => Fault e
  end.

(** [for (i = lo; i < hi; i++) body] *)
Fixpoint for_list {S A} (l : list A) (body : A → M S unit) : M S unit :=
  match l with
  | [] => mret tt
  | i :: l' => body i ;; for_list l' body
  end.
Definition for_range {S} (lo hi : Z) (body : Z → M S unit) : M S unit :=
  for_list (seqZ lo (hi - lo)) body.

(** A [while] loop: [body x] returns [inl y] to go round again with the locals
    [y], and [inr r] to leave.  [p] bounds the number of rounds; it is a binary
    number, so a large bound costs nothing to write down. *)
Fixpoint loop_pos {S X R} (p : positive) (body : X → M S (X + R)) (x : X) : M S (X + R) :=
  match p with
  | xH => body x
  | xO q =>
      r ← loop_pos q body x;
      match r with
      | inl y => loop_pos q body y
      | inr v => mret (inr v)
      end
  | xI q =>
      r ← body x;
      match r with
      | inl y =>
          r' ← loop_pos q body y;
          match r' with
          | inl z => loop_pos q body z
          | inr v => mret (inr v)
          end
      | inr v => mret (inr v)
      end
  end.
Definition while_loop {S X R} (bound : Z) (body : X → M S (X + R)) (x : X) : M S R :=
  r ← loop_pos (Z.to_pos bound) body x;
  match r with
  | inr v => mret v
  | inl _ => throw HANG
  end.

(** [list_del_init]: an element leaves the list it is on. *)
Definition list_del (l : Z) (xs : list Z) : list Z := filter (λ x, x ≠ l) xs.

(** ** C arrays

    An array of [alen] cells; a cell that was never written holds [adef].  The
    laws below ([aget_aset] and friends) are all that the rest of the
    development uses. *)

Record arr (A : Type) : Type := Arr { alen : Z; adef : A; acells : gmap Z A }.
Arguments Arr {A} _ _ _.
Arguments alen {A} _.
Arguments adef {A} _.
Arguments acells {A} _.

Definition anew {A} (n : Z) (d : A) : arr A := Arr n d ∅.
Definition in_range (n i : Z) : bool := (0 <=? i) && (i <? n).
Definition aget {A} (a : arr A) (i : Z) : option A :=
  if in_range (alen a) i then Some (default (adef a) (acells a !! i)) else None.
Definition aset {A} (a : arr A) (i : Z) (x : A) : arr A :=
  if in_range (alen a) i then Arr (alen a) (adef a) (<[i := x]> (acells a)) else a.
Definition aupd {A} (a : arr A) (i : Z) (f : A → A) : arr A :=
  match aget a i with Some x => aset a i (f x) | None => a end.

(** [memset(&a[lo], v, n)] for an array whose cells are compared with [v] by
    [EqDecision]: cells set back to the default are forgotten. *)
Definition afill `{EqDecision A} (a : arr A) (lo n : Z) (v : A) : arr A :=
  if decide (v = adef a)
  then Arr (alen a) (adef a) (filter (λ kv, ¬ (lo ≤ kv.1 < lo + n)) (acells a))
  else foldl (λ b i, aset b i v) a (seqZ lo n).

(** An array initialised cell by cell, [for (i = 0; i < n; i++) a[i] = f(i)]. *)
Definition abuild {A} (n : Z) (d : A) (f : Z → A) : arr A :=
  foldl (λ b i, aset b i (f i)) (anew n d) (seqZ 0 n).

Definition aread {S A} (a : arr A) (i : Z) : M S A := deref (aget a i).
Definition awrite {S A} (a : arr A) (i : Z) (x : A) : M S (arr A) :=
  if in_range (alen a) i then mret (aset a i x) else throw OOPS.

(** ** Counting *)

Fixpoint cnt {A} (P : A → bool) (l : list A) : Z :=
  match l with
  | [] => 0
  | x :: l' => Z.b2z (P x) + cnt P l'
  end.
Fixpoint zsum {A} (f : A → Z) (l : list A) : Z :=
  match l with
  | [] => 0
  | x :: l' => f x + zsum f l'
  end.

(** ** Weakest preconditions (total correctness: no fault) *)

Definition wp {S A} (m : M S A) (s : S) (Q : A → S → Prop) : Prop :=
  match m s with
  | Ok (a, s') => Q a s'
  | Fault _ => False
  end.

(** ** Laws of the fixed-width conversions *)

Lemma u8_small x : 0 ≤ x < 2 ^ 8 → u8 x = x.
Proof. apply Z.mod_small. Qed.
Lemma u16_small x : 0 ≤ x < 2 ^ 16 → u16 x = x.
Proof. apply Z.mod_small. Qed.
Lemma u32_small x : 0 ≤ x < 2 ^ 32 → u32 x = x.
Proof. apply Z.mod_small. Qed.
Lemma u64_small x : 0 ≤ x < 2 ^ 64 → u64 x = x.
Proof. apply Z.mod_small. Qed.
Lemma s32_small x : - 2 ^ 31 ≤ x < 2 ^ 31 → s32 x = x.
Proof. intros H. unfold s32. rewrite Z.mod_small; lia. Qed.
Lemma u8_range x : 0 ≤ u8 x < 2 ^ 8.
Proof. apply Z.mod_pos_bound. lia. Qed.
Lemma u16_range x : 0 ≤ u16 x < 2 ^ 16.
Proof. apply Z.mod_pos_bound. lia. Qed.
Lemma u32_range x : 0 ≤ u32 x < 2 ^ 32.
Proof. apply Z.mod_pos_bound. lia. Qed.
Lemma u64_range x : 0 ≤ u64 x < 2 ^ 64.
Proof. apply Z.mod_pos_bound. lia. Qed.

Lemma DIV_ROUND_UP_spec n d :
  0 < d → 0 ≤ n → n + d ≤ 2 ^ 64 → n ≤ d * DIV_ROUND_UP n d < n + d.
Proof.
  intros Hd Hn Hb. unfold DIV_ROUND_UP. rewrite u64_small by lia.
  pose proof (Z.div_mod (n + d - 1) d ltac:(lia)).
  pose proof (Z.mod_pos_bound (n + d - 1) d Hd). lia.
Qed.

(** ** Laws of arrays *)

Lemma in_range_true n i : in_range n i = true ↔ 0 ≤ i < n.
Proof. unfold in_range. rewrite andb_true_iff, Z.leb_le, Z.ltb_lt. lia. Qed.
Lemma in_range_false n i : in_range n i = false ↔ ¬ (0 ≤ i < n).
Proof. rewrite <- in_range_true. by destruct (in_range n i). Qed.

Section arrays.
Context {A : Type}.
Implicit Types (a : arr A) (x : A).

Lemma aget_is_Some a i : is_Some (aget a i) ↔ 0 ≤ i < alen a.
Proof.
  unfold aget. rewrite <- in_range_true.
  destruct (in_range (alen a) i); split; intros H; try done; by destruct H.
Qed.

Lemma aget_inv a i x : aget a i = Some x → 0 ≤ i < alen a.
Proof. intros H. apply aget_is_Some. eauto. Qed.

Lemma aget_some a i : 0 ≤ i < alen a → ∃ x, aget a i = Some x.
Proof. intros H. by apply aget_is_Some in H as [x ?]; eauto. Qed.

Lemma aget_none a i : ¬ (0 ≤ i < alen a) → aget a i = None.
Proof. intros H. unfold aget. by apply in_range_false in H as ->. Qed.

Lemma alen_aset a i x : alen (aset a i x) = alen a.
Proof. unfold aset. by destruct (in_range _ _). Qed.

Lemma aget_aset a i j x :
  0 ≤ i < alen a → aget (aset a i x) j = if decide (i = j) then Some x else aget a j.
Proof.
  intros H. unfold aset. rewrite (proj2 (in_range_true _ _) H). unfold aget; simpl.
  case_decide as Hij.
  - subst j. by rewrite (proj2 (in_range_true _ _) H), lookup_insert_eq.
  - by rewrite lookup_insert_ne.
Qed.

Lemma aget_aset_eq a i x : 0 ≤ i < alen a → aget (aset a i x) i = Some x.
Proof. intros H. rewrite aget_aset by done. by rewrite decide_True. Qed.

Lemma aget_aset_ne a i j x : i ≠ j → aget (aset a i x) j = aget a j.
Proof.
  intros Hij. destruct (decide (0 ≤ i < alen a)) as [H|H].
  - rewrite aget_aset by done. by rewrite decide_False.
  - unfold aset. by apply in_range_false in H as ->.
Qed.

Lemma aset_oob a i x : ¬ (0 ≤ i < alen a) → aset a i x = a.
Proof. intros H. unfold aset. by apply in_range_false in H as ->. Qed.

Lemma alen_aupd a i f : alen (aupd a i f) = alen a.
Proof. unfold aupd. destruct (aget a i); [apply alen_aset|done]. Qed.

Lemma aget_aupd a i j f :
  aget (aupd a i f) j = if decide (i = j) then f <$> aget a j else aget a j.
Proof.
  unfold aupd. destruct (aget a i) as [x|] eqn:E; case_decide as Hij; subst.
  - rewrite aget_aset_eq by eauto using aget_inv. by rewrite E.
  - by rewrite aget_aset_ne.
  - by rewrite E.
  - done.
Qed.

Lemma alen_anew n x : alen (anew n x) = n.
Proof. done. Qed.

Lemma aget_anew n x i : aget (anew n x) i = if decide (0 ≤ i < n) then Some x else None.
Proof.
  unfold aget, anew; simpl. case_decide as H.
  - by rewrite (proj2 (in_range_true _ _) H), lookup_empty.
  - by rewrite (proj2 (in_range_false _ _) H).
Qed.

Lemma aget_foldl_aset l f a j :
  Forall (λ i, 0 ≤ i < alen a) l →
  alen (foldl (λ b i, aset b i (f i)) a l) = alen a ∧
  aget (foldl (λ b i, aset b i (f i)) a l) j =
    if decide (j ∈ l) then Some (f j) else aget a j.
Proof.
  revert a. induction l as [|i l IH]; intros a Hl; simpl.
  { split; [done|]. destruct (decide (j ∈ [])) as [Hj|]; [by apply not_elem_of_nil in Hj|done]. }
  apply Forall_cons in Hl as [Hi Hl].
  destruct (IH (aset a i (f i))) as [Hlen Hget].
  { by rewrite alen_aset. }
  rewrite alen_aset in Hlen. split; [done|]. rewrite Hget.
  rewrite aget_aset by done.
  destruct (decide (j ∈ l)) as [Hj|Hj], (decide (j ∈ i :: l)) as [Hc|Hc],
    (decide (i = j)) as [Hij|Hij]; rewrite elem_of_cons in Hc; intuition congruence.
Qed.

Lemma alen_abuild n x f : alen (abuild n x f) = n.
Proof.
  apply (aget_foldl_aset (seqZ 0 n) f (anew n x) 0).
  apply Forall_forall. intros i Hi%elem_of_seqZ. simpl. lia.
Qed.

Lemma aget_abuild n x f i :
  aget (abuild n x f) i = if decide (0 ≤ i < n) then Some (f i) else None.
Proof.
  unfold abuild.
  rewrite (proj2 (aget_foldl_aset (seqZ 0 n) f (anew n x) i
    ltac:(apply Forall_forall; intros k Hk%elem_of_seqZ; simpl; lia))).
  rewrite aget_anew.
  destruct (decide (0 ≤ i < n)); destruct (decide (i ∈ seqZ 0 n)) as [Hs|Hs];
    rewrite elem_of_seqZ in Hs; done || lia.
Qed.

Lemma alen_afill `{EqDecision A} a lo n x :
  0 ≤ lo → lo + n ≤ alen a → alen (afill a lo n x) = alen a.
Proof.
  intros Hlo Hn. unfold afill. case_decide; [done|].
  apply (aget_foldl_aset (seqZ lo n) (λ _, x) a 0).
  apply Forall_forall. intros i Hi%elem_of_seqZ. lia.
Qed.

Lemma aget_afill `{EqDecision A} a lo n x i :
  0 ≤ lo → lo + n ≤ alen a →
  aget (afill a lo n x) i = if decide (lo ≤ i < lo + n) then Some x else aget a i.
Proof.
  intros Hlo Hn. unfold afill. case_decide as Hx.
  - unfold aget; simpl. destruct (in_range (alen a) i) eqn:Hr.
    + rewrite map_lookup_filter. destruct (acells a !! i) as [y|] eqn:E; simpl.
      * case_decide as Hi; case_guard; simpl; try done; try lia. by subst.
      * case_decide; by subst.
    + apply in_range_false in Hr. rewrite decide_False by lia. done.
  - rewrite (proj2 (aget_foldl_aset (seqZ lo n) (λ _, x) a i
      ltac:(apply Forall_forall; intros k Hk%elem_of_seqZ; simpl; lia))).
    destruct (decide (lo ≤ i < lo + n)); destruct (decide (i ∈ seqZ lo n)) as [Hs|Hs];
      rewrite elem_of_seqZ in Hs; done || lia.
Qed.
End arrays.

(** ** Laws of counting *)

Section counting.
Context {A : Type}.
Implicit Types (l : list A) (P Q : A → bool).

Lemma cnt_bounds P l : 0 ≤ cnt P l ≤ Z.of_nat (length l).
Proof. induction l as [|x l IH]; simpl; [lia|]. destruct (P x); simpl; lia. Qed.

Lemma cnt_ext P Q l : (∀ x, x ∈ l → P x = Q x) → cnt P l = cnt Q l.
Proof.
  induction l as [|x l IH]; intros H; simpl; [done|].
  rewrite (H x) by set_solver. rewrite IH; [done|set_solver].
Qed.

Lemma cnt_app P l1 l2 : cnt P (l1 ++ l2) = cnt P l1 + cnt P l2.
Proof. induction l1 as [|x l1 IH]; simpl; [done|]. lia. Qed.

Lemma cnt_Permutation P l1 l2 : l1 ≡ₚ l2 → cnt P l1 = cnt P l2.
Proof. induction 1; simpl; lia. Qed.

Lemma cnt_all P l : (∀ x, x ∈ l → P x = true) → cnt P l = Z.of_nat (length l).
Proof.
  induction l as [|x l IH]; intros H; simpl; [done|].
  rewrite (H x), IH by set_solver. simpl. lia.
Qed.

Lemma cnt_none P l : (∀ x, x ∈ l → P x = false) → cnt P l = 0.
Proof.
  induction l as [|x l IH]; intros H; simpl; [done|].
  rewrite (H x), IH by set_solver. done.
Qed.

Lemma cnt_zero P l x : cnt P l = 0 → x ∈ l → P x = false.
Proof.
  induction l as [|y l IH]; simpl; [set_solver|]. intros H [->|Hx]%elem_of_cons.
  - pose proof (cnt_bounds P l). destruct (P y); simpl in *; lia || done.
  - pose proof (cnt_bounds P l). apply IH; [|done]. destruct (P y); simpl in *; lia.
Qed.

Lemma cnt_full P l x : cnt P l = Z.of_nat (length l) → x ∈ l → P x = true.
Proof.
  induction l as [|y l IH]; simpl; [set_solver|]. intros H [->|Hx]%elem_of_cons.
  - pose proof (cnt_bounds P l). destruct (P y); simpl in *; lia || done.
  - pose proof (cnt_bounds P l). apply IH; [|done]. destruct (P y); simpl in *; lia.
Qed.

(** Changing a predicate at one element of a duplicate-free list. *)
Lemma cnt_upd P Q l x :
  NoDup l → x ∈ l → (∀ y, y ∈ l → y ≠ x → P y = Q y) →
  cnt Q l = cnt P l - Z.b2z (P x) + Z.b2z (Q x).
Proof.
  induction l as [|y l IH]; [set_solver|]. intros Hnd Hx Heq.
  apply NoDup_cons in Hnd as [Hy Hnd]. simpl.
  apply elem_of_cons in Hx as [->|Hx].
  - rewrite (cnt_ext Q P l); [lia|]. intros z Hz. symmetry. apply Heq; set_solver.
  - rewrite (Heq y) by set_solver. rewrite (IH Hnd); [lia|set_solver|set_solver].
Qed.

Lemma cnt_pos P l x : x ∈ l → P x = true → 0 < cnt P l.
Proof.
  induction l as [|y l IH]; simpl; [set_solver|]. intros [->|Hx]%elem_of_cons Hp.
  - rewrite Hp. pose proof (cnt_bounds P l). simpl. lia.
  - specialize (IH Hx Hp). destruct (P y); simpl; lia.
Qed.

(** Predicates that never hold together. *)
Lemma cnt_disjoint P Q l :
  (∀ x, x ∈ l → P x = true → Q x = false) → cnt P l + cnt Q l ≤ Z.of_nat (length l).
Proof.
  induction l as [|x l IH]; intros H; simpl; [lia|].
  specialize (IH ltac:(set_solver)). specialize (H x ltac:(set_solver)).
  destruct (P x), (Q x); simpl; lia || by specialize (H eq_refl).
Qed.

Lemma zsum_ext (f g : A → Z) l : (∀ x, x ∈ l → f x = g x) → zsum f l = zsum g l.
Proof.
  induction l as [|x l IH]; intros H; simpl; [done|].
  rewrite (H x) by set_solver. rewrite IH; [done|set_solver].
Qed.

Lemma zsum_app (f : A → Z) l1 l2 : zsum f (l1 ++ l2) = zsum f l1 + zsum f l2.
Proof. induction l1 as [|x l1 IH]; simpl; [done|]. lia. Qed.

Lemma zsum_upd (f g : A → Z) l x :
  NoDup l → x ∈ l → (∀ y, y ∈ l → y ≠ x → f y = g y) →
  zsum g l = zsum f l - f x + g x.
Proof.
  induction l as [|y l IH]; [set_solver|]. intros Hnd Hx Heq.
  apply NoDup_cons in Hnd as [Hy Hnd]. simpl.
  apply elem_of_cons in Hx as [->|Hx].
  - rewrite (zsum_ext g f l); [lia|]. intros z Hz. symmetry. apply Heq; set_solver.
  - rewrite (Heq y) by set_solver. rewrite (IH Hnd); [lia|set_solver|set_solver].
Qed.

Lemma zsum_bounds (f : A → Z) l lo hi :
  (∀ x, x ∈ l → lo ≤ f x ≤ hi) →
  lo * Z.of_nat (length l) ≤ zsum f l ≤ hi * Z.of_nat (length l).
Proof.
  induction l as [|x l IH]; intros H; simpl; [lia|].
  specialize (IH ltac:(set_solver)). specialize (H x ltac:(set_solver)). lia.
Qed.
End counting.

(** ** Rules of [wp] *)

Section wp_rules.
Context {S : Type}.

Lemma wp_ret {A} (a : A) (s : S) Q : Q a s → wp (mret a) s Q.
Proof. done. Qed.

Lemma wp_bind {A B} (m : M S A) (f : A → M S B) s Q :
  wp m s (λ a s', wp (f a) s' Q) → wp (m ≫= f) s Q.
Proof. unfold wp, mbind, M_bind. by destruct (m s) as [[a s']|]. Qed.

Lemma wp_mono {A} (m : M S A) s (Q Q' : A → S → Prop) :
  wp m s Q → (∀ a s', Q a s' → Q' a s') → wp m s Q'.
Proof. unfold wp. destruct (m s) as [[a s']|]; [eauto|done]. Qed.

Lemma wp_and {A} (m : M S A) s (Q Q' : A → S → Prop) :
  wp m s Q → wp m s Q' → wp m s (λ a s', Q a s' ∧ Q' a s').
Proof. unfold wp. destruct (m s) as [[a s']|]; [eauto|done]. Qed.

Lemma wp_assert (b : bool) (s : S) Q : b = true → Q tt s → wp (NVMEV_ASSERT b) s Q.
Proof. by intros ->. Qed.

Lemma wp_deref {A} (o : option A) (s : S) a Q : o = Some a → Q a s → wp (deref o) s Q.
Proof. by intros ->. Qed.

Lemma wp_get (s : S) Q : Q s s → wp get s Q.
Proof. done. Qed.
Lemma wp_gets {A} (f : S → A) s Q : Q (f s) s → wp (gets f) s Q.
Proof. done. Qed.
Lemma wp_put (s s' : S) Q : Q tt s' → wp (put s') s Q.
Proof. done. Qed.
Lemma wp_modify (f : S → S) s Q : Q tt (f s) → wp (modify f) s Q.
Proof. done. Qed.

Lemma wp_when (b : bool) (m : M S unit) s Q :
  (b = true → wp m s Q) → (b = false → Q tt s) → wp (when b m) s Q.
Proof. intros H1 H2. destruct b; [by apply H1|by apply H2]. Qed.

Lemma wp_aread {A} (a : arr A) i x (s : S) Q :
  aget a i = Some x → Q x s → wp (aread a i) s Q.
Proof. intros H. unfold aread. by rewrite H. Qed.

Lemma wp_awrite {A} (a : arr A) i x (s : S) Q :
  0 ≤ i < alen a → Q (aset a i x) s → wp (awrite a i x) s Q.
Proof. intros H. unfold awrite. by rewrite (proj2 (in_range_true _ _) H). Qed.

Lemma wp_zoom {T A} (g : S → T) p (m : M T A) s Q :
  wp m (g s) (λ a t, Q a (p t s)) → wp (zoom g p m) s Q.
Proof. unfold wp, zoom. by destruct (m (g s)) as [[a t]|]. Qed.

(** The invariant sees the elements already visited and those still to come. *)
Lemma wp_for_list {A} (I : list A → S → Prop) (l : list A) body s Q :
  I [] s →
  (∀ l1 x l2 s, l = l1 ++ x :: l2 → I l1 s → wp (body x) s (λ _ s', I (l1 ++ [x]) s')) →
  (∀ s', I l s' → Q tt s') →
  wp (for_list l body) s Q.
Proof.
  intros H0 Hstep HQ.
  enough (∀ l2 l1 s, l = l1 ++ l2 → I l1 s → wp (for_list l2 body) s Q) as Hgen
    by by apply (Hgen l []).
  induction l2 as [|x l2 IH]; intros l1 t Hl HI; simpl.
  - apply HQ. rewrite app_nil_r in Hl. by subst.
  - apply wp_bind. eapply wp_mono; [by eapply Hstep|].
    intros [] t' HI'. apply (IH (l1 ++ [x])); [|done]. by rewrite <- app_assoc.
Qed.

Lemma for_list_app {A} (l1 l2 : list A) (body : A → M S unit) s Q :
  wp (for_list l1 body) s (λ _ s', wp (for_list l2 body) s' Q) →
  wp (for_list (l1 ++ l2) body) s Q.
Proof.
  revert s. induction l1 as [|x l1 IH]; intros s H; simpl; [done|].
  apply wp_bind. simpl in H. unfold wp in *. unfold mbind, M_bind in H.
  destruct (body x s) as [[[] s']|]; [|done]. by apply IH.
Qed.

Lemma wp_for_range (I : Z → S → Prop) lo hi body s Q :
  lo ≤ hi →
  I lo s →
  (∀ i s, lo ≤ i < hi → I i s → wp (body i) s (λ _ s', I (i + 1) s')) →
  (∀ s', I hi s' → Q tt s') →
  wp (for_range lo hi body) s Q.
Proof.
  intros Hle H0 Hstep HQ. unfold for_range.
  apply (wp_for_list (λ l s, I (lo + Z.of_nat (length l)) s)).
  - simpl. by rewrite Z.add_0_r.
  - intros l1 x l2 t Hl HI.
    assert (x = lo + Z.of_nat (length l1) ∧ lo ≤ x < hi) as [-> Hx].
    { assert (seqZ lo (hi - lo) !! length l1 = Some x) as Hlk.
      { rewrite Hl. rewrite lookup_app_r by lia. by rewrite Nat.sub_diag. }
      apply lookup_seqZ in Hlk. lia. }
    eapply wp_mono; [by apply Hstep|]. intros [] t' Ht'.
    rewrite length_app; simpl. by replace (lo + Z.of_nat (length l1 + 1))
      with (lo + Z.of_nat (length l1) + 1) by lia.
  - intros t' Ht'. apply HQ. rewrite length_seqZ in Ht'.
    by replace (lo + Z.of_nat (Z.to_nat (hi - lo))) with hi in Ht' by lia.
Qed.

(** A loop whose body keeps [I] and decreases [m] leaves before its bound.  The
    measure is on a ghost value [g] that need not be computed from the locals. *)
Lemma wp_loop_pos {G X R} (I : G → X → S → Prop) (m : G → Z) (body : X → M S (X + R))
    (Q : R → S → Prop) :
  (∀ g x s, I g x s → 0 ≤ m g ∧
     wp (body x) s (λ r s', match r with
                            | inl y => ∃ g', I g' y s' ∧ m g' < m g
                            | inr v => Q v s'
                            end)) →
  ∀ p g x s, I g x s →
    wp (loop_pos p body x) s (λ r s', match r with
                                      | inl y => ∃ g', I g' y s' ∧ m g' ≤ m g - Z.pos p
                                      | inr v => Q v s'
                                      end).
Proof.
  intros Hbody. induction p as [q IH|q IH|]; intros g x s HI; simpl.
  - apply wp_bind. eapply wp_mono; [by apply (Hbody g)|].
    intros [y|v] s' Hr; [|done]. destruct Hr as (g1 & Hy & Hm).
    apply wp_bind. eapply wp_mono; [by apply (IH g1)|].
    intros [z|v] s'' Hr; [|done]. destruct Hr as (g2 & Hz & Hmz).
    eapply wp_mono; [by apply (IH g2)|]. intros [w|v] t Hr; [|done].
    destruct Hr as (g3 & ? & ?). exists g3. split; [done|lia].
  - apply wp_bind. eapply wp_mono; [by apply (IH g)|].
    intros [y|v] s' Hr; [|done]. destruct Hr as (g1 & Hy & Hm).
    eapply wp_mono; [by apply (IH g1)|]. intros [w|v] t Hr; [|done].
    destruct Hr as (g2 & ? & ?). exists g2. split; [done|lia].
  - eapply wp_mono; [by apply (Hbody g)|]. intros [y|v] t Hr; [|done].
    destruct Hr as (g1 & ? & ?). exists g1. split; [done|lia].
Qed.

Lemma wp_while_ghost {G X R} (I : G → X → S → Prop) (m : G → Z) (body : X → M S (X + R))
    bound g x s (Q : R → S → Prop) :
  I g x s → m g < bound →
  (∀ g x s, I g x s → 0 ≤ m g ∧
     wp (body x) s (λ r s', match r with
                            | inl y => ∃ g', I g' y s' ∧ m g' < m g
                            | inr v => Q v s'
                            end)) →
  wp (while_loop bound body x) s Q.
Proof.
  intros HI Hb Hbody. unfold while_loop. apply wp_bind.
  eapply wp_mono; [by apply (wp_loop_pos I m body Q Hbody _ g)|].
  intros [y|v] s' Hr; simpl in *; [|by apply wp_ret].
  destruct Hr as (g' & Hy & Hm). destruct (Hbody g' y s' Hy) as [Hy0 _].
  destruct (Hbody g x s HI) as [Hx0 _]. lia.
Qed.

Lemma wp_while {X R} (I : X → S → Prop) (m : X → Z) (body : X → M S (X + R))
    bound x s (Q : R → S → Prop) :
  I x s → m x < bound →
  (∀ x s, I x s → 0 ≤ m x ∧
     wp (body x) s (λ r s', match r with
                            | inl y => I y s' ∧ m y < m x
                            | inr v => Q v s'
                            end)) →
  wp (while_loop bound body x) s Q.
Proof.
  intros HI Hb Hbody. apply (wp_while_ghost (λ g x s, g = x ∧ I x s) m _ _ x); [done|done|].
  intros g y t [-> Ht]. destruct (Hbody y t Ht) as [Hm Hw]. split; [done|].
  eapply wp_mono; [exact Hw|]. intros [z|v] t' Hz; [|done]. exists z. naive_solver.
Qed.

(** The outcome of a sequence from that of its parts. *)
Lemma bind_Ok {A B} (m : M S A) (f : A → M S B) s (P : A → S → Prop) r :
  wp m s P → (∀ a s', P a s' → f a s' = r) → (m ≫= f) s = r.
Proof. unfold wp, mbind, M_bind. destruct (m s) as [[a s']|]; [eauto|done]. Qed.
Lemma bind_Fault {A B} (m : M S A) (f : A → M S B) s e : m s = Fault e → (m ≫= f) s = Fault e.
Proof. unfold mbind, M_bind. by intros ->. Qed.

(** A loop whose body never leaves is endless. *)
Lemma while_hangs {X R} (I : X → S → Prop) (body : X → M S (X + R)) bound x s :
  (∀ x s, I x s → ∃ y s', body x s = Ok (inl y, s') ∧ I y s') → I x s →
  while_loop bound body x s = Fault HANG.
Proof.
  intros Hbody HI.
  assert (∀ p x s, I x s → ∃ y s', loop_pos p body x s = Ok (inl y, s') ∧ I y s') as H.
  { induction p as [q IH|q IH|]; intros y t Ht; simpl; unfold mbind, M_bind; [| |by apply Hbody].
    - destruct (Hbody y t Ht) as (y1 & t1 & -> & H1). destruct (IH y1 t1 H1) as (y2 & t2 & -> & H2). by apply IH.
    - destruct (IH y t Ht) as (y1 & t1 & -> & H1). by apply IH. }
  unfold while_loop, mbind, M_bind. by destruct (H (Z.to_pos bound) x s HI) as (y & s' & -> & _).
Qed.

(** A loop whose only way out is the fault [e]. *)
Lemma while_faults {X R} (I : X → S → Prop) (m : X → Z) (body : X → M S (X + R)) bound x s e :
  I x s → m x < bound →
  (∀ x s, I x s → 0 ≤ m x ∧
     (body x s = Fault e ∨ ∃ y s', body x s = Ok (inl y, s') ∧ I y s' ∧ m y < m x)) →
  while_loop bound body x s = Fault e.
Proof.
  intros HI Hb Hbody.
  assert (∀ p x s, I x s → loop_pos p body x s = Fault e ∨
    ∃ y s', loop_pos p body x s = Ok (inl y, s') ∧ I y s' ∧ m y + Z.pos p ≤ m x) as H.
  { induction p as [q IH|q IH|]; intros y t Ht; simpl; unfold mbind, M_bind.
    - destruct (Hbody y t Ht) as [_ [->|(y1 & t1 & -> & H1 & M1)]]; [by left|].
      destruct (IH y1 t1 H1) as [->|(y2 & t2 & -> & H2 & M2)]; [by left|].
      destruct (IH y2 t2 H2) as [->|(y3 & t3 & -> & H3 & M3)]; [by left|].
      right. exists y3, t3. split; [done|]. split; [done|]. lia.
    - destruct (IH y t Ht) as [->|(y1 & t1 & -> & H1 & M1)]; [by left|].
      destruct (IH y1 t1 H1) as [->|(y2 & t2 & -> & H2 & M2)]; [by left|].
      right. exists y2, t2. split; [done|]. split; [done|]. lia.
    - destruct (Hbody y t Ht) as [_ [->|(y1 & t1 & -> & H1 & M1)]]; [by left|].
      right. exists y1, t1. split; [done|]. split; [done|]. lia. }
  unfold while_loop, mbind, M_bind. destruct (H (Z.to_pos bound) x s HI) as [->|(y & t & _ & Hy & Hm)]; [done|].
  destruct (Hbody y t Hy) as [Hy0 _]. destruct (Hbody x s HI) as [Hx0 _].
  rewrite Z2Pos.id in Hm by lia. lia.
Qed.

(** A loop whose body never leaves does not return. *)
Lemma while_never {X R} (I : X → S → Prop) (body : X → M S (X + R)) bound x s r s' :
  (∀ x s v s', I x s → body x s = Ok (v, s') → ∃ y, v = inl y ∧ I y s') → I x s →
  while_loop bound body x s ≠ Ok (r, s').
Proof.
  intros Hbody HI.
  assert (∀ p x s v s', I x s → loop_pos p body x s = Ok (v, s') → ∃ y, v = inl y ∧ I y s') as H.
  { induction p as [q IH|q IH|]; intros y t v t' Ht; simpl; unfold mbind, M_bind; [| |by apply Hbody].
    - destruct (body y t) as [[v1 t1]|] eqn:E1; [|done].
      destruct (Hbody _ _ _ _ Ht E1) as (y1 & -> & H1).
      destruct (loop_pos q body y1 t1) as [[v2 t2]|] eqn:E2; [|done].
      destruct (IH _ _ _ _ H1 E2) as (y2 & -> & H2). by apply IH.
    - destruct (loop_pos q body y t) as [[v1 t1]|] eqn:E1; [|done].
      destruct (IH _ _ _ _ Ht E1) as (y1 & -> & H1). by apply IH. }
  unfold while_loop, mbind, M_bind.
  destruct (loop_pos (Z.to_pos bound) body x s) as [[v t]|] eqn:E; [|done].
  by destruct (H _ _ _ _ _ HI E) as (y & -> & _).
Qed.

(** A computation that satisfies a precondition returns. *)
Lemma wp_Ok {A} (m : M S A) s Q : wp m s Q → ∃ a s', m s = Ok (a, s') ∧ Q a s'.
Proof. unfold wp. destruct (m s) as [[a s']|]; [eauto|done]. Qed.
Lemma wp_intro {A} (m : M S A) s a s' (Q : A → S → Prop) :
  m s = Ok (a, s') → Q a s' → wp m s Q.
Proof. intros H. unfold wp. by rewrite H. Qed.
End wp_rules.

(** ** What a computation leaves alone

    [keeps f m]: whenever [m] returns, what [f] observes of the state is what it was. *)

Definition keeps {S A B} (f : S → B) (m : M S A) : Prop :=
  ∀ s a s', m s = Ok (a, s') → f s' = f s.

Section keeps.
Context {S B : Type} (f : S → B).

Lemma keeps_ret {A} (a : A) : keeps f (mret a : M S A).
Proof. by intros s b s' [= _ <-]. Qed.
Lemma keeps_bind {A C} (m : M S A) (k : A → M S C) :
  keeps f m → (∀ a, keeps f (k a)) → keeps f (m ≫= k).
Proof.
  intros Hm Hk s b s'. unfold mbind, M_bind. destruct (m s) as [[a s1]|] eqn:Hr; [|done].
  intros Hb. rewrite (Hk _ _ _ _ Hb). by eapply Hm.
Qed.
Lemma keeps_gets {A} (g : S → A) : keeps f (gets g).
Proof. by intros s b s' [= _ <-]. Qed.
Lemma keeps_get : keeps f get.
Proof. by intros s b s' [= _ <-]. Qed.
Lemma keeps_throw {A} e : keeps f (throw (A := A) e).
Proof. by intros s b s'. Qed.
Lemma keeps_deref {A} (o : option A) : keeps f (deref o).
Proof. destruct o; [apply keeps_ret|apply keeps_throw]. Qed.
Lemma keeps_aread {A} (a : arr A) i : keeps f (aread a i).
Proof. apply keeps_deref. Qed.
Lemma keeps_awrite {A} (a : arr A) i (x : A) : keeps f (awrite a i x).
Proof. unfold awrite. destruct (in_range _ _); [apply keeps_ret|apply keeps_throw]. Qed.
Lemma keeps_modify (g : S → S) : (∀ s, f (g s) = f s) → keeps f (modify g).
Proof. by intros Hg s b s' [= _ <-]. Qed.
Lemma keeps_when (b : bool) (m : M S unit) : keeps f m → keeps f (when b m).
Proof. destruct b; [done|]. intros _. apply keeps_ret. Qed.
Lemma keeps_for_list {A} (l : list A) body : (∀ x, keeps f (body x)) → keeps f (for_list l body).
Proof. intros Hb. induction l as [|x l IH]; [apply keeps_ret|]. by apply keeps_bind. Qed.
Lemma keeps_zoom {T A} (g : S → T) (p : T → S → S) (m : M T A) :
  (∀ t s, f (p t s) = f s) → keeps f (zoom g p m).
Proof.
  intros Hp s a s'. unfold zoom. destruct (m (g s)) as [[b t]|]; [|done]. by intros [= _ <-].
Qed.
End keeps.

Create HintDb keeps discriminated.
#[export] Hint Resolve keeps_ret keeps_gets keeps_get keeps_throw keeps_deref keeps_aread keeps_awrite
  keeps_for_list keeps_when : keeps.
(** Closes goals [keeps f m] by the structure of [m]. *)
Ltac keeps :=
  repeat first
    [ progress auto with keeps
    | apply keeps_bind; [|intros ?]
    | match goal with
      | |- keeps _ (let _ := _ in _) => cbv zeta
      | |- keeps _ (when _ _) => apply keeps_when
      | |- keeps _ (for_list _ _) => apply keeps_for_list; intros ?
      | |- keeps _ (modify _) => apply keeps_modify; done
      | |- keeps _ (zoom _ _ _) => apply keeps_zoom; done
      | |- keeps _ (match ?x with _ => _ end) => destruct x
      end ].

(** ** Automation *)

Create HintDb nvmev discriminated.
Create Rewrite HintDb arrays.
#[export] Hint Resolve wp_ret wp_get wp_gets wp_put wp_modify : nvmev.
#[export] Hint Rewrite @alen_aset @alen_aupd @alen_anew @alen_abuild : arrays.

(** One structural step of a [wp] goal. *)
Ltac wp_step :=
  lazymatch goal with
  | |- wp (mret _) _ _ => apply wp_ret
  | |- wp (_ ≫= _) _ _ => apply wp_bind
  | |- wp get _ _ => apply wp_get
  | |- wp (gets _) _ _ => apply wp_gets
  | |- wp (put _) _ _ => apply wp_put
  | |- wp (modify _) _ _ => apply wp_modify
  | |- wp (zoom _ _ _) _ _ => apply wp_zoom
  | |- wp (when _ _) _ _ => apply wp_when; intros ?
  | |- wp (NVMEV_ASSERT _) _ _ => apply wp_assert
  end.
Ltac wp_steps := repeat (wp_step; cbn beta iota zeta).

(** Boolean tests of the code as propositions. *)
Ltac bool_prop :=
  repeat match goal with
  | H : (_ && _) = true |- _ => apply andb_true_iff in H as [? ?]
  | H : (_ || _) = false |- _ => apply orb_false_iff in H as [? ?]
  | H : negb _ = true |- _ => apply negb_true_iff in H
  | H : negb _ = false |- _ => apply negb_false_iff in H
  | H : (_ =? _) = true |- _ => apply Z.eqb_eq in H
  | H : (_ =? _) = false |- _ => apply Z.eqb_neq in H
  | H : (_ <=? _) = true |- _ => apply Z.leb_le in H
  | H : (_ <=? _) = false |- _ => apply Z.leb_gt in H
  | H : (_ <? _) = true |- _ => apply Z.ltb_lt in H
  | H : (_ <? _) = false |- _ => apply Z.ltb_ge in H
  end.

(** [lia] with division and remainder by constants. *)
Ltac dlia := Z.div_mod_to_equations; lia.
