(* ===== verification/Pqueue.v ===== *)
(** * The priority queue of victim lines (src/pqueue/pqueue.c)

    A binary heap in an array whose cell 0 is unused.  The queue reaches its
    elements only through five callbacks; they are the class [PqOps] here, over
    a store [St] that holds the elements' fields.  [PqLaws] states what the heap
    relies on, and the FTL discharges it for its lines.

    The definitions follow pqueue.c; the theorems show that every operation
    keeps the heap ordered and the recorded positions right ([pq_wf]), and
    state what it does to the set of members. *)

From stdpp Require Import base numbers list gmap relations.
From S2P Require Import Prelude.

#[local] Open Scope Z_scope.

(** The callbacks [cmppri], [getpri], [setpri], [getpos], [setpos]. *)
Class PqOps (St E : Type) : Type := {
  pq_cmppri : Z → Z → bool;
  pq_getpri : St → E → Z;
  pq_setpri : St → E → Z → St;
  pq_getpos : St → E → Z;
  pq_setpos : St → E → Z → St;
}.

(** What the heap relies on: [cmppri] is the strict part of a total preorder
    and the setters change what they say and nothing else.  [pri_ok] bounds the
    priorities a setter can store. *)
Class PqLaws (St E : Type) `{EqDecision E} `{!PqOps St E} (pri_ok : Z → Prop) : Prop := {
  cmp_trans a b c : pq_cmppri a b = false → pq_cmppri b c = false → pq_cmppri a c = false;
  cmp_asym a b : pq_cmppri a b = true → pq_cmppri b a = false;
  getpos_setpos (s : St) (e e' : E) p :
    pq_getpos (pq_setpos s e p) e' = if decide (e = e') then p else pq_getpos s e';
  getpri_setpos (s : St) (e e' : E) p : pq_getpri (pq_setpos s e p) e' = pq_getpri s e';
  getpri_setpri (s : St) (e e' : E) p :
    pri_ok p →
    pq_getpri (pq_setpri s e p) e' = if decide (e = e') then p else pq_getpri s e';
  getpos_setpri (s : St) (e e' : E) p : pq_getpos (pq_setpri s e p) e' = pq_getpos s e';
}.

(** [struct pqueue_t]; a cell that was never filled is [None]. *)
Record pqueue (E : Type) : Type := Pqueue {
  q_size : Z;
  q_avail : Z;
  q_step : Z;
  q_d : arr (option E);
}.
Arguments Pqueue {E} _ _ _ _.
Arguments q_size {E} _.
Arguments q_avail {E} _.
Arguments q_step {E} _.
Arguments q_d {E} _.

Definition left (i : Z) : Z := Z.shiftl i 1.
Definition right (i : Z) : Z := Z.shiftl i 1 + 1.
Definition parent (i : Z) : Z := Z.shiftr i 1.

Definition pqueue_init {E} (n : Z) : pqueue E :=
  Pqueue 1 (n + 1) (n + 1) (anew (n + 1) None).

Definition pqueue_size {E} (q : pqueue E) : Z := q_size q - 1.

Section operations.
Context {St E : Type} `{!PqOps St E}.

(** The queue together with the store of its elements. *)
Definition pqst : Type := pqueue E * St.

Definition d_get (i : Z) : M pqst E :=
  '(q, _) ← get;
  o ← aread (q_d q) i;
  deref o.

Definition d_set (i : Z) (e : E) : M pqst unit :=
  '(q, s) ← get;
  d' ← awrite (q_d q) i (Some e);
  put (Pqueue (q_size q) (q_avail q) (q_step q) d', s).

Definition getpri (e : E) : M pqst Z := gets (λ qs, pq_getpri (snd qs) e).
Definition getpos (e : E) : M pqst Z := gets (λ qs, pq_getpos (snd qs) e).
Definition setpri (e : E) (p : Z) : M pqst unit :=
  modify (λ qs, (fst qs, pq_setpri (snd qs) e p)).
Definition setpos (e : E) (p : Z) : M pqst unit :=
  modify (λ qs, (fst qs, pq_setpos (snd qs) e p)).
Definition size_set (n : Z) : M pqst unit :=
  modify (λ qs, (Pqueue n (q_avail (fst qs)) (q_step (fst qs)) (q_d (fst qs)), snd qs)).

Definition bubble_up (i : Z) : M pqst unit :=
  moving_node ← d_get i;
  moving_pri ← getpri moving_node;
  i' ← while_loop (i + 1) (λ i,
         let parent_node := parent i in
         if 1 <? i then
           dp ← d_get parent_node;
           pp ← getpri dp;
           if pq_cmppri pp moving_pri then
             d_set i dp ;;
             setpos dp i ;;
             mret (inl parent_node)
           else mret (inr i)
         else mret (inr i)) i;
  d_set i' moving_node ;;
  setpos moving_node i'.

Definition maxchild (i : Z) : M pqst Z :=
  '(q, _) ← get;
  let child_node := left i in
  if q_size q <=? child_node then mret 0
  else if child_node + 1 <? q_size q then
    dl ← d_get child_node;
    pl ← getpri dl;
    dr ← d_get (child_node + 1);
    pr ← getpri dr;
    mret (if pq_cmppri pl pr then child_node + 1 else child_node)
  else mret child_node.

Definition percolate_down (i : Z) : M pqst unit :=
  moving_node ← d_get i;
  moving_pri ← getpri moving_node;
  '(q, _) ← get;
  i' ← while_loop (q_size q + 1) (λ i,
         child_node ← maxchild i;
         if child_node =? 0 then mret (inr i)
         else
           dc ← d_get child_node;
           pc ← getpri dc;
           if pq_cmppri moving_pri pc then
             d_set i dc ;;
             setpos dc i ;;
             mret (inl child_node)
           else mret (inr i)) i;
  d_set i' moving_node ;;
  setpos moving_node i'.

(** The message printed when the array is full does not stop the write. *)
Definition pqueue_insert (e : E) : M pqst Z :=
  '(q, _) ← get;
  let i := q_size q in
  size_set (i + 1) ;;
  d_set i e ;;
  bubble_up i ;;
  mret 0.

Definition pqueue_change_priority (new_pri : Z) (e : E) : M pqst unit :=
  old_pri ← getpri e;
  setpri e new_pri ;;
  posn ← getpos e;
  if pq_cmppri old_pri new_pri then bubble_up posn else percolate_down posn.

Definition pqueue_remove (e : E) : M pqst Z :=
  posn ← getpos e;
  '(q, _) ← get;
  size_set (q_size q - 1) ;;
  dl ← d_get (q_size q - 1);
  d_set posn dl ;;
  pe ← getpri e;
  pl ← getpri dl;
  (if pq_cmppri pe pl then bubble_up posn else percolate_down posn) ;;
  mret 0.

Definition pqueue_pop : M pqst (option E) :=
  '(q, _) ← get;
  if q_size q =? 1 then mret None
  else
    head ← d_get 1;
    size_set (q_size q - 1) ;;
    dl ← d_get (q_size q - 1);
    d_set 1 dl ;;
    percolate_down 1 ;;
    mret (Some head).

Definition pqueue_peek : M pqst (option E) :=
  '(q, _) ← get;
  if q_size q =? 1 then mret None
  else
    d ← d_get 1;
    mret (Some d).

(** [subtree_is_valid]; the recursion goes down the heap, so [fuel] equal to the
    size is enough. *)
Fixpoint subtree_is_valid (fuel : nat) (q : pqueue E) (s : St) (pos : Z) : bool :=
  match fuel with
  | O => true
  | S fuel' =>
      let ordered child :=
        match aget (q_d q) pos, aget (q_d q) child with
        | Some (Some p), Some (Some c) => negb (pq_cmppri (pq_getpri s p) (pq_getpri s c))
        | _, _ => false
        end in
      let side child :=
        if child <? q_size q
        then ordered child && subtree_is_valid fuel' q s child
        else true in
      side (left pos) && side (right pos)
  end.

Definition pqueue_is_valid (q : pqueue E) (s : St) : bool :=
  subtree_is_valid (Z.to_nat (q_size q)) q s 1.
End operations.
Arguments pqst : clear implicits.

(** ** Specification *)

Section spec.
Context {St E : Type} `{EqDecision E} `{!PqOps St E}.
Implicit Types (q : pqueue E) (s : St) (e : E).

(** The element in cell [k]. *)
Definition at_pos q (k : Z) : option E := mjoin (aget (q_d q) k).

Definition member q e : Prop := ∃ k, 1 ≤ k < q_size q ∧ at_pos q k = Some e.

(** [a] may stand above [b]. *)
Definition above s (a b : E) : Prop := pq_cmppri (pq_getpri s a) (pq_getpri s b) = false.

Definition heap_ordered q s : Prop :=
  ∀ k p c, 1 < k < q_size q → at_pos q (k / 2) = Some p → at_pos q k = Some c → above s p c.

Record pq_wf q s : Prop := {
  wf_size : 1 ≤ q_size q ≤ q_avail q;
  wf_avail : q_avail q = alen (q_d q);
  wf_pos k : 1 ≤ k < q_size q → ∃ e, at_pos q k = Some e ∧ pq_getpos s e = k;
  wf_heap : heap_ordered q s;
}.

(** The store changed only in the positions of elements of [P]. *)
Definition repositioned (P : E → Prop) : relation St :=
  rtc (λ s s', ∃ e p, P e ∧ s' = pq_setpos s e p).

(** The heap with a hole at cell [i], whose element [m] is being moved; [P] is
    the set of all members, [m] included. *)
Record hole (P : E → Prop) (i : Z) (m : E) q s : Prop := {
  ho_size : 1 ≤ q_size q ≤ q_avail q;
  ho_avail : q_avail q = alen (q_d q);
  ho_i : 1 ≤ i < q_size q;
  ho_pos k : 1 ≤ k < q_size q → k ≠ i →
    ∃ e, at_pos q k = Some e ∧ pq_getpos s e = k ∧ e ≠ m;
  ho_heap k p c : 1 < k < q_size q → k ≠ i → k / 2 ≠ i →
    at_pos q (k / 2) = Some p → at_pos q k = Some c → above s p c;
  ho_bridge c p d : 1 < i → c < q_size q → c / 2 = i →
    at_pos q (i / 2) = Some p → at_pos q c = Some d → above s p d;
  ho_mem e : P e ↔ e = m ∨ ∃ k, 1 ≤ k < q_size q ∧ k ≠ i ∧ at_pos q k = Some e;
}.

Definition children_below i m q s : Prop :=
  ∀ c d, c < q_size q → c / 2 = i → at_pos q c = Some d → above s m d.
Definition parent_above i m q s : Prop :=
  ∀ p, 1 < i → at_pos q (i / 2) = Some p → above s p m.
End spec.

(** The members as a list, in heap order. *)
Definition pq_elems {E} (q : pqueue E) : list E :=
  omap (at_pos q) (seqZ 1 (q_size q - 1)).

Section proofs.
Context {St E : Type} `{EqDecision E} `{!PqOps St E} {pri_ok : Z → Prop} `{!PqLaws St E pri_ok}.
Implicit Types (q : pqueue E) (s : St) (e : E).

Lemma left_eq i : left i = 2 * i.
Proof. unfold left. rewrite Z.shiftl_mul_pow2 by lia. lia. Qed.
Lemma right_eq i : right i = 2 * i + 1.
Proof. unfold right. rewrite Z.shiftl_mul_pow2 by lia. lia. Qed.
Lemma parent_eq i : parent i = i / 2.
Proof. unfold parent. rewrite Z.shiftr_div_pow2 by lia. done. Qed.

Lemma at_pos_inv q k e : at_pos q k = Some e → aget (q_d q) k = Some (Some e).
Proof. unfold at_pos. destruct (aget _ _) as [[|]|]; naive_solver. Qed.

Lemma repositioned_pri P s s' e : repositioned P s s' → pq_getpri s' e = pq_getpri s e.
Proof.
  induction 1 as [|s1 s2 s3 (e' & p & _ & ->) _ IH]; [done|].
  by rewrite IH, getpri_setpos.
Qed.

Lemma above_setpos s e p a b : above (pq_setpos s e p) a b ↔ above s a b.
Proof. unfold above. by rewrite !getpri_setpos. Qed.

Lemma above_trans s a b c : above s a b → above s b c → above s a c.
Proof. apply cmp_trans. Qed.

Lemma at_pos_set q k e j n a st :
  0 ≤ k < alen (q_d q) →
  at_pos (Pqueue n a st (aset (q_d q) k (Some e))) j =
    if decide (k = j) then Some e else at_pos q j.
Proof. intros Hk. unfold at_pos; simpl. rewrite aget_aset by done. by case_decide. Qed.

(** ** Rules for the primitive steps *)

Lemma wp_d_get i q s e Q :
  at_pos q i = Some e → Q e (q, s) → wp (d_get i) (q, s) Q.
Proof.
  intros He HQ. unfold d_get. wp_step. wp_step. simpl. wp_step.
  eapply wp_aread; [by apply at_pos_inv|]. by eapply wp_deref.
Qed.

Lemma wp_d_set i e q s Q :
  0 ≤ i < alen (q_d q) →
  Q tt (Pqueue (q_size q) (q_avail q) (q_step q) (aset (q_d q) i (Some e)), s) →
  wp (d_set i e) (q, s) Q.
Proof.
  intros Hi HQ. unfold d_set. wp_step. wp_step. simpl. wp_step.
  by apply wp_awrite.
Qed.

(** ** Filling the hole *)

Lemma hole_fill P i m q s :
  hole P i m q s → children_below i m q s → parent_above i m q s →
  let q' := Pqueue (q_size q) (q_avail q) (q_step q) (aset (q_d q) i (Some m)) in
  pq_wf q' (pq_setpos s m i) ∧ (∀ e, member q' e ↔ P e).
Proof.
  intros [Hsz Hav Hi Hpos Hheap Hbr Hmem] Hc Hp q'. unfold q'.
  split; [split|]; simpl.
  - done.
  - by rewrite alen_aset.
  - intros k Hk. rewrite at_pos_set by lia. case_decide as Hik.
    + subst k. exists m. split; [done|]. rewrite getpos_setpos. by rewrite decide_True.
    + destruct (Hpos k Hk ltac:(done)) as (e & He & Hpe & Hne).
      exists e. split; [done|]. rewrite getpos_setpos. by rewrite decide_False.
  - intros k p c Hk. rewrite !at_pos_set by lia. simpl in Hk.
    rewrite above_setpos. intros Hp' Hc'.
    destruct (decide (i = k / 2)) as [Hik|Hik], (decide (i = k)) as [Hik'|Hik'].
    + dlia.
    + injection Hp' as <-. eapply Hc; [|by symmetry|done]. lia.
    + injection Hc' as <-. subst k. apply Hp; [lia|done].
    + eapply (Hheap k); naive_solver lia.
  - intros e. rewrite Hmem. unfold member; simpl. split.
    + intros (k & Hk & Hek). rewrite at_pos_set in Hek by lia. case_decide.
      * left. congruence.
      * right. exists k. naive_solver.
    + intros [->|(k & Hk & Hne & Hek)].
      * exists i. split; [done|]. rewrite at_pos_set by lia. by rewrite decide_True.
      * exists k. split; [done|]. rewrite at_pos_set by lia. by rewrite decide_False.
Qed.

(** Moving the element [x] of the neighbouring cell [j] into the hole. *)
Lemma hole_move P i j m q s x :
  hole P i m q s → 1 ≤ j < q_size q → i ≠ j → at_pos q j = Some x →
  let q' := Pqueue (q_size q) (q_avail q) (q_step q) (aset (q_d q) i (Some x)) in
  (∀ k p c, 1 < k < q_size q → k ≠ j → k / 2 ≠ j →
     at_pos q' (k / 2) = Some p → at_pos q' k = Some c → above s p c) →
  (∀ c p d, 1 < j → c < q_size q → c / 2 = j →
     at_pos q' (j / 2) = Some p → at_pos q' c = Some d → above s p d) →
  hole P j m q' (pq_setpos s x i).
Proof.
  intros [Hsz Hav Hi Hpos Hheap Hbr Hmem] Hj Hij Hx q' Hh Hb. unfold q' in *.
  destruct (Hpos j Hj ltac:(done)) as (x' & Hx' & Hpx & Hxm).
  assert (x' = x) as -> by congruence.
  split; simpl; try done.
  - by rewrite alen_aset.
  - intros k Hk Hkj. rewrite at_pos_set by lia. case_decide as Hik.
    + subst k. exists x. split_and!; [done| |done].
      rewrite getpos_setpos. by rewrite decide_True.
    + destruct (Hpos k Hk ltac:(done)) as (e & He & Hpe & Hne).
      exists e. split_and!; [done| |done]. rewrite getpos_setpos.
      rewrite decide_False; [done|]. intros ->. congruence.
  - intros k p c ????. rewrite above_setpos. by apply Hh.
  - intros c p d ????. rewrite above_setpos. by apply Hb.
  - intros e. rewrite Hmem. split; (intros [->|(k & Hk & Hne & He)]; [by left|right]).
    + destruct (decide (k = j)) as [->|Hkj].
      * exists i. rewrite at_pos_set by lia. rewrite decide_True by done.
        split_and!; lia || congruence.
      * exists k. rewrite at_pos_set by lia. rewrite decide_False by done. done.
    + rewrite at_pos_set in He by lia. case_decide as Hik.
      * exists j. split_and!; lia || congruence.
      * exists k. split_and!; lia || congruence.
Qed.

(** ** [bubble_up] and [percolate_down] *)

Lemma wp_getpri e q s Q : Q (pq_getpri s e) (q, s) → wp (getpri e) (q, s) Q.
Proof. done. Qed.
Lemma wp_getpos e q s Q : Q (pq_getpos s e) (q, s) → wp (getpos e) (q, s) Q.
Proof. done. Qed.
Lemma wp_setpos e p q s Q : Q tt (q, pq_setpos s e p) → wp (setpos e p) (q, s) Q.
Proof. done. Qed.
Lemma wp_setpri e p q s Q : Q tt (q, pq_setpri s e p) → wp (setpri e p) (q, s) Q.
Proof. done. Qed.
Lemma wp_size_set n q s Q :
  Q tt (Pqueue n (q_avail q) (q_step q) (q_d q), s) → wp (size_set n) (q, s) Q.
Proof. done. Qed.

(** What both loops establish: a well-formed heap with the members [P], the
    store changed in positions only. *)
Definition settled (P : E → Prop) (n a : Z) s (qs : pqst St E) : Prop :=
  pq_wf (fst qs) (snd qs) ∧ (∀ e, member (fst qs) e ↔ P e) ∧ repositioned P s (snd qs) ∧
  q_size (fst qs) = n ∧ q_avail (fst qs) = a.

(** The loops end by writing the moved element into the hole. *)
Lemma settle P i m q s s0 :
  hole P i m q s → children_below i m q s → parent_above i m q s → P m →
  repositioned P s0 s →
  wp (d_set i m ;; setpos m i) (q, s) (λ _, settled P (q_size q) (q_avail q) s0).
Proof.
  intros Hh Hc Hp Hm Hr. wp_step.
  pose proof (ho_i _ _ _ _ _ Hh). pose proof (ho_size _ _ _ _ _ Hh).
  pose proof (ho_avail _ _ _ _ _ Hh).
  apply wp_d_set; [lia|]. apply wp_setpos.
  destruct (hole_fill P i m q s Hh Hc Hp) as [Hwf Hmem].
  split_and!; simpl; try done.
  eapply rtc_r; [done|]. eauto.
Qed.

Lemma bubble_up_spec P i m q s :
  hole P i m q s → children_below i m q s → at_pos q i = Some m → P m →
  wp (bubble_up i) (q, s) (λ _, settled P (q_size q) (q_avail q) s).
Proof.
  intros Hh Hc Hm HPm. unfold bubble_up.
  wp_step. eapply wp_d_get; [done|]. wp_step. apply wp_getpri. wp_step.
  eapply (wp_while (λ i qs,
            hole P i m (fst qs) (snd qs) ∧ children_below i m (fst qs) (snd qs) ∧
            repositioned P s (snd qs) ∧
            q_size (fst qs) = q_size q ∧ q_avail (fst qs) = q_avail q) id);
    [split_and!; done || apply rtc_refl|simpl; lia|].
  generalize (q_size q) (q_avail q); intros n a.
  clear i q Hh Hc Hm. intros i [q s1] (Hh & Hc & Hr & <- & <-); simpl in *.
  pose proof (ho_i _ _ _ _ _ Hh) as Hi.
  split; [simpl; lia|].
  assert (pq_getpri s m = pq_getpri s1 m) as -> by by erewrite <- repositioned_pri.
  destruct (1 <? i) eqn:Hi1; bool_prop; last first.
  { wp_step. apply settle; try done. intros p; lia. }
  rewrite parent_eq. wp_step.
  destruct (ho_pos _ _ _ _ _ Hh (i / 2) ltac:(dlia) ltac:(dlia)) as (p & Hp & Hpp & Hpm).
  eapply wp_d_get; [done|]. wp_step. apply wp_getpri.
  destruct (pq_cmppri _ _) eqn:Hcmp; last first.
  { wp_step. apply settle; try done. intros p' _ Hp'. assert (p' = p) as -> by congruence.
    done. }
  pose proof (ho_size _ _ _ _ _ Hh). pose proof (ho_avail _ _ _ _ _ Hh).
  wp_step. apply wp_d_set; [lia|]. wp_step. apply wp_setpos. wp_step. simpl.
  assert (above s1 m p) as Hab by by apply cmp_asym.
  split; [|dlia]. split_and!; try done.
  - apply (hole_move P i (i / 2) m q s1 p); try done; try dlia.
    + intros k x c Hk Hk1 Hk2. rewrite !at_pos_set by lia.
      destruct (decide (i = k / 2)) as [Hik|Hik], (decide (i = k)) as [Hik'|Hik'];
        [dlia| |congruence|].
      * intros [= ->] Hc'. eapply (ho_bridge _ _ _ _ _ Hh k); done || lia.
      * intros Hx Hc'. by eapply (ho_heap _ _ _ _ _ Hh k).
    + intros k x c Hi2 Hk Hk2. rewrite !at_pos_set by lia.
      rewrite (decide_False (P := i = i / 2 / 2)) by dlia.
      intros Hx. assert (above s1 x p) as Hxp.
      { eapply (ho_heap _ _ _ _ _ Hh (i / 2)); try done; dlia. }
      case_decide; [by intros [= ->]|].
      intros Hc'. eapply above_trans; [done|].
      eapply (ho_heap _ _ _ _ _ Hh k); try done; try dlia. by rewrite Hk2.
  - intros k d Hk Hk2. rewrite at_pos_set by lia. rewrite above_setpos.
    case_decide as Hik; [by intros [= ->]|]. intros Hd.
    eapply above_trans; [done|].
    eapply (ho_heap _ _ _ _ _ Hh k); try done; simpl in *; try dlia. by rewrite Hk2.
  - eapply rtc_r; [done|]. exists p, i. split; [|done].
    apply (ho_mem _ _ _ _ _ Hh). right. exists (i / 2). split_and!; done || dlia.
Qed.

(** [maxchild] returns 0 at a leaf and otherwise a child no child stands above. *)
Lemma wp_maxchild P i m q s Q :
  hole P i m q s →
  (q_size q ≤ 2 * i → Q 0 (q, s)) →
  (∀ c d, c / 2 = i → i < c < q_size q → at_pos q c = Some d →
     (∀ c' d', c' / 2 = i → c' < q_size q → at_pos q c' = Some d' → above s d d') →
     Q c (q, s)) →
  wp (maxchild i) (q, s) Q.
Proof.
  intros Hh H0 H1. unfold maxchild. wp_step. wp_step. rewrite left_eq.
  pose proof (ho_i _ _ _ _ _ Hh) as Hi.
  destruct (q_size q <=? 2 * i) eqn:Hl; bool_prop; [by wp_step; apply H0|].
  destruct (ho_pos _ _ _ _ _ Hh (2 * i) ltac:(lia) ltac:(lia)) as (l & Hlm & _).
  assert (∀ x, above s x x) as Hrefl.
  { intros x. unfold above. destruct (pq_cmppri _ _) eqn:Ec; [|done].
    pose proof (cmp_asym _ _ Ec). congruence. }
  destruct (2 * i + 1 <? q_size q) eqn:Hr; bool_prop; last first.
  { wp_step. eapply H1; try done; try dlia. intros c' d' Hc' Hlt Hd'.
    assert (c' = 2 * i) as -> by dlia. assert (d' = l) as -> by congruence. done. }
  destruct (ho_pos _ _ _ _ _ Hh (2 * i + 1) ltac:(lia) ltac:(lia)) as (r & Hrm & _).
  wp_step. eapply wp_d_get; [done|]. wp_step. apply wp_getpri.
  wp_step. eapply wp_d_get; [done|]. wp_step. apply wp_getpri. wp_step.
  destruct (pq_cmppri _ _) eqn:Hcmp.
  - eapply H1; try done; try dlia. intros c' d' Hc' Hlt Hd'.
    assert (c' = 2 * i ∨ c' = 2 * i + 1) as [-> | ->] by dlia.
    + assert (d' = l) as -> by congruence. by apply cmp_asym.
    + by assert (d' = r) as -> by congruence.
  - eapply H1; try done; try dlia. intros c' d' Hc' Hlt Hd'.
    assert (c' = 2 * i ∨ c' = 2 * i + 1) as [-> | ->] by dlia.
    + by assert (d' = l) as -> by congruence.
    + by assert (d' = r) as -> by congruence.
Qed.

Lemma percolate_down_spec P i m q s :
  hole P i m q s → parent_above i m q s → at_pos q i = Some m → P m →
  wp (percolate_down i) (q, s) (λ _, settled P (q_size q) (q_avail q) s).
Proof.
  intros Hh Hc Hm HPm. unfold percolate_down.
  pose proof (ho_i _ _ _ _ _ Hh) as Hi0.
  wp_step. eapply wp_d_get; [done|]. wp_step. apply wp_getpri. wp_step. wp_step. wp_step.
  eapply (wp_while (λ i qs,
            hole P i m (fst qs) (snd qs) ∧ parent_above i m (fst qs) (snd qs) ∧
            repositioned P s (snd qs) ∧
            q_size (fst qs) = q_size q ∧ q_avail (fst qs) = q_avail q)
            (λ i, q_size q - i));
    [split_and!; done || apply rtc_refl|simpl; lia|].
  generalize (q_size q) (q_avail q); intros n a.
  clear i q Hh Hc Hm Hi0. intros i [q s1] (Hh & Hp & Hr & <- & <-); simpl in *.
  pose proof (ho_i _ _ _ _ _ Hh) as Hi.
  split; [simpl; lia|].
  assert (pq_getpri s m = pq_getpri s1 m) as -> by by erewrite <- repositioned_pri.
  wp_step. eapply wp_maxchild; [done| |].
  { intros Hleaf. simpl. wp_step. apply settle; try done. intros c d ? ?. dlia. }
  intros c x Hci Hc Hx Hbest. destruct (Z.eqb_spec c 0); [lia|].
  wp_step. eapply wp_d_get; [done|]. wp_step. apply wp_getpri.
  destruct (pq_cmppri _ _) eqn:Hcmp; last first.
  { wp_step. apply settle; try done. intros c' d' Hlt Hc' Hd'.
    eapply above_trans; [done|]. by eapply Hbest. }
  pose proof (ho_size _ _ _ _ _ Hh). pose proof (ho_avail _ _ _ _ _ Hh).
  wp_step. apply wp_d_set; [lia|]. wp_step. apply wp_setpos. wp_step. simpl.
  assert (above s1 x m) as Hab by by apply cmp_asym.
  split; [|lia]. split_and!; try done.
  - apply (hole_move P i c m q s1 x); try done; try lia.
    + intros k y d Hk Hk1 Hk2. rewrite !at_pos_set by lia.
      destruct (decide (i = k / 2)) as [Hik|Hik], (decide (i = k)) as [Hik'|Hik'];
        [dlia| | |].
      * intros [= <-] Hd. apply (Hbest k); done || lia.
      * intros Hy [= <-]. subst k. eapply (ho_bridge _ _ _ _ _ Hh c); try done; lia.
      * intros Hy Hd. eapply (ho_heap _ _ _ _ _ Hh k); done || lia.
    + intros k y d Hi2 Hk Hk2. rewrite !at_pos_set by lia. rewrite Hci.
      rewrite (decide_True (P := i = i)) by done.
      rewrite (decide_False (P := i = k)) by dlia.
      intros [= <-] Hd. eapply (ho_heap _ _ _ _ _ Hh k); try done; try dlia. by rewrite Hk2.
  - intros y Hi2. rewrite at_pos_set by lia. rewrite Hci, decide_True by done.
    intros [= <-]. by rewrite above_setpos.
  - eapply rtc_r; [done|]. exists x, i. split; [|done].
    apply (ho_mem _ _ _ _ _ Hh). right. exists c. split_and!; done || lia.
Qed.

(** ** The operations *)

Lemma repositioned_mono (P P' : E → Prop) s s' :
  (∀ e, P e → P' e) → repositioned P s s' → repositioned P' s s'.
Proof.
  intros HP. apply rtc_subrel. intros a b (e & p & He & ->). eauto.
Qed.

Lemma repositioned_pos P s s' e :
  repositioned P s s' → ¬ P e → pq_getpos s' e = pq_getpos s e.
Proof.
  intros Hr He. induction Hr as [|s1 s2 s3 (e' & p & He' & ->) _ IH]; [done|].
  rewrite IH, getpos_setpos. case_decide; [|done]. by subst.
Qed.

Lemma wf_at q s k e :
  pq_wf q s → 1 ≤ k < q_size q → at_pos q k = Some e → pq_getpos s e = k.
Proof. intros Hwf Hk He. destruct (wf_pos _ _ Hwf k Hk) as (e' & He' & <-). congruence. Qed.

Lemma wf_member q s e :
  pq_wf q s → member q e →
  1 ≤ pq_getpos s e < q_size q ∧ at_pos q (pq_getpos s e) = Some e.
Proof. intros Hwf (k & Hk & He). by rewrite (wf_at q s k e). Qed.

Lemma above_refl s e : above s e e.
Proof.
  unfold above. destruct (pq_cmppri _ _) eqn:Ec; [|done].
  pose proof (cmp_asym _ _ Ec). congruence.
Qed.

(** The root stands above every member. *)
Lemma wf_root_above q s h e :
  pq_wf q s → at_pos q 1 = Some h → member q e → above s h e.
Proof.
  intros Hwf Hh (k & Hk & He). revert e He.
  induction k as [k IH] using (well_founded_induction (Z.lt_wf 0)); intros e He.
  destruct (decide (k = 1)) as [->|Hk1].
  { assert (e = h) as -> by congruence. apply above_refl. }
  destruct (wf_pos _ _ Hwf (k / 2) ltac:(dlia)) as (p & Hp & _).
  apply above_trans with p.
  - apply (IH (k / 2)); done || dlia.
  - eapply (wf_heap _ _ Hwf k); done || lia.
Qed.

(** Taking the element of cell [i] out of a heap, its priority possibly changed. *)
Lemma hole_open q s s' i m :
  pq_wf q s → 1 ≤ i < q_size q → at_pos q i = Some m →
  (∀ e, pq_getpos s' e = pq_getpos s e) →
  (∀ e, e ≠ m → pq_getpri s' e = pq_getpri s e) →
  hole (member q) i m q s'.
Proof.
  intros Hwf Hi Hm Hpos Hpri.
  assert (∀ k e, 1 ≤ k < q_size q → k ≠ i → at_pos q k = Some e → e ≠ m) as Hne.
  { intros k e Hk Hki He ->. apply Hki.
    by rewrite <- (wf_at q s k m Hwf Hk He), <- (wf_at q s i m Hwf Hi Hm). }
  assert (∀ a b, a ≠ m → b ≠ m → above s a b → above s' a b) as Hab.
  { intros a b Ha Hb. unfold above. by rewrite !Hpri. }
  split; [apply Hwf|apply Hwf|done| | | |].
  - intros k Hk Hki. destruct (wf_pos _ _ Hwf k Hk) as (e & He & Hpe).
    exists e. rewrite Hpos. eauto.
  - intros k p c Hk Hki Hk2 Hp Hc.
    apply Hab; [by eapply (Hne (k / 2)); [dlia|..]|by eapply (Hne k); [dlia|..]|].
    by eapply (wf_heap _ _ Hwf k).
  - intros c p d Hi1 Hc Hc2 Hp Hd.
    apply Hab; [by eapply (Hne (i / 2)); [dlia|dlia|..]|by eapply (Hne c); [dlia|dlia|..]|].
    apply above_trans with m.
    + by eapply (wf_heap _ _ Hwf i); [lia|..].
    + eapply (wf_heap _ _ Hwf c); [dlia| |done]. by rewrite Hc2.
  - intros e. split.
    + intros (k & Hk & He). destruct (decide (k = i)) as [->|Hki].
      * left. congruence.
      * right. eauto.
    + intros [->|(k & Hk & _ & He)]; [by exists i|by exists k].
Qed.

(** Taking out the element [e] of cell [i] by putting the last one there. *)
Lemma hole_shrink q s i e l :
  pq_wf q s → 1 ≤ i < q_size q - 1 → at_pos q i = Some e →
  at_pos q (q_size q - 1) = Some l →
  hole (λ x, member q x ∧ x ≠ e) i l
    (Pqueue (q_size q - 1) (q_avail q) (q_step q) (aset (q_d q) i (Some l))) s.
Proof.
  intros Hwf Hi He Hl.
  pose proof (hole_open q s s i e Hwf ltac:(lia) He ltac:(done) ltac:(done)) as Hh.
  pose proof (wf_size _ _ Hwf). pose proof (wf_avail _ _ Hwf).
  assert (pq_getpos s l = q_size q - 1) as Hpl by (eapply wf_at; done || lia).
  assert (pq_getpos s e = i) as Hpe by (eapply wf_at; done || lia).
  split; simpl; try lia.
  - by rewrite alen_aset.
  - intros k Hk Hki. destruct (ho_pos _ _ _ _ _ Hh k ltac:(lia) Hki) as (x & Hx & Hpx & _).
    exists x. rewrite at_pos_set by lia. rewrite decide_False by done.
    split_and!; try done. intros ->. lia.
  - intros k p c Hk Hki Hk2. rewrite !at_pos_set by lia. rewrite !decide_False by done.
    eapply (ho_heap _ _ _ _ _ Hh k); lia.
  - intros c p d Hi1 Hc Hc2. rewrite !at_pos_set by lia. rewrite !decide_False by dlia.
    eapply (ho_bridge _ _ _ _ _ Hh c); lia.
  - intros x. split.
    + intros [(k & Hk & Hx) Hne]. destruct (decide (k = q_size q - 1)) as [->|Hkn].
      { left. congruence. }
      right. exists k. rewrite at_pos_set by lia.
      destruct (decide (i = k)) as [->|]; [congruence|]. split_and!; done || lia.
    + intros [->|(k & Hk & Hki & Hx)].
      * split; [exists (q_size q - 1); split; done || lia|]. intros ->. lia.
      * rewrite at_pos_set in Hx by lia. rewrite decide_False in Hx by done.
        split; [exists k; split; done || lia|]. intros ->.
        apply Hki. rewrite <- Hpe. symmetry. eapply wf_at; done || lia.
Qed.

(** With no child inside the heap [percolate_down] only records the position. *)
Lemma percolate_down_leaf i m q s Q :
  1 ≤ i < alen (q_d q) → 0 ≤ q_size q ≤ 2 * i → at_pos q i = Some m →
  Q tt (Pqueue (q_size q) (q_avail q) (q_step q) (aset (q_d q) i (Some m)), pq_setpos s m i) →
  wp (percolate_down i) (q, s) Q.
Proof.
  intros Hi Hn Hm HQ. unfold percolate_down.
  wp_step. eapply wp_d_get; [done|]. wp_step. apply wp_getpri. wp_step. wp_step. wp_step.
  apply (wp_while (λ x qs, x = i ∧ qs = (q, s)) (λ _, 0)); [done|lia|].
  intros x qs [-> ->]. split; [lia|]. wp_step. unfold maxchild. wp_step. wp_step.
  rewrite left_eq, (proj2 (Z.leb_le _ _)) by lia. wp_step. simpl. wp_step. wp_step.
  apply wp_d_set; [lia|]. by apply wp_setpos.
Qed.

Lemma init_wf n s : 0 ≤ n → pq_wf (pqueue_init n) s ∧ ∀ e, ¬ member (pqueue_init n) e.
Proof.
  intros Hn. split; [split; simpl; try lia; intros k; simpl; lia|].
  intros e (k & Hk & _). simpl in Hk. lia.
Qed.

(** [pqueue_insert]: no fault when there is room, and exactly one new member. *)
Lemma insert_spec e q s :
  pq_wf q s → ¬ member q e → q_size q < q_avail q →
  wp (pqueue_insert e) (q, s) (λ r qs,
    r = 0 ∧ settled (λ x, x = e ∨ member q x) (q_size q + 1) (q_avail q) s qs).
Proof.
  intros Hwf Hne Hroom. unfold pqueue_insert.
  pose proof (wf_size _ _ Hwf). pose proof (wf_avail _ _ Hwf).
  wp_step. wp_step. wp_step. apply wp_size_set. wp_step. apply wp_d_set; [simpl; lia|].
  simpl. wp_step. eapply wp_mono.
  - apply (bubble_up_spec (λ x, x = e ∨ member q x) _ e); [|intros c ? ? ?; simpl in *; dlia| |by left].
    + split; simpl; try lia.
      * by rewrite alen_aset.
      * intros k Hk Hki. destruct (wf_pos _ _ Hwf k ltac:(lia)) as (x & Hx & Hpx).
        exists x. rewrite at_pos_set by lia. rewrite decide_False by done.
        split_and!; try done. intros ->. apply Hne. exists k. split; done || lia.
      * intros k p c Hk Hki Hk2. rewrite !at_pos_set by lia. rewrite !decide_False by done.
        apply (wf_heap _ _ Hwf k). lia.
      * intros c; dlia.
      * intros x. split; (intros [->|(k & Hk & Hx)]; [by left|right]); exists k.
        -- rewrite at_pos_set by lia. rewrite decide_False by lia. split_and!; done || lia.
        -- destruct Hx as [Hki Hx]. rewrite at_pos_set in Hx by lia.
           rewrite decide_False in Hx by done. split; done || lia.
    + rewrite at_pos_set by lia. by rewrite decide_True.
  - intros [] qs Hq. wp_step. done.
Qed.

(** [pqueue_change_priority] of a member: the new priority, the same members. *)
Lemma change_priority_spec p e q s :
  pq_wf q s → member q e → pri_ok p →
  wp (pqueue_change_priority p e) (q, s) (λ _,
    settled (member q) (q_size q) (q_avail q) (pq_setpri s e p)).
Proof.
  intros Hwf Hm Hp. unfold pqueue_change_priority.
  destruct (wf_member _ _ _ Hwf Hm) as [Hi He].
  wp_step. apply wp_getpri. wp_step. apply wp_setpri. wp_step. apply wp_getpos.
  rewrite getpos_setpri.
  assert (∀ x, x ≠ e → pq_getpri (pq_setpri s e p) x = pq_getpri s x) as Hpri.
  { intros x Hx. rewrite getpri_setpri by done. by rewrite decide_False. }
  assert (pq_getpri (pq_setpri s e p) e = p) as Hpe.
  { rewrite getpri_setpri by done. by rewrite decide_True. }
  pose proof (hole_open q s (pq_setpri s e p) _ e Hwf Hi He
    ltac:(intros x; apply getpos_setpri) Hpri) as Hh.
  assert (∀ k x, 1 ≤ k < q_size q → k ≠ pq_getpos s e → at_pos q k = Some x → x ≠ e) as Hne.
  { intros k x Hk Hki Hx ->. apply Hki. symmetry. by eapply wf_at. }
  destruct (pq_cmppri _ _) eqn:Hcmp.
  - apply bubble_up_spec with e; try done. intros c d Hc Hc2 Hd.
    unfold above. rewrite Hpe, Hpri by (eapply (Hne c); done || dlia).
    eapply cmp_trans; [by apply cmp_asym|]. eapply (wf_heap _ _ Hwf c); [dlia| |done].
    by rewrite Hc2.
  - apply percolate_down_spec with e; try done. intros x Hi1 Hx.
    unfold above. rewrite Hpe, Hpri by (eapply (Hne (pq_getpos s e / 2)); done || dlia).
    eapply cmp_trans; [|done]. eapply (wf_heap _ _ Hwf (pq_getpos s e)); done || lia.
Qed.

Lemma peek_spec q s :
  pq_wf q s →
  wp pqueue_peek (q, s) (λ r qs, qs = (q, s) ∧
    match r with
    | None => q_size q = 1 ∧ ∀ e, ¬ member q e
    | Some h => at_pos q 1 = Some h ∧ member q h ∧ ∀ e, member q e → above s h e
    end).
Proof.
  intros Hwf. unfold pqueue_peek. wp_step. wp_step.
  pose proof (wf_size _ _ Hwf). destruct (Z.eqb_spec (q_size q) 1) as [Hn|Hn].
  - wp_step. split_and!; try done. intros e (k & Hk & _). lia.
  - destruct (wf_pos _ _ Hwf 1 ltac:(lia)) as (h & Hh & _).
    wp_step. eapply wp_d_get; [done|]. wp_step. split_and!; try done.
    + exists 1. split; [lia|done].
    + intros e. by apply wf_root_above.
Qed.

(** The heap without its last element. *)
Lemma wf_drop_last q s e :
  pq_wf q s → 1 < q_size q → at_pos q (q_size q - 1) = Some e →
  let i := q_size q - 1 in
  let q' := Pqueue i (q_avail q) (q_step q) (aset (aset (q_d q) i (Some e)) i (Some e)) in
  pq_wf q' (pq_setpos s e i) ∧ ∀ x, member q' x ↔ member q x ∧ x ≠ e.
Proof.
  intros Hwf Hn Hl. cbv zeta.
  pose proof (wf_size _ _ Hwf). pose proof (wf_avail _ _ Hwf).
  assert (∀ k x, 1 ≤ k < q_size q - 1 → at_pos q k = Some x → x ≠ e) as Hne.
  { intros k x Hk Hx ->. pose proof (wf_at q s k e Hwf ltac:(lia) Hx).
    pose proof (wf_at q s (q_size q - 1) e Hwf ltac:(lia) Hl). lia. }
  split; [split|]; simpl; rewrite ?alen_aset; try lia.
  - intros k Hk. destruct (wf_pos _ _ Hwf k ltac:(lia)) as (x & Hx & Hpx).
    exists x. unfold at_pos; simpl. rewrite !aget_aset_ne by lia. split; [done|].
    rewrite getpos_setpos, decide_False; [done|]. intros ->. by eapply Hne.
  - intros k p c Hk. simpl in Hk. unfold at_pos; simpl.
    rewrite !aget_aset_ne by dlia. rewrite above_setpos.
    apply (wf_heap _ _ Hwf k). lia.
  - intros x. unfold member, at_pos; simpl. split.
    + intros (k & Hk & Hx). rewrite !aget_aset_ne in Hx by lia.
      split; [|by eapply Hne]. exists k. split; [lia|done].
    + intros [(k & Hk & Hx) Hxe]. exists k.
      assert (k ≠ q_size q - 1) by (intros ->; unfold at_pos in Hl; congruence).
      rewrite !aget_aset_ne by lia. split; [lia|done].
Qed.

(** What taking [e] out of the heap establishes. *)
Definition taken_out (e : E) q s (qs : pqst St E) : Prop :=
  pq_wf (fst qs) (snd qs) ∧ (∀ x, member (fst qs) x ↔ member q x ∧ x ≠ e) ∧
  repositioned (member q) s (snd qs) ∧
  q_size (fst qs) = q_size q - 1 ∧ q_avail (fst qs) = q_avail q.

Lemma settled_taken_out e q s qs :
  settled (λ x, member q x ∧ x ≠ e) (q_size q - 1) (q_avail q) s qs → taken_out e q s qs.
Proof.
  intros (Hwf' & Hmem & Hr & Hsz & Hav). split_and!; try done.
  eapply repositioned_mono; [|done]. naive_solver.
Qed.

(** Taking out the last element, as both [pqueue_pop] and [pqueue_remove] do. *)
Lemma percolate_last_spec e q s :
  pq_wf q s → 1 < q_size q → at_pos q (q_size q - 1) = Some e →
  wp (percolate_down (q_size q - 1))
    (Pqueue (q_size q - 1) (q_avail q) (q_step q) (aset (q_d q) (q_size q - 1) (Some e)), s)
    (λ _, taken_out e q s).
Proof.
  intros Hwf Hn Hl. pose proof (wf_size _ _ Hwf). pose proof (wf_avail _ _ Hwf).
  eapply percolate_down_leaf; simpl; rewrite ?alen_aset; try lia.
  { rewrite at_pos_set by lia. by rewrite decide_True. }
  destruct (wf_drop_last q s e Hwf ltac:(lia) Hl) as [Hwf' Hmem].
  split_and!; try done. eapply rtc_once. exists e, (q_size q - 1).
  split; [|done]. exists (q_size q - 1). split; [lia|done].
Qed.

(** [pqueue_pop] of a nonempty heap: the root leaves, the others stay. *)
Lemma pop_spec q s :
  pq_wf q s →
  wp pqueue_pop (q, s) (λ r qs,
    match r with
    | None => qs = (q, s) ∧ ∀ e, ¬ member q e
    | Some h => at_pos q 1 = Some h ∧ member q h ∧ (∀ e, member q e → above s h e) ∧
                taken_out h q s qs
    end).
Proof.
  intros Hwf. unfold pqueue_pop. wp_step. wp_step.
  pose proof (wf_size _ _ Hwf). pose proof (wf_avail _ _ Hwf).
  destruct (Z.eqb_spec (q_size q) 1) as [Hn|Hn].
  { wp_step. split; [done|]. intros e (k & Hk & _). lia. }
  destruct (wf_pos _ _ Hwf 1 ltac:(lia)) as (h & Hh & Hph).
  destruct (wf_pos _ _ Hwf (q_size q - 1) ltac:(lia)) as (l & Hl & Hpl).
  wp_step. eapply wp_d_get; [done|]. wp_step. apply wp_size_set.
  wp_step. eapply wp_d_get; [done|]. wp_step. apply wp_d_set; [simpl; lia|].
  wp_step. simpl.
  apply wp_mono with (λ _, taken_out h q s); last first.
  { intros [] qs Hq. wp_step. split_and!; [done|exists 1; split; [lia|done]| |done].
    intros e. by apply wf_root_above. }
  destruct (decide (q_size q = 2)) as [Hn2|Hn2].
  - pose proof (percolate_last_spec h q s Hwf ltac:(lia)) as Hp.
    replace (q_size q - 1) with 1 in * by lia.
    assert (l = h) as -> by congruence. by apply Hp.
  - pose proof (hole_shrink q s 1 h l Hwf ltac:(lia) Hh Hl) as Hhole.
    apply wp_mono with (2 := λ _ qs, settled_taken_out h q s qs).
    apply (percolate_down_spec _ 1 l _ s Hhole); [intros p; lia| |].
    + rewrite at_pos_set by lia. by rewrite decide_True.
    + apply (ho_mem _ _ _ _ _ Hhole). by left.
Qed.

Lemma remove_spec e q s :
  pq_wf q s → member q e →
  wp (pqueue_remove e) (q, s) (λ r qs, r = 0 ∧ taken_out e q s qs).
Proof.
  intros Hwf Hm. unfold pqueue_remove.
  destruct (wf_member _ _ _ Hwf Hm) as [Hi He].
  pose proof (wf_size _ _ Hwf). pose proof (wf_avail _ _ Hwf).
  destruct (wf_pos _ _ Hwf (q_size q - 1) ltac:(lia)) as (l & Hl & Hpl).
  wp_step. apply wp_getpos. wp_step. wp_step. wp_step. apply wp_size_set.
  wp_step. eapply wp_d_get; [done|]. wp_step. apply wp_d_set; [simpl; lia|].
  wp_step. apply wp_getpri. wp_step. apply wp_getpri. wp_step. simpl.
  apply wp_mono with (λ _, taken_out e q s); last first.
  { intros [] qs Hq. by wp_step. }
  destruct (decide (pq_getpos s e = q_size q - 1)) as [Hlast|Hlast].
  - rewrite Hlast in *. assert (l = e) as -> by congruence.
    pose proof (above_refl s e) as Hre. unfold above in Hre. rewrite Hre.
    apply percolate_last_spec; done || lia.
  - assert (1 ≤ pq_getpos s e < q_size q - 1) as Hi2 by lia.
    pose proof (hole_shrink q s _ e l Hwf Hi2 He Hl) as Hhole.
    assert (at_pos (Pqueue (q_size q - 1) (q_avail q) (q_step q)
      (aset (q_d q) (pq_getpos s e) (Some l))) (pq_getpos s e) = Some l) as Hat.
    { rewrite at_pos_set by lia. by rewrite decide_True. }
    assert (member q l ∧ l ≠ e) as Hl' by (apply (ho_mem _ _ _ _ _ Hhole); by left).
    destruct (pq_cmppri _ _) eqn:Hcmp;
      apply wp_mono with (2 := λ _ qs, settled_taken_out e q s qs).
    + apply (bubble_up_spec _ _ l _ s Hhole); [|done|done].
      intros c d Hc Hc2. simpl in Hc. rewrite at_pos_set by lia.
      rewrite decide_False by dlia. intros Hd. apply above_trans with e.
      * by apply cmp_asym.
      * eapply (wf_heap _ _ Hwf c); [dlia| |done]. by rewrite Hc2.
    + apply (percolate_down_spec _ _ l _ s Hhole); [|done|done].
      intros p Hi1. rewrite at_pos_set by lia. rewrite decide_False by dlia.
      intros Hp. apply above_trans with e; [|done].
      eapply (wf_heap _ _ Hwf (pq_getpos s e)); done || lia.
Qed.

(** The heap sees only the positions and priorities of its members. *)
Lemma pq_wf_ext_member q s s' :
  pq_wf q s → (∀ e, member q e → pq_getpos s' e = pq_getpos s e) →
  (∀ e, member q e → pq_getpri s' e = pq_getpri s e) → pq_wf q s'.
Proof.
  intros [Hsz Hav Hpos Hheap] Hp Hr. split; [done|done| |].
  - intros k Hk. destruct (Hpos k Hk) as (e & He & Hpe). exists e. split; [done|].
    rewrite Hp; [done|]. by exists k.
  - intros k p c Hk Hkp Hkc. unfold above. rewrite !Hr; [by eapply Hheap| |].
    + exists k. split; [lia|done].
    + exists (k / 2). split; [dlia|done].
Qed.
Lemma pq_wf_ext q s s' :
  pq_wf q s → (∀ e, pq_getpos s' e = pq_getpos s e) → (∀ e, pq_getpri s' e = pq_getpri s e) →
  pq_wf q s'.
Proof. intros. eapply pq_wf_ext_member; eauto. Qed.

(** ** The members as a list *)

Lemma elem_of_pq_elems q e : e ∈ pq_elems q ↔ member q e.
Proof.
  unfold pq_elems, member. rewrite list_elem_of_omap. split.
  - intros (k & Hk%elem_of_seqZ & He). exists k. split; [lia|done].
  - intros (k & Hk & He). exists k. rewrite elem_of_seqZ. split; [lia|done].
Qed.

Lemma NoDup_omap_inj {A B} (f : A → option B) (l : list A) :
  NoDup l → (∀ x y z, x ∈ l → y ∈ l → f x = Some z → f y = Some z → x = y) →
  NoDup (omap f l).
Proof.
  induction 1 as [|x l Hx Hl IH]; intros Hf; simpl; [constructor|].
  assert (NoDup (omap f l)) as Hnd by (apply IH; intros; eapply Hf; eauto; set_solver).
  destruct (f x) as [z|] eqn:Hz; [|done]. constructor; [|done].
  rewrite list_elem_of_omap. intros (y & Hy & Hyz). apply Hx.
  rewrite (Hf x y z); [done|set_solver|set_solver|done|done].
Qed.

Lemma NoDup_pq_elems q s : pq_wf q s → NoDup (pq_elems q).
Proof.
  intros Hwf. apply NoDup_omap_inj; [apply NoDup_seqZ|].
  intros x y z Hx%elem_of_seqZ Hy%elem_of_seqZ Hxz Hyz.
  rewrite <- (wf_at q s x z Hwf ltac:(lia) Hxz). apply (wf_at q); [done|lia|done].
Qed.

Lemma length_pq_elems q s : pq_wf q s → Z.of_nat (length (pq_elems q)) = q_size q - 1.
Proof.
  intros Hwf. pose proof (wf_size _ _ Hwf).
  assert (length (pq_elems q) = length (seqZ 1 (q_size q - 1))) as ->.
  { unfold pq_elems. assert (∀ k, k ∈ seqZ 1 (q_size q - 1) → is_Some (at_pos q k)) as Hall.
    { intros k Hk%elem_of_seqZ. destruct (wf_pos _ _ Hwf k ltac:(lia)) as (e & He & _). eauto. }
    induction (seqZ 1 (q_size q - 1)) as [|k l IH]; [done|].
    destruct (Hall k ltac:(set_solver)) as [e He]. simpl. rewrite He. simpl. f_equal.
    apply IH. set_solver. }
  rewrite length_seqZ. lia.
Qed.
End proofs.
