(* ===== verification/Config.v ===== *)
(** * Device configurations (src/ssd_config.h)

    The build selects one block of macros; each block is a value of
    [ssd_config] here and the code that reads the macros takes the value as an
    argument.  A macro a block does not define (the INTEL_OPTANE and
    KV_PROTOTYPE blocks describe no NAND) has no value, so only the four NAND
    devices appear. *)

From stdpp Require Import base numbers list.
From S2P Require Import Prelude.

#[local] Open Scope Z_scope.

Inductive ssd_type : Type :=
| SSD_TYPE_NVM | SSD_TYPE_CONV | SSD_TYPE_ZNS | SSD_TYPE_KV | SSD_TYPE_FDP.
#[export] Instance ssd_type_eq_dec : EqDecision ssd_type.
Proof. solve_decision. Defined.

Definition CELL_MODE_MLC : Z := 2.
Definition CELL_MODE_TLC : Z := 3.

Record ssd_config : Type := SsdConfig {
  NS_SSD_TYPE_0 : ssd_type;
  MDTS : Z;
  CELL_MODE : Z;
  SSD_PARTITIONS : Z;
  NAND_CHANNELS : Z;
  LUNS_PER_NAND_CH : Z;
  PLNS_PER_LUN : Z;
  FLASH_PAGE_SIZE : Z;
  ONESHOT_PAGE_SIZE : Z;
  BLKS_PER_PLN : Z;
  BLK_SIZE : Z;
  MAX_CH_XFER_SIZE : Z;
  WRITE_UNIT_SIZE : Z;
  NAND_CHANNEL_BANDWIDTH : Z;
  PCIE_BANDWIDTH : Z;
  NAND_4KB_READ_LATENCY_LSB : Z;
  NAND_4KB_READ_LATENCY_MSB : Z;
  NAND_4KB_READ_LATENCY_CSB : Z;
  NAND_READ_LATENCY_LSB : Z;
  NAND_READ_LATENCY_MSB : Z;
  NAND_READ_LATENCY_CSB : Z;
  NAND_PROG_LATENCY : Z;
  NAND_ERASE_LATENCY : Z;
  FW_4KB_READ_LATENCY : Z;
  FW_READ_LATENCY : Z;
  FW_WBUF_LATENCY0 : Z;
  FW_WBUF_LATENCY1 : Z;
  FW_CH_XFER_LATENCY : Z;
  OP_AREA_PERCENT : Z;  (* in hundredths: 0.07 is 7 *)
  GLOBAL_WB_SIZE : Z;
  WRITE_EARLY_COMPLETION : bool;
  LBA_BITS : Z;
}.

Definition LBA_SIZE (c : ssd_config) : Z := Z.shiftl 1 (LBA_BITS c).

Definition SAMSUNG_970PRO : ssd_config := {|
  NS_SSD_TYPE_0 := SSD_TYPE_CONV;
  MDTS := 6;
  CELL_MODE := CELL_MODE_MLC;
  SSD_PARTITIONS := 4;
  NAND_CHANNELS := 8;
  LUNS_PER_NAND_CH := 2;
  PLNS_PER_LUN := 1;
  FLASH_PAGE_SIZE := KB 32;
  ONESHOT_PAGE_SIZE := KB 32 * 1;
  BLKS_PER_PLN := 8192;
  BLK_SIZE := 0;
  MAX_CH_XFER_SIZE := KB 16;
  WRITE_UNIT_SIZE := 512;
  NAND_CHANNEL_BANDWIDTH := 800;
  PCIE_BANDWIDTH := 3360;
  NAND_4KB_READ_LATENCY_LSB := 35760 - 6000;
  NAND_4KB_READ_LATENCY_MSB := 35760 + 6000;
  NAND_4KB_READ_LATENCY_CSB := 0;
  NAND_READ_LATENCY_LSB := 36013 - 6000;
  NAND_READ_LATENCY_MSB := 36013 + 6000;
  NAND_READ_LATENCY_CSB := 0;
  NAND_PROG_LATENCY := 185000;
  NAND_ERASE_LATENCY := 0;
  FW_4KB_READ_LATENCY := 21500;
  FW_READ_LATENCY := 30490;
  FW_WBUF_LATENCY0 := 4000;
  FW_WBUF_LATENCY1 := 460;
  FW_CH_XFER_LATENCY := 0;
  OP_AREA_PERCENT := 7;
  GLOBAL_WB_SIZE := 8 * 2 * (KB 32 * 1) * 2;
  WRITE_EARLY_COMPLETION := true;
  LBA_BITS := 9;
|}.

Definition ZNS_PROTOTYPE : ssd_config := {|
  NS_SSD_TYPE_0 := SSD_TYPE_ZNS;
  MDTS := 6;
  CELL_MODE := CELL_MODE_TLC;
  SSD_PARTITIONS := 1;
  NAND_CHANNELS := 8;
  LUNS_PER_NAND_CH := 16;
  PLNS_PER_LUN := 1;
  FLASH_PAGE_SIZE := KB 64;
  ONESHOT_PAGE_SIZE := KB 64 * 2;
  BLKS_PER_PLN := 0;
  BLK_SIZE := MB 32 / 1;
  MAX_CH_XFER_SIZE := KB 64;
  WRITE_UNIT_SIZE := KB 64 * 2;
  NAND_CHANNEL_BANDWIDTH := 800;
  PCIE_BANDWIDTH := 3200;
  NAND_4KB_READ_LATENCY_LSB := 25485;
  NAND_4KB_READ_LATENCY_MSB := 25485;
  NAND_4KB_READ_LATENCY_CSB := 25485;
  NAND_READ_LATENCY_LSB := 40950;
  NAND_READ_LATENCY_MSB := 40950;
  NAND_READ_LATENCY_CSB := 40950;
  NAND_PROG_LATENCY := 1913640;
  NAND_ERASE_LATENCY := 0;
  FW_4KB_READ_LATENCY := 37540 - 7390 + 2000;
  FW_READ_LATENCY := 37540 - 7390 + 2000;
  FW_WBUF_LATENCY0 := 0;
  FW_WBUF_LATENCY1 := 0;
  FW_CH_XFER_LATENCY := 413;
  OP_AREA_PERCENT := 0;
  GLOBAL_WB_SIZE := 8 * 16 * (KB 64 * 2) * 2;
  WRITE_EARLY_COMPLETION := false;
  LBA_BITS := 9;
|}.

Definition SAMSUNG_FDP : ssd_config := {|
  NS_SSD_TYPE_0 := SSD_TYPE_FDP;
  MDTS := 6;
  CELL_MODE := CELL_MODE_MLC;
  SSD_PARTITIONS := 4;
  NAND_CHANNELS := 8;
  LUNS_PER_NAND_CH := 2;
  PLNS_PER_LUN := 1;
  FLASH_PAGE_SIZE := KB 32;
  ONESHOT_PAGE_SIZE := KB 32 * 1;
  BLKS_PER_PLN := 128;
  BLK_SIZE := 0;
  MAX_CH_XFER_SIZE := KB 16;
  WRITE_UNIT_SIZE := 512;
  NAND_CHANNEL_BANDWIDTH := 800;
  PCIE_BANDWIDTH := 3360;
  NAND_4KB_READ_LATENCY_LSB := 35760 - 6000;
  NAND_4KB_READ_LATENCY_MSB := 35760 + 6000;
  NAND_4KB_READ_LATENCY_CSB := 0;
  NAND_READ_LATENCY_LSB := 36013 - 6000;
  NAND_READ_LATENCY_MSB := 36013 + 6000;
  NAND_READ_LATENCY_CSB := 0;
  NAND_PROG_LATENCY := 185000;
  NAND_ERASE_LATENCY := 0;
  FW_4KB_READ_LATENCY := 21500;
  FW_READ_LATENCY := 30490;
  FW_WBUF_LATENCY0 := 4000;
  FW_WBUF_LATENCY1 := 460;
  FW_CH_XFER_LATENCY := 0;
  OP_AREA_PERCENT := 7;
  GLOBAL_WB_SIZE := MB 256;
  WRITE_EARLY_COMPLETION := true;
  LBA_BITS := 9;
|}.

Definition FDP_NR_RG : Z := 1.
Definition FDP_NR_RUH : Z := 8.
Definition FDP_NR_EVENTS : Z := 63.

Definition WD_ZN540 : ssd_config := {|
  NS_SSD_TYPE_0 := SSD_TYPE_ZNS;
  MDTS := 6;
  CELL_MODE := CELL_MODE_TLC;
  SSD_PARTITIONS := 1;
  NAND_CHANNELS := 8;
  LUNS_PER_NAND_CH := 4;
  PLNS_PER_LUN := 1;
  FLASH_PAGE_SIZE := KB 32;
  ONESHOT_PAGE_SIZE := KB 32 * 3;
  BLKS_PER_PLN := 0;
  BLK_SIZE := GB 2 / (8 * 4);
  MAX_CH_XFER_SIZE := KB 32;
  WRITE_UNIT_SIZE := 512;
  NAND_CHANNEL_BANDWIDTH := 450;
  PCIE_BANDWIDTH := 3050;
  NAND_4KB_READ_LATENCY_LSB := 50000;
  NAND_4KB_READ_LATENCY_MSB := 50000;
  NAND_4KB_READ_LATENCY_CSB := 50000;
  NAND_READ_LATENCY_LSB := 58000;
  NAND_READ_LATENCY_MSB := 58000;
  NAND_READ_LATENCY_CSB := 58000;
  NAND_PROG_LATENCY := 561000;
  NAND_ERASE_LATENCY := 0;
  FW_4KB_READ_LATENCY := 20000;
  FW_READ_LATENCY := 13000;
  FW_WBUF_LATENCY0 := 5600;
  FW_WBUF_LATENCY1 := 600;
  FW_CH_XFER_LATENCY := 0;
  OP_AREA_PERCENT := 0;
  GLOBAL_WB_SIZE := 0;
  WRITE_EARLY_COMPLETION := true;
  LBA_BITS := 9;
|}.

(** The zone parameters of the two ZNS devices. *)
Record zns_config : Type := ZnsConfig {
  DIES_PER_ZONE : Z;
  ZONE_SIZE : Z;
  ZONE_WB_SIZE : Z;
  MAX_ZRWA_ZONES : Z;
  ZRWAFG_SIZE : Z;
  ZRWA_SIZE : Z;
  ZRWA_BUFFER_SIZE : Z;
}.

Definition ZNS_PROTOTYPE_zones : zns_config := {|
  DIES_PER_ZONE := 1;
  ZONE_SIZE := MB 32;
  ZONE_WB_SIZE := 0;
  MAX_ZRWA_ZONES := 0;
  ZRWAFG_SIZE := 0;
  ZRWA_SIZE := 0;
  ZRWA_BUFFER_SIZE := 0;
|}.

Definition WD_ZN540_zones : zns_config := {|
  DIES_PER_ZONE := 8 * 4;
  ZONE_SIZE := GB 2;
  ZONE_WB_SIZE := 10 * (KB 32 * 3);
  MAX_ZRWA_ZONES := 0;
  ZRWAFG_SIZE := 0;
  ZRWA_SIZE := 0;
  ZRWA_BUFFER_SIZE := 0;
|}.

(** The [static_assert]s of the header. *)
Definition config_ok (c : ssd_config) : bool :=
  ONESHOT_PAGE_SIZE c mod FLASH_PAGE_SIZE c =? 0.
Definition zns_config_ok (z : zns_config) : bool :=
  ZONE_SIZE z mod DIES_PER_ZONE z =? 0.
