(* ===== verification/ChannelModel.v ===== *)
(** * The bandwidth model of a channel (src/channel_model.c)

    A ring of [NR_CREDIT_ENTRIES] time slots of [UNIT_TIME_INTERVAL] ns, each
    holding the transfer credits that are left in it.  [head] is the slot of the
    current time; the slots [valid_len] and more ahead of it were never drawn
    from.  [chmodel_request] moves [head] to the current time, takes the credits
    of a transfer from the slot of its request time onwards and returns the time
    at which the transfer ends. *)

From stdpp Require Import base numbers list gmap.
From S2P Require Import Prelude.

#[local] Open Scope Z_scope.

Definition NR_CREDIT_ENTRIES : Z := 1024 * 96.
Definition UNIT_TIME_INTERVAL : Z := 4000.
Definition UNIT_XFER_SIZE : Z := 128.
Definition UNIT_XFER_CREDITS : Z := 1.

Record channel_model : Type := ChannelModel {
  cm_cur_time : Z;
  cm_head : Z;
  cm_valid_len : Z;
  cm_max_credits : Z;
  cm_command_credits : Z;
  cm_xfer_lat : Z;
  cm_avail_credits : arr Z;
}.

Definition BANDWIDTH_TO_TX_TIME (MB_S : Z) : Z := UNIT_XFER_SIZE * NS_PER_SEC 1 / MB MB_S.
Definition BANDWIDTH_TO_MAX_CREDITS (MB_S : Z) : Z :=
  MB MB_S * UNIT_TIME_INTERVAL / NS_PER_SEC 1 / UNIT_XFER_SIZE * UNIT_XFER_CREDITS.

Definition chmodel_init (bandwidth : Z) : channel_model :=
  let max_credits := u32 (BANDWIDTH_TO_MAX_CREDITS bandwidth) in
  ChannelModel 0 0 0 max_credits 0 (u32 (BANDWIDTH_TO_TX_TIME bandwidth))
    (anew NR_CREDIT_ENTRIES (u8 max_credits)).

(** The clock of the dispatcher's CPU: [cpu_clock n] is its [n]-th reading. *)
Class Clock : Type := cpu_clock : Z → Z.

(** A channel model and the number of clock readings so far. *)
Definition cmst : Type := channel_model * Z.

Section request.
Context `{!Clock}.

Definition get_wallclock : M cmst Z := λ s, Ok (cpu_clock (snd s), (fst s, snd s + 1)).

Definition set_credits (a : arr Z) : M cmst unit :=
  modify (λ s, (ChannelModel (cm_cur_time (fst s)) (cm_head (fst s)) (cm_valid_len (fst s))
                  (cm_max_credits (fst s)) (cm_command_credits (fst s)) (cm_xfer_lat (fst s)) a,
                snd s)).

(** [MEMSET(&ch->avail_credits[lo], ch->max_credits, n)] on 8-bit credits. *)
Definition memset_credits (lo n : Z) : M cmst unit :=
  '(ch, _) ← get;
  if (lo + n <=? NR_CREDIT_ENTRIES)
  then set_credits (afill (cm_avail_credits ch) lo n (u8 (cm_max_credits ch)))
  else throw OOPS.

(** "Search current time index and move head to it" *)
Definition move_head (cur_time : Z) : M cmst unit :=
  '(ch, _) ← get;
  let cur_time_offs := u32 (cur_time / UNIT_TIME_INTERVAL
                            - cm_cur_time ch / UNIT_TIME_INTERVAL) in
  let cur_time_offs := if cur_time_offs <? cm_valid_len ch
                       then cur_time_offs else cm_valid_len ch in
  (if NR_CREDIT_ENTRIES <=? u32 (cm_head ch + cur_time_offs) then
     memset_credits (cm_head ch) (u32 (NR_CREDIT_ENTRIES - cm_head ch)) ;;
     memset_credits 0 (u32 (cur_time_offs - (NR_CREDIT_ENTRIES - cm_head ch)))
   else memset_credits (cm_head ch) cur_time_offs) ;;
  modify (λ s, (ChannelModel cur_time
                  (u32 (cm_head ch + cur_time_offs) mod NR_CREDIT_ENTRIES)
                  (u32 (cm_valid_len ch - cur_time_offs))
                  (cm_max_credits (fst s)) (cm_command_credits (fst s))
                  (cm_xfer_lat (fst s)) (cm_avail_credits (fst s)), snd s)).

(** The loop that takes credits slot by slot; the locals are [pos],
    [remaining_credits] and [delay], the result is [pos] and [delay]. *)
Definition take_credits (pos remaining_credits : Z) : M cmst (Z * Z) :=
  while_loop (NR_CREDIT_ENTRIES + 1) (λ '(pos, remaining_credits, delay),
    '(ch, _) ← get;
    avail ← aread (cm_avail_credits ch) pos;
    let consumed_credits := if remaining_credits <=? avail then remaining_credits else avail in
    a' ← awrite (cm_avail_credits ch) pos (u8 (avail - consumed_credits));
    set_credits a' ;;
    let remaining_credits := u32 (remaining_credits - consumed_credits) in
    if negb (remaining_credits =? 0) then
      let next_pos := u32 (pos + 1) mod NR_CREDIT_ENTRIES in
      if negb (next_pos =? cm_head ch)
      then mret (inl (next_pos, remaining_credits, u32 (delay + 1)))
      else mret (inr (pos, delay))
    else mret (inr (pos, delay))) (pos, remaining_credits, 0).

Definition chmodel_request (request_time length : Z) : M cmst Z :=
  cur_time ← get_wallclock;
  let units_to_xfer := u32 (DIV_ROUND_UP length UNIT_XFER_SIZE) in
  move_head cur_time ;;
  '(ch, _) ← get;
  NVMEV_ASSERT (negb (NR_CREDIT_ENTRIES <? cm_valid_len ch)) ;;
  if request_time <? cur_time then mret request_time
  else
    let request_time_offs := u32 (request_time / UNIT_TIME_INTERVAL
                                  - cur_time / UNIT_TIME_INTERVAL) in
    if NR_CREDIT_ENTRIES <=? request_time_offs then mret request_time
    else
      let pos := u32 (cm_head ch + request_time_offs) mod NR_CREDIT_ENTRIES in
      let remaining_credits :=
        u32 (u32 (units_to_xfer * UNIT_XFER_CREDITS) + cm_command_credits ch) in
      when (cm_max_credits ch =? 0) (throw OOPS) ;;
      let default_delay := remaining_credits / cm_max_credits ch in
      '(pos, delay) ← take_credits pos remaining_credits;
      let valid_length := if cm_head ch <=? pos
                          then u32 (pos - cm_head ch + 1)
                          else u32 (NR_CREDIT_ENTRIES - (cm_head ch - pos - 1)) in
      modify (λ s, (ChannelModel (cm_cur_time (fst s)) (cm_head (fst s))
                      (if cm_valid_len (fst s) <? valid_length
                       then valid_length else cm_valid_len (fst s))
                      (cm_max_credits (fst s)) (cm_command_credits (fst s))
                      (cm_xfer_lat (fst s)) (cm_avail_credits (fst s)), snd s)) ;;
      let delay := if default_delay <? delay then delay - default_delay else 0 in
      let total_latency := u64 (u32 (cm_xfer_lat ch * units_to_xfer)
                                + u64 (delay * UNIT_TIME_INTERVAL)) in
      mret (u64 (request_time + total_latency)).
End request.

(** ** The ring by distance from the head *)

(** The credits of the slot [k] intervals ahead of the current time. *)
Definition raw (ch : channel_model) (k : Z) : option Z :=
  aget (cm_avail_credits ch) ((cm_head ch + k) mod NR_CREDIT_ENTRIES).

(** The same as a function on all distances: beyond [valid_len] every slot is
    untouched, also those that do not fit the ring. *)
Definition credits (ch : channel_model) (k : Z) : Z :=
  if k <? cm_valid_len ch then default 0 (raw ch k) else cm_max_credits ch.

Record cm_wf (ch : channel_model) : Prop := {
  cw_head : 0 ≤ cm_head ch < NR_CREDIT_ENTRIES;
  cw_valid_len : 0 ≤ cm_valid_len ch ≤ NR_CREDIT_ENTRIES;
  cw_max : 0 < cm_max_credits ch < 2 ^ 8;
  cw_len : alen (cm_avail_credits ch) = NR_CREDIT_ENTRIES;
  cw_avail i a : aget (cm_avail_credits ch) i = Some a → 0 ≤ a ≤ cm_max_credits ch;
  cw_fresh k : cm_valid_len ch ≤ k < NR_CREDIT_ENTRIES → raw ch k = Some (cm_max_credits ch);
}.

(** The parameters no request changes. *)
Definition same_params (ch ch' : channel_model) : Prop :=
  cm_max_credits ch' = cm_max_credits ch ∧
  cm_command_credits ch' = cm_command_credits ch ∧
  cm_xfer_lat ch' = cm_xfer_lat ch.

Lemma same_params_trans ch1 ch2 ch3 :
  same_params ch1 ch2 → same_params ch2 ch3 → same_params ch1 ch3.
Proof. unfold same_params. intuition congruence. Qed.

Lemma raw_credits ch k :
  cm_wf ch → 0 ≤ k < NR_CREDIT_ENTRIES → raw ch k = Some (credits ch k).
Proof.
  intros Hwf Hk. unfold credits. destruct (k <? cm_valid_len ch) eqn:E; bool_prop.
  - unfold raw. destruct (aget_some (cm_avail_credits ch)
      ((cm_head ch + k) mod NR_CREDIT_ENTRIES)) as [x Hx].
    { rewrite (cw_len _ Hwf). apply Z.mod_pos_bound. done. }
    by rewrite Hx.
  - apply (cw_fresh _ Hwf). lia.
Qed.

Lemma credits_range ch k :
  cm_wf ch → 0 ≤ k → 0 ≤ credits ch k ≤ cm_max_credits ch.
Proof.
  intros Hwf Hk. pose proof (cw_max _ Hwf).
  destruct (decide (k < NR_CREDIT_ENTRIES)) as [Hn|Hn].
  - eapply (cw_avail _ Hwf). by apply raw_credits.
  - pose proof (cw_valid_len _ Hwf). unfold credits.
    rewrite (proj2 (Z.ltb_ge _ _)) by lia. lia.
Qed.

(** A model read off from its slots. *)
Lemma cm_wf_intro ch (c : Z → Z) :
  0 ≤ cm_head ch < NR_CREDIT_ENTRIES → 0 ≤ cm_valid_len ch ≤ NR_CREDIT_ENTRIES →
  0 < cm_max_credits ch < 2 ^ 8 → alen (cm_avail_credits ch) = NR_CREDIT_ENTRIES →
  (∀ k, 0 ≤ k → 0 ≤ c k ≤ cm_max_credits ch) →
  (∀ k, cm_valid_len ch ≤ k → c k = cm_max_credits ch) →
  (∀ k, 0 ≤ k < NR_CREDIT_ENTRIES → raw ch k = Some (c k)) →
  cm_wf ch ∧ ∀ k, 0 ≤ k → credits ch k = c k.
Proof.
  intros Hh Hv Hm Hl Hr Hf Hraw.
  split; [split; try done|].
  - intros i a Ha. pose proof (aget_inv _ _ _ Ha) as Hi. rewrite Hl in Hi.
    assert (raw ch ((i - cm_head ch) mod NR_CREDIT_ENTRIES) = Some a) as Hra.
    { unfold raw. rewrite <- Ha. f_equal. unfold NR_CREDIT_ENTRIES in *. dlia. }
    assert (0 ≤ (i - cm_head ch) mod NR_CREDIT_ENTRIES < NR_CREDIT_ENTRIES) as Hb
      by by apply Z.mod_pos_bound.
    rewrite Hraw in Hra by done. injection Hra as <-. apply Hr. lia.
  - intros k Hk. rewrite Hraw by lia. f_equal. apply Hf. lia.
  - intros k Hk. unfold credits. destruct (k <? cm_valid_len ch) eqn:E; bool_prop.
    + by rewrite Hraw by lia.
    + symmetry. apply Hf. lia.
Qed.

(** ** What a transfer takes *)

(** The slots after a transfer that started at slot [k0] has emptied [d] slots
    and taken [x] credits from the next one. *)
Definition drawn (c : Z → Z) (k0 d x k : Z) : Z :=
  if (k0 <=? k) && (k <? k0 + d) then 0
  else if k =? k0 + d then c k - x else c k.

(** [r] credits are taken first-fit from slot [k0] on: [d] slots are emptied and
    [x] credits of slot [k0 + d] are used.  When the ring ends first, the
    transfer goes on as if it had found its credits. *)
Record takes (c : Z → Z) (k0 r d x : Z) : Prop := {
  tk_d : 0 ≤ d ∧ k0 + d < NR_CREDIT_ENTRIES;
  tk_x : 0 ≤ x ≤ c (k0 + d);
  tk_first : d = 0 ∨ zsum c (seqZ k0 d) < r;
  tk_total : zsum c (seqZ k0 d) + x = r ∨
             (zsum c (seqZ k0 d) + x < r ∧ x = c (k0 + d) ∧ k0 + d = NR_CREDIT_ENTRIES - 1);
}.

Lemma zsum_seqZ_snoc (c : Z → Z) k0 d :
  0 ≤ d → zsum c (seqZ k0 (d + 1)) = zsum c (seqZ k0 d) + c (k0 + d).
Proof.
  intros Hd. rewrite seqZ_app, zsum_app by lia. rewrite (seqZ_cons (k0 + d)) by lia. simpl. lia.
Qed.

(** How the emptied range grows: the cases of [drawn] used by the loop. *)
Lemma drawn_0 c k0 k : drawn c k0 0 0 k = c k.
Proof.
  unfold drawn. destruct ((k0 <=? k) && (k <? k0 + 0)) eqn:E; bool_prop; [lia|].
  case_match; lia.
Qed.
Lemma drawn_at c k0 d x : drawn c k0 d x (k0 + d) = c (k0 + d) - x.
Proof.
  unfold drawn. by rewrite (proj2 (Z.ltb_ge _ _) (Z.le_refl _)), andb_false_r, Z.eqb_refl.
Qed.
Lemma drawn_ne c k0 d x k : k ≠ k0 + d → drawn c k0 d x k = drawn c k0 d 0 k.
Proof. intros Hk. unfold drawn. by rewrite (proj2 (Z.eqb_neq _ _) Hk). Qed.
Lemma drawn_all c k0 d k :
  0 ≤ d → drawn c k0 d (c (k0 + d)) k = drawn c k0 (d + 1) 0 k.
Proof.
  intros Hd. destruct (decide (k = k0 + d)) as [->|Hne].
  - rewrite drawn_at. unfold drawn.
    rewrite (proj2 (Z.leb_le _ _)), (proj2 (Z.ltb_lt _ _)) by lia. simpl. lia.
  - unfold drawn. rewrite (proj2 (Z.eqb_neq _ _) Hne).
    replace (k <? k0 + (d + 1)) with (k <? k0 + d)
      by (destruct (Z.ltb_spec k (k0 + d)), (Z.ltb_spec k (k0 + (d + 1))); lia).
    destruct ((k0 <=? k) && (k <? k0 + d)); [done|]. case_match; lia.
Qed.

Lemma drawn_range c k0 d x k m :
  0 ≤ x ≤ c (k0 + d) → 0 ≤ c k ≤ m → 0 ≤ drawn c k0 d x k ≤ m.
Proof.
  intros Hx Hc. unfold drawn. case_match; [lia|].
  destruct (k =? k0 + d) eqn:E; bool_prop; subst; lia.
Qed.

Lemma drawn_after c k0 d x k : k0 + d < k → drawn c k0 d x k = c k.
Proof.
  intros Hk. unfold drawn. rewrite (proj2 (Z.ltb_ge _ _)), andb_false_r by lia.
  by rewrite (proj2 (Z.eqb_neq _ _)) by lia.
Qed.

Lemma chmodel_init_wf bandwidth :
  0 < BANDWIDTH_TO_MAX_CREDITS bandwidth < 2 ^ 8 →
  cm_wf (chmodel_init bandwidth) ∧
  ∀ k, 0 ≤ k → credits (chmodel_init bandwidth) k = BANDWIDTH_TO_MAX_CREDITS bandwidth.
Proof.
  intros Hb. assert (u32 (BANDWIDTH_TO_MAX_CREDITS bandwidth)
                     = BANDWIDTH_TO_MAX_CREDITS bandwidth) as Hu by (apply u32_small; lia).
  apply cm_wf_intro; simpl; rewrite ?Hu; try done; try (unfold NR_CREDIT_ENTRIES; lia).
  intros k Hk. unfold raw. simpl. rewrite Hu, u8_small by lia.
  rewrite aget_anew, decide_True; [done|]. by apply Z.mod_pos_bound.
Qed.

Section request_proofs.
Context `{!Clock}.

Lemma wp_memset_credits lo n ch t Q :
  alen (cm_avail_credits ch) = NR_CREDIT_ENTRIES → 0 < cm_max_credits ch < 2 ^ 8 →
  0 ≤ lo → 0 ≤ n → lo + n ≤ NR_CREDIT_ENTRIES →
  (∀ a, alen a = NR_CREDIT_ENTRIES →
    (∀ i, aget a i = if decide (lo ≤ i < lo + n) then Some (cm_max_credits ch)
                     else aget (cm_avail_credits ch) i) →
    Q tt (ChannelModel (cm_cur_time ch) (cm_head ch) (cm_valid_len ch) (cm_max_credits ch)
            (cm_command_credits ch) (cm_xfer_lat ch) a, t)) →
  wp (memset_credits lo n) (ch, t) Q.
Proof.
  intros Hl Hm Hlo Hn Hb HQ. unfold memset_credits. wp_step. wp_step.
  rewrite (proj2 (Z.leb_le _ _)) by done. unfold set_credits. wp_step. apply HQ.
  - rewrite alen_afill; rewrite ?Hl; done.
  - intros i. rewrite u8_small by lia. apply aget_afill; rewrite ?Hl; done.
Qed.

(** [move_head] shifts the slots by the intervals that have passed. *)
Lemma move_head_spec now ch t :
  cm_wf ch →
  let o := Z.min (u32 (now / UNIT_TIME_INTERVAL - cm_cur_time ch / UNIT_TIME_INTERVAL))
                 (cm_valid_len ch) in
  wp (move_head now) (ch, t) (λ _ '(ch', t'),
    t' = t ∧ cm_wf ch' ∧ same_params ch ch' ∧ cm_cur_time ch' = now ∧
    cm_valid_len ch' = cm_valid_len ch - o ∧
    ∀ k, 0 ≤ k → credits ch' k = credits ch (k + o)).
Proof.
  intros Hwf. cbv zeta. unfold move_head. wp_step. wp_step. cbv zeta.
  set (x := u32 (now / UNIT_TIME_INTERVAL - cm_cur_time ch / UNIT_TIME_INTERVAL)).
  assert (0 ≤ x) as Hx0 by apply u32_range.
  replace (if x <? cm_valid_len ch then x else cm_valid_len ch)
    with (Z.min x (cm_valid_len ch)) by (destruct (Z.ltb_spec x (cm_valid_len ch)); lia).
  set (o := Z.min x (cm_valid_len ch)).
  pose proof (cw_head _ Hwf) as Hh. pose proof (cw_valid_len _ Hwf) as Hv.
  assert (0 ≤ o ≤ cm_valid_len ch) as Ho by (unfold o; lia). clearbody o. clear x Hx0.
  pose proof (cw_len _ Hwf) as Hlen. pose proof (cw_max _ Hwf) as Hmax.
  assert (NR_CREDIT_ENTRIES = 98304) as HN by done.
  rewrite (u32_small (cm_head ch + o)), (u32_small (NR_CREDIT_ENTRIES - cm_head ch)),
    (u32_small (cm_valid_len ch - o)) by lia.
  (* both branches leave the slots passed over full and the others alone *)
  wp_step. eapply wp_mono with (λ _ '(ch1, t1), t1 = t ∧
    ∃ a, ch1 = ChannelModel (cm_cur_time ch) (cm_head ch) (cm_valid_len ch)
                 (cm_max_credits ch) (cm_command_credits ch) (cm_xfer_lat ch) a ∧
         alen a = NR_CREDIT_ENTRIES ∧
         ∀ k, 0 ≤ k < NR_CREDIT_ENTRIES →
           aget a ((cm_head ch + k) mod NR_CREDIT_ENTRIES) =
           if decide (k < o) then Some (cm_max_credits ch) else raw ch k).
  - destruct (NR_CREDIT_ENTRIES <=? cm_head ch + o) eqn:Hwrap; bool_prop.
    + wp_step. apply wp_memset_credits; try done; try lia. intros a Ha Hga.
      rewrite u32_small by lia.
      apply wp_memset_credits; simpl; try done; try lia. intros b Hb Hgb.
      split; [done|]. exists b. split_and!; try done. intros k Hk. rewrite Hgb, Hga.
      unfold raw. rewrite HN in *. repeat case_decide; done || dlia.
    + apply wp_memset_credits; try done; try lia. intros a Ha Hga.
      split; [done|]. exists a. split_and!; try done. intros k Hk. rewrite Hga.
      unfold raw. rewrite HN in *. repeat case_decide; done || dlia.
  - intros [] [ch1 t1] (-> & a & -> & Ha & Hga). wp_step. simpl.
    set (ch' := ChannelModel _ _ _ _ _ _ _).
    destruct (cm_wf_intro ch' (λ k, credits ch (k + o))) as [Hwf' Hc']; simpl; try done; try lia.
    + by apply Z.mod_pos_bound.
    + intros k Hk. apply credits_range; [done|lia].
    + intros k Hk. unfold credits. by rewrite (proj2 (Z.ltb_ge _ _)) by lia.
    + intros k Hk. unfold raw; simpl.
      assert (((cm_head ch + o) mod NR_CREDIT_ENTRIES + k) mod NR_CREDIT_ENTRIES =
        (cm_head ch + (k + o) mod NR_CREDIT_ENTRIES) mod NR_CREDIT_ENTRIES) as ->
        by (rewrite HN; dlia).
      rewrite Hga by by apply Z.mod_pos_bound.
      destruct (decide (k + o < NR_CREDIT_ENTRIES)) as [Hs|Hs].
      * rewrite Z.mod_small by lia. rewrite decide_False by lia.
        apply raw_credits; [done|lia].
      * rewrite decide_True by (rewrite HN in *; dlia). f_equal. symmetry.
        unfold credits. by rewrite (proj2 (Z.ltb_ge _ _)) by lia.
Qed.

Lemma take_credits_spec k0 r ch t :
  cm_wf ch → 0 ≤ k0 < NR_CREDIT_ENTRIES → 0 ≤ r < 2 ^ 32 →
  wp (take_credits ((cm_head ch + k0) mod NR_CREDIT_ENTRIES) r) (ch, t) (λ '(pos, d) '(ch', t'),
    t' = t ∧ pos = (cm_head ch + k0 + d) mod NR_CREDIT_ENTRIES ∧
    ∃ a x, ch' = ChannelModel (cm_cur_time ch) (cm_head ch) (cm_valid_len ch)
                   (cm_max_credits ch) (cm_command_credits ch) (cm_xfer_lat ch) a ∧
      alen a = NR_CREDIT_ENTRIES ∧ takes (credits ch) k0 r d x ∧
      ∀ k, 0 ≤ k < NR_CREDIT_ENTRIES →
        aget a ((cm_head ch + k) mod NR_CREDIT_ENTRIES) = Some (drawn (credits ch) k0 d x k)).
Proof.
  intros Hwf Hk0 Hr. unfold take_credits.
  assert (NR_CREDIT_ENTRIES = 98304) as HN by done.
  pose proof (cw_head _ Hwf) as Hh. pose proof (cw_max _ Hwf) as Hmax.
  set (c := credits ch).
  eapply (wp_while (λ '(pos, rem, d) '(ch1, t1), t1 = t ∧
    ∃ a, ch1 = ChannelModel (cm_cur_time ch) (cm_head ch) (cm_valid_len ch)
                 (cm_max_credits ch) (cm_command_credits ch) (cm_xfer_lat ch) a ∧
      alen a = NR_CREDIT_ENTRIES ∧ pos = (cm_head ch + k0 + d) mod NR_CREDIT_ENTRIES ∧
      0 ≤ d ∧ k0 + d < NR_CREDIT_ENTRIES ∧
      rem = r - zsum c (seqZ k0 d) ∧ 0 ≤ rem ∧ (d = 0 ∨ 0 < rem) ∧
      ∀ k, 0 ≤ k < NR_CREDIT_ENTRIES →
        aget a ((cm_head ch + k) mod NR_CREDIT_ENTRIES) = Some (drawn c k0 d 0 k))
    (λ '(_, _, d), NR_CREDIT_ENTRIES - k0 - d)).
  { split; [done|]. exists (cm_avail_credits ch). split_and!; try done; try lia.
    - by destruct ch.
    - apply Hwf.
    - by rewrite Z.add_0_r.
    - simpl. lia.
    - intros k Hk. rewrite (raw_credits ch k Hwf Hk : aget _ _ = _). by rewrite drawn_0. }
  { lia. }
  intros [[pos rem] d] [ch1 t1] (-> & a & -> & Ha & -> & Hd & Hkd & Hrem & Hrem0 & Hfst & Hslots).
  split; [lia|]. wp_step. wp_step. simpl. wp_step.
  set (pos := (cm_head ch + k0 + d) mod NR_CREDIT_ENTRIES).
  assert (0 ≤ pos < NR_CREDIT_ENTRIES) as Hpos by by apply Z.mod_pos_bound.
  pose proof (credits_range ch (k0 + d) Hwf ltac:(lia)) as Hc. fold c in Hc.
  assert (aget a pos = Some (c (k0 + d))) as Hget.
  { unfold pos. rewrite <- Z.add_assoc, Hslots, drawn_at by lia. f_equal. lia. }
  eapply wp_aread; [done|]. cbv zeta. wp_step. apply wp_awrite; [lia|].
  wp_step. unfold set_credits. wp_step. simpl.
  replace (if rem <=? c (k0 + d) then rem else c (k0 + d)) with (Z.min rem (c (k0 + d)))
    by (destruct (Z.leb_spec rem (c (k0 + d))); lia).
  set (x := Z.min rem (c (k0 + d))). assert (0 ≤ x ≤ c (k0 + d)) as Hx by (unfold x; lia).
  pose proof (zsum_bounds c (seqZ k0 d) 0 (cm_max_credits ch)
    ltac:(intros y Hy%elem_of_seqZ; apply credits_range; [done|lia])) as Hz.
  rewrite u8_small, u32_small by lia.
  assert (∀ k, 0 ≤ k < NR_CREDIT_ENTRIES →
    aget (aset a pos (c (k0 + d) - x)) ((cm_head ch + k) mod NR_CREDIT_ENTRIES) =
    Some (drawn c k0 d x k)) as Hslots'.
  { intros k Hk. rewrite aget_aset by lia. rewrite (Hslots k Hk).
    unfold pos. case_decide as Hp.
    - assert (k = k0 + d) as -> by (rewrite HN in *; dlia). by rewrite drawn_at.
    - rewrite (drawn_ne _ _ _ x); [done|]. intros ->. by rewrite Z.add_assoc in Hp. }
  assert (takes c k0 r d x ∨ (0 < rem - x ∧ x = c (k0 + d))) as Htk.
  { destruct (decide (rem ≤ c (k0 + d))); [left|right; unfold x; lia].
    split; lia. }
  assert (rem - x = 0 → takes c k0 r d x) as Htk0 by (intros; destruct Htk; [done|lia]).
  rewrite (u32_small (pos + 1)) by lia.
  destruct (rem - x =? 0) eqn:Hdone; bool_prop; simpl.
  - wp_step. split_and!; try done. eexists _, x. split_and!; eauto. by rewrite alen_aset.
  - destruct ((pos + 1) mod NR_CREDIT_ENTRIES =? cm_head ch) eqn:Hfull; bool_prop; simpl.
    + wp_step. split_and!; try done. eexists _, x. split_and!; eauto; [by rewrite alen_aset|].
      destruct Htk as [?|[Hrx Hxc]]; [done|].
      assert (k0 + d = NR_CREDIT_ENTRIES - 1) by (unfold pos in *; rewrite HN in *; dlia).
      split; try lia.
    + wp_step. rewrite (u32_small (d + 1)) by lia.
      assert (0 < rem - x ∧ x = c (k0 + d)) as [Hrx Hxc] by (unfold x in *; lia).
      assert (k0 + (d + 1) < NR_CREDIT_ENTRIES).
      { assert (k0 + d ≠ NR_CREDIT_ENTRIES - 1); [|lia].
        intros Heq. apply Hfull. unfold pos. rewrite HN in *. dlia. }
      split; [|lia]. split; [done|]. eexists. split_and!; [done|..]; try lia.
      * by rewrite alen_aset.
      * unfold pos. rewrite HN. dlia.
      * rewrite zsum_seqZ_snoc by lia. lia.
      * intros k Hk. rewrite Hslots' by done. rewrite Hxc, drawn_all by lia. done.
Qed.

(** The slots of [ch] once the head has moved to the time [now]. *)
Definition shifted (ch : channel_model) (now k : Z) : Z :=
  credits ch (k + Z.min (u32 (now / UNIT_TIME_INTERVAL
                              - cm_cur_time ch / UNIT_TIME_INTERVAL)) (cm_valid_len ch)).

(** What a request returns and takes: a request in the past, or too far ahead
    for the ring, ends at once; any other takes its credits first-fit. *)
Definition request_outcome (ch : channel_model) (now req len : Z) (fin : Z)
    (ch' : channel_model) : Prop :=
  let units := u32 (DIV_ROUND_UP len UNIT_XFER_SIZE) in
  let r := u32 (units + cm_command_credits ch) in
  let k0 := u32 (req / UNIT_TIME_INTERVAL - now / UNIT_TIME_INTERVAL) in
  if (req <? now) || (NR_CREDIT_ENTRIES <=? k0)
  then fin = req ∧ ∀ k, 0 ≤ k → credits ch' k = shifted ch now k
  else ∃ d x, takes (shifted ch now) k0 r d x ∧
    (∀ k, 0 ≤ k → credits ch' k = drawn (shifted ch now) k0 d x k) ∧
    fin = u64 (req + (u32 (cm_xfer_lat ch * units)
                      + Z.max 0 (d - r / cm_max_credits ch) * UNIT_TIME_INTERVAL)).

Lemma valid_length_eq head k :
  0 ≤ head < NR_CREDIT_ENTRIES → 0 ≤ k < NR_CREDIT_ENTRIES →
  (if head <=? (head + k) mod NR_CREDIT_ENTRIES
   then u32 ((head + k) mod NR_CREDIT_ENTRIES - head + 1)
   else u32 (NR_CREDIT_ENTRIES - (head - (head + k) mod NR_CREDIT_ENTRIES - 1))) = k + 1.
Proof.
  intros Hh Hk. assert (NR_CREDIT_ENTRIES = 98304) as HN by done.
  destruct (head <=? _) eqn:E; bool_prop; rewrite HN in *;
    (rewrite u32_small; dlia).
Qed.

Lemma chmodel_request_wp req len ch t :
  cm_wf ch → 0 ≤ req →
  wp (chmodel_request req len) (ch, t) (λ fin '(ch', t'),
    t' = t + 1 ∧ cm_wf ch' ∧ same_params ch ch' ∧ cm_cur_time ch' = cpu_clock t ∧
    request_outcome ch (cpu_clock t) req len fin ch').
Proof.
  intros Hwf Hreq. unfold chmodel_request. wp_step. unfold wp at 1, get_wallclock; simpl.
  fold (@wp cmst Z). set (now := cpu_clock t). wp_step.
  eapply wp_mono; [by apply move_head_spec|].
  intros [] [ch1 t1] (-> & Hwf1 & Hp1 & Ht1 & Hv1 & Hc1). wp_step. wp_step.
  pose proof (cw_valid_len _ Hwf1) as Hvl. wp_step. wp_step.
  { rewrite negb_true_iff, Z.ltb_ge. lia. }
  unfold request_outcome. cbv zeta.
  destruct Hp1 as (Hpm & Hpc & Hpx).
  destruct (req <? now) eqn:Hpast; simpl; [by wp_step|].
  set (k0 := u32 (req / UNIT_TIME_INTERVAL - now / UNIT_TIME_INTERVAL)).
  destruct (NR_CREDIT_ENTRIES <=? k0) eqn:Hfar; bool_prop; [by wp_step|].
  set (units := u32 (DIV_ROUND_UP len UNIT_XFER_SIZE)).
  assert (0 ≤ k0) as Hk0 by apply u32_range.
  assert (NR_CREDIT_ENTRIES = 98304) as HN by done.
  pose proof (cw_head _ Hwf1) as Hh1. pose proof (cw_max _ Hwf1) as Hm1.
  wp_step. wp_step; bool_prop; [lia|].
  replace (u32 (units * UNIT_XFER_CREDITS)) with units
    by (unfold UNIT_XFER_CREDITS; rewrite Z.mul_1_r; symmetry; apply u32_small, u32_range).
  rewrite Hpc, (u32_small (cm_head ch1 + k0)) by lia.
  set (r := u32 (units + cm_command_credits ch)).
  wp_step. eapply wp_mono; [apply take_credits_spec; [done|lia|apply u32_range]|].
  intros [pos d] [ch2 t2] (-> & -> & a & x & -> & Ha & Htk & Hslots).
  destruct (tk_d _ _ _ _ _ Htk) as [Hd Hkd].
  wp_step. wp_step. simpl. rewrite <- Z.add_assoc, valid_length_eq by lia. wp_step.
  replace (if cm_valid_len ch1 <? k0 + d + 1 then k0 + d + 1 else cm_valid_len ch1)
    with (Z.max (cm_valid_len ch1) (k0 + d + 1))
    by (destruct (Z.ltb_spec (cm_valid_len ch1) (k0 + d + 1)); lia).
  destruct (cm_wf_intro (ChannelModel (cm_cur_time ch1) (cm_head ch1)
      (Z.max (cm_valid_len ch1) (k0 + d + 1)) (cm_max_credits ch1) (cm_command_credits ch1)
      (cm_xfer_lat ch1) a) (drawn (credits ch1) k0 d x)) as [Hwf2 Hc2]; simpl; try done; try lia.
  { intros k Hk. apply drawn_range; [apply Htk|]. by apply credits_range. }
  { intros k Hk. rewrite drawn_after by lia. unfold credits.
    by rewrite (proj2 (Z.ltb_ge _ _)) by lia. }
  split_and!; try done. exists d, x.
  assert (∀ k, 0 ≤ k → shifted ch now k = credits ch1 k) as Hsh by (intros; by rewrite Hc1).
  split_and!.
  - destruct Htk as [_ ? Hf Htot].
    assert (zsum (shifted ch now) (seqZ k0 d) = zsum (credits ch1) (seqZ k0 d)) as Hz
      by (apply zsum_ext; intros k Hk%elem_of_seqZ; apply Hsh; lia).
    split; rewrite ?Hz, ?Hsh by lia; done.
  - intros k Hk. rewrite Hc2 by done. unfold drawn. by rewrite Hsh.
  - rewrite !Hpx, !Hpm. assert (0 ≤ r / cm_max_credits ch) by (apply Z.div_pos; [apply u32_range|lia]).
    pose proof (u32_range (cm_xfer_lat ch * units)).
    replace (if r / cm_max_credits ch <? d then d - r / cm_max_credits ch else 0)
      with (Z.max 0 (d - r / cm_max_credits ch))
      by (destruct (Z.ltb_spec (r / cm_max_credits ch) d); lia).
    rewrite (u64_small (Z.max _ _ * _)), (u64_small (u32 _ + _));
      unfold UNIT_TIME_INTERVAL; lia || done.
Qed.

(** A request never ends before it is made, and its latency is bounded. *)
Lemma request_outcome_bounds ch now req len fin ch' :
  cm_wf ch → 0 ≤ req < 2 ^ 63 → request_outcome ch now req len fin ch' →
  req ≤ fin < req + 2 ^ 33.
Proof.
  intros Hwf Hreq. unfold request_outcome; cbv zeta. case_match.
  { intros [-> _]. lia. }
  intros (d & x & Htk & _ & ->). destruct (tk_d _ _ _ _ _ Htk) as [Hd Hkd].
  pose proof (u32_range (cm_xfer_lat ch * u32 (DIV_ROUND_UP len UNIT_XFER_SIZE))).
  pose proof (u32_range (req / UNIT_TIME_INTERVAL - now / UNIT_TIME_INTERVAL)).
  set (r := u32 (_ + cm_command_credits ch)) in *.
  assert (0 ≤ r / cm_max_credits ch)
    by (apply Z.div_pos; [apply u32_range|apply (cw_max _ Hwf)]).
  unfold NR_CREDIT_ENTRIES, UNIT_TIME_INTERVAL in *. rewrite u64_small by lia. lia.
Qed.
End request_proofs.
