(* ===== verification/Ssd.v ===== *)
(** * The NAND device model (src/ssd.c, src/ssd.h)

    Geometry ([ssdparams], [ssd_init_params]), physical addresses ([ppa]), the
    tree of channels, LUNs, planes, blocks and pages, the write buffer's
    accounting, and [ssd_advance_nand], which turns a NAND command into a
    completion time.

    The PCIe channel and the write buffer are reached through pointers that all
    partitions of a namespace share after its initialisation, so they live in
    [env] and not in [ssd]; [env] also counts the readings of the CPU clock.
    Allocation is taken to succeed.  Fields that the allocator leaves
    uninitialised ([next_pln_avail_time], the two [gc_endtime]s) are never read
    by the driver and start at 0. *)

From stdpp Require Import base numbers list gmap.
From S2P Require Import Prelude Config ChannelModel.

#[local] Open Scope Z_scope.

(** ** Constants *)

Definition INVALID_PPA : Z := 2 ^ 64 - 1.
Definition INVALID_LPN : Z := 2 ^ 64 - 1.
Definition UNMAPPED_PPA : Z := 2 ^ 64 - 1.

Inductive nand_op : Type := NAND_READ | NAND_WRITE | NAND_ERASE | NAND_NOP.
Inductive io_type : Type := USER_IO | GC_IO.
#[export] Instance io_type_eq_dec : EqDecision io_type.
Proof. solve_decision. Defined.

Definition SEC_FREE : Z := 0.
Definition PG_FREE : Z := 0.
Definition PG_INVALID : Z := 1.
Definition PG_VALID : Z := 2.
Definition MAX_CELL_TYPES : Z := 3.

(** ** Physical page addresses

    The fields of the union's struct [g]; [ppa_val] is the union read as a
    64-bit word. *)

Record ppa : Type := Ppa {
  g_pg : Z;
  g_blk : Z;
  g_pl : Z;
  g_lun : Z;
  g_ch : Z;
  g_rsv : Z;
}.
#[export] Instance ppa_eq_dec : EqDecision ppa.
Proof. solve_decision. Defined.

Definition ppa_val (p : ppa) : Z :=
  g_pg p + Z.shiftl (g_blk p) 16 + Z.shiftl (g_pl p) 32 + Z.shiftl (g_lun p) 40
  + Z.shiftl (g_ch p) 48 + Z.shiftl (g_rsv p) 56.
Definition ppa_of (v : Z) : ppa :=
  Ppa (v mod 2 ^ 16) (Z.shiftr v 16 mod 2 ^ 16) (Z.shiftr v 32 mod 2 ^ 8)
      (Z.shiftr v 40 mod 2 ^ 8) (Z.shiftr v 48 mod 2 ^ 8) (Z.shiftr v 56 mod 2 ^ 8).

(** [h.blk_in_ssd] *)
Definition h_blk_in_ssd (p : ppa) : Z := Z.shiftr (ppa_val p) 16 mod 2 ^ 40.

(** Assignments to the bit fields. *)
Definition set_g_pg (x : Z) (p : ppa) : ppa :=
  Ppa (x mod 2 ^ 16) (g_blk p) (g_pl p) (g_lun p) (g_ch p) (g_rsv p).
Definition set_g_blk (x : Z) (p : ppa) : ppa :=
  Ppa (g_pg p) (x mod 2 ^ 16) (g_pl p) (g_lun p) (g_ch p) (g_rsv p).
Definition set_g_pl (x : Z) (p : ppa) : ppa :=
  Ppa (g_pg p) (g_blk p) (x mod 2 ^ 8) (g_lun p) (g_ch p) (g_rsv p).
Definition set_g_lun (x : Z) (p : ppa) : ppa :=
  Ppa (g_pg p) (g_blk p) (g_pl p) (x mod 2 ^ 8) (g_ch p) (g_rsv p).
Definition set_g_ch (x : Z) (p : ppa) : ppa :=
  Ppa (g_pg p) (g_blk p) (g_pl p) (g_lun p) (x mod 2 ^ 8) (g_rsv p).

(** ** The NAND tree *)

Record nand_page : Type := NandPage {
  pg_sec : arr Z;
  pg_nsecs : Z;
  pg_status : Z;
}.

Record nand_block : Type := NandBlock {
  blk_pg : arr nand_page;
  blk_npgs : Z;
  blk_ipc : Z;
  blk_vpc : Z;
  blk_erase_cnt : Z;
  blk_wp : Z;
}.

Record nand_plane : Type := NandPlane {
  pl_blk : arr nand_block;
  pl_next_pln_avail_time : Z;
  pl_nblks : Z;
}.

Record nand_lun : Type := NandLun {
  lun_pl : arr nand_plane;
  lun_npls : Z;
  lun_next_lun_avail_time : Z;
  lun_busy : bool;
  lun_gc_endtime : Z;
}.

Record ssd_channel : Type := SsdChannel {
  ch_lun : arr nand_lun;
  ch_nluns : Z;
  ch_gc_endtime : Z;
  ch_perf_model : channel_model;
}.

Record nand_cmd : Type := NandCmd {
  ncmd_type : io_type;
  ncmd_cmd : nand_op;
  ncmd_xfer_size : Z;
  ncmd_stime : Z;
  ncmd_interleave_pci_dma : bool;
  ncmd_ppa : ppa;
}.

Record buffer : Type := Buffer {
  buf_size : Z;
  buf_remaining : Z;
}.

Record ssdparams : Type := SsdParams {
  secsz : Z;
  secs_per_pg : Z;
  pgsz : Z;
  pgs_per_flashpg : Z;
  flashpgs_per_blk : Z;
  pgs_per_oneshotpg : Z;
  oneshotpgs_per_blk : Z;
  pgs_per_blk : Z;
  blks_per_pl : Z;
  pls_per_lun : Z;
  luns_per_ch : Z;
  nchs : Z;
  cell_mode : Z;
  write_unit_size : Z;
  write_early_completion : bool;
  pg_4kb_rd_lat : list Z;
  pg_rd_lat : list Z;
  pg_wr_lat : Z;
  blk_er_lat : Z;
  max_ch_xfer_size : Z;
  fw_4kb_rd_lat : Z;
  fw_rd_lat : Z;
  fw_wbuf_lat0 : Z;
  fw_wbuf_lat1 : Z;
  fw_ch_xfer_lat : Z;
  ch_bandwidth : Z;
  pcie_bandwidth : Z;
  secs_per_blk : Z;
  secs_per_pl : Z;
  secs_per_lun : Z;
  secs_per_ch : Z;
  tt_secs : Z;
  pgs_per_pl : Z;
  pgs_per_lun : Z;
  pgs_per_ch : Z;
  tt_pgs : Z;
  blks_per_lun : Z;
  blks_per_ch : Z;
  tt_blks : Z;
  secs_per_line : Z;
  pgs_per_line : Z;
  blks_per_line : Z;
  tt_lines : Z;
  pls_per_ch : Z;
  tt_pls : Z;
  tt_luns : Z;
  write_buffer_size : Z;
}.

Record ssd : Type := Ssd {
  ssd_sp : ssdparams;
  ssd_ch : arr ssd_channel;
  ssd_cpu_nr_dispatcher : Z;
}.

(** What the partitions share. *)
Record env : Type := Env {
  env_pcie : channel_model;
  env_wbuf : buffer;
  env_ticks : Z;
}.

(** ** The write buffer *)

Definition buffer_init (size : Z) : buffer := Buffer size size.

Definition buffer_allocate (size : Z) : M buffer Z :=
  buf ← get;
  NVMEV_ASSERT (size <=? buf_size buf) ;;
  let size := if buf_remaining buf <? size then 0 else size in
  put (Buffer (buf_size buf) (u64 (buf_remaining buf - size))) ;;
  mret (u32 size).

Definition buffer_release (size : Z) : M buffer bool :=
  buf ← get;
  put (Buffer (buf_size buf) (u64 (buf_remaining buf + size))) ;;
  mret true.

Definition buffer_refill : M buffer unit :=
  buf ← get;
  put (Buffer (buf_size buf) (buf_size buf)).

(** ** Geometry *)

(** [int] fields are 32-bit signed; the derived counts are [unsigned long]. *)
Definition ssd_init_params (c : ssd_config) (capacity nparts : Z) : res ssdparams :=
  let secsz := LBA_SIZE c in
  let secs_per_pg := 4096 / LBA_SIZE c in
  let pgsz := secsz * secs_per_pg in
  let pls_per_lun := PLNS_PER_LUN c in
  let luns_per_ch := LUNS_PER_NAND_CH c in
  if nparts =? 0 then Fault OOPS
  else if negb (NAND_CHANNELS c mod nparts =? 0) then Fault BUG
  else
  let nchs := NAND_CHANNELS c / nparts in
  let capacity := capacity / nparts in
  if negb (0 <? BLKS_PER_PLN c) && negb (0 <? BLK_SIZE c) then Fault BUG
  else
  let blks_per_pl :=
    if 0 <? BLKS_PER_PLN c then BLKS_PER_PLN c
    else s32 (DIV_ROUND_UP capacity (BLK_SIZE c * pls_per_lun * luns_per_ch * nchs)) in
  let blk_size :=
    if 0 <? BLKS_PER_PLN c
    then DIV_ROUND_UP capacity (blks_per_pl * pls_per_lun * luns_per_ch * nchs)
    else BLK_SIZE c in
  if negb ((ONESHOT_PAGE_SIZE c mod pgsz =? 0) && (FLASH_PAGE_SIZE c mod pgsz =? 0))
  then Fault BUG
  else if negb (ONESHOT_PAGE_SIZE c mod FLASH_PAGE_SIZE c =? 0) then Fault BUG
  else
  let pgs_per_oneshotpg := ONESHOT_PAGE_SIZE c / pgsz in
  let oneshotpgs_per_blk := s32 (DIV_ROUND_UP blk_size (ONESHOT_PAGE_SIZE c)) in
  let pgs_per_flashpg := FLASH_PAGE_SIZE c / pgsz in
  let flashpgs_per_blk :=
    s32 (ONESHOT_PAGE_SIZE c / FLASH_PAGE_SIZE c * oneshotpgs_per_blk) in
  let pgs_per_blk := s32 (pgs_per_oneshotpg * oneshotpgs_per_blk) in
  let secs_per_blk := u64 (s32 (secs_per_pg * pgs_per_blk)) in
  let secs_per_pl := u64 (secs_per_blk * blks_per_pl) in
  let secs_per_lun := u64 (secs_per_pl * pls_per_lun) in
  let secs_per_ch := u64 (secs_per_lun * luns_per_ch) in
  let tt_secs := u64 (secs_per_ch * nchs) in
  let pgs_per_pl := u64 (s32 (pgs_per_blk * blks_per_pl)) in
  let pgs_per_lun := u64 (pgs_per_pl * pls_per_lun) in
  let pgs_per_ch := u64 (pgs_per_lun * luns_per_ch) in
  let tt_pgs := u64 (pgs_per_ch * nchs) in
  let blks_per_lun := u64 (s32 (blks_per_pl * pls_per_lun)) in
  let blks_per_ch := u64 (blks_per_lun * luns_per_ch) in
  let tt_blks := u64 (blks_per_ch * nchs) in
  let pls_per_ch := u64 (s32 (pls_per_lun * luns_per_ch)) in
  let tt_pls := u64 (pls_per_ch * nchs) in
  let tt_luns := u64 (s32 (luns_per_ch * nchs)) in
  let blks_per_line := tt_luns in
  let pgs_per_line := u64 (blks_per_line * pgs_per_blk) in
  let secs_per_line := u64 (pgs_per_line * secs_per_pg) in
  let tt_lines := blks_per_lun in
  Ok (SsdParams secsz secs_per_pg pgsz pgs_per_flashpg flashpgs_per_blk pgs_per_oneshotpg
        oneshotpgs_per_blk pgs_per_blk blks_per_pl pls_per_lun luns_per_ch nchs (CELL_MODE c)
        (WRITE_UNIT_SIZE c) (WRITE_EARLY_COMPLETION c)
        [NAND_4KB_READ_LATENCY_LSB c; NAND_4KB_READ_LATENCY_MSB c; NAND_4KB_READ_LATENCY_CSB c]
        [NAND_READ_LATENCY_LSB c; NAND_READ_LATENCY_MSB c; NAND_READ_LATENCY_CSB c]
        (NAND_PROG_LATENCY c) (NAND_ERASE_LATENCY c) (MAX_CH_XFER_SIZE c)
        (FW_4KB_READ_LATENCY c) (FW_READ_LATENCY c) (FW_WBUF_LATENCY0 c) (FW_WBUF_LATENCY1 c)
        (FW_CH_XFER_LATENCY c) (NAND_CHANNEL_BANDWIDTH c) (PCIE_BANDWIDTH c)
        secs_per_blk secs_per_pl secs_per_lun secs_per_ch tt_secs
        pgs_per_pl pgs_per_lun pgs_per_ch tt_pgs blks_per_lun blks_per_ch tt_blks
        secs_per_line pgs_per_line blks_per_line tt_lines pls_per_ch tt_pls tt_luns
        (GLOBAL_WB_SIZE c)).

(** ** Initialisation *)

Definition ssd_init_nand_page (spp : ssdparams) : nand_page :=
  NandPage (anew (secs_per_pg spp) SEC_FREE) (secs_per_pg spp) PG_FREE.

Definition ssd_init_nand_blk (spp : ssdparams) : nand_block :=
  NandBlock (anew (pgs_per_blk spp) (ssd_init_nand_page spp)) (pgs_per_blk spp) 0 0 0 0.

Definition ssd_init_nand_plane (spp : ssdparams) : nand_plane :=
  NandPlane (anew (blks_per_pl spp) (ssd_init_nand_blk spp)) 0 (blks_per_pl spp).

Definition ssd_init_nand_lun (spp : ssdparams) : nand_lun :=
  NandLun (anew (pls_per_lun spp) (ssd_init_nand_plane spp)) (pls_per_lun spp) 0 false 0.

Definition ssd_init_ch (spp : ssdparams) : ssd_channel :=
  let pm := chmodel_init (ch_bandwidth spp) in
  SsdChannel (anew (luns_per_ch spp) (ssd_init_nand_lun spp)) (luns_per_ch spp) 0
    (ChannelModel (cm_cur_time pm) (cm_head pm) (cm_valid_len pm) (cm_max_credits pm)
       (cm_command_credits pm)
       (u32 (cm_xfer_lat pm + u64 (fw_ch_xfer_lat spp * UNIT_XFER_SIZE) / KB 4))
       (cm_avail_credits pm)).

Definition ssd_init_pcie (spp : ssdparams) : channel_model := chmodel_init (pcie_bandwidth spp).

(** The new device, its PCIe channel and its write buffer. *)
Definition ssd_init (spp : ssdparams) (cpu_nr_dispatcher : Z) : ssd * channel_model * buffer :=
  (Ssd spp (anew (nchs spp) (ssd_init_ch spp)) cpu_nr_dispatcher,
   ssd_init_pcie spp,
   buffer_init (write_buffer_size spp)).

(** ** Access paths

    [get_ch] ... [get_pg] return a pointer; reading through it is the [option]
    below and writing through it the corresponding update. *)

Definition get_ch (s : ssd) (p : ppa) : option ssd_channel := aget (ssd_ch s) (g_ch p).
Definition get_lun (s : ssd) (p : ppa) : option nand_lun :=
  ch ← get_ch s p; aget (ch_lun ch) (g_lun p).
Definition get_pl (s : ssd) (p : ppa) : option nand_plane :=
  lun ← get_lun s p; aget (lun_pl lun) (g_pl p).
Definition get_blk (s : ssd) (p : ppa) : option nand_block :=
  pl ← get_pl s p; aget (pl_blk pl) (g_blk p).
Definition get_pg (s : ssd) (p : ppa) : option nand_page :=
  blk ← get_blk s p; aget (blk_pg blk) (g_pg p).

Definition set_blk_counts (ipc vpc erase : Z) (b : nand_block) : nand_block :=
  NandBlock (blk_pg b) (blk_npgs b) ipc vpc erase (blk_wp b).
Definition set_pg_status (st : Z) (p : nand_page) : nand_page :=
  NandPage (pg_sec p) (pg_nsecs p) st.

Definition upd_ch (f : ssd_channel → ssd_channel) (p : ppa) (s : ssd) : ssd :=
  Ssd (ssd_sp s) (aupd (ssd_ch s) (g_ch p) f) (ssd_cpu_nr_dispatcher s).
Definition upd_lun (f : nand_lun → nand_lun) (p : ppa) : ssd → ssd :=
  upd_ch (λ c, SsdChannel (aupd (ch_lun c) (g_lun p) f) (ch_nluns c) (ch_gc_endtime c)
                 (ch_perf_model c)) p.
Definition upd_pl (f : nand_plane → nand_plane) (p : ppa) : ssd → ssd :=
  upd_lun (λ l, NandLun (aupd (lun_pl l) (g_pl p) f) (lun_npls l) (lun_next_lun_avail_time l)
                  (lun_busy l) (lun_gc_endtime l)) p.
Definition upd_blk (f : nand_block → nand_block) (p : ppa) : ssd → ssd :=
  upd_pl (λ l, NandPlane (aupd (pl_blk l) (g_blk p) f) (pl_next_pln_avail_time l)
                 (pl_nblks l)) p.
Definition upd_pg (f : nand_page → nand_page) (p : ppa) : ssd → ssd :=
  upd_blk (λ b, NandBlock (aupd (blk_pg b) (g_pg p) f) (blk_npgs b) (blk_ipc b) (blk_vpc b)
                  (blk_erase_cnt b) (blk_wp b)) p.

Definition set_lun_avail (t : Z) (l : nand_lun) : nand_lun :=
  NandLun (lun_pl l) (lun_npls l) t (lun_busy l) (lun_gc_endtime l).
Definition set_lun_gc_endtime (t : Z) (l : nand_lun) : nand_lun :=
  NandLun (lun_pl l) (lun_npls l) (lun_next_lun_avail_time l) (lun_busy l) t.
Definition set_ch_perf_model (m : channel_model) (c : ssd_channel) : ssd_channel :=
  SsdChannel (ch_lun c) (ch_nluns c) (ch_gc_endtime c) m.

Definition get_cell (s : ssd) (p : ppa) : option Z :=
  let spp := ssd_sp s in
  if (pgs_per_flashpg spp =? 0) || (cell_mode spp =? 0) then None
  else Some ((g_pg p / pgs_per_flashpg spp) mod cell_mode spp).

(** ** Timing *)

(** The device and what it shares. *)
Definition sst : Type := ssd * env.

Section timing.
Context `{!Clock}.

Definition get_ioclock : M sst Z := λ '(s, e),
  Ok (cpu_clock (env_ticks e), (s, Env (env_pcie e) (env_wbuf e) (env_ticks e + 1))).

Definition ssd_advance_pcie (request_time length : Z) : M sst Z :=
  zoom (λ se, (env_pcie (snd se), env_ticks (snd se)))
       (λ ct se, (fst se, Env (fst ct) (env_wbuf (snd se)) (snd ct)))
       (chmodel_request request_time length).

(** [chmodel_request(ch->perf_model, ...)] for the channel of [p]. *)
Definition ch_request (p : ppa) (request_time length : Z) : M sst Z :=
  '(s, e) ← get;
  ch ← deref (get_ch s p);
  match chmodel_request request_time length (ch_perf_model ch, env_ticks e) with
  | Ok (t, (pm, ticks)) =>
      put (upd_ch (set_ch_perf_model pm) p s, Env (env_pcie e) (env_wbuf e) ticks) ;;
      mret t
  | Fault f => throw f
  end.

Definition ssd_advance_write_buffer (request_time length : Z) : M sst Z :=
  '(s, _) ← get;
  let spp := ssd_sp s in
  let nsecs_latest := u64 (request_time + fw_wbuf_lat0 spp) in
  let nsecs_latest := u64 (nsecs_latest + fw_wbuf_lat1 spp * DIV_ROUND_UP length (KB 4)) in
  ssd_advance_pcie nsecs_latest length.

Definition set_lun_avail_time (p : ppa) (t : Z) : M sst unit :=
  modify (λ se, (upd_lun (set_lun_avail t) p (fst se), snd se)).

(** The transfer loop of a read.  The locals are [remaining], [chnl_stime] and
    the last [chnl_etime] and [completed_time]; both are unset before the first
    round, and reading them then is an undefined value. *)
Definition read_transfer (p : ppa) (interleave : bool) (max_xfer remaining chnl_stime : Z)
    : M sst (option (Z * Z)) :=
  while_loop (remaining + 1) (λ '(remaining, chnl_stime, last),
    if remaining =? 0 then mret (inr last)
    else
      let xfer_size := Z.min remaining max_xfer in
      chnl_etime ← ch_request p chnl_stime xfer_size;
      completed_time ← (if interleave then ssd_advance_pcie chnl_etime xfer_size
                        else mret chnl_etime);
      mret (inl (remaining - xfer_size, chnl_etime, Some (chnl_etime, completed_time))))
    (remaining, chnl_stime, None).

Definition ssd_advance_nand (ncmd : nand_cmd) : M sst Z :=
  let p := ncmd_ppa ncmd in
  cmd_stime ← (if ncmd_stime ncmd =? 0 then get_ioclock else mret (ncmd_stime ncmd));
  if ppa_val p =? UNMAPPED_PPA then mret cmd_stime
  else
    '(s, _) ← get;
    let spp := ssd_sp s in
    lun ← deref (get_lun s p);
    cell ← deref (get_cell s p);
    let remaining := ncmd_xfer_size ncmd in
    match ncmd_cmd ncmd with
    | NAND_READ =>
        let nand_stime := Z.max (lun_next_lun_avail_time lun) cmd_stime in
        lat ← deref (if ncmd_xfer_size ncmd =? 4096
                     then pg_4kb_rd_lat spp !! Z.to_nat cell
                     else pg_rd_lat spp !! Z.to_nat cell);
        let nand_etime := u64 (nand_stime + lat) in
        last ← read_transfer p (ncmd_interleave_pci_dma ncmd) (u64 (max_ch_xfer_size spp))
                 remaining nand_etime;
        '(chnl_etime, completed_time) ← deref last;
        set_lun_avail_time p chnl_etime ;;
        mret completed_time
    | NAND_WRITE =>
        let chnl_stime := Z.max (lun_next_lun_avail_time lun) cmd_stime in
        chnl_etime ← ch_request p chnl_stime (ncmd_xfer_size ncmd);
        let nand_etime := u64 (chnl_etime + pg_wr_lat spp) in
        set_lun_avail_time p nand_etime ;;
        mret nand_etime
    | NAND_ERASE =>
        let nand_stime := Z.max (lun_next_lun_avail_time lun) cmd_stime in
        let nand_etime := u64 (nand_stime + blk_er_lat spp) in
        set_lun_avail_time p nand_etime ;;
        mret nand_etime
    | NAND_NOP =>
        let nand_stime := Z.max (lun_next_lun_avail_time lun) cmd_stime in
        set_lun_avail_time p nand_stime ;;
        mret nand_stime
    end.

Definition ssd_next_idle_time : M sst Z :=
  '(s, _) ← get;
  let spp := ssd_sp s in
  latest ← get_ioclock;
  let fix luns (ch : ssd_channel) (js : list Z) (latest : Z) : M sst Z :=
    match js with
    | [] => mret latest
    | j :: js' =>
        lun ← aread (ch_lun ch) j;
        luns ch js' (Z.max latest (lun_next_lun_avail_time lun))
    end in
  let fix chs (ids : list Z) (latest : Z) : M sst Z :=
    match ids with
    | [] => mret latest
    | i :: ids' =>
        ch ← aread (ssd_ch s) i;
        latest' ← luns ch (seqZ 0 (luns_per_ch spp)) latest;
        chs ids' latest'
    end in
  chs (seqZ 0 (nchs spp)) latest.
End timing.

(** ** Laws of addresses *)

Record ppa_wf (p : ppa) : Prop := {
  pw_pg : 0 ≤ g_pg p < 2 ^ 16;
  pw_blk : 0 ≤ g_blk p < 2 ^ 16;
  pw_pl : 0 ≤ g_pl p < 2 ^ 8;
  pw_lun : 0 ≤ g_lun p < 2 ^ 8;
  pw_ch : 0 ≤ g_ch p < 2 ^ 8;
  pw_rsv : 0 ≤ g_rsv p < 2 ^ 8;
}.

Lemma ppa_val_eq p :
  ppa_val p = g_pg p + g_blk p * 2 ^ 16 + g_pl p * 2 ^ 32 + g_lun p * 2 ^ 40
              + g_ch p * 2 ^ 48 + g_rsv p * 2 ^ 56.
Proof. unfold ppa_val. by rewrite !Z.shiftl_mul_pow2 by lia. Qed.

Lemma ppa_of_wf v : ppa_wf (ppa_of v).
Proof. split; simpl; apply Z.mod_pos_bound; lia. Qed.

Lemma ppa_of_val p : ppa_wf p → ppa_of (ppa_val p) = p.
Proof.
  intros [H1 H2 H3 H4 H5 H6]. rewrite ppa_val_eq. unfold ppa_of.
  destruct p as [pg blk pl lun ch rsv]; simpl in *.
  rewrite !Z.shiftr_div_pow2 by lia. f_equal; dlia.
Qed.

Lemma ppa_val_of v : 0 ≤ v < 2 ^ 64 → ppa_val (ppa_of v) = v.
Proof.
  intros H. rewrite ppa_val_eq. unfold ppa_of; simpl.
  rewrite !Z.shiftr_div_pow2 by lia. dlia.
Qed.

Lemma ppa_val_inj p q : ppa_wf p → ppa_wf q → ppa_val p = ppa_val q → p = q.
Proof. intros Hp Hq H. by rewrite <- (ppa_of_val p Hp), H, ppa_of_val. Qed.

(** Only an address with every bit set reads as unmapped. *)
Lemma ppa_val_mapped p : ppa_wf p → g_rsv p = 0 → ppa_val p ≠ UNMAPPED_PPA.
Proof. intros [] Hr. rewrite ppa_val_eq, Hr. unfold UNMAPPED_PPA. lia. Qed.

Lemma h_blk_in_ssd_eq p q :
  ppa_wf p → ppa_wf q →
  h_blk_in_ssd p = h_blk_in_ssd q ↔
  g_blk p = g_blk q ∧ g_pl p = g_pl q ∧ g_lun p = g_lun q ∧ g_ch p = g_ch q.
Proof.
  assert (∀ p, ppa_wf p → h_blk_in_ssd p =
    g_blk p + g_pl p * 2 ^ 16 + g_lun p * 2 ^ 24 + g_ch p * 2 ^ 32) as Heq.
  { intros r []. unfold h_blk_in_ssd. rewrite ppa_val_eq, Z.shiftr_div_pow2 by lia. dlia. }
  intros Hp Hq. rewrite !Heq by done. destruct Hp, Hq. lia.
Qed.

(** ** Laws of the access paths *)

Definition same_blk (p q : ppa) : Prop :=
  g_ch p = g_ch q ∧ g_lun p = g_lun q ∧ g_pl p = g_pl q ∧ g_blk p = g_blk q.
#[export] Instance same_blk_dec p q : Decision (same_blk p q).
Proof. unfold same_blk. apply _. Defined.

Section paths.
Implicit Types (s : ssd) (p q : ppa).

Lemma get_ch_upd_ch f p q s :
  get_ch (upd_ch f p s) q = if decide (g_ch p = g_ch q) then f <$> get_ch s q else get_ch s q.
Proof. unfold get_ch, upd_ch; simpl. apply aget_aupd. Qed.

Lemma get_lun_upd_ch f p q s :
  (∀ c, ch_lun (f c) = ch_lun c) → get_lun (upd_ch f p s) q = get_lun s q.
Proof.
  intros Hf. unfold get_lun. rewrite get_ch_upd_ch. case_decide; [|done].
  destruct (get_ch s q); simpl; [|done]. by rewrite Hf.
Qed.

Lemma get_lun_upd_lun f p q s :
  get_lun (upd_lun f p s) q =
    if decide (g_ch p = g_ch q ∧ g_lun p = g_lun q) then f <$> get_lun s q else get_lun s q.
Proof.
  unfold get_lun, upd_lun. rewrite get_ch_upd_ch.
  destruct (decide (g_ch p = g_ch q)), (get_ch s q); simpl;
    rewrite ?aget_aupd; repeat case_decide; naive_solver.
Qed.

Lemma get_pl_upd_pl f p q s :
  get_pl (upd_pl f p s) q =
    if decide (g_ch p = g_ch q ∧ g_lun p = g_lun q ∧ g_pl p = g_pl q)
    then f <$> get_pl s q else get_pl s q.
Proof.
  unfold get_pl, upd_pl. rewrite get_lun_upd_lun.
  destruct (decide (g_ch p = g_ch q ∧ g_lun p = g_lun q)), (get_lun s q); simpl;
    rewrite ?aget_aupd; repeat case_decide; naive_solver.
Qed.

Lemma get_blk_upd_blk f p q s :
  get_blk (upd_blk f p s) q = if decide (same_blk p q) then f <$> get_blk s q else get_blk s q.
Proof.
  unfold get_blk, upd_blk, same_blk. rewrite get_pl_upd_pl.
  destruct (decide (g_ch p = g_ch q ∧ g_lun p = g_lun q ∧ g_pl p = g_pl q)), (get_pl s q);
    simpl; rewrite ?aget_aupd; repeat case_decide; naive_solver.
Qed.

Lemma get_blk_upd_lun f p q s :
  (∀ l, lun_pl (f l) = lun_pl l) → get_blk (upd_lun f p s) q = get_blk s q.
Proof.
  intros Hf. unfold get_blk, get_pl. rewrite get_lun_upd_lun. case_decide; [|done].
  destruct (get_lun s q); simpl; [|done]. by rewrite Hf.
Qed.

Lemma get_blk_upd_ch f p q s :
  (∀ c, ch_lun (f c) = ch_lun c) → get_blk (upd_ch f p s) q = get_blk s q.
Proof. intros Hf. unfold get_blk, get_pl. by rewrite get_lun_upd_ch. Qed.

Lemma get_lun_upd_blk f p q s :
  lun_next_lun_avail_time <$> get_lun (upd_blk f p s) q = lun_next_lun_avail_time <$> get_lun s q.
Proof.
  unfold upd_blk, upd_pl. rewrite get_lun_upd_lun. case_decide; [|done].
  by destruct (get_lun s q).
Qed.

Lemma ssd_sp_upd_ch f p s : ssd_sp (upd_ch f p s) = ssd_sp s.
Proof. done. Qed.
Lemma ssd_sp_upd_lun f p s : ssd_sp (upd_lun f p s) = ssd_sp s.
Proof. done. Qed.
Lemma ssd_sp_upd_blk f p s : ssd_sp (upd_blk f p s) = ssd_sp s.
Proof. done. Qed.
End paths.

(** ** Well-formed geometry *)

Record sp_ok (sp : ssdparams) : Prop := {
  so_nchs : 0 < nchs sp ≤ 2 ^ 8;
  so_luns : 0 < luns_per_ch sp ≤ 2 ^ 8;
  so_pls : pls_per_lun sp = 1;
  so_blks : 0 < blks_per_pl sp ≤ 2 ^ 16;
  so_ppb : 0 < pgs_per_blk sp ≤ 2 ^ 16;
  so_oneshot : 0 < pgs_per_oneshotpg sp;
  so_oneshots : pgs_per_blk sp = pgs_per_oneshotpg sp * oneshotpgs_per_blk sp;
  so_flash : 0 < pgs_per_flashpg sp;
  so_flashs : pgs_per_blk sp = pgs_per_flashpg sp * flashpgs_per_blk sp;
  so_pgsz : pgsz sp = 4096 ∧ secs_per_pg sp = 8 ∧ secsz sp = 512;
  so_lines : tt_lines sp = blks_per_pl sp;
  so_ppl : pgs_per_line sp = nchs sp * luns_per_ch sp * pgs_per_blk sp;
  so_pgs_pl : pgs_per_pl sp = pgs_per_blk sp * blks_per_pl sp;
  so_pgs_lun : pgs_per_lun sp = pgs_per_pl sp;
  so_pgs_ch : pgs_per_ch sp = pgs_per_lun sp * luns_per_ch sp;
  so_tt_pgs : tt_pgs sp = pgs_per_ch sp * nchs sp;
  so_tt_pgs_bound : tt_pgs sp < 2 ^ 31;
  so_cell : 0 < cell_mode sp ≤ MAX_CELL_TYPES;
  so_lat4 : length (pg_4kb_rd_lat sp) = 3%nat ∧ Forall (λ l, 0 ≤ l < 2 ^ 31) (pg_4kb_rd_lat sp);
  so_lat : length (pg_rd_lat sp) = 3%nat ∧ Forall (λ l, 0 ≤ l < 2 ^ 31) (pg_rd_lat sp);
  so_wr_lat : 0 ≤ pg_wr_lat sp < 2 ^ 31;
  so_er_lat : 0 ≤ blk_er_lat sp < 2 ^ 31;
  so_xfer : 0 < max_ch_xfer_size sp < 2 ^ 31;
  so_ch_bw : 0 < BANDWIDTH_TO_MAX_CREDITS (ch_bandwidth sp) < 2 ^ 8;
  so_pcie_bw : 0 < BANDWIDTH_TO_MAX_CREDITS (pcie_bandwidth sp) < 2 ^ 8;
}.

(** An address of the device. *)
Record ppa_in (sp : ssdparams) (p : ppa) : Prop := {
  pi_ch : 0 ≤ g_ch p < nchs sp;
  pi_lun : 0 ≤ g_lun p < luns_per_ch sp;
  pi_pl : g_pl p = 0;
  pi_blk : 0 ≤ g_blk p < blks_per_pl sp;
  pi_pg : 0 ≤ g_pg p < pgs_per_blk sp;
  pi_rsv : g_rsv p = 0;
}.

Lemma ppa_in_wf sp p : sp_ok sp → ppa_in sp p → ppa_wf p.
Proof. intros [] []. split; lia. Qed.

Lemma ppa_in_mapped sp p : sp_ok sp → ppa_in sp p → ppa_val p ≠ UNMAPPED_PPA.
Proof. intros Hs Hp. apply ppa_val_mapped; [by eapply ppa_in_wf|apply Hp]. Qed.

(** What the devices with a conventional layout have in common: two-by-two
    partitions of 32 KiB pages whose block size follows from the capacity. *)
Record conv_layout (c : ssd_config) : Prop := {
  cl_lba : LBA_BITS c = 9;
  cl_pls : PLNS_PER_LUN c = 1;
  cl_blks : 0 < BLKS_PER_PLN c ≤ 2 ^ 13;
  cl_flash : FLASH_PAGE_SIZE c = KB 32;
  cl_oneshot : ONESHOT_PAGE_SIZE c = KB 32;
  cl_luns : LUNS_PER_NAND_CH c = 2;
  cl_chs : NAND_CHANNELS c = 8;
  cl_cell : CELL_MODE c = CELL_MODE_MLC;
  cl_lat4 : Forall (λ l, 0 ≤ l < 2 ^ 31)
    [NAND_4KB_READ_LATENCY_LSB c; NAND_4KB_READ_LATENCY_MSB c; NAND_4KB_READ_LATENCY_CSB c];
  cl_lat : Forall (λ l, 0 ≤ l < 2 ^ 31)
    [NAND_READ_LATENCY_LSB c; NAND_READ_LATENCY_MSB c; NAND_READ_LATENCY_CSB c];
  cl_wr : 0 ≤ NAND_PROG_LATENCY c < 2 ^ 31;
  cl_er : 0 ≤ NAND_ERASE_LATENCY c < 2 ^ 31;
  cl_xfer : 0 < MAX_CH_XFER_SIZE c < 2 ^ 31;
  cl_ch_bw : 0 < BANDWIDTH_TO_MAX_CREDITS (NAND_CHANNEL_BANDWIDTH c) < 2 ^ 8;
  cl_pcie_bw : 0 < BANDWIDTH_TO_MAX_CREDITS (PCIE_BANDWIDTH c) < 2 ^ 8;
}.

Lemma samsung_970pro_layout : conv_layout SAMSUNG_970PRO.
Proof. split; repeat constructor; vm_compute; done. Qed.
Lemma samsung_fdp_layout : conv_layout SAMSUNG_FDP.
Proof. split; repeat constructor; vm_compute; done. Qed.

(** The parameters of a partition are well formed and hold its capacity, with
    less than a oneshot page per block to spare. *)
Lemma init_params_layout c capacity :
  conv_layout c → 4 ≤ capacity ≤ BLKS_PER_PLN c * 2 ^ 31 →
  ∃ sp, ssd_init_params c capacity 4 = Ok sp ∧ sp_ok sp ∧
    blks_per_pl sp = BLKS_PER_PLN c ∧ write_buffer_size sp = GLOBAL_WB_SIZE c ∧
    capacity / 4 ≤ tt_pgs sp * pgsz sp < capacity / 4 + 4 * BLKS_PER_PLN c * (KB 32 + 1).
Proof.
  intros [Hlba Hpl Hb Hf Ho Hl Hch Hcell Hl4 Hlr Hwr Her Hx Hbw Hpw] Hcap.
  unfold ssd_init_params, LBA_SIZE. cbv zeta.
  rewrite Hlba, Hpl, Hf, Ho, Hl, Hch. rewrite (proj2 (Z.ltb_lt _ _)) by lia.
  change (Z.shiftl 1 9) with 512. change (KB 32) with 32768. simpl negb. cbn [andb].
  change (8 mod 4 =? 0) with true. change (8 / 4) with 2. simpl.
  set (c4 := capacity / 4). set (b := BLKS_PER_PLN c) in *.
  assert (1 ≤ c4 ≤ b * 2 ^ 29) as Hc4 by (unfold c4; dlia).
  set (bs := DIV_ROUND_UP c4 (b * 1 * 2 * 2)).
  pose proof (DIV_ROUND_UP_spec c4 (b * 1 * 2 * 2) ltac:(lia) ltac:(lia) ltac:(lia)) as Hbs.
  fold bs in Hbs. assert (1 ≤ bs ≤ 2 ^ 27) as Hbs' by nia.
  set (os := DIV_ROUND_UP bs 32768).
  pose proof (DIV_ROUND_UP_spec bs 32768 ltac:(lia) ltac:(lia) ltac:(lia)) as Hos.
  fold os in Hos. assert (1 ≤ os ≤ 2 ^ 12) as Hos' by lia.
  eexists. split; [done|]. cbn [tt_pgs pgsz blks_per_pl].
  change (32768 / (512 * (4096 / 512))) with 8. change (4096 / 512) with 8.
  change (32768 / 32768) with 1.
  assert (0 < 8 * os * b ≤ 2 ^ 28) as Hbound by nia.
  rewrite !(s32_small os), !(s32_small (8 * os)), !(s32_small (8 * os * b)) by lia.
  rewrite !(u64_small (8 * os * b)), !(u64_small (8 * os * b * 1)),
    !(u64_small (8 * os * b * 1 * 2)), !(u64_small (8 * os * b * 1 * 2 * 2)) by lia.
  rewrite (s32_small (b * 1)), (u64_small (b * 1)), (s32_small (2 * 2)), (u64_small (2 * 2)),
    (u64_small (2 * 2 * (8 * os))) by lia.
  split; [|split; [done|split; [done|nia]]].
  split; cbn; rewrite ?Hcell; try done; try lia. rewrite s32_small; lia.
Qed.

(** ** Timing never touches the NAND contents *)

(** The two devices have the same parameters and the same blocks. *)
Definition same_nand (s s' : ssd) : Prop :=
  ssd_sp s' = ssd_sp s ∧ ∀ q, get_blk s' q = get_blk s q.

#[export] Instance same_nand_preorder : PreOrder same_nand.
Proof.
  split; [done|]. intros s1 s2 s3 [H1 H2] [H3 H4]. split; [congruence|].
  intros q. by rewrite H4.
Qed.

(** The performance model is in order: every channel model is well formed, every
    LUN exists. *)
Record timing_ok (se : sst) : Prop := {
  to_sp : sp_ok (ssd_sp (fst se));
  to_len : alen (ssd_ch (fst se)) = nchs (ssd_sp (fst se));
  to_ch c ch : aget (ssd_ch (fst se)) c = Some ch →
    cm_wf (ch_perf_model ch) ∧ alen (ch_lun ch) = luns_per_ch (ssd_sp (fst se));
  to_lun p l : get_lun (fst se) p = Some l → 0 ≤ lun_next_lun_avail_time l;
  to_pcie : cm_wf (env_pcie (snd se));
}.

Lemma to_get_ch se p :
  timing_ok se → 0 ≤ g_ch p < nchs (ssd_sp (fst se)) →
  ∃ ch, get_ch (fst se) p = Some ch ∧ cm_wf (ch_perf_model ch).
Proof.
  intros Hto Hp. unfold get_ch. destruct (aget_some (ssd_ch (fst se)) (g_ch p)) as [ch Hch].
  { by rewrite (to_len _ Hto). }
  exists ch. split; [done|]. by apply (to_ch _ Hto (g_ch p)).
Qed.

Lemma to_get_lun se p :
  timing_ok se → ppa_in (ssd_sp (fst se)) p →
  ∃ l, get_lun (fst se) p = Some l ∧ 0 ≤ lun_next_lun_avail_time l.
Proof.
  intros Hto Hp. unfold get_lun.
  destruct (to_get_ch se p Hto (pi_ch _ _ Hp)) as (ch & Hch & _). rewrite Hch; simpl.
  destruct (aget_some (ch_lun ch) (g_lun p)) as [l Hl].
  { rewrite (proj2 (to_ch _ Hto _ _ Hch)). apply Hp. }
  exists l. split; [done|]. apply (to_lun _ Hto p). unfold get_lun. by rewrite Hch.
Qed.

(** What every timing step guarantees. *)
Definition timing_step (se se' : sst) : Prop :=
  timing_ok se' ∧ same_nand (fst se) (fst se') ∧ env_wbuf (snd se') = env_wbuf (snd se).

Lemma timing_step_refl se : timing_ok se → timing_step se se.
Proof. done. Qed.
Lemma timing_step_trans se1 se2 se3 :
  timing_step se1 se2 → timing_step se2 se3 → timing_step se1 se3.
Proof.
  intros (_ & H2 & H3) (H4 & H5 & H6). split_and!; [done|by etrans|congruence].
Qed.

(** Times below this bound leave room for any latency the device adds. *)
Definition TIME_BOUND : Z := 2 ^ 62.

Section timing_proofs.
Context `{!Clock}.
Hypothesis clock_range : ∀ n, 0 ≤ cpu_clock n.

Lemma wp_get_ioclock se :
  timing_ok se → wp get_ioclock se (λ t se', timing_step se se' ∧ 0 ≤ t).
Proof.
  destruct se as [s e]. intros [H1 H2 H3 H4 H5]. split; [|apply clock_range].
  split; [by split|]. done.
Qed.

Lemma wp_advance_pcie req len se :
  timing_ok se → 0 ≤ req →
  wp (ssd_advance_pcie req len) se (λ t se', timing_step se se' ∧ 0 ≤ t ∧
    (req < 2 ^ 63 → req ≤ t < req + 2 ^ 33)).
Proof.
  destruct se as [s e]. intros [H1 H2 H3 H4 H5] Hreq. unfold ssd_advance_pcie.
  wp_step. simpl. eapply wp_mono; [by apply chmodel_request_wp|].
  intros t [ch' n] (-> & Hwf & Hp & Ht & Ho). simpl in *.
  assert (0 ≤ t) as Ht0.
  { unfold request_outcome in Ho; cbv zeta in Ho. case_match; [by destruct Ho as [-> _]|].
    destruct Ho as (d & x & _ & _ & ->). apply u64_range. }
  split; [split; [by split|done]|]. split; [done|].
  intros Hr. by eapply request_outcome_bounds; [|split|exact Ho].
Qed.

(** The PCIe channel is the only thing a transfer to or from the host touches. *)
Lemma wp_advance_pcie_same req len s e :
  timing_ok (s, e) → 0 ≤ req →
  wp (ssd_advance_pcie req len) (s, e) (λ t '(s', e'), s' = s ∧ timing_ok (s, e') ∧
    env_wbuf e' = env_wbuf e ∧ 0 ≤ t).
Proof.
  intros Hto Hreq. pose proof (wp_advance_pcie req len (s, e) Hto Hreq) as Hp.
  unfold ssd_advance_pcie, wp, zoom in Hp |- *.
  destruct (chmodel_request req len _) as [[t [ch' n]]|]; simpl in Hp |- *; [|done].
  destruct Hp as ((H1 & _ & H2) & H3 & _). done.
Qed.

Lemma wp_ch_request p req len se :
  timing_ok se → 0 ≤ g_ch p < nchs (ssd_sp (fst se)) → 0 ≤ req →
  wp (ch_request p req len) se (λ t se', timing_step se se' ∧ 0 ≤ t ∧
    (req < 2 ^ 63 → req ≤ t < req + 2 ^ 33) ∧ get_lun (fst se') p = get_lun (fst se) p).
Proof.
  destruct se as [s e]. intros Hto Hp Hreq. unfold ch_request. wp_step. wp_step.
  destruct (to_get_ch _ p Hto Hp) as (ch & Hch & Hcm). simpl in *.
  wp_step. eapply wp_deref; [done|].
  pose proof (chmodel_request_wp req len (ch_perf_model ch) (env_ticks e) Hcm Hreq) as Hw.
  destruct (wp_Ok _ _ _ Hw) as (t & [pm n] & Heq & -> & Hwf & Hpar & Ht & Ho). rewrite Heq.
  wp_step. wp_step. wp_step.
  assert (0 ≤ t) as Ht0.
  { unfold request_outcome in Ho; cbv zeta in Ho. case_match; [by destruct Ho as [-> _]|].
    destruct Ho as (d & x & _ & _ & ->). apply u64_range. }
  destruct Hto as [H1 H2 H3 H4 H5]; simpl in *.
  split; [split; [split; simpl|split]; simpl|split_and!].
  - done.
  - by rewrite alen_aupd.
  - intros c ch' Hc'. rewrite aget_aupd in Hc'. case_decide; [|by apply (H3 c)].
    destruct (aget (ssd_ch s) c) as [c0|] eqn:Ec; simplify_eq/=.
    split; [done|]. by apply (H3 (g_ch p)).
  - intros q l. rewrite get_lun_upd_ch by done. apply H4.
  - done.
  - split; [done|]. intros q. by apply get_blk_upd_ch.
  - done.
  - done.
  - intros Hr. by eapply request_outcome_bounds; [|split|exact Ho].
  - by apply get_lun_upd_ch.
Qed.

Lemma wp_set_lun_avail p t se :
  timing_ok se → 0 ≤ t →
  wp (set_lun_avail_time p t) se (λ _ se', timing_step se se' ∧
    lun_next_lun_avail_time <$> get_lun (fst se') p = (λ _, t) <$> get_lun (fst se) p).
Proof.
  destruct se as [s e]. intros [H1 H2 H3 H4 H5] Ht. unfold set_lun_avail_time. wp_step. simpl in *.
  split; [split; [split; simpl|split]; simpl|].
  - done.
  - unfold upd_lun, upd_ch; simpl. by rewrite alen_aupd.
  - intros c ch' Hc'. unfold upd_lun, upd_ch in Hc'; simpl in Hc'. rewrite aget_aupd in Hc'.
    case_decide; [|by apply (H3 c)].
    destruct (aget (ssd_ch s) c) as [c0|] eqn:Ec; simplify_eq/=.
    rewrite alen_aupd. by apply (H3 (g_ch p)).
  - intros q l. rewrite get_lun_upd_lun. case_decide; [|apply H4].
    destruct (get_lun s q) eqn:Eq; intros ?; by simplify_eq/=.
  - done.
  - split; [done|]. intros q. by apply get_blk_upd_lun.
  - done.
  - rewrite get_lun_upd_lun, decide_True by done. by destruct (get_lun s p).
Qed.

Lemma wp_read_transfer p il mx remaining stime se :
  timing_ok se → 0 ≤ g_ch p < nchs (ssd_sp (fst se)) →
  0 < mx → 0 < remaining → 0 ≤ stime →
  wp (read_transfer p il mx remaining stime) se (λ last se', timing_step se se' ∧
    ∃ ce ct, last = Some (ce, ct) ∧ 0 ≤ ce ∧ 0 ≤ ct ∧
      (stime + remaining * 2 ^ 34 < TIME_BOUND → stime ≤ ce ∧ stime ≤ ct)).
Proof.
  intros Hto Hp Hmx Hrem Hst. unfold read_transfer.
  set (B := stime + remaining * 2 ^ 34 < TIME_BOUND).
  eapply (wp_while (λ '(rem, cs, last) se', timing_step se se' ∧
    0 ≤ rem ≤ remaining ∧ 0 ≤ cs ∧ (B → stime ≤ cs ≤ stime + (remaining - rem) * 2 ^ 34) ∧
    match last with
    | None => rem = remaining
    | Some (ce, ct) => ce = cs ∧ 0 ≤ ct ∧ (B → stime ≤ ct)
    end) (λ '(rem, _, _), rem)).
  { split_and!; try done; lia. }
  { lia. }
  intros [[rem cs] last] se1 (Hstep & Hr & Hcs & Hb & Hlast). split; [lia|].
  destruct (Z.eqb_spec rem 0) as [->|Hne].
  { wp_step. split; [done|]. destruct last as [[ce ct]|]; [|lia].
    destruct Hlast as (-> & Hct & Hbt). exists cs, ct. split_and!; try done.
    intros HB. specialize (Hb HB). specialize (Hbt HB). lia. }
  assert (0 < Z.min rem mx ≤ rem) as Hx by lia.
  destruct Hstep as (Hto1 & Hsame & Hwb). pose proof (proj1 Hsame) as Hsp.
  wp_step. eapply wp_mono; [apply wp_ch_request; [done|by rewrite Hsp|done]|].
  intros ce se2 (Hstep2 & Hce & Hbe & _).
  assert (timing_step se se2) as Hs2 by (eapply timing_step_trans; [by split|done]).
  assert (B → cs ≤ ce < cs + 2 ^ 33) as HBe.
  { intros HB. apply Hbe. specialize (Hb HB). unfold B, TIME_BOUND in HB. nia. }
  wp_step. apply wp_mono with (λ ct se', timing_step se se' ∧ 0 ≤ ct ∧ (B → ce ≤ ct)).
  - destruct il; [|wp_step; split_and!; done].
    eapply wp_mono; [apply wp_advance_pcie; [apply Hs2|done]|].
    intros ct se3 (Hstep3 & Hct & Hbt). split_and!; [by eapply timing_step_trans|done|].
    intros HB. apply Hbt. specialize (Hb HB). specialize (HBe HB).
    unfold B, TIME_BOUND in HB. nia.
  - intros ct se3 (Hs3 & Hct & Hbt). wp_step. split; [|lia]. split_and!; try done; try lia.
    + intros HB. specialize (Hb HB). specialize (HBe HB). nia.
    + intros HB. specialize (Hb HB). specialize (HBe HB). specialize (Hbt HB). lia.
Qed.

Lemma get_cell_ok s p :
  sp_ok (ssd_sp s) → ∃ c, get_cell s p = Some c ∧ 0 ≤ c < 3.
Proof.
  intros Hsp. unfold get_cell. pose proof (so_flash _ Hsp). pose proof (so_cell _ Hsp).
  rewrite !(proj2 (Z.eqb_neq _ _)) by lia. simpl. eexists. split; [done|].
  pose proof (Z.mod_pos_bound (g_pg p / pgs_per_flashpg (ssd_sp s)) (cell_mode (ssd_sp s))).
  unfold MAX_CELL_TYPES in *. lia.
Qed.

Lemma lat_lookup (l : list Z) c :
  length l = 3%nat → Forall (λ x, 0 ≤ x < 2 ^ 31) l → 0 ≤ c < 3 →
  ∃ x, l !! Z.to_nat c = Some x ∧ 0 ≤ x < 2 ^ 31.
Proof.
  intros Hl Hf Hc. destruct (lookup_lt_is_Some_2 l (Z.to_nat c)) as [x Hx]; [lia|].
  exists x. split; [done|]. exact (Forall_lookup_1 _ _ _ _ Hf Hx).
Qed.

(** [ssd_advance_nand] on an address of the device: no fault, the NAND contents
    and the write buffer untouched; without wrap-around the command completes no
    earlier than it starts and than its LUN is free. *)
Lemma wp_advance_nand ncmd se :
  timing_ok se → ppa_in (ssd_sp (fst se)) (ncmd_ppa ncmd) → 0 ≤ ncmd_stime ncmd →
  (ncmd_cmd ncmd = NAND_READ → 0 < ncmd_xfer_size ncmd) →
  wp (ssd_advance_nand ncmd) se (λ t se', timing_step se se' ∧ 0 ≤ t ∧
    ∀ l, get_lun (fst se) (ncmd_ppa ncmd) = Some l →
      Z.max (lun_next_lun_avail_time l) (ncmd_stime ncmd)
        + Z.max 4 (ncmd_xfer_size ncmd + 1) * 2 ^ 34 < TIME_BOUND →
      ncmd_stime ncmd ≠ 0 → Z.max (lun_next_lun_avail_time l) (ncmd_stime ncmd) ≤ t).
Proof.
  intros Hto Hp Hst Hrd. unfold ssd_advance_nand. wp_step.
  apply wp_mono with (λ t se', timing_step se se' ∧ 0 ≤ t ∧
    (ncmd_stime ncmd ≠ 0 → se' = se ∧ t = ncmd_stime ncmd)).
  { destruct (Z.eqb_spec (ncmd_stime ncmd) 0); [|by wp_step].
    eapply wp_mono; [by apply wp_get_ioclock|]. naive_solver. }
  intros st se1 (Hs1 & Hst0 & Hsame). destruct Hs1 as (Hto1 & Hn1 & Hw1).
  pose proof (proj1 Hn1) as Hsp1. rewrite <- Hsp1 in Hp.
  pose proof (to_sp _ Hto1) as Hok.
  rewrite (proj2 (Z.eqb_neq _ _)) by by eapply ppa_in_mapped.
  wp_step. wp_step. destruct se1 as [s1 e1]; simpl in *.
  destruct (to_get_lun _ _ Hto1 Hp) as (lun & Hlun & Hl0). simpl in Hlun.
  destruct (get_cell_ok s1 (ncmd_ppa ncmd) Hok) as (cell & Hcell & Hc3).
  wp_step. eapply wp_deref; [done|]. wp_step. eapply wp_deref; [done|].
  set (base := Z.max (lun_next_lun_avail_time lun) st).
  assert (0 ≤ base) by (unfold base; lia).
  (* every branch ends by storing the LUN's next idle time *)
  assert (∀ t t' se2, timing_step (s1, e1) se2 → 0 ≤ t → 0 ≤ t' →
    (base + Z.max 4 (ncmd_xfer_size ncmd + 1) * 2 ^ 34 < TIME_BOUND → base ≤ t') →
    wp (set_lun_avail_time (ncmd_ppa ncmd) t ;; mret t') se2 (λ t se', timing_step se se' ∧ 0 ≤ t ∧
    ∀ l, get_lun (fst se) (ncmd_ppa ncmd) = Some l →
      Z.max (lun_next_lun_avail_time l) (ncmd_stime ncmd)
        + Z.max 4 (ncmd_xfer_size ncmd + 1) * 2 ^ 34 < TIME_BOUND →
      ncmd_stime ncmd ≠ 0 → Z.max (lun_next_lun_avail_time l) (ncmd_stime ncmd) ≤ t)) as Hend.
  { intros t t' se2 Hs2 Ht Ht' Hb. wp_step.
    eapply wp_mono; [apply wp_set_lun_avail; [apply Hs2|done]|].
    intros [] se3 [Hs3 _]. wp_step. split_and!; [|done|].
    - eapply timing_step_trans; [by split|]. by eapply timing_step_trans.
    - intros l Hl Hlt Hne. destruct (Hsame Hne) as [Heq Hteq]. subst st.
      rewrite <- Heq in Hl. simpl in Hl. assert (l = lun) as -> by congruence. by apply Hb. }
  assert (timing_step (s1, e1) (s1, e1)) as Hrefl by by apply timing_step_refl.
  unfold TIME_BOUND in *.
  destruct (ncmd_cmd ncmd) eqn:Hcmd.
  - (* read *)
    assert (∃ lat, (if ncmd_xfer_size ncmd =? 4096
                    then pg_4kb_rd_lat (ssd_sp s1) !! Z.to_nat cell
                    else pg_rd_lat (ssd_sp s1) !! Z.to_nat cell) = Some lat ∧ 0 ≤ lat < 2 ^ 31)
      as (lat & Hlat & Hlat0).
    { destruct Hok. destruct (_ =? _); apply lat_lookup; naive_solver. }
    wp_step. eapply wp_deref; [done|]. wp_step.
    eapply wp_mono; [apply wp_read_transfer|]; try done; try apply u64_range; try by apply Hrd.
    { apply Hp. }
    { pose proof (so_xfer _ Hok). rewrite u64_small; lia. }
    intros last se2 (Hs2 & ce & ct & -> & Hce & Hct & Hb). wp_step. eapply wp_deref; [done|].
    apply Hend; try done. intros Hlt. unfold TIME_BOUND in Hb.
    rewrite u64_small in Hb by lia. fold base in Hb. specialize (Hrd eq_refl). nia.
  - (* write *)
    wp_step. eapply wp_mono; [apply wp_ch_request; [done|apply Hp|done]|].
    intros ce se2 (Hs2 & Hce & Hb & _). pose proof (so_wr_lat _ Hok).
    apply Hend; try done; try apply u64_range. intros Hlt. fold base in Hb.
    rewrite u64_small by lia. lia.
  - pose proof (so_er_lat _ Hok). apply Hend; try done; try apply u64_range.
    intros Hlt. fold base. rewrite u64_small by lia. lia.
  - apply Hend; try done.
Qed.

(** [ssd_next_idle_time] is no earlier than the time any LUN becomes idle. *)
Lemma wp_next_idle_time s e :
  timing_ok (s, e) →
  wp ssd_next_idle_time (s, e) (λ t '(s', e'), s' = s ∧ timing_ok (s, e') ∧ env_wbuf e' = env_wbuf e ∧
    0 ≤ t ∧ ∀ p l, get_lun s p = Some l → lun_next_lun_avail_time l ≤ t).
Proof.
  intros Hto. pose proof Hto as [H1 H2 H3 H4 H5]. simpl in H1, H2, H3.
  unfold ssd_next_idle_time. wp_step. wp_step. wp_step.
  assert (timing_ok (s, Env (env_pcie e) (env_wbuf e) (env_ticks e + 1))) as Hto' by by split.
  set (e' := Env _ _ _) in *. change (get_ioclock (s, e)) with (Ok (cpu_clock (env_ticks e), (s, e'))).
  unfold wp at 1. simpl. fold e'. pose proof (clock_range (env_ticks e)) as Hc.
  set (luns := fix luns (ch : ssd_channel) (js : list Z) (latest : Z) : M sst Z := _).
  assert (∀ ch js latest, (∀ j, j ∈ js → 0 ≤ j < alen (ch_lun ch)) →
    wp (luns ch js latest) (s, e') (λ t se', se' = (s, e') ∧ latest ≤ t ∧
      ∀ j l, j ∈ js → aget (ch_lun ch) j = Some l → lun_next_lun_avail_time l ≤ t)) as Hluns.
  { intros ch js. induction js as [|j js IH]; intros latest Hj; simpl.
    { wp_step. split_and!; [done|done|]. intros j l Hj'. by apply not_elem_of_nil in Hj'. }
    destruct (aget_some (ch_lun ch) j) as [l Hl]; [apply Hj, list_elem_of_here|].
    wp_step. eapply wp_aread; [done|]. eapply wp_mono; [apply IH; intros; apply Hj; by apply list_elem_of_further|].
    intros t se' (-> & Ht & Hall). split_and!; [done|lia|]. intros j' l' [->|Hj']%elem_of_cons Hl'; [|by eapply Hall].
    assert (l' = l) as -> by congruence. lia. }
  clearbody luns.
  set (chs := fix chs (ids : list Z) (latest : Z) : M sst Z := _).
  assert (∀ ids latest, (∀ i, i ∈ ids → 0 ≤ i < nchs (ssd_sp s)) →
    wp (chs ids latest) (s, e') (λ t se', se' = (s, e') ∧ latest ≤ t ∧
      ∀ i ch j l, i ∈ ids → aget (ssd_ch s) i = Some ch → aget (ch_lun ch) j = Some l →
        lun_next_lun_avail_time l ≤ t)) as Hchs.
  { intros ids. induction ids as [|i ids IH]; intros latest Hi; simpl.
    { wp_step. split_and!; [done|done|]. intros i ch j l Hi'. by apply not_elem_of_nil in Hi'. }
    destruct (aget_some (ssd_ch s) i) as [ch Hch]; [rewrite H2; apply Hi, list_elem_of_here|].
    destruct (H3 i ch Hch) as [_ Hlen].
    wp_step. eapply wp_aread; [done|]. wp_step. eapply wp_mono.
    { apply Hluns. intros j Hj%elem_of_seqZ. lia. }
    intros t se' (-> & Ht & Hall). eapply wp_mono; [apply IH; intros; apply Hi; by apply list_elem_of_further|].
    intros t' se' (-> & Ht' & Hall'). split_and!; [done|lia|].
    intros i' ch' j l [->|Hi']%elem_of_cons Hch' Hl; [|by eapply Hall'].
    assert (ch' = ch) as -> by congruence. pose proof (aget_inv _ _ _ Hl).
    specialize (Hall j l ltac:(apply elem_of_seqZ; lia) Hl). lia. }
  eapply wp_mono; [apply Hchs; intros i Hi%elem_of_seqZ; lia|].
  intros t se' (-> & Ht & Hall). split_and!; [done|done|done|lia|].
  intros p l. unfold get_lun, get_ch. destruct (aget (ssd_ch s) (g_ch p)) as [ch|] eqn:Hch; [|done]. simpl.
  intros Hl. eapply Hall; [|exact Hch|exact Hl]. apply elem_of_seqZ. apply aget_inv in Hch. lia.
Qed.
End timing_proofs.

(** ** A new device *)

Lemma ssd_init_timing sp cpu ticks :
  sp_ok sp →
  let '(s, pcie, wbuf) := ssd_init sp cpu in timing_ok (s, Env pcie wbuf ticks).
Proof.
  intros Hsp. unfold ssd_init. split; simpl; [done|done| | |].
  - intros c ch. rewrite aget_anew. case_decide; [|done]. intros [= <-]. split; [|done].
    destruct (chmodel_init_wf (ch_bandwidth sp) (so_ch_bw _ Hsp)) as [[] _]. by split.
  - intros p l. unfold get_lun, get_ch; simpl. rewrite aget_anew. case_decide; [|done]. simpl.
    rewrite aget_anew. case_decide; [|done]. by intros [= <-].
  - apply chmodel_init_wf, (so_pcie_bw _ Hsp).
Qed.

Lemma ssd_init_blk sp cpu p :
  sp_ok sp → ppa_in sp p → get_blk (ssd_init sp cpu).1.1 p = Some (ssd_init_nand_blk sp).
Proof.
  intros Hsp [Hc Hl Hpl Hb Hpg Hr]. unfold get_blk, get_pl, get_lun, get_ch; simpl.
  rewrite aget_anew, decide_True by done. simpl. rewrite aget_anew, decide_True by done. simpl.
  rewrite aget_anew, decide_True by (rewrite (so_pls _ Hsp); lia). simpl.
  by rewrite aget_anew, decide_True by done.
Qed.

(** ** The write buffer's accounting *)

Definition buffer_ok (b : buffer) : Prop := 0 ≤ buf_remaining b ≤ buf_size b ∧ buf_size b < 2 ^ 32.

(** An allocation takes all it asks for or nothing. *)
Lemma wp_buffer_allocate size b :
  buffer_ok b → 0 ≤ size ≤ buf_size b →
  wp (buffer_allocate size) b (λ r b', buffer_ok b' ∧ buf_size b' = buf_size b ∧
    if buf_remaining b <? size then r = 0 ∧ b' = b
    else r = size ∧ buf_remaining b' = buf_remaining b - size).
Proof.
  intros [Hb Hm] Hs. unfold buffer_allocate. wp_step. wp_step. wp_step.
  apply wp_assert; [apply Z.leb_le; lia|]. unfold buffer_ok.
  destruct (buf_remaining b <? size) eqn:E; bool_prop.
  - wp_step. wp_step. wp_step. simpl. rewrite Z.sub_0_r, u64_small by lia.
    destruct b; simpl in *. split_and!; done || lia.
  - wp_step. wp_step. wp_step. simpl. rewrite u64_small, u32_small by lia.
    split_and!; done || lia.
Qed.
