(* ===== verification/Bytes.v ===== *)
(** * Byte buffers with little-endian fields

    The log pages and feature buffers the controller hands to the host are
    packed structs in a page-sized byte array.  A buffer is an [arr Z] of bytes;
    a field of [n] bytes at an offset is stored and loaded least significant
    byte first. *)

From stdpp Require Import base numbers list gmap.
From S2P Require Import Prelude.

#[local] Open Scope Z_scope.

Fixpoint le_split (n : nat) (v : Z) : list Z :=
  match n with
  | O => []
  | S n' => v mod 2 ^ 8 :: le_split n' (v / 2 ^ 8)
  end.
Fixpoint le_combine (l : list Z) : Z :=
  match l with
  | [] => 0
  | b :: l' => b + 2 ^ 8 * le_combine l'
  end.

(** A packed struct assignment: the bytes [l] at [off]. *)
Fixpoint store_bytes (off : Z) (l : list Z) : M (arr Z) unit :=
  match l with
  | [] => mret tt
  | b :: l' =>
      a ← get;
      a' ← awrite a off b;
      put a' ;;
      store_bytes (off + 1) l'
  end.
Definition store_le (off : Z) (n : nat) (v : Z) : M (arr Z) unit :=
  store_bytes off (le_split n v).

(** The [n] bytes at [off]; a byte outside the buffer is missing. *)
Definition load_bytes (a : arr Z) (off : Z) (n : nat) : list Z :=
  omap (aget a) (seqZ off (Z.of_nat n)).
Definition load_le (a : arr Z) (off : Z) (n : nat) : Z := le_combine (load_bytes a off n).

Lemma length_le_split n v : length (le_split n v) = n.
Proof. revert v. induction n as [|n IH]; intros v; simpl; [done|]. by rewrite IH. Qed.

Lemma le_combine_split n v :
  0 ≤ v < 2 ^ (8 * Z.of_nat n) → le_combine (le_split n v) = v.
Proof.
  revert v. induction n as [|n IH]; intros v Hv.
  { simpl in *. change (2 ^ (8 * Z.of_nat 0)) with 1 in Hv. lia. }
  cbn [le_split le_combine]. rewrite IH.
  - pose proof (Z.div_mod v (2 ^ 8)). lia.
  - replace (8 * Z.of_nat (S n)) with (8 + 8 * Z.of_nat n) in Hv by lia.
    rewrite Z.pow_add_r in Hv by lia. split; [apply Z.div_pos; lia|].
    apply Z.div_lt_upper_bound; lia.
Qed.

Lemma le_split_bytes n v : Forall (λ b, 0 ≤ b < 2 ^ 8) (le_split n v).
Proof.
  revert v. induction n as [|n IH]; intros v; simpl; constructor; [|done].
  apply Z.mod_pos_bound. lia.
Qed.

Lemma le_split_combine l :
  Forall (λ b, 0 ≤ b < 2 ^ 8) l → le_split (length l) (le_combine l) = l.
Proof.
  induction 1 as [|b l Hb _ IH]; [done|]. cbn [length le_split le_combine].
  replace ((b + 2 ^ 8 * le_combine l) mod 2 ^ 8) with b by dlia.
  replace ((b + 2 ^ 8 * le_combine l) / 2 ^ 8) with (le_combine l) by dlia. by rewrite IH.
Qed.

(** Storing writes exactly the bytes of the field. *)
Lemma wp_store_bytes off l a :
  0 ≤ off → off + Z.of_nat (length l) ≤ alen a →
  wp (store_bytes off l) a (λ _ a', alen a' = alen a ∧
    ∀ i, aget a' i = if decide (off ≤ i < off + Z.of_nat (length l))
                     then l !! Z.to_nat (i - off) else aget a i).
Proof.
  revert off a. induction l as [|b l IH]; intros off a Ho Hl; simpl in *.
  - wp_step. split; [done|]. intros i. by rewrite decide_False by lia.
  - wp_step. wp_step. wp_step. apply wp_awrite; [lia|]. wp_step. wp_step.
    eapply wp_mono; [apply IH; rewrite ?alen_aset; lia|].
    intros [] a' [Hlen Hget]. rewrite alen_aset in Hlen. split; [done|].
    intros i. rewrite Hget. destruct (decide (i = off)) as [->|Hne].
    + rewrite decide_False, decide_True by lia. rewrite aget_aset_eq by lia.
      by rewrite Z.sub_diag.
    + rewrite aget_aset_ne by done. repeat case_decide; try lia; [|done].
      replace (Z.to_nat (i - off)) with (S (Z.to_nat (i - (off + 1)))) by lia. done.
Qed.

Lemma wp_store_le off n v a :
  0 ≤ off → off + Z.of_nat n ≤ alen a →
  wp (store_le off n v) a (λ _ a', alen a' = alen a ∧
    ∀ i, aget a' i = if decide (off ≤ i < off + Z.of_nat n)
                     then le_split n v !! Z.to_nat (i - off) else aget a i).
Proof.
  intros Ho Hl. unfold store_le.
  eapply wp_mono; [apply wp_store_bytes; rewrite ?length_le_split; done|].
  by rewrite length_le_split.
Qed.

Lemma load_bytes_ext a b off n :
  (∀ i, off ≤ i < off + Z.of_nat n → aget a i = aget b i) →
  load_bytes a off n = load_bytes b off n.
Proof.
  intros H. unfold load_bytes.
  assert (∀ i, i ∈ seqZ off (Z.of_nat n) → aget a i = aget b i) as H'
    by (intros i Hi%elem_of_seqZ; apply H; lia). clear H.
  induction (seqZ off (Z.of_nat n)) as [|i l IH]; simpl; [done|].
  rewrite (H' i) by set_solver.
  destruct (aget b i); [f_equal|]; (apply IH; intros k Hk; apply H'; set_solver).
Qed.

(** Loading the bytes of a list laid out at [off]. *)
Lemma load_bytes_at a off l :
  (∀ i, 0 ≤ i < Z.of_nat (length l) → aget a (off + i) = l !! Z.to_nat i) →
  load_bytes a off (length l) = l.
Proof.
  revert off. induction l as [|b l IH]; intros off H; [done|].
  unfold load_bytes. rewrite seqZ_cons by (simpl; lia). simpl length.
  replace (Z.pred (Z.of_nat (S (length l)))) with (Z.of_nat (length l)) by lia.
  simpl. pose proof (H 0 ltac:(simpl; lia)) as H0. rewrite Z.add_0_r in H0. rewrite H0; simpl.
  f_equal. replace (Z.succ off) with (off + 1) by lia. apply (IH (off + 1)). intros i Hi.
  replace (off + 1 + i) with (off + (i + 1)) by lia. rewrite H by (simpl; lia).
  replace (Z.to_nat (i + 1)) with (S (Z.to_nat i)) by lia. done.
Qed.

(** A field that was stored and not overwritten since. *)
Lemma load_le_at a off n v :
  0 ≤ v < 2 ^ (8 * Z.of_nat n) →
  (∀ i, off ≤ i < off + Z.of_nat n → aget a i = le_split n v !! Z.to_nat (i - off)) →
  load_le a off n = v.
Proof.
  intros Hv H. unfold load_le. rewrite <- (length_le_split n v) at 1.
  rewrite load_bytes_at; [by apply le_combine_split|]. rewrite length_le_split.
  intros i Hi. rewrite H by lia. by replace (off + i - off) with i by lia.
Qed.
