(* ===== verification/Nvme.v ===== *)
(** * Commands, requests and results (src/nvme.h, src/nvmev.h)

    The fields of an I/O command that the translation layers read, the request
    and result records the dispatcher exchanges with them, and the record of an
    internal operation a layer asks the I/O engine to schedule. *)

From stdpp Require Import base numbers list.
From S2P Require Import Prelude Config.

#[local] Open Scope Z_scope.

Definition nvme_cmd_flush : Z := 0.
Definition nvme_cmd_write : Z := 1.
Definition nvme_cmd_read : Z := 2.
Definition nvme_cmd_zone_append : Z := 125.
Definition NVME_RW_FUA : Z := Z.shiftl 1 14.
Definition NVME_SC_SUCCESS : Z := 0.
Definition NVME_SC_INVALID_FIELD : Z := 2.

(** [struct nvme_rw_command], the fields in use. *)
Record nvme_rw_command : Type := RwCmd {
  rw_opcode : Z;
  rw_nsid : Z;
  rw_slba : Z;
  rw_length : Z;
  rw_control : Z;
  rw_dsmgmt : Z;
}.

Record nvmev_request : Type := Request {
  req_cmd : nvme_rw_command;
  req_sq_id : Z;
  req_nsecs_start : Z;
}.

Record nvmev_result : Type := Result {
  ret_status : Z;
  ret_nsecs_target : Z;
  ret_result : Z;
}.

(** A call [schedule_internal_operation(sqid, nsecs_target, wbuf, size)]. *)
Record internal_op : Type := InternalOp {
  iop_sqid : Z;
  iop_nsecs_target : Z;
  iop_size : Z;
}.

Definition LBA_TO_BYTE (c : ssd_config) (lba : Z) : Z := u64 (Z.shiftl lba (LBA_BITS c)).
Definition BYTE_TO_LBA (c : ssd_config) (byte : Z) : Z := Z.shiftr byte (LBA_BITS c).

(** The fields of [struct nvmev_ns] the translation layers use. *)
Record nvmev_ns : Type := Ns {
  ns_id : Z;
  ns_csi : Z;
  ns_size : Z;
  ns_nr_parts : Z;
}.
