(* ===== verification/FdpLog.v ===== *)
(** * FDP statistics, events, log pages and features (src/fdp_ftl.c, src/nvme_fdp.h)

    The endurance-group state [fdp_ctx]: the write counters, the usage
    attributes of the reclaim unit handles, the enabled event types and the ring
    of the latest [FDP_NR_EVENTS] event records; the four log pages and the
    FDP-events feature built from it.

    The theorems show that the ring is a bounded queue of the newest events,
    newest first, that the event log carries exactly that list, that every log
    page fits its page-sized buffer and decodes to the state, and how Set and Get
    Features act on the enabled types. *)

From stdpp Require Import base numbers list gmap.
From S2P Require Import Prelude Config Bytes.

#[local] Open Scope Z_scope.

(** ** Constants of nvme_fdp.h *)

Definition NVMEV_FDP_ENDGID : Z := 1.
Definition NVME_LOG_FDP_CONFIGS : Z := 32.
Definition NVME_LOG_FDP_RUH_USAGE : Z := 33.
Definition NVME_LOG_FDP_STATS : Z := 34.
Definition NVME_LOG_FDP_EVENTS : Z := 35.
Definition NVME_FEAT_FDP : Z := 29.
Definition NVME_FEAT_FDP_EVENTS : Z := 30.
Definition NVME_FDP_CONFIG_FDPA_VALID : Z := Z.shiftl 1 7.
Definition NVME_FDP_RUHT_INITIALLY_ISOLATED : Z := 1.
Definition NVME_FDP_RUHA_UNUSED : Z := 0.
Definition NVME_FDP_RUHA_HOST : Z := 1.
Definition NVME_FDP_RUHA_CTRL : Z := 2.
Definition NVME_RW_DTYPE_SHIFT : Z := 4.
Definition NVME_RW_DTYPE_MASK : Z := 15.
Definition NVME_DIRECTIVE_PLACEMENT : Z := 2.
Definition NVME_FDP_EVT_RU_NOT_FULLY_WRITTEN : Z := 0.
Definition NVME_FDP_EVT_INVALID_PID : Z := 3.
Definition NVME_FDP_EVT_IMPLICIT_MODIFIED_RU : Z := 129.
Definition NVME_FDP_EVENT_F_PIV : Z := Z.shiftl 1 0.
Definition NVME_FDP_EVENT_F_NSIDV : Z := Z.shiftl 1 1.
Definition NR_NAMESPACES : Z := 1.

(** [struct nvme_fdp_event]; [type_specific] and the reserved bytes are 0. *)
Record nvme_fdp_event : Type := FdpEvent {
  ev_type : Z;
  ev_flags : Z;
  ev_pid : Z;
  ev_timestamp : Z;
  ev_nsid : Z;
}.
#[export] Instance nvme_fdp_event_eq_dec : EqDecision nvme_fdp_event.
Proof. solve_decision. Defined.

Definition zero_event : nvme_fdp_event := FdpEvent 0 0 0 0 0.

Record fdp_ctx : Type := FdpCtx {
  fx_hbmw : Z;
  fx_mbmw : Z;
  fx_mbe : Z;
  fx_runs : Z;
  fx_ruh_attr : arr Z;
  fx_events : list (Z * bool);  (* type, enabled *)
  fx_ring : arr nvme_fdp_event;
  fx_ring_head : Z;
  fx_nr_events : Z;
}.

(** The static initialiser of [fdp_ctx.events]. *)
Definition events_initial : list (Z * bool) :=
  [(NVME_FDP_EVT_RU_NOT_FULLY_WRITTEN, false);
   (NVME_FDP_EVT_INVALID_PID, false);
   (NVME_FDP_EVT_IMPLICIT_MODIFIED_RU, false)].

(** [fdp_init_ctx] keeps the event table. *)
Definition fdp_init_ctx (events : list (Z * bool)) (runs : Z) : fdp_ctx :=
  FdpCtx 0 0 0 runs (anew FDP_NR_RUH NVME_FDP_RUHA_UNUSED) events
    (anew FDP_NR_EVENTS zero_event) 0 0.

(** [local_clock n] is the [n]-th reading of the local clock. *)
Class LocalClock : Type := local_clock : Z → Z.

(** The FDP state and the number of local-clock readings so far. *)
Definition fctx : Type := fdp_ctx * Z.

(** The first entry of the table with the given type decides. *)
Fixpoint event_enabled (events : list (Z * bool)) (type : Z) : bool :=
  match events with
  | [] => false
  | (t, e) :: events' => if t =? type then e else event_enabled events' type
  end.

Definition fdp_emit_event `{!LocalClock} (type flags pid nsid : Z) : M fctx unit :=
  '(c, n) ← get;
  if negb (event_enabled (fx_events c) type) then mret tt
  else
    let ev := FdpEvent type flags (u16 pid) (u64 (local_clock n)) (u32 nsid) in
    ring' ← awrite (fx_ring c) (fx_ring_head c) ev;
    put (FdpCtx (fx_hbmw c) (fx_mbmw c) (fx_mbe c) (fx_runs c) (fx_ruh_attr c) (fx_events c)
           ring' (u32 (fx_ring_head c + 1) mod FDP_NR_EVENTS)
           (if fx_nr_events c <? FDP_NR_EVENTS then fx_nr_events c + 1 else fx_nr_events c),
         n + 1).

(** ** Log pages *)

Definition sizeof_config_log : Z := 16.
Definition sizeof_config_desc : Z := 64.
Definition sizeof_ruh_desc : Z := 4.
Definition sizeof_ruhu_log : Z := 8.
Definition sizeof_ruhu_desc : Z := 8.
Definition sizeof_events_log : Z := 64.
Definition sizeof_event : Z := 64.

Definition fill_fdp_log_configs (c : fdp_ctx) : M (arr Z) unit :=
  let desc := sizeof_config_log in
  let ruhs := sizeof_config_log + sizeof_config_desc in
  let dsze := u16 (sizeof_config_desc + FDP_NR_RUH * sizeof_ruh_desc) in
  store_le 0 2 0 ;;
  store_le 2 1 0 ;;
  store_le 4 4 (sizeof_config_log + dsze) ;;
  store_le desc 2 dsze ;;
  store_le (desc + 2) 1 NVME_FDP_CONFIG_FDPA_VALID ;;
  store_le (desc + 3) 1 0 ;;
  store_le (desc + 4) 4 FDP_NR_RG ;;
  store_le (desc + 8) 2 FDP_NR_RUH ;;
  store_le (desc + 10) 2 (FDP_NR_RUH - 1) ;;
  store_le (desc + 12) 4 NR_NAMESPACES ;;
  store_le (desc + 16) 8 (fx_runs c) ;;
  store_le (desc + 24) 4 0 ;;
  for_range 0 FDP_NR_RUH (λ i,
    store_le (ruhs + i * sizeof_ruh_desc) 1 NVME_FDP_RUHT_INITIALLY_ISOLATED).

Definition fill_fdp_log_ruh_usage (c : fdp_ctx) : M (arr Z) unit :=
  store_le 0 2 FDP_NR_RUH ;;
  for_range 0 FDP_NR_RUH (λ i,
    a ← aread (fx_ruh_attr c) i;
    store_le (sizeof_ruhu_log + i * sizeof_ruhu_desc) 1 a).

Definition fill_fdp_log_stats (c : fdp_ctx) : M (arr Z) unit :=
  store_le 0 8 (fx_hbmw c) ;;
  store_le 16 8 (fx_mbmw c) ;;
  store_le 32 8 (fx_mbe c).

(** The packed bytes of an event record. *)
Definition event_bytes (ev : nvme_fdp_event) : list Z :=
  le_split 1 (ev_type ev) ++ le_split 1 (ev_flags ev) ++ le_split 2 (ev_pid ev)
  ++ le_split 8 (ev_timestamp ev) ++ le_split 4 (ev_nsid ev) ++ replicate 48 0.

Definition fill_fdp_log_events (c : fdp_ctx) : M (arr Z) unit :=
  store_le 0 4 (fx_nr_events c) ;;
  for_range 0 (fx_nr_events c) (λ i,
    let slot := u32 (fx_ring_head c + FDP_NR_EVENTS - 1 - i) mod FDP_NR_EVENTS in
    ev ← aread (fx_ring c) slot;
    store_bytes (sizeof_events_log + i * sizeof_event) (event_bytes ev)).

(** The static page [log] is cleared and filled; its first [min(len, PAGE_SIZE)]
    bytes are what the host receives. *)
Definition fdp_log (c : fdp_ctx) (lid : Z) : M (arr Z) unit :=
  if lid =? NVME_LOG_FDP_CONFIGS then fill_fdp_log_configs c
  else if lid =? NVME_LOG_FDP_RUH_USAGE then fill_fdp_log_ruh_usage c
  else if lid =? NVME_LOG_FDP_STATS then fill_fdp_log_stats c
  else if lid =? NVME_LOG_FDP_EVENTS then fill_fdp_log_events c
  else throw BUG.

Definition fdp_get_log_page (c : fdp_ctx) (lid len : Z) : res (list Z) :=
  match fdp_log c lid (anew PAGE_SIZE 0) with
  | Ok (_, log) => Ok (load_bytes log 0 (Z.to_nat (Z.min len PAGE_SIZE)))
  | Fault f => Fault f
  end.

(** ** Features *)

(** Get Features: the number of supported types, and their descriptors in the
    host's buffer when there is one. *)
Fixpoint store_event_descs (i : Z) (events : list (Z * bool)) : M (arr Z) unit :=
  match events with
  | [] => mret tt
  | (t, e) :: events' =>
      store_le (2 * i) 1 t ;;
      store_le (2 * i + 1) 1 (if e : bool then 1 else 0) ;;
      store_event_descs (i + 1) events'
  end.
Definition fdp_get_feature_events (c : fdp_ctx) (dw11 : Z) (buf : option (arr Z))
    : res (Z * option (arr Z)) :=
  let result := Z.of_nat (length (fx_events c)) in
  match buf with
  | None => Ok (result, None)
  | Some desc =>
      match store_event_descs 0 (fx_events c) desc with
      | Ok (_, desc') => Ok (result, Some desc')
      | Fault f => Fault f
      end
  end.

(** One descriptor of Set Features: every entry with its type takes its enable
    bit; the number of such entries is returned too. *)
Fixpoint set_event_type (events : list (Z * bool)) (evt evta : Z) : list (Z * bool) * Z :=
  match events with
  | [] => ([], 0)
  | (t, e) :: events' =>
      let '(r, n) := set_event_type events' evt evta in
      if t =? evt then ((t, Z.testbit evta 0) :: r, n + 1) else ((t, e) :: r, n)
  end.

Definition set_events (c : fdp_ctx) (events : list (Z * bool)) : fdp_ctx :=
  FdpCtx (fx_hbmw c) (fx_mbmw c) (fx_mbe c) (fx_runs c) (fx_ruh_attr c) events
    (fx_ring c) (fx_ring_head c) (fx_nr_events c).

(** The number of descriptors supplied, as the code reads it from CDW11. *)
Definition noet_of (dw11 : Z) : Z := Z.land (Z.shiftr dw11 16) 255.

Fixpoint apply_event_descs (desc : arr Z) (ids : list Z) (events : list (Z * bool)) (result : Z)
    : res (list (Z * bool) * Z) :=
  match ids with
  | [] => Ok (events, result)
  | i :: ids' =>
      match aget desc (2 * i), aget desc (2 * i + 1) with
      | Some evt, Some evta =>
          let '(events', n) := set_event_type events evt evta in
          apply_event_descs desc ids' events' (u32 (result + n))
      | _, _ => Fault OOPS
      end
  end.
Definition fdp_set_feature_events (c : fdp_ctx) (dw11 : Z) (buf : option (arr Z))
    : res (fdp_ctx * Z) :=
  match buf with
  | None => Ok (c, 0)
  | Some desc =>
      match apply_event_descs desc (seqZ 0 (noet_of dw11)) (fx_events c) 0 with
      | Ok (events, result) => Ok (set_events c events, result)
      | Fault f => Fault f
      end
  end.

(** ** The event ring as a bounded queue *)

(** An event as [fdp_emit_event] builds it. *)
Record event_wf (ev : nvme_fdp_event) : Prop := {
  ew_type : 0 ≤ ev_type ev < 2 ^ 8;
  ew_flags : 0 ≤ ev_flags ev < 2 ^ 8;
  ew_pid : 0 ≤ ev_pid ev < 2 ^ 16;
  ew_timestamp : 0 ≤ ev_timestamp ev < 2 ^ 64;
  ew_nsid : 0 ≤ ev_nsid ev < 2 ^ 32;
}.

Record ctx_wf (c : fdp_ctx) : Prop := {
  xw_ring : alen (fx_ring c) = FDP_NR_EVENTS;
  xw_head : 0 ≤ fx_ring_head c < FDP_NR_EVENTS;
  xw_nr : 0 ≤ fx_nr_events c ≤ FDP_NR_EVENTS;
  xw_attr : alen (fx_ruh_attr c) = FDP_NR_RUH;
  xw_attr_range i a : aget (fx_ruh_attr c) i = Some a → 0 ≤ a < 2 ^ 8;
  xw_events i ev : aget (fx_ring c) i = Some ev → event_wf ev;
  xw_counters : 0 ≤ fx_hbmw c < 2 ^ 64 ∧ 0 ≤ fx_mbmw c < 2 ^ 64 ∧ 0 ≤ fx_mbe c < 2 ^ 64 ∧
                0 ≤ fx_runs c < 2 ^ 64;
}.

(** The slot of the [i]-th newest event. *)
Definition slot (c : fdp_ctx) (i : Z) : Z :=
  (fx_ring_head c + FDP_NR_EVENTS - 1 - i) mod FDP_NR_EVENTS.

(** The recorded events, newest first. *)
Definition recent (c : fdp_ctx) : list nvme_fdp_event :=
  omap (λ i, aget (fx_ring c) (slot c i)) (seqZ 0 (fx_nr_events c)).

Lemma slot_range c i : 0 ≤ slot c i < FDP_NR_EVENTS.
Proof. by apply Z.mod_pos_bound. Qed.

(** A partial function that is defined on a whole list. *)
Lemma lookup_omap_total {A B} (f : A → option B) (l : list A) (i : nat) :
  (∀ x, x ∈ l → is_Some (f x)) → omap f l !! i = l !! i ≫= f.
Proof.
  revert i. induction l as [|x l IH]; intros i H; [done|].
  destruct (H x ltac:(set_solver)) as [y Hy]. simpl. rewrite Hy.
  destruct i as [|i]; simpl; [done|]. apply IH. intros z Hz. apply H. set_solver.
Qed.

Lemma length_omap_total {A B} (f : A → option B) (l : list A) :
  (∀ x, x ∈ l → is_Some (f x)) → length (omap f l) = length l.
Proof.
  induction l as [|x l IH]; intros H; [done|].
  destruct (H x ltac:(set_solver)) as [y Hy]. simpl. rewrite Hy. simpl. f_equal.
  apply IH. intros z Hz. apply H. set_solver.
Qed.

Lemma ring_defined c i : ctx_wf c → is_Some (aget (fx_ring c) (slot c i)).
Proof. intros Hc. apply aget_is_Some. rewrite (xw_ring _ Hc). apply slot_range. Qed.

Lemma length_recent c : ctx_wf c → length (recent c) = Z.to_nat (fx_nr_events c).
Proof.
  intros Hc. unfold recent. rewrite length_omap_total by (intros; by apply ring_defined).
  apply length_seqZ.
Qed.

Lemma lookup_recent c i :
  ctx_wf c → 0 ≤ i < fx_nr_events c →
  recent c !! Z.to_nat i = aget (fx_ring c) (slot c i).
Proof.
  intros Hc Hi. unfold recent. rewrite lookup_omap_total by (intros; by apply ring_defined).
  assert (seqZ 0 (fx_nr_events c) !! Z.to_nat i = Some i) as ->; [|done].
  apply lookup_seqZ. lia.
Qed.

Lemma fdp_init_ctx_wf events runs :
  0 ≤ runs < 2 ^ 64 → ctx_wf (fdp_init_ctx events runs) ∧ recent (fdp_init_ctx events runs) = [].
Proof.
  intros Hr. split; [|done]. split; simpl; try done.
  - intros i a. rewrite aget_anew. case_decide; [|done]. by intros [= <-].
  - intros i a. rewrite aget_anew. case_decide; [|done]. by intros [= <-].
Qed.

Section emit.
Context `{!LocalClock}.

(** The event a call records. *)
Definition new_event (type flags pid nsid n : Z) : nvme_fdp_event :=
  FdpEvent type flags (u16 pid) (u64 (local_clock n)) (u32 nsid).

(** Everything but the ring. *)
Definition same_counters (c c' : fdp_ctx) : Prop :=
  fx_hbmw c' = fx_hbmw c ∧ fx_mbmw c' = fx_mbmw c ∧ fx_mbe c' = fx_mbe c ∧
  fx_runs c' = fx_runs c ∧ fx_ruh_attr c' = fx_ruh_attr c ∧ fx_events c' = fx_events c.

Lemma wp_emit_event type flags pid nsid c n :
  ctx_wf c → 0 ≤ type < 2 ^ 8 → 0 ≤ flags < 2 ^ 8 →
  wp (fdp_emit_event type flags pid nsid) (c, n) (λ _ '(c', n'),
    ctx_wf c' ∧ same_counters c c' ∧
    recent c' = if event_enabled (fx_events c) type
                then take (Z.to_nat FDP_NR_EVENTS) (new_event type flags pid nsid n :: recent c)
                else recent c).
Proof.
  intros Hc Ht Hf. unfold fdp_emit_event. wp_step. wp_step.
  destruct (event_enabled (fx_events c) type); cbn [negb]; [|by wp_step].
  wp_step. pose proof (xw_head _ Hc) as Hh. pose proof (xw_nr _ Hc) as Hn.
  pose proof (xw_ring _ Hc) as Hr. assert (FDP_NR_EVENTS = 63) as HN by done.
  apply wp_awrite; [lia|]. wp_step. fold (new_event type flags pid nsid n).
  set (ev := new_event type flags pid nsid n). rewrite u32_small by lia.
  set (c' := FdpCtx _ _ _ _ _ _ _ _ _).
  assert (ctx_wf c') as Hc'.
  { destruct Hc. split; simpl; try done.
    - by rewrite alen_aset.
    - by apply Z.mod_pos_bound.
    - destruct (fx_nr_events c <? FDP_NR_EVENTS) eqn:E; bool_prop; lia.
    - intros i e. rewrite aget_aset by lia. case_decide; [|by apply xw_events0].
      intros [= <-]. split; simpl; try done; try apply u16_range; try apply u64_range;
        apply u32_range. }
  split_and!; [done|done|].
  apply list_eq. intros k. destruct (decide (Z.of_nat k < fx_nr_events c')) as [Hk|Hk]; last first.
  { rewrite lookup_ge_None_2; [|rewrite length_recent by done; lia]. symmetry.
    apply lookup_ge_None_2. rewrite length_take. cbn [length]. rewrite length_recent by done.
    simpl in Hk. destruct (fx_nr_events c <? FDP_NR_EVENTS) eqn:E; bool_prop; lia. }
  rewrite <- (Nat2Z.id k), lookup_recent by (done || lia).
  assert (Z.of_nat k < FDP_NR_EVENTS) as Hk63.
  { pose proof (xw_nr _ Hc'). lia. }
  rewrite lookup_take_lt by lia. unfold slot; simpl fx_ring; simpl fx_ring_head.
  destruct k as [|k].
  - change (Z.of_nat 0) with 0. simpl.
    replace (_ mod _) with (fx_ring_head c) by (rewrite HN in *; dlia).
    rewrite aget_aset_eq by lia. done.
  - rewrite Nat2Z.id. simpl lookup.
    assert (Z.of_nat k < fx_nr_events c) as Hk'.
    { simpl in Hk. destruct (fx_nr_events c <? FDP_NR_EVENTS) eqn:E; bool_prop; lia. }
    rewrite <- (Nat2Z.id k) at 2. rewrite lookup_recent by (done || lia). unfold slot.
    rewrite aget_aset_ne by (rewrite HN in *; dlia). f_equal. rewrite HN in *. dlia.
Qed.

(** An emission reads the local clock exactly when it records an event. *)
Lemma emit_event_ticks type flags pid nsid c n c' n' :
  fdp_emit_event type flags pid nsid (c, n) = Ok (tt, (c', n')) →
  n' = if event_enabled (fx_events c) type then n + 1 else n.
Proof.
  unfold fdp_emit_event, awrite, mbind, M_bind, get. cbv beta iota.
  destruct (event_enabled (fx_events c) type); cbn [negb]; [|by intros [= <- <-]].
  destruct (in_range _ _); [|discriminate]. by intros [= <- <-].
Qed.

(** A series of emissions, oldest first; each is given as type, flags, placement
    identifier and namespace. *)
Definition emission : Type := Z * Z * Z * Z.
Definition emit_all (es : list emission) : M fctx unit :=
  for_list es (λ '(type, flags, pid, nsid), fdp_emit_event type flags pid nsid).

(** The events a series records from the [n]-th clock reading on, newest first,
    on top of [acc]. *)
Fixpoint recorded (events : list (Z * bool)) (n : Z) (es : list emission)
    (acc : list nvme_fdp_event) : list nvme_fdp_event :=
  match es with
  | [] => acc
  | (type, flags, pid, nsid) :: es' =>
      if event_enabled events type
      then recorded events (n + 1) es' (new_event type flags pid nsid n :: acc)
      else recorded events n es' acc
  end.

Lemma recorded_app events n es acc : recorded events n es acc = recorded events n es [] ++ acc.
Proof.
  revert n acc. induction es as [|[[[t f] p] ns] es IH]; intros n acc; simpl; [done|].
  destruct (event_enabled events t); [|by apply IH].
  rewrite IH, (IH _ [_]), <- app_assoc. done.
Qed.

Definition emission_ok (em : emission) : Prop :=
  let '(type, flags, _, _) := em in 0 ≤ type < 2 ^ 8 ∧ 0 ≤ flags < 2 ^ 8.

Lemma take_app_take {A} (n : nat) (l k : list A) : take n (l ++ take n k) = take n (l ++ k).
Proof.
  rewrite !take_app, take_take. f_equal. f_equal. lia.
Qed.

Lemma wp_emit_all es c n :
  ctx_wf c → Forall emission_ok es →
  wp (emit_all es) (c, n) (λ _ '(c', n'),
    ctx_wf c' ∧ same_counters c c' ∧
    recent c' = take (Z.to_nat FDP_NR_EVENTS) (recorded (fx_events c) n es (recent c))).
Proof.
  unfold emit_all. revert c n. induction es as [|[[[t f] p] ns] es IH]; intros c n Hc Hes; simpl.
  { wp_step. split_and!; [done|done|]. symmetry. apply take_ge.
    rewrite length_recent by done. pose proof (xw_nr _ Hc). lia. }
  apply Forall_cons in Hes as [[Ht Hf] Hes]. wp_step.
  pose proof (wp_emit_event t f p ns c n Hc Ht Hf) as Hw.
  apply wp_Ok in Hw as ([] & [c1 n1] & Heq & Hc1 & Hsame & Hrec).
  pose proof (emit_event_ticks _ _ _ _ _ _ _ _ Heq) as Hn1.
  unfold wp at 1. rewrite Heq. pose proof Hsame as (_ & _ & _ & _ & _ & Hev).
  eapply wp_mono; [apply IH; done|]. intros [] [c2 n2] (Hc2 & Hsame2 & Hrec2).
  split_and!; [done| |].
  - unfold same_counters in *. naive_solver congruence.
  - rewrite Hrec2, Hev, Hn1, Hrec. destruct (event_enabled (fx_events c) t); [|done].
    rewrite recorded_app, (recorded_app _ _ _ (_ :: _)). apply take_app_take.
Qed.
End emit.

(** ** The log pages *)

(** One field store in a page-sized buffer. *)
Ltac store_step :=
  wp_step;
  match goal with
  | H : alen _ = PAGE_SIZE |- _ =>
      eapply wp_mono; [apply wp_store_le; rewrite ?H; (vm_compute; done) || lia|]
  end;
  let a := fresh "a" in let Hl := fresh "Hl" in let Hg := fresh "Hg" in
  intros [] a [Hl Hg];
  match goal with
  | H : alen ?b = PAGE_SIZE |- _ =>
      match type of Hl with alen _ = alen b => rewrite H in Hl; clear H end
  end.

(** Reads a byte through the stores, whose offsets are all known. *)
Ltac read_back :=
  repeat match goal with
  | H : ∀ i, aget ?a i = _ |- context [aget ?a ?j] => rewrite (H j)
  end;
  repeat case_decide; try lia; try done.

Lemma log_configs_spec c :
  ctx_wf c →
  wp (fill_fdp_log_configs c) (anew PAGE_SIZE 0) (λ _ log, alen log = PAGE_SIZE ∧
    load_le log 0 2 = 0 ∧ load_le log 4 4 = 112 ∧ load_le log 16 2 = 96 ∧
    load_le log 18 1 = 128 ∧ load_le log 20 4 = FDP_NR_RG ∧ load_le log 24 2 = FDP_NR_RUH ∧
    load_le log 26 2 = FDP_NR_RUH - 1 ∧ load_le log 28 4 = NR_NAMESPACES ∧
    load_le log 32 8 = fx_runs c ∧
    ∀ i, 0 ≤ i < FDP_NR_RUH →
      load_le log (80 + i * 4) 1 = NVME_FDP_RUHT_INITIALLY_ISOLATED).
Proof.
  intros Hc. unfold fill_fdp_log_configs. cbv zeta.
  assert (alen (anew PAGE_SIZE 0) = PAGE_SIZE) as H0 by done.
  assert (∀ i, aget (anew PAGE_SIZE 0) i = if decide (0 ≤ i < PAGE_SIZE) then Some 0 else None)
    as Hg0 by (intros; apply aget_anew).
  change (sizeof_config_log) with 16. change (16 + sizeof_config_desc) with 80.
  change (u16 (sizeof_config_desc + FDP_NR_RUH * sizeof_ruh_desc)) with 96.
  change (16 + 96) with 112. change sizeof_ruh_desc with 4.
  do 12 store_step. simpl Z.add in *.
  (* the fields below offset 80 are final; the loop fills the handles *)
  match goal with Hl : alen ?a = PAGE_SIZE |- _ => rename a into b, Hl into Hb end.
  apply (wp_for_range (λ i log, alen log = PAGE_SIZE ∧
    (∀ j, j < 80 → aget log j = aget b j) ∧
    ∀ k, 0 ≤ k < i → aget log (80 + k * 4) = Some 1)); [done|split_and!; done || lia| |].
  - intros i log Hi (Hlen & Hlow & Hr). assert (FDP_NR_RUH = 8) as HN by done.
    eapply wp_mono; [apply wp_store_le; rewrite ?Hlen; unfold PAGE_SIZE; simpl; lia|].
    intros [] log' [Hlen' Hget]. rewrite Hlen' in *. split_and!; [done| |].
    + intros j Hj. rewrite Hget, decide_False by lia. by apply Hlow.
    + intros k Hk. rewrite Hget. case_decide as Hd.
      * replace (80 + k * 4 - (80 + i * 4)) with 0 by lia. done.
      * apply Hr. simpl in Hd. lia.
  - intros log (Hlen & Hlow & Hr). split; [done|].
    assert (∀ off n v, 0 ≤ v < 2 ^ (8 * Z.of_nat n) → off + Z.of_nat n ≤ 80 →
      (∀ i, off ≤ i < off + Z.of_nat n → aget b i = le_split n v !! Z.to_nat (i - off)) →
      load_le log off n = v) as Hfield.
    { intros off n v Hv Hoff Hi. apply load_le_at; [done|]. intros i Hi'.
      rewrite Hlow by lia. by apply Hi. }
    pose proof (xw_counters _ Hc).
    split_and!; try (apply Hfield; [done || lia|simpl; lia|];
      simpl Z.of_nat; intros i Hi; clear Hfield Hlow; read_back).
    intros i Hi. apply load_le_at; [done|]. intros j Hj. simpl in Hj.
    assert (j = 80 + i * 4) as -> by lia. rewrite Hr by done.
    by replace (80 + i * 4 - (80 + i * 4)) with 0 by lia.
Qed.

(** The counters are 128 bits wide on the wire; the upper halves are 0. *)
Lemma log_stats_spec c :
  ctx_wf c →
  wp (fill_fdp_log_stats c) (anew PAGE_SIZE 0) (λ _ log, alen log = PAGE_SIZE ∧
    load_le log 0 8 = fx_hbmw c ∧ load_le log 8 8 = 0 ∧
    load_le log 16 8 = fx_mbmw c ∧ load_le log 24 8 = 0 ∧
    load_le log 32 8 = fx_mbe c ∧ load_le log 40 8 = 0).
Proof.
  intros Hc. unfold fill_fdp_log_stats.
  assert (alen (anew PAGE_SIZE 0) = PAGE_SIZE) as H0 by done.
  assert (∀ i, aget (anew PAGE_SIZE 0) i = if decide (0 ≤ i < PAGE_SIZE) then Some 0 else None)
    as Hg0 by (intros; apply aget_anew).
  store_step. store_step.
  match goal with H : alen _ = PAGE_SIZE |- _ =>
    eapply wp_mono; [apply wp_store_le; rewrite ?H; (vm_compute; done)|];
    intros [] log [Hlen Hget]; rewrite H in Hlen end.
  assert (PAGE_SIZE = 4096) as HP by done. destruct (xw_counters _ Hc) as (Hh & Hm & He & _).
  assert (∀ off, (∀ i, off ≤ i < off + 8 → aget log i = Some 0) → load_le log off 8 = 0) as Hzero.
  { intros off Hoff. apply load_le_at; [lia|]. intros i Hi. rewrite Hoff by lia. symmetry.
    change (le_split 8 0) with (replicate 8 0). apply lookup_replicate_2. lia. }
  split_and!; try done; try (apply Hzero; intros i Hi; read_back);
    (apply load_le_at; [done|]; simpl Z.of_nat; intros i Hi; read_back).
Qed.

Lemma log_ruh_usage_spec c :
  ctx_wf c →
  wp (fill_fdp_log_ruh_usage c) (anew PAGE_SIZE 0) (λ _ log, alen log = PAGE_SIZE ∧
    load_le log 0 2 = FDP_NR_RUH ∧
    ∀ i a, aget (fx_ruh_attr c) i = Some a → load_le log (8 + i * 8) 1 = a).
Proof.
  intros Hc. unfold fill_fdp_log_ruh_usage.
  assert (alen (anew PAGE_SIZE 0) = PAGE_SIZE) as H0 by done. store_step.
  match goal with Hl : alen ?a = PAGE_SIZE, Hg : ∀ i, aget ?a i = _ |- _ =>
    rename a into b, Hl into Hb, Hg into Hgb end.
  assert (PAGE_SIZE = 4096) as HP by done. assert (FDP_NR_RUH = 8) as HN by done.
  apply (wp_for_range (λ i log, alen log = PAGE_SIZE ∧
    (∀ j, j < 8 → aget log j = aget b j) ∧
    ∀ k a, 0 ≤ k < i → aget (fx_ruh_attr c) k = Some a → aget log (8 + k * 8) = Some (a mod 2 ^ 8)));
    [done|split_and!; done || lia| |].
  - intros i log Hi (Hlen & Hlow & Hr).
    destruct (aget_some (fx_ruh_attr c) i) as [x Hx]; [by rewrite (xw_attr _ Hc)|].
    wp_step. eapply wp_aread; [done|]. change sizeof_ruhu_log with 8.
    change sizeof_ruhu_desc with 8.
    eapply wp_mono; [apply wp_store_le; rewrite ?Hlen; simpl; lia|].
    intros [] log' [Hlen' Hget]. rewrite Hlen' in *. simpl Z.of_nat in Hget. split_and!; [done| |].
    + intros j Hj. rewrite Hget, decide_False by lia. by apply Hlow.
    + intros k a Hk Ha. rewrite Hget. case_decide as Hd; [|apply Hr; [lia|done]].
      assert (k = i) as -> by lia. assert (a = x) as -> by congruence. by rewrite Z.sub_diag.
  - intros log (Hlen & Hlow & Hr). split_and!; [done| |].
    + apply load_le_at; [done|]. simpl Z.of_nat. intros i Hi. rewrite Hlow by lia.
      rewrite Hgb. simpl Z.of_nat. by rewrite decide_True by lia.
    + intros i a Ha. pose proof (aget_inv _ _ _ Ha) as Hi. rewrite (xw_attr _ Hc) in Hi.
      pose proof (xw_attr_range _ Hc i a Ha). apply load_le_at; [simpl; lia|].
      simpl Z.of_nat. intros j Hj. assert (j = 8 + i * 8) as -> by lia.
      rewrite (Hr i a Hi Ha). by rewrite Z.sub_diag.
Qed.

Lemma length_event_bytes ev : length (event_bytes ev) = 64%nat.
Proof. unfold event_bytes. by rewrite !length_app, !length_le_split, length_replicate. Qed.

(** Reading an event record back. *)
Definition event_of (a : arr Z) (off : Z) : nvme_fdp_event :=
  FdpEvent (load_le a off 1) (load_le a (off + 1) 1) (load_le a (off + 2) 2)
    (load_le a (off + 4) 8) (load_le a (off + 12) 4).

Lemma event_of_bytes a off ev :
  event_wf ev → (∀ i, 0 ≤ i < 64 → aget a (off + i) = event_bytes ev !! Z.to_nat i) →
  event_of a off = ev.
Proof.
  intros [] H. unfold event_of. destruct ev as [t f p ts n]; simpl in *.
  assert (∀ (l1 l2 l3 : list Z) (k : nat), l1 ++ l2 ++ l3 = event_bytes (FdpEvent t f p ts n) →
    k = length l1 → ∀ i, off + Z.of_nat k ≤ i < off + Z.of_nat k + Z.of_nat (length l2) →
    aget a i = l2 !! Z.to_nat (i - (off + Z.of_nat k))) as Hsub.
  { intros l1 l2 l3 k Heq -> i Hi.
    pose proof (length_event_bytes (FdpEvent t f p ts n)) as Hlen. rewrite <- Heq in Hlen.
    rewrite !length_app in Hlen.
    replace i with (off + (i - off)) at 1 by lia. rewrite H by lia. rewrite <- Heq.
    rewrite lookup_app_r by lia. rewrite lookup_app_l by lia. f_equal. lia. }
  unfold event_bytes in Hsub; simpl in Hsub.
  f_equal; (apply load_le_at; [done|]).
  - pose proof (Hsub [] (le_split 1 t) _ 0%nat eq_refl eq_refl) as Hs.
    rewrite length_le_split in Hs. simpl Z.of_nat in Hs. by rewrite Z.add_0_r in Hs.
  - pose proof (Hsub (le_split 1 t) (le_split 1 f) _ 1%nat eq_refl) as Hs.
    rewrite !length_le_split in Hs. by apply Hs.
  - pose proof (Hsub (le_split 1 t ++ le_split 1 f) (le_split 2 p) _ 2%nat eq_refl) as Hs.
    rewrite length_le_split in Hs. by apply Hs.
  - pose proof (Hsub (le_split 1 t ++ le_split 1 f ++ le_split 2 p) (le_split 8 ts) _ 4%nat
      eq_refl) as Hs. rewrite length_le_split in Hs. by apply Hs.
  - pose proof (Hsub (le_split 1 t ++ le_split 1 f ++ le_split 2 p ++ le_split 8 ts)
      (le_split 4 n) _ 12%nat eq_refl) as Hs. rewrite length_le_split in Hs. by apply Hs.
Qed.

Lemma log_events_spec c :
  ctx_wf c →
  wp (fill_fdp_log_events c) (anew PAGE_SIZE 0) (λ _ log, alen log = PAGE_SIZE ∧
    load_le log 0 4 = fx_nr_events c ∧
    map (λ i, event_of log (64 + i * 64)) (seqZ 0 (fx_nr_events c)) = recent c).
Proof.
  intros Hc. unfold fill_fdp_log_events.
  assert (alen (anew PAGE_SIZE 0) = PAGE_SIZE) as H0 by done. store_step.
  match goal with Hl : alen ?a = PAGE_SIZE, Hg : ∀ i, aget ?a i = _ |- _ =>
    rename a into b, Hl into Hb, Hg into Hgb end.
  assert (PAGE_SIZE = 4096) as HP by done. assert (FDP_NR_EVENTS = 63) as HN by done.
  pose proof (xw_nr _ Hc) as Hnr. pose proof (xw_head _ Hc) as Hh.
  apply (wp_for_range (λ i log, alen log = PAGE_SIZE ∧
    (∀ j, j < 64 → aget log j = aget b j) ∧
    ∀ k ev, 0 ≤ k < i → aget (fx_ring c) (slot c k) = Some ev →
      ∀ j, 0 ≤ j < 64 → aget log (64 + k * 64 + j) = event_bytes ev !! Z.to_nat j));
    [lia|split_and!; done || lia| |].
  - intros i log Hi (Hlen & Hlow & Hr). cbv zeta. rewrite u32_small by lia.
    fold (slot c i). destruct (ring_defined c i Hc) as [ev Hev].
    wp_step. eapply wp_aread; [done|]. change sizeof_events_log with 64.
    change sizeof_event with 64.
    eapply wp_mono; [apply wp_store_bytes; rewrite ?Hlen, ?length_event_bytes; lia|].
    intros [] log' [Hlen' Hget]. rewrite Hlen', length_event_bytes in *. split_and!; [done| |].
    + intros j Hj. rewrite Hget, decide_False by lia. by apply Hlow.
    + intros k e Hk He j Hj. rewrite Hget. case_decide as Hd; [|apply Hr; [lia|done|done]].
      assert (k = i) as -> by lia. assert (e = ev) as -> by congruence. f_equal. lia.
  - intros log (Hlen & Hlow & Hr). split_and!; [done| |].
    + apply load_le_at; [simpl; lia|]. simpl Z.of_nat. intros i Hi. rewrite Hlow by lia.
      rewrite Hgb. simpl Z.of_nat. by rewrite decide_True by lia.
    + apply list_eq. intros k. rewrite list_lookup_fmap.
      destruct (decide (Z.of_nat k < fx_nr_events c)) as [Hk|Hk]; last first.
      { rewrite !lookup_ge_None_2; [done|rewrite length_recent by done; lia|
          rewrite length_seqZ; lia]. }
      rewrite <- (Nat2Z.id k), lookup_recent by (done || lia).
      assert (seqZ 0 (fx_nr_events c) !! Z.to_nat (Z.of_nat k) = Some (Z.of_nat k)) as ->
        by (apply lookup_seqZ; lia).
      destruct (ring_defined c (Z.of_nat k) Hc) as [ev Hev]. rewrite Hev. simpl. f_equal.
      apply event_of_bytes; [by eapply (xw_events _ Hc)|]. intros j Hj. apply (Hr _ ev); done || lia.
Qed.

(** ** Features *)

Definition known (events : list (Z * bool)) (t : Z) : bool :=
  existsb (λ te, fst te =? t) events.

Lemma set_event_type_types events evt evta :
  fst <$> fst (set_event_type events evt evta) = fst <$> events.
Proof.
  induction events as [|[t e] events IH]; simpl; [done|].
  destruct (set_event_type events evt evta) as [r n]; simpl in *.
  destruct (t =? evt); simpl; f_equal; exact IH.
Qed.

Lemma known_types events events' t :
  fst <$> events' = fst <$> events → known events' t = known events t.
Proof.
  intros H. unfold known. revert events' H. induction events as [|te events IH];
    intros [|te' events'] H; try done. injection H as Hte Hev. simpl.
  by rewrite Hte, (IH _ Hev).
Qed.

(** A descriptor changes exactly the type it names. *)
Lemma event_enabled_set events evt evta t :
  event_enabled (fst (set_event_type events evt evta)) t =
    if (evt =? t) && known events t then Z.testbit evta 0 else event_enabled events t.
Proof.
  induction events as [|[x e] events IH]; simpl; [by rewrite andb_false_r|].
  destruct (set_event_type events evt evta) as [r n]; simpl in *.
  destruct (Z.eqb_spec x evt) as [->|Hx]; simpl.
  - destruct (Z.eqb_spec evt t) as [->|Ht]; simpl; [done|]. exact IH.
  - destruct (Z.eqb_spec x t) as [->|Ht]; simpl; [|done].
    by destruct (Z.eqb_spec evt t) as [->|].
Qed.

(** What the descriptors [is] of a buffer make of the enable bit of type [t]. *)
Definition desc_enable (desc : arr Z) (kn : bool) (t : Z) (acc : bool) (i : Z) : bool :=
  match aget desc (2 * i), aget desc (2 * i + 1) with
  | Some evt, Some evta => if (evt =? t) && kn then Z.testbit evta 0 else acc
  | _, _ => acc
  end.

Lemma apply_event_descs_spec desc ids events result :
  Forall (λ i, 0 ≤ i ∧ 2 * i + 1 < alen desc) ids →
  ∃ events' r, apply_event_descs desc ids events result = Ok (events', r) ∧
    fst <$> events' = fst <$> events ∧
    ∀ t, event_enabled events' t =
         foldl (desc_enable desc (known events t) t) (event_enabled events t) ids.
Proof.
  intros H. revert events result.
  induction H as [|i ids Hi _ IH]; intros events result; simpl; [by eauto|].
  destruct (aget_some desc (2 * i)) as [evt Hevt]; [lia|].
  destruct (aget_some desc (2 * i + 1)) as [evta Hevta]; [lia|].
  rewrite Hevt, Hevta.
  pose proof (set_event_type_types events evt evta) as Hty.
  pose proof (event_enabled_set events evt evta) as Hen.
  destruct (set_event_type events evt evta) as [events1 n]; simpl in *.
  destruct (IH events1 (u32 (result + n))) as (events' & r & Heq & Hf & Hall).
  exists events', r. split_and!; [done|congruence|]. intros t. rewrite Hall.
  rewrite (known_types events events1) by done. f_equal.
  unfold desc_enable. by rewrite Hevt, Hevta, Hen.
Qed.

Lemma noet_of_eq dw11 : noet_of dw11 = (dw11 / 2 ^ 16) mod 2 ^ 8.
Proof.
  unfold noet_of. rewrite Z.shiftr_div_pow2 by lia. change 255 with (Z.ones 8).
  by rewrite Z.land_ones by lia.
Qed.

Lemma set_feature_events_spec c dw11 desc :
  2 * noet_of dw11 ≤ alen desc →
  ∃ events r, fdp_set_feature_events c dw11 (Some desc) = Ok (set_events c events, r) ∧
    fst <$> events = fst <$> fx_events c ∧
    ∀ t, event_enabled events t =
         foldl (desc_enable desc (known (fx_events c) t) t) (event_enabled (fx_events c) t)
           (seqZ 0 (noet_of dw11)).
Proof.
  intros Hlen. unfold fdp_set_feature_events.
  destruct (apply_event_descs_spec desc (seqZ 0 (noet_of dw11)) (fx_events c) 0)
    as (events & r & -> & Hf & Hall).
  { apply Forall_forall. intros i Hi%elem_of_seqZ. lia. }
  eauto.
Qed.

Lemma wp_store_event_descs events i a :
  0 ≤ i → 2 * (i + Z.of_nat (length events)) ≤ alen a →
  Forall (λ te, 0 ≤ fst te < 2 ^ 8) events →
  wp (store_event_descs i events) a (λ _ a', alen a' = alen a ∧
    (∀ j, j < 2 * i → aget a' j = aget a j) ∧
    ∀ k t e, events !! k = Some (t, e) →
      aget a' (2 * (i + Z.of_nat k)) = Some t ∧
      aget a' (2 * (i + Z.of_nat k) + 1) = Some (Z.b2z e)).
Proof.
  revert i a. induction events as [|[t e] events IH]; intros i a Hi Hl Hr; simpl.
  { wp_step. split_and!; try done. }
  apply Forall_cons in Hr as [Ht Hr]. simpl in Ht, Hl.
  wp_step. eapply wp_mono; [apply wp_store_le; simpl; lia|]. intros [] b [Hlb Hb].
  wp_step. eapply wp_mono; [apply wp_store_le; simpl; lia|]. intros [] d [Hld Hd].
  eapply wp_mono; [apply IH; [lia|lia|done]|]. intros [] a' (Hla & Hlow & Hev).
  simpl Z.of_nat in Hb, Hd. split_and!; [congruence| |].
  - intros j Hj. rewrite Hlow, Hd, decide_False, Hb, decide_False by lia. done.
  - intros [|k] t' e' Hk; simpl in Hk.
    + injection Hk as <- <-. change (Z.of_nat 0) with 0. rewrite Z.add_0_r.
      rewrite !Hlow, !Hd, Hb by lia. repeat case_decide; try lia.
      rewrite !Z.sub_diag. simpl. rewrite Z.mod_small by lia. by destruct e.
    + replace (i + Z.of_nat (S k)) with (i + 1 + Z.of_nat k) by lia. by apply Hev.
Qed.
