(* ===== verification/FdpFtl.v ===== *)
(** * The FDP flash translation layer: operations (src/fdp_ftl.c, src/fdp_ftl.h)

    One partition is an [fdp_ftl]; what it shares with the other partitions and
    with the rest of the driver is [shared].  A pointer to a line is its index in
    [lm.lines] ([None] for the null pointer), a kernel list of lines is the list
    of their indices, and the victim queue is the heap of [Pqueue] over the line
    array.  [int] fields are kept with their 32-bit wrap-around where the code
    changes them. *)

From stdpp Require Import base numbers list gmap.
From S2P Require Import Prelude Config Pqueue ChannelModel Ssd Nvme FdpLog.

#[local] Open Scope Z_scope.

(** ** Data *)

Record fdpparams : Type := FdpParams {
  cp_gc_thres_lines : Z;
  cp_gc_thres_lines_high : Z;
  cp_enable_gc_delay : bool;
  cp_op_area_pcent : Z;  (* in hundredths *)
  cp_pba_pcent : Z;
}.

(** The list links are in [lm_free] and [lm_full]. *)
Record fdp_line : Type := FdpLine {
  ln_id : Z;
  ln_ipc : Z;
  ln_vpc : Z;
  ln_ruh : Z;
  ln_pos : Z;
}.

Record fdp_write_pointer : Type := WritePointer {
  wp_curline : option Z;
  wp_ch : Z;
  wp_lun : Z;
  wp_pg : Z;
  wp_blk : Z;
  wp_pl : Z;
}.

Record fdp_line_mgmt : Type := LineMgmt {
  lm_lines : arr fdp_line;
  lm_free_line_list : list Z;
  lm_victim_line_pq : pqueue Z;
  lm_full_line_list : list Z;
  lm_tt_lines : Z;
  lm_free_line_cnt : Z;
  lm_victim_line_cnt : Z;
  lm_full_line_cnt : Z;
}.

Record fdp_write_flow_control : Type := WriteFlowControl {
  wfc_write_credits : Z;
  wfc_credits_to_refill : Z;
}.

Record fdp_ftl : Type := FdpFtl {
  ftl_ssd : ssd;
  ftl_cp : fdpparams;
  ftl_maptbl : arr ppa;
  ftl_rmap : arr Z;
  ftl_wp_ruh : arr fdp_write_pointer;
  ftl_gc_wp : fdp_write_pointer;
  ftl_lm : fdp_line_mgmt;
  ftl_wfc : fdp_write_flow_control;
}.

(** The PCIe channel, the write buffer and the clock; the FDP context; the
    internal operations handed to the I/O engine, oldest first. *)
Record shared : Type := Shared {
  sh_env : env;
  sh_ctx : fctx;
  sh_ops : list internal_op;
}.

Definition fstate : Type := fdp_ftl * shared.

(** ** Field updates *)

Definition set_ssd (x : ssd) (f : fdp_ftl) : fdp_ftl :=
  FdpFtl x (ftl_cp f) (ftl_maptbl f) (ftl_rmap f) (ftl_wp_ruh f) (ftl_gc_wp f) (ftl_lm f)
    (ftl_wfc f).
Definition set_maptbl (x : arr ppa) (f : fdp_ftl) : fdp_ftl :=
  FdpFtl (ftl_ssd f) (ftl_cp f) x (ftl_rmap f) (ftl_wp_ruh f) (ftl_gc_wp f) (ftl_lm f)
    (ftl_wfc f).
Definition set_rmap (x : arr Z) (f : fdp_ftl) : fdp_ftl :=
  FdpFtl (ftl_ssd f) (ftl_cp f) (ftl_maptbl f) x (ftl_wp_ruh f) (ftl_gc_wp f) (ftl_lm f)
    (ftl_wfc f).
Definition set_wp_ruh (x : arr fdp_write_pointer) (f : fdp_ftl) : fdp_ftl :=
  FdpFtl (ftl_ssd f) (ftl_cp f) (ftl_maptbl f) (ftl_rmap f) x (ftl_gc_wp f) (ftl_lm f)
    (ftl_wfc f).
Definition set_gc_wp (x : fdp_write_pointer) (f : fdp_ftl) : fdp_ftl :=
  FdpFtl (ftl_ssd f) (ftl_cp f) (ftl_maptbl f) (ftl_rmap f) (ftl_wp_ruh f) x (ftl_lm f)
    (ftl_wfc f).
Definition set_lm (x : fdp_line_mgmt) (f : fdp_ftl) : fdp_ftl :=
  FdpFtl (ftl_ssd f) (ftl_cp f) (ftl_maptbl f) (ftl_rmap f) (ftl_wp_ruh f) (ftl_gc_wp f) x
    (ftl_wfc f).
Definition set_wfc (x : fdp_write_flow_control) (f : fdp_ftl) : fdp_ftl :=
  FdpFtl (ftl_ssd f) (ftl_cp f) (ftl_maptbl f) (ftl_rmap f) (ftl_wp_ruh f) (ftl_gc_wp f)
    (ftl_lm f) x.

Definition set_lines (x : arr fdp_line) (m : fdp_line_mgmt) : fdp_line_mgmt :=
  LineMgmt x (lm_free_line_list m) (lm_victim_line_pq m) (lm_full_line_list m) (lm_tt_lines m)
    (lm_free_line_cnt m) (lm_victim_line_cnt m) (lm_full_line_cnt m).
Definition set_free (l : list Z) (cnt : Z) (m : fdp_line_mgmt) : fdp_line_mgmt :=
  LineMgmt (lm_lines m) l (lm_victim_line_pq m) (lm_full_line_list m) (lm_tt_lines m)
    cnt (lm_victim_line_cnt m) (lm_full_line_cnt m).
Definition set_full (l : list Z) (cnt : Z) (m : fdp_line_mgmt) : fdp_line_mgmt :=
  LineMgmt (lm_lines m) (lm_free_line_list m) (lm_victim_line_pq m) l (lm_tt_lines m)
    (lm_free_line_cnt m) (lm_victim_line_cnt m) cnt.
Definition set_pq (q : pqueue Z) (m : fdp_line_mgmt) : fdp_line_mgmt :=
  LineMgmt (lm_lines m) (lm_free_line_list m) q (lm_full_line_list m) (lm_tt_lines m)
    (lm_free_line_cnt m) (lm_victim_line_cnt m) (lm_full_line_cnt m).
Definition set_victim_cnt (cnt : Z) (m : fdp_line_mgmt) : fdp_line_mgmt :=
  LineMgmt (lm_lines m) (lm_free_line_list m) (lm_victim_line_pq m) (lm_full_line_list m)
    (lm_tt_lines m) (lm_free_line_cnt m) cnt (lm_full_line_cnt m).

Definition set_ln_ipc (x : Z) (l : fdp_line) : fdp_line :=
  FdpLine (ln_id l) x (ln_vpc l) (ln_ruh l) (ln_pos l).
Definition set_ln_vpc (x : Z) (l : fdp_line) : fdp_line :=
  FdpLine (ln_id l) (ln_ipc l) x (ln_ruh l) (ln_pos l).
Definition set_ln_ruh (x : Z) (l : fdp_line) : fdp_line :=
  FdpLine (ln_id l) (ln_ipc l) (ln_vpc l) x (ln_pos l).
Definition set_ln_pos (x : Z) (l : fdp_line) : fdp_line :=
  FdpLine (ln_id l) (ln_ipc l) (ln_vpc l) (ln_ruh l) x.

Definition set_hbmw (x : Z) (c : fdp_ctx) : fdp_ctx :=
  FdpCtx x (fx_mbmw c) (fx_mbe c) (fx_runs c) (fx_ruh_attr c) (fx_events c) (fx_ring c)
    (fx_ring_head c) (fx_nr_events c).
Definition set_mbmw (x : Z) (c : fdp_ctx) : fdp_ctx :=
  FdpCtx (fx_hbmw c) x (fx_mbe c) (fx_runs c) (fx_ruh_attr c) (fx_events c) (fx_ring c)
    (fx_ring_head c) (fx_nr_events c).
Definition set_mbe (x : Z) (c : fdp_ctx) : fdp_ctx :=
  FdpCtx (fx_hbmw c) (fx_mbmw c) x (fx_runs c) (fx_ruh_attr c) (fx_events c) (fx_ring c)
    (fx_ring_head c) (fx_nr_events c).
Definition set_ruh_attr (x : arr Z) (c : fdp_ctx) : fdp_ctx :=
  FdpCtx (fx_hbmw c) (fx_mbmw c) (fx_mbe c) (fx_runs c) x (fx_events c) (fx_ring c)
    (fx_ring_head c) (fx_nr_events c).

(** ** Reaching into the state *)

Definition get_ftl : M fstate fdp_ftl := gets fst.
Definition spp : M fstate ssdparams := gets (λ s, ssd_sp (ftl_ssd (fst s))).
Definition mod_ftl (g : fdp_ftl → fdp_ftl) : M fstate unit := modify (λ s, (g (fst s), snd s)).
Definition mod_lm (g : fdp_line_mgmt → fdp_line_mgmt) : M fstate unit :=
  mod_ftl (λ f, set_lm (g (ftl_lm f)) f).
Definition mod_ctx (g : fdp_ctx → fdp_ctx) : M fstate unit :=
  modify (λ s, (fst s, Shared (sh_env (snd s)) (g (fst (sh_ctx (snd s))), snd (sh_ctx (snd s)))
                         (sh_ops (snd s)))).

Definition on_ssd {A} (m : M sst A) : M fstate A :=
  zoom (λ s, (ftl_ssd (fst s), sh_env (snd s)))
       (λ t s, (set_ssd (fst t) (fst s), Shared (snd t) (sh_ctx (snd s)) (sh_ops (snd s)))) m.
Definition on_ctx {A} (m : M fctx A) : M fstate A :=
  zoom (λ s, sh_ctx (snd s))
       (λ c s, (fst s, Shared (sh_env (snd s)) c (sh_ops (snd s)))) m.
Definition on_pq {A} (m : M (pqst (arr fdp_line) Z) A) : M fstate A :=
  zoom (λ s, (lm_victim_line_pq (ftl_lm (fst s)), lm_lines (ftl_lm (fst s))))
       (λ t s, (set_lm (set_pq (fst t) (set_lines (snd t) (ftl_lm (fst s)))) (fst s), snd s)) m.

(** Access through a pointer to a line. *)
Definition line_get (l : Z) : M fstate fdp_line :=
  f ← get_ftl; aread (lm_lines (ftl_lm f)) l.
Definition line_upd (l : Z) (g : fdp_line → fdp_line) : M fstate unit :=
  x ← line_get l;
  mod_lm (λ m, set_lines (aset (lm_lines m) l (g x)) m).

(** ** Callbacks of the victim queue

    They dereference the line pointer without a bounds check. *)

Definition line_cell (s : arr fdp_line) (l : Z) : fdp_line :=
  default (adef s) (acells s !! l).
Definition line_poke (s : arr fdp_line) (l : Z) (g : fdp_line → fdp_line) : arr fdp_line :=
  Arr (alen s) (adef s) (<[l := g (line_cell s l)]> (acells s)).

Definition victim_line_cmp_pri (next curr : Z) : bool := curr <? next.
Definition victim_line_get_pri (s : arr fdp_line) (l : Z) : Z := u64 (ln_vpc (line_cell s l)).
Definition victim_line_set_pri (s : arr fdp_line) (l : Z) (pri : Z) : arr fdp_line :=
  line_poke s l (set_ln_vpc (s32 pri)).
Definition victim_line_get_pos (s : arr fdp_line) (l : Z) : Z := ln_pos (line_cell s l).
Definition victim_line_set_pos (s : arr fdp_line) (l : Z) (pos : Z) : arr fdp_line :=
  line_poke s l (set_ln_pos pos).

#[export] Instance line_pq_ops : PqOps (arr fdp_line) Z := {|
  pq_cmppri := victim_line_cmp_pri;
  pq_getpri := victim_line_get_pri;
  pq_setpri := victim_line_set_pri;
  pq_getpos := victim_line_get_pos;
  pq_setpos := victim_line_set_pos;
|}.

(** The number of reclaim unit handles, [FDP_NR_RUH] on the FDP device.  It is a
    parameter because the conventional translation layer is the same machine with a
    single handle. *)
Class Handles : Type := {
  NR_RUH : Z;
  handles_range : 1 ≤ NR_RUH ≤ FDP_NR_RUH;
}.
Definition fdp_handles : Handles.
Proof. by refine {| NR_RUH := FDP_NR_RUH |}. Defined.

(** ** Address and mapping helpers *)

Section operations.
Context `{NH : !Handles} `{!Clock} `{!LocalClock}.

Definition last_pg_in_wordline (sp : ssdparams) (p : ppa) : bool :=
  g_pg p mod pgs_per_oneshotpg sp =? pgs_per_oneshotpg sp - 1.

Definition should_gc (f : fdp_ftl) : bool :=
  lm_free_line_cnt (ftl_lm f) <=? cp_gc_thres_lines (ftl_cp f).
Definition should_gc_high (f : fdp_ftl) : bool :=
  lm_free_line_cnt (ftl_lm f) <=? cp_gc_thres_lines_high (ftl_cp f).

Definition get_maptbl_ent (lpn : Z) : M fstate ppa :=
  f ← get_ftl; aread (ftl_maptbl f) lpn.

Definition set_maptbl_ent (lpn : Z) (p : ppa) : M fstate unit :=
  f ← get_ftl;
  NVMEV_ASSERT (lpn <? tt_pgs (ssd_sp (ftl_ssd f))) ;;
  t ← awrite (ftl_maptbl f) lpn p;
  mod_ftl (set_maptbl t).

Definition ppa2pgidx (p : ppa) : M fstate Z :=
  sp ← spp;
  let pgidx := u64 (g_ch p * pgs_per_ch sp + g_lun p * pgs_per_lun sp
                    + g_pl p * pgs_per_pl sp + g_blk p * pgs_per_blk sp + g_pg p) in
  NVMEV_ASSERT (pgidx <? tt_pgs sp) ;;
  mret pgidx.

Definition get_rmap_ent (p : ppa) : M fstate Z :=
  pgidx ← ppa2pgidx p;
  f ← get_ftl;
  aread (ftl_rmap f) pgidx.

Definition set_rmap_ent (lpn : Z) (p : ppa) : M fstate unit :=
  pgidx ← ppa2pgidx p;
  f ← get_ftl;
  t ← awrite (ftl_rmap f) pgidx lpn;
  mod_ftl (set_rmap t).

Definition consume_write_credit : M fstate unit :=
  mod_ftl (λ f, set_wfc (WriteFlowControl (u32 (wfc_write_credits (ftl_wfc f) - 1))
                           (wfc_credits_to_refill (ftl_wfc f))) f).

(** ** Lines and write pointers *)

Definition init_lines (sp : ssdparams) : res fdp_line_mgmt :=
  let tt := u32 (blks_per_pl sp) in
  if negb (tt =? tt_lines sp) then Fault BUG
  else
    let ids := seqZ 0 tt in
    Ok (LineMgmt (abuild tt (FdpLine 0 0 0 (-1) 0) (λ i, FdpLine i 0 0 (-1) 0))
          ids (pqueue_init (tt_lines sp)) [] tt (u32 (Z.of_nat (length ids))) 0 0).

Definition init_write_flow_control (sp : ssdparams) : fdp_write_flow_control :=
  WriteFlowControl (u32 (pgs_per_line sp)) (u32 (pgs_per_line sp)).

Definition check_addr (a max : Z) : M fstate unit :=
  NVMEV_ASSERT ((0 <=? s32 a) && (s32 a <? max)).

Definition get_next_free_line : M fstate (option Z) :=
  f ← get_ftl;
  match lm_free_line_list (ftl_lm f) with
  | [] => mret None
  | curline :: _ =>
      mod_lm (λ m, set_free (list_del curline (lm_free_line_list m))
                     (u32 (lm_free_line_cnt m - 1)) m) ;;
      mret (Some curline)
  end.

Definition get_wp (io : io_type) (ruh : Z) : M fstate fdp_write_pointer :=
  f ← get_ftl;
  match io with
  | USER_IO => NVMEV_ASSERT (ruh <? NR_RUH) ;; aread (ftl_wp_ruh f) ruh
  | GC_IO => mret (ftl_gc_wp f)
  end.
Definition set_wp (io : io_type) (ruh : Z) (w : fdp_write_pointer) : M fstate unit :=
  match io with
  | USER_IO => mod_ftl (λ f, set_wp_ruh (aset (ftl_wp_ruh f) ruh w) f)
  | GC_IO => mod_ftl (set_gc_wp w)
  end.

Definition line_ruh (io : io_type) (ruh : Z) : Z :=
  match io with USER_IO => s32 ruh | GC_IO => -1 end.

Definition prepare_write_pointer (io : io_type) (ruh : Z) : M fstate unit :=
  get_wp io ruh ;;
  o ← get_next_free_line;
  match o with
  | None => throw BUG
  | Some curline =>
      line_upd curline (set_ln_ruh (line_ruh io ruh)) ;;
      x ← line_get curline;
      set_wp io ruh (WritePointer (Some curline) 0 0 0 (u32 (ln_id x)) 0)
  end.

(** The tail of [advance_write_pointer]: the line is used up.  [w] has its page,
    LUN and channel reset; the line goes to the full list or to the victim queue
    and the pointer takes the next free line. *)
Definition next_line (io : io_type) (ruh : Z) (w : fdp_write_pointer) : M fstate unit :=
  sp ← spp;
  cur ← deref (wp_curline w);
  line ← line_get cur;
  (if u64 (ln_vpc line) =? pgs_per_line sp then
     NVMEV_ASSERT (ln_ipc line =? 0) ;;
     mod_lm (λ m, set_full (lm_full_line_list m ++ [cur]) (u32 (lm_full_line_cnt m + 1)) m)
   else
     NVMEV_ASSERT ((0 <=? ln_vpc line) && (u64 (ln_vpc line) <? pgs_per_line sp)) ;;
     NVMEV_ASSERT (0 <? ln_ipc line) ;;
     on_pq (pqueue_insert cur) ;;
     mod_lm (λ m, set_victim_cnt (u32 (lm_victim_line_cnt m + 1)) m)) ;;
  check_addr (wp_blk w) (blks_per_pl sp) ;;
  o ← get_next_free_line;
  set_wp io ruh (WritePointer o (wp_ch w) (wp_lun w) (wp_pg w) (wp_blk w) (wp_pl w)) ;;
  new ← deref o;
  line_upd new (set_ln_ruh (line_ruh io ruh)) ;;
  x ← line_get new;
  let blk := u32 (ln_id x) in
  set_wp io ruh (WritePointer o (wp_ch w) (wp_lun w) (wp_pg w) blk (wp_pl w)) ;;
  check_addr blk (blks_per_pl sp) ;;
  NVMEV_ASSERT (wp_pg w =? 0) ;;
  NVMEV_ASSERT (wp_lun w =? 0) ;;
  NVMEV_ASSERT (wp_ch w =? 0) ;;
  NVMEV_ASSERT (wp_pl w =? 0).

Definition advance_write_pointer (io : io_type) (ruh : Z) : M fstate unit :=
  sp ← spp;
  w ← get_wp io ruh;
  let W ch lun pg := WritePointer (wp_curline w) ch lun pg (wp_blk w) (wp_pl w) in
  check_addr (wp_pg w) (pgs_per_blk sp) ;;
  let pg := u32 (wp_pg w + 1) in
  if negb (pg mod pgs_per_oneshotpg sp =? 0) then set_wp io ruh (W (wp_ch w) (wp_lun w) pg)
  else
    let pg := u32 (pg - pgs_per_oneshotpg sp) in
    check_addr (wp_ch w) (nchs sp) ;;
    let ch := u32 (wp_ch w + 1) in
    if negb (ch =? nchs sp) then set_wp io ruh (W ch (wp_lun w) pg)
    else
      let ch := 0 in
      check_addr (wp_lun w) (luns_per_ch sp) ;;
      let lun := u32 (wp_lun w + 1) in
      if negb (lun =? luns_per_ch sp) then set_wp io ruh (W ch lun pg)
      else
        let lun := 0 in
        let pg := u32 (pg + pgs_per_oneshotpg sp) in
        if negb (pg =? pgs_per_blk sp) then set_wp io ruh (W ch lun pg)
        else next_line io ruh (W ch lun 0).

Definition get_new_page (io : io_type) (ruh : Z) : M fstate ppa :=
  w ← get_wp io ruh;
  let p := set_g_pl (wp_pl w) (set_g_blk (wp_blk w) (set_g_pg (wp_pg w)
             (set_g_lun (wp_lun w) (set_g_ch (wp_ch w) (ppa_of 0))))) in
  NVMEV_ASSERT (g_pl p =? 0) ;;
  mret p.

(** ** Initialisation *)

Definition init_maptbl (sp : ssdparams) : arr ppa := anew (tt_pgs sp) (ppa_of UNMAPPED_PPA).
Definition init_rmap (sp : ssdparams) : arr Z := anew (tt_pgs sp) INVALID_LPN.

(** The write pointers are set below; before that they are unset memory. *)
Definition unset_wp : fdp_write_pointer := WritePointer None 0 0 0 0 0.

Definition fdp_init_ftl (cpp : fdpparams) (s : ssd) (sh : shared) : res fstate :=
  let sp := ssd_sp s in
  match init_lines sp with
  | Fault e => Fault e
  | Ok lm =>
      let f0 := FdpFtl s cpp (init_maptbl sp) (init_rmap sp) (anew NR_RUH unset_wp) unset_wp
                  lm (WriteFlowControl 0 0) in
      match (for_range 0 NR_RUH (λ ruh, prepare_write_pointer USER_IO ruh) ;;
             prepare_write_pointer GC_IO 0 ;;
             mod_ftl (set_wfc (init_write_flow_control sp))) (f0, sh) with
      | Ok (_, s') => Ok s'
      | Fault e => Fault e
      end
  end.

Definition fdp_init_params (c : ssd_config) : fdpparams :=
  FdpParams (NR_RUH + 1) (NR_RUH + 1) true (OP_AREA_PERCENT c)
    (100 + OP_AREA_PERCENT c).

Definition valid_ppa (sp : ssdparams) (p : ppa) : bool :=
  (g_ch p <? nchs sp) && (g_lun p <? luns_per_ch sp) && (g_pl p <? pls_per_lun sp)
  && (g_blk p <? blks_per_pl sp) && (g_pg p <? pgs_per_blk sp).
Definition valid_lpn (sp : ssdparams) (lpn : Z) : bool := lpn <? tt_pgs sp.
Definition mapped_ppa (p : ppa) : bool := negb (ppa_val p =? UNMAPPED_PPA).

(** ** Page and block status *)

Definition get_line (p : ppa) : Z := g_blk p.

Definition mod_ssd (g : ssd → ssd) : M fstate unit := mod_ftl (λ f, set_ssd (g (ftl_ssd f)) f).

Definition mark_page_invalid (p : ppa) : M fstate unit :=
  sp ← spp;
  f ← get_ftl;
  pg ← deref (get_pg (ftl_ssd f) p);
  NVMEV_ASSERT (pg_status pg =? PG_VALID) ;;
  mod_ssd (upd_pg (set_pg_status PG_INVALID) p) ;;
  f ← get_ftl;
  blk ← deref (get_blk (ftl_ssd f) p);
  NVMEV_ASSERT ((0 <=? blk_ipc blk) && (blk_ipc blk <? pgs_per_blk sp)) ;;
  NVMEV_ASSERT ((0 <? blk_vpc blk) && (blk_vpc blk <=? pgs_per_blk sp)) ;;
  mod_ssd (upd_blk (set_blk_counts (s32 (blk_ipc blk + 1)) (s32 (blk_vpc blk - 1))
                      (blk_erase_cnt blk)) p) ;;
  let l := get_line p in
  line ← line_get l;
  NVMEV_ASSERT ((0 <=? ln_ipc line) && (u64 (ln_ipc line) <? pgs_per_line sp)) ;;
  let was_full_line := u64 (ln_vpc line) =? pgs_per_line sp in
  when was_full_line (NVMEV_ASSERT (ln_ipc line =? 0)) ;;
  line_upd l (set_ln_ipc (s32 (ln_ipc line + 1))) ;;
  NVMEV_ASSERT ((0 <? ln_vpc line) && (u64 (ln_vpc line) <=? pgs_per_line sp)) ;;
  (if negb (ln_pos line =? 0)
   then on_pq (pqueue_change_priority (u64 (ln_vpc line - 1)) l)
   else line_upd l (λ x, set_ln_vpc (s32 (ln_vpc x - 1)) x)) ;;
  when was_full_line
    (mod_lm (λ m, set_full (list_del l (lm_full_line_list m)) (u32 (lm_full_line_cnt m - 1))
                    (set_free (list_del l (lm_free_line_list m)) (lm_free_line_cnt m) m)) ;;
     on_pq (pqueue_insert l) ;;
     mod_lm (λ m, set_victim_cnt (u32 (lm_victim_line_cnt m + 1)) m)).

Definition mark_page_valid (p : ppa) : M fstate unit :=
  sp ← spp;
  f ← get_ftl;
  pg ← deref (get_pg (ftl_ssd f) p);
  NVMEV_ASSERT (pg_status pg =? PG_FREE) ;;
  mod_ssd (upd_pg (set_pg_status PG_VALID) p) ;;
  f ← get_ftl;
  blk ← deref (get_blk (ftl_ssd f) p);
  NVMEV_ASSERT ((0 <=? blk_vpc blk) && (blk_vpc blk <? pgs_per_blk sp)) ;;
  mod_ssd (upd_blk (set_blk_counts (blk_ipc blk) (s32 (blk_vpc blk + 1)) (blk_erase_cnt blk)) p) ;;
  let l := get_line p in
  line ← line_get l;
  NVMEV_ASSERT ((0 <=? ln_vpc line) && (u64 (ln_vpc line) <? pgs_per_line sp)) ;;
  line_upd l (set_ln_vpc (s32 (ln_vpc line + 1))).

Definition mark_block_free (p : ppa) : M fstate unit :=
  sp ← spp;
  for_range 0 (pgs_per_blk sp) (λ i,
    f ← get_ftl;
    blk ← deref (get_blk (ftl_ssd f) p);
    pg ← aread (blk_pg blk) i;
    NVMEV_ASSERT (pg_nsecs pg =? secs_per_pg sp) ;;
    mod_ssd (upd_blk (λ b, NandBlock (aupd (blk_pg b) i (set_pg_status PG_FREE)) (blk_npgs b)
                             (blk_ipc b) (blk_vpc b) (blk_erase_cnt b) (blk_wp b)) p)) ;;
  f ← get_ftl;
  blk ← deref (get_blk (ftl_ssd f) p);
  NVMEV_ASSERT (blk_npgs blk =? pgs_per_blk sp) ;;
  mod_ssd (upd_blk (set_blk_counts 0 0 (s32 (blk_erase_cnt blk + 1))) p) ;;
  mod_ctx (λ c, set_mbe (u64 (fx_mbe c + u64 (pgs_per_blk sp * pgsz sp))) c).

(** ** Garbage collection *)

Definition gc_cmd (cmd : nand_op) (xfer_size : Z) (p : ppa) : nand_cmd :=
  NandCmd GC_IO cmd xfer_size 0 false p.

Definition gc_read_page (p : ppa) : M fstate unit :=
  sp ← spp;
  f ← get_ftl;
  when (cp_enable_gc_delay (ftl_cp f))
    (on_ssd (ssd_advance_nand (gc_cmd NAND_READ (pgsz sp) p)) ;; mret tt).

Definition gc_write_page (old_ppa : ppa) : M fstate Z :=
  sp ← spp;
  lpn ← get_rmap_ent old_ppa;
  NVMEV_ASSERT (valid_lpn sp lpn) ;;
  new_ppa ← get_new_page GC_IO 0;
  set_maptbl_ent lpn new_ppa ;;
  set_rmap_ent lpn new_ppa ;;
  mark_page_valid new_ppa ;;
  advance_write_pointer GC_IO 0 ;;
  mod_ctx (λ c, set_mbmw (u64 (fx_mbmw c + pgsz sp)) c) ;;
  f ← get_ftl;
  when (cp_enable_gc_delay (ftl_cp f))
    (let gcw := if last_pg_in_wordline sp new_ppa
                then gc_cmd NAND_WRITE (u64 (s32 (pgsz sp * pgs_per_oneshotpg sp))) new_ppa
                else gc_cmd NAND_NOP 0 new_ppa in
     on_ssd (ssd_advance_nand gcw) ;; mret tt) ;;
  mret 0.

Definition select_victim_line (force : bool) : M fstate (option Z) :=
  sp ← spp;
  o ← on_pq pqueue_peek;
  match o with
  | None => mret None
  | Some victim_line =>
      line ← line_get victim_line;
      if negb force && (pgs_per_line sp / 8 <? u64 (ln_vpc line)) then mret None
      else
        on_pq pqueue_pop ;;
        line_upd victim_line (set_ln_pos 0) ;;
        mod_lm (λ m, set_victim_cnt (u32 (lm_victim_line_cnt m - 1)) m) ;;
        mret (Some victim_line)
  end.

Definition clean_one_block (p : ppa) : M fstate unit :=
  sp ← spp;
  let fix pages (pgs : list Z) (cnt : Z) : M fstate Z :=
    match pgs with
    | [] => mret cnt
    | pg :: pgs' =>
        let p := set_g_pg pg p in
        f ← get_ftl;
        pg_iter ← deref (get_pg (ftl_ssd f) p);
        NVMEV_ASSERT (negb (pg_status pg_iter =? PG_FREE)) ;;
        if pg_status pg_iter =? PG_VALID then
          gc_read_page p ;;
          gc_write_page p ;;
          pages pgs' (s32 (cnt + 1))
        else pages pgs' cnt
    end in
  cnt ← pages (seqZ 0 (pgs_per_blk sp)) 0;
  f ← get_ftl;
  blk ← deref (get_blk (ftl_ssd f) p);
  NVMEV_ASSERT (blk_vpc blk =? cnt).

(** The first loop of [clean_one_flashpg]: the number of valid pages. *)
Fixpoint count_valid_pages (n : nat) (ppa_copy : ppa) (cnt : Z) : M fstate Z :=
  match n with
  | O => mret cnt
  | S n' =>
      f ← get_ftl;
      pg_iter ← deref (get_pg (ftl_ssd f) ppa_copy);
      NVMEV_ASSERT (negb (pg_status pg_iter =? PG_FREE)) ;;
      count_valid_pages n' (set_g_pg (g_pg ppa_copy + 1) ppa_copy)
        (if pg_status pg_iter =? PG_VALID then cnt + 1 else cnt)
  end.

(** Its second loop: the valid pages are written elsewhere. *)
Fixpoint move_valid_pages (n : nat) (ppa_copy : ppa) : M fstate unit :=
  match n with
  | O => mret tt
  | S n' =>
      f ← get_ftl;
      pg_iter ← deref (get_pg (ftl_ssd f) ppa_copy);
      when (pg_status pg_iter =? PG_VALID) (gc_write_page ppa_copy ;; mret tt) ;;
      move_valid_pages n' (set_g_pg (g_pg ppa_copy + 1) ppa_copy)
  end.

Definition clean_one_flashpg (p : ppa) : M fstate unit :=
  sp ← spp;
  let n := Z.to_nat (pgs_per_flashpg sp) in
  cnt ← count_valid_pages n p 0;
  if cnt <=? 0 then mret tt
  else
    f ← get_ftl;
    when (cp_enable_gc_delay (ftl_cp f))
      (on_ssd (ssd_advance_nand (gc_cmd NAND_READ (u64 (s32 (pgsz sp * cnt))) p)) ;; mret tt) ;;
    move_valid_pages n p.

Definition mark_line_free (p : ppa) : M fstate unit :=
  let l := get_line p in
  line_upd l (λ x, set_ln_ruh (-1) (set_ln_vpc 0 (set_ln_ipc 0 x))) ;;
  mod_lm (λ m, set_free (lm_free_line_list m ++ [l]) (u32 (lm_free_line_cnt m + 1)) m).

(** The body of the loops of [do_gc]; [base] has the victim's block. *)
Definition gc_flashpg (base : ppa) (flashpg ch lun : Z) : M fstate unit :=
  sp ← spp;
  let p := set_g_pl 0 (set_g_lun lun (set_g_ch ch
             (set_g_pg (flashpg * pgs_per_flashpg sp) base))) in
  clean_one_flashpg p ;;
  when (flashpg =? flashpgs_per_blk sp - 1)
    (mark_block_free p ;;
     f ← get_ftl;
     when (cp_enable_gc_delay (ftl_cp f))
       (on_ssd (ssd_advance_nand (gc_cmd NAND_ERASE 0 p)) ;; mret tt) ;;
     f ← get_ftl;
     lunp ← deref (get_lun (ftl_ssd f) p);
     mod_ssd (upd_lun (set_lun_gc_endtime (lun_next_lun_avail_time lunp)) p)).

Definition do_gc (force : bool) : M fstate Z :=
  sp ← spp;
  o ← select_victim_line force;
  match o with
  | None => mret (-1)
  | Some victim_line =>
      line ← line_get victim_line;
      when (0 <=? ln_ruh line)
        (on_ctx (fdp_emit_event NVME_FDP_EVT_IMPLICIT_MODIFIED_RU NVME_FDP_EVENT_F_PIV
                   (ln_ruh line) 0)) ;;
      let base := set_g_blk (ln_id line) (ppa_of 0) in
      mod_ftl (λ f, set_wfc (WriteFlowControl (wfc_write_credits (ftl_wfc f))
                               (u32 (ln_ipc line))) f) ;;
      for_range 0 (flashpgs_per_blk sp) (λ flashpg,
        for_range 0 (nchs sp) (λ ch,
          for_range 0 (luns_per_ch sp) (λ lun, gc_flashpg base flashpg ch lun))) ;;
      mark_line_free base ;;
      mret 0
  end.

Definition foreground_gc : M fstate unit :=
  f ← get_ftl;
  when (should_gc_high f) (do_gc true ;; mret tt).

Definition check_and_refill_write_credit : M fstate unit :=
  f ← get_ftl;
  when (wfc_write_credits (ftl_wfc f) <=? 0)
    (foreground_gc ;;
     mod_ftl (λ f, set_wfc (WriteFlowControl
                              (u32 (wfc_write_credits (ftl_wfc f)
                                    + wfc_credits_to_refill (ftl_wfc f)))
                              (wfc_credits_to_refill (ftl_wfc f))) f)).

Definition is_same_flash_page (sp : ssdparams) (p1 p2 : ppa) : bool :=
  (h_blk_in_ssd p1 =? h_blk_in_ssd p2)
  && (g_pg p1 / pgs_per_flashpg sp =? g_pg p2 / pgs_per_flashpg sp).

(** ** Commands

    A namespace: its partitions and what they share. *)

Definition nsstate : Type := arr fdp_ftl * shared.

(** Runs [m] on partition [i]. *)
Definition on_part {A} (i : Z) (m : M fstate A) : M nsstate A :=
  '(fs, sh) ← get;
  f ← aread fs i;
  match m (f, sh) with
  | Ok (a, (f', sh')) => put (aset fs i f', sh') ;; mret a
  | Fault e => throw e
  end.

(** The loop of [fdp_init_namespace] that builds the partitions. *)
Fixpoint init_parts (cpp : fdpparams) (sp : ssdparams) (cpu_nr_dispatcher : Z) (ids : list Z)
    (st : nsstate) : res nsstate :=
  match ids with
  | [] => Ok st
  | i :: ids' =>
      let '(s, _, _) := ssd_init sp cpu_nr_dispatcher in
      match fdp_init_ftl cpp s (snd st) with
      | Ok (f, sh) => init_parts cpp sp cpu_nr_dispatcher ids' (aset (fst st) i f, sh)
      | Fault e => Fault e
      end
  end.

(** [fdp_init_namespace]: afterwards every partition uses the PCIe channel and
    the write buffer of partition 0.  [f0] stands for the memory of the partition
    array before it is filled. *)
Definition fdp_init_namespace (c : ssd_config) (events : list (Z * bool)) (f0 : fdp_ftl)
    (id size cpu_nr_dispatcher ticks lticks : Z) : res (nsstate * nvmev_ns) :=
  let nr_parts := SSD_PARTITIONS c in
  match ssd_init_params c size nr_parts with
  | Fault e => Fault e
  | Ok sp =>
      let cpp := fdp_init_params c in
      let ctx := fdp_init_ctx events (u64 (pgs_per_line sp * pgsz sp)) in
      let '(_, pcie, wbuf) := ssd_init sp cpu_nr_dispatcher in
      let sh := Shared (Env pcie wbuf ticks) (ctx, lticks) [] in
      match init_parts cpp sp cpu_nr_dispatcher (seqZ 0 nr_parts) (anew nr_parts f0, sh) with
      | Fault e => Fault e
      | Ok st => Ok (st, Ns id 0 (u64 (size * 100) / cp_pba_pcent cpp) nr_parts)
      end
  end.

(** The inner loop of [fdp_read] over the pages of one partition.  The locals
    are [lpn], [xfer_size], [prev_ppa] and [nsecs_latest]. *)
Definition read_part (nr_parts : Z) (srd_stime : Z) (start_lpn end_lpn nsecs_latest : Z)
    : M fstate Z :=
  sp ← spp;
  let srd xfer p := NandCmd USER_IO NAND_READ xfer srd_stime true p in
  prev_ppa ← get_maptbl_ent (start_lpn / nr_parts);
  '(xfer_size, prev_ppa, nsecs_latest) ←
    while_loop (end_lpn - start_lpn + 2) (λ '(lpn, xfer_size, prev_ppa, nsecs_latest),
      if negb (lpn <=? end_lpn) then mret (inr (xfer_size, prev_ppa, nsecs_latest))
      else
        cur_ppa ← get_maptbl_ent (lpn / nr_parts);
        if negb (mapped_ppa cur_ppa) || negb (valid_ppa sp cur_ppa)
        then mret (inl (lpn + nr_parts, xfer_size, prev_ppa, nsecs_latest))
        else if mapped_ppa prev_ppa && is_same_flash_page sp cur_ppa prev_ppa
        then mret (inl (lpn + nr_parts, u32 (xfer_size + pgsz sp), prev_ppa, nsecs_latest))
        else
          nsecs_latest ← (if 0 <? xfer_size then
                            t ← on_ssd (ssd_advance_nand (srd xfer_size prev_ppa));
                            mret (Z.max t nsecs_latest)
                          else mret nsecs_latest);
          mret (inl (lpn + nr_parts, u32 (pgsz sp), cur_ppa, nsecs_latest)))
      (start_lpn, 0, prev_ppa, nsecs_latest);
  if 0 <? xfer_size then
    t ← on_ssd (ssd_advance_nand (srd xfer_size prev_ppa));
    mret (Z.max t nsecs_latest)
  else mret nsecs_latest.

(** The parameters of partition 0, which the handlers take for all. *)
Definition spp0 : M nsstate ssdparams :=
  '(fs, _) ← get;
  f ← aread fs 0;
  mret (ssd_sp (ftl_ssd f)).

Definition fdp_read (c : ssd_config) (ns : nvmev_ns) (req : nvmev_request) (ret : nvmev_result)
    : M nsstate (bool * nvmev_result) :=
  sp ← spp0;
  let cmd := req_cmd req in
  let lba := rw_slba cmd in
  let nr_lba := rw_length cmd + 1 in
  let start_lpn := lba / secs_per_pg sp in
  let end_lpn := u64 (lba + nr_lba - 1) / secs_per_pg sp in
  let nsecs_start := req_nsecs_start req in
  let nr_parts := ns_nr_parts ns in
  if tt_pgs sp <=? end_lpn / nr_parts then mret (false, ret)
  else
    let srd_stime := u64 (nsecs_start + (if LBA_TO_BYTE c nr_lba <=? u32 (KB 4 * nr_parts)
                                         then fw_4kb_rd_lat sp else fw_rd_lat sp)) in
    nsecs_latest ← while_loop (nr_parts + 1) (λ '(i, start_lpn, nsecs_latest),
      if negb ((i <? nr_parts) && (start_lpn <=? end_lpn)) then mret (inr nsecs_latest)
      else
        t ← on_part (start_lpn mod nr_parts)
              (read_part nr_parts srd_stime start_lpn end_lpn nsecs_latest);
        mret (inl (i + 1, start_lpn + 1, t)))
      (0, start_lpn, nsecs_start);
    mret (true, Result NVME_SC_SUCCESS nsecs_latest (ret_result ret)).

(** The page loop's body of [fdp_write]: [swr_stime] is the time the data is in
    the buffer, the result the new [nsecs_latest]. *)
Definition write_page (ruh sq_id swr_stime local_lpn nsecs_latest : Z) : M fstate Z :=
  sp ← spp;
  let oneshot_size := u64 (s32 (pgsz sp * pgs_per_oneshotpg sp)) in
  p ← get_maptbl_ent local_lpn;
  when (mapped_ppa p) (mark_page_invalid p ;; set_rmap_ent INVALID_LPN p) ;;
  p ← get_new_page USER_IO ruh;
  set_maptbl_ent local_lpn p ;;
  set_rmap_ent local_lpn p ;;
  mark_page_valid p ;;
  advance_write_pointer USER_IO ruh ;;
  nsecs_latest ←
    (if last_pg_in_wordline sp p then
       nsecs_completed ← on_ssd (ssd_advance_nand
                                  (NandCmd USER_IO NAND_WRITE oneshot_size swr_stime false p));
       modify (λ s, (fst s, Shared (sh_env (snd s)) (sh_ctx (snd s))
                              (sh_ops (snd s) ++ [InternalOp sq_id nsecs_completed oneshot_size]))) ;;
       mret (Z.max nsecs_completed nsecs_latest)
     else mret nsecs_latest);
  consume_write_credit ;;
  check_and_refill_write_credit ;;
  mret nsecs_latest.

Definition mod_shared (g : shared → shared) : M nsstate unit := modify (λ s, (fst s, g (snd s))).
Definition mod_shared_ctx (g : fdp_ctx → fdp_ctx) : M nsstate unit :=
  mod_shared (λ sh, Shared (sh_env sh) (g (fst (sh_ctx sh)), snd (sh_ctx sh)) (sh_ops sh)).
Definition on_shared_ctx {A} (m : M fctx A) : M nsstate A :=
  zoom (λ s, sh_ctx (snd s))
       (λ x s, (fst s, Shared (sh_env (snd s)) x (sh_ops (snd s)))) m.
Definition on_wbuf {A} (m : M buffer A) : M nsstate A :=
  zoom (λ s, env_wbuf (sh_env (snd s)))
       (λ b s, (fst s, Shared (Env (env_pcie (sh_env (snd s))) b (env_ticks (sh_env (snd s))))
                         (sh_ctx (snd s)) (sh_ops (snd s)))) m.

(** The reclaim unit handle of a write: [None] for an invalid placement
    identifier. *)
Definition route_placement (cmd : nvme_rw_command) : M nsstate (option Z) :=
  let dtype := Z.land (Z.shiftr (rw_control cmd) NVME_RW_DTYPE_SHIFT) NVME_RW_DTYPE_MASK in
  let dspec := u16 (Z.shiftr (rw_dsmgmt cmd) 16) in
  if dtype =? NVME_DIRECTIVE_PLACEMENT then
    if NR_RUH <=? dspec then
      on_shared_ctx (fdp_emit_event NVME_FDP_EVT_INVALID_PID
                       (Z.lor NVME_FDP_EVENT_F_PIV NVME_FDP_EVENT_F_NSIDV)
                       dspec (rw_nsid cmd)) ;;
      mret None
    else
      '(_, sh) ← get;
      a ← awrite (fx_ruh_attr (fst (sh_ctx sh))) dspec NVME_FDP_RUHA_HOST;
      mod_shared_ctx (set_ruh_attr a) ;;
      mret (Some dspec)
  else
    '(_, sh) ← get;
    x ← aread (fx_ruh_attr (fst (sh_ctx sh))) 0;
    when (x =? NVME_FDP_RUHA_UNUSED)
      (a ← awrite (fx_ruh_attr (fst (sh_ctx sh))) 0 NVME_FDP_RUHA_CTRL;
       mod_shared_ctx (set_ruh_attr a)) ;;
    mret (Some 0).

Definition fdp_write (c : ssd_config) (ns : nvmev_ns) (req : nvmev_request) (ret : nvmev_result)
    : M nsstate (bool * nvmev_result) :=
  sp ← spp0;
  let cmd := req_cmd req in
  let lba := rw_slba cmd in
  let nr_lba := rw_length cmd + 1 in
  let start_lpn := lba / secs_per_pg sp in
  let end_lpn := u64 (lba + nr_lba - 1) / secs_per_pg sp in
  let nr_parts := ns_nr_parts ns in
  let bytes := LBA_TO_BYTE c nr_lba in
  if tt_pgs sp <=? end_lpn / nr_parts then mret (false, ret)
  else
    o ← route_placement cmd;
    match o with
    | None => mret (true, Result NVME_SC_INVALID_FIELD (req_nsecs_start req) (ret_result ret))
    | Some ruh =>
        allocated_buf_size ← on_wbuf (buffer_allocate bytes);
        if allocated_buf_size <? bytes then mret (false, ret)
        else
          mod_shared_ctx (λ x, set_hbmw (u64 (fx_hbmw x + bytes)) x) ;;
          mod_shared_ctx (λ x, set_mbmw (u64 (fx_mbmw x + bytes)) x) ;;
          nsecs_xfer_completed ←
            on_part 0 (on_ssd (ssd_advance_write_buffer (req_nsecs_start req) bytes));
          nsecs_latest ← while_loop (end_lpn - start_lpn + 2) (λ '(lpn, nsecs_latest),
            if negb (lpn <=? end_lpn) then mret (inr nsecs_latest)
            else
              t ← on_part (lpn mod nr_parts)
                    (write_page ruh (req_sq_id req) nsecs_xfer_completed (lpn / nr_parts)
                       nsecs_latest);
              mret (inl (lpn + 1, t)))
            (start_lpn, nsecs_xfer_completed);
          let target := if negb (Z.land (rw_control cmd) NVME_RW_FUA =? 0)
                           || negb (write_early_completion sp)
                        then nsecs_latest else nsecs_xfer_completed in
          mret (true, Result NVME_SC_SUCCESS target (ret_result ret))
    end.

(** The local clock is read once, then every partition's NAND idle time. *)
Definition fdp_flush (ns : nvmev_ns) (ret : nvmev_result) : M nsstate nvmev_result :=
  start ← on_shared_ctx (λ '(x, n), Ok (local_clock n, (x, n + 1)));
  let fix parts (ids : list Z) (latest : Z) : M nsstate Z :=
    match ids with
    | [] => mret latest
    | i :: ids' =>
        t ← on_part i (on_ssd ssd_next_idle_time);
        parts ids' (Z.max latest t)
    end in
  latest ← parts (seqZ 0 (ns_nr_parts ns)) start;
  mret (Result NVME_SC_SUCCESS latest (ret_result ret)).

Definition fdp_proc_nvme_io_cmd (c : ssd_config) (ns : nvmev_ns) (req : nvmev_request)
    (ret : nvmev_result) : M nsstate (bool * nvmev_result) :=
  NVMEV_ASSERT (ns_csi ns =? 0) ;;
  let op := rw_opcode (req_cmd req) in
  if op =? nvme_cmd_write then fdp_write c ns req ret
  else if op =? nvme_cmd_read then fdp_read c ns req ret
  else if op =? nvme_cmd_flush then r ← fdp_flush ns ret; mret (true, r)
  else mret (true, ret).
End operations.
