(* ===== verification/FdpGeom.v ===== *)
(** * The pages of a line and the order in which they are written

    A line is the set of blocks with one block number, one per LUN.  A write
    pointer visits its pages oneshot page by oneshot page: first the pages of a
    oneshot page, then the channels, then the LUNs, then the next oneshot page of
    every block.  [prank] numbers the pages of a line in that order. *)

From stdpp Require Import base numbers list gmap.
From S2P Require Import Prelude Config ChannelModel Ssd.

#[local] Open Scope Z_scope.

(** All pages of line [l]. *)
Definition lpages (sp : ssdparams) (l : Z) : list ppa :=
  seqZ 0 (nchs sp) ≫= λ c, seqZ 0 (luns_per_ch sp) ≫= λ u,
    (λ g, Ppa g l 0 u c 0) <$> seqZ 0 (pgs_per_blk sp).

(** The number of a page in its line. *)
Definition prank (sp : ssdparams) (p : ppa) : Z :=
  ((g_pg p / pgs_per_oneshotpg sp * luns_per_ch sp + g_lun p) * nchs sp + g_ch p)
    * pgs_per_oneshotpg sp + g_pg p mod pgs_per_oneshotpg sp.

(** The index of a page in the reverse map. *)
Definition pgidx (sp : ssdparams) (p : ppa) : Z :=
  g_ch p * pgs_per_ch sp + g_lun p * pgs_per_lun sp + g_pl p * pgs_per_pl sp
  + g_blk p * pgs_per_blk sp + g_pg p.

Lemma length_bind_const {A B} (f : A → list B) (l : list A) n :
  (∀ x, x ∈ l → length (f x) = n) → length (l ≫= f) = (length l * n)%nat.
Proof.
  induction l as [|x l IH]; intros H; [done|]. cbn. rewrite length_app.
  rewrite (H x) by set_solver. f_equal. apply IH. set_solver.
Qed.

Lemma mixed_radix_inj a b a' b' n :
  0 ≤ b < n → 0 ≤ b' < n → a * n + b = a' * n + b' → a = a' ∧ b = b'.
Proof.
  intros Hb Hb' H. assert (a = a') as ->; [|split; lia].
  destruct (Z.lt_trichotomy a a') as [?|[?|?]]; [|done|]; nia.
Qed.

Lemma mixed_radix_lt a b m n : 0 ≤ a < m → 0 ≤ b < n → 0 ≤ a * n + b < m * n.
Proof. intros. nia. Qed.

(** The equations and bounds of a geometry, as hypotheses. *)
Ltac sp_facts H :=
  pose proof (so_nchs _ H) as F_nchs; pose proof (so_luns _ H) as F_luns;
  pose proof (so_blks _ H) as F_blks; pose proof (so_ppb _ H) as F_ppb;
  pose proof (so_oneshot _ H) as F_oneshot; pose proof (so_oneshots _ H) as F_oneshots;
  pose proof (so_flash _ H) as F_flash; pose proof (so_flashs _ H) as F_flashs;
  pose proof (so_ppl _ H) as F_ppl; pose proof (so_pgs_pl _ H) as F_pgs_pl;
  pose proof (so_pgs_lun _ H) as F_pgs_lun; pose proof (so_pgs_ch _ H) as F_pgs_ch;
  pose proof (so_tt_pgs _ H) as F_tt_pgs.

Section geom.
Context (sp : ssdparams) (Hsp : sp_ok sp).

Lemma elem_of_lpages l p :
  0 ≤ l < blks_per_pl sp → p ∈ lpages sp l ↔ ppa_in sp p ∧ g_blk p = l.
Proof using Hsp.
  intros Hl. unfold lpages. rewrite list_elem_of_bind. split.
  - intros (c & Hp & Hc). apply list_elem_of_bind in Hp as (u & Hp & Hu).
    apply list_elem_of_fmap in Hp as (g & -> & Hg).
    rewrite elem_of_seqZ in *. split; [split; simpl; lia|done].
  - intros [[] Hb]. destruct p as [pg blk pl lun ch rsv]; simpl in *; subst.
    exists ch. rewrite elem_of_seqZ. split; [|lia].
    apply list_elem_of_bind. exists lun. rewrite elem_of_seqZ. split; [|lia].
    apply list_elem_of_fmap. exists pg. rewrite elem_of_seqZ. split; [done|lia].
Qed.

Lemma NoDup_lpages l : NoDup (lpages sp l).
Proof using.
  unfold lpages. apply NoDup_bind; [| |apply NoDup_seqZ].
  - intros c1 c2 p _ _ H1 H2.
    apply list_elem_of_bind in H1 as (u1 & H1 & _). apply list_elem_of_bind in H2 as (u2 & H2 & _).
    apply list_elem_of_fmap in H1 as (g1 & -> & _). apply list_elem_of_fmap in H2 as (g2 & H2 & _).
    congruence.
  - intros c _. apply NoDup_bind; [| |apply NoDup_seqZ].
    + intros u1 u2 p _ _ H1 H2.
      apply list_elem_of_fmap in H1 as (g1 & -> & _). apply list_elem_of_fmap in H2 as (g2 & H2 & _).
      congruence.
    + intros u _. apply NoDup_fmap_2; [|apply NoDup_seqZ]. intros g1 g2. congruence.
Qed.

Lemma length_lpages l : Z.of_nat (length (lpages sp l)) = pgs_per_line sp.
Proof using Hsp.
  unfold lpages. rewrite (length_bind_const _ _ (Z.to_nat (luns_per_ch sp) * Z.to_nat (pgs_per_blk sp))).
  - rewrite length_seqZ, (so_ppl _ Hsp). pose proof (so_nchs _ Hsp). pose proof (so_luns _ Hsp).
    pose proof (so_ppb _ Hsp). lia.
  - intros c _. rewrite (length_bind_const _ _ (Z.to_nat (pgs_per_blk sp))).
    + by rewrite length_seqZ.
    + intros u _. by rewrite length_fmap, length_seqZ.
Qed.

Lemma ppl_pos : 0 < pgs_per_line sp < 2 ^ 31.
Proof using Hsp.
  sp_facts Hsp. rewrite F_ppl.
  pose proof (so_tt_pgs_bound _ Hsp). rewrite F_tt_pgs, F_pgs_ch, F_pgs_lun, F_pgs_pl in H.
  assert (0 < nchs sp * luns_per_ch sp * pgs_per_blk sp) by nia. nia.
Qed.

Lemma flashpgs_pos : 0 < flashpgs_per_blk sp.
Proof using Hsp.
  pose proof (so_ppb _ Hsp) as H1. pose proof (so_flash _ Hsp) as H2. pose proof (so_flashs _ Hsp) as H3.
  clear Hsp. nia.
Qed.

Lemma tt_pgs_lines : tt_pgs sp = blks_per_pl sp * pgs_per_line sp.
Proof using Hsp. sp_facts Hsp. rewrite F_tt_pgs, F_pgs_ch, F_pgs_lun, F_pgs_pl, F_ppl. lia. Qed.

Lemma oneshot_bound : 0 < pgs_per_oneshotpg sp ≤ 2 ^ 16.
Proof using Hsp.
  pose proof (so_ppb _ Hsp) as H1. pose proof (so_oneshot _ Hsp) as H2. pose proof (so_oneshots _ Hsp) as H3.
  clear Hsp. assert (0 < oneshotpgs_per_blk sp) by nia. nia.
Qed.

Lemma prank_range p : ppa_in sp p → 0 ≤ prank sp p < pgs_per_line sp.
Proof using Hsp.
  intros [Hc Hl _ _ Hpg _]. unfold prank. sp_facts Hsp.
  assert (0 ≤ g_pg p / pgs_per_oneshotpg sp < oneshotpgs_per_blk sp) as Hrow.
  { split; [apply Z.div_pos; lia|]. apply Z.div_lt_upper_bound; lia. }
  pose proof (Z.mod_pos_bound (g_pg p) (pgs_per_oneshotpg sp) F_oneshot) as Hoff.
  pose proof (mixed_radix_lt _ _ _ _ Hrow Hl) as H1.
  pose proof (mixed_radix_lt _ _ _ _ H1 Hc) as H2.
  pose proof (mixed_radix_lt _ _ _ _ H2 Hoff) as H3.
  rewrite F_ppl, F_oneshots. nia.
Qed.

Lemma prank_inj p q :
  ppa_in sp p → ppa_in sp q → g_blk p = g_blk q → prank sp p = prank sp q → p = q.
Proof using Hsp.
  intros [Hc Hl Hpl _ Hpg Hr] [Hc' Hl' Hpl' _ Hpg' Hr'] Hb. unfold prank. sp_facts Hsp.
  pose proof (Z.mod_pos_bound (g_pg p) (pgs_per_oneshotpg sp) F_oneshot) as Ho.
  pose proof (Z.mod_pos_bound (g_pg q) (pgs_per_oneshotpg sp) F_oneshot) as Ho'.
  intros H. apply mixed_radix_inj in H as [H Hoff]; [|done|done].
  apply mixed_radix_inj in H as [H Hch]; [|done|done].
  apply mixed_radix_inj in H as [Hrow Hlun]; [|done|done].
  assert (g_pg p = g_pg q) as Hpgq.
  { rewrite (Z.div_mod (g_pg p) (pgs_per_oneshotpg sp)), (Z.div_mod (g_pg q) (pgs_per_oneshotpg sp))
      by lia. congruence. }
  destruct p, q; simpl in *; congruence.
Qed.

Lemma pgidx_range p : ppa_in sp p → 0 ≤ pgidx sp p < tt_pgs sp.
Proof using Hsp.
  intros [Hc Hl Hpl Hb Hpg _]. unfold pgidx. sp_facts Hsp.
  rewrite Hpl, F_tt_pgs, F_pgs_ch, F_pgs_lun, F_pgs_pl.
  pose proof (mixed_radix_lt _ _ _ _ Hb Hpg) as H1.
  pose proof (mixed_radix_lt _ _ _ _ Hl H1) as H2.
  pose proof (mixed_radix_lt _ _ _ _ Hc H2) as H3. nia.
Qed.

Lemma pgidx_inj p q : ppa_in sp p → ppa_in sp q → pgidx sp p = pgidx sp q → p = q.
Proof using Hsp.
  intros [Hc Hl Hpl Hb Hpg Hr] [Hc' Hl' Hpl' Hb' Hpg' Hr']. unfold pgidx. sp_facts Hsp.
  rewrite Hpl, Hpl', F_pgs_ch, F_pgs_lun, F_pgs_pl.
  pose proof (mixed_radix_lt _ _ _ _ Hb Hpg) as H1. pose proof (mixed_radix_lt _ _ _ _ Hb' Hpg') as H1'.
  pose proof (mixed_radix_lt _ _ _ _ Hl H1) as H2. pose proof (mixed_radix_lt _ _ _ _ Hl' H1') as H2'.
  intros H. destruct (mixed_radix_inj (g_ch p) (g_lun p * (blks_per_pl sp * pgs_per_blk sp)
      + (g_blk p * pgs_per_blk sp + g_pg p)) (g_ch q) (g_lun q * (blks_per_pl sp * pgs_per_blk sp)
      + (g_blk q * pgs_per_blk sp + g_pg q)) (luns_per_ch sp * (blks_per_pl sp * pgs_per_blk sp)))
    as [Hch H']; [done|done|lia|].
  apply mixed_radix_inj in H' as [Hlun H'']; [|done|done].
  apply mixed_radix_inj in H'' as [Hblk Hpgq]; [|done|done].
  destruct p, q; simpl in *; congruence.
Qed.
End geom.
