(* ===== verification/FdpInv.v ===== *)
(** * The invariant of an FDP partition

    What the translation layer maintains, in parts that each concern one piece
    of the state: the block counters count page states ([nand_ok]); so do the
    line counters ([lines_ok]); every line is in exactly one place and the list
    counters and heap positions are right ([lists_ok]); each open line is written
    up to its write pointer ([wps_ok]); the other lines are in the state their
    list stands for ([class_ok]); the map and the reverse map are inverse to each
    other and point at the valid pages ([map_ok]).

    The whole, [finv], has four parameters for the states in the middle of an
    operation: the line [v] being collected and the set [X] of its pages already
    moved; the logical page [ex] whose old copy is gone and whose new one is not
    written yet; and the write pointer [adv] whose page is programmed but which
    has not been advanced. *)

From stdpp Require Import base numbers list gmap relations.
From S2P Require Import Prelude Config Pqueue ChannelModel Ssd Nvme FdpLog FdpFtl FdpGeom.

#[local] Open Scope Z_scope.

Section handles.
Context `{NH : !Handles}.

(** ** Occurrences in a list of lines *)

Definition occ (l : Z) (xs : list Z) : Z := cnt (Z.eqb l) xs.

Lemma occ_nonneg l xs : 0 ≤ occ l xs.
Proof. apply cnt_bounds. Qed.
Lemma occ_app l xs ys : occ l (xs ++ ys) = occ l xs + occ l ys.
Proof. apply cnt_app. Qed.
Lemma occ_cons l x xs : occ l (x :: xs) = Z.b2z (l =? x) + occ l xs.
Proof. done. Qed.

Lemma occ_elem l xs : 0 < occ l xs ↔ l ∈ xs.
Proof.
  split.
  - intros H. destruct (decide (l ∈ xs)) as [|Hn]; [done|].
    unfold occ in H. rewrite cnt_none in H; [lia|]. intros x Hx. apply Z.eqb_neq. set_solver.
  - intros H. eapply cnt_pos; [done|]. apply Z.eqb_refl.
Qed.

Lemma occ_not_elem l xs : l ∉ xs → occ l xs = 0.
Proof. intros H. pose proof (occ_nonneg l xs). rewrite <- occ_elem in H. lia. Qed.

Lemma occ_del l x xs : occ l (list_del x xs) = if l =? x then 0 else occ l xs.
Proof.
  induction xs as [|y xs IH]; [by destruct (l =? x)|].
  unfold list_del in *. rewrite filter_cons. case_decide as Hy.
  - rewrite !occ_cons, IH. destruct (Z.eqb_spec l x) as [->|]; [|done].
    by rewrite (proj2 (Z.eqb_neq x y)) by congruence.
  - rewrite IH, occ_cons. destruct (Z.eqb_spec l x) as [->|Hn]; [done|].
    assert (y = x) as -> by (destruct (decide (y = x)); [done|naive_solver]).
    by rewrite (proj2 (Z.eqb_neq l x)).
Qed.

Lemma occ_NoDup l xs : NoDup xs → occ l xs = Z.b2z (bool_decide (l ∈ xs)).
Proof.
  induction 1 as [|x xs Hx _ IH]; [done|]. rewrite occ_cons, IH.
  destruct (Z.eqb_spec l x) as [->|Hn].
  - rewrite (bool_decide_false (x ∈ xs)), bool_decide_true by set_solver. done.
  - rewrite Z.add_0_l. f_equal. apply bool_decide_ext. set_solver.
Qed.

Lemma length_list_del l xs :
  occ l xs = 1 → Z.of_nat (length (list_del l xs)) = Z.of_nat (length xs) - 1.
Proof.
  induction xs as [|y xs IH]; [done|]. rewrite occ_cons. unfold list_del. rewrite filter_cons.
  destruct (Z.eqb_spec l y) as [->|Hn]; simpl; intros H.
  - rewrite decide_False by naive_solver.
    assert (y ∉ xs) as Hy by (rewrite <- occ_elem; lia).
    assert (filter (λ x, x ≠ y) xs = xs) as ->; [|lia]. clear -Hy.
    induction xs as [|z xs IH]; [done|]. rewrite filter_cons, decide_True by set_solver.
    f_equal. apply IH. set_solver.
  - rewrite decide_True by congruence. fold (list_del l xs). specialize (IH ltac:(lia)).
    cbn [length]. lia.
Qed.

Lemma zsum_occ n xs :
  Forall (λ x, 0 ≤ x < n) xs → zsum (λ l, occ l xs) (seqZ 0 n) = Z.of_nat (length xs).
Proof.
  induction 1 as [|x xs Hx _ IH]; simpl.
  - induction (seqZ 0 n) as [|a L IHL]; [done|]. exact IHL.
  - assert (∀ L, zsum (λ l, occ l (x :: xs)) L
              = cnt (λ l, l =? x) L + zsum (λ l, occ l xs) L) as Hs.
    { intros L. induction L as [|l L IHL]; simpl; [done|]. rewrite IHL, occ_cons. lia. }
    rewrite Hs, IH.
    assert (cnt (λ l, l =? x) (seqZ 0 n) = 1); [|lia].
    rewrite (cnt_ext _ (Z.eqb x)) by (intros; apply Z.eqb_sym).
    change (occ x (seqZ 0 n) = 1).
    rewrite (occ_NoDup _ _ (NoDup_seqZ 0 n)), bool_decide_true; [done|].
    apply elem_of_seqZ. lia.
Qed.

(** ** Views *)

Definition pstatus (s : ssd) (p : ppa) : option Z := pg_status <$> get_pg s p.
Definition isst (s : ssd) (st : Z) (p : ppa) : bool := bool_decide (pstatus s p = Some st).

(** The pages of line [l] in state [st]. *)
Definition lcnt (sp : ssdparams) (s : ssd) (l st : Z) : Z := cnt (isst s st) (lpages sp l).

(** The pages of a block in state [st]. *)
Definition bcnt (sp : ssdparams) (b : nand_block) (st : Z) : Z :=
  cnt (λ g, bool_decide (pg_status <$> aget (blk_pg b) g = Some st)) (seqZ 0 (pgs_per_blk sp)).

(** The write pointers, numbered: the handles' and then the collector's. *)
Definition NR_WP : Z := NR_RUH + 1.
Definition wid (io : io_type) (ruh : Z) : Z :=
  match io with USER_IO => ruh | GC_IO => NR_RUH end.
Definition wp_of (f : fdp_ftl) (w : Z) : fdp_write_pointer :=
  if w =? NR_RUH then ftl_gc_wp f else default unset_wp (aget (ftl_wp_ruh f) w).

Lemma NR_WP_range : NR_RUH = NR_WP - 1 ∧ 2 ≤ NR_WP ≤ 9.
Proof. pose proof handles_range. unfold NR_WP, FDP_NR_RUH in *. lia. Qed.

(** The page a write pointer is at. *)
Definition wp_ppa (w : fdp_write_pointer) : ppa :=
  Ppa (wp_pg w) (wp_blk w) 0 (wp_lun w) (wp_ch w) 0.

Definition opened (f : fdp_ftl) (l : Z) : Z :=
  cnt (λ w, wp_blk (wp_of f w) =? l) (seqZ 0 NR_WP).

Definition fsp (f : fdp_ftl) : ssdparams := ssd_sp (ftl_ssd f).

(** ** The parts of the invariant *)

Record blk_ok (sp : ssdparams) (b : nand_block) : Prop := {
  bk_len : alen (blk_pg b) = pgs_per_blk sp;
  bk_npgs : blk_npgs b = pgs_per_blk sp;
  bk_pages g pg : aget (blk_pg b) g = Some pg →
    pg_nsecs pg = secs_per_pg sp ∧
    (pg_status pg = PG_FREE ∨ pg_status pg = PG_INVALID ∨ pg_status pg = PG_VALID);
  bk_vpc : blk_vpc b = bcnt sp b PG_VALID;
  bk_ipc : blk_ipc b = bcnt sp b PG_INVALID;
}.

Definition nand_ok (sp : ssdparams) (s : ssd) : Prop :=
  ∀ p, ppa_in sp p → ∃ b, get_blk s p = Some b ∧ blk_ok sp b.

Record lines_ok (sp : ssdparams) (s : ssd) (skip : option Z) (lines : arr fdp_line) : Prop := {
  lo_len : alen lines = blks_per_pl sp;
  lo_id l x : aget lines l = Some x → ln_id x = l;
  lo_cnt l x : aget lines l = Some x → skip ≠ Some l →
    ln_vpc x = lcnt sp s l PG_VALID ∧ ln_ipc x = lcnt sp s l PG_INVALID;
}.

Definition pmem (q : pqueue Z) (l : Z) : Z := Z.b2z (bool_decide (l ∈ pq_elems q)).

Record lists_ok (T : Z) (v : option Z) (ocnt : Z → Z) (m : fdp_line_mgmt) : Prop := {
  ls_pq : pq_wf (lm_victim_line_pq m) (lm_lines m);
  ls_avail : q_avail (lm_victim_line_pq m) = T + 1;
  ls_pos l x : aget (lm_lines m) l = Some x →
    (ln_pos x = 0 ↔ ¬ member (lm_victim_line_pq m) l);
  ls_part l :
    occ l (lm_free_line_list m) + pmem (lm_victim_line_pq m) l + occ l (lm_full_line_list m)
    + ocnt l + Z.b2z (bool_decide (v = Some l)) = Z.b2z (in_range T l);
  ls_free_cnt : lm_free_line_cnt m = Z.of_nat (length (lm_free_line_list m));
  ls_victim_cnt : lm_victim_line_cnt m = q_size (lm_victim_line_pq m) - 1;
  ls_full_cnt : lm_full_line_cnt m = Z.of_nat (length (lm_full_line_list m));
}.

(** [lag] is 1 when the page under the pointer is already programmed. *)
Record wp_ok (sp : ssdparams) (s : ssd) (lag : Z) (w : fdp_write_pointer) : Prop := {
  wo_line : wp_curline w = Some (wp_blk w);
  wo_pl : wp_pl w = 0;
  wo_in : ppa_in sp (wp_ppa w);
  wo_free p : ppa_in sp p → g_blk p = wp_blk w →
    (pstatus s p = Some PG_FREE ↔ prank sp (wp_ppa w) + lag ≤ prank sp p);
}.

Definition lag (adv : option Z) (w : Z) : Z := Z.b2z (bool_decide (adv = Some w)).

Record wps_ok (sp : ssdparams) (s : ssd) (adv : option Z) (f : fdp_ftl) : Prop := {
  ws_len : alen (ftl_wp_ruh f) = NR_RUH;
  ws_ok w : 0 ≤ w < NR_WP → wp_ok sp s (lag adv w) (wp_of f w);
  ws_ruh w x : 0 ≤ w < NR_WP → aget (lm_lines (ftl_lm f)) (wp_blk (wp_of f w)) = Some x →
    ln_ruh x = if w =? NR_RUH then -1 else w;
}.

Record class_ok (sp : ssdparams) (s : ssd) (m : fdp_line_mgmt) : Prop := {
  co_free p : ppa_in sp p → g_blk p ∈ lm_free_line_list m → pstatus s p = Some PG_FREE;
  co_full p : ppa_in sp p → g_blk p ∈ lm_full_line_list m → pstatus s p = Some PG_VALID;
  co_victim p : ppa_in sp p → member (lm_victim_line_pq m) (g_blk p) →
    pstatus s p ≠ Some PG_FREE;
  co_victim_ipc l x : member (lm_victim_line_pq m) l → aget (lm_lines m) l = Some x →
    0 < ln_ipc x;
}.

Record map_ok (sp : ssdparams) (s : ssd) (ex : option Z) (stale : ppa → Prop)
    (maptbl : arr ppa) (rmap : arr Z) : Prop := {
  mo_maptbl : alen maptbl = tt_pgs sp;
  mo_rmap : alen rmap = tt_pgs sp;
  mo_fwd lpn p : aget maptbl lpn = Some p → ex ≠ Some lpn → p ≠ ppa_of UNMAPPED_PPA →
    ppa_in sp p ∧ pstatus s p = Some PG_VALID ∧ ¬ stale p ∧ aget rmap (pgidx sp p) = Some lpn;
  mo_bwd p : ppa_in sp p → pstatus s p = Some PG_VALID → ¬ stale p →
    ∃ lpn, aget rmap (pgidx sp p) = Some lpn ∧ ex ≠ Some lpn ∧ aget maptbl lpn = Some p;
}.

Definition stale (v : option Z) (X : ppa → Prop) (p : ppa) : Prop := v = Some (g_blk p) ∧ X p.

(** All but the map. *)
Record fbase (v adv : option Z) (f : fdp_ftl) : Prop := {
  fb_sp : sp_ok (fsp f);
  fb_nand : nand_ok (fsp f) (ftl_ssd f);
  fb_lines : lines_ok (fsp f) (ftl_ssd f) v (lm_lines (ftl_lm f));
  fb_lists : lists_ok (blks_per_pl (fsp f)) v (opened f) (ftl_lm f);
  fb_wps : wps_ok (fsp f) (ftl_ssd f) adv f;
  fb_class : class_ok (fsp f) (ftl_ssd f) (ftl_lm f);
}.

Record finv (v : option Z) (X : ppa → Prop) (ex adv : option Z) (f : fdp_ftl) : Prop := {
  fi_base : fbase v adv f;
  fi_map : map_ok (fsp f) (ftl_ssd f) ex (stale v X) (ftl_maptbl f) (ftl_rmap f);
}.

(** What a partition's operations need of the rest of the driver. *)
Definition senv_ok (st : fstate) : Prop :=
  timing_ok (ftl_ssd (fst st), sh_env (snd st)) ∧ ctx_wf (fst (sh_ctx (snd st))).

Definition ginv (v : option Z) (X : ppa → Prop) (ex adv : option Z) (st : fstate) : Prop :=
  finv v X ex adv (fst st) ∧ senv_ok st.

(** The invariant between operations. *)
Definition ftl_inv (st : fstate) : Prop := ginv None (λ _, False) None None st.

(** ** Page states *)

Lemma ppa_in_eq sp p q :
  ppa_in sp p → ppa_in sp q → same_blk p q → g_pg p = g_pg q → p = q.
Proof.
  intros [_ _ Hp _ _ Hr] [_ _ Hp' _ _ Hr'] (H1 & H2 & H3 & H4) H5.
  destruct p, q; simpl in *; congruence.
Qed.

Lemma same_blk_in sp p q :
  ppa_in sp p → ppa_in sp q →
  same_blk p q ↔ g_ch p = g_ch q ∧ g_lun p = g_lun q ∧ g_blk p = g_blk q.
Proof. intros [] []. unfold same_blk. naive_solver congruence. Qed.

Lemma pstatus_blk s p :
  pstatus s p = get_blk s p ≫= λ b, pg_status <$> aget (blk_pg b) (g_pg p).
Proof. unfold pstatus, get_pg. by destruct (get_blk s p). Qed.

Lemma pstatus_same_nand s s' p : same_nand s s' → pstatus s' p = pstatus s p.
Proof. intros [_ H]. rewrite !pstatus_blk. by rewrite H. Qed.

Lemma pstatus_some sp s p :
  nand_ok sp s → ppa_in sp p →
  ∃ st, pstatus s p = Some st ∧ (st = PG_FREE ∨ st = PG_INVALID ∨ st = PG_VALID).
Proof.
  intros Hn Hp. destruct (Hn p Hp) as (b & Hb & Hok). rewrite pstatus_blk, Hb. simpl.
  destruct (aget_some (blk_pg b) (g_pg p)) as [pg Hpg].
  { rewrite (bk_len _ _ Hok). apply Hp. }
  rewrite Hpg. exists (pg_status pg). split; [done|]. by apply (bk_pages _ _ Hok _ _ Hpg).
Qed.

(** One page of one block changes its state. *)
Definition mark_pg (new i v e : Z) (p : ppa) (s : ssd) : ssd :=
  upd_blk (set_blk_counts i v e) p (upd_pg (set_pg_status new) p s).

Definition set_pg_in_blk (new : Z) (g : Z) (b : nand_block) : nand_block :=
  NandBlock (aupd (blk_pg b) g (set_pg_status new)) (blk_npgs b) (blk_ipc b) (blk_vpc b)
    (blk_erase_cnt b) (blk_wp b).

Lemma get_blk_upd_pg new p q s :
  get_blk (upd_pg (set_pg_status new) p s) q =
    if decide (same_blk p q) then set_pg_in_blk new (g_pg p) <$> get_blk s q else get_blk s q.
Proof. unfold upd_pg. apply get_blk_upd_blk. Qed.

Lemma bcnt_set new g b sp st old :
  alen (blk_pg b) = pgs_per_blk sp → pg_status <$> aget (blk_pg b) g = Some old →
  bcnt sp (set_pg_in_blk new g b) st
    = bcnt sp b st - Z.b2z (bool_decide (old = st)) + Z.b2z (bool_decide (new = st)).
Proof.
  intros Hlen Hold. unfold bcnt, set_pg_in_blk; simpl.
  assert (g ∈ seqZ 0 (pgs_per_blk sp)) as Hg.
  { apply elem_of_seqZ. destruct (aget (blk_pg b) g) eqn:E; [|done].
    apply aget_inv in E. lia. }
  rewrite (cnt_upd (λ g, bool_decide (pg_status <$> aget (blk_pg b) g = Some st)) _ _ g);
    [|apply NoDup_seqZ|done|].
  - rewrite Hold, aget_aupd, decide_True by done. destruct (aget (blk_pg b) g); [|done]. simpl.
    f_equal; [f_equal|]; f_equal; apply bool_decide_ext; naive_solver.
  - intros y Hy Hne. rewrite aget_aupd, decide_False by done. done.
Qed.

Lemma blk_ok_mark new i v e g b sp old :
  blk_ok sp b → pg_status <$> aget (blk_pg b) g = Some old →
  (new = PG_FREE ∨ new = PG_INVALID ∨ new = PG_VALID) →
  v = blk_vpc b - Z.b2z (bool_decide (old = PG_VALID)) + Z.b2z (bool_decide (new = PG_VALID)) →
  i = blk_ipc b - Z.b2z (bool_decide (old = PG_INVALID))
        + Z.b2z (bool_decide (new = PG_INVALID)) →
  blk_ok sp (set_blk_counts i v e (set_pg_in_blk new g b)).
Proof.
  intros [Hlen Hn Hpg Hv Hi] Hold Hnew -> ->. split; simpl.
  - by rewrite alen_aupd.
  - done.
  - intros g' pg. rewrite aget_aupd. case_decide; [|by apply Hpg].
    destruct (aget (blk_pg b) g') as [x|] eqn:E; intros ?; simplify_eq/=.
    split; [by apply (Hpg g')|done].
  - rewrite Hv. symmetry. by apply bcnt_set.
  - rewrite Hi. symmetry. by apply bcnt_set.
Qed.

(** The effect of [mark_pg] on the states of the device's pages. *)
Definition status_set (sp : ssdparams) (p : ppa) (new : Z) (s s' : ssd) : Prop :=
  ∀ q, ppa_in sp q → pstatus s' q = if decide (q = p) then Some new else pstatus s q.

Lemma mark_pg_spec sp s p b new old i v e :
  nand_ok sp s → ppa_in sp p → get_blk s p = Some b → pstatus s p = Some old →
  (new = PG_FREE ∨ new = PG_INVALID ∨ new = PG_VALID) →
  v = blk_vpc b - Z.b2z (bool_decide (old = PG_VALID)) + Z.b2z (bool_decide (new = PG_VALID)) →
  i = blk_ipc b - Z.b2z (bool_decide (old = PG_INVALID))
        + Z.b2z (bool_decide (new = PG_INVALID)) →
  nand_ok sp (mark_pg new i v e p s) ∧ status_set sp p new s (mark_pg new i v e p s).
Proof.
  intros Hn Hp Hb Hold Hnew Hv Hi.
  rewrite pstatus_blk, Hb in Hold. simpl in Hold.
  assert (∀ q, get_blk (mark_pg new i v e p s) q =
    if decide (same_blk p q)
    then (λ b, set_blk_counts i v e (set_pg_in_blk new (g_pg p) b)) <$> get_blk s q
    else get_blk s q) as Hget.
  { intros q. unfold mark_pg. rewrite get_blk_upd_blk, get_blk_upd_pg.
    destruct (decide (same_blk p q)), (get_blk s q); done. }
  assert (∀ q, ppa_in sp q → same_blk p q → get_blk s q = Some b) as Hsame.
  { intros q Hq (H1 & H2 & H3 & H4). rewrite <- Hb. unfold get_blk, get_pl, get_lun, get_ch.
    by rewrite H1, H2, H3, H4. }
  split.
  - intros q Hq. rewrite Hget. destruct (decide (same_blk p q)) as [Hs|Hs]; [|by apply Hn].
    rewrite (Hsame q Hq Hs). simpl. eexists. split; [done|].
    destruct (Hn p Hp) as (b' & Hb' & Hok). assert (b' = b) as -> by congruence.
    by eapply blk_ok_mark.
  - intros q Hq. rewrite !pstatus_blk, Hget. destruct (decide (same_blk p q)) as [Hs|Hs].
    + rewrite (Hsame q Hq Hs). simpl. rewrite aget_aupd.
      destruct (decide (g_pg p = g_pg q)) as [Hg|Hg].
      * assert (q = p) as -> by (symmetry; by eapply ppa_in_eq).
        rewrite decide_True by done. destruct (aget (blk_pg b) (g_pg p)); [done|]. done.
      * rewrite decide_False by (intros ->; done). done.
    + rewrite decide_False; [done|]. intros ->. by apply Hs.
Qed.

(** How the line counters follow. *)
Lemma lcnt_set sp s s' p new old l st :
  sp_ok sp → 0 ≤ l < blks_per_pl sp → ppa_in sp p → pstatus s p = Some old →
  status_set sp p new s s' →
  lcnt sp s' l st = if decide (g_blk p = l)
    then lcnt sp s l st - Z.b2z (bool_decide (old = st)) + Z.b2z (bool_decide (new = st))
    else lcnt sp s l st.
Proof.
  intros Hsp Hl Hp Hold Hset. unfold lcnt.
  assert (∀ q, q ∈ lpages sp l → ppa_in sp q) as Hin
    by (intros q Hq; by apply (elem_of_lpages sp Hsp) in Hq as [??]).
  case_decide as Hpl.
  - rewrite (cnt_upd (isst s st) _ _ p).
    + unfold isst. rewrite Hold, (Hset p Hp), decide_True by done.
      f_equal; [f_equal|]; f_equal; apply bool_decide_ext; naive_solver.
    + apply NoDup_lpages.
    + by apply elem_of_lpages.
    + intros q Hq Hne. unfold isst. by rewrite (Hset q (Hin q Hq)), decide_False.
  - apply cnt_ext. intros q Hq. unfold isst. rewrite (Hset q (Hin q Hq)), decide_False; [done|].
    intros ->. apply (elem_of_lpages sp Hsp) in Hq as [_ ?]; done.
Qed.

Lemma lcnt_range sp s l st : sp_ok sp → 0 ≤ lcnt sp s l st ≤ pgs_per_line sp.
Proof. intros Hsp. rewrite <- (length_lpages sp Hsp l). apply cnt_bounds. Qed.

(** A line has a page in state [st] when its counter is positive and conversely. *)
Lemma lcnt_pos sp s l st p :
  sp_ok sp → ppa_in sp p → g_blk p = l → pstatus s p = Some st → 0 < lcnt sp s l st.
Proof.
  intros Hsp Hp <- Hst. eapply cnt_pos.
  - apply elem_of_lpages; [done|apply Hp|]. by split.
  - by apply bool_decide_true.
Qed.

Lemma lcnt_full sp s l st p :
  sp_ok sp → lcnt sp s l st = pgs_per_line sp → ppa_in sp p → g_blk p = l →
  pstatus s p = Some st.
Proof.
  intros Hsp Hc Hp <-. apply (bool_decide_eq_true (pstatus s p = Some st)).
  eapply (cnt_full (isst s st)); [by rewrite (length_lpages sp Hsp)|].
  apply elem_of_lpages; [done|apply Hp|]. by split.
Qed.

Lemma lcnt_all sp s l st :
  sp_ok sp → 0 ≤ l < blks_per_pl sp →
  (∀ p, ppa_in sp p → g_blk p = l → pstatus s p = Some st) → lcnt sp s l st = pgs_per_line sp.
Proof.
  intros Hsp Hl H. unfold lcnt. rewrite cnt_all; [apply (length_lpages sp Hsp)|].
  intros p Hp. apply (elem_of_lpages sp Hsp) in Hp as [Hp Hb]; [|done].
  apply bool_decide_true. by apply H.
Qed.

(** With no free page the valid and the invalid ones make up the line. *)
Lemma lcnt_no_free sp s l :
  sp_ok sp → nand_ok sp s → 0 ≤ l < blks_per_pl sp →
  (∀ p, ppa_in sp p → g_blk p = l → pstatus s p ≠ Some PG_FREE) →
  lcnt sp s l PG_VALID + lcnt sp s l PG_INVALID = pgs_per_line sp.
Proof.
  intros Hsp Hn Hl Hnf. rewrite <- (length_lpages sp Hsp l). unfold lcnt.
  assert (∀ p, p ∈ lpages sp l → isst s PG_VALID p = negb (isst s PG_INVALID p)) as H.
  { intros p Hp%(elem_of_lpages sp Hsp); [|done]. destruct Hp as [Hp Hb].
    specialize (Hnf p Hp Hb). destruct (pstatus_some sp s p Hn Hp) as (st & Hst & Hcase).
    unfold isst. rewrite Hst in *. unfold PG_FREE, PG_INVALID, PG_VALID in *.
    destruct Hcase as [-> | [-> | ->]]; done. }
  induction (lpages sp l) as [|p L IH]; [done|]. cbn [cnt].
  rewrite (H p) by set_solver. rewrite length_cons, Nat2Z.inj_succ, <- IH.
  - destruct (isst s PG_INVALID p); simpl; lia.
  - intros q Hq. apply H. set_solver.
Qed.

(** ** The victim queue over the lines *)

Definition pri_ok (p : Z) : Prop := 0 ≤ p < 2 ^ 31.

Lemma line_cell_poke s l l' g :
  line_cell (line_poke s l g) l' = if decide (l = l') then g (line_cell s l') else line_cell s l'.
Proof.
  unfold line_cell, line_poke; simpl. case_decide as H.
  - subst. by rewrite lookup_insert_eq.
  - by rewrite lookup_insert_ne.
Qed.

#[export] Instance line_pq_laws : PqLaws (arr fdp_line) Z pri_ok.
Proof.
  split; simpl; unfold victim_line_cmp_pri, victim_line_get_pri, victim_line_set_pri,
    victim_line_get_pos, victim_line_set_pos.
  - intros a b c. rewrite !Z.ltb_ge. lia.
  - intros a b. rewrite Z.ltb_lt, Z.ltb_ge. lia.
  - intros s e e' p. rewrite line_cell_poke. by case_decide.
  - intros s e e' p. rewrite line_cell_poke. by case_decide.
  - intros s e e' p Hp. rewrite line_cell_poke. case_decide; [|done]. simpl.
    unfold pri_ok in Hp. rewrite s32_small, u64_small; lia.
  - intros s e e' p. rewrite line_cell_poke. by case_decide.
Qed.

Lemma aget_line_cell s l x : aget s l = Some x → line_cell s l = x.
Proof. unfold aget, line_cell. destruct (in_range _ _); [|done]. by intros [= <-]. Qed.

Lemma aget_line_poke s l l' g :
  aget (line_poke s l g) l' = if decide (l = l') then g <$> aget s l' else aget s l'.
Proof.
  unfold aget, line_poke; simpl. destruct (in_range (alen s) l'); [|by case_decide].
  case_decide as H.
  - subst. by rewrite lookup_insert_eq.
  - by rewrite lookup_insert_ne.
Qed.

(** Two line arrays that differ in heap positions only. *)
Definition same_but_pos (s s' : arr fdp_line) : Prop :=
  alen s' = alen s ∧
  ∀ l x', aget s' l = Some x' → ∃ x, aget s l = Some x ∧ x' = set_ln_pos (ln_pos x') x.

Lemma same_but_pos_refl s : same_but_pos s s.
Proof. split; [done|]. intros l x Hx. exists x. split; [done|]. by destruct x. Qed.
Lemma same_but_pos_trans s1 s2 s3 :
  same_but_pos s1 s2 → same_but_pos s2 s3 → same_but_pos s1 s3.
Proof.
  intros [Ha H1] [Hb H2]. split; [congruence|]. intros l x3 Hx3.
  destruct (H2 l x3 Hx3) as (x2 & Hx2 & E2). destruct (H1 l x2 Hx2) as (x1 & Hx1 & E1).
  exists x1. split; [done|]. rewrite E2, E1. done.
Qed.

Lemma repositioned_lines (P : Z → Prop) s s' :
  repositioned (St := arr fdp_line) P s s' → same_but_pos s s'.
Proof.
  induction 1 as [s|s1 s2 s3 (e & p & _ & ->) _ IH]; [apply same_but_pos_refl|].
  eapply same_but_pos_trans; [|done]. split; [done|]. intros l x'. simpl.
  unfold victim_line_set_pos. rewrite aget_line_poke. case_decide.
  - destruct (aget s1 l) as [x|]; intros ?; simplify_eq/=. by exists x.
  - intros Hx'. exists x'. split; [done|]. by destruct x'.
Qed.

(** The other direction, for a given line. *)
Lemma same_but_pos_get s s' l x :
  same_but_pos s s' → aget s l = Some x → ∃ pos, aget s' l = Some (set_ln_pos pos x).
Proof.
  intros [Hl H] Hx. destruct (aget_some s' l) as [x' Hx'].
  { rewrite Hl. by eapply aget_inv. }
  destruct (H l x' Hx') as (y & Hy & E). assert (y = x) as -> by congruence.
  exists (ln_pos x'). by rewrite <- E.
Qed.

Lemma getpos_line s l x : aget s l = Some x → pq_getpos s l = ln_pos x.
Proof. intros Hx. simpl. unfold victim_line_get_pos. by rewrite (aget_line_cell s l x). Qed.

#[export] Instance member_dec (q : pqueue Z) l : Decision (member q l).
Proof.
  destruct (decide (l ∈ pq_elems q)) as [H|H]; rewrite elem_of_pq_elems in H;
    [by apply Specif.left|by apply Specif.right].
Defined.

Lemma pmem_range q l : 0 ≤ pmem q l ≤ 1.
Proof. unfold pmem. by destruct (bool_decide _). Qed.
Lemma pmem_member q l : pmem q l = 1 ↔ member q l.
Proof.
  unfold pmem. rewrite <- elem_of_pq_elems. destruct (decide (l ∈ pq_elems q)) as [H|H].
  - by rewrite bool_decide_true.
  - by rewrite bool_decide_false.
Qed.
Lemma pmem_not_member q l : pmem q l = 0 ↔ ¬ member q l.
Proof. rewrite <- pmem_member. pose proof (pmem_range q l). lia. Qed.

(** Membership after an insertion and after a removal. *)
Lemma pmem_insert q q' e l :
  (∀ x, member q' x ↔ x = e ∨ member q x) → ¬ member q e →
  pmem q' l = pmem q l + Z.b2z (l =? e).
Proof.
  intros H He. destruct (Z.eqb_spec l e) as [->|Hl].
  - apply pmem_not_member in He as ->. apply pmem_member, H. by left.
  - destruct (decide (member q l)) as [Hm|Hm].
    + rewrite (proj2 (pmem_member q l) Hm). apply pmem_member, H. by right.
    + rewrite (proj2 (pmem_not_member q l) Hm). apply pmem_not_member. rewrite H. naive_solver.
Qed.
Lemma pmem_remove q q' e l :
  (∀ x, member q' x ↔ member q x ∧ x ≠ e) → member q e →
  pmem q' l = pmem q l - Z.b2z (l =? e).
Proof.
  intros H He. destruct (Z.eqb_spec l e) as [->|Hl].
  - apply pmem_member in He as ->. apply pmem_not_member. rewrite H. naive_solver.
  - destruct (decide (member q l)) as [Hm|Hm].
    + rewrite (proj2 (pmem_member q l) Hm). apply pmem_member, H. done.
    + rewrite (proj2 (pmem_not_member q l) Hm). apply pmem_not_member. rewrite H. naive_solver.
Qed.
Lemma pmem_ext q q' l : (member q' l ↔ member q l) → pmem q' l = pmem q l.
Proof.
  intros H. destruct (decide (member q l)) as [Hm|Hm].
  - rewrite (proj2 (pmem_member q l) Hm). by apply pmem_member, H.
  - rewrite (proj2 (pmem_not_member q l) Hm). apply pmem_not_member. by rewrite H.
Qed.

(** ** Changes to the line array behind the queue *)

Lemma repositioned_line_pos (P : Z → Prop) s s' l x x' :
  repositioned (St := arr fdp_line) P s s' → ¬ P l →
  aget s l = Some x → aget s' l = Some x' → ln_pos x' = ln_pos x.
Proof.
  intros Hr Hl Hx Hx'. rewrite <- (getpos_line s' l x' Hx'), <- (getpos_line s l x Hx).
  by eapply repositioned_pos.
Qed.

Lemma lists_pos_intro (q : pqueue Z) (lines : arr fdp_line) :
  pq_wf q lines → (∀ l x, aget lines l = Some x → ¬ member q l → ln_pos x = 0) →
  ∀ l x, aget lines l = Some x → (ln_pos x = 0 ↔ ¬ member q l).
Proof.
  intros Hwf Hp l x Hx. split; [|by apply Hp]. intros H0 Hm.
  destruct (wf_member _ _ _ Hwf Hm) as [Hk _]. rewrite (getpos_line _ _ _ Hx) in Hk. lia.
Qed.

(** An update of one line that keeps its position and its valid count. *)
Lemma pq_wf_line_upd q lines l g :
  pq_wf q lines → (∀ x, ln_pos (g x) = ln_pos x) → (∀ x, ln_vpc (g x) = ln_vpc x) →
  pq_wf q (aupd lines l g).
Proof.
  intros Hwf Hp Hv. eapply pq_wf_ext; [done| |]; intros e; simpl;
    unfold victim_line_get_pos, victim_line_get_pri, aupd;
    (destruct (aget lines l) as [x|] eqn:Hx; [|done]);
    unfold aset; (destruct (in_range (alen lines) l); [|done]); unfold line_cell; simpl;
    (destruct (decide (l = e)) as [->|Hne];
      [rewrite lookup_insert_eq|by rewrite lookup_insert_ne]); simpl;
    apply aget_line_cell in Hx; unfold line_cell in Hx; subst x; by rewrite ?Hp, ?Hv.
Qed.

(** An update of a line outside the queue. *)
Lemma pq_wf_line_upd_out q lines l g :
  pq_wf q lines → ¬ member q l → pq_wf q (aupd lines l g).
Proof.
  intros Hwf Hl. eapply pq_wf_ext_member; [done| |]; intros e He; simpl;
    unfold victim_line_get_pos, victim_line_get_pri, aupd;
    (destruct (aget lines l) as [x|] eqn:Hx; [|done]);
    unfold aset; (destruct (in_range (alen lines) l); [|done]); unfold line_cell; simpl;
    by rewrite lookup_insert_ne by congruence.
Qed.
End handles.
