(* ===== verification/FdpOps.v ===== *)
(** * The basic operations keep the invariant

    Marking pages valid and invalid, updating the two maps, and moving a write
    pointer on; the composites [write_page] and [gc_write_page] are built from
    these. *)

From stdpp Require Import base numbers list gmap relations.
From S2P Require Import Prelude Config Pqueue ChannelModel Ssd Nvme FdpLog FdpFtl FdpGeom FdpInv.

#[local] Open Scope Z_scope.

Section handles.
Context `{NH : !Handles}.

(** ** Rules for the accesses to the state *)

Section access.
Implicit Types (f : fdp_ftl) (sh : shared).

Lemma wp_get_ftl f sh Q : Q f (f, sh) → wp get_ftl (f, sh) Q.
Proof. done. Qed.
Lemma wp_spp f sh Q : Q (fsp f) (f, sh) → wp spp (f, sh) Q.
Proof. done. Qed.
Lemma wp_mod_ftl g f sh Q : Q tt (g f, sh) → wp (mod_ftl g) (f, sh) Q.
Proof. done. Qed.
Lemma wp_mod_lm g f sh Q : Q tt (set_lm (g (ftl_lm f)) f, sh) → wp (mod_lm g) (f, sh) Q.
Proof. done. Qed.
Lemma wp_mod_ssd g f sh Q : Q tt (set_ssd (g (ftl_ssd f)) f, sh) → wp (mod_ssd g) (f, sh) Q.
Proof. done. Qed.
Lemma wp_mod_ctx g f sh Q :
  Q tt (f, Shared (sh_env sh) (g (fst (sh_ctx sh)), snd (sh_ctx sh)) (sh_ops sh)) →
  wp (mod_ctx g) (f, sh) Q.
Proof. done. Qed.

Lemma wp_line_get l x f sh Q :
  aget (lm_lines (ftl_lm f)) l = Some x → Q x (f, sh) → wp (line_get l) (f, sh) Q.
Proof. intros Hx HQ. unfold line_get. wp_step. apply wp_get_ftl. by eapply wp_aread. Qed.

Lemma wp_line_upd l g x f sh Q :
  aget (lm_lines (ftl_lm f)) l = Some x →
  Q tt (set_lm (set_lines (aupd (lm_lines (ftl_lm f)) l g) (ftl_lm f)) f, sh) →
  wp (line_upd l g) (f, sh) Q.
Proof.
  intros Hx HQ. unfold line_upd. wp_step. eapply wp_line_get; [done|]. apply wp_mod_lm.
  unfold aupd in HQ. by rewrite Hx in HQ.
Qed.

Lemma wp_on_pq {A} (m : M (pqst (arr fdp_line) Z) A) f sh Q :
  wp m (lm_victim_line_pq (ftl_lm f), lm_lines (ftl_lm f)) (λ a t,
    Q a (set_lm (set_pq (fst t) (set_lines (snd t) (ftl_lm f))) f, sh)) →
  wp (on_pq m) (f, sh) Q.
Proof. intros H. unfold on_pq. by apply wp_zoom. Qed.
End access.

End handles.

(** One step through the accesses above. *)
Ltac f_step :=
  first [ wp_step | apply wp_get_ftl | apply wp_spp | apply wp_mod_ssd | apply wp_mod_lm
        | apply wp_mod_ctx | apply wp_mod_ftl ]; cbv beta iota zeta.

(** Writes the partition of a goal in another (convertible) way. *)
Ltac at_state x :=
  match goal with |- wp ?m (_, ?sh) ?Q => change (wp m (x, sh) Q) end.

(** Two different states of one page. *)
Ltac status_ne := unfold PG_FREE, PG_INVALID, PG_VALID in *; congruence.

Section handles.
Context `{NH : !Handles}.

(** ** Timing is indifferent to the NAND contents *)

Lemma timing_ok_upd_blk g p s e : timing_ok (s, e) → timing_ok (upd_blk g p s, e).
Proof.
  intros [H1 H2 H3 H4 H5]; simpl in *. split; simpl; [done| | | |done].
  - by rewrite alen_aupd.
  - intros c ch Hc. rewrite aget_aupd in Hc. case_decide; [|by apply (H3 c)].
    destruct (aget (ssd_ch s) c) as [c0|] eqn:Ec; simplify_eq/=. rewrite alen_aupd. by apply (H3 (g_ch p)).
  - intros q l Hl. pose proof (get_lun_upd_blk g p q s) as Hg. rewrite Hl in Hg.
    destruct (get_lun s q) as [l0|] eqn:E; simplify_eq/=. rewrite Hg. by apply (H4 q).
Qed.

Lemma timing_ok_mark_pg new i v e p s env : timing_ok (s, env) → timing_ok (mark_pg new i v e p s, env).
Proof. intros H. by do 2 apply timing_ok_upd_blk. Qed.

(** ** Line counters after a page changes state *)

Lemma lines_ok_mark sp s s' v lines lines' p new old :
  sp_ok sp → lines_ok sp s v lines → ppa_in sp p → pstatus s p = Some old →
  status_set sp p new s s' → alen lines' = alen lines →
  (∀ l x', aget lines' l = Some x' → ∃ x, aget lines l = Some x ∧ ln_id x' = ln_id x ∧
     ln_vpc x' = ln_vpc x + (if decide (g_blk p = l)
                             then Z.b2z (bool_decide (new = PG_VALID))
                                  - Z.b2z (bool_decide (old = PG_VALID)) else 0) ∧
     ln_ipc x' = ln_ipc x + (if decide (g_blk p = l)
                             then Z.b2z (bool_decide (new = PG_INVALID))
                                  - Z.b2z (bool_decide (old = PG_INVALID)) else 0)) →
  lines_ok sp s' v lines'.
Proof.
  intros Hsp [Hlen Hid Hcnt] Hp Hold Hset Hlen' H. split; [congruence| |].
  - intros l x' Hx'. destruct (H l x' Hx') as (x & Hx & Heq & _). rewrite Heq. by apply Hid.
  - intros l x' Hx' Hv. destruct (H l x' Hx') as (x & Hx & _ & Hvp & Hip).
    destruct (Hcnt l x Hx Hv) as [E1 E2]. pose proof (aget_inv _ _ _ Hx) as Hl. rewrite Hlen in Hl.
    rewrite !(lcnt_set sp s s' p new old l) by done. rewrite Hvp, Hip, E1, E2.
    destruct (decide (g_blk p = l)); lia.
Qed.

(** ** Where a line is *)

Section places.
Context (T : Z) (v : option Z) (ocnt : Z → Z) (m : fdp_line_mgmt).
Hypothesis (Hls : lists_ok T v ocnt m) (Ho : ∀ l, 0 ≤ ocnt l).

(** A line of the device is in exactly one place. *)
Definition at_place (l o_free o_pq o_full o_open : Z) (tr : bool) : Prop :=
  occ l (lm_free_line_list m) = o_free ∧ pmem (lm_victim_line_pq m) l = o_pq ∧
  occ l (lm_full_line_list m) = o_full ∧ ocnt l = o_open ∧ bool_decide (v = Some l) = tr.

Lemma part_cases l :
  0 ≤ l < T →
  at_place l 1 0 0 0 false ∨ at_place l 0 1 0 0 false ∨ at_place l 0 0 1 0 false ∨
  at_place l 0 0 0 1 false ∨ at_place l 0 0 0 0 true.
Proof using Hls Ho.
  intros Hl. pose proof (ls_part _ _ _ _ Hls l) as H.
  rewrite (proj2 (in_range_true _ _) Hl) in H. simpl in H. unfold at_place.
  pose proof (occ_nonneg l (lm_free_line_list m)). pose proof (occ_nonneg l (lm_full_line_list m)).
  pose proof (pmem_range (lm_victim_line_pq m) l). specialize (Ho l).
  destruct (bool_decide (v = Some l)); simpl in H.
  - do 4 right. split_and!; lia || done.
  - assert (∀ a b c d, 0 ≤ a → 0 ≤ b → 0 ≤ c → 0 ≤ d → a + b + c + d = 1 →
      (a = 1 ∧ b = 0 ∧ c = 0 ∧ d = 0) ∨ (a = 0 ∧ b = 1 ∧ c = 0 ∧ d = 0) ∨
      (a = 0 ∧ b = 0 ∧ c = 1 ∧ d = 0) ∨ (a = 0 ∧ b = 0 ∧ c = 0 ∧ d = 1)) as Harith by lia.
    specialize (Harith (occ l (lm_free_line_list m)) (pmem (lm_victim_line_pq m) l)
      (occ l (lm_full_line_list m)) (ocnt l)). naive_solver lia.
Qed.

Lemma part_range l :
  (l ∈ lm_free_line_list m ∨ member (lm_victim_line_pq m) l ∨ l ∈ lm_full_line_list m ∨
   0 < ocnt l ∨ v = Some l) → 0 ≤ l < T.
Proof using Hls Ho.
  intros H. pose proof (ls_part _ _ _ _ Hls l) as Hp.
  rewrite <- !occ_elem, <- pmem_member in H.
  pose proof (occ_nonneg l (lm_free_line_list m)). pose proof (occ_nonneg l (lm_full_line_list m)).
  pose proof (pmem_range (lm_victim_line_pq m) l). specialize (Ho l).
  destruct (decide (0 ≤ l < T)) as [|Hn]; [done|].
  rewrite (proj2 (in_range_false _ _) Hn) in Hp. simpl in Hp.
  destruct (decide (v = Some l)) as [Hv|Hv];
    [rewrite bool_decide_true in Hp by done|rewrite bool_decide_false in Hp by done];
    simpl in Hp; naive_solver lia.
Qed.

Lemma part_lengths :
  Z.of_nat (length (lm_free_line_list m)) ≤ Z.max 0 T ∧
  Z.of_nat (length (lm_full_line_list m)) ≤ Z.max 0 T.
Proof using Hls Ho.
  assert (∀ xs, (∀ l, occ l xs ≤ Z.b2z (in_range T l)) → Z.of_nat (length xs) ≤ Z.max 0 T) as Hlen.
  { intros xs Hxs. assert (Forall (λ x, 0 ≤ x < T) xs) as Hf.
    { apply Forall_forall. intros x Hx%occ_elem. specialize (Hxs x).
      destruct (in_range T x) eqn:E; [by apply in_range_true|]. simpl in Hxs. lia. }
    rewrite <- (zsum_occ T xs Hf).
    pose proof (zsum_bounds (λ l, occ l xs) (seqZ 0 T) 0 1) as Hb.
    rewrite length_seqZ in Hb. cut (∀ x, x ∈ seqZ 0 T → 0 ≤ occ x xs ≤ 1); [intros H; specialize (Hb H); lia|].
    intros x _. specialize (Hxs x). pose proof (occ_nonneg x xs).
    destruct (in_range T x); simpl in Hxs; lia. }
  split; apply Hlen; intros l; pose proof (ls_part _ _ _ _ Hls l) as Hp;
    pose proof (occ_nonneg l (lm_free_line_list m)); pose proof (occ_nonneg l (lm_full_line_list m));
    pose proof (pmem_range (lm_victim_line_pq m) l); specialize (Ho l);
    destruct (bool_decide (v = Some l)); simpl in Hp; lia.
Qed.
End places.

Lemma opened_nonneg f l : 0 ≤ opened f l.
Proof. apply cnt_bounds. Qed.

Lemma opened_elem f l :
  0 < opened f l ↔ ∃ w, 0 ≤ w < NR_WP ∧ wp_blk (wp_of f w) = l.
Proof.
  unfold opened. split.
  - intros H. destruct (decide (Exists (λ w, wp_blk (wp_of f w) = l) (seqZ 0 NR_WP))) as [He|He].
    + apply Exists_exists in He as (w & Hw%elem_of_seqZ & Hb). exists w. split; [lia|done].
    + rewrite cnt_none in H; [lia|]. intros w Hw. apply Z.eqb_neq. intros Heq. apply He.
      apply Exists_exists. eauto.
  - intros (w & Hw & Hb). eapply cnt_pos; [apply elem_of_seqZ|by apply Z.eqb_eq]. lia.
Qed.

(** ** What an operation leaves alone *)

(** The handles of the lines are the same. *)
Definition same_ruh (lines lines' : arr fdp_line) : Prop :=
  ∀ l x', aget lines' l = Some x' → ∃ x, aget lines l = Some x ∧ ln_ruh x' = ln_ruh x.

(** Everything but the NAND contents, the lines and their lists; the free list
    and the handles of the lines too are untouched. *)
Record keeps (f f' : fdp_ftl) : Prop := {
  kp_sp : fsp f' = fsp f;
  kp_cp : ftl_cp f' = ftl_cp f;
  kp_wfc : ftl_wfc f' = ftl_wfc f;
  kp_maptbl : ftl_maptbl f' = ftl_maptbl f;
  kp_rmap : ftl_rmap f' = ftl_rmap f;
  kp_wp_ruh : ftl_wp_ruh f' = ftl_wp_ruh f;
  kp_gc_wp : ftl_gc_wp f' = ftl_gc_wp f;
  kp_free : lm_free_line_list (ftl_lm f') = lm_free_line_list (ftl_lm f);
  kp_free_cnt : lm_free_line_cnt (ftl_lm f') = lm_free_line_cnt (ftl_lm f);
  kp_ruh : same_ruh (lm_lines (ftl_lm f)) (lm_lines (ftl_lm f'));
}.

Lemma wp_of_keeps f f' w : keeps f f' → wp_of f' w = wp_of f w.
Proof. intros []. unfold wp_of. by rewrite kp_wp_ruh0, kp_gc_wp0. Qed.

Lemma opened_ext f f' l : (∀ w, 0 ≤ w < NR_WP → wp_of f' w = wp_of f w) → opened f' l = opened f l.
Proof.
  intros H. unfold opened. apply cnt_ext. intros w Hw%elem_of_seqZ. by rewrite H by lia.
Qed.

Lemma wps_ok_frame sp s s' adv f f' :
  wps_ok sp s adv f →
  (∀ q, ppa_in sp q → pstatus s' q = Some PG_FREE ↔ pstatus s q = Some PG_FREE) →
  ftl_wp_ruh f' = ftl_wp_ruh f → ftl_gc_wp f' = ftl_gc_wp f →
  same_ruh (lm_lines (ftl_lm f)) (lm_lines (ftl_lm f')) →
  wps_ok sp s' adv f'.
Proof.
  intros [Hlen Hok Hruh] Hst Hw Hg Hl.
  assert (∀ w, wp_of f' w = wp_of f w) as Hwp by (intros w; unfold wp_of; by rewrite Hw, Hg).
  split; [by rewrite Hw| |].
  - intros w Hr. rewrite Hwp. destruct (Hok w Hr) as [H1 H2 H3 H4]. split; [done..|].
    intros p Hp Hb. rewrite Hst by done. by apply H4.
  - intros w x' Hr Hx'. rewrite Hwp in Hx'. destruct (Hl _ _ Hx') as (x & Hx & ->).
    by apply (Hruh w).
Qed.

(** ** [mark_page_invalid] *)

(** The line of a valid page, by the place it is in. *)
Lemma valid_page_line f p x :
  fbase None None f → ppa_in (fsp f) p → pstatus (ftl_ssd f) p = Some PG_VALID →
  aget (lm_lines (ftl_lm f)) (g_blk p) = Some x →
  let m := ftl_lm f in let l := g_blk p in
  0 < ln_vpc x ≤ pgs_per_line (fsp f) ∧ 0 ≤ ln_ipc x < pgs_per_line (fsp f) ∧
  occ l (lm_free_line_list m) = 0 ∧
  ((member (lm_victim_line_pq m) l ∧ ln_vpc x < pgs_per_line (fsp f) ∧ ln_pos x ≠ 0 ∧
    occ l (lm_full_line_list m) = 0) ∨
   (¬ member (lm_victim_line_pq m) l ∧ ln_vpc x = pgs_per_line (fsp f) ∧ ln_ipc x = 0 ∧
    ln_pos x = 0 ∧ occ l (lm_full_line_list m) = 1) ∨
   (¬ member (lm_victim_line_pq m) l ∧ ln_vpc x < pgs_per_line (fsp f) ∧ ln_pos x = 0 ∧
    occ l (lm_full_line_list m) = 0 ∧ 0 < opened f l)).
Proof.
  intros [Hsp Hn Hli Hls Hws Hcl] Hp Hst Hx. cbv zeta.
  pose proof (pi_blk _ _ Hp) as Hl. set (l := g_blk p) in *.
  destruct (lo_cnt _ _ _ _ Hli l x Hx ltac:(done)) as [Hv Hi].
  pose proof (lcnt_range (fsp f) (ftl_ssd f) l PG_INVALID Hsp) as Hri.
  pose proof (lcnt_range (fsp f) (ftl_ssd f) l PG_VALID Hsp) as Hrv.
  pose proof (lcnt_pos (fsp f) (ftl_ssd f) l PG_VALID p Hsp Hp eq_refl Hst) as Hpos.
  assert (lcnt (fsp f) (ftl_ssd f) l PG_VALID + lcnt (fsp f) (ftl_ssd f) l PG_INVALID
          ≤ pgs_per_line (fsp f)) as Hsum.
  { rewrite <- (length_lpages (fsp f) Hsp l). apply cnt_disjoint. intros q _ Hq.
    apply bool_decide_eq_true in Hq. apply bool_decide_false. rewrite Hq. done. }
  split; [lia|]. split; [lia|].
  destruct (part_cases _ _ _ _ Hls (opened_nonneg f) l Hl)
    as [H|[H|[H|[H|H]]]]; destruct H as (Hf & Hq & Hu & Ho & Ht).
  - (* free *) exfalso. assert (l ∈ lm_free_line_list (ftl_lm f)) as Hin by (apply occ_elem; lia).
    pose proof (co_free _ _ _ Hcl p Hp Hin). status_ne.
  - (* in the queue *) split; [done|]. left. apply pmem_member in Hq. split; [done|].
    pose proof (co_victim_ipc _ _ _ Hcl l x Hq Hx). split; [lia|]. split; [|done].
    rewrite (ls_pos _ _ _ _ Hls l x Hx). naive_solver.
  - (* full *) split; [done|]. right. left. apply pmem_not_member in Hq. split; [done|].
    assert (lcnt (fsp f) (ftl_ssd f) l PG_VALID = pgs_per_line (fsp f)) as Hfull.
    { apply lcnt_all; [done|done|]. intros q Hqi Hqb. apply (co_full _ _ _ Hcl); [done|].
      rewrite Hqb. apply occ_elem. lia. }
    split_and!; try lia. by apply (ls_pos _ _ _ _ Hls l x Hx).
  - (* open *) split; [done|]. right. right. apply pmem_not_member in Hq. split; [done|].
    assert (0 < opened f l) as Hop by lia. apply opened_elem in Hop as (w & Hw & Hb).
    destruct (ws_ok _ _ _ _ Hws w Hw) as [_ _ Hin Hfree].
    assert (pstatus (ftl_ssd f) (wp_ppa (wp_of f w)) = Some PG_FREE) as Hfr.
    { apply Hfree; [done|done|]. unfold lag. rewrite bool_decide_false by done. simpl. lia. }
    split_and!; try lia; [|by apply (ls_pos _ _ _ _ Hls l x Hx)].
    destruct (decide (ln_vpc x = pgs_per_line (fsp f))) as [E|E]; [|lia].
    rewrite Hv in E. pose proof (lcnt_full _ _ _ _ _ Hsp E Hin Hb). status_ne.
  - (* being collected *) by rewrite bool_decide_false in Ht.
Qed.

(** What happens to the lines when page [p] is invalidated. *)
Definition line_invalid (x : fdp_line) : fdp_line :=
  set_ln_vpc (ln_vpc x - 1) (set_ln_ipc (ln_ipc x + 1) x).
Definition lines_upd_at (l0 : Z) (g : fdp_line → fdp_line) (lines lines' : arr fdp_line) : Prop :=
  alen lines' = alen lines ∧
  ∀ l x', aget lines' l = Some x' → ∃ x, aget lines l = Some x ∧
    x' = set_ln_pos (ln_pos x') (if decide (l0 = l) then g x else x).

Lemma lines_upd_at_pos l0 g lines lines1 lines2 :
  lines_upd_at l0 g lines lines1 → same_but_pos lines1 lines2 → lines_upd_at l0 g lines lines2.
Proof.
  intros [Ha H1] [Hb H2]. split; [congruence|]. intros l x2 Hx2.
  destruct (H2 l x2 Hx2) as (x1 & Hx1 & E2). destruct (H1 l x1 Hx1) as (x & Hx & E1).
  exists x. split; [done|]. by rewrite E2, E1.
Qed.

Lemma lines_upd_at_aupd l0 g lines : lines_upd_at l0 g lines (aupd lines l0 g).
Proof.
  split; [apply alen_aupd|]. intros l x'. rewrite aget_aupd. case_decide.
  - destruct (aget lines l) as [x|]; intros ?; simplify_eq/=. exists x. split; [done|].
    by destruct (g x).
  - intros Hx'. exists x'. split; [done|]. by destruct x'.
Qed.

Lemma fbase_invalid f s' m' p :
  fbase None None f → ppa_in (fsp f) p → pstatus (ftl_ssd f) p = Some PG_VALID →
  ssd_sp s' = fsp f → nand_ok (fsp f) s' → status_set (fsp f) p PG_INVALID (ftl_ssd f) s' →
  lines_upd_at (g_blk p) line_invalid (lm_lines (ftl_lm f)) (lm_lines m') →
  lists_ok (blks_per_pl (fsp f)) None (opened f) m' →
  lm_free_line_list m' = lm_free_line_list (ftl_lm f) →
  (∀ l, member (lm_victim_line_pq m') l →
     member (lm_victim_line_pq (ftl_lm f)) l ∨ l = g_blk p ∧ l ∈ lm_full_line_list (ftl_lm f)) →
  (∀ l, l ∈ lm_full_line_list m' → l ∈ lm_full_line_list (ftl_lm f) ∧ l ≠ g_blk p) →
  fbase None None (set_lm m' (set_ssd s' f)).
Proof.
  intros [Hsp Hn Hli Hls Hws Hcl] Hp Hst Es Hn' Hset [Hlen Hup] Hls' Hfree Hq Hfull.
  assert (fsp (set_lm m' (set_ssd s' f)) = fsp f) as Efsp by done.
  assert (∀ q, ppa_in (fsp f) q → pstatus s' q = Some PG_FREE ↔ pstatus (ftl_ssd f) q = Some PG_FREE)
    as Hfr.
  { intros q Hqi. rewrite (Hset q Hqi). case_decide; [|done]. subst. rewrite Hst.
    split; intros; status_ne. }
  split; rewrite ?Efsp; simpl; try done.
  - eapply lines_ok_mark; try done. intros l x' Hx'. destruct (Hup l x' Hx') as (x & Hx & ->).
    exists x. split; [done|]. destruct (decide (g_blk p = l)); simpl; split_and!; lia || done.
  - eapply wps_ok_frame; [done|done|done|done|]. intros l x' Hx'. simpl in Hx'.
    destruct (Hup l x' Hx') as (x & Hx & ->). exists x. split; [done|]. by destruct (decide _).
  - split.
    + intros q Hqi. rewrite Hfree. intros Hin. rewrite Hfr by done. by apply (co_free _ _ _ Hcl).
    + intros q Hqi Hin. apply Hfull in Hin as [Hin Hne]. rewrite (Hset q Hqi).
      rewrite decide_False by congruence. by apply (co_full _ _ _ Hcl).
    + intros q Hqi Hm. rewrite Hfr by done. apply Hq in Hm as [Hm|[Heq Hin]].
      * by apply (co_victim _ _ _ Hcl).
      * intros Hq0. pose proof (co_full _ _ _ Hcl q Hqi Hin). status_ne.
    + intros l x' Hm Hx'. destruct (Hup l x' Hx') as (x & Hx & ->).
      destruct (decide (g_blk p = l)) as [Heq|Hne]; simpl.
      * subst l. destruct (lo_cnt _ _ _ _ Hli _ x Hx ltac:(done)) as [_ ->].
        pose proof (lcnt_range (fsp f) (ftl_ssd f) (g_blk p) PG_INVALID Hsp). lia.
      * apply Hq in Hm as [Hm|[-> _]]; [|done]. by eapply (co_victim_ipc _ _ _ Hcl).
Qed.

(** The bounds that the block's assertions test. *)
Lemma blk_counts sp b g st :
  sp_ok sp → blk_ok sp b → pg_status <$> aget (blk_pg b) g = Some st →
  0 ≤ blk_vpc b ≤ pgs_per_blk sp ∧ 0 ≤ blk_ipc b ≤ pgs_per_blk sp ∧
  (st = PG_VALID → 0 < blk_vpc b) ∧ (st ≠ PG_VALID → blk_vpc b < pgs_per_blk sp) ∧
  (st ≠ PG_INVALID → blk_ipc b < pgs_per_blk sp).
Proof.
  intros Hsp [Hlen Hnp Hpg Hv Hi] Hst. pose proof (so_ppb _ Hsp) as Hppb.
  assert (g ∈ seqZ 0 (pgs_per_blk sp)) as Hg.
  { apply elem_of_seqZ. destruct (aget (blk_pg b) g) eqn:E; [|done]. apply aget_inv in E. lia. }
  assert (Z.of_nat (length (seqZ 0 (pgs_per_blk sp))) = pgs_per_blk sp) as HL
    by (rewrite length_seqZ; lia).
  assert (∀ x, 0 ≤ bcnt sp b x ≤ pgs_per_blk sp ∧ (st = x → 0 < bcnt sp b x) ∧
    (st ≠ x → bcnt sp b x < pgs_per_blk sp)) as H.
  { intros x. unfold bcnt. set (P := λ g, bool_decide (pg_status <$> aget (blk_pg b) g = Some x)).
    pose proof (cnt_bounds P (seqZ 0 (pgs_per_blk sp))) as Hb. rewrite HL in Hb.
    split; [done|]. split.
    - intros ->. eapply cnt_pos; [done|]. by apply bool_decide_true.
    - intros Hne. destruct (decide (cnt P (seqZ 0 (pgs_per_blk sp)) = pgs_per_blk sp)) as [E|]; [|lia].
      pose proof (cnt_full P _ g (eq_trans E (eq_sym HL)) Hg) as Hf.
      apply bool_decide_eq_true in Hf. congruence. }
  rewrite Hv, Hi. pose proof (H PG_VALID) as (H1 & H2 & H3). pose proof (H PG_INVALID) as (H4 & H5 & H6).
  tauto.
Qed.

Lemma pstatus_inv s p st : pstatus s p = Some st → ∃ pg, get_pg s p = Some pg ∧ pg_status pg = st.
Proof. unfold pstatus. destruct (get_pg s p) as [pg|]; [|done]. intros [= <-]. eauto. Qed.

(** The state after the NAND part of a marking. *)
Definition nand_effect (p : ppa) (new : Z) (s s' : ssd) : Prop :=
  ssd_sp s' = ssd_sp s ∧ nand_ok (ssd_sp s) s' ∧ status_set (ssd_sp s) p new s s' ∧
  ∀ e, timing_ok (s, e) → timing_ok (s', e).

Lemma get_blk_after_pg new p s b :
  get_blk s p = Some b →
  get_blk (upd_pg (set_pg_status new) p s) p = Some (set_pg_in_blk new (g_pg p) b).
Proof. intros Hb. rewrite get_blk_upd_pg, decide_True, Hb by done. done. Qed.

Lemma list_del_id l xs : occ l xs = 0 → list_del l xs = xs.
Proof.
  induction xs as [|y xs IH]; [done|]. rewrite occ_cons. intros H.
  pose proof (occ_nonneg l xs). unfold list_del. rewrite filter_cons.
  destruct (Z.eqb_spec l y) as [->|Hne]; simpl in H; [lia|].
  rewrite decide_True by done. f_equal. apply IH. lia.
Qed.

(** A line outside the queue finds room in it. *)
Lemma pq_room T v ocnt m l :
  lists_ok T v ocnt m → (∀ l, 0 ≤ ocnt l) → 0 ≤ l < T → ¬ member (lm_victim_line_pq m) l →
  q_size (lm_victim_line_pq m) < q_avail (lm_victim_line_pq m).
Proof.
  intros Hls Ho Hl Hm. rewrite (ls_avail _ _ _ _ Hls).
  set (q := lm_victim_line_pq m) in *. pose proof (ls_pq _ _ _ _ Hls) as Hwf. fold q in Hwf.
  assert (NoDup (l :: pq_elems q)) as Hnd.
  { constructor; [by rewrite elem_of_pq_elems|]. by eapply NoDup_pq_elems. }
  assert (l :: pq_elems q ⊆+ seqZ 0 T) as Hsub.
  { apply NoDup_submseteq; [done|]. intros x [->|Hx]%elem_of_cons; apply elem_of_seqZ; [lia|].
    apply elem_of_pq_elems in Hx. pose proof (part_range _ _ _ _ Hls Ho x). naive_solver lia. }
  apply submseteq_length in Hsub. rewrite length_seqZ in Hsub. simpl in Hsub.
  pose proof (length_pq_elems _ _ Hwf). lia.
Qed.

(** The end of [mark_page_invalid], by the place the line is in.  [lines1] are
    the lines with the invalid count of [l] increased. *)
Definition invalid_tail (l : Z) (x : fdp_line) (ppl : Z) : M fstate unit :=
  (if negb (ln_pos x =? 0)
   then on_pq (pqueue_change_priority (ln_vpc x - 1) l)
   else line_upd l (λ x, set_ln_vpc (s32 (ln_vpc x - 1)) x)) ;;
  when (ln_vpc x =? ppl)
    (mod_lm (λ m, set_full (list_del l (lm_full_line_list m)) (u32 (lm_full_line_cnt m - 1))
                    (set_free (list_del l (lm_free_line_list m)) (lm_free_line_cnt m) m)) ;;
     on_pq (pqueue_insert l) ;;
     mod_lm (λ m, set_victim_cnt (u32 (lm_victim_line_cnt m + 1)) m)).

Record invalid_lists (T : Z) (f : fdp_ftl) (l : Z) (m' : fdp_line_mgmt) : Prop := {
  il_lines : lines_upd_at l line_invalid (lm_lines (ftl_lm f)) (lm_lines m');
  il_lists : lists_ok T None (opened f) m';
  il_free : lm_free_line_list m' = lm_free_line_list (ftl_lm f);
  il_free_cnt : lm_free_line_cnt m' = lm_free_line_cnt (ftl_lm f);
  il_pq k : member (lm_victim_line_pq m') k →
    member (lm_victim_line_pq (ftl_lm f)) k ∨ k = l ∧ k ∈ lm_full_line_list (ftl_lm f);
  il_full k : k ∈ lm_full_line_list m' → k ∈ lm_full_line_list (ftl_lm f) ∧ k ≠ l;
}.

Section invalid_tail.
Context (T : Z) (f : fdp_ftl) (l : Z) (x : fdp_line) (s' : ssd) (sh : shared) (ppl : Z).
Hypothesis (Hls : lists_ok T None (opened f) (ftl_lm f)).
Hypothesis (Hx : aget (lm_lines (ftl_lm f)) l = Some x).
Hypothesis (Hl : 0 ≤ l < T) (HT : T < 2 ^ 31).
Hypothesis (Hvpc : 0 < ln_vpc x ≤ ppl) (Hppl : ppl < 2 ^ 31).
Let lines1 := aupd (lm_lines (ftl_lm f)) l (set_ln_ipc (ln_ipc x + 1)).
Let f1 := set_lm (set_lines lines1 (ftl_lm f)) (set_ssd s' f).
Let post : unit → fstate → Prop := λ _ st,
  ∃ m', st = (set_lm m' (set_ssd s' f), sh) ∧ invalid_lists T f l m'.

Lemma lines1_get : aget lines1 l = Some (set_ln_ipc (ln_ipc x + 1) x).
Proof using Hx. unfold lines1. by rewrite aget_aupd, decide_True, Hx by done. Qed.

(** Both ways of lowering the valid count. *)
Lemma lines2_upd lines2 :
  alen lines2 = alen lines1 →
  (∀ k, aget lines2 k = if decide (l = k) then set_ln_vpc (ln_vpc x - 1) <$> aget lines1 k
                        else aget lines1 k) →
  lines_upd_at l line_invalid (lm_lines (ftl_lm f)) lines2.
Proof using Hx.
  intros Hlen Hget. split; [rewrite Hlen; apply alen_aupd|]. intros k x'. rewrite Hget.
  unfold lines1. rewrite aget_aupd. destruct (decide (l = k)) as [<-|Hne].
  - rewrite Hx. simpl. intros [= <-]. exists x. done.
  - intros Hx'. exists x'. split; [done|]. by destruct x'.
Qed.

Lemma invalid_tail_queue :
  member (lm_victim_line_pq (ftl_lm f)) l → ln_vpc x < ppl → ln_pos x ≠ 0 →
  occ l (lm_full_line_list (ftl_lm f)) = 0 →
  wp (invalid_tail l x ppl) (f1, sh) post.
Proof using All.
  intros Hm Hlt Hpos Hfull. unfold invalid_tail. rewrite (proj2 (Z.eqb_neq _ _) Hpos). simpl.
  f_step. apply wp_on_pq. unfold f1; simpl.
  destruct Hls as [Hpq Hav Hps Hpart Hfc Hvc Hflc].
  set (q := lm_victim_line_pq (ftl_lm f)) in *.
  assert (pq_wf q lines1) as Hwf1 by by apply pq_wf_line_upd.
  eapply wp_mono; [apply change_priority_spec; [done|done|unfold pri_ok; lia]|].
  intros [] [q' lines'] (Hwf' & Hmem & Hrep & Hsz & Hava). simpl in *.
  f_step; bool_prop; [lia|].
  set (m' := set_pq q' (set_lines lines' (set_lines lines1 (ftl_lm f)))).
  exists m'. split; [done|].
  set (lines2 := victim_line_set_pri lines1 l (ln_vpc x - 1)) in *.
  assert (lines_upd_at l line_invalid (lm_lines (ftl_lm f)) lines2) as Hup2.
  { apply lines2_upd; [done|]. intros k. unfold lines2, victim_line_set_pri.
    rewrite aget_line_poke, s32_small by lia. done. }
  pose proof (repositioned_lines _ _ _ Hrep) as Hsame.
  assert (lines_upd_at l line_invalid (lm_lines (ftl_lm f)) lines') as Hup'
    by by eapply lines_upd_at_pos.
  assert (∀ k, member q' k ↔ member q k) as Hmem' by (intros; apply Hmem).
  split; simpl; try done.
  - split; simpl; try done; [congruence| | |lia].
    + apply lists_pos_intro; [done|]. intros k xk Hk Hnm. rewrite Hmem' in Hnm.
      destruct Hsame as [_ Hsame]. destruct (Hsame k xk Hk) as (y & Hy & _).
      rewrite (repositioned_line_pos _ _ _ k y xk Hrep Hnm Hy Hk).
      destruct Hup2 as [_ Hup2]. assert (k ≠ l) as Hkl by (intros ->; done).
      unfold lines2, victim_line_set_pri in Hy. rewrite aget_line_poke, decide_False in Hy by done.
      unfold lines1 in Hy. rewrite aget_aupd, decide_False in Hy by done.
      by apply (Hps k y Hy).
    + intros k. rewrite (pmem_ext q q' k (Hmem' k)). apply Hpart.
  - intros k Hk. left. by apply Hmem'.
  - intros k Hk. split; [done|]. intros ->. apply occ_elem in Hk. lia.
Qed.

(** Outside the queue the valid count is lowered directly. *)
Let lines2 := aupd lines1 l (λ x, set_ln_vpc (s32 (ln_vpc x - 1)) x).

Lemma lines2_direct :
  lines_upd_at l line_invalid (lm_lines (ftl_lm f)) lines2 ∧
  (∀ k y, aget lines2 k = Some y → ∃ z, aget (lm_lines (ftl_lm f)) k = Some z ∧
     ln_pos y = ln_pos z).
Proof using All.
  assert (lines_upd_at l line_invalid (lm_lines (ftl_lm f)) lines2) as Hup.
  { apply lines2_upd; [apply alen_aupd|]. intros k. unfold lines2. rewrite aget_aupd.
    destruct (decide (l = k)) as [<-|]; [|done]. rewrite lines1_get. simpl.
    by rewrite s32_small by lia. }
  split; [done|]. intros k y Hy. unfold lines2 in Hy. rewrite aget_aupd in Hy.
  unfold lines1 in Hy. rewrite aget_aupd in Hy.
  destruct (aget (lm_lines (ftl_lm f)) k) as [z|]; repeat case_decide; simplify_eq/=; eauto.
Qed.

Lemma invalid_tail_open :
  ¬ member (lm_victim_line_pq (ftl_lm f)) l → ln_vpc x < ppl → ln_pos x = 0 →
  occ l (lm_full_line_list (ftl_lm f)) = 0 →
  wp (invalid_tail l x ppl) (f1, sh) post.
Proof using All.
  intros Hm Hlt Hpos Hfull. unfold invalid_tail. rewrite Hpos. simpl.
  f_step. unfold f1. eapply wp_line_upd; [apply lines1_get|]. simpl. fold lines2.
  f_step; bool_prop; [lia|].
  destruct Hls as [Hpq Hav Hps Hpart Hfc Hvc Hflc]. destruct lines2_direct as [Hup Hp2].
  assert (pq_wf (lm_victim_line_pq (ftl_lm f)) lines2) as Hwf2.
  { apply pq_wf_line_upd_out; [|done]. by apply pq_wf_line_upd. }
  exists (set_lines lines2 (set_lines lines1 (ftl_lm f))). split; [done|].
  split; simpl; try done.
  - split; simpl; try done. apply lists_pos_intro; [done|]. intros k y Hy Hnm.
    destruct (Hp2 k y Hy) as (z & Hz & ->). by apply (Hps k z Hz).
  - intros k Hk. by left.
  - intros k Hk. split; [done|]. intros ->. apply occ_elem in Hk. lia.
Qed.

Lemma invalid_tail_full :
  ¬ member (lm_victim_line_pq (ftl_lm f)) l → ln_vpc x = ppl → ln_pos x = 0 →
  occ l (lm_full_line_list (ftl_lm f)) = 1 → occ l (lm_free_line_list (ftl_lm f)) = 0 →
  wp (invalid_tail l x ppl) (f1, sh) post.
Proof using All.
  intros Hm Heq Hpos Hfull Hfree. unfold invalid_tail. rewrite Hpos, (proj2 (Z.eqb_eq _ _) Heq). simpl.
  f_step. unfold f1. eapply wp_line_upd; [apply lines1_get|]. simpl. fold lines2.
  pose proof (pq_room _ _ _ _ l Hls (opened_nonneg f) Hl Hm) as Hroom.
  pose proof Hls as Hls0.
  destruct Hls as [Hpq Hav Hps Hpart Hfc Hvc Hflc]. destruct lines2_direct as [Hup Hp2].
  set (q := lm_victim_line_pq (ftl_lm f)) in *.
  assert (pq_wf q lines2) as Hwf2.
  { apply pq_wf_line_upd_out; [|done]. by apply pq_wf_line_upd. }
  f_step. f_step. simpl. f_step. apply wp_on_pq. simpl. fold q.
  eapply wp_mono; [by apply insert_spec|]. intros r [q' lines'] [_ (Hwf' & Hmem & Hrep & Hsz & Hava)].
  simpl in *. f_step. simpl. rewrite (list_del_id l (lm_free_line_list (ftl_lm f))) by done.
  pose proof (repositioned_lines _ _ _ Hrep) as Hsame.
  pose proof (length_list_del l _ Hfull) as Hlend.
  pose proof (wf_size _ _ Hpq) as Hqs. fold q in Hqs.
  eexists. split; [done|]. split; simpl; try done.
  - by eapply lines_upd_at_pos.
  - split; simpl; try done; [congruence| | |rewrite u32_small; lia|].
    + apply lists_pos_intro; [done|]. intros k y Hy Hnm. rewrite Hmem in Hnm.
      destruct Hsame as [_ Hsame]. destruct (Hsame k y Hy) as (y2 & Hy2 & _).
      rewrite (repositioned_line_pos _ _ _ k y2 y Hrep Hnm Hy2 Hy).
      destruct (Hp2 k y2 Hy2) as (z & Hz & ->). apply (Hps k z Hz). naive_solver.
    + intros k. rewrite (pmem_insert q q' l k Hmem Hm), occ_del. rewrite <- (Hpart k).
      fold q. destruct (Z.eqb_spec k l) as [->|]; simpl; [rewrite Hfull|]; lia.
    + rewrite Hlend, u32_small; [lia|]. rewrite Hflc.
      pose proof (part_lengths _ _ _ _ Hls0 (opened_nonneg f)). lia.
  - intros k Hk. apply Hmem in Hk as [->|Hk]; [right|by left]. split; [done|].
    apply occ_elem. lia.
  - intros k Hk. apply occ_elem in Hk. rewrite occ_del in Hk.
    destruct (Z.eqb_spec k l); [lia|]. split; [by apply occ_elem|done].
Qed.
End invalid_tail.

Lemma wp_mark_page_invalid f sh p :
  fbase None None f → ppa_in (fsp f) p → pstatus (ftl_ssd f) p = Some PG_VALID →
  wp (mark_page_invalid p) (f, sh) (λ _ '(f', sh'), sh' = sh ∧ fbase None None f' ∧ keeps f f' ∧
    nand_effect p PG_INVALID (ftl_ssd f) (ftl_ssd f')).
Proof.
  intros Hfb Hp Hst. pose proof Hfb as [Hsp Hn Hli Hls Hws Hcl].
  destruct (Hn p Hp) as (b & Hb & Hbk). pose proof Hst as Hst'.
  rewrite pstatus_blk, Hb in Hst'. simpl in Hst'.
  destruct (pstatus_inv _ _ _ Hst) as (pg & Hpg & Hpgst).
  destruct (blk_counts _ _ _ _ Hsp Hbk Hst') as (Hbv & Hbi & Hbv0 & _ & Hbi1).
  specialize (Hbv0 eq_refl). specialize (Hbi1 ltac:(done)).
  pose proof (so_ppb _ Hsp) as Hppb. pose proof (ppl_pos _ Hsp) as Hppl.
  destruct (aget_some (lm_lines (ftl_lm f)) (g_blk p)) as [x Hx].
  { rewrite (lo_len _ _ _ _ Hli). apply Hp. }
  destruct (valid_page_line f p x Hfb Hp Hst Hx) as (Hxv & Hxi & Hxf & Hplace).
  unfold mark_page_invalid. f_step. f_step. f_step. f_step. f_step. eapply wp_deref; [done|].
  f_step. f_step; [by apply Z.eqb_eq|]. f_step. f_step. f_step. f_step. f_step.
  eapply wp_deref; [by apply get_blk_after_pg|]. simpl.
  f_step. f_step; [rewrite andb_true_iff, Z.leb_le, Z.ltb_lt; lia|].
  f_step. f_step; [rewrite andb_true_iff, Z.ltb_lt, Z.leb_le; lia|].
  rewrite !s32_small by lia. f_step. f_step.
  set (s' := mark_pg PG_INVALID (blk_ipc b + 1) (blk_vpc b - 1) (blk_erase_cnt b) p (ftl_ssd f)).
  at_state (set_ssd s' f).
  destruct (mark_pg_spec (fsp f) (ftl_ssd f) p b PG_INVALID PG_VALID (blk_ipc b + 1)
    (blk_vpc b - 1) (blk_erase_cnt b)) as [Hn' Hset]; try done; [by right; left|simpl; lia|simpl; lia|].
  assert (nand_effect p PG_INVALID (ftl_ssd f) s') as Heff.
  { split_and!; try done. intros e He. by apply timing_ok_mark_pg. }
  clear Hn' Hset. clearbody s'. unfold get_line. f_step. eapply wp_line_get; [done|].
  f_step. f_step; [rewrite u64_small, andb_true_iff, Z.leb_le, Z.ltb_lt; lia|].
  rewrite !u64_small by lia. set (l := g_blk p) in *.
  f_step. apply wp_mono with (λ _ st, st = (set_ssd s' f, sh)).
  { f_step; [|done]. f_step; [|done]. apply Z.eqb_eq. bool_prop. naive_solver lia. }
  intros [] st ->. f_step. eapply wp_line_upd; [done|]. f_step.
  f_step; [rewrite andb_true_iff, Z.leb_le, Z.ltb_lt; lia|].
  rewrite s32_small by lia.
  at_state (set_lm (set_lines (aupd (lm_lines (ftl_lm f)) l (set_ln_ipc (ln_ipc x + 1)))
    (ftl_lm f)) (set_ssd s' f)).
  change (wp (invalid_tail l x (pgs_per_line (fsp f)))
    (set_lm (set_lines (aupd (lm_lines (ftl_lm f)) l (set_ln_ipc (ln_ipc x + 1)))
      (ftl_lm f)) (set_ssd s' f), sh) (λ _ '(f', sh'), sh' = sh ∧ fbase None None f' ∧ keeps f f' ∧
    nand_effect p PG_INVALID (ftl_ssd f) (ftl_ssd f'))).
  assert (0 ≤ l < blks_per_pl (fsp f)) as Hl by apply Hp.
  pose proof (so_blks _ Hsp) as HT.
  eapply wp_mono with (λ _ st, ∃ m', st = (set_lm m' (set_ssd s' f), sh) ∧
    invalid_lists (blks_per_pl (fsp f)) f l m').
  - destruct Hplace as [(?&?&?&?)|[(?&?&?&?&?)|(?&?&?&?&?)]].
    + by apply invalid_tail_queue; try lia.
    + by apply invalid_tail_full; try lia.
    + by apply invalid_tail_open; try lia.
  - intros [] st (m' & -> & [H1 H2 H3 H4 H5 H6]).
    pose proof Heff as (Hs1 & Hs2 & Hs3 & _). split_and!; try done; [by eapply fbase_invalid|].
    split; try done. intros k y Hy. destruct H1 as [_ H1]. destruct (H1 k y Hy) as (z & Hz & ->).
    exists z. split; [done|]. by destruct (decide _).
Qed.

(** ** The maps *)

Section maps.
Implicit Types (f : fdp_ftl) (sh : shared) (p : ppa).

Lemma wp_ppa2pgidx p f sh Q :
  sp_ok (fsp f) → ppa_in (fsp f) p → Q (pgidx (fsp f) p) (f, sh) → wp (ppa2pgidx p) (f, sh) Q.
Proof.
  intros Hsp Hp HQ. pose proof (pgidx_range _ Hsp _ Hp) as Hr.
  pose proof (so_tt_pgs_bound _ Hsp). unfold ppa2pgidx. f_step. f_step.
  fold (pgidx (fsp f) p). rewrite u64_small by lia.
  f_step. f_step; [apply Z.ltb_lt; lia|]. by f_step.
Qed.

Lemma wp_get_rmap_ent p f sh x Q :
  sp_ok (fsp f) → ppa_in (fsp f) p → aget (ftl_rmap f) (pgidx (fsp f) p) = Some x →
  Q x (f, sh) → wp (get_rmap_ent p) (f, sh) Q.
Proof.
  intros Hsp Hp Hx HQ. unfold get_rmap_ent. f_step. apply wp_ppa2pgidx; [done..|].
  f_step. f_step. by eapply wp_aread.
Qed.

Lemma wp_set_rmap_ent lpn p f sh Q :
  sp_ok (fsp f) → ppa_in (fsp f) p → alen (ftl_rmap f) = tt_pgs (fsp f) →
  Q tt (set_rmap (aset (ftl_rmap f) (pgidx (fsp f) p) lpn) f, sh) →
  wp (set_rmap_ent lpn p) (f, sh) Q.
Proof.
  intros Hsp Hp Hlen HQ. unfold set_rmap_ent. f_step. apply wp_ppa2pgidx; [done..|].
  f_step. f_step. f_step. apply wp_awrite; [rewrite Hlen; by apply pgidx_range|]. by f_step.
Qed.

Lemma wp_set_maptbl_ent lpn p f sh Q :
  0 ≤ lpn < tt_pgs (fsp f) → alen (ftl_maptbl f) = tt_pgs (fsp f) →
  Q tt (set_maptbl (aset (ftl_maptbl f) lpn p) f, sh) →
  wp (set_maptbl_ent lpn p) (f, sh) Q.
Proof.
  intros Hl Hlen HQ. unfold set_maptbl_ent. f_step. f_step. f_step.
  f_step; [apply Z.ltb_lt; apply Hl|]. f_step. apply wp_awrite; [by rewrite Hlen|]. by f_step.
Qed.

Lemma wp_get_maptbl_ent lpn p f sh Q :
  aget (ftl_maptbl f) lpn = Some p → Q p (f, sh) → wp (get_maptbl_ent lpn) (f, sh) Q.
Proof. intros Hp HQ. unfold get_maptbl_ent. f_step. f_step. by eapply wp_aread. Qed.

Lemma mapped_ppa_unmapped : mapped_ppa (ppa_of UNMAPPED_PPA) = false.
Proof. unfold mapped_ppa. by rewrite ppa_val_of. Qed.

Lemma mapped_ppa_in sp p : sp_ok sp → ppa_in sp p → mapped_ppa p = true.
Proof.
  intros Hsp Hp. unfold mapped_ppa. by rewrite (proj2 (Z.eqb_neq _ _) (ppa_in_mapped _ _ Hsp Hp)).
Qed.

Lemma ppa_in_not_unmapped sp p : sp_ok sp → ppa_in sp p → p ≠ ppa_of UNMAPPED_PPA.
Proof. intros Hsp Hp ->. pose proof (mapped_ppa_in _ _ Hsp Hp) as H. by rewrite mapped_ppa_unmapped in H. Qed.

(** The map between the loss of the old copy of [lpn] and its new one. *)
Lemma map_ok_unmapped sp s st maptbl rmap lpn :
  sp_ok sp → map_ok sp s None st maptbl rmap → aget maptbl lpn = Some (ppa_of UNMAPPED_PPA) →
  map_ok sp s (Some lpn) st maptbl rmap.
Proof.
  intros Hsp [H1 H2 Hf Hb] Hl. split; [done..| |].
  - intros lpn' p Hp _ Hm. by apply Hf.
  - intros p Hp Hst Hns. destruct (Hb p Hp Hst Hns) as (lpn' & Hr & _ & Hm).
    exists lpn'. split_and!; [done| |done]. intros [= ->].
    apply (ppa_in_not_unmapped sp p Hsp Hp). congruence.
Qed.

Lemma map_ok_invalidated sp s s' st maptbl rmap lpn p :
  sp_ok sp → map_ok sp s None st maptbl rmap → aget maptbl lpn = Some p → ppa_in sp p →
  status_set sp p PG_INVALID s s' →
  map_ok sp s' (Some lpn) st maptbl (aset rmap (pgidx sp p) INVALID_LPN).
Proof.
  intros Hsp [H1 H2 Hf Hb] Hl Hp Hset.
  assert (∀ q, ppa_in sp q → q ≠ p → pgidx sp p ≠ pgidx sp q) as Hidx.
  { intros q Hq Hne Heq. apply Hne. symmetry. by eapply pgidx_inj. }
  split; [done|by rewrite alen_aset| |].
  - intros lpn' q Hq Hne Hm. destruct (Hf lpn' q Hq ltac:(done) Hm) as (Hqi & Hqv & Hns & Hqr).
    assert (q ≠ p) as Hqp.
    { intros ->. destruct (Hf lpn p Hl ltac:(done) Hm) as (_ & _ & _ & Hpr). congruence. }
    rewrite (Hset q Hqi), decide_False by done. rewrite aget_aset_ne by by apply Hidx. done.
  - intros q Hqi Hqv Hns. rewrite (Hset q Hqi) in Hqv. case_decide as Hqp; [status_ne|].
    destruct (Hb q Hqi Hqv Hns) as (lpn' & Hr & _ & Hm). exists lpn'.
    rewrite aget_aset_ne by by apply Hidx. split_and!; [done| |done]. congruence.
Qed.

(** The new copy is entered in both maps and its page marked valid. *)
Lemma map_ok_programmed sp s s' st maptbl rmap lpn p :
  sp_ok sp → map_ok sp s (Some lpn) st maptbl rmap → 0 ≤ lpn < tt_pgs sp → ppa_in sp p →
  pstatus s p = Some PG_FREE → ¬ st p → status_set sp p PG_VALID s s' →
  map_ok sp s' None st (aset maptbl lpn p) (aset rmap (pgidx sp p) lpn).
Proof.
  intros Hsp [H1 H2 Hf Hb] Hl Hp Hfree Hnst Hset.
  assert (∀ q, ppa_in sp q → q ≠ p → pgidx sp p ≠ pgidx sp q) as Hidx.
  { intros q Hq Hne Heq. apply Hne. symmetry. by eapply pgidx_inj. }
  assert (0 ≤ pgidx sp p < alen rmap) as Hpr by (rewrite H2; by apply pgidx_range).
  split; [by rewrite alen_aset|by rewrite alen_aset| |].
  - intros lpn' q Hq _ Hm. rewrite aget_aset in Hq by lia. case_decide as Hll.
    + injection Hq as <-. subst lpn'. rewrite (Hset p Hp), decide_True by done.
      rewrite aget_aset_eq by done. done.
    + destruct (Hf lpn' q Hq ltac:(congruence) Hm) as (Hqi & Hqv & Hns & Hqr).
      assert (q ≠ p) as Hqp by (intros ->; status_ne).
      rewrite (Hset q Hqi), decide_False by done. rewrite aget_aset_ne by by apply Hidx. done.
  - intros q Hqi Hqv Hns. rewrite (Hset q Hqi) in Hqv. case_decide as Hqp.
    + subst q. exists lpn. rewrite !aget_aset_eq by lia. done.
    + destruct (Hb q Hqi Hqv Hns) as (lpn' & Hr & Hex & Hm). exists lpn'.
      rewrite aget_aset_ne by by apply Hidx.
      rewrite aget_aset_ne by congruence. done.
Qed.
End maps.

(** The rest of the invariant does not look at the maps. *)
Lemma fbase_set_maps v adv f t r :
  fbase v adv f → fbase v adv (set_rmap r (set_maptbl t f)).
Proof. intros [H1 H2 H3 H4 [W1 W2 W3] H6]. by split; [..|split|]. Qed.
Lemma fbase_set_rmap v adv f r : fbase v adv f → fbase v adv (set_rmap r f).
Proof. intros [H1 H2 H3 H4 [W1 W2 W3] H6]. by split; [..|split|]. Qed.

(** The old copy of a logical page, if there is one, is given up. *)
Lemma wp_invalidate_old f sh X lpn p :
  finv None X None None f → aget (ftl_maptbl f) lpn = Some p →
  wp (when (mapped_ppa p) (mark_page_invalid p ;; set_rmap_ent INVALID_LPN p)) (f, sh)
    (λ _ '(f', sh'), sh' = sh ∧ finv None X (Some lpn) None f' ∧
       fsp f' = fsp f ∧ ftl_cp f' = ftl_cp f ∧ ftl_wfc f' = ftl_wfc f ∧
       ftl_maptbl f' = ftl_maptbl f ∧ (∀ w, wp_of f' w = wp_of f w) ∧
       lm_free_line_list (ftl_lm f') = lm_free_line_list (ftl_lm f) ∧
       lm_free_line_cnt (ftl_lm f') = lm_free_line_cnt (ftl_lm f) ∧
       same_ruh (lm_lines (ftl_lm f)) (lm_lines (ftl_lm f')) ∧
       ∀ e, timing_ok (ftl_ssd f, e) → timing_ok (ftl_ssd f', e)).
Proof.
  intros [Hfb Hm] Hlp. pose proof (fb_sp _ _ _ Hfb) as Hsp.
  destruct (decide (p = ppa_of UNMAPPED_PPA)) as [->|Hu].
  { rewrite mapped_ppa_unmapped. f_step; [done|]. split_and!; try done.
    - split; [done|]. by apply map_ok_unmapped.
    - intros l x Hx. by exists x. }
  destruct (mo_fwd _ _ _ _ _ _ Hm lpn p Hlp ltac:(done) Hu) as (Hpi & Hpv & Hns & Hpr).
  rewrite (mapped_ppa_in _ _ Hsp Hpi). f_step; [|done]. f_step.
  eapply wp_mono; [by apply wp_mark_page_invalid|].
  intros [] [f1 sh1] (-> & Hfb1 & Hk & (Hs1 & Hs2 & Hs3 & Ht)).
  pose proof (wp_of_keeps f f1) as Hwp. destruct Hk as [K1 K2 K3 K4 K5 K6 K7 K8 K9 K10].
  eapply wp_set_rmap_ent.
  { by rewrite K1. }
  { by rewrite K1. }
  { rewrite K1, K5. apply Hm. }
  split_and!; try done; [|intros w; by apply Hwp].
  split; [by apply fbase_set_rmap|]. unfold fsp in *. simpl. rewrite K1, K4, K5.
  eapply map_ok_invalidated; try done.
Qed.

(** ** [mark_page_valid] and the programming of a page *)

Lemma cnt_two {A} (P : A → bool) (L : list A) a b :
  NoDup L → a ∈ L → b ∈ L → a ≠ b → P a = true → P b = true → 2 ≤ cnt P L.
Proof.
  induction 1 as [|x L Hx _ IH]; [set_solver|]. intros Ha Hb Hab HPa HPb. simpl.
  apply elem_of_cons in Ha as [->|Ha], Hb as [->|Hb]; try done.
  - rewrite HPa. pose proof (cnt_pos P L b Hb HPb). simpl. lia.
  - rewrite HPb. pose proof (cnt_pos P L a Ha HPa). simpl. lia.
  - specialize (IH Ha Hb Hab HPa HPb). destruct (P x); simpl; lia.
Qed.

(** The line of a write pointer is open and nothing else, and open only once. *)
Lemma open_line v adv f w :
  fbase v adv f → 0 ≤ w < NR_WP →
  let l := wp_blk (wp_of f w) in
  0 ≤ l < blks_per_pl (fsp f) ∧ occ l (lm_free_line_list (ftl_lm f)) = 0 ∧
  ¬ member (lm_victim_line_pq (ftl_lm f)) l ∧ occ l (lm_full_line_list (ftl_lm f)) = 0 ∧
  v ≠ Some l ∧ opened f l = 1 ∧
  ∀ w', 0 ≤ w' < NR_WP → wp_blk (wp_of f w') = l → w' = w.
Proof.
  intros [Hsp Hn Hli Hls Hws Hcl] Hw l.
  pose proof (wo_in _ _ _ _ (ws_ok _ _ _ _ Hws w Hw)) as Hin.
  assert (0 ≤ l < blks_per_pl (fsp f)) as Hl by apply Hin.
  assert (0 < opened f l) as Ho by (apply opened_elem; by exists w).
  split; [done|].
  destruct (part_cases _ _ _ _ Hls (opened_nonneg f) l Hl)
    as [H|[H|[H|[H|H]]]]; destruct H as (Hf & Hq & Hu & Ho' & Ht); try lia.
  rewrite <- pmem_not_member. split_and!; try done; try lia.
  - intros ->. by rewrite bool_decide_true in Ht.
  - intros w' Hw' Hb'. destruct (decide (w' = w)) as [|Hne]; [done|]. exfalso.
    assert (2 ≤ opened f l); [|lia].
    eapply (cnt_two _ _ w' w); [apply NoDup_seqZ|apply elem_of_seqZ; lia|apply elem_of_seqZ; lia|done|..];
      by apply Z.eqb_eq.
Qed.

(** A page that a write pointer is at is marked valid. *)
Lemma fbase_valid v f s' w x :
  fbase v None f → 0 ≤ w < NR_WP →
  let p := wp_ppa (wp_of f w) in
  pstatus (ftl_ssd f) p = Some PG_FREE → nand_effect p PG_VALID (ftl_ssd f) s' →
  aget (lm_lines (ftl_lm f)) (g_blk p) = Some x →
  fbase v (Some w) (set_lm (set_lines (aupd (lm_lines (ftl_lm f)) (g_blk p)
                              (set_ln_vpc (ln_vpc x + 1))) (ftl_lm f)) (set_ssd s' f)).
Proof.
  intros Hfb Hw p Hst (Es & Hn' & Hset & _) Hx.
  pose proof (open_line _ _ _ _ Hfb Hw) as (Hl & Hof & Hoq & Hou & Hov & _ & Huniq).
  pose proof Hfb as [Hsp Hn Hli Hls Hws Hcl].
  destruct (ws_ok _ _ _ _ Hws w Hw) as [Wl Wp Win Wf]. fold p in Win, Wf.
  change (wp_blk (wp_of f w)) with (g_blk p) in *. set (l := g_blk p) in *.
  fold (fsp f) in Es, Hn', Hset.
  set (lines' := aupd _ _ _).
  assert (fsp (set_lm (set_lines lines' (ftl_lm f)) (set_ssd s' f)) = fsp f) as Efsp by done.
  split; rewrite ?Efsp; simpl; try done.
  - (* line counters *) eapply lines_ok_mark; try done; [apply alen_aupd|].
    intros k x' Hx'. unfold lines' in Hx'. rewrite aget_aupd in Hx'. case_decide as Hk.
    + subst k. rewrite Hx in Hx'. simplify_eq/=. exists x.
      rewrite !decide_True by done. split_and!; try done. lia.
    + exists x'. rewrite !decide_False by done. split_and!; done || lia.
  - (* lists *) destruct Hls as [Hpq Hav Hps Hpart Hfc Hvc Hflc]. split; simpl; try done.
    + by apply pq_wf_line_upd_out.
    + intros k y Hy. unfold lines' in Hy. rewrite aget_aupd in Hy. case_decide as Hk; [|by apply Hps].
      rewrite <- Hk, Hx in Hy. injection Hy as <-. rewrite <- Hk. by apply (Hps l x).
  - (* write pointers *) destruct Hws as [W1 W2 W3]. split; simpl; [done| |].
    + intros w' Hw'. destruct (W2 w' Hw') as [V1 V2 V3 V4]. split; [done..|].
      intros q Hq Hqb. rewrite (Hset q Hq). destruct (decide (w' = w)) as [->|Hne].
      * unfold lag. rewrite bool_decide_true by done. simpl.
        change (wp_ppa (wp_of (set_lm (set_lines lines' (ftl_lm f)) (set_ssd s' f)) w)) with p.
        case_decide as Hqp; [subst q; split; [intros; status_ne|lia]|].
        rewrite (Wf q Hq Hqb). unfold lag. rewrite bool_decide_false by done. simpl.
        assert (prank (fsp f) p ≠ prank (fsp f) q); [|lia].
        intros E. apply Hqp. symmetry. by eapply prank_inj.
      * rewrite decide_False.
        { unfold lag. rewrite (bool_decide_false (Some w = Some w')) by congruence.
          rewrite (V4 q Hq Hqb). unfold lag. rewrite bool_decide_false by done. done. }
        intros ->. apply Hne, Huniq; [done|]. exact (eq_sym Hqb).
    + intros w' x' Hw' Hx'. unfold lines' in Hx'. rewrite aget_aupd in Hx'.
      case_decide as Hk; [|by apply (W3 w')]. rewrite <- Hk, Hx in Hx'. simplify_eq/=.
      apply (W3 w'); [done|]. change (wp_of (set_lm _ _) w') with (wp_of f w') in Hk. by rewrite <- Hk.
  - (* the other lines *) destruct Hcl as [C1 C2 C3 C4].
    assert (∀ q, ppa_in (fsp f) q → g_blk q ≠ l → pstatus s' q = pstatus (ftl_ssd f) q) as Hsame.
    { intros q Hq Hne. rewrite (Hset q Hq), decide_False; [done|]. by intros ->. }
    split; simpl.
    + intros q Hq Hin. rewrite Hsame; [by apply C1|done|]. intros E. rewrite E in Hin.
      apply occ_elem in Hin. lia.
    + intros q Hq Hin. rewrite Hsame; [by apply C2|done|]. intros E. rewrite E in Hin.
      apply occ_elem in Hin. lia.
    + intros q Hq Hin. rewrite Hsame; [by apply C3|done|]. intros E. by rewrite E in Hin.
    + intros k x' Hk Hx'. unfold lines' in Hx'. rewrite aget_aupd, decide_False in Hx'; [by apply (C4 k)|].
      by intros ->.
Qed.

Lemma wp_mark_page_valid v f sh w :
  fbase v None f → 0 ≤ w < NR_WP →
  let p := wp_ppa (wp_of f w) in
  wp (mark_page_valid p) (f, sh) (λ _ '(f', sh'), sh' = sh ∧ fbase v (Some w) f' ∧ keeps f f' ∧
    pstatus (ftl_ssd f) p = Some PG_FREE ∧ ppa_in (fsp f) p ∧
    nand_effect p PG_VALID (ftl_ssd f) (ftl_ssd f')).
Proof.
  intros Hfb Hw p. pose proof (open_line _ _ _ _ Hfb Hw) as (Hl & Hof & Hoq & Hou & Hov & _ & Huniq).
  pose proof Hfb as [Hsp Hn Hli Hls Hws Hcl].
  destruct (ws_ok _ _ _ _ Hws w Hw) as [Wl Wp Win Wf]. fold p in Win, Wf.
  change (wp_blk (wp_of f w)) with (g_blk p) in *. set (l := g_blk p) in *.
  assert (pstatus (ftl_ssd f) p = Some PG_FREE) as Hst.
  { apply Wf; [done|done|]. unfold lag. rewrite bool_decide_false by done. simpl. lia. }
  destruct (Hn p Win) as (b & Hb & Hbk). pose proof Hst as Hst'.
  rewrite pstatus_blk, Hb in Hst'. simpl in Hst'.
  destruct (pstatus_inv _ _ _ Hst) as (pg & Hpg & Hpgst).
  destruct (blk_counts _ _ _ _ Hsp Hbk Hst') as (Hbv & Hbi & _ & Hbv1 & _).
  specialize (Hbv1 ltac:(done)).
  pose proof (so_ppb _ Hsp) as Hppb. pose proof (ppl_pos _ Hsp) as Hppl.
  destruct (aget_some (lm_lines (ftl_lm f)) l) as [x Hx].
  { by rewrite (lo_len _ _ _ _ Hli). }
  destruct (lo_cnt _ _ _ _ Hli l x Hx Hov) as [Hxv Hxi].
  assert (0 ≤ ln_vpc x < pgs_per_line (fsp f)) as Hvr.
  { rewrite Hxv. pose proof (lcnt_range (fsp f) (ftl_ssd f) l PG_VALID Hsp).
    destruct (decide (lcnt (fsp f) (ftl_ssd f) l PG_VALID = pgs_per_line (fsp f))) as [E|]; [|lia].
    pose proof (lcnt_full _ _ _ _ _ Hsp E Win eq_refl). status_ne. }
  unfold mark_page_valid. f_step. f_step. f_step. f_step. f_step. eapply wp_deref; [done|].
  f_step. f_step; [by apply Z.eqb_eq|]. f_step. f_step. f_step. f_step. f_step.
  eapply wp_deref; [by apply get_blk_after_pg|]. simpl.
  f_step. f_step; [rewrite andb_true_iff, Z.leb_le, Z.ltb_lt; lia|].
  rewrite !s32_small by lia. f_step. f_step.
  set (s' := mark_pg PG_VALID (blk_ipc b) (blk_vpc b + 1) (blk_erase_cnt b) p (ftl_ssd f)).
  at_state (set_ssd s' f).
  destruct (mark_pg_spec (fsp f) (ftl_ssd f) p b PG_VALID PG_FREE (blk_ipc b)
    (blk_vpc b + 1) (blk_erase_cnt b)) as [Hn' Hset]; try done; [by right; right|simpl; lia|simpl; lia|].
  fold s' in Hn', Hset.
  assert (nand_effect p PG_VALID (ftl_ssd f) s') as Heff.
  { split_and!; try done. intros e He. by apply timing_ok_mark_pg. }
  unfold get_line. fold l. f_step. eapply wp_line_get; [done|].
  f_step. f_step; [rewrite u64_small, andb_true_iff, Z.leb_le, Z.ltb_lt; lia|].
  eapply wp_line_upd; [done|]. rewrite s32_small by lia.
  split_and!; try done.
  - by apply (fbase_valid v f s' w x).
  - split; try done. intros k y. simpl. rewrite aget_aupd. case_decide; [|by exists y].
    destruct (aget _ k) as [z|]; intros ?; simplify_eq/=. by exists z.
Qed.

(** A handle the code accepts. *)
Definition wio_ok (io : io_type) (ruh : Z) : Prop := io = USER_IO → 0 ≤ ruh < NR_RUH.

Lemma wid_range io ruh : wio_ok io ruh → 0 ≤ wid io ruh < NR_WP.
Proof.
  pose proof handles_range as HR. unfold wio_ok, NR_WP. intros H. destruct io; simpl; [|lia].
  specialize (H eq_refl). lia.
Qed.

Lemma wp_get_wp io ruh sp s adv f sh Q :
  wio_ok io ruh → wps_ok sp s adv f → Q (wp_of f (wid io ruh)) (f, sh) →
  wp (get_wp io ruh) (f, sh) Q.
Proof.
  intros Hio Hws HQ. unfold get_wp. f_step. f_step. destruct io; simpl in *.
  - specialize (Hio eq_refl). f_step. f_step; [apply Z.ltb_lt; lia|].
    destruct (aget_some (ftl_wp_ruh f) ruh) as [x Hx]; [by rewrite (ws_len _ _ _ _ Hws)|].
    eapply wp_aread; [done|]. unfold wp_of in HQ.
    rewrite (proj2 (Z.eqb_neq _ _)), Hx in HQ by lia. done.
  - f_step. unfold wp_of in HQ. by rewrite Z.eqb_refl in HQ.
Qed.

(** The address of the next page is that of the write pointer. *)
Lemma wp_get_new_page io ruh sp s adv f sh Q :
  sp_ok sp → wio_ok io ruh → wps_ok sp s adv f → Q (wp_ppa (wp_of f (wid io ruh))) (f, sh) →
  wp (get_new_page io ruh) (f, sh) Q.
Proof.
  intros Hsp Hio Hws HQ. unfold get_new_page. f_step. eapply wp_get_wp; [done..|].
  set (w := wp_of f (wid io ruh)) in *.
  destruct (ws_ok _ _ _ _ Hws _ (wid_range _ _ Hio)) as [_ Hpl Hin _]. fold w in Hpl, Hin.
  assert (set_g_pl (wp_pl w) (set_g_blk (wp_blk w) (set_g_pg (wp_pg w)
             (set_g_lun (wp_lun w) (set_g_ch (wp_ch w) (ppa_of 0))))) = wp_ppa w) as Heq.
  { destruct (ppa_in_wf _ _ Hsp Hin) as [H1 H2 H3 H4 H5 H6]. simpl in *.
    unfold set_g_pl, set_g_blk, set_g_pg, set_g_lun, set_g_ch, wp_ppa; simpl.
    rewrite Hpl, !Z.mod_small by lia. done. }
  rewrite Heq. f_step. f_step; [done|]. by f_step.
Qed.

(** What the programming of a page keeps. *)
Record programmed (lpn : Z) (p : ppa) (f f' : fdp_ftl) : Prop := {
  pr_sp : fsp f' = fsp f;
  pr_cp : ftl_cp f' = ftl_cp f;
  pr_wfc : ftl_wfc f' = ftl_wfc f;
  pr_maptbl : ftl_maptbl f' = aset (ftl_maptbl f) lpn p;
  pr_wp w : wp_of f' w = wp_of f w;
  pr_free : lm_free_line_list (ftl_lm f') = lm_free_line_list (ftl_lm f);
  pr_free_cnt : lm_free_line_cnt (ftl_lm f') = lm_free_line_cnt (ftl_lm f);
  pr_timing e : timing_ok (ftl_ssd f, e) → timing_ok (ftl_ssd f', e);
  pr_status : status_set (fsp f) p PG_VALID (ftl_ssd f) (ftl_ssd f');
  pr_ruh : same_ruh (lm_lines (ftl_lm f)) (lm_lines (ftl_lm f'));
}.

Lemma wp_program {A} (rest : M fstate A) w f sh lpn v X Q :
  finv v X (Some lpn) None f → 0 ≤ w < NR_WP → 0 ≤ lpn < tt_pgs (fsp f) →
  let p := wp_ppa (wp_of f w) in
  (∀ f', finv v X None (Some w) f' → programmed lpn p f f' → wp rest (f', sh) Q) →
  wp (set_maptbl_ent lpn p ;; set_rmap_ent lpn p ;; mark_page_valid p ;; rest) (f, sh) Q.
Proof.
  intros [Hfb Hm] Hw Hl p HQ. pose proof (fb_sp _ _ _ Hfb) as Hsp.
  pose proof (wo_in _ _ _ _ (ws_ok _ _ _ _ (fb_wps _ _ _ Hfb) w Hw)) as Hin. fold p in Hin.
  f_step. apply wp_set_maptbl_ent; [done|apply Hm|]. f_step.
  apply wp_set_rmap_ent; [done|done|apply Hm|]. simpl.
  set (t := aset (ftl_maptbl f) lpn p). set (r := aset (ftl_rmap f) _ lpn).
  f_step. pose proof (wp_mark_page_valid v (set_rmap r (set_maptbl t f)) sh w) as Hv.
  change (wp_ppa (wp_of (set_rmap r (set_maptbl t f)) w)) with p in Hv.
  eapply wp_mono; [apply Hv; [by apply fbase_set_maps|done]|].
  intros [] [f' sh'] (-> & Hfb' & Hk & Hfree & _ & (E1 & E2 & E3 & E4)).
  apply HQ.
  - pose proof (open_line _ _ _ _ Hfb Hw) as (_ & _ & _ & _ & Hov & _).
    destruct Hk as [K1 K2 K3 K4 K5 K6 K7 K8 K9 K10]. split; [done|].
    rewrite K1, K4, K5. eapply map_ok_programmed; try done. intros [Hs _]. by apply Hov.
  - pose proof (λ w, wp_of_keeps _ _ w Hk) as Hwp. destruct Hk as [K1 K2 K3 K4 K5 K6 K7 K8 K9 K10]. by split.
Qed.
End handles.
