(* ===== verification/FdpAdvance.v ===== *)
(** * Moving a write pointer on

    [advance_write_pointer] steps to the next page of the line in the order of
    [prank], or closes the line and opens a free one.  [room] is the number of
    pages that can still be programmed before a line has to be reclaimed; every
    step lowers it by one. *)

From stdpp Require Import base numbers list gmap relations.
From S2P Require Import Prelude Config Pqueue ChannelModel Ssd Nvme FdpLog FdpFtl FdpGeom FdpInv FdpOps.

#[local] Open Scope Z_scope.

Section handles.
Context `{NH : !Handles}.

(** ** The position after the current one *)

(** [None] at the last page of the line. *)
Definition next_pos (sp : ssdparams) (w : fdp_write_pointer) : option (Z * Z * Z) :=
  let pg := wp_pg w + 1 in
  if negb (pg mod pgs_per_oneshotpg sp =? 0) then Some (wp_ch w, wp_lun w, pg)
  else if negb (wp_ch w + 1 =? nchs sp)
  then Some (wp_ch w + 1, wp_lun w, pg - pgs_per_oneshotpg sp)
  else if negb (wp_lun w + 1 =? luns_per_ch sp)
  then Some (0, wp_lun w + 1, pg - pgs_per_oneshotpg sp)
  else if negb (pg =? pgs_per_blk sp) then Some (0, 0, pg)
  else None.

Definition wp_goto (w : fdp_write_pointer) (x : Z * Z * Z) : fdp_write_pointer :=
  WritePointer (wp_curline w) x.1.1 x.1.2 x.2 (wp_blk w) (wp_pl w).

(** Page numbers and oneshot pages. *)
Lemma next_in_row os pg :
  0 < os → 0 ≤ pg → (pg + 1) mod os ≠ 0 →
  (pg + 1) / os = pg / os ∧ (pg + 1) mod os = pg mod os + 1.
Proof.
  intros Hos Hpg Hne. pose proof (Z.div_mod pg os ltac:(lia)) as Hd.
  pose proof (Z.mod_pos_bound pg os Hos) as Hm.
  destruct (decide (pg mod os + 1 = os)) as [E|E].
  - exfalso. apply Hne. replace (pg + 1) with ((pg / os + 1) * os) by lia. apply Z.mod_mul. lia.
  - split.
    + symmetry. apply (Z.div_unique_pos _ _ _ (pg mod os + 1)); lia.
    + symmetry. apply (Z.mod_unique_pos _ _ (pg / os)); lia.
Qed.

Lemma next_row os pg :
  0 < os → 0 ≤ pg → (pg + 1) mod os = 0 →
  pg mod os = os - 1 ∧ pg + 1 = os * (pg / os + 1).
Proof.
  intros Hos Hpg H0. pose proof (Z.div_mod pg os ltac:(lia)) as Hd.
  pose proof (Z.mod_pos_bound pg os Hos) as Hm.
  destruct (decide (pg mod os + 1 = os)) as [E|E]; [split; lia|]. exfalso.
  assert ((pg + 1) mod os = pg mod os + 1); [|lia].
  symmetry. apply (Z.mod_unique_pos _ _ (pg / os)); lia.
Qed.

(** The first page of a oneshot page. *)
Lemma row_start os k : 0 < os → (os * k) / os = k ∧ (os * k) mod os = 0.
Proof. intros. rewrite Z.mul_comm. split; [apply Z.div_mul|apply Z.mod_mul]; lia. Qed.

Lemma next_pos_spec sp w :
  sp_ok sp → ppa_in sp (wp_ppa w) →
  match next_pos sp w with
  | Some x => ppa_in sp (wp_ppa (wp_goto w x)) ∧
              prank sp (wp_ppa (wp_goto w x)) = prank sp (wp_ppa w) + 1
  | None => prank sp (wp_ppa w) = pgs_per_line sp - 1
  end.
Proof.
  intros Hsp [Hc Hl Hpl Hb Hpg Hr]. sp_facts Hsp. simpl in *. unfold next_pos.
  set (os := pgs_per_oneshotpg sp) in *. set (pg := wp_pg w) in *.
  destruct (Z.eqb_spec ((pg + 1) mod os) 0) as [H0|H0]; simpl.
  2:{ destruct (next_in_row os pg) as [E1 E2]; [lia..|]. split.
      - split; simpl; try done. destruct (decide (pg + 1 = pgs_per_blk sp)) as [E|]; [|lia].
        exfalso. apply H0. rewrite E, F_oneshots. unfold os. rewrite Z.mul_comm. apply Z.mod_mul. lia.
      - unfold prank; simpl. fold os pg. rewrite E1, E2. lia. }
  destruct (next_row os pg) as [E1 E2]; [lia..|].
  set (row := pg / os) in *.
  assert (0 ≤ row) as Hrow by (apply Z.div_pos; lia).
  assert (∀ c u, 0 ≤ c < nchs sp → 0 ≤ u < luns_per_ch sp →
    ppa_in sp (wp_ppa (wp_goto w (c, u, pg + 1 - os))) ∧
    prank sp (wp_ppa (wp_goto w (c, u, pg + 1 - os))) = ((row * luns_per_ch sp + u) * nchs sp + c) * os)
    as Hsame.
  { intros c u Hc' Hu'. destruct (row_start os row) as [R1 R2]; [lia|].
    split; [split; simpl; try done; lia|]. unfold prank; simpl. fold os.
    replace (pg + 1 - os) with (os * row) by lia. rewrite R1, R2. lia. }
  assert (prank sp (wp_ppa w) + 1 = ((row * luns_per_ch sp + wp_lun w) * nchs sp + wp_ch w + 1) * os) as Ecur.
  { unfold prank; simpl. fold os pg row. rewrite E1. lia. }
  destruct (Z.eqb_spec (wp_ch w + 1) (nchs sp)) as [Hch|Hch]; simpl.
  2:{ destruct (Hsame (wp_ch w + 1) (wp_lun w)) as [P1 P2]; [lia..|]. split; [done|]. rewrite P2, Ecur. lia. }
  destruct (Z.eqb_spec (wp_lun w + 1) (luns_per_ch sp)) as [Hlu|Hlu]; simpl.
  2:{ destruct (Hsame 0 (wp_lun w + 1)) as [P1 P2]; [lia..|]. split; [done|]. rewrite P2, Ecur. nia. }
  destruct (Z.eqb_spec (pg + 1) (pgs_per_blk sp)) as [Hlast|Hlast]; simpl.
  - assert (row + 1 = oneshotpgs_per_blk sp) as Hrl.
    { rewrite F_oneshots in Hlast. fold os in Hlast. nia. }
    enough (prank sp (wp_ppa w) + 1 = pgs_per_line sp) by lia.
    rewrite Ecur, F_ppl, F_oneshots, <- Hrl, <- Hlu, <- Hch. fold os. nia.
  - split; [split; simpl; try done; lia|]. rewrite Ecur. unfold prank; simpl. fold os.
    destruct (row_start os (row + 1)) as [R1 R2]; [lia|]. rewrite E2, R1, R2. nia.
Qed.

(** ** Setting a write pointer *)

Definition put_wp (w : Z) (W : fdp_write_pointer) (f : fdp_ftl) : fdp_ftl :=
  if w =? NR_RUH then set_gc_wp W f else set_wp_ruh (aset (ftl_wp_ruh f) w W) f.

Lemma wp_set_wp io ruh W f sh Q :
  wio_ok io ruh → Q tt (put_wp (wid io ruh) W f, sh) → wp (set_wp io ruh W) (f, sh) Q.
Proof.
  intros Hio HQ. unfold put_wp in HQ. destruct io; simpl in *; [|rewrite Z.eqb_refl in HQ; by f_step].
  specialize (Hio eq_refl). rewrite (proj2 (Z.eqb_neq _ _)) in HQ by lia. by f_step.
Qed.

Lemma wp_of_put w w' W f :
  alen (ftl_wp_ruh f) = NR_RUH → 0 ≤ w < NR_WP →
  wp_of (put_wp w W f) w' = if decide (w = w') then W else wp_of f w'.
Proof.
  unfold NR_WP. intros Hlen Hw. unfold wp_of, put_wp. destruct (Z.eqb_spec w NR_RUH) as [->|Hn]; simpl.
  - destruct (Z.eqb_spec w' NR_RUH) as [->|]; [by rewrite decide_True|].
    by rewrite decide_False by congruence.
  - destruct (Z.eqb_spec w' NR_RUH) as [->|]; [by rewrite decide_False by congruence|].
    rewrite aget_aset by lia. by case_decide.
Qed.

(** The other fields. *)
Lemma put_wp_frame w W f :
  ftl_ssd (put_wp w W f) = ftl_ssd f ∧ ftl_cp (put_wp w W f) = ftl_cp f ∧
  ftl_maptbl (put_wp w W f) = ftl_maptbl f ∧ ftl_rmap (put_wp w W f) = ftl_rmap f ∧
  ftl_lm (put_wp w W f) = ftl_lm f ∧ ftl_wfc (put_wp w W f) = ftl_wfc f ∧
  alen (ftl_wp_ruh (put_wp w W f)) = alen (ftl_wp_ruh f).
Proof. unfold put_wp. destruct (w =? NR_RUH); simpl; rewrite ?alen_aset; done. Qed.

Lemma put_wp_lm w W m f : put_wp w W (set_lm m f) = set_lm m (put_wp w W f).
Proof. unfold put_wp. by destruct (w =? NR_RUH). Qed.

Lemma put_wp_twice w W W' f : put_wp w W (put_wp w W' f) = put_wp w W f.
Proof.
  unfold put_wp. destruct (w =? NR_RUH); [done|]. unfold set_wp_ruh; simpl. f_equal.
  unfold aset. destruct (in_range (alen (ftl_wp_ruh f)) w) eqn:E; simpl; rewrite ?E; simpl; [|done].
  by rewrite insert_insert_eq.
Qed.

(** The open lines after a pointer has moved. *)
Lemma opened_put w W f l :
  alen (ftl_wp_ruh f) = NR_RUH → 0 ≤ w < NR_WP →
  opened (put_wp w W f) l
    = opened f l - Z.b2z (wp_blk (wp_of f w) =? l) + Z.b2z (wp_blk W =? l).
Proof.
  intros Hlen Hw. unfold opened.
  rewrite (cnt_upd (λ w, wp_blk (wp_of f w) =? l) _ _ w);
    [|apply NoDup_seqZ|apply elem_of_seqZ; lia|].
  - rewrite (wp_of_put w w) by done. by rewrite decide_True.
  - intros w' _ Hne. rewrite (wp_of_put w w') by done. by rewrite decide_False.
Qed.

(** ** Room *)

Definition left_of (f : fdp_ftl) (w : Z) : Z := pgs_per_line (fsp f) - prank (fsp f) (wp_ppa (wp_of f w)).
Definition room (f : fdp_ftl) : Z :=
  pgs_per_line (fsp f) * lm_free_line_cnt (ftl_lm f) + zsum (left_of f) (seqZ 0 NR_WP).

Lemma room_put w W f :
  alen (ftl_wp_ruh f) = NR_RUH → 0 ≤ w < NR_WP →
  room (put_wp w W f) = room f + prank (fsp f) (wp_ppa (wp_of f w)) - prank (fsp f) (wp_ppa W).
Proof.
  intros Hlen Hw. pose proof (put_wp_frame w W f) as (E1 & _ & _ & _ & E2 & _).
  unfold room, left_of, fsp. rewrite E1, E2. fold (fsp f).
  rewrite (zsum_upd (λ w, pgs_per_line (fsp f) - prank (fsp f) (wp_ppa (wp_of f w))) _ _ w);
    [|apply NoDup_seqZ|apply elem_of_seqZ; lia|].
  - rewrite (wp_of_put w w) by done. rewrite decide_True by done. lia.
  - intros w' _ Hne. rewrite (wp_of_put w w') by done. by rewrite decide_False.
Qed.

(** The room depends on the pointers and the number of free lines. *)
Lemma room_ext f f' :
  fsp f' = fsp f → lm_free_line_cnt (ftl_lm f') = lm_free_line_cnt (ftl_lm f) →
  (∀ w, 0 ≤ w < NR_WP → wp_of f' w = wp_of f w) → room f' = room f.
Proof.
  intros E1 E2 E3. unfold room, left_of. rewrite E1, E2. f_equal. apply zsum_ext.
  intros w Hw%elem_of_seqZ. by rewrite E3 by lia.
Qed.

Lemma left_of_range v adv f w :
  fbase v adv f → 0 ≤ w < NR_WP → 1 ≤ left_of f w ≤ pgs_per_line (fsp f).
Proof.
  intros Hfb Hw. pose proof (fb_sp _ _ _ Hfb) as Hsp. unfold left_of.
  pose proof (prank_range _ Hsp _ (wo_in _ _ _ _ (ws_ok _ _ _ _ (fb_wps _ _ _ Hfb) w Hw))). lia.
Qed.

(** Room for more than a line per pointer means a free line. *)
Lemma room_free v adv f :
  fbase v adv f → NR_WP * pgs_per_line (fsp f) < room f → lm_free_line_list (ftl_lm f) ≠ [].
Proof.
  intros Hfb Hr Hnil. pose proof (ls_free_cnt _ _ _ _ (fb_lists _ _ _ Hfb)) as Hc.
  rewrite Hnil in Hc. simpl in Hc. unfold room in Hr. rewrite Hc in Hr.
  pose proof (zsum_bounds (left_of f) (seqZ 0 NR_WP) 1 (pgs_per_line (fsp f))) as Hb.
  rewrite length_seqZ, Z2Nat.id in Hb by (pose proof NR_WP_range; lia).
  assert (∀ w, w ∈ seqZ 0 NR_WP → 1 ≤ left_of f w ≤ pgs_per_line (fsp f)) as Hall.
  { intros w Hw%elem_of_seqZ. eapply left_of_range; [done|lia]. }
  specialize (Hb Hall). lia.
Qed.

(** ** Within the line *)

Lemma fbase_put v w W f :
  fbase v (Some w) f → 0 ≤ w < NR_WP →
  let W0 := wp_of f w in
  wp_curline W = wp_curline W0 → wp_blk W = wp_blk W0 → wp_pl W = wp_pl W0 →
  ppa_in (fsp f) (wp_ppa W) → prank (fsp f) (wp_ppa W) = prank (fsp f) (wp_ppa W0) + 1 →
  fbase v None (put_wp w W f).
Proof.
  intros [Hsp Hn Hli Hls Hws Hcl] Hw W0 E1 E2 E3 Hin Hrank.
  pose proof (put_wp_frame w W f) as (F1 & _ & _ & _ & F2 & _ & F3).
  pose proof Hws as [V1 V2 V3].
  assert (fsp (put_wp w W f) = fsp f) as Efsp by (unfold fsp; by rewrite F1).
  split; rewrite ?Efsp, ?F1, ?F2; try done.
  - destruct Hls as [L1 L2 L3 L4 L5 L6 L7]. split; try done. intros l.
    rewrite opened_put, E2 by done. rewrite <- (L4 l). fold W0. lia.
  - assert (∀ w', wp_blk (wp_of (put_wp w W f) w') = wp_blk (wp_of f w')) as Hblk.
    { intros w'. rewrite wp_of_put by done. case_decide as Hc; [by rewrite E2, <- Hc|done]. }
    split; [by rewrite F3| |].
    + intros w' Hw'. rewrite wp_of_put by done. destruct (V2 w' Hw') as [P1 P2 P3 P4].
      unfold lag in *. rewrite (bool_decide_false (None = Some w')) by done.
      destruct (decide (w = w')) as [<-|Hc].
      * fold W0 in P1, P2, P3, P4. rewrite bool_decide_true in P4 by done.
        split; [by rewrite E1, E2, P1|congruence|done|]. intros p Hp Hb.
        rewrite P4 by (done || congruence). rewrite Hrank. simpl. lia.
      * rewrite bool_decide_false in P4 by congruence. by split.
    + intros w' x Hw'. rewrite Hblk, F2. by apply V3.
Qed.

(** ** Closing a line *)

(** The first part of [next_line]: the used-up line [cur] goes to the full list or
    to the victim queue. *)
Definition close_line (sp : ssdparams) (cur : Z) (line : fdp_line) : M fstate unit :=
  if u64 (ln_vpc line) =? pgs_per_line sp then
    NVMEV_ASSERT (ln_ipc line =? 0) ;;
    mod_lm (λ m, set_full (lm_full_line_list m ++ [cur]) (u32 (lm_full_line_cnt m + 1)) m)
  else
    NVMEV_ASSERT ((0 <=? ln_vpc line) && (u64 (ln_vpc line) <? pgs_per_line sp)) ;;
    NVMEV_ASSERT (0 <? ln_ipc line) ;;
    on_pq (pqueue_insert cur) ;;
    mod_lm (λ m, set_victim_cnt (u32 (lm_victim_line_cnt m + 1)) m).

Record closed (v : option Z) (f : fdp_ftl) (cur : Z) (m : fdp_line_mgmt) : Prop := {
  cd_lines : same_but_pos (lm_lines (ftl_lm f)) (lm_lines m);
  cd_free : lm_free_line_list m = lm_free_line_list (ftl_lm f);
  cd_free_cnt : lm_free_line_cnt m = lm_free_line_cnt (ftl_lm f);
  cd_lists : lists_ok (blks_per_pl (fsp f)) v (λ l, opened f l - Z.b2z (cur =? l)) m;
  cd_class : class_ok (fsp f) (ftl_ssd f) m;
}.

Section close.
Context (v adv : option Z) (f : fdp_ftl) (sh : shared) (w : Z) (x : fdp_line).
Let cur := wp_blk (wp_of f w).
Let sp := fsp f.
Hypothesis (Hfb : fbase v adv f) (Hw : 0 ≤ w < NR_WP).
Hypothesis (Hx : aget (lm_lines (ftl_lm f)) cur = Some x).
Hypothesis (Hnf : ∀ p, ppa_in sp p → g_blk p = cur → pstatus (ftl_ssd f) p ≠ Some PG_FREE).

Lemma close_counts :
  ln_vpc x + ln_ipc x = pgs_per_line sp ∧ 0 ≤ ln_vpc x ∧ 0 ≤ ln_ipc x ∧
  ln_vpc x = lcnt sp (ftl_ssd f) cur PG_VALID.
Proof using All.
  pose proof (open_line _ _ _ _ Hfb Hw) as (Hl & _ & _ & _ & Hov & _).
  destruct (lo_cnt _ _ _ _ (fb_lines _ _ _ Hfb) _ _ Hx Hov) as [E1 E2].
  pose proof (fb_sp _ _ _ Hfb) as Hsp.
  pose proof (lcnt_no_free _ _ _ Hsp (fb_nand _ _ _ Hfb) Hl Hnf).
  pose proof (lcnt_range sp (ftl_ssd f) cur PG_VALID Hsp).
  pose proof (lcnt_range sp (ftl_ssd f) cur PG_INVALID Hsp).
  fold cur sp in H, E1, E2. lia.
Qed.

Lemma close_full : ln_ipc x = 0 →
  closed v f cur (set_full (lm_full_line_list (ftl_lm f) ++ [cur])
                    (u32 (lm_full_line_cnt (ftl_lm f) + 1)) (ftl_lm f)).
Proof using All.
  intros Hi. pose proof close_counts as (Hs & _ & _ & Hv).
  pose proof (open_line _ _ _ _ Hfb Hw) as (Hl & Ho & Hm & Hu & Hov & Ho1 & _).
  fold cur sp in Hl, Ho, Hm, Hu, Hov, Ho1. pose proof Hfb as [Hsp Hn Hli Hls Hws Hcl].
  pose proof (part_lengths _ _ _ _ Hls (opened_nonneg f)) as [_ Hlen].
  pose proof (so_blks _ Hsp) as HT.
  destruct Hls as [L1 L2 L3 L4 L5 L6 L7]. destruct Hcl as [C1 C2 C3 C4].
  split; simpl; try done; [apply same_but_pos_refl| |].
  - split; simpl; try done.
    + intros l. rewrite occ_app, occ_cons. rewrite <- (L4 l). rewrite (Z.eqb_sym l cur).
      change (occ l []) with 0. lia.
    + rewrite length_app; simpl. rewrite u32_small; lia.
  - split; simpl; try done. intros p Hp [Hin|Hin]%elem_of_app; [by apply C2|].
    apply list_elem_of_singleton in Hin. eapply (lcnt_full sp _ cur); try done. lia.
Qed.

Lemma close_victim : 0 < ln_ipc x →
  wp (pqueue_insert cur) (lm_victim_line_pq (ftl_lm f), lm_lines (ftl_lm f)) (λ _ t,
    closed v f cur (set_victim_cnt (u32 (lm_victim_line_cnt (ftl_lm f) + 1))
                      (set_pq (fst t) (set_lines (snd t) (ftl_lm f))))).
Proof using All.
  intros Hi. pose proof close_counts as (Hs & _ & _ & Hv).
  pose proof (open_line _ _ _ _ Hfb Hw) as (Hl & Ho & Hm & Hu & Hov & Ho1 & _).
  fold cur sp in Hl, Ho, Hm, Hu, Hov, Ho1. pose proof Hfb as [Hsp Hn Hli Hls Hws Hcl].
  pose proof (pq_room _ _ _ _ cur Hls (opened_nonneg f) Hl Hm) as Hroom.
  pose proof (so_blks _ Hsp) as HT.
  destruct Hls as [L1 L2 L3 L4 L5 L6 L7]. destruct Hcl as [C1 C2 C3 C4].
  eapply wp_mono; [by apply insert_spec|]. intros r [q' lines'] [_ (Hwf' & Hmem & Hrep & Hsz & Hava)].
  pose proof (repositioned_lines _ _ _ Hrep) as Hsame. pose proof (wf_size _ _ L1) as Hqs.
  simpl in *. split; simpl; try done.
  - split; simpl; try done; [congruence| | |rewrite u32_small; lia].
    + apply lists_pos_intro; [done|]. intros k y Hy Hnm. rewrite Hmem in Hnm.
      destruct Hsame as [_ Hsame]. destruct (Hsame k y Hy) as (y2 & Hy2 & _).
      rewrite (repositioned_line_pos _ _ _ k y2 y Hrep Hnm Hy2 Hy). apply (L3 k y2 Hy2). naive_solver.
    + intros k. rewrite (pmem_insert _ q' cur k Hmem Hm). rewrite <- (L4 k), (Z.eqb_sym k cur). lia.
  - split; simpl; try done.
    + intros p Hp Hq. apply Hmem in Hq as [Heq|Hq]; [by apply Hnf|by apply C3].
    + intros l x' Hq Hx'. destruct Hsame as [_ Hsame]. destruct (Hsame l x' Hx') as (y & Hy & ->). simpl.
      apply Hmem in Hq as [->|Hq]; [|by apply (C4 l)]. assert (y = x) as -> by congruence. done.
Qed.

Lemma wp_close_line Q :
  (∀ m, closed v f cur m → Q tt (set_lm m f, sh)) →
  wp (close_line sp cur x) (f, sh) Q.
Proof using All.
  intros HQ. pose proof close_counts as (Hs & Hv0 & Hi0 & _).
  pose proof (ppl_pos _ (fb_sp _ _ _ Hfb)) as Hppl. fold sp in Hppl.
  unfold close_line. rewrite u64_small by lia. destruct (Z.eqb_spec (ln_vpc x) (pgs_per_line sp)) as [E|E].
  - f_step. f_step; [apply Z.eqb_eq; lia|]. f_step. apply HQ, close_full. lia.
  - f_step. f_step; [rewrite andb_true_iff, Z.leb_le, Z.ltb_lt; lia|].
    f_step. f_step; [apply Z.ltb_lt; lia|]. f_step. apply wp_on_pq.
    eapply wp_mono; [apply close_victim; lia|]. intros r [q' lines'] Hc. f_step. by apply HQ.
Qed.
End close.

(** ** Opening the next line *)

Definition fresh_wp (l : Z) : fdp_write_pointer := WritePointer (Some l) 0 0 0 l 0.

(** The rank of the first page of a line. *)
Lemma prank_fresh sp l : sp_ok sp → prank sp (wp_ppa (fresh_wp l)) = 0.
Proof.
  intros Hsp. pose proof (so_oneshot _ Hsp). unfold prank; simpl.
  rewrite Z.div_0_l, Z.mod_0_l by lia. lia.
Qed.
Lemma fresh_in sp l : sp_ok sp → 0 ≤ l < blks_per_pl sp → ppa_in sp (wp_ppa (fresh_wp l)).
Proof. intros Hsp Hl. sp_facts Hsp. split; simpl; lia. Qed.

(** The line taken from the free list. *)
Definition take_line (new r : Z) (m : fdp_line_mgmt) : fdp_line_mgmt :=
  set_lines (aupd (lm_lines m) new (set_ln_ruh r))
    (set_free (list_del new (lm_free_line_list m)) (u32 (lm_free_line_cnt m - 1)) m).

Lemma lists_ok_take T v ocnt m new r :
  lists_ok T v ocnt m → (∀ l, 0 ≤ ocnt l) → 0 ≤ T < 2 ^ 31 → new ∈ lm_free_line_list m →
  lists_ok T v (λ l, ocnt l + Z.b2z (new =? l)) (take_line new r m) ∧
  ¬ member (lm_victim_line_pq m) new ∧ 0 ≤ new < T ∧ v ≠ Some new ∧ ocnt new = 0 ∧
  lm_free_line_cnt (take_line new r m) = lm_free_line_cnt m - 1.
Proof.
  intros Hls Ho HT Hin. assert (0 ≤ new < T) as Hl by (eapply part_range; eauto).
  pose proof (part_lengths _ _ _ _ Hls Ho) as [Hlen _]. apply occ_elem in Hin.
  destruct (part_cases _ _ _ _ Hls Ho new Hl) as [H|[H|[H|[H|H]]]]; destruct H as (Hf & Hq & Hu & Hoo & Ht);
    try lia.
  apply pmem_not_member in Hq. assert (v ≠ Some new) as Hv by (intros ->; by rewrite bool_decide_true in Ht).
  pose proof (length_list_del new _ Hf) as Hd.
  destruct Hls as [L1 L2 L3 L4 L5 L6 L7].
  assert (u32 (lm_free_line_cnt m - 1) = lm_free_line_cnt m - 1) as Hc by (rewrite u32_small; lia).
  split_and!; try done; try lia. split; simpl; try done.
  - by apply pq_wf_line_upd_out.
  - intros l x. rewrite aget_aupd. destruct (decide (new = l)) as [Hn|]; [|by apply L3].
    destruct (aget (lm_lines m) l) as [y|] eqn:Hy; intros ?; simplify_eq/=. by apply (L3 l).
  - intros l. rewrite occ_del, (Z.eqb_sym new l). destruct (Z.eqb_spec l new) as [->|Hn].
    + rewrite <- (L4 new), Hf. simpl. lia.
    + rewrite <- (L4 l). simpl. lia.
  - rewrite Hc, Hd. lia.
Qed.

Section open.
Context (v : option Z) (f : fdp_ftl) (w new r : Z) (m : fdp_line_mgmt).
Hypothesis (Hfb : fbase v (Some w) f) (Hw : 0 ≤ w < NR_WP).
Hypothesis (Hr : r = if w =? NR_RUH then -1 else w).
Let cur := wp_blk (wp_of f w).
Hypothesis (Hcd : closed v f cur m) (Hnew : new ∈ lm_free_line_list m).
Let f' := put_wp w (fresh_wp new) (set_lm (take_line new r m) f).

Lemma closed_opened l : 0 ≤ opened f l - Z.b2z (cur =? l).
Proof using Hfb Hw.
  pose proof (open_line _ _ _ _ Hfb Hw) as (_ & _ & _ & _ & _ & Ho & _). fold cur in Ho.
  pose proof (opened_nonneg f l). destruct (Z.eqb_spec cur l) as [<-|]; simpl; lia.
Qed.

Lemma open_wps : wps_ok (fsp f) (ftl_ssd f) None f'.
Proof using All.
  pose proof Hfb as [Hsp Hn Hli Hls Hws Hcl]. destruct Hcd as [D1 D2 D3 D4 D5].
  pose proof (so_blks _ Hsp) as HT.
  destruct (lists_ok_take _ _ _ _ new r D4 closed_opened ltac:(lia) Hnew) as (_ & Hnm & Hl & Hv & Ho & _).
  pose proof (put_wp_frame w (fresh_wp new) (set_lm (take_line new r m) f)) as (_ & _ & _ & _ & F2 & _ & F3).
  destruct Hws as [V1 V2 V3].
  assert (∀ w', wp_of f' w' = if decide (w = w') then fresh_wp new else wp_of f w') as Hwp
    by (intros w'; exact (wp_of_put w w' (fresh_wp new) (set_lm (take_line new r m) f) V1 Hw)).
  split; [by unfold f'; rewrite F3| |].
  - intros w' Hw'. rewrite Hwp. unfold lag. rewrite (bool_decide_false (None = Some w')) by done.
    destruct (decide (w = w')) as [<-|Hne].
    + split; [done|done|by apply fresh_in|]. intros p Hp Hb. rewrite prank_fresh by done.
      pose proof (prank_range _ Hsp _ Hp). split; [intros; simpl; lia|]. intros _.
      apply (co_free _ _ _ D5); [done|]. by rewrite Hb.
    + destruct (V2 w' Hw') as [P1 P2 P3 P4]. unfold lag in P4. rewrite bool_decide_false in P4 by congruence.
      by split.
  - intros w' x Hw'. unfold f'. rewrite F2. fold f'. rewrite Hwp. simpl. rewrite aget_aupd.
    destruct (decide (w = w')) as [<-|Hne]; simpl.
    + rewrite decide_True by done. destruct (aget _ new); intros ?; simplify_eq/=. done.
    + rewrite decide_False.
      * intros Hx. destruct D1 as [_ D1]. destruct (D1 _ _ Hx) as (y & Hy & ->). simpl. by apply (V3 w').
      * intros E. assert (0 < opened f new) as Hop by (apply opened_elem; eauto).
        assert (cur = new) as Hcn by (destruct (Z.eqb_spec cur new); [done|simpl in Ho; lia]).
        apply Hne. symmetry. eapply (open_line _ _ _ _ Hfb Hw); [done|]. fold cur. congruence.
Qed.

Lemma fbase_open : fbase v None f' ∧ room f' = room f - left_of f w.
Proof using All.
  pose proof open_wps as Hws'. pose proof Hfb as [Hsp Hn Hli Hls Hws Hcl].
  destruct Hcd as [D1 D2 D3 D4 D5]. pose proof (so_blks _ Hsp) as HT.
  destruct (lists_ok_take _ _ _ _ new r D4 closed_opened ltac:(lia) Hnew) as (Hls' & Hnm & Hl & Hv & Ho & Hfc).
  pose proof (put_wp_frame w (fresh_wp new) (set_lm (take_line new r m) f)) as (F1 & _ & _ & _ & F2 & _ & F3).
  assert (fsp f' = fsp f) as Efsp by (unfold f', fsp; by rewrite F1).
  split.
  - split; rewrite ?Efsp; unfold f'; rewrite ?F1, ?F2; try done.
    + destruct Hli as [I1 I2 I3]. destruct D1 as [D0 D1]. split; simpl.
      * rewrite alen_aupd. congruence.
      * intros l x. rewrite aget_aupd. destruct (aget (lm_lines m) l) as [y|] eqn:Hy; [|by case_decide].
        destruct (D1 l y Hy) as (z & Hz & E). case_decide; intros ?; simplify_eq/=;
          rewrite E; simpl; by apply I2.
      * intros l x Hx Hs. rewrite aget_aupd in Hx. destruct (aget (lm_lines m) l) as [y|] eqn:Hy; [|by case_decide].
        destruct (D1 l y Hy) as (z & Hz & E). specialize (I3 l z Hz Hs).
        case_decide; simplify_eq/=; rewrite E; done.
    + destruct Hls' as [L1 L2 L3 L4 L5 L6 L7]. split; try done. intros l.
      rewrite opened_put by (done || apply Hws). rewrite <- (L4 l). simpl.
      change (wp_of (set_lm (take_line new r m) f) w) with (wp_of f w). fold cur.
      change (opened (set_lm (take_line new r m) f) l) with (opened f l). lia.
    + destruct D5 as [C1 C2 C3 C4]. split; simpl; try done.
      * intros p Hp Hin. apply C1; [done|]. apply occ_elem. apply occ_elem in Hin. rewrite occ_del in Hin.
        destruct (g_blk p =? new); lia.
      * intros l x Hm Hx. rewrite aget_aupd in Hx. case_decide as Hc; [by subst|]. by apply (C4 l).
  - unfold f'. rewrite room_put by (done || apply Hws). rewrite prank_fresh by done.
    change (wp_of (set_lm (take_line new r m) f) w) with (wp_of f w). unfold fsp; simpl. fold (fsp f).
    unfold room. change (fsp (set_lm (take_line new r m) f)) with (fsp f).
    change (lm_free_line_cnt (ftl_lm (set_lm (take_line new r m) f)))
      with (lm_free_line_cnt (take_line new r m)).
    rewrite Hfc, D3. change (left_of (set_lm (take_line new r m) f)) with (left_of f).
    unfold left_of. lia.
Qed.
End open.

(** ** [advance_write_pointer] *)

(** The handle of the lines that write pointer [w] opens. *)
Definition ruh_of (w : Z) : Z := if w =? NR_RUH then -1 else w.

Record advanced (w : Z) (f f' : fdp_ftl) : Prop := {
  ad_ssd : ftl_ssd f' = ftl_ssd f;
  ad_cp : ftl_cp f' = ftl_cp f;
  ad_wfc : ftl_wfc f' = ftl_wfc f;
  ad_maptbl : ftl_maptbl f' = ftl_maptbl f;
  ad_rmap : ftl_rmap f' = ftl_rmap f;
  ad_wp w' : w' ≠ w → wp_of f' w' = wp_of f w';
  ad_room : room f' = room f - 1;
  ad_ruh l x' : aget (lm_lines (ftl_lm f')) l = Some x' →
    ∃ x, aget (lm_lines (ftl_lm f)) l = Some x ∧
      (ln_ruh x' = ln_ruh x ∨ ln_ruh x' = ruh_of w ∧ l ∈ lm_free_line_list (ftl_lm f));
}.

Lemma check_addr_ok a max f sh Q :
  0 ≤ a < max → max ≤ 2 ^ 16 → Q tt (f, sh) → wp (check_addr a max) (f, sh) Q.
Proof.
  intros Ha Hm HQ. unfold check_addr. rewrite s32_small by lia.
  f_step; [rewrite andb_true_iff, Z.leb_le, Z.ltb_lt; lia|done].
Qed.

(** The steps within a line, and the last one. *)
Lemma wp_advance_split io ruh v adv f sh Q :
  fbase v adv f → wio_ok io ruh →
  let W := wp_of f (wid io ruh) in
  match next_pos (fsp f) W with
  | Some x => Q tt (put_wp (wid io ruh) (wp_goto W x) f, sh)
  | None => wp (next_line io ruh (wp_goto W (0, 0, 0))) (f, sh) Q
  end → wp (advance_write_pointer io ruh) (f, sh) Q.
Proof.
  intros Hfb Hio W HQ. pose proof Hfb as [Hsp Hn Hli Hls Hws Hcl].
  destruct (ws_ok _ _ _ _ Hws _ (wid_range _ _ Hio)) as [_ _ [Hc Hu _ Hb Hpg _] _]. fold W in Hc, Hu, Hb, Hpg.
  simpl in Hc, Hu, Hb, Hpg. sp_facts Hsp. set (sp := fsp f) in *.
  unfold advance_write_pointer. f_step. f_step. fold sp. f_step. eapply wp_get_wp; [done..|]. fold W.
  unfold next_pos in HQ. f_step. apply check_addr_ok; [lia..|]. rewrite (u32_small (wp_pg W + 1)) by lia.
  destruct (Z.eqb_spec ((wp_pg W + 1) mod pgs_per_oneshotpg sp) 0) as [H0|H0]; simpl in *.
  2:{ by apply wp_set_wp. }
  f_step. apply check_addr_ok; [lia..|].
  destruct (next_row (pgs_per_oneshotpg sp) (wp_pg W)) as [E1 E2]; [lia..|].
  assert (0 ≤ wp_pg W / pgs_per_oneshotpg sp) as Hrow by (apply Z.div_pos; lia).
  pose proof (Z.mul_nonneg_nonneg (pgs_per_oneshotpg sp) _ ltac:(lia) Hrow) as Hge.
  rewrite !(u32_small (wp_ch W + 1)), (u32_small (wp_pg W + 1 - pgs_per_oneshotpg sp)) by lia.
  destruct (Z.eqb_spec (wp_ch W + 1) (nchs sp)) as [H1|H1]; simpl in *.
  2:{ by apply wp_set_wp. }
  f_step. apply check_addr_ok; [lia..|]. rewrite !(u32_small (wp_lun W + 1)) by lia.
  destruct (Z.eqb_spec (wp_lun W + 1) (luns_per_ch sp)) as [H2|H2]; simpl in *.
  2:{ by apply wp_set_wp. }
  replace (wp_pg W + 1 - pgs_per_oneshotpg sp + pgs_per_oneshotpg sp) with (wp_pg W + 1) by lia.
  rewrite u32_small by lia.
  destruct (Z.eqb_spec (wp_pg W + 1) (pgs_per_blk sp)) as [H3|H3]; simpl in *; [done|].
  by apply wp_set_wp.
Qed.

Lemma line_ruh_wid io ruh :
  wio_ok io ruh → line_ruh io ruh = if wid io ruh =? NR_RUH then -1 else wid io ruh.
Proof.
  intros Hio. pose proof NR_WP_range. destruct io; simpl; [|by rewrite Z.eqb_refl].
  specialize (Hio eq_refl). rewrite s32_small by lia. by rewrite (proj2 (Z.eqb_neq _ _)) by lia.
Qed.

Lemma finv_split v X ex adv adv' f f' :
  finv v X ex adv f → fbase v adv' f' → ftl_ssd f' = ftl_ssd f →
  ftl_maptbl f' = ftl_maptbl f → ftl_rmap f' = ftl_rmap f → finv v X ex adv' f'.
Proof. intros [_ Hm] Hfb E1 E2 E3. split; [done|]. unfold fsp. by rewrite E1, E2, E3. Qed.

Lemma wp_next_line io ruh v X ex f sh Q :
  let w := wid io ruh in
  finv v X ex (Some w) f → wio_ok io ruh →
  prank (fsp f) (wp_ppa (wp_of f w)) = pgs_per_line (fsp f) - 1 →
  lm_free_line_list (ftl_lm f) ≠ [] →
  (∀ f', finv v X ex None f' → advanced w f f' → Q tt (f', sh)) →
  wp (next_line io ruh (wp_goto (wp_of f w) (0, 0, 0))) (f, sh) Q.
Proof.
  intros w Hfi Hio Hrank Hne HQ. pose proof (wid_range _ _ Hio) as Hw. fold w in Hw.
  pose proof Hfi as [Hfb Hm]. pose proof Hfb as [Hsp Hn Hli Hls Hws Hcl].
  destruct (ws_ok _ _ _ _ Hws w Hw) as [W1 W2 W3 W4].
  pose proof (so_blks _ Hsp) as HT. pose proof (pi_blk _ _ W3) as Hb. simpl in Hb.
  destruct (aget_some (lm_lines (ftl_lm f)) (wp_blk (wp_of f w))) as [x Hx].
  { by rewrite (lo_len _ _ _ _ Hli). }
  assert (∀ p, ppa_in (fsp f) p → g_blk p = wp_blk (wp_of f w) → pstatus (ftl_ssd f) p ≠ Some PG_FREE)
    as Hnf.
  { intros p Hp Hpb Hst. apply W4 in Hst; [|done..]. unfold lag in Hst.
    rewrite bool_decide_true in Hst by done. pose proof (prank_range _ Hsp _ Hp). simpl in Hst. lia. }
  unfold next_line. f_step. f_step. f_step. eapply wp_deref; [exact W1|].
  f_step. eapply wp_line_get; [done|]. f_step.
  eapply wp_close_line; [done..|]. intros m Hcd. f_step. simpl. apply check_addr_ok; [lia..|].
  pose proof (cd_free _ _ _ _ Hcd) as Hfree.
  destruct (lm_free_line_list m) as [|new rest] eqn:Hfl; [congruence|].
  assert (new ∈ lm_free_line_list m) as Hnew by (rewrite Hfl; apply list_elem_of_here).
  f_step. unfold get_next_free_line. f_step. f_step. simpl. rewrite Hfl. f_step. f_step. f_step.
  f_step. apply wp_set_wp; [done|]. fold w. f_step. eapply wp_deref; [done|].
  destruct (lists_ok_take _ _ _ _ new (line_ruh io ruh) (cd_lists _ _ _ _ Hcd)
    (closed_opened _ _ _ Hfb Hw) ltac:(lia) Hnew) as (_ & _ & Hl & _).
  destruct (cd_lines _ _ _ _ Hcd) as [Hlen Hsame].
  destruct (aget_some (lm_lines m) new) as [y Hy]; [rewrite Hlen; by rewrite (lo_len _ _ _ _ Hli)|].
  destruct (Hsame _ _ Hy) as (z & Hz & Ez). pose proof (lo_id _ _ _ _ Hli _ _ Hz) as Hid.
  rewrite put_wp_lm.
  f_step. eapply wp_line_upd; [simpl; exact Hy|]. f_step. eapply wp_line_get.
  { simpl. rewrite aget_aupd, decide_True, Hy by done. done. }
  simpl. rewrite Ez; simpl. rewrite Hid, u32_small by lia. f_step. apply wp_set_wp; [done|]. fold w.
  f_step. apply check_addr_ok; [lia..|]. rewrite W2. simpl.
  do 7 f_step.
  rewrite !put_wp_lm, put_wp_twice, <- !put_wp_lm.
  match goal with |- Q _ (?f1, _) =>
    change f1 with (put_wp w (fresh_wp new) (set_lm (take_line new (line_ruh io ruh) m) f)) end.
  destruct (fbase_open v f w new (line_ruh io ruh) m) as [Hfb' Hroom]; try done.
  { by apply line_ruh_wid. }
  pose proof (put_wp_frame w (fresh_wp new) (set_lm (take_line new (line_ruh io ruh) m) f))
    as (F1 & F2 & F3 & F4 & F5 & F6 & F7).
  apply HQ.
  - by eapply finv_split.
  - split; try done.
    + intros w' Hw'. rewrite wp_of_put by (apply Hws || done). by rewrite decide_False by congruence.
    + rewrite Hroom. unfold left_of. lia.
    + intros k u. rewrite F5. simpl. rewrite aget_aupd.
      assert (∀ u, aget (lm_lines m) k = Some u →
        ∃ u0, aget (lm_lines (ftl_lm f)) k = Some u0 ∧ ln_ruh u = ln_ruh u0) as Hold.
      { intros u1 Hu1. destruct (Hsame _ _ Hu1) as (u0 & Hu0 & ->). by exists u0. }
      case_decide as Hk; [|intros Hu; destruct (Hold u Hu) as (u0 & ? & ?); eauto].
      destruct (aget (lm_lines m) k) as [u1|]; intros ?; simplify_eq/=.
      destruct (Hold u1 eq_refl) as (u0 & Hu0 & _). exists u0. split; [done|]. right.
      split; [by apply line_ruh_wid|]. rewrite <- Hfree. apply list_elem_of_here.
Qed.

Lemma wp_advance io ruh v X ex f sh Q :
  let w := wid io ruh in
  finv v X ex (Some w) f → wio_ok io ruh →
  (left_of f w = 1 → lm_free_line_list (ftl_lm f) ≠ []) →
  (∀ f', finv v X ex None f' → advanced w f f' → Q tt (f', sh)) →
  wp (advance_write_pointer io ruh) (f, sh) Q.
Proof.
  intros w Hfi Hio Hne HQ. pose proof (wid_range _ _ Hio) as Hw. fold w in Hw.
  pose proof Hfi as [Hfb Hm]. pose proof (fb_sp _ _ _ Hfb) as Hsp.
  pose proof (fb_wps _ _ _ Hfb) as [W1 W2 _]. destruct (W2 w Hw) as [_ _ Hin _].
  eapply wp_advance_split; [done..|]. fold w.
  pose proof (next_pos_spec _ _ Hsp Hin) as Hnext.
  destruct (next_pos (fsp f) (wp_of f w)) as [x|].
  - destruct Hnext as [Hin' Hrank].
    pose proof (put_wp_frame w (wp_goto (wp_of f w) x) f) as (F1 & F2 & F3 & F4 & F5 & F6 & F7).
    apply HQ.
    + eapply finv_split; [done| |done..]. by apply fbase_put.
    + split; try done.
      * intros w' Hw'. rewrite wp_of_put by done. by rewrite decide_False by congruence.
      * rewrite room_put by done. lia.
      * intros l u. rewrite F5. intros Hu. exists u. auto.
  - eapply wp_next_line; [done|done|done| |done]. apply Hne. unfold left_of. lia.
Qed.
End handles.
