(* ===== verification/FdpGc.v ===== *)
(** * Garbage collection keeps the invariant

    [do_gc] takes the line with the fewest valid pages off the victim queue,
    copies its valid pages behind the collector's write pointer, erases its
    blocks and returns it to the free list.  The proof follows the collection
    page by page: [gc_at] is the state after some number of flash pages, and
    [wp_do_gc] the result. *)

From stdpp Require Import base numbers list gmap relations.
From S2P Require Import Prelude Config Pqueue ChannelModel Ssd Nvme FdpLog FdpFtl FdpGeom FdpInv FdpOps FdpAdvance.

#[local] Open Scope Z_scope.

Section handles.
Context `{NH : !Handles}.

(** ** Timing steps *)

Lemma finv_same_nand v X ex adv f s' :
  finv v X ex adv f → same_nand (ftl_ssd f) s' → finv v X ex adv (set_ssd s' f).
Proof.
  intros [[Hsp Hn Hli Hls Hws Hcl] Hm] Hs. pose proof Hs as [Es Hb].
  assert (fsp (set_ssd s' f) = fsp f) as Efsp by exact Es.
  assert (∀ q, pstatus s' q = pstatus (ftl_ssd f) q) as Hst by (intros; by apply pstatus_same_nand).
  assert (∀ sp l st, lcnt sp s' l st = lcnt sp (ftl_ssd f) l st) as Hlc.
  { intros. apply cnt_ext. intros q _. unfold isst. by rewrite Hst. }
  split; [split|]; rewrite ?Efsp; simpl; try done.
  - intros p Hp. rewrite Hb. by apply Hn.
  - destruct Hli as [L1 L2 L3]. split; [done..|]. intros l x Hx Hv. rewrite !Hlc. by apply L3.
  - eapply wps_ok_frame; [done| |done|done|].
    + intros q _. by rewrite Hst.
    + intros l x Hx. by exists x.
  - destruct Hcl as [C1 C2 C3 C4]. split; [| | |done]; intros p; rewrite Hst; auto.
  - destruct Hm as [M1 M2 M3 M4]. split; [done..| |]; intros *; rewrite Hst; auto.
Qed.

(** What collecting does to the shared state: [n] bytes are programmed and [m]
    bytes erased; time passes. *)
Record gshared (n m : Z) (sh sh' : shared) : Prop := {
  gs_ops : sh_ops sh' = sh_ops sh;
  gs_wbuf : env_wbuf (sh_env sh') = env_wbuf (sh_env sh);
  gs_recent : recent (sh_ctx sh').1 = recent (sh_ctx sh).1;
  gs_hbmw : fx_hbmw (sh_ctx sh').1 = fx_hbmw (sh_ctx sh).1;
  gs_attr : fx_ruh_attr (sh_ctx sh').1 = fx_ruh_attr (sh_ctx sh).1;
  gs_mbmw : fx_mbmw (sh_ctx sh').1 = u64 (fx_mbmw (sh_ctx sh).1 + n);
  gs_mbe : fx_mbe (sh_ctx sh').1 = u64 (fx_mbe (sh_ctx sh).1 + m);
  gs_events : fx_events (sh_ctx sh').1 = fx_events (sh_ctx sh).1;
  gs_ticks : (sh_ctx sh').2 = (sh_ctx sh).2;
}.

Lemma gshared_refl sh : ctx_wf (sh_ctx sh).1 → gshared 0 0 sh sh.
Proof.
  intros Hc. pose proof (xw_counters _ Hc) as (_ & ? & ? & _).
  split; try done; rewrite Z.add_0_r, u64_small; done.
Qed.

Lemma u64_add a b c : u64 (u64 (a + b) + c) = u64 (a + (b + c)).
Proof. unfold u64. rewrite Zplus_mod_idemp_l. f_equal. lia. Qed.

Lemma gshared_trans n m n' m' sh1 sh2 sh3 :
  gshared n m sh1 sh2 → gshared n' m' sh2 sh3 → gshared (n + n') (m + m') sh1 sh3.
Proof.
  intros [] []. split; try congruence.
  - rewrite gs_mbmw1, gs_mbmw0. apply u64_add.
  - rewrite gs_mbe1, gs_mbe0. apply u64_add.
Qed.

Section timing.
Context `{!Clock}.
Hypothesis clock_range : ∀ n, 0 ≤ cpu_clock n.

Lemma wp_on_nand ncmd f sh Q :
  senv_ok (f, sh) → ppa_in (fsp f) (ncmd_ppa ncmd) → 0 ≤ ncmd_stime ncmd →
  (ncmd_cmd ncmd = NAND_READ → 0 < ncmd_xfer_size ncmd) →
  (∀ t s' sh', 0 ≤ t → same_nand (ftl_ssd f) s' → senv_ok (set_ssd s' f, sh') →
     gshared 0 0 sh sh' → sh_ctx sh' = sh_ctx sh → Q t (set_ssd s' f, sh')) →
  wp (on_ssd (ssd_advance_nand ncmd)) (f, sh) Q.
Proof using clock_range.
  intros [Hto Hc] Hp Hs Hr HQ. unfold on_ssd. apply wp_zoom. simpl.
  eapply wp_mono; [by apply wp_advance_nand|]. intros t [s' e'] ((Hto' & Hn & Hw) & Ht & _). simpl in *.
  apply HQ; try done. destruct (gshared_refl sh Hc). by split.
Qed.
End timing.

(** ** The order of collection *)

(** The pages of a line are visited by flash page, channel and LUN. *)
Definition fidx (sp : ssdparams) (p : ppa) : Z :=
  (g_pg p / pgs_per_flashpg sp * nchs sp + g_ch p) * luns_per_ch sp + g_lun p.
Definition gidx (sp : ssdparams) (p : ppa) : Z :=
  fidx sp p * pgs_per_flashpg sp + g_pg p mod pgs_per_flashpg sp.

(** The blocks erased after [K] flash pages. *)
Definition erased (sp : ssdparams) (K : Z) (p : ppa) : bool :=
  ((flashpgs_per_blk sp - 1) * nchs sp + g_ch p) * luns_per_ch sp + g_lun p <? K.

(** The valid pages of line [l] among the first [k]. *)
Definition moved (sp : ssdparams) (s : ssd) (l k : Z) : Z :=
  cnt (λ q, isst s PG_VALID q && (gidx sp q <? k)) (lpages sp l).

Section order.
Context (sp : ssdparams) (Hsp : sp_ok sp).

Lemma fidx_range p :
  ppa_in sp p → 0 ≤ fidx sp p < flashpgs_per_blk sp * nchs sp * luns_per_ch sp.
Proof using Hsp.
  intros [Hc Hl _ _ Hpg _]. sp_facts Hsp. unfold fidx.
  assert (0 ≤ g_pg p / pgs_per_flashpg sp < flashpgs_per_blk sp) as Hrow.
  { split; [apply Z.div_pos; lia|]. apply Z.div_lt_upper_bound; lia. }
  pose proof (mixed_radix_lt _ _ _ _ Hrow Hc) as H1.
  exact (mixed_radix_lt _ _ _ _ H1 Hl).
Qed.

Lemma gidx_inj p q :
  ppa_in sp p → ppa_in sp q → g_blk p = g_blk q → gidx sp p = gidx sp q → p = q.
Proof using Hsp.
  intros [Hc Hl Hpl _ Hpg Hr] [Hc' Hl' Hpl' _ Hpg' Hr'] Hb. unfold gidx, fidx. sp_facts Hsp.
  pose proof (Z.mod_pos_bound (g_pg p) (pgs_per_flashpg sp) F_flash) as Ho.
  pose proof (Z.mod_pos_bound (g_pg q) (pgs_per_flashpg sp) F_flash) as Ho'.
  intros H. apply mixed_radix_inj in H as [H Hoff]; [|done|done].
  apply mixed_radix_inj in H as [H Hlun]; [|done|done].
  apply mixed_radix_inj in H as [Hrow Hch]; [|done|done].
  assert (g_pg p = g_pg q) as Hpgq.
  { rewrite (Z.div_mod (g_pg p) (pgs_per_flashpg sp)), (Z.div_mod (g_pg q) (pgs_per_flashpg sp))
      by lia. congruence. }
  destruct p, q; simpl in *; congruence.
Qed.

Lemma gidx_lt p K : gidx sp p < K * pgs_per_flashpg sp ↔ fidx sp p < K.
Proof using Hsp.
  sp_facts Hsp. unfold gidx. pose proof (Z.mod_pos_bound (g_pg p) (pgs_per_flashpg sp) F_flash). nia.
Qed.

(** One page more. *)
Lemma moved_step s p :
  ppa_in sp p →
  moved sp s (g_blk p) (gidx sp p + 1)
    = moved sp s (g_blk p) (gidx sp p) + Z.b2z (isst s PG_VALID p).
Proof using Hsp.
  intros Hp. unfold moved.
  rewrite (cnt_upd (λ q, isst s PG_VALID q && (gidx sp q <? gidx sp p)) _ _ p).
  - rewrite (proj2 (Z.ltb_ge (gidx sp p) (gidx sp p))), (proj2 (Z.ltb_lt (gidx sp p) (gidx sp p + 1))) by lia.
    rewrite andb_false_r, andb_true_r. simpl. lia.
  - apply NoDup_lpages.
  - apply elem_of_lpages; [done|apply Hp|done].
  - intros q Hq Hne. apply (elem_of_lpages sp Hsp) in Hq as [Hq Hb]; [|apply Hp]. f_equal.
    assert (gidx sp q ≠ gidx sp p) by (intros E; apply Hne; by apply gidx_inj).
    destruct (Z.ltb_spec (gidx sp q) (gidx sp p)), (Z.ltb_spec (gidx sp q) (gidx sp p + 1)); lia || done.
Qed.

Lemma moved_le s l k : moved sp s l k ≤ lcnt sp s l PG_VALID.
Proof using.
  unfold moved, lcnt. induction (lpages sp l) as [|q L IH]; simpl; [done|].
  destruct (isst s PG_VALID q), (gidx sp q <? k); simpl; lia.
Qed.

Lemma moved_0 s l : 0 ≤ l < blks_per_pl sp → moved sp s l 0 = 0.
Proof using Hsp.
  intros Hl. apply cnt_none. intros q [Hq _]%(elem_of_lpages sp Hsp); [|done].
  sp_facts Hsp. pose proof (fidx_range q Hq).
  pose proof (Z.mod_pos_bound (g_pg q) (pgs_per_flashpg sp) F_flash).
  rewrite (proj2 (Z.ltb_ge _ _)); [apply andb_false_r|]. unfold gidx. nia.
Qed.

Lemma moved_all s l :
  0 ≤ l < blks_per_pl sp →
  moved sp s l (flashpgs_per_blk sp * nchs sp * luns_per_ch sp * pgs_per_flashpg sp)
    = lcnt sp s l PG_VALID.
Proof using Hsp.
  intros Hl. apply cnt_ext. intros q [Hq _]%(elem_of_lpages sp Hsp); [|done].
  rewrite (proj2 (Z.ltb_lt _ _)); [apply andb_true_r|]. apply gidx_lt. by apply fidx_range.
Qed.
End order.

(** ** The room behind one write pointer *)

Definition GC_WP : Z := NR_RUH.

Lemma GC_WP_range : 0 ≤ GC_WP < NR_WP.
Proof. pose proof NR_WP_range. unfold GC_WP. lia. Qed.
Lemma ruh_of_gc : ruh_of GC_WP = -1.
Proof. unfold ruh_of, GC_WP. by rewrite Z.eqb_refl. Qed.
Definition wroom (w : Z) (f : fdp_ftl) : Z :=
  pgs_per_line (fsp f) * lm_free_line_cnt (ftl_lm f) + left_of f w.

Lemma wroom_room w f f' :
  0 ≤ w < NR_WP → fsp f' = fsp f → (∀ w', w' ≠ w → wp_of f' w' = wp_of f w') →
  room f' - wroom w f' = room f - wroom w f.
Proof.
  intros Hw Es Hwp. unfold room, wroom. rewrite (zsum_upd (left_of f) (left_of f') _ w).
  - rewrite Es. lia.
  - apply NoDup_seqZ.
  - apply elem_of_seqZ. lia.
  - intros w' _ Hne. unfold left_of. by rewrite Es, Hwp.
Qed.

Lemma wroom_advanced w f f' :
  0 ≤ w < NR_WP → advanced w f f' → wroom w f' = wroom w f - 1.
Proof.
  intros Hw [E1 _ _ _ _ Hwp Hr _]. assert (fsp f' = fsp f) as Es by (unfold fsp; by rewrite E1).
  pose proof (wroom_room w f f' Hw Es Hwp). lia.
Qed.

Lemma wroom_ext w f f' :
  fsp f' = fsp f → lm_free_line_cnt (ftl_lm f') = lm_free_line_cnt (ftl_lm f) →
  wp_of f' w = wp_of f w → wroom w f' = wroom w f.
Proof. intros E1 E2 E3. unfold wroom, left_of. by rewrite E1, E2, E3. Qed.

(** A pointer at the end of its line with room behind it finds a free line. *)
Lemma wroom_free v adv f w :
  fbase v adv f → 1 < wroom w f → left_of f w = 1 → lm_free_line_list (ftl_lm f) ≠ [].
Proof.
  intros Hfb Hr Hl Hnil. pose proof (ls_free_cnt _ _ _ _ (fb_lists _ _ _ Hfb)) as Hc.
  rewrite Hnil in Hc. simpl in Hc. unfold wroom in Hr. rewrite Hc, Hl in Hr. lia.
Qed.

(** ** Which logical pages are mapped *)

Definition mapped_at (f : fdp_ftl) (lpn : Z) : bool :=
  match aget (ftl_maptbl f) lpn with Some p => mapped_ppa p | None => false end.

Lemma mapped_at_set f f' lpn p k :
  0 ≤ lpn < alen (ftl_maptbl f) → mapped_ppa p = true →
  ftl_maptbl f' = aset (ftl_maptbl f) lpn p →
  mapped_at f' k = if decide (lpn = k) then true else mapped_at f k.
Proof. intros Hl Hp E. unfold mapped_at. rewrite E, aget_aset by done. by case_decide. Qed.

(** ** Where data is relocated to

    Lines keep their handle or lose it, and a logical page keeps its place or
    moves to a line without a handle. *)

Record relocated (f f' : fdp_ftl) : Prop := {
  rl_ruh l x' : aget (lm_lines (ftl_lm f')) l = Some x' →
    ∃ x, aget (lm_lines (ftl_lm f)) l = Some x ∧ (ln_ruh x' = ln_ruh x ∨ ln_ruh x' = -1);
  rl_place lpn p : aget (ftl_maptbl f') lpn = Some p → mapped_ppa p = true →
    aget (ftl_maptbl f) lpn = Some p ∨
    ∀ x, aget (lm_lines (ftl_lm f')) (g_blk p) = Some x → ln_ruh x = -1;
}.

#[export] Instance relocated_preorder : PreOrder relocated.
Proof.
  split.
  - intros f. split; [|by auto]. intros l x Hx. eauto.
  - intros f1 f2 f3 [A1 A2] [B1 B2]. split.
    + intros l x3 Hx3. destruct (B1 l x3 Hx3) as (x2 & Hx2 & H3). destruct (A1 l x2 Hx2) as (x1 & Hx1 & H2).
      exists x1. split; [done|]. intuition congruence.
    + intros lpn p Hp Hm. destruct (B2 lpn p Hp Hm) as [Hp2|H3]; [|by right].
      destruct (A2 lpn p Hp2 Hm) as [Hp1|H2]; [by left|right]. intros x3 Hx3.
      destruct (B1 _ x3 Hx3) as (x2 & Hx2 & H). specialize (H2 x2 Hx2). intuition congruence.
Qed.

(** Changes that keep the map and the handles. *)
Lemma relocated_same f f' :
  ftl_maptbl f' = ftl_maptbl f → same_ruh (lm_lines (ftl_lm f)) (lm_lines (ftl_lm f')) → relocated f f'.
Proof.
  intros E H. split.
  - intros l x' Hx'. destruct (H l x' Hx') as (x & Hx & Hr). eauto.
  - intros lpn p. rewrite E. auto.
Qed.

Lemma same_ruh_pos lines lines' : same_but_pos lines lines' → same_ruh lines lines'.
Proof. intros [_ H] l x' Hx'. destruct (H l x' Hx') as (x & Hx & ->). by exists x. Qed.

(** A page copied behind the collector's pointer. *)
Lemma relocated_copy v adv f f1 f2 lpn :
  fbase v adv f → programmed lpn (wp_ppa (wp_of f GC_WP)) f f1 → advanced GC_WP f1 f2 → relocated f f2.
Proof.
  intros Hfb Hp Ha.
  assert (∀ l x', aget (lm_lines (ftl_lm f2)) l = Some x' →
    ∃ x, aget (lm_lines (ftl_lm f)) l = Some x ∧ (ln_ruh x' = ln_ruh x ∨ ln_ruh x' = -1)) as Hr.
  { intros l x2 Hx2. destruct (ad_ruh _ _ _ Ha l x2 Hx2) as (x1 & Hx1 & H2).
    destruct (pr_ruh _ _ _ _ Hp l x1 Hx1) as (x & Hx & H1). exists x. split; [done|].
    rewrite ruh_of_gc in H2. intuition congruence. }
  split; [done|]. intros k p. rewrite (ad_maptbl _ _ _ Ha), (pr_maptbl _ _ _ _ Hp). intros Hk Hm.
  destruct (decide (lpn = k)) as [<-|Hne]; [|rewrite aget_aset_ne in Hk by done; by left].
  destruct (decide (0 ≤ lpn < alen (ftl_maptbl f))) as [Hl|Hl].
  - rewrite aget_aset_eq in Hk by done. injection Hk as <-. right. intros x2 Hx2.
    destruct (Hr _ _ Hx2) as (x & Hx & H). simpl in Hx.
    pose proof (ws_ruh _ _ _ _ (fb_wps _ _ _ Hfb) GC_WP x GC_WP_range Hx) as H8.
    change (ln_ruh x = ruh_of GC_WP) in H8. rewrite ruh_of_gc in H8. intuition congruence.
  - left. by rewrite aset_oob in Hk.
Qed.

(** ** The state of a collection

    [gc_at l K k]: [K] flash pages of line [l] are done (the blocks whose last
    flash page is among them are erased) and the first [k] pages have been
    looked at.  [f0], [sh0] is the state in which the collection began. *)

Record gc_at (f0 : fdp_ftl) (sh0 : shared) (l K k : Z) (st : fstate) : Prop := {
  ga_finv : finv (Some l) (λ q, gidx (fsp f0) q < k) None None (fst st);
  ga_senv : senv_ok st;
  ga_sp : fsp (fst st) = fsp f0;
  ga_cp : ftl_cp (fst st) = ftl_cp f0;
  ga_wfc : ftl_wfc (fst st) = ftl_wfc f0;
  ga_wp w : w ≠ GC_WP → wp_of (fst st) w = wp_of f0 w;
  ga_status q : ppa_in (fsp f0) q → g_blk q = l →
    pstatus (ftl_ssd (fst st)) q
      = if erased (fsp f0) K q then Some PG_FREE else pstatus (ftl_ssd f0) q;
  ga_mapped lpn : mapped_at (fst st) lpn = mapped_at f0 lpn;
  ga_room : wroom GC_WP (fst st) = wroom GC_WP f0 - moved (fsp f0) (ftl_ssd f0) l k;
  ga_shared : gshared (moved (fsp f0) (ftl_ssd f0) l k * pgsz (fsp f0))
    (Z.max 0 (K - (flashpgs_per_blk (fsp f0) - 1) * nchs (fsp f0) * luns_per_ch (fsp f0))
       * (pgs_per_blk (fsp f0) * pgsz (fsp f0))) sh0 (snd st);
  ga_reloc : relocated f0 (fst st);
}.

(** What is fixed while a line is collected. *)
Record gc_env (f0 : fdp_ftl) (sh0 : shared) (l : Z) : Prop := {
  ge_sp : sp_ok (fsp f0);
  ge_line : 0 ≤ l < blks_per_pl (fsp f0);
  ge_used p : ppa_in (fsp f0) p → g_blk p = l →
    pstatus (ftl_ssd f0) p = Some PG_VALID ∨ pstatus (ftl_ssd f0) p = Some PG_INVALID;
  ge_room : 1 < wroom GC_WP f0 - lcnt (fsp f0) (ftl_ssd f0) l PG_VALID;
}.

(** The map with one page more looked at: it was moved, or it was invalid. *)
Lemma map_ok_moved sp s l k maptbl rmap p lpn :
  sp_ok sp → map_ok sp s None (stale (Some l) (λ q, gidx sp q < k)) maptbl rmap →
  ppa_in sp p → g_blk p = l → gidx sp p = k → pstatus s p = Some PG_VALID →
  aget rmap (pgidx sp p) = Some lpn →
  map_ok sp s (Some lpn) (stale (Some l) (λ q, gidx sp q < k + 1)) maptbl rmap ∧
  aget maptbl lpn = Some p.
Proof.
  intros Hsp [M1 M2 M3 M4] Hp Hb Hk Hst Hr.
  assert (∀ q, stale (Some l) (λ q, gidx sp q < k) q → stale (Some l) (λ q, gidx sp q < k + 1) q) as Hmono.
  { intros q [H1 H2]. split; [done|lia]. }
  assert (¬ stale (Some l) (λ q, gidx sp q < k) p) as Hns by (intros [_ H]; lia).
  destruct (M4 p Hp Hst Hns) as (lpn' & Hr' & _ & Hm). assert (lpn' = lpn) as -> by congruence.
  split; [|done]. split; [done..| |].
  - intros lpn' q Hq Hne Hu. destruct (M3 lpn' q Hq ltac:(done) Hu) as (Hqi & Hqv & Hqs & Hqr).
    split_and!; try done. intros [Hql Hqk]. apply Hqs. split; [done|].
    assert (gidx sp q ≠ k); [|lia]. intros E. apply Hne.
    assert (q = p) as -> by (apply (gidx_inj sp Hsp); try done; congruence). congruence.
  - intros q Hq Hv Hs. destruct (M4 q Hq Hv) as (lpn' & Hqr & _ & Hqm); [naive_solver|].
    exists lpn'. split_and!; try done. intros [= <-]. apply Hs. split; [congruence|].
    assert (q = p) as -> by congruence. lia.
Qed.

Lemma map_ok_skipped sp s l k maptbl rmap p :
  sp_ok sp → map_ok sp s None (stale (Some l) (λ q, gidx sp q < k)) maptbl rmap →
  ppa_in sp p → g_blk p = l → gidx sp p = k → pstatus s p ≠ Some PG_VALID →
  map_ok sp s None (stale (Some l) (λ q, gidx sp q < k + 1)) maptbl rmap.
Proof.
  intros Hsp [M1 M2 M3 M4] Hp Hb Hk Hst. split; [done..| |].
  - intros lpn q Hq Hne Hu. destruct (M3 lpn q Hq ltac:(done) Hu) as (Hqi & Hqv & Hqs & Hqr).
    split_and!; try done. intros [Hql Hqk]. apply Hqs. split; [done|].
    assert (gidx sp q ≠ k); [|lia]. intros E.
    assert (q = p) as -> by (apply (gidx_inj sp Hsp); try done; congruence). done.
  - intros q Hq Hv Hs. apply M4; [done..|]. intros [H1 H2]. apply Hs. split; [done|lia].
Qed.

(** ** Statistics *)

Definition on_mbmw (n : Z) (sh : shared) : shared :=
  Shared (sh_env sh) (set_mbmw (u64 (fx_mbmw (sh_ctx sh).1 + n)) (sh_ctx sh).1, (sh_ctx sh).2) (sh_ops sh).
Definition on_mbe (n : Z) (sh : shared) : shared :=
  Shared (sh_env sh) (set_mbe (u64 (fx_mbe (sh_ctx sh).1 + n)) (sh_ctx sh).1, (sh_ctx sh).2) (sh_ops sh).

Lemma on_mbmw_ok n f sh :
  senv_ok (f, sh) → senv_ok (f, on_mbmw n sh) ∧ gshared n 0 sh (on_mbmw n sh).
Proof.
  intros [Hto Hc]. pose proof (gshared_refl sh Hc) as []. split; [split|].
  - done.
  - destruct Hc as [? ? ? ? ? ? (? & ? & ? & ?)]. split; try done. simpl.
    pose proof (u64_range (fx_mbmw (sh_ctx sh).1 + n)). done.
  - by split.
Qed.

Lemma on_mbe_ok n f sh :
  senv_ok (f, sh) → senv_ok (f, on_mbe n sh) ∧ gshared 0 n sh (on_mbe n sh).
Proof.
  intros [Hto Hc]. pose proof (gshared_refl sh Hc) as []. split; [split|].
  - done.
  - destruct Hc as [? ? ? ? ? ? (? & ? & ? & ?)]. split; try done. simpl.
    pose proof (u64_range (fx_mbe (sh_ctx sh).1 + n)). done.
  - by split.
Qed.

(** A timing step in the middle of a collection. *)
Lemma gc_at_timing f0 sh0 l K k f sh s' sh' :
  gc_at f0 sh0 l K k (f, sh) → same_nand (ftl_ssd f) s' → senv_ok (set_ssd s' f, sh') →
  gshared 0 0 sh sh' → gc_at f0 sh0 l K k (set_ssd s' f, sh').
Proof.
  intros [A1 A2 A3 A4 A5 A6 A7 A8 A9 A10 A11] Hn Hs Hg. simpl in *. pose proof (proj1 Hn) as Es.
  split; simpl; try done.
  - by apply finv_same_nand.
  - unfold fsp in *. simpl. congruence.
  - intros q Hq Hb. rewrite (pstatus_same_nand _ _ _ Hn). by apply A7.
  - rewrite <- A9. by apply wroom_ext.
  - pose proof (gshared_trans _ _ _ _ _ _ _ A10 Hg) as H. by rewrite !Z.add_0_r in H.
  - destruct A11. by split.
Qed.

Section collect.
Context `{CK : !Clock} `{LC : !LocalClock}.
Hypothesis clock_range : ∀ n, 0 ≤ cpu_clock n.
Context (f0 : fdp_ftl) (sh0 : shared) (l : Z).
Hypothesis Henv : gc_env f0 sh0 l.
Let sp := fsp f0.

(** The copying of one valid page. *)
Lemma gc_copy_state K k p f f1 f2 sh lpn :
  gc_at f0 sh0 l K k (f, sh) → ppa_in sp p → g_blk p = l → gidx sp p = k →
  pstatus (ftl_ssd f0) p = Some PG_VALID →
  aget (ftl_maptbl f) lpn = Some p →
  programmed lpn (wp_ppa (wp_of f GC_WP)) f f1 → advanced GC_WP f1 f2 →
  finv (Some l) (λ q, gidx sp q < k + 1) None None f2 →
  gc_at f0 sh0 l K (k + 1) (f2, on_mbmw (pgsz sp) sh).
Proof using Henv.
  intros [A1 A2 A3 A4 A5 A6 A7 A8 A9 A10 A11] Hp Hb Hk Hst Hm Hpr Had Hf2. simpl in *.
  pose proof (relocated_copy _ _ _ _ _ _ (fi_base _ _ _ _ _ A1) Hpr Had) as Hrl.
  destruct Hpr as [P1 P2 P3 P4 P5 P6 P7 P8 P9 P10], Had as [D1 D2 D3 D4 D5 D6 D7 D8].
  pose proof (ge_sp _ _ _ Henv) as Hsp. fold sp in Hsp.
  assert (fsp f2 = fsp f) as E2 by (unfold fsp in *; congruence).
  pose proof GC_WP_range as Hg.
  pose proof (open_line _ _ _ _ (fi_base _ _ _ _ _ A1) Hg) as (_ & _ & _ & _ & Hov & _).
  pose proof (wo_in _ _ _ _ (ws_ok _ _ _ _ (fb_wps _ _ _ (fi_base _ _ _ _ _ A1)) _ Hg)) as Hin.
  assert (senv_ok (f2, sh)) as Hs2.
  { destruct A2 as [A2 A2']. split; [simpl; rewrite D1; by apply P8|done]. }
  assert (moved sp (ftl_ssd f0) l (k + 1) = moved sp (ftl_ssd f0) l k + 1) as Hmv.
  { rewrite <- Hk, <- Hb. rewrite (moved_step sp Hsp) by done.
    unfold isst. rewrite Hst, bool_decide_true by done. done. }
  destruct (on_mbmw_ok (pgsz sp) f2 sh Hs2) as [Hs3 Hg3].
  split; simpl; try done; try congruence.
  - intros w Hw. rewrite D6, P5 by done. by apply A6.
  - intros q Hq Hqb. rewrite D1. rewrite A3 in *.
    rewrite (P9 q Hq), decide_False; [by apply A7|].
    intros ->. apply Hov. by rewrite <- Hqb.
  - intros k'. rewrite <- A8. unfold mapped_at at 1. rewrite D4. fold (mapped_at f1 k').
    pose proof (mapped_ppa_in _ _ Hsp Hp) as Hmp.
    rewrite (mapped_at_set f f1 lpn (wp_ppa (wp_of f GC_WP)));
      [|by eapply aget_inv| |done].
    + case_decide as Hd; [|done]. subst k'. unfold mapped_at. by rewrite Hm.
    + apply (mapped_ppa_in sp); [done|]. unfold sp; by rewrite <- A3.
  - rewrite (wroom_advanced GC_WP f1 f2) by done. fold sp. rewrite Hmv.
    rewrite (wroom_ext GC_WP f f1) by done. rewrite A9. fold sp. lia.
  - pose proof (gshared_trans _ _ _ _ _ _ _ A10 Hg3) as Hgs. fold sp. fold sp in Hgs. rewrite Hmv.
    rewrite Z.add_0_r in Hgs.
    by replace ((moved sp (ftl_ssd f0) l k + 1) * pgsz sp)
      with (moved sp (ftl_ssd f0) l k * pgsz sp + pgsz sp) by lia.
  - by etrans.
Qed.

Lemma wp_gc_write_page K k p st :
  gc_at f0 sh0 l K k st → ppa_in sp p → g_blk p = l → gidx sp p = k → erased sp K p = false →
  pstatus (ftl_ssd f0) p = Some PG_VALID →
  wp (gc_write_page p) st (λ _ st', gc_at f0 sh0 l K (k + 1) st').
Proof using clock_range Henv.
  destruct st as [f sh]. intros Hat Hp Hb Hk Hke Hst.
  pose proof (ge_sp _ _ _ Henv) as Hsp. fold sp in Hsp.
  pose proof Hat as [A1 A2 A3 A4 A5 A6 A7 A8 A9 A10 A11]. simpl in *. fold sp in A3, A7.
  pose proof A1 as [Hfb Hmap]. rewrite A3 in Hmap.
  assert (pstatus (ftl_ssd f) p = Some PG_VALID) as Hstf by by rewrite A7, Hke.
  destruct (mo_bwd _ _ _ _ _ _ Hmap p Hp Hstf) as (lpn & Hr & _ & Hlm).
  { intros [_ Hlt]. fold sp in Hlt. lia. }
  destruct (map_ok_moved sp (ftl_ssd f) l k (ftl_maptbl f) (ftl_rmap f) p lpn) as [Hmap' _]; try done.
  pose proof (aget_inv _ _ _ Hlm) as Hlr. rewrite (mo_maptbl _ _ _ _ _ _ Hmap) in Hlr.
  assert (wio_ok GC_IO 0) as Hio by done.
  unfold gc_write_page. f_step. f_step. f_step. eapply wp_get_rmap_ent; [by rewrite A3..|].
  f_step. f_step; [unfold valid_lpn; apply Z.ltb_lt; rewrite A3; lia|].
  f_step. eapply wp_get_new_page; [apply Hfb|done|apply Hfb|].
  change (wid GC_IO 0) with GC_WP.
  eapply (wp_program _ GC_WP f sh lpn (Some l) (λ q, gidx sp q < k + 1)); [|apply GC_WP_range|by rewrite A3|].
  { split; [done|]. by rewrite A3. }
  intros f1 Hf1 Hpr. f_step. eapply (wp_advance GC_IO 0); [exact Hf1|done| |].
  { intros Hleft. eapply wroom_free; [apply Hf1| |done].
    change (wid GC_IO 0) with GC_WP. rewrite (wroom_ext GC_WP f f1) by apply Hpr. rewrite A9. fold sp.
    pose proof (ge_room _ _ _ Henv) as Hroom. fold sp in Hroom.
    pose proof (moved_le sp (ftl_ssd f0) l (k)). lia. }
  intros f2 Hf2 Had. change (wid GC_IO 0) with GC_WP in Had.
  f_step. f_step. rewrite A3.
  match goal with |- wp _ (f2, ?s) _ => change s with (on_mbmw (pgsz sp) sh) end.
  assert (gc_at f0 sh0 l K (k + 1) (f2, on_mbmw (pgsz sp) sh)) as Hat2
    by by eapply gc_copy_state.
  f_step. f_step. f_step.
  apply wp_mono with (λ _ st', gc_at f0 sh0 l K (k + 1) st'); [|by intros [] st' Hst'; f_step].
  f_step; [|done]. f_step.
  assert (ppa_in (fsp f2) (wp_ppa (wp_of f GC_WP))) as Hnew.
  { pose proof (ga_sp _ _ _ _ _ _ Hat2) as E2. simpl in E2. rewrite E2. fold sp. rewrite <- A3.
    apply (ws_ok _ _ _ _ (fb_wps _ _ _ Hfb)). apply GC_WP_range. }
  apply wp_on_nand; try done; [apply Hat2|by destruct (last_pg_in_wordline _ _)..|].
  intros t s' sh' _ Hn Hs Hg _. f_step. by eapply gc_at_timing.
Qed.

(** A page that is not valid is passed over. *)
Lemma gc_at_skip K k p st :
  gc_at f0 sh0 l K k st → ppa_in sp p → g_blk p = l → gidx sp p = k → erased sp K p = false →
  pstatus (ftl_ssd f0) p ≠ Some PG_VALID → gc_at f0 sh0 l K (k + 1) st.
Proof using Henv.
  intros [A1 A2 A3 A4 A5 A6 A7 A8 A9 A10 A11] Hp Hb Hk Hke Hst.
  pose proof (ge_sp _ _ _ Henv) as Hsp. fold sp in Hsp, A3, A7.
  assert (moved sp (ftl_ssd f0) l (k + 1) = moved sp (ftl_ssd f0) l k) as Hmv.
  { rewrite <- Hk, <- Hb. rewrite (moved_step sp Hsp) by done.
    unfold isst. rewrite bool_decide_false by done. simpl. lia. }
  split; try done; fold sp; rewrite ?Hmv; try done.
  destruct A1 as [Hfb Hm]. rewrite A3 in Hm. split; [done|]. rewrite A3.
  eapply map_ok_skipped; try done. by rewrite A7, Hke.
Qed.

(** The [j]th page of a flash page. *)
Definition fpage (fp ch lun j : Z) : ppa := Ppa (fp * pgs_per_flashpg sp + j) l 0 lun ch 0.
Definition fnum (fp ch lun : Z) : Z := (fp * nchs sp + ch) * luns_per_ch sp + lun.

Section flash_page.
Context (fp ch lun : Z).
Hypothesis (Hfp : 0 ≤ fp < flashpgs_per_blk sp) (Hch : 0 ≤ ch < nchs sp).
Hypothesis (Hlun : 0 ≤ lun < luns_per_ch sp).
Let K := fnum fp ch lun.
Let pf := pgs_per_flashpg sp.
Let pg := fpage fp ch lun.

Lemma fpage_in j : 0 ≤ j < pf → ppa_in sp (pg j) ∧ gidx sp (pg j) = K * pf + j ∧ erased sp K (pg j) = false.
Proof using Henv Hfp Hch Hlun.
  intros Hj. pose proof (ge_sp _ _ _ Henv) as Hsp. pose proof (ge_line _ _ _ Henv) as Hl.
  fold sp in Hsp, Hl. sp_facts Hsp. fold pf in F_flash, F_flashs.
  assert ((fp * pf + j) / pf = fp ∧ (fp * pf + j) mod pf = j) as [Hd Hm].
  { split; symmetry; [apply (Z.div_unique_pos _ _ _ j)|apply (Z.mod_unique_pos _ _ fp)]; lia. }
  split_and!.
  - split; simpl; try done. fold pf. nia.
  - unfold gidx, fidx, pg, fpage; simpl. fold pf. rewrite Hd, Hm. done.
  - apply Z.ltb_ge. unfold K, fnum; simpl. nia.
Qed.

Lemma fpage_next j : 0 ≤ j → j + 1 < pf → set_g_pg (g_pg (pg j) + 1) (pg j) = pg (j + 1).
Proof using Henv Hfp Hch Hlun.
  intros H1 H2. destruct (fpage_in (j + 1)) as (Hin & _); [lia|].
  pose proof (pi_pg _ _ Hin) as Hpg. pose proof (so_ppb _ (ge_sp _ _ _ Henv)) as Hppb. fold sp in Hppb.
  unfold set_g_pg, pg, fpage in *; simpl in *. f_equal. rewrite Z.mod_small; lia.
Qed.

Lemma fpage_status k j st :
  gc_at f0 sh0 l K k st → 0 ≤ j < pf →
  ∃ x, get_pg (ftl_ssd (fst st)) (pg j) = Some x ∧
    pstatus (ftl_ssd f0) (pg j) = Some (pg_status x) ∧
    (pg_status x = PG_VALID ∨ pg_status x = PG_INVALID).
Proof using Henv Hfp Hch Hlun.
  intros Hat Hj. destruct (fpage_in j Hj) as (Hin & _ & He).
  pose proof (ga_status _ _ _ _ _ _ Hat (pg j) Hin eq_refl) as Hs. fold sp in Hs. rewrite He in Hs.
  destruct (ge_used _ _ _ Henv (pg j) Hin eq_refl) as [Hu|Hu]; rewrite Hu in Hs |- *;
    apply pstatus_inv in Hs as (x & Hx & E); exists x; rewrite E; auto.
Qed.

Lemma wp_count_valid n j c k st p :
  gc_at f0 sh0 l K k st → 0 ≤ j → Z.of_nat n = pf - j → ((0 < n)%nat → p = pg j) →
  wp (count_valid_pages n p c) st (λ r st', st' = st ∧ c ≤ r ≤ c + Z.of_nat n ∧
    (r ≤ c → ∀ i, j ≤ i < pf → pstatus (ftl_ssd f0) (pg i) ≠ Some PG_VALID)).
Proof using Henv Hfp Hch Hlun.
  revert j c p. induction n as [|n IH]; intros j c p Hat Hj Hn Hp; simpl.
  { split_and!; try done; lia. }
  rewrite (Hp ltac:(lia)). destruct (fpage_status k j st Hat ltac:(lia)) as (x & Hx & Hs & Hc).
  destruct st as [f sh]. f_step. f_step. f_step. eapply wp_deref; [exact Hx|].
  f_step. f_step; [by destruct Hc as [-> | ->]|].
  eapply wp_mono; [apply (IH (j + 1)); [done|lia|lia|intros; apply fpage_next; lia]|].
  intros r st' (-> & Hr & Hall). split; [done|].
  destruct (Z.eqb_spec (pg_status x) PG_VALID) as [E|E]; split; try lia.
  intros Hr0 i Hi. destruct (decide (i = j)) as [->|]; [|apply Hall; lia]. rewrite Hs. congruence.
Qed.

Lemma wp_move_valid n j p st :
  gc_at f0 sh0 l K (K * pf + j) st → 0 ≤ j → Z.of_nat n = pf - j → ((0 < n)%nat → p = pg j) →
  wp (move_valid_pages n p) st (λ _ st', gc_at f0 sh0 l K ((K + 1) * pf) st').
Proof using clock_range Henv Hfp Hch Hlun.
  revert j p st. induction n as [|n IH]; intros j p st Hat Hj Hn Hp; simpl.
  { apply wp_ret. by replace ((K + 1) * pf) with (K * pf + j) by lia. }
  rewrite (Hp ltac:(lia)). destruct (fpage_status _ j st Hat ltac:(lia)) as (x & Hx & Hs & Hc).
  destruct (fpage_in j) as (Hin & Hg & He); [lia|].
  destruct st as [f sh]. f_step. f_step. f_step. eapply wp_deref; [exact Hx|]. f_step.
  apply wp_mono with (λ _ st', gc_at f0 sh0 l K (K * pf + (j + 1)) st').
  - rewrite Z.add_assoc. f_step; bool_prop.
    + f_step. eapply wp_mono; [eapply (wp_gc_write_page K _ (pg j)); [exact Hat|done..|congruence]|].
      intros r st' Hst'. by f_step.
    + eapply (gc_at_skip K _ (pg j)); [exact Hat|done..|congruence].
  - intros [] st' Hst'. apply (IH (j + 1)); [done|lia|lia|]. intros; apply fpage_next; lia.
Qed.

Lemma gc_at_skip_all n j st :
  gc_at f0 sh0 l K (K * pf + j) st → 0 ≤ j → Z.of_nat n = pf - j →
  (∀ i, j ≤ i < pf → pstatus (ftl_ssd f0) (pg i) ≠ Some PG_VALID) →
  gc_at f0 sh0 l K ((K + 1) * pf) st.
Proof using Henv Hfp Hch Hlun.
  revert j. induction n as [|n IH]; intros j Hat Hj Hn Hall.
  { by replace ((K + 1) * pf) with (K * pf + j) by lia. }
  destruct (fpage_in j) as (Hin & Hg & He); [lia|].
  apply (IH (j + 1)); [|lia|lia|intros; apply Hall; lia]. rewrite Z.add_assoc.
  eapply (gc_at_skip K _ (pg j)); [done..|]. apply Hall. lia.
Qed.

Lemma wp_clean_flashpg st :
  gc_at f0 sh0 l K (K * pf) st →
  wp (clean_one_flashpg (pg 0)) st (λ _ st', gc_at f0 sh0 l K ((K + 1) * pf) st').
Proof using clock_range Henv Hfp Hch Hlun.
  intros Hat. pose proof (ge_sp _ _ _ Henv) as Hsp. fold sp in Hsp. sp_facts Hsp. fold pf in F_flash.
  destruct st as [f sh]. pose proof (ga_sp _ _ _ _ _ _ Hat) as Es. simpl in Es. fold sp in Es.
  unfold clean_one_flashpg. f_step. f_step. rewrite Es. fold pf. f_step.
  eapply wp_mono; [apply (wp_count_valid _ 0 0 (K * pf)); [done|lia|lia|done]|].
  intros r st' (-> & Hr & Hnone). destruct (Z.leb_spec r 0) as [H0|H0].
  { f_step. apply (gc_at_skip_all (Z.to_nat pf) 0); [by rewrite Z.add_0_r|lia|lia|]. by apply Hnone. }
  f_step. f_step. f_step.
  apply wp_mono with (λ _ st', gc_at f0 sh0 l K (K * pf) st').
  - f_step; [|done]. f_step. destruct (fpage_in 0) as (Hin & _); [lia|].
    apply wp_on_nand; simpl; try done; [apply Hat|by rewrite Es| |].
    + intros _. pose proof (so_pgsz _ Hsp) as (-> & _). assert (pf ≤ 2 ^ 16) by (fold pf in F_flashs; nia).
      rewrite s32_small, u64_small; lia.
    + intros t s' sh' _ Hn Hs Hg _. f_step. by eapply gc_at_timing.
  - intros [] st' Hst'. apply (wp_move_valid _ 0); [by rewrite Z.add_0_r|lia|lia|done].
Qed.
End flash_page.
End collect.

(** ** Erasing a block *)

(** [s'] is [s] with the block of [p] erased, its counters and those of the block
    aside up to the first [i] pages. *)
Record erasing (i : Z) (p : ppa) (b : nand_block) (s s' : ssd) : Prop := {
  er_sp : ssd_sp s' = ssd_sp s;
  er_other q : ¬ same_blk p q → get_blk s' q = get_blk s q;
  er_blk : ∃ b', get_blk s' p = Some b' ∧ alen (blk_pg b') = alen (blk_pg b) ∧
    blk_npgs b' = blk_npgs b ∧
    ∀ g x', aget (blk_pg b') g = Some x' → ∃ x, aget (blk_pg b) g = Some x ∧
      pg_nsecs x' = pg_nsecs x ∧ pg_status x' = if g <? i then PG_FREE else pg_status x;
  er_timing e : timing_ok (s, e) → timing_ok (s', e);
}.

(** The block after the loop with both counters cleared. *)
Record erased_blk (p : ppa) (sp : ssdparams) (s s' : ssd) : Prop := {
  eb_sp : ssd_sp s' = ssd_sp s;
  eb_other q : ¬ same_blk p q → get_blk s' q = get_blk s q;
  eb_blk : ∃ b', get_blk s' p = Some b' ∧ blk_ok sp b' ∧
    ∀ g, 0 ≤ g < pgs_per_blk sp → pg_status <$> aget (blk_pg b') g = Some PG_FREE;
  eb_timing e : timing_ok (s, e) → timing_ok (s', e);
}.

Lemma bcnt_free sp b st :
  (∀ g, 0 ≤ g < pgs_per_blk sp → pg_status <$> aget (blk_pg b) g = Some PG_FREE) →
  st ≠ PG_FREE → bcnt sp b st = 0.
Proof.
  intros H Hst. apply cnt_none. intros g Hg%elem_of_seqZ. apply bool_decide_false.
  rewrite H by lia. congruence.
Qed.

Lemma erasing_step i p b s s' :
  0 ≤ i → erasing i p b s s' →
  erasing (i + 1) p b s
    (upd_blk (λ b, NandBlock (aupd (blk_pg b) i (set_pg_status PG_FREE)) (blk_npgs b)
                     (blk_ipc b) (blk_vpc b) (blk_erase_cnt b) (blk_wp b)) p s').
Proof.
  intros Hi [E1 E2 (b' & Hb' & Hl & Hn & Hpg) E4]. set (s2 := upd_blk _ p s').
  assert (∀ q, get_blk s2 q = if decide (same_blk p q) then set_pg_in_blk PG_FREE i <$> get_blk s' q
            else get_blk s' q) as Hget by (intros q; apply get_blk_upd_blk).
  split.
  - exact E1.
  - intros q Hq. rewrite Hget, decide_False by done. by apply E2.
  - exists (set_pg_in_blk PG_FREE i b'). rewrite Hget, decide_True, Hb' by done. simpl.
    rewrite alen_aupd. split_and!; try done. intros g y. rewrite aget_aupd.
    destruct (decide (i = g)) as [<-|Hne].
    + destruct (aget (blk_pg b') i) as [x'|] eqn:Hx'; [|done]. destruct (Hpg i x' Hx') as (x & Hx & Hns & _).
      simpl. intros [= <-]. exists x. split_and!; try done. by rewrite (proj2 (Z.ltb_lt _ _)) by lia.
    + intros Hy. destruct (Hpg g y Hy) as (z & Hz & Hzn & Hzs). exists z. split_and!; try done.
      rewrite Hzs. destruct (Z.ltb_spec g i), (Z.ltb_spec g (i + 1)); done || lia.
  - intros e He. apply timing_ok_upd_blk. by apply E4.
Qed.

Lemma erasing_done sp p b s s' n :
  blk_ok sp b → erasing (pgs_per_blk sp) p b s s' →
  erased_blk p sp s (upd_blk (set_blk_counts 0 0 n) p s').
Proof.
  intros Hok [E1 E2 (b' & Hb' & Hl & Hn & Hpg) E4]. set (s2 := upd_blk _ p s').
  assert (∀ q, get_blk s2 q = if decide (same_blk p q) then set_blk_counts 0 0 n <$> get_blk s' q
            else get_blk s' q) as Hget by (intros q; apply get_blk_upd_blk).
  assert (∀ g, 0 ≤ g < pgs_per_blk sp → pg_status <$> aget (blk_pg b') g = Some PG_FREE) as Hfree.
  { intros g Hg. destruct (aget_some (blk_pg b') g) as [x' Hx']; [rewrite Hl, (bk_len _ _ Hok); done|].
    destruct (Hpg g x' Hx') as (x & _ & _ & Hs). rewrite (proj2 (Z.ltb_lt _ _)) in Hs by lia.
    rewrite Hx'. simpl. by rewrite Hs. }
  split.
  - exact E1.
  - intros q Hq. rewrite Hget, decide_False by done. by apply E2.
  - exists (set_blk_counts 0 0 n b'). rewrite Hget, decide_True, Hb' by done.
    split; [done|]. split; [|done]. split; simpl; try (by rewrite (bcnt_free sp)).
    + rewrite Hl. apply Hok.
    + rewrite Hn. apply Hok.
    + intros g x' Hx'. destruct (Hpg g x' Hx') as (x & Hx & Hns & Hs).
      destruct (bk_pages _ _ Hok _ _ Hx) as [P1 P2]. split; [congruence|].
      rewrite Hs. destruct (g <? pgs_per_blk sp); auto.
  - intros e He. apply timing_ok_upd_blk. by apply E4.
Qed.

Lemma wp_mark_block_free f sh p b Q :
  sp_ok (fsp f) → get_blk (ftl_ssd f) p = Some b → blk_ok (fsp f) b →
  (∀ s', erased_blk p (fsp f) (ftl_ssd f) s' →
     Q tt (set_ssd s' f, on_mbe (pgs_per_blk (fsp f) * pgsz (fsp f)) sh)) →
  wp (mark_block_free p) (f, sh) Q.
Proof.
  intros Hsp Hb Hok HQ. pose proof (so_ppb _ Hsp) as Hppb. unfold mark_block_free. f_step. f_step. f_step.
  set (sp := fsp f) in *.
  eapply (wp_for_range (λ i st, ∃ s', st = (set_ssd s' f, sh) ∧ erasing i p b (ftl_ssd f) s')); [lia| | |].
  - exists (ftl_ssd f). split; [by destruct f|]. split; try done. exists b. split_and!; try done.
    intros g x' Hx'. exists x'. split_and!; try done. apply aget_inv in Hx'.
    by rewrite (proj2 (Z.ltb_ge _ _)) by lia.
  - intros i st Hi (s' & -> & Her). pose proof (er_blk _ _ _ _ _ Her) as (b' & Hb' & Hl & Hn & Hpg).
    f_step. f_step. f_step. eapply wp_deref; [exact Hb'|].
    destruct (aget_some (blk_pg b') i) as [x' Hx']; [rewrite Hl, (bk_len _ _ Hok); done|].
    destruct (Hpg i x' Hx') as (x & Hx & Hns & _). f_step. eapply wp_aread; [done|].
    f_step. f_step; [apply Z.eqb_eq; rewrite Hns; apply (bk_pages _ _ Hok _ _ Hx)|].
    f_step. eexists. split; [done|]. apply erasing_step; [lia|done].
  - intros st (s' & -> & Her). pose proof (er_blk _ _ _ _ _ Her) as (b' & Hb' & Hl & Hn & Hpg).
    f_step. f_step. f_step. eapply wp_deref; [exact Hb'|].
    f_step. f_step; [apply Z.eqb_eq; rewrite Hn; apply Hok|]. f_step. f_step. f_step.
    match goal with |- Q _ (?f1, ?sh1) =>
      change f1 with (set_ssd (upd_blk (set_blk_counts 0 0 (s32 (blk_erase_cnt b' + 1))) p s') f);
      change sh1 with (on_mbe (u64 (pgs_per_blk sp * pgsz sp)) sh) end.
    pose proof (so_pgsz _ Hsp) as (Hpz & _). rewrite u64_small by (rewrite Hpz; lia).
    apply HQ. by eapply erasing_done.
Qed.

(** Pages of the collected line, all of them moved, become free. *)
Lemma finv_erase l X f s' :
  finv (Some l) X None None f → ssd_sp s' = fsp f → nand_ok (fsp f) s' →
  (∀ q, ppa_in (fsp f) q → pstatus s' q = pstatus (ftl_ssd f) q ∨
     g_blk q = l ∧ X q ∧ pstatus s' q = Some PG_FREE) →
  finv (Some l) X None None (set_ssd s' f).
Proof.
  intros [Hfb Hm] Es Hn' Hch. pose proof Hfb as [Hsp Hn Hli Hls Hws Hcl].
  assert (fsp (set_ssd s' f) = fsp f) as Efsp by exact Es.
  assert (∀ q, ppa_in (fsp f) q → g_blk q ≠ l → pstatus s' q = pstatus (ftl_ssd f) q) as Hne
    by (intros q Hq Hql; destruct (Hch q Hq) as [?|[? _]]; done).
  assert (0 ≤ l < blks_per_pl (fsp f)) as Hl.
  { eapply (part_range _ _ _ _ Hls (opened_nonneg f)). auto. }
  destruct (part_cases _ _ _ _ Hls (opened_nonneg f) l Hl)
    as [H|[H|[H|[H|H]]]]; destruct H as (Hf & Hq & Hu & Ho & Ht);
    try by rewrite bool_decide_true in Ht by done.
  split; [split|]; rewrite ?Efsp; simpl; try done.
  - destruct Hli as [L1 L2 L3]. split; [done..|]. intros k x Hx Hv.
    assert (∀ st, lcnt (fsp f) s' k st = lcnt (fsp f) (ftl_ssd f) k st) as Hlc.
    { intros st. apply cnt_ext. intros q Hqk. pose proof (aget_inv _ _ _ Hx) as Hk. rewrite L1 in Hk.
      apply (elem_of_lpages _ Hsp) in Hqk as [Hqi Hqb]; [|done]. unfold isst. rewrite Hne; congruence. }
    rewrite !Hlc. by apply L3.
  - destruct Hws as [W1 W2 W3]. split; [done| |done]. intros w Hw.
    pose proof (open_line _ _ _ _ Hfb Hw) as (_ & _ & _ & _ & Hov & _).
    destruct (W2 w Hw) as [P1 P2 P3 P4]. split; try done. intros p Hp Hb. change (wp_of (set_ssd s' f) w) with (wp_of f w) in Hb |- *.
    rewrite Hne; [by apply P4|done|]. congruence.
  - destruct Hcl as [C1 C2 C3 C4]. split; [| | |done]; intros p Hp Hin; rewrite Hne; auto;
      intros E; rewrite E in Hin; try (apply occ_elem in Hin; lia). apply pmem_not_member in Hq. done.
  - destruct Hm as [M1 M2 M3 M4]. split; [done..| |].
    + intros lpn p Hlp Hex Hu'. destruct (M3 lpn p Hlp Hex Hu') as (Hpi & Hpv & Hps & Hpr).
      split_and!; try done. destruct (Hch p Hpi) as [->|(Hpb & HX & _)]; [done|].
      exfalso. apply Hps. split; [congruence|done].
    + intros p Hpi Hpv Hps. apply M4; [done| |done]. destruct (Hch p Hpi) as [<-|(_ & _ & Hfr)]; [done|].
      status_ne.
Qed.

Lemma erased_blk_status sp p s s' :
  nand_ok sp s → ppa_in sp p → erased_blk p sp s s' →
  nand_ok sp s' ∧ ∀ q, ppa_in sp q → pstatus s' q = if decide (same_blk p q) then Some PG_FREE else pstatus s q.
Proof.
  intros Hn Hp [E1 E2 (b' & Hb' & Hok & Hfree) _].
  assert (∀ q, same_blk p q → get_blk s' q = Some b') as Hsame.
  { intros q (H1 & H2 & H3 & H4). rewrite <- Hb'. unfold get_blk, get_pl, get_lun, get_ch.
    by rewrite H1, H2, H3, H4. }
  split.
  - intros q Hq. destruct (decide (same_blk p q)) as [Hs|Hs]; [|rewrite E2 by done; by apply Hn].
    exists b'. split; [by apply Hsame|done].
  - intros q Hq. rewrite !pstatus_blk. destruct (decide (same_blk p q)) as [Hs|Hs].
    + rewrite Hsame by done. simpl. apply Hfree, Hq.
    + by rewrite E2.
Qed.

Lemma timing_ok_upd_lun g p s e :
  (∀ l, lun_next_lun_avail_time (g l) = lun_next_lun_avail_time l) →
  timing_ok (s, e) → timing_ok (upd_lun g p s, e).
Proof.
  intros Hg [H1 H2 H3 H4 H5]; simpl in *. split; simpl; [done| | | |done].
  - unfold upd_lun, upd_ch; simpl. by rewrite alen_aupd.
  - intros c ch' Hc'. unfold upd_lun, upd_ch in Hc'; simpl in Hc'. rewrite aget_aupd in Hc'.
    case_decide; [|by apply (H3 c)].
    destruct (aget (ssd_ch s) c) as [c0|] eqn:Ec; simplify_eq/=. rewrite alen_aupd. by apply (H3 (g_ch p)).
  - intros q l. rewrite get_lun_upd_lun. case_decide; [|apply H4].
    destruct (get_lun s q) eqn:Eq; intros ?; simplify_eq/=. rewrite Hg. by apply (H4 q).
Qed.

Section collect_line.
Context `{CK : !Clock} `{LC : !LocalClock}.
Hypothesis clock_range : ∀ n, 0 ≤ cpu_clock n.
Context (f0 : fdp_ftl) (sh0 : shared) (l : Z).
Hypothesis Henv : gc_env f0 sh0 l.
Let sp := fsp f0.
Let pf := pgs_per_flashpg sp.
Let base : ppa := set_g_blk l (ppa_of 0).

Section flash_page_tail.
Context (fp ch lun : Z).
Hypothesis (Hfp : 0 ≤ fp < flashpgs_per_blk sp) (Hch : 0 ≤ ch < nchs sp).
Hypothesis (Hlun : 0 ≤ lun < luns_per_ch sp).
Let K := fnum f0 fp ch lun.

Lemma fnum_bounds : fp * nchs sp * luns_per_ch sp ≤ K < (fp + 1) * nchs sp * luns_per_ch sp.
Proof using Hfp Hch Hlun. unfold K, fnum. fold sp. nia. Qed.

(** The blocks erased, and their number, one flash page on. *)
Lemma erased_next q :
  ppa_in sp q → g_blk q = l →
  erased sp (K + 1) q = erased sp K q ||
    ((fp =? flashpgs_per_blk sp - 1) && bool_decide (same_blk (fpage f0 l fp ch lun 0) q)).
Proof using Hfp Hch Hlun.
  intros Hq Hb. pose proof fnum_bounds as HK. pose proof (pi_ch _ _ Hq) as Hqc. pose proof (pi_lun _ _ Hq) as Hql.
  unfold erased. set (B := ((flashpgs_per_blk sp - 1) * nchs sp + g_ch q) * luns_per_ch sp + g_lun q).
  destruct (Z.eqb_spec fp (flashpgs_per_blk sp - 1)) as [E|E]; simpl.
  - assert (B = K ↔ same_blk (fpage f0 l fp ch lun 0) q) as Hiff.
    { unfold B, K, fnum, same_blk; simpl. fold sp. rewrite <- E. split.
      - intros H. apply mixed_radix_inj in H as [H H1]; [|done|done].
        apply mixed_radix_inj in H as [_ H2]; [|done|done]. rewrite (pi_pl _ _ Hq). done.
      - intros (-> & -> & _). done. }
    destruct (decide (same_blk (fpage f0 l fp ch lun 0) q)) as [Hs|Hs].
    + rewrite bool_decide_true by done. rewrite orb_true_r. apply Z.ltb_lt. apply Hiff in Hs. lia.
    + rewrite bool_decide_false by done. rewrite orb_false_r.
      assert (B ≠ K) by (intros HB; by apply Hs, Hiff).
      destruct (Z.ltb_spec B (K + 1)), (Z.ltb_spec B K); done || lia.
  - rewrite orb_false_r. assert (K + 1 ≤ B) by (unfold B; nia).
    rewrite !(proj2 (Z.ltb_ge _ _)) by lia. done.
Qed.

Lemma blocks_next :
  let D := (flashpgs_per_blk sp - 1) * nchs sp * luns_per_ch sp in
  Z.max 0 (K + 1 - D) = Z.max 0 (K - D) + Z.b2z (fp =? flashpgs_per_blk sp - 1).
Proof using Hfp Hch Hlun.
  intros D. pose proof fnum_bounds as HK. destruct (Z.eqb_spec fp (flashpgs_per_blk sp - 1)) as [E|E]; simpl.
  - unfold D. rewrite <- E. lia.
  - assert (K + 1 ≤ D) by (unfold D; nia). lia.
Qed.

(** No block is erased after a flash page that is not a block's last. *)
Lemma gc_at_no_erase st :
  fp ≠ flashpgs_per_blk sp - 1 → gc_at f0 sh0 l K ((K + 1) * pf) st →
  gc_at f0 sh0 l (K + 1) ((K + 1) * pf) st.
Proof using Hfp Hch Hlun.
  intros Hne [A1 A2 A3 A4 A5 A6 A7 A8 A9 A10 A11].
  pose proof blocks_next as Hb. fold sp in A7, A10. apply Z.eqb_neq in Hne. rewrite Hne in Hb. simpl in Hb. rewrite Z.add_0_r in Hb.
  split; try done; fold sp; [|by rewrite Hb].
  intros q Hq Hqb. rewrite erased_next, Hne by done. simpl. rewrite orb_false_r. by apply A7.
Qed.

Lemma gc_at_erase f sh s' :
  fp = flashpgs_per_blk sp - 1 → gc_at f0 sh0 l K ((K + 1) * pf) (f, sh) →
  erased_blk (fpage f0 l fp ch lun 0) sp (ftl_ssd f) s' →
  gc_at f0 sh0 l (K + 1) ((K + 1) * pf) (set_ssd s' f, on_mbe (pgs_per_blk sp * pgsz sp) sh).
Proof using Henv Hfp Hch Hlun.
  intros Hlast [A1 A2 A3 A4 A5 A6 A7 A8 A9 A10 A11] Her. simpl in *. fold sp in A3, A7, A10.
  pose proof (ge_sp _ _ _ Henv) as Hsp. fold sp in Hsp. pose proof Hsp as Hsp'. sp_facts Hsp'. fold pf in F_flash.
  destruct (fpage_in f0 sh0 l Henv fp ch lun Hfp Hch Hlun 0) as (Hin & _); [fold sp pf; lia|].
  pose proof (fb_nand _ _ _ (fi_base _ _ _ _ _ A1)) as Hn. rewrite A3 in Hn.
  destruct (erased_blk_status sp _ _ _ Hn Hin Her) as [Hn' Hst]. destruct Her as [E1 _ _ E4].
  assert (senv_ok (set_ssd s' f, sh)) as Hs2 by (destruct A2; split; [by apply E4|done]).
  destruct (on_mbe_ok (pgs_per_blk sp * pgsz sp) _ _ Hs2) as [Hs3 Hg3].
  pose proof blocks_next as Hb. rewrite (proj2 (Z.eqb_eq _ _) Hlast) in Hb. simpl in Hb.
  split; simpl; try done; fold sp.
  - apply finv_erase; [done|by rewrite E1|by rewrite A3|]. rewrite A3. intros q Hq. rewrite (Hst q Hq).
    destruct (decide (same_blk (fpage f0 l fp ch lun 0) q)) as [(Hc & Hu & Hp & Hbk)|]; [right|by left].
    simpl in Hc, Hu, Hbk. split_and!; try done. fold sp. unfold pf. rewrite (gidx_lt sp Hsp).
    unfold fidx, K, fnum. fold sp. rewrite <- Hc, <- Hu.
    assert (g_pg q / pgs_per_flashpg sp ≤ fp) as Hrow.
    2:{ pose proof (Z.mul_le_mono_nonneg_r _ _ (nchs sp * luns_per_ch sp) ltac:(nia) Hrow). lia. }
    pose proof (pi_pg _ _ Hq). assert (g_pg q / pgs_per_flashpg sp < flashpgs_per_blk sp); [|lia].
    apply Z.div_lt_upper_bound; [done|]. lia.
  - unfold fsp in *; simpl. congruence.
  - intros q Hq Hqb. rewrite (Hst q Hq), erased_next, (proj2 (Z.eqb_eq _ _) Hlast) by done. simpl.
    destruct (decide (same_blk (fpage f0 l fp ch lun 0) q)) as [Hs|Hs].
    + by rewrite bool_decide_true, orb_true_r by done.
    + rewrite bool_decide_false, orb_false_r by done. by apply A7.
  - transitivity (wroom GC_WP f); [by apply wroom_ext|exact A9].
  - pose proof (gshared_trans _ _ _ _ _ _ _ A10 Hg3) as Hg. rewrite Z.add_0_r in Hg. rewrite Hb.
    by rewrite (Z.mul_add_distr_r (Z.max 0 _) 1), Z.mul_1_l.
  - destruct A11. by split.
Qed.

Lemma gc_page_addr :
  set_g_pl 0 (set_g_lun lun (set_g_ch ch (set_g_pg (fp * pf) base))) = fpage f0 l fp ch lun 0.
Proof using Henv Hfp Hch Hlun.
  pose proof (ge_sp _ _ _ Henv) as Hsp. fold sp in Hsp. sp_facts Hsp. fold pf in F_flash.
  destruct (fpage_in f0 sh0 l Henv fp ch lun Hfp Hch Hlun 0) as ([Hc Hu _ Hb Hpg _] & _); [fold sp pf; lia|].
  simpl in Hpg, Hb. fold sp pf in Hpg, Hb.
  unfold base, set_g_pl, set_g_lun, set_g_ch, set_g_pg, set_g_blk, fpage; simpl. fold sp pf.
  rewrite !Z.mod_small by lia. by rewrite Z.add_0_r.
Qed.

Lemma wp_gc_flashpg st :
  gc_at f0 sh0 l K (K * pf) st →
  wp (gc_flashpg base fp ch lun) st (λ _ st', gc_at f0 sh0 l (K + 1) ((K + 1) * pf) st').
Proof using clock_range Henv Hfp Hch Hlun.
  intros Hat. destruct st as [f sh]. pose proof (ga_sp _ _ _ _ _ _ Hat) as Es. simpl in Es. fold sp in Es.
  unfold gc_flashpg. f_step. f_step. rewrite Es. fold pf. rewrite gc_page_addr.
  f_step. eapply wp_mono; [by apply (wp_clean_flashpg clock_range f0 sh0 l Henv fp ch lun)|].
  intros [] [f1 sh1] Hat1. f_step; bool_prop; [|by apply gc_at_no_erase].
  pose proof (ga_sp _ _ _ _ _ _ Hat1) as Es1. simpl in Es1. fold sp in Es1.
  pose proof (ge_sp _ _ _ Henv) as Hsp. fold sp in Hsp. pose proof (so_flash _ Hsp) as Hf0.
  destruct (fpage_in f0 sh0 l Henv fp ch lun Hfp Hch Hlun 0) as (Hin & _); [fold sp; lia|]. fold sp in Hin.
  pose proof (fb_nand _ _ _ (fi_base _ _ _ _ _ (ga_finv _ _ _ _ _ _ Hat1))) as Hn. simpl in Hn. rewrite Es1 in Hn.
  destruct (Hn _ Hin) as (b & Hb & Hok).
  f_step. eapply wp_mark_block_free; [by rewrite Es1|done|by rewrite Es1|]. rewrite Es1. intros s' Her.
  eapply gc_at_erase in Her; [|done|done].
  set (st2 := (set_ssd s' f1, _)) in *. clearbody st2. destruct st2 as [f2 sh2].
  f_step. f_step. f_step.
  apply wp_mono with (λ _ st', gc_at f0 sh0 l (K + 1) ((K + 1) * pf) st').
  - f_step; [|done]. f_step. pose proof (ga_sp _ _ _ _ _ _ Her) as Es2. simpl in Es2. fold sp in Es2.
    apply wp_on_nand; simpl; try done; [apply Her|by rewrite Es2|].
    intros t s2 sh' _ Hn2 Hs Hg _. f_step. by eapply gc_at_timing.
  - intros [] [f3 sh3] Hat3. pose proof (ga_sp _ _ _ _ _ _ Hat3) as Es3. simpl in Es3. fold sp in Es3.
    f_step. f_step. f_step. destruct (ga_senv _ _ _ _ _ _ Hat3) as [Hto Hc]. simpl in Hto, Hc.
    destruct (to_get_lun _ (fpage f0 l fp ch lun 0) Hto) as (lu & Hlu & _).
    { simpl. unfold fsp in Es3. by rewrite Es3. }
    eapply wp_deref; [exact Hlu|]. f_step. simpl.
    eapply gc_at_timing; [done| | |by apply gshared_refl].
    + split; [done|]. intros q. by apply get_blk_upd_lun.
    + split; [|done]. by apply timing_ok_upd_lun.
Qed.
End flash_page_tail.

(** The loops of [do_gc] go through the line in order. *)
Lemma wp_gc_loops st :
  gc_at f0 sh0 l 0 0 st →
  wp (for_range 0 (flashpgs_per_blk sp) (λ flashpg,
        for_range 0 (nchs sp) (λ ch,
          for_range 0 (luns_per_ch sp) (λ lun, gc_flashpg base flashpg ch lun)))) st
    (λ _ st', let N := flashpgs_per_blk sp * nchs sp * luns_per_ch sp in gc_at f0 sh0 l N (N * pf) st').
Proof using clock_range Henv.
  intros Hat. pose proof (ge_sp _ _ _ Henv) as Hsp. fold sp in Hsp. sp_facts Hsp.
  assert (0 ≤ flashpgs_per_blk sp) as HF by nia.
  set (at_ K := λ st : fstate, gc_at f0 sh0 l K (K * pf) st).
  eapply (wp_for_range (λ fp, at_ (fp * nchs sp * luns_per_ch sp))); [lia|exact Hat| |done].
  intros fp st1 Hfp Hat1.
  eapply (wp_for_range (λ ch, at_ ((fp * nchs sp + ch) * luns_per_ch sp))); [lia| | |].
  { by rewrite Z.add_0_r. }
  2:{ intros st2 Hat2. by replace ((fp + 1) * nchs sp) with (fp * nchs sp + nchs sp) by lia. }
  intros ch st2 Hch Hat2.
  eapply (wp_for_range (λ lun, at_ ((fp * nchs sp + ch) * luns_per_ch sp + lun))); [lia| | |].
  { by rewrite Z.add_0_r. }
  2:{ intros st3 Hat3. by replace ((fp * nchs sp + (ch + 1)) * luns_per_ch sp)
        with ((fp * nchs sp + ch) * luns_per_ch sp + luns_per_ch sp) by lia. }
  intros lun st3 Hlun Hat3.
  eapply wp_mono; [by apply wp_gc_flashpg|]. intros [] st4 Hat4.
  by rewrite Z.add_assoc.
Qed.
End collect_line.

(** ** Choosing the victim *)

(** The lists once [l] has left the queue. *)
Definition drop_victim (q : pqueue Z) (lines : arr fdp_line) (l : Z) (m : fdp_line_mgmt) : fdp_line_mgmt :=
  set_victim_cnt (u32 (lm_victim_line_cnt m - 1))
    (set_lines (aupd lines l (set_ln_pos 0)) (set_pq q (set_lines lines m))).

Lemma lines_ok_skip sp s v lines lines' :
  lines_ok sp s None lines → same_but_pos lines lines' → lines_ok sp s v lines'.
Proof.
  intros [L1 L2 L3] [H1 H2]. split; [congruence| |].
  - intros l x Hx. destruct (H2 l x Hx) as (y & Hy & ->). simpl. by apply L2.
  - intros l x Hx _. destruct (H2 l x Hx) as (y & Hy & ->). simpl. by apply L3.
Qed.

Lemma same_but_pos_upd lines l k : same_but_pos lines (aupd lines l (set_ln_pos k)).
Proof.
  split; [apply alen_aupd|]. intros j x. rewrite aget_aupd. case_decide.
  - destruct (aget lines j) as [y|]; intros ?; simplify_eq/=. by exists y.
  - intros Hx. exists x. split; [done|]. by destruct x.
Qed.

Lemma fbase_drop_victim f l q lines :
  fbase None None f → let m := ftl_lm f in
  member (lm_victim_line_pq m) l → taken_out l (lm_victim_line_pq m) (lm_lines m) (q, lines) →
  fbase (Some l) None (set_lm (drop_victim q lines l m) f).
Proof.
  intros [Hsp Hn Hli Hls Hws Hcl] m Hm (Hwf & Hmem & Hrep & Hsz & Hav). simpl in Hwf, Hmem, Hrep, Hsz, Hav.
  pose proof (part_range _ _ _ _ Hls (opened_nonneg f) l ltac:(auto)) as Hl.
  pose proof (repositioned_lines _ _ _ Hrep) as Hsame.
  assert (same_but_pos (lm_lines m) (aupd lines l (set_ln_pos 0))) as Hsame'
    by (eapply same_but_pos_trans; [done|apply same_but_pos_upd]).
  assert (¬ member q l) as Hnm by (rewrite Hmem; naive_solver).
  assert (fsp (set_lm (drop_victim q lines l m) f) = fsp f) as Efsp by done.
  split; rewrite ?Efsp; simpl; try done.
  - by eapply lines_ok_skip.
  - destruct (part_cases _ _ _ _ Hls (opened_nonneg f) l Hl) as [H|[H|[H|[H|H]]]];
      destruct H as (Hf & Hq & Hu & Ho & Ht); apply pmem_member in Hm; fold m in Hf, Hq, Hu; try lia.
    pose proof (wf_size _ _ (ls_pq _ _ _ _ Hls)) as Hqs. apply pmem_member in Hm. fold m in Hqs.
    assert (q_size (lm_victim_line_pq m) ≤ blks_per_pl (fsp f) + 1) as Hqb.
    { rewrite <- (ls_avail _ _ _ _ Hls). apply Hqs. }
    assert (1 < q_size (lm_victim_line_pq m)) as Hq1 by (destruct Hm as (k & Hk & _); lia).
    destruct Hls as [L1 L2 L3 L4 L5 L6 L7]. fold m in L1, L2, L3, L4, L5, L6, L7.
    pose proof (so_blks _ Hsp) as HT.
    change (opened (set_lm (drop_victim q lines l m) f)) with (opened f). split; simpl; try done.
    + by apply pq_wf_line_upd_out.
    + congruence.
    + apply lists_pos_intro; [by apply pq_wf_line_upd_out|]. intros k x. rewrite aget_aupd.
      destruct (decide (l = k)) as [<-|Hne]; [by destruct (aget lines l); intros ?; simplify_eq/=|].
      intros Hx Hk. destruct Hsame as [_ Hsame]. destruct (Hsame k x Hx) as (y & Hy & _).
      assert (¬ member (lm_victim_line_pq m) k) as Hk' by (rewrite Hmem in Hk; naive_solver).
      rewrite (repositioned_line_pos _ _ _ k y x Hrep Hk' Hy Hx). by apply (L3 k).
    + intros k. rewrite (pmem_remove _ q l k Hmem Hm). rewrite <- (L4 k).
      rewrite (bool_decide_false (None = Some k)) by done. destruct (Z.eqb_spec k l) as [->|Hne].
      * rewrite bool_decide_true by done. simpl. lia.
      * rewrite bool_decide_false by congruence. simpl. lia.
    + rewrite u32_small; lia.
  - eapply wps_ok_frame; [exact Hws|done|done|done|]. intros k x Hx. simpl in Hx.
    destruct Hsame' as [_ H]. destruct (H k x Hx) as (y & Hy & ->). by exists y.
  - destruct Hcl as [C1 C2 C3 C4]. split; simpl; try done.
    + intros p Hp [Hin _]%Hmem. by apply C3.
    + intros k x [Hk _]%Hmem Hx. destruct Hsame' as [_ H]. destruct (H k x Hx) as (y & Hy & ->). simpl.
      by apply (C4 k).
Qed.

Record selected (f : fdp_ftl) (l : Z) (f' : fdp_ftl) : Prop := {
  se_member : member (lm_victim_line_pq (ftl_lm f)) l;
  se_min k x y : member (lm_victim_line_pq (ftl_lm f)) k →
    aget (lm_lines (ftl_lm f)) l = Some x → aget (lm_lines (ftl_lm f)) k = Some y →
    u64 (ln_vpc x) ≤ u64 (ln_vpc y);
  se_line x : aget (lm_lines (ftl_lm f)) l = Some x → aget (lm_lines (ftl_lm f')) l = Some (set_ln_pos 0 x);
  se_base : fbase (Some l) None f';
  se_same : same_but_pos (lm_lines (ftl_lm f)) (lm_lines (ftl_lm f'));
  se_eq : ∃ q lines, f' = set_lm (drop_victim q lines l (ftl_lm f)) f;
}.

Lemma wp_select_victim force f sh Q :
  fbase None None f →
  ((force = true → ∀ l, ¬ member (lm_victim_line_pq (ftl_lm f)) l) → Q None (f, sh)) →
  (∀ l f', selected f l f' → Q (Some l) (f', sh)) →
  wp (select_victim_line force) (f, sh) Q.
Proof.
  intros Hfb HN HS. pose proof Hfb as [Hsp Hn Hli Hls Hws Hcl]. pose proof (ls_pq _ _ _ _ Hls) as Hpq.
  unfold select_victim_line. f_step. f_step. f_step. apply wp_on_pq.
  eapply wp_mono; [by apply peek_spec|]. intros o qs [-> Ho]. simpl.
  assert (set_lm (set_pq (lm_victim_line_pq (ftl_lm f)) (set_lines (lm_lines (ftl_lm f)) (ftl_lm f))) f = f)
    as -> by (by destruct f as [? ? ? ? ? ? [] ?]).
  destruct o as [l|]; [|f_step; apply HN; naive_solver]. destruct Ho as (Hroot & Hm & Habove).
  pose proof (part_range _ _ _ _ Hls (opened_nonneg f) l ltac:(auto)) as Hl.
  destruct (aget_some (lm_lines (ftl_lm f)) l) as [x Hx]; [by rewrite (lo_len _ _ _ _ Hli)|].
  f_step. eapply wp_line_get; [done|].
  destruct (negb force && (pgs_per_line (fsp f) / 8 <? u64 (ln_vpc x))) eqn:Hf.
  { f_step. apply HN. intros ->. done. }
  f_step. apply wp_on_pq. eapply wp_mono; [by apply pop_spec|].
  intros [h|] [q lines]; [|intros [_ Hno]; by destruct (Hno l)].
  intros (Hroot' & _ & _ & Hout). assert (h = l) as -> by congruence. simpl.
  pose proof Hout as (_ & _ & Hrep & _). pose proof (repositioned_lines _ _ _ Hrep) as Hsame.
  destruct (same_but_pos_get _ _ _ _ Hsame Hx) as [pos Hx']. simpl in Hx'.
  f_step. eapply wp_line_upd; [exact Hx'|]. f_step. f_step. f_step.
  match goal with |- Q _ (?f1, _) => change f1 with (set_lm (drop_victim q lines l (ftl_lm f)) f) end.
  apply HS. split; [done| | | | |by eauto].
  - intros k y z Hk Hy Hz. specialize (Habove k Hk). unfold above in Habove; simpl in Habove.
    unfold victim_line_get_pri in Habove. rewrite (aget_line_cell _ _ _ Hy), (aget_line_cell _ _ _ Hz) in Habove.
    unfold victim_line_cmp_pri in Habove. bool_prop. lia.
  - intros y Hy. assert (y = x) as -> by congruence. simpl. rewrite aget_aupd, decide_True, Hx' by done. done.
  - by apply fbase_drop_victim.
  - eapply same_but_pos_trans; [exact Hsame|apply same_but_pos_upd].
Qed.

(** ** Returning the line *)

Definition reset_line (x : fdp_line) : fdp_line := set_ln_ruh (-1) (set_ln_vpc 0 (set_ln_ipc 0 x)).
Definition reclaim (l : Z) (m : fdp_line_mgmt) : fdp_line_mgmt :=
  set_free (lm_free_line_list m ++ [l]) (u32 (lm_free_line_cnt m + 1))
    (set_lines (aupd (lm_lines m) l reset_line) m).

Lemma wp_mark_line_free l f sh Q :
  0 ≤ l < 2 ^ 16 → (∃ x, aget (lm_lines (ftl_lm f)) l = Some x) → Q tt (set_lm (reclaim l (ftl_lm f)) f, sh) →
  wp (mark_line_free (set_g_blk l (ppa_of 0))) (f, sh) Q.
Proof.
  intros Hl [x Hx] HQ. unfold mark_line_free, get_line; simpl. rewrite Z.mod_small by lia.
  f_step. eapply wp_line_upd; [done|]. by f_step.
Qed.

Lemma finv_reclaim l X f :
  finv (Some l) X None None f →
  (∀ q, ppa_in (fsp f) q → g_blk q = l → pstatus (ftl_ssd f) q = Some PG_FREE) →
  let f' := set_lm (reclaim l (ftl_lm f)) f in
  finv None (λ _, False) None None f' ∧ lm_free_line_cnt (ftl_lm f') = lm_free_line_cnt (ftl_lm f) + 1.
Proof.
  intros [Hfb Hm] Hfree f'. pose proof Hfb as [Hsp Hn Hli Hls Hws Hcl]. pose proof (so_blks _ Hsp) as HT.
  assert (0 ≤ l < blks_per_pl (fsp f)) as Hl.
  { eapply (part_range _ _ _ _ Hls (opened_nonneg f)). auto. }
  destruct (part_cases _ _ _ _ Hls (opened_nonneg f) l Hl) as [H|[H|[H|[H|H]]]];
    destruct H as (Hf & Hq & Hu & Ho & Ht); try by rewrite bool_decide_true in Ht by done.
  pose proof (part_lengths _ _ _ _ Hls (opened_nonneg f)) as [Hlen _].
  assert (¬ member (lm_victim_line_pq (ftl_lm f)) l) as Hnm by by apply pmem_not_member.
  pose proof (ls_free_cnt _ _ _ _ Hls) as Hfc.
  assert (u32 (lm_free_line_cnt (ftl_lm f) + 1) = lm_free_line_cnt (ftl_lm f) + 1) as Hcnt
    by (rewrite u32_small; lia).
  assert (fsp f' = fsp f) as Efsp by done.
  split; [|done]. split; [split|]; rewrite ?Efsp; simpl; try done.
  - destruct Hli as [L1 L2 L3]. split; simpl; [by rewrite alen_aupd| |].
    + intros k x. rewrite aget_aupd. destruct (decide (l = k)); [|by apply L2].
      destruct (aget (lm_lines (ftl_lm f)) k) as [y|] eqn:Hy; intros ?; simplify_eq/=. by apply L2.
    + intros k x Hx _. rewrite aget_aupd in Hx. destruct (decide (l = k)) as [<-|Hne].
      * destruct (aget (lm_lines (ftl_lm f)) l) as [y|]; simplify_eq/=.
        split; symmetry; apply cnt_none; intros q [Hqi Hqb]%(elem_of_lpages _ Hsp); try done;
          unfold isst; apply bool_decide_false; rewrite Hfree by done; done.
      * apply L3; [done|congruence].
  - destruct Hls as [L1 L2 L3 L4 L5 L6 L7].
    change (opened f') with (opened f). split; simpl; try done.
    + by apply pq_wf_line_upd_out.
    + intros k x. rewrite aget_aupd. destruct (decide (l = k)) as [<-|]; [|by apply L3].
      destruct (aget (lm_lines (ftl_lm f)) l) as [y|] eqn:Hy; intros ?; simplify_eq/=. by apply (L3 l).
    + intros k. rewrite occ_app, occ_cons. change (occ k []) with 0. rewrite <- (L4 k).
      destruct (Z.eqb_spec k l) as [->|Hne].
      * rewrite bool_decide_true by done. simpl. lia.
      * rewrite bool_decide_false by congruence. simpl. lia.
    + rewrite length_app. simpl. lia.
  - destruct Hws as [W1 W2 W3]. split; simpl; try done. intros w x Hw.
    pose proof (open_line _ _ _ _ Hfb Hw) as (_ & _ & _ & _ & Hov & _).
    rewrite aget_aupd. change (wp_of f' w) with (wp_of f w). rewrite decide_False by congruence. by apply W3.
  - destruct Hcl as [C1 C2 C3 C4]. split; simpl; try done.
    + intros p Hp [Hin|Hin]%elem_of_app; [by apply C1|]. apply list_elem_of_singleton in Hin. by apply Hfree.
    + intros k x Hk. rewrite aget_aupd, decide_False by (by intros ->). by apply C4.
  - destruct Hm as [M1 M2 M3 M4]. split; [done..| |].
    + intros lpn p Hlp Hex Hup. destruct (M3 lpn p Hlp Hex Hup) as (P1 & P2 & _ & P4). split_and!; try done.
      by intros [_ []].
    + intros p Hp Hv _. apply M4; [done..|]. intros [Hb _].
      rewrite Hfree in Hv; [status_ne|done|congruence].
Qed.

(** ** [do_gc] *)

(** The collection of a line with handle [r] is reported, and the events after it. *)
Definition gc_reports (r : Z) (c : fctx) : bool :=
  (0 <=? r) && event_enabled (fx_events c.1) NVME_FDP_EVT_IMPLICIT_MODIFIED_RU.
Definition gc_events `{!LocalClock} (r : Z) (c : fctx) : list nvme_fdp_event :=
  if gc_reports r c
  then take (Z.to_nat FDP_NR_EVENTS)
         (new_event NVME_FDP_EVT_IMPLICIT_MODIFIED_RU NVME_FDP_EVENT_F_PIV r 0 c.2 :: recent c.1)
  else recent c.1.

(** The effect of collecting line [l], whose descriptor was [x]. *)
Record collected `{!LocalClock} (l : Z) (x : fdp_line) (st st' : fstate) : Prop := {
  cl_member : member (lm_victim_line_pq (ftl_lm (fst st))) l;
  cl_line : aget (lm_lines (ftl_lm (fst st))) l = Some x;
  cl_min k y : member (lm_victim_line_pq (ftl_lm (fst st))) k →
    aget (lm_lines (ftl_lm (fst st))) k = Some y → ln_vpc x ≤ ln_vpc y;
  cl_inv : ftl_inv st';
  cl_sp : fsp (fst st') = fsp (fst st);
  cl_cp : ftl_cp (fst st') = ftl_cp (fst st);
  cl_wfc : ftl_wfc (fst st') = WriteFlowControl (wfc_write_credits (ftl_wfc (fst st))) (ln_ipc x);
  cl_wp w : w ≠ GC_WP → wp_of (fst st') w = wp_of (fst st) w;
  cl_mapped lpn : mapped_at (fst st') lpn = mapped_at (fst st) lpn;
  cl_counts : 0 < ln_ipc x ∧ 0 ≤ ln_vpc x ∧ ln_vpc x + ln_ipc x = pgs_per_line (fsp (fst st));
  cl_room : room (fst st') = room (fst st) + ln_ipc x;
  cl_reloc : relocated (fst st) (fst st');
  cl_free : l ∈ lm_free_line_list (ftl_lm (fst st'));
  cl_ops : sh_ops (snd st') = sh_ops (snd st);
  cl_wbuf : env_wbuf (sh_env (snd st')) = env_wbuf (sh_env (snd st));
  cl_hbmw : fx_hbmw (sh_ctx (snd st')).1 = fx_hbmw (sh_ctx (snd st)).1;
  cl_mbmw : fx_mbmw (sh_ctx (snd st')).1
    = u64 (fx_mbmw (sh_ctx (snd st)).1 + ln_vpc x * pgsz (fsp (fst st)));
  cl_mbe : fx_mbe (sh_ctx (snd st')).1
    = u64 (fx_mbe (sh_ctx (snd st)).1 + pgs_per_line (fsp (fst st)) * pgsz (fsp (fst st)));
  cl_recent : recent (sh_ctx (snd st')).1 = gc_events (ln_ruh x) (sh_ctx (snd st));
  cl_attr : fx_ruh_attr (sh_ctx (snd st')).1 = fx_ruh_attr (sh_ctx (snd st)).1;
  cl_events : fx_events (sh_ctx (snd st')).1 = fx_events (sh_ctx (snd st)).1;
  cl_ticks : (sh_ctx (snd st')).2 = (sh_ctx (snd st)).2 + Z.b2z (gc_reports (ln_ruh x) (sh_ctx (snd st)));
}.

(** What the victim looks like. *)
Lemma victim_counts f l x :
  fbase None None f → member (lm_victim_line_pq (ftl_lm f)) l → aget (lm_lines (ftl_lm f)) l = Some x →
  0 ≤ l < blks_per_pl (fsp f) ∧ 0 < ln_ipc x ∧ 0 ≤ ln_vpc x ∧
  ln_vpc x + ln_ipc x = pgs_per_line (fsp f) ∧ ln_vpc x = lcnt (fsp f) (ftl_ssd f) l PG_VALID.
Proof.
  intros [Hsp Hn Hli Hls Hws Hcl] Hm Hx.
  assert (0 ≤ l < blks_per_pl (fsp f)) as Hl by (eapply part_range; eauto using opened_nonneg).
  destruct (lo_cnt _ _ _ _ Hli l x Hx ltac:(done)) as [Ev Ei].
  pose proof (co_victim_ipc _ _ _ Hcl l x Hm Hx). pose proof (lcnt_range (fsp f) (ftl_ssd f) l PG_VALID Hsp).
  assert (lcnt (fsp f) (ftl_ssd f) l PG_VALID + lcnt (fsp f) (ftl_ssd f) l PG_INVALID = pgs_per_line (fsp f)).
  { apply lcnt_no_free; [done..|]. intros p Hp Hb. apply (co_victim _ _ _ Hcl); [done|]. by rewrite Hb. }
  split_and!; lia || done.
Qed.

Lemma finv_set_wfc v X ex adv wfc f : finv v X ex adv f → finv v X ex adv (set_wfc wfc f).
Proof. intros [[H1 H2 H3 H4 [W1 W2 W3] H6] Hm]. split; [by split; [..|split|]|done]. Qed.

(** The end of a collection: every block of the line is erased. *)
Lemma gc_at_end f0 sh0 l st q :
  sp_ok (fsp f0) →
  let N := flashpgs_per_blk (fsp f0) * nchs (fsp f0) * luns_per_ch (fsp f0) in
  gc_at f0 sh0 l N (N * pgs_per_flashpg (fsp f0)) st → ppa_in (fsp f0) q → g_blk q = l →
  pstatus (ftl_ssd (fst st)) q = Some PG_FREE.
Proof.
  intros Hsp N Hat Hq Hb. rewrite (ga_status _ _ _ _ _ _ Hat q Hq Hb). sp_facts Hsp.
  pose proof (pi_ch _ _ Hq). pose proof (pi_lun _ _ Hq).
  assert (erased (fsp f0) N q = true) as ->; [|done]. apply Z.ltb_lt. unfold N. nia.
Qed.

Section do_gc.
Context `{CK : !Clock} `{LC : !LocalClock}.
Hypothesis clock_range : ∀ n, 0 ≤ cpu_clock n.

(** The collection proper, from the state in which the victim has been chosen. *)
Lemma wp_collect f0 sh0 l Q :
  finv (Some l) (λ q, gidx (fsp f0) q < 0) None None f0 → senv_ok (f0, sh0) → gc_env f0 sh0 l →
  (∀ f' sh', ftl_inv (f', sh') → fsp f' = fsp f0 → ftl_cp f' = ftl_cp f0 → ftl_wfc f' = ftl_wfc f0 →
     (∀ w, w ≠ GC_WP → wp_of f' w = wp_of f0 w) → (∀ lpn, mapped_at f' lpn = mapped_at f0 lpn) →
     room f' = room f0 + pgs_per_line (fsp f0) - lcnt (fsp f0) (ftl_ssd f0) l PG_VALID →
     l ∈ lm_free_line_list (ftl_lm f') →
     gshared (lcnt (fsp f0) (ftl_ssd f0) l PG_VALID * pgsz (fsp f0)) (pgs_per_line (fsp f0) * pgsz (fsp f0))
       sh0 sh' → relocated f0 f' → Q 0 (f', sh')) →
  wp (for_range 0 (flashpgs_per_blk (fsp f0)) (λ flashpg,
        for_range 0 (nchs (fsp f0)) (λ ch,
          for_range 0 (luns_per_ch (fsp f0)) (λ lun, gc_flashpg (set_g_blk l (ppa_of 0)) flashpg ch lun))) ;;
      mark_line_free (set_g_blk l (ppa_of 0)) ;; mret 0) (f0, sh0) Q.
Proof using clock_range.
  intros Hfi Hse Henv HQ. pose proof Henv as [Hsp Hl Hused Hroom]. pose proof Hsp as Hsp'. sp_facts Hsp'.
  f_step. eapply wp_mono; [apply (wp_gc_loops clock_range f0 sh0 l Henv)|].
  { split; simpl; try done.
    - intros q Hq Hb. assert (erased (fsp f0) 0 q = false) as ->; [|done]. apply Z.ltb_ge.
      pose proof (pi_ch _ _ Hq). pose proof (pi_lun _ _ Hq).
      pose proof (flashpgs_pos _ Hsp).
      assert (0 ≤ (flashpgs_per_blk (fsp f0) - 1) * nchs (fsp f0) + g_ch q) by nia. nia.
    - rewrite moved_0 by done. lia.
    - rewrite moved_0 by done. pose proof (flashpgs_pos _ Hsp). rewrite Z.max_l by nia. by apply gshared_refl, Hse. }
  intros [] [f1 sh1] Hat. cbv zeta in Hat. set (N := flashpgs_per_blk (fsp f0) * nchs (fsp f0) * luns_per_ch (fsp f0)) in *.
  pose proof Hat as [A1 A2 A3 A4 A5 A6 A7 A8 A9 A10 A11]. simpl in A1, A3, A4, A5, A6, A8, A9, A10, A11.
  rewrite (moved_all (fsp f0) Hsp) in A9, A10 by done.
  f_step. apply wp_mark_line_free.
  { pose proof (so_blks _ Hsp). lia. }
  { apply aget_some. rewrite (lo_len _ _ _ _ (fb_lines _ _ _ (fi_base _ _ _ _ _ A1))). by rewrite A3. }
  destruct (finv_reclaim l _ f1 A1) as [Hfi' Hcnt].
  { intros q Hq Hb. rewrite A3 in Hq. exact (gc_at_end f0 sh0 l _ q Hsp Hat Hq Hb). }
  set (f2 := set_lm (reclaim l (ftl_lm f1)) f1) in *. f_step. apply HQ; try done.
  - assert (∀ w, w ≠ GC_WP → wp_of f2 w = wp_of f0 w) as Hwp by done.
    pose proof (wroom_room GC_WP f0 f2 GC_WP_range A3 Hwp) as Hr.
    assert (wroom GC_WP f2 = wroom GC_WP f1 + pgs_per_line (fsp f0)) as Hw2; [|lia].
    unfold wroom. rewrite Hcnt. change (fsp f2) with (fsp f1). change (left_of f2) with (left_of f1).
    rewrite A3. lia.
  - simpl. apply elem_of_app. right. by apply list_elem_of_singleton.
  - assert ((Z.max 0 (N - (flashpgs_per_blk (fsp f0) - 1) * nchs (fsp f0) * luns_per_ch (fsp f0))
              * (pgs_per_blk (fsp f0) * pgsz (fsp f0))) = pgs_per_line (fsp f0) * pgsz (fsp f0)) as E.
    { unfold N. rewrite F_ppl. rewrite Z.max_r by nia. lia. }
    by rewrite <- E.
  - etrans; [done|]. split; [|by left]. intros k u. simpl. rewrite aget_aupd. case_decide; [|by eauto].
    destruct (aget (lm_lines (ftl_lm f1)) k) as [u1|]; intros ?; simplify_eq/=. eauto.
Qed.

Lemma wp_report_victim r f sh Q :
  ctx_wf (sh_ctx sh).1 →
  (∀ sh', sh_env sh' = sh_env sh → sh_ops sh' = sh_ops sh → ctx_wf (sh_ctx sh').1 →
     same_counters (sh_ctx sh).1 (sh_ctx sh').1 → recent (sh_ctx sh').1 = gc_events r (sh_ctx sh) →
     (sh_ctx sh').2 = (sh_ctx sh).2 + Z.b2z (gc_reports r (sh_ctx sh)) → Q tt (f, sh')) →
  wp (when (0 <=? r) (on_ctx (fdp_emit_event NVME_FDP_EVT_IMPLICIT_MODIFIED_RU NVME_FDP_EVENT_F_PIV r 0)))
    (f, sh) Q.
Proof using.
  intros Hc HQ. unfold gc_events, gc_reports in HQ.
  destruct (0 <=? r); simpl in *; [|apply HQ; try done; lia].
  unfold on_ctx. apply wp_zoom. simpl. destruct (sh_ctx sh) as [c n] eqn:Ec. simpl in *.
  pose proof (wp_emit_event NVME_FDP_EVT_IMPLICIT_MODIFIED_RU NVME_FDP_EVENT_F_PIV r 0 c n Hc) as Hw.
  apply wp_Ok in Hw as ([] & [c' n'] & Hr & H1 & H2 & H3); [|done|done].
  eapply wp_intro; [exact Hr|]. simpl. apply HQ; try done. simpl.
  rewrite (emit_event_ticks _ _ _ _ _ _ _ _ Hr). destruct (event_enabled _ _); simpl; lia.
Qed.

Lemma wp_do_gc force f sh Q :
  ftl_inv (f, sh) → 1 ≤ lm_free_line_cnt (ftl_lm f) →
  ((force = true → ∀ l, ¬ member (lm_victim_line_pq (ftl_lm f)) l) → Q (-1) (f, sh)) →
  (∀ l x st', collected l x (f, sh) st' → Q 0 st') →
  wp (do_gc force) (f, sh) Q.
Proof using clock_range.
  intros [Hfi [Hto Hc]] Hfree HN HC. simpl in Hfi, Hto, Hc. pose proof Hfi as [Hfb Hm].
  unfold do_gc. f_step. f_step. f_step. apply wp_select_victim; [done| |].
  { intros Hno. f_step. by apply HN. }
  intros l f1 [S1 S2 S3 S4 S6 (q & lines & S5)].
  pose proof (fb_sp _ _ _ Hfb) as Hsp.
  assert (0 ≤ l < blks_per_pl (fsp f)) as Hl
    by (eapply (part_range _ _ _ _ (fb_lists _ _ _ Hfb) (opened_nonneg f)); auto).
  destruct (aget_some (lm_lines (ftl_lm f)) l) as [x Hx]; [by rewrite (lo_len _ _ _ _ (fb_lines _ _ _ Hfb))|].
  destruct (victim_counts f l x Hfb S1 Hx) as (_ & Hi & Hv & Hsum & Evpc). specialize (S3 x Hx).
  pose proof (ppl_pos _ Hsp) as Hppl.
  assert (fsp f1 = fsp f ∧ ftl_ssd f1 = ftl_ssd f ∧ ftl_maptbl f1 = ftl_maptbl f ∧ ftl_rmap f1 = ftl_rmap f ∧
    (∀ w, wp_of f1 w = wp_of f w) ∧ lm_free_line_cnt (ftl_lm f1) = lm_free_line_cnt (ftl_lm f) ∧
    ftl_cp f1 = ftl_cp f ∧ ftl_wfc f1 = ftl_wfc f) as (E1 & E2 & E3 & E4 & E5 & E6 & E7 & E8) by by subst f1.
  clear q lines S5. f_step. eapply wp_line_get; [done|]. simpl.
  f_step. apply wp_report_victim; [done|]. intros sh1 X1 X2 X3 X4 X5 X6. f_step. f_step.
  rewrite u32_small by lia. set (wfc := WriteFlowControl _ (ln_ipc x)).
  set (f2 := set_wfc wfc f1). change (ftl_wfc f1) with (ftl_wfc f1).
  rewrite (lo_id _ _ _ _ (fb_lines _ _ _ Hfb) l x Hx). rewrite <- E1. change (fsp f1) with (fsp f2).
  assert (fsp f2 = fsp f) as E1' by done. assert (ftl_ssd f2 = ftl_ssd f) as E2' by done.
  apply wp_collect.
  - apply finv_set_wfc. split; [done|]. rewrite E1, E2, E3, E4. destruct Hm as [M1 M2 M3 M4]. split; [done..| |].
    + intros lpn p Hlp Hex Hu. destruct (M3 lpn p Hlp Hex Hu) as (P1 & P2 & P3 & P4). split_and!; try done.
      intros [_ Hneg]. rewrite E1' in Hneg. apply P3. pose proof (fidx_range _ Hsp p P1).
      pose proof (so_flash _ Hsp) as Hf0. pose proof (Z.mod_pos_bound (g_pg p) (pgs_per_flashpg (fsp f)) Hf0).
      unfold gidx in Hneg. nia.
    + intros p Hp Hpv _. apply M4; [done..|]. by intros [_ []].
  - split; simpl; [by rewrite E2, X1|done].
  - split; rewrite ?E1', ?E2'; try done.
    + intros p Hp Hb. destruct (pstatus_some _ _ _ (fb_nand _ _ _ Hfb) Hp) as (st & Hst & Hcase).
      pose proof (co_victim _ _ _ (fb_class _ _ _ Hfb) p Hp ltac:(by rewrite Hb)).
      rewrite Hst in *. naive_solver.
    + rewrite <- Evpc. pose proof (left_of_range _ _ f GC_WP Hfb GC_WP_range) as Hleft.
      assert (wroom GC_WP f2 = wroom GC_WP f) as -> by (apply wroom_ext; [done|done|exact (E5 GC_WP)]).
      unfold wroom. nia.
  - intros f' sh' G1 G2 G3 G4 G5 G6 G7 G8 [G9 G10 G11 G12 G13 G14 G15 G17 G18] G16.
    rewrite E1' in G7, G14, G15. rewrite E2' in G7, G14. rewrite <- Evpc in G7, G14.
    destruct X4 as (Y1 & Y2 & Y3 & Y4 & Y5 & Y6).
    apply (HC l x). split; simpl; try done; try congruence.
    + intros k y Hk Hy. destruct (victim_counts f k y Hfb Hk Hy) as (_ & ? & ? & ? & _).
      pose proof (S2 k x y Hk Hx Hy) as Hle. by rewrite !u64_small in Hle by lia.
    + rewrite G3. exact E7.
    + rewrite G4. unfold f2, wfc; simpl. by rewrite E8.
    + intros w Hw. rewrite G5 by done. apply E5.
    + intros lpn. rewrite G6. unfold mapped_at; simpl. by rewrite E3.
    + rewrite G7. rewrite (room_ext f f2); [lia|done|done|]. intros w _. exact (E5 w).
    + etrans; [|exact G16]. apply relocated_same; [exact E3|]. by apply same_ruh_pos.
Qed.
End do_gc.
End handles.
