(* ===== verification/FdpWrite.v ===== *)
(** * Writing a logical page

    The census of lines, the write credits, and [write_page]: as long as the host
    uses fewer logical pages than there are pages outside [2 * NR_WP] lines, the
    credits keep a free line for every write pointer, so that no write of any
    sequence fails. *)

From stdpp Require Import base numbers list gmap relations.
From S2P Require Import Prelude Config Pqueue ChannelModel Ssd Nvme FdpLog FdpFtl FdpGeom FdpInv FdpOps FdpAdvance FdpGc.

#[local] Open Scope Z_scope.

Section handles.
Context `{NH : !Handles}.

(** ** The census of lines *)

(** The lines under the write pointers. *)
Definition open_lines (f : fdp_ftl) : list Z := (λ w, wp_blk (wp_of f w)) <$> seqZ 0 NR_WP.

Lemma opened_occ f l : opened f l = occ l (open_lines f).
Proof.
  unfold opened, occ, open_lines. induction (seqZ 0 NR_WP) as [|w ws IH]; [done|]. cbn [cnt fmap list_fmap].
  rewrite <- IH, Z.eqb_sym. done.
Qed.

Lemma pmem_occ q s l : pq_wf q s → pmem q l = occ l (pq_elems q).
Proof. intros Hwf. rewrite occ_NoDup; [done|]. by eapply NoDup_pq_elems. Qed.

Lemma zsum_add {A} (f g : A → Z) L : zsum (λ x, f x + g x) L = zsum f L + zsum g L.
Proof. induction L as [|x L IH]; simpl; lia. Qed.

Lemma line_census f :
  fbase None None f →
  lm_free_line_cnt (ftl_lm f) + lm_victim_line_cnt (ftl_lm f) + lm_full_line_cnt (ftl_lm f) + NR_WP
    = tt_lines (fsp f).
Proof.
  intros Hfb. pose proof Hfb as [Hsp Hn Hli Hls Hws Hcl]. rewrite (so_lines _ Hsp).
  set (T := blks_per_pl (fsp f)) in *. pose proof (ls_pq _ _ _ _ Hls) as Hpq. pose proof (so_blks _ Hsp) as HT.
  fold T in HT. set (m := ftl_lm f) in *.
  assert (∀ l, occ l (lm_free_line_list m) + occ l (pq_elems (lm_victim_line_pq m))
    + occ l (lm_full_line_list m) + occ l (open_lines f) = Z.b2z (in_range T l)) as Hpart.
  { intros l. rewrite <- (ls_part _ _ _ _ Hls l), <- opened_occ, <- (pmem_occ _ _ l Hpq).
    rewrite bool_decide_false by done. simpl. lia. }
  assert (∀ xs, (∀ l, occ l xs ≤ Z.b2z (in_range T l)) → zsum (λ l, occ l xs) (seqZ 0 T) = Z.of_nat (length xs))
    as Hsum.
  { intros xs Hxs. apply zsum_occ, Forall_forall. intros l Hl%occ_elem. specialize (Hxs l).
    apply in_range_true. destruct (in_range T l); [done|]. simpl in Hxs. lia. }
  assert (zsum (λ l, Z.b2z (in_range T l)) (seqZ 0 T) = T) as Htot.
  { rewrite (zsum_ext _ (λ _, 1)).
    - pose proof (zsum_bounds (λ _ : Z, 1) (seqZ 0 T) 1 1 ltac:(done)) as Hb. rewrite length_seqZ in Hb. lia.
    - intros l Hl%elem_of_seqZ. by rewrite (proj2 (in_range_true T l)) by lia. }
  rewrite <- (zsum_ext _ _ _ (λ l _, Hpart l)), !zsum_add, !Hsum in Htot; cycle 1.
  1-4: intros l; rewrite <- (Hpart l);
    pose proof (occ_nonneg l (lm_free_line_list m)); pose proof (occ_nonneg l (pq_elems (lm_victim_line_pq m)));
    pose proof (occ_nonneg l (lm_full_line_list m)); pose proof (occ_nonneg l (open_lines f)); lia.
  assert (length (open_lines f) = Z.to_nat NR_WP) as Ho by (unfold open_lines; by rewrite length_fmap, length_seqZ).
  rewrite Ho, (length_pq_elems _ _ Hpq) in Htot.
  rewrite (ls_free_cnt _ _ _ _ Hls), (ls_victim_cnt _ _ _ _ Hls), (ls_full_cnt _ _ _ _ Hls).
  pose proof NR_WP_range. lia.
Qed.

(** ** A victim exists *)

(** The valid pages belong to different logical pages. *)
Lemma valid_pages_le X f (P : list ppa) L :
  finv None X None None f → NoDup P →
  (∀ p, p ∈ P → ppa_in (fsp f) p ∧ pstatus (ftl_ssd f) p = Some PG_VALID) →
  (∀ lpn, mapped_at f lpn = true → lpn < L) → Z.of_nat (length P) ≤ Z.max 0 L.
Proof.
  intros [Hfb Hm] HP Hval HL. pose proof (fb_sp _ _ _ Hfb) as Hsp.
  set (lpn_of := λ p, default 0 (aget (ftl_rmap f) (pgidx (fsp f) p))).
  assert (∀ p, p ∈ P → aget (ftl_maptbl f) (lpn_of p) = Some p) as Hback.
  { intros p Hp. destruct (Hval p Hp) as [Hi Hv]. destruct (mo_bwd _ _ _ _ _ _ Hm p Hi Hv) as (lpn & Hr & _ & Hl).
    { by intros [? _]. }
    unfold lpn_of. by rewrite Hr. }
  assert (NoDup (lpn_of <$> P)) as Hnd.
  { apply NoDup_fmap_2_strong; [|done]. intros p q Hp Hq E. pose proof (Hback p Hp). pose proof (Hback q Hq).
    congruence. }
  assert (lpn_of <$> P ⊆+ seqZ 0 L) as Hsub.
  { apply NoDup_submseteq; [done|]. intros lpn (p & -> & Hp)%list_elem_of_fmap. apply elem_of_seqZ.
    pose proof (aget_inv _ _ _ (Hback p Hp)) as Hr. split; [lia|]. simpl. apply HL. unfold mapped_at.
    rewrite (Hback p Hp). eapply mapped_ppa_in; [done|]. by apply Hval. }
  apply submseteq_length in Hsub. rewrite length_fmap, length_seqZ in Hsub. lia.
Qed.

Lemma full_pages_valid X f L :
  finv None X None None f → (∀ lpn, mapped_at f lpn = true → lpn < L) →
  lm_full_line_cnt (ftl_lm f) * pgs_per_line (fsp f) ≤ Z.max 0 L.
Proof.
  intros Hfi HL. pose proof Hfi as [Hfb Hm]. pose proof Hfb as [Hsp Hn Hli Hls Hws Hcl].
  set (full := lm_full_line_list (ftl_lm f)) in *. rewrite (ls_full_cnt _ _ _ _ Hls). fold full.
  assert (∀ l, l ∈ full → 0 ≤ l < blks_per_pl (fsp f)) as Hr
    by (intros l Hl; eapply part_range; eauto using opened_nonneg).
  assert (Z.of_nat (length (full ≫= lpages (fsp f))) = Z.of_nat (length full) * pgs_per_line (fsp f)) as Hlen.
  { rewrite (length_bind_const _ _ (Z.to_nat (pgs_per_line (fsp f)))).
    - pose proof (ppl_pos _ Hsp). lia.
    - intros l _. pose proof (length_lpages _ Hsp l). lia. }
  rewrite <- Hlen. eapply valid_pages_le; [done| | |done].
  - apply NoDup_bind.
    + intros l1 l2 p H1 H2 Hp1 Hp2. apply (elem_of_lpages _ Hsp) in Hp1 as [_ <-], Hp2 as [_ <-]; auto.
    + intros l _. apply NoDup_lpages.
    + apply NoDup_alt. intros i j l Hi Hj.
      assert (occ l full ≤ 1) as Hocc.
      { pose proof (ls_part _ _ _ _ Hls l). pose proof (occ_nonneg l (lm_free_line_list (ftl_lm f))).
        pose proof (pmem_range (lm_victim_line_pq (ftl_lm f)) l). pose proof (opened_nonneg f l). fold full in H.
        destruct (in_range _ l), (bool_decide (None = Some l)); simpl in H; lia. }
      destruct (decide (i = j)) as [|Hne]; [done|]. exfalso.
      assert (2 ≤ occ l full); [|lia].
      assert (∀ (xs : list Z) i j, xs !! i = Some l → xs !! j = Some l → (i < j)%nat → 2 ≤ occ l xs) as Htwo.
      { intros xs a b Ha Hb Hab. rewrite <- (take_drop_middle xs a l Ha), occ_app, occ_cons, Z.eqb_refl.
        pose proof (occ_nonneg l (take a xs)). assert (0 < occ l (drop (S a) xs)); [|simpl; lia].
        apply occ_elem. apply (list_elem_of_lookup_2 _ (b - S a)). rewrite lookup_drop.
        by replace (S a + (b - S a))%nat with b by lia. }
      destruct (decide (i < j)%nat); [by apply (Htwo full i j)|apply (Htwo full j i); [done|done|lia]].
  - intros p (l & Hp & Hl)%list_elem_of_bind. apply (elem_of_lpages _ Hsp) in Hp as [Hp Hb]; [|auto].
    split; [done|]. apply (co_full _ _ _ Hcl); [done|]. by rewrite Hb.
Qed.

Lemma victim_exists X f L :
  finv None X None None f → (∀ lpn, mapped_at f lpn = true → lpn < L) →
  0 ≤ L < (tt_lines (fsp f) - 2 * NR_WP) * pgs_per_line (fsp f) →
  lm_free_line_cnt (ftl_lm f) ≤ NR_WP →
  ∃ l, member (lm_victim_line_pq (ftl_lm f)) l.
Proof.
  intros Hfi HL HLb Hfree. pose proof (fi_base _ _ _ _ _ Hfi) as Hfb.
  pose proof (line_census f Hfb) as Hcen. pose proof (full_pages_valid X f L Hfi HL) as Hfull.
  pose proof (ppl_pos _ (fb_sp _ _ _ Hfb)) as Hppl.
  pose proof (ls_pq _ _ _ _ (fb_lists _ _ _ Hfb)) as Hpq. pose proof (wf_size _ _ Hpq) as Hqs.
  rewrite (ls_victim_cnt _ _ _ _ (fb_lists _ _ _ Hfb)) in Hcen.
  destruct (decide (q_size (lm_victim_line_pq (ftl_lm f)) = 1)) as [E|E]; [exfalso; nia|].
  destruct (wf_pos _ _ Hpq 1) as (l & Hl & _); [lia|]. exists l. exists 1. split; [lia|done].
Qed.

(** ** Isolation

    [tag] gives the handle each logical page was last written with.  Its data is
    in a reclaim unit of that handle, or in one the collector filled. *)

Definition isolated (tag : Z → Z) (f : fdp_ftl) : Prop :=
  ∀ lpn p x, aget (ftl_maptbl f) lpn = Some p → mapped_ppa p = true →
    aget (lm_lines (ftl_lm f)) (g_blk p) = Some x → ln_ruh x = -1 ∨ ln_ruh x = tag lpn.

Lemma isolated_relocated tag f f' : isolated tag f → relocated f f' → isolated tag f'.
Proof.
  intros Hi [R1 R2] lpn p x' Hp Hm Hx'. destruct (R2 lpn p Hp Hm) as [Hp0|Hr]; [|left; by apply Hr].
  destruct (R1 _ x' Hx') as (x & Hx & [E|E]); [|by left]. rewrite E. by eapply Hi.
Qed.

(** ** One page *)

(** The effect of writing logical page [lpn] behind handle [ruh]. *)
Record placed (ruh lpn : Z) (f f' : fdp_ftl) : Prop := {
  pl_inv : finv None (λ _, False) None None f';
  pl_sp : fsp f' = fsp f;
  pl_cp : ftl_cp f' = ftl_cp f;
  pl_wfc : ftl_wfc f' = ftl_wfc f;
  pl_room : room f' = room f - 1;
  pl_maptbl : ftl_maptbl f' = aset (ftl_maptbl f) lpn (wp_ppa (wp_of f ruh));
  pl_ruh l x' : aget (lm_lines (ftl_lm f')) l = Some x' →
    ∃ x, aget (lm_lines (ftl_lm f)) l = Some x ∧
      (ln_ruh x' = ln_ruh x ∨ ln_ruh x' = ruh ∧ l ∈ lm_free_line_list (ftl_lm f));
  pl_timing e : timing_ok (ftl_ssd f, e) → timing_ok (ftl_ssd f', e);
}.

Section write.
Context `{CK : !Clock} `{LC : !LocalClock}.

(** The old copy is given up, the new one programmed, the pointer moved on. *)
Lemma wp_place_page {A} (rest : ppa → M fstate A) ruh lpn f sh Q :
  finv None (λ _, False) None None f → 0 ≤ ruh < NR_RUH → 0 ≤ lpn < tt_pgs (fsp f) →
  lm_free_line_list (ftl_lm f) ≠ [] →
  (∀ f', placed ruh lpn f f' → wp (rest (wp_ppa (wp_of f ruh))) (f', sh) Q) →
  wp (p ← get_maptbl_ent lpn;
      when (mapped_ppa p) (mark_page_invalid p ;; set_rmap_ent INVALID_LPN p) ;;
      p ← get_new_page USER_IO ruh;
      set_maptbl_ent lpn p ;; set_rmap_ent lpn p ;; mark_page_valid p ;;
      advance_write_pointer USER_IO ruh ;; rest p) (f, sh) Q.
Proof.
  intros Hfi Hruh Hlpn Hfree HQ. pose proof Hfi as [Hfb Hm].
  destruct (aget_some (ftl_maptbl f) lpn) as [p Hp]; [by rewrite (mo_maptbl _ _ _ _ _ _ Hm)|].
  f_step. eapply wp_get_maptbl_ent; [done|]. f_step.
  eapply wp_mono; [by eapply wp_invalidate_old|].
  intros [] [f1 sh1] (-> & Hf1 & E1 & E2 & E3 & E4 & E5 & E0 & E6 & E7 & E8).
  assert (wio_ok USER_IO ruh) as Hio by (by intros _). pose proof (wid_range _ _ Hio) as Hw. simpl in Hw.
  pose proof (fi_base _ _ _ _ _ Hf1) as Hfb1.
  f_step. eapply wp_get_new_page; [apply Hfb1|done|apply Hfb1|]. simpl. rewrite E5.
  pose proof (wp_program (advance_write_pointer USER_IO ruh ;; rest (wp_ppa (wp_of f ruh))) ruh f1 sh lpn
    None (λ _, False) Q Hf1 Hw ltac:(by rewrite E1)) as Hprog. cbv zeta in Hprog. rewrite E5 in Hprog.
  apply Hprog. intros f2 Hf2 Hpr. f_step.
  assert (lm_free_line_list (ftl_lm f2) ≠ []) as Hne2.
  { by rewrite (pr_free _ _ _ _ Hpr), E0. }
  eapply (wp_advance USER_IO ruh); [exact Hf2|done|done|]. intros f3 Hf3 [D1 D2 D3 D4 D5 D6 D7 D8].
  destruct Hpr as [P1 P2 P3 P4 P5 P6 P7 P8 P9 P10]. simpl in D6, D8.
  apply HQ. split; try congruence.
  - unfold fsp in *. congruence.
  - rewrite D7. rewrite (room_ext f f2); [done|congruence|congruence|]. intros w _. by rewrite P5, E5.
  - intros l x3 Hx3. destruct (D8 l x3 Hx3) as (x2 & Hx2 & H3). destruct (P10 l x2 Hx2) as (x1 & Hx1 & H2).
    destruct (E7 l x1 Hx1) as (x & Hx & H1). exists x. split; [done|].
    destruct H3 as [H3|[H3 Hin]]; [left; congruence|right]. split.
    + rewrite H3. unfold ruh_of. by rewrite (proj2 (Z.eqb_neq _ _)) by lia.
    + by rewrite <- E0, <- P6.
  - intros e He. rewrite D1. apply P8, E8, He.
Qed.
End write.

Lemma isolated_placed tag ruh lpn f f' :
  finv None (λ _, False) None None f → 0 ≤ ruh < NR_RUH → 0 ≤ lpn < tt_pgs (fsp f) →
  placed ruh lpn f f' → isolated tag f → isolated (λ k, if k =? lpn then ruh else tag k) f'.
Proof.
  intros [Hfb Hm] Hruh Hlpn Hpl Hi k p x' Hp Hmp Hx'. assert (0 ≤ ruh < NR_WP) as Hw by (unfold NR_WP; lia).
  destruct (pl_ruh _ _ _ _ Hpl _ x' Hx') as (x & Hx & Hr). rewrite (pl_maptbl _ _ _ _ Hpl) in Hp.
  rewrite aget_aset in Hp by (by rewrite (mo_maptbl _ _ _ _ _ _ Hm)).
  destruct (Z.eqb_spec k lpn) as [->|Hne].
  - rewrite decide_True in Hp by done. injection Hp as <-. simpl in Hx.
    pose proof (ws_ruh _ _ _ _ (fb_wps _ _ _ Hfb) ruh x Hw Hx) as H.
    rewrite (proj2 (Z.eqb_neq _ _)) in H by lia. intuition congruence.
  - rewrite decide_False in Hp by congruence.
    assert (p ≠ ppa_of UNMAPPED_PPA) as Hu by (intros ->; by rewrite mapped_ppa_unmapped in Hmp).
    destruct (mo_fwd _ _ _ _ _ _ Hm k p Hp ltac:(done) Hu) as (Hin & Hst & _).
    destruct Hr as [Hr|[_ Hfree]]; [rewrite Hr; by eapply Hi|].
    pose proof (co_free _ _ _ (fb_class _ _ _ Hfb) p Hin Hfree). status_ne.
Qed.

(** ** The account of collections

    A collection is given as the number of pages it moved and the handle of the line
    it emptied.  A series of them adds the pages programmed to the media bytes
    written and a line each to the bytes erased, reports the lines of a handle in the
    event log, and leaves the handles' attributes and the enabled events alone. *)

Definition gc_account : Type := Z * Z.
(** The event of a collection. *)
Definition gc_emissions (gcs : list gc_account) : list emission :=
  (λ g, (NVME_FDP_EVT_IMPLICIT_MODIFIED_RU, NVME_FDP_EVENT_F_PIV, g.2, 0)) <$>
    filter (λ g, 0 ≤ g.2) gcs.
Definition pages_moved (gcs : list gc_account) : Z := zsum fst gcs.

Record accounted `{!LocalClock} (sp : ssdparams) (gcs : list gc_account) (c c' : fctx) : Prop := {
  ac_moved : Forall (λ g, 0 ≤ g.1 < pgs_per_line sp) gcs;
  ac_hbmw : fx_hbmw c'.1 = fx_hbmw c.1;
  ac_mbmw : fx_mbmw c'.1 = u64 (fx_mbmw c.1 + pages_moved gcs * pgsz sp);
  ac_mbe : fx_mbe c'.1 = u64 (fx_mbe c.1 + Z.of_nat (length gcs) * (pgs_per_line sp * pgsz sp));
  ac_attr : fx_ruh_attr c'.1 = fx_ruh_attr c.1;
  ac_events : fx_events c'.1 = fx_events c.1;
  ac_recent : recent c'.1 =
    take (Z.to_nat FDP_NR_EVENTS) (recorded (fx_events c.1) c.2 (gc_emissions gcs) (recent c.1));
  ac_ticks : c'.2 = c.2 + cnt (λ '(t, _, _, _), event_enabled (fx_events c.1) t) (gc_emissions gcs);
}.

Lemma accounted_nil `{!LocalClock} sp c : ctx_wf c.1 → accounted sp [] c c.
Proof.
  intros Hc. pose proof (xw_counters _ Hc) as (_ & Hm & He & _).
  split; cbn; rewrite ?Z.add_0_r, ?u64_small by done; try done.
  rewrite take_ge; [done|]. rewrite length_recent by done. pose proof (xw_nr _ Hc). lia.
Qed.

Lemma recorded_series `{!LocalClock} ev n es1 es2 acc :
  recorded ev n (es1 ++ es2) acc =
  recorded ev (n + cnt (λ '(t, _, _, _), event_enabled ev t) es1) es2 (recorded ev n es1 acc).
Proof.
  revert n acc. induction es1 as [|[[[t f] p] ns] es IH]; intros n acc; simpl; [by rewrite Z.add_0_r|].
  destruct (event_enabled ev t); rewrite IH; f_equal; simpl; lia.
Qed.

Lemma accounted_app `{!LocalClock} sp g1 g2 c1 c2 c3 :
  accounted sp g1 c1 c2 → accounted sp g2 c2 c3 → accounted sp (g1 ++ g2) c1 c3.
Proof.
  intros [A1 A2 A3 A4 A5 A6 A7 A8] [B1 B2 B3 B4 B5 B6 B7 B8].
  assert (gc_emissions (g1 ++ g2) = gc_emissions g1 ++ gc_emissions g2) as He
    by (unfold gc_emissions; by rewrite filter_app, fmap_app).
  split; try congruence.
  - by apply Forall_app.
  - rewrite B3, A3, u64_add. unfold pages_moved. rewrite zsum_app. f_equal. lia.
  - rewrite B4, A4, u64_add, length_app. f_equal. lia.
  - rewrite B7, A6, A7, A8, He, recorded_series, recorded_app, (recorded_app _ _ _ (recorded _ _ _ _)).
    apply take_app_take.
  - rewrite B8, A6, A8, He, cnt_app. lia.
Qed.

Lemma collected_accounted `{!LocalClock} l x st st' :
  ctx_wf (sh_ctx (snd st)).1 → collected l x st st' →
  accounted (fsp (fst st)) [(ln_vpc x, ln_ruh x)] (sh_ctx (snd st)) (sh_ctx (snd st')).
Proof.
  intros Hc C. destruct (cl_counts _ _ _ _ C) as (Hi & Hv & Hs).
  assert (gc_emissions [(ln_vpc x, ln_ruh x)] = if 0 <=? ln_ruh x
    then [(NVME_FDP_EVT_IMPLICIT_MODIFIED_RU, NVME_FDP_EVENT_F_PIV, ln_ruh x, 0)] else []) as He.
  { unfold gc_emissions. rewrite filter_cons. simpl.
    destruct (Z.leb_spec 0 (ln_ruh x)); [by rewrite decide_True|by rewrite decide_False by lia]. }
  assert (take (Z.to_nat FDP_NR_EVENTS) (recent (sh_ctx (snd st)).1) = recent (sh_ctx (snd st)).1) as Ht.
  { apply take_ge. rewrite length_recent by done. pose proof (xw_nr _ Hc). lia. }
  split.
  - constructor; [simpl; lia|constructor].
  - apply C.
  - rewrite (cl_mbmw _ _ _ _ C). unfold pages_moved. simpl. by rewrite Z.add_0_r.
  - rewrite (cl_mbe _ _ _ _ C). by rewrite Z.mul_1_l.
  - apply C.
  - apply C.
  - rewrite (cl_recent _ _ _ _ C), He. unfold gc_events, gc_reports.
    destruct (0 <=? ln_ruh x); cbn [andb recorded]; [|done]. by destruct (event_enabled _ _).
  - rewrite (cl_ticks _ _ _ _ C), He. unfold gc_reports. destruct (0 <=? ln_ruh x); simpl; lia.
Qed.

(** ** Write credits *)

(** The host uses logical pages below [L] only.  A write costs a page of room and
    a credit; a collection yields as many of both.  The margin between them is
    what keeps a free line at hand. *)
Record wr_inv (L : Z) (tag : Z → Z) (st : fstate) : Prop := {
  wi_inv : ftl_inv st;
  wi_thres : cp_gc_thres_lines_high (ftl_cp (fst st)) = NR_WP;
  wi_limit : 0 ≤ L < (tt_lines (fsp (fst st)) - 2 * NR_WP) * pgs_per_line (fsp (fst st));
  wi_used lpn : mapped_at (fst st) lpn = true → lpn < L;
  wi_credits : 1 ≤ wfc_write_credits (ftl_wfc (fst st)) ≤ pgs_per_line (fsp (fst st));
  wi_refill : 1 ≤ wfc_credits_to_refill (ftl_wfc (fst st)) ≤ pgs_per_line (fsp (fst st));
  wi_margin : NR_WP * pgs_per_line (fsp (fst st)) < room (fst st) - wfc_write_credits (ftl_wfc (fst st));
  wi_isolated : isolated tag (fst st);
}.

Lemma set_wfc_room w f : room (set_wfc w f) = room f.
Proof. done. Qed.

Lemma mapped_at_placed ruh lpn f f' k :
  finv None (λ _, False) None None f → 0 ≤ ruh < NR_RUH → 0 ≤ lpn < tt_pgs (fsp f) →
  placed ruh lpn f f' → mapped_at f' k = if decide (lpn = k) then true else mapped_at f k.
Proof.
  intros [Hfb Hm] Hruh Hlpn Hpl. eapply mapped_at_set; [by rewrite (mo_maptbl _ _ _ _ _ _ Hm)| |apply Hpl].
  eapply mapped_ppa_in; [apply Hfb|]. apply (ws_ok _ _ _ _ (fb_wps _ _ _ Hfb)). unfold NR_WP. lia.
Qed.

Section write_page.
Context `{CK : !Clock} `{LC : !LocalClock}.
Hypothesis clock_range : ∀ n, 0 ≤ cpu_clock n.

(** Statistics and events after settling the credits: nothing, or a collection. *)
Definition settled_stats (sp : ssdparams) (sh sh' : shared) : Prop :=
  env_wbuf (sh_env sh') = env_wbuf (sh_env sh) ∧ sh_ops sh' = sh_ops sh ∧
  ∃ gcs, (length gcs ≤ 1)%nat ∧ accounted sp gcs (sh_ctx sh) (sh_ctx sh').

Lemma wp_settle_credits L tag f sh Q :
  ftl_inv (f, sh) → cp_gc_thres_lines_high (ftl_cp f) = NR_WP →
  0 ≤ L < (tt_lines (fsp f) - 2 * NR_WP) * pgs_per_line (fsp f) →
  (∀ lpn, mapped_at f lpn = true → lpn < L) →
  1 ≤ wfc_write_credits (ftl_wfc f) ≤ pgs_per_line (fsp f) →
  1 ≤ wfc_credits_to_refill (ftl_wfc f) ≤ pgs_per_line (fsp f) →
  NR_WP * pgs_per_line (fsp f) < room f + 1 - wfc_write_credits (ftl_wfc f) →
  isolated tag f →
  (∀ st', wr_inv L tag st' → (∀ lpn, mapped_at (fst st') lpn = mapped_at f lpn) →
     fsp (fst st') = fsp f → settled_stats (fsp f) sh (snd st') → Q tt st') →
  wp (consume_write_credit ;; check_and_refill_write_credit) (f, sh) Q.
Proof using clock_range.
  intros Hinv Hth HL Hused Hc Hr Hroom Hiso HQ. pose proof Hinv as [Hfi Hse]. simpl in Hfi.
  pose proof (fi_base _ _ _ _ _ Hfi) as Hfb. pose proof (ppl_pos _ (fb_sp _ _ _ Hfb)) as Hppl.
  f_step. unfold consume_write_credit. f_step. rewrite u32_small by lia.
  set (f1 := set_wfc _ f). unfold check_and_refill_write_credit. f_step. f_step.
  assert (ftl_inv (f1, sh)) as Hinv1 by (split; [by apply finv_set_wfc|done]).
  apply wp_when; intros Hle; bool_prop; unfold f1 in Hle; simpl in Hle.
  all: assert (settled_stats (fsp f) sh sh) as Hsame
    by (split_and!; [done|done|exists []; split; [simpl; lia|by apply accounted_nil, Hse]]).
  2:{ apply HQ; try done. split; simpl; try done; change (fsp f1) with (fsp f); [lia|].
      change (room f1) with (room f). lia. }
  assert (wfc_write_credits (ftl_wfc f) = 1) as Hc1 by lia.
  assert (NR_WP * pgs_per_line (fsp f) < room f) as Hroom' by lia.
  assert (1 ≤ lm_free_line_cnt (ftl_lm f)) as Hfree.
  { rewrite (ls_free_cnt _ _ _ _ (fb_lists _ _ _ Hfb)). pose proof (room_free _ _ f Hfb Hroom').
    destruct (lm_free_line_list (ftl_lm f)); simpl; [done|lia]. }
  f_step. unfold foreground_gc. f_step. f_step. unfold should_gc_high. simpl. rewrite Hth.
  apply wp_when; intros Hg; bool_prop.
  - f_step. apply (wp_do_gc clock_range); [done|done| |].
    { intros Hno. destruct (victim_exists _ f L Hfi Hused HL Hg) as [l Hl]. by destruct (Hno eq_refl l). }
    intros l x [f2 sh2] Hcol. pose proof (collected_accounted l x (f1, sh) (f2, sh2) (proj2 Hse) Hcol) as Hacc.
    destruct Hcol as [C1 C2 C3 C4 C5 C6 C7 C8 C9 C10 C11 C12 C13 C14 C15 _ _ _ _ _ _ _]. simpl in *.
    change (fsp f1) with (fsp f) in C10. unfold f1 in C7; simpl in C7.
    f_step. f_step. rewrite C7. simpl. rewrite Hc1, u32_small by lia.
    assert (fsp f2 = fsp f) as E2 by exact C5.
    change (room f1) with (room f) in C11. destruct C4 as [C4 C4']. simpl in C4.
    set (f3 := set_wfc _ f2). assert (fsp f3 = fsp f) as E3 by exact C5.
    apply HQ; simpl; try done.
    2:{ split_and!; [done|done|]. exists [(ln_vpc x, ln_ruh x)]. split; [simpl; lia|]. exact Hacc. }
    split; simpl; rewrite ?E3; try done; try lia.
    + split; [by apply finv_set_wfc|done].
    + by rewrite C6.
    + intros lpn Hlpn. apply Hused. rewrite <- Hlpn. symmetry. exact (C9 lpn).
    + change (room f3) with (room f2). rewrite C11. lia.
    + eapply isolated_relocated; [exact Hiso|]. destruct C12. by split.
  - f_step. unfold f1; simpl. rewrite Hc1, u32_small by lia.
    match goal with |- Q _ (?ff, _) => set (f2 := ff) end.
    apply HQ; try done. split; simpl; try done; change (fsp f2) with (fsp f);
      [by split; [apply finv_set_wfc, finv_set_wfc|]|].
    change (room f2) with (room f).
    assert (NR_WP * 1 ≤ zsum (left_of f) (seqZ 0 NR_WP)) as Hz.
    { pose proof (zsum_bounds (left_of f) (seqZ 0 NR_WP) 1 (pgs_per_line (fsp f))) as Hb.
      rewrite length_seqZ, Z2Nat.id in Hb by (pose proof NR_WP_range; lia). rewrite Z.mul_comm. apply Hb.
      intros w Hw%elem_of_seqZ. eapply left_of_range; [done|lia]. }
    unfold room. pose proof NR_WP_range. nia.
Qed.

(** The internal operation a page write hands to the I/O engine: the release of
    the buffer space of the oneshot page it completes. *)
Definition wordline_op (sp : ssdparams) (p : ppa) (sq_id t : Z) : list internal_op :=
  if last_pg_in_wordline sp p then [InternalOp sq_id t (pgsz sp * pgs_per_oneshotpg sp)] else [].

Record wrote (L : Z) (tag : Z → Z) (ruh sq_id lpn nsecs nsecs' : Z) (st st' : fstate) : Prop := {
  wt_inv : wr_inv L (λ k, if k =? lpn then ruh else tag k) st';
  wt_mapped k : mapped_at (fst st') k = (k =? lpn) || mapped_at (fst st) k;
  wt_sp : fsp (fst st') = fsp (fst st);
  wt_time : nsecs ≤ nsecs';
  wt_wbuf : env_wbuf (sh_env (snd st')) = env_wbuf (sh_env (snd st));
  wt_ctx : ∃ gcs, (length gcs ≤ 1)%nat ∧
    accounted (fsp (fst st)) gcs (sh_ctx (snd st)) (sh_ctx (snd st'));
  wt_ops : ∃ t, sh_ops (snd st')
    = sh_ops (snd st) ++ wordline_op (fsp (fst st)) (wp_ppa (wp_of (fst st) ruh)) sq_id t;
}.

Lemma wp_write_page L tag ruh sq_id stime lpn nsecs st :
  wr_inv L tag st → 0 ≤ ruh < NR_RUH → 0 ≤ lpn < L → 0 ≤ stime →
  wp (write_page ruh sq_id stime lpn nsecs) st
    (λ nsecs' st', wrote L tag ruh sq_id lpn nsecs nsecs' st st').
Proof using clock_range.
  destruct st as [f sh]. intros [I1 I2 I3 I4 I5 I6 I7 I8] Hruh Hlpn Hst. simpl in *.
  pose proof I1 as [Hfi Hse]. simpl in Hfi. pose proof (fi_base _ _ _ _ _ Hfi) as Hfb.
  pose proof (fb_sp _ _ _ Hfb) as Hsp. pose proof (ppl_pos _ Hsp) as Hppl.
  assert (0 ≤ lpn < tt_pgs (fsp f)) as Hlt.
  { rewrite (tt_pgs_lines _ Hsp). rewrite (so_lines _ Hsp) in I3. pose proof NR_WP_range. nia. }
  assert (0 ≤ ruh < NR_WP) as Hw by (unfold NR_WP; lia).
  unfold write_page. f_step. f_step.
  apply wp_place_page; [done|done|done|eapply room_free; [done|lia]|].
  intros f1 Hpl. set (np := wp_ppa (wp_of f ruh)).
  assert (ppa_in (fsp f1) np) as Hnp.
  { rewrite (pl_sp _ _ _ _ Hpl). apply (ws_ok _ _ _ _ (fb_wps _ _ _ Hfb)). done. }
  pose proof (oneshot_bound _ Hsp) as Hos. pose proof (so_pgsz _ Hsp) as (Hpz & _).
  f_step. apply wp_mono with (λ t st1, nsecs ≤ t ∧ ∃ s' sh', st1 = (set_ssd s' f1, sh') ∧
    same_nand (ftl_ssd f1) s' ∧ senv_ok (set_ssd s' f1, sh') ∧ sh_ctx sh' = sh_ctx sh ∧
    env_wbuf (sh_env sh') = env_wbuf (sh_env sh) ∧
    ∃ t, sh_ops sh' = sh_ops sh ++ wordline_op (fsp f) np sq_id t).
  { unfold wordline_op. destruct (last_pg_in_wordline (fsp f) np).
    - f_step. apply wp_on_nand; try done.
      { split; [apply Hpl|]; apply Hse. }
      intros t s' sh' Ht Hn Hs Hg Hc. f_step. f_step. f_step. simpl. split; [lia|].
      eexists s', _. split; [done|]. split_and!; try done; [apply Hg|]. exists t. simpl.
      rewrite (gs_ops _ _ _ _ Hg), Hpz, s32_small, u64_small by lia. done.
    - f_step. split; [lia|]. exists (ftl_ssd f1), sh. split; [by destruct f1|]. split_and!; try done.
      + split; [simpl|apply Hse]. destruct f1; simpl. apply (pl_timing _ _ _ _ Hpl), Hse.
      + exists 0. by rewrite app_nil_r. }
  intros t st1 (Ht & s' & sh1 & -> & Hn & Hs & Hc & Hwb & Hops).
  pose proof Hpl as [P1 P2 P3 P4 P5 P6 P7 P8].
  assert (fsp (set_ssd s' f1) = fsp f) as E by (rewrite <- P2; apply Hn).
  pose proof (λ k, mapped_at_placed ruh lpn f f1 k Hfi Hruh Hlt Hpl) as Hmap.
  assert (room (set_ssd s' f1) = room f - 1) as Hroom.
  { rewrite <- P5. apply room_ext; [by rewrite E, P2|done|done]. }
  change (wp (consume_write_credit ;; (check_and_refill_write_credit ;; mret t)) (set_ssd s' f1, sh1)
    (λ nsecs' st', wrote L tag ruh sq_id lpn nsecs nsecs' (f, sh) st')).
  enough (wp (consume_write_credit ;; check_and_refill_write_credit) (set_ssd s' f1, sh1)
    (λ _ st', wrote L tag ruh sq_id lpn nsecs t (f, sh) st')) as Hseq.
  { unfold wp, mbind, M_bind in Hseq |- *. destruct (consume_write_credit _) as [[[] st2]|]; [|done].
    destruct (check_and_refill_write_credit st2) as [[[] st3]|]; done. }
  apply (wp_settle_credits L (λ k, if k =? lpn then ruh else tag k)); simpl; rewrite ?E, ?P3, ?P4, ?Hroom; try done; try lia.
  - split; [by apply finv_same_nand|done].
  - intros k. change (mapped_at (set_ssd s' f1) k) with (mapped_at f1 k). rewrite Hmap.
    case_decide as Hk; [lia|]. apply I4.
  - pose proof (isolated_placed tag ruh lpn f f1 Hfi Hruh Hlt Hpl I8) as Hi. exact Hi.
  - intros st' W1 W2 W3 (W4 & W5 & gcs & W6 & W7). rewrite Hc in W7. split; simpl; try done; try congruence.
    + intros k. rewrite W2. change (mapped_at (set_ssd s' f1) k) with (mapped_at f1 k). rewrite Hmap.
      rewrite Z.eqb_sym. destruct (Z.eqb_spec lpn k), (decide (lpn = k)); done.
    + by exists gcs.
    + destruct Hops as [t' Hops]. exists t'. by rewrite W5.
Qed.
End write_page.

(** ** What the invariant says of a partition between operations *)

Lemma finv_bijective f :
  finv None (λ _, False) None None f →
  (∀ lpn p, aget (ftl_maptbl f) lpn = Some p → mapped_ppa p = true →
     ppa_in (fsp f) p ∧ pstatus (ftl_ssd f) p = Some PG_VALID ∧
     aget (ftl_rmap f) (pgidx (fsp f) p) = Some lpn ∧
     ∀ lpn', aget (ftl_maptbl f) lpn' = Some p → lpn' = lpn) ∧
  (∀ p, ppa_in (fsp f) p → pstatus (ftl_ssd f) p = Some PG_VALID →
     ∃ lpn, aget (ftl_rmap f) (pgidx (fsp f) p) = Some lpn ∧ aget (ftl_maptbl f) lpn = Some p).
Proof.
  intros [_ Hm].
  assert (∀ lpn p, aget (ftl_maptbl f) lpn = Some p → mapped_ppa p = true → ppa_in (fsp f) p ∧
    pstatus (ftl_ssd f) p = Some PG_VALID ∧ aget (ftl_rmap f) (pgidx (fsp f) p) = Some lpn) as Hfwd.
  { intros lpn p Hp Hmp. assert (p ≠ ppa_of UNMAPPED_PPA) as Hu by (intros ->; by rewrite mapped_ppa_unmapped in Hmp).
    by destruct (mo_fwd _ _ _ _ _ _ Hm lpn p Hp ltac:(done) Hu) as (? & ? & _ & ?). }
  split.
  - intros lpn p Hp Hmp. destruct (Hfwd lpn p Hp Hmp) as (H1 & H2 & H3). split_and!; try done.
    intros lpn' Hp'. destruct (Hfwd lpn' p Hp' Hmp) as (_ & _ & H3'). congruence.
  - intros p Hp Hv. destruct (mo_bwd _ _ _ _ _ _ Hm p Hp Hv) as (lpn & H1 & _ & H2); [by intros [? _]|]. eauto.
Qed.

Lemma finv_accounted f :
  finv None (λ _, False) None None f →
  let m := ftl_lm f in
  (∀ l, occ l (lm_free_line_list m) + pmem (lm_victim_line_pq m) l + occ l (lm_full_line_list m)
        + opened f l = Z.b2z (in_range (tt_lines (fsp f)) l)) ∧
  pq_wf (lm_victim_line_pq m) (lm_lines m) ∧
  (∀ l x, aget (lm_lines m) l = Some x →
     ln_vpc x = lcnt (fsp f) (ftl_ssd f) l PG_VALID ∧ ln_ipc x = lcnt (fsp f) (ftl_ssd f) l PG_INVALID).
Proof.
  intros [[Hsp _ Hli Hls _ _] _] m. split_and!; [|apply Hls|].
  - intros l. rewrite (so_lines _ Hsp), <- (ls_part _ _ _ _ Hls l), bool_decide_false by done. simpl. fold m. lia.
  - intros l x Hx. by apply (lo_cnt _ _ _ _ Hli).
Qed.
End handles.
