(* ===== verification/FdpInit.v ===== *)
(** * A new partition

    [fdp_init_ftl] opens the first nine lines, one per reclaim unit handle and one
    for the collector, and establishes the invariant of [FdpWrite]. *)

From stdpp Require Import base numbers list gmap relations.
From S2P Require Import Prelude Config Pqueue ChannelModel Ssd Nvme FdpLog FdpFtl FdpGeom FdpInv FdpOps FdpAdvance FdpGc FdpWrite.

#[local] Open Scope Z_scope.

Section handles.
Context `{NH : !Handles}.

(** ** Opening the first lines *)

(** The partition once the write pointers below [k] have their lines. *)
Record init_at (sp : ssdparams) (k : Z) (f0 f : fdp_ftl) : Prop := {
  ia_ssd : ftl_ssd f = ftl_ssd f0;
  ia_cp : ftl_cp f = ftl_cp f0;
  ia_maptbl : ftl_maptbl f = ftl_maptbl f0;
  ia_rmap : ftl_rmap f = ftl_rmap f0;
  ia_len : alen (ftl_wp_ruh f) = NR_RUH;
  ia_wp w : 0 ≤ w < k → wp_of f w = fresh_wp w;
  ia_lines : alen (lm_lines (ftl_lm f)) = blks_per_pl sp;
  ia_line l : 0 ≤ l < blks_per_pl sp →
    aget (lm_lines (ftl_lm f)) l = Some (FdpLine l 0 0 (if l <? k then ruh_of l else -1) 0);
  ia_free : lm_free_line_list (ftl_lm f) = seqZ k (blks_per_pl sp - k);
  ia_free_cnt : lm_free_line_cnt (ftl_lm f) = blks_per_pl sp - k;
  ia_pq : lm_victim_line_pq (ftl_lm f) = pqueue_init (blks_per_pl sp);
  ia_full : lm_full_line_list (ftl_lm f) = [];
  ia_cnts : lm_victim_line_cnt (ftl_lm f) = 0 ∧ lm_full_line_cnt (ftl_lm f) = 0;
}.

Lemma list_del_seqZ k n : 0 < n → list_del k (seqZ k n) = seqZ (k + 1) (n - 1).
Proof.
  intros Hn. rewrite seqZ_cons by done. unfold list_del. rewrite filter_cons, decide_False by naive_solver.
  rewrite <- Z.add_1_r, <- Z.sub_1_r. apply list_del_id. apply occ_not_elem. rewrite elem_of_seqZ. lia.
Qed.

Section prepare.
Context `{CK : !Clock} `{LC : !LocalClock}.

Lemma wp_prepare sp io ruh f0 f sh :
  sp_ok sp → wio_ok io ruh → 2 * NR_WP < blks_per_pl sp → init_at sp (wid io ruh) f0 f →
  wp (prepare_write_pointer io ruh) (f, sh) (λ _ '(f', sh'), sh' = sh ∧ init_at sp (wid io ruh + 1) f0 f').
Proof.
  intros Hsp Hio HT [A1 A2 A3 A4 A5 A6 A7 A8 A9 A10 A11 A12 A13]. pose proof (so_blks _ Hsp) as HB.
  pose proof (wid_range _ _ Hio) as Hw. set (k := wid io ruh) in *. pose proof NR_WP_range as HN.
  unfold prepare_write_pointer. f_step. apply wp_mono with (λ _ st, st = (f, sh)).
  { unfold get_wp. f_step. f_step. destruct io; [|done]. specialize (Hio eq_refl). f_step.
    f_step; [apply Z.ltb_lt; lia|]. destruct (aget_some (ftl_wp_ruh f) ruh) as [x Hx]; [by rewrite A5|].
    by eapply wp_aread. }
  intros w0 st ->. f_step. unfold get_next_free_line. f_step. f_step. rewrite A9.
  rewrite seqZ_cons by lia. f_step. f_step. f_step.
  rewrite A9, list_del_seqZ by lia. rewrite A10, u32_small by lia.
  set (m1 := set_free _ _ _).
  f_step. eapply wp_line_upd; [by apply A8; lia|]. f_step. eapply wp_line_get.
  { simpl. rewrite aget_aupd, decide_True, A8 by (done || lia). done. }
  simpl. rewrite u32_small by lia. apply wp_set_wp; [done|]. fold k. split; [done|].
  match goal with |- context [put_wp k ?W ?g] => set (W' := W); set (f1 := g) end.
  pose proof (put_wp_frame k W' f1) as (F1 & F2 & F3 & F4 & F5 & F6 & F7).
  split; rewrite ?F1, ?F2, ?F3, ?F4, ?F5, ?F6, ?F7; simpl; try done; try lia.
  - intros w Hwk. rewrite wp_of_put by (done || lia).
    destruct (decide (k = w)) as [<-|Hne]; [done|]. apply A6. lia.
  - by rewrite alen_aupd.
  - intros l Hl. rewrite aget_aupd, A8 by done. destruct (decide (k = l)) as [<-|Hne].
    + simpl. rewrite (proj2 (Z.ltb_lt k (k + 1))) by lia. f_equal. f_equal.
      unfold k. rewrite line_ruh_wid by done. done.
    + destruct (Z.ltb_spec l k), (Z.ltb_spec l (k + 1)); done || lia.
  - f_equal. lia.
Qed.
End prepare.

(** ** The invariant *)

Lemma blk_ok_init sp : sp_ok sp → blk_ok sp (ssd_init_nand_blk sp).
Proof.
  intros Hsp. assert (∀ g, 0 ≤ g < pgs_per_blk sp →
    pg_status <$> aget (blk_pg (ssd_init_nand_blk sp)) g = Some PG_FREE) as Hfree.
  { intros g Hg. simpl. by rewrite aget_anew, decide_True. }
  split; simpl; try done; try by rewrite (bcnt_free sp).
  intros g pg. rewrite aget_anew. case_decide; [|done]. intros [= <-]. simpl. auto.
Qed.

Section init_inv.
Context (sp : ssdparams) (f0 f : fdp_ftl).
Hypothesis (Hsp : sp_ok sp) (HT : 2 * NR_WP < blks_per_pl sp) (Hat : init_at sp NR_WP f0 f).
Hypothesis (Hsp0 : fsp f0 = sp).
Hypothesis (Hblk : ∀ p, ppa_in sp p → get_blk (ftl_ssd f0) p = Some (ssd_init_nand_blk sp)).
Hypothesis (Hmt : ftl_maptbl f0 = init_maptbl sp) (Hrm : ftl_rmap f0 = init_rmap sp).

Lemma init_free p : ppa_in sp p → pstatus (ftl_ssd f) p = Some PG_FREE.
Proof using Hat Hblk.
  intros Hp. rewrite (ia_ssd _ _ _ _ Hat), pstatus_blk, Hblk by done. simpl.
  rewrite aget_anew, decide_True; [done|apply Hp].
Qed.

Lemma init_lcnt l st : 0 ≤ l < blks_per_pl sp → st ≠ PG_FREE → lcnt sp (ftl_ssd f) l st = 0.
Proof using Hat Hblk Hsp.
  intros Hl Hst. apply cnt_none. intros p [Hp _]%(elem_of_lpages sp Hsp); [|done].
  apply bool_decide_false. rewrite init_free by done. congruence.
Qed.

Lemma init_opened l : opened f l = Z.b2z (in_range NR_WP l).
Proof using Hat.
  rewrite opened_occ. unfold open_lines.
  assert ((λ w, wp_blk (wp_of f w)) <$> seqZ 0 NR_WP = seqZ 0 NR_WP) as ->.
  { rewrite <- (list_fmap_id (seqZ 0 NR_WP)) at 2. apply list_fmap_ext. intros i w Hw.
    apply list_elem_of_lookup_2, elem_of_seqZ in Hw. rewrite (ia_wp _ _ _ _ Hat) by lia. done. }
  rewrite (occ_NoDup _ _ (NoDup_seqZ 0 NR_WP)). f_equal.
  destruct (in_range NR_WP l) eqn:E; [apply bool_decide_true|apply bool_decide_false]; rewrite elem_of_seqZ.
  - apply in_range_true in E. lia.
  - apply in_range_false in E. lia.
Qed.

Lemma init_no_member l : ¬ member (pqueue_init (blks_per_pl sp) (E := Z)) l.
Proof using. intros (k & Hk & _). simpl in Hk. lia. Qed.

Lemma init_fbase : fbase None None f.
Proof using All.
  pose proof Hat as [A1 A2 A3 A4 A5 A6 A7 A8 A9 A10 A11 A12 [A13 A14]].
  pose proof HT as HT'. pose proof NR_WP_range as HN.
  assert (fsp f = sp) as Es by (unfold fsp in *; congruence). pose proof (so_blks _ Hsp) as HB.
  split; rewrite ?Es; try done.
  - intros p Hp. exists (ssd_init_nand_blk sp). rewrite A1. split; [by apply Hblk|by apply blk_ok_init].
  - split; [done| |].
    + intros l x Hx. pose proof (aget_inv _ _ _ Hx) as Hl. rewrite A7 in Hl. rewrite A8 in Hx by done.
      by injection Hx as <-.
    + intros l x Hx _. pose proof (aget_inv _ _ _ Hx) as Hl. rewrite A7 in Hl. rewrite A8 in Hx by done.
      injection Hx as <-. simpl. by rewrite !init_lcnt.
  - split; rewrite ?A11, ?A12, ?A9, ?A10; simpl; try done.
    + apply init_wf. lia.
    + intros l x Hx. pose proof (aget_inv _ _ _ Hx) as Hl. rewrite A7 in Hl. rewrite A8 in Hx by done.
      injection Hx as <-. simpl. split; [intros _; apply init_no_member|done].
    + intros l. rewrite (proj2 (pmem_not_member _ l) (init_no_member l)), init_opened.
      rewrite (occ_NoDup _ _ (NoDup_seqZ _ _)). change (occ l []) with 0.
      rewrite !Z.add_0_r. unfold in_range.
      destruct (decide (l ∈ seqZ NR_WP (blks_per_pl sp - NR_WP))) as [Hl|Hl];
        [rewrite bool_decide_true by done|rewrite bool_decide_false by done]; rewrite elem_of_seqZ in Hl;
        destruct (Z.leb_spec 0 l), (Z.ltb_spec l NR_WP), (Z.ltb_spec l (blks_per_pl sp)); simpl; lia.
    + rewrite length_seqZ. lia.
  - split; [done| |].
    + intros w Hw. rewrite A6 by done. split; [done|done|apply fresh_in; [done|simpl; lia]|].
      intros p Hp _. rewrite (init_free p Hp), prank_fresh by done. pose proof (prank_range _ Hsp p Hp).
      unfold lag. rewrite bool_decide_false by done. simpl. split; [lia|done].
    + intros w x Hw. rewrite A6 by done. simpl. rewrite A8 by (simpl; lia). intros [= <-]. simpl.
      by rewrite (proj2 (Z.ltb_lt _ _)) by (simpl; lia).
  - split; rewrite ?A11, ?A12; try done.
    + intros p Hp _. by apply init_free.
    + intros p Hp Hin. by apply not_elem_of_nil in Hin.
    + intros p Hp Hm. by apply init_no_member in Hm.
    + intros l x Hm. by apply init_no_member in Hm.
Qed.

Lemma init_unmapped lpn p : aget (ftl_maptbl f) lpn = Some p → p = ppa_of UNMAPPED_PPA.
Proof using Hat Hmt.
  rewrite (ia_maptbl _ _ _ _ Hat), Hmt. unfold init_maptbl. rewrite aget_anew. case_decide; congruence.
Qed.

Lemma init_finv : finv None (λ _, False) None None f.
Proof using All.
  split; [apply init_fbase|]. assert (fsp f = sp) as Es by (unfold fsp in *; rewrite (ia_ssd _ _ _ _ Hat); done).
  rewrite Es. split.
  - by rewrite (ia_maptbl _ _ _ _ Hat), Hmt.
  - by rewrite (ia_rmap _ _ _ _ Hat), Hrm.
  - intros lpn p Hp _ Hu. by apply init_unmapped in Hp.
  - intros p Hp Hv. rewrite init_free in Hv by done. status_ne.
Qed.

Lemma init_room : room f = blks_per_pl sp * pgs_per_line sp.
Proof using Hat Hsp Hsp0.
  assert (fsp f = sp) as Es by (unfold fsp in *; rewrite (ia_ssd _ _ _ _ Hat); done).
  unfold room. rewrite Es, (ia_free_cnt _ _ _ _ Hat).
  rewrite (zsum_ext _ (λ _, pgs_per_line sp)).
  - pose proof (zsum_bounds (λ _ : Z, pgs_per_line sp) (seqZ 0 NR_WP) (pgs_per_line sp) (pgs_per_line sp)
      ltac:(intros; simpl; lia)) as Hb. rewrite length_seqZ, Z2Nat.id in Hb by (pose proof NR_WP_range; lia). lia.
  - intros w Hw%elem_of_seqZ. unfold left_of. rewrite Es, (ia_wp _ _ _ _ Hat) by lia.
    rewrite prank_fresh by done. lia.
Qed.
End init_inv.

(** ** [fdp_init_ftl] *)

Section init_ftl.
Context `{CK : !Clock} `{LC : !LocalClock}.

Lemma fdp_init_ftl_ok sp cpp s sh L tag :
  sp_ok sp → ssd_sp s = sp → (∀ p, ppa_in sp p → get_blk s p = Some (ssd_init_nand_blk sp)) →
  timing_ok (s, sh_env sh) → ctx_wf (sh_ctx sh).1 →
  0 ≤ L < (tt_lines sp - 2 * NR_WP) * pgs_per_line sp → cp_gc_thres_lines_high cpp = NR_WP →
  ∃ f, fdp_init_ftl cpp s sh = Ok (f, sh) ∧ wr_inv L tag (f, sh) ∧ fsp f = sp ∧
    (∀ lpn, mapped_at f lpn = false).
Proof.
  intros Hsp Es Hblk Hto Hc HL Hth. pose proof (so_blks _ Hsp) as HB. pose proof (ppl_pos _ Hsp) as Hppl.
  assert (2 * NR_WP < blks_per_pl sp) as HT by (rewrite <- (so_lines _ Hsp); nia).
  unfold fdp_init_ftl, init_lines. rewrite Es, u32_small by lia.
  rewrite (so_lines _ Hsp), Z.eqb_refl. simpl negb. cbv iota.
  set (f0 := FdpFtl s cpp _ _ _ _ _ _).
  enough (wp (for_range 0 NR_RUH (λ ruh, prepare_write_pointer USER_IO ruh) ;;
              prepare_write_pointer GC_IO 0 ;; mod_ftl (set_wfc (init_write_flow_control sp))) (f0, sh)
    (λ _ st, snd st = sh ∧ wr_inv L tag st ∧ fsp (fst st) = sp ∧ ∀ lpn, mapped_at (fst st) lpn = false)) as Hwp.
  { apply wp_Ok in Hwp as ([] & [f sh'] & -> & Hsh & Hinv & Hf & Hm). simpl in Hsh. subst sh'. by exists f. }
  f_step. eapply (wp_for_range (λ k st, snd st = sh ∧ init_at sp k f0 (fst st))); [pose proof NR_WP_range; lia| | |].
  - split; [done|]. split; simpl; try done.
    + intros w Hw. lia.
    + apply alen_abuild.
    + intros l Hl. rewrite aget_abuild, decide_True by done.
      by rewrite (proj2 (Z.ltb_ge _ _)) by lia.
    + by rewrite Z.sub_0_r.
    + rewrite length_seqZ, u32_small; lia.
  - intros k [f sh'] Hk [Hsh Hat]. simpl in Hsh, Hat. subst sh'.
    eapply wp_mono; [apply (wp_prepare sp USER_IO k f0); [done|by intros _|done|done]|].
    intros [] [f' sh'] [-> Hat']. done.
  - intros [f sh'] [Hsh Hat]. simpl in Hsh, Hat. subst sh'.
    f_step. eapply wp_mono; [by apply (wp_prepare sp GC_IO 0 f0)|].
    intros [] [f1 sh'] [-> Hat']. change (wid GC_IO 0 + 1) with NR_WP in Hat'. f_step.
    assert (fsp f1 = sp) as Ef by (unfold fsp; by rewrite (ia_ssd _ _ _ _ Hat')).
    assert (∀ lpn, mapped_at f1 lpn = false) as Hun.
    { intros lpn. unfold mapped_at. destruct (aget (ftl_maptbl f1) lpn) as [p|] eqn:Hp; [|done].
      rewrite (init_unmapped sp f0 f1 Hat' eq_refl lpn p Hp). apply mapped_ppa_unmapped. }
    split_and!; try done. simpl. split; simpl.
    + split; [|split; simpl; [by rewrite (ia_ssd _ _ _ _ Hat')|done]].
      apply finv_set_wfc. by apply (init_finv sp f0).
    + by rewrite (ia_cp _ _ _ _ Hat').
    + change (fsp (set_wfc _ f1)) with (fsp f1). by rewrite Ef.
    + intros lpn Hl. change (mapped_at (set_wfc _ f1) lpn) with (mapped_at f1 lpn) in Hl. by rewrite Hun in Hl.
    + change (fsp (set_wfc _ f1)) with (fsp f1). rewrite Ef, u32_small; lia.
    + change (fsp (set_wfc _ f1)) with (fsp f1). rewrite Ef, u32_small; lia.
    + change (fsp (set_wfc _ f1)) with (fsp f1). rewrite set_wfc_room, Ef, (init_room sp f0) by done.
      rewrite u32_small by lia. pose proof NR_WP_range. nia.
    + intros lpn p x Hp Hmp. rewrite (init_unmapped sp f0 f1 Hat' eq_refl lpn p Hp) in Hmp.
      by rewrite mapped_ppa_unmapped in Hmp.
Qed.
End init_ftl.
End handles.
