(* ===== verification/FdpIo.v ===== *)
(** * The commands of an FDP namespace

    A namespace stripes its logical pages over its partitions: page [lpn] is page
    [lpn / nr_parts] of partition [lpn mod nr_parts].  [ns_inv] is the invariant
    of the whole; every command keeps it. *)

From stdpp Require Import base numbers list gmap relations.
From S2P Require Import Prelude Config Pqueue ChannelModel Ssd Nvme FdpLog FdpFtl FdpGeom FdpInv FdpOps FdpAdvance FdpGc FdpWrite FdpInit.

#[local] Open Scope Z_scope.

Section handles.
Context `{NH : !Handles}.

(** ** The invariant of a namespace *)

(** [gtag] gives the handle of the last write of each logical page. *)
Record ns_inv (L : Z) (sp : ssdparams) (nr_parts : Z) (gtag : Z → Z) (st : nsstate) : Prop := {
  ni_parts : 0 < nr_parts;
  ni_len : alen (fst st) = nr_parts;
  ni_sp : sp_ok sp;
  ni_part i f : aget (fst st) i = Some f →
    wr_inv L (λ k, gtag (k * nr_parts + i)) (f, snd st) ∧ fsp f = sp;
  ni_pcie : cm_wf (env_pcie (sh_env (snd st)));
  ni_ctx : ctx_wf (sh_ctx (snd st)).1;
  ni_wbuf : buffer_ok (env_wbuf (sh_env (snd st)));
}.

Definition ns_mapped (nr_parts : Z) (st : nsstate) (lpn : Z) : bool :=
  match aget (fst st) (lpn mod nr_parts) with
  | Some f => mapped_at f (lpn / nr_parts)
  | None => false
  end.

(** What a partition sees of the rest can change under it. *)
Lemma wr_inv_shared L tag tag' f sh sh' :
  wr_inv L tag (f, sh) → (∀ k, tag' k = tag k) → cm_wf (env_pcie (sh_env sh')) → ctx_wf (sh_ctx sh').1 →
  wr_inv L tag' (f, sh').
Proof.
  intros [[I1 [[T1 T2 T3 T4 T5] I2]] I3 I4 I5 I6 I7 I8 I9] Ht Hp Hc. split; simpl in *; try done.
  intros lpn p x H1 H2 H3. rewrite Ht. by eapply I9.
Qed.

Lemma ns_part L sp n gtag fs sh i :
  ns_inv L sp n gtag (fs, sh) → 0 ≤ i < n →
  ∃ f, aget fs i = Some f ∧ wr_inv L (λ k, gtag (k * n + i)) (f, sh) ∧ fsp f = sp.
Proof.
  intros Hns Hi. pose proof (ni_len _ _ _ _ _ Hns) as Hlen. simpl in Hlen.
  destruct (aget_some fs i) as [f Hf]; [by rewrite Hlen|].
  exists f. split; [done|]. by apply (ni_part _ _ _ _ _ Hns).
Qed.

Lemma wp_on_part {A} i (m : M fstate A) fs sh f Q :
  aget fs i = Some f → wp m (f, sh) (λ a st', Q a (aset fs i (fst st'), snd st')) → wp (on_part i m) (fs, sh) Q.
Proof.
  intros Hf Hm. unfold on_part. wp_step. wp_step. wp_step. eapply wp_aread; [done|].
  apply wp_Ok in Hm as (a & [f' sh'] & -> & HQ). by do 3 wp_step.
Qed.

Lemma wp_mod_shared_ctx g fs sh Q :
  Q tt (fs, Shared (sh_env sh) (g (sh_ctx sh).1, (sh_ctx sh).2) (sh_ops sh)) →
  wp (mod_shared_ctx g) (fs, sh) Q.
Proof. done. Qed.

(** Partition [i] is replaced; the others see the new shared state. *)
Lemma ns_inv_upd L sp n gtag gtag' fs sh i f' sh' :
  ns_inv L sp n gtag (fs, sh) → 0 ≤ i < n →
  wr_inv L (λ k, gtag' (k * n + i)) (f', sh') → fsp f' = sp →
  (∀ j k, 0 ≤ j < n → j ≠ i → gtag' (k * n + j) = gtag (k * n + j)) →
  buffer_ok (env_wbuf (sh_env sh')) →
  ns_inv L sp n gtag' (aset fs i f', sh').
Proof.
  intros [N1 N2 N3 N4 N5 N6 N7] Hi Hw Hf Ht Hb. simpl in *.
  assert (cm_wf (env_pcie (sh_env sh')) ∧ ctx_wf (sh_ctx sh').1) as [Hp Hc].
  { destruct Hw as [[_ [Hto Hc]] _ _ _ _ _ _ _]. split; [exact (to_pcie _ Hto)|exact Hc]. }
  split; simpl; try done; [by rewrite alen_aset|]. intros j f Hj.
  pose proof (aget_inv _ _ _ Hj) as Hjr. rewrite alen_aset, N2 in Hjr. rewrite aget_aset in Hj by lia.
  destruct (decide (i = j)) as [<-|Hne]; [by simplify_eq|].
  destruct (N4 j f Hj) as [Hw' Hf']. split; [|done]. eapply wr_inv_shared; [done| |done|done].
  intros k. by apply Ht.
Qed.

(** A change to the shared state alone. *)
Lemma ns_inv_shared L sp n gtag fs sh sh' :
  ns_inv L sp n gtag (fs, sh) → cm_wf (env_pcie (sh_env sh')) → ctx_wf (sh_ctx sh').1 →
  buffer_ok (env_wbuf (sh_env sh')) → ns_inv L sp n gtag (fs, sh').
Proof.
  intros [N1 N2 N3 N4 N5 N6 N7] Hp Hc Hb. simpl in *. split; simpl; try done.
  intros i f Hf. destruct (N4 i f Hf) as [Hw Hs]. split; [|done]. by eapply wr_inv_shared.
Qed.

(** Global and local page numbers. *)
Lemma stripe_inj n lpn k j :
  0 < n → 0 ≤ j < n → k * n + j = lpn ↔ j = lpn mod n ∧ k = lpn / n.
Proof.
  intros Hn Hj. pose proof (Z.div_mod lpn n ltac:(lia)) as Hd. pose proof (Z.mod_pos_bound lpn n Hn) as Hm. split.
  - intros E. destruct (mixed_radix_inj k j (lpn / n) (lpn mod n) n Hj Hm) as [-> ->]; [lia|done].
  - intros [-> ->]. lia.
Qed.

(** ** The page loop of [fdp_write] *)

Section commands.
Context `{CK : !Clock} `{LC : !LocalClock}.
Hypothesis clock_range : ∀ n, 0 ≤ cpu_clock n.

Lemma wp_write_stripe L sp n gtag ruh sq_id stime lpn nsecs fs sh :
  ns_inv L sp n gtag (fs, sh) → 0 ≤ ruh < NR_RUH → 0 ≤ lpn → lpn / n < L → 0 ≤ stime →
  wp (on_part (lpn mod n) (write_page ruh sq_id stime (lpn / n) nsecs)) (fs, sh) (λ nsecs' st',
    ns_inv L sp n (λ k, if k =? lpn then ruh else gtag k) st' ∧ nsecs ≤ nsecs' ∧
    (∀ k, 0 ≤ k → ns_mapped n st' k = (k =? lpn) || ns_mapped n (fs, sh) k) ∧
    env_wbuf (sh_env (snd st')) = env_wbuf (sh_env sh) ∧
    ∃ gcs, (length gcs ≤ 1)%nat ∧ accounted sp gcs (sh_ctx sh) (sh_ctx (snd st'))).
Proof using clock_range.
  intros Hns Hruh Hlpn HL Hst. pose proof (ni_parts _ _ _ _ _ Hns) as Hn. pose proof (Z.mod_pos_bound lpn n Hn) as Hi.
  destruct (ns_part _ _ _ _ _ _ _ Hns Hi) as (f & Hf & Hw & Hs).
  eapply wp_on_part; [done|]. eapply wp_mono.
  { eapply (wp_write_page clock_range); [exact Hw|done|split; [by apply Z.div_pos; lia|done]|done]. }
  intros nsecs' [f' sh'] [W1 W2 W3 W4 W5 W6 _]. simpl in *. rewrite Hs in W6. split_and!; try done.
  - eapply ns_inv_upd; [done|done| |congruence| |].
    + eapply wr_inv_shared; [exact W1| |by apply (to_pcie (ftl_ssd f', sh_env sh')), W1|by apply W1].
      intros k. simpl. destruct (Z.eqb_spec k (lpn / n)) as [->|Hne].
      * rewrite (proj2 (Z.eqb_eq _ _)); [done|]. by apply (stripe_inj n lpn).
      * rewrite (proj2 (Z.eqb_neq _ _)); [done|]. rewrite (stripe_inj n lpn) by done. naive_solver.
    + intros j k Hj Hne. simpl. rewrite (proj2 (Z.eqb_neq _ _)); [done|].
      rewrite (stripe_inj n lpn) by done. naive_solver.
    + rewrite W5. apply Hns.
  - intros k Hk. unfold ns_mapped. simpl. pose proof (ni_len _ _ _ _ _ Hns) as Hlen. simpl in Hlen. rewrite aget_aset by (by rewrite Hlen).
    pose proof (Z.mod_pos_bound k n Hn) as Hkm. pose proof (stripe_inj n k (lpn / n) (lpn mod n) Hn Hi) as Hinj.
    rewrite <- (proj2 (stripe_inj n lpn (lpn / n) (lpn mod n) Hn Hi)) at 3 by done.
    destruct (decide (lpn mod n = k mod n)) as [E|E].
    + rewrite W2, <- E, Hf. f_equal. destruct (Z.eqb_spec (k / n) (lpn / n)) as [E2|E2].
      * symmetry. apply Z.eqb_eq. symmetry. apply Hinj. done.
      * symmetry. apply Z.eqb_neq. intros E3. apply E2. symmetry in E3. by apply Hinj in E3 as [_ ->].
    + rewrite (proj2 (Z.eqb_neq _ _)); [done|]. intros E3. symmetry in E3. by apply Hinj in E3 as [? _].
Qed.

(** The pages [a .. b - 1] written with [ruh]. *)
Definition retag (a b ruh : Z) (gtag : Z → Z) (k : Z) : Z := if (a <=? k) && (k <? b) then ruh else gtag k.

Lemma ns_inv_tag L sp n gtag gtag' st :
  ns_inv L sp n gtag st → (∀ k, gtag' k = gtag k) → ns_inv L sp n gtag' st.
Proof using.
  intros [N1 N2 N3 N4 N5 N6 N7] Ht. split; try done. intros i f Hf. destruct (N4 i f Hf) as [Hw Hs].
  split; [|done]. destruct st as [fs sh]. eapply wr_inv_shared; [exact Hw| |done|done]. intros k. apply Ht.
Qed.

(** The loop over the logical pages [start .. last]. *)
Definition write_loop (n ruh sq_id stime start last nsecs : Z) : M nsstate Z :=
  while_loop (last - start + 2) (λ '(lpn, nsecs_latest),
    if negb (lpn <=? last) then mret (inr nsecs_latest)
    else
      t ← on_part (lpn mod n) (write_page ruh sq_id stime (lpn / n) nsecs_latest);
      mret (inl (lpn + 1, t))) (start, nsecs).

Lemma wp_write_loop L sp n gtag ruh sq_id stime start last nsecs st :
  ns_inv L sp n gtag st → 0 ≤ ruh < NR_RUH → 0 ≤ start → start ≤ last + 1 → last / n < L → 0 ≤ stime →
  wp (write_loop n ruh sq_id stime start last nsecs) st (λ nsecs' st',
    ns_inv L sp n (retag start (last + 1) ruh gtag) st' ∧ nsecs ≤ nsecs' ∧
    (∀ k, 0 ≤ k → ns_mapped n st' k = ((start <=? k) && (k <? last + 1)) || ns_mapped n st k) ∧
    env_wbuf (sh_env (snd st')) = env_wbuf (sh_env (snd st)) ∧
    ∃ gcs, Z.of_nat (length gcs) ≤ last + 1 - start ∧
      accounted sp gcs (sh_ctx (snd st)) (sh_ctx (snd st'))).
Proof using clock_range.
  intros Hns Hruh Hs0 Hsl HL Hst. pose proof (ni_parts _ _ _ _ _ Hns) as Hn. unfold write_loop.
  eapply (wp_while (λ '(lpn, t) st1, start ≤ lpn ≤ last + 1 ∧ nsecs ≤ t ∧
    ns_inv L sp n (retag start lpn ruh gtag) st1 ∧
    (∀ k, 0 ≤ k → ns_mapped n st1 k = ((start <=? k) && (k <? lpn)) || ns_mapped n st k) ∧
    env_wbuf (sh_env (snd st1)) = env_wbuf (sh_env (snd st)) ∧
    ∃ gcs, Z.of_nat (length gcs) ≤ lpn - start ∧
      accounted sp gcs (sh_ctx (snd st)) (sh_ctx (snd st1))) (λ '(lpn, _), last + 1 - lpn)).
  - split_and!; try done; try lia.
    + eapply ns_inv_tag; [done|]. intros k. unfold retag.
      destruct (Z.leb_spec start k), (Z.ltb_spec k start); simpl; done || lia.
    + intros k Hk. destruct (Z.leb_spec start k), (Z.ltb_spec k start); simpl; done || lia.
    + exists []. split; [simpl; lia|]. by apply accounted_nil, Hns.
  - lia.
  - intros [lpn t] [fs sh] (Hr & Ht & Hns1 & Hm & Hb & gcs & Hl & Hh). split; [lia|].
    destruct (Z.leb_spec lpn last) as [Hle|Hgt]; simpl.
    2:{ wp_step. assert (lpn = last + 1) as -> by lia. split_and!; try done. by exists gcs. }
    wp_step. eapply wp_mono.
    { apply wp_write_stripe; [exact Hns1|done|lia| |done].
      eapply Z.le_lt_trans; [by apply Z.div_le_mono|done]. }
    intros t' st2 (Hns2 & Ht' & Hm2 & Hb2 & gcs2 & Hl2 & Hh2). wp_step. split; [|lia].
    split_and!; try lia; simpl in *; try congruence.
    + eapply ns_inv_tag; [exact Hns2|]. intros k. unfold retag. destruct (Z.eqb_spec k lpn) as [->|Hne];
        destruct (Z.leb_spec start lpn), (Z.ltb_spec lpn (lpn + 1)); simpl; try lia; try done;
        destruct (Z.leb_spec start k), (Z.ltb_spec k (lpn + 1)), (Z.ltb_spec k lpn); simpl; done || lia.
    + intros k Hk. rewrite Hm2, Hm by done. rewrite orb_assoc. f_equal.
      destruct (Z.eqb_spec k lpn), (Z.leb_spec start k), (Z.ltb_spec k (lpn + 1)), (Z.ltb_spec k lpn);
        simpl; done || lia.
    + exists (gcs ++ gcs2). rewrite length_app. split; [lia|]. by eapply accounted_app.
Qed.

(** ** Routing *)

(** The handle a command's directive fields select. *)
Definition has_directive (cmd : nvme_rw_command) : bool :=
  Z.land (Z.shiftr (rw_control cmd) NVME_RW_DTYPE_SHIFT) NVME_RW_DTYPE_MASK =? NVME_DIRECTIVE_PLACEMENT.
Definition placement_id (cmd : nvme_rw_command) : Z := u16 (Z.shiftr (rw_dsmgmt cmd) 16).
Definition placement (cmd : nvme_rw_command) : option Z :=
  if has_directive cmd then if NR_RUH <=? placement_id cmd then None else Some (placement_id cmd)
  else Some 0.

(** The attribute of handle [i] after the routing. *)
Definition attr_after (cmd : nvme_rw_command) (attr : arr Z) (i : Z) : option Z :=
  if bool_decide (placement cmd = Some i) then
    if has_directive cmd then Some NVME_FDP_RUHA_HOST
    else if bool_decide (aget attr i = Some NVME_FDP_RUHA_UNUSED) then Some NVME_FDP_RUHA_CTRL
    else aget attr i
  else aget attr i.

(** The events after the routing. *)
Definition events_after (cmd : nvme_rw_command) (c : fctx) : list nvme_fdp_event :=
  match placement cmd with
  | Some _ => recent c.1
  | None =>
      if event_enabled (fx_events c.1) NVME_FDP_EVT_INVALID_PID
      then take (Z.to_nat FDP_NR_EVENTS)
             (new_event NVME_FDP_EVT_INVALID_PID (Z.lor NVME_FDP_EVENT_F_PIV NVME_FDP_EVENT_F_NSIDV)
                (placement_id cmd) (rw_nsid cmd) c.2 :: recent c.1)
      else recent c.1
  end.

Lemma placement_range cmd ruh : placement cmd = Some ruh → 0 ≤ ruh < NR_RUH.
Proof using.
  pose proof handles_range as HN.
  unfold placement. intros H. repeat case_match; bool_prop; simplify_eq; try lia.
  pose proof (u16_range (Z.shiftr (rw_dsmgmt cmd) 16)). unfold placement_id in *. lia.
Qed.

(** What routing changes: the events on an invalid identifier, the attribute of
    the handle on a valid one. *)
Record routed (cmd : nvme_rw_command) (sh sh' : shared) : Prop := {
  rt_env : sh_env sh' = sh_env sh;
  rt_ops : sh_ops sh' = sh_ops sh;
  rt_wf : ctx_wf (sh_ctx sh').1;
  rt_counters : fx_hbmw (sh_ctx sh').1 = fx_hbmw (sh_ctx sh).1 ∧
    fx_mbmw (sh_ctx sh').1 = fx_mbmw (sh_ctx sh).1 ∧ fx_mbe (sh_ctx sh').1 = fx_mbe (sh_ctx sh).1;
  rt_recent : recent (sh_ctx sh').1 = events_after cmd (sh_ctx sh);
  rt_attr i : aget (fx_ruh_attr (sh_ctx sh').1) i = attr_after cmd (fx_ruh_attr (sh_ctx sh).1) i;
  rt_events : fx_events (sh_ctx sh').1 = fx_events (sh_ctx sh).1;
  rt_ticks : (sh_ctx sh').2 = (sh_ctx sh).2 + Z.b2z (bool_decide (placement cmd = None) &&
    event_enabled (fx_events (sh_ctx sh).1) NVME_FDP_EVT_INVALID_PID);
}.

Lemma ctx_wf_attr c i x :
  ctx_wf c → 0 ≤ i < NR_RUH → 0 ≤ x < 2 ^ 8 → ctx_wf (set_ruh_attr (aset (fx_ruh_attr c) i x) c).
Proof using.
  intros [C1 C2 C3 C4 C5 C6 C7] Hi Hx. pose proof handles_range as HN.
  split; simpl; try done; [by rewrite alen_aset|].
  intros j a. rewrite aget_aset by (rewrite C4; lia). case_decide; [|by apply (C5 j)]. by intros [= <-].
Qed.

Lemma wp_route cmd fs sh Q :
  ctx_wf (sh_ctx sh).1 → (∀ sh', routed cmd sh sh' → Q (placement cmd) (fs, sh')) →
  wp (route_placement cmd) (fs, sh) Q.
Proof using.
  intros Hc HQ. unfold route_placement. fold (has_directive cmd) (placement_id cmd).
  assert (placement cmd = placement cmd) as Hp by done. unfold placement at 2 in Hp.
  pose proof (u16_range (Z.shiftr (rw_dsmgmt cmd) 16)) as Hid. fold (placement_id cmd) in Hid.
  pose proof (xw_attr _ Hc) as Hlen. pose proof handles_range as HN.
  destruct (has_directive cmd) eqn:Hd; [destruct (Z.leb_spec NR_RUH (placement_id cmd)) as [Hle|Hlt]|].
  - wp_step. unfold on_shared_ctx. wp_step. simpl. destruct (sh_ctx sh) as [c n] eqn:Ec. simpl in Hc.
    pose proof (wp_emit_event NVME_FDP_EVT_INVALID_PID (Z.lor NVME_FDP_EVENT_F_PIV NVME_FDP_EVENT_F_NSIDV)
      (placement_id cmd) (rw_nsid cmd) c n Hc) as Hw.
    apply wp_Ok in Hw as ([] & [c' n'] & Hr & H1 & (B1 & B2 & B3 & _ & B5 & B6) & H3); [|done|done].
    eapply wp_intro; [exact Hr|]. wp_step. rewrite <- Hp. apply HQ. split; simpl; rewrite ?Ec; try done.
    + by rewrite H3; unfold events_after; rewrite Hp.
    + intros i. unfold attr_after. rewrite Hp, bool_decide_false by done. simpl. by rewrite B5.
    + rewrite (emit_event_ticks _ _ _ _ _ _ _ _ Hr), Hp, bool_decide_true by done. simpl.
      destruct (event_enabled _ _); simpl; lia.
  - wp_step. wp_step. wp_step. apply wp_awrite; [rewrite Hlen; lia|]. wp_step.
    apply wp_mod_shared_ctx. wp_step.
    rewrite <- Hp. apply HQ. split; simpl; try done.
    + apply ctx_wf_attr; done || lia.
    + unfold events_after. by rewrite Hp.
    + intros i. unfold attr_after. rewrite Hp, Hd, aget_aset by lia.
      destruct (decide (placement_id cmd = i)) as [->|Hne]; [by rewrite bool_decide_true|].
      by rewrite bool_decide_false by congruence.
    + rewrite Hp, bool_decide_false by done. simpl. lia.
  - wp_step. wp_step. destruct (aget_some (fx_ruh_attr (sh_ctx sh).1) 0) as [x Hx]; [by rewrite Hlen|].
    wp_step. eapply wp_aread; [done|]. rewrite <- Hp.
    assert (∀ i, attr_after cmd (fx_ruh_attr (sh_ctx sh).1) i =
      if decide (i = 0) then Some (if x =? NVME_FDP_RUHA_UNUSED then NVME_FDP_RUHA_CTRL else x)
      else aget (fx_ruh_attr (sh_ctx sh).1) i) as Hattr.
    { intros i. unfold attr_after. rewrite Hp, Hd. destruct (decide (i = 0)) as [->|Hne].
      - rewrite bool_decide_true, Hx by done. destruct (Z.eqb_spec x NVME_FDP_RUHA_UNUSED) as [->|Hn0];
          [by rewrite bool_decide_true|by rewrite bool_decide_false by congruence].
      - by rewrite bool_decide_false by congruence. }
    wp_step. apply wp_when; intros Hu.
    + wp_step. apply wp_awrite; [by rewrite Hlen|]. apply wp_mod_shared_ctx. wp_step. apply HQ. split; simpl; try done.
      * apply ctx_wf_attr; done || lia.
      * unfold events_after. by rewrite Hp.
      * intros i. rewrite Hattr, Hu, aget_aset by (by rewrite Hlen).
        destruct (decide (0 = i)), (decide (i = 0)); done || lia.
      * rewrite Hp, bool_decide_false by done. simpl. lia.
    + wp_step. apply HQ. split; try done.
      * unfold events_after. by rewrite Hp.
      * intros i. rewrite Hattr, Hu. by destruct (decide (i = 0)) as [->|].
      * rewrite Hp, bool_decide_false by done. simpl. lia.
Qed.

(** ** [fdp_write] *)

Definition first_lpn (sp : ssdparams) (cmd : nvme_rw_command) : Z := rw_slba cmd / secs_per_pg sp.
Definition last_lpn (sp : ssdparams) (cmd : nvme_rw_command) : Z :=
  u64 (rw_slba cmd + (rw_length cmd + 1) - 1) / secs_per_pg sp.
Definition xfer_bytes (c : ssd_config) (cmd : nvme_rw_command) : Z := LBA_TO_BYTE c (rw_length cmd + 1).

(** A request the host may make: it ends below [L] logical pages per partition, or
    is refused for ending beyond the device; its data fits the write buffer. *)
Record write_ok (L : Z) (sp : ssdparams) (n : Z) (c : ssd_config) (wbuf : buffer) (req : nvmev_request) : Prop := {
  wk_slba : 0 ≤ rw_slba (req_cmd req);
  wk_length : 0 ≤ rw_length (req_cmd req);
  wk_end : rw_slba (req_cmd req) + rw_length (req_cmd req) < 2 ^ 64;
  wk_start : 0 ≤ req_nsecs_start req;
  wk_limit : last_lpn sp (req_cmd req) / n < L ∨ tt_pgs sp ≤ last_lpn sp (req_cmd req) / n;
  wk_buffer : xfer_bytes c (req_cmd req) ≤ buf_size wbuf;
}.

Lemma lpn_range sp cmd :
  sp_ok sp → 0 ≤ rw_slba cmd → 0 ≤ rw_length cmd → rw_slba cmd + rw_length cmd < 2 ^ 64 →
  0 ≤ first_lpn sp cmd ≤ last_lpn sp cmd.
Proof using.
  intros Hsp H1 H2 H3. pose proof (so_pgsz _ Hsp) as (_ & Hs & _). unfold first_lpn, last_lpn.
  rewrite u64_small, Hs by lia. split; [apply Z.div_pos; lia|]. apply Z.div_le_mono; lia.
Qed.

(** The statistics, the attributes and the event log after a write of [bytes] bytes
    during which the collections [gcs] took place. *)
Record written (sp : ssdparams) (cmd : nvme_rw_command) (bytes : Z) (gcs : list gc_account)
    (c c' : fctx) : Prop := {
  wn_moved : Forall (λ g, 0 ≤ g.1 < pgs_per_line sp) gcs;
  wn_hbmw : fx_hbmw c'.1 = u64 (fx_hbmw c.1 + bytes);
  wn_mbmw : fx_mbmw c'.1 = u64 (fx_mbmw c.1 + (bytes + pages_moved gcs * pgsz sp));
  wn_mbe : fx_mbe c'.1 = u64 (fx_mbe c.1 + Z.of_nat (length gcs) * (pgs_per_line sp * pgsz sp));
  wn_attr i : aget (fx_ruh_attr c'.1) i = attr_after cmd (fx_ruh_attr c.1) i;
  wn_events : fx_events c'.1 = fx_events c.1;
  wn_recent : recent c'.1 =
    take (Z.to_nat FDP_NR_EVENTS) (recorded (fx_events c.1) c.2 (gc_emissions gcs) (recent c.1));
  wn_ticks : c'.2 = c.2 + cnt (λ '(t, _, _, _), event_enabled (fx_events c.1) t) (gc_emissions gcs);
}.

Record write_done (L : Z) (sp : ssdparams) (n : Z) (c : ssd_config) (gtag : Z → Z) (ruh : Z)
    (req : nvmev_request) (st st' : nsstate) : Prop := {
  wd_inv : ns_inv L sp n (retag (first_lpn sp (req_cmd req)) (last_lpn sp (req_cmd req) + 1) ruh gtag) st';
  wd_mapped k : 0 ≤ k → ns_mapped n st' k =
    ((first_lpn sp (req_cmd req) <=? k) && (k <? last_lpn sp (req_cmd req) + 1)) || ns_mapped n st k;
  wd_size : buf_size (env_wbuf (sh_env (snd st'))) = buf_size (env_wbuf (sh_env (snd st)));
  wd_remaining : buf_remaining (env_wbuf (sh_env (snd st')))
    = buf_remaining (env_wbuf (sh_env (snd st))) - xfer_bytes c (req_cmd req);
  wd_hbmw : fx_hbmw (sh_ctx (snd st')).1
    = u64 (fx_hbmw (sh_ctx (snd st)).1 + xfer_bytes c (req_cmd req));
  wd_ctx : ∃ gcs, Z.of_nat (length gcs) ≤ last_lpn sp (req_cmd req) + 1 - first_lpn sp (req_cmd req) ∧
    written sp (req_cmd req) (xfer_bytes c (req_cmd req)) gcs (sh_ctx (snd st)) (sh_ctx (snd st'));
}.

(** The four ways a write ends. *)
Definition write_outcome (L : Z) (sp : ssdparams) (n : Z) (c : ssd_config) (gtag : Z → Z)
    (req : nvmev_request) (ret : nvmev_result) (st : nsstate) (r : bool * nvmev_result) (st' : nsstate) : Prop :=
  let cmd := req_cmd req in
  if tt_pgs sp <=? last_lpn sp cmd / n then r = (false, ret) ∧ st' = st
  else match placement cmd with
  | None => r = (true, Result NVME_SC_INVALID_FIELD (req_nsecs_start req) (ret_result ret)) ∧
            fst st' = fst st ∧ routed cmd (snd st) (snd st') ∧ ns_inv L sp n gtag st'
  | Some ruh =>
      if buf_remaining (env_wbuf (sh_env (snd st))) <? xfer_bytes c cmd
      then r = (false, ret) ∧ fst st' = fst st ∧ routed cmd (snd st) (snd st') ∧ ns_inv L sp n gtag st'
      else r.1 = true ∧ ret_status r.2 = NVME_SC_SUCCESS ∧ write_done L sp n c gtag ruh req st st'
  end.

(** The bytes of a write in the statistics. *)
Definition counted (bytes : Z) (c : fctx) : fctx :=
  let c1 := set_hbmw (u64 (fx_hbmw c.1 + bytes)) c.1 in
  (set_mbmw (u64 (fx_mbmw c1 + bytes)) c1, c.2).

Lemma ctx_wf_written c bytes :
  ctx_wf c → ctx_wf (set_mbmw (u64 (fx_mbmw (set_hbmw (u64 (fx_hbmw c + bytes)) c) + bytes))
                       (set_hbmw (u64 (fx_hbmw c + bytes)) c)).
Proof using.
  intros [C1 C2 C3 C4 C5 C6 (C7 & C8 & C9 & C10)]. split; try done. simpl.
  pose proof (u64_range (fx_hbmw c + bytes)). pose proof (u64_range (fx_mbmw c + bytes)). done.
Qed.

Lemma wp_xfer_write_buffer L sp n gtag fs sh t0 len Q :
  ns_inv L sp n gtag (fs, sh) →
  (∀ t f' sh', aget fs 0 = Some f' → 0 ≤ t → ns_inv L sp n gtag (aset fs 0 f', sh') → sh_ctx sh' = sh_ctx sh →
     sh_ops sh' = sh_ops sh → env_wbuf (sh_env sh') = env_wbuf (sh_env sh) → Q t (aset fs 0 f', sh')) →
  wp (on_part 0 (on_ssd (ssd_advance_write_buffer t0 len))) (fs, sh) Q.
Proof using clock_range.
  intros Hns HQ. destruct (ns_part _ _ _ _ _ _ 0 Hns) as (f & Hf & Hw & Hs).
  { pose proof (ni_parts _ _ _ _ _ Hns). lia. }
  eapply wp_on_part; [done|]. unfold on_ssd. apply wp_zoom. simpl.
  pose proof Hw as [[Hfi [Hto Hc]] _ _ _ _ _ _ _]. simpl in Hto, Hc.
  unfold ssd_advance_write_buffer. wp_step. wp_step.
  eapply wp_mono; [apply wp_advance_pcie_same; [done|apply u64_range]|].
  intros t [s' e'] (Hs' & Hto' & Hwb & Ht). simpl in *. subst s'.
  replace (set_ssd (ftl_ssd f) f) with f by by destruct f.
  apply HQ; try done. eapply ns_inv_upd; [done|pose proof (ni_parts _ _ _ _ _ Hns); lia| |done|done|].
  - eapply wr_inv_shared; [exact Hw|done|exact (to_pcie _ Hto')|done].
  - simpl. rewrite Hwb. apply Hns.
Qed.

Lemma wp_spp0 L sp n gtag fs sh Q :
  ns_inv L sp n gtag (fs, sh) → Q sp (fs, sh) → wp spp0 (fs, sh) Q.
Proof using.
  intros Hns HQ. destruct (ns_part _ _ _ _ _ _ 0 Hns) as (f & Hf & Hw & Hs).
  { pose proof (ni_parts _ _ _ _ _ Hns). lia. }
  unfold spp0. wp_step. wp_step. wp_step. eapply wp_aread; [done|]. wp_step. unfold fsp in Hs. by rewrite Hs.
Qed.

Lemma ns_mapped_ext n fs fs' sh sh' k :
  (∀ i, aget fs' i = aget fs i) → ns_mapped n (fs', sh') k = ns_mapped n (fs, sh) k.
Proof using. intros H. unfold ns_mapped. simpl. by rewrite H. Qed.

(** Routing on a valid identifier, the count of the bytes and the collections. *)
Lemma accounted_written sp cmd bytes gcs sh sh1 c' :
  routed cmd sh sh1 → placement cmd ≠ None → accounted sp gcs (counted bytes (sh_ctx sh1)) c' →
  written sp cmd bytes gcs (sh_ctx sh) c'.
Proof using.
  intros [R1 R2 R3 (R4 & R5 & R6) R7 R8 R9 R10] Hp [A1 A2 A3 A4 A5 A6 A7 A8]. simpl in *.
  assert ((sh_ctx sh1).2 = (sh_ctx sh).2) as Ht by (rewrite R10, bool_decide_false by done; simpl; lia).
  assert (recent (sh_ctx sh1).1 = recent (sh_ctx sh).1) as Hr
    by (rewrite R7; unfold events_after; by destruct (placement cmd)).
  split; try congruence.
  - rewrite A3, R5. apply u64_add.
  - by rewrite A7, R9, Ht, <- Hr.
  - by rewrite A8, R9, Ht.
Qed.

(** Once the handle is known and the buffer space is allocated. *)
Lemma wp_write_data {A} (rest : Z → Z → M nsstate A) L sp n c gtag ruh req fs sh Q :
  ns_inv L sp n gtag (fs, sh) → 0 ≤ ruh < NR_RUH →
  0 ≤ first_lpn sp (req_cmd req) ≤ last_lpn sp (req_cmd req) → last_lpn sp (req_cmd req) / n < L →
  let bytes := xfer_bytes c (req_cmd req) in
  (∀ t1 t2 st', 0 ≤ t1 ≤ t2 →
     ns_inv L sp n (retag (first_lpn sp (req_cmd req)) (last_lpn sp (req_cmd req) + 1) ruh gtag) st' →
     (∀ k, 0 ≤ k → ns_mapped n st' k =
        ((first_lpn sp (req_cmd req) <=? k) && (k <? last_lpn sp (req_cmd req) + 1)) || ns_mapped n (fs, sh) k) →
     env_wbuf (sh_env (snd st')) = env_wbuf (sh_env sh) →
     (∃ gcs, Z.of_nat (length gcs) ≤ last_lpn sp (req_cmd req) + 1 - first_lpn sp (req_cmd req) ∧
        accounted sp gcs (counted bytes (sh_ctx sh)) (sh_ctx (snd st'))) → wp (rest t1 t2) st' Q) →
  wp (mod_shared_ctx (λ x, set_hbmw (u64 (fx_hbmw x + bytes)) x) ;;
      mod_shared_ctx (λ x, set_mbmw (u64 (fx_mbmw x + bytes)) x) ;;
      t1 ← on_part 0 (on_ssd (ssd_advance_write_buffer (req_nsecs_start req) bytes));
      t2 ← write_loop n ruh (req_sq_id req) t1 (first_lpn sp (req_cmd req)) (last_lpn sp (req_cmd req)) t1;
      rest t1 t2) (fs, sh) Q.
Proof using clock_range.
  intros Hns Hruh Hlpn HL bytes HQ. wp_step. apply wp_mod_shared_ctx. wp_step. apply wp_mod_shared_ctx. simpl.
  set (sh1 := Shared _ _ _).
  assert (ns_inv L sp n gtag (fs, sh1)) as Hns1.
  { eapply ns_inv_shared; [done|apply Hns|apply ctx_wf_written, Hns|apply Hns]. }
  wp_step. eapply wp_xfer_write_buffer; [exact Hns1|]. intros t1 f' sh2 Hf' Ht1 Hns2 Hc Ho Hb.
  wp_step. eapply wp_mono; [apply wp_write_loop; [exact Hns2|done|lia|lia|done|done]|].
  intros t2 st3 (Hns3 & Ht2 & Hm3 & Hb3 & Hh3). apply HQ; try done.
  - intros k Hk. rewrite Hm3 by done. f_equal. apply ns_mapped_ext. intros i.
    destruct (decide (i = 0)) as [->|]; [|by rewrite aget_aset_ne].
    rewrite aget_aset_eq; [done|]. eauto using aget_inv.
  - simpl in Hb3. rewrite Hb3, Hb. done.
  - destruct Hh3 as (gcs & Hl & Ha). simpl in Ha. rewrite Hc in Ha. by exists gcs.
Qed.

Lemma wp_fdp_write L sp c ns gtag req ret st :
  ns_inv L sp (ns_nr_parts ns) gtag st →
  write_ok L sp (ns_nr_parts ns) c (env_wbuf (sh_env (snd st))) req →
  wp (fdp_write c ns req ret) st (write_outcome L sp (ns_nr_parts ns) c gtag req ret st).
Proof using clock_range.
  destruct st as [fs sh]. intros Hns [K1 K2 K3 K4 K5 K6]. simpl in K6. set (n := ns_nr_parts ns) in *.
  pose proof (ni_sp _ _ _ _ _ Hns) as Hsp. pose proof (lpn_range sp (req_cmd req) Hsp K1 K2 K3) as Hlpn.
  unfold fdp_write. wp_step. eapply wp_spp0; [done|]. unfold write_outcome. fold n.
  fold (first_lpn sp (req_cmd req)) (last_lpn sp (req_cmd req)) (xfer_bytes c (req_cmd req)).
  destruct (Z.leb_spec (tt_pgs sp) (last_lpn sp (req_cmd req) / n)) as [Hge|Hlt]; [by wp_step|].
  wp_step. apply wp_route; [apply Hns|]. intros sh1 Hrt. pose proof Hrt as [R1 R2 R3 R4 R5 R6 R7 R8].
  assert (ns_inv L sp n gtag (fs, sh1)) as Hns1.
  { eapply ns_inv_shared; [done|rewrite R1; apply Hns|done|rewrite R1; apply Hns]. }
  destruct (placement (req_cmd req)) as [ruh|] eqn:Hp; [|by wp_step].
  pose proof (placement_range _ _ Hp) as Hruh. set (bytes := xfer_bytes c (req_cmd req)) in *.
  assert (0 ≤ bytes) as Hb0 by apply u64_range.
  wp_step. unfold on_wbuf. apply wp_zoom. simpl.
  eapply wp_mono; [apply wp_buffer_allocate; [apply Hns1|rewrite R1; lia]|].
  intros a b (Hbok & Hbsz & Hba). rewrite R1 in Hba, Hbsz. simpl.
  destruct (Z.ltb_spec (buf_remaining (env_wbuf (sh_env sh))) bytes) as [Hfull|Hroom].
  { destruct Hba as [-> ->]. rewrite (proj2 (Z.ltb_lt _ _)) by (pose proof (ni_wbuf _ _ _ _ _ Hns) as [? _]; simpl in *; lia).
    wp_step. split_and!; try done.
    - destruct Hrt. split; simpl; try done. rewrite <- R1. by destruct (sh_env sh1).
    - eapply ns_inv_shared; [exact Hns1|simpl; rewrite R1; apply Hns|done|simpl; rewrite <- R1; apply Hns1]. }
  destruct Hba as [-> Hrem]. rewrite (proj2 (Z.ltb_ge _ _)) by lia.
  set (sh2 := Shared (Env _ b _) _ _).
  assert (ns_inv L sp n gtag (fs, sh2)) as Hns2.
  { eapply ns_inv_shared; [exact Hns1|simpl; rewrite R1; apply Hns|done|done]. }
  apply (wp_write_data _ L sp n c gtag ruh req fs sh2); [done|done|done|lia|].
  intros t1 t2 st' Ht Hns3 Hm3 Hb3 (gcs & Hlen & Hacc). simpl in Hb3. wp_step. split_and!; [done|done|].
  pose proof (accounted_written sp (req_cmd req) bytes gcs sh sh1 (sh_ctx (snd st')) Hrt
    ltac:(congruence) Hacc) as Hwn.
  split; simpl; try done; rewrite ?Hb3; try done; [apply Hwn|by exists gcs].
Qed.

(** ** [fdp_read] and [fdp_flush] *)

(** Time passes; nothing else happens. *)
Record ticked (f : fdp_ftl) (sh : shared) (st' : fstate) : Prop := {
  tk_ssd : ∃ s', fst st' = set_ssd s' f ∧ same_nand (ftl_ssd f) s';
  tk_senv : senv_ok st';
  tk_ctx : sh_ctx (snd st') = sh_ctx sh;
  tk_ops : sh_ops (snd st') = sh_ops sh;
  tk_wbuf : env_wbuf (sh_env (snd st')) = env_wbuf (sh_env sh);
}.

Lemma ticked_refl f sh : senv_ok (f, sh) → ticked f sh (f, sh).
Proof using. intros Hs. split; try done. exists (ftl_ssd f). split; [by destruct f|done]. Qed.

Lemma ticked_trans f sh f1 sh1 st2 : ticked f sh (f1, sh1) → ticked f1 sh1 st2 → ticked f sh st2.
Proof using.
  intros [(s1 & E1 & N1) T1 T2 T3 T4] [(s2 & E2 & N2) U1 U2 U3 U4]. simpl in *. subst f1.
  split; try done; try congruence. exists s2. split; [done|]. by etrans.
Qed.

Lemma ticked_sp f sh st' : ticked f sh st' → fsp (fst st') = fsp f ∧ ftl_maptbl (fst st') = ftl_maptbl f.
Proof using. intros [(s' & -> & [E _]) _ _ _ _]. done. Qed.

(** One read command, if there is something to read. *)
Lemma wp_read_xfer f sh xfer stime p nsecs :
  senv_ok (f, sh) → 0 ≤ stime → (0 < xfer → ppa_in (fsp f) p) →
  wp (if 0 <? xfer then
        t ← on_ssd (ssd_advance_nand (NandCmd USER_IO NAND_READ xfer stime true p));
        mret (Z.max t nsecs)
      else mret nsecs) (f, sh) (λ t st', nsecs ≤ t ∧ ticked f sh st').
Proof using clock_range.
  intros Hs Hst Hp. destruct (Z.ltb_spec 0 xfer) as [Hx|Hx].
  - wp_step. apply (wp_on_nand clock_range); simpl; auto.
    intros t s' sh' Ht Hn Hs' Hg Hc. wp_step. split; [lia|]. split; try done; [by exists s'|apply Hg|apply Hg].
  - wp_step. split; [done|]. by apply ticked_refl.
Qed.

Lemma wp_read_part X n stime start last nsecs f sh :
  finv None X None None f → senv_ok (f, sh) → 0 < n → 0 ≤ start ≤ last → last / n < tt_pgs (fsp f) → 0 ≤ stime →
  wp (read_part n stime start last nsecs) (f, sh) (λ t st', nsecs ≤ t ∧ ticked f sh st').
Proof using clock_range.
  intros [Hfb Hm] Hs Hn Hr HL Hst. pose proof (fb_sp _ _ _ Hfb) as Hsp.
  assert (∀ lpn, start ≤ lpn ≤ last → ∃ p, aget (ftl_maptbl f) (lpn / n) = Some p ∧
    (p = ppa_of UNMAPPED_PPA ∨ ppa_in (fsp f) p)) as Hent.
  { intros lpn Hlpn. destruct (aget_some (ftl_maptbl f) (lpn / n)) as [p Hp].
    - rewrite (mo_maptbl _ _ _ _ _ _ Hm). split; [apply Z.div_pos; lia|].
      eapply Z.le_lt_trans; [apply Z.div_le_mono; [done|apply Hlpn]|done].
    - exists p. split; [done|]. destruct (decide (p = ppa_of UNMAPPED_PPA)) as [|Hu]; [by left|right].
      by apply (mo_fwd _ _ _ _ _ _ Hm _ _ Hp). }
  unfold read_part. f_step. f_step. destruct (Hent start ltac:(lia)) as (p0 & Hp0 & Hp0').
  f_step. eapply wp_get_maptbl_ent; [done|].
  wp_step. eapply (wp_while (λ '(lpn, xfer, prev, t) st, start ≤ lpn ∧ nsecs ≤ t ∧ ticked f sh st ∧
    (prev = ppa_of UNMAPPED_PPA ∧ xfer = 0 ∨ ppa_in (fsp f) prev)) (λ '(lpn, _, _, _), Z.max 0 (last + 1 - lpn))).
  { split_and!; try done; try lia; [by apply ticked_refl|naive_solver]. }
  { lia. }
  - intros [[[lpn xfer] prev] t] [f1 sh1] (Hlpn & Ht & Htk & Hprev). split; [lia|].
    destruct (ticked_sp _ _ _ Htk) as [E1 E2]. simpl in E1, E2.
    assert (0 < xfer → ppa_in (fsp f1) prev) as Hx by (rewrite E1; intuition lia).
    destruct (Z.leb_spec lpn last) as [Hle|Hgt]; simpl.
    2:{ wp_step. eapply wp_mono; [apply (wp_read_xfer f1 sh1); [apply Htk|done|done]|].
        intros t' st' [Ht' Htk']. split; [lia|]. by eapply ticked_trans. }
    destruct (Hent lpn ltac:(lia)) as (p & Hp & Hp'). f_step. eapply wp_get_maptbl_ent; [by rewrite E2|].
    destruct Hp' as [->|Hin].
    { rewrite mapped_ppa_unmapped. simpl. wp_step. split; [|lia]. split_and!; try done. lia. }
    rewrite (mapped_ppa_in _ _ Hsp Hin). simpl. destruct (valid_ppa (fsp f) p); simpl.
    2:{ wp_step. split; [|lia]. split_and!; try done. lia. }
    destruct (mapped_ppa prev && is_same_flash_page (fsp f) p prev) eqn:Hsame.
    + bool_prop. wp_step. split; [|lia]. split_and!; try done; [lia|]. right.
      destruct Hprev as [[-> _]|Hprev]; [by rewrite mapped_ppa_unmapped in *|done].
    + wp_step. eapply wp_mono; [apply (wp_read_xfer f1 sh1); [apply Htk|done|done]|].
      intros t' [f2 sh2] [Ht' Htk']. wp_step. split; [|lia]. split_and!; try done; try lia; [|by right].
      by eapply ticked_trans.
Qed.

(** The partitions and what they share, time aside. *)
Record ns_ticked (n : Z) (st st' : nsstate) : Prop := {
  nt_mapped k : ns_mapped n st' k = ns_mapped n st k;
  nt_ctx : (sh_ctx (snd st')).1 = (sh_ctx (snd st)).1;
  nt_ops : sh_ops (snd st') = sh_ops (snd st);
  nt_wbuf : env_wbuf (sh_env (snd st')) = env_wbuf (sh_env (snd st));
}.

#[export] Instance ns_ticked_preorder n : PreOrder (ns_ticked n).
Proof using.
  split; [by split|]. intros s1 s2 s3 [A1 A2 A3 A4] [B1 B2 B3 B4]. split; try congruence.
Qed.

Lemma wr_inv_ticked L tag f sh st' : wr_inv L tag (f, sh) → ticked f sh st' → wr_inv L tag st'.
Proof using.
  destruct st' as [f' sh']. intros [[I1 I2] I3 I4 I5 I6 I7 I8 I9] [(s' & E & N) T1 T2 T3 T4]. simpl in *. subst f'.
  pose proof (proj1 N) as Es. assert (fsp (set_ssd s' f) = fsp f) as Ef by exact Es.
  assert (room (set_ssd s' f) = room f) as Er by (apply room_ext; [exact Es|done|done]).
  split; simpl; rewrite ?Ef, ?Er; try done. split; [by apply finv_same_nand|done].
Qed.

Lemma ns_inv_ticked L sp n gtag fs sh i f st' :
  ns_inv L sp n gtag (fs, sh) → aget fs i = Some f → ticked f sh st' →
  ns_inv L sp n gtag (aset fs i (fst st'), snd st') ∧ ns_ticked n (fs, sh) (aset fs i (fst st'), snd st').
Proof using.
  intros Hns Hf Htk. pose proof (aget_inv _ _ _ Hf) as Hi. pose proof (ni_len _ _ _ _ _ Hns) as Hlen. simpl in Hlen.
  destruct (ni_part _ _ _ _ _ Hns i f Hf) as [Hw Hs]. destruct (ticked_sp _ _ _ Htk) as [E1 E2].
  split.
  - eapply ns_inv_upd; [done|lia| |congruence|done|].
    + destruct st'. by eapply wr_inv_ticked.
    + rewrite (tk_wbuf _ _ _ Htk). apply Hns.
  - split; simpl; [|by rewrite (tk_ctx _ _ _ Htk)|apply Htk|apply Htk]. intros k. unfold ns_mapped. simpl.
    rewrite aget_aset by done. case_decide as Hd; [|done]. rewrite <- Hd, Hf. unfold mapped_at. by rewrite E2.
Qed.

(** A request to read: like a write, but of any page of the device. *)
Record read_ok (req : nvmev_request) : Prop := {
  rk_slba : 0 ≤ rw_slba (req_cmd req);
  rk_length : 0 ≤ rw_length (req_cmd req);
  rk_end : rw_slba (req_cmd req) + rw_length (req_cmd req) < 2 ^ 64;
}.

Lemma wp_fdp_read L sp c ns gtag req ret st :
  ns_inv L sp (ns_nr_parts ns) gtag st → read_ok req →
  wp (fdp_read c ns req ret) st (λ r st',
    ns_inv L sp (ns_nr_parts ns) gtag st' ∧ ns_ticked (ns_nr_parts ns) st st' ∧
    if tt_pgs sp <=? last_lpn sp (req_cmd req) / ns_nr_parts ns then r = (false, ret) ∧ st' = st
    else r.1 = true ∧ ret_status r.2 = NVME_SC_SUCCESS ∧ req_nsecs_start req ≤ ret_nsecs_target r.2).
Proof using clock_range.
  destruct st as [fs sh]. intros Hns [K1 K2 K3]. set (n := ns_nr_parts ns) in *.
  pose proof (ni_sp _ _ _ _ _ Hns) as Hsp. pose proof (lpn_range sp (req_cmd req) Hsp K1 K2 K3) as Hlpn.
  pose proof (ni_parts _ _ _ _ _ Hns) as Hn.
  unfold fdp_read. wp_step. eapply wp_spp0; [done|]. fold n.
  fold (first_lpn sp (req_cmd req)) (last_lpn sp (req_cmd req)).
  destruct (Z.leb_spec (tt_pgs sp) (last_lpn sp (req_cmd req) / n)) as [Hge|Hlt]; [by wp_step|].
  set (stime := u64 _). assert (0 ≤ stime) as Hst by apply u64_range.
  wp_step. eapply (wp_while (λ '(i, start, t) st1, 0 ≤ i ≤ n ∧ 0 ≤ start ∧ req_nsecs_start req ≤ t ∧
    ns_inv L sp n gtag st1 ∧ ns_ticked n (fs, sh) st1) (λ '(i, _, _), n - i)).
  { split_and!; try done; lia. }
  { lia. }
  intros [[i start] t] [fs1 sh1] (Hi & Hs & Ht & Hns1 & Htk1). split; [lia|].
  destruct (Z.ltb_spec i n), (Z.leb_spec start (last_lpn sp (req_cmd req))); simpl;
    try (wp_step; wp_step; by split_and!).
  destruct (ns_part _ _ _ _ _ _ (start mod n) Hns1 (Z.mod_pos_bound start n Hn)) as (f & Hf & Hw & Hfs).
  wp_step. eapply wp_on_part; [done|]. eapply wp_mono.
  { eapply wp_read_part; [apply Hw|apply Hw|done|split; done|by rewrite Hfs|done]. }
  intros t' st' [Ht' Htk']. wp_step. split; [|lia].
  destruct (ns_inv_ticked _ _ _ _ _ _ _ _ _ Hns1 Hf Htk') as [Hns2 Htk2].
  split_and!; try done; try lia. by etrans.
Qed.

(** The time all LUNs of partition [f] are idle. *)
Definition idle_by (t : Z) (f : fdp_ftl) : Prop :=
  ∀ p l, get_lun (ftl_ssd f) p = Some l → lun_next_lun_avail_time l ≤ t.

Lemma wp_idle_part f sh :
  senv_ok (f, sh) →
  wp (on_ssd ssd_next_idle_time) (f, sh) (λ t st', fst st' = f ∧ ticked f sh st' ∧ idle_by t f).
Proof using clock_range.
  intros [Hto Hc]. simpl in Hto, Hc. unfold on_ssd. apply wp_zoom. simpl.
  eapply wp_mono; [by apply (wp_next_idle_time clock_range)|].
  intros t [s' e'] (-> & Hto' & Hw & _ & Ht). simpl. replace (set_ssd (ftl_ssd f) f) with f by by destruct f.
  split_and!; [done| |done]. split; simpl; try done. exists (ftl_ssd f). split; [by destruct f|done].
Qed.

Lemma wp_fdp_flush L sp ns gtag ret st :
  ns_inv L sp (ns_nr_parts ns) gtag st →
  wp (fdp_flush ns ret) st (λ r st',
    ns_inv L sp (ns_nr_parts ns) gtag st' ∧ ns_ticked (ns_nr_parts ns) st st' ∧
    ret_status r = NVME_SC_SUCCESS ∧
    ∀ i f, aget (fst st) i = Some f → idle_by (ret_nsecs_target r) f).
Proof using clock_range.
  destruct st as [fs sh]. intros Hns. set (n := ns_nr_parts ns) in *. unfold fdp_flush. fold n.
  wp_step. unfold on_shared_ctx. apply wp_zoom. simpl. destruct (sh_ctx sh) as [x lt] eqn:Ex.
  unfold wp at 1. simpl. set (sh1 := Shared _ _ _).
  assert (ns_inv L sp n gtag (fs, sh1)) as Hns1.
  { pose proof (ni_ctx _ _ _ _ _ Hns) as Hcw. simpl in Hcw. rewrite Ex in Hcw.
    eapply ns_inv_shared; [done|apply Hns|exact Hcw|apply Hns]. }
  assert (ns_ticked n (fs, sh) (fs, sh1)) as Htk1 by (split; try done; simpl; by rewrite Ex).
  wp_step.
  set (parts := fix parts (ids : list Z) (latest : Z) : M nsstate Z := _).
  assert (∀ ids latest fs1 sh1, (∀ i, i ∈ ids → 0 ≤ i < n) → ns_inv L sp n gtag (fs1, sh1) →
    (∀ i, aget fs1 i = aget fs i) →
    wp (parts ids latest) (fs1, sh1) (λ t st', latest ≤ t ∧ ns_inv L sp n gtag st' ∧ ns_ticked n (fs1, sh1) st' ∧
      ∀ i f, i ∈ ids → aget fs i = Some f → idle_by t f)) as Hparts.
  { intros ids. induction ids as [|i ids IH]; intros latest fs1 sh2 Hi Hns2 Hsame; simpl.
    { wp_step. split_and!; try done. intros i f Hi'. by apply not_elem_of_nil in Hi'. }
    destruct (ns_part _ _ _ _ _ _ i Hns2) as (f & Hf & Hw & Hs); [apply Hi, list_elem_of_here|].
    wp_step. eapply wp_on_part; [done|]. eapply wp_mono; [apply wp_idle_part, Hw|].
    intros t [f' sh3] (Ef & Htk & Hidle). simpl in Ef. subst f'.
    destruct (ns_inv_ticked _ _ _ _ _ _ _ _ _ Hns2 Hf Htk) as [Hns3 Htk3].
    eapply wp_mono; [apply IH; [intros; apply Hi; by apply list_elem_of_further|exact Hns3|]|].
    { intros j. simpl. destruct (decide (i = j)) as [<-|Hne]; [|by rewrite aget_aset_ne].
      rewrite aget_aset_eq by eauto using aget_inv. by rewrite <- Hsame. }
    intros t' st' (Ht' & Hns4 & Htk4 & Hall). split_and!; [lia|done|by etrans|].
    intros j g [->|Hj]%elem_of_cons Hg; [|by eapply Hall]. rewrite <- Hsame in Hg.
    assert (g = f) as -> by congruence. intros p l Hl. specialize (Hidle p l Hl). lia. }
  eapply wp_mono; [apply Hparts; [intros i Hi%elem_of_seqZ; lia|exact Hns1|done]|].
  intros t st' (Ht & Hns2 & Htk2 & Hall). wp_step. simpl. split_and!; try done.
  - by etrans.
  - intros i f Hf. apply (Hall i f); [|done]. apply elem_of_seqZ. apply aget_inv in Hf.
    pose proof (ni_len _ _ _ _ _ Hns) as Hlen. simpl in Hlen. lia.
Qed.

(** ** Any sequence of commands *)

(** A command the host may send in a state. *)
Definition cmd_ok (L : Z) (sp : ssdparams) (c : ssd_config) (ns : nvmev_ns) (wbuf : buffer)
    (req : nvmev_request) : Prop :=
  ns_csi ns = 0 ∧
  (if rw_opcode (req_cmd req) =? nvme_cmd_write then write_ok L sp (ns_nr_parts ns) c wbuf req else read_ok req).

(** The handles after a command. *)
Definition cmd_tag (sp : ssdparams) (c : ssd_config) (n : Z) (req : nvmev_request) (st : nsstate)
    (gtag : Z → Z) : Z → Z :=
  let cmd := req_cmd req in
  if (rw_opcode cmd =? nvme_cmd_write) && negb (tt_pgs sp <=? last_lpn sp cmd / n) &&
     negb (buf_remaining (env_wbuf (sh_env (snd st))) <? xfer_bytes c cmd)
  then match placement cmd with
       | Some ruh => retag (first_lpn sp cmd) (last_lpn sp cmd + 1) ruh gtag
       | None => gtag
       end
  else gtag.

Lemma wp_proc_cmd L sp c ns gtag req ret st :
  ns_inv L sp (ns_nr_parts ns) gtag st → cmd_ok L sp c ns (env_wbuf (sh_env (snd st))) req →
  wp (fdp_proc_nvme_io_cmd c ns req ret) st (λ _ st',
    ns_inv L sp (ns_nr_parts ns) (cmd_tag sp c (ns_nr_parts ns) req st gtag) st' ∧
    buf_size (env_wbuf (sh_env (snd st'))) = buf_size (env_wbuf (sh_env (snd st))) ∧
    ∀ k, 0 ≤ k → ns_mapped (ns_nr_parts ns) st k = true → ns_mapped (ns_nr_parts ns) st' k = true).
Proof using clock_range.
  intros Hns [Hcsi Hok]. unfold fdp_proc_nvme_io_cmd, cmd_tag. rewrite Hcsi. wp_step. wp_step; [done|].
  destruct (Z.eqb_spec (rw_opcode (req_cmd req)) nvme_cmd_write) as [Hw|Hw]; simpl.
  - eapply wp_mono; [by apply wp_fdp_write|]. intros r st' Ho. unfold write_outcome in Ho. simpl.
    destruct (tt_pgs sp <=? _); simpl; [by destruct Ho as [_ ->]|].
    destruct (placement (req_cmd req)) as [ruh|] eqn:Hp.
    + destruct (buf_remaining _ <? _); simpl.
      * destruct Ho as (_ & Ef & [R1 _ _ _ _ _] & Hns'). rewrite R1. split_and!; try done.
        intros k _ Hm. destruct st, st'; simpl in *; subst. done.
      * destruct Ho as (_ & _ & [D1 D2 D3 D4 D5]). split_and!; try done. intros k Hk Hm.
        rewrite D2, Hm by done. apply orb_true_r.
    + destruct Ho as (_ & Ef & [R1 _ _ _ _ _] & Hns'). rewrite R1. split_and!.
      * by destruct (negb _).
      * done.
      * intros k _ Hm. destruct st, st'; simpl in *; subst. done.
  - destruct (rw_opcode (req_cmd req) =? nvme_cmd_read).
    { eapply wp_mono; [by apply wp_fdp_read|]. intros r st' (Hns' & [T1 T2 T3 T4] & _).
      rewrite T4. split_and!; try done. intros k _. by rewrite T1. }
    destruct (rw_opcode (req_cmd req) =? nvme_cmd_flush); [|by wp_step].
    wp_step. eapply wp_mono; [by apply wp_fdp_flush|]. intros r st' (Hns' & [T1 T2 T3 T4] & _). wp_step.
    rewrite T4. split_and!; try done. intros k _. by rewrite T1.
Qed.

(** A session: commands one after the other. *)
Fixpoint fdp_session (c : ssd_config) (ns : nvmev_ns) (reqs : list nvmev_request)
    : M nsstate (list (bool * nvmev_result)) :=
  match reqs with
  | [] => mret []
  | req :: reqs' =>
      r ← fdp_proc_nvme_io_cmd c ns req (Result 0 0 0);
      rs ← fdp_session c ns reqs';
      mret (r :: rs)
  end.

Lemma wp_session L sp c ns reqs gtag st :
  ns_inv L sp (ns_nr_parts ns) gtag st →
  Forall (cmd_ok L sp c ns (env_wbuf (sh_env (snd st)))) reqs →
  wp (fdp_session c ns reqs) st (λ rs st', length rs = length reqs ∧
    ∃ gtag', ns_inv L sp (ns_nr_parts ns) gtag' st').
Proof using clock_range.
  revert gtag st. induction reqs as [|req reqs IH]; intros gtag st Hns Hok; simpl.
  { wp_step. split; [done|]. by exists gtag. }
  apply Forall_cons in Hok as [Hreq Hok]. wp_step. eapply wp_mono; [by apply wp_proc_cmd|].
  intros r st' (Hns' & Hsz & _). wp_step. eapply wp_mono.
  { eapply IH; [exact Hns'|]. eapply Forall_impl; [exact Hok|]. intros q [H1 H2]. split; [done|].
    destruct (_ =? _); [|done]. destruct H2 as [W1 W2 W3 W4 W5 W6]. split; try done. by rewrite Hsz. }
  intros rs st2 [Hlen Hex]. wp_step. split; [simpl; lia|done].
Qed.
End commands.

(** ** A new namespace *)

Section init_namespace.
Context `{CK : !Clock} `{LC : !LocalClock}.

(** The partitions built so far: those below [k]. *)
Record parts_at (L : Z) (sp : ssdparams) (n k : Z) (sh : shared) (st : nsstate) : Prop := {
  pa_sh : snd st = sh;
  pa_len : alen (fst st) = n;
  pa_part i f : 0 ≤ i < k → aget (fst st) i = Some f → (∀ tag, wr_inv L tag (f, sh)) ∧ fsp f = sp ∧
    ∀ lpn, mapped_at f lpn = false;
}.

Lemma init_parts_ok L sp cpp cpu n sh ids k st :
  sp_ok sp → timing_ok ((ssd_init sp cpu).1.1, sh_env sh) → ctx_wf (sh_ctx sh).1 →
  0 ≤ L < (tt_lines sp - 2 * NR_WP) * pgs_per_line sp → cp_gc_thres_lines_high cpp = NR_WP →
  0 ≤ k → ids = seqZ k (n - k) → parts_at L sp n k sh st →
  ∃ st', init_parts cpp sp cpu ids st = Ok st' ∧ parts_at L sp n (Z.max k n) sh st'.
Proof.
  intros Hsp Hto Hc HL Hth. revert k st. induction ids as [|i ids IH]; intros k st Hk Hids Hat; simpl.
  { exists st. split; [done|]. destruct (decide (k < n)) as [Hlt|Hge].
    - by rewrite seqZ_cons in Hids by lia.
    - by rewrite Z.max_l by lia. }
  destruct (decide (k < n)) as [Hlt|Hge]; [|by rewrite seqZ_nil in Hids by lia].
  rewrite seqZ_cons in Hids by lia. injection Hids as -> Hids. destruct Hat as [A1 A2 A3].
  pose proof (fdp_init_ftl_ok sp cpp (ssd_init sp cpu).1.1 sh L) as Hinit.
  destruct (Hinit (λ _, 0)) as (f & Hf & _ & Hs & Hm); [done|done|by intros; apply ssd_init_blk|done..|].
  assert (∀ tag, wr_inv L tag (f, sh)) as Hall.
  { intros tag. destruct (Hinit tag) as (f' & Hf' & Hw & _); [done|done|by intros; apply ssd_init_blk|done..|].
    assert (f' = f) as -> by congruence. done. }
  unfold ssd_init in Hf. simpl in Hf. rewrite A1, Hf.
  destruct (IH (k + 1) (aset (fst st) k f, sh)) as (st' & Hst' & Hat'); [lia| | |].
  - rewrite Hids. f_equal; lia.
  - split; simpl; [done|by rewrite alen_aset|]. intros j g Hj Hg. rewrite aget_aset in Hg by lia.
    destruct (decide (k = j)) as [<-|Hne]; [by simplify_eq|]. apply (A3 j); [lia|done].
  - exists st'. split; [done|]. by replace (Z.max k n) with (Z.max (k + 1) n) by lia.
Qed.

Lemma timing_ok_env s e e' : timing_ok (s, e) → cm_wf (env_pcie e') → timing_ok (s, e').
Proof. intros [H1 H2 H3 H4 H5] H. by split. Qed.

Lemma fdp_init_namespace_ok c events f0 id size cpu ticks lticks L gtag :
  conv_layout c → SSD_PARTITIONS c = 4 → 0 ≤ GLOBAL_WB_SIZE c < 2 ^ 32 →
  4 ≤ size ≤ BLKS_PER_PLN c * 2 ^ 31 →
  ∃ sp, ssd_init_params c size 4 = Ok sp ∧
    (0 ≤ L < (tt_lines sp - 2 * NR_WP) * pgs_per_line sp →
     ∃ st ns, fdp_init_namespace c events f0 id size cpu ticks lticks = Ok (st, ns) ∧
       ns_inv L sp 4 gtag st ∧ ns_nr_parts ns = 4 ∧ ns_csi ns = 0 ∧
       env_wbuf (sh_env (snd st)) = buffer_init (GLOBAL_WB_SIZE c) ∧
       ∀ k, 0 ≤ k → ns_mapped 4 st k = false).
Proof.
  intros Hcl Hpt Hwb Hsz. destruct (init_params_layout c size Hcl Hsz) as (sp & Hsp0 & Hsp & Hb & Hw & _).
  exists sp. split; [done|]. intros HL. unfold fdp_init_namespace. rewrite Hpt, Hsp0.
  pose proof (ssd_init_timing sp cpu ticks Hsp) as Hto. unfold ssd_init in Hto |- *.
  set (sh := Shared _ _ _).
  assert (ctx_wf (sh_ctx sh).1) as Hc by (apply fdp_init_ctx_wf, u64_range).
  destruct (init_parts_ok L sp (fdp_init_params c) cpu 4 sh (seqZ 0 4) 0 (anew 4 f0, sh)) as (st & -> & [P1 P2 P3]);
    try done.
  { split; try done. intros i f Hi. lia. }
  eexists st, _. split; [done|]. destruct st as [fs sh']. simpl in P1, P2, P3. subst sh'.
  split_and!; try done; [|simpl; by rewrite Hw|].
  - split; simpl; try done.
    + intros i f Hf. pose proof (aget_inv _ _ _ Hf) as Hi. rewrite P2 in Hi.
      destruct (P3 i f) as (Q1 & Q2 & _); [lia|done|]. done.
    + exact (to_pcie _ Hto).
    + rewrite Hw. split; simpl; lia.
  - intros k Hk. unfold ns_mapped. simpl. destruct (aget fs (k mod 4)) as [f|] eqn:Hf; [|done].
    pose proof (aget_inv _ _ _ Hf) as Hi. rewrite P2 in Hi. by apply (P3 (k mod 4) f); [lia|].
Qed.
End init_namespace.
End handles.
