(* ===== verification/CoreSpec.v ===== *)
(** * Properties of the shared components

    The victim queue, the channel model, the device's addresses and timing, the
    write buffer, and the FDP log pages and events. *)

From stdpp Require Import base numbers list gmap relations sorting.
From S2P Require Import Prelude Config Pqueue ChannelModel Ssd Bytes Nvme FdpLog FdpFtl FdpInv.

#[local] Open Scope Z_scope.

(** ** Clocks for concrete runs *)

Definition still_clock : Clock := λ _, 0.
Definition still_local_clock : LocalClock := λ _, 0.

(** A queue over three lines with 5, 2 and 9 valid pages, for concrete runs. *)
Definition three_lines : arr fdp_line :=
  abuild 3 (FdpLine 0 0 0 (-1) 0) (λ i, FdpLine i 1 (if i =? 0 then 5 else if i =? 1 then 2 else 9) (-1) 0).

(** ** The priority queue (src/pqueue/pqueue.c) *)

Section pqueue.
Context {St E : Type} `{EqDecision E} `{!PqOps St E} {pri_ok : Z → Prop} `{!PqLaws St E pri_ok}.
Implicit Types (q : pqueue E) (s : St) (e : E).

(** Taking out the elements one after the other. *)
Fixpoint pop_n (n : nat) : M (pqst St E) (list E) :=
  match n with
  | O => mret []
  | S n' =>
      o ← pqueue_pop;
      match o with
      | None => mret []
      | Some e => es ← pop_n n'; mret (e :: es)
      end
  end.

Lemma taken_out_elems e q s qs :
  pq_wf q s → member q e → taken_out e q s qs → pq_elems q ≡ₚ e :: pq_elems (fst qs).
Proof.
  intros Hwf Hm (Hwf' & Hmem & _). apply NoDup_Permutation.
  - by eapply NoDup_pq_elems.
  - constructor; [|by eapply NoDup_pq_elems]. rewrite elem_of_pq_elems, Hmem. naive_solver.
  - intros x. rewrite elem_of_cons, !elem_of_pq_elems, Hmem.
    destruct (decide (x = e)) as [->|]; naive_solver.
Qed.

Lemma above_repositioned P s s' e1 e2 : repositioned P s s' → above s' e1 e2 ↔ above s e1 e2.
Proof. intros Hr. unfold above. by rewrite !(repositioned_pri _ _ _ _ Hr). Qed.

Lemma sorted_repositioned P s s' es :
  repositioned P s s' → StronglySorted (above s') es → StronglySorted (above s) es.
Proof.
  intros Hr. induction 1 as [|x l Hl IHl Hf]; constructor; [done|].
  eapply Forall_impl; [exact Hf|]. intros y Hy. by apply (above_repositioned _ _ _ _ _ Hr).
Qed.

Lemma wp_pop_n n q s :
  pq_wf q s → q_size q = Z.of_nat n + 1 →
  wp (pop_n n) (q, s) (λ es qs, es ≡ₚ pq_elems q ∧ StronglySorted (above s) es ∧
    pqueue_size (fst qs) = 0 ∧ pq_wf (fst qs) (snd qs)).
Proof.
  revert q s. induction n as [|n IH]; intros q s Hwf Hn; simpl.
  { wp_step. pose proof (length_pq_elems _ _ Hwf) as Hl. rewrite Hn in Hl.
    destruct (pq_elems q) as [|x xs]; [|simpl in Hl; lia].
    split_and!; [done|constructor|unfold pqueue_size; simpl; lia|done]. }
  wp_step. eapply wp_mono; [by apply pop_spec|]. intros [h|] qs.
  2:{ intros [_ Hno]. destruct (wf_pos _ _ Hwf 1) as (e & He & _); [lia|]. destruct (Hno e). exists 1.
      split; [lia|done]. }
  intros (_ & Hm & Habove & Hout). pose proof Hout as (Hwf' & Hmem & Hrep & Hsz & _).
  destruct qs as [q' s']. simpl in *. wp_step. eapply wp_mono; [apply IH; [done|lia]|].
  intros es qs (Hperm & Hsort & Hsize & Hwf2). wp_step. split_and!; [| |done|done].
  - rewrite Hperm. symmetry. by apply (taken_out_elems h q s (q', s')).
  - constructor.
    + by eapply sorted_repositioned.
    + apply Forall_forall. intros x Hx. apply Habove. rewrite Hperm in Hx.
      apply elem_of_pq_elems, Hmem in Hx. apply Hx.
Qed.

(** [pqueue_insert] of a new element into a heap with room reports success,
    and the result is a heap with exactly that element more, in which every
    element's stored position is its cell; no priority changes. *)
Theorem pqueue_insert_ok e q s :
  pq_wf q s → ¬ member q e → q_size q < q_avail q →
  wp (pqueue_insert e) (q, s) (λ r qs, r = 0 ∧ pq_wf (fst qs) (snd qs) ∧
    (∀ x, member (fst qs) x ↔ x = e ∨ member q x) ∧ pqueue_size (fst qs) = pqueue_size q + 1 ∧
    ∀ x, pq_getpri (snd qs) x = pq_getpri s x).
Proof.
  intros Hwf He Hr. eapply wp_mono; [by apply insert_spec|].
  intros r qs [-> (Hwf' & Hm & Hrep & Hsz & _)]. unfold pqueue_size. split_and!; try done; [lia|].
  intros x. by eapply repositioned_pri.
Qed.

(** [pqueue_change_priority] of a member gives it the new priority and moves
    it so that the heap order holds again, with the same members and no other
    priority changed. *)
Theorem pqueue_change_priority_ok p e q s :
  pq_wf q s → member q e → pri_ok p →
  wp (pqueue_change_priority p e) (q, s) (λ _ qs, pq_wf (fst qs) (snd qs) ∧
    (∀ x, member (fst qs) x ↔ member q x) ∧ pqueue_size (fst qs) = pqueue_size q ∧
    ∀ x, pq_getpri (snd qs) x = if decide (e = x) then p else pq_getpri s x).
Proof.
  intros Hwf He Hp. eapply wp_mono; [by apply change_priority_spec|].
  intros [] qs (Hwf' & Hm & Hrep & Hsz & _). unfold pqueue_size. split_and!; try done; [lia|].
  intros x. rewrite (repositioned_pri _ _ _ x Hrep). by apply getpri_setpri.
Qed.

(** [pqueue_remove] takes exactly the given member out of any cell of the heap
    and restores the order of the rest. *)
Theorem pqueue_remove_ok e q s :
  pq_wf q s → member q e →
  wp (pqueue_remove e) (q, s) (λ r qs, r = 0 ∧ pq_wf (fst qs) (snd qs) ∧
    pq_elems q ≡ₚ e :: pq_elems (fst qs) ∧ ∀ x, pq_getpri (snd qs) x = pq_getpri s x).
Proof.
  intros Hwf He. eapply wp_mono; [by apply remove_spec|]. intros r qs [-> Hout].
  pose proof Hout as (Hwf' & _ & Hrep & _). split_and!; try done.
  - by eapply taken_out_elems.
  - intros x. by eapply repositioned_pri.
Qed.

(** C26: taking all elements out of a well-formed heap of victim candidates with
    [pqueue_pop] returns, yields each of them exactly once, in the order of their
    priorities, and leaves a well-formed empty heap. *)
Theorem pqueue_pop_sorted q s :
  pq_wf q s →
  wp (pop_n (Z.to_nat (pqueue_size q))) (q, s) (λ es qs, es ≡ₚ pq_elems q ∧
    StronglySorted (above s) es ∧ pqueue_size (fst qs) = 0 ∧ pq_wf (fst qs) (snd qs)).
Proof.
  intros Hwf. apply wp_pop_n; [done|]. pose proof (wf_size _ _ Hwf). unfold pqueue_size. lia.
Qed.
End pqueue.

(** A heap of three lines, built by insertion. *)
Definition three_heap : res (unit * (pqueue Z * arr fdp_line)) :=
  (pqueue_insert (St := arr fdp_line) 0 ;; pqueue_insert 1 ;; pqueue_insert 2 ;; mret tt)
    (pqueue_init 3, three_lines).

Lemma three_heap_wf :
  ∃ q s, three_heap = Ok (tt, (q, s)) ∧ pq_wf q s ∧ (∀ x, member q x ↔ x = 2 ∨ x = 1 ∨ x = 0) ∧ q_size q = 4.
Proof.
  enough (wp (pqueue_insert (St := arr fdp_line) 0 ;; pqueue_insert 1 ;; pqueue_insert 2 ;; mret tt)
    (pqueue_init 3, three_lines) (λ _ qs, pq_wf (fst qs) (snd qs) ∧
      (∀ x, member (fst qs) x ↔ x = 2 ∨ x = 1 ∨ x = 0) ∧ q_size (fst qs) = 4)) as Hw.
  { apply wp_Ok in Hw as ([] & [q s] & Hq & Hwf & Hm & Hs). by exists q, s. }
  destruct (init_wf (St := arr fdp_line) 3 three_lines) as [Hwf0 Hno]; [done|].
  wp_step. eapply wp_mono; [by apply insert_spec|]. intros r1 [q1 s1] [_ (W1 & M1 & _ & S1 & V1)]. simpl in *.
  wp_step. eapply wp_mono; [apply insert_spec; [done|rewrite M1; naive_solver|lia]|].
  intros r2 [q2 s2] [_ (W2 & M2 & _ & S2 & V2)]. simpl in *.
  wp_step. eapply wp_mono; [apply insert_spec; [done|rewrite M2, M1; naive_solver|lia]|].
  intros r3 [q3 s3] [_ (W3 & M3 & _ & S3 & V3)]. simpl in *. wp_step.
  split_and!; [done| |simpl; lia].
  intros x. rewrite M3, M2, M1. naive_solver.
Qed.

(** The insertion of line 1 into a queue that has room. *)
Lemma pqueue_insert_ok_witness :
  wp (pqueue_insert 1) (pqueue_init 3, three_lines) (λ r qs, r = 0 ∧ pq_wf (fst qs) (snd qs) ∧
    (∀ x, member (fst qs) x ↔ x = 1 ∨ member (pqueue_init (E := Z) 3) x) ∧
    pqueue_size (fst qs) = pqueue_size (pqueue_init (E := Z) 3) + 1 ∧
    ∀ x, pq_getpri (snd qs) x = pq_getpri three_lines x).
Proof.
  destruct (init_wf (St := arr fdp_line) 3 three_lines) as [Hwf Hno]; [done|].
  apply pqueue_insert_ok; [exact Hwf|apply Hno|reflexivity].
Defined.

Lemma pqueue_change_priority_ok_witness :
  ∃ q s, pq_wf q s ∧ wp (pqueue_change_priority 1 2) (q, s) (λ _ qs, pq_wf (fst qs) (snd qs) ∧
    (∀ x, member (fst qs) x ↔ member q x) ∧ pqueue_size (fst qs) = pqueue_size q ∧
    ∀ x, pq_getpri (snd qs) x = if decide (2 = x) then 1 else pq_getpri s x).
Proof.
  destruct three_heap_wf as (q & s & _ & Hwf & Hm & _). exists q, s. split; [exact Hwf|].
  apply (pqueue_change_priority_ok 1 2 q s); [exact Hwf|rewrite Hm; by left|done].
Defined.

Lemma pqueue_remove_ok_witness :
  ∃ q s, pq_wf q s ∧ wp (pqueue_remove 0) (q, s) (λ r qs, r = 0 ∧ pq_wf (fst qs) (snd qs) ∧
    pq_elems q ≡ₚ 0 :: pq_elems (fst qs) ∧ ∀ x, pq_getpri (snd qs) x = pq_getpri s x).
Proof.
  destruct three_heap_wf as (q & s & _ & Hwf & Hm & _). exists q, s. split; [exact Hwf|].
  apply (pqueue_remove_ok 0 q s); [exact Hwf|rewrite Hm; by right; right].
Defined.

Lemma pqueue_pop_sorted_witness :
  ∃ q s, pq_wf q s ∧ pqueue_size q = 3 ∧
    wp (pop_n (Z.to_nat (pqueue_size q))) (q, s) (λ es qs, es ≡ₚ pq_elems q ∧
      StronglySorted (above s) es ∧ pqueue_size (fst qs) = 0 ∧ pq_wf (fst qs) (snd qs)).
Proof.
  destruct three_heap_wf as (q & s & _ & Hwf & Hm & Hs). exists q, s. split; [exact Hwf|].
  split; [unfold pqueue_size; lia|]. apply (pqueue_pop_sorted q s); exact Hwf.
Defined.

(** ** The channel model (src/channel_model.c) *)

(** A request to a well-formed channel never faults; it reads the clock once
    and moves the ring to that time; it returns a time from [request_time] to
    less than 2^33 ns later; and it takes its credits first-fit: it uses up
    every slot from the one of [request_time] on until the credits of the
    command and its transfer are covered, or the ring ends. *)
Theorem chmodel_request_ok {CK : Clock} req len ch t :
  cm_wf ch → 0 ≤ req < 2 ^ 63 →
  wp (chmodel_request req len) (ch, t) (λ fin '(ch', t'),
    t' = t + 1 ∧ cm_wf ch' ∧ same_params ch ch' ∧ cm_cur_time ch' = cpu_clock t ∧
    req ≤ fin < req + 2 ^ 33 ∧ request_outcome ch (cpu_clock t) req len fin ch').
Proof.
  intros Hwf Hreq. eapply wp_mono; [apply chmodel_request_wp; [done|lia]|].
  intros fin [ch' t'] (Ht & Hwf' & Hp & Hc & Ho).
  pose proof (request_outcome_bounds _ _ _ _ _ _ Hwf Hreq Ho) as [? ?]. by split_and!.
Qed.

Lemma chmodel_request_ok_witness :
  wp (chmodel_request (H := still_clock) 8000 4096) (chmodel_init 800, 0) (λ fin '(ch', t'),
    t' = 1 ∧ cm_wf ch' ∧ same_params (chmodel_init 800) ch' ∧ cm_cur_time ch' = 0 ∧
    8000 ≤ fin < 8000 + 2 ^ 33 ∧ request_outcome (chmodel_init 800) 0 8000 4096 fin ch').
Proof.
  apply (@chmodel_request_ok still_clock 8000 4096 (chmodel_init 800) 0); [|lia].
  apply chmodel_init_wf. by vm_compute.
Defined.

(** ** Addresses and geometry (src/ssd.h, src/ssd.c) *)

(** packing an address into its 64 bits loses nothing: unpacking gives the
    same fields back, every 64-bit value is the packing of its fields, and no
    address of the device packs to the marker of an unmapped page. *)
Theorem ppa_round_trip :
  (∀ p, ppa_wf p → 0 ≤ ppa_val p < 2 ^ 64 ∧ ppa_of (ppa_val p) = p) ∧
  (∀ v, 0 ≤ v < 2 ^ 64 → ppa_wf (ppa_of v) ∧ ppa_val (ppa_of v) = v) ∧
  (∀ sp p, sp_ok sp → ppa_in sp p → ppa_val p ≠ UNMAPPED_PPA).
Proof.
  split_and!.
  - intros p Hp. split; [|by apply ppa_of_val]. pose proof Hp as [].
    rewrite ppa_val_eq by done. lia.
  - intros v Hv. split; [apply ppa_of_wf|by apply ppa_val_of].
  - intros sp p. apply ppa_in_mapped.
Qed.

(** For every configuration with the conventional layout and every capacity
    up to 2 GiB per block of a plane, the parameters of a partition come out
    well formed and hold the partition's share of the capacity with less than a
    oneshot page per block to spare, without overflow of the C integers they are
    computed in; a device built from them has every block free and its timing
    model in order. *)
Theorem ssd_init_ok c capacity cpu :
  conv_layout c → 4 ≤ capacity ≤ BLKS_PER_PLN c * 2 ^ 31 →
  ∃ sp, ssd_init_params c capacity 4 = Ok sp ∧ sp_ok sp ∧ tt_lines sp = BLKS_PER_PLN c ∧
    capacity / 4 ≤ tt_pgs sp * pgsz sp < capacity / 4 + 4 * BLKS_PER_PLN c * (KB 32 + 1) ∧
    let '(s, pcie, wbuf) := ssd_init sp cpu in
    timing_ok (s, Env pcie wbuf 0) ∧
    ∀ p, ppa_in sp p → get_blk s p = Some (ssd_init_nand_blk sp).
Proof.
  intros Hc Hcap. destruct (init_params_layout c capacity Hc Hcap) as (sp & Heq & Hsp & Hb & _ & Hpg).
  exists sp. split_and!; try done; [by rewrite (so_lines _ Hsp)|lia|lia|].
  pose proof (ssd_init_timing sp cpu 0 Hsp) as Ht.
  pose proof (λ p, ssd_init_blk sp cpu p Hsp) as Hblk.
  destruct (ssd_init sp cpu) as [[s pcie] wbuf]. by split.
Qed.

Lemma ssd_init_ok_witness :
  ∃ sp, ssd_init_params SAMSUNG_FDP (MB 64) 4 = Ok sp ∧ sp_ok sp ∧ tt_lines sp = 128 ∧
    MB 64 / 4 ≤ tt_pgs sp * pgsz sp < MB 64 / 4 + 4 * 128 * (KB 32 + 1) ∧
    let '(s, pcie, wbuf) := ssd_init sp 0 in
    timing_ok (s, Env pcie wbuf 0) ∧
    ∀ p, ppa_in sp p → get_blk s p = Some (ssd_init_nand_blk sp).
Proof. apply (ssd_init_ok SAMSUNG_FDP (MB 64) 0); [apply samsung_fdp_layout|by vm_compute]. Defined.

(** A NAND command on an address of the device never faults, changes only
    timing state (no block, page or buffer), and, as long as the 64-bit times do
    not wrap, completes no earlier than it was issued and than its LUN becomes
    idle. *)
Theorem ssd_advance_nand_ok {CK : Clock} ncmd se :
  (∀ n, 0 ≤ cpu_clock n) → timing_ok se → ppa_in (ssd_sp (fst se)) (ncmd_ppa ncmd) → 0 ≤ ncmd_stime ncmd →
  (ncmd_cmd ncmd = NAND_READ → 0 < ncmd_xfer_size ncmd) →
  wp (ssd_advance_nand ncmd) se (λ t se', timing_ok se' ∧ same_nand (fst se) (fst se') ∧
    env_wbuf (snd se') = env_wbuf (snd se) ∧
    ∀ l, get_lun (fst se) (ncmd_ppa ncmd) = Some l →
      Z.max (lun_next_lun_avail_time l) (ncmd_stime ncmd)
        + Z.max 4 (ncmd_xfer_size ncmd + 1) * 2 ^ 34 < TIME_BOUND →
      ncmd_stime ncmd ≠ 0 → Z.max (lun_next_lun_avail_time l) (ncmd_stime ncmd) ≤ t).
Proof.
  intros Hck Ht Hp Hs Hx. eapply wp_mono; [by apply wp_advance_nand|].
  intros t se' ((? & ? & ?) & _ & ?). by split_and!.
Qed.

(** A new device of 64 MiB, for concrete runs. *)
Lemma small_device : ∃ sp s pcie wbuf,
  ssd_init_params SAMSUNG_FDP (MB 64) 4 = Ok sp ∧ ssd_init sp 0 = (s, pcie, wbuf) ∧
  timing_ok (s, Env pcie wbuf 0) ∧ ppa_in (ssd_sp s) (Ppa 0 0 0 0 0 0).
Proof.
  destruct (init_params_layout SAMSUNG_FDP (MB 64) samsung_fdp_layout) as (sp & Heq & Hsp & _);
    [by vm_compute|].
  pose proof (ssd_init_timing sp 0 0 Hsp) as Ht. exists sp.
  destruct (ssd_init sp 0) as [[s pcie] wbuf] eqn:E. exists s, pcie, wbuf. split_and!; try done.
  assert (ssd_sp s = sp) as -> by by injection E as <- <- <-.
  pose proof (so_nchs _ Hsp). pose proof (so_luns _ Hsp). pose proof (so_blks _ Hsp).
  pose proof (so_ppb _ Hsp). split; simpl; lia.
Qed.

Lemma ssd_advance_nand_ok_witness :
  ∃ se, timing_ok se ∧
    wp (ssd_advance_nand (H := still_clock)
          (NandCmd USER_IO NAND_READ 4096 100 true (Ppa 0 0 0 0 0 0))) se
      (λ t se', timing_ok se' ∧ same_nand (fst se) (fst se') ∧
        env_wbuf (snd se') = env_wbuf (snd se) ∧
        ∀ l, get_lun (fst se) (Ppa 0 0 0 0 0 0) = Some l →
          Z.max (lun_next_lun_avail_time l) 100 + Z.max 4 (4096 + 1) * 2 ^ 34 < TIME_BOUND →
          100 ≠ 0 → Z.max (lun_next_lun_avail_time l) 100 ≤ t).
Proof.
  destruct small_device as (sp & s & pcie & wbuf & _ & _ & Ht & Hp). exists (s, Env pcie wbuf 0).
  split; [exact Ht|].
  apply (@ssd_advance_nand_ok still_clock
    (NandCmd USER_IO NAND_READ 4096 100 true (Ppa 0 0 0 0 0 0)) (s, Env pcie wbuf 0));
    [done|exact Ht|exact Hp|done|done].
Defined.

(** ** FDP events, log pages and features (src/fdp_ftl.c) *)

(** C39: the event ring is a bounded queue of the newest events: after any series
    of emissions it holds, newest first, the last 63 of the emitted events whose
    type is enabled, on top of what it held, each with the fields it was emitted
    with and the time it was emitted at; the counters and usage attributes do
    not change. *)
Theorem fdp_event_ring_ok {LC : LocalClock} es c n :
  ctx_wf c → Forall emission_ok es →
  wp (emit_all es) (c, n) (λ _ '(c', _), ctx_wf c' ∧ same_counters c c' ∧
    recent c' = take (Z.to_nat FDP_NR_EVENTS) (recorded (fx_events c) n es (recent c))).
Proof. apply wp_emit_all. Qed.

(** Two emissions, of which the second has an enabled type. *)
Definition two_emissions : list emission := [(0, 1, 5, 1); (3, 3, 9, 1)].
Definition one_enabled : fdp_ctx := fdp_init_ctx [(0, false); (3, true); (129, false)] 1048576.

Lemma fdp_event_ring_ok_witness :
  wp (emit_all (H := still_local_clock) two_emissions) (one_enabled, 7) (λ _ '(c', _),
    ctx_wf c' ∧ same_counters one_enabled c' ∧ recent c' = [FdpEvent 3 3 9 0 1]).
Proof.
  apply (@fdp_event_ring_ok still_local_clock two_emissions one_enabled 7).
  - by apply fdp_init_ctx_wf.
  - repeat constructor; lia.
Defined.

(** C40: every log page can be built from any well-formed state, within its
    page-sized buffer, and decodes to that state: the write statistics, the usage
    attribute of each handle, the recorded events newest first, and a
    configuration page with one reclaim group, eight handles and the reclaim unit
    size. *)
Theorem fdp_log_pages_ok c :
  ctx_wf c →
  wp (fdp_log c NVME_LOG_FDP_STATS) (anew PAGE_SIZE 0) (λ _ log, alen log = PAGE_SIZE ∧
    load_le log 0 8 = fx_hbmw c ∧ load_le log 16 8 = fx_mbmw c ∧ load_le log 32 8 = fx_mbe c) ∧
  wp (fdp_log c NVME_LOG_FDP_RUH_USAGE) (anew PAGE_SIZE 0) (λ _ log, alen log = PAGE_SIZE ∧
    load_le log 0 2 = FDP_NR_RUH ∧
    ∀ i a, aget (fx_ruh_attr c) i = Some a → load_le log (8 + i * 8) 1 = a) ∧
  wp (fdp_log c NVME_LOG_FDP_EVENTS) (anew PAGE_SIZE 0) (λ _ log, alen log = PAGE_SIZE ∧
    load_le log 0 4 = fx_nr_events c ∧
    map (λ i, event_of log (64 + i * 64)) (seqZ 0 (fx_nr_events c)) = recent c) ∧
  wp (fdp_log c NVME_LOG_FDP_CONFIGS) (anew PAGE_SIZE 0) (λ _ log, alen log = PAGE_SIZE ∧
    load_le log 20 4 = FDP_NR_RG ∧ load_le log 24 2 = FDP_NR_RUH ∧ load_le log 32 8 = fx_runs c).
Proof.
  intros Hc. split_and!.
  - eapply wp_mono; [by apply log_stats_spec|]. naive_solver.
  - by apply log_ruh_usage_spec.
  - by apply log_events_spec.
  - eapply wp_mono; [by apply log_configs_spec|]. naive_solver.
Qed.

Lemma fdp_log_pages_ok_witness :
  wp (fdp_log one_enabled NVME_LOG_FDP_CONFIGS) (anew PAGE_SIZE 0) (λ _ log, alen log = PAGE_SIZE ∧
    load_le log 20 4 = 1 ∧ load_le log 24 2 = 8 ∧ load_le log 32 8 = 1048576).
Proof. apply (fdp_log_pages_ok one_enabled). by apply fdp_init_ctx_wf. Defined.

(** The first entry of a type is the only one when the types are distinct. *)
Lemma event_enabled_lookup events k t e :
  NoDup (fst <$> events) → events !! k = Some (t, e) → event_enabled events t = e.
Proof.
  revert k. induction events as [|[t0 e0] events IH]; intros k Hnd Hk; [done|].
  apply NoDup_cons in Hnd as [Hni Hnd]. simpl. destruct k as [|k]; simpl in Hk.
  - injection Hk as -> ->. by rewrite Z.eqb_refl.
  - destruct (Z.eqb_spec t0 t) as [->|_]; [|by eapply IH]. destruct Hni.
    apply list_elem_of_fmap. exists (t, e). split; [done|]. by eapply list_elem_of_lookup_2.
Qed.

(** Set Features followed by Get Features on the FDP-events feature: the
    descriptors that come back name the supported types, in their order, each
    with the enable bit of the last supplied descriptor that names it, or the bit
    it had before when none does.  The number of descriptors applied is bits 23:16
    of dword 11. *)
Theorem fdp_feature_events_roundtrip c dw11 desc buf :
  NoDup (fst <$> fx_events c) → Forall (λ te, 0 ≤ fst te < 2 ^ 8) (fx_events c) →
  2 * noet_of dw11 ≤ alen desc → 2 * Z.of_nat (length (fx_events c)) ≤ alen buf →
  ∃ c' r buf', fdp_set_feature_events c dw11 (Some desc) = Ok (c', r) ∧
    fdp_get_feature_events c' dw11 (Some buf) = Ok (Z.of_nat (length (fx_events c)), Some buf') ∧
    noet_of dw11 = (dw11 / 2 ^ 16) mod 2 ^ 8 ∧
    ∀ k t e, fx_events c !! k = Some (t, e) →
      aget buf' (2 * Z.of_nat k) = Some t ∧
      aget buf' (2 * Z.of_nat k + 1) =
        Some (Z.b2z (foldl (desc_enable desc true t) e (seqZ 0 (noet_of dw11)))).
Proof.
  intros Hnd Hr Hd Hb. destruct (set_feature_events_spec c dw11 desc Hd) as (events & r & Hset & Hty & Hen).
  assert (length events = length (fx_events c)) as Hlen
    by (rewrite <- (length_fmap fst events), Hty; apply length_fmap).
  pose proof (wp_store_event_descs events 0 buf) as Hw.
  apply wp_Ok in Hw as ([] & buf' & Hbuf & _ & _ & Hget); [|lia|lia|].
  2:{ apply (Forall_fmap fst (λ t, 0 ≤ t < 2 ^ 8)). rewrite Hty. by apply Forall_fmap. }
  exists (set_events c events), r, buf'. split_and!; [done| |apply noet_of_eq|].
  { unfold fdp_get_feature_events. simpl. by rewrite Hbuf, Hlen. }
  intros k t e Hk.
  assert ((fst <$> events) !! k = Some t) as Ht by by rewrite Hty, list_lookup_fmap, Hk.
  rewrite list_lookup_fmap in Ht. destruct (events !! k) as [[t' e']|] eqn:Hk'; [|done].
  injection Ht as ->. destruct (Hget k t e' Hk') as [H1 H2]. rewrite Z.add_0_l in H1, H2.
  split; [done|]. rewrite H2. do 2 f_equal.
  rewrite <- (event_enabled_lookup events k t e'), Hen by (by rewrite ?Hty || done).
  rewrite (event_enabled_lookup _ _ _ _ Hnd Hk). f_equal. f_equal.
  unfold known. apply existsb_exists. exists (t, e). split; [|simpl; lia].
  apply list_elem_of_In. by eapply list_elem_of_lookup_2.
Qed.

Lemma fdp_feature_events_roundtrip_witness :
  let desc := aset (aset (anew 8 0) 0 3) 1 0 in
  ∃ c' r buf', fdp_set_feature_events one_enabled 65536 (Some desc) = Ok (c', r) ∧
    fdp_get_feature_events c' 65536 (Some (anew 8 0)) = Ok (3, Some buf') ∧
    noet_of 65536 = 1 ∧
    ∀ k t e, fx_events one_enabled !! k = Some (t, e) →
      aget buf' (2 * Z.of_nat k) = Some t ∧
      aget buf' (2 * Z.of_nat k + 1) =
        Some (Z.b2z (foldl (desc_enable desc true t) e (seqZ 0 (noet_of 65536)))).
Proof.
  intros desc. apply (fdp_feature_events_roundtrip one_enabled 65536 desc (anew 8 0)).
  - by apply (bool_decide_unpack _).
  - repeat constructor; simpl; lia.
  - by vm_compute.
  - by vm_compute.
Defined.
