(* ===== verification/FdpSpec.v ===== *)
(** * Properties of the FDP device

    What the host may rely on, for every state the device can get into: the
    states reachable from initialisation by I/O commands, feature commands and
    releases of buffer space, in any order. *)

From stdpp Require Import base numbers list gmap relations.
From S2P Require Import Prelude Config Pqueue ChannelModel Ssd Nvme FdpLog FdpFtl FdpGeom FdpInv FdpOps FdpAdvance FdpGc FdpWrite FdpInit FdpIo CoreSpec.

#[local] Open Scope Z_scope.

(** The device has the handles of the configuration. *)
#[export] Existing Instance fdp_handles | 100.

(** ** The device as a state machine *)

Definition set_wbuf (b : buffer) (sh : shared) : shared :=
  Shared (Env (env_pcie (sh_env sh)) b (env_ticks (sh_env sh))) (sh_ctx sh) (sh_ops sh).
Definition set_ctx (c : fdp_ctx) (sh : shared) : shared :=
  Shared (sh_env sh) (c, (sh_ctx sh).2) (sh_ops sh).

Section device.
Context `{CK : !Clock} `{LC : !LocalClock}.
Context (c : ssd_config) (size : Z) (sp : ssdparams) (L : Z).

(** The states of a namespace [ns] of a new device of [size] bytes, with the
    handle each logical page was last written with.  The host keeps to the first
    [L] logical pages of every partition. *)
Inductive reachable (ns : nvmev_ns) : nsstate → (Z → Z) → Prop :=
| reach_init events f0 id cpu ticks lticks st gtag :
    fdp_init_namespace c events f0 id size cpu ticks lticks = Ok (st, ns) →
    reachable ns st gtag
| reach_cmd st gtag req ret r st' :
    reachable ns st gtag → cmd_ok L sp c ns (env_wbuf (sh_env (snd st))) req →
    fdp_proc_nvme_io_cmd c ns req ret st = Ok (r, st') →
    reachable ns st' (cmd_tag sp c (ns_nr_parts ns) req st gtag)
| reach_feature fs sh gtag dw11 buf x r :
    reachable ns (fs, sh) gtag →
    fdp_set_feature_events (sh_ctx sh).1 dw11 buf = Ok (x, r) →
    reachable ns (fs, set_ctx x sh) gtag
| reach_release fs sh gtag bytes b :
    reachable ns (fs, sh) gtag → 0 ≤ bytes →
    buf_remaining (env_wbuf (sh_env sh)) + bytes ≤ buf_size (env_wbuf (sh_env sh)) →
    buffer_release bytes (env_wbuf (sh_env sh)) = Ok (true, b) →
    reachable ns (fs, set_wbuf b sh) gtag.

Hypothesis clock_range : ∀ n, 0 ≤ cpu_clock n.
Hypothesis layout : conv_layout c.
Hypothesis partitions : SSD_PARTITIONS c = 4.
Hypothesis buffer_range : 0 ≤ GLOBAL_WB_SIZE c < 2 ^ 32.
Hypothesis size_range : 4 ≤ size ≤ BLKS_PER_PLN c * 2 ^ 31.
Hypothesis params : ssd_init_params c size 4 = Ok sp.
Hypothesis limit : 0 ≤ L < (tt_lines sp - 2 * NR_WP) * pgs_per_line sp.

Lemma set_feature_wf x dw11 buf x' r :
  ctx_wf x → fdp_set_feature_events x dw11 buf = Ok (x', r) → ctx_wf x'.
Proof using.
  intros Hx. unfold fdp_set_feature_events. destruct buf as [desc|]; [|by intros [= <- _]].
  destruct (apply_event_descs _ _ _ _) as [[ev n]|]; [|done]. intros [= <- _]. destruct Hx. by split.
Qed.

Lemma reachable_inv ns st gtag :
  reachable ns st gtag → ns_nr_parts ns = 4 ∧ ns_csi ns = 0 ∧ ns_inv L sp 4 gtag st.
Proof using clock_range layout partitions buffer_range size_range params limit.
  induction 1 as [events f0 id cpu ticks lticks st gtag Hinit|st gtag req ret r st' _ IH Hok Hrun
    |fs sh gtag dw11 buf x r _ IH Hset|fs sh gtag bytes b _ IH Hb Hsz Hrel].
  - destruct (fdp_init_namespace_ok c events f0 id size cpu ticks lticks L gtag) as (sp' & Hsp' & Hns);
      try done. assert (sp' = sp) as -> by congruence.
    destruct (Hns limit) as (st' & ns' & Heq & Hinv & Hn & Hcsi & _).
    rewrite Hinit in Heq. by injection Heq as -> ->.
  - destruct IH as (Hn & Hcsi & Hinv). rewrite Hn. split_and!; [done|done|]. rewrite <- Hn in Hinv |- *.
    pose proof (wp_proc_cmd clock_range L sp c ns gtag req ret st Hinv Hok) as Hw.
    unfold wp in Hw. rewrite Hrun in Hw. apply Hw.
  - destruct IH as (Hn & Hcsi & Hinv). split_and!; [done|done|].
    eapply ns_inv_shared; [exact Hinv|apply Hinv| |apply Hinv].
    eapply set_feature_wf; [|exact Hset]. apply (ni_ctx _ _ _ _ _ Hinv).
  - destruct IH as (Hn & Hcsi & Hinv). split_and!; [done|done|].
    injection Hrel as <-. pose proof (ni_wbuf _ _ _ _ _ Hinv) as [Hr Hm]. simpl in Hr, Hm, Hsz.
    eapply ns_inv_shared; [exact Hinv|apply Hinv|apply Hinv|].
    unfold buffer_ok. simpl. rewrite u64_small by lia. split; lia.
Qed.

(** A partition of a reachable state. *)
Lemma reachable_part ns st gtag i f :
  reachable ns st gtag → aget (fst st) i = Some f →
  wr_inv L (λ k, gtag (k * 4 + i)) (f, snd st) ∧ fsp f = sp ∧ finv None (λ _, False) None None f.
Proof using clock_range layout partitions buffer_range size_range params limit.
  intros Hr Hf. destruct (reachable_inv ns st gtag Hr) as (_ & _ & Hinv).
  destruct (ni_part _ _ _ _ _ Hinv i f Hf) as [Hw Hs]. split_and!; [done|done|].
  apply (wi_inv _ _ _ Hw).
Qed.

(** C1: the device never crashes: in every reachable state, every command the
    host may send is carried out without a failed assertion, an access outside
    an array, a null dereference or an endless loop, as long as the host keeps to
    fewer logical pages per partition than there are pages outside 18 of its
    lines. *)
Theorem fdp_device_never_fails ns st gtag req ret :
  reachable ns st gtag → cmd_ok L sp c ns (env_wbuf (sh_env (snd st))) req →
  ∃ r st', fdp_proc_nvme_io_cmd c ns req ret st = Ok (r, st') ∧
    reachable ns st' (cmd_tag sp c (ns_nr_parts ns) req st gtag) ∧
    ∀ k, 0 ≤ k → ns_mapped 4 st k = true → ns_mapped 4 st' k = true.
Proof using clock_range layout partitions buffer_range size_range params limit.
  intros Hr Hok. destruct (reachable_inv ns st gtag Hr) as (Hn & _ & Hinv). rewrite <- Hn in Hinv.
  pose proof (wp_proc_cmd clock_range L sp c ns gtag req ret st Hinv Hok) as Hw.
  apply wp_Ok in Hw as (r & st' & Heq & _ & _ & Hm). exists r, st'. rewrite <- Hn.
  split_and!; [done| |done]. by eapply reach_cmd.
Qed.

(** C2: in every reachable state the map and the NAND agree: every mapped logical
    page of a partition is at a valid page of the device that belongs to no other
    logical page, and the reverse map leads back to it; and every valid page of
    the device is the current copy of some logical page. *)
Theorem fdp_mapping_bijective ns st gtag i f :
  reachable ns st gtag → aget (fst st) i = Some f →
  (∀ lpn p, aget (ftl_maptbl f) lpn = Some p → mapped_ppa p = true →
     ppa_in sp p ∧ pstatus (ftl_ssd f) p = Some PG_VALID ∧
     aget (ftl_rmap f) (pgidx sp p) = Some lpn ∧
     ∀ lpn', aget (ftl_maptbl f) lpn' = Some p → lpn' = lpn) ∧
  (∀ p, ppa_in sp p → pstatus (ftl_ssd f) p = Some PG_VALID →
     ∃ lpn, aget (ftl_rmap f) (pgidx sp p) = Some lpn ∧ aget (ftl_maptbl f) lpn = Some p).
Proof using clock_range layout partitions buffer_range size_range params limit.
  intros Hr Hf. destruct (reachable_part ns st gtag i f Hr Hf) as (_ & <- & Hi). by apply finv_bijective.
Qed.

(** C3: placement isolation: in every reachable state the data of a logical page
    is in a reclaim unit that belongs to the handle the page was last written
    with, or in one the garbage collector filled; never in a unit of another
    handle. *)
Theorem fdp_placement_isolated ns st gtag i f lpn p x :
  reachable ns st gtag → aget (fst st) i = Some f →
  aget (ftl_maptbl f) lpn = Some p → mapped_ppa p = true →
  aget (lm_lines (ftl_lm f)) (g_blk p) = Some x →
  ln_ruh x = -1 ∨ ln_ruh x = gtag (lpn * 4 + i).
Proof using clock_range layout partitions buffer_range size_range params limit.
  intros Hr Hf. destruct (reachable_part ns st gtag i f Hr Hf) as (Hw & _ & _).
  apply (wi_isolated _ _ _ Hw).
Qed.

(** C4: line accounting: in every reachable state each line is in exactly one of
    the free list, the victim queue, the full list and the nine open lines; the
    counters are the lengths of the lists; a line's valid and invalid counts are
    the numbers of its pages in these states; and more than nine lines' worth of
    free pages remain. *)
Theorem fdp_lines_accounted ns st gtag i f :
  reachable ns st gtag → aget (fst st) i = Some f →
  let m := ftl_lm f in
  (∀ l, occ l (lm_free_line_list m) + pmem (lm_victim_line_pq m) l + occ l (lm_full_line_list m)
        + opened f l = Z.b2z (in_range (tt_lines sp) l)) ∧
  lm_free_line_cnt m + lm_victim_line_cnt m + lm_full_line_cnt m + NR_WP = tt_lines sp ∧
  pq_wf (lm_victim_line_pq m) (lm_lines m) ∧
  (∀ l x, aget (lm_lines m) l = Some x →
     ln_vpc x = lcnt sp (ftl_ssd f) l PG_VALID ∧ ln_ipc x = lcnt sp (ftl_ssd f) l PG_INVALID) ∧
  NR_WP * pgs_per_line sp < room f.
Proof using clock_range layout partitions buffer_range size_range params limit.
  intros Hr Hf m. destruct (reachable_part ns st gtag i f Hr Hf) as (Hw & Hs & Hi).
  destruct (finv_accounted f Hi) as (A1 & A2 & A3). pose proof (line_census f (fi_base _ _ _ _ _ Hi)) as Hcen.
  pose proof (wi_margin _ _ _ Hw) as Hmg. pose proof (wi_credits _ _ _ Hw) as Hcr. simpl in Hmg, Hcr.
  rewrite Hs in A1, A3, Hcen, Hmg, Hcr. split_and!; try done. lia.
Qed.
End device.

(** ** A small device, for concrete runs: 64 MiB, one written page *)

Definition unset_ftl (sp : ssdparams) : fdp_ftl :=
  FdpFtl (ssd_init sp 0).1.1 (fdp_init_params SAMSUNG_FDP) (anew 0 (ppa_of 0)) (anew 0 0)
    (anew NR_RUH unset_wp) unset_wp (LineMgmt (anew 0 (FdpLine 0 0 0 0 0)) [] (pqueue_init 0) [] 0 0 0 0)
    (WriteFlowControl 0 0).

(** A write of the first logical page with placement identifier 3. *)
Definition write_page_0 : nvmev_request := Request (RwCmd nvme_cmd_write 1 0 7 32 (3 * 65536)) 1 0.
Definition read_page_0 : nvmev_request := Request (RwCmd nvme_cmd_read 1 0 7 0 0) 1 0.

Lemma small_params : ∃ sp, ssd_init_params SAMSUNG_FDP (MB 64) 4 = Ok sp ∧
  tt_lines sp = 128 ∧ pgs_per_line sp = 32 ∧ tt_pgs sp = 4096 ∧ secs_per_pg sp = 8.
Proof. eexists. split; [vm_compute; reflexivity|]. by vm_compute. Qed.

Lemma small_new : ∃ sp st ns, ssd_init_params SAMSUNG_FDP (MB 64) 4 = Ok sp ∧
  0 ≤ 3519 < (tt_lines sp - 2 * NR_WP) * pgs_per_line sp ∧ tt_pgs sp = 4096 ∧ secs_per_pg sp = 8 ∧
  fdp_init_namespace SAMSUNG_FDP events_initial (unset_ftl sp) 0 (MB 64) 0 0 0 = Ok (st, ns) ∧
  ns_inv 3519 sp 4 (λ _, 0) st ∧ ns_nr_parts ns = 4 ∧ ns_csi ns = 0 ∧
  env_wbuf (sh_env (snd st)) = buffer_init (MB 256).
Proof.
  destruct small_params as (sp & Hsp & H1 & H2 & H3 & H4).
  destruct (fdp_init_namespace_ok SAMSUNG_FDP events_initial (unset_ftl sp) 0 (MB 64) 0 0 0 3519 (λ _, 0)
    samsung_fdp_layout) as (sp' & Hsp' & Hns); [done|by vm_compute|by vm_compute|].
  assert (sp' = sp) as -> by congruence.
  assert (0 ≤ 3519 < (tt_lines sp - 2 * NR_WP) * pgs_per_line sp) as HL by (rewrite H1, H2; by vm_compute).
  destruct (Hns HL) as (st & ns & Heq & Hinv & Hn & Hc & Hb & _). exists sp, st, ns.
  do 8 (split; [assumption|]). exact Hb.
Qed.

Lemma page_0_ok sp ns b :
  tt_pgs sp = 4096 → secs_per_pg sp = 8 → ns_nr_parts ns = 4 → ns_csi ns = 0 → buf_size b = MB 256 →
  cmd_ok 3519 sp SAMSUNG_FDP ns b write_page_0 ∧ cmd_ok 3519 sp SAMSUNG_FDP ns b read_page_0.
Proof.
  intros H1 H2 H3 H4 H5. split; split; try done; cbn -[xfer_bytes last_lpn].
  split; simpl; try done.
  - left. unfold last_lpn. rewrite H2, H3. by vm_compute.
  - rewrite H5. by vm_compute.
Qed.

Lemma page_0_lpns sp :
  secs_per_pg sp = 8 → first_lpn sp (req_cmd write_page_0) = 0 ∧ last_lpn sp (req_cmd write_page_0) = 0.
Proof. intros H. unfold first_lpn, last_lpn. rewrite H. split; reflexivity. Qed.

Lemma page_0_tag sp st gtag :
  tt_pgs sp = 4096 → secs_per_pg sp = 8 → env_wbuf (sh_env (snd st)) = buffer_init (MB 256) →
  cmd_tag sp SAMSUNG_FDP 4 write_page_0 st gtag = retag 0 1 3 gtag.
Proof.
  intros H1 H2 H3. destruct (page_0_lpns sp H2) as [Ef El]. unfold cmd_tag. rewrite Ef, El, H1, H3. reflexivity.
Qed.

(** A mapped logical page has a physical page on a line. *)
Lemma mapped_page L sp n gtag st lpn :
  ns_inv L sp n gtag st → ns_mapped n st lpn = true →
  ∃ f p x, aget (fst st) (lpn mod n) = Some f ∧ aget (ftl_maptbl f) (lpn / n) = Some p ∧
    mapped_ppa p = true ∧ aget (lm_lines (ftl_lm f)) (g_blk p) = Some x.
Proof.
  intros Hinv. unfold ns_mapped. destruct (aget (fst st) (lpn mod n)) as [f|] eqn:Hf; [|done].
  unfold mapped_at. destruct (aget (ftl_maptbl f) (lpn / n)) as [p|] eqn:Hp; [|done]. intros Hmp.
  destruct (ni_part _ _ _ _ _ Hinv _ f Hf) as [[[[Hfb Hm] _] _ _ _ _ _ _ _] Hs]. simpl in Hfb, Hm.
  assert (p ≠ ppa_of UNMAPPED_PPA) as Hu by (intros ->; by rewrite mapped_ppa_unmapped in Hmp).
  destruct (mo_fwd _ _ _ _ _ _ Hm _ p Hp ltac:(done) Hu) as (Hin & _).
  destruct (aget_some (lm_lines (ftl_lm f)) (g_blk p)) as [x Hx].
  { rewrite (lo_len _ _ _ _ (fb_lines _ _ _ Hfb)). apply Hin. }
  by exists f, p, x.
Qed.

Lemma small_written : ∃ sp st ns, ssd_init_params SAMSUNG_FDP (MB 64) 4 = Ok sp ∧
  0 ≤ 3519 < (tt_lines sp - 2 * NR_WP) * pgs_per_line sp ∧
  reachable (CK := still_clock) (LC := still_local_clock) SAMSUNG_FDP (MB 64) sp 3519 ns st
    (retag 0 1 3 (λ _, 0)) ∧
  cmd_ok 3519 sp SAMSUNG_FDP ns (env_wbuf (sh_env (snd st))) read_page_0 ∧
  ∃ f p x, aget (fst st) 0 = Some f ∧ aget (ftl_maptbl f) 0 = Some p ∧ mapped_ppa p = true ∧
    aget (lm_lines (ftl_lm f)) (g_blk p) = Some x.
Proof.
  destruct small_new as (sp & st & ns & Hsp & HL & Hpg & Hsec & Hinit & Hinv & Hn & Hc & Hb).
  destruct (page_0_ok sp ns (env_wbuf (sh_env (snd st)))) as [Hw Hr]; [done..|by rewrite Hb|].
  pose proof (@reach_init still_clock still_local_clock SAMSUNG_FDP (MB 64) sp 3519 ns events_initial (unset_ftl sp)
    0 0 0 0 st (λ _, 0) Hinit) as Hreach.
  rewrite <- Hn in Hinv.
  pose proof (@wp_fdp_write fdp_handles still_clock still_local_clock ltac:(done) 3519 sp SAMSUNG_FDP ns (λ _, 0)
    write_page_0 (Result 0 0 0) st Hinv (proj2 Hw)) as Hwp.
  apply wp_Ok in Hwp as (r & st' & Heq & Hout). unfold write_outcome in Hout. cbv zeta in Hout.
  destruct (page_0_lpns sp Hsec) as [Ef El].
  rewrite El, Hpg, Hn, Hb in Hout. change (4096 <=? 0 / 4) with false in Hout.
  change (placement (req_cmd write_page_0)) with (Some 3) in Hout.
  change (buf_remaining (buffer_init (MB 256)) <? xfer_bytes SAMSUNG_FDP (req_cmd write_page_0)) with false in Hout.
  destruct Hout as (_ & _ & [Dinv Dmap Dsz _ _]). rewrite Ef, El in Dinv, Dmap.
  exists sp, st', ns. split; [exact Hsp|]. split; [exact HL|]. split; [|split].
  - assert (fdp_proc_nvme_io_cmd (H := still_clock) (H0 := still_local_clock) SAMSUNG_FDP ns write_page_0 (Result 0 0 0) st
      = Ok (r, st')) as Hrun by (unfold fdp_proc_nvme_io_cmd; by rewrite Hc).
    pose proof (reach_cmd _ _ _ _ _ _ _ _ _ _ _ Hreach Hw Hrun) as Hr'.
    rewrite Hn, (page_0_tag sp st _ Hpg Hsec Hb) in Hr'. exact Hr'.
  - apply page_0_ok; [assumption..|]. rewrite Dsz, Hb. reflexivity.
  - apply (mapped_page 3519 sp 4 (retag 0 1 3 (λ _, 0)) st' 0); [exact Dinv|].
    rewrite (Dmap 0 (Z.le_refl 0)). reflexivity.
Qed.

Lemma fdp_device_never_fails_witness :
  ∃ sp ns st r st', fdp_proc_nvme_io_cmd (H := still_clock) (H0 := still_local_clock) SAMSUNG_FDP ns read_page_0
      (Result 0 0 0) st = Ok (r, st') ∧
    reachable (CK := still_clock) (LC := still_local_clock) SAMSUNG_FDP (MB 64) sp 3519 ns st'
      (cmd_tag sp SAMSUNG_FDP (ns_nr_parts ns) read_page_0 st (retag 0 1 3 (λ _, 0))) ∧
    ∀ k, 0 ≤ k → ns_mapped 4 st k = true → ns_mapped 4 st' k = true.
Proof.
  destruct small_written as (sp & st & ns & Hsp & HL & Hr & Hok & _). exists sp, ns, st.
  apply (@fdp_device_never_fails still_clock still_local_clock SAMSUNG_FDP (MB 64) sp 3519 (λ _, Z.le_refl 0)
    samsung_fdp_layout eq_refl); [by vm_compute|by vm_compute|exact Hsp|exact HL|exact Hr|exact Hok].
Defined.

Lemma fdp_mapping_bijective_witness :
  ∃ sp f p, aget (ftl_maptbl f) 0 = Some p ∧ mapped_ppa p = true ∧ ppa_in sp p ∧
    pstatus (ftl_ssd f) p = Some PG_VALID ∧ aget (ftl_rmap f) (pgidx sp p) = Some 0 ∧
    ∀ lpn', aget (ftl_maptbl f) lpn' = Some p → lpn' = 0.
Proof.
  destruct small_written as (sp & st & ns & Hsp & HL & Hr & _ & f & p & x & Hf & Hp & Hm & _).
  exists sp, f, p. split; [exact Hp|]. split; [exact Hm|].
  apply (@fdp_mapping_bijective still_clock still_local_clock SAMSUNG_FDP (MB 64) sp 3519 (λ _, Z.le_refl 0)
    samsung_fdp_layout eq_refl ltac:(by vm_compute) ltac:(by vm_compute) Hsp HL ns st _ 0 f Hr Hf); assumption.
Defined.

Lemma fdp_placement_isolated_witness :
  ∃ f p x, aget (ftl_maptbl f) 0 = Some p ∧ mapped_ppa p = true ∧
    aget (lm_lines (ftl_lm f)) (g_blk p) = Some x ∧ (ln_ruh x = -1 ∨ ln_ruh x = 3).
Proof.
  destruct small_written as (sp & st & ns & Hsp & HL & Hr & _ & f & p & x & Hf & Hp & Hm & Hx).
  exists f, p, x. do 3 (split; [assumption|]).
  apply (@fdp_placement_isolated still_clock still_local_clock SAMSUNG_FDP (MB 64) sp 3519 (λ _, Z.le_refl 0)
    samsung_fdp_layout eq_refl ltac:(by vm_compute) ltac:(by vm_compute) Hsp HL ns st _ 0 f 0 p x Hr Hf); assumption.
Defined.

Lemma fdp_lines_accounted_witness :
  ∃ sp f, tt_lines sp = 128 ∧
    lm_free_line_cnt (ftl_lm f) + lm_victim_line_cnt (ftl_lm f) + lm_full_line_cnt (ftl_lm f) + NR_WP = tt_lines sp.
Proof.
  destruct small_written as (sp & st & ns & Hsp & HL & Hr & _ & f & p & x & Hf & _).
  exists sp, f. split; [destruct small_params as (sp' & E & H & _); rewrite Hsp in E; injection E as ->; exact H|].
  apply (@fdp_lines_accounted still_clock still_local_clock SAMSUNG_FDP (MB 64) sp 3519 (λ _, Z.le_refl 0)
    samsung_fdp_layout eq_refl ltac:(by vm_compute) ltac:(by vm_compute) Hsp HL ns st _ 0 f Hr Hf).
Defined.
