(* ===== verification/FdpRefine.v ===== *)
(** * What an FDP namespace promises, and that it keeps it

    [ns_spec] is the namespace as the host sees it: the handle each logical page
    was last written with (nothing for a page never written), the free space of
    the write buffer and the count of host bytes written.  [spec_cmd] says what a
    command answers and how it changes that view; lines, garbage collection and
    time do not occur in it.  The refinement theorem says that every session of
    the real handlers answers as [spec_cmd] does. *)

From stdpp Require Import base numbers list gmap relations.
From S2P Require Import Prelude Config Pqueue ChannelModel Ssd Nvme FdpLog FdpFtl FdpGeom FdpInv FdpOps FdpAdvance FdpGc FdpWrite FdpInit FdpIo CoreSpec FdpSpec.

#[local] Open Scope Z_scope.

Section handles.
Context `{NH : !Handles}.

Record ns_spec : Type := NsSpec {
  sx_handle : Z → option Z;
  sx_buffer : Z;
  sx_host_bytes : Z;
}.

(** The pages [a .. b - 1] written with [ruh]. *)
Definition spec_written (a b ruh : Z) (m : Z → option Z) (k : Z) : option Z :=
  if (a <=? k) && (k <? b) then Some ruh else m k.

(** An answer: whether the command was accepted, and its status. *)
Definition answer : Type := bool * Z.

Definition spec_write (sp : ssdparams) (n : Z) (c : ssd_config) (cmd : nvme_rw_command) (x : ns_spec)
    : answer * ns_spec :=
  if tt_pgs sp <=? last_lpn sp cmd / n then ((false, NVME_SC_SUCCESS), x)
  else match placement cmd with
  | None => ((true, NVME_SC_INVALID_FIELD), x)
  | Some ruh =>
      if sx_buffer x <? xfer_bytes c cmd then ((false, NVME_SC_SUCCESS), x)
      else ((true, NVME_SC_SUCCESS),
            NsSpec (spec_written (first_lpn sp cmd) (last_lpn sp cmd + 1) ruh (sx_handle x))
              (sx_buffer x - xfer_bytes c cmd) (u64 (sx_host_bytes x + xfer_bytes c cmd)))
  end.

Definition spec_cmd (sp : ssdparams) (n : Z) (c : ssd_config) (req : nvmev_request) (x : ns_spec)
    : answer * ns_spec :=
  let cmd := req_cmd req in
  if rw_opcode cmd =? nvme_cmd_write then spec_write sp n c cmd x
  else if rw_opcode cmd =? nvme_cmd_read then
    ((negb (tt_pgs sp <=? last_lpn sp cmd / n), NVME_SC_SUCCESS), x)
  else ((true, NVME_SC_SUCCESS), x).

Fixpoint spec_session (sp : ssdparams) (n : Z) (c : ssd_config) (reqs : list nvmev_request) (x : ns_spec)
    : list answer * ns_spec :=
  match reqs with
  | [] => ([], x)
  | req :: reqs' =>
      let '(a, x1) := spec_cmd sp n c req x in
      let '(as', x2) := spec_session sp n c reqs' x1 in
      (a :: as', x2)
  end.

(** The abstraction relation. *)
Record refines (L : Z) (sp : ssdparams) (n : Z) (st : nsstate) (x : ns_spec) : Prop := {
  rf_inv : ∃ gtag, ns_inv L sp n gtag st ∧
    ∀ k, 0 ≤ k → sx_handle x k = if ns_mapped n st k then Some (gtag k) else None;
  rf_buffer : sx_buffer x = buf_remaining (env_wbuf (sh_env (snd st)));
  rf_host_bytes : sx_host_bytes x = fx_hbmw (sh_ctx (snd st)).1;
}.

Definition answer_of (r : bool * nvmev_result) : answer := (r.1, ret_status r.2).

(** Only the shared state changed, and of it nothing the host sees. *)
Lemma refines_routed `{!LocalClock} L sp n gtag st st' x cmd :
  ns_inv L sp n gtag st' → (∀ k, 0 ≤ k → sx_handle x k = if ns_mapped n st k then Some (gtag k) else None) →
  sx_buffer x = buf_remaining (env_wbuf (sh_env (snd st))) → sx_host_bytes x = fx_hbmw (sh_ctx (snd st)).1 →
  fst st' = fst st → routed cmd (snd st) (snd st') → refines L sp n st' x.
Proof.
  intros Hinv Hh Hb Hy Hf [R1 _ _ (R2 & _) _ _]. split.
  - exists gtag. split; [done|]. intros k Hk. rewrite Hh by done. destruct st, st'; simpl in *; by subst.
  - by rewrite R1.
  - by rewrite R2.
Qed.

Lemma refines_ticked L sp n gtag st st' x :
  ns_inv L sp n gtag st' → (∀ k, 0 ≤ k → sx_handle x k = if ns_mapped n st k then Some (gtag k) else None) →
  sx_buffer x = buf_remaining (env_wbuf (sh_env (snd st))) → sx_host_bytes x = fx_hbmw (sh_ctx (snd st)).1 →
  ns_ticked n st st' → refines L sp n st' x.
Proof.
  intros Hinv Hh Hb Hy [T1 T2 _ T4]. split; [|by rewrite T4|by rewrite T2].
  exists gtag. split; [done|]. intros k Hk. by rewrite T1, Hh.
Qed.

Section refinement.
Context `{CK : !Clock} `{LC : !LocalClock}.
Context (L : Z) (sp : ssdparams) (c : ssd_config) (ns : nvmev_ns).
Hypothesis clock_range : ∀ n, 0 ≤ cpu_clock n.

Lemma write_refines req st x :
  refines L sp (ns_nr_parts ns) st x →
  write_ok L sp (ns_nr_parts ns) c (env_wbuf (sh_env (snd st))) req →
  wp (fdp_write c ns req (Result 0 0 0)) st (λ r st',
    refines L sp (ns_nr_parts ns) st' (spec_write sp (ns_nr_parts ns) c (req_cmd req) x).2 ∧
    answer_of r = (spec_write sp (ns_nr_parts ns) c (req_cmd req) x).1).
Proof using clock_range.
  intros [(gtag & Hinv & Hh) Hb Hy] Hok. eapply wp_mono; [by apply wp_fdp_write|]. intros r st' Ho.
  unfold write_outcome in Ho. cbv zeta in Ho. unfold spec_write. rewrite Hb.
  destruct (tt_pgs sp <=? _); simpl.
  { destruct Ho as [-> ->]. split; [|done]. split; [by exists gtag|done|done]. }
  destruct (placement (req_cmd req)) as [ruh|]; simpl.
  - destruct (buf_remaining _ <? _); simpl.
    + destruct Ho as (-> & Ef & Hr & Hinv'). split; [|done]. by eapply refines_routed.
    + destruct Ho as (E1 & E2 & [D1 D2 D3 D4 D5]). split; [|unfold answer_of; by rewrite E1, E2].
      split; simpl; [|by rewrite D4|by rewrite D5, Hy]. eexists. split; [exact D1|]. intros k Hk.
      rewrite (D2 k Hk). unfold spec_written, retag. destruct ((_ <=? k) && _); simpl; [done|]. by apply Hh.
  - destruct Ho as (-> & Ef & Hr & Hinv'). split; [|done]. by eapply refines_routed.
Qed.

Lemma cmd_refines req st x :
  refines L sp (ns_nr_parts ns) st x → cmd_ok L sp c ns (env_wbuf (sh_env (snd st))) req →
  wp (fdp_proc_nvme_io_cmd c ns req (Result 0 0 0)) st (λ r st',
    refines L sp (ns_nr_parts ns) st' (spec_cmd sp (ns_nr_parts ns) c req x).2 ∧
    answer_of r = (spec_cmd sp (ns_nr_parts ns) c req x).1).
Proof using clock_range.
  intros Href [Hcsi Hok]. unfold fdp_proc_nvme_io_cmd, spec_cmd. rewrite Hcsi. wp_step. wp_step; [done|].
  destruct (rw_opcode (req_cmd req) =? nvme_cmd_write) eqn:Hw; [by apply write_refines|].
  destruct Href as [(gtag & Hinv & Hh) Hb Hy].
  destruct (rw_opcode (req_cmd req) =? nvme_cmd_read).
  - eapply wp_mono; [by apply wp_fdp_read|]. intros r st' (Hinv' & Ht & Hr). split.
    + by eapply refines_ticked.
    + destruct (tt_pgs sp <=? _); simpl; [by destruct Hr as [-> _]|].
      destruct Hr as (E1 & E2 & _). unfold answer_of. by rewrite E1, E2.
  - destruct (rw_opcode (req_cmd req) =? nvme_cmd_flush).
    + wp_step. eapply wp_mono; [by apply wp_fdp_flush|]. intros r st' (Hinv' & Ht & Es & _). wp_step. split.
      * by eapply refines_ticked.
      * unfold answer_of. simpl. by rewrite Es.
    + wp_step. split; [|done]. split; [by exists gtag|done|done].
Qed.

Lemma cmd_ok_buffer wbuf wbuf' req :
  buf_size wbuf' = buf_size wbuf → cmd_ok L sp c ns wbuf req → cmd_ok L sp c ns wbuf' req.
Proof using.
  intros E [H1 H2]. split; [done|]. destruct (_ =? _); [|done]. destruct H2. split; try done. by rewrite E.
Qed.

Lemma session_refines reqs st x :
  refines L sp (ns_nr_parts ns) st x → Forall (cmd_ok L sp c ns (env_wbuf (sh_env (snd st)))) reqs →
  wp (fdp_session c ns reqs) st (λ rs st',
    refines L sp (ns_nr_parts ns) st' (spec_session sp (ns_nr_parts ns) c reqs x).2 ∧
    answer_of <$> rs = (spec_session sp (ns_nr_parts ns) c reqs x).1).
Proof using clock_range.
  revert st x. induction reqs as [|req reqs IH]; intros st x Href Hok; simpl.
  { wp_step. by split. }
  apply Forall_cons in Hok as [Hreq Hok]. wp_step.
  pose proof (rf_inv _ _ _ _ _ Href) as (gtag & Hinv & _).
  pose proof (cmd_refines req st x Href Hreq) as Hw1.
  pose proof (wp_proc_cmd clock_range L sp c ns gtag req (Result 0 0 0) st Hinv Hreq) as Hw2.
  pose proof (wp_and _ _ _ _ Hw1 Hw2) as Hw. eapply wp_mono; [exact Hw|]. clear Hw Hw1 Hw2.
  intros r st' [[Href' Ha] (_ & Hsz & _)]. wp_step.
  destruct (spec_cmd sp (ns_nr_parts ns) c req x) as [a x1]. simpl in Href', Ha.
  eapply wp_mono.
  { apply (IH st' x1); [done|]. eapply Forall_impl; [exact Hok|]. intros q. by apply cmd_ok_buffer. }
  intros rs st2 [Href2 Has]. wp_step. destruct (spec_session sp (ns_nr_parts ns) c reqs x1) as [as' x2].
  simpl in *. split; [done|]. by rewrite <- Has, <- Ha.
Qed.

(** C5: refinement: every session of host commands on an FDP namespace gives the
    answers of the specification, one per command, and ends in a state that
    represents the specification's: the same pages written with the same handles,
    the same free buffer space, the same count of host bytes. *)
Theorem fdp_session_refines reqs st x :
  refines L sp (ns_nr_parts ns) st x → Forall (cmd_ok L sp c ns (env_wbuf (sh_env (snd st)))) reqs →
  ∃ rs st', fdp_session c ns reqs st = Ok (rs, st') ∧
    answer_of <$> rs = (spec_session sp (ns_nr_parts ns) c reqs x).1 ∧
    refines L sp (ns_nr_parts ns) st' (spec_session sp (ns_nr_parts ns) c reqs x).2.
Proof using clock_range.
  intros Href Hok. pose proof (session_refines reqs st x Href Hok) as Hw.
  apply wp_Ok in Hw as (rs & st' & Heq & H1 & H2). eauto.
Qed.
End refinement.
End handles.

(** ** The handlers and the collector one by one *)

Section handlers.
Context `{CK : !Clock} `{LC : !LocalClock}.
Hypothesis clock_range : ∀ n, 0 ≤ cpu_clock n.

(** C33: the four ways [fdp_write] ends, and what each leaves behind: a range
    beyond the device is refused with no effect; an invalid placement identifier
    completes with Invalid Field and is reported as an event; a full write buffer
    refuses the command; otherwise all pages of the range, and no others, become
    mapped behind the selected handle, and the transferred bytes are taken from
    the buffer and added to the bytes written by the host and to the media.  The
    write causes a series of collections, at most one a page, and the rest is theirs
    exactly: each adds the pages it moved to the media bytes and one line to the bytes
    erased, and is logged if it emptied a line of a handle and the event is enabled,
    in order and with the next clock reading.  The only attribute to change is that
    of the selected handle. *)
Theorem fdp_write_outcome L sp c ns gtag req ret st :
  ns_inv L sp (ns_nr_parts ns) gtag st →
  write_ok L sp (ns_nr_parts ns) c (env_wbuf (sh_env (snd st))) req →
  wp (fdp_write c ns req ret) st (write_outcome L sp (ns_nr_parts ns) c gtag req ret st).
Proof using clock_range. by apply wp_fdp_write. Qed.

(** [fdp_read] and [fdp_flush] change no data, map, statistic or event.  A read
    beyond the device is refused; any other succeeds and ends no earlier than it
    starts.  A flush ends no earlier than any LUN of any partition becomes
    idle. *)
Theorem fdp_read_flush_outcome L sp c ns gtag req ret st :
  ns_inv L sp (ns_nr_parts ns) gtag st → read_ok req →
  wp (fdp_read c ns req ret) st (λ r st',
    ns_inv L sp (ns_nr_parts ns) gtag st' ∧ ns_ticked (ns_nr_parts ns) st st' ∧
    if tt_pgs sp <=? last_lpn sp (req_cmd req) / ns_nr_parts ns then r = (false, ret) ∧ st' = st
    else r.1 = true ∧ ret_status r.2 = NVME_SC_SUCCESS ∧ req_nsecs_start req ≤ ret_nsecs_target r.2) ∧
  wp (fdp_flush ns ret) st (λ r st',
    ns_inv L sp (ns_nr_parts ns) gtag st' ∧ ns_ticked (ns_nr_parts ns) st st' ∧
    ret_status r = NVME_SC_SUCCESS ∧ ∀ i f, aget (fst st) i = Some f → idle_by (ret_nsecs_target r) f).
Proof using clock_range. intros Hinv Hok. split; [by apply wp_fdp_read|by apply wp_fdp_flush]. Qed.

(** C32: a forced collection with a free line at hand collects a line with the
    fewest valid pages of all candidates: it moves these pages, keeps every
    logical page mapped and every page of another line in place, gives the line
    back to the free list, and accounts for the pages moved, the line erased and,
    when the line belonged to a handle, the event; the room it wins is the number
    of invalid pages of the line.  Without a candidate it returns -1 and changes
    nothing. *)
Theorem do_gc_collects f sh :
  ftl_inv (f, sh) → 1 ≤ lm_free_line_cnt (ftl_lm f) →
  wp (do_gc true) (f, sh) (λ r st',
    (r = -1 ∧ st' = (f, sh) ∧ ∀ l, ¬ member (lm_victim_line_pq (ftl_lm f)) l) ∨
    (r = 0 ∧ ∃ l x, collected l x (f, sh) st')).
Proof using clock_range.
  intros Hinv Hfree. apply (wp_do_gc clock_range); [done|done| |].
  - intros Hno. left. split_and!; [done|done|]. by apply Hno.
  - intros l x st' Hc. right. split; [done|]. by exists l, x.
Qed.

(** writing one page of a partition that has the margin of free pages keeps
    that margin, whatever is collected on the way: the page becomes mapped behind
    its handle, no other page is lost, time does not run backwards, and the
    buffer space of a completed wordline is handed to the I/O engine for
    release. *)
Theorem write_page_keeps_margin L tag ruh sq_id stime lpn nsecs st :
  wr_inv L tag st → 0 ≤ ruh < NR_RUH → 0 ≤ lpn < L → 0 ≤ stime →
  wp (write_page ruh sq_id stime lpn nsecs) st
    (λ nsecs' st', wrote L tag ruh sq_id lpn nsecs nsecs' st st').
Proof using clock_range. by apply wp_write_page. Qed.
End handlers.

(** ** Concrete runs on the small device *)

(** The view of a state in which no page counts as written with a directive. *)
Definition view_of (n : Z) (st : nsstate) : ns_spec :=
  NsSpec (λ k, if ns_mapped n st k then Some 0 else None) (buf_remaining (env_wbuf (sh_env (snd st))))
    (fx_hbmw (sh_ctx (snd st)).1).

Lemma view_refines L sp n st : ns_inv L sp n (λ _, 0) st → refines L sp n st (view_of n st).
Proof. intros H. split; [|done|done]. by exists (λ _, 0). Qed.

Lemma fdp_session_refines_witness :
  ∃ sp ns st rs st',
    fdp_session (CK := still_clock) (LC := still_local_clock) SAMSUNG_FDP ns [write_page_0; read_page_0] st
      = Ok (rs, st') ∧
    answer_of <$> rs = (spec_session sp (ns_nr_parts ns) SAMSUNG_FDP [write_page_0; read_page_0] (view_of 4 st)).1 ∧
    refines 3519 sp (ns_nr_parts ns) st'
      (spec_session sp (ns_nr_parts ns) SAMSUNG_FDP [write_page_0; read_page_0] (view_of 4 st)).2.
Proof.
  destruct small_new as (sp & st & ns & _ & _ & Hpg & Hsec & _ & Hinv & Hn & Hc & Hb).
  exists sp, ns, st.
  apply (@fdp_session_refines fdp_handles still_clock still_local_clock 3519 sp SAMSUNG_FDP ns (λ _, Z.le_refl 0)).
  - rewrite Hn. apply view_refines. exact Hinv.
  - destruct (page_0_ok sp ns (env_wbuf (sh_env (snd st)))) as [Hw Hr]; [assumption..|by rewrite Hb|].
    apply Forall_cons; split; [exact Hw|]. apply Forall_cons; split; [exact Hr|]. apply Forall_nil. exact I.
Defined.

Lemma fdp_write_outcome_witness :
  ∃ sp ns st, wp (fdp_write (H := still_clock) (H0 := still_local_clock) SAMSUNG_FDP ns write_page_0 (Result 0 0 0)) st
    (write_outcome (LC := still_local_clock) 3519 sp (ns_nr_parts ns) SAMSUNG_FDP (λ _, 0) write_page_0 (Result 0 0 0) st).
Proof.
  destruct small_new as (sp & st & ns & _ & _ & Hpg & Hsec & _ & Hinv & Hn & Hc & Hb).
  exists sp, ns, st. apply (@fdp_write_outcome still_clock still_local_clock (λ _, Z.le_refl 0)).
  - rewrite Hn. exact Hinv.
  - apply (page_0_ok sp ns (env_wbuf (sh_env (snd st)))); [assumption..|by rewrite Hb].
Defined.

Lemma fdp_read_flush_outcome_witness :
  ∃ ns st, wp (fdp_flush (H := still_clock) (H0 := still_local_clock) ns (Result 0 0 0)) st (λ r _,
    ret_status r = NVME_SC_SUCCESS ∧ ∀ i f, aget (fst st) i = Some f → idle_by (ret_nsecs_target r) f).
Proof.
  destruct small_new as (sp & st & ns & _ & _ & Hpg & Hsec & _ & Hinv & Hn & Hc & Hb).
  exists ns, st. rewrite <- Hn in Hinv.
  destruct (@fdp_read_flush_outcome still_clock still_local_clock (λ _, Z.le_refl 0) 3519 sp SAMSUNG_FDP ns
    (λ _, 0) read_page_0 (Result 0 0 0) st Hinv) as [_ Hf]; [split; by vm_compute|].
  eapply wp_mono; [exact Hf|]. intros r st' (_ & _ & H1 & H2). exact (conj H1 H2).
Defined.

(** A partition of the small device. *)
Lemma small_part : ∃ f sh, wr_inv 3519 (λ _, 0) (f, sh) ∧ 1 ≤ lm_free_line_cnt (ftl_lm f).
Proof.
  destruct small_new as (sp & [fs sh] & ns & _ & _ & Hpg & Hsec & _ & Hinv & Hn & Hc & Hb).
  destruct (ns_part _ _ _ _ _ _ 0 Hinv) as (f & _ & Hw & _); [lia|]. exists f, sh. split; [exact Hw|].
  pose proof (wi_inv _ _ _ Hw) as [[Hfb _] _]. simpl in Hfb.
  rewrite (ls_free_cnt _ _ _ _ (fb_lists _ _ _ Hfb)).
  assert (lm_free_line_list (ftl_lm f) ≠ []) as Hne.
  { eapply room_free; [exact Hfb|]. pose proof (wi_margin _ _ _ Hw) as Hm. pose proof (wi_credits _ _ _ Hw) as Hcr.
    simpl in Hm, Hcr. lia. }
  destruct (lm_free_line_list (ftl_lm f)); [congruence|]. simpl. lia.
Qed.

Lemma do_gc_collects_witness :
  ∃ f sh, ftl_inv (f, sh) ∧
    wp (do_gc (H := still_clock) (H0 := still_local_clock) true) (f, sh) (λ r st',
      (r = -1 ∧ st' = (f, sh) ∧ ∀ l, ¬ member (lm_victim_line_pq (ftl_lm f)) l) ∨
      (r = 0 ∧ ∃ l x, collected (H := still_local_clock) l x (f, sh) st')).
Proof.
  destruct small_part as (f & sh & Hw & Hfree). pose proof (wi_inv _ _ _ Hw) as Hinv. exists f, sh.
  split; [exact Hinv|].
  apply (@do_gc_collects still_clock still_local_clock (λ _, Z.le_refl 0)); [exact Hinv|exact Hfree].
Defined.

Lemma write_page_keeps_margin_witness :
  ∃ st, wp (write_page (H := still_clock) (H0 := still_local_clock) 3 1 100 7 100) st
    (λ nsecs' st', wrote (LC := still_local_clock) 3519 (λ _, 0) 3 1 7 100 nsecs' st st').
Proof.
  destruct small_part as (f & sh & Hw & Hfree). exists (f, sh).
  apply (@write_page_keeps_margin still_clock still_local_clock (λ _, Z.le_refl 0)); [exact Hw|by vm_compute|lia|lia].
Defined.

(** ** Running out of lines *)

Lemma fault_bind {S A B} (m : M S A) (k : A → M S B) s e :
  wp m s (λ a s', k a s' = Fault e) → (m ≫= k) s = Fault e.
Proof. unfold wp, mbind, M_bind. destruct (m s) as [[a s']|]; done. Qed.

(** A write pointer on the last page of its line, all of whose pages are valid,
    on a partition without a free line. *)
Record out_of_lines (io : io_type) (ruh : Z) (f : fdp_ftl) (sh : shared) (w : fdp_write_pointer) : Prop := {
  ol_sp : sp_ok (fsp f);
  ol_wp : get_wp io ruh (f, sh) = Ok (w, (f, sh));
  ol_ruh : io = USER_IO → 0 ≤ ruh < alen (ftl_wp_ruh f);
  ol_end : wp_ch w = nchs (fsp f) - 1 ∧ wp_lun w = luns_per_ch (fsp f) - 1 ∧ wp_pg w = pgs_per_blk (fsp f) - 1;
  ol_blk : 0 ≤ wp_blk w < blks_per_pl (fsp f);
  ol_line : ∃ cur x, wp_curline w = Some cur ∧ aget (lm_lines (ftl_lm f)) cur = Some x ∧
    ln_vpc x = pgs_per_line (fsp f) ∧ ln_ipc x = 0;
  ol_free : lm_free_line_list (ftl_lm f) = [];
}.

(** [advance_write_pointer] does not check the result of
    [get_next_free_line]: when the pointer leaves a line and no line is free, it
    dereferences a null pointer. *)
Theorem advance_without_free_line io ruh f sh w :
  out_of_lines io ruh f sh w → advance_write_pointer io ruh (f, sh) = Fault OOPS.
Proof.
  intros [Hsp Hw Hruh (Hc & Hl & Hp) Hb (cur & x & Hcur & Hx & Hv & Hi) Hfree].
  pose proof (so_nchs _ Hsp). pose proof (so_luns _ Hsp). pose proof (so_ppb _ Hsp). pose proof (so_blks _ Hsp).
  pose proof (oneshot_bound _ Hsp) as Hos. pose proof (so_oneshots _ Hsp) as Hosb. pose proof (ppl_pos _ Hsp).
  assert (0 < oneshotpgs_per_blk (fsp f)) as Hrows by (clear -Hosb H1 Hos; nia).
  assert (pgs_per_oneshotpg (fsp f) ≤ pgs_per_blk (fsp f)) as Hle by (clear -Hosb Hos Hrows; nia).
  assert (pgs_per_blk (fsp f) mod pgs_per_oneshotpg (fsp f) = 0) as Hmod
    by (rewrite Hosb, Z.mul_comm; apply Z.mod_mul; lia).
  unfold advance_write_pointer. apply fault_bind. f_step. apply fault_bind.
  eapply wp_intro; [exact Hw|]. cbv zeta. rewrite Hp, Hc, Hl.
  apply fault_bind. apply check_addr_ok; [lia|lia|].
  replace (pgs_per_blk (fsp f) - 1 + 1) with (pgs_per_blk (fsp f)) by lia.
  rewrite u32_small, Hmod by lia. cbn [Z.eqb negb].
  apply fault_bind. apply check_addr_ok; [lia|lia|].
  replace (nchs (fsp f) - 1 + 1) with (nchs (fsp f)) by lia. rewrite u32_small, Z.eqb_refl by lia. cbn [negb].
  apply fault_bind. apply check_addr_ok; [lia|lia|].
  replace (luns_per_ch (fsp f) - 1 + 1) with (luns_per_ch (fsp f)) by lia.
  rewrite u32_small, Z.eqb_refl by lia. cbn [negb].
  rewrite (u32_small (pgs_per_blk (fsp f) - _)), Z.sub_add, u32_small, Z.eqb_refl by lia. cbn [negb].
  unfold next_line. apply fault_bind. f_step. apply fault_bind. eapply wp_deref; [exact Hcur|].
  apply fault_bind. eapply wp_line_get; [exact Hx|]. apply fault_bind. rewrite Hv, u64_small, Z.eqb_refl by lia.
  f_step. f_step; [by rewrite Hi|]. f_step.
  apply fault_bind. simpl. apply check_addr_ok; [lia|lia|].
  apply fault_bind. unfold get_next_free_line. f_step. f_step. cbn. rewrite Hfree. f_step.
  destruct io; reflexivity.
Qed.

(** Line 0 of the small device, full, with nothing free. *)
Definition full_part (sp : ssdparams) : fdp_ftl :=
  FdpFtl (ssd_init sp 0).1.1 (fdp_init_params SAMSUNG_FDP) (init_maptbl sp) (init_rmap sp)
    (anew NR_RUH (WritePointer (Some 0) (nchs sp - 1) (luns_per_ch sp - 1) (pgs_per_blk sp - 1) 0 0))
    unset_wp (LineMgmt (anew (tt_lines sp) (FdpLine 0 0 (pgs_per_line sp) 0 0)) [] (pqueue_init (tt_lines sp)) []
                (tt_lines sp) 0 0 0) (WriteFlowControl 0 0).
Definition idle_shared (sp : ssdparams) : shared :=
  Shared (Env (ssd_init_pcie sp) (buffer_init 0) 0) (fdp_init_ctx [] 0, 0) [].

Lemma advance_without_free_line_witness :
  ∃ sp, advance_write_pointer USER_IO 3 (full_part sp, idle_shared sp) = Fault OOPS.
Proof.
  destruct (init_params_layout SAMSUNG_FDP (MB 64) samsung_fdp_layout) as (sp & _ & Hsp & _); [by vm_compute|].
  exists sp. apply (advance_without_free_line USER_IO 3 (full_part sp) (idle_shared sp)
    (WritePointer (Some 0) (nchs sp - 1) (luns_per_ch sp - 1) (pgs_per_blk sp - 1) 0 0)).
  pose proof (so_blks _ Hsp) as Hblk. pose proof (so_lines _ Hsp) as Hln.
  split; [exact Hsp|reflexivity|done|done|split; [apply Z.le_refl|apply Hblk]| |done].
  exists 0, (FdpLine 0 0 (pgs_per_line sp) 0 0). split_and!; [done| |done|done].
  simpl. rewrite aget_anew, decide_True by lia. done.
Defined.
