(* ===== verification/Zns.v ===== *)
(** * The zoned namespace (src/zns_ftl.c, src/zns_read_write.c, src/zns_mgmt_send.c)

    A zoned namespace keeps a descriptor per zone (state, write pointer, random
    write area), three counters of zone resources and one or more write buffers.
    The definitions are the handlers of the code, statement by statement; the
    zone random write area (ZRWA) is included.

    An access to [zone_descs\[zid\]] outside the table, which the code does not
    check for, is the fault [OOPS]; so is a division by zero, which the code can
    reach when the ZRWA sizes of the configuration are 0. *)

From stdpp Require Import base numbers list gmap.
From S2P Require Import Prelude Config ChannelModel Ssd Nvme FdpLog.

#[local] Open Scope Z_scope.

(** ** Constants and data (src/nvme_zns.h) *)

Definition nvme_cmd_zone_mgmt_send : Z := 121.
Definition nvme_cmd_zone_mgmt_recv : Z := 122.
Definition NVME_CSI_ZNS : Z := 2.

Definition NVME_SC_ZNS_INVALID_ZONE_OPERATION : Z := Z.lor (Z.shiftl 1 8) 182.
Definition NVME_SC_ZNS_ZRWA_RSRC_UNAVAIL : Z := NVME_SC_ZNS_INVALID_ZONE_OPERATION + 1.
Definition NVME_SC_ZNS_ERR_BOUNDARY : Z := NVME_SC_ZNS_INVALID_ZONE_OPERATION + 2.
Definition NVME_SC_ZNS_ERR_FULL : Z := NVME_SC_ZNS_INVALID_ZONE_OPERATION + 3.
Definition NVME_SC_ZNS_ERR_READ_ONLY : Z := NVME_SC_ZNS_INVALID_ZONE_OPERATION + 4.
Definition NVME_SC_ZNS_ERR_OFFLINE : Z := NVME_SC_ZNS_INVALID_ZONE_OPERATION + 5.
Definition NVME_SC_ZNS_INVALID_WRITE : Z := NVME_SC_ZNS_INVALID_ZONE_OPERATION + 6.
Definition NVME_SC_ZNS_NO_ACTIVE_ZONE : Z := NVME_SC_ZNS_INVALID_ZONE_OPERATION + 7.
Definition NVME_SC_ZNS_NO_OPEN_ZONE : Z := NVME_SC_ZNS_INVALID_ZONE_OPERATION + 8.
Definition NVME_SC_ZNS_INVALID_TRANSITION : Z := NVME_SC_ZNS_INVALID_ZONE_OPERATION + 9.

Inductive zone_state : Type :=
| ZONE_STATE_EMPTY | ZONE_STATE_OPENED_IMPL | ZONE_STATE_OPENED_EXPL | ZONE_STATE_CLOSED
| ZONE_STATE_READ_ONLY | ZONE_STATE_FULL | ZONE_STATE_OFFLINE.
#[export] Instance zone_state_eq_dec : EqDecision zone_state.
Proof. solve_decision. Defined.

Inductive zone_resource_type : Type := ACTIVE_ZONE | OPEN_ZONE | ZRWA_ZONE.
#[export] Instance zone_resource_type_eq_dec : EqDecision zone_resource_type.
Proof. solve_decision. Defined.

Inductive zone_send_action : Type :=
| ZSA_CLOSE_ZONE | ZSA_FINISH_ZONE | ZSA_OPEN_ZONE | ZSA_RESET_ZONE | ZSA_OFFLINE_ZONE
| ZSA_SET_ZONE_DESC_EXT | ZSA_FLUSH_EXPL_ZRWA | ZSA_OTHER.

(** The fields that are ever written; the type is always "sequential write
    required" and the other attributes stay 0. *)
Record zone_descriptor : Type := ZoneDesc {
  zd_state : zone_state;
  zd_zrwav : Z;
  zd_zone_capacity : Z;
  zd_zslba : Z;
  zd_wp : Z;
}.

(** The report buffer: its zone count and the descriptors behind it. *)
Record zone_report : Type := ZoneReport {
  zr_nr_zones : Z;
  zr_zd : arr zone_descriptor;
}.

(** ** State (src/zns_ftl.h) *)

Record znsparams : Type := ZnsParams {
  zp_nr_zones : Z;
  zp_nr_active_zones : Z;
  zp_nr_open_zones : Z;
  zp_dies_per_zone : Z;
  zp_zone_size : Z;
  zp_zone_wb_size : Z;
  zp_nr_zrwa_zones : Z;
  zp_zrwafg_size : Z;
  zp_zrwa_size : Z;
  zp_zrwa_buffer_size : Z;
  zp_lbas_per_zrwafg : Z;
  zp_lbas_per_zrwa : Z;
}.

Record zone_resource_info : Type := ResInfo {
  ri_acquired_cnt : Z;
  ri_total_cnt : Z;
}.

(** A buffer array that was not allocated has length 0.  [zf_storage] is the
    memory behind [storage_base_addr]. *)
Record zns_ftl : Type := ZnsFtl {
  zf_ssd : ssd;
  zf_zp : znsparams;
  zf_res : zone_resource_type → zone_resource_info;
  zf_descs : arr zone_descriptor;
  zf_report : zone_report;
  zf_zone_wb : arr buffer;
  zf_zrwa_buf : arr buffer;
  zf_storage : arr Z;
}.

(** The write buffer an internal operation is to release space of. *)
Inductive zbuf : Type := GlobalBuf | ZoneBuf (zid : Z) | ZrwaBuf (zid : Z).
#[export] Instance zbuf_eq_dec : EqDecision zbuf.
Proof. solve_decision. Defined.

(** The rest of the driver: the shared part of the device, the internal
    operations handed to the I/O engine and the local-clock readings so far. *)
Record zshared : Type := ZShared {
  zs_env : env;
  zs_ops : list (zbuf * internal_op);
  zs_lticks : Z;
}.

Definition zstate : Type := zns_ftl * zshared.

Definition set_zssd (x : ssd) (f : zns_ftl) : zns_ftl :=
  ZnsFtl x (zf_zp f) (zf_res f) (zf_descs f) (zf_report f) (zf_zone_wb f) (zf_zrwa_buf f) (zf_storage f).
Definition set_zres (x : zone_resource_type → zone_resource_info) (f : zns_ftl) : zns_ftl :=
  ZnsFtl (zf_ssd f) (zf_zp f) x (zf_descs f) (zf_report f) (zf_zone_wb f) (zf_zrwa_buf f) (zf_storage f).
Definition set_zdescs (x : arr zone_descriptor) (f : zns_ftl) : zns_ftl :=
  ZnsFtl (zf_ssd f) (zf_zp f) (zf_res f) x (zf_report f) (zf_zone_wb f) (zf_zrwa_buf f) (zf_storage f).
Definition set_zreport (x : zone_report) (f : zns_ftl) : zns_ftl :=
  ZnsFtl (zf_ssd f) (zf_zp f) (zf_res f) (zf_descs f) x (zf_zone_wb f) (zf_zrwa_buf f) (zf_storage f).
Definition set_zone_wb (x : arr buffer) (f : zns_ftl) : zns_ftl :=
  ZnsFtl (zf_ssd f) (zf_zp f) (zf_res f) (zf_descs f) (zf_report f) x (zf_zrwa_buf f) (zf_storage f).
Definition set_zrwa_buf (x : arr buffer) (f : zns_ftl) : zns_ftl :=
  ZnsFtl (zf_ssd f) (zf_zp f) (zf_res f) (zf_descs f) (zf_report f) (zf_zone_wb f) x (zf_storage f).
Definition set_zstorage (x : arr Z) (f : zns_ftl) : zns_ftl :=
  ZnsFtl (zf_ssd f) (zf_zp f) (zf_res f) (zf_descs f) (zf_report f) (zf_zone_wb f) (zf_zrwa_buf f) x.

Definition zset_state (s : zone_state) (d : zone_descriptor) : zone_descriptor :=
  ZoneDesc s (zd_zrwav d) (zd_zone_capacity d) (zd_zslba d) (zd_wp d).
Definition zset_wp (w : Z) (d : zone_descriptor) : zone_descriptor :=
  ZoneDesc (zd_state d) (zd_zrwav d) (zd_zone_capacity d) (zd_zslba d) w.
Definition zset_zrwav (v : Z) (d : zone_descriptor) : zone_descriptor :=
  ZoneDesc (zd_state d) v (zd_zone_capacity d) (zd_zslba d) (zd_wp d).

Definition get_zns : M zstate zns_ftl := gets fst.
Definition mod_zns (g : zns_ftl → zns_ftl) : M zstate unit := modify (λ s, (g (fst s), snd s)).
Definition zdesc (zid : Z) : M zstate zone_descriptor := f ← get_zns; aread (zf_descs f) zid.
Definition zdesc_upd (zid : Z) (g : zone_descriptor → zone_descriptor) : M zstate unit :=
  f ← get_zns;
  d ← aread (zf_descs f) zid;
  a ← awrite (zf_descs f) zid (g d);
  mod_zns (set_zdescs a).

Definition on_zssd {A} (m : M sst A) : M zstate A :=
  zoom (λ s, (zf_ssd (fst s), zs_env (snd s)))
       (λ se s, (set_zssd (fst se) (fst s), ZShared (snd se) (zs_ops (snd s)) (zs_lticks (snd s)))) m.

(** Runs [m] on a buffer of an array. *)
Definition on_arr_buf {A} (g : zns_ftl → arr buffer) (p : arr buffer → zns_ftl → zns_ftl) (zid : Z)
    (m : M buffer A) : M zstate A :=
  f ← get_zns;
  b ← aread (g f) zid;
  match m b with
  | Ok (a, b') => mod_zns (p (aset (g f) zid b')) ;; mret a
  | Fault e => throw e
  end.
Definition on_buf {A} (b : zbuf) (m : M buffer A) : M zstate A :=
  match b with
  | GlobalBuf =>
      zoom (λ s, env_wbuf (zs_env (snd s)))
           (λ x s, (fst s, ZShared (Env (env_pcie (zs_env (snd s))) x (env_ticks (zs_env (snd s))))
                             (zs_ops (snd s)) (zs_lticks (snd s)))) m
  | ZoneBuf zid => on_arr_buf zf_zone_wb set_zone_wb zid m
  | ZrwaBuf zid => on_arr_buf zf_zrwa_buf set_zrwa_buf zid m
  end.

Definition schedule_release (b : zbuf) (sqid nsecs_target size : Z) : M zstate unit :=
  modify (λ s, (fst s, ZShared (zs_env (snd s)) (zs_ops (snd s) ++ [(b, InternalOp sqid nsecs_target size)])
                         (zs_lticks (snd s)))).

(** A division the C code performs on a divisor that may be 0. *)
Definition checked_div (n d : Z) : M zstate Z := if d =? 0 then throw OOPS else mret (n / d).
Definition checked_mod (n d : Z) : M zstate Z := if d =? 0 then throw OOPS else mret (n mod d).

(** ** Inline helpers (src/zns_ftl.h) *)

Definition set_res (t : zone_resource_type) (i : zone_resource_info) (f : zns_ftl) : zns_ftl :=
  set_zres (λ t', if decide (t' = t) then i else zf_res f t') f.

Definition is_zone_resource_avail (f : zns_ftl) (t : zone_resource_type) : bool :=
  ri_acquired_cnt (zf_res f t) <? ri_total_cnt (zf_res f t).
Definition is_zone_resource_full (f : zns_ftl) (t : zone_resource_type) : bool :=
  ri_acquired_cnt (zf_res f t) =? ri_total_cnt (zf_res f t).

Definition acquire_zone_resource (t : zone_resource_type) : M zstate bool :=
  f ← get_zns;
  if is_zone_resource_avail f t then
    mod_zns (set_res t (ResInfo (u32 (ri_acquired_cnt (zf_res f t) + 1)) (ri_total_cnt (zf_res f t)))) ;;
    mret true
  else mret false.

(** [ASSERT] is an empty macro. *)
Definition release_zone_resource (t : zone_resource_type) : M zstate unit :=
  mod_zns (λ f, set_res t (ResInfo (u32 (ri_acquired_cnt (zf_res f t) - 1)) (ri_total_cnt (zf_res f t))) f).

Definition change_zone_state (zid : Z) (s : zone_state) : M zstate unit := zdesc_upd zid (zset_state s).

Definition get_storage_addr_from_zid (f : zns_ftl) (zid : Z) : Z := u64 (zid * zp_zone_size (zf_zp f)).

Definition zsp (f : zns_ftl) : ssdparams := ssd_sp (zf_ssd f).
Definition pgs_per_zone (f : zns_ftl) : Z := zp_zone_size (zf_zp f) / pgsz (zsp f).
Definition lbas_per_zone (f : zns_ftl) : Z := zp_zone_size (zf_zp f) / secsz (zsp f).

Definition lpn_to_zone (f : zns_ftl) (lpn : Z) : Z := u32 (lpn / pgs_per_zone f).
(** The products are 32 bits wide. *)
Definition zone_to_slpn (f : zns_ftl) (zid : Z) : Z := u32 (u32 zid * pgs_per_zone f).
Definition lba_to_zone (f : zns_ftl) (lba : Z) : Z := u32 (lba / lbas_per_zone f).
Definition zone_to_slba (f : zns_ftl) (zid : Z) : Z := u32 (u32 zid * lbas_per_zone f).
Definition zone_to_elba (f : zns_ftl) (zid : Z) : Z := u64 (zone_to_slba f (zid + 1) - 1).
Definition zone_to_elpn (f : zns_ftl) (zid : Z) : Z := zone_to_elba f zid / secs_per_pg (zsp f).
Definition die_to_channel (f : zns_ftl) (die : Z) : Z := die mod nchs (zsp f).
Definition die_to_lun (f : zns_ftl) (die : Z) : Z := die / nchs (zsp f).
Definition lba_to_lpn (f : zns_ftl) (lba : Z) : Z := lba / secs_per_pg (zsp f).

(** ** Initialisation (src/zns_ftl.c) *)

Definition init_descriptor (c : ssd_config) (zpp : znsparams) : arr zone_descriptor :=
  let cap := BYTE_TO_LBA c (zp_zone_size zpp) in
  abuild (zp_nr_zones zpp) (ZoneDesc ZONE_STATE_EMPTY 0 0 0 0)
    (λ i, ZoneDesc ZONE_STATE_EMPTY 0 cap (u64 (i * cap)) (u64 (i * cap))).

Definition init_zone_buffers (zpp : znsparams) (size : Z) : arr buffer :=
  if size =? 0 then anew 0 (buffer_init 0) else anew (zp_nr_zones zpp) (buffer_init size).

Definition init_resource (zpp : znsparams) (_ : zone_resource_type) : zone_resource_info :=
  ResInfo 0 (zp_nr_zones zpp).

Definition zns_init_params (z : zns_config) (sp : ssdparams) (capacity : Z) : res znsparams :=
  let zpp := ZnsParams (u32 (capacity / ZONE_SIZE z)) (u32 (capacity / ZONE_SIZE z))
               (u32 (capacity / ZONE_SIZE z)) (DIES_PER_ZONE z) (u32 (ZONE_SIZE z)) (ZONE_WB_SIZE z)
               (MAX_ZRWA_ZONES z) (ZRWAFG_SIZE z) (ZRWA_SIZE z) (ZRWA_BUFFER_SIZE z)
               (ZRWAFG_SIZE z / secsz sp) (ZRWA_SIZE z / secsz sp) in
  if negb (capacity mod zp_zone_size zpp =? 0) then Fault BUG
  else if negb (zp_zone_size zpp mod pgsz sp =? 0) then Fault BUG
  else Ok zpp.

(** [report] and [storage] are what the allocated memory held before. *)
Definition zns_init_ftl (c : ssd_config) (zpp : znsparams) (s : ssd) (report : zone_report)
    (storage : arr Z) : zns_ftl :=
  ZnsFtl s zpp (init_resource zpp) (init_descriptor c zpp) report
    (init_zone_buffers zpp (zp_zone_wb_size zpp)) (init_zone_buffers zpp (zp_zrwa_buffer_size zpp)) storage.

Record zns_ns : Type := ZnsNs {
  zn_id : Z;
  zn_csi : Z;
  zn_size : Z;
  zn_nr_parts : Z;
}.

Definition zns_init_namespace (c : ssd_config) (z : zns_config) (report : zone_report) (storage : arr Z)
    (id size cpu_nr_dispatcher ticks lticks : Z) : res (zstate * zns_ns) :=
  match ssd_init_params c size 1 with
  | Fault e => Fault e
  | Ok sp =>
      let '(s, pcie, wbuf) := ssd_init sp cpu_nr_dispatcher in
      match zns_init_params z sp size with
      | Fault e => Fault e
      | Ok zpp =>
          Ok ((zns_init_ftl c zpp s report storage, ZShared (Env pcie wbuf ticks) [] lticks),
              ZnsNs id NVME_CSI_ZNS size 1)
      end
  end.

(** ** Reads and writes (src/zns_read_write.c) *)

Definition nr_lbas_from_rw_cmd (cmd : nvme_rw_command) : Z := u32 (rw_length cmd + 1).

(** True when there is no error. *)
Definition check_boundary_error (f : zns_ftl) (slba nr_lba : Z) : bool :=
  lba_to_zone f slba =? lba_to_zone f (u64 (slba + nr_lba - 1)).

Definition increase_write_ptr (zid nr_lba : Z) : M zstate unit :=
  f ← get_zns;
  d ← zdesc zid;
  let cur_write_ptr := u64 (zd_wp d + nr_lba) in
  zdesc_upd zid (zset_wp cur_write_ptr) ;;
  if cur_write_ptr =? u64 (zone_to_slba f zid + zd_zone_capacity d) then
    release_zone_resource OPEN_ZONE ;;
    release_zone_resource ACTIVE_ZONE ;;
    change_zone_state zid ZONE_STATE_FULL
  else mret tt.

Definition lpn_to_ppa (f : zns_ftl) (lpn : Z) : ppa :=
  let spp := zsp f in
  let zpp := zf_zp f in
  let zone := lpn_to_zone f lpn in
  let off := u64 (lpn - zone_to_slpn f zone) in
  let sdie := u32 ((zone * zp_dies_per_zone zpp) mod tt_luns spp) in
  let die := u32 (sdie + (off / pgs_per_oneshotpg spp) mod zp_dies_per_zone zpp) in
  set_g_pg (off mod pgs_per_oneshotpg spp)
    (set_g_ch (die_to_channel f die) (set_g_lun (die_to_lun f die) (Ppa 0 0 0 0 0 0))).

(** The tail of both write functions, [out:]. *)
Definition write_out (spp : ssdparams) (cmd : nvme_rw_command) (ret : nvmev_result) (status nsecs_latest nsecs_xfer : Z)
    : bool * nvmev_result :=
  (true, Result status
     (if negb (Z.land (rw_control cmd) NVME_RW_FUA =? 0) || negb (write_early_completion spp)
      then nsecs_latest else nsecs_xfer) (ret_result ret)).

(** The [switch] of [__zns_write]: the zone becomes implicitly open, or the
    command ends with a status. *)
Definition open_for_write (zid slba : Z) : M zstate (option Z) :=
  f ← get_zns;
  d ← zdesc zid;
  let closed :=
    ok ← acquire_zone_resource OPEN_ZONE;
    if ok : bool then change_zone_state zid ZONE_STATE_OPENED_IMPL ;; mret None
    else mret (Some NVME_SC_ZNS_NO_OPEN_ZONE) in
  match zd_state d with
  | ZONE_STATE_EMPTY =>
      if negb (slba =? zd_zslba d) then mret (Some NVME_SC_ZNS_INVALID_WRITE)
      else if is_zone_resource_full f ACTIVE_ZONE then mret (Some NVME_SC_ZNS_NO_ACTIVE_ZONE)
      else if is_zone_resource_full f OPEN_ZONE then mret (Some NVME_SC_ZNS_NO_OPEN_ZONE)
      else acquire_zone_resource ACTIVE_ZONE ;; closed
  | ZONE_STATE_CLOSED => closed
  | ZONE_STATE_OPENED_IMPL | ZONE_STATE_OPENED_EXPL => mret None
  | ZONE_STATE_FULL => mret (Some NVME_SC_ZNS_ERR_FULL)
  | ZONE_STATE_READ_ONLY => mret (Some NVME_SC_ZNS_ERR_READ_ONLY)
  | ZONE_STATE_OFFLINE => mret (Some NVME_SC_ZNS_ERR_OFFLINE)
  end.

Section io.
Context `{!Clock} `{!LocalClock}.

(** The page loop of [__zns_write]; the locals are [lpn] and [nsecs_latest]. *)
Definition zns_write_pages (buf : zbuf) (sq_id slpn elpn zone_elpn nsecs_xfer : Z) : M zstate Z :=
  f ← get_zns;
  let spp := zsp f in
  while_loop (elpn - slpn + 2) (λ '(lpn, nsecs_latest),
    if negb (lpn <=? elpn) then mret (inr nsecs_latest)
    else
      let p := lpn_to_ppa f lpn in
      let pg_off := g_pg p mod pgs_per_oneshotpg spp in
      let pgs := Z.min (elpn - lpn + 1) (pgs_per_oneshotpg spp - pg_off) in
      if (pg_off + pgs =? pgs_per_oneshotpg spp) || (lpn + pgs - 1 =? zone_elpn) then
        let xfer := pgs_per_oneshotpg spp * pgsz spp in
        let unaligned_space := zp_zone_size (zf_zp f) mod xfer in
        nsecs_completed ← on_zssd (ssd_advance_nand (NandCmd USER_IO NAND_WRITE xfer nsecs_xfer false p));
        schedule_release buf sq_id nsecs_completed
          (if (lpn + pgs - 1 =? zone_elpn) && (0 <? unaligned_space) then unaligned_space else xfer) ;;
        mret (inl (lpn + pgs, Z.max nsecs_completed nsecs_latest))
      else mret (inl (lpn + pgs, nsecs_latest)))
    (slpn, nsecs_xfer).

Definition set_slba (slba : Z) (cmd : nvme_rw_command) : nvme_rw_command :=
  RwCmd (rw_opcode cmd) (rw_nsid cmd) slba (rw_length cmd) (rw_control cmd) (rw_dsmgmt cmd).

(** Returns also the command, whose start a zone append rewrites. *)
Definition zns_write_seq (c : ssd_config) (req : nvmev_request) (ret : nvmev_result)
    : M zstate (bool * nvmev_result * nvme_rw_command) :=
  f ← get_zns;
  let spp := zsp f in
  let cmd := req_cmd req in
  let nr_lba := nr_lbas_from_rw_cmd cmd in
  let zid := lba_to_zone f (rw_slba cmd) in
  d ← zdesc zid;
  let append := rw_opcode cmd =? nvme_cmd_zone_append in
  let slba := if append then zd_wp d else rw_slba cmd in
  let cmd := if append then set_slba slba cmd else cmd in
  let ret := if append then Result (ret_status ret) (ret_nsecs_target ret) slba else ret in
  let slpn := lba_to_lpn f slba in
  let elpn := lba_to_lpn f (u64 (slba + nr_lba - 1)) in
  let zone_elpn := zone_to_elpn f zid in
  let buf := if zp_zone_wb_size (zf_zp f) =? 0 then GlobalBuf else ZoneBuf zid in
  let bytes := LBA_TO_BYTE c nr_lba in
  let out status latest xfer := mret (write_out spp cmd ret status latest xfer, cmd) in
  allocated ← on_buf buf (buffer_allocate bytes);
  if allocated <? bytes then mret (false, ret, cmd)
  else
    unit_rest ← checked_mod bytes (write_unit_size spp);
    if negb (unit_rest =? 0) then out NVME_SC_ZNS_INVALID_WRITE (req_nsecs_start req) (req_nsecs_start req)
    else if negb (check_boundary_error f slba nr_lba)
    then out NVME_SC_ZNS_ERR_BOUNDARY (req_nsecs_start req) (req_nsecs_start req)
    else if negb (slba =? zd_wp d)
    then out NVME_SC_ZNS_INVALID_WRITE (req_nsecs_start req) (req_nsecs_start req)
    else
      err ← open_for_write zid slba;
      match err with
      | Some status => out status (req_nsecs_start req) (req_nsecs_start req)
      | None =>
          increase_write_ptr zid nr_lba ;;
          xfer ← on_zssd (ssd_advance_write_buffer (req_nsecs_start req) bytes);
          latest ← zns_write_pages buf (req_sq_id req) slpn elpn zone_elpn xfer;
          out NVME_SC_SUCCESS latest xfer
      end.

(** The page loop of [__zns_write_zrwa]; the locals are [lpn], [remaining] and
    [nsecs_latest]. *)
Definition zrwa_flush_pages (zid sq_id lpn remaining nsecs_xfer : Z) : M zstate Z :=
  f ← get_zns;
  let spp := zsp f in
  while_loop (remaining + 1) (λ '(lpn, remaining, nsecs_latest),
    if negb (0 <? remaining) then mret (inr nsecs_latest)
    else
      let p := lpn_to_ppa f lpn in
      let pg_off := g_pg p mod pgs_per_oneshotpg spp in
      let pgs := Z.min remaining (pgs_per_oneshotpg spp - pg_off) in
      if pg_off + pgs =? pgs_per_oneshotpg spp then
        let xfer := pgs_per_oneshotpg spp * pgsz spp in
        nsecs_completed ← on_zssd (ssd_advance_nand (NandCmd USER_IO NAND_WRITE xfer nsecs_xfer false p));
        schedule_release (ZrwaBuf zid) sq_id nsecs_completed xfer ;;
        mret (inl (lpn + pgs, remaining - pgs, Z.max nsecs_completed nsecs_latest))
      else mret (inl (lpn + pgs, remaining - pgs, nsecs_latest)))
    (lpn, remaining, nsecs_xfer).

(** The [switch] of [__zns_write_zrwa]. *)
Definition open_for_zrwa (zid : Z) : M zstate (option Z) :=
  f ← get_zns;
  d ← zdesc zid;
  match zd_state d with
  | ZONE_STATE_CLOSED | ZONE_STATE_EMPTY =>
      ok ← acquire_zone_resource OPEN_ZONE;
      if ok : bool then
        n ← on_buf (ZrwaBuf zid) (buffer_allocate (zp_zrwa_size (zf_zp f)));
        NVMEV_ASSERT (negb (n =? 0)) ;;
        change_zone_state zid ZONE_STATE_OPENED_IMPL ;;
        mret None
      else mret (Some NVME_SC_ZNS_NO_OPEN_ZONE)
  | ZONE_STATE_OPENED_IMPL | ZONE_STATE_OPENED_EXPL => mret None
  | ZONE_STATE_FULL => mret (Some NVME_SC_ZNS_ERR_FULL)
  | ZONE_STATE_READ_ONLY => mret (Some NVME_SC_ZNS_ERR_READ_ONLY)
  | ZONE_STATE_OFFLINE => mret (Some NVME_SC_ZNS_ERR_OFFLINE)
  end.

(** The blocks an access that ends at [elba] pushes out of the random write area
    that starts at [wp]. *)
Definition zrwa_flush_lbas (f : zns_ftl) (zid wp elba : Z) : M zstate Z :=
  let zpp := zf_zp f in
  let zrwa_impl_start := u64 (wp + zp_lbas_per_zrwa zpp) in
  if zrwa_impl_start <=? elba then
    q ← checked_div (u64 (u64 (elba - zrwa_impl_start + 1) + zp_lbas_per_zrwafg zpp - 1)) (zp_lbas_per_zrwafg zpp);
    mret (u64 (q * zp_lbas_per_zrwafg zpp))
  else if elba =? zone_to_elba f zid then mret (u64 (elba - wp + 1))
  else mret 0.

Definition zns_write_zrwa (c : ssd_config) (req : nvmev_request) (ret : nvmev_result)
    : M zstate (bool * nvmev_result) :=
  f ← get_zns;
  let spp := zsp f in
  let zpp := zf_zp f in
  let cmd := req_cmd req in
  let slba := rw_slba cmd in
  let nr_lba := nr_lbas_from_rw_cmd cmd in
  let elba := u64 (slba + nr_lba - 1) in
  let zid := lba_to_zone f slba in
  d ← zdesc zid;
  let prev_wp := zd_wp d in
  let zrwa_impl_end := u64 (prev_wp + u32 (2 * zp_lbas_per_zrwa zpp) - 1) in
  let bytes := LBA_TO_BYTE c nr_lba in
  let out status latest xfer := mret (write_out spp cmd ret status latest xfer) in
  unit_rest ← checked_mod bytes (write_unit_size spp);
  if negb (unit_rest =? 0) then out NVME_SC_ZNS_INVALID_WRITE (req_nsecs_start req) (req_nsecs_start req)
  else if negb (check_boundary_error f slba nr_lba)
  then out NVME_SC_ZNS_ERR_BOUNDARY (req_nsecs_start req) (req_nsecs_start req)
  else if (slba <? prev_wp) || (zrwa_impl_end <? elba)
  then out NVME_SC_ZNS_INVALID_WRITE (req_nsecs_start req) (req_nsecs_start req)
  else
    err ← open_for_zrwa zid;
    match err with
    | Some status => out status (req_nsecs_start req) (req_nsecs_start req)
    | None =>
        nr_lbas_flush ← zrwa_flush_lbas f zid prev_wp elba;
        let data :=
          xfer ← on_zssd (ssd_advance_write_buffer (req_nsecs_start req) bytes);
          latest ← zrwa_flush_pages zid (req_sq_id req) (lba_to_lpn f prev_wp)
                     (nr_lbas_flush / secs_per_pg spp) xfer;
          out NVME_SC_SUCCESS latest xfer in
        if 0 <? nr_lbas_flush then
          n ← on_buf (ZrwaBuf zid) (buffer_allocate (LBA_TO_BYTE c nr_lbas_flush));
          if n =? 0 then mret (false, ret)
          else increase_write_ptr zid (u32 nr_lbas_flush) ;; data
        else data
    end.

Definition zns_write (c : ssd_config) (req : nvmev_request) (ret : nvmev_result)
    : M zstate (bool * nvmev_result * nvme_rw_command) :=
  f ← get_zns;
  let zid := lpn_to_zone f (lba_to_lpn f (rw_slba (req_cmd req))) in
  d ← zdesc zid;
  if zd_zrwav d =? 0 then zns_write_seq c req ret
  else r ← zns_write_zrwa c req ret; mret (r, req_cmd req).

(** The page loop of [zns_read]. *)
Definition zns_read_pages (stime slpn elpn : Z) : M zstate Z :=
  f ← get_zns;
  let spp := zsp f in
  while_loop (elpn - slpn + 2) (λ '(lpn, nsecs_latest),
    if negb (lpn <=? elpn) then mret (inr nsecs_latest)
    else
      let p := lpn_to_ppa f lpn in
      let pg_off := g_pg p mod pgs_per_flashpg spp in
      let pgs := Z.min (elpn - lpn + 1) (pgs_per_flashpg spp - pg_off) in
      nsecs_completed ← on_zssd (ssd_advance_nand (NandCmd USER_IO NAND_READ (pgs * pgsz spp) stime false p));
      mret (inl (lpn + pgs, Z.max nsecs_completed nsecs_latest)))
    (slpn, stime).

Definition zns_read (c : ssd_config) (req : nvmev_request) (ret : nvmev_result)
    : M zstate (bool * nvmev_result) :=
  f ← get_zns;
  let spp := zsp f in
  let cmd := req_cmd req in
  let slba := rw_slba cmd in
  let nr_lba := nr_lbas_from_rw_cmd cmd in
  let slpn := lba_to_lpn f slba in
  let elpn := lba_to_lpn f (u64 (slba + nr_lba - 1)) in
  let zid := lpn_to_zone f slpn in
  d ← zdesc zid;
  let status := if decide (zd_state d = ZONE_STATE_OFFLINE) then NVME_SC_ZNS_ERR_OFFLINE
                else if negb (check_boundary_error f slba nr_lba) then NVME_SC_ZNS_ERR_BOUNDARY
                else NVME_SC_SUCCESS in
  let stime := u64 (req_nsecs_start req
                    + if LBA_TO_BYTE c nr_lba <=? KB 4 then fw_4kb_rd_lat spp else fw_rd_lat spp) in
  latest ← zns_read_pages stime slpn elpn;
  done ← on_zssd (ssd_advance_pcie latest (nr_lba * secsz spp));
  mret (true, Result status (Z.max done latest) (ret_result ret)).

Definition get_zlocal_clock : M zstate Z := λ s,
  Ok (local_clock (zs_lticks (snd s)),
      (fst s, ZShared (zs_env (snd s)) (zs_ops (snd s)) (zs_lticks (snd s) + 1))).

(** A zoned namespace has one partition. *)
Definition zns_flush (ret : nvmev_result) : M zstate nvmev_result :=
  start ← get_zlocal_clock;
  idle ← on_zssd ssd_next_idle_time;
  mret (Result NVME_SC_SUCCESS (Z.max start idle) (ret_result ret)).
End io.

(** ** Zone management send (src/zns_mgmt_send.c) *)

Definition zmgmt_send_close_zone (zid : Z) : M zstate Z :=
  d ← zdesc zid;
  match zd_state d with
  | ZONE_STATE_OPENED_IMPL | ZONE_STATE_OPENED_EXPL =>
      change_zone_state zid ZONE_STATE_CLOSED ;;
      release_zone_resource OPEN_ZONE ;;
      mret NVME_SC_SUCCESS
  | ZONE_STATE_CLOSED => mret NVME_SC_SUCCESS
  | _ => mret NVME_SC_ZNS_INVALID_TRANSITION
  end.

Definition zmgmt_send_finish_zone (zid : Z) : M zstate Z :=
  d ← zdesc zid;
  let is_zrwa_zone := negb (zd_zrwav d =? 0) in
  let closed :=
    release_zone_resource ACTIVE_ZONE ;;
    when is_zrwa_zone (release_zone_resource ZRWA_ZONE) ;;
    change_zone_state zid ZONE_STATE_FULL ;;
    mret NVME_SC_SUCCESS in
  match zd_state d with
  | ZONE_STATE_OPENED_IMPL | ZONE_STATE_OPENED_EXPL => release_zone_resource OPEN_ZONE ;; closed
  | ZONE_STATE_CLOSED => closed
  | ZONE_STATE_EMPTY => change_zone_state zid ZONE_STATE_FULL ;; mret NVME_SC_SUCCESS
  | ZONE_STATE_FULL => mret NVME_SC_SUCCESS
  | _ => mret NVME_SC_ZNS_INVALID_TRANSITION
  end.

Definition zmgmt_send_open_zone (zid zrwa : Z) : M zstate Z :=
  f ← get_zns;
  d ← zdesc zid;
  let opened := change_zone_state zid ZONE_STATE_OPENED_EXPL ;; mret NVME_SC_SUCCESS in
  let closed :=
    ok ← acquire_zone_resource OPEN_ZONE;
    if ok : bool then opened else mret NVME_SC_ZNS_NO_OPEN_ZONE in
  match zd_state d with
  | ZONE_STATE_EMPTY =>
      if is_zone_resource_full f ACTIVE_ZONE then mret NVME_SC_ZNS_NO_ACTIVE_ZONE
      else if is_zone_resource_full f OPEN_ZONE then mret NVME_SC_ZNS_NO_OPEN_ZONE
      else if negb (zrwa =? 0) && is_zone_resource_full f ZRWA_ZONE
      then mret NVME_SC_ZNS_ZRWA_RSRC_UNAVAIL
      else
        when (negb (zrwa =? 0)) (acquire_zone_resource ZRWA_ZONE ;; zdesc_upd zid (zset_zrwav 1)) ;;
        acquire_zone_resource ACTIVE_ZONE ;;
        closed
  | ZONE_STATE_CLOSED => closed
  | ZONE_STATE_OPENED_IMPL => opened
  | ZONE_STATE_OPENED_EXPL => mret NVME_SC_SUCCESS
  | _ => mret NVME_SC_ZNS_INVALID_TRANSITION
  end.

(** The zone's memory is cleared too. *)
Definition reset_zone (zid : Z) : M zstate unit :=
  f ← get_zns;
  mod_zns (set_zstorage (afill (zf_storage f) (get_storage_addr_from_zid f zid) (zp_zone_size (zf_zp f)) 0)) ;;
  zdesc_upd zid (λ d, zset_wp (zd_zslba d) d) ;;
  zdesc_upd zid (zset_zrwav 0) ;;
  when (negb (zp_zrwa_buffer_size (zf_zp f) =? 0)) (on_buf (ZrwaBuf zid) buffer_refill).

Definition zmgmt_send_reset_zone (zid : Z) : M zstate Z :=
  d ← zdesc zid;
  let is_zrwa_zone := negb (zd_zrwav d =? 0) in
  let full :=
    change_zone_state zid ZONE_STATE_EMPTY ;;
    reset_zone zid ;;
    mret NVME_SC_SUCCESS in
  let closed :=
    release_zone_resource ACTIVE_ZONE ;;
    when is_zrwa_zone (release_zone_resource ZRWA_ZONE) ;;
    full in
  match zd_state d with
  | ZONE_STATE_OPENED_IMPL | ZONE_STATE_OPENED_EXPL => release_zone_resource OPEN_ZONE ;; closed
  | ZONE_STATE_CLOSED => closed
  | ZONE_STATE_FULL | ZONE_STATE_EMPTY => full
  | _ => mret NVME_SC_ZNS_INVALID_TRANSITION
  end.

Definition zmgmt_send_offline_zone (zid : Z) : M zstate Z :=
  d ← zdesc zid;
  match zd_state d with
  | ZONE_STATE_READ_ONLY => change_zone_state zid ZONE_STATE_OFFLINE ;; mret NVME_SC_SUCCESS
  | ZONE_STATE_OFFLINE => mret NVME_SC_SUCCESS
  | _ => mret NVME_SC_ZNS_INVALID_TRANSITION
  end.

Definition zmgmt_send_flush_explicit_zrwa (slba : Z) : M zstate Z :=
  f ← get_zns;
  let zid := lba_to_zone f slba in
  d ← zdesc zid;
  let wp := zd_wp d in
  let zrwa_end := Z.min (u64 (wp + zp_lbas_per_zrwa (zf_zp f) - 1))
                    (u64 (zone_to_slba f zid + zd_zone_capacity d - 1)) in
  let nr_lbas_flush := u64 (slba - wp + 1) in
  if zd_zrwav d =? 0 then mret NVME_SC_ZNS_INVALID_ZONE_OPERATION
  else if negb ((wp <=? slba) && (slba <=? zrwa_end)) then mret NVME_SC_ZNS_INVALID_ZONE_OPERATION
  else
    rest ← checked_mod nr_lbas_flush (zp_lbas_per_zrwafg (zf_zp f));
    if negb (rest =? 0) then mret NVME_SC_INVALID_FIELD
    else match zd_state d with
    | ZONE_STATE_OPENED_EXPL | ZONE_STATE_OPENED_IMPL | ZONE_STATE_CLOSED =>
        let wp' := u64 (slba + 1) in
        zdesc_upd zid (zset_wp wp') ;;
        (if wp' =? u64 (zone_to_slba f zid + zd_zone_capacity d) then
           when (negb (bool_decide (zd_state d = ZONE_STATE_CLOSED))) (release_zone_resource OPEN_ZONE) ;;
           release_zone_resource ACTIVE_ZONE ;;
           release_zone_resource ZRWA_ZONE ;;
           change_zone_state zid ZONE_STATE_FULL
         else mret tt) ;;
        mret NVME_SC_SUCCESS
    | _ => mret NVME_SC_ZNS_INVALID_ZONE_OPERATION
    end.

(** [uninit] is what the uninitialised local [status] holds; an action without a
    case returns it. *)
Definition zmgmt_send (uninit slba : Z) (action : zone_send_action) (option : Z) : M zstate Z :=
  f ← get_zns;
  let zid := lba_to_zone f slba in
  match action with
  | ZSA_CLOSE_ZONE => zmgmt_send_close_zone zid
  | ZSA_FINISH_ZONE => zmgmt_send_finish_zone zid
  | ZSA_OPEN_ZONE => zmgmt_send_open_zone zid option
  | ZSA_RESET_ZONE => zmgmt_send_reset_zone zid
  | ZSA_OFFLINE_ZONE => zmgmt_send_offline_zone zid
  | ZSA_FLUSH_EXPL_ZRWA => zmgmt_send_flush_explicit_zrwa slba
  | ZSA_SET_ZONE_DESC_EXT | ZSA_OTHER => mret uninit
  end.

Record nvme_zone_mgmt_send : Type := ZoneSend {
  zsend_slba : Z;
  zsend_zsa : zone_send_action;
  zsend_select_all : bool;
  zsend_zsaso : Z;
}.

Definition zns_zmgmt_send (uninit : Z) (cmd : nvme_zone_mgmt_send) (nsecs_start : Z) (ret : nvmev_result)
    : M zstate nvmev_result :=
  f ← get_zns;
  status ←
    (if zsend_select_all cmd then
       for_range 0 (zp_nr_zones (zf_zp f)) (λ zid,
         g ← get_zns;
         zmgmt_send uninit (zone_to_slba g zid) (zsend_zsa cmd) (zsend_zsaso cmd) ;; mret tt) ;;
       mret NVME_SC_SUCCESS
     else zmgmt_send uninit (zsend_slba cmd) (zsend_zsa cmd) (zsend_zsaso cmd));
  mret (Result status nsecs_start (ret_result ret)).

(** ** Zone management receive (src/zns_mgmt_recv.c) *)

Record nvme_zone_mgmt_recv : Type := ZoneRecv {
  zrecv_prp1 : Z;
  zrecv_prp2 : Z;
  zrecv_slba : Z;
  zrecv_nr_dw : Z;
  zrecv_zra : Z;
  zrecv_zra_specific_field : Z;
  zrecv_zra_specific_features : Z;
}.

(** A copy of [seg_size] bytes between the buffer, from [seg_offset] on, and the
    host memory at [seg_paddr]. *)
Record segment : Type := Segment {
  seg_paddr : Z;
  seg_offset : Z;
  seg_size : Z;
}.

(** [host_word a] is the 64-bit word at the host address [a] and [buffer_size] the size
    of the buffer: a copy of bytes behind it is a fault.  The locals are [offset],
    [remaining], [prp_offs] and [prp2_offs], the list address, and the copies made so
    far. *)
Definition prp_transfer_data (host_word : Z → Z) (prp1 prp2 buffer_size length : Z) : M zstate (list segment) :=
  while_loop (length + 1) (λ '(offset, remaining, prp_offs, prp2_offs, paddr_list, segs),
    if remaining =? 0 then mret (inr segs)
    else
      let prp_offs := prp_offs + 1 in
      '(paddr, prp2_offs, paddr_list) ←
        (if prp_offs =? 1 then mret (prp1, prp2_offs, paddr_list)
         else if prp_offs =? 2 then
           if PAGE_SIZE <? remaining
           then mret (host_word (prp2 + 8 * prp2_offs), prp2_offs + 1, Some prp2)
           else mret (prp2, prp2_offs, paddr_list)
         else
           l ← deref paddr_list;
           mret (host_word (l + 8 * prp2_offs), prp2_offs + 1, paddr_list));
      let mem_offs := paddr mod PAGE_SIZE in
      let io_size := Z.min remaining PAGE_SIZE in
      let io_size := if PAGE_SIZE <? io_size + mem_offs then PAGE_SIZE - mem_offs else io_size in
      if buffer_size <? offset + io_size then throw OOPS
      else mret (inl (offset + io_size, remaining - io_size, prp_offs, prp2_offs, paddr_list,
                      segs ++ [Segment paddr offset io_size])))
    (0, length, 0, 0, None, []).

Definition sizeof_zone_descriptor : Z := 64.
(** What init_descriptor allocates: the 64 bytes before the descriptors, and these. *)
Definition report_buffer_size (r : zone_report) : Z := 64 + sizeof_zone_descriptor * alen (zr_zd r).

(** [memcpy(report->zd, &zone_descs\[start\], ...)] of [n] descriptors. *)
Definition copy_descs (descs zd : arr zone_descriptor) (start n : Z) : M zstate (arr zone_descriptor) :=
  while_loop (n + 1) (λ '(i, zd),
    if n <=? i then mret (inr zd)
    else
      d ← aread descs (start + i);
      zd' ← awrite zd i d;
      mret (inl (i + 1, zd')))
    (0, zd).

Definition recv_length (cmd : nvme_zone_mgmt_recv) : Z := u32 (zrecv_nr_dw cmd + 1) * 4.

Definition fill_zone_report (cmd : nvme_zone_mgmt_recv) : M zstate unit :=
  f ← get_zns;
  let start_zid := lba_to_zone f (zrecv_slba cmd) in
  let bytes_transfer := recv_length cmd in
  let rest := u64 (zp_nr_zones (zf_zp f) - start_zid) in
  let nr := if zrecv_zra_specific_features cmd =? 0 then rest
            else u64 (bytes_transfer / sizeof_zone_descriptor - 1) in
  let nr := if rest <? nr then rest else nr in
  zd ← copy_descs (zf_descs f) (zr_zd (zf_report f)) start_zid nr;
  mod_zns (set_zreport (ZoneReport nr zd)).

Definition check_zmgmt_rcv_option_supported (f : zns_ftl) (cmd : nvme_zone_mgmt_recv) : bool :=
  negb (zp_nr_zones (zf_zp f) <=? lba_to_zone f (zrecv_slba cmd))
  && (zrecv_zra cmd =? 0) && (zrecv_zra_specific_field cmd =? 0).

(** Returns also the copies to the host; their source is the report buffer. *)
Definition zns_zmgmt_recv (host_word : Z → Z) (cmd : nvme_zone_mgmt_recv) (nsecs_start : Z) (ret : nvmev_result)
    : M zstate (nvmev_result * list segment) :=
  f ← get_zns;
  if check_zmgmt_rcv_option_supported f cmd then
    fill_zone_report cmd ;;
    f ← get_zns;
    segs ← prp_transfer_data host_word (zrecv_prp1 cmd) (zrecv_prp2 cmd) (report_buffer_size (zf_report f))
             (recv_length cmd);
    mret (Result NVME_SC_SUCCESS nsecs_start (ret_result ret), segs)
  else mret (Result NVME_SC_INVALID_FIELD nsecs_start (ret_result ret), []).

(** ** Dispatch (src/zns_ftl.c) *)

(** The 64 bytes of a command, read the way its opcode says. *)
Inductive zns_command : Type :=
| ZnsRw (cmd : nvme_rw_command)
| ZnsSend (cmd : nvme_zone_mgmt_send)
| ZnsRecv (cmd : nvme_zone_mgmt_recv)
| ZnsFlush
| ZnsOther.

Record zns_request : Type := ZnsRequest {
  zq_cmd : zns_command;
  zq_sq_id : Z;
  zq_nsecs_start : Z;
}.

(** Returns whether the command is done, its result, the command as the handler
    leaves it and the data copied to the host. *)
Definition zns_proc_nvme_io_cmd `{!Clock} `{!LocalClock} (c : ssd_config) (host_word : Z → Z) (uninit : Z)
    (ns : zns_ns) (req : zns_request) (ret : nvmev_result)
    : M zstate (bool * nvmev_result * zns_command * list segment) :=
  NVMEV_ASSERT (zn_csi ns =? NVME_CSI_ZNS) ;;
  NVMEV_ASSERT (zn_nr_parts ns =? 1) ;;
  let start := zq_nsecs_start req in
  match zq_cmd req with
  | ZnsRw cmd =>
      let rq := Request cmd (zq_sq_id req) start in
      if (rw_opcode cmd =? nvme_cmd_write) || (rw_opcode cmd =? nvme_cmd_zone_append) then
        '(ok, r, cmd') ← zns_write c rq ret;
        mret (ok, r, ZnsRw cmd', [])
      else if rw_opcode cmd =? nvme_cmd_read then
        '(ok, r) ← zns_read c rq ret;
        mret (ok, r, ZnsRw cmd, [])
      else mret (true, ret, ZnsRw cmd, [])
  | ZnsFlush => r ← zns_flush ret; mret (true, r, ZnsFlush, [])
  | ZnsSend cmd => r ← zns_zmgmt_send uninit cmd start ret; mret (true, r, ZnsSend cmd, [])
  | ZnsRecv cmd =>
      '(r, segs) ← zns_zmgmt_recv host_word cmd start ret;
      mret (true, r, ZnsRecv cmd, segs)
  | ZnsOther => mret (true, ret, ZnsOther, [])
  end.
