(* ===== verification/ZnsInv.v ===== *)
(** * The invariant of a zoned namespace

    [zinv] is the invariant of a namespace whose zones have no random write area
    (none is ever created when no zone is opened with that option): every zone
    descriptor is in a consistent state, the counters of active and open zones
    are the numbers of zones in these states, the buffers' accounts are right.
    Every step of the handlers replaces one descriptor and keeps the counters in
    step, the relation [zone_set]. *)

From stdpp Require Import base numbers list gmap.
From S2P Require Import Prelude Config ChannelModel Ssd Nvme FdpLog Zns.

#[local] Open Scope Z_scope.

(** ** Well-formed zones *)

Definition zone_open (s : zone_state) : bool :=
  match s with ZONE_STATE_OPENED_IMPL | ZONE_STATE_OPENED_EXPL => true | _ => false end.
Definition zone_active (s : zone_state) : bool :=
  match s with ZONE_STATE_CLOSED => true | _ => zone_open s end.

Record zp_ok (f : zns_ftl) : Prop := {
  zk_sp : sp_ok (zsp f);
  zk_luns : tt_luns (zsp f) = luns_per_ch (zsp f) * nchs (zsp f);
  zk_unit : 0 < write_unit_size (zsp f);
  zk_zone_size : 0 < zp_zone_size (zf_zp f) < 2 ^ 32;
  zk_aligned : zp_zone_size (zf_zp f) mod 4096 = 0;
  zk_dies : 0 < zp_dies_per_zone (zf_zp f);
  zk_dies_fit : tt_luns (zsp f) mod zp_dies_per_zone (zf_zp f) = 0;
  zk_nr_zones : 0 < zp_nr_zones (zf_zp f);
  zk_lbas : zp_nr_zones (zf_zp f) * lbas_per_zone f < 2 ^ 32;
}.

(** Where the write pointer of a zone in a state may be, relative to its start. *)
Definition wp_range (s : zone_state) (off cap : Z) : Prop :=
  match s with
  | ZONE_STATE_EMPTY => off = 0
  | ZONE_STATE_OPENED_IMPL | ZONE_STATE_OPENED_EXPL | ZONE_STATE_CLOSED => 0 ≤ off < cap
  | ZONE_STATE_FULL => 0 ≤ off ≤ cap
  | ZONE_STATE_READ_ONLY | ZONE_STATE_OFFLINE => False
  end.

Record zone_ok (cap i : Z) (d : zone_descriptor) : Prop := {
  zo_capacity : zd_zone_capacity d = cap;
  zo_zslba : zd_zslba d = i * cap;
  zo_zrwav : zd_zrwav d = 0;
  zo_wp : wp_range (zd_state d) (zd_wp d - i * cap) cap;
}.

(** The zones whose state satisfies [P]. *)
Definition zcount (P : zone_state → bool) (a : arr zone_descriptor) : Z :=
  cnt (λ i, match aget a i with Some d => P (zd_state d) | None => false end) (seqZ 0 (alen a)).

Definition zres_ok (f : zns_ftl) : Prop :=
  ri_acquired_cnt (zf_res f ACTIVE_ZONE) = zcount zone_active (zf_descs f) ∧
  ri_acquired_cnt (zf_res f OPEN_ZONE) = zcount zone_open (zf_descs f) ∧
  ri_acquired_cnt (zf_res f ZRWA_ZONE) = 0 ∧
  ∀ t, ri_total_cnt (zf_res f t) = zp_nr_zones (zf_zp f).

(** The write buffer of a zone: one for the device, or one per zone. *)
Definition wbuf_of (f : zns_ftl) (zid : Z) : zbuf :=
  if zp_zone_wb_size (zf_zp f) =? 0 then GlobalBuf else ZoneBuf zid.
Definition wb_size (f : zns_ftl) : Z :=
  if zp_zone_wb_size (zf_zp f) =? 0 then write_buffer_size (zsp f) else zp_zone_wb_size (zf_zp f).

Definition get_buf (b : zbuf) (st : zstate) : option buffer :=
  match b with
  | GlobalBuf => Some (env_wbuf (zs_env (snd st)))
  | ZoneBuf zid => aget (zf_zone_wb (fst st)) zid
  | ZrwaBuf zid => aget (zf_zrwa_buf (fst st)) zid
  end.
Definition put_buf (b : zbuf) (x : buffer) (st : zstate) : zstate :=
  match b with
  | GlobalBuf => (fst st, ZShared (Env (env_pcie (zs_env (snd st))) x (env_ticks (zs_env (snd st))))
                            (zs_ops (snd st)) (zs_lticks (snd st)))
  | ZoneBuf zid => (set_zone_wb (aset (zf_zone_wb (fst st)) zid x) (fst st), snd st)
  | ZrwaBuf zid => (set_zrwa_buf (aset (zf_zrwa_buf (fst st)) zid x) (fst st), snd st)
  end.

Definition buffer_sane (size : Z) (b : buffer) : Prop :=
  0 ≤ buf_remaining b < 2 ^ 64 ∧ buf_size b = size ∧ size < 2 ^ 32.

Definition zbufs_ok (st : zstate) : Prop :=
  ∀ zid, 0 ≤ zid < zp_nr_zones (zf_zp (fst st)) →
    ∃ x, get_buf (wbuf_of (fst st) zid) st = Some x ∧ buffer_sane (wb_size (fst st)) x.

Record zinv (st : zstate) : Prop := {
  zi_zp : zp_ok (fst st);
  zi_len : alen (zf_descs (fst st)) = zp_nr_zones (zf_zp (fst st));
  zi_zones i d : aget (zf_descs (fst st)) i = Some d → zone_ok (lbas_per_zone (fst st)) i d;
  zi_res : zres_ok (fst st);
  zi_zrwa : alen (zf_zrwa_buf (fst st)) =
    if zp_zrwa_buffer_size (zf_zp (fst st)) =? 0 then 0 else zp_nr_zones (zf_zp (fst st));
  zi_bufs : zbufs_ok st;
  zi_timing : timing_ok (zf_ssd (fst st), zs_env (snd st));
  zi_storage : zp_nr_zones (zf_zp (fst st)) * zp_zone_size (zf_zp (fst st)) ≤ alen (zf_storage (fst st));
  zi_report : alen (zr_zd (zf_report (fst st))) = zp_nr_zones (zf_zp (fst st)) + 1;
}.

(** ** Zone arithmetic *)

Section arithmetic.
Context (f : zns_ftl) (Hzp : zp_ok f).

Lemma lbas_per_zone_eq : lbas_per_zone f = zp_zone_size (zf_zp f) / 512 ∧ lbas_per_zone f = 8 * pgs_per_zone f ∧
  0 < pgs_per_zone f.
Proof using Hzp.
  pose proof (so_pgsz _ (zk_sp _ Hzp)) as (E1 & _ & E3). pose proof (zk_zone_size _ Hzp). pose proof (zk_aligned _ Hzp).
  unfold lbas_per_zone, pgs_per_zone. rewrite E1, E3. clear Hzp E1 E3. dlia.
Qed.

Lemma lba_to_zone_eq lba : 0 ≤ lba < 2 ^ 32 * lbas_per_zone f → lba_to_zone f lba = lba / lbas_per_zone f.
Proof using Hzp.
  intros H. destruct lbas_per_zone_eq as (_ & E & Hp). unfold lba_to_zone. apply u32_small.
  split; [apply Z.div_pos; lia|]. apply Z.div_lt_upper_bound; lia.
Qed.

Lemma zone_to_slba_eq i : 0 ≤ i ≤ zp_nr_zones (zf_zp f) → zone_to_slba f i = i * lbas_per_zone f.
Proof using Hzp.
  intros H. destruct lbas_per_zone_eq as (_ & E & Hp). pose proof (zk_lbas _ Hzp).
  unfold zone_to_slba. rewrite (u32_small i), u32_small by nia. done.
Qed.

Lemma zone_bound i : 0 ≤ i < zp_nr_zones (zf_zp f) → i * lbas_per_zone f + lbas_per_zone f < 2 ^ 32.
Proof using Hzp. intros H. destruct lbas_per_zone_eq as (_ & E & Hp). pose proof (zk_lbas _ Hzp). nia. Qed.

Lemma lba_in_zone i off : 0 ≤ i < zp_nr_zones (zf_zp f) → 0 ≤ off < lbas_per_zone f →
  lba_to_zone f (i * lbas_per_zone f + off) = i.
Proof using Hzp.
  intros Hi Ho. pose proof (zone_bound i Hi). destruct lbas_per_zone_eq as (_ & E & Hp).
  rewrite lba_to_zone_eq by nia. rewrite Z.div_add_l by lia. rewrite Z.div_small by lia. lia.
Qed.

Lemma nr_zones_bound : zp_nr_zones (zf_zp f) < 2 ^ 32.
Proof using Hzp. destruct lbas_per_zone_eq as (_ & E & Hp). pose proof (zk_lbas _ Hzp). pose proof (zk_nr_zones _ Hzp). nia. Qed.

Lemma zone_size_eq : zp_zone_size (zf_zp f) = 512 * lbas_per_zone f ∧ zp_zone_size (zf_zp f) = 4096 * pgs_per_zone f.
Proof using Hzp.
  destruct lbas_per_zone_eq as (E1 & E2 & _). pose proof (zk_aligned _ Hzp). rewrite E1 in *. dlia.
Qed.

(** The memory of a zone is the part of the storage at its index. *)
Lemma storage_addr_eq zid : 0 ≤ zid < zp_nr_zones (zf_zp f) →
  get_storage_addr_from_zid f zid = zid * zp_zone_size (zf_zp f) ∧
  0 ≤ zid * zp_zone_size (zf_zp f) ≤ (zp_nr_zones (zf_zp f) - 1) * zp_zone_size (zf_zp f).
Proof using Hzp.
  intros H. destruct zone_size_eq as [E _]. pose proof (zk_lbas _ Hzp). pose proof (zk_zone_size _ Hzp).
  unfold get_storage_addr_from_zid. rewrite u64_small by nia. split; [done|nia].
Qed.
End arithmetic.

(** The dies of a zone are adjacent: their group does not wrap around. *)
Lemma die_in_group zone D T k :
  0 < D → 0 < T → T mod D = 0 → 0 ≤ k < D → (zone * D) mod T + k < T.
Proof.
  intros Hd HT Hfit Hk. set (sdie := (zone * D) mod T).
  assert (0 ≤ sdie < T) as Hs by (apply Z.mod_pos_bound; lia).
  assert (sdie mod D = 0) as Hsd.
  { unfold sdie. apply Z.mod_divide in Hfit as [q Hq]; [|lia]. rewrite Hq, (Z.mul_comm q D), (Z.mul_comm zone D).
    rewrite Zmult_mod_distr_l. rewrite Z.mul_comm. apply Z.mod_mul. lia. }
  apply Z.mod_divide in Hsd as [a Ha]; [|lia]. apply Z.mod_divide in Hfit as [b Hb]; [|lia].
  clear -Ha Hb Hd Hs Hk. assert (a + 1 ≤ b) by nia. nia.
Qed.

(** Each page of a zone is on an existing die: the address is one of the device. *)
Lemma lpn_to_ppa_in f lpn :
  zp_ok f → 0 ≤ lpn → ppa_in (zsp f) (lpn_to_ppa f lpn).
Proof.
  intros Hzp Hl. pose proof (zk_sp _ Hzp) as Hsp. pose proof (zk_luns _ Hzp) as Htt.
  pose proof (so_nchs _ Hsp) as Hn. pose proof (so_luns _ Hsp) as Hu. pose proof (zk_dies _ Hzp) as Hd.
  pose proof (zk_dies_fit _ Hzp) as Hfit. pose proof (so_blks _ Hsp) as Hb. pose proof (so_ppb _ Hsp) as Hp.
  pose proof (so_oneshot _ Hsp) as Ho. pose proof (so_oneshots _ Hsp) as Hos.
  set (D := zp_dies_per_zone (zf_zp f)) in *. set (T := tt_luns (zsp f)) in *.
  set (zone := lpn_to_zone f lpn). set (off := u64 (lpn - zone_to_slpn f zone)).
  assert (0 ≤ zone) as Hz by apply u32_range. assert (0 ≤ off) as Hoff by apply u64_range.
  assert (0 < T ≤ 2 ^ 16) as HT by nia.
  assert (D ≤ T) as HDT by (apply Z.divide_pos_le; [lia|]; apply Z.mod_divide; lia).
  set (sdie := (zone * D) mod T). set (k := (off / pgs_per_oneshotpg (zsp f)) mod D).
  assert (0 ≤ sdie < T) as Hs by (apply Z.mod_pos_bound; lia).
  assert (0 ≤ k < D) as Hk by (apply Z.mod_pos_bound; lia).
  assert (sdie + k < T) as Hsum.
  { apply die_in_group; lia. }
  assert (pgs_per_oneshotpg (zsp f) ≤ pgs_per_blk (zsp f)) as Hob.
  { clear -Ho Hos Hp. assert (0 < oneshotpgs_per_blk (zsp f)) by nia. nia. }
  unfold lpn_to_ppa. fold zone D T. fold off. fold sdie. fold k. rewrite (u32_small sdie), (u32_small (sdie + k)) by lia.
  assert (0 ≤ off mod pgs_per_oneshotpg (zsp f) < pgs_per_oneshotpg (zsp f)) as Hpg by (apply Z.mod_pos_bound; lia).
  assert (0 ≤ (sdie + k) mod nchs (zsp f) < nchs (zsp f)) as Hc by (apply Z.mod_pos_bound; lia).
  assert (0 ≤ (sdie + k) / nchs (zsp f) < luns_per_ch (zsp f)) as Hlun.
  { split; [apply Z.div_pos; lia|]. apply Z.div_lt_upper_bound; [lia|]. lia. }
  split; simpl; unfold die_to_channel, die_to_lun; rewrite ?Z.mod_small by lia; lia.
Qed.

(** ** Replacing a descriptor *)

Record zone_set (zid : Z) (d d' : zone_descriptor) (f f' : zns_ftl) : Prop := {
  zt_len : alen (zf_descs f') = alen (zf_descs f);
  zt_descs j : aget (zf_descs f') j = if decide (j = zid) then Some d' else aget (zf_descs f) j;
  zt_active : ri_acquired_cnt (zf_res f' ACTIVE_ZONE) = ri_acquired_cnt (zf_res f ACTIVE_ZONE)
    + Z.b2z (zone_active (zd_state d')) - Z.b2z (zone_active (zd_state d));
  zt_open : ri_acquired_cnt (zf_res f' OPEN_ZONE) = ri_acquired_cnt (zf_res f OPEN_ZONE)
    + Z.b2z (zone_open (zd_state d')) - Z.b2z (zone_open (zd_state d));
  zt_zrwa : ri_acquired_cnt (zf_res f' ZRWA_ZONE) = ri_acquired_cnt (zf_res f ZRWA_ZONE);
  zt_total t : ri_total_cnt (zf_res f' t) = ri_total_cnt (zf_res f t);
  zt_ssd : zf_ssd f' = zf_ssd f;
  zt_zp : zf_zp f' = zf_zp f;
  zt_report : zf_report f' = zf_report f;
  zt_zone_wb : zf_zone_wb f' = zf_zone_wb f;
  zt_zrwa_buf : alen (zf_zrwa_buf f') = alen (zf_zrwa_buf f);
  zt_storage : alen (zf_storage f') = alen (zf_storage f);
}.

Lemma zcount_set P zid d d' f f' :
  zone_set zid d d' f f' → aget (zf_descs f) zid = Some d →
  zcount P (zf_descs f') = zcount P (zf_descs f) + Z.b2z (P (zd_state d')) - Z.b2z (P (zd_state d)).
Proof.
  intros Ht Hd. unfold zcount. rewrite (zt_len _ _ _ _ _ Ht).
  rewrite (cnt_upd (λ i, match aget (zf_descs f) i with Some d => P (zd_state d) | None => false end) _ _ zid).
  - rewrite (zt_descs _ _ _ _ _ Ht), decide_True, Hd by done. lia.
  - apply NoDup_seqZ.
  - apply elem_of_seqZ. pose proof (aget_inv _ _ _ Hd). lia.
  - intros j _ Hj. by rewrite (zt_descs _ _ _ _ _ Ht), decide_False.
Qed.

Lemma zp_ok_ext f f' : zf_ssd f' = zf_ssd f → zf_zp f' = zf_zp f → zp_ok f → zp_ok f'.
Proof. intros E1 E2 []. split; unfold lbas_per_zone, zsp in *; rewrite ?E1, ?E2; done. Qed.

Lemma zinv_set zid d d' f f' sh :
  zinv (f, sh) → aget (zf_descs f) zid = Some d → zone_set zid d d' f f' →
  zone_ok (lbas_per_zone f) zid d' → zinv (f', sh).
Proof.
  intros [I1 I2 I3 (R1 & R2 & R3 & R4) I5 I6 I7 I8 I9] Hd Ht Hok. simpl in *.
  pose proof (zcount_set zone_active _ _ _ _ _ Ht Hd) as Hca. pose proof (zcount_set zone_open _ _ _ _ _ Ht Hd) as Hco.
  destruct Ht as [T1 T2 T3 T4 T5 T6 T7 T8 T9 T10 T11 T12].
  assert (lbas_per_zone f' = lbas_per_zone f) as El by (unfold lbas_per_zone, zsp; by rewrite T7, T8).
  split; simpl; rewrite ?T8, ?El; try congruence.
  - by apply (zp_ok_ext f).
  - intros i x. rewrite T2. destruct (decide (i = zid)) as [->|]; [|apply I3]. by intros [= <-].
  - unfold zres_ok. rewrite T8. split_and!; [lia|lia|lia|]. intros t. by rewrite T6.
  - intros j. specialize (I6 j). unfold wbuf_of, wb_size, zsp in *. simpl in *. rewrite T7, T8.
    destruct (zp_zone_wb_size (zf_zp f) =? 0); simpl in *; by rewrite ?T10.
Qed.

Lemma cnt_le {A} (P Q : A → bool) l : (∀ x, x ∈ l → P x = true → Q x = true) → cnt P l ≤ cnt Q l.
Proof.
  induction l as [|x l IH]; simpl; [done|]. intros H. specialize (IH ltac:(set_solver)).
  pose proof (H x ltac:(set_solver)) as Hx. destruct (P x); [rewrite Hx by done; simpl; lia|]. destruct (Q x); simpl; lia.
Qed.

Lemma zcount_bounds P a i d :
  aget a i = Some d →
  Z.b2z (P (zd_state d)) ≤ zcount P a ≤ alen a - Z.b2z (negb (P (zd_state d))).
Proof.
  intros Hd. unfold zcount. set (Q := λ i, match aget a i with Some d => P (zd_state d) | None => false end).
  pose proof (aget_inv _ _ _ Hd) as Hi.
  assert (i ∈ seqZ 0 (alen a)) as Hin by (apply elem_of_seqZ; lia).
  assert (Q i = P (zd_state d)) as HQ by (unfold Q; by rewrite Hd).
  pose proof (cnt_bounds Q (seqZ 0 (alen a))) as Hb. rewrite length_seqZ in Hb.
  destruct (P (zd_state d)) eqn:E; simpl.
  - pose proof (cnt_pos Q _ i Hin HQ). lia.
  - destruct (decide (cnt Q (seqZ 0 (alen a)) = alen a)) as [Hf|]; [|lia].
    assert (Q i = true); [|congruence]. apply (cnt_full Q (seqZ 0 (alen a))); [|done]. rewrite length_seqZ. lia.
Qed.

(** The counters never run over or under. *)
Lemma zres_bounds f sh zid d :
  zinv (f, sh) → aget (zf_descs f) zid = Some d →
  Z.b2z (zone_active (zd_state d)) ≤ ri_acquired_cnt (zf_res f ACTIVE_ZONE)
    ≤ zp_nr_zones (zf_zp f) - Z.b2z (negb (zone_active (zd_state d))) ∧
  Z.b2z (zone_open (zd_state d)) ≤ ri_acquired_cnt (zf_res f OPEN_ZONE)
    ≤ zp_nr_zones (zf_zp f) - Z.b2z (negb (zone_open (zd_state d))) ∧
  0 < zp_nr_zones (zf_zp f) < 2 ^ 32 ∧ ∀ t, ri_total_cnt (zf_res f t) = zp_nr_zones (zf_zp f).
Proof.
  intros Hinv Hd. pose proof (zi_res _ Hinv) as (R1 & R2 & _ & R4). simpl in *.
  pose proof (zcount_bounds zone_active _ _ _ Hd). pose proof (zcount_bounds zone_open _ _ _ Hd).
  pose proof (zi_len _ Hinv) as Hl. simpl in Hl. pose proof (nr_zones_bound f (zi_zp _ Hinv)).
  pose proof (zk_nr_zones _ (zi_zp _ Hinv)). simpl in *. rewrite R1, R2, <- Hl. split_and!; try lia. intros t. by rewrite R4.
Qed.

(** ** Steps *)

Lemma wp_get_zns f sh Q : Q f (f, sh) → wp get_zns (f, sh) Q.
Proof. done. Qed.
Lemma wp_mod_zns g f sh Q : Q tt (g f, sh) → wp (mod_zns g) (f, sh) Q.
Proof. done. Qed.
Lemma wp_zdesc zid d f sh Q : aget (zf_descs f) zid = Some d → Q d (f, sh) → wp (zdesc zid) (f, sh) Q.
Proof. intros Hd HQ. unfold zdesc. wp_step. apply wp_get_zns. by eapply wp_aread. Qed.
Lemma wp_zdesc_upd zid g d f sh Q :
  aget (zf_descs f) zid = Some d → Q tt (set_zdescs (aset (zf_descs f) zid (g d)) f, sh) →
  wp (zdesc_upd zid g) (f, sh) Q.
Proof.
  intros Hd HQ. unfold zdesc_upd. wp_step. apply wp_get_zns. wp_step. eapply wp_aread; [done|]. wp_step.
  apply wp_awrite; [|by apply wp_mod_zns]. by apply aget_inv in Hd.
Qed.
Lemma wp_acquire t f sh Q :
  0 ≤ ri_acquired_cnt (zf_res f t) → ri_acquired_cnt (zf_res f t) < ri_total_cnt (zf_res f t) < 2 ^ 32 →
  Q true (set_res t (ResInfo (ri_acquired_cnt (zf_res f t) + 1) (ri_total_cnt (zf_res f t))) f, sh) →
  wp (acquire_zone_resource t) (f, sh) Q.
Proof.
  intros H0 H1 HQ. unfold acquire_zone_resource. wp_step. apply wp_get_zns. unfold is_zone_resource_avail.
  rewrite (proj2 (Z.ltb_lt _ _)) by lia. wp_step. apply wp_mod_zns. rewrite u32_small by lia. by wp_step.
Qed.
Lemma wp_release t f sh Q :
  0 < ri_acquired_cnt (zf_res f t) ≤ 2 ^ 32 →
  Q tt (set_res t (ResInfo (ri_acquired_cnt (zf_res f t) - 1) (ri_total_cnt (zf_res f t))) f, sh) →
  wp (release_zone_resource t) (f, sh) Q.
Proof. intros H HQ. unfold release_zone_resource. apply wp_mod_zns. by rewrite u32_small by lia. Qed.

(** One step of a handler, on a state whose zone [zid] has a known descriptor. *)
Ltac z_known := first [eassumption | simpl; rewrite aget_aset_eq by (rewrite ?alen_aset; lia); reflexivity].
Ltac z_step :=
  first [ wp_step
        | lazymatch goal with
          | |- wp get_zns _ _ => apply wp_get_zns
          | |- wp (mod_zns _) _ _ => apply wp_mod_zns
          | |- wp (zdesc _) _ _ => eapply wp_zdesc; [z_known|]
          | |- wp (zdesc_upd _ _) _ _ => eapply wp_zdesc_upd; [z_known|]
          | |- wp (release_zone_resource _) _ _ => apply wp_release; [simpl; lia|]
          | |- wp (acquire_zone_resource _) _ _ => apply wp_acquire; [simpl; lia|simpl; lia|]
          end ];
  cbv beta iota zeta.

(** The new state of a handler as a replaced descriptor. *)
Ltac z_set :=
  split; simpl; rewrite ?alen_aset; repeat match goal with E : zd_state _ = _ |- _ => rewrite E end; simpl;
  lazymatch goal with
  | |- forall j : Z, _ =>
      intros j; repeat (rewrite aget_aset by (rewrite ?alen_aset; lia)); repeat case_decide; subst; done || congruence
  | |- forall t : zone_resource_type, _ => intros []; done
  | |- _ => done || lia
  end.
