(* ===== verification/ZnsOps.v ===== *)
(** * The zone state machine

    The effect of each zone management action and of opening a zone for a write,
    as a step of the abstract state machine [zone_next] on one zone. *)

From stdpp Require Import base numbers list gmap.
From S2P Require Import Prelude Config ChannelModel Ssd Nvme FdpLog Zns ZnsInv.

#[local] Open Scope Z_scope.

(** ** The abstract state machine *)

(** The state an action leads to from a state; [None] where the transition is
    invalid. *)
Definition zone_next (a : zone_send_action) (s : zone_state) : option zone_state :=
  match a, s with
  | ZSA_CLOSE_ZONE, (ZONE_STATE_OPENED_IMPL | ZONE_STATE_OPENED_EXPL | ZONE_STATE_CLOSED) => Some ZONE_STATE_CLOSED
  | ZSA_FINISH_ZONE, (ZONE_STATE_READ_ONLY | ZONE_STATE_OFFLINE) => None
  | ZSA_FINISH_ZONE, _ => Some ZONE_STATE_FULL
  | ZSA_OPEN_ZONE, (ZONE_STATE_EMPTY | ZONE_STATE_CLOSED | ZONE_STATE_OPENED_IMPL | ZONE_STATE_OPENED_EXPL) =>
      Some ZONE_STATE_OPENED_EXPL
  | ZSA_RESET_ZONE, (ZONE_STATE_READ_ONLY | ZONE_STATE_OFFLINE) => None
  | ZSA_RESET_ZONE, _ => Some ZONE_STATE_EMPTY
  | ZSA_OFFLINE_ZONE, (ZONE_STATE_READ_ONLY | ZONE_STATE_OFFLINE) => Some ZONE_STATE_OFFLINE
  | _, _ => None
  end.

(** The descriptor after an action: a reset moves the write pointer back. *)
Definition zone_after (a : zone_send_action) (s : zone_state) (d : zone_descriptor) : zone_descriptor :=
  match a with
  | ZSA_RESET_ZONE => zset_wp (zd_zslba d) (zset_state s d)
  | _ => zset_state s d
  end.

(** The zone's memory after an action: a reset clears it. *)
Definition storage_after (a : zone_send_action) (f : zns_ftl) (zid : Z) : arr Z :=
  match a with
  | ZSA_RESET_ZONE => afill (zf_storage f) (get_storage_addr_from_zid f zid) (zp_zone_size (zf_zp f)) 0
  | _ => zf_storage f
  end.

(** Nothing happens to a zone that already is in the state. *)
Lemma zone_set_same zid d f : aget (zf_descs f) zid = Some d → zone_set zid d d f f.
Proof.
  intros Hd. split; try done; try lia. intros j. case_decide; [|done]. by subst.
Qed.

Lemma zset_state_same d s : zd_state d = s → zset_state s d = d.
Proof. destruct d; simpl. by intros ->. Qed.

Lemma zone_set_trans zid d1 d2 d3 f1 f2 f3 :
  zone_set zid d1 d2 f1 f2 → zone_set zid d2 d3 f2 f3 → zone_set zid d1 d3 f1 f3.
Proof.
  intros [A1 A2 A3 A4 A5 A6 A7 A8 A9 A10 A11 A12] [B1 B2 B3 B4 B5 B6 B7 B8 B9 B10 B11 B12]. split; try congruence; try lia.
  intros j. rewrite B2, A2. by repeat case_decide.
Qed.

Lemma wp_arr_refill zid f sh Q :
  0 ≤ zid < alen (zf_zrwa_buf f) →
  (∀ b, Q tt (set_zrwa_buf (aset (zf_zrwa_buf f) zid b) f, sh)) →
  wp (on_buf (ZrwaBuf zid) buffer_refill) (f, sh) Q.
Proof.
  intros Hz HQ. destruct (aget_some (zf_zrwa_buf f) zid Hz) as [b Hb]. simpl. unfold on_arr_buf.
  z_step. z_step. z_step. eapply wp_aread; [done|]. simpl. z_step. z_step. z_step. apply HQ.
Qed.

Lemma wp_reset_zone zid d f sh :
  aget (zf_descs f) zid = Some d → zd_zrwav d = 0 →
  zd_state d = ZONE_STATE_EMPTY →
  (zp_zrwa_buffer_size (zf_zp f) ≠ 0 → 0 ≤ zid < alen (zf_zrwa_buf f)) →
  alen (storage_after ZSA_RESET_ZONE f zid) = alen (zf_storage f) →
  wp (reset_zone zid) (f, sh) (λ _ st', snd st' = sh ∧ zone_set zid d (zset_wp (zd_zslba d) d) f (fst st') ∧
    zf_storage (fst st') = storage_after ZSA_RESET_ZONE f zid).
Proof.
  intros Hd Hzr Hs Hbuf Hst. pose proof (aget_inv _ _ _ Hd) as Hzid. unfold reset_zone.
  assert (zset_zrwav 0 (zset_wp (zd_zslba d) d) = zset_wp (zd_zslba d) d) as E by (destruct d; simpl in *; by subst).
  z_step. z_step. z_step. z_step. z_step. z_step. z_step. z_step.
  simpl. rewrite E.
  apply wp_when; intros Hb; bool_prop.
  - apply wp_arr_refill; [simpl; by apply Hbuf|]. intros b. split_and!; try done. z_set.
  - split_and!; try done. z_set.
Qed.

(** The status of an action that is refused. *)
Definition refused (uninit : Z) (a : zone_send_action) : Z :=
  match a with
  | ZSA_FLUSH_EXPL_ZRWA => NVME_SC_ZNS_INVALID_ZONE_OPERATION
  | ZSA_SET_ZONE_DESC_EXT | ZSA_OTHER => uninit
  | _ => NVME_SC_ZNS_INVALID_TRANSITION
  end.

(** The outcome of an action on zone [zid], whose descriptor was [d]. *)
Definition action_outcome (uninit : Z) (a : zone_send_action) (zid : Z) (d : zone_descriptor) (f : zns_ftl) (sh : zshared)
    (status : Z) (st' : zstate) : Prop :=
  match zone_next a (zd_state d) with
  | Some s => status = NVME_SC_SUCCESS ∧ snd st' = sh ∧
      zone_set zid d (zone_after a s d) f (fst st') ∧ zf_storage (fst st') = storage_after a f zid
  | None => status = refused uninit a ∧ st' = (f, sh)
  end.

(** ** The actions *)

Section actions.
Context (uninit : Z) (f : zns_ftl) (sh : zshared) (zid : Z) (d : zone_descriptor).
Hypothesis Hinv : zinv (f, sh).
Hypothesis Hd : aget (zf_descs f) zid = Some d.

Lemma zid_range : 0 ≤ zid < alen (zf_descs f).
Proof using Hd. by apply aget_inv in Hd. Qed.

Lemma zone_zrwav : zd_zrwav d = 0.
Proof using Hinv Hd. by apply (zi_zones _ Hinv) in Hd as []. Qed.

(** The facts the handlers' arithmetic needs. *)
Ltac z_facts :=
  pose proof zid_range as Hzid; pose proof zone_zrwav as Hzr;
  pose proof (zres_bounds f sh zid d Hinv Hd) as (Ha & Ho & Hn & Ht);
  pose proof (Ht ACTIVE_ZONE) as HtA; pose proof (Ht OPEN_ZONE) as HtO.

Lemma wp_close_zone : wp (zmgmt_send_close_zone zid) (f, sh) (action_outcome uninit ZSA_CLOSE_ZONE zid d f sh).
Proof using Hinv Hd.
  z_facts. unfold zmgmt_send_close_zone, action_outcome. z_step. z_step.
  destruct (zd_state d) eqn:Es; simpl in *; try (by z_step).
  - unfold change_zone_state. repeat z_step. split_and!; try done. z_set.
  - unfold change_zone_state. repeat z_step. split_and!; try done. z_set.
  - z_step. split_and!; try done. rewrite zset_state_same by done. by apply zone_set_same.
Qed.

Lemma wp_finish_zone : wp (zmgmt_send_finish_zone zid) (f, sh) (action_outcome uninit ZSA_FINISH_ZONE zid d f sh).
Proof using Hinv Hd.
  z_facts. unfold zmgmt_send_finish_zone, action_outcome. z_step. z_step. rewrite Hzr. simpl.
  unfold change_zone_state. destruct (zd_state d) eqn:Es; simpl in *; repeat z_step; try done; split_and!; try done;
    first [z_set | rewrite zset_state_same by done; by apply zone_set_same].
Qed.

Lemma wp_open_zone : wp (zmgmt_send_open_zone zid 0) (f, sh) (action_outcome uninit ZSA_OPEN_ZONE zid d f sh).
Proof using Hinv Hd.
  z_facts. unfold zmgmt_send_open_zone, action_outcome, is_zone_resource_full. z_step. z_step. z_step. z_step. simpl.
  unfold change_zone_state. destruct (zd_state d) eqn:Es; simpl in *.
  1: rewrite (proj2 (Z.eqb_neq _ _)) by lia; rewrite (proj2 (Z.eqb_neq _ _)) by lia.
  all: repeat z_step; try done; split_and!; try done;
    first [z_set | rewrite zset_state_same by done; by apply zone_set_same].
Qed.

Lemma wp_offline_zone : wp (zmgmt_send_offline_zone zid) (f, sh) (action_outcome uninit ZSA_OFFLINE_ZONE zid d f sh).
Proof using Hinv Hd.
  z_facts. unfold zmgmt_send_offline_zone, action_outcome. z_step. z_step.
  pose proof (zi_zones _ Hinv _ _ Hd) as [_ _ _ Hw]. simpl in Hw.
  destruct (zd_state d) eqn:Es; simpl in *; repeat z_step; done.
Qed.

Lemma storage_after_alen g a :
  zf_zp g = zf_zp f → zf_storage g = zf_storage f → alen (storage_after a g zid) = alen (zf_storage g).
Proof using Hinv Hd.
  intros E1 E2. pose proof zid_range as Hz. pose proof (zi_len _ Hinv) as Hl. simpl in Hl. rewrite Hl in Hz.
  pose proof (zi_storage _ Hinv) as Hst. simpl in Hst.
  destruct (storage_addr_eq f (zi_zp _ Hinv) zid Hz) as [Ea Hb].
  destruct a; try done. simpl. assert (get_storage_addr_from_zid g zid = get_storage_addr_from_zid f zid) as ->.
  { unfold get_storage_addr_from_zid. by rewrite E1. }
  apply alen_afill; rewrite Ea, ?E1, ?E2; lia.
Qed.

Lemma wp_reset_action : wp (zmgmt_send_reset_zone zid) (f, sh) (action_outcome uninit ZSA_RESET_ZONE zid d f sh).
Proof using Hinv Hd.
  z_facts. unfold zmgmt_send_reset_zone, action_outcome, change_zone_state. z_step. z_step. rewrite Hzr. simpl.
  pose proof (zi_zrwa _ Hinv) as Hb. pose proof (zi_len _ Hinv) as Hl. simpl in Hb, Hl.
  assert (∀ g st', zone_set zid d (zset_state ZONE_STATE_EMPTY d) f g → zf_storage g = zf_storage f → 
    snd st' = sh ∧ zone_set zid (zset_state ZONE_STATE_EMPTY d) (zone_after ZSA_RESET_ZONE ZONE_STATE_EMPTY d) g (fst st') ∧
      zf_storage (fst st') = storage_after ZSA_RESET_ZONE g zid →
    NVME_SC_SUCCESS = NVME_SC_SUCCESS ∧ snd st' = sh ∧
      zone_set zid d (zone_after ZSA_RESET_ZONE ZONE_STATE_EMPTY d) f (fst st') ∧
      zf_storage (fst st') = storage_after ZSA_RESET_ZONE f zid) as Hend.
  { intros g st' Hg Hs (H1 & H2 & H3). split_and!; [done|done|by eapply zone_set_trans|].
    rewrite H3. unfold storage_after, get_storage_addr_from_zid. by rewrite Hs, (zt_zp _ _ _ _ _ Hg). }
  destruct (zd_state d) eqn:Es; simpl in *; repeat (z_step || (apply wp_when; intros [=]; [])); try done.
  all: eapply wp_mono; [apply (wp_reset_zone _ (zset_state ZONE_STATE_EMPTY d));
     [simpl; by rewrite aget_aset_eq|done|done|simpl; intros ?; rewrite Hb; case_match; bool_prop; lia|by apply storage_after_alen]|].
  all: simpl; intros [] st'; intros Hst; z_step; eapply Hend; [| |exact Hst]; [z_set|done].
Qed.

Lemma wp_zmgmt_send slba a :
  lba_to_zone f slba = zid → wp (zmgmt_send uninit slba a 0) (f, sh) (action_outcome uninit a zid d f sh).
Proof using Hinv Hd.
  intros Hz. unfold zmgmt_send. z_step. z_step. rewrite Hz. destruct a.
  - apply wp_close_zone.
  - apply wp_finish_zone.
  - apply wp_open_zone.
  - apply wp_reset_action.
  - apply wp_offline_zone.
  - by z_step.
  - unfold zmgmt_send_flush_explicit_zrwa. z_step. z_step. rewrite Hz. z_step. z_step. rewrite zone_zrwav. by apply wp_ret.
  - by z_step.
Qed.

Lemma zone_after_ok a s :
  zone_next a (zd_state d) = Some s → zone_ok (lbas_per_zone f) zid (zone_after a s d).
Proof using Hinv Hd.
  intros Hn. pose proof (zi_zones _ Hinv _ _ Hd) as [Hc Hs Hz Hw]. simpl in *.
  destruct (lbas_per_zone_eq f (zi_zp _ Hinv)) as (_ & Hl & Hp).
  split; destruct a; try done; simpl in *; rewrite ?Hs, ?Z.sub_diag;
    destruct (zd_state d); simplify_eq/=; try done; lia.
Qed.

(** An action keeps the invariant. *)
Lemma action_zinv a status st' : action_outcome uninit a zid d f sh status st' → zinv st'.
Proof using Hinv Hd.
  unfold action_outcome. destruct (zone_next a (zd_state d)) as [s|] eqn:E; [|by intros [_ ->]].
  destruct st' as [f' sh']. simpl. intros (_ & -> & Ht & _). eapply zinv_set; [done..|]. by apply zone_after_ok.
Qed.
End actions.

(** ** One zone, or all of them *)

(** The descriptor of a zone an action was sent to. *)
Definition zone_acted (a : zone_send_action) (d : zone_descriptor) : zone_descriptor :=
  match zone_next a (zd_state d) with Some s => zone_after a s d | None => d end.
(** The action clears the zone's memory. *)
Definition clears (a : zone_send_action) : bool := match a with ZSA_RESET_ZONE => true | _ => false end.

(** The zones [lo .. hi-1] were acted on. *)
Record acted (a : zone_send_action) (lo hi : Z) (st st' : zstate) : Prop := {
  ac_inv : zinv st';
  ac_shared : snd st' = snd st;
  ac_zp : zf_zp (fst st') = zf_zp (fst st);
  ac_ssd : zf_ssd (fst st') = zf_ssd (fst st);
  ac_zone_wb : zf_zone_wb (fst st') = zf_zone_wb (fst st);
  ac_descs j : aget (zf_descs (fst st')) j =
    (if bool_decide (lo ≤ j < hi) then zone_acted a else id) <$> aget (zf_descs (fst st)) j;
  ac_storage k : aget (zf_storage (fst st')) k =
    if clears a && bool_decide (lo * zp_zone_size (zf_zp (fst st)) ≤ k < hi * zp_zone_size (zf_zp (fst st)))
    then Some 0 else aget (zf_storage (fst st)) k;
}.

Lemma acted_nil a i st : zinv st → acted a i i st st.
Proof.
  intros H. split; try done.
  - intros j. rewrite bool_decide_eq_false_2 by lia. by destruct (aget _ j).
  - intros k. rewrite bool_decide_eq_false_2 by lia. by rewrite andb_false_r.
Qed.

Lemma acted_trans a lo mid hi st1 st2 st3 :
  lo ≤ mid ≤ hi → acted a lo mid st1 st2 → acted a mid hi st2 st3 → acted a lo hi st1 st3.
Proof.
  intros Hm [A1 A2 A3 A4 A7 A5 A6] [B1 B2 B3 B4 B7 B5 B6]. pose proof (zk_zone_size _ (zi_zp _ A1)) as Hz.
  rewrite A3 in Hz, B6. split; try congruence.
  - intros j. rewrite B5, A5. repeat case_bool_decide; destruct (aget _ j); simpl; done || lia.
  - intros k. rewrite B6, A6. destruct (clears a); simpl; [|done]. repeat case_bool_decide; try done; nia.
Qed.

Lemma action_acted uninit a zid d f sh status st' :
  zinv (f, sh) → aget (zf_descs f) zid = Some d → action_outcome uninit a zid d f sh status st' →
  acted a zid (zid + 1) (f, sh) st'.
Proof.
  intros Hinv Hd Ho. pose proof (action_zinv _ _ _ _ _ Hinv Hd _ _ _ Ho) as Hinv'.
  pose proof (aget_inv _ _ _ Hd) as Hzid. pose proof (zi_len _ Hinv) as Hl. simpl in Hl. rewrite Hl in Hzid.
  unfold action_outcome in Ho.
  assert (∀ j, bool_decide (zid ≤ j < zid + 1) = bool_decide (j = zid)) as Hb by (intros j; apply bool_decide_ext; lia).
  destruct (storage_addr_eq f (zi_zp _ Hinv) zid Hzid) as [Ea Hz0]. pose proof (zi_storage _ Hinv) as Hst. simpl in Hst.
  pose proof (zi_zones _ Hinv _ _ Hd) as [_ _ _ Hw]. simpl in Hw.
  destruct (zone_next a (zd_state d)) as [s|] eqn:En.
  - destruct Ho as (_ & Hsh & Ht & Hs). split; try done; try apply Ht.
    + intros j. rewrite Hb, (zt_descs _ _ _ _ _ Ht). simpl. case_decide; case_bool_decide; try done; subst.
      * rewrite Hd. simpl. unfold zone_acted. by rewrite En.
      * by destruct (aget _ j).
    + intros k. rewrite Hs. simpl. destruct a; simpl; try done.
      rewrite aget_afill by (rewrite Ea; lia). rewrite Ea. case_decide; case_bool_decide; done || lia.
  - destruct Ho as [_ ->]. split; try done.
    + intros j. rewrite Hb. simpl. case_bool_decide; [subst|by destruct (aget _ j)].
      rewrite Hd. simpl. unfold zone_acted. by rewrite En.
    + intros k. simpl. destruct a; simpl; try done. by destruct (zd_state d).
Qed.

Lemma wp_send_one uninit slba a f sh :
  zinv (f, sh) → 0 ≤ lba_to_zone f slba < zp_nr_zones (zf_zp f) →
  wp (zmgmt_send uninit slba a 0) (f, sh) (λ status st',
    acted a (lba_to_zone f slba) (lba_to_zone f slba + 1) (f, sh) st' ∧
    ∃ d, aget (zf_descs f) (lba_to_zone f slba) = Some d ∧
      status = match zone_next a (zd_state d) with Some _ => NVME_SC_SUCCESS | None => refused uninit a end).
Proof.
  intros Hinv Hz. destruct (aget_some (zf_descs f) (lba_to_zone f slba)) as [d Hd].
  { pose proof (zi_len _ Hinv) as Hl. simpl in Hl. by rewrite Hl. }
  eapply wp_mono; [by eapply wp_zmgmt_send|]. intros status st' Ho. split; [by eapply action_acted|].
  exists d. split; [done|]. unfold action_outcome in Ho. case_match; by destruct Ho.
Qed.

Lemma wp_send_all uninit a f sh :
  zinv (f, sh) →
  wp (for_range 0 (zp_nr_zones (zf_zp f)) (λ zid,
       g ← get_zns; zmgmt_send uninit (zone_to_slba g zid) a 0 ;; mret tt)) (f, sh)
     (λ _ st', acted a 0 (zp_nr_zones (zf_zp f)) (f, sh) st').
Proof.
  intros Hinv. pose proof (zk_nr_zones _ (zi_zp _ Hinv)) as Hn. simpl in Hn.
  apply (wp_for_range (λ i st, acted a 0 i (f, sh) st)); [lia|by apply acted_nil| |done].
  intros i [g sh'] Hi Ha. pose proof (ac_inv _ _ _ _ _ Ha) as Hg. pose proof (ac_zp _ _ _ _ _ Ha) as Ez.
  simpl in *. z_step. z_step. z_step.
  assert (lba_to_zone g (zone_to_slba g i) = i) as Ei.
  { destruct (lbas_per_zone_eq g (zi_zp _ Hg)) as (_ & E & Hp). simpl in *.
    rewrite zone_to_slba_eq by (apply (zi_zp _ Hg) || rewrite Ez; lia).
    rewrite <- (Z.add_0_r (i * _)). apply lba_in_zone; [apply (zi_zp _ Hg)|rewrite Ez; lia|lia]. }
  eapply wp_mono; [apply wp_send_one; [done|rewrite Ei, Ez; lia]|].
  rewrite Ei. intros status st' [Hst _]. z_step. eapply acted_trans; [|done..]. lia.
Qed.

Lemma wp_zns_zmgmt_send uninit cmd start ret f sh :
  zinv (f, sh) → zsend_zsaso cmd = 0 →
  (zsend_select_all cmd = false → 0 ≤ lba_to_zone f (zsend_slba cmd) < zp_nr_zones (zf_zp f)) →
  wp (zns_zmgmt_send uninit cmd start ret) (f, sh) (λ r st',
    ret_nsecs_target r = start ∧ ret_result r = ret_result ret ∧
    if zsend_select_all cmd then
      ret_status r = NVME_SC_SUCCESS ∧ acted (zsend_zsa cmd) 0 (zp_nr_zones (zf_zp f)) (f, sh) st'
    else
      let zid := lba_to_zone f (zsend_slba cmd) in
      acted (zsend_zsa cmd) zid (zid + 1) (f, sh) st' ∧
      ∃ d, aget (zf_descs f) zid = Some d ∧
        ret_status r = match zone_next (zsend_zsa cmd) (zd_state d) with
                       | Some _ => NVME_SC_SUCCESS | None => refused uninit (zsend_zsa cmd) end).
Proof.
  intros Hinv Hzo Hz. unfold zns_zmgmt_send. rewrite Hzo. z_step. z_step. z_step. destruct (zsend_select_all cmd).
  - z_step. eapply wp_mono; [by apply wp_send_all|]. intros [] st' Hst. z_step. z_step. done.
  - eapply wp_mono; [by apply wp_send_one; auto|]. intros status st' [H1 H2]. z_step. done.
Qed.
