(* ===== verification/ZnsWrite.v ===== *)
(** * Sequential writes, reads and flushes of a zoned namespace

    What [__zns_write], [zns_read] and [zns_flush] do to a namespace in order:
    the status of every command, the descriptor of the zone, the write buffer and
    the release operations handed to the I/O engine. *)

From stdpp Require Import base numbers list gmap.
From S2P Require Import Prelude Config ChannelModel Ssd Nvme FdpLog Zns ZnsInv ZnsOps.

#[local] Open Scope Z_scope.

(** ** The abstract write *)

Definition zone_opened (d : zone_descriptor) : zone_descriptor :=
  match zd_state d with
  | ZONE_STATE_EMPTY | ZONE_STATE_CLOSED => zset_state ZONE_STATE_OPENED_IMPL d
  | _ => d
  end.

(** [nr] blocks were written at the write pointer of an open zone. *)
Definition zone_advanced (nr : Z) (d : zone_descriptor) : zone_descriptor :=
  let w := zd_wp d + nr in
  if w =? zd_zslba d + zd_zone_capacity d then zset_state ZONE_STATE_FULL (zset_wp w d) else zset_wp w d.

Definition zone_written (nr : Z) (d : zone_descriptor) : zone_descriptor := zone_advanced nr (zone_opened d).

Definition write_slba (cmd : nvme_rw_command) (d : zone_descriptor) : Z :=
  if rw_opcode cmd =? nvme_cmd_zone_append then zd_wp d else rw_slba cmd.

(** The status of a write of [nr] blocks at [slba] to a zone of [cap] blocks. *)
Definition write_status (unit_size cap nr slba : Z) (d : zone_descriptor) : Z :=
  if negb ((nr * 512) mod unit_size =? 0) then NVME_SC_ZNS_INVALID_WRITE
  else if negb (slba / cap =? (slba + nr - 1) / cap) then NVME_SC_ZNS_ERR_BOUNDARY
  else if negb (slba =? zd_wp d) then NVME_SC_ZNS_INVALID_WRITE
  else if decide (zd_state d = ZONE_STATE_FULL) then NVME_SC_ZNS_ERR_FULL
  else NVME_SC_SUCCESS.

(** ** Buffers *)

Lemma wp_on_buf {A} b x (m : M buffer A) st Q :
  get_buf b st = Some x → wp m x (λ a x', Q a (put_buf b x' st)) → wp (on_buf b m) st Q.
Proof.
  destruct st as [f sh]. destruct b as [|zid|zid]; simpl; intros Hb Hw.
  - injection Hb as <-. wp_step. exact Hw.
  - unfold on_arr_buf. z_step. z_step. z_step. eapply wp_aread; [done|]. unfold wp in Hw.
    destruct (m x) as [[a x']|]; [|done]. z_step. z_step. z_step. exact Hw.
  - unfold on_arr_buf. z_step. z_step. z_step. eapply wp_aread; [done|]. unfold wp in Hw.
    destruct (m x) as [[a x']|]; [|done]. z_step. z_step. z_step. exact Hw.
Qed.

Lemma wp_allocate size x wbs :
  buffer_sane wbs x → 0 ≤ size ≤ wbs →
  wp (buffer_allocate size) x (λ r x',
    if buf_remaining x <? size then r = 0 ∧ x' = x
    else r = size ∧ x' = Buffer (buf_size x) (buf_remaining x - size) ∧ buffer_sane wbs x').
Proof.
  intros (Hb & Hm & Hl) Hs. unfold buffer_allocate. wp_step. wp_step. wp_step.
  apply wp_assert; [apply Z.leb_le; lia|]. wp_step. wp_step. wp_step.
  destruct (buf_remaining x <? size) eqn:E; bool_prop.
  - rewrite Z.sub_0_r, u64_small by lia. by destruct x.
  - rewrite u64_small, u32_small by lia. split_and!; try done. unfold buffer_sane. simpl. lia.
Qed.


Lemma wbuf_cases f : (∀ zid, wbuf_of f zid = GlobalBuf) ∨ (∀ zid, wbuf_of f zid = ZoneBuf zid).
Proof. unfold wbuf_of. destruct (zp_zone_wb_size (zf_zp f) =? 0); auto. Qed.

(** Replacing the write buffer of a zone keeps the invariant. *)
Lemma zinv_put zid x f sh :
  zinv (f, sh) → 0 ≤ zid < zp_nr_zones (zf_zp f) → buffer_sane (wb_size f) x →
  zinv (put_buf (wbuf_of f zid) x (f, sh)).
Proof.
  intros Hinv Hz Hx. pose proof Hinv as [I1 I2 I3 I4 I5 I6 I7 I8 I9]. simpl in I1, I2, I3, I4, I5, I7, I8, I9.
  destruct (wbuf_cases f) as [E|E]; rewrite E; simpl.
  - split; simpl; try done; [|by destruct I7].
    intros j Hj. exists x. simpl. by rewrite E.
  - destruct (I6 zid Hz) as (y & Hy & _). simpl in Hy. rewrite E in Hy. apply aget_inv in Hy.
    split; simpl; try done; [by apply (zp_ok_ext f)|]. intros j Hj. destruct (I6 j Hj) as (z & Hz' & Hs). simpl in *.
    change (wbuf_of (set_zone_wb _ f) j) with (wbuf_of f j). rewrite E in Hz' |- *. simpl in *.
    rewrite aget_aset by done. case_decide; [by exists x|eauto].
Qed.

(** ** Timing *)

(** Only the performance model moved; [ops] were handed to the I/O engine. *)
Record ztimed (ops : list (zbuf * internal_op)) (st st' : zstate) : Prop := {
  td_ftl : ∃ s, fst st' = set_zssd s (fst st);
  td_step : timing_step (zf_ssd (fst st), zs_env (snd st)) (zf_ssd (fst st'), zs_env (snd st'));
  td_ops : zs_ops (snd st') = zs_ops (snd st) ++ ops;
}.

Lemma ztimed_refl st : zinv st → ztimed [] st st.
Proof.
  intros H. split; [|split; [apply H|done]|by rewrite app_nil_r]. exists (zf_ssd (fst st)). by destruct st as [[] ?].
Qed.

Lemma ztimed_trans o1 o2 st1 st2 st3 : ztimed o1 st1 st2 → ztimed o2 st2 st3 → ztimed (o1 ++ o2) st1 st3.
Proof.
  intros [[s1 E1] T1 O1] [[s2 E2] T2 O2]. split; [|by eapply timing_step_trans|].
  - exists s2. by rewrite E2, E1.
  - by rewrite O2, O1, app_assoc.
Qed.

Lemma ztimed_zp ops st st' : ztimed ops st st' →
  zf_zp (fst st') = zf_zp (fst st) ∧ zsp (fst st') = zsp (fst st) ∧ zf_descs (fst st') = zf_descs (fst st) ∧
  zf_storage (fst st') = zf_storage (fst st) ∧ ∀ b, get_buf b st' = get_buf b st.
Proof.
  intros [[s E] (H1 & H2 & H3) O]. rewrite E in H2 |- *. split_and!; try done; [apply H2|].
  intros []; simpl in *; by rewrite ?E, ?H3.
Qed.

Lemma zinv_timed ops st st' : zinv st → ztimed ops st st' → zinv st'.
Proof.
  destruct st as [f sh], st' as [f' sh']. intros Hinv Ht. pose proof (ztimed_zp _ _ _ Ht) as (E1 & E2 & E3 & E4 & E5).
  destruct Ht as [[s Ef] (H1 & H2 & H3) O]. simpl in Ef. subst f'. pose proof Hinv as [I1 I2 I3 I4 I5 I6 I7 I8 I9]. simpl in *.
  assert (zsp (set_zssd s f) = zsp f) as E2' by apply H2. clear E2.
  assert (lbas_per_zone (set_zssd s f) = lbas_per_zone f) as El by (unfold lbas_per_zone; by rewrite E2').
  split; simpl; try done.
  - destruct I1 as [K1 K2 K3 K4 K5 K6 K7 K8 K9]. split; rewrite ?E2', ?El; done.
  - intros i d Hd. rewrite El. by apply I3.
  - intros j Hj. destruct (I6 j Hj) as (x & Hx & Hs). exists x. rewrite E5. split; [done|]. unfold wb_size in *. simpl in *. by rewrite E2'.
Qed.

Lemma wp_on_zssd {A} (m : M sst A) f sh (P : A → Prop) :
  wp m (zf_ssd f, zs_env sh) (λ a se', timing_step (zf_ssd f, zs_env sh) se' ∧ P a) →
  wp (on_zssd m) (f, sh) (λ a st', ztimed [] (f, sh) st' ∧ P a).
Proof.
  intros H. unfold on_zssd. wp_step. eapply wp_mono; [exact H|]. intros a [s e] [Ht HP]. split; [|done].
  split; simpl; [by exists s|done|by rewrite app_nil_r].
Qed.

(** ** Opening a zone and moving its write pointer *)

Section zone.
Context (f : zns_ftl) (sh : zshared) (zid : Z) (d : zone_descriptor).
Hypothesis Hinv : zinv (f, sh).
Hypothesis Hd : aget (zf_descs f) zid = Some d.

Lemma wp_open_for_write :
  wp (open_for_write zid (zd_wp d)) (f, sh) (λ r st',
    if decide (zd_state d = ZONE_STATE_FULL) then r = Some NVME_SC_ZNS_ERR_FULL ∧ st' = (f, sh)
    else r = None ∧ snd st' = sh ∧ zone_set zid d (zone_opened d) f (fst st') ∧ zf_storage (fst st') = zf_storage f).
Proof using Hinv Hd.
  pose proof (aget_inv _ _ _ Hd) as Hzid. pose proof (zres_bounds f sh zid d Hinv Hd) as (Ha & Ho & Hn & Ht).
  pose proof (Ht ACTIVE_ZONE) as HtA. pose proof (Ht OPEN_ZONE) as HtO.
  pose proof (zi_zones _ Hinv _ _ Hd) as [_ Hs _ Hw]. simpl in *.
  unfold open_for_write, is_zone_resource_full, change_zone_state, zone_opened. z_step. z_step. z_step. z_step.
  destruct (zd_state d) eqn:Es; simpl in *; try done.
  1: rewrite (proj2 (Z.eqb_eq _ _)) by lia; simpl; rewrite !(proj2 (Z.eqb_neq _ _)) by lia.
  all: repeat z_step; rewrite ?decide_True, ?decide_False by done; split_and!; try done; first [z_set | by apply zone_set_same].
Qed.

(** The blocks fit in the zone. *)
Lemma wp_increase_write_ptr nr :
  zone_open (zd_state d) = true → 0 < nr → zd_wp d + nr ≤ zd_zslba d + zd_zone_capacity d →
  wp (increase_write_ptr zid nr) (f, sh) (λ _ st',
    snd st' = sh ∧ zone_set zid d (zone_advanced nr d) f (fst st') ∧ zf_storage (fst st') = zf_storage f).
Proof using Hinv Hd.
  intros Hop Hnr Hfit. pose proof (aget_inv _ _ _ Hd) as Hzid. pose proof (zi_len _ Hinv) as Hl. simpl in Hl.
  pose proof (zres_bounds f sh zid d Hinv Hd) as (Ha & Ho & Hn & _).
  pose proof (zi_zones _ Hinv _ _ Hd) as [Hc Hs _ Hw]. simpl in *. pose proof (zone_bound f (zi_zp _ Hinv) zid ltac:(lia)) as Hb.
  assert (0 ≤ zd_wp d) as Hw0.
  { destruct (lbas_per_zone_eq f (zi_zp _ Hinv)) as (_ & E & Hp). simpl in *. destruct (zd_state d); simpl in *; nia || done. }
  unfold increase_write_ptr, change_zone_state, zone_advanced. z_step. z_step. z_step. z_step. z_step. z_step.
  rewrite zone_to_slba_eq by (apply (zi_zp _ Hinv) || lia). rewrite <- Hs, (u64_small (zd_wp d + nr)), u64_small by lia.
  assert (zone_active (zd_state d) = true) as Hac by (by destruct (zd_state d)). rewrite Hop, Hac in *. simpl in *.
  destruct (zd_wp d + nr =? zd_zslba d + zd_zone_capacity d).
  - repeat z_step. split_and!; try done. split; simpl; rewrite ?alen_aset, ?Hop, ?Hac; try done; try (simpl; lia).
    + intros j. repeat (rewrite aget_aset by (rewrite ?alen_aset; lia)). repeat case_decide; subst; done || congruence.
    + by intros [].
  - z_step. split_and!; try done. split; simpl; rewrite ?alen_aset, ?Hop, ?Hac; try done; try (simpl; lia).
    intros j. rewrite aget_aset by lia. repeat case_decide; subst; done || congruence.
Qed.
End zone.

Lemma zone_written_ok cap i d nr :
  0 < cap → zone_ok cap i d → zd_state d ≠ ZONE_STATE_FULL → 0 < nr → zd_wp d + nr ≤ zd_zslba d + zd_zone_capacity d →
  zone_ok cap i (zone_opened d) ∧ zone_ok cap i (zone_written nr d) ∧ zone_open (zd_state (zone_opened d)) = true ∧
  zd_wp (zone_opened d) = zd_wp d ∧ zd_zslba (zone_opened d) = zd_zslba d ∧ zd_zone_capacity (zone_opened d) = zd_zone_capacity d.
Proof.
  intros Hcap [Hc Hs Hz Hw] Hf Hnr Hfit. unfold zone_written, zone_opened.
  assert (wp_range ZONE_STATE_OPENED_IMPL (zd_wp d - i * cap) cap) as Hr by (destruct (zd_state d); simpl in *; lia || done).
  destruct d as [s v k z w]; simpl in *. subst.
  destruct s; simpl in *; try done; unfold zone_advanced; simpl; case_match; bool_prop; split_and!; try done; split; simpl; done || lia.
Qed.

(** ** The page loop *)

(** The bytes of a zone whose buffer space is given back once its first [o]
    pages have been written: whole one-shot pages, and at the end of the zone the
    rest of it. *)
Definition zone_released (f : zns_ftl) (o : Z) : Z :=
  if o =? pgs_per_zone f then zp_zone_size (zf_zp f)
  else o / pgs_per_oneshotpg (zsp f) * (pgs_per_oneshotpg (zsp f) * 4096).

(** An operation that gives space of [buf] back. *)
Definition op_on (buf : zbuf) (op : zbuf * internal_op) : Prop := fst op = buf ∧ 0 ≤ iop_size (snd op).
Definition ops_size (ops : list (zbuf * internal_op)) : Z := zsum (λ o, iop_size (snd o)) ops.

Lemma zone_lpn f zid o :
  zp_ok f → 0 ≤ zid < zp_nr_zones (zf_zp f) → 0 ≤ o < pgs_per_zone f →
  lpn_to_zone f (zid * pgs_per_zone f + o) = zid ∧ zone_to_slpn f zid = zid * pgs_per_zone f ∧
  zone_to_elpn f zid = zid * pgs_per_zone f + pgs_per_zone f - 1 ∧ zid * pgs_per_zone f + pgs_per_zone f < 2 ^ 32.
Proof.
  intros Hzp Hz Ho. destruct (lbas_per_zone_eq f Hzp) as (_ & E & Hp). pose proof (zone_bound f Hzp zid Hz) as Hb.
  pose proof (nr_zones_bound f Hzp) as Hn. pose proof (so_pgsz _ (zk_sp _ Hzp)) as (_ & E8 & _).
  unfold lpn_to_zone, zone_to_slpn, zone_to_elpn, zone_to_elba. rewrite zone_to_slba_eq by (done || lia).
  rewrite Z.div_add_l, (Z.div_small o), Z.add_0_r by lia. rewrite E8, (u32_small zid), u32_small by nia.
  split_and!; [done|done| |nia]. rewrite u64_small by nia. rewrite E. clear -Hp. dlia.
Qed.

Lemma lpn_to_ppa_pg f zid o :
  zp_ok f → 0 ≤ zid < zp_nr_zones (zf_zp f) → 0 ≤ o < pgs_per_zone f →
  g_pg (lpn_to_ppa f (zid * pgs_per_zone f + o)) = o mod pgs_per_oneshotpg (zsp f).
Proof.
  intros Hzp Hz Ho. destruct (zone_lpn f zid o Hzp Hz Ho) as (E1 & E2 & _ & Hb).
  assert (u64 (zid * pgs_per_zone f + o - zid * pgs_per_zone f) = o) as Eu by (rewrite Z.add_simpl_l; apply u64_small; nia). pose proof (zk_sp _ Hzp) as Hsp.
  pose proof (so_oneshot _ Hsp) as HP. pose proof (so_oneshots _ Hsp) as Hos. pose proof (so_ppb _ Hsp) as Hpb.
  pose proof (Z.mod_pos_bound o (pgs_per_oneshotpg (zsp f)) HP) as Hm.
  unfold lpn_to_ppa. rewrite E1, E2, Eu. simpl.
  apply Z.mod_small. assert (0 < oneshotpgs_per_blk (zsp f)) by nia. nia.
Qed.

Lemma lpn_to_ppa_die f zid o :
  zp_ok f → 0 ≤ zid < zp_nr_zones (zf_zp f) → 0 ≤ o < pgs_per_zone f →
  let die := (zid * zp_dies_per_zone (zf_zp f)) mod tt_luns (zsp f)
             + (o / pgs_per_oneshotpg (zsp f)) mod zp_dies_per_zone (zf_zp f) in
  g_ch (lpn_to_ppa f (zid * pgs_per_zone f + o)) = die mod nchs (zsp f) ∧
  g_lun (lpn_to_ppa f (zid * pgs_per_zone f + o)) = die / nchs (zsp f).
Proof.
  intros Hzp Hz Ho die. destruct (zone_lpn f zid o Hzp Hz Ho) as (E1 & E2 & _ & Hb).
  assert (u64 (zid * pgs_per_zone f + o - zid * pgs_per_zone f) = o) as Eu by (rewrite Z.add_simpl_l; apply u64_small; nia).
  pose proof (zk_sp _ Hzp) as Hsp. pose proof (so_nchs _ Hsp) as Hn. pose proof (so_luns _ Hsp) as Hlu. pose proof (zk_dies _ Hzp) as HD.
  pose proof (zk_luns _ Hzp) as HT. pose proof (zk_dies_fit _ Hzp) as Hfit.
  assert (0 < tt_luns (zsp f) ≤ 2 ^ 16) as HTb by nia.
  assert (zp_dies_per_zone (zf_zp f) ≤ tt_luns (zsp f)) as HDT by (apply Z.divide_pos_le; [lia|]; apply Z.mod_divide; lia).
  pose proof (Z.mod_pos_bound (zid * zp_dies_per_zone (zf_zp f)) (tt_luns (zsp f)) ltac:(lia)) as M1.
  pose proof (Z.mod_pos_bound (o / pgs_per_oneshotpg (zsp f)) (zp_dies_per_zone (zf_zp f)) HD) as M2.
  unfold lpn_to_ppa. rewrite E1, E2, Eu. rewrite (u32_small (_ mod tt_luns _)), u32_small by lia. fold die. simpl.
  pose proof (die_in_group zid _ (tt_luns (zsp f)) _ HD ltac:(lia) Hfit M2) as Hdie. fold die in Hdie.
  assert (0 ≤ die) as Hd0 by (unfold die; lia). pose proof (Z.mod_pos_bound die (nchs (zsp f)) ltac:(lia)) as M3.
  assert (0 ≤ die / nchs (zsp f) < luns_per_ch (zsp f)) as M4.
  { split; [apply Z.div_pos; lia|]. apply Z.div_lt_upper_bound; lia. }
  unfold die_to_channel, die_to_lun. rewrite !(Z.mod_small _ (2 ^ 8)) by lia. done.
Qed.

(** One round of the loop releases the one-shot page it completes. *)
Lemma released_step f o n :
  zp_ok f → 0 ≤ o → 0 < n → o + n ≤ pgs_per_zone f →
  let P := pgs_per_oneshotpg (zsp f) in
  o mod P + n ≤ P →
  zone_released f (o + n) = zone_released f o +
    (if (o mod P + n =? P) || (o + n =? pgs_per_zone f) then
       if (o + n =? pgs_per_zone f) && (0 <? zp_zone_size (zf_zp f) mod (P * 4096))
       then zp_zone_size (zf_zp f) mod (P * 4096) else P * 4096
     else 0).
Proof.
  intros Hzp Ho Hn HN P HP. pose proof (so_oneshot _ (zk_sp _ Hzp)) as HP0. destruct (zone_size_eq f Hzp) as [_ Ez].
  unfold zone_released. fold P. rewrite Ez. set (N := pgs_per_zone f) in *. clear Ez Hzp. fold P in HP0.
  rewrite (proj2 (Z.eqb_neq o N)) by lia. rewrite (Z.mul_comm 4096 N), Z.mul_mod_distr_r by lia.
  pose proof (Z.div_mod o P ltac:(lia)) as Eo. pose proof (Z.mod_pos_bound o P HP0) as Hm.
  set (q := o / P) in *. set (r := o mod P) in *.
  destruct (Z.eqb_spec (r + n) P) as [E1|E1], (Z.eqb_spec (o + n) N) as [E2|E2]; simpl.
  - assert (N = (q + 1) * P) as EN by lia. rewrite EN, Z.mod_mul by lia. simpl. nia.
  - assert (o + n = (q + 1) * P) as EN by lia. rewrite EN, Z.div_mul by lia. nia.
  - assert (N mod P = r + n) as EN. { symmetry. apply (Z.mod_unique_pos _ _ q); lia. }
    rewrite EN. rewrite (proj2 (Z.ltb_lt _ _)) by lia. nia.
  - assert ((o + n) / P = q) as EN. { symmetry. apply (Z.div_unique_pos _ _ _ (r + n)); lia. }
    rewrite EN. lia.
Qed.

Section loop.
Context `{!Clock} `{!LocalClock}.
Hypothesis clock_range : ∀ n, 0 ≤ cpu_clock n.

Lemma wp_zadvance_nand ncmd f sh :
  zinv (f, sh) → ppa_in (zsp f) (ncmd_ppa ncmd) → 0 ≤ ncmd_stime ncmd →
  (ncmd_cmd ncmd = NAND_READ → 0 < ncmd_xfer_size ncmd) →
  wp (on_zssd (ssd_advance_nand ncmd)) (f, sh) (λ t st', ztimed [] (f, sh) st' ∧ 0 ≤ t).
Proof using clock_range.
  intros Hinv Hp Ht Hr. apply wp_on_zssd. eapply wp_mono; [by apply (wp_advance_nand clock_range); [apply Hinv|..]|].
  intros t se' (H1 & H2 & _). done.
Qed.

Lemma wp_schedule buf sq t n f sh :
  zinv (f, sh) → wp (schedule_release buf sq t n) (f, sh) (λ _ st', ztimed [(buf, InternalOp sq t n)] (f, sh) st').
Proof.
  intros Hinv. unfold schedule_release. wp_step. split; simpl; [by exists (zf_ssd f); destruct f|split; [apply Hinv|done]|done].
Qed.

Lemma wp_write_pages buf sq f sh zid o e xfer :
  zinv (f, sh) → 0 ≤ zid < zp_nr_zones (zf_zp f) → 0 ≤ o ≤ e → e < pgs_per_zone f → 0 ≤ xfer →
  wp (zns_write_pages buf sq (zid * pgs_per_zone f + o) (zid * pgs_per_zone f + e) (zone_to_elpn f zid) xfer) (f, sh)
    (λ t st', 0 ≤ t ∧ ∃ ops, ztimed ops (f, sh) st' ∧ Forall (op_on buf) ops ∧
      ops_size ops = zone_released f (e + 1) - zone_released f o).
Proof using clock_range.
  intros Hinv Hz Ho He Hx. pose proof (zi_zp _ Hinv) as Hzp. simpl in Hzp.
  pose proof (so_oneshot _ (zk_sp _ Hzp)) as HP. pose proof (so_pgsz _ (zk_sp _ Hzp)) as (E4 & _ & _).
  destruct (zone_lpn f zid o Hzp Hz ltac:(lia)) as (_ & _ & Ee & Hb).
  unfold zns_write_pages. z_step. z_step. set (B := zid * pgs_per_zone f) in *.
  apply (wp_while (λ '(lpn, t) st, B + o ≤ lpn ≤ B + e + 1 ∧ 0 ≤ t ∧ ∃ ops, ztimed ops (f, sh) st ∧
      Forall (op_on buf) ops ∧ ops_size ops = zone_released f (lpn - B) - zone_released f o)
    (λ '(lpn, t), B + e + 1 - lpn)).
  { split_and!; try lia. exists []. split_and!; [by apply ztimed_refl|done|].
    replace (B + o - B) with o by lia. unfold ops_size. simpl. lia. }
  { lia. }
  intros [lpn t] [f1 sh1] (Hl & Ht & ops & Htd & Hops & Hsz). split; [lia|].
  destruct (Z.leb_spec lpn (B + e)) as [Hle|Hgt]; cbn [negb].
  2: { z_step. split; [done|]. exists ops. split_and!; try done. rewrite Hsz. do 2 f_equal. lia. }
  pose proof (zinv_timed _ _ _ Hinv Htd) as Hinv1. pose proof (ztimed_zp _ _ _ Htd) as (Ez & Es & _). simpl in Ez, Es.
  cbv zeta. assert (lpn = B + (lpn - B)) as El by lia. remember (lpn - B) as k. subst lpn.
  pose proof (lpn_to_ppa_pg f zid k Hzp Hz ltac:(lia)) as Hpg. fold B in Hpg. rewrite Hpg, Z.mod_mod by lia.
  pose proof (Z.mod_pos_bound k (pgs_per_oneshotpg (zsp f)) HP) as Hm.
  set (n := Z.min _ _). assert (0 < n ∧ k + n ≤ e + 1 ∧ k mod pgs_per_oneshotpg (zsp f) + n ≤ pgs_per_oneshotpg (zsp f)) as (Hn & Hke & Hr) by lia.
  pose proof (released_step f k n Hzp ltac:(lia) Hn ltac:(lia) Hr) as Hrel. cbv zeta in Hrel.
  assert ((B + k + n - 1 =? zone_to_elpn f zid) = (k + n =? pgs_per_zone f)) as Eend.
  { rewrite Ee. destruct (Z.eqb_spec (k + n) (pgs_per_zone f)); [apply Z.eqb_eq|apply Z.eqb_neq]; lia. }
  rewrite Eend, E4. destruct ((k mod _ + n =? _) || (k + n =? pgs_per_zone f)).
  - z_step. eapply wp_mono; [apply wp_zadvance_nand; [done|simpl; rewrite Es; apply lpn_to_ppa_in; [done|nia]|done|done]|].
    intros tc [f2 sh2] [Ht2 Htc]. simpl. pose proof (zinv_timed _ _ _ Hinv1 Ht2) as Hinv2.
    z_step. eapply wp_mono; [by apply wp_schedule|]. intros [] st3 Ht3. z_step. split_and!; try lia.
    eexists. split_and!; [eapply ztimed_trans; [exact Htd|eapply ztimed_trans; [exact Ht2|exact Ht3]]| |].
    + apply Forall_app_2; [done|]. simpl. constructor; [|done]. split; [done|]. simpl.
      case_match; [|lia]. apply Z.mod_pos_bound. lia.
    + replace (B + k + n - B) with (k + n) by lia. rewrite Hrel. unfold ops_size in *. rewrite zsum_app, Hsz. simpl. lia.
  - z_step. split_and!; try lia. exists ops. split_and!; try done.
    replace (B + k + n - B) with (k + n) by lia. rewrite Hrel, Hsz. lia.
Qed.
End loop.

(** ** The effect of a write *)

(** The zone's descriptor became [d'], its write buffer [x'], and [ops] were
    handed to the I/O engine; the rest of the namespace is as it was. *)
Record zeffect (zid : Z) (d' : zone_descriptor) (x' : buffer) (ops : list (zbuf * internal_op)) (st st' : zstate) : Prop := {
  ze_inv : zinv st';
  ze_zp : zf_zp (fst st') = zf_zp (fst st);
  ze_sp : zsp (fst st') = zsp (fst st);
  ze_descs j : aget (zf_descs (fst st')) j = if decide (j = zid) then Some d' else aget (zf_descs (fst st)) j;
  ze_buf : get_buf (wbuf_of (fst st) zid) st' = Some x';
  ze_others j : wbuf_of (fst st) j ≠ wbuf_of (fst st) zid → get_buf (wbuf_of (fst st) j) st' = get_buf (wbuf_of (fst st) j) st;
  ze_ops : zs_ops (snd st') = zs_ops (snd st) ++ ops;
  ze_storage : zf_storage (fst st') = zf_storage (fst st);
}.

Lemma zeffect_put zid d x x' f sh :
  zinv (f, sh) → 0 ≤ zid < zp_nr_zones (zf_zp f) → aget (zf_descs f) zid = Some d →
  get_buf (wbuf_of f zid) (f, sh) = Some x → buffer_sane (wb_size f) x' →
  zeffect zid d x' [] (f, sh) (put_buf (wbuf_of f zid) x' (f, sh)).
Proof.
  intros Hinv Hz Hd Hx Hs. pose proof (zinv_put zid x' f sh Hinv Hz Hs) as Hi.
  assert (∀ j, aget (zf_descs f) j = if decide (j = zid) then Some d else aget (zf_descs f) j) as Hds.
  { intros j. case_decide; by subst. }
  destruct (wbuf_cases f) as [E|E].
  - split; try exact Hi; simpl; rewrite ?E; simpl; rewrite ?app_nil_r; try done. intros j. by rewrite !E.
  - rewrite E in Hx. simpl in Hx. apply aget_inv in Hx.
    split; try exact Hi; simpl; rewrite ?E; simpl; rewrite ?app_nil_r; try done.
    + by rewrite aget_aset_eq.
    + intros j. rewrite !E. intros Hj. simpl. rewrite aget_aset_ne; [done|]. congruence.
Qed.

Lemma wbuf_of_ext f f' zid : zf_zp f' = zf_zp f → wbuf_of f' zid = wbuf_of f zid.
Proof. intros E. unfold wbuf_of. by rewrite E. Qed.

Lemma zeffect_set zid d d' x' ops st f1 f2 sh1 :
  zeffect zid d x' ops st (f1, sh1) → zone_set zid d d' f1 f2 → zf_storage f2 = zf_storage f1 →
  zone_ok (lbas_per_zone (fst st)) zid d' → zeffect zid d' x' ops st (f2, sh1).
Proof.
  intros [E1 E2 E3 E4 E5 E6 E7 E8] Ht Hst Hok. simpl in *.
  assert (aget (zf_descs f1) zid = Some d) as Hd by (rewrite E4; by rewrite decide_True).
  assert (lbas_per_zone f1 = lbas_per_zone (fst st)) as El by (unfold lbas_per_zone; by rewrite E2, E3).
  assert (∀ j, get_buf (wbuf_of (fst st) j) (f2, sh1) = get_buf (wbuf_of (fst st) j) (f1, sh1)) as Hb.
  { intros j. destruct (wbuf_cases (fst st)) as [E|E]; rewrite E; simpl; [done|]. by rewrite (zt_zone_wb _ _ _ _ _ Ht). }
  split; simpl; rewrite ?Hb; try done.
  - eapply zinv_set; [exact E1|exact Hd|exact Ht|by rewrite El].
  - by rewrite (zt_zp _ _ _ _ _ Ht).
  - unfold zsp. by rewrite (zt_ssd _ _ _ _ _ Ht).
  - intros j. rewrite (zt_descs _ _ _ _ _ Ht), E4. by repeat case_decide.
  - intros j Hj. rewrite Hb. by apply E6.
  - by rewrite Hst.
Qed.

Lemma zeffect_timed zid d x' o1 o2 st st1 st2 :
  zeffect zid d x' o1 st st1 → ztimed o2 st1 st2 → zeffect zid d x' (o1 ++ o2) st st2.
Proof.
  intros [E1 E2 E3 E4 E5 E6 E7 E8] Ht. pose proof (ztimed_zp _ _ _ Ht) as (T1 & T2 & T3 & T4 & T5).
  split; rewrite ?T1, ?T2, ?T3, ?T4, ?T5; try done.
  - by eapply zinv_timed.
  - intros j Hj. rewrite T5. by apply E6.
  - by rewrite (td_ops _ _ _ Ht), E7, app_assoc.
Qed.

Lemma LBA_TO_BYTE_512 c n : LBA_BITS c = 9 → 0 ≤ n < 2 ^ 32 → LBA_TO_BYTE c n = n * 512.
Proof. intros E H. unfold LBA_TO_BYTE. rewrite E, Z.shiftl_mul_pow2 by lia. apply u64_small. lia. Qed.

(** A command whose blocks are in the namespace. *)
Record zrw_ok (c : ssd_config) (f : zns_ftl) (cmd : nvme_rw_command) : Prop := {
  zw_bits : LBA_BITS c = 9;
  zw_slba : 0 ≤ rw_slba cmd < zp_nr_zones (zf_zp f) * lbas_per_zone f;
  zw_length : 0 ≤ rw_length cmd < 2 ^ 16;
}.
Definition rw_zid (f : zns_ftl) (cmd : nvme_rw_command) : Z := rw_slba cmd / lbas_per_zone f.
Definition rw_nr (cmd : nvme_rw_command) : Z := rw_length cmd + 1.

Lemma zrw_facts c f cmd :
  zp_ok f → zrw_ok c f cmd →
  nr_lbas_from_rw_cmd cmd = rw_nr cmd ∧ 0 < rw_nr cmd ≤ 2 ^ 16 ∧ LBA_TO_BYTE c (rw_nr cmd) = rw_nr cmd * 512 ∧
  lba_to_zone f (rw_slba cmd) = rw_zid f cmd ∧ lpn_to_zone f (lba_to_lpn f (rw_slba cmd)) = rw_zid f cmd ∧
  0 ≤ rw_zid f cmd < zp_nr_zones (zf_zp f).
Proof.
  intros Hzp [Hb Hs Hl]. destruct (lbas_per_zone_eq f Hzp) as (_ & E & Hp). pose proof (zk_lbas _ Hzp) as Hn.
  pose proof (zk_nr_zones _ Hzp) as Hn0. pose proof (so_pgsz _ (zk_sp _ Hzp)) as (_ & E8 & _).
  unfold nr_lbas_from_rw_cmd, rw_nr, rw_zid, lba_to_lpn, lpn_to_zone.
  assert (0 ≤ rw_slba cmd / lbas_per_zone f < zp_nr_zones (zf_zp f)) as Hz.
  { split; [apply Z.div_pos; lia|apply Z.div_lt_upper_bound; lia]. }
  rewrite u32_small by lia. rewrite LBA_TO_BYTE_512 by (done || lia).
  rewrite lba_to_zone_eq by (done || nia). rewrite E8, Z.div_div by lia. rewrite <- E.
  pose proof (nr_zones_bound f Hzp). rewrite u32_small by lia. split_and!; done || lia.
Qed.

(** The boundary check, for any start a zone's write pointer can have. *)
Lemma check_boundary_eq f slba nr :
  zp_ok f → 0 ≤ slba ≤ 2 ^ 32 → 0 < nr ≤ 2 ^ 16 →
  check_boundary_error f slba nr = (slba / lbas_per_zone f =? (slba + nr - 1) / lbas_per_zone f).
Proof.
  intros Hzp Hs Hn. destruct (lbas_per_zone_eq f Hzp) as (_ & E & Hp). unfold check_boundary_error.
  rewrite u64_small by lia. rewrite !lba_to_zone_eq by (done || nia). done.
Qed.

Section write.
Context `{!Clock} `{!LocalClock}.
Hypothesis clock_range : ∀ n, 0 ≤ cpu_clock n.

Lemma wp_zwrite_buffer t len f sh :
  zinv (f, sh) → wp (on_zssd (ssd_advance_write_buffer t len)) (f, sh) (λ r st', ztimed [] (f, sh) st' ∧ 0 ≤ r).
Proof using clock_range.
  intros Hinv. apply wp_on_zssd. unfold ssd_advance_write_buffer. wp_step. wp_step. cbv zeta.
  eapply wp_mono; [apply wp_advance_pcie; [apply Hinv|apply u64_range]|].
  intros r se' (H1 & H2 & _). done.
Qed.

(** The blocks of a write that passed the checks are in the zone. *)
Lemma write_fits cap i d nr :
  0 < cap → zone_ok cap i d → zd_state d ≠ ZONE_STATE_FULL → 0 < nr →
  (zd_wp d / cap =? (zd_wp d + nr - 1) / cap) = true →
  ∃ off, zd_wp d = i * cap + off ∧ 0 ≤ off ∧ off + nr ≤ cap.
Proof.
  intros Hc [_ Hs _ Hw] Hf Hn He. exists (zd_wp d - i * cap). apply Z.eqb_eq in He.
  assert (0 ≤ zd_wp d - i * cap < cap) as Hr by (destruct (zd_state d); simpl in *; lia || done).
  split_and!; [lia|lia|]. set (w := zd_wp d) in *. assert (w / cap = i) as E.
  { symmetry. apply (Z.div_unique_pos _ _ _ (w - i * cap)); lia. }
  rewrite E in He. pose proof (Z.div_mod (w + nr - 1) cap ltac:(lia)). pose proof (Z.mod_pos_bound (w + nr - 1) cap Hc). nia.
Qed.

(** The new descriptor, and the bytes handed back, of a write that ends with [status]. *)
Definition after_write (status nr : Z) (d : zone_descriptor) : zone_descriptor :=
  if status =? NVME_SC_SUCCESS then zone_written nr d else d.
Definition released_by (f : zns_ftl) (status nr : Z) (d : zone_descriptor) : Z :=
  if status =? NVME_SC_SUCCESS
  then zone_released f ((zd_wp d - zd_zslba d + nr - 1) / 8 + 1) - zone_released f ((zd_wp d - zd_zslba d) / 8)
  else 0.

(** The part of [__zns_write] after its checks. *)
Lemma wp_zwrite_data {A} bytes buf sq start nr zid d x' f sh f1 sh1 off (out : Z → Z → Z → M zstate A) Q :
  zinv (f, sh) → aget (zf_descs f) zid = Some d → zd_state d ≠ ZONE_STATE_FULL → 0 < nr →
  zd_wp d = zid * lbas_per_zone f + off → 0 ≤ off → off + nr ≤ lbas_per_zone f →
  zeffect zid d x' [] (f, sh) (f1, sh1) →
  (∀ latest xfer ops st', zeffect zid (zone_written nr d) x' ops (f, sh) st' → Forall (op_on buf) ops →
     ops_size ops = released_by f NVME_SC_SUCCESS nr d → wp (out NVME_SC_SUCCESS latest xfer) st' Q) →
  wp (err ← open_for_write zid (zd_wp d);
      match err with
      | Some status => out status start start
      | None =>
          increase_write_ptr zid nr ;;
          xfer ← on_zssd (ssd_advance_write_buffer start bytes);
          latest ← zns_write_pages buf sq (lba_to_lpn f (zd_wp d)) (lba_to_lpn f (u64 (zd_wp d + nr - 1)))
                     (zone_to_elpn f zid) xfer;
          out NVME_SC_SUCCESS latest xfer
      end) (f1, sh1) Q.
Proof using clock_range.
  intros Hinv Hd Hf Hn Hw Ho Hfit He Hout. pose proof (zi_zp _ Hinv) as Hzp. pose proof (aget_inv _ _ _ Hd) as Hzid.
  pose proof (zi_len _ Hinv) as Hl. simpl in Hzp, Hl. rewrite Hl in Hzid. pose proof (zone_bound f Hzp zid Hzid) as Hb.
  destruct (lbas_per_zone_eq f Hzp) as (_ & E8 & Hp). pose proof (zi_zones _ Hinv _ _ Hd) as Hok. simpl in Hok.
  destruct (zone_written_ok (lbas_per_zone f) zid d nr ltac:(lia) Hok Hf Hn) as (Hok1 & Hok2 & Hop & W1 & W2 & W3).
  { rewrite (zo_zslba _ _ _ Hok), (zo_capacity _ _ _ Hok). lia. }
  assert (aget (zf_descs f1) zid = Some d) as Hd1 by (pose proof (ze_descs _ _ _ _ _ _ He zid) as X; by rewrite decide_True in X).
  z_step. eapply wp_mono; [by apply (wp_open_for_write f1 sh1 zid d (ze_inv _ _ _ _ _ _ He))|].
  intros r [f2 sh2] Hr. rewrite decide_False in Hr by done. destruct Hr as (-> & Hsh & Hs2 & Hst2). simpl in *. subst sh2.
  pose proof (zeffect_set _ _ _ _ _ _ _ _ _ He Hs2 Hst2 Hok1) as He2.
  assert (aget (zf_descs f2) zid = Some (zone_opened d)) as Hd2 by (rewrite (zt_descs _ _ _ _ _ Hs2); by rewrite decide_True).
  z_step. eapply wp_mono; [apply (wp_increase_write_ptr f2 sh1 zid _ (ze_inv _ _ _ _ _ _ He2) Hd2 nr Hop Hn)|].
  { rewrite W1, W2, W3, (zo_zslba _ _ _ Hok), (zo_capacity _ _ _ Hok). lia. }
  intros [] [f3 sh3] (Hsh & Hs3 & Hst3). simpl in *. subst sh3.
  pose proof (zeffect_set _ _ _ _ _ _ _ _ _ He2 Hs3 Hst3 Hok2) as He3. clear He2.
  z_step. eapply wp_mono; [apply wp_zwrite_buffer, (ze_inv _ _ _ _ _ _ He3)|]. intros xfer [f4 sh4] [Ht4 Hx].
  pose proof (zeffect_timed _ _ _ _ _ _ _ _ He3 Ht4) as He4. simpl in He4. clear He3 Ht4.
  pose proof (ze_zp _ _ _ _ _ _ He4) as Ez. pose proof (ze_sp _ _ _ _ _ _ He4) as Es. simpl in Ez, Es.
  assert (pgs_per_zone f4 = pgs_per_zone f) as Ep by (unfold pgs_per_zone; by rewrite Ez, Es).
  assert (zone_to_elpn f4 zid = zone_to_elpn f zid) as Ee.
  { unfold zone_to_elpn, zone_to_elba, zone_to_slba, lbas_per_zone. by rewrite Ez, Es. }
  assert (∀ o, zone_released f4 o = zone_released f o) as Er.
  { intros o. unfold zone_released. by rewrite Ep, Ez, Es. }
  assert (∀ k, 0 ≤ k → lba_to_lpn f (zid * lbas_per_zone f + k) = zid * pgs_per_zone f + k / 8) as Elpn.
  { intros k Hk. unfold lba_to_lpn. rewrite (proj1 (proj2 (so_pgsz _ (zk_sp _ Hzp)))), E8.
    replace (zid * (8 * pgs_per_zone f) + k) with (zid * pgs_per_zone f * 8 + k) by lia. apply Z.div_add_l. lia. }
  rewrite u64_small by lia. replace (zd_wp d + nr - 1) with (zid * lbas_per_zone f + (off + nr - 1)) by lia. rewrite Hw at 1.
  rewrite !Elpn by lia. rewrite <- Ep, <- Ee. z_step.
  eapply wp_mono; [apply (wp_write_pages clock_range); [apply (ze_inv _ _ _ _ _ _ He4)|by rewrite Ez| |rewrite Ep, E8 in *; dlia|done]|].
  { split; [apply Z.div_pos; lia|apply Z.div_le_mono; lia]. }
  intros latest st5 (_ & ops & Ht5 & Hops & Hsz). eapply Hout; [|exact Hops|].
  - by apply (zeffect_timed _ _ _ [] ops _ _ _ He4).
  - rewrite Hsz, !Er. unfold released_by. simpl. rewrite (zo_zslba _ _ _ Hok), Hw.
    by replace (zid * lbas_per_zone f + off - zid * lbas_per_zone f) with off by lia.
Qed.

(** [__zns_write] on a sequential zone: the command is retried when the buffer is
    short, and otherwise ends with the status of the abstract write; the buffer
    space is taken even when the command fails. *)
Lemma wp_zns_write_seq c req ret f sh zid nr d x slba status :
  zinv (f, sh) → zrw_ok c f (req_cmd req) → zid = rw_zid f (req_cmd req) → nr = rw_nr (req_cmd req) →
  nr * 512 ≤ wb_size f → aget (zf_descs f) zid = Some d → get_buf (wbuf_of f zid) (f, sh) = Some x →
  slba = write_slba (req_cmd req) d → status = write_status (write_unit_size (zsp f)) (lbas_per_zone f) nr slba d →
  wp (zns_write_seq c req ret) (f, sh) (λ '(ok, r, cmd') st',
    cmd' = (if rw_opcode (req_cmd req) =? nvme_cmd_zone_append then set_slba slba (req_cmd req) else req_cmd req) ∧
    ret_result r = (if rw_opcode (req_cmd req) =? nvme_cmd_zone_append then slba else ret_result ret) ∧
    if buf_remaining x <? nr * 512 then
      ok = false ∧ ret_status r = ret_status ret ∧ zeffect zid d x [] (f, sh) st'
    else
      ok = true ∧ ret_status r = status ∧
      ∃ ops, zeffect zid (after_write status nr d) (Buffer (buf_size x) (buf_remaining x - nr * 512)) ops (f, sh) st' ∧
        Forall (op_on (wbuf_of f zid)) ops ∧ ops_size ops = released_by f status nr d).
Proof using clock_range.
  intros Hinv Hrw Hz Hn Hbuf Hd Hx Hslba Hstatus. pose proof (zi_zp _ Hinv) as Hzp. simpl in Hzp.
  destruct (zrw_facts c f _ Hzp Hrw) as (F1 & F2 & F3 & F4 & _ & F6). rewrite <- Hn in *. rewrite <- Hz in *.
  pose proof (zi_zones _ Hinv _ _ Hd) as Hok. simpl in Hok. destruct (lbas_per_zone_eq f Hzp) as (_ & E8 & Hp).
  assert (0 ≤ slba ≤ 2 ^ 32) as Hsl.
  { pose proof (zone_bound f Hzp zid F6). pose proof (zw_slba _ _ _ Hrw). pose proof (zk_lbas _ Hzp).
    rewrite Hslba. unfold write_slba. destruct Hok as [_ _ _ Hw].
    case_match; [|lia]. destruct (zd_state d); simpl in Hw; nia || done. }
  unfold zns_write_seq. z_step. z_step. rewrite F1, F4, F3. z_step. z_step.
  fold (write_slba (req_cmd req) d). rewrite <- Hslba. fold (wbuf_of f zid).
  destruct (zi_bufs _ Hinv zid F6) as (x0 & Hx0 & Hsane). simpl in Hx0, Hsane. rewrite Hx in Hx0. injection Hx0 as <-.
  z_step. eapply wp_on_buf; [done|]. eapply wp_mono; [by apply (wp_allocate _ _ (wb_size f)); [|lia]|]. intros n x' Hal.
  destruct (Z.ltb_spec (buf_remaining x) (nr * 512)) as [Hlt|Hge].
  { destruct Hal as [-> ->]. rewrite (proj2 (Z.ltb_lt _ _)) by lia. z_step. split_and!; [done|by repeat case_match|done|by repeat case_match|].
    by apply (zeffect_put _ _ x). }
  destruct Hal as (-> & -> & Hsane'). rewrite (proj2 (Z.ltb_ge _ _)) by lia.
  pose proof (zeffect_put zid d x _ f sh Hinv F6 Hd Hx Hsane') as He. destruct (put_buf _ _ _) as [f1 sh1] eqn:Eput.
  unfold checked_mod. rewrite (proj2 (Z.eqb_neq _ 0)) by (pose proof (zk_unit _ Hzp); lia). z_step. z_step.
  rewrite check_boundary_eq by (done || lia). rewrite Hstatus. unfold write_status.
  assert (∀ s, s ≠ NVME_SC_SUCCESS → ∃ ops, zeffect zid (after_write s nr d) (Buffer (buf_size x) (buf_remaining x - nr * 512)) ops (f, sh) (f1, sh1) ∧
    Forall (op_on (wbuf_of f zid)) ops ∧ ops_size ops = released_by f s nr d) as Herr.
  { intros s Hs. exists []. unfold after_write, released_by. rewrite (proj2 (Z.eqb_neq _ _) Hs). done. }
  destruct (negb ((nr * 512) mod _ =? 0)). { z_step. split_and!; [done|by repeat case_match|done|done|by apply Herr]. }
  destruct (slba / _ =? _) eqn:Eb; cbn [negb]. 2: { z_step. split_and!; [done|by repeat case_match|done|done|by apply Herr]. }
  destruct (Z.eqb_spec slba (zd_wp d)) as [Ew|Ew]; cbn [negb]. 2: { z_step. split_and!; [done|by repeat case_match|done|done|by apply Herr]. }
  rewrite Ew in Eb |- *. destruct (decide (zd_state d = ZONE_STATE_FULL)) as [Ef|Ef].
  - z_step. eapply wp_mono; [apply (wp_open_for_write f1 sh1 zid d (ze_inv _ _ _ _ _ _ He))|].
    { pose proof (ze_descs _ _ _ _ _ _ He zid) as X. by rewrite decide_True in X. }
    intros r st' Hr. cbv beta in Hr. rewrite decide_True in Hr by done. destruct Hr as [-> ->]. z_step. split_and!; [by repeat case_match|by repeat case_match|done|done|by apply Herr].
  - destruct (write_fits (lbas_per_zone f) zid d nr ltac:(lia) Hok Ef ltac:(lia) Eb) as (off & Ho1 & Ho2 & Ho3).
    eapply (wp_zwrite_data (nr * 512) (wbuf_of f zid) (req_sq_id req) (req_nsecs_start req) nr zid d _ f sh f1 sh1 off
      (λ s l xf, mret (write_out (zsp f) _ _ s l xf, _))); try done; [lia|].
    intros latest xfer ops st' He' Hops Hsz. z_step. split_and!; [by repeat case_match|by repeat case_match|done|done|]. by exists ops.
Qed.
End write.
