(* ===== verification/ZnsIo.v ===== *)
(** * Reads, flushes, zone reports and command dispatch of a zoned namespace

    The handlers that leave the zones alone, the copy of a report to host memory
    through PRP entries, and the dispatcher on top of all handlers. *)

From stdpp Require Import base numbers list gmap.
From S2P Require Import Prelude Config ChannelModel Ssd Nvme FdpLog Zns ZnsInv ZnsOps ZnsWrite.

#[local] Open Scope Z_scope.

Definition read_status (cap nr slba : Z) : Z :=
  if slba / cap =? (slba + nr - 1) / cap then NVME_SC_SUCCESS else NVME_SC_ZNS_ERR_BOUNDARY.

Definition read_stime (spp : ssdparams) (nr start : Z) : Z :=
  u64 (start + if nr * 512 <=? KB 4 then fw_4kb_rd_lat spp else fw_rd_lat spp).

Section io.
Context `{!Clock} `{!LocalClock}.
Hypothesis clock_range : ∀ n, 0 ≤ cpu_clock n.

Lemma wp_read_pages stime slpn elpn f sh :
  zinv (f, sh) → 0 ≤ slpn → slpn ≤ elpn + 1 → 0 ≤ stime →
  wp (zns_read_pages stime slpn elpn) (f, sh) (λ t st', stime ≤ t ∧ ztimed [] (f, sh) st').
Proof using clock_range.
  intros Hinv Hs He Ht. pose proof (zi_zp _ Hinv) as Hzp. simpl in Hzp. pose proof (so_flash _ (zk_sp _ Hzp)) as HP.
  pose proof (proj1 (so_pgsz _ (zk_sp _ Hzp))) as E4. unfold zns_read_pages. z_step. z_step.
  apply (wp_while (λ '(lpn, t) st, slpn ≤ lpn ≤ elpn + 1 ∧ stime ≤ t ∧ ztimed [] (f, sh) st) (λ '(lpn, t), elpn + 1 - lpn)).
  { split_and!; try lia. by apply ztimed_refl. }
  { lia. }
  intros [lpn t] [f1 sh1] (Hl & Htt & Htd). split; [lia|]. destruct (Z.leb_spec lpn elpn) as [Hle|Hgt]; cbn [negb]; [|by z_step].
  cbv zeta. pose proof (Z.mod_pos_bound (g_pg (lpn_to_ppa f lpn)) (pgs_per_flashpg (zsp f)) HP) as Hm.
  set (n := Z.min _ _). assert (0 < n ≤ elpn - lpn + 1) as Hn by lia.
  pose proof (zinv_timed _ _ _ Hinv Htd) as Hinv1. pose proof (ztimed_zp _ _ _ Htd) as (_ & Es & _). simpl in Es.
  z_step. eapply wp_mono; [apply (wp_zadvance_nand clock_range); [done| |done|simpl; intros _; rewrite E4; lia]|].
  { rewrite Es. apply lpn_to_ppa_in; [done|lia]. }
  intros tc st2 [Ht2 Htc]. z_step. split_and!; try lia. apply (ztimed_trans [] [] _ _ _ Htd Ht2).
Qed.

(** [zns_read]: only the performance model moves, the status tells whether the
    blocks are in one zone. *)
Lemma wp_zns_read c req ret f sh :
  zinv (f, sh) → zrw_ok c f (req_cmd req) → 0 ≤ req_nsecs_start req →
  let nr := rw_nr (req_cmd req) in
  wp (zns_read c req ret) (f, sh) (λ '(ok, r) st',
    ok = true ∧ ret_status r = read_status (lbas_per_zone f) nr (rw_slba (req_cmd req)) ∧ ret_result r = ret_result ret ∧
    read_stime (zsp f) nr (req_nsecs_start req) ≤ ret_nsecs_target r ∧ ztimed [] (f, sh) st').
Proof using clock_range.
  intros Hinv Hrw Hst nr. pose proof (zi_zp _ Hinv) as Hzp. simpl in Hzp.
  destruct (zrw_facts c f _ Hzp Hrw) as (F1 & F2 & F3 & F4 & F5 & F6).
  destruct (aget_some (zf_descs f) (rw_zid f (req_cmd req))) as [d Hd].
  { pose proof (zi_len _ Hinv) as Hl. simpl in Hl. by rewrite Hl. }
  pose proof (zi_zones _ Hinv _ _ Hd) as [_ _ _ Hw]. simpl in Hw. pose proof (zw_slba _ _ _ Hrw) as Hsl. pose proof (zk_lbas _ Hzp) as Hlb.
  unfold zns_read. z_step. z_step. rewrite F1, F5. z_step. z_step.
  rewrite decide_False by (intros E; by rewrite E in Hw). rewrite check_boundary_eq, F3 by (done || lia). fold nr in F2, F3 |- *.
  fold (read_stime (zsp f) nr (req_nsecs_start req)). assert (0 ≤ read_stime (zsp f) nr (req_nsecs_start req)) as Hs0 by apply u64_range.
  z_step. eapply wp_mono; [apply wp_read_pages; [done| | |done]|].
  1: apply Z.div_pos; [lia|rewrite (proj1 (proj2 (so_pgsz _ (zk_sp _ Hzp)))); lia].
  1: { unfold lba_to_lpn. rewrite (proj1 (proj2 (so_pgsz _ (zk_sp _ Hzp)))), u64_small by lia.
    pose proof (Z.div_le_mono (rw_slba (req_cmd req)) (rw_slba (req_cmd req) + nr - 1) 8). lia. }
  intros t [f1 sh1] [Ht Htd]. z_step.
  eapply wp_mono; [apply wp_on_zssd|].
  { eapply wp_mono; [apply wp_advance_pcie; [apply (zi_timing _ (zinv_timed _ _ _ Hinv Htd))|lia]|].
    intros r se' (X1 & X2 & _). split; [exact X1|exact X2]. }
  intros t2 st2 [Ht2 _]. z_step. split_and!; try done; simpl.
  - unfold read_status. by destruct (_ / _ =? _).
  - lia.
  - apply (ztimed_trans [] [] _ _ _ Htd Ht2).
Qed.

(** [zns_flush] waits for every LUN. *)
Lemma wp_zns_flush ret f sh :
  zinv (f, sh) →
  wp (zns_flush ret) (f, sh) (λ r st',
    ret_status r = NVME_SC_SUCCESS ∧ ret_result r = ret_result ret ∧ ztimed [] (f, sh) st' ∧
    ∀ p l, get_lun (zf_ssd f) p = Some l → lun_next_lun_avail_time l ≤ ret_nsecs_target r).
Proof using clock_range.
  intros Hinv. unfold zns_flush. z_step. unfold get_zlocal_clock, wp at 1. simpl. z_step.
  eapply wp_mono; [apply wp_on_zssd with (P := λ t, ∀ p l, get_lun (zf_ssd f) p = Some l → lun_next_lun_avail_time l ≤ t)|].
  { eapply wp_mono; [apply (wp_next_idle_time clock_range); apply Hinv|]. simpl. intros t [s' e'] (-> & H1 & H2 & _ & H3). done. }
  intros t [f' sh'] [[[s E] H2 H3] Hall]. z_step. simpl in *. split_and!; try done.
  - split; simpl; [by exists s|done|done].
  - intros p l Hl. specialize (Hall p l Hl). lia.
Qed.
End io.

(** ** The copy of a buffer to host memory *)

(** The host page the [k]-th copy goes to: the two entries of the command, or the
    list the second one points to when the rest does not fit in a page. *)
Definition prp_entry (host_word : Z → Z) (prp1 prp2 length : Z) (k : nat) : Z :=
  match k with
  | O => prp1
  | S k' => if length - (PAGE_SIZE - prp1 mod PAGE_SIZE) <=? PAGE_SIZE then prp2
            else host_word (prp2 + 8 * Z.of_nat k')
  end.

(** The copies are adjacent in the buffer, from [lo] to [hi], and each stays
    inside the page it starts in. *)
Fixpoint seg_cover (lo hi : Z) (segs : list segment) : Prop :=
  match segs with
  | [] => lo = hi
  | s :: segs' =>
      seg_offset s = lo ∧ 0 < seg_size s ∧ seg_paddr s mod PAGE_SIZE + seg_size s ≤ PAGE_SIZE ∧
      seg_cover (lo + seg_size s) hi segs'
  end.

Lemma seg_cover_app lo mid hi l1 l2 : seg_cover lo mid l1 → seg_cover mid hi l2 → seg_cover lo hi (l1 ++ l2).
Proof.
  revert lo. induction l1 as [|s l1 IH]; simpl; intros lo; [by intros ->|]. intros (H1 & H2 & H3 & H4) H. split_and!; auto.
Qed.

Definition prp_segments (host_word : Z → Z) (prp1 prp2 length : Z) (segs : list segment) : Prop :=
  seg_cover 0 length segs ∧ ∀ k s, segs !! k = Some s → seg_paddr s = prp_entry host_word prp1 prp2 length k.

(** The loop's locals after some copies. *)
Record prp_inv (host_word : Z → Z) (prp1 prp2 len : Z) (offset remaining prp_offs prp2_offs : Z)
    (plist : option Z) (segs : list segment) : Prop := {
  px_sum : offset + remaining = len;
  px_rem : 0 ≤ remaining;
  px_count : prp_offs = Z.of_nat (length segs);
  px_cover : seg_cover 0 offset segs;
  px_entry k s : segs !! k = Some s → seg_paddr s = prp_entry host_word prp1 prp2 len k;
  px_first : prp_offs ≤ 1 → prp2_offs = 0 ∧ plist = None;
  px_one : prp_offs = 1 → remaining ≠ 0 → remaining = len - (PAGE_SIZE - prp1 mod PAGE_SIZE);
  px_list : 2 ≤ prp_offs → remaining ≠ 0 →
    PAGE_SIZE < len - (PAGE_SIZE - prp1 mod PAGE_SIZE) ∧ plist = Some prp2 ∧ prp2_offs = prp_offs - 1;
}.

Definition seg_bytes (paddr remaining : Z) : Z :=
  let io_size := Z.min remaining PAGE_SIZE in
  if PAGE_SIZE <? io_size + paddr mod PAGE_SIZE then PAGE_SIZE - paddr mod PAGE_SIZE else io_size.

Lemma seg_bytes_ok paddr remaining :
  0 < remaining → 0 < seg_bytes paddr remaining ≤ remaining ∧ paddr mod PAGE_SIZE + seg_bytes paddr remaining ≤ PAGE_SIZE ∧
  (seg_bytes paddr remaining ≠ remaining → seg_bytes paddr remaining = PAGE_SIZE - paddr mod PAGE_SIZE).
Proof.
  intros H. unfold seg_bytes. pose proof (Z.mod_pos_bound paddr PAGE_SIZE ltac:(done)) as Hm. unfold PAGE_SIZE in *.
  case_match; bool_prop; lia.
Qed.

Lemma prp_inv_step host_word prp1 prp2 len offset remaining prp_offs prp2_offs plist segs plist' prp2_offs' paddr :
  prp_inv host_word prp1 prp2 len offset remaining prp_offs prp2_offs plist segs → 0 < remaining →
  (len - (PAGE_SIZE - prp1 mod PAGE_SIZE) ≤ PAGE_SIZE → prp2 mod PAGE_SIZE = 0) →
  paddr = prp_entry host_word prp1 prp2 len (length segs) →
  (prp_offs = 0 → prp2_offs' = 0 ∧ plist' = None) →
  (1 ≤ prp_offs → PAGE_SIZE < len - (PAGE_SIZE - prp1 mod PAGE_SIZE) → plist' = Some prp2 ∧ prp2_offs' = prp_offs) →
  prp_inv host_word prp1 prp2 len (offset + seg_bytes paddr remaining) (remaining - seg_bytes paddr remaining)
    (prp_offs + 1) prp2_offs' plist' (segs ++ [Segment paddr offset (seg_bytes paddr remaining)]).
Proof.
  intros [I1 I2 I3 I4 I5 I6 I7 I8] Hr Hal Hp H0 H1. destruct (seg_bytes_ok paddr remaining Hr) as (B1 & B2 & B3).
  split; try lia.
  - rewrite length_app. simpl. lia.
  - eapply seg_cover_app; [done|]. simpl. split_and!; done || lia.
  - intros k s. rewrite lookup_app. destruct (segs !! k) as [t|] eqn:E; [intros [= <-]; eauto|].
    intros [Hk <-]%list_lookup_singleton_Some. apply lookup_ge_None in E. simpl. rewrite Hp. f_equal. lia.
  - intros Hc. apply H0. lia.
  - intros Hc Hne. assert (segs = []) as -> by (destruct segs; [done|simpl in *; lia]). simpl in *. subst paddr. lia.
  - intros Hc Hne. assert (PAGE_SIZE < len - (PAGE_SIZE - prp1 mod PAGE_SIZE)) as Hbig.
    { destruct (decide (prp_offs = 1)) as [E|]; [|apply I8; lia].
      apply Z.nle_gt. intros Hle. assert (paddr = prp2) as ->.
      { rewrite Hp. replace (length segs) with 1%nat by lia. simpl. by rewrite (proj2 (Z.leb_le _ _)) by lia. }
      specialize (Hal Hle). specialize (I7 E ltac:(lia)). specialize (B3 ltac:(lia)). lia. }
    split; [done|]. destruct (H1 ltac:(lia) Hbig) as [-> ->]. split; [done|lia].
Qed.

(** [__prp_transfer_data] copies exactly the buffer, in order, to the pages of the
    PRP entries, and ends, when the buffer holds as many bytes.  A second entry that is a page, not a list, must be
    aligned. *)
Lemma wp_prp_transfer host_word prp1 prp2 size length st :
  0 ≤ length ≤ size → (length - (PAGE_SIZE - prp1 mod PAGE_SIZE) ≤ PAGE_SIZE → prp2 mod PAGE_SIZE = 0) →
  wp (prp_transfer_data host_word prp1 prp2 size length) st (λ segs st', st' = st ∧ prp_segments host_word prp1 prp2 length segs).
Proof.
  intros Hl Hal. unfold prp_transfer_data.
  apply (wp_while (λ '(offset, remaining, prp_offs, prp2_offs, plist, segs) st',
      st' = st ∧ prp_inv host_word prp1 prp2 length offset remaining prp_offs prp2_offs plist segs)
    (λ '(offset, remaining, prp_offs, prp2_offs, plist, segs), remaining)); [|lia|].
  { split; [done|]. split; simpl; try done; lia. }
  intros [[[[[offset remaining] prp_offs] prp2_offs] plist] segs] st' [-> Hi]. pose proof Hi as [I1 I2 I3 I4 I5 I6 I7 I8].
  split; [done|]. destruct (Z.eqb_spec remaining 0) as [->|Hne].
  { wp_step. split; [done|]. split; [|done]. by replace length with offset by lia. }
  cbv zeta. destruct (seg_bytes_ok (prp_entry host_word prp1 prp2 length (base.length segs)) remaining ltac:(lia)) as (B1 & _ & _).
  wp_step.
  apply wp_mono with (λ '(paddr, p2, pl) s', s' = st ∧ paddr = prp_entry host_word prp1 prp2 length (base.length segs) ∧
    (prp_offs = 0 → p2 = 0 ∧ pl = None) ∧
    (1 ≤ prp_offs → PAGE_SIZE < length - (PAGE_SIZE - prp1 mod PAGE_SIZE) → pl = Some prp2 ∧ p2 = prp_offs)).
  2: { intros [[paddr p2] pl] s' (-> & -> & Q1 & Q2). rewrite (proj2 (Z.ltb_ge _ _)) by (unfold seg_bytes in B1; lia).
       wp_step. split; [|unfold seg_bytes in B1; lia]. split; [done|].
       apply (prp_inv_step _ _ _ _ _ _ _ _ _ _ _ _ _ Hi); try done. lia. }
  destruct (Z.eqb_spec (prp_offs + 1) 1) as [E|E].
  { wp_step. assert (segs = []) as -> by (destruct segs; [done|simpl in *; lia]). split_and!; try done; [intros; apply I6; lia|lia]. }
  destruct (Z.eqb_spec (prp_offs + 1) 2) as [E2|E2].
  - assert (base.length segs = 1%nat) as -> by lia. specialize (I7 ltac:(lia) Hne). simpl. rewrite <- I7.
    destruct (I6 ltac:(lia)) as [-> ->]. destruct (Z.ltb_spec PAGE_SIZE remaining) as [Hlt|Hge].
    + wp_step. rewrite (proj2 (Z.leb_gt _ _)) by lia. split_and!; try done; intros; split_and!; done || lia.
    + wp_step. rewrite (proj2 (Z.leb_le _ _)) by lia. split_and!; try done; intros; lia.
  - destruct (I8 ltac:(lia) Hne) as (Hbig & -> & ->). wp_step. eapply wp_deref; [done|]. wp_step.
    split_and!; try done; [|lia|intros; split; [done|lia]].
    assert (base.length segs = S (Z.to_nat (prp_offs - 1))) as -> by lia. simpl. rewrite (proj2 (Z.leb_gt _ _)) by lia.
    do 2 f_equal. lia.
Qed.

(** A longer transfer reads behind the buffer. *)
Lemma prp_transfer_overread host_word prp1 prp2 size length st :
  0 ≤ size < length → prp_transfer_data host_word prp1 prp2 size length st = Fault OOPS.
Proof.
  intros Hl. unfold prp_transfer_data.
  apply (while_faults (λ '(offset, remaining, _, _, _, _) _, offset + remaining = length ∧ 0 ≤ offset ≤ size)
    (λ '(_, remaining, _, _, _, _), remaining)); [simpl; lia|lia|].
  intros [[[[[offset remaining] prp_offs] prp2_offs] plist] segs] s (Ho & Hs). split; [lia|].
  rewrite (proj2 (Z.eqb_neq remaining 0)) by lia. cbv zeta.
  set (body := λ r : Z * Z * option Z, let '(paddr, p2, pl) := r in _).
  assert (∀ r, body r s = Fault OOPS ∨ ∃ y s', body r s = Ok (inl y, s') ∧
    (let '(o, rem, _, _, _, _) := y in o + rem = length ∧ 0 ≤ o ≤ size) ∧
    (let '(_, rem, _, _, _, _) := y in rem < remaining)) as Hb.
  { intros [[paddr p2] pl]. unfold body. pose proof (Z.mod_pos_bound paddr PAGE_SIZE ltac:(done)) as Hm.
    set (io := if PAGE_SIZE <? Z.min remaining PAGE_SIZE + _ then _ else _). assert (0 < io ≤ remaining) as Hio.
    { unfold io, PAGE_SIZE in *. case_match; bool_prop; lia. }
    destruct (Z.ltb_spec size (offset + io)); [by left|]. right. eexists _, s. split; [reflexivity|]. simpl. lia. }
  fold body.
  destruct (prp_offs + 1 =? 1); [|destruct (prp_offs + 1 =? 2); [case_match|destruct plist as [l|]; [|by left]]].
  1: destruct (Hb (prp1, prp2_offs, plist)) as [E|([[[[[o' rem'] a'] b'] c'] d'] & s' & E & HI & HM)].
  3: destruct (Hb (host_word (prp2 + 8 * prp2_offs), prp2_offs + 1, Some prp2)) as [E|([[[[[o' rem'] a'] b'] c'] d'] & s' & E & HI & HM)].
  5: destruct (Hb (prp2, prp2_offs, plist)) as [E|([[[[[o' rem'] a'] b'] c'] d'] & s' & E & HI & HM)].
  7: destruct (Hb (host_word (l + 8 * prp2_offs), prp2_offs + 1, Some l)) as [E|([[[[[o' rem'] a'] b'] c'] d'] & s' & E & HI & HM)].
  all: first [left; exact E|right; eexists _, s'; split; [exact E|exact (conj HI HM)]].
Qed.

(** ** Zone reports *)

Lemma wp_copy_descs descs zd start n st :
  0 ≤ start → start + n ≤ alen descs → 0 ≤ n ≤ alen zd →
  wp (copy_descs descs zd start n) st (λ zd' st', st' = st ∧ alen zd' = alen zd ∧
    ∀ i, aget zd' i = if bool_decide (0 ≤ i < n) then aget descs (start + i) else aget zd i).
Proof.
  intros Hs Hd Hn. unfold copy_descs.
  apply (wp_while (λ '(i, zd1) st', st' = st ∧ 0 ≤ i ≤ n ∧ alen zd1 = alen zd ∧
      ∀ j, aget zd1 j = if bool_decide (0 ≤ j < i) then aget descs (start + j) else aget zd j) (λ '(i, _), n - i)); [|lia|].
  { split_and!; try done; try lia. intros j. by rewrite bool_decide_eq_false_2 by lia. }
  intros [i zd1] st' (-> & Hi & Hl & Hz). split; [lia|]. destruct (Z.leb_spec n i) as [Hle|Hgt].
  { wp_step. by replace n with i by lia. }
  destruct (aget_some descs (start + i)) as [d Hdi]; [lia|]. wp_step. eapply wp_aread; [done|]. wp_step.
  apply wp_awrite; [lia|]. wp_step. split_and!; try done; try lia.
  - by rewrite alen_aset.
  - intros j. rewrite aget_aset by lia. rewrite Hz. case_decide; subst.
    + by rewrite bool_decide_eq_true_2, Hdi by lia.
    + repeat case_bool_decide; done || lia.
Qed.

(** The zones a report holds: all from the given block's on, or as many as fit
    behind the header. *)
Definition report_count (f : zns_ftl) (cmd : nvme_zone_mgmt_recv) : Z :=
  let rest := zp_nr_zones (zf_zp f) - lba_to_zone f (zrecv_slba cmd) in
  if (zrecv_zra_specific_features cmd =? 0) || (recv_length cmd <? 64) then rest
  else Z.min rest (recv_length cmd / 64 - 1).

(** The report of the zones from [start] on. *)
Record reported (start n : Z) (f f' : zns_ftl) : Prop := {
  rp_count : zr_nr_zones (zf_report f') = n;
  rp_zones i : 0 ≤ i < n → aget (zr_zd (zf_report f')) i = aget (zf_descs f) (start + i);
  rp_frame : f' = set_zreport (zf_report f') f;
  rp_len : alen (zr_zd (zf_report f')) = alen (zr_zd (zf_report f));
}.

Lemma zinv_reported start n f f' sh : zinv (f, sh) → reported start n f f' → zinv (f', sh).
Proof.
  intros [I1 I2 I3 I4 I5 I6 I7 I8 I9] [_ _ E L]. simpl in *. destruct f' as [s zp r ds rep wb zb sto]. simpl in *.
  unfold set_zreport in E. injection E as -> -> -> -> -> -> ->. split; simpl; try done.
  - by apply (zp_ok_ext f).
  - congruence.
Qed.

(** The bytes of the report buffer. *)
Definition report_size (f : zns_ftl) : Z := 128 + 64 * zp_nr_zones (zf_zp f).

Lemma reported_size start n f f' sh :
  zinv (f, sh) → reported start n f f' → report_buffer_size (zf_report f') = report_size f.
Proof.
  intros Hinv [_ _ _ L]. pose proof (zi_report _ Hinv) as Hr. simpl in Hr.
  unfold report_buffer_size, report_size, sizeof_zone_descriptor. rewrite L, Hr. lia.
Qed.

Lemma wp_fill_zone_report cmd f sh :
  zinv (f, sh) → 0 ≤ lba_to_zone f (zrecv_slba cmd) < zp_nr_zones (zf_zp f) → 0 ≤ zrecv_nr_dw cmd →
  wp (fill_zone_report cmd) (f, sh) (λ _ st', snd st' = sh ∧
    reported (lba_to_zone f (zrecv_slba cmd)) (report_count f cmd) f (fst st')).
Proof.
  intros Hinv Hz Hdw. pose proof (zi_zp _ Hinv) as Hzp. simpl in Hzp. pose proof (nr_zones_bound f Hzp) as Hnb.
  pose proof (zi_len _ Hinv) as Hl. pose proof (zi_report _ Hinv) as Hr. simpl in Hl, Hr.
  unfold fill_zone_report. z_step. z_step. set (start := lba_to_zone f (zrecv_slba cmd)) in *.
  assert (0 ≤ recv_length cmd < 2 ^ 34) as Hrl by (unfold recv_length; pose proof (u32_range (zrecv_nr_dw cmd + 1)); lia).
  rewrite (u64_small (zp_nr_zones (zf_zp f) - start)) by lia.
  set (n := if _ <? _ then _ else _). assert (n = report_count f cmd ∧ 0 ≤ n ≤ zp_nr_zones (zf_zp f) - start) as [En Hn].
  { unfold n, report_count. fold start. unfold sizeof_zone_descriptor. destruct (zrecv_zra_specific_features cmd =? 0); simpl.
    - case_match; bool_prop; lia.
    - destruct (Z.ltb_spec (recv_length cmd) 64).
      + rewrite Z.div_small by lia. rewrite (proj2 (Z.ltb_lt _ _)); [lia|]. change (u64 (0 - 1)) with (2 ^ 64 - 1). lia.
      + assert (1 ≤ recv_length cmd / 64) by (apply Z.div_le_lower_bound; lia).
        assert (recv_length cmd / 64 ≤ recv_length cmd) by (apply Z.div_le_upper_bound; lia).
        rewrite u64_small by lia. case_match; bool_prop; lia. }
  z_step. eapply wp_mono; [apply wp_copy_descs; lia|]. intros zd st' (-> & Hlen & Hzd). z_step. split; [done|].
  split; simpl; try done. intros i Hi. rewrite Hzd. rewrite bool_decide_eq_true_2 by lia. done.
Qed.

Definition recv_prps (cmd : nvme_zone_mgmt_recv) : Prop :=
  0 ≤ zrecv_nr_dw cmd ∧
  (recv_length cmd - (PAGE_SIZE - zrecv_prp1 cmd mod PAGE_SIZE) ≤ PAGE_SIZE → zrecv_prp2 cmd mod PAGE_SIZE = 0).
(** A request that does not ask for more than the report buffer: the code does not check
    it. *)
Definition recv_ok (f : zns_ftl) (cmd : nvme_zone_mgmt_recv) : Prop :=
  recv_prps cmd ∧ (check_zmgmt_rcv_option_supported f cmd = true → recv_length cmd ≤ report_size f).

Lemma wp_zns_recv host_word cmd start ret f sh :
  zinv (f, sh) → recv_ok f cmd →
  wp (zns_zmgmt_recv host_word cmd start ret) (f, sh) (λ '(r, segs) st',
    snd st' = sh ∧ ret_nsecs_target r = start ∧ ret_result r = ret_result ret ∧ zinv st' ∧
    if check_zmgmt_rcv_option_supported f cmd then
      ret_status r = NVME_SC_SUCCESS ∧ reported (lba_to_zone f (zrecv_slba cmd)) (report_count f cmd) f (fst st') ∧
      prp_segments host_word (zrecv_prp1 cmd) (zrecv_prp2 cmd) (recv_length cmd) segs
    else ret_status r = NVME_SC_INVALID_FIELD ∧ st' = (f, sh) ∧ segs = []).
Proof.
  intros Hinv [[Hdw Hal] Hfit]. unfold zns_zmgmt_recv. z_step. z_step.
  destruct (check_zmgmt_rcv_option_supported f cmd) eqn:Ec; [|by z_step].
  unfold check_zmgmt_rcv_option_supported in Ec. bool_prop. z_step.
  eapply wp_mono; [apply wp_fill_zone_report; [done| |done]|].
  { split; [apply u32_range|done]. }
  intros [] [f' sh'] [Hs Hrep]. simpl in Hs, Hrep. subst sh'. z_step. z_step. z_step.
  eapply wp_mono; [apply wp_prp_transfer; [|exact Hal]|].
  { specialize (Hfit eq_refl). rewrite (reported_size _ _ _ _ sh Hinv Hrep).
    unfold recv_length in *. pose proof (u32_range (zrecv_nr_dw cmd + 1)). lia. }
  intros segs st' [-> Hseg]. z_step. split_and!; try done. by eapply zinv_reported.
Qed.

(** A longer request makes the handler read behind the report buffer. *)
Lemma zns_recv_overread host_word cmd start ret f sh :
  zinv (f, sh) → 0 ≤ zrecv_nr_dw cmd → check_zmgmt_rcv_option_supported f cmd = true →
  report_size f < recv_length cmd → zns_zmgmt_recv host_word cmd start ret (f, sh) = Fault OOPS.
Proof.
  intros Hinv Hdw Ec Hl. pose proof (zk_nr_zones _ (zi_zp _ Hinv)) as Hn. simpl in Hn.
  unfold zns_zmgmt_recv. apply (bind_Ok _ _ _ (λ a s', a = f ∧ s' = (f, sh))); [done|]. intros ? ? [-> ->]. rewrite Ec.
  assert (0 ≤ lba_to_zone f (zrecv_slba cmd) < zp_nr_zones (zf_zp f)) as Hz.
  { unfold check_zmgmt_rcv_option_supported in Ec. bool_prop. split; [apply u32_range|done]. }
  eapply bind_Ok; [by apply wp_fill_zone_report|]. intros [] [f' sh'] [_ Hrep]. simpl in Hrep.
  apply (bind_Ok _ _ _ (λ a s', a = f' ∧ s' = (f', sh'))); [done|]. intros ? ? [-> ->]. apply bind_Fault, prp_transfer_overread.
  rewrite (reported_size _ _ _ _ sh Hinv Hrep). unfold report_size in *. lia.
Qed.
