(* ===== verification/ZnsInit.v ===== *)
(** * A new zoned namespace

    [zns_init_namespace] on any configuration with the layout of the two ZNS
    devices, of any capacity below 2 TiB: it succeeds and the result satisfies the
    invariant. *)

From stdpp Require Import base numbers list gmap.
From S2P Require Import Prelude Config ChannelModel Ssd Nvme FdpLog Zns ZnsInv ZnsOps ZnsWrite ZnsIo.

#[local] Open Scope Z_scope.

(** Channels of LUNs whose block size is given. *)
Record zns_layout (c : ssd_config) : Prop := {
  zl_lba : LBA_BITS c = 9;
  zl_pls : PLNS_PER_LUN c = 1;
  zl_blks : BLKS_PER_PLN c = 0;
  zl_blk : 0 < BLK_SIZE c < 2 ^ 31;
  zl_chs : 0 < NAND_CHANNELS c ≤ 2 ^ 8;
  zl_luns : 0 < LUNS_PER_NAND_CH c ≤ 2 ^ 8;
  zl_flash : 0 < FLASH_PAGE_SIZE c < 2 ^ 31 ∧ FLASH_PAGE_SIZE c mod 4096 = 0;
  zl_oneshot : 0 < ONESHOT_PAGE_SIZE c < 2 ^ 31 ∧ ONESHOT_PAGE_SIZE c mod FLASH_PAGE_SIZE c = 0;
  zl_ppb : ONESHOT_PAGE_SIZE c / 4096 * DIV_ROUND_UP (BLK_SIZE c) (ONESHOT_PAGE_SIZE c) ≤ 2 ^ 16;
  zl_cell : 0 < CELL_MODE c ≤ MAX_CELL_TYPES;
  zl_lat4 : Forall (λ l, 0 ≤ l < 2 ^ 31)
    [NAND_4KB_READ_LATENCY_LSB c; NAND_4KB_READ_LATENCY_MSB c; NAND_4KB_READ_LATENCY_CSB c];
  zl_lat : Forall (λ l, 0 ≤ l < 2 ^ 31)
    [NAND_READ_LATENCY_LSB c; NAND_READ_LATENCY_MSB c; NAND_READ_LATENCY_CSB c];
  zl_wr : 0 ≤ NAND_PROG_LATENCY c < 2 ^ 31;
  zl_er : 0 ≤ NAND_ERASE_LATENCY c < 2 ^ 31;
  zl_xfer : 0 < MAX_CH_XFER_SIZE c < 2 ^ 31;
  zl_ch_bw : 0 < BANDWIDTH_TO_MAX_CREDITS (NAND_CHANNEL_BANDWIDTH c) < 2 ^ 8;
  zl_pcie_bw : 0 < BANDWIDTH_TO_MAX_CREDITS (PCIE_BANDWIDTH c) < 2 ^ 8;
  zl_unit : 0 < WRITE_UNIT_SIZE c;
  zl_wb : 0 ≤ GLOBAL_WB_SIZE c < 2 ^ 32;
}.

Definition zns_dies (c : ssd_config) : Z := LUNS_PER_NAND_CH c * NAND_CHANNELS c.
Definition zns_blocks (c : ssd_config) (size : Z) : Z := DIV_ROUND_UP size (BLK_SIZE c * zns_dies c).

(** The capacity is a number of zones and the device's pages can be numbered. *)
Record zns_size_ok (c : ssd_config) (z : zns_config) (size : Z) : Prop := {
  zz_size : 0 < size < 2 ^ 41;
  zz_zone : 0 < ZONE_SIZE z < 2 ^ 32 ∧ ZONE_SIZE z mod 4096 = 0;
  zz_fit : size mod ZONE_SIZE z = 0;
  zz_dies : 0 < DIES_PER_ZONE z ∧ zns_dies c mod DIES_PER_ZONE z = 0;
  zz_wb : 0 ≤ ZONE_WB_SIZE z < 2 ^ 32;
  zz_blocks : zns_blocks c size ≤ 2 ^ 16;
  zz_pages : 2 ^ 16 * zns_blocks c size * zns_dies c < 2 ^ 31;
}.

Lemma zns_prototype_layout : zns_layout ZNS_PROTOTYPE.
Proof. split; repeat constructor; vm_compute; done. Qed.
Lemma wd_zn540_layout : zns_layout WD_ZN540.
Proof. split; repeat constructor; vm_compute; done. Qed.

(** The page counts at every level fit their types. *)
Lemma counts_fit P F k os b luns chs :
  0 < P → 0 < F → P = k * F → 0 < os → P * os ≤ 2 ^ 16 → 0 < b → 0 < luns ≤ 2 ^ 8 → 0 < chs ≤ 2 ^ 8 →
  2 ^ 16 * b * (luns * chs) < 2 ^ 31 →
  0 < luns * chs ≤ 2 ^ 16 ∧ 0 < P * os ∧ P ≤ P * os ∧ os ≤ P * os ∧ 0 < k * os ≤ P * os ∧ P * os = F * (k * os) ∧
  0 < P * os * b ∧ P * os * b ≤ P * os * b * luns ∧ P * os * b * luns ≤ P * os * b * luns * chs ∧
  luns * chs * (P * os) ≤ P * os * b * luns * chs ∧ P * os * b * luns * chs < 2 ^ 31.
Proof.
  intros HP HF HPk Hos Hp Hb Hl Hc HT. set (A := P * os) in *. set (D := luns * chs) in *.
  assert (0 < k) as Hk by (clear -HP HF HPk; nia).
  assert (0 < D ≤ 2 ^ 16) as HD by (unfold D; clear -Hl Hc; nia).
  assert (0 < A ∧ P ≤ A ∧ os ≤ A) as (HA & HA1 & HA2) by (unfold A; clear -HP Hos; nia).
  assert (A = F * (k * os)) as HA3 by (unfold A; rewrite HPk; ring).
  assert (0 < k * os ≤ A) as Hko by (clear -HA3 HF Hk Hos; nia).
  assert (0 < A * b) as HAb by (clear -HA Hb; nia).
  assert (A * b ≤ A * b * luns ∧ A * b * luns ≤ A * b * luns * chs) as [H1 H2].
  { set (X := A * b) in *. clearbody X. clear -HAb Hl Hc. split; [nia|]. assert (0 < X * luns) by nia. nia. }
  replace (A * b * luns * chs) with (A * b * D) in * by (unfold D; ring).
  assert (D * A ≤ A * b * D) as H3 by (clear -HA HD Hb; assert (0 < D * A) by nia; nia).
  assert (A * b * D < 2 ^ 31) as H4.
  { assert (A * b ≤ 2 ^ 16 * b) by (clear -Hp Hb; nia). set (X := A * b) in *. clearbody X. clear -HD HAb HT H. nia. }
  repeat split; try done; lia.
Qed.

(** The parameters of the device. *)
Lemma zns_params_layout c z size :
  zns_layout c → zns_size_ok c z size →
  ∃ sp, ssd_init_params c size 1 = Ok sp ∧ sp_ok sp ∧ tt_luns sp = luns_per_ch sp * nchs sp ∧
    luns_per_ch sp * nchs sp = zns_dies c ∧ write_unit_size sp = WRITE_UNIT_SIZE c ∧
    write_buffer_size sp = GLOBAL_WB_SIZE c ∧ secsz sp = 512 ∧ pgsz sp = 4096.
Proof.
  intros [Hlba Hpl Hb Hbs Hch Hl [Hf Hfm] [Ho Hom] Hppb Hcell Hl4 Hlr Hwr Her Hx Hbw Hpw Hu Hw] [Hz1 Hz2 Hz3 Hz4 Hz5 Hz6 Hz7].
  unfold ssd_init_params, LBA_SIZE. cbv zeta. rewrite Hlba, Hpl, Hb. change (Z.shiftl 1 9) with 512. cbn [Z.eqb Z.ltb negb andb].
  change (0 <? 0) with false. rewrite (proj2 (Z.ltb_lt 0 (BLK_SIZE c))) by lia. rewrite Z.mod_1_r, !Z.div_1_r. cbn [Z.eqb negb andb].
  change (512 * (4096 / 512)) with 4096. change (4096 / 512) with 8.
  assert (ONESHOT_PAGE_SIZE c mod 4096 = 0) as Hom'.
  { apply Z.mod_divide in Hfm, Hom; try lia. apply Z.mod_divide; [lia|]. by etrans. }
  rewrite Hfm, Hom', Hom. cbn [Z.eqb negb andb].
  set (luns := LUNS_PER_NAND_CH c) in *. set (chs := NAND_CHANNELS c) in *.
  replace (BLK_SIZE c * 1 * luns * chs) with (BLK_SIZE c * zns_dies c) by (unfold zns_dies; fold luns chs; lia).
  fold (zns_blocks c size). unfold zns_dies in Hz4, Hz7 |- *. fold luns chs in Hz4, Hz7 |- *.
  assert (0 < zns_blocks c size) as Hb0.
  { pose proof (DIV_ROUND_UP_spec size (BLK_SIZE c * zns_dies c)) as Hd. fold (zns_blocks c size) in Hd.
    unfold zns_dies in Hd. fold luns chs in Hd. clear -Hz1 Hbs Hl Hch Hd. assert (0 < luns * chs ≤ 2 ^ 16) as Hlc by nia.
    set (b := zns_blocks c size) in *. set (D := luns * chs) in *. clearbody b D. assert (0 < BLK_SIZE c * D ≤ 2 ^ 47) by nia. nia. }
  set (b := zns_blocks c size) in *. set (P := ONESHOT_PAGE_SIZE c / 4096) in *. set (os := DIV_ROUND_UP (BLK_SIZE c) (ONESHOT_PAGE_SIZE c)) in *.
  set (F := FLASH_PAGE_SIZE c / 4096). set (k := ONESHOT_PAGE_SIZE c / FLASH_PAGE_SIZE c).
  pose proof (DIV_ROUND_UP_spec (BLK_SIZE c) (ONESHOT_PAGE_SIZE c) ltac:(lia) ltac:(lia) ltac:(lia)) as Hos. fold os in Hos.
  assert (0 < P) as HP by (unfold P; apply Z.div_str_pos; split; [lia|]; apply Z.divide_pos_le; [lia|by apply Z.mod_divide]).
  assert (0 < F) as HF by (unfold F; apply Z.div_str_pos; split; [lia|]; apply Z.divide_pos_le; [lia|by apply Z.mod_divide]).
  assert (P = k * F) as HPk.
  { unfold P, k, F. apply Z.div_exact in Hom; [|lia]. apply Z.div_exact in Hfm; [|lia].
    set (q := ONESHOT_PAGE_SIZE c / FLASH_PAGE_SIZE c) in *. set (r := FLASH_PAGE_SIZE c / 4096) in *.
    rewrite Hom, Hfm. rewrite <- Z.mul_assoc, Z.mul_comm, Z.div_mul by lia. lia. }
  assert (0 < os) as Hos0 by (clear -Hos Hbs Ho; nia).
  destruct (counts_fit P F k os b luns chs HP HF HPk Hos0 Hppb Hb0 Hl Hch Hz7) as (C1 & C2 & C3 & C4 & C5 & C6 & C7 & C8 & C9 & C10 & C11).
  clear Hos HPk Hz4 Hz3 Hz2 Hom Hom' Hfm Hf Ho.
  rewrite !(s32_small b), !(s32_small os), !(s32_small (P * os)), !(s32_small (k * os)), !(s32_small (P * os * b)), !(s32_small (b * 1)),
    !(s32_small (luns * chs)) by lia.
  rewrite !(u64_small (P * os * b)), !(u64_small (P * os * b * 1)), !(u64_small (P * os * b * 1 * luns)),
    !(u64_small (P * os * b * 1 * luns * chs)), !(u64_small (b * 1)), !(u64_small (luns * chs)), !(u64_small (luns * chs * (P * os))) by lia.
  eexists. split; [done|]. split; [|done].
  split; cbn; try done; try lia.
Qed.

Lemma cnt_false {A} (l : list A) : cnt (λ _, false) l = 0.
Proof. by apply cnt_none. Qed.

(** A new namespace succeeds and is in order: all zones are empty. *)
Lemma zns_init_namespace_ok c z report storage id size cpu ticks lticks :
  zns_layout c → zns_size_ok c z size → size ≤ alen storage → alen (zr_zd report) = size / ZONE_SIZE z + 1 →
  ∃ st, zns_init_namespace c z report storage id size cpu ticks lticks = Ok (st, ZnsNs id NVME_CSI_ZNS size 1) ∧
    zinv st ∧ zs_ops (snd st) = [] ∧
    zp_nr_zones (zf_zp (fst st)) = size / ZONE_SIZE z ∧ zp_zone_size (zf_zp (fst st)) = ZONE_SIZE z ∧
    write_unit_size (zsp (fst st)) = WRITE_UNIT_SIZE c ∧
    wb_size (fst st) = (if ZONE_WB_SIZE z =? 0 then GLOBAL_WB_SIZE c else ZONE_WB_SIZE z) ∧
    (∀ i d, aget (zf_descs (fst st)) i = Some d → zd_state d = ZONE_STATE_EMPTY) ∧
    (∀ i x, 0 ≤ i < size / ZONE_SIZE z → get_buf (wbuf_of (fst st) i) st = Some x → x = buffer_init (wb_size (fst st))).
Proof.
  intros Hlay Hz Hsto Hrep. destruct (zns_params_layout c z size Hlay Hz) as (sp & Esp & Hsp & Hluns & Hdies & Hunit & Hwb & Hsec & Hpg).
  pose proof Hz as [Hz1 [Hz2 Hz2'] Hz3 [Hz4 Hz4'] Hz5 _ _]. pose proof (zl_unit _ Hlay) as Hu. pose proof (zl_wb _ Hlay) as Hgb.
  set (n := size / ZONE_SIZE z) in *. assert (size = n * ZONE_SIZE z) as En by (unfold n; apply Z.div_exact in Hz3; lia).
  assert (0 < n < 2 ^ 32) as Hn.
  { apply Z.mod_divide in Hz2' as [q Hq]; [|lia]. assert (4096 ≤ ZONE_SIZE z) by nia. nia. }
  assert (ZONE_SIZE z = 512 * (ZONE_SIZE z / 512)) as E512.
  { apply Z.div_exact; [lia|]. apply Z.mod_divide; [lia|]. apply Z.mod_divide in Hz2' as [q Hq]; [|lia]. exists (q * 8). lia. }
  unfold zns_init_namespace. rewrite Esp. destruct (ssd_init sp cpu) as [[s pcie] wbuf] eqn:Es.
  pose proof (ssd_init_timing sp cpu ticks Hsp) as Ht. rewrite Es in Ht.
  assert (ssd_sp s = sp ∧ wbuf = buffer_init (GLOBAL_WB_SIZE c)) as [Ess ->] by (unfold ssd_init in Es; injection Es as <- _ <-; by rewrite Hwb).
  unfold zns_init_params. cbn [zp_zone_size]. rewrite !(u32_small (ZONE_SIZE z)) by lia. fold n. rewrite Hz3, Hpg, Hz2'. cbn [Z.eqb negb].
  rewrite !(u32_small n) by lia. eexists. split; [done|].
  assert (BYTE_TO_LBA c (ZONE_SIZE z) = ZONE_SIZE z / 512) as Ecap.
  { unfold BYTE_TO_LBA. rewrite (zl_lba _ Hlay). by rewrite Z.shiftr_div_pow2 by lia. }
  set (cap := ZONE_SIZE z / 512) in *.
  set (f := zns_init_ftl _ _ _ _ _). assert (lbas_per_zone f = cap) as El.
  { unfold lbas_per_zone, zsp. simpl. by rewrite Ess, Hsec. }
  assert (∀ i d, aget (zf_descs f) i = Some d → 0 ≤ i < n ∧ d = ZoneDesc ZONE_STATE_EMPTY 0 cap (i * cap) (i * cap)) as Hds.
  { intros i d. unfold f, zns_init_ftl, init_descriptor. cbn [zf_descs zp_zone_size zp_nr_zones]. rewrite Ecap. cbv zeta.
    rewrite aget_abuild. case_decide; [|done]. intros [= <-]. split; [done|]. rewrite u64_small; [done|]. nia. }
  assert (∀ P, P ZONE_STATE_EMPTY = false → zcount P (zf_descs f) = 0) as Hc0.
  { intros P HP. apply cnt_none. intros i _. destruct (aget (zf_descs f) i) as [d|] eqn:E; [|done]. by destruct (Hds i d E) as [_ ->]. }
  assert (∀ i, 0 ≤ i < n → get_buf (wbuf_of f i) (f, ZShared (Env pcie (buffer_init (GLOBAL_WB_SIZE c)) ticks) [] lticks)
    = Some (buffer_init (wb_size f))) as Hbuf.
  { intros i Hi. unfold wbuf_of, wb_size, f, zsp. cbn. unfold init_zone_buffers. cbn.
    destruct (ZONE_WB_SIZE z =? 0) eqn:E; simpl; [by rewrite Ess, Hwb|]. unfold init_zone_buffers. rewrite E, aget_anew. by rewrite decide_True. }
  assert (wb_size f = (if ZONE_WB_SIZE z =? 0 then GLOBAL_WB_SIZE c else ZONE_WB_SIZE z)) as Ewb.
  { unfold wb_size, zsp. cbn. by rewrite Ess, Hwb. }
  split_and!; try done.
  - split; simpl.
    + split; unfold zsp; simpl; rewrite ?Ess, ?El; try done; try lia.
      by rewrite Hluns, Hdies.
    + apply alen_abuild.
    + intros i d Hd. destruct (Hds i d Hd) as [Hi ->]. rewrite El. split; simpl; try done; lia.
    + split_and!; simpl; try done; by rewrite Hc0.
    + unfold init_zone_buffers. simpl. by destruct (ZRWA_BUFFER_SIZE z =? 0).
    + intros i Hi. eexists. split; [by apply Hbuf|]. simpl. unfold buffer_sane. simpl. rewrite Ewb. destruct (_ =? 0); lia.
    + done.
    + lia.
    + done.
  - by rewrite <- Hunit, <- Ess.
  - intros i d Hd. by destruct (Hds i d Hd) as [_ ->].
  - intros i x Hi. rewrite Hbuf by done. by intros [= <-].
Qed.
