(* ===== verification/ZnsProc.v ===== *)
(** * The zoned namespace as a state machine

    The outcome of every command ([zproc_post]), the states reachable from
    initialisation, and the account of the write buffers. *)

From stdpp Require Import base numbers list gmap.
From S2P Require Import Prelude Config ChannelModel Ssd Nvme FdpLog Zns ZnsInv ZnsOps ZnsWrite ZnsIo ZnsInit.

#[local] Open Scope Z_scope.

Definition is_write (cmd : nvme_rw_command) : bool :=
  (rw_opcode cmd =? nvme_cmd_write) || (rw_opcode cmd =? nvme_cmd_zone_append).

(** What the host must keep to: blocks of the namespace, transfers that fit in a
    write buffer, no random write areas, an aligned second PRP entry, a report no longer
    than the report buffer. *)
Definition zcmd_ok (c : ssd_config) (f : zns_ftl) (req : zns_request) : Prop :=
  0 ≤ zq_nsecs_start req ∧
  match zq_cmd req with
  | ZnsRw cmd => zrw_ok c f cmd ∧ (is_write cmd = true → rw_nr cmd * 512 ≤ wb_size f)
  | ZnsSend cmd => zsend_zsaso cmd = 0 ∧
      (zsend_select_all cmd = false → 0 ≤ zsend_slba cmd < zp_nr_zones (zf_zp f) * lbas_per_zone f)
  | ZnsRecv cmd => recv_ok f cmd
  | ZnsFlush | ZnsOther => True
  end.

Definition write_post (cmd : nvme_rw_command) (ret : nvmev_result) (d : zone_descriptor) (x : buffer) (st : zstate)
    (ok : bool) (r : nvmev_result) (cmd' : nvme_rw_command) (st' : zstate) : Prop :=
  let f := fst st in
  let zid := rw_zid f cmd in
  let nr := rw_nr cmd in
  let slba := write_slba cmd d in
  let status := write_status (write_unit_size (zsp f)) (lbas_per_zone f) nr slba d in
  cmd' = (if rw_opcode cmd =? nvme_cmd_zone_append then set_slba slba cmd else cmd) ∧
  ret_result r = (if rw_opcode cmd =? nvme_cmd_zone_append then slba else ret_result ret) ∧
  if buf_remaining x <? nr * 512 then
    ok = false ∧ ret_status r = ret_status ret ∧ zeffect zid d x [] st st'
  else
    ok = true ∧ ret_status r = status ∧
    ∃ ops, zeffect zid (after_write status nr d) (Buffer (buf_size x) (buf_remaining x - nr * 512)) ops st st' ∧
      Forall (op_on (wbuf_of f zid)) ops ∧ ops_size ops = released_by f status nr d.

Definition send_post (uninit : Z) (cmd : nvme_zone_mgmt_send) (st : zstate) (r : nvmev_result) (st' : zstate) : Prop :=
  if zsend_select_all cmd then
    ret_status r = NVME_SC_SUCCESS ∧ acted (zsend_zsa cmd) 0 (zp_nr_zones (zf_zp (fst st))) st st'
  else
    let zid := lba_to_zone (fst st) (zsend_slba cmd) in
    acted (zsend_zsa cmd) zid (zid + 1) st st' ∧
    ∃ d, aget (zf_descs (fst st)) zid = Some d ∧
      ret_status r = match zone_next (zsend_zsa cmd) (zd_state d) with
                     | Some _ => NVME_SC_SUCCESS | None => refused uninit (zsend_zsa cmd) end.

Definition recv_post (host_word : Z → Z) (cmd : nvme_zone_mgmt_recv) (st : zstate) (r : nvmev_result)
    (segs : list segment) (st' : zstate) : Prop :=
  if check_zmgmt_rcv_option_supported (fst st) cmd then
    ret_status r = NVME_SC_SUCCESS ∧
    reported (lba_to_zone (fst st) (zrecv_slba cmd)) (report_count (fst st) cmd) (fst st) (fst st') ∧
    prp_segments host_word (zrecv_prp1 cmd) (zrecv_prp2 cmd) (recv_length cmd) segs
  else ret_status r = NVME_SC_INVALID_FIELD ∧ st' = st ∧ segs = [].

Definition zproc_post (host_word : Z → Z) (uninit : Z) (req : zns_request) (ret : nvmev_result)
    (st : zstate) (out : bool * nvmev_result * zns_command * list segment) (st' : zstate) : Prop :=
  let '(ok, r, cmd', segs) := out in
  match zq_cmd req with
  | ZnsRw cmd =>
      segs = [] ∧
      if is_write cmd then
        ∃ d x c', cmd' = ZnsRw c' ∧ aget (zf_descs (fst st)) (rw_zid (fst st) cmd) = Some d ∧
          get_buf (wbuf_of (fst st) (rw_zid (fst st) cmd)) st = Some x ∧ write_post cmd ret d x st ok r c' st'
      else cmd' = ZnsRw cmd ∧ ok = true ∧ ret_result r = ret_result ret ∧
        if rw_opcode cmd =? nvme_cmd_read then
          ret_status r = read_status (lbas_per_zone (fst st)) (rw_nr cmd) (rw_slba cmd) ∧
          read_stime (zsp (fst st)) (rw_nr cmd) (zq_nsecs_start req) ≤ ret_nsecs_target r ∧ ztimed [] st st'
        else r = ret ∧ st' = st
  | ZnsSend cmd => cmd' = ZnsSend cmd ∧ ok = true ∧ ret_result r = ret_result ret ∧ segs = [] ∧ send_post uninit cmd st r st'
  | ZnsRecv cmd => cmd' = ZnsRecv cmd ∧ ok = true ∧ ret_result r = ret_result ret ∧ snd st' = snd st ∧ recv_post host_word cmd st r segs st'
  | ZnsFlush => cmd' = ZnsFlush ∧ ok = true ∧ ret_result r = ret_result ret ∧ segs = [] ∧ ret_status r = NVME_SC_SUCCESS ∧ ztimed [] st st' ∧
      ∀ p l, get_lun (zf_ssd (fst st)) p = Some l → lun_next_lun_avail_time l ≤ ret_nsecs_target r
  | ZnsOther => cmd' = ZnsOther ∧ ok = true ∧ segs = [] ∧ r = ret ∧ st' = st
  end.

(** The release of buffer space the I/O engine performs when an internal operation
    is due. *)
Definition zns_release (b : zbuf) (size : Z) : M zstate bool := on_buf b (buffer_release size).
Definition set_ops (ops : list (zbuf * internal_op)) (st : zstate) : zstate :=
  (fst st, ZShared (zs_env (snd st)) ops (zs_lticks (snd st))).

Section proc.
Context `{CK : !Clock} `{LC : !LocalClock}.
Context (c : ssd_config) (host_word : Z → Z) (uninit : Z).
Hypothesis clock_range : ∀ n, 0 ≤ cpu_clock n.

Lemma wp_zns_proc ns req ret f sh :
  zinv (f, sh) → zn_csi ns = NVME_CSI_ZNS → zn_nr_parts ns = 1 → zcmd_ok c f req →
  wp (zns_proc_nvme_io_cmd c host_word uninit ns req ret) (f, sh)
    (λ out st', zproc_post host_word uninit req ret (f, sh) out st' ∧ zinv st').
Proof using clock_range.
  intros Hinv Hcsi Hnp [Hst Hok]. pose proof (zi_zp _ Hinv) as Hzp. simpl in Hzp.
  unfold zns_proc_nvme_io_cmd. rewrite Hcsi, Hnp. wp_step. apply wp_assert; [done|]. wp_step. apply wp_assert; [done|]. cbv zeta.
  unfold zproc_post. destruct (zq_cmd req) as [cmd|cmd|cmd| |].
  - destruct Hok as [Hrw Hfit]. fold (is_write cmd). destruct (is_write cmd) eqn:Ew.
    + destruct (zrw_facts c f _ Hzp Hrw) as (_ & _ & _ & _ & F5 & F6).
      destruct (aget_some (zf_descs f) (rw_zid f cmd)) as [d Hd]. { pose proof (zi_len _ Hinv) as Hl. simpl in Hl. by rewrite Hl. }
      destruct (zi_bufs _ Hinv _ F6) as (x & Hx & _). simpl in Hx.
      unfold zns_write. wp_step. z_step. z_step. z_step. simpl req_cmd. rewrite F5. z_step.
      rewrite (zone_zrwav f sh _ d Hinv Hd). simpl.
      eapply wp_mono; [apply (wp_zns_write_seq clock_range c (Request cmd (zq_sq_id req) (zq_nsecs_start req)) ret f sh (rw_zid f cmd) (rw_nr cmd) d x _ _
        Hinv Hrw eq_refl eq_refl (Hfit eq_refl) Hd Hx eq_refl eq_refl)|].
      intros [[ok r] cmd'] st' Hp. simpl in Hp. wp_step. split; [|].
      * split; [done|]. exists d, x, cmd'. done.
      * destruct Hp as (_ & _ & Hp). destruct (_ <? _); [destruct Hp as (_ & _ & He)|destruct Hp as (_ & _ & ops & He & _)]; apply He.
    + destruct (rw_opcode cmd =? nvme_cmd_read); [|wp_step; done].
      wp_step. eapply wp_mono; [by apply (wp_zns_read clock_range c (Request cmd (zq_sq_id req) (zq_nsecs_start req)))|].
      intros [ok r] st' (-> & H1 & H2 & H3 & H4). wp_step. split; [done|]. by eapply zinv_timed.
  - destruct Hok as [Hzo Hr]. wp_step. eapply wp_mono; [apply wp_zns_zmgmt_send; [done|done|]|].
    { intros E. specialize (Hr E). destruct (lbas_per_zone_eq f Hzp) as (_ & E8 & Hp). pose proof (zk_lbas _ Hzp).
      rewrite lba_to_zone_eq by (done || nia). split; [apply Z.div_pos; lia|apply Z.div_lt_upper_bound; lia]. }
    intros r st' (_ & Hrr & Hs). wp_step. split; [split_and!; done|]. destruct (zsend_select_all cmd); [destruct Hs as [_ Ha]|destruct Hs as [Ha _]]; apply Ha.
  - wp_step. eapply wp_mono; [by apply wp_zns_recv|]. intros [r segs] st' (H1 & _ & Hrr & H2 & H3). wp_step. done.
  - wp_step. eapply wp_mono; [by apply (wp_zns_flush clock_range)|]. intros r st' (H1 & Hrr & H2 & H3). wp_step.
    split; [done|]. by eapply zinv_timed.
  - wp_step. done.
Qed.
End proc.
