(* ===== verification/ZnsAcct.v ===== *)
(** * The account of the zones' write buffers

    On a device whose write unit is a whole number of pages, the free space of a
    write buffer, the space that scheduled operations are going to give back and
    the data of its zones that does not fill a one-shot page yet never exceed the
    buffer: releasing cannot overflow it. *)

From stdpp Require Import base numbers list gmap.
From S2P Require Import Prelude Config ChannelModel Ssd Nvme FdpLog Zns ZnsInv ZnsOps ZnsWrite ZnsIo ZnsInit ZnsProc.

#[local] Open Scope Z_scope.

(** ** Definitions *)

(** The data of a zone that waits for its one-shot page to be complete. *)
Definition zone_partial (f : zns_ftl) (d : zone_descriptor) : Z :=
  match zd_state d with
  | ZONE_STATE_EMPTY | ZONE_STATE_FULL => 0
  | _ => (zd_wp d - zd_zslba d) * 512 - zone_released f ((zd_wp d - zd_zslba d) / 8)
  end.

Definition zone_share (f : zns_ftl) (b : zbuf) (j : Z) : Z :=
  match aget (zf_descs f) j with
  | Some d => if decide (wbuf_of f j = b) then zone_partial f d else 0
  | None => 0
  end.
Definition partial_sum (f : zns_ftl) (b : zbuf) : Z := zsum (zone_share f b) (seqZ 0 (zp_nr_zones (zf_zp f))).

Definition op_share (b : zbuf) (op : zbuf * internal_op) : Z := if decide (fst op = b) then iop_size (snd op) else 0.
Definition pending (b : zbuf) (ops : list (zbuf * internal_op)) : Z := zsum (op_share b) ops.

Record zacct (st : zstate) : Prop := {
  za_aligned i d : aget (zf_descs (fst st)) i = Some d → (zd_wp d - zd_zslba d) mod 8 = 0;
  za_ops : Forall (λ op, ∃ zid, 0 ≤ zid < zp_nr_zones (zf_zp (fst st)) ∧ op_on (wbuf_of (fst st) zid) op) (zs_ops (snd st));
  za_sum zid x : 0 ≤ zid < zp_nr_zones (zf_zp (fst st)) → get_buf (wbuf_of (fst st) zid) st = Some x →
    buf_remaining x + pending (wbuf_of (fst st) zid) (zs_ops (snd st)) + partial_sum (fst st) (wbuf_of (fst st) zid)
      ≤ wb_size (fst st);
}.

(** ** Sums *)

Lemma pending_app b l1 l2 : pending b (l1 ++ l2) = pending b l1 + pending b l2.
Proof. apply zsum_app. Qed.
Lemma pending_cons b op l : pending b (op :: l) = op_share b op + pending b l.
Proof. done. Qed.
Lemma pending_on b ops : Forall (op_on b) ops → pending b ops = ops_size ops.
Proof.
  unfold pending, ops_size. induction 1 as [|op ops [E _] _ IH]; simpl; [done|]. unfold op_share at 1. rewrite decide_True by done. lia.
Qed.
Lemma pending_off b b' ops : b' ≠ b → Forall (op_on b) ops → pending b' ops = 0.
Proof.
  unfold pending. intros Hb. induction 1 as [|op ops [E _] _ IH]; simpl; [done|]. unfold op_share at 1. rewrite decide_False by congruence. lia.
Qed.
Lemma pending_nonneg (P : zbuf → Prop) b ops : Forall (λ op, ∃ b', P b' ∧ op_on b' op) ops → 0 ≤ pending b ops.
Proof.
  unfold pending. induction 1 as [|op ops (b' & _ & _ & Hs) _ IH]; simpl; [done|]. unfold op_share at 1. case_decide; lia.
Qed.

(** The parameters the account depends on. *)
Definition same_zp (f f' : zns_ftl) : Prop := zf_zp f' = zf_zp f ∧ zsp f' = zsp f.

Lemma same_zp_ext f f' : same_zp f f' →
  (∀ o, zone_released f' o = zone_released f o) ∧ (∀ d, zone_partial f' d = zone_partial f d) ∧
  (∀ j, wbuf_of f' j = wbuf_of f j) ∧ wb_size f' = wb_size f ∧ lbas_per_zone f' = lbas_per_zone f.
Proof.
  intros [E1 E2]. assert (∀ o, zone_released f' o = zone_released f o) as Hr.
  { intros o. unfold zone_released, pgs_per_zone. by rewrite E1, E2. }
  split_and!; [done|intros d; unfold zone_partial; by destruct (zd_state d); rewrite ?Hr| | |].
  - intros j. unfold wbuf_of. by rewrite E1.
  - unfold wb_size. by rewrite E1, E2.
  - unfold lbas_per_zone. by rewrite E1, E2.
Qed.

Lemma zone_share_eq f f' b j d d' :
  same_zp f f' → aget (zf_descs f) j = Some d → aget (zf_descs f') j = Some d' →
  zone_share f' b j - zone_share f b j = if decide (wbuf_of f j = b) then zone_partial f d' - zone_partial f d else 0.
Proof.
  intros Hs Hd Hd'. destruct (same_zp_ext f f' Hs) as (_ & E1 & E2 & _). unfold zone_share. rewrite Hd, Hd', E1, E2. case_decide; lia.
Qed.

(** One zone changed. *)
Lemma partial_sum_upd f f' b zid d d' :
  same_zp f f' → 0 ≤ zid < zp_nr_zones (zf_zp f) → aget (zf_descs f) zid = Some d →
  (∀ j, aget (zf_descs f') j = if decide (j = zid) then Some d' else aget (zf_descs f) j) →
  partial_sum f' b = partial_sum f b + if decide (wbuf_of f zid = b) then zone_partial f d' - zone_partial f d else 0.
Proof.
  intros Hs Hz Hd Hds. unfold partial_sum. destruct Hs as [E1 E2]. rewrite E1.
  rewrite (zsum_upd (zone_share f b) (zone_share f' b) _ zid).
  - rewrite <- (zone_share_eq f f' b zid d d'); [lia|done|done|]. rewrite Hds. by rewrite decide_True.
  - apply NoDup_seqZ.
  - apply elem_of_seqZ. lia.
  - intros j _ Hj. destruct (same_zp_ext f f' (conj E1 E2)) as (_ & X1 & X2 & _). unfold zone_share.
    rewrite Hds, decide_False by done. destruct (aget _ j); [|done]. by rewrite X1, X2.
Qed.

Lemma zsum_le {A} (f g : A → Z) l : (∀ x, x ∈ l → f x ≤ g x) → zsum f l ≤ zsum g l.
Proof.
  induction l as [|x l IH]; simpl; [done|]. intros H. pose proof (H x ltac:(set_solver)). specialize (IH ltac:(set_solver)). lia.
Qed.

(** The partial page of a zone. *)
Lemma zone_partial_nonneg f i d : zp_ok f → zone_ok (lbas_per_zone f) i d → 0 ≤ zone_partial f d.
Proof.
  intros Hzp [_ Hs _ Hw]. destruct (lbas_per_zone_eq f Hzp) as (_ & E & Hp). pose proof (so_oneshot _ (zk_sp _ Hzp)) as HP.
  assert (∀ o, 0 ≤ o < lbas_per_zone f → 0 ≤ o * 512 - zone_released f (o / 8)) as Ho.
  { intros o Ho. unfold zone_released. rewrite (proj2 (Z.eqb_neq _ _)) by dlia.
    pose proof (Z.mul_div_le (o / 8) (pgs_per_oneshotpg (zsp f)) HP). pose proof (Z.mul_div_le o 8 ltac:(lia)). lia. }
  unfold zone_partial. rewrite Hs. destruct (zd_state d); simpl in Hw; try done; by apply Ho.
Qed.

Lemma zone_partial_acted f i d a :
  zp_ok f → zone_ok (lbas_per_zone f) i d → zone_partial f (zone_acted a d) ≤ zone_partial f d.
Proof.
  intros Hzp Hok. pose proof (zone_partial_nonneg f i d Hzp Hok) as H0. destruct Hok as [_ Hs _ Hw].
  destruct (lbas_per_zone_eq f Hzp) as (_ & E & Hp).
  assert (zone_released f 0 = 0) as Hr by (unfold zone_released; by rewrite (proj2 (Z.eqb_neq _ _)), Zdiv_0_l by lia).
  unfold zone_acted, zone_partial in *. destruct a, (zd_state d) eqn:Es; simpl in *; rewrite ?Es; try done; try lia.
  rewrite Hs, Hw. change (0 / 8) with 0. lia.
Qed.

(** A write hands back exactly what it completes. *)
Lemma write_account f i d nr status slba :
  zp_ok f → zone_ok (lbas_per_zone f) i d → (zd_wp d - zd_zslba d) mod 8 = 0 → write_unit_size (zsp f) mod 4096 = 0 →
  0 < nr → status = write_status (write_unit_size (zsp f)) (lbas_per_zone f) nr slba d →
  released_by f status nr d + zone_partial f (after_write status nr d) - zone_partial f d ≤ nr * 512 ∧
  (zd_wp (after_write status nr d) - zd_zslba (after_write status nr d)) mod 8 = 0.
Proof.
  intros Hzp Hok Hal Hu Hn Hst. unfold released_by, after_write. destruct (Z.eqb_spec status NVME_SC_SUCCESS) as [E|]; [|lia].
  rewrite E in Hst. unfold write_status in Hst.
  destruct (negb (_ mod write_unit_size _ =? 0)) eqn:Eu; [done|]. destruct (negb (_ / _ =? _)) eqn:Eb; [done|].
  destruct (negb (slba =? zd_wp d)) eqn:Ew; [done|]. destruct (decide (zd_state d = ZONE_STATE_FULL)) as [|Ef]; [done|]. clear Hst.
  bool_prop. subst slba. destruct (lbas_per_zone_eq f Hzp) as (_ & E8 & Hp). destruct (zone_size_eq f Hzp) as [Ez _].
  destruct (write_fits (lbas_per_zone f) i d nr ltac:(lia) Hok Ef Hn) as (off & Ho1 & Ho2 & Ho3); [by apply Z.eqb_eq|].
  assert (nr mod 8 = 0) as Hn8.
  { apply Z.mod_divide in Eu; [|pose proof (zk_unit _ Hzp); lia]. apply Z.mod_divide in Hu; [|lia].
    assert (4096 | nr * 512) as [q Hq] by (by etrans). apply Z.mod_divide; [lia|]. exists q. lia. }
  assert (zone_released f 0 = 0) as Hr by (unfold zone_released; by rewrite (proj2 (Z.eqb_neq _ _)), Zdiv_0_l by lia).
  destruct Hok as [Hc Hs _ Hw]. rewrite Hs in *. rewrite Ho1 in *. replace (i * lbas_per_zone f + off - i * lbas_per_zone f) with off in * by lia.
  assert ((off + nr - 1) / 8 + 1 = (off + nr) / 8) as -> by dlia.
  assert (zone_partial f d = off * 512 - zone_released f (off / 8)) as ->.
  { unfold zone_partial. rewrite Hs, Ho1. replace (i * lbas_per_zone f + off - i * lbas_per_zone f) with off by lia.
    destruct (zd_state d); simpl in Hw; try done. subst off. change (0 / 8) with 0. lia. }
  destruct d as [s v k z w]. simpl in *. subst k z w. unfold zone_written, zone_advanced, zone_opened, zone_partial.
  destruct (Z.eqb_spec (off + nr) (lbas_per_zone f)) as [Eend|Eend].
  - assert ((off + nr) / 8 = pgs_per_zone f) as E9 by dlia.
    assert (zone_released f ((off + nr) / 8) = zp_zone_size (zf_zp f)) as Hrel by (unfold zone_released; by rewrite (proj2 (Z.eqb_eq _ _) E9)).
    destruct s; simpl; try done; rewrite (proj2 (Z.eqb_eq _ _)) by lia; simpl; (split; [lia|]); dlia.
  - destruct s; simpl; try done; rewrite (proj2 (Z.eqb_neq _ _)) by lia; simpl;
      replace (i * lbas_per_zone f + off + nr - i * lbas_per_zone f) with (off + nr) by lia; (split; [lia|]); dlia.
Qed.

(** ** Preservation *)

(** Nothing the account looks at changed. *)
Lemma zacct_same st st' :
  zacct st → same_zp (fst st) (fst st') → (∀ j, aget (zf_descs (fst st')) j = aget (zf_descs (fst st)) j) →
  (∀ j, get_buf (wbuf_of (fst st) j) st' = get_buf (wbuf_of (fst st) j) st) → zs_ops (snd st') = zs_ops (snd st) → zacct st'.
Proof.
  intros [A1 A2 A3] Hs Hd Hb Ho. destruct (same_zp_ext _ _ Hs) as (_ & E1 & E2 & E3 & _). destruct Hs as [Hz Hp].
  split.
  - intros i d. rewrite Hd. apply A1.
  - rewrite Ho, Hz. eapply Forall_impl; [exact A2|]. intros op (zid & H1 & H2). exists zid. by rewrite E2.
  - intros zid x. rewrite Hz, E2, E3, Hb, Ho. intros H1 H2. specialize (A3 zid x H1 H2).
    assert (partial_sum (fst st') (wbuf_of (fst st) zid) = partial_sum (fst st) (wbuf_of (fst st) zid)) as ->; [|done].
    unfold partial_sum. rewrite Hz. apply zsum_ext. intros j _. unfold zone_share. rewrite Hd. destruct (aget _ j); [|done]. by rewrite E1, E2.
Qed.

Lemma zacct_timed st st' : zacct st → ztimed [] st st' → zacct st'.
Proof.
  intros Ha Ht. pose proof (ztimed_zp _ _ _ Ht) as (E1 & E2 & E3 & _ & E5).
  apply (zacct_same st); [done|done| |intros j; apply E5|]. { intros j. by rewrite E3. }
  rewrite (td_ops _ _ _ Ht). apply app_nil_r.
Qed.

Lemma zacct_effect zid d d' x x' ops taken st st' :
  zinv st → zacct st → zeffect zid d' x' ops st st' → 0 ≤ zid < zp_nr_zones (zf_zp (fst st)) →
  aget (zf_descs (fst st)) zid = Some d → get_buf (wbuf_of (fst st) zid) st = Some x → buf_remaining x' = buf_remaining x - taken →
  Forall (op_on (wbuf_of (fst st) zid)) ops → ops_size ops + zone_partial (fst st) d' - zone_partial (fst st) d ≤ taken →
  (zd_wp d' - zd_zslba d') mod 8 = 0 → zacct st'.
Proof.
  intros Hinv [A1 A2 A3] [E1 E2 E3 E4 E5 E6 E7 E8] Hz Hd Hx Hx' Hops Hsum Hal.
  assert (same_zp (fst st) (fst st')) as Hs by done. destruct (same_zp_ext _ _ Hs) as (_ & P1 & P2 & P3 & _). split.
  - intros i e. rewrite E4. case_decide; [intros [= <-]; done|apply A1].
  - rewrite E7, E2. apply Forall_app_2.
    + eapply Forall_impl; [exact A2|]. intros op (j & H1 & H2). exists j. by rewrite P2.
    + eapply Forall_impl; [exact Hops|]. intros op Hop. exists zid. by rewrite P2.
  - intros j y. rewrite E2, P2, P3, E7. intros Hj Hy. rewrite pending_app.
    rewrite (partial_sum_upd (fst st) (fst st') _ zid d d' Hs Hz Hd E4).
    destruct (decide (wbuf_of (fst st) zid = wbuf_of (fst st) j)) as [Eb|Eb].
    + rewrite <- Eb in *. rewrite E5 in Hy. injection Hy as <-. specialize (A3 zid x Hz Hx). rewrite (pending_on _ ops) by done. lia.
    + rewrite E6 in Hy by done. specialize (A3 j y Hj Hy). rewrite (pending_off (wbuf_of (fst st) zid) _ ops) by done. lia.
Qed.

Lemma zacct_acted a lo hi st st' : zinv st → zacct st → acted a lo hi st st' → zacct st'.
Proof.
  intros Hinv [A1 A2 A3] [B1 B2 B3 B4 B5 B6 _].
  assert (same_zp (fst st) (fst st')) as Hs by (split; [done|unfold zsp; by rewrite B4]).
  destruct (same_zp_ext _ _ Hs) as (_ & P1 & P2 & P3 & _). destruct Hs as [Hz _].
  assert (∀ j, get_buf (wbuf_of (fst st) j) st' = get_buf (wbuf_of (fst st) j) st) as Hb.
  { intros j. destruct (wbuf_cases (fst st)) as [E|E]; rewrite E; simpl; by rewrite ?B2, ?B5. }
  split.
  - intros i d. rewrite B6. destruct (aget (zf_descs (fst st)) i) as [e|] eqn:He; [|done]. simpl. intros [= <-].
    specialize (A1 i e He). case_bool_decide; [|done]. unfold zone_acted. destruct (zone_next a (zd_state e)); [|done].
    destruct a; simpl; try done. by rewrite Z.sub_diag.
  - rewrite B2, B3. eapply Forall_impl; [exact A2|]. intros op (j & H1 & H2). exists j. by rewrite P2.
  - intros zid x. rewrite B2, B3, P2, P3, Hb. intros H1 H2. specialize (A3 zid x H1 H2).
    enough (partial_sum (fst st') (wbuf_of (fst st) zid) ≤ partial_sum (fst st) (wbuf_of (fst st) zid)) by lia.
    unfold partial_sum. rewrite B3. apply zsum_le. intros j _. unfold zone_share. rewrite B6.
    destruct (aget (zf_descs (fst st)) j) as [e|] eqn:He; simpl; [|done]. rewrite P2. case_decide; [|done]. rewrite P1.
    case_bool_decide; [|done]. apply (zone_partial_acted _ j); [apply Hinv|by apply Hinv].
Qed.

(** Every command keeps the account. *)
Lemma zacct_proc host_word uninit c req ret st out st' :
  zinv st → zacct st → zcmd_ok c (fst st) req → write_unit_size (zsp (fst st)) mod 4096 = 0 →
  zproc_post host_word uninit req ret st out st' → zacct st'.
Proof.
  intros Hinv Ha [_ Hok] Hu. unfold zproc_post. destruct out as [[[ok r] cmd'] segs]. destruct (zq_cmd req) as [cmd|cmd|cmd| |].
  - destruct Hok as [Hrw Hfit]. intros [_ Hp]. destruct (zrw_facts c _ cmd (zi_zp _ Hinv) Hrw) as (_ & F2 & _ & _ & _ & F6).
    destruct (is_write cmd).
    + destruct Hp as (d & x & c' & _ & Hd & Hx & _ & _ & Hp). pose proof (zi_zones _ Hinv _ _ Hd) as Hzo.
      destruct (buf_remaining x <? rw_nr cmd * 512).
      * destruct Hp as (_ & _ & He). apply (zacct_effect _ d d x x [] 0 st st' Hinv Ha He F6 Hd Hx); try done; [lia|unfold ops_size; simpl; lia|].
        by apply (za_aligned _ Ha _ _ Hd).
      * destruct Hp as (_ & _ & ops & He & Hops & Hsz).
        destruct (write_account _ _ d (rw_nr cmd) _ (write_slba cmd d) (zi_zp _ Hinv) Hzo (za_aligned _ Ha _ _ Hd) Hu ltac:(lia) eq_refl) as [W1 W2].
        apply (zacct_effect _ d _ x _ ops (rw_nr cmd * 512) st st' Hinv Ha He F6 Hd Hx); try done. by rewrite Hsz.
    + destruct Hp as (_ & _ & _ & Hp). destruct (_ =? _); [destruct Hp as (_ & _ & Ht); by eapply zacct_timed|by destruct Hp as [_ ->]].
  - intros (_ & _ & _ & _ & Hp). unfold send_post in Hp. destruct (zsend_select_all cmd); [destruct Hp as [_ Hp]|destruct Hp as [Hp _]]; by eapply zacct_acted.
  - intros (_ & _ & _ & Hsh & Hp). unfold recv_post in Hp. destruct (check_zmgmt_rcv_option_supported (fst st) cmd); [|by destruct Hp as (_ & -> & _)].
    destruct Hp as (_ & [_ _ Hf _] & _). apply (zacct_same st); [done|by rewrite Hf|intros j; by rewrite Hf| |by rewrite Hsh].
    intros j. destruct (wbuf_cases (fst st)) as [E|E]; rewrite E; simpl; [by rewrite Hsh|by rewrite Hf].
  - intros (_ & _ & _ & _ & _ & Ht & _). by eapply zacct_timed.
  - by intros (_ & _ & _ & _ & ->).
Qed.

(** ** Releases *)

Lemma partial_sum_nonneg st b : zinv st → 0 ≤ partial_sum (fst st) b.
Proof.
  intros Hinv. unfold partial_sum.
  pose proof (zsum_le (λ _, 0) (zone_share (fst st) b) (seqZ 0 (zp_nr_zones (zf_zp (fst st))))) as Hle.
  etrans; [|apply Hle]; [clear; induction (seqZ _ _); simpl; lia|]. intros j _. unfold zone_share.
  destruct (aget (zf_descs (fst st)) j) as [d|] eqn:E; [|done]. case_decide; [|done].
  apply (zone_partial_nonneg _ j); [apply Hinv|by apply (zi_zones _ Hinv)].
Qed.

Lemma zns_release_ok st l1 l2 b op :
  zinv st → zacct st → zs_ops (snd st) = l1 ++ (b, op) :: l2 →
  ∃ st', zns_release b (iop_size op) st = Ok (true, st') ∧ zinv (set_ops (l1 ++ l2) st') ∧ zacct (set_ops (l1 ++ l2) st') ∧
    fst (set_ops (l1 ++ l2) st') = fst st' ∧ same_zp (fst st) (fst st').
Proof.
  intros Hinv Ha Ho. destruct st as [f sh]. pose proof Ha as [A1 A2 A3]. simpl in *. rewrite Ho in A2.
  pose proof A2 as A2'. apply Forall_app in A2 as [F1 F2]. apply Forall_cons in F2 as [(zid & Hz & Hb & Hs) F2]. simpl in Hb, Hs.
  destruct (zi_bufs _ Hinv zid Hz) as (x & Hx & Hx0 & Hx1 & Hx2). simpl in *. specialize (A3 zid x Hz Hx) as Hsum.
  rewrite Ho, pending_app, pending_cons in Hsum. unfold op_share in Hsum. simpl in Hsum. rewrite decide_True in Hsum by done.
  assert (0 ≤ pending (wbuf_of f zid) l1) as N1.
  { apply (pending_nonneg (λ _, True)). eapply Forall_impl; [exact F1|]. intros o (j & _ & H). eauto. }
  assert (0 ≤ pending (wbuf_of f zid) l2) as N2.
  { apply (pending_nonneg (λ _, True)). eapply Forall_impl; [exact F2|]. intros o (j & _ & H). eauto. }
  assert (0 ≤ partial_sum f (wbuf_of f zid)) as N3.
  { by apply (partial_sum_nonneg (f, sh)). }
  set (x' := Buffer (buf_size x) (buf_remaining x + iop_size op)).
  assert (buffer_sane (wb_size f) x') as Hsane by (unfold buffer_sane, x'; simpl; lia).
  assert (zns_release b (iop_size op) (f, sh) = Ok (true, put_buf (wbuf_of f zid) x' (f, sh))) as Heq.
  { unfold zns_release. rewrite Hb. destruct (wp_Ok (on_buf (wbuf_of f zid) (buffer_release (iop_size op))) (f, sh)
      (λ r st', r = true ∧ st' = put_buf (wbuf_of f zid) x' (f, sh))) as (r & st' & -> & -> & ->); [|done].
    eapply wp_on_buf; [exact Hx|]. unfold buffer_release. wp_step. wp_step. wp_step. wp_step. wp_step.
    rewrite u64_small by (unfold buffer_sane, x' in Hsane; simpl in Hsane; lia). done. }
  eexists. split; [exact Heq|]. pose proof (zinv_put zid x' f sh Hinv Hz Hsane) as Hi.
  destruct (aget_some (zf_descs f) zid) as [d Hd]. { pose proof (zi_len _ Hinv) as Hl. simpl in Hl. by rewrite Hl. }
  pose proof (zeffect_put zid d x x' f sh Hinv Hz Hd Hx Hsane) as [E1 E2 E3 E4 E5 E6 E7 E8]. simpl in E2, E3, E4, E5, E6, E7, E8.
  destruct (put_buf _ _ _) as [f' sh']. simpl in *. assert (same_zp f f') as Hsz by done.
  destruct (same_zp_ext _ _ Hsz) as (_ & P1 & P2 & P3 & _). split_and!; [|split|done|done]; simpl.
  - destruct Hi as [I1 I2 I3 I4 I5 I6 I7 I8 I9]. simpl in *. split; simpl; try done.
  - intros i e. rewrite E4. case_decide; [intros [= <-]; by eapply A1|by apply A1].
  - rewrite E2. apply Forall_app_2; (eapply Forall_impl; [eassumption|]); intros o (j & H1 & H2); exists j; by rewrite P2.
  - intros j y. rewrite E2, P2, P3. intros Hj Hy. rewrite pending_app.
    assert (get_buf (wbuf_of f j) (f', sh') = Some y) as Hy'. { clear -Hy. unfold set_ops in Hy. simpl in *. by destruct (wbuf_of f j). }
    clear Hy. assert (∀ b, partial_sum f' b = partial_sum f b) as Hps.
    { intros b'. unfold partial_sum. rewrite E2. apply zsum_ext. intros k _. unfold zone_share. rewrite E4, P2. case_decide; [subst k; rewrite Hd; by rewrite P1|].
      destruct (aget _ k); [|done]. by rewrite P1. }
    rewrite Hps. destruct (decide (wbuf_of f j = wbuf_of f zid)) as [Eb|Eb].
    + rewrite Eb in *. rewrite E5 in Hy'. injection Hy' as <-. unfold x'. simpl. lia.
    + rewrite E6 in Hy' by done. specialize (A3 j y Hj Hy'). rewrite Ho, pending_app, pending_cons in A3.
      unfold op_share in A3. case_decide; simpl in *; [congruence|lia].
Qed.
