(* ===== verification/ZnsSpec.v ===== *)
(** * What a zoned namespace promises, and that it keeps it

    [zspec] is the namespace as the host sees it: the state of each zone and how
    far it is written.  [aspec_cmd] says what a command answers and how it changes
    that view.  The theorems are about every state the namespace can get into from
    initialisation by commands and releases of buffer space, in any order. *)

From stdpp Require Import base numbers list gmap.
From S2P Require Import Prelude Config ChannelModel Ssd Nvme FdpLog Zns ZnsInv ZnsOps ZnsWrite ZnsIo ZnsInit ZnsProc ZnsAcct.

#[local] Open Scope Z_scope.

(** ** The abstract namespace *)

Record azone : Type := AZone {
  az_state : zone_state;
  az_off : Z;
}.
Definition zspec : Type := Z → option azone.
Definition azone_of (d : zone_descriptor) : azone := AZone (zd_state d) (zd_wp d - zd_zslba d).
Definition zone_view (f : zns_ftl) : zspec := λ i, azone_of <$> aget (zf_descs f) i.

Definition zspec_set (zid : Z) (a : azone) (zs : zspec) : zspec := λ i, if decide (i = zid) then Some a else zs i.

(** A zone of [cap] blocks after [nr] more blocks. *)
Definition azone_written (cap nr : Z) (a : azone) : azone :=
  AZone (if az_off a + nr =? cap then ZONE_STATE_FULL
         else match az_state a with ZONE_STATE_EMPTY | ZONE_STATE_CLOSED => ZONE_STATE_OPENED_IMPL | s => s end)
    (az_off a + nr).

Definition azone_acted (act : zone_send_action) (a : azone) : azone :=
  match zone_next act (az_state a) with
  | Some s => AZone s (if clears act then 0 else az_off a)
  | None => a
  end.

(** The answer to a command: whether it was accepted, its status and its result. *)
Record answer : Type := Answer {
  an_ok : bool;
  an_status : Z;
  an_result : Z;
}.

Record zgeom : Type := ZGeom {
  zg_zones : Z;
  zg_cap : Z;
  zg_unit : Z;
}.

Definition aspec_write (g : zgeom) (room : bool) (cmd : nvme_rw_command) (zs : zspec) : answer * zspec :=
  let zid := rw_slba cmd / zg_cap g in
  let nr := rw_nr cmd in
  match zs zid with
  | None => (Answer true 0 0, zs)
  | Some a =>
      let append := rw_opcode cmd =? nvme_cmd_zone_append in
      let wp := zid * zg_cap g + az_off a in
      let slba := if append then wp else rw_slba cmd in
      let result := if append then wp else 0 in
      if negb room then (Answer false 0 result, zs)
      else if negb ((nr * 512) mod zg_unit g =? 0) then (Answer true NVME_SC_ZNS_INVALID_WRITE result, zs)
      else if negb (slba / zg_cap g =? (slba + nr - 1) / zg_cap g) then (Answer true NVME_SC_ZNS_ERR_BOUNDARY result, zs)
      else if negb (slba =? wp) then (Answer true NVME_SC_ZNS_INVALID_WRITE result, zs)
      else if decide (az_state a = ZONE_STATE_FULL) then (Answer true NVME_SC_ZNS_ERR_FULL result, zs)
      else (Answer true NVME_SC_SUCCESS result, zspec_set zid (azone_written (zg_cap g) nr a) zs)
  end.

Definition aspec_send (uninit : Z) (g : zgeom) (cmd : nvme_zone_mgmt_send) (zs : zspec) : answer * zspec :=
  let act := zsend_zsa cmd in
  if zsend_select_all cmd then (Answer true NVME_SC_SUCCESS 0, λ i, azone_acted act <$> zs i)
  else
    let zid := zsend_slba cmd / zg_cap g in
    match zs zid with
    | None => (Answer true 0 0, zs)
    | Some a =>
        (Answer true (match zone_next act (az_state a) with Some _ => NVME_SC_SUCCESS | None => refused uninit act end) 0,
         zspec_set zid (azone_acted act a) zs)
    end.

(** [room] tells whether the write buffer had space for the command. *)
Definition aspec_cmd (uninit : Z) (g : zgeom) (room : bool) (req : zns_request) (zs : zspec) : answer * zspec :=
  match zq_cmd req with
  | ZnsRw cmd =>
      if is_write cmd then aspec_write g room cmd zs
      else if rw_opcode cmd =? nvme_cmd_read then (Answer true (read_status (zg_cap g) (rw_nr cmd) (rw_slba cmd)) 0, zs)
      else (Answer true 0 0, zs)
  | ZnsSend cmd => aspec_send uninit g cmd zs
  | ZnsRecv cmd =>
      (Answer true (if (u32 (zrecv_slba cmd / zg_cap g) <? zg_zones g) && (zrecv_zra cmd =? 0) && (zrecv_zra_specific_field cmd =? 0)
                    then NVME_SC_SUCCESS else NVME_SC_INVALID_FIELD) 0, zs)
  | ZnsFlush => (Answer true NVME_SC_SUCCESS 0, zs)
  | ZnsOther => (Answer true 0 0, zs)
  end.

Fixpoint aspec_session (uninit : Z) (g : zgeom) (rooms : list bool) (reqs : list zns_request) (zs : zspec) : list answer * zspec :=
  match reqs, rooms with
  | req :: reqs', room :: rooms' =>
      let '(a, zs1) := aspec_cmd uninit g room req zs in
      let '(as', zs2) := aspec_session uninit g rooms' reqs' zs1 in
      (a :: as', zs2)
  | _, _ => ([], zs)
  end.

(** ** Sessions of the handlers *)

Fixpoint zns_session `{!Clock} `{!LocalClock} (c : ssd_config) (host_word : Z → Z) (uninit : Z) (ns : zns_ns)
    (reqs : list zns_request) : M zstate (list answer) :=
  match reqs with
  | [] => mret []
  | req :: reqs' =>
      '(ok, r, _, _) ← zns_proc_nvme_io_cmd c host_word uninit ns req (Result 0 0 0);
      rest ← zns_session c host_word uninit ns reqs';
      mret (Answer ok (ret_status r) (ret_result r) :: rest)
  end.

Definition geom_of (f : zns_ftl) : zgeom := ZGeom (zp_nr_zones (zf_zp f)) (lbas_per_zone f) (write_unit_size (zsp f)).

Definition zrefines (st : zstate) (zs : zspec) : Prop := ∀ i, zs i = zone_view (fst st) i.

(** ** The simulation *)

Lemma azone_written_of cap i d nr :
  zone_ok cap i d → zd_state d ≠ ZONE_STATE_FULL → azone_of (zone_written nr d) = azone_written cap nr (azone_of d).
Proof.
  intros [Hc Hs _ Hw] Hf. destruct d as [s v k z w]. simpl in *. subst k z. unfold zone_written, zone_advanced, zone_opened, azone_of, azone_written. simpl.
  assert ((w + nr =? i * cap + cap) = (w - i * cap + nr =? cap)) as E.
  { destruct (Z.eqb_spec (w - i * cap + nr) cap); [apply Z.eqb_eq|apply Z.eqb_neq]; lia. }
  destruct s; simpl; try done; rewrite E; destruct (w - i * cap + nr =? cap); simpl; f_equal; lia.
Qed.

Lemma azone_acted_of act d : azone_of (zone_acted act d) = azone_acted act (azone_of d).
Proof.
  unfold zone_acted, azone_acted, azone_of. simpl. destruct (zone_next act (zd_state d)) as [s|]; [|done].
  destruct act; simpl; try done. f_equal. lia.
Qed.

Lemma zrefines_set zid d' zs f f' :
  (∀ i, zs i = zone_view f i) → (∀ j, aget (zf_descs f') j = if decide (j = zid) then Some d' else aget (zf_descs f) j) →
  ∀ i, zspec_set zid (azone_of d') zs i = zone_view f' i.
Proof. intros Hr Hd i. unfold zspec_set, zone_view. rewrite Hd. case_decide; [done|]. apply Hr. Qed.

Lemma write_simulates c cmd d x st zs ok r c' st' :
  zinv st → zrefines st zs → zrw_ok c (fst st) cmd → aget (zf_descs (fst st)) (rw_zid (fst st) cmd) = Some d →
  write_post cmd (Result 0 0 0) d x st ok r c' st' →
  aspec_write (geom_of (fst st)) ok cmd zs = (Answer ok (ret_status r) (ret_result r), snd (aspec_write (geom_of (fst st)) ok cmd zs)) ∧
  zrefines st' (snd (aspec_write (geom_of (fst st)) ok cmd zs)).
Proof.
  intros Hinv Hr Hrw Hd (_ & Hres & Hp). pose proof (zi_zones _ Hinv _ _ Hd) as Hok.
  unfold aspec_write. cbn [geom_of zg_cap zg_unit]. fold (rw_zid (fst st) cmd). rewrite (Hr (rw_zid (fst st) cmd)). unfold zone_view. rewrite Hd.
  cbn [fmap option_fmap option_map azone_of az_off az_state].
  assert (rw_zid (fst st) cmd * lbas_per_zone (fst st) + (zd_wp d - zd_zslba d) = zd_wp d) as -> by (rewrite (zo_zslba _ _ _ Hok); lia).
  fold (write_slba cmd d).
  assert (ret_result r = if rw_opcode cmd =? nvme_cmd_zone_append then zd_wp d else 0) as ->.
  { rewrite Hres. unfold write_slba. by destruct (rw_opcode cmd =? nvme_cmd_zone_append). }
  destruct (buf_remaining x <? rw_nr cmd * 512).
  { destruct Hp as (-> & -> & He). simpl. split; [done|]. intros i. rewrite (Hr i). unfold zone_view. rewrite (ze_descs _ _ _ _ _ _ He). by case_decide; subst; rewrite ?Hd. }
  destruct Hp as (-> & -> & ops & He & _). cbn [negb].
  assert (∀ s, s ≠ NVME_SC_SUCCESS → write_status (write_unit_size (zsp (fst st))) (lbas_per_zone (fst st)) (rw_nr cmd) (write_slba cmd d) d = s → zrefines st' zs) as Herr.
  { intros s Hs E i. rewrite E in He. unfold after_write in He. rewrite (proj2 (Z.eqb_neq _ _) Hs) in He.
    rewrite (Hr i). unfold zone_view. rewrite (ze_descs _ _ _ _ _ _ He). by case_decide; subst; rewrite ?Hd. }
  revert He Herr. unfold write_status.
  destruct (negb (_ mod _ =? 0)); [intros He Herr; split; [done|eapply Herr; [|reflexivity]; done]|].
  destruct (negb (_ / _ =? _)); [intros He Herr; split; [done|eapply Herr; [|reflexivity]; done]|].
  destruct (negb (_ =? zd_wp d)); [intros He Herr; split; [done|eapply Herr; [|reflexivity]; done]|].
  destruct (decide (zd_state d = ZONE_STATE_FULL)) as [|Hf]; intros He Herr; [split; [done|eapply Herr; [|reflexivity]; done]|]. split; [done|]. simpl.
  fold (azone_of d). rewrite <- (azone_written_of _ _ d _ Hok Hf). intros i.
  apply (zrefines_set _ (zone_written (rw_nr cmd) d) _ (fst st) (fst st')); [apply Hr|apply He].
Qed.

Lemma send_simulates uninit cmd st zs r st' :
  zinv st → zrefines st zs → send_post uninit cmd st r st' → ret_result r = 0 →
  (zsend_select_all cmd = false → 0 ≤ zsend_slba cmd < zp_nr_zones (zf_zp (fst st)) * lbas_per_zone (fst st)) →
  fst (aspec_send uninit (geom_of (fst st)) cmd zs) = Answer true (ret_status r) (ret_result r) ∧
  zrefines st' (snd (aspec_send uninit (geom_of (fst st)) cmd zs)).
Proof.
  intros Hinv Hr Hp -> Hz. unfold send_post in Hp. unfold aspec_send. cbn [geom_of zg_cap]. destruct (zsend_select_all cmd).
  - destruct Hp as [-> Ha]. split; [done|]. intros i. simpl. rewrite (Hr i). unfold zone_view. rewrite (ac_descs _ _ _ _ _ Ha).
    destruct (aget (zf_descs (fst st)) i) as [d|] eqn:E; [|done]. simpl. apply aget_inv in E. rewrite (zi_len _ Hinv) in E.
    rewrite bool_decide_eq_true_2 by done. by rewrite azone_acted_of.
  - specialize (Hz eq_refl). pose proof (zi_zp _ Hinv) as Hzp. destruct (lbas_per_zone_eq _ Hzp) as (_ & E8 & Hlp). pose proof (zk_lbas _ Hzp).
    rewrite lba_to_zone_eq in Hp by (done || nia). destruct Hp as (Ha & d & Hd & ->). set (zid := zsend_slba cmd / _) in *.
    rewrite (Hr zid). unfold zone_view. rewrite Hd. simpl. split; [done|]. intros i. unfold zspec_set, zone_view. rewrite (ac_descs _ _ _ _ _ Ha).
    case_decide as Ei.
    + subst i. rewrite bool_decide_eq_true_2 by lia. rewrite Hd. simpl. by rewrite azone_acted_of.
    + rewrite bool_decide_eq_false_2 by lia. rewrite (Hr i). unfold zone_view. by destruct (aget _ i).
Qed.

Lemma zrefines_same st st' zs : zrefines st zs → zf_descs (fst st') = zf_descs (fst st) → zrefines st' zs.
Proof. intros Hr E i. rewrite (Hr i). unfold zone_view. by rewrite E. Qed.

Lemma cmd_simulates c host_word uninit req st zs ok r cmd' segs st' :
  zinv st → zrefines st zs → zcmd_ok c (fst st) req →
  zproc_post host_word uninit req (Result 0 0 0) st (ok, r, cmd', segs) st' →
  fst (aspec_cmd uninit (geom_of (fst st)) ok req zs) = Answer ok (ret_status r) (ret_result r) ∧
  zrefines st' (snd (aspec_cmd uninit (geom_of (fst st)) ok req zs)).
Proof.
  intros Hinv Hr [_ Hok]. unfold zproc_post, aspec_cmd. destruct (zq_cmd req) as [cmd|cmd|cmd| |].
  - intros [_ Hp]. destruct Hok as [Hrw _]. destruct (is_write cmd).
    + destruct Hp as (d & x & c' & _ & Hd & Hx & Hp). destruct (write_simulates c cmd d x st zs ok r c' st' Hinv Hr Hrw Hd Hp) as [E1 E2].
      by rewrite E1 at 1.
    + destruct Hp as (_ & -> & Hrr & Hp). destruct (rw_opcode cmd =? nvme_cmd_read); simpl.
      * destruct Hp as (-> & _ & Ht). rewrite Hrr. split; [done|]. eapply zrefines_same; [exact Hr|]. by apply ztimed_zp in Ht as (_ & _ & E & _).
      * by destruct Hp as [-> ->].
  - intros (_ & -> & Hrr & _ & Hp). apply (send_simulates uninit cmd st zs r st'); try done. apply Hok.
  - intros (_ & -> & Hrr & _ & Hp). unfold recv_post, check_zmgmt_rcv_option_supported in Hp. rewrite <- Z.ltb_antisym in Hp.
    unfold lba_to_zone at 1 in Hp. simpl. rewrite Hrr. destruct (_ && _ && _); simpl.
    + destruct Hp as (-> & [_ _ Hf _] & _). split; [done|]. eapply zrefines_same; [exact Hr|]. by rewrite Hf.
    + by destruct Hp as (-> & -> & _).
  - intros (_ & -> & Hrr & _ & -> & Ht & _). simpl. rewrite Hrr. split; [done|]. eapply zrefines_same; [exact Hr|]. by apply ztimed_zp in Ht as (_ & _ & E & _).
  - intros (_ & -> & _ & -> & ->). done.
Qed.

(** The geometry of a namespace does not change. *)
Lemma proc_geom host_word uninit c req ret st out st' :
  zcmd_ok c (fst st) req → zproc_post host_word uninit req ret st out st' → same_zp (fst st) (fst st').
Proof.
  intros [_ Hok]. unfold zproc_post. destruct out as [[[ok r] cmd'] segs]. destruct (zq_cmd req) as [cmd|cmd|cmd| |].
  - intros [_ Hp]. destruct (is_write cmd).
    + destruct Hp as (d & x & c' & _ & _ & _ & _ & _ & Hp).
      destruct (_ <? _); [destruct Hp as (_ & _ & He)|destruct Hp as (_ & _ & ops & He & _)]; split; apply He.
    + destruct Hp as (_ & _ & _ & Hp). destruct (_ =? _); [|by destruct Hp as [_ ->]]. destruct Hp as (_ & _ & Ht). by apply ztimed_zp in Ht as (E1 & E2 & _).
  - intros (_ & _ & _ & _ & Hp). unfold send_post in Hp. destruct (zsend_select_all cmd); [destruct Hp as [_ Hp]|destruct Hp as [Hp _]];
      (split; [apply Hp|unfold zsp; by rewrite (ac_ssd _ _ _ _ _ Hp)]).
  - intros (_ & _ & _ & _ & Hp). unfold recv_post in Hp. destruct (check_zmgmt_rcv_option_supported _ _); [|by destruct Hp as (_ & -> & _)].
    destruct Hp as (_ & [_ _ Hf _] & _). by rewrite Hf.
  - intros (_ & _ & _ & _ & _ & Ht & _). by apply ztimed_zp in Ht as (E1 & E2 & _).
  - by intros (_ & _ & _ & _ & ->).
Qed.

Lemma zcmd_ok_same c f f' req : same_zp f f' → zcmd_ok c f req → zcmd_ok c f' req.
Proof.
  intros Hs. destruct (same_zp_ext f f' Hs) as (_ & _ & _ & E1 & E2). destruct Hs as [E3 E4]. intros [H1 H2]. split; [done|].
  destruct (zq_cmd req); rewrite ?E1, ?E2, ?E3; try done.
  - destruct H2 as [[B1 B2 B3] H3]. split; [|done]. split; [done| |done]. by rewrite E2, E3.
  - unfold recv_ok, report_size, check_zmgmt_rcv_option_supported, lba_to_zone in *. by rewrite E2, E3.
Qed.

Lemma geom_of_same f f' : same_zp f f' → geom_of f' = geom_of f.
Proof. intros Hs. destruct (same_zp_ext f f' Hs) as (_ & _ & _ & _ & E). destruct Hs as [E1 E2]. unfold geom_of. by rewrite E, E1, E2. Qed.
