(* ===== verification/ZnsProps.v ===== *)
(** * Properties of the zoned namespace

    For every state reachable from initialisation by commands and buffer releases,
    in any order: no fault, well-formed zones, exact resource counters, answers as
    the abstract namespace gives them, and write buffers that never overflow. *)

From stdpp Require Import base numbers list gmap.
From S2P Require Import Prelude Config ChannelModel Ssd Nvme FdpLog CoreSpec FdpSpec Zns ZnsInv ZnsOps ZnsWrite ZnsIo ZnsInit ZnsProc ZnsAcct ZnsSpec.

#[local] Open Scope Z_scope.

(** ** The scheduled operations are about the zones' buffers *)

Definition zops_ok (f : zns_ftl) (ops : list (zbuf * internal_op)) : Prop :=
  Forall (λ op, ∃ zid, 0 ≤ zid < zp_nr_zones (zf_zp f) ∧ op_on (wbuf_of f zid) op) ops.

Lemma zops_ok_same f f' ops : same_zp f f' → zops_ok f ops → zops_ok f' ops.
Proof.
  intros Hs Ho. destruct (same_zp_ext f f' Hs) as (_ & _ & E & _). destruct Hs as [Hz _]. eapply Forall_impl; [exact Ho|].
  intros op (zid & H1 & H2). exists zid. by rewrite Hz, E.
Qed.

Lemma zops_proc c host_word uninit req ret st out st' :
  zinv st → zcmd_ok c (fst st) req → zops_ok (fst st) (zs_ops (snd st)) →
  zproc_post host_word uninit req ret st out st' → zops_ok (fst st') (zs_ops (snd st')).
Proof.
  intros Hinv Hok Ho Hp. apply (zops_ok_same (fst st)); [by eapply proc_geom|].
  revert Hp. unfold zproc_post. destruct out as [[[ok r] cmd'] segs]. destruct Hok as [_ Hok]. destruct (zq_cmd req) as [cmd|cmd|cmd| |].
  - intros [_ Hp]. destruct Hok as [Hrw _]. destruct (zrw_facts c _ cmd (zi_zp _ Hinv) Hrw) as (_ & _ & _ & _ & _ & F6). destruct (is_write cmd).
    + destruct Hp as (d & x & c' & _ & _ & _ & _ & _ & Hp). destruct (_ <? _).
      * destruct Hp as (_ & _ & He). rewrite (ze_ops _ _ _ _ _ _ He). by rewrite app_nil_r.
      * destruct Hp as (_ & _ & ops & He & Hops & _). rewrite (ze_ops _ _ _ _ _ _ He). apply Forall_app_2; [done|].
        eapply Forall_impl; [exact Hops|]. eauto.
    + destruct Hp as (_ & _ & _ & Hp). destruct (_ =? _); [|by destruct Hp as [_ ->]]. destruct Hp as (_ & _ & Ht).
      rewrite (td_ops _ _ _ Ht). by rewrite app_nil_r.
  - intros (_ & _ & _ & _ & Hp). unfold send_post in Hp. destruct (zsend_select_all cmd); [destruct Hp as [_ Hp]|destruct Hp as [Hp _]];
      by rewrite (ac_shared _ _ _ _ _ Hp).
  - intros (_ & _ & _ & -> & _). done.
  - intros (_ & _ & _ & _ & _ & Ht & _). rewrite (td_ops _ _ _ Ht). by rewrite app_nil_r.
  - by intros (_ & _ & _ & _ & ->).
Qed.

(** A release never faults; it wraps around at 64 bits. *)
Lemma zns_release_total st l1 l2 b op :
  zinv st → zops_ok (fst st) (zs_ops (snd st)) → zs_ops (snd st) = l1 ++ (b, op) :: l2 →
  ∃ st', zns_release b (iop_size op) st = Ok (true, st') ∧ zinv (set_ops (l1 ++ l2) st') ∧ same_zp (fst st) (fst st') ∧
    zops_ok (fst st') (l1 ++ l2) ∧ (∀ i, aget (zf_descs (fst st')) i = aget (zf_descs (fst st)) i).
Proof.
  intros Hinv Ho El. destruct st as [f sh]. simpl in *. rewrite El in Ho. apply Forall_app in Ho as [F1 F2].
  apply Forall_cons in F2 as [(zid & Hz & Hb & Hs) F2]. simpl in Hb, Hs.
  destruct (zi_bufs _ Hinv zid Hz) as (x & Hx & Hx0 & Hx1 & Hx2). simpl in *.
  set (x' := Buffer (buf_size x) (u64 (buf_remaining x + iop_size op))).
  assert (buffer_sane (wb_size f) x') as Hsane by (split; [apply u64_range|done]).
  assert (zns_release b (iop_size op) (f, sh) = Ok (true, put_buf (wbuf_of f zid) x' (f, sh))) as Heq.
  { unfold zns_release. rewrite Hb. destruct (wp_Ok (on_buf (wbuf_of f zid) (buffer_release (iop_size op))) (f, sh)
      (λ r st', r = true ∧ st' = put_buf (wbuf_of f zid) x' (f, sh))) as (r & st' & -> & -> & ->); [|done].
    eapply wp_on_buf; [exact Hx|]. done. }
  eexists. split; [exact Heq|]. destruct (aget_some (zf_descs f) zid) as [d Hd]. { pose proof (zi_len _ Hinv) as Hl. simpl in Hl. by rewrite Hl. }
  pose proof (zeffect_put zid d x x' f sh Hinv Hz Hd Hx Hsane) as [E1 E2 E3 E4 _ _ _ _]. destruct (put_buf _ _ _) as [f' sh']. simpl in *.
  split_and!; try done.
  - destruct E1 as [I1 I2 I3 I4 I5 I6 I7 I8 I9]. by split.
  - apply (zops_ok_same f); [done|]. by apply Forall_app_2.
  - intros i. rewrite E4. case_decide; by subst.
Qed.

(** ** Reachable states *)

Section device.
Context `{CK : !Clock} `{LC : !LocalClock}.
Context (c : ssd_config) (z : zns_config) (size : Z) (host_word : Z → Z) (uninit : Z).

(** The states of a new device of [size] bytes, whatever its memory held. *)
Inductive zreachable : zstate → Prop :=
| zreach_init report storage id cpu ticks lticks st ns :
    size ≤ alen storage → alen (zr_zd report) = size / ZONE_SIZE z + 1 →
    zns_init_namespace c z report storage id size cpu ticks lticks = Ok (st, ns) → zreachable st
| zreach_cmd ns st req ret out st' :
    zreachable st → zn_csi ns = NVME_CSI_ZNS → zn_nr_parts ns = 1 → zcmd_ok c (fst st) req →
    zns_proc_nvme_io_cmd c host_word uninit ns req ret st = Ok (out, st') → zreachable st'
| zreach_release st l1 l2 b op st' :
    zreachable st → zs_ops (snd st) = l1 ++ (b, op) :: l2 → zns_release b (iop_size op) st = Ok (true, st') →
    zreachable (set_ops (l1 ++ l2) st').

Hypothesis clock_range : ∀ n, 0 ≤ cpu_clock n.
Hypothesis layout : zns_layout c.
Hypothesis size_ok : zns_size_ok c z size.

(** The parameters of the namespace. *)
Record zparams (f : zns_ftl) : Prop := {
  zq_nr_zones : zp_nr_zones (zf_zp f) = size / ZONE_SIZE z;
  zq_cap : lbas_per_zone f = ZONE_SIZE z / 512;
  zq_unit : write_unit_size (zsp f) = WRITE_UNIT_SIZE c;
  zq_wb : wb_size f = (if ZONE_WB_SIZE z =? 0 then GLOBAL_WB_SIZE c else ZONE_WB_SIZE z);
}.

Lemma zparams_same f f' : same_zp f f' → zparams f → zparams f'.
Proof using.
  intros Hs [P1 P2 P3 P4]. destruct (same_zp_ext f f' Hs) as (_ & _ & _ & E1 & E2). destruct Hs as [E3 E4]. split; congruence.
Qed.

Lemma zreachable_inv st : zreachable st → zinv st ∧ zops_ok (fst st) (zs_ops (snd st)) ∧ zparams (fst st).
Proof using clock_range layout size_ok.
  induction 1 as [report storage id cpu ticks lticks st ns H1 H2 Hinit|ns st req ret out st' _ (Hinv & Ho & Hp) Hcsi Hnp Hok Hrun
    |st l1 l2 b op st' _ (Hinv & Ho & Hp) El Hrel].
  - destruct (zns_init_namespace_ok c z report storage id size cpu ticks lticks layout size_ok H1 H2)
      as (st0 & Heq & Hinv & Hops & P1 & P2 & P3 & P4 & _). rewrite Hinit in Heq. injection Heq as -> _. split_and!; [done|rewrite Hops; constructor|].
    split; try done. unfold lbas_per_zone. rewrite P2. by rewrite (proj2 (proj2 (so_pgsz _ (zk_sp _ (zi_zp _ Hinv))))).
  - destruct st as [f sh]. pose proof (wp_zns_proc c host_word uninit clock_range ns req ret f sh Hinv Hcsi Hnp Hok) as Hw.
    unfold wp in Hw. rewrite Hrun in Hw. destruct Hw as [Hpost Hinv']. split_and!; [done|by apply (zops_proc c host_word uninit req ret (f, sh) out st')|].
    eapply zparams_same; [|exact Hp]. by eapply (proc_geom _ _ _ _ _ (f, sh)).
  - destruct (zns_release_total st l1 l2 b op Hinv Ho El) as (st1 & Heq & Hi & Hs & Hz & _). rewrite Hrel in Heq. injection Heq as <-.
    split_and!; [done|done|]. by eapply zparams_same.
Qed.

(** Every command a host may send is carried out. *)
Lemma zreachable_cmd ns st req ret :
  zreachable st → zn_csi ns = NVME_CSI_ZNS → zn_nr_parts ns = 1 → zcmd_ok c (fst st) req →
  ∃ out st', zns_proc_nvme_io_cmd c host_word uninit ns req ret st = Ok (out, st') ∧
    zreachable st' ∧ zproc_post host_word uninit req ret st out st'.
Proof using clock_range layout size_ok.
  intros Hr Hcsi Hnp Hok. destruct (zreachable_inv st Hr) as (Hinv & _). destruct st as [f sh].
  pose proof (wp_zns_proc c host_word uninit clock_range ns req ret f sh Hinv Hcsi Hnp Hok) as Hw.
  apply wp_Ok in Hw as (out & st' & Heq & Hpost & _). exists out, st'. split_and!; [done| |done]. by eapply zreach_cmd.
Qed.

(** C7: the zoned device never crashes: in every reachable state, every command
    the host may send (blocks of the namespace, transfers that fit in a write
    buffer, no random write area, reports no longer than the report buffer: the code
    checks none of these) returns without a failed assertion, an access
    outside an array, a division by zero or an endless loop, and every scheduled
    buffer release can be carried out. *)
Theorem zns_device_never_fails ns st req ret :
  zreachable st → zn_csi ns = NVME_CSI_ZNS → zn_nr_parts ns = 1 → zcmd_ok c (fst st) req →
  (∃ out st', zns_proc_nvme_io_cmd c host_word uninit ns req ret st = Ok (out, st') ∧ zreachable st') ∧
  ∀ l1 l2 b op, zs_ops (snd st) = l1 ++ (b, op) :: l2 →
    ∃ st', zns_release b (iop_size op) st = Ok (true, st') ∧ zreachable (set_ops (l1 ++ l2) st').
Proof using clock_range layout size_ok.
  intros Hr Hcsi Hnp Hok. split.
  - destruct (zreachable_cmd ns st req ret Hr Hcsi Hnp Hok) as (out & st' & H1 & H2 & _). eauto.
  - intros l1 l2 b op El. destruct (zreachable_inv st Hr) as (Hinv & Ho & _).
    destruct (zns_release_total st l1 l2 b op Hinv Ho El) as (st' & Heq & _). exists st'. split; [done|]. by eapply zreach_release.
Qed.

(** C8: in every reachable state each zone descriptor is consistent: it starts at
    its multiple of the zone capacity, its write pointer is where its state allows
    (at the start when empty, inside the zone when open or closed), it is never
    read-only or offline; and the resource counters are exactly the numbers of
    active and of open zones, so neither can exceed the number of zones. *)
Theorem zns_zones_consistent st :
  zreachable st →
  (∀ i d, aget (zf_descs (fst st)) i = Some d →
     0 ≤ i < size / ZONE_SIZE z ∧ zd_zone_capacity d = ZONE_SIZE z / 512 ∧ zd_zslba d = i * (ZONE_SIZE z / 512) ∧
     wp_range (zd_state d) (zd_wp d - zd_zslba d) (ZONE_SIZE z / 512) ∧
     zd_state d ≠ ZONE_STATE_READ_ONLY ∧ zd_state d ≠ ZONE_STATE_OFFLINE) ∧
  ri_acquired_cnt (zf_res (fst st) ACTIVE_ZONE) = zcount zone_active (zf_descs (fst st)) ∧
  ri_acquired_cnt (zf_res (fst st) OPEN_ZONE) = zcount zone_open (zf_descs (fst st)) ∧
  0 ≤ zcount zone_open (zf_descs (fst st)) ≤ zcount zone_active (zf_descs (fst st)) ∧
  zcount zone_active (zf_descs (fst st)) ≤ size / ZONE_SIZE z.
Proof using clock_range layout size_ok.
  intros Hr. destruct (zreachable_inv st Hr) as (Hinv & _ & [P1 P2 _ _]). pose proof (zi_len _ Hinv) as Hl. pose proof (zi_res _ Hinv) as (R1 & R2 & _).
  split_and!; try done.
  - intros i d Hd. pose proof (aget_inv _ _ _ Hd) as Hi. rewrite Hl, P1 in Hi. destruct (zi_zones _ Hinv _ _ Hd) as [Z1 Z2 _ Z4].
    rewrite P2 in Z1, Z2, Z4. rewrite Z2. split_and!; try done; try lia; intros E; by rewrite E in Z4.
  - apply cnt_bounds.
  - unfold zcount. apply cnt_le. intros i _. destruct (aget _ i) as [d|]; [|done]. by destruct (zd_state d).
  - unfold zcount. rewrite Hl, P1. pose proof (cnt_bounds (λ i, match aget (zf_descs (fst st)) i with Some d => zone_active (zd_state d) | None => false end) (seqZ 0 (size / ZONE_SIZE z))) as Hc.
    rewrite length_seqZ in Hc. pose proof (zk_nr_zones _ (zi_zp _ Hinv)). lia.
Qed.

(** ** Refinement *)

Lemma zsession_refines ns st reqs zs :
  zreachable st → zn_csi ns = NVME_CSI_ZNS → zn_nr_parts ns = 1 → Forall (zcmd_ok c (fst st)) reqs → zrefines st zs →
  ∃ answers st' zs', zns_session c host_word uninit ns reqs st = Ok (answers, st') ∧ zreachable st' ∧
    aspec_session uninit (geom_of (fst st)) (an_ok <$> answers) reqs zs = (answers, zs') ∧ zrefines st' zs'.
Proof using clock_range layout size_ok.
  intros Hr Hcsi Hnp Hall. revert st zs Hr Hall. induction reqs as [|req reqs IH]; intros st zs Hr Hall Href.
  { exists [], st, zs. done. }
  apply Forall_cons in Hall as [Hok Hall]. destruct (zreachable_inv st Hr) as (Hinv & _).
  destruct (zreachable_cmd ns st req (Result 0 0 0) Hr Hcsi Hnp Hok) as ([[[ok r] cmd'] segs] & st1 & Heq & Hr1 & Hpost).
  pose proof (proc_geom _ _ _ _ _ _ _ _ Hok Hpost) as Hsame.
  destruct (cmd_simulates c host_word uninit req st zs ok r cmd' segs st1 Hinv Href Hok Hpost) as [Ha Href1].
  destruct (IH st1 (aspec_cmd uninit (geom_of (fst st)) ok req zs).2) as (answers & st' & zs' & H1 & H2 & H3 & H4); [done| |done|].
  { eapply Forall_impl; [exact Hall|]. intros q. by apply zcmd_ok_same. }
  exists (Answer ok (ret_status r) (ret_result r) :: answers), st', zs'. rewrite (geom_of_same _ _ Hsame) in H3. split_and!; try done.
  - simpl. unfold mbind, M_bind. rewrite Heq. simpl. by rewrite H1.
  - rewrite fmap_cons. cbn [aspec_session an_ok]. destruct (aspec_cmd uninit (geom_of (fst st)) ok req zs) as [a zs1].
    simpl in Ha, H3. rewrite H3. by rewrite Ha.
Qed.

(** C6: every session of the handlers answers as the abstract namespace does: from
    any reachable state, any sequence of commands ends, and the answers (accepted
    or to be retried, status, result) and the resulting states and write pointers
    of all zones are those of the abstract zone machine, given which writes found
    room in the write buffer. *)
Theorem zns_session_refines ns st reqs :
  zreachable st → zn_csi ns = NVME_CSI_ZNS → zn_nr_parts ns = 1 → Forall (zcmd_ok c (fst st)) reqs →
  ∃ answers st' zs', zns_session c host_word uninit ns reqs st = Ok (answers, st') ∧ zreachable st' ∧
    aspec_session uninit (ZGeom (size / ZONE_SIZE z) (ZONE_SIZE z / 512) (WRITE_UNIT_SIZE c)) (an_ok <$> answers) reqs
      (zone_view (fst st)) = (answers, zs') ∧
    ∀ i, zs' i = zone_view (fst st') i.
Proof using clock_range layout size_ok.
  intros Hr Hcsi Hnp Hall. destruct (zreachable_inv st Hr) as (_ & _ & [P1 P2 P3 _]).
  destruct (zsession_refines ns st reqs (zone_view (fst st)) Hr Hcsi Hnp Hall) as (answers & st' & zs' & H1 & H2 & H3 & H4); [done|].
  exists answers, st', zs'. unfold geom_of in H3. rewrite P1, P2, P3 in H3. done.
Qed.

(** ** Writes and zone management *)

(** C34: what a sequential write or a zone append does, on every branch: when the
    buffer is short the command is to be retried and nothing changes; otherwise
    the status is that of the first failing check (write unit, zone boundary,
    write pointer, full zone) or success, the blocks' buffer space is taken in
    either case, only a success moves the zone on, no other zone and no data in
    memory changes, and the releases scheduled are those of the one-shot pages the
    write completes. *)
Theorem zns_write_outcome ns st cmd sq start ret d x :
  zreachable st → zn_csi ns = NVME_CSI_ZNS → zn_nr_parts ns = 1 →
  zcmd_ok c (fst st) (ZnsRequest (ZnsRw cmd) sq start) → is_write cmd = true →
  aget (zf_descs (fst st)) (rw_zid (fst st) cmd) = Some d → get_buf (wbuf_of (fst st) (rw_zid (fst st) cmd)) st = Some x →
  let status := write_status (WRITE_UNIT_SIZE c) (ZONE_SIZE z / 512) (rw_nr cmd) (write_slba cmd d) d in
  ∃ ok r cmd' st', zns_proc_nvme_io_cmd c host_word uninit ns (ZnsRequest (ZnsRw cmd) sq start) ret st = Ok ((ok, r, cmd', []), st') ∧
    if buf_remaining x <? rw_nr cmd * 512 then
      ok = false ∧ zeffect (rw_zid (fst st) cmd) d x [] st st'
    else
      ok = true ∧ ret_status r = status ∧
      ∃ ops, Forall (op_on (wbuf_of (fst st) (rw_zid (fst st) cmd))) ops ∧ ops_size ops = released_by (fst st) status (rw_nr cmd) d ∧
        zeffect (rw_zid (fst st) cmd) (if status =? NVME_SC_SUCCESS then zone_written (rw_nr cmd) d else d)
          (Buffer (buf_size x) (buf_remaining x - rw_nr cmd * 512)) ops st st'.
Proof using clock_range layout size_ok.
  intros Hr Hcsi Hnp Hok Hw Hd Hx status. destruct (zreachable_inv st Hr) as (_ & _ & [_ P2 P3 _]).
  destruct (zreachable_cmd ns st _ ret Hr Hcsi Hnp Hok) as ([[[ok r] cmd'] segs] & st' & Heq & _ & Hpost).
  unfold zproc_post in Hpost. simpl in Hpost. rewrite Hw in Hpost. destruct Hpost as (-> & d' & x' & c' & -> & Hd' & Hx' & _ & _ & Hp).
  rewrite Hd in Hd'. injection Hd' as <-. rewrite Hx in Hx'. injection Hx' as <-. rewrite P2, P3 in Hp. fold status in Hp.
  exists ok, r, (ZnsRw c'), st'. split; [done|]. destruct (_ <? _).
  - by destruct Hp as (? & _ & ?).
  - destruct Hp as (? & ? & ops & ? & ? & ?). split_and!; try done. by exists ops.
Qed.

(** C35: zone management follows the zone state machine: an action sent to one zone
    or to all of them puts each zone into the next state of the machine, or leaves
    it and answers that the transition is invalid; a reset moves the write pointer
    back to the start and clears exactly the memory of the zones it acts on; no
    other zone, buffer or parameter changes. *)
Theorem zns_send_outcome ns st cmd sq start ret :
  zreachable st → zn_csi ns = NVME_CSI_ZNS → zn_nr_parts ns = 1 → zcmd_ok c (fst st) (ZnsRequest (ZnsSend cmd) sq start) →
  ∃ r st', zns_proc_nvme_io_cmd c host_word uninit ns (ZnsRequest (ZnsSend cmd) sq start) ret st = Ok ((true, r, ZnsSend cmd, []), st') ∧
    if zsend_select_all cmd then
      ret_status r = NVME_SC_SUCCESS ∧ acted (zsend_zsa cmd) 0 (size / ZONE_SIZE z) st st'
    else
      let zid := zsend_slba cmd / (ZONE_SIZE z / 512) in
      acted (zsend_zsa cmd) zid (zid + 1) st st' ∧
      ∃ d, aget (zf_descs (fst st)) zid = Some d ∧
        ret_status r = match zone_next (zsend_zsa cmd) (zd_state d) with
                       | Some _ => NVME_SC_SUCCESS | None => refused uninit (zsend_zsa cmd) end.
Proof using clock_range layout size_ok.
  intros Hr Hcsi Hnp Hok. destruct (zreachable_inv st Hr) as (Hinv & _ & [P1 P2 _ _]).
  destruct (zreachable_cmd ns st _ ret Hr Hcsi Hnp Hok) as ([[[ok r] cmd'] segs] & st' & Heq & _ & (-> & -> & _ & -> & Hp)).
  exists r, st'. split; [done|]. unfold send_post in Hp. rewrite P1 in Hp. destruct (zsend_select_all cmd) eqn:Es; [done|].
  destruct Hok as (_ & _ & Hz). simpl in Hz. specialize (Hz Es). pose proof (zi_zp _ Hinv) as Hzp. pose proof (zk_lbas _ Hzp).
  destruct (lbas_per_zone_eq _ Hzp) as (_ & E8 & Hlp). rewrite lba_to_zone_eq in Hp by (done || nia). by rewrite P2 in Hp.
Qed.

(** C36: a zone report holds the descriptors of the zones from the given block's on,
    as many as asked for and exist, and is copied to the host completely: the
    copies are adjacent, begin at the start of the report buffer and end inside it,
    cover the requested length, never leave the page they start in and go to the pages
    of the PRP entries in order; an unsupported request is refused and changes nothing.
    A supported request for more bytes than the report buffer has is not refused: the
    handler reads behind the buffer. *)
Theorem zns_report_outcome ns st cmd sq start ret :
  zreachable st → zn_csi ns = NVME_CSI_ZNS → zn_nr_parts ns = 1 → recv_prps cmd → 0 ≤ start →
  let run := zns_proc_nvme_io_cmd c host_word uninit ns (ZnsRequest (ZnsRecv cmd) sq start) ret st in
  if check_zmgmt_rcv_option_supported (fst st) cmd then
    if 128 + 64 * (size / ZONE_SIZE z) <? recv_length cmd then run = Fault OOPS
    else ∃ r segs st', run = Ok ((true, r, ZnsRecv cmd, segs), st') ∧
      snd st' = snd st ∧ ret_status r = NVME_SC_SUCCESS ∧
      reported (lba_to_zone (fst st) (zrecv_slba cmd)) (report_count (fst st) cmd) (fst st) (fst st') ∧
      seg_cover 0 (recv_length cmd) segs ∧
      ∀ k s, segs !! k = Some s →
        seg_paddr s = prp_entry host_word (zrecv_prp1 cmd) (zrecv_prp2 cmd) (recv_length cmd) k
  else ∃ r, run = Ok ((true, r, ZnsRecv cmd, []), st) ∧ ret_status r = NVME_SC_INVALID_FIELD.
Proof using clock_range layout size_ok.
  intros Hr Hcsi Hnp Hok Hs run. destruct (zreachable_inv st Hr) as (Hinv & _ & [P1 _ _ _]). rewrite <- P1.
  fold (report_size (fst st)).
  assert (recv_ok (fst st) cmd → ∃ r segs st', run = Ok ((true, r, ZnsRecv cmd, segs), st') ∧ snd st' = snd st ∧
    recv_post host_word cmd st r segs st') as Hrun.
  { intros Hf. destruct (zreachable_cmd ns st (ZnsRequest (ZnsRecv cmd) sq start) ret Hr Hcsi Hnp (conj Hs Hf))
      as ([[[ok r] cmd'] segs] & st' & Heq & _ & (-> & -> & _ & Hsh & Hp)). by exists r, segs, st'. }
  unfold recv_ok, recv_post in Hrun. destruct (check_zmgmt_rcv_option_supported (fst st) cmd) eqn:Ec.
  - destruct (Z.ltb_spec (report_size (fst st)) (recv_length cmd)) as [Hl|Hl].
    + unfold run, zns_proc_nvme_io_cmd. rewrite Hcsi, Hnp. destruct st as [f sh], Hok as [Hdw _].
      cbn [zq_cmd zq_nsecs_start]. unfold mbind, M_bind. cbn. by rewrite zns_recv_overread.
    + destruct Hrun as (r & segs & st' & H1 & H2 & H3 & H4 & H5 & H6); [done|]. by exists r, segs, st'.
  - destruct Hrun as (r & segs & st' & H1 & _ & H2 & -> & ->); [done|]. by exists r.
Qed.

(** reads and flushes change no zone and no memory: a read succeeds exactly when its
    blocks are in one zone and completes no earlier than its firmware latency
    allows; a flush completes no earlier than every LUN is idle. *)
Theorem zns_read_flush_outcome ns st cmd sq start ret :
  zreachable st → zn_csi ns = NVME_CSI_ZNS → zn_nr_parts ns = 1 →
  zcmd_ok c (fst st) (ZnsRequest (ZnsRw cmd) sq start) → rw_opcode cmd = nvme_cmd_read →
  (∃ r st', zns_proc_nvme_io_cmd c host_word uninit ns (ZnsRequest (ZnsRw cmd) sq start) ret st = Ok ((true, r, ZnsRw cmd, []), st') ∧
     (ret_status r = NVME_SC_SUCCESS ↔ rw_slba cmd / (ZONE_SIZE z / 512) = (rw_slba cmd + rw_length cmd) / (ZONE_SIZE z / 512)) ∧
     read_stime (zsp (fst st)) (rw_nr cmd) start ≤ ret_nsecs_target r ∧ ztimed [] st st') ∧
  (∃ r st', zns_proc_nvme_io_cmd c host_word uninit ns (ZnsRequest ZnsFlush sq start) ret st = Ok ((true, r, ZnsFlush, []), st') ∧
     ret_status r = NVME_SC_SUCCESS ∧ ztimed [] st st' ∧
     ∀ p l, get_lun (zf_ssd (fst st)) p = Some l → lun_next_lun_avail_time l ≤ ret_nsecs_target r).
Proof using clock_range layout size_ok.
  intros Hr Hcsi Hnp Hok Hrd. destruct (zreachable_inv st Hr) as (_ & _ & [_ P2 _ _]). split.
  - destruct (zreachable_cmd ns st _ ret Hr Hcsi Hnp Hok) as ([[[ok r] cmd'] segs] & st' & Heq & _ & Hpost).
    unfold zproc_post in Hpost. simpl in Hpost. unfold is_write in Hpost. rewrite Hrd in Hpost. destruct Hpost as (-> & -> & -> & _ & Hst & Ht & Htd).
    exists r, st'. split_and!; try done. rewrite Hst, P2. unfold read_status, rw_nr. replace (rw_slba cmd + (rw_length cmd + 1) - 1) with (rw_slba cmd + rw_length cmd) by lia.
    destruct (Z.eqb_spec (rw_slba cmd / (ZONE_SIZE z / 512)) ((rw_slba cmd + rw_length cmd) / (ZONE_SIZE z / 512))); split; done.
  - destruct (zreachable_cmd ns st (ZnsRequest ZnsFlush sq start) ret Hr Hcsi Hnp) as ([[[ok r] cmd'] segs] & st' & Heq & _ & (-> & -> & _ & -> & H1 & H2 & H3)).
    { split; [apply Hok|done]. }
    by exists r, st'.
Qed.

(** ** Striping *)

(** the pages of a zone are spread over its dies: page [o] of a zone is on the
    die [(o / pages per one-shot page) mod (dies per zone)] of the zone's group,
    which exists on the device, so that consecutive one-shot pages go to different
    dies in turn; and two pages of the zone share a die only if their one-shot
    pages are a multiple of the group size apart. *)
Theorem zns_striping st zid o :
  zreachable st → 0 ≤ zid < size / ZONE_SIZE z → 0 ≤ o < ZONE_SIZE z / 4096 →
  let f := fst st in
  let P := pgs_per_oneshotpg (zsp f) in
  let D := zp_dies_per_zone (zf_zp f) in
  let p k := lpn_to_ppa f (zid * (ZONE_SIZE z / 4096) + k) in
  let die k := (zid * D) mod tt_luns (zsp f) + (k / P) mod D in
  ppa_in (zsp f) (p o) ∧ g_ch (p o) = die o mod nchs (zsp f) ∧ g_lun (p o) = die o / nchs (zsp f) ∧ g_pg (p o) = o mod P ∧
  ∀ o', 0 ≤ o' < ZONE_SIZE z / 4096 →
    (g_ch (p o') = g_ch (p o) ∧ g_lun (p o') = g_lun (p o) ↔ (o' / P) mod D = (o / P) mod D).
Proof using clock_range layout size_ok.
  intros Hr Hz Ho f P D p die. destruct (zreachable_inv st Hr) as (Hinv & _ & [P1 P2 _ _]). fold f in P1, P2.
  pose proof (zi_zp _ Hinv) as Hzp. fold f in Hzp. destruct (zone_size_eq f Hzp) as [E5 E4]. rewrite P2 in E5.
  assert (pgs_per_zone f = ZONE_SIZE z / 4096) as Ep.
  { pose proof (zz_zone _ _ _ size_ok) as [_ Hm]. destruct (lbas_per_zone_eq f Hzp) as (_ & E8 & _). rewrite P2 in E8. dlia. }
  pose proof (zk_sp _ Hzp) as Hsp. pose proof (so_nchs _ Hsp) as Hn. pose proof (so_luns _ Hsp) as Hu. pose proof (zk_luns _ Hzp) as Htt.
  pose proof (zk_dies _ Hzp) as Hd. fold D in Hd. pose proof (so_oneshot _ Hsp) as HP. fold P in HP.
  assert (∀ k, 0 ≤ k < ZONE_SIZE z / 4096 → ppa_in (zsp f) (p k) ∧ g_ch (p k) = die k mod nchs (zsp f) ∧ g_lun (p k) = die k / nchs (zsp f) ∧ g_pg (p k) = k mod P) as Hp.
  { intros k Hk. unfold p. rewrite <- Ep. split; [apply lpn_to_ppa_in; [done|rewrite Ep; nia]|].
    split; [|split; [|by apply lpn_to_ppa_pg; rewrite ?Ep, ?P1]]; apply lpn_to_ppa_die; rewrite ?Ep, ?P1; done. }
  destruct (Hp o Ho) as (H1 & H2 & H3 & H4). split_and!; try done. intros o' Ho'. destruct (Hp o' Ho') as (_ & H2' & H3' & _).
  rewrite H2, H2', H3, H3'. unfold die. split; [|by intros ->].
  set (a := (o' / P) mod D). set (b := (o / P) mod D). set (s := (zid * D) mod tt_luns (zsp f)). intros [Em Ed].
  pose proof (Z.div_mod (s + a) (nchs (zsp f)) ltac:(lia)) as Ea. pose proof (Z.div_mod (s + b) (nchs (zsp f)) ltac:(lia)) as Eb.
  rewrite Em, Ed in Ea. lia.
Qed.

(** ** The write buffers *)

Hypothesis aligned_unit : WRITE_UNIT_SIZE c mod 4096 = 0.

Lemma zreachable_acct st : zreachable st → zacct st.
Proof using clock_range layout size_ok aligned_unit.
  induction 1 as [report storage id cpu ticks lticks st ns H1 H2 Hinit|ns st req ret out st' Hr IH Hcsi Hnp Hok Hrun
    |st l1 l2 b op st' Hr IH El Hrel].
  - destruct (zns_init_namespace_ok c z report storage id size cpu ticks lticks layout size_ok H1 H2)
      as (st0 & Heq & Hinv & Hops & P1 & _ & _ & _ & Hds & Hb). rewrite Hinit in Heq. injection Heq as -> _. split.
    + intros i d Hd. pose proof (zi_zones _ Hinv _ _ Hd) as [_ Hs _ Hw]. rewrite (Hds i d Hd) in Hw. simpl in Hw. by rewrite Hs, Hw.
    + rewrite Hops. constructor.
    + intros zid x Hz Hx. rewrite P1 in Hz. rewrite (Hb zid x Hz Hx), Hops. simpl.
      assert (partial_sum (fst st0) (wbuf_of (fst st0) zid) = 0) as ->; [|unfold pending; simpl; lia].
      unfold partial_sum. rewrite (zsum_ext _ (λ _, 0)); [induction (seqZ _ _); simpl; lia|]. intros j _. unfold zone_share.
      destruct (aget _ j) as [d|] eqn:Hd; [|done]. case_decide; [|done]. unfold zone_partial. by rewrite (Hds j d Hd).
  - destruct (zreachable_inv st Hr) as (Hinv & _ & [_ _ P3 _]). destruct st as [f sh].
    pose proof (wp_zns_proc c host_word uninit clock_range ns req ret f sh Hinv Hcsi Hnp Hok) as Hw.
    unfold wp in Hw. rewrite Hrun in Hw. destruct Hw as [Hpost _]. eapply zacct_proc; [exact Hinv|done|exact Hok|by rewrite P3|exact Hpost].
  - destruct (zreachable_inv st Hr) as (Hinv & _). destruct (zns_release_ok st l1 l2 b op Hinv IH El) as (st1 & Heq & _ & Ha & _).
    rewrite Hrel in Heq. by injection Heq as <-.
Qed.

(** C9: on a device whose write unit is a whole number of pages no write buffer is
    ever over-released: in every reachable state the free space of a zone's
    buffer, what the scheduled operations are going to give back and what its
    zones hold of incomplete one-shot pages add up to at most its size, so that
    carrying out any scheduled release leaves at most the whole buffer free. *)
Theorem zns_buffers_never_overflow st zid x :
  zreachable st → 0 ≤ zid < size / ZONE_SIZE z → get_buf (wbuf_of (fst st) zid) st = Some x →
  buf_remaining x + pending (wbuf_of (fst st) zid) (zs_ops (snd st)) + partial_sum (fst st) (wbuf_of (fst st) zid)
    ≤ (if ZONE_WB_SIZE z =? 0 then GLOBAL_WB_SIZE c else ZONE_WB_SIZE z) ∧
  ∀ l1 l2 op, zs_ops (snd st) = l1 ++ (wbuf_of (fst st) zid, op) :: l2 →
    buf_remaining x + iop_size op ≤ buf_size x.
Proof using clock_range layout size_ok aligned_unit.
  intros Hr Hz Hx. destruct (zreachable_inv st Hr) as (Hinv & _ & [P1 _ _ P4]). pose proof (zreachable_acct st Hr) as [_ A2 A3].
  rewrite <- P1 in Hz. specialize (A3 zid x Hz Hx). rewrite P4 in A3. split; [done|]. intros l1 l2 op El. rewrite El in A2, A3.
  apply Forall_app in A2 as [F1 F2]. apply Forall_cons in F2 as [_ F2].
  assert (∀ l, Forall (λ op, ∃ zid, 0 ≤ zid < zp_nr_zones (zf_zp (fst st)) ∧ op_on (wbuf_of (fst st) zid) op) l →
    0 ≤ pending (wbuf_of (fst st) zid) l) as Hnn.
  { intros l Hl. apply (pending_nonneg (λ _, True)). eapply Forall_impl; [exact Hl|]. intros o (j & _ & H). eauto. }
  pose proof (Hnn l1 F1). pose proof (Hnn l2 F2). pose proof (partial_sum_nonneg st (wbuf_of (fst st) zid) Hinv).
  rewrite pending_app, pending_cons in A3. unfold op_share in A3. simpl in A3. rewrite decide_True in A3 by done.
  destruct (zi_bufs _ Hinv zid Hz) as (y & Hy & _ & Hsz & _). rewrite Hx in Hy. injection Hy as <-. rewrite Hsz, P4. lia.
Qed.
End device.

(** ** Running the device *)

(** The I/O engine carries out the first [n] scheduled releases. *)
Fixpoint zns_releases (n : nat) : M zstate unit :=
  match n with
  | O => mret tt
  | S n' =>
      st ← get;
      match zs_ops (snd st) with
      | [] => mret tt
      | (b, op) :: ops => zns_release b (iop_size op) ;; modify (set_ops ops) ;; zns_releases n'
      end
  end.

Lemma releases_reachable `{CK : !Clock} `{LC : !LocalClock} c z size host_word uninit n st st' :
  zreachable c z size host_word uninit st → zns_releases n st = Ok (tt, st') → zreachable c z size host_word uninit st'.
Proof.
  revert st. induction n as [|n IH]; intros st Hr; simpl; [by intros [= ->]|]. unfold mbind at 1, M_bind at 1. simpl.
  destruct (zs_ops (snd st)) as [|[b op] ops] eqn:El; [by intros [= ->]|]. unfold mbind, M_bind.
  destruct (zns_release b (iop_size op) st) as [[ok st1]|] eqn:Er; [|done]. simpl. apply IH.
  assert (ok = true) as ->.
  { unfold zns_release, on_buf, on_arr_buf, zoom, buffer_release, mbind, M_bind in Er. destruct b; simpl in Er; try by injection Er.
    all: case_match; [case_match; by injection Er|done]. }
  by apply (zreach_release c z size host_word uninit st [] ops b op st1).
Qed.

Lemma session_reachable `{CK : !Clock} `{LC : !LocalClock} c z size host_word uninit ns reqs st answers st' :
  (∀ n, 0 ≤ cpu_clock n) → zns_layout c → zns_size_ok c z size → zreachable c z size host_word uninit st →
  zn_csi ns = NVME_CSI_ZNS → zn_nr_parts ns = 1 → Forall (zcmd_ok c (fst st)) reqs →
  zns_session c host_word uninit ns reqs st = Ok (answers, st') → zreachable c z size host_word uninit st'.
Proof.
  intros Hck Hlay Hsz Hr Hcsi Hnp Hall Heq.
  destruct (zsession_refines c z size host_word uninit Hck Hlay Hsz ns st reqs (zone_view (fst st)) Hr Hcsi Hnp Hall) as (a & st1 & zs & H1 & H2 & _); [done|].
  rewrite Heq in H1. by injection H1 as -> ->.
Qed.

(** A request to write [nr] blocks at [slba]. *)
Definition zwrite_req (slba nr : Z) : zns_request := ZnsRequest (ZnsRw (RwCmd nvme_cmd_write 1 slba (nr - 1) 0 0)) 0 0.
Definition zsend_req (slba : Z) (act : zone_send_action) (option : Z) : zns_request :=
  ZnsRequest (ZnsSend (ZoneSend slba act false option)) 0 0.

Definition new_storage (n : Z) : arr Z := anew n 0.
Definition new_report (n : Z) : zone_report := ZoneReport 0 (anew (n + 1) (ZoneDesc ZONE_STATE_EMPTY 0 0 0 0)).
Definition no_list (_ : Z) : Z := 0.

(** A new device with two zones. *)
Lemma two_zones c z :
  zns_layout c → zns_size_ok c z (2 * ZONE_SIZE z) →
  ∃ st, zns_init_namespace c z (new_report 2) (new_storage (2 * ZONE_SIZE z)) 0 (2 * ZONE_SIZE z) 0 0 0 = Ok (st, ZnsNs 0 NVME_CSI_ZNS (2 * ZONE_SIZE z) 1) ∧
    zreachable (CK := still_clock) (LC := still_local_clock) c z (2 * ZONE_SIZE z) no_list 0 st.
Proof.
  intros Hlay Hsz. pose proof (zz_zone _ _ _ Hsz) as [Hz _]. assert (2 * ZONE_SIZE z / ZONE_SIZE z = 2) as E by (rewrite Z.div_mul; lia).
  destruct (zns_init_namespace_ok c z (new_report 2) (new_storage (2 * ZONE_SIZE z)) 0 (2 * ZONE_SIZE z) 0 0 0 Hlay Hsz) as (st & Hinit & _).
  { done. } { by rewrite E. }
  exists st. split; [done|]. eapply zreach_init; [| |exact Hinit]; [done|by rewrite E].
Qed.

Lemma prototype_size : zns_size_ok ZNS_PROTOTYPE ZNS_PROTOTYPE_zones (2 * ZONE_SIZE ZNS_PROTOTYPE_zones).
Proof. split; vm_compute; done. Qed.
Lemma zn540_size : zns_size_ok WD_ZN540 WD_ZN540_zones (2 * ZONE_SIZE WD_ZN540_zones).
Proof. split; vm_compute; done. Qed.

(** Requests a device with known parameters accepts. *)
Lemma zwrite_ok c z size f slba nr :
  zparams c z size f → LBA_BITS c = 9 → 0 ≤ slba < size / ZONE_SIZE z * (ZONE_SIZE z / 512) → 1 ≤ nr ≤ 2 ^ 16 →
  nr * 512 ≤ (if ZONE_WB_SIZE z =? 0 then GLOBAL_WB_SIZE c else ZONE_WB_SIZE z) → zcmd_ok c f (zwrite_req slba nr).
Proof.
  intros [P1 P2 _ P4] Hb Hs Hn Hw. split; [done|]. simpl. split; [split; simpl; [done|by rewrite P1, P2|lia]|].
  intros _. unfold rw_nr. simpl. rewrite P4. lia.
Qed.
Lemma zsend_ok c z size f slba act :
  zparams c z size f → 0 ≤ slba < size / ZONE_SIZE z * (ZONE_SIZE z / 512) → zcmd_ok c f (zsend_req slba act 0).
Proof. intros [P1 P2 _ _] Hs. split; [done|]. simpl. split; [done|]. intros _. by rewrite P1, P2. Qed.

(** A new device of two zones, a session and some releases. *)
Definition run_two_zones {A} (c : ssd_config) (z : zns_config) (reqs : list zns_request) (n : nat) (k : zstate → A) : res (list answer * A) :=
  match zns_init_namespace c z (new_report 2) (new_storage (2 * ZONE_SIZE z)) 0 (2 * ZONE_SIZE z) 0 0 0 with
  | Ok (st, ns) =>
      match zns_session (H := still_clock) (H0 := still_local_clock) c no_list 0 ns reqs st with
      | Ok (answers, st1) => match zns_releases n st1 with Ok (_, st2) => Ok (answers, k st2) | Fault e => Fault e end
      | Fault e => Fault e
      end
  | Fault e => Fault e
  end.

(** What a run computes is true of a reachable state. *)
Lemma run_reachable {A} c z reqs n (k : zstate → A) answers a :
  zns_layout c → zns_size_ok c z (2 * ZONE_SIZE z) → (∀ f, zparams c z (2 * ZONE_SIZE z) f → Forall (zcmd_ok c f) reqs) →
  run_two_zones c z reqs n k = Ok (answers, a) →
  ∃ st, zreachable (CK := still_clock) (LC := still_local_clock) c z (2 * ZONE_SIZE z) no_list 0 st ∧ k st = a.
Proof.
  intros Hlay Hsz Hok. destruct (two_zones c z Hlay Hsz) as (st & Hinit & Hr). unfold run_two_zones. rewrite Hinit. cbv zeta iota.
  destruct (zreachable_inv c z _ _ _ (λ _, Z.le_refl 0) Hlay Hsz st Hr) as (_ & _ & Hp).
  destruct (zns_session _ _ _ _ _ st) as [[as' st1]|] eqn:Hs; [|done]. destruct (zns_releases n st1) as [[[] st2]|] eqn:Hrel; [|done].
  intros [= _ <-]. exists st2. split; [|done]. eapply releases_reachable; [|exact Hrel].
  eapply (session_reachable c z _ no_list 0 _ reqs st as' st1 (λ _, Z.le_refl 0) Hlay Hsz Hr); [| |by apply Hok|exact Hs]; done.
Qed.

(** ** What the shipped configurations get wrong *)

(** A device that accepts writes smaller than a page, as the shipped WD_ZN540
    configuration does, over-releases its write buffer: after three accepted
    writes to an empty zone (23 pages, then the first two blocks of the 24th) each
    of the two small writes has scheduled the release of a whole one-shot page,
    and carrying these releases out leaves the zone's buffer with more free space
    than it has. *)
Theorem zns_subpage_overrelease :
  ∃ st x, zreachable (CK := still_clock) (LC := still_local_clock) WD_ZN540 WD_ZN540_zones (2 * ZONE_SIZE WD_ZN540_zones) no_list 0 st ∧
    get_buf (ZoneBuf 0) st = Some x ∧ buf_size x < buf_remaining x.
Proof.
  destruct (run_reachable WD_ZN540 WD_ZN540_zones [zwrite_req 0 184; zwrite_req 184 1; zwrite_req 185 1] 2 (get_buf (ZoneBuf 0))
    [Answer true 0 0; Answer true 0 0; Answer true 0 0] (Some (Buffer 983040 1084416)) wd_zn540_layout zn540_size) as (st & Hr & Hb).
  - intros f Hp. constructor; [|constructor; [|constructor; [|constructor]]];
      (eapply zwrite_ok; [exact Hp|done|vm_compute; split; congruence|lia|vm_compute; congruence]).
  - vm_compute. reflexivity.
  - exists st, (Buffer 983040 1084416). done.
Qed.

(** A random write area on a device without one divides by zero: the shipped
    configurations set all ZRWA sizes to 0, yet a new device grants the option to
    as many zones as it has; the host that opens the first zone with the option
    gets a success, and its first write to that zone faults. *)
Theorem zns_zrwa_division_by_zero :
  ∃ st st' answer, zreachable (CK := still_clock) (LC := still_local_clock) ZNS_PROTOTYPE ZNS_PROTOTYPE_zones
      (2 * ZONE_SIZE ZNS_PROTOTYPE_zones) no_list 0 st ∧
    let ns := ZnsNs 0 NVME_CSI_ZNS (2 * ZONE_SIZE ZNS_PROTOTYPE_zones) 1 in
    zns_session (H := still_clock) (H0 := still_local_clock) ZNS_PROTOTYPE no_list 0 ns [zsend_req 0 ZSA_OPEN_ZONE 1] st = Ok ([answer], st') ∧
    an_status answer = NVME_SC_SUCCESS ∧
    zns_session (H := still_clock) (H0 := still_local_clock) ZNS_PROTOTYPE no_list 0 ns [zwrite_req 0 256] st' = Fault OOPS.
Proof.
  destruct (two_zones ZNS_PROTOTYPE ZNS_PROTOTYPE_zones zns_prototype_layout prototype_size) as (st & Hinit & Hr).
  assert (match zns_init_namespace ZNS_PROTOTYPE ZNS_PROTOTYPE_zones (new_report 2) (new_storage (2 * ZONE_SIZE ZNS_PROTOTYPE_zones)) 0
      (2 * ZONE_SIZE ZNS_PROTOTYPE_zones) 0 0 0 with
    | Ok (st, ns) =>
        match zns_session (H := still_clock) (H0 := still_local_clock) ZNS_PROTOTYPE no_list 0 ns [zsend_req 0 ZSA_OPEN_ZONE 1] st with
        | Ok (as', st') => as' = [Answer true 0 0] ∧
            match zns_session (H := still_clock) (H0 := still_local_clock) ZNS_PROTOTYPE no_list 0 ns [zwrite_req 0 256] st' with
            | Fault OOPS => True | _ => False end
        | Fault _ => False
        end
    | Fault _ => False
    end) as Hv by (vm_compute; done).
  rewrite Hinit in Hv. cbv zeta iota in Hv. destruct (zns_session _ _ _ _ [zsend_req 0 ZSA_OPEN_ZONE 1] st) as [[as' st']|] eqn:Hs; [|done].
  destruct Hv as [-> Hv]. exists st, st', (Answer true 0 0). split; [exact Hr|]. cbv zeta. split; [exact Hs|]. split; [reflexivity|].
  destruct (zns_session _ _ _ _ [zwrite_req 0 256] st') as [|[]]; done.
Qed.

(** A new zoned device, of either layout and of any whole number of zones below
    2 TiB that its page numbers can express, comes up: its zones, which fill the
    capacity, are all empty and at their start, no zone resource is taken, and
    every write buffer is free. *)
Theorem zns_init_ok c z report storage id size cpu ticks lticks :
  zns_layout c → zns_size_ok c z size → size ≤ alen storage → alen (zr_zd report) = size / ZONE_SIZE z + 1 →
  ∃ st, zns_init_namespace c z report storage id size cpu ticks lticks = Ok (st, ZnsNs id NVME_CSI_ZNS size 1) ∧
    alen (zf_descs (fst st)) * ZONE_SIZE z = size ∧
    (∀ i d, aget (zf_descs (fst st)) i = Some d → zd_state d = ZONE_STATE_EMPTY ∧ zd_wp d = i * (ZONE_SIZE z / 512)) ∧
    (∀ t, ri_acquired_cnt (zf_res (fst st) t) = 0) ∧
    ∀ i x, 0 ≤ i < size / ZONE_SIZE z → get_buf (wbuf_of (fst st) i) st = Some x →
      buf_remaining x = buf_size x ∧ buf_size x = (if ZONE_WB_SIZE z =? 0 then GLOBAL_WB_SIZE c else ZONE_WB_SIZE z).
Proof.
  intros Hlay Hsz Hs Hrep. destruct (zns_init_namespace_ok c z report storage id size cpu ticks lticks Hlay Hsz Hs Hrep)
    as (st & Hinit & Hinv & _ & P1 & P2 & _ & P4 & Hds & Hb). exists st. split; [done|].
  pose proof (zi_len _ Hinv) as Hl. pose proof (zz_zone _ _ _ Hsz) as [Hz _]. pose proof (zz_fit _ _ _ Hsz) as Hf.
  assert (lbas_per_zone (fst st) = ZONE_SIZE z / 512) as Ec.
  { unfold lbas_per_zone. by rewrite P2, (proj2 (proj2 (so_pgsz _ (zk_sp _ (zi_zp _ Hinv))))). }
  assert (∀ P, P ZONE_STATE_EMPTY = false → zcount P (zf_descs (fst st)) = 0) as Hc0.
  { intros P HP. apply cnt_none. intros i _. destruct (aget _ i) as [d|] eqn:E; [|done]. by rewrite (Hds i d E). }
  split_and!.
  - rewrite Hl, P1. symmetry. rewrite Z.mul_comm. apply Z.div_exact; lia.
  - intros i d Hd. pose proof (Hds i d Hd) as E. split; [done|]. destruct (zi_zones _ Hinv _ _ Hd) as [_ _ _ Hw]. rewrite E, Ec in Hw. simpl in Hw. lia.
  - pose proof (zi_res _ Hinv) as (R1 & R2 & R3 & _). intros []; [by rewrite R1, Hc0|by rewrite R2, Hc0|done].
  - intros i x Hi Hx. rewrite (Hb i x Hi Hx). simpl. by rewrite P4.
Qed.

(** ** Witnesses: the prototype device with two zones, after a write of 256 blocks *)

Definition proto_reachable : zstate → Prop :=
  zreachable (CK := still_clock) (LC := still_local_clock) ZNS_PROTOTYPE ZNS_PROTOTYPE_zones (2 * ZONE_SIZE ZNS_PROTOTYPE_zones) no_list 0.
Definition proto_ns : zns_ns := ZnsNs 0 NVME_CSI_ZNS (2 * ZONE_SIZE ZNS_PROTOTYPE_zones) 1.
Definition proto_params : zns_ftl → Prop := zparams ZNS_PROTOTYPE ZNS_PROTOTYPE_zones (2 * ZONE_SIZE ZNS_PROTOTYPE_zones).
Definition proto_desc : zone_descriptor := ZoneDesc ZONE_STATE_OPENED_IMPL 0 65536 0 256.

Lemma proto_requests f : proto_params f →
  Forall (zcmd_ok ZNS_PROTOTYPE f) [zwrite_req 0 256; zwrite_req 256 256; zsend_req 0 ZSA_RESET_ZONE 0].
Proof.
  intros Hp. constructor; [|constructor; [|constructor; [|constructor]]].
  - eapply zwrite_ok; [exact Hp|done|vm_compute; split; congruence|lia|vm_compute; congruence].
  - eapply zwrite_ok; [exact Hp|done|vm_compute; split; congruence|lia|vm_compute; congruence].
  - eapply zsend_ok; [exact Hp|vm_compute; split; congruence].
Qed.

Lemma proto_written : ∃ st, proto_reachable st ∧ proto_params (fst st) ∧ aget (zf_descs (fst st)) 0 = Some proto_desc ∧
  get_buf GlobalBuf st = Some (Buffer 33554432 33423360) ∧ wbuf_of (fst st) 0 = GlobalBuf.
Proof.
  destruct (run_reachable ZNS_PROTOTYPE ZNS_PROTOTYPE_zones [zwrite_req 0 256] 0
    (λ st, (aget (zf_descs (fst st)) 0, get_buf GlobalBuf st, wbuf_of (fst st) 0))
    [Answer true 0 0] (Some proto_desc, Some (Buffer 33554432 33423360), GlobalBuf) zns_prototype_layout prototype_size) as (st & Hr & Hb).
  - intros f Hp. pose proof (proto_requests f Hp) as Hok. apply Forall_cons in Hok as [Hok _]. by constructor.
  - vm_compute. reflexivity.
  - pose proof (f_equal (λ x, x.1.1) Hb) as H1. pose proof (f_equal (λ x, x.1.2) Hb) as H2. pose proof (f_equal snd Hb) as H3.
    exists st. split; [exact Hr|]. split; [|split; [exact H1|split; [exact H2|exact H3]]].
    by apply (zreachable_inv _ _ _ _ _ (λ _, Z.le_refl 0) zns_prototype_layout prototype_size st Hr).
Qed.

Lemma zns_init_ok_witness :
  ∃ st, zns_init_namespace WD_ZN540 WD_ZN540_zones (new_report 2) (new_storage (2 * ZONE_SIZE WD_ZN540_zones)) 0 (2 * ZONE_SIZE WD_ZN540_zones) 0 0 0
    = Ok (st, ZnsNs 0 NVME_CSI_ZNS (2 * ZONE_SIZE WD_ZN540_zones) 1) ∧ alen (zf_descs (fst st)) * GB 2 = 2 * ZONE_SIZE WD_ZN540_zones.
Proof.
  destruct (zns_init_ok WD_ZN540 WD_ZN540_zones (new_report 2) (new_storage (2 * ZONE_SIZE WD_ZN540_zones)) 0 (2 * ZONE_SIZE WD_ZN540_zones) 0 0 0
    wd_zn540_layout zn540_size (Z.le_refl _) eq_refl) as (st & H1 & H2 & _).
  exists st. split; [exact H1|exact H2].
Defined.

Lemma zns_device_never_fails_witness : ∃ st out st',
  zns_proc_nvme_io_cmd (H := still_clock) (H0 := still_local_clock) ZNS_PROTOTYPE no_list 0 proto_ns (zwrite_req 256 256) (Result 0 0 0) st = Ok (out, st') ∧
  proto_reachable st'.
Proof.
  destruct proto_written as (st & Hr & Hp & _). exists st. pose proof (proto_requests _ Hp) as Hok.
  apply Forall_cons in Hok as [_ Hok]. apply Forall_cons in Hok as [Hok _].
  exact (proj1 (@zns_device_never_fails still_clock still_local_clock ZNS_PROTOTYPE ZNS_PROTOTYPE_zones _ no_list 0 (λ _, Z.le_refl 0)
    zns_prototype_layout prototype_size proto_ns st (zwrite_req 256 256) (Result 0 0 0) Hr eq_refl eq_refl Hok)).
Defined.

Lemma zns_zones_consistent_witness : ∃ st, proto_reachable st ∧ zcount zone_open (zf_descs (fst st)) = ri_acquired_cnt (zf_res (fst st) OPEN_ZONE).
Proof.
  destruct proto_written as (st & Hr & _). exists st. split; [exact Hr|].
  symmetry. apply (@zns_zones_consistent still_clock still_local_clock ZNS_PROTOTYPE ZNS_PROTOTYPE_zones _ no_list 0 (λ _, Z.le_refl 0)
    zns_prototype_layout prototype_size st Hr).
Defined.

Lemma zns_session_refines_witness : ∃ st answers st', proto_reachable st' ∧
  zns_session (H := still_clock) (H0 := still_local_clock) ZNS_PROTOTYPE no_list 0 proto_ns
    [zwrite_req 0 256; zwrite_req 256 256; zsend_req 0 ZSA_RESET_ZONE 0] st = Ok (answers, st').
Proof.
  destruct proto_written as (st & Hr & Hp & _). exists st.
  destruct (@zns_session_refines still_clock still_local_clock ZNS_PROTOTYPE ZNS_PROTOTYPE_zones _ no_list 0 (λ _, Z.le_refl 0)
    zns_prototype_layout prototype_size proto_ns st _ Hr eq_refl eq_refl (proto_requests _ Hp)) as (answers & st' & _ & H1 & H2 & _).
  exists answers, st'. split; [exact H2|exact H1].
Defined.

Lemma zns_write_outcome_witness : ∃ st ok r cmd' st',
  zns_proc_nvme_io_cmd (H := still_clock) (H0 := still_local_clock) ZNS_PROTOTYPE no_list 0 proto_ns (zwrite_req 256 256) (Result 0 0 0) st = Ok ((ok, r, cmd', []), st') ∧
  aget (zf_descs (fst st')) 0 = Some (ZoneDesc ZONE_STATE_OPENED_IMPL 0 65536 0 512).
Proof.
  destruct proto_written as (st & Hr & Hp & Hd & Hx & Hb). exists st. pose proof (proto_requests _ Hp) as Hok.
  apply Forall_cons in Hok as [_ Hok]. apply Forall_cons in Hok as [Hok _].
  assert (rw_zid (fst st) (RwCmd nvme_cmd_write 1 256 255 0 0) = 0) as Ez by (unfold rw_zid; rewrite (zq_cap _ _ _ _ Hp); reflexivity).
  destruct (@zns_write_outcome still_clock still_local_clock ZNS_PROTOTYPE ZNS_PROTOTYPE_zones _ no_list 0 (λ _, Z.le_refl 0)
    zns_prototype_layout prototype_size proto_ns st (RwCmd nvme_cmd_write 1 256 255 0 0) 0 0 (Result 0 0 0) proto_desc (Buffer 33554432 33423360)
    Hr eq_refl eq_refl Hok eq_refl) as (ok & r & cmd' & st' & H1 & H2).
  { rewrite Ez. exact Hd. } { rewrite Ez, Hb. exact Hx. }
  exists ok, r, cmd', st'. split; [exact H1|]. rewrite Ez in H2. vm_compute (_ <? _) in H2. destruct H2 as (_ & _ & ops & _ & _ & He).
  rewrite (ze_descs _ _ _ _ _ _ He 0). vm_compute. reflexivity.
Defined.

Lemma zns_send_outcome_witness : ∃ st r st',
  zns_proc_nvme_io_cmd (H := still_clock) (H0 := still_local_clock) ZNS_PROTOTYPE no_list 0 proto_ns (zsend_req 0 ZSA_RESET_ZONE 0) (Result 0 0 0) st
    = Ok ((true, r, ZnsSend (ZoneSend 0 ZSA_RESET_ZONE false 0), []), st') ∧
  aget (zf_descs (fst st')) 0 = Some (ZoneDesc ZONE_STATE_EMPTY 0 65536 0 0) ∧ ret_status r = NVME_SC_SUCCESS.
Proof.
  destruct proto_written as (st & Hr & Hp & Hd & _). exists st. pose proof (proto_requests _ Hp) as Hok.
  apply Forall_cons in Hok as [_ Hok]. apply Forall_cons in Hok as [_ Hok]. apply Forall_cons in Hok as [Hok _].
  destruct (@zns_send_outcome still_clock still_local_clock ZNS_PROTOTYPE ZNS_PROTOTYPE_zones _ no_list 0 (λ _, Z.le_refl 0)
    zns_prototype_layout prototype_size proto_ns st (ZoneSend 0 ZSA_RESET_ZONE false 0) 0 0 (Result 0 0 0)
    Hr eq_refl eq_refl Hok) as (r & st' & H1 & Ha & d & Hd' & Hs).
  exists r, st'. split; [exact H1|]. change (zsend_slba (ZoneSend 0 ZSA_RESET_ZONE false 0) / (ZONE_SIZE ZNS_PROTOTYPE_zones / 512)) with 0 in *.
  rewrite Hd in Hd'. injection Hd' as <-. split; [|exact Hs]. rewrite (ac_descs _ _ _ _ _ Ha 0), Hd. reflexivity.
Defined.

(** A report of the whole buffer over a page boundary, and one of a word more. *)
Definition report_cmd (nr_dw : Z) : nvme_zone_mgmt_recv := ZoneRecv 8128 12288 0 nr_dw 0 0 0.

Lemma zns_report_outcome_witness : ∃ st r segs st',
  zns_proc_nvme_io_cmd (H := still_clock) (H0 := still_local_clock) ZNS_PROTOTYPE no_list 0 proto_ns
    (ZnsRequest (ZnsRecv (report_cmd 63)) 0 0) (Result 0 0 0) st = Ok ((true, r, ZnsRecv (report_cmd 63), segs), st') ∧
  seg_cover 0 256 segs ∧
  zns_proc_nvme_io_cmd (H := still_clock) (H0 := still_local_clock) ZNS_PROTOTYPE no_list 0 proto_ns
    (ZnsRequest (ZnsRecv (report_cmd 64)) 0 0) (Result 0 0 0) st = Fault OOPS.
Proof.
  destruct proto_written as (st & Hr & Hp & _). exists st.
  assert (∀ n, check_zmgmt_rcv_option_supported (fst st) (report_cmd n) = true) as Hc.
  { intros n. unfold check_zmgmt_rcv_option_supported, lba_to_zone. rewrite (zq_nr_zones _ _ _ _ Hp), (zq_cap _ _ _ _ Hp). reflexivity. }
  assert (∀ n, 0 ≤ n < 70 → recv_prps (report_cmd n)) as Hn.
  { intros n Hn. split; [exact (proj1 Hn)|]. intros _. reflexivity. }
  pose proof (λ n, @zns_report_outcome still_clock still_local_clock ZNS_PROTOTYPE ZNS_PROTOTYPE_zones _ no_list 0
    (λ _, Z.le_refl 0) zns_prototype_layout prototype_size proto_ns st (report_cmd n) 0 0 (Result 0 0 0) Hr eq_refl eq_refl) as H.
  pose proof (H 63 (Hn 63 ltac:(lia)) (Z.le_refl 0)) as H63. pose proof (H 64 (Hn 64 ltac:(lia)) (Z.le_refl 0)) as H64.
  rewrite Hc in H63, H64. vm_compute (_ <? _) in H63. vm_compute (_ <? _) in H64.
  destruct H63 as (r & segs & st' & H1 & _ & _ & _ & H2 & _). exists r, segs, st'. split; [exact H1|]. split; [exact H2|exact H64].
Defined.

Definition proto_read : nvme_rw_command := RwCmd nvme_cmd_read 1 0 7 0 0.

Lemma zns_read_flush_outcome_witness : ∃ st r st',
  zns_proc_nvme_io_cmd (H := still_clock) (H0 := still_local_clock) ZNS_PROTOTYPE no_list 0 proto_ns
    (ZnsRequest (ZnsRw proto_read) 0 0) (Result 0 0 0) st = Ok ((true, r, ZnsRw proto_read, []), st') ∧ ret_status r = NVME_SC_SUCCESS.
Proof.
  destruct proto_written as (st & Hr & Hp & _). exists st.
  assert (zcmd_ok ZNS_PROTOTYPE (fst st) (ZnsRequest (ZnsRw proto_read) 0 0)) as Hok.
  { split; [apply Z.le_refl|]. simpl. split; [|intros [=]]. destruct Hp as [P1 P2 _ _]. split; [reflexivity|rewrite P1, P2; vm_compute; split; congruence|simpl; lia]. }
  destruct (@zns_read_flush_outcome still_clock still_local_clock ZNS_PROTOTYPE ZNS_PROTOTYPE_zones _ no_list 0 (λ _, Z.le_refl 0)
    zns_prototype_layout prototype_size proto_ns st proto_read 0 0 (Result 0 0 0) Hr eq_refl eq_refl Hok eq_refl) as [(r & st' & H1 & H2 & _) _].
  exists r, st'. split; [exact H1|]. apply H2. vm_compute. reflexivity.
Defined.

Lemma zns_striping_witness : ∃ st, proto_reachable st ∧ ppa_in (zsp (fst st)) (lpn_to_ppa (fst st) (1 * 8192 + 33)).
Proof.
  destruct proto_written as (st & Hr & _). exists st. split; [exact Hr|].
  apply (@zns_striping still_clock still_local_clock ZNS_PROTOTYPE ZNS_PROTOTYPE_zones _ no_list 0 (λ _, Z.le_refl 0)
    zns_prototype_layout prototype_size st 1 33 Hr); vm_compute; split; congruence.
Defined.

Lemma zns_buffers_never_overflow_witness : ∃ st, proto_reachable st ∧
  33423360 + pending GlobalBuf (zs_ops (snd st)) + partial_sum (fst st) GlobalBuf ≤ 33554432.
Proof.
  destruct proto_written as (st & Hr & _ & _ & Hx & Hb). exists st. split; [exact Hr|].
  destruct (@zns_buffers_never_overflow still_clock still_local_clock ZNS_PROTOTYPE ZNS_PROTOTYPE_zones _ no_list 0 (λ _, Z.le_refl 0)
    zns_prototype_layout prototype_size eq_refl st 0 (Buffer 33554432 33423360) Hr) as [H1 _].
  - vm_compute. split; congruence.
  - rewrite Hb. exact Hx.
  - rewrite Hb in H1. exact H1.
Defined.
