(* ===== verification/WorkQueue.v ===== *)
(** * Work queues of the I/O workers (src/io.c, src/nvmev.h)

    Each worker thread has an array of work items.  Two lists run through the
    array, chained by index: the items in use, ordered by the time they are due,
    and the free items, a queue of which the dispatcher takes the head and to whose
    end it returns finished items.  This file has the operations on one worker's
    queue, the invariant that the two lists partition the array and the effect of
    every operation on them. *)

From Stdlib Require Import ZArith Lia Sorted.
From stdpp Require Import base numbers list gmap.
From S2P Require Import Prelude.

#[local] Open Scope Z_scope.

(** The number of items per worker, a compile-time constant. *)
Class IoConfig : Type := NR_MAX_PARALLEL_IO : Z.
Definition shipped_io_config : IoConfig := 16384.

(** [-1] stored in an [unsigned int]: the end of a list. *)
Definition NIL : Z := u32 (-1).

Record nvmev_io_work : Type := IoWork {
  w_sqid : Z;
  w_cqid : Z;
  w_sq_entry : Z;
  w_command_id : Z;
  w_nsecs_start : Z;
  w_nsecs_target : Z;
  w_nsecs_enqueue : Z;
  w_is_copied : bool;
  w_is_completed : bool;
  w_status : Z;
  w_result0 : Z;
  w_result1 : Z;
  w_is_internal : bool;
  w_write_buffer : Z;
  w_buffs_to_release : Z;
  w_next : Z;
  w_prev : Z;
}.

(** [kzalloc] *)
Definition zero_work : nvmev_io_work :=
  IoWork 0 0 0 0 0 0 0 false false 0 0 0 false 0 0 0 0.

Definition set_links (nxt prv : Z) (w : nvmev_io_work) : nvmev_io_work :=
  IoWork (w_sqid w) (w_cqid w) (w_sq_entry w) (w_command_id w) (w_nsecs_start w)
    (w_nsecs_target w) (w_nsecs_enqueue w) (w_is_copied w) (w_is_completed w)
    (w_status w) (w_result0 w) (w_result1 w) (w_is_internal w) (w_write_buffer w)
    (w_buffs_to_release w) nxt prv.
Definition set_next (x : Z) (w : nvmev_io_work) : nvmev_io_work := set_links x (w_prev w) w.
Definition set_prev (x : Z) (w : nvmev_io_work) : nvmev_io_work := set_links (w_next w) x w.
Definition set_flags (copied completed : bool) (w : nvmev_io_work) : nvmev_io_work :=
  IoWork (w_sqid w) (w_cqid w) (w_sq_entry w) (w_command_id w) (w_nsecs_start w)
    (w_nsecs_target w) (w_nsecs_enqueue w) copied completed
    (w_status w) (w_result0 w) (w_result1 w) (w_is_internal w) (w_write_buffer w)
    (w_buffs_to_release w) (w_next w) (w_prev w).
Definition set_copied (w : nvmev_io_work) : nvmev_io_work := set_flags true (w_is_completed w) w.
Definition set_completed (w : nvmev_io_work) : nvmev_io_work := set_flags (w_is_copied w) true w.

Record nvmev_io_worker : Type := IoWorker {
  work_queue : arr nvmev_io_work;
  free_seq : Z;
  free_seq_end : Z;
  io_seq : Z;
  io_seq_end : Z;
  latest_nsecs : Z;
  worker_id : Z;
}.

Definition set_queue (q : arr nvmev_io_work) (k : nvmev_io_worker) : nvmev_io_worker :=
  IoWorker q (free_seq k) (free_seq_end k) (io_seq k) (io_seq_end k) (latest_nsecs k) (worker_id k).
Definition set_free_seq (x : Z) (k : nvmev_io_worker) : nvmev_io_worker :=
  IoWorker (work_queue k) x (free_seq_end k) (io_seq k) (io_seq_end k) (latest_nsecs k) (worker_id k).
Definition set_free_seq_end (x : Z) (k : nvmev_io_worker) : nvmev_io_worker :=
  IoWorker (work_queue k) (free_seq k) x (io_seq k) (io_seq_end k) (latest_nsecs k) (worker_id k).
Definition set_io_seq (x : Z) (k : nvmev_io_worker) : nvmev_io_worker :=
  IoWorker (work_queue k) (free_seq k) (free_seq_end k) x (io_seq_end k) (latest_nsecs k) (worker_id k).
Definition set_io_seq_end (x : Z) (k : nvmev_io_worker) : nvmev_io_worker :=
  IoWorker (work_queue k) (free_seq k) (free_seq_end k) (io_seq k) x (latest_nsecs k) (worker_id k).
Definition set_latest_nsecs (x : Z) (k : nvmev_io_worker) : nvmev_io_worker :=
  IoWorker (work_queue k) (free_seq k) (free_seq_end k) (io_seq k) (io_seq_end k) x (worker_id k).

(** [worker->work_queue[i]], read and changed in place. *)
Definition wq_get (i : Z) : M nvmev_io_worker nvmev_io_work :=
  k ← get; aread (work_queue k) i.
Definition wq_upd (i : Z) (f : nvmev_io_work → nvmev_io_work) : M nvmev_io_worker unit :=
  k ← get;
  w ← aread (work_queue k) i;
  q ← awrite (work_queue k) i (f w);
  put (set_queue q k).

Section operations.
Context `{IC : !IoConfig}.

(** The search from the end of the list for the item to insert behind. *)
Definition find_insert_position (nsecs_target : Z) (last : Z) : M nvmev_io_worker Z :=
  while_loop (NR_MAX_PARALLEL_IO + 2) (λ curr,
    if curr =? NIL then mret (inr curr)
    else
      w ← wq_get curr;
      latest ← gets latest_nsecs;
      if w_nsecs_target w <=? latest then mret (inr curr)
      else if w_nsecs_target w <=? nsecs_target then mret (inr curr)
      else mret (inl (w_prev w))) last.

Definition insert_req_sorted (entry nsecs_target : Z) : M nvmev_io_worker unit :=
  head ← gets io_seq;
  if head =? NIL then
    modify (set_io_seq entry) ;;
    modify (set_io_seq_end entry)
  else
    last ← gets io_seq_end;
    curr ← find_insert_position nsecs_target last;
    if curr =? NIL then
      (* head inserted *)
      wq_upd head (set_prev entry) ;;
      wq_upd entry (set_next head) ;;
      modify (set_io_seq entry)
    else
      c ← wq_get curr;
      if w_next c =? NIL then
        (* tail *)
        wq_upd entry (set_prev curr) ;;
        modify (set_io_seq_end entry) ;;
        wq_upd curr (set_next entry)
      else
        (* in between *)
        wq_upd entry (set_prev curr) ;;
        wq_upd entry (set_next (w_next c)) ;;
        wq_upd (w_next c) (set_prev entry) ;;
        wq_upd curr (set_next entry).

(** The head of the free list, unless it is the last free item. *)
Definition take_free : M nvmev_io_worker (option Z) :=
  e ← gets free_seq;
  w ← wq_get e;
  if NR_MAX_PARALLEL_IO <=? w_next w then mret None
  else
    modify (set_free_seq (w_next w)) ;;
    NVMEV_ASSERT (negb (NR_MAX_PARALLEL_IO <=? w_next w)) ;;
    mret (Some e).

(** The finished items at the head of the list: the last of them, or [NIL]. *)
Definition find_finished (first : Z) : M nvmev_io_worker Z :=
  while_loop (NR_MAX_PARALLEL_IO + 2) (λ '(curr, last_entry),
    if curr =? NIL then mret (inr last_entry)
    else
      w ← wq_get curr;
      latest ← gets latest_nsecs;
      if w_is_completed w && w_is_copied w && (w_nsecs_target w <=? latest)
      then mret (inl (w_next w, curr))
      else mret (inr last_entry)) (first, NIL).

(** The body of [__reclaim_completed_reqs] for one worker. *)
Definition reclaim_worker : M nvmev_io_worker unit :=
  first_entry ← gets io_seq;
  last_entry ← find_finished first_entry;
  if last_entry =? NIL then mret tt
  else
    w ← wq_get last_entry;
    modify (set_io_seq (w_next w)) ;;
    when (negb (w_next w =? NIL)) (wq_upd (w_next w) (set_prev NIL)) ;;
    wq_upd last_entry (set_next NIL) ;;
    fe ← gets free_seq_end;
    wq_upd first_entry (set_prev fe) ;;
    wq_upd fe (set_next first_entry) ;;
    modify (set_free_seq_end last_entry).

(** The set-up of one worker in [NVMEV_IO_WORKER_INIT]. *)
Definition init_worker (id : Z) : nvmev_io_worker :=
  let n := NR_MAX_PARALLEL_IO in
  let q := abuild n zero_work (λ i, set_links (u32 (i + 1)) (u32 (i - 1)) zero_work) in
  IoWorker (aupd q (n - 1) (set_next NIL)) 0 (n - 1) NIL NIL 0 id.
End operations.

(** ** Chains of indices

    [nchain f l e]: following [f] from each element of [l] leads to the next one,
    and from the last one to [e]; [pchain f p l] is the same backwards. *)

Fixpoint nchain (f : Z → option Z) (l : list Z) (e : Z) : Prop :=
  match l with
  | [] => True
  | x :: l' => f x = Some (default e (head l')) ∧ nchain f l' e
  end.
Fixpoint pchain (f : Z → option Z) (p : Z) (l : list Z) : Prop :=
  match l with
  | [] => True
  | x :: l' => f x = Some p ∧ pchain f x l'
  end.

Section chains.
Implicit Types (f g : Z → option Z) (l : list Z).

Lemma nchain_ext f g l e : (∀ i, i ∈ l → f i = g i) → nchain f l e → nchain g l e.
Proof.
  induction l as [|x l IH]; simpl; [done|]. intros H [Hx Hl]. split.
  - rewrite <- H; [done|set_solver].
  - apply IH; [set_solver|done].
Qed.

Lemma pchain_ext f g p l : (∀ i, i ∈ l → f i = g i) → pchain f p l → pchain g p l.
Proof.
  revert p. induction l as [|x l IH]; simpl; [done|]. intros p H [Hx Hl]. split.
  - rewrite <- H; [done|set_solver].
  - apply IH; [set_solver|done].
Qed.

Lemma head_app_default {A} (l1 l2 : list A) (d : A) :
  default d (head (l1 ++ l2)) = default (default d (head l2)) (head l1).
Proof. by destruct l1. Qed.

Lemma nchain_app f l1 l2 e :
  nchain f (l1 ++ l2) e ↔ nchain f l1 (default e (head l2)) ∧ nchain f l2 e.
Proof.
  induction l1 as [|x l1 IH]; simpl; [tauto|].
  rewrite IH, head_app_default. tauto.
Qed.

Lemma last_cons_default {A} (x : A) (l : list A) (d : A) : default d (last (x :: l)) = default x (last l).
Proof. rewrite last_cons. by destruct (last l). Qed.

Lemma pchain_app f p l1 l2 :
  pchain f p (l1 ++ l2) ↔ pchain f p l1 ∧ pchain f (default p (last l1)) l2.
Proof.
  revert p. induction l1 as [|x l1 IH]; intros p.
  { simpl. tauto. }
  rewrite last_cons_default. simpl. rewrite IH. tauto.
Qed.

(** The end of a chain redirected. *)
Lemma nchain_redirect f g l c e e' :
  nchain f (l ++ [c]) e → c ∉ l → g c = Some e' → (∀ i, i ∈ l → g i = f i) →
  nchain g (l ++ [c]) e'.
Proof.
  rewrite !nchain_app. simpl. intros (Hl & _ & _) Hc Hg Heq. split_and!; [|done|done].
  eapply nchain_ext; [|exact Hl]. intros i Hi. by rewrite Heq.
Qed.

(** An element linked in behind [io1]. *)
Lemma nchain_insert f g io1 e io2 z :
  nchain f (io1 ++ io2) z → NoDup (io1 ++ e :: io2) →
  g e = Some (default z (head io2)) →
  (∀ c, last io1 = Some c → g c = Some e) →
  (∀ i, i ≠ e → last io1 ≠ Some i → g i = f i) →
  nchain g (io1 ++ e :: io2) z.
Proof.
  intros Hc Hnd He Hlast Hrest. apply nchain_app in Hc as [H1 H2].
  apply NoDup_app in Hnd as (Hnd1 & Hdis & [He2 Hnd2]%NoDup_cons).
  apply nchain_app. split; simpl.
  - destruct io1 as [|c l _] using rev_ind; [done|].
    rewrite last_snoc in Hlast, Hrest. apply NoDup_app in Hnd1 as (_ & Hdis1 & _).
    eapply nchain_redirect; [exact H1| |by apply Hlast|].
    + intros Hin. apply (Hdis1 c Hin). set_solver.
    + intros i Hi. apply Hrest; [|intros [= ->]].
      * intros ->. apply (Hdis e); set_solver.
      * apply (Hdis1 i Hi). set_solver.
  - split; [done|]. eapply nchain_ext; [|exact H2]. intros i Hi. symmetry. apply Hrest.
    + by intros ->.
    + intros Hl. apply last_Some in Hl as [l' ->]. apply (Hdis i); set_solver.
Qed.

Lemma pchain_insert f g p io1 e io2 :
  pchain f p (io1 ++ io2) → NoDup (io1 ++ e :: io2) →
  g e = Some (default p (last io1)) →
  (∀ c, head io2 = Some c → g c = Some e) →
  (∀ i, i ≠ e → head io2 ≠ Some i → g i = f i) →
  pchain g p (io1 ++ e :: io2).
Proof.
  intros Hc Hnd He Hhead Hrest. apply pchain_app in Hc as [H1 H2].
  apply NoDup_app in Hnd as (Hnd1 & Hdis & [He2 Hnd2]%NoDup_cons).
  apply pchain_app. simpl. split_and!; [|done|].
  - eapply pchain_ext; [|exact H1]. intros i Hi. symmetry. apply Hrest.
    + intros ->. apply (Hdis e); set_solver.
    + destruct io2 as [|c l]; [done|]. intros [= ->]. apply (Hdis i); set_solver.
  - destruct io2 as [|c l]; [done|]. simpl in *. destruct H2 as [_ H2].
    split; [by apply Hhead|]. apply NoDup_cons in Hnd2 as [Hc _].
    eapply pchain_ext; [|exact H2]. intros i Hi. symmetry. apply Hrest; [|intros [= ->]; done].
    intros ->. apply He2. set_solver.
Qed.

(** Two chains joined: the end of the first is made to lead to the second. *)
Lemma nchain_join f g l1 c l2 e :
  nchain f (l1 ++ [c]) e → nchain f l2 e → NoDup ((l1 ++ [c]) ++ l2) → l2 ≠ [] →
  g c = head l2 → (∀ i, i ≠ c → g i = f i) →
  nchain g ((l1 ++ [c]) ++ l2) e.
Proof.
  intros H1 H2 Hnd Hne Hc Hrest. apply NoDup_app in Hnd as (Hnd1 & Hdis & _).
  apply NoDup_app in Hnd1 as (_ & Hdis1 & _).
  destruct l2 as [|x l2]; [done|]. apply nchain_app. split.
  - eapply nchain_redirect; [exact H1| |exact Hc|].
    + intros Hin. apply (Hdis1 c Hin). set_solver.
    + intros i Hi. apply Hrest. intros ->. apply (Hdis1 c Hi). set_solver.
  - eapply nchain_ext; [|exact H2]. intros i Hi. symmetry. apply Hrest.
    intros ->. apply (Hdis c); set_solver.
Qed.
End chains.

(** ** The invariant of a work queue *)

Definition nxt (q : arr nvmev_io_work) (i : Z) : option Z := w_next <$> aget q i.
Definition prv (q : arr nvmev_io_work) (i : Z) : option Z := w_prev <$> aget q i.
(** An item without its links. *)
Definition payload (w : nvmev_io_work) : nvmev_io_work := set_links 0 0 w.
Definition item (q : arr nvmev_io_work) (i : Z) : nvmev_io_work :=
  payload (default zero_work (aget q i)).
Definition due (q : arr nvmev_io_work) (i : Z) : Z := w_nsecs_target (item q i).

(** Item [i] may stand before item [j]: it is due no later, or the worker has read
    a time at which it was due. *)
Definition before (q : arr nvmev_io_work) (top : Z) (i j : Z) : Prop :=
  due q i ≤ Z.max (due q j) top.

(** [out] are the items taken from the free list and not yet put in use, [io] the
    items in use, [fresh] the free items never used, [used] the free items used
    before; [top] is the latest time the worker has read. *)
Record wq_inv `{!IoConfig} (top : Z) (out io fresh used : list Z) (k : nvmev_io_worker) : Prop := WqInv {
  wq_len : alen (work_queue k) = NR_MAX_PARALLEL_IO;
  wq_all : out ++ io ++ fresh ++ used ≡ₚ seqZ 0 NR_MAX_PARALLEL_IO;
  wq_io_head : io_seq k = default NIL (head io);
  wq_io_last : io ≠ [] → last io = Some (io_seq_end k);
  wq_io_next : nchain (nxt (work_queue k)) io NIL;
  wq_io_prev : pchain (prv (work_queue k)) NIL io;
  wq_free_head : head (fresh ++ used) = Some (free_seq k);
  wq_free_last : last (fresh ++ used) = Some (free_seq_end k);
  wq_free_next : nchain (nxt (work_queue k)) (fresh ++ used) NIL;
  wq_used : Forall (λ i, w_is_completed (item (work_queue k) i) = true) used;
  wq_copied : ∀ i, i ∈ io ++ used → w_is_completed (item (work_queue k) i) = true →
    w_is_copied (item (work_queue k) i) = true;
  wq_sorted : StronglySorted (before (work_queue k) top) io;
  wq_latest : latest_nsecs k ≤ top;
}.

(** Reads fields of updated workers. *)
Ltac wsimpl :=
  cbn [set_queue set_free_seq set_free_seq_end set_io_seq set_io_seq_end set_latest_nsecs
       work_queue free_seq free_seq_end io_seq io_seq_end latest_nsecs worker_id] in *.

Lemma NIL_val : NIL = 2 ^ 32 - 1.
Proof. reflexivity. Qed.
#[global] Opaque NIL.

Section wq_lemmas.
Context `{IC : !IoConfig}.
Hypothesis nr_range : 2 ≤ NR_MAX_PARALLEL_IO < 2 ^ 31.
Implicit Types (k : nvmev_io_worker) (out io fresh used : list Z).

Lemma wq_nodup top out io fresh used k : wq_inv top out io fresh used k → NoDup (out ++ io ++ fresh ++ used).
Proof. intros I. rewrite (wq_all _ _ _ _ _ _ I). apply NoDup_seqZ. Qed.

Lemma wq_in_range top out io fresh used k i :
  wq_inv top out io fresh used k → i ∈ out ++ io ++ fresh ++ used → 0 ≤ i < NR_MAX_PARALLEL_IO.
Proof. intros I Hi. rewrite (wq_all _ _ _ _ _ _ I), elem_of_seqZ in Hi. lia. Qed.

Lemma wq_not_nil top out io fresh used k i :
  wq_inv top out io fresh used k → i ∈ out ++ io ++ fresh ++ used → i ≠ NIL.
Proof. intros I Hi%(wq_in_range _ _ _ _ _ _ _ I). rewrite NIL_val. lia. Qed.

(** Every index of the array is in one of the lists. *)
Lemma wq_cover top out io fresh used k i :
  wq_inv top out io fresh used k → 0 ≤ i < NR_MAX_PARALLEL_IO → i ∈ out ++ io ++ fresh ++ used.
Proof. intros I Hi. rewrite (wq_all _ _ _ _ _ _ I), elem_of_seqZ. lia. Qed.

Lemma wq_lookup top out io fresh used k i :
  wq_inv top out io fresh used k → i ∈ out ++ io ++ fresh ++ used →
  ∃ w, aget (work_queue k) i = Some w ∧ payload w = item (work_queue k) i.
Proof.
  intros I Hi%(wq_in_range _ _ _ _ _ _ _ I).
  destruct (aget_some (work_queue k) i) as [w Hw]; [by rewrite (wq_len _ _ _ _ _ _ I)|].
  exists w. unfold item. by rewrite Hw.
Qed.

(** Rules for the two accesses. *)
Lemma wp_wq_get i k w Q :
  aget (work_queue k) i = Some w → Q w k → wp (wq_get i) k Q.
Proof. intros Hw HQ. unfold wq_get. wp_steps. by apply (wp_aread _ _ w). Qed.

Lemma wp_wq_upd i f k w Q :
  aget (work_queue k) i = Some w →
  Q tt (set_queue (aset (work_queue k) i (f w)) k) → wp (wq_upd i f) k Q.
Proof.
  intros Hw HQ. unfold wq_upd. wp_steps. apply (wp_aread _ _ w); [done|].
  wp_steps. apply wp_awrite; [by eapply aget_inv|]. by wp_steps.
Qed.
End wq_lemmas.

(** The links and the payload after an update. *)
Section updates.
Implicit Types (q : arr nvmev_io_work) (w : nvmev_io_work).

Lemma nxt_aset q i w j :
  0 ≤ i < alen q → nxt (aset q i w) j = if decide (i = j) then Some (w_next w) else nxt q j.
Proof. intros Hi. unfold nxt. rewrite aget_aset by done. by case_decide. Qed.
Lemma prv_aset q i w j :
  0 ≤ i < alen q → prv (aset q i w) j = if decide (i = j) then Some (w_prev w) else prv q j.
Proof. intros Hi. unfold prv. rewrite aget_aset by done. by case_decide. Qed.
Lemma item_aset q i w j :
  0 ≤ i < alen q → item (aset q i w) j = if decide (i = j) then payload w else item q j.
Proof. intros Hi. unfold item. rewrite aget_aset by done. by case_decide. Qed.
Lemma item_get q i w : aget q i = Some w → item q i = payload w.
Proof. unfold item. by intros ->. Qed.
Lemma payload_links a b w : payload (set_links a b w) = payload w.
Proof. done. Qed.
Lemma payload_next a w : payload (set_next a w) = payload w.
Proof. done. Qed.
Lemma payload_prev a w : payload (set_prev a w) = payload w.
Proof. done. Qed.

(** Changing one link keeps the other link and the payloads. *)
Lemma wp_set_next i x k Q :
  0 ≤ i < alen (work_queue k) →
  (∀ q, alen q = alen (work_queue k) →
    (∀ j, nxt q j = if decide (i = j) then Some x else nxt (work_queue k) j) →
    (∀ j, prv q j = prv (work_queue k) j) → (∀ j, item q j = item (work_queue k) j) →
    Q tt (set_queue q k)) →
  wp (wq_upd i (set_next x)) k Q.
Proof.
  intros Hi HQ. destruct (aget_some _ _ Hi) as [w Hw].
  apply (wp_wq_upd _ _ _ w); [done|]. apply HQ.
  - apply alen_aset.
  - intros j. by rewrite nxt_aset.
  - intros j. rewrite prv_aset by done. case_decide; [|done]. subst. unfold prv. by rewrite Hw.
  - intros j. rewrite item_aset by done. case_decide; [|done]. subst. by rewrite (item_get _ _ _ Hw).
Qed.

Lemma wp_set_prev i x k Q :
  0 ≤ i < alen (work_queue k) →
  (∀ q, alen q = alen (work_queue k) →
    (∀ j, nxt q j = nxt (work_queue k) j) →
    (∀ j, prv q j = if decide (i = j) then Some x else prv (work_queue k) j) →
    (∀ j, item q j = item (work_queue k) j) →
    Q tt (set_queue q k)) →
  wp (wq_upd i (set_prev x)) k Q.
Proof.
  intros Hi HQ. destruct (aget_some _ _ Hi) as [w Hw].
  apply (wp_wq_upd _ _ _ w); [done|]. apply HQ.
  - apply alen_aset.
  - intros j. rewrite nxt_aset by done. case_decide; [|done]. subst. unfold nxt. by rewrite Hw.
  - intros j. by rewrite prv_aset.
  - intros j. rewrite item_aset by done. case_decide; [|done]. subst. by rewrite (item_get _ _ _ Hw).
Qed.
End updates.

(** ** The operations *)

Section wq_operations.
Context `{IC : !IoConfig}.
Hypothesis nr_range : 2 ≤ NR_MAX_PARALLEL_IO < 2 ^ 31.
Implicit Types (k : nvmev_io_worker) (out io fresh used : list Z).

Lemma wq_length top out io fresh used k :
  wq_inv top out io fresh used k →
  Z.of_nat (length out + length io + length fresh + length used) = NR_MAX_PARALLEL_IO.
Proof.
  intros I. pose proof (Permutation_length (wq_all _ _ _ _ _ _ I)) as Hl.
  rewrite !length_app, length_seqZ in Hl. lia.
Qed.

Lemma wp_find_insert_position top out io fresh used k t :
  wq_inv top out io fresh used k → io ≠ [] →
  wp (find_insert_position t (io_seq_end k)) k (λ c k', k' = k ∧ ∃ io1 io2,
    io = io1 ++ io2 ∧ c = default NIL (last io1) ∧
    Forall (λ j, latest_nsecs k < due (work_queue k) j ∧ t < due (work_queue k) j) io2 ∧
    ∀ x, last io1 = Some x → due (work_queue k) x ≤ Z.max (latest_nsecs k) t).
Proof.
  intros I Hne. pose proof (wq_length _ _ _ _ _ _ I) as Hlen.
  unfold find_insert_position.
  apply (wp_while_ghost (λ io1 c k', k' = k ∧ c = default NIL (last io1) ∧ ∃ io2, io = io1 ++ io2 ∧
    Forall (λ j, latest_nsecs k < due (work_queue k) j ∧ t < due (work_queue k) j) io2)
    (λ io1, Z.of_nat (length io1)) _ _ io).
  - rewrite (wq_io_last _ _ _ _ _ _ I Hne). split_and!; [done|done|].
    exists []. by rewrite app_nil_r.
  - lia.
  - intros io1 c k' (-> & -> & io2 & -> & Hio2). split; [lia|].
    destruct io1 as [|c l _] using rev_ind.
    { wp_steps. split; [done|]. exists [], io2. naive_solver. }
    rewrite last_snoc. simpl.
    assert (c ∈ out ++ ((l ++ [c]) ++ io2) ++ fresh ++ used) as Hc by set_solver.
    pose proof (wq_not_nil nr_range _ _ _ _ _ _ _ I Hc) as Hcn.
    rewrite (proj2 (Z.eqb_neq _ _) Hcn).
    destruct (wq_lookup _ _ _ _ _ _ _ I Hc) as (w & Hw & Hp).
    wp_steps. apply (wp_wq_get _ _ w); [done|]. wp_steps.
    replace (w_nsecs_target w) with (due (work_queue k) c) by (unfold due; by rewrite <- Hp).
    destruct (due (work_queue k) c <=? latest_nsecs k) eqn:E1; bool_prop; wp_steps.
    { split; [done|]. exists (l ++ [c]), io2. rewrite last_snoc. split_and!; try done.
      intros x [= <-]. lia. }
    destruct (due (work_queue k) c <=? t) eqn:E2; bool_prop; wp_steps.
    { split; [done|]. exists (l ++ [c]), io2. rewrite last_snoc. split_and!; try done.
      intros x [= <-]. lia. }
    exists l. split_and!; [done| | |].
    + pose proof (wq_io_prev _ _ _ _ _ _ I) as Hprev.
      apply pchain_app in Hprev as [Hprev _]. apply pchain_app in Hprev as [_ [Hprev _]].
      unfold prv in Hprev. rewrite Hw in Hprev. simpl in Hprev. congruence.
    + exists (c :: io2). split; [by rewrite <- app_assoc|]. by constructor.
    + rewrite length_app. simpl. lia.
Qed.

(** The links after [e] was linked in between [io1] and [io2]. *)
Record linked_in (e : Z) (io1 io2 : list Z) (k k' : nvmev_io_worker) : Prop := {
  li_len : alen (work_queue k') = alen (work_queue k);
  li_next i : nxt (work_queue k') i =
    if decide (i = e) then Some (default NIL (head io2))
    else if decide (last io1 = Some i) then Some e else nxt (work_queue k) i;
  li_prev i : prv (work_queue k') i =
    if decide (i = e) then Some (default NIL (last io1))
    else if decide (head io2 = Some i) then Some e else prv (work_queue k) i;
  li_item i : item (work_queue k') i = item (work_queue k) i;
  li_head : io_seq k' = default e (head io1);
  li_last : io_seq_end k' = match io2 with [] => e | _ => io_seq_end k end;
  li_free : free_seq k' = free_seq k;
  li_free_end : free_seq_end k' = free_seq_end k;
  li_latest : latest_nsecs k' = latest_nsecs k;
  li_id : worker_id k' = worker_id k;
}.

Lemma before_ext q q' top i j : (∀ i, item q' i = item q i) → before q' top i j ↔ before q top i j.
Proof. intros H. unfold before, due. by rewrite !H. Qed.

Lemma StronglySorted_insert (R : Z → Z → Prop) l1 e l2 :
  StronglySorted R (l1 ++ l2) → Forall (λ i, R i e) l1 → Forall (R e) l2 →
  StronglySorted R (l1 ++ e :: l2).
Proof.
  induction l1 as [|x l1 IH]; simpl; intros Hs H1 H2; [by constructor|].
  apply StronglySorted_inv in Hs as [Hs Hx]. apply Forall_cons in H1 as [Hxe H1].
  apply Forall_app in Hx as [Hx1 Hx2].
  constructor; [by apply IH|]. apply Forall_app. split; [done|]. by constructor.
Qed.

Lemma StronglySorted_mono (R R' : Z → Z → Prop) l :
  (∀ i j, i ∈ l → j ∈ l → R i j → R' i j) → StronglySorted R l → StronglySorted R' l.
Proof.
  induction l as [|x l IH]; intros H Hs; [constructor|].
  apply StronglySorted_inv in Hs as [Hs Hx]. constructor.
  - apply IH; [|done]. intros i j Hi Hj. apply H; set_solver.
  - apply Forall_forall. intros j Hj. apply H; [set_solver|set_solver|].
    by apply (proj1 (Forall_forall _ _) Hx).
Qed.

Lemma head_Some_In {A} (x : A) l : head l = Some x → x ∈ l.
Proof. destruct l; [done|]. intros [= ->]. set_solver. Qed.
Lemma last_Some_In {A} (x : A) l : last l = Some x → x ∈ l.
Proof. intros [l' ->]%last_Some. set_solver. Qed.

(** The order is kept when the insertion point is the one the search returns. *)
Lemma sorted_insert q top io1 e io2 latest :
  StronglySorted (before q top) (io1 ++ io2) → latest ≤ top →
  Forall (λ j, latest < due q j ∧ due q e < due q j) io2 →
  (∀ x, last io1 = Some x → due q x ≤ Z.max latest (due q e)) →
  StronglySorted (before q top) (io1 ++ e :: io2).
Proof.
  intros Hs Hl H2 H1. apply StronglySorted_insert; [done| |].
  - destruct io1 as [|c l _] using rev_ind; [constructor|].
    rewrite last_snoc in H1. specialize (H1 c eq_refl). unfold before.
    apply Forall_app. split; [|constructor; [lia|constructor]].
    apply Forall_forall. intros i Hi.
    assert (before q top i c) as Hic; [|unfold before in Hic; lia].
    clear -Hs Hi. induction l as [|y l IH]; [set_solver|]. simpl in Hs.
    apply StronglySorted_inv in Hs as [Hs Hy]. apply elem_of_cons in Hi as [->|Hi]; [|by apply IH].
    apply (proj1 (Forall_forall _ _) Hy). set_solver.
  - eapply Forall_impl; [exact H2|]. unfold before. simpl. intros j [? ?]. lia.
Qed.

Lemma wq_inserted top out io1 io2 fresh used e k k' :
  wq_inv top (e :: out) (io1 ++ io2) fresh used k →
  (w_is_completed (item (work_queue k) e) = true → w_is_copied (item (work_queue k) e) = true) →
  Forall (λ j, latest_nsecs k < due (work_queue k) j ∧
               due (work_queue k) e < due (work_queue k) j) io2 →
  (∀ x, last io1 = Some x → due (work_queue k) x ≤ Z.max (latest_nsecs k) (due (work_queue k) e)) →
  linked_in e io1 io2 k k' →
  wq_inv top out (io1 ++ e :: io2) fresh used k'.
Proof.
  intros I He H2 H1 L. pose proof (wq_nodup _ _ _ _ _ _ I) as Hnd.
  assert (∀ i, i ∈ fresh ++ used → i ≠ e ∧ i ∉ io1 ++ io2) as Hfr.
  { intros i Hi. apply (NoDup_cons e (out ++ _)) in Hnd as [Hne Hnd].
    apply NoDup_app in Hnd as (_ & _ & Hnd). apply NoDup_app in Hnd as (_ & Hnd & _).
    split; [intros ->; apply Hne; set_solver|]. intros Hi'. by apply (Hnd i). }
  assert (NoDup (io1 ++ e :: io2)) as Hnd'.
  { apply (NoDup_cons e (out ++ _)) in Hnd as [Hne Hnd].
    apply NoDup_app in Hnd as (_ & _ & Hnd). apply NoDup_app in Hnd as (Hnd & _ & _).
    rewrite <- Permutation_middle. constructor; [set_solver|done]. }
  destruct I as [I1 I2 I3 I4 I5 I6 I7 I8 I9 I10 I11 I12 I13]. destruct L as [L1 L2 L3 L4 L5 L6 L7 L8 L9 L10].
  split.
  - congruence.
  - rewrite <- I2. rewrite <- !Permutation_middle. solve_Permutation.
  - rewrite L5. by destruct io1.
  - intros _. rewrite last_app_cons, last_cons, L6. destruct io2 as [|y l]; [done|].
    rewrite last_app_cons in I4. rewrite I4; [done|]. by destruct io1.
  - eapply nchain_insert; [exact I5|done| | |].
    + by rewrite L2, decide_True.
    + intros c Hc. rewrite L2. case_decide as Hce; [|by rewrite decide_True].
      subst c. exfalso. apply last_Some_In in Hc. apply NoDup_app in Hnd' as (_ & Hd & _).
      apply (Hd e); set_solver.
    + intros i Hi Hl. rewrite L2. by rewrite !decide_False.
  - eapply pchain_insert; [exact I6|done| | |].
    + by rewrite L3, decide_True.
    + intros c Hc. rewrite L3. case_decide as Hce; [|by rewrite decide_True].
      subst c. exfalso. apply head_Some_In in Hc.
      apply NoDup_app in Hnd' as (_ & _ & [Hd _]%NoDup_cons). done.
    + intros i Hi Hl. rewrite L3. by rewrite !decide_False.
  - by rewrite L7.
  - by rewrite L8.
  - eapply nchain_ext; [|exact I9]. intros i Hi. destruct (Hfr i Hi) as [Hie Hio].
    rewrite L2, !decide_False; [done| |done]. intros Hl%last_Some_In. set_solver.
  - eapply Forall_impl; [exact I10|]. intros i Hi. by rewrite L4.
  - intros i Hi. rewrite L4. destruct (decide (i = e)) as [->|]; [done|]. apply I11. set_solver.
  - eapply StronglySorted_mono; [intros i j _ _; apply before_ext, L4|].
    by eapply sorted_insert.
  - by rewrite L9.
Qed.

Lemma wp_insert_req_sorted top out io fresh used k e t :
  wq_inv top (e :: out) io fresh used k →
  nxt (work_queue k) e = Some NIL → prv (work_queue k) e = Some NIL → due (work_queue k) e = t →
  wp (insert_req_sorted e t) k (λ _ k', ∃ io1 io2, io = io1 ++ io2 ∧ linked_in e io1 io2 k k' ∧
    Forall (λ j, latest_nsecs k < due (work_queue k) j ∧ t < due (work_queue k) j) io2 ∧
    ∀ x, last io1 = Some x → due (work_queue k) x ≤ Z.max (latest_nsecs k) t).
Proof.
  intros I Hn Hp Ht. unfold insert_req_sorted. wp_steps.
  rewrite (wq_io_head _ _ _ _ _ _ I). destruct io as [|h io].
  { simpl. rewrite Z.eqb_refl. wp_steps. exists [], []. split_and!; try done.
    split; try done; intros i; simpl; (case_decide; [by subst|by rewrite ?decide_False]). }
  assert (∀ i, i ∈ h :: io → 0 ≤ i < alen (work_queue k)) as Hin.
  { intros i Hi. rewrite (wq_len _ _ _ _ _ _ I). eapply wq_in_range; [exact I|]. set_solver. }
  assert (0 ≤ e < alen (work_queue k)) as Hein.
  { rewrite (wq_len _ _ _ _ _ _ I). eapply wq_in_range; [exact I|]. set_solver. }
  assert (∀ i, i ∈ h :: io → i ≠ NIL ∧ i ≠ e) as Hnil.
  { intros i Hi. split; [eapply wq_not_nil; [done|exact I|set_solver]|].
    pose proof (wq_nodup _ _ _ _ _ _ I) as Hnd. apply (NoDup_cons e (out ++ _)) in Hnd as [Hne _].
    intros ->. set_solver. }
  simpl. rewrite (proj2 (Z.eqb_neq _ _) (proj1 (Hnil h ltac:(set_solver)))).
  wp_steps. eapply wp_mono; [by apply (wp_find_insert_position _ _ _ _ _ _ t I)|].
  intros c k' (-> & io1 & io2 & Hio & -> & H2 & H1). rewrite Hio in Hin, Hnil.
  destruct io1 as [|c l _] using rev_ind; simpl.
  - (* head *)
    rewrite Z.eqb_refl. simpl in Hio. subst io2. wp_steps.
    apply wp_set_prev; [apply Hin; set_solver|]. intros q1 Q1 Q2 Q3 Q4. wp_steps.
    apply wp_set_next; [simpl; by rewrite Q1|]. intros q2 R1 R2 R3 R4. wp_steps.
    simpl in *. exists [], (h :: io). split_and!; try done. split; simpl; try done.
    + congruence.
    + intros i. rewrite R2, Q2. repeat case_decide; congruence.
    + intros i. rewrite R3, Q3. destruct (Hnil h ltac:(set_solver)).
      repeat case_decide; congruence.
    + intros i. by rewrite R4, Q4.
  - rewrite last_snoc. simpl.
    destruct (Hnil c ltac:(set_solver)) as [Hc Hce]. rewrite (proj2 (Z.eqb_neq _ _) Hc).
    destruct (aget_some (work_queue k) c) as [w Hw]; [apply Hin; set_solver|].
    wp_steps. apply (wp_wq_get _ _ w); [done|]. wp_steps.
    assert (w_next w = default NIL (head io2)) as Hnw.
    { pose proof (wq_io_next _ _ _ _ _ _ I) as Hc'. rewrite Hio in Hc'.
      rewrite <- app_assoc in Hc'. apply nchain_app in Hc' as [_ [Hc' _]].
      unfold nxt in Hc'. rewrite Hw in Hc'. simpl in Hc'. congruence. }
    rewrite Hnw. destruct io2 as [|y io2]; simpl.
    + (* tail *)
      rewrite Z.eqb_refl. wp_steps.
      apply wp_set_prev; [done|]. intros q1 Q1 Q2 Q3 Q4. wp_steps.
      apply wp_set_next; [simpl; rewrite Q1; apply Hin; set_solver|]. intros q2 R1 R2 R3 R4.
      simpl in *. exists (l ++ [c]), []. split_and!; [done| |done|done].
      split; simpl; rewrite ?last_snoc; try done.
      * congruence.
      * intros i. rewrite R2, Q2. repeat case_decide; simpl; congruence.
      * intros i. rewrite R3, Q3. repeat case_decide; simpl; congruence.
      * intros i. by rewrite R4, Q4.
      * rewrite (wq_io_head _ _ _ _ _ _ I), Hio, app_nil_r. by destruct l.
    + (* in between *)
      destruct (Hnil y ltac:(set_solver)) as [Hy Hye]. rewrite (proj2 (Z.eqb_neq _ _) Hy).
      wp_steps. apply wp_set_prev; [done|]. intros q1 Q1 Q2 Q3 Q4. wp_steps.
      apply wp_set_next; [simpl; by rewrite Q1|]. intros q2 R1 R2 R3 R4. wp_steps.
      simpl in *. apply wp_set_prev; [simpl; rewrite R1, Q1; apply Hin; set_solver|].
      intros q3 S1 S2 S3 S4. wp_steps. simpl in *.
      apply wp_set_next; [simpl; rewrite S1, R1, Q1; apply Hin; set_solver|].
      intros q4 T1 T2 T3 T4. simpl in *.
      exists (l ++ [c]), (y :: io2). split_and!; [done| |done|done].
      split; simpl; rewrite ?last_snoc; try done.
      * congruence.
      * intros i. rewrite T2, S2, R2, Q2. repeat case_decide; simpl; congruence.
      * intros i. rewrite T3, S3, R3, Q3. repeat case_decide; simpl; congruence.
      * intros i. by rewrite T4, S4, R4, Q4.
      * rewrite (wq_io_head _ _ _ _ _ _ I), Hio. by destruct l.
Qed.

(** A change of one item that keeps what the lists depend on. *)
Lemma wq_change top out io fresh used k i w w' :
  wq_inv top out io fresh used k → aget (work_queue k) i = Some w →
  (i ∉ out → w_next w' = w_next w ∧ w_prev w' = w_prev w ∧ w_nsecs_target w' = w_nsecs_target w) →
  (i ∈ io ++ used → w_is_completed w' = true → w_is_copied w' = true) →
  (i ∈ used → w_is_completed w' = true) →
  wq_inv top out io fresh used (set_queue (aset (work_queue k) i w') k).
Proof.
  intros I Hw Hout Hcp Hcm. pose proof (aget_inv _ _ _ Hw) as Hi.
  assert (∀ j, j ∈ io ++ fresh ++ used → j = i → i ∉ out) as Hnot.
  { intros j Hj -> Ho. pose proof (wq_nodup _ _ _ _ _ _ I) as Hnd.
    apply NoDup_app in Hnd as (_ & Hd & _). by apply (Hd i). }
  assert (∀ j, j ∈ io ++ fresh ++ used → nxt (aset (work_queue k) i w') j = nxt (work_queue k) j ∧
    prv (aset (work_queue k) i w') j = prv (work_queue k) j ∧
    due (aset (work_queue k) i w') j = due (work_queue k) j) as Hsame.
  { intros j Hj. unfold due. rewrite nxt_aset, prv_aset, item_aset by done. case_decide as E; [|done].
    symmetry in E. destruct (Hout (Hnot j Hj E)) as (H1 & H2 & H3). subst j.
    unfold nxt, prv. rewrite (item_get _ _ _ Hw), Hw. simpl. by rewrite H1, H2, H3. }
  destruct I as [I1 I2 I3 I4 I5 I6 I7 I8 I9 I10 I11 I12 I13].
  split; wsimpl; try done.
  - by rewrite alen_aset.
  - eapply nchain_ext; [|exact I5]. intros j Hj. symmetry. apply Hsame. set_solver.
  - eapply pchain_ext; [|exact I6]. intros j Hj. symmetry. apply Hsame. set_solver.
  - eapply nchain_ext; [|exact I9]. intros j Hj. symmetry. apply Hsame. set_solver.
  - apply Forall_forall. intros j Hj. rewrite item_aset by done.
    case_decide; [subst; by apply Hcm|]. by apply (proj1 (Forall_forall _ _) I10).
  - intros j Hj. rewrite item_aset by done. case_decide; [subst; by apply Hcp|]. by apply I11.
  - eapply StronglySorted_mono; [|exact I12]. intros a b Ha Hb. unfold before.
    destruct (Hsame a ltac:(set_solver)) as (_ & _ & ->).
    by destruct (Hsame b ltac:(set_solver)) as (_ & _ & ->).
Qed.

Lemma wq_set_latest top out io fresh used k t :
  wq_inv top out io fresh used k →
  wq_inv (Z.max top t) out io fresh used (set_latest_nsecs t k).
Proof.
  intros [I1 I2 I3 I4 I5 I6 I7 I8 I9 I10 I11 I12 I13]. split; wsimpl; try done; [|lia].
  eapply StronglySorted_mono; [|exact I12]. unfold before. intros i j _ _. lia.
Qed.

(** Taking a free item fails exactly when one free item is left. *)
Lemma wp_take_free top out io fresh used k :
  wq_inv top out io fresh used k →
  wp take_free k (λ o k', match o with
    | None => k' = k ∧ length (fresh ++ used) = 1%nat
    | Some e => ∃ fresh' used', fresh ++ used = e :: fresh' ++ used' ∧
        wq_inv top (e :: out) io fresh' used' k' ∧ k' = set_free_seq (free_seq k') k ∧
        (used = e :: used' ∨ used' = used)
    end).
Proof.
  intros I. unfold take_free. wp_steps.
  pose proof (wq_free_head _ _ _ _ _ _ I) as Hh. pose proof (wq_free_next _ _ _ _ _ _ I) as Hn.
  pose proof (wq_free_last _ _ _ _ _ _ I) as Hl.
  destruct (fresh ++ used) as [|e rest] eqn:Hfu; [done|]. injection Hh as Hh.
  assert (e ∈ out ++ io ++ fresh ++ used) as He by (rewrite Hfu; set_solver).
  destruct (wq_lookup _ _ _ _ _ _ _ I He) as (w & Hw & _). rewrite <- Hh.
  apply (wp_wq_get _ _ w); [done|]. wp_steps.
  destruct Hn as [Hne Hn]. unfold nxt in Hne. rewrite Hw in Hne. injection Hne as Hne.
  rewrite Hne. destruct rest as [|f rest]; simpl.
  { rewrite (proj2 (Z.leb_le _ _)) by (rewrite NIL_val; lia). wp_steps. done. }
  assert (f ∈ out ++ io ++ fresh ++ used) as Hf by (rewrite Hfu; set_solver).
  pose proof (wq_in_range _ _ _ _ _ _ _ I Hf) as Hfr.
  rewrite (proj2 (Z.leb_gt _ _)) by lia. wp_steps; [done|]. wp_steps.
  assert (∃ fresh' used', fresh' ++ used' = f :: rest ∧ (used = e :: used' ∨ used' = used))
    as (fresh' & used' & Hfu' & Hor).
  { destruct fresh as [|x fresh]; simpl in Hfu.
    - exists [], (f :: rest). split; [done|by left].
    - injection Hfu as -> Hfu. exists fresh, used. split; [done|by right]. }
  exists fresh', used'. rewrite Hfu'. split_and!; [done| |done|done].
  destruct I as [I1 I2 I3 I4 I5 I6 I7 I8 I9 I10 I11 I12 I13].
  split; wsimpl; rewrite ?Hfu'; try done.
  - rewrite <- I2, Hfu. solve_Permutation.
  - destruct Hor as [->| ->]; [by apply Forall_cons in I10 as [_ ?]|done].
  - intros i Hi. apply I11. destruct Hor as [->| ->]; [|done].
    rewrite elem_of_app in *. destruct Hi as [?|?]; [by left|right]. set_solver.
Qed.

(** An item the dispatcher may take back. *)
Definition finished (k : nvmev_io_worker) (i : Z) : bool :=
  w_is_completed (item (work_queue k) i) && w_is_copied (item (work_queue k) i) &&
  (due (work_queue k) i <=? latest_nsecs k).

Lemma wp_find_finished top out io fresh used k :
  wq_inv top out io fresh used k →
  wp (find_finished (io_seq k)) k (λ c k', k' = k ∧ ∃ l1 l2,
    io = l1 ++ l2 ∧ c = default NIL (last l1) ∧ Forall (λ i, finished k i = true) l1 ∧
    ∀ x, head l2 = Some x → finished k x = false).
Proof.
  intros I. pose proof (wq_length _ _ _ _ _ _ I) as Hlen. unfold find_finished.
  apply (wp_while_ghost (λ l2 '(c, last_entry) k', k' = k ∧ c = default NIL (head l2) ∧
    ∃ l1, io = l1 ++ l2 ∧ last_entry = default NIL (last l1) ∧ Forall (λ i, finished k i = true) l1)
    (λ l2, Z.of_nat (length l2)) _ _ io).
  - split_and!; [done|apply (wq_io_head _ _ _ _ _ _ I)|]. by exists [].
  - lia.
  - intros l2 [c last_entry] k' (-> & -> & l1 & -> & -> & Hl1). split; [lia|].
    destruct l2 as [|c l2]; simpl.
    { rewrite Z.eqb_refl. wp_steps. split; [done|]. by exists l1, []. }
    assert (c ∈ out ++ (l1 ++ c :: l2) ++ fresh ++ used) as Hc by set_solver.
    rewrite (proj2 (Z.eqb_neq _ _) (wq_not_nil nr_range _ _ _ _ _ _ _ I Hc)).
    destruct (wq_lookup _ _ _ _ _ _ _ I Hc) as (w & Hw & Hp).
    wp_steps. apply (wp_wq_get _ _ w); [done|]. wp_steps.
    replace (w_is_completed w && w_is_copied w && (w_nsecs_target w <=? latest_nsecs k))
      with (finished k c) by (unfold finished, due; by rewrite <- Hp).
    destruct (finished k c) eqn:E; wp_steps.
    + exists l2. split; [|lia]. split_and!; [done| |].
      * pose proof (wq_io_next _ _ _ _ _ _ I) as Hn. apply nchain_app in Hn as [_ [Hn _]].
        unfold nxt in Hn. rewrite Hw in Hn. simpl in Hn. congruence.
      * exists (l1 ++ [c]). rewrite last_snoc, <- app_assoc. split_and!; [done|done|].
        apply Forall_app. split; [done|]. by constructor.
    + split; [done|]. exists l1, (c :: l2). split_and!; try done. by intros x [= <-].
Qed.

(** The links after [first .. last] were moved from the list to the free list. *)
Record moved_to_free (first last : Z) (rest : list Z) (k k' : nvmev_io_worker) : Prop := {
  mv_len : alen (work_queue k') = alen (work_queue k);
  mv_next i : nxt (work_queue k') i =
    if decide (i = free_seq_end k) then Some first
    else if decide (i = last) then Some NIL else nxt (work_queue k) i;
  mv_prev i : i ≠ first → prv (work_queue k') i =
    if decide (head rest = Some i) then Some NIL else prv (work_queue k) i;
  mv_item i : item (work_queue k') i = item (work_queue k) i;
  mv_head : io_seq k' = default NIL (head rest);
  mv_last : io_seq_end k' = io_seq_end k;
  mv_free : free_seq k' = free_seq k;
  mv_free_end : free_seq_end k' = last;
  mv_latest : latest_nsecs k' = latest_nsecs k;
  mv_id : worker_id k' = worker_id k;
}.

Lemma wq_moved top out l1 last rest fresh used first k k' :
  wq_inv top out ((l1 ++ [last]) ++ rest) fresh used k → head (l1 ++ [last]) = Some first →
  Forall (λ i, finished k i = true) (l1 ++ [last]) →
  moved_to_free first last rest k k' →
  wq_inv top out rest fresh (used ++ l1 ++ [last]) k'.
Proof.
  intros I Hfirst Hfin [L1 L2 L3 L4 L5 L6 L7 L8 L9 L10].
  pose proof (wq_nodup _ _ _ _ _ _ I) as Hnd. apply NoDup_app in Hnd as (_ & _ & Hnd).
  apply NoDup_app in Hnd as (Hnd1 & Hdis & Hnd2). apply NoDup_app in Hnd1 as (Hnd3 & Hdis1 & Hnd4).
  destruct I as [I1 I2 I3 I4 I5 I6 I7 I8 I9 I10 I11 I12 I13].
  apply nchain_app in I5 as [I5 I5']. apply pchain_app in I6 as [I6 I6'].
  pose proof (last_Some_In _ _ I8) as Hfe.
  assert (first ∈ l1 ++ [last]) as Hfi by by apply head_Some_In.
  destruct (proj1 (last_Some _ _) I8) as [fu Hfu].
  assert (∀ i, i ∈ l1 ++ [last] → i ≠ free_seq_end k) as Hne.
  { intros i Hi ->. apply (Hdis (free_seq_end k)); [set_solver|done]. }
  split.
  - congruence.
  - rewrite <- I2. solve_Permutation.
  - done.
  - intros Hr. rewrite L6. rewrite <- I4 by (destruct l1; done).
    destruct rest as [|x rest] using rev_ind; [done|]. by rewrite app_assoc, !last_snoc.
  - eapply nchain_ext; [|exact I5']. intros i Hi. rewrite L2, !decide_False; [done| |].
    + intros ->. apply (Hdis1 last); set_solver.
    + intros ->. apply (Hdis (free_seq_end k)); set_solver.
  - destruct rest as [|x rest]; [done|]. simpl in *. destruct I6' as [_ I6'].
    assert (∀ i, i ∈ x :: rest → i ≠ first) as Hnf.
    { intros i Hi ->. apply (Hdis1 first); [done|set_solver]. }
    split; [rewrite L3, decide_True; [done|done|apply Hnf; set_solver]|].
    eapply pchain_ext; [|exact I6']. intros i Hi. rewrite L3, decide_False; [done| |].
    + apply NoDup_cons in Hnd4 as [Hx _]. by intros [= ->].
    + apply Hnf. set_solver.
  - rewrite L7, app_assoc, <- I7, head_app. destruct (fresh ++ used); [done|]. done.
  - rewrite L8, app_assoc, app_assoc, last_snoc. done.
  - rewrite app_assoc, Hfu. eapply (nchain_join (λ i, if decide (i = last) then Some NIL else nxt (work_queue k) i)).
    + eapply nchain_ext; [|rewrite <- Hfu; exact I9]. intros i Hi. rewrite decide_False; [done|].
      intros ->. apply (Hdis last); [clear; set_solver|by rewrite Hfu].
    + eapply nchain_redirect; [exact I5| |by rewrite decide_True|].
      * apply NoDup_app in Hnd3 as (_ & Hd & _). intros Hin. apply (Hd last Hin). set_solver.
      * intros i Hi. rewrite decide_False; [done|]. intros ->.
        apply NoDup_app in Hnd3 as (_ & Hd & _). apply (Hd last Hi). set_solver.
    + rewrite <- Hfu. apply NoDup_app. split_and!; [done| |done].
      intros i Hi Hi'. apply (Hdis i); [clear -Hi'; set_solver|done].
    + by destruct l1.
    + by rewrite L2, decide_True, Hfirst.
    + intros i Hi. by rewrite L2, (decide_False (P := i = free_seq_end k)).
  - apply Forall_app. split; (eapply Forall_impl; [done|]); intros i; cbv beta; rewrite L4; [done|].
    intros Hf. apply andb_true_iff in Hf as [Hf _]. by apply andb_true_iff in Hf as [Hf _].
  - intros i Hi. rewrite L4. apply I11. set_solver.
  - eapply StronglySorted_mono; [intros i j _ _; apply before_ext, L4|].
    clear -I12. induction (l1 ++ [last]) as [|y l IH]; [done|]. simpl in I12.
    apply StronglySorted_inv in I12 as [Hs _]. by apply IH.
  - by rewrite L9.
Qed.

(** What changes of the lists leave alone: payloads, the worker's time and the
    links of the items in [out]. *)
Record wq_frame (out : list Z) (k k' : nvmev_io_worker) : Prop := {
  wf_item i : item (work_queue k') i = item (work_queue k) i;
  wf_latest : latest_nsecs k' = latest_nsecs k;
  wf_id : worker_id k' = worker_id k;
  wf_out i : i ∈ out → nxt (work_queue k') i = nxt (work_queue k) i ∧
    prv (work_queue k') i = prv (work_queue k) i;
}.

Lemma wq_frame_refl out k : wq_frame out k k.
Proof. done. Qed.

(** Inserting puts the item into the list at a place that keeps it sorted. *)
Lemma wp_insert_wq top out io fresh used k e t :
  wq_inv top (e :: out) io fresh used k →
  nxt (work_queue k) e = Some NIL → prv (work_queue k) e = Some NIL → due (work_queue k) e = t →
  (w_is_completed (item (work_queue k) e) = true → w_is_copied (item (work_queue k) e) = true) →
  wp (insert_req_sorted e t) k (λ _ k', ∃ io1 io2, io = io1 ++ io2 ∧
    wq_inv top out (io1 ++ e :: io2) fresh used k' ∧ wq_frame out k k').
Proof.
  intros I Hn Hp <- Hc. eapply wp_mono; [by apply (wp_insert_req_sorted _ _ _ _ _ _ _ _ I)|].
  intros [] k' (io1 & io2 & -> & L & H2 & H1). exists io1, io2. split_and!; [done|by eapply wq_inserted|].
  pose proof (wq_nodup _ _ _ _ _ _ I) as Hnd. apply (NoDup_cons e (out ++ _)) in Hnd as [Hne Hnd].
  apply NoDup_app in Hnd as (_ & Hd & _). split; try apply L. intros i Hi.
  assert (i ≠ e) as Hie by (intros ->; apply Hne; clear -Hi; set_solver).
  assert (i ∉ io1 ++ io2) as Hio by (specialize (Hd i Hi); clear -Hd; set_solver).
  rewrite (li_next _ _ _ _ _ L), (li_prev _ _ _ _ _ L), !decide_False; try done.
  - intros Hh%head_Some_In. clear -Hio Hh. set_solver.
  - intros Hl%last_Some_In. clear -Hio Hl. set_solver.
Qed.

Lemma wp_move_to_free top out l1 last rest fresh used first k :
  wq_inv top out ((l1 ++ [last]) ++ rest) fresh used k → head (l1 ++ [last]) = Some first →
  wp (w ← wq_get last;
      modify (set_io_seq (w_next w)) ;;
      when (negb (w_next w =? NIL)) (wq_upd (w_next w) (set_prev NIL)) ;;
      wq_upd last (set_next NIL) ;;
      fe ← gets free_seq_end;
      wq_upd first (set_prev fe) ;;
      wq_upd fe (set_next first) ;;
      modify (set_free_seq_end last)) k (λ _, moved_to_free first last rest k).
Proof.
  intros I Hfirst.
  assert (∀ i, i ∈ (l1 ++ [last]) ++ rest ∨ i ∈ fresh ++ used → 0 ≤ i < alen (work_queue k)) as Hin.
  { intros i Hi. rewrite (wq_len _ _ _ _ _ _ I). eapply wq_in_range; [exact I|].
    clear -Hi. set_solver. }
  assert (last ∈ (l1 ++ [last]) ++ rest) as Hla by (clear; set_solver).
  apply head_Some_In in Hfirst.
  destruct (aget_some (work_queue k) last) as [w Hw]; [auto|].
  assert (w_next w = default NIL (head rest)) as Hnw.
  { pose proof (wq_io_next _ _ _ _ _ _ I) as Hc. rewrite <- app_assoc in Hc.
    apply nchain_app in Hc as [_ [Hc _]]. unfold nxt in Hc. rewrite Hw in Hc. simpl in Hc. congruence. }
  wp_step. apply (wp_wq_get _ _ w); [done|]. wp_step. wp_step. wp_step. rewrite Hnw.
  apply (wp_mono _ _ (λ _ k1, ∃ q, k1 = set_queue q (set_io_seq (default NIL (head rest)) k) ∧
    alen q = alen (work_queue k) ∧ (∀ i, nxt q i = nxt (work_queue k) i) ∧
    (∀ i, prv q i = if decide (head rest = Some i) then Some NIL else prv (work_queue k) i) ∧
    (∀ i, item q i = item (work_queue k) i))).
  { destruct rest as [|x rest]; simpl.
    - rewrite Z.eqb_refl. wp_step; [done|]. exists (work_queue k). by destruct k.
    - assert (x ∈ out ++ ((l1 ++ [last]) ++ x :: rest) ++ fresh ++ used) as Hx by (clear; set_solver).
      rewrite (proj2 (Z.eqb_neq _ _) (wq_not_nil nr_range _ _ _ _ _ _ _ I Hx)).
      wp_step; [|done]. apply wp_set_prev; [wsimpl; apply Hin; clear; set_solver|].
      intros q Q1 Q2 Q3 Q4. wsimpl. exists q. split_and!; try done.
      intros i. rewrite Q3. repeat case_decide; congruence. }
  intros [] k1 (q & -> & Q1 & Q2 & Q3 & Q4). wp_step.
  apply wp_set_next; [wsimpl; rewrite Q1; auto|]. intros q2 R1 R2 R3 R4. wp_step. wp_step. wsimpl.
  wp_step. apply wp_set_prev; [wsimpl; rewrite R1, Q1; apply Hin; clear -Hfirst; set_solver|].
  intros q3 S1 S2 S3 S4. wsimpl. wp_step. apply wp_set_next.
  { wsimpl. rewrite S1, R1, Q1. apply Hin. right. apply last_Some_In, (wq_free_last _ _ _ _ _ _ I). }
  intros q4 T1 T2 T3 T4. wsimpl. wp_step. split; wsimpl; try done.
  - congruence.
  - intros i. rewrite T2, S2, R2, Q2. repeat case_decide; congruence.
  - intros i Hi. rewrite T3, S3, R3, Q3. rewrite (decide_False (P := first = i)) by congruence. done.
  - intros i. by rewrite T4, S4, R4, Q4.
Qed.

(** Reclaiming moves exactly the finished items at the head to the free list. *)
Lemma wp_reclaim_worker top out io fresh used k :
  wq_inv top out io fresh used k →
  wp reclaim_worker k (λ _ k', ∃ l1 l2, io = l1 ++ l2 ∧
    Forall (λ i, finished k i = true) l1 ∧ (∀ x, head l2 = Some x → finished k x = false) ∧
    wq_inv top out l2 fresh (used ++ l1) k' ∧ wq_frame out k k').
Proof.
  intros I. unfold reclaim_worker. wp_step. wp_step. wp_step.
  eapply wp_mono; [by apply (wp_find_finished _ _ _ _ _ _ I)|].
  intros c k' (-> & l1 & l2 & -> & -> & Hfin & Hhead).
  destruct l1 as [|c l1 _] using rev_ind.
  { simpl. rewrite Z.eqb_refl. wp_steps. exists [], l2. rewrite app_nil_r. done. }
  assert (c ∈ out ++ ((l1 ++ [c]) ++ l2) ++ fresh ++ used) as Hc by (clear; set_solver).
  rewrite last_snoc. cbn [default id from_option].
  rewrite (proj2 (Z.eqb_neq _ _) (wq_not_nil nr_range _ _ _ _ _ _ _ I Hc)).
  assert (head (l1 ++ [c]) = Some (io_seq k)) as Hh.
  { rewrite (wq_io_head _ _ _ _ _ _ I). by destruct l1. }
  eapply wp_mono; [by apply (wp_move_to_free _ _ _ _ _ _ _ _ _ I)|].
  intros [] k' L. exists (l1 ++ [c]), l2. split_and!; [done|done|done|by eapply wq_moved|].
  pose proof (wq_nodup _ _ _ _ _ _ I) as Hnd. apply NoDup_app in Hnd as (_ & Hd & _).
  split; try apply L. intros i Hi. specialize (Hd i Hi).
  apply head_Some_In in Hh. pose proof (last_Some_In _ _ (wq_free_last _ _ _ _ _ _ I)) as Hl.
  rewrite (mv_next _ _ _ _ _ L), (mv_prev _ _ _ _ _ L), !decide_False; [done|..].
  - intros Hx%head_Some_In. clear -Hd Hx. set_solver.
  - intros ->. clear -Hd. set_solver.
  - intros ->. clear -Hd Hl. set_solver.
  - intros ->. clear -Hd Hh. set_solver.
Qed.

Lemma nchain_seqZ f a n e :
  0 ≤ n → (∀ i, a ≤ i < a + n → f i = Some (if decide (i = a + n - 1) then e else i + 1)) →
  nchain f (seqZ a n) e.
Proof.
  intros Hn. revert n Hn a. apply (natlike_ind (λ n, ∀ a, _ → nchain f (seqZ a n) e)); [done|].
  intros n Hn IH a Hf. rewrite seqZ_cons, Z.pred_succ by lia. split.
  - rewrite Hf by lia. destruct (decide (n = 0)) as [->|].
    + by rewrite decide_True by lia.
    + rewrite decide_False by lia. rewrite seqZ_cons by lia. done.
  - apply IH. intros i Hi. rewrite Hf by lia.
    destruct (decide (i = a + Z.succ n - 1)), (decide (i = Z.succ a + n - 1)); done || lia.
Qed.

Lemma init_worker_inv id : wq_inv 0 [] [] (seqZ 0 NR_MAX_PARALLEL_IO) [] (init_worker id).
Proof.
  set (n := NR_MAX_PARALLEL_IO) in *.
  assert (head (seqZ 0 n) = Some 0) as Hh by by rewrite seqZ_cons by lia.
  assert (last (seqZ 0 n) = Some (n - 1)) as Hl.
  { replace n with ((n - 1) + 1) at 1 by lia. rewrite seqZ_app, (seqZ_cons _ 1) by lia.
    change (seqZ _ (Z.pred 1)) with (@nil Z). by rewrite last_snoc. }
  split; unfold init_worker; cbn [work_queue free_seq free_seq_end io_seq io_seq_end latest_nsecs];
    rewrite ?app_nil_r; try done.
  - by rewrite alen_aupd, alen_abuild.
  - apply nchain_seqZ; [lia|]. intros i Hi. unfold nxt. rewrite aget_aupd, aget_abuild.
    rewrite (decide_True (P := 0 ≤ i < _)) by lia.
    fold n. destruct (decide (n - 1 = i)) as [<-|]; simpl.
    + by rewrite decide_True by lia.
    + rewrite decide_False by lia. rewrite u32_small by lia. done.
  - intros i Hi. by apply not_elem_of_nil in Hi.
  - constructor.
Qed.
End wq_operations.
