(* ===== verification/Dma.v ===== *)
(** * The client of the DMA engine (src/dma.c)

    The kernel's dmaengine is the class [DmaCore]: its channels, and its answers as
    functions of the calls made so far, which the driver's state records.  A transfer
    may change memory until the call that waits for it returns; in between nobody
    looks at its pages.  [DmaLaws] states what the kernel documents of the answers.
    Waiting times, messages, the lock and the buffer sizes for tests are left out. *)

From Stdlib Require Import ZArith Lia String Ascii.
From stdpp Require Import base numbers list strings gmap.
From S2P Require Import Prelude.

#[local] Open Scope Z_scope.

(** ** Memory *)

(** Physical memory: bytes by address. *)
Definition mem : Type := Z → Z.

(** [memcpy(dst, src, n)] *)
Definition memcpy (dst src n : Z) (m : mem) : mem :=
  λ a, if (dst <=? a) && (a <? dst + n) then m (src + (a - dst)) else m a.

(** ** The kernel's DMA engine *)

Inductive dma_status : Type :=
| DMA_COMPLETE | DMA_IN_PROGRESS | DMA_PAUSED | DMA_ERROR | DMA_OUT_OF_ORDER.
#[export] Instance dma_status_eq_dec : EqDecision dma_status.
Proof. solve_decision. Defined.
Inductive dma_cap : Type := DMA_MEMCPY | DMA_COMPLETION_NO_ORDER.

(** The calls of the driver, and the channels it was granted. *)
Inductive dma_call : Type :=
| CallRequest
| CallGranted (chan : Z)
| CallAlloc
| CallRelease (chan : Z)
| CallPrep (chan dst src size : Z) (interrupt : bool)
| CallSubmit
| CallSyncWait (chan cookie : Z)
| CallIssue (chan : Z)
| CallWait
| CallStatus (chan cookie : Z)
| CallTerminate (chan : Z).

(** The answers to the newest call of a list. *)
Class DmaCore : Type := {
  dma_chan_name : Z → string;
  dma_dev_name : Z → string;
  dma_has_cap : dma_cap → Z → bool;
  dma_nr_channels : Z;
  dma_request_channel : list dma_call → (Z → bool) → option Z;
  dma_kmalloc : list dma_call → bool;
  device_prep_dma_memcpy : list dma_call → bool;
  tx_submit : list dma_call → Z;
  dma_sync_wait : list dma_call → mem → dma_status * mem;
  (* [wait_event_freezable_timeout]: whether [ioat_dma_callback] was called in time *)
  dma_callback_in_time : list dma_call → mem → bool * mem;
  dma_async_is_tx_complete : list dma_call → dma_status;
}.

(** ** The driver's state *)

Definition CHANNEL_NAME_LEN : Z := 20.
Definition max_channels : Z := 0.
Definition polled : bool := true.

Record ioat_dma_params : Type := DmaParams {
  dp_channel : string;
  dp_device : string;
  dp_max_channels : Z;
  dp_polled : bool;
}.
(** The list of channels holds the kernel's channels. *)
Record ioat_dma_info : Type := DmaInfo {
  di_params : ioat_dma_params;
  di_channels : list Z;
  di_nr_channels : Z;
  di_last_error : Z;
}.
(** [dma_thread]; [dt_info]: its pointer to [test_info] is set. *)
Record ioat_dma_thread : Type := DmaThread {
  dt_info : bool;
  dt_chan : option Z;
  dt_done : bool;
}.
Record dma_drv : Type := DmaDrv {
  dd_info : ioat_dma_info;
  dd_thread : ioat_dma_thread;
  dd_test_channel : string;
  dd_calls : list dma_call;
}.
(** The state when the module is loaded. *)
Definition dma_start : dma_drv :=
  DmaDrv (DmaInfo (DmaParams EmptyString EmptyString 0 false) [] 0 0) (DmaThread false None false) EmptyString [].

Definition set_dd_info (x : ioat_dma_info) (s : dma_drv) : dma_drv :=
  DmaDrv x (dd_thread s) (dd_test_channel s) (dd_calls s).
Definition set_dd_thread (x : ioat_dma_thread) (s : dma_drv) : dma_drv :=
  DmaDrv (dd_info s) x (dd_test_channel s) (dd_calls s).
Definition set_test_channel (x : string) (s : dma_drv) : dma_drv :=
  DmaDrv (dd_info s) (dd_thread s) x (dd_calls s).
Definition set_dd_calls (x : list dma_call) (s : dma_drv) : dma_drv :=
  DmaDrv (dd_info s) (dd_thread s) (dd_test_channel s) x.
Definition set_last_error (r : Z) (s : dma_drv) : dma_drv :=
  set_dd_info (DmaInfo (di_params (dd_info s)) (di_channels (dd_info s))
    (di_nr_channels (dd_info s)) r) s.
Definition set_polled (b : bool) (s : dma_drv) : dma_drv :=
  let p := di_params (dd_info s) in
  set_dd_info (DmaInfo (DmaParams (dp_channel p) (dp_device p) (dp_max_channels p) b)
    (di_channels (dd_info s)) (di_nr_channels (dd_info s)) (di_last_error (dd_info s))) s.
Definition set_done (b : bool) (s : dma_drv) : dma_drv :=
  set_dd_thread (DmaThread (dt_info (dd_thread s)) (dt_chan (dd_thread s)) b) s.

(** ** Strings *)

(** [isspace] *)
Definition is_blank (a : ascii) : bool :=
  let n := Z.of_N (N_of_ascii a) in (n =? 32) || (n =? 160) || (9 <=? n) && (n <=? 13).
Fixpoint skip_spaces (s : string) : string :=
  match s with
  | String a s' => if is_blank a then skip_spaces s' else s
  | EmptyString => EmptyString
  end.
Fixpoint trim_end (s : string) : string :=
  match s with
  | String a s' =>
      let t := trim_end s' in
      if is_blank a && String.eqb t EmptyString then EmptyString else String a t
  | EmptyString => EmptyString
  end.
(** [strim]; that it also cuts its argument's end is not kept, cutting it again has
    no further effect. *)
Definition strim (s : string) : string := skip_spaces (trim_end s).

Definition ENOMEM : Z := 12.
Definition EBUSY : Z := 16.
Definition EINVAL : Z := 22.

Section driver.
Context `{DC : !DmaCore}.

(** Makes a call; the calls made so far, the newest first. *)
Definition call (x : dma_call) : M dma_drv (list dma_call) :=
  s ← get;
  put (set_dd_calls (x :: dd_calls s) s) ;;
  mret (x :: dd_calls s).

(** ** Transfers *)

Definition on_drv {A} (m : M dma_drv A) : M (mem * dma_drv) A := zoom snd (λ s x, (x.1, s)) m.
Definition on_mem {A} (f : mem → A * mem) : M (mem * dma_drv) A := λ '(m, s),
  let '(a, m') := f m in Ok (a, (m', s)).

(** [ioat_dma_submit] up to the label [out]. *)
Definition dma_transfer (chan src_addr dst_addr size : Z) : M (mem * dma_drv) Z :=
  s ← gets snd;
  let polled := dp_polled (di_params (dd_info s)) in
  l ← on_drv (call (CallPrep chan dst_addr src_addr size (negb polled)));
  if negb (device_prep_dma_memcpy l) then mret (- ENOMEM)
  else
    on_drv (modify (set_done false)) ;;
    l ← on_drv (call CallSubmit);
    let cookie := tx_submit l in
    if cookie <? 0 then mret (- ENOMEM)
    else
      status ← (if polled then
          l ← on_drv (call (CallSyncWait chan cookie));
          status ← on_mem (dma_sync_wait l);
          _ ← on_drv (call (CallTerminate chan));
          when (bool_decide (status = DMA_COMPLETE)) (on_drv (modify (set_done true))) ;;
          mret status
        else
          _ ← on_drv (call (CallIssue chan));
          l ← on_drv (call CallWait);
          called ← on_mem (dma_callback_in_time l);
          when called (on_drv (modify (set_done true))) ;;
          l ← on_drv (call (CallStatus chan cookie));
          mret (dma_async_is_tx_complete l));
      s ← gets snd;
      if negb (dt_done (dd_thread s)) then mret (- ENOMEM)
      else if negb (bool_decide (status = DMA_COMPLETE)) &&
              negb (dma_has_cap DMA_COMPLETION_NO_ORDER chan && bool_decide (status = DMA_OUT_OF_ORDER))
      then mret (- ENOMEM)
      else mret 0.

Definition ioat_dma_submit (src_addr dst_addr size : Z) : M (mem * dma_drv) Z :=
  s ← gets snd;
  chan ← deref (dt_chan (dd_thread s));
  if negb (dt_info (dd_thread s)) then throw OOPS
  else
    ret ← dma_transfer chan src_addr dst_addr size;
    when (negb (ret =? 0)) (_ ← on_drv (call (CallTerminate chan)); mret tt) ;;
    mret ret.

(** ** Channels *)

Definition ioat_dma_match_channel (params : ioat_dma_params) (chan : Z) : bool :=
  String.eqb (dp_channel params) EmptyString || String.eqb (dma_chan_name chan) (dp_channel params).
Definition ioat_dma_match_device (params : ioat_dma_params) (chan : Z) : bool :=
  String.eqb (dp_device params) EmptyString || String.eqb (dma_dev_name chan) (dp_device params).
Definition filter_channel (params : ioat_dma_params) (chan : Z) : bool :=
  ioat_dma_match_channel params chan && ioat_dma_match_device params chan.

Definition ioat_dma_add_channel (chan : Z) : M dma_drv Z :=
  l ← call CallAlloc;
  if negb (dma_kmalloc l) then mret (- ENOMEM)
  else
    s ← get;
    when (dma_has_cap DMA_COMPLETION_NO_ORDER chan && dp_polled (di_params (dd_info s)))
      (modify (set_polled false)) ;;
    when (dma_has_cap DMA_MEMCPY chan)
      (modify (λ s, set_dd_thread (DmaThread true (Some chan) (dt_done (dd_thread s))) s)) ;;
    modify (λ s, set_dd_info (DmaInfo (di_params (dd_info s)) (di_channels (dd_info s) ++ [chan])
      (u32 (di_nr_channels (dd_info s) + 1)) (di_last_error (dd_info s))) s) ;;
    mret 0.

(** The loop ends when the kernel has no channel left; it has [dma_nr_channels]. *)
Definition request_channels : M dma_drv unit :=
  while_loop (dma_nr_channels + 2) (λ _,
    s ← get;
    let params := di_params (dd_info s) in
    l ← call CallRequest;
    match dma_request_channel l (filter_channel params) with
    | None => mret (inr tt)
    | Some chan =>
        _ ← call (CallGranted chan);
        r ← ioat_dma_add_channel chan;
        if negb (r =? 0) then _ ← call (CallRelease chan); mret (inr tt)
        else
          s ← get;
          if negb (dp_max_channels params =? 0) && (dp_max_channels params <=? di_nr_channels (dd_info s))
          then mret (inr tt) else mret (inl tt)
    end) tt.

Definition add_threaded_dma : M dma_drv unit :=
  modify (λ s, set_dd_info (DmaInfo (DmaParams (substring 0 19 (strim (dd_test_channel s))) EmptyString
    max_channels polled) (di_channels (dd_info s)) (di_nr_channels (dd_info s))
    (di_last_error (dd_info s))) s) ;;
  request_channels.

Definition ioat_dma_chan_set (val : string) : M dma_drv Z :=
  if CHANNEL_NAME_LEN <=? Z.of_nat (String.length val) then throw BUG
  else
    modify (set_test_channel val) ;;
    s ← get;
    ret ← (if existsb (λ chan, String.eqb (dma_chan_name chan) (strim (dd_test_channel s)))
                (di_channels (dd_info s))
           then mret (- EBUSY)
           else
             add_threaded_dma ;;
             s ← get;
             match last (di_channels (dd_info s)) with
             | None => mret (- EBUSY)
             | Some chan =>
                 if negb (String.eqb (dma_chan_name chan) (strim (dd_test_channel s))) &&
                    negb (String.eqb EmptyString (strim (dd_test_channel s)))
                 then mret (- EINVAL) else mret 0
             end);
    modify (set_last_error ret) ;;
    mret ret.

Definition ioat_dma_cleanup : M dma_drv unit :=
  s ← get;
  for_list (di_channels (dd_info s)) (λ chan,
    modify (λ s, set_dd_info (DmaInfo (di_params (dd_info s)) (tail (di_channels (dd_info s)))
      (di_nr_channels (dd_info s)) (di_last_error (dd_info s))) s) ;;
    _ ← call (CallTerminate chan);
    _ ← call (CallRelease chan);
    mret tt) ;;
  modify (λ s, set_dd_info (DmaInfo (di_params (dd_info s)) (di_channels (dd_info s)) 0
    (di_last_error (dd_info s))) s).
End driver.

(** ** What the kernel documents *)

(** Channel [chan] was granted and not given back; the newest call comes first. *)
Fixpoint held (chan : Z) (l : list dma_call) : bool :=
  match l with
  | [] => false
  | CallGranted c :: l' => (c =? chan) || held chan l'
  | CallRelease c :: l' => negb (c =? chan) && held chan l'
  | _ :: l' => held chan l'
  end.

(** A channel granted satisfies the filter, can copy, and was free.  A transfer that
    is reported complete has copied its bytes and changed nothing else. *)
Class DmaLaws `{!DmaCore} : Prop := {
  law_request l f chan : dma_request_channel l f = Some chan →
    f chan = true ∧ dma_has_cap DMA_MEMCPY chan = true ∧ 0 ≤ chan < dma_nr_channels ∧ held chan l = false;
  law_sync chan cookie dst src n i l m m' :
    dma_sync_wait (CallSyncWait chan cookie :: CallSubmit :: CallPrep chan dst src n i :: l) m = (DMA_COMPLETE, m') →
    ∀ a, m' a = memcpy dst src n m a;
  law_callback chan dst src n i l m m' :
    dma_callback_in_time (CallWait :: CallIssue chan :: CallSubmit :: CallPrep chan dst src n i :: l) m = (true, m') →
    ∀ a, m' a = memcpy dst src n m a;
}.

(** An engine without errors: every call succeeds in time. *)
Record dma_completes `{!DmaCore} : Prop := {
  cp_prep l : device_prep_dma_memcpy l = true;
  cp_submit l : 0 ≤ tx_submit l;
  cp_sync l m : (dma_sync_wait l m).1 = DMA_COMPLETE;
  cp_callback l m : (dma_callback_in_time l m).1 = true;
  cp_status l : dma_async_is_tx_complete l = DMA_COMPLETE;
}.

Section laws.
Context `{DC : !DmaCore} `{DL : !DmaLaws}.

Lemma wp_call x s (Q : list dma_call → dma_drv → Prop) :
  Q (x :: dd_calls s) (set_dd_calls (x :: dd_calls s) s) → wp (call x) s Q.
Proof. done. Qed.
Lemma wp_drv_call x m s (Q : list dma_call → mem * dma_drv → Prop) :
  Q (x :: dd_calls s) (m, set_dd_calls (x :: dd_calls s) s) → wp (on_drv (call x)) (m, s) Q.
Proof. done. Qed.
Lemma wp_drv_modify f m s (Q : unit → mem * dma_drv → Prop) :
  Q tt (m, f s) → wp (on_drv (modify f)) (m, s) Q.
Proof. done. Qed.
Lemma wp_on_mem {A} (f : mem → A * mem) m s (Q : A → mem * dma_drv → Prop) :
  (∀ a m', f m = (a, m') → Q a (m', s)) → wp (on_mem f) (m, s) Q.
Proof. intros H. unfold wp, on_mem. destruct (f m) as [a m'] eqn:E. by apply H. Qed.

(** The driver has a channel. *)
Definition dma_ready (s : dma_drv) : Prop :=
  dt_info (dd_thread s) = true ∧ is_Some (dt_chan (dd_thread s)).

(** A transfer returns, and what is answered with 0 has been copied; all that an
    error says is -ENOMEM. *)
Lemma wp_ioat_dma_submit src dst n m s :
  dma_ready s →
  wp (ioat_dma_submit src dst n) (m, s) (λ r '(m', s'), dma_ready s' ∧
    (r = 0 ∧ (∀ a, m' a = memcpy dst src n m a) ∨ r = - ENOMEM ∧ ¬ dma_completes)).
Proof.
  intros [Hi [chan Hch]]. unfold ioat_dma_submit. wp_step. wp_step. wp_step. apply (wp_deref _ _ chan); [done|].
  simpl. rewrite Hi. cbn [negb]. wp_step.
  eapply (wp_mono _ _ (λ r '(m', s'), dma_ready s' ∧
    (r = 0 ∧ (∀ a, m' a = memcpy dst src n m a) ∨ r = - ENOMEM ∧ ¬ dma_completes))).
  2:{ intros r [m' s'] [Hr Hcase]. wp_step.
      destruct (Z.eqb_spec r 0); cbn [negb when]; [by wp_steps|]. by wp_step. }
  unfold dma_transfer. wp_step. wp_step. wp_step. apply wp_drv_call.
  destruct (device_prep_dma_memcpy _) eqn:Hp; cbn [negb].
  2:{ wp_step. split; [by split; [|exists chan]|right]. split; [done|]. intros [H _ _ _ _]. by rewrite H in Hp. }
  wp_step. apply wp_drv_modify. wp_step. apply wp_drv_call.
  simpl. match goal with |- context [?a <? 0] => destruct (Z.ltb_spec a 0) as [Hc|Hc] end.
  { wp_step. split; [by split; [|exists chan]|right]. split; [done|]. intros [_ H _ _ _].
    match type of Hc with tx_submit ?l < 0 => specialize (H l) end. lia. }
  wp_step. destruct (dp_polled (di_params (dd_info s))); wp_step.
  - apply wp_drv_call. wp_step. apply wp_on_mem. intros status m' Hw. wp_step. apply wp_drv_call. repeat wp_step.
    + apply bool_decide_eq_true in H as ->. apply wp_drv_modify. wp_steps. cbn.
      split; [by split; [|exists chan]|left]. split; [done|]. exact (law_sync _ _ _ _ _ _ _ _ _ Hw).
    + wp_steps. cbn. split; [by split; [|exists chan]|right]. split; [done|]. intros [_ _ Hs _ _].
      apply bool_decide_eq_false in H. apply H.
      match type of Hw with dma_sync_wait ?l m = _ => specialize (Hs l m); by rewrite Hw in Hs end.
  - apply wp_drv_call. wp_step. apply wp_drv_call. wp_step. apply wp_on_mem. intros called m' Hw. wp_step.
    destruct called; cbn [when].
    + apply wp_drv_modify. wp_step. apply wp_drv_call. wp_steps. cbn.
      destruct (_ && _) eqn:Hst; wp_step; (split; [by split; [|exists chan]|]).
      * right. split; [done|]. intros [_ _ _ _ Hs]. apply andb_true_iff in Hst as [Hst _].
        rewrite Hs in Hst. by rewrite bool_decide_true in Hst.
      * left. split; [done|]. exact (law_callback _ _ _ _ _ _ _ _ Hw).
    + wp_steps. apply wp_drv_call. wp_steps. cbn. split; [by split; [|exists chan]|right].
      split; [done|]. intros [_ _ _ Hs _].
      match type of Hw with dma_callback_in_time ?l m = _ => specialize (Hs l m); by rewrite Hw in Hs end.
Qed.

(** ** Registering channels *)

(** The registered channels are the driver's, each once, and transfers use the last. *)
Record drv_ok (s : dma_drv) : Prop := {
  dk_nodup : NoDup (di_channels (dd_info s));
  dk_held chan : chan ∈ di_channels (dd_info s) → held chan (dd_calls s) = true ∧ 0 ≤ chan < dma_nr_channels;
  dk_thread : di_channels (dd_info s) ≠ [] →
    dt_info (dd_thread s) = true ∧ dt_chan (dd_thread s) = last (di_channels (dd_info s));
}.

Lemma drv_ok_count s : drv_ok s → 0 ≤ dma_nr_channels → Z.of_nat (length (di_channels (dd_info s))) ≤ dma_nr_channels.
Proof.
  intros [Hn Hh _] Hp. assert (di_channels (dd_info s) ⊆+ seqZ 0 dma_nr_channels) as Hsub.
  { apply NoDup_submseteq; [done|]. intros chan Hc. apply elem_of_seqZ. destruct (Hh _ Hc). lia. }
  apply submseteq_length in Hsub. rewrite length_seqZ in Hsub. lia.
Qed.

(** Adding a channel that was just granted. *)
Lemma wp_add_channel chan s l :
  drv_ok s → chan ∉ di_channels (dd_info s) → 0 ≤ chan < dma_nr_channels →
  dma_has_cap DMA_MEMCPY chan = true → dd_calls s = CallGranted chan :: l →
  wp (ioat_dma_add_channel chan) s (λ r s', dd_test_channel s' = dd_test_channel s ∧
    ((r = - ENOMEM ∧ di_channels (dd_info s') = di_channels (dd_info s) ∧ dd_thread s' = dd_thread s ∧
      dd_calls s' = CallAlloc :: dd_calls s) ∨
     (r = 0 ∧ drv_ok s' ∧ di_channels (dd_info s') = di_channels (dd_info s) ++ [chan]))).
Proof.
  intros [Hn Hh Ht] Hnew Hr Hcap Hl. unfold ioat_dma_add_channel. wp_step. apply wp_call.
  destruct (dma_kmalloc _); cbn [negb].
  2:{ wp_step. split; [done|]. by left. }
  wp_step. wp_step. wp_step. rewrite Hcap. cbn [when].
  apply (wp_mono _ _ (λ _ s1, dd_test_channel s1 = dd_test_channel s ∧ dd_calls s1 = CallAlloc :: dd_calls s ∧
    di_channels (dd_info s1) = di_channels (dd_info s))).
  { wp_step; [by wp_step|done]. }
  intros [] s1 (E1 & E2 & E3). wp_steps. split; [done|]. right. split; [done|]. split; [|by rewrite <- E3].
  split; simpl; rewrite E3.
  - apply NoDup_app. split_and!; [done| |apply NoDup_singleton].
    intros x Hx ->%list_elem_of_singleton. done.
  - intros x [Hx| ->%list_elem_of_singleton]%elem_of_app; rewrite E2, Hl; simpl; [|by rewrite Z.eqb_refl].
    destruct (Hh x Hx) as [Hx1 Hx2]. rewrite Hl in Hx1. done.
  - intros _. by rewrite last_snoc.
Qed.

(** The loop ends; what it registered stays consistent. *)
Lemma wp_request_channels s :
  drv_ok s → 0 ≤ dma_nr_channels →
  wp request_channels s (λ _ s', drv_ok s' ∧ dd_test_channel s' = dd_test_channel s).
Proof.
  intros Hs Hp. unfold request_channels.
  apply (wp_while_ghost (λ n _ s1, n = dma_nr_channels - Z.of_nat (length (di_channels (dd_info s1))) ∧
    drv_ok s1 ∧ dd_test_channel s1 = dd_test_channel s) (λ n, n) _ _
    (dma_nr_channels - Z.of_nat (length (di_channels (dd_info s))))).
  - done.
  - lia.
  - intros n [] s1 (-> & Hs1 & Htc). pose proof (drv_ok_count _ Hs1 Hp) as Hcnt. split; [lia|].
    wp_step. wp_step. wp_step. apply wp_call.
    destruct (dma_request_channel _ _) as [chan|] eqn:Hreq.
    2:{ wp_step. split; [|done]. destruct Hs1. by split. }
    destruct (law_request _ _ _ Hreq) as (_ & Hcap & Hr & Hfree). simpl in Hfree.
    assert (chan ∉ di_channels (dd_info s1)) as Hnew.
    { intros Hin. destruct (dk_held _ Hs1 _ Hin). congruence. }
    wp_step. apply wp_call. wp_step. eapply wp_mono.
    { eapply (wp_add_channel chan); [|done|done|done|done]. destruct Hs1 as [H1 H2 H3]. split; [done| |done].
      intros x Hx. simpl. destruct (H2 x Hx) as [-> ?]. by rewrite orb_true_r. }
    intros r s2 (E1 & [(-> & E2 & E3 & E4)|(-> & Hs2 & E2)]); simpl in *; cbn [negb Z.eqb].
    + wp_step. apply wp_call. wp_step. split; [|simpl; congruence]. destruct Hs1 as [H1 H2 H3].
      split; simpl; rewrite E2; [done| |by rewrite E3].
      intros x Hx. rewrite E4. simpl. destruct (H2 x Hx) as [-> ?]. split; [|done].
      rewrite orb_true_r, andb_true_r, (proj2 (Z.eqb_neq _ _)) by (by intros ->). done.
    + wp_steps. destruct (_ && _); wp_step; [split; [done|congruence]|].
      eexists. split; [split_and!; [done|done|congruence]|]. rewrite E2, length_app. simpl. lia.
Qed.

(** Setting the channel returns: 0 if transfers can now be made, on the channel named
    if one was named; -EBUSY if that channel is registered already or there is none;
    -EINVAL if the channels registered do not end with the one named. *)
Lemma wp_ioat_dma_chan_set val s :
  drv_ok s → 0 ≤ dma_nr_channels → Z.of_nat (String.length val) < CHANNEL_NAME_LEN →
  wp (ioat_dma_chan_set val) s (λ r s', drv_ok s' ∧ di_last_error (dd_info s') = r ∧
    (r = 0 ∧ dma_ready s' ∧ (strim val = EmptyString ∨
       ∃ chan, dt_chan (dd_thread s') = Some chan ∧ dma_chan_name chan = strim val) ∨
     r = - EBUSY ∧ (di_channels (dd_info s') = [] ∨
       ∃ chan, chan ∈ di_channels (dd_info s) ∧ dma_chan_name chan = strim val) ∨
     r = - EINVAL ∧ ∃ chan, last (di_channels (dd_info s')) = Some chan ∧ dma_chan_name chan ≠ strim val)).
Proof.
  intros Hs Hp Hv. unfold ioat_dma_chan_set. rewrite (proj2 (Z.leb_gt _ _)) by done. wp_step. wp_step.
  wp_step. wp_step. wp_step. cbn [dd_test_channel set_test_channel].
  apply (wp_mono _ _ (λ r s', drv_ok s' ∧
    (r = 0 ∧ dma_ready s' ∧ (strim val = EmptyString ∨
       ∃ chan, dt_chan (dd_thread s') = Some chan ∧ dma_chan_name chan = strim val) ∨
     r = - EBUSY ∧ (di_channels (dd_info s') = [] ∨
       ∃ chan, chan ∈ di_channels (dd_info s) ∧ dma_chan_name chan = strim val) ∨
     r = - EINVAL ∧ ∃ chan, last (di_channels (dd_info s')) = Some chan ∧ dma_chan_name chan ≠ strim val))).
  2:{ intros r s' [[H1 H2 H3] Hr]. wp_steps. split; [by split|]. split; [done|]. exact Hr. }
  destruct (existsb _ _) eqn:Hex.
  { wp_step. split; [destruct Hs; by split|]. right; left. split; [done|]. right.
    apply existsb_exists in Hex as (chan & Hin & He). exists chan. apply String.eqb_eq in He.
    split; [by apply list_elem_of_In|done]. }
  wp_step. unfold add_threaded_dma. wp_step. wp_step. eapply wp_mono.
  { apply wp_request_channels; [|done]. destruct Hs. by split. }
  intros [] s' [Hs' Htc]. simpl in Htc. wp_step. wp_step.
  destruct (last (di_channels (dd_info s'))) as [chan|] eqn:Hlast.
  2:{ wp_step. split; [done|]. right; left. split; [done|]. left. by apply last_None. }
  assert (dma_ready s' ∧ dt_chan (dd_thread s') = Some chan) as [Hready Hchan].
  { destruct (dk_thread _ Hs') as [Hi Hc]; [by intros E; rewrite E in Hlast|].
    rewrite Hlast in Hc. split; [split; [done|by exists chan]|done]. }
  rewrite Htc. destruct (String.eqb_spec (dma_chan_name chan) (strim val)) as [E1|E1];
    [|destruct (String.eqb_spec EmptyString (strim val)) as [E2|E2]]; cbn [negb andb]; wp_step; (split; [done|]).
  - left. split_and!; [done|done|]. right. by exists chan.
  - left. split_and!; [done|done|]. by left.
  - right; right. split; [done|]. by exists chan.
Qed.
End laws.
