(* ===== verification/IoData.v ===== *)
(** * The data path of the I/O engine (src/io.c)

    A worker copies the data of a command between the pages the host named in the
    command (its PRP entries) and the storage area, either with the CPU or with a
    DMA engine, through the driver of [Dma].  Physical memory is a function from
    addresses to bytes; both the host's pages and the storage area are in it.  The
    kernel's [pfn_valid] is a parameter. *)

From Stdlib Require Import ZArith Lia.
From stdpp Require Import base numbers list gmap.
From S2P Require Import Prelude Config Bytes Nvme Dma.

#[local] Open Scope Z_scope.

Definition PAGE_SHIFT : Z := 12.
Definition PAGE_OFFSET_MASK : Z := PAGE_SIZE - 1.
Definition PRP_PFN (x : Z) : Z := Z.shiftr x PAGE_SHIFT.

(** [struct nvme_command] as the I/O engine reads it: the identifier of the common
    part, the read/write part and the PRP entries. *)
Record nvme_command : Type := NvmeCommand {
  c_command_id : Z;
  c_rw : nvme_rw_command;
  c_prp1 : Z;
  c_prp2 : Z;
}.

(** A 64-bit load. *)
Definition read_u64 (m : mem) (a : Z) : Z := le_combine (map m (seqZ a 8)).

Section data.
Context (c : ssd_config) (pfn_valid : Z → bool).

Definition cmd_io_offset (cmd : nvme_rw_command) : Z := u64 (Z.shiftl (rw_slba cmd) (LBA_BITS c)).
Definition cmd_io_size (cmd : nvme_rw_command) : Z := u64 (Z.shiftl (rw_length cmd + 1) (LBA_BITS c)).

(** The address of a PRP list: [kmap_atomic_pfn] maps the page and the byte offset
    is added; [memremap] maps the address itself and the offset is added again, to
    a pointer to 64-bit words. *)
Definition prp_list_addr (paddr : Z) : Z :=
  if pfn_valid (Z.shiftr paddr PAGE_SHIFT)
  then Z.shiftl (PRP_PFN paddr) PAGE_SHIFT + Z.land paddr PAGE_OFFSET_MASK
  else paddr + 8 * Z.land paddr PAGE_OFFSET_MASK.

(** The address at which the data of a PRP entry is accessed. *)
Definition prp_data_addr (paddr mem_offs : Z) : Z :=
  (if pfn_valid (Z.shiftr paddr PAGE_SHIFT)
   then Z.shiftl (PRP_PFN paddr) PAGE_SHIFT else paddr) + mem_offs.

(** The next PRP entry: the entry, [prp2_offs] and [paddr_list] afterwards. *)
Definition next_prp (cmd : nvme_command) (prp_offs remaining prp2_offs : Z)
    (paddr_list : option Z) : M mem (Z * Z * option Z) :=
  if prp_offs =? 1 then mret (c_prp1 cmd, prp2_offs, paddr_list)
  else if prp_offs =? 2 then
    if PAGE_SIZE <? remaining then
      let l := prp_list_addr (c_prp2 cmd) in
      m ← get;
      mret (read_u64 m (l + 8 * prp2_offs), prp2_offs + 1, Some l)
    else mret (c_prp2 cmd, prp2_offs, paddr_list)
  else
    l ← deref paddr_list;
    m ← get;
    mret (read_u64 m (l + 8 * prp2_offs), prp2_offs + 1, paddr_list).

(** The offset in the page and the bytes of the page to transfer. *)
Definition prp_mem_offs (paddr : Z) : Z :=
  if Z.land paddr PAGE_OFFSET_MASK =? 0 then 0 else Z.land paddr PAGE_OFFSET_MASK.
Definition prp_io_size (paddr remaining : Z) : Z :=
  let io_size := Z.min remaining PAGE_SIZE in
  let mem_offs := Z.land paddr PAGE_OFFSET_MASK in
  if (negb (mem_offs =? 0)) && (PAGE_SIZE <? io_size + mem_offs)
  then PAGE_SIZE - mem_offs else io_size.

Definition is_write (cmd : nvme_command) : bool :=
  (rw_opcode (c_rw cmd) =? nvme_cmd_write) || (rw_opcode (c_rw cmd) =? nvme_cmd_zone_append).
Definition is_read (cmd : nvme_command) : bool := rw_opcode (c_rw cmd) =? nvme_cmd_read.

Record copy_locals : Type := CopyLocals {
  cl_remaining : Z;
  cl_offset : Z;
  cl_prp_offs : Z;
  cl_prp2_offs : Z;
  cl_paddr_list : option Z;
}.

(** The loop of the copy by the CPU: [length] bytes at [offset] of the storage that
    begins at [mapped]. *)
Definition prp_copy (mapped : Z) (cmd : nvme_command) (offset length : Z) : M mem unit :=
  while_loop (length + 1) (λ l,
    if cl_remaining l =? 0 then mret (inr tt)
    else
      let prp_offs := cl_prp_offs l + 1 in
      '(paddr, prp2_offs, paddr_list) ←
        next_prp cmd prp_offs (cl_remaining l) (cl_prp2_offs l) (cl_paddr_list l);
      let io_size := prp_io_size paddr (cl_remaining l) in
      let vaddr := prp_data_addr paddr (prp_mem_offs paddr) in
      (if is_write cmd then modify (memcpy (mapped + cl_offset l) vaddr io_size)
       else when (is_read cmd) (modify (memcpy vaddr (mapped + cl_offset l) io_size))) ;;
      mret (inl (CopyLocals (cl_remaining l - io_size) (cl_offset l + io_size)
                   prp_offs prp2_offs paddr_list)))
    (CopyLocals length offset 0 0 None).

(** The copy by the CPU; [mapped] is where the namespace's storage begins. *)
Definition do_perform_io (mapped : Z) (cmd : nvme_command) : M mem Z :=
  let length := cmd_io_size (c_rw cmd) in
  prp_copy mapped cmd (cmd_io_offset (c_rw cmd)) length ;;
  mret (u32 length).

(** The first loop of the copy by DMA: the PRP entries of the command, from index
    1 of an array of 513, and their number. *)
Definition dma_prp_list (cmd : nvme_command) (length : Z) : M mem (arr Z * Z) :=
  while_loop (length + 1) (λ '(remaining, prp_offs, prp2_offs, tmp_list, prps),
    if remaining =? 0 then mret (inr (prps, prp_offs))
    else
      let prp_offs := prp_offs + 1 in
      '(paddr, prp2_offs, tmp_list) ← next_prp cmd prp_offs remaining prp2_offs tmp_list;
      prps ← awrite prps prp_offs paddr;
      mret (inl (remaining - prp_io_size paddr remaining, prp_offs, prp2_offs, tmp_list, prps)))
    (length, 0, 0, None, anew 513 0).

(** The pages that follow [prp_offs - 1] without a gap add to [page_size]. *)
Definition dma_extend (prps : arr Z) (num_prps prp_offs page_size : Z) : M mem (Z * Z) :=
  while_loop (num_prps + 2) (λ '(prp_offs, page_size),
    if prp_offs <=? num_prps then
      p ← aread prps prp_offs;
      q ← aread prps (prp_offs - 1);
      if p =? u64 (q + PAGE_SIZE)
      then mret (inl (prp_offs + 1, page_size + PAGE_SIZE))
      else mret (inr (prp_offs, page_size))
    else mret (inr (prp_offs, page_size))) (prp_offs, page_size).

(** The copy by DMA; the storage area begins at [storage_start].  What
    [ioat_dma_submit] answers is ignored. *)
Definition do_perform_io_using_dma `{!DmaCore} (storage_start : Z) (cmd : nvme_command)
    : M (mem * dma_drv) Z :=
  let length := cmd_io_size (c_rw cmd) in
  '(prps, num_prps) ← zoom fst (λ m x, (m, x.2)) (dma_prp_list cmd length);
  while_loop (length + 1) (λ '(remaining, offset, prp_offs),
    if remaining =? 0 then mret (inr tt)
    else
      paddr ← aread prps prp_offs;
      let page_size := prp_io_size paddr remaining in
      '(prp_offs, page_size) ← zoom fst (λ m x, (m, x.2)) (dma_extend prps num_prps (prp_offs + 1) page_size);
      let io_size := Z.min remaining page_size in
      (if is_write cmd
       then _ ← ioat_dma_submit paddr (storage_start + offset) (u32 io_size); mret tt
       else when (is_read cmd)
              (_ ← ioat_dma_submit (storage_start + offset) paddr (u32 io_size); mret tt)) ;;
      mret (inl (remaining - io_size, offset + io_size, prp_offs)))
    (length, cmd_io_offset (c_rw cmd), 1) ;;
  mret (u32 length).
End data.

(** ** Specification: a transfer between the storage area and the named pages

    [prp_at m cmd len i] is the [i]-th PRP entry of a transfer of [len] bytes and
    [host_addr m cmd len t] the address of byte [t]: the first entry may start
    inside its page, the others are whole pages. *)

Section spec.
Context (m0 : mem) (cmd : nvme_command) (len : Z).

Definition first_len : Z := Z.min len (PAGE_SIZE - c_prp1 cmd mod PAGE_SIZE).
Definition rest_len : Z := len - first_len.
Definition nr_prps : Z := 1 + (rest_len + (PAGE_SIZE - 1)) / PAGE_SIZE.
Definition uses_list : bool := PAGE_SIZE <? rest_len.
Definition prp_at (i : Z) : Z :=
  if i =? 0 then c_prp1 cmd
  else if uses_list then read_u64 m0 (c_prp2 cmd + 8 * (i - 1)) else c_prp2 cmd.
Definition host_addr (t : Z) : Z :=
  if t <? first_len then c_prp1 cmd + t
  else prp_at (1 + (t - first_len) / PAGE_SIZE) + (t - first_len) mod PAGE_SIZE.

(** Bytes left after [i] entries. *)
Definition left_after (i : Z) : Z :=
  if i =? 0 then len else Z.max 0 (rest_len - PAGE_SIZE * (i - 1)).

(** The first [n] bytes were copied, in the direction of the command, between the
    named pages and the storage at [B]; nothing else changed. *)
Definition transferred (B n : Z) (m : mem) : Prop :=
  if is_write cmd then ∀ a, m a = if decide (B ≤ a < B + n) then m0 (host_addr (a - B)) else m0 a
  else if is_read cmd then
    (∀ t, 0 ≤ t < n → m (host_addr t) = m0 (B + t)) ∧
    (∀ a, (∀ t, 0 ≤ t < n → a ≠ host_addr t) → m a = m0 a)
  else ∀ a, m a = m0 a.

(** The transfers the host may ask for: later entries are page-aligned, the pages
    are distinct memory known to the kernel, and neither the storage nor, for a
    read, the named pages contain the list of entries. *)
Record transfer_ok (pfn_valid : Z → bool) (B : Z) : Prop := {
  tr_len : 0 < len < 2 ^ 32;
  tr_range i : 0 ≤ i < nr_prps → 0 ≤ prp_at i < 2 ^ 63;
  tr_aligned i : 1 ≤ i < nr_prps → prp_at i mod PAGE_SIZE = 0;
  tr_valid i : 0 ≤ i < nr_prps → pfn_valid (Z.shiftr (prp_at i) PAGE_SHIFT) = true;
  tr_list : uses_list = true → pfn_valid (Z.shiftr (c_prp2 cmd) PAGE_SHIFT) = true;
  tr_disjoint t : 0 ≤ t < len → ¬ (B ≤ host_addr t < B + len);
  tr_distinct t u : 0 ≤ t < len → 0 ≤ u < len → host_addr t = host_addr u → t = u;
  tr_list_apart i : uses_list = true → 0 ≤ i < 8 * (nr_prps - 1) →
    ¬ (B ≤ c_prp2 cmd + i < B + len) ∧ ∀ t, 0 ≤ t < len → c_prp2 cmd + i ≠ host_addr t;
}.
End spec.

Lemma page_split p : Z.shiftl (Z.shiftr p PAGE_SHIFT) PAGE_SHIFT + Z.land p PAGE_OFFSET_MASK = p.
Proof.
  change PAGE_OFFSET_MASK with (Z.ones 12). rewrite Z.land_ones by lia.
  unfold PAGE_SHIFT. rewrite Z.shiftl_mul_pow2, Z.shiftr_div_pow2 by lia.
  pose proof (Z.div_mod p (2 ^ 12)). lia.
Qed.

Lemma page_offset p : Z.land p PAGE_OFFSET_MASK = p mod PAGE_SIZE.
Proof. change PAGE_OFFSET_MASK with (Z.ones 12). by rewrite Z.land_ones by lia. Qed.

Section transfer.
Context (m0 : mem) (cmd : nvme_command) (len : Z) (pfn_valid : Z → bool) (B : Z).
Context (TR : transfer_ok m0 cmd len pfn_valid B).
#[local] Abbreviation first := (first_len cmd len).
#[local] Abbreviation rest := (rest_len cmd len).
#[local] Abbreviation nr := (nr_prps cmd len).
#[local] Abbreviation P := (prp_at m0 cmd len).
#[local] Abbreviation left := (left_after cmd len).
#[local] Abbreviation haddr := (host_addr m0 cmd len).

Lemma first_pos : 0 < first ≤ PAGE_SIZE ∧ first + rest = len ∧ 0 ≤ rest ∧ (0 < rest → first + c_prp1 cmd mod PAGE_SIZE = PAGE_SIZE).
Proof.
  pose proof (tr_len _ _ _ _ _ TR). unfold rest_len, first_len.
  pose proof (Z.mod_pos_bound (c_prp1 cmd) PAGE_SIZE ltac:(reflexivity)). unfold PAGE_SIZE in *. lia.
Qed.

(** The walk over the entries: how much is left, which entry is next. *)
Lemma left_facts i : 0 ≤ i < nr →
  0 < left i ≤ len ∧ left (i + 1) = left i - prp_io_size (P i) (left i) ∧
  0 < prp_io_size (P i) (left i) ∧
  (i + 1 < nr → 0 < left (i + 1)) ∧ (i + 1 = nr → left (i + 1) = 0) ∧
  (0 < i → left i ≤ rest - PAGE_SIZE * (i - 1)).
Proof.
  intros Hi. pose proof first_pos as (Hf & Hfl & Hr & Hfr). pose proof (tr_aligned _ _ _ _ _ TR i) as Ha.
  unfold prp_io_size. rewrite page_offset. unfold left_after, nr_prps in *.
  unfold PAGE_SIZE in *. destruct (Z.eqb_spec i 0) as [->|Hi0].
  - change (0 + 1 =? 0) with false. cbn [negb]. unfold prp_at. cbn [Z.eqb].
    unfold rest_len, first_len in *.
    destruct (Z.eqb_spec (c_prp1 cmd mod 4096) 0); cbn [negb andb];
      [|destruct (Z.ltb_spec 4096 (Z.min len 4096 + c_prp1 cmd mod 4096))];
      unfold PAGE_SIZE in *; dlia.
  - rewrite Ha by lia. cbn [negb andb Z.eqb]. destruct (Z.eqb_spec (i + 1) 0); [lia|]. dlia.
Qed.

Lemma host_addr_entry i t :
  0 ≤ i < nr → len - left i ≤ t < len - left (i + 1) → haddr t = P i + (t - (len - left i)).
Proof.
  intros Hi Ht. pose proof first_pos as (Hf & Hfl & Hr & Hfr).
  destruct (left_facts i Hi) as (Hl & _ & _ & _ & _ & Hli). unfold host_addr.
  destruct (Z.eq_dec i 0) as [->|Hi0].
  - change (left 0) with len in *. change (left (0 + 1)) with (Z.max 0 (rest - PAGE_SIZE * 0)) in Ht.
    rewrite (proj2 (Z.ltb_lt _ _)) by lia. unfold prp_at. simpl. lia.
  - assert (left i = rest - PAGE_SIZE * (i - 1)) as Hle.
    { specialize (Hli ltac:(lia)). unfold left_after in *.
      destruct (Z.eqb_spec i 0); [lia|]. lia. }
    assert (t < first + PAGE_SIZE * i) as Ht2.
    { unfold left_after in Ht at 2. destruct (Z.eqb_spec (i + 1) 0); [lia|].
      replace (i + 1 - 1) with i in Ht by lia. lia. }
    rewrite Hle in *. rewrite (proj2 (Z.ltb_ge _ _)) by (unfold PAGE_SIZE in *; lia).
    unfold PAGE_SIZE in *.
    replace ((t - first) / 4096) with (i - 1) by (clear -Ht Ht2 Hfl; dlia).
    replace ((t - first) mod 4096) with (t - first - 4096 * (i - 1)) by (clear -Ht Ht2 Hfl; dlia).
    replace (1 + (i - 1)) with i by lia. lia.
Qed.

(** One copy of [n] contiguous bytes extends the transfer. *)
Definition copy_bytes (p off n : Z) (m : mem) : mem :=
  if is_write cmd then memcpy (B + off) p n m
  else if is_read cmd then memcpy p (B + off) n m else m.

Lemma memcpy_in dst src n m a : dst ≤ a < dst + n → memcpy dst src n m a = m (src + (a - dst)).
Proof.
  intros Ha. unfold memcpy. by rewrite (proj2 (Z.leb_le _ _)), (proj2 (Z.ltb_lt _ _)) by lia.
Qed.
Lemma memcpy_out dst src n m a : ¬ (dst ≤ a < dst + n) → memcpy dst src n m a = m a.
Proof.
  intros Ha. unfold memcpy.
  destruct (Z.leb_spec dst a), (Z.ltb_spec a (dst + n)); simpl; done || lia.
Qed.

Lemma transferred_step d n p m :
  transferred m0 cmd len B d m → 0 ≤ d → 0 ≤ n → d + n ≤ len →
  (∀ t, d ≤ t < d + n → haddr t = p + (t - d)) →
  transferred m0 cmd len B (d + n) (copy_bytes p d n m).
Proof.
  intros T Hd Hn Hle Hp. unfold transferred, copy_bytes in *.
  destruct (is_write cmd); [|destruct (is_read cmd); [|done]].
  - intros a. destruct (decide (B + d ≤ a < B + d + n)) as [Ha|Ha].
    + rewrite memcpy_in by lia. rewrite (decide_True (P := B ≤ a < _)) by lia.
      pose proof (Hp (a - B) ltac:(lia)) as Hpa.
      replace (p + (a - (B + d))) with (haddr (a - B)) by lia.
      rewrite T, decide_False; [done|].
      pose proof (tr_disjoint _ _ _ _ _ TR (a - B) ltac:(lia)). lia.
    + rewrite memcpy_out by lia. rewrite T.
      repeat case_decide; done || lia.
  - destruct T as [T1 T2].
    assert (∀ a, p ≤ a < p + n → a = haddr (d + (a - p))) as Hinv
      by (intros a Ha; rewrite Hp by lia; lia).
    split.
    + intros t Ht. destruct (decide (d ≤ t)) as [Hdt|Hdt].
      * rewrite Hp by lia. rewrite memcpy_in by lia.
        replace (B + d + (p + (t - d) - p)) with (B + t) by lia. apply T2.
        intros u Hu He. pose proof (tr_disjoint _ _ _ _ _ TR u ltac:(lia)). lia.
      * rewrite memcpy_out; [apply T1; lia|]. intros Hin.
        pose proof (Hinv _ Hin) as He.
        pose proof (tr_distinct _ _ _ _ _ TR t (d + (haddr t - p)) ltac:(lia) ltac:(lia) He). lia.
    + intros a Ha. rewrite memcpy_out.
      * apply T2. intros t Ht. apply Ha. lia.
      * intros Hin. apply (Ha (d + (a - p))); [lia|]. by apply Hinv.
Qed.

Lemma transferred_0 : transferred m0 cmd len B 0 m0.
Proof.
  unfold transferred. destruct (is_write cmd); [intros a; by rewrite decide_False by lia|].
  destruct (is_read cmd); [|done]. split; [intros t Ht; lia|done].
Qed.

(** The list of entries survives the copying. *)
Lemma transferred_list d m i :
  transferred m0 cmd len B d m → 0 ≤ d ≤ len → uses_list cmd len = true → 1 ≤ i < nr →
  read_u64 m (c_prp2 cmd + 8 * (i - 1)) = P i.
Proof.
  intros T Hd Hu Hi. unfold prp_at. rewrite Hu. destruct (Z.eqb_spec i 0); [lia|].
  unfold read_u64. f_equal. apply map_ext_in. intros a Ha%list_elem_of_In%elem_of_seqZ.
  pose proof (tr_list_apart _ _ _ _ _ TR (a - c_prp2 cmd) Hu ltac:(lia)) as [Ha1 Ha2].
  replace (c_prp2 cmd + (a - c_prp2 cmd)) with a in * by lia. unfold transferred in T.
  destruct (is_write cmd); [|destruct (is_read cmd); [|done]].
  - rewrite T, decide_False by lia. done.
  - apply T. intros t Ht. apply Ha2. lia.
Qed.

Lemma transferred_ext d m m' :
  (∀ a, m a = m' a) → transferred m0 cmd len B d m → transferred m0 cmd len B d m'.
Proof.
  unfold transferred. intros E T. destruct (is_write cmd); [|destruct (is_read cmd)].
  - intros a. by rewrite <- E.
  - destruct T as [T1 T2]. split; intros; rewrite <- E; auto.
  - intros a. by rewrite <- E.
Qed.

(** What is transferred completely is determined. *)
Lemma transferred_unique m m' :
  transferred m0 cmd len B len m → transferred m0 cmd len B len m' → ∀ a, m a = m' a.
Proof.
  unfold transferred. intros T T' a. destruct (is_write cmd); [by rewrite T, T'|].
  destruct (is_read cmd); [|by rewrite T, T'].
  destruct T as [T1 T2], T' as [T1' T2'].
  destruct (decide (Exists (λ t, a = haddr t) (seqZ 0 len))) as [E|E].
  - apply Exists_exists in E as (t & Ht%elem_of_seqZ & ->). rewrite T1, T1' by lia. done.
  - rewrite T2, T2'; [done|..]; intros t Ht ->; apply E, Exists_exists; exists t;
      (split; [apply elem_of_seqZ; lia|done]).
Qed.

(** The locals of the walk after [i] entries. *)
Definition list_offs (i : Z) : Z := if uses_list cmd len then Z.max 0 (i - 1) else 0.
Definition list_ptr (i : Z) : option Z :=
  if uses_list cmd len && (2 <=? i) then Some (c_prp2 cmd) else None.

Lemma wp_next_prp d m i :
  transferred m0 cmd len B d m → 0 ≤ d ≤ len → 0 ≤ i < nr →
  wp (next_prp pfn_valid cmd (i + 1) (left i) (list_offs i) (list_ptr i)) m
    (λ r m', m' = m ∧ r = (P i, list_offs (i + 1), list_ptr (i + 1))).
Proof.
  intros T Hd Hi. pose proof first_pos as (Hf & Hfl & Hr & Hfr).
  destruct (left_facts i Hi) as (Hl & _ & _ & _ & _ & Hli).
  unfold next_prp. destruct (Z.eqb_spec (i + 1) 1) as [E|E].
  { replace i with 0 by lia. wp_steps. split; [done|]. unfold list_offs, list_ptr.
    destruct (uses_list cmd len); done. }
  assert (uses_list cmd len = true → prp_list_addr pfn_valid (c_prp2 cmd) = c_prp2 cmd) as Haddr.
  { intros Hu. unfold prp_list_addr. rewrite (tr_list _ _ _ _ _ TR Hu). apply page_split. }
  assert (left i = rest - PAGE_SIZE * (i - 1)) as Hle.
  { specialize (Hli ltac:(lia)). unfold left_after in *. destruct (Z.eqb_spec i 0); [lia|]. lia. }
  destruct (Z.eqb_spec (i + 1) 2) as [E2|E2].
  - replace i with 1 in * by lia. rewrite Hle.
    replace (rest - PAGE_SIZE * (1 - 1)) with rest by lia.
    change (PAGE_SIZE <? rest) with (uses_list cmd len).
    pose proof (transferred_list d m 1 T Hd) as HP.
    unfold list_offs, list_ptr. destruct (uses_list cmd len) eqn:Hu; wp_steps; (split; [done|]).
    + rewrite (Haddr eq_refl). change (Z.max 0 (1 - 1)) with (1 - 1). by rewrite HP by lia.
    + unfold prp_at. by rewrite Hu.
  - assert (uses_list cmd len = true) as Hu.
    { unfold uses_list. apply Z.ltb_lt. unfold PAGE_SIZE in *. lia. }
    unfold list_offs, list_ptr. rewrite Hu. rewrite (proj2 (Z.leb_le 2 i)) by lia.
    cbn [andb]. wp_steps. apply (wp_deref _ _ (c_prp2 cmd)); [done|]. wp_steps. split; [done|].
    rewrite Z.max_r by lia. rewrite (transferred_list d m i T Hd Hu) by lia.
    rewrite (proj2 (Z.leb_le 2 (i + 1))) by lia. repeat f_equal. lia.
Qed.

Lemma prp_data_addr_ok i :
  0 ≤ i < nr → prp_data_addr pfn_valid (P i) (prp_mem_offs (P i)) = P i.
Proof.
  intros Hi. unfold prp_data_addr. rewrite (tr_valid _ _ _ _ _ TR i Hi).
  rewrite <- (page_split (P i)) at 3. unfold PRP_PFN. f_equal. unfold prp_mem_offs.
  by destruct (Z.eqb_spec (Z.land (P i) PAGE_OFFSET_MASK) 0).
Qed.

(** The range of an entry, as one copy. *)
Lemma transferred_entry i m :
  0 ≤ i < nr → transferred m0 cmd len B (len - left i) m →
  transferred m0 cmd len B (len - left (i + 1))
    (copy_bytes (P i) (len - left i) (prp_io_size (P i) (left i)) m).
Proof.
  intros Hi T. destruct (left_facts i Hi) as (Hl & Hn & Hp & Hlt & Heq & _).
  assert (0 ≤ left (i + 1)) as Hnn.
  { destruct (Z.eq_dec (i + 1) nr); [rewrite Heq by done; lia|]. specialize (Hlt ltac:(lia)). lia. }
  replace (len - left (i + 1)) with (len - left i + prp_io_size (P i) (left i)) by lia.
  apply transferred_step; try done; try lia.
  intros t Ht. apply host_addr_entry; [done|]. lia.
Qed.
End transfer.

Lemma left_measure m0 cmd len pfn_valid B i :
  transfer_ok m0 cmd len pfn_valid B → 0 ≤ i ≤ nr_prps cmd len →
  0 ≤ left_after cmd len i ≤ len ∧ (left_after cmd len i = 0 ↔ i = nr_prps cmd len).
Proof.
  intros TR Hi. destruct (first_pos _ _ _ _ _ TR) as (Hf & Hfl & Hr & _).
  pose proof (tr_len _ _ _ _ _ TR) as Hlen.
  destruct (Z.eq_dec i (nr_prps cmd len)) as [->|Hne].
  - unfold left_after, nr_prps, PAGE_SIZE in *.
    destruct (Z.eqb_spec (1 + (rest_len cmd len + (4096 - 1)) / 4096) 0); dlia.
  - pose proof (left_facts _ _ _ _ _ TR i ltac:(lia)) as (Hl & _). lia.
Qed.

(** The loop copies exactly the transfer. *)
Lemma wp_prp_copy pfn_valid m0 cmd mapped off len :
  transfer_ok m0 cmd len pfn_valid (mapped + off) →
  wp (prp_copy pfn_valid mapped cmd off len) m0
    (λ _ m, transferred m0 cmd len (mapped + off) len m).
Proof.
  intros TR. pose proof (tr_len _ _ _ _ _ TR) as Hlen. unfold prp_copy.
  apply (wp_while_ghost (λ i l m, 0 ≤ i ≤ nr_prps cmd len ∧
    l = CopyLocals (left_after cmd len i) (off + (len - left_after cmd len i)) i
          (list_offs cmd len i) (list_ptr cmd len i) ∧
    transferred m0 cmd len (mapped + off) (len - left_after cmd len i) m)
    (left_after cmd len) _ _ 0).
  - change (left_after cmd len 0) with len. rewrite Z.sub_diag. split_and!.
    + done.
    + unfold nr_prps, PAGE_SIZE. destruct (first_pos _ _ _ _ _ TR) as (_ & _ & ? & _). dlia.
    + unfold list_offs, list_ptr. destruct (uses_list cmd len); by rewrite Z.add_0_r.
    + apply transferred_0.
  - change (left_after cmd len 0) with len. lia.
  - intros i l m (Hi & -> & T). destruct (left_measure _ _ _ _ _ i TR Hi) as [Hl0 Hl1].
    split; [lia|]. cbn [cl_remaining cl_offset cl_prp_offs cl_prp2_offs cl_paddr_list].
    destruct (Z.eqb_spec (left_after cmd len i) 0) as [E|E].
    { wp_steps. by rewrite E, Z.sub_0_r in T. }
    assert (0 ≤ i < nr_prps cmd len) as Hi' by lia.
    destruct (left_facts _ _ _ _ _ TR i Hi') as (_ & Hn & Hp & _).
    wp_step. eapply wp_mono; [by apply (wp_next_prp _ _ _ _ _ TR _ _ _ T); [lia|]|].
    intros r m' [-> ->]. rewrite (prp_data_addr_ok _ _ _ _ _ TR i Hi'). wp_step.
    eapply (wp_mono _ _ (λ _ m', m' = copy_bytes cmd (mapped + off) (prp_at m0 cmd len i)
      (len - left_after cmd len i) (prp_io_size (prp_at m0 cmd len i) (left_after cmd len i)) m)).
    { unfold copy_bytes. rewrite !Z.add_assoc. destruct (is_write cmd); [by wp_step|].
      destruct (is_read cmd); by wp_steps. }
    intros [] m' ->. wp_steps. exists (i + 1). rewrite <- Hn. split; [|lia].
    split_and!; [lia|lia| |by eapply transferred_entry].
    f_equal. lia.
Qed.

Section copies.
Context (c : ssd_config) (pfn_valid : Z → bool) (m0 : mem) (cmd : nvme_command).
#[local] Abbreviation len := (cmd_io_size c (c_rw cmd)).
#[local] Abbreviation off := (cmd_io_offset c (c_rw cmd)).

(** The CPU copies exactly the transfer. *)
Lemma wp_do_perform_io mapped :
  transfer_ok m0 cmd len pfn_valid (mapped + off) →
  wp (do_perform_io c pfn_valid mapped cmd) m0
    (λ r m, r = len ∧ transferred m0 cmd len (mapped + off) len m).
Proof.
  intros TR. pose proof (tr_len _ _ _ _ _ TR) as Hlen. unfold do_perform_io. wp_step.
  eapply wp_mono; [by apply wp_prp_copy|]. intros [] m T. wp_step.
  by rewrite u32_small by lia.
Qed.

(** ** The copy by DMA *)

Context (storage_start : Z).
#[local] Abbreviation B := (storage_start + off).
Context (TR : transfer_ok m0 cmd len pfn_valid B) (few : nr_prps cmd len ≤ 512).
#[local] Abbreviation nr := (nr_prps cmd len).
#[local] Abbreviation P := (prp_at m0 cmd len).
#[local] Abbreviation left := (left_after cmd len).
#[local] Abbreviation haddr := (host_addr m0 cmd len).

Lemma wp_dma_prp_list :
  wp (dma_prp_list pfn_valid cmd len) m0 (λ '(prps, n) m, m = m0 ∧ n = nr ∧
    ∀ i, 0 ≤ i < nr → aget prps (i + 1) = Some (P i)).
Proof.
  unfold dma_prp_list.
  apply (wp_while_ghost (λ i '(remaining, prp_offs, prp2_offs, tmp_list, prps) m, m = m0 ∧
    0 ≤ i ≤ nr ∧ remaining = left i ∧ prp_offs = i ∧ prp2_offs = list_offs cmd len i ∧
    tmp_list = list_ptr cmd len i ∧ alen prps = 513 ∧
    ∀ j, 0 ≤ j < i → aget prps (j + 1) = Some (P j)) left _ _ 0).
  - destruct (first_pos _ _ _ _ _ TR) as (_ & _ & ? & _).
    unfold list_offs, list_ptr. destruct (uses_list cmd len); split_and!; try done;
      first [intros; lia|unfold nr_prps, PAGE_SIZE; dlia].
  - change (left 0) with len. lia.
  - intros i [[[[remaining prp_offs] prp2_offs] tmp_list] prps] m
      (-> & Hi & -> & -> & -> & -> & Hlen & Hget).
    destruct (left_measure _ _ _ _ _ i TR Hi) as [Hl0 Hl1]. split; [lia|].
    destruct (Z.eqb_spec (left i) 0) as [E|E].
    { wp_steps. split_and!; [done|lia|]. intros j Hj. apply Hget. lia. }
    assert (0 ≤ i < nr) as Hi' by lia.
    destruct (left_facts _ _ _ _ _ TR i Hi') as (_ & Hn & Hp & _).
    wp_step. eapply wp_mono.
    { apply (wp_next_prp _ _ _ _ _ TR _ _ _ (transferred_0 _ _ _ _)); [lia|done]. }
    intros r m' [-> ->]. wp_step. apply wp_awrite; [lia|]. wp_step.
    exists (i + 1). rewrite <- Hn. split; [|lia]. split_and!; try done; try lia.
    + by rewrite alen_aset.
    + intros j Hj. rewrite aget_aset by lia. case_decide as Hd.
      * by replace j with i by lia.
      * apply Hget. lia.
Qed.

(** The entries [i .. j - 1] are contiguous and make up [ps] bytes. *)
Record contiguous (i j ps : Z) : Prop := {
  cg_range : 0 ≤ i < j ∧ j ≤ nr;
  cg_less : left j < left i;
  cg_size : Z.min (left i) ps = left i - left j;
  cg_addr t : len - left i ≤ t < len - left j → haddr t = P i + (t - (len - left i));
  cg_last : P (j - 1) = P i + (left i - left (j - 1));
}.

Lemma contiguous_one i : 0 ≤ i < nr → contiguous i (i + 1) (prp_io_size (P i) (left i)).
Proof.
  intros Hi. destruct (left_facts _ _ _ _ _ TR i Hi) as (Hl & Hn & Hp & _).
  destruct (left_measure _ _ _ _ _ (i + 1) TR ltac:(lia)) as [Hl' _].
  split.
  - lia.
  - lia.
  - lia.
  - intros t Ht. by apply (host_addr_entry _ _ _ _ _ TR).
  - replace (i + 1 - 1) with i by lia. lia.
Qed.

Lemma prp_io_size_aligned p n : p mod PAGE_SIZE = 0 → prp_io_size p n = Z.min n PAGE_SIZE.
Proof. intros Hp. unfold prp_io_size. by rewrite page_offset, Hp. Qed.

Lemma contiguous_more i j ps :
  contiguous i j ps → j < nr → P j = P (j - 1) + PAGE_SIZE → contiguous i (j + 1) (ps + PAGE_SIZE).
Proof.
  intros [C1 C0 C2 C3 C4] Hj HP.
  destruct (left_facts _ _ _ _ _ TR j ltac:(lia)) as (Hl & Hn & _).
  destruct (left_facts _ _ _ _ _ TR (j - 1) ltac:(lia)) as (Hl1 & Hn1 & Hp1 & _).
  destruct (left_measure _ _ _ _ _ (j + 1) TR ltac:(lia)) as [Hl' _].
  replace (j - 1 + 1) with j in Hn1 by lia.
  pose proof (tr_aligned _ _ _ _ _ TR j ltac:(lia)) as Ha.
  assert (P (j - 1) mod PAGE_SIZE = 0) as Ha1.
  { rewrite HP in Ha. revert Ha. generalize (P (j - 1)). unfold PAGE_SIZE. intros x. dlia. }
  rewrite (prp_io_size_aligned _ _ Ha) in Hn. rewrite (prp_io_size_aligned _ _ Ha1) in Hn1.
  assert (P j = P i + (left i - left j)) as HPj by lia.
  split.
  - lia.
  - unfold PAGE_SIZE in *. lia.
  - unfold PAGE_SIZE in *. lia.
  - intros t Ht. destruct (decide (t < len - left j)) as [Hlt|Hge]; [apply C3; lia|].
    rewrite (host_addr_entry _ _ _ _ _ TR j t) by lia. lia.
  - by replace (j + 1 - 1) with j by lia.
Qed.

Lemma wp_dma_extend prps i m :
  0 ≤ i < nr → (∀ j, 0 ≤ j < nr → aget prps (j + 1) = Some (P j)) →
  wp (dma_extend prps nr (i + 2) (prp_io_size (P i) (left i))) m
    (λ '(o, ps) m', m' = m ∧ contiguous i (o - 1) ps).
Proof.
  intros Hi Hget. unfold dma_extend.
  apply (wp_while (λ '(o, ps) m', m' = m ∧ contiguous i (o - 1) ps) (λ '(o, _), nr + 1 - o)).
  - split; [done|]. replace (i + 2 - 1) with (i + 1) by lia. by apply contiguous_one.
  - lia.
  - intros [o ps] m' [-> C]. destruct (cg_range _ _ _ C) as [C1 C2]. split; [lia|].
    destruct (Z.leb_spec o nr) as [Ho|Ho]; [|by wp_step].
    wp_step. apply (wp_aread _ _ (P (o - 1))).
    { replace o with (o - 1 + 1) at 1 by lia. apply Hget. lia. }
    wp_step. apply (wp_aread _ _ (P (o - 1 - 1))).
    { replace (o - 1) with (o - 1 - 1 + 1) at 1 by lia. apply Hget. lia. }
    pose proof (tr_range _ _ _ _ _ TR (o - 1 - 1) ltac:(lia)) as Hr.
    rewrite u64_small by (unfold PAGE_SIZE; lia).
    destruct (Z.eqb_spec (P (o - 1)) (P (o - 1 - 1) + PAGE_SIZE)) as [E|E]; wp_step; [|done].
    split; [|lia]. split; [done|]. replace (o + 1 - 1) with (o - 1 + 1) by lia.
    apply contiguous_more; [done|lia|done].
Qed.

Context `{DC : !DmaCore} `{DL : !DmaLaws}.

(** So does an engine without errors, with fewer and larger copies. *)
Lemma wp_do_perform_io_using_dma s0 :
  dma_completes → dma_ready s0 →
  wp (do_perform_io_using_dma c pfn_valid storage_start cmd) (m0, s0)
    (λ r '(m, s), r = len ∧ dma_ready s ∧ transferred m0 cmd len B len m).
Proof.
  intros Hok Hs0. pose proof (tr_len _ _ _ _ _ TR) as Hlen. unfold do_perform_io_using_dma.
  wp_step. wp_step. simpl.
  eapply wp_mono; [apply wp_dma_prp_list|]. intros [prps n] m (-> & -> & Hget). wp_step.
  apply (wp_while_ghost (λ i '(remaining, offset, prp_offs) '(m, s), 0 ≤ i ≤ nr ∧ remaining = left i ∧
    offset = off + (len - left i) ∧ prp_offs = i + 1 ∧ dma_ready s ∧
    transferred m0 cmd len B (len - left i) m) left _ _ 0).
  - change (left 0) with len. rewrite Z.sub_diag, Z.add_0_r. split_and!; try done.
    + unfold nr_prps, PAGE_SIZE. destruct (first_pos _ _ _ _ _ TR) as (_ & _ & ? & _). dlia.
    + apply transferred_0.
  - change (left 0) with len. lia.
  - intros i [[remaining offset] prp_offs] [m s] (Hi & -> & -> & -> & Hs & T).
    destruct (left_measure _ _ _ _ _ i TR Hi) as [Hl0 Hl1]. split; [lia|].
    destruct (Z.eqb_spec (left i) 0) as [E|E].
    { wp_steps. rewrite u32_small by lia. split_and!; [done|done|]. by rewrite E, Z.sub_0_r in T. }
    assert (0 ≤ i < nr) as Hi' by lia. wp_step. apply (wp_aread _ _ (P i)); [by apply Hget|].
    wp_step. wp_step. simpl. replace (i + 1 + 1) with (i + 2) by lia.
    eapply wp_mono; [by apply wp_dma_extend|]. intros [o ps] m' [-> C].
    destruct (cg_range _ _ _ C) as [C1 C2]. pose proof (cg_size _ _ _ C) as Hsz. rewrite Hsz.
    destruct (left_measure _ _ _ _ _ (o - 1) TR ltac:(lia)) as [Hlo _].
    pose proof (cg_less _ _ _ C) as Hsh.
    wp_step. eapply (wp_mono _ _ (λ _ '(m', s'), dma_ready s' ∧
      ∀ a, m' a = copy_bytes cmd B (P i) (len - left i) (left i - left (o - 1)) m a)).
    { unfold copy_bytes. rewrite u32_small by lia. rewrite !Z.add_assoc.
      destruct (is_write cmd); [|destruct (is_read cmd); cbn [when]; [|by wp_step]]; wp_step;
        (eapply wp_mono; [by apply wp_ioat_dma_submit|]); intros r [m' s'] [Hr [[_ Hm]|[_ Hno]]];
        by wp_step. }
    intros [] [m' s'] [Hs' Hm']. wp_steps. exists (o - 1). split; [|lia].
    split_and!; [lia|lia|lia|lia|lia|done|].
    apply (transferred_ext _ _ _ _ _ _ _ (λ a, eq_sym (Hm' a))).
    replace (len - left (o - 1)) with (len - left i + (left i - left (o - 1))) by lia.
    apply (transferred_step _ _ _ _ _ TR); [done|lia|lia|lia|].
    intros t Ht. apply (cg_addr _ _ _ C). lia.
Qed.
End copies.

(** ** Copies that return

    Without any assumption on the pages the copy returns, provided the second PRP
    entry of a transfer of two entries covers the rest of it: otherwise the code
    would go on to a list it has not got. *)

Definition copy_safe (c : ssd_config) (cmd : nvme_command) : Prop :=
  let len := cmd_io_size c (c_rw cmd) in
  rest_len cmd len ≤ PAGE_SIZE → rest_len cmd len + c_prp2 cmd mod PAGE_SIZE ≤ PAGE_SIZE.

Lemma prp_io_size_bounds p n : 0 < n → 0 < prp_io_size p n ≤ n.
Proof.
  intros Hn. unfold prp_io_size. rewrite page_offset.
  pose proof (Z.mod_pos_bound p PAGE_SIZE ltac:(reflexivity)).
  destruct (Z.eqb_spec (p mod PAGE_SIZE) 0); cbn [negb andb]; [unfold PAGE_SIZE in *; lia|].
  destruct (Z.ltb_spec PAGE_SIZE (Z.min n PAGE_SIZE + p mod PAGE_SIZE)); unfold PAGE_SIZE in *; lia.
Qed.

Lemma prp_io_size_first cmd n :
  0 < n → n - prp_io_size (c_prp1 cmd) n = rest_len cmd n.
Proof.
  intros Hn. unfold prp_io_size, rest_len, first_len. rewrite page_offset.
  pose proof (Z.mod_pos_bound (c_prp1 cmd) PAGE_SIZE ltac:(reflexivity)).
  destruct (Z.eqb_spec (c_prp1 cmd mod PAGE_SIZE) 0); cbn [negb andb]; [unfold PAGE_SIZE in *; lia|].
  destruct (Z.ltb_spec PAGE_SIZE (Z.min n PAGE_SIZE + c_prp1 cmd mod PAGE_SIZE));
    unfold PAGE_SIZE in *; lia.
Qed.

Lemma prp_io_size_enough p n : n + p mod PAGE_SIZE ≤ PAGE_SIZE → prp_io_size p n = n.
Proof.
  intros Hp. unfold prp_io_size. rewrite page_offset.
  pose proof (Z.mod_pos_bound p PAGE_SIZE ltac:(reflexivity)).
  destruct (Z.eqb_spec (p mod PAGE_SIZE) 0); cbn [negb andb]; [unfold PAGE_SIZE in *; lia|].
  destruct (Z.ltb_spec PAGE_SIZE (Z.min n PAGE_SIZE + p mod PAGE_SIZE)); unfold PAGE_SIZE in *; lia.
Qed.

Lemma wp_do_perform_io_safe c pfn_valid mapped cmd m :
  copy_safe c cmd → wp (do_perform_io c pfn_valid mapped cmd) m (λ _ _, True).
Proof.
  intros Hs. unfold do_perform_io. set (len := cmd_io_size c (c_rw cmd)) in *.
  assert (0 ≤ len) as Hlen by apply u64_range. wp_step.
  apply (wp_while (λ l _, 0 ≤ cl_remaining l ≤ len ∧ 0 ≤ cl_prp_offs l ∧
    (cl_prp_offs l = 0 → cl_remaining l = len) ∧
    (cl_prp_offs l = 1 → cl_remaining l = rest_len cmd len) ∧
    (2 ≤ cl_prp_offs l → cl_remaining l = 0 ∨ is_Some (cl_paddr_list l))) cl_remaining).
  - simpl. split_and!; try lia.
  - simpl. lia.
  - intros [rem o k k2 lst] s. simpl. intros (Hr & Ho & H0 & H1 & H2). split; [lia|].
    destruct (Z.eqb_spec rem 0) as [E|E]; [by wp_steps|]. wp_step.
    apply (wp_mono _ _ (λ r _, (k = 0 → r.1.1 = c_prp1 cmd) ∧
      (k = 1 → rem ≤ PAGE_SIZE → r.1.1 = c_prp2 cmd) ∧
      (1 ≤ k → k = 1 ∧ rem ≤ PAGE_SIZE ∨ is_Some r.2))).
    { unfold next_prp. destruct (Z.eqb_spec (k + 1) 1); [wp_step; split_and!; simpl; intros; done || (exfalso; lia)|].
      destruct (Z.eqb_spec (k + 1) 2).
      - destruct (Z.ltb_spec PAGE_SIZE rem); wp_steps; split_and!; simpl; intros; solve [lia|eauto|exfalso; lia].
      - destruct H2 as [?|[l Hl]]; [lia|lia|]. wp_step. apply (wp_deref _ _ l); [done|].
        wp_steps. split_and!; simpl; intros; solve [rewrite Hl; eauto|exfalso; lia]. }
    intros [[p k2'] lst'] s' (P0 & P1 & P2). simpl in *. wp_step.
    apply (wp_mono _ _ (λ _ _, True)).
    { destruct (is_write cmd); [by wp_step|]. destruct (is_read cmd); by wp_steps. }
    intros [] s'' _. wp_step. simpl. pose proof (prp_io_size_bounds p rem ltac:(lia)) as Hb.
    split; [|lia]. split_and!; try lia.
    + intros Hk. rewrite P0, H0 by lia. apply prp_io_size_first. lia.
    + intros Hk. destruct (P2 ltac:(lia)) as [[-> Hp]|Hl]; [left|by right].
      specialize (H1 eq_refl). rewrite P1 by lia. rewrite prp_io_size_enough; [lia|].
      rewrite H1. apply Hs. fold len. lia.
Qed.
