(* ===== verification/Io.v ===== *)
(** * The I/O engine (src/io.c, the I/O part of src/main.c)

    The dispatcher takes commands from the submission queues, calls the command
    handler of the namespace and puts an item into the work queue of the worker in
    charge; the workers copy the data of each item and post its completion once the
    time computed by the handler has come.  The handler is the class [IoHandler],
    which the translation layers implement. *)

From Stdlib Require Import ZArith Lia.
From stdpp Require Import base numbers list gmap.
From S2P Require Import Prelude Config ChannelModel Nvme FdpLog WorkQueue Dma IoData.

#[local] Open Scope Z_scope.

Definition NR_MAX_IO_QUEUE : Z := 72.
Definition NR_SQE_PER_PAGE : Z := PAGE_SIZE / 64.
Definition NR_CQE_PER_PAGE : Z := PAGE_SIZE / 16.

(** ** Queues *)

Record nvmev_sq_stat : Type := SqStat {
  nr_dispatched : Z;
  nr_dispatch : Z;
  nr_in_flight : Z;
  max_nr_in_flight : Z;
  total_io : Z;
}.

Record nvmev_submission_queue : Type := SubmissionQueue {
  sq_cqid : Z;
  sq_queue_size : Z;
  sq_stat : nvmev_sq_stat;
  sq_sq : arr (arr nvme_command);
}.

Record nvme_completion : Type := Completion {
  cqe_result0 : Z;
  cqe_result1 : Z;
  cqe_sq_head : Z;
  cqe_sq_id : Z;
  cqe_command_id : Z;
  cqe_status : Z;
}.

Record nvmev_completion_queue : Type := CompletionQueue {
  cq_irq_vector : Z;
  cq_irq_enabled : bool;
  cq_interrupt_ready : bool;
  cq_queue_size : Z;
  cq_phase : Z;
  cq_cq_head : Z;
  cq_cq_tail : Z;
  cq_cq : arr (arr nvme_completion);
}.

(** Entry [e] of a queue that is an array of pages. *)
Definition page_entry {S A} (pages : arr (arr A)) (per_page e : Z) : M S A :=
  page ← aread pages (e / per_page);
  aread page (e mod per_page).
Definition set_page_entry {S A} (pages : arr (arr A)) (per_page e : Z) (x : A)
    : M S (arr (arr A)) :=
  page ← aread pages (e / per_page);
  page' ← awrite page (e mod per_page) x;
  awrite pages (e / per_page) page'.
Definition sq_entry {S} (sq : nvmev_submission_queue) (e : Z) : M S nvme_command :=
  page_entry (sq_sq sq) NR_SQE_PER_PAGE e.
Definition cq_entry {S} (cq : nvmev_completion_queue) (e : Z) : M S nvme_completion :=
  page_entry (cq_cq cq) NR_CQE_PER_PAGE e.

(** ** Command handlers *)

(** A call [schedule_internal_operation(sqid, nsecs_target, write_buffer, size)];
    buffers are numbered. *)
Record scheduled_op : Type := SchedOp {
  so_sqid : Z;
  so_nsecs_target : Z;
  so_write_buffer : Z;
  so_buffs_to_release : Z;
}.

(** The handler of a namespace with the state [F] of its translation layer.
    [proc_io_cmd ns cmd sqid start ret] returns what the C function returns and
    stores in [*ret], the command as it leaves it in the submission queue and the
    operations it schedules.  [release_buffer] is [buffer_release]; it is called
    only in builds with a CONV or ZNS namespace. *)
Class IoHandler (F : Type) : Type := {
  proc_io_cmd : Z → nvme_command → Z → Z → nvmev_result →
    M F (bool * nvmev_result * nvme_command * list scheduled_op);
  releases_buffers : bool;
  release_buffer : Z → Z → M F unit;
}.

(** ** The device *)

Record nvmev_dev (F : Type) : Type := NvmevDev {
  d_io_workers : arr nvmev_io_worker;
  d_nr_io_workers : Z;
  d_io_worker_turn : Z;
  d_sqes : arr (option nvmev_submission_queue);
  d_cqes : arr (option nvmev_completion_queue);
  d_mapped : arr Z;
  d_storage_start : Z;
  d_io_using_dma : bool;
  d_mem : mem;
  d_dma : dma_drv;
  d_ftl : F;
  d_irqs : list Z;
  d_ticks : Z;
  d_lticks : Z;
}.
Arguments NvmevDev {F} _ _ _ _ _ _ _ _ _ _ _ _ _ _.
Arguments d_io_workers {F} _.
Arguments d_nr_io_workers {F} _.
Arguments d_io_worker_turn {F} _.
Arguments d_sqes {F} _.
Arguments d_cqes {F} _.
Arguments d_mapped {F} _.
Arguments d_storage_start {F} _.
Arguments d_io_using_dma {F} _.
Arguments d_mem {F} _.
Arguments d_dma {F} _.
Arguments d_ftl {F} _.
Arguments d_irqs {F} _.
Arguments d_ticks {F} _.
Arguments d_lticks {F} _.

Section device.
Context {F : Type}.
Implicit Types (d : nvmev_dev F).

Definition set_io_workers (x : arr nvmev_io_worker) d : nvmev_dev F :=
  NvmevDev x (d_nr_io_workers d) (d_io_worker_turn d) (d_sqes d) (d_cqes d) (d_mapped d)
    (d_storage_start d) (d_io_using_dma d) (d_mem d) (d_dma d) (d_ftl d) (d_irqs d) (d_ticks d) (d_lticks d).
Definition set_turn (x : Z) d : nvmev_dev F :=
  NvmevDev (d_io_workers d) (d_nr_io_workers d) x (d_sqes d) (d_cqes d) (d_mapped d)
    (d_storage_start d) (d_io_using_dma d) (d_mem d) (d_dma d) (d_ftl d) (d_irqs d) (d_ticks d) (d_lticks d).
Definition set_sqes (x : arr (option nvmev_submission_queue)) d : nvmev_dev F :=
  NvmevDev (d_io_workers d) (d_nr_io_workers d) (d_io_worker_turn d) x (d_cqes d) (d_mapped d)
    (d_storage_start d) (d_io_using_dma d) (d_mem d) (d_dma d) (d_ftl d) (d_irqs d) (d_ticks d) (d_lticks d).
Definition set_cqes (x : arr (option nvmev_completion_queue)) d : nvmev_dev F :=
  NvmevDev (d_io_workers d) (d_nr_io_workers d) (d_io_worker_turn d) (d_sqes d) x (d_mapped d)
    (d_storage_start d) (d_io_using_dma d) (d_mem d) (d_dma d) (d_ftl d) (d_irqs d) (d_ticks d) (d_lticks d).
Definition set_mem (x : mem) d : nvmev_dev F :=
  NvmevDev (d_io_workers d) (d_nr_io_workers d) (d_io_worker_turn d) (d_sqes d) (d_cqes d) (d_mapped d)
    (d_storage_start d) (d_io_using_dma d) x (d_dma d) (d_ftl d) (d_irqs d) (d_ticks d) (d_lticks d).
Definition set_dma (x : dma_drv) d : nvmev_dev F :=
  NvmevDev (d_io_workers d) (d_nr_io_workers d) (d_io_worker_turn d) (d_sqes d) (d_cqes d) (d_mapped d)
    (d_storage_start d) (d_io_using_dma d) (d_mem d) x (d_ftl d) (d_irqs d) (d_ticks d) (d_lticks d).
Definition set_ftl (x : F) d : nvmev_dev F :=
  NvmevDev (d_io_workers d) (d_nr_io_workers d) (d_io_worker_turn d) (d_sqes d) (d_cqes d) (d_mapped d)
    (d_storage_start d) (d_io_using_dma d) (d_mem d) (d_dma d) x (d_irqs d) (d_ticks d) (d_lticks d).
Definition set_irqs (x : list Z) d : nvmev_dev F :=
  NvmevDev (d_io_workers d) (d_nr_io_workers d) (d_io_worker_turn d) (d_sqes d) (d_cqes d) (d_mapped d)
    (d_storage_start d) (d_io_using_dma d) (d_mem d) (d_dma d) (d_ftl d) x (d_ticks d) (d_lticks d).
Definition set_clocks (t l : Z) d : nvmev_dev F :=
  NvmevDev (d_io_workers d) (d_nr_io_workers d) (d_io_worker_turn d) (d_sqes d) (d_cqes d) (d_mapped d)
    (d_storage_start d) (d_io_using_dma d) (d_mem d) (d_dma d) (d_ftl d) (d_irqs d) t l.

Context `{CK : !Clock} `{LC : !LocalClock} `{IC : !IoConfig} `{HD : !IoHandler F} `{DC : !DmaCore}.
Context (c : ssd_config) (pfn_valid : Z → bool).

Definition read_wallclock : M (nvmev_dev F) Z := λ d,
  Ok (cpu_clock (d_ticks d), set_clocks (d_ticks d + 1) (d_lticks d) d).
Definition read_local_clock : M (nvmev_dev F) Z := λ d,
  Ok (local_clock (d_lticks d), set_clocks (d_ticks d) (d_lticks d + 1) d).

(** Runs [m] on worker [i]. *)
Definition on_worker {A} (i : Z) (m : M nvmev_io_worker A) : M (nvmev_dev F) A := λ d,
  match aget (d_io_workers d) i with
  | None => Fault OOPS
  | Some k =>
      match m k with
      | Ok (a, k') => Ok (a, set_io_workers (aset (d_io_workers d) i k') d)
      | Fault e => Fault e
      end
  end.

(** The pointers [nvmev_vdev->sqes[qid]] and [nvmev_vdev->cqes[qid]]. *)
Definition get_sq (qid : Z) : M (nvmev_dev F) (option nvmev_submission_queue) :=
  d ← get; aread (d_sqes d) qid.
Definition put_sq (qid : Z) (sq : nvmev_submission_queue) : M (nvmev_dev F) unit :=
  d ← get; a ← awrite (d_sqes d) qid (Some sq); put (set_sqes a d).
Definition get_cq (qid : Z) : M (nvmev_dev F) (option nvmev_completion_queue) :=
  d ← get; aread (d_cqes d) qid.
Definition put_cq (qid : Z) (cq : nvmev_completion_queue) : M (nvmev_dev F) unit :=
  d ← get; a ← awrite (d_cqes d) qid (Some cq); put (set_cqes a d).

(** ** The dispatcher *)

Definition get_io_worker (nr_io_workers sqid : Z) : Z := u32 (sqid - 1) mod nr_io_workers.

(** The worker and the item, or nothing if the work queue is full. *)
Definition allocate_work_queue_entry (sqid : Z) : M (nvmev_dev F) (option (Z * Z)) :=
  nr ← gets d_nr_io_workers;
  if nr =? 0 then throw OOPS
  else
    let io_worker_turn := get_io_worker nr sqid in
    o ← on_worker io_worker_turn take_free;
    match o with
    | None => mret None
    | Some e =>
        let t := u32 (io_worker_turn + 1) in
        modify (set_turn (if t =? nr then 0 else t)) ;;
        mret (Some (io_worker_turn, e))
    end.

(** The fields of an item for a command. *)
Definition fill_io_req (sqid cqid sq_entry command_id nsecs_start now : Z) (ret : nvmev_result)
    (w : nvmev_io_work) : nvmev_io_work :=
  IoWork sqid cqid sq_entry command_id nsecs_start (ret_nsecs_target ret) now false false
    (ret_status ret) (u32 (Z.land (ret_result ret) 0xFFFFFFFF)) (u32 (Z.shiftr (ret_result ret) 32))
    false (w_write_buffer w) (w_buffs_to_release w) NIL NIL.

(** [__enqueue_io_req] up to the memory barrier: the worker and the item. *)
Definition prepare_io_req (sqid cqid entry_id nsecs_start : Z) (ret : nvmev_result)
    : M (nvmev_dev F) (option (Z * Z)) :=
  o ← allocate_work_queue_entry sqid;
  match o with
  | None => mret None
  | Some (worker, entry) =>
      sq ← (o ← get_sq sqid; deref o);
      cmd ← sq_entry sq entry_id;
      now ← read_local_clock;
      on_worker worker
        (wq_upd entry (fill_io_req sqid cqid entry_id (c_command_id cmd) nsecs_start now ret)) ;;
      mret (Some (worker, entry))
  end.

Definition enqueue_io_req (sqid cqid entry_id nsecs_start : Z) (ret : nvmev_result)
    : M (nvmev_dev F) unit :=
  o ← prepare_io_req sqid cqid entry_id nsecs_start ret;
  match o with
  | None => mret tt
  | Some (worker, entry) => on_worker worker (insert_req_sorted entry (ret_nsecs_target ret))
  end.

(** The fields of an item for a release of buffer space. *)
Definition fill_internal (op : scheduled_op) (now : Z) (w : nvmev_io_work) : nvmev_io_work :=
  IoWork (so_sqid op) (w_cqid w) (w_sq_entry w) (w_command_id w) now (so_nsecs_target op) now
    true false (w_status w) (w_result0 w) (w_result1 w)
    true (so_write_buffer op) (so_buffs_to_release op) NIL NIL.

Definition prepare_internal (op : scheduled_op) : M (nvmev_dev F) (option (Z * Z)) :=
  o ← allocate_work_queue_entry (so_sqid op);
  match o with
  | None => mret None
  | Some (worker, entry) =>
      now ← read_local_clock;
      on_worker worker (wq_upd entry (fill_internal op now)) ;;
      mret (Some (worker, entry))
  end.

Definition schedule_internal_operation (op : scheduled_op) : M (nvmev_dev F) unit :=
  o ← prepare_internal op;
  match o with
  | None => mret tt
  | Some (worker, entry) => on_worker worker (insert_req_sorted entry (so_nsecs_target op))
  end.

Definition reclaim_completed_reqs : M (nvmev_dev F) unit :=
  nr ← gets d_nr_io_workers;
  for_range 0 nr (λ turn, on_worker turn reclaim_worker).

(** The call of the handler for a command: what it returned, the command it left in
    the queue, the operations to schedule, the completion queue and the start time. *)
Definition call_proc_io_cmd (sqid entry_id : Z)
    : M (nvmev_dev F) (bool * nvmev_result * nvme_command * list scheduled_op * Z * Z) :=
  sq ← (o ← get_sq sqid; deref o);
  nsecs_start ← read_wallclock;
  cmd ← sq_entry sq entry_id;
  let nsid := u32 (rw_nsid (c_rw cmd) - 1) in
  d ← get;
  _ ← aread (d_mapped d) nsid;
  '(ok, ret, cmd', ops) ←
    zoom d_ftl set_ftl
      (proc_io_cmd nsid cmd (u32 sqid) nsecs_start (Result NVME_SC_SUCCESS nsecs_start 0));
  pages ← set_page_entry (sq_sq sq) NR_SQE_PER_PAGE entry_id cmd';
  put_sq sqid (SubmissionQueue (sq_cqid sq) (sq_queue_size sq) (sq_stat sq) pages) ;;
  mret (ok, ret, cmd', ops, sq_cqid sq, nsecs_start).

(** One command; the size of its transfer, or nothing if the handler refused it. *)
Definition nvmev_proc_io (sqid entry_id : Z) : M (nvmev_dev F) (option Z) :=
  '(ok, ret, cmd', ops, cqid, nsecs_start) ← call_proc_io_cmd sqid entry_id;
  for_list ops schedule_internal_operation ;;
  if (ok : bool) then
    enqueue_io_req sqid cqid entry_id nsecs_start ret ;;
    reclaim_completed_reqs ;;
    mret (Some (cmd_io_size c (c_rw cmd')))
  else mret None.

Definition upd_stat (f : nvmev_sq_stat → nvmev_sq_stat) (qid : Z) : M (nvmev_dev F) unit :=
  sq ← (o ← get_sq qid; deref o);
  put_sq qid (SubmissionQueue (sq_cqid sq) (sq_queue_size sq) (f (sq_stat sq)) (sq_sq sq)).
Definition stat_dispatched (io_size : Z) (s : nvmev_sq_stat) : nvmev_sq_stat :=
  SqStat (u32 (nr_dispatched s + 1)) (nr_dispatch s) (u32 (nr_in_flight s + 1))
    (max_nr_in_flight s) (u64 (total_io s + io_size)).
Definition stat_dispatch (s : nvmev_sq_stat) : nvmev_sq_stat :=
  SqStat (nr_dispatched s) (u32 (nr_dispatch s + 1)) (nr_in_flight s)
    (u32 (Z.max (s32 (max_nr_in_flight s)) (s32 (nr_in_flight s)))) (total_io s).
Definition stat_completed (s : nvmev_sq_stat) : nvmev_sq_stat :=
  SqStat (nr_dispatched s) (nr_dispatch s) (u32 (nr_in_flight s - 1)) (max_nr_in_flight s) (total_io s).

Definition nvmev_proc_io_sq (sqid new_db old_db : Z) : M (nvmev_dev F) Z :=
  o ← get_sq sqid;
  match o with
  | None => mret old_db
  | Some sq =>
      let num_proc := if new_db - old_db <? 0 then new_db - old_db + sq_queue_size sq
                      else new_db - old_db in
      seq ← while_loop (num_proc + 1) (λ '(seq, entry),
        if seq <? num_proc then
          r ← nvmev_proc_io sqid entry;
          match r with
          | None => mret (inr seq)
          | Some io_size =>
              upd_stat (stat_dispatched io_size) sqid ;;
              mret (inl (seq + 1, if entry + 1 =? sq_queue_size sq then 0 else entry + 1))
          end
        else mret (inr seq)) (0, old_db);
      upd_stat stat_dispatch sqid ;;
      if sq_queue_size sq =? 0 then throw OOPS
      else mret (Z.rem (old_db + seq) (sq_queue_size sq))
  end.

(** The completions the host has consumed. *)
Definition nvmev_proc_io_cq (cqid new_db old_db : Z) : M (nvmev_dev F) unit :=
  cq ← (o ← get_cq cqid; deref o);
  while_loop (2 * (cq_queue_size cq + 2)) (λ i,
    if i =? new_db then mret (inr tt)
    else if cq_queue_size cq <=? i then mret (inl 0)
    else
      cq ← (o ← get_cq cqid; deref o);
      e ← cq_entry cq i;
      o ← get_sq (cqe_sq_id e);
      match o with
      | None => mret (inl (i + 1))
      | Some _ => upd_stat stat_completed (cqe_sq_id e) ;; mret (inl (i + 1))
      end) old_db ;;
  cq ← (o ← get_cq cqid; deref o);
  put_cq cqid (CompletionQueue (cq_irq_vector cq) (cq_irq_enabled cq) (cq_interrupt_ready cq)
    (cq_queue_size cq) (cq_phase cq) (cq_cq_head cq)
    (if new_db =? -1 then cq_queue_size cq - 1 else new_db - 1) (cq_cq cq)).

(** ** The workers *)

Definition fill_cq_result (w : nvmev_io_work) : M (nvmev_dev F) unit :=
  cq ← (o ← get_cq (w_cqid w); deref o);
  let cq_head := cq_cq_head cq in
  let cqe := Completion (w_result0 w) (w_result1 w) (u16 (w_sq_entry w)) (u16 (w_sqid w))
    (u16 (w_command_id w)) (u16 (Z.lor (cq_phase cq) (Z.shiftl (w_status w) 1))) in
  pages ← set_page_entry (cq_cq cq) NR_CQE_PER_PAGE cq_head cqe;
  let wrap := cq_head + 1 =? cq_queue_size cq in
  put_cq (w_cqid w) (CompletionQueue (cq_irq_vector cq) (cq_irq_enabled cq) true (cq_queue_size cq)
    (if wrap then (if cq_phase cq =? 0 then 1 else 0) else cq_phase cq)
    (if wrap then 0 else cq_head + 1) (cq_cq_tail cq) pages).

(** The copy of the data of the command at entry [entry_id] of queue [sqid]. *)
Definition perform_io (sqid entry_id : Z) : M (nvmev_dev F) unit :=
  sq ← (o ← get_sq sqid; deref o);
  cmd ← sq_entry sq entry_id;
  d ← get;
  if d_io_using_dma d then
    _ ← zoom (λ d, (d_mem d, d_dma d)) (λ '(m, s) d, set_dma s (set_mem m d))
      (do_perform_io_using_dma c pfn_valid (d_storage_start d) cmd);
    mret tt
  else
    mapped ← (if is_write cmd || is_read cmd
              then aread (d_mapped d) (u32 (rw_nsid (c_rw cmd) - 1)) else mret 0);
    _ ← zoom d_mem set_mem (do_perform_io c pfn_valid mapped cmd);
    mret tt.

(** The inner loop of a worker up to the step to the next item. *)
Definition io_worker_visit (id delta curr : Z) : M (nvmev_dev F) unit :=
  now ← read_local_clock;
  let curr_nsecs := u64 (now + delta) in
  on_worker id (modify (set_latest_nsecs curr_nsecs)) ;;
  w ← on_worker id (wq_get curr);
  if w_is_completed w then mret tt
  else
    when (negb (w_is_copied w))
      (when (negb (w_is_internal w)) (perform_io (w_sqid w) (w_sq_entry w)) ;;
       on_worker id (wq_upd curr set_copied)) ;;
    when (w_nsecs_target w <=? curr_nsecs)
      ((if w_is_internal w then
          when releases_buffers
            (zoom d_ftl set_ftl (release_buffer (w_write_buffer w) (w_buffs_to_release w)))
        else fill_cq_result w) ;;
       on_worker id (wq_upd curr set_completed)).

(** [curr = w->next] *)
Definition io_worker_next (id curr : Z) : M (nvmev_dev F) Z :=
  w ← on_worker id (wq_get curr);
  mret (w_next w).

(** One scan of the work queue that the dispatcher does not disturb. *)
Definition io_worker_scan (id delta : Z) : M (nvmev_dev F) unit :=
  d ← get;
  worker ← aread (d_io_workers d) id;
  while_loop (NR_MAX_PARALLEL_IO + 2) (λ curr,
    if curr =? NIL then mret (inr tt)
    else
      n ← (io_worker_visit id delta curr ;; io_worker_next id curr);
      mret (inl n)) (io_seq worker).

(** The interrupt of queue [qidx]. *)
Definition io_worker_irq (id qidx : Z) : M (nvmev_dev F) unit :=
  d ← get;
  if d_nr_io_workers d =? 0 then throw OOPS
  else if negb (id =? get_io_worker (d_nr_io_workers d) qidx) then mret tt
  else
    o ← get_cq qidx;
    match o with
    | None => mret tt
    | Some cq =>
        if negb (cq_irq_enabled cq) then mret tt
        else when (cq_interrupt_ready cq)
          (put_cq qidx (CompletionQueue (cq_irq_vector cq) (cq_irq_enabled cq) false
             (cq_queue_size cq) (cq_phase cq) (cq_cq_head cq) (cq_cq_tail cq) (cq_cq cq)) ;;
           modify (λ d, set_irqs (d_irqs d ++ [cq_irq_vector cq]) d))
    end.

(** One round of [nvmev_io_worker]. *)
Definition io_worker_round (id nr_cq : Z) : M (nvmev_dev F) unit :=
  wall ← read_wallclock;
  loc ← read_local_clock;
  io_worker_scan id (wall - loc) ;;
  for_range 1 (nr_cq + 1) (io_worker_irq id).

(** ** Doorbells (the I/O part of [nvmev_proc_dbs]) *)

Definition proc_sq_dbs (nr_sq : Z) (dbs old_dbs : arr Z) : M (nvmev_dev F) (arr Z * bool) :=
  let fix go (qids : list Z) (old_dbs : arr Z) (updated : bool) : M (nvmev_dev F) (arr Z * bool) :=
    match qids with
    | [] => mret (old_dbs, updated)
    | qid :: qids' =>
        o ← get_sq qid;
        match o with
        | None => go qids' old_dbs updated
        | Some _ =>
            new_db ← aread dbs (qid * 2);
            old_db ← aread old_dbs (qid * 2);
            if s32 new_db =? s32 old_db then go qids' old_dbs updated
            else
              db ← nvmev_proc_io_sq qid (s32 new_db) (s32 old_db);
              old' ← awrite old_dbs (qid * 2) (u32 db);
              go qids' old' true
        end
    end in
  go (seqZ 1 nr_sq) old_dbs false.

Definition proc_cq_dbs (nr_cq : Z) (dbs old_dbs : arr Z) : M (nvmev_dev F) (arr Z * bool) :=
  let fix go (qids : list Z) (old_dbs : arr Z) (updated : bool) : M (nvmev_dev F) (arr Z * bool) :=
    match qids with
    | [] => mret (old_dbs, updated)
    | qid :: qids' =>
        o ← get_cq qid;
        match o with
        | None => go qids' old_dbs updated
        | Some _ =>
            new_db ← aread dbs (qid * 2 + 1);
            old_db ← aread old_dbs (qid * 2 + 1);
            if s32 new_db =? s32 old_db then go qids' old_dbs updated
            else
              nvmev_proc_io_cq qid (s32 new_db) (s32 old_db) ;;
              old' ← awrite old_dbs (qid * 2 + 1) (u32 (s32 new_db));
              go qids' old' true
        end
    end in
  go (seqZ 1 nr_cq) old_dbs false.

(** ** Initialisation *)

Definition NVMEV_IO_WORKER_INIT : M (nvmev_dev F) unit :=
  d ← get;
  put (set_turn 0 (set_io_workers
    (abuild (d_nr_io_workers d) (init_worker 0) init_worker) d)).
End device.
