(* ===== verification/IoInv.v ===== *)
(** * Invariant of the I/O engine

    The dispatcher and the workers run concurrently and share the work queues
    without a lock.  A system state is the device, for each worker the place it has
    reached in its loop, the item the dispatcher has filled and not yet inserted,
    and two logs: the items put to work and the items finished.  A worker may stand
    at an item that was finished, returned to the free list and handed out again
    since it looked; the invariant says why this does no harm. *)

From Stdlib Require Import ZArith Lia Sorted.
From stdpp Require Import base numbers list gmap.
From S2P Require Import Prelude Config ChannelModel Nvme FdpLog WorkQueue Dma IoData Io.

#[local] Open Scope Z_scope.

(** Where a worker is: outside its scan, before the visit of an item, or after it. *)
Inductive cursor : Type :=
| Idle
| At (delta curr : Z)
| After (delta curr : Z).

(** A work item apart from its links and progress flags. *)
Definition ident (w : nvmev_io_work) : nvmev_io_work := set_flags false false (payload w).

(** The items of [l] that are not completed. *)
Definition pending (q : arr nvmev_io_work) (l : list Z) : list nvmev_io_work :=
  (λ i, ident (item q i)) <$> filter (λ i, w_is_completed (item q i) = false) l.

Lemma io_pending_app q l1 l2 : pending q (l1 ++ l2) = pending q l1 ++ pending q l2.
Proof. unfold pending. by rewrite filter_app, fmap_app. Qed.

Lemma pending_ext q q' l : (∀ i, i ∈ l → item q' i = item q i) → pending q' l = pending q l.
Proof.
  unfold pending. induction l as [|x l IH]; intros H; [done|].
  rewrite !filter_cons. rewrite (H x) by set_solver. specialize (IH ltac:(set_solver)).
  case_decide; [|done]. rewrite !fmap_cons, (H x), IH by set_solver. done.
Qed.

#[export] Instance pending_proper q : Proper ((≡ₚ) ==> (≡ₚ)) (pending q).
Proof. intros l l' H. unfold pending. by rewrite H. Qed.

Lemma pending_none q l : Forall (λ i, w_is_completed (item q i) = true) l → pending q l = [].
Proof.
  unfold pending. induction 1 as [|x l Hx _ IH]; [done|].
  rewrite filter_cons, decide_False; [done|]. by rewrite Hx.
Qed.

(** What a queued item refers to: [sqs] gives the size of each submission queue
    that exists, [cqs] the completion queues that exist. *)
Definition work_ok (sqs : Z → option Z) (cqs : Z → bool) (w : nvmev_io_work) : Prop :=
  w_is_completed w = false → w_is_internal w = false →
  cqs (w_cqid w) = true ∧ ∃ n, sqs (w_sqid w) = Some n ∧ 0 ≤ w_sq_entry w < n.

Definition cursor_ok (cu : cursor) (l : list Z) : Prop :=
  match cu with
  | Idle => True
  | At _ c => c = NIL ∨ c ∈ l
  | After _ c => c ∈ l
  end.

(** One worker: its lists, the item filled for it ([out], with its target time), its
    place and its logs. *)
Record wk_state `{!IoConfig} (sqs : Z → option Z) (cqs : Z → bool) (out : list (Z * Z))
    (cu : cursor) (st fi : list nvmev_io_work) (top : Z) (io fresh used : list Z)
    (k : nvmev_io_worker) : Prop := WkState {
  ws_wq : wq_inv top out.*1 io fresh used k;
  ws_out : Forall (λ '(e, t), nxt (work_queue k) e = Some NIL ∧ prv (work_queue k) e = Some NIL ∧
    due (work_queue k) e = t ∧
    (w_is_completed (item (work_queue k) e) = true → w_is_copied (item (work_queue k) e) = true)) out;
  ws_cursor : cursor_ok cu (out.*1 ++ io ++ used);
  ws_works : Forall (λ i, work_ok sqs cqs (item (work_queue k) i)) (out.*1 ++ io);
  ws_log : st ≡ₚ fi ++ pending (work_queue k) (out.*1 ++ io);
}.
Definition wk_inv `{!IoConfig} sqs cqs out cu st fi k : Prop :=
  ∃ top io fresh used, wk_state sqs cqs out cu st fi top io fresh used k.

Section worker.
Context `{IC : !IoConfig} (sqs : Z → option Z) (cqs : Z → bool).
Hypothesis nr_range : 2 ≤ NR_MAX_PARALLEL_IO < 2 ^ 31.
#[local] Abbreviation wk := (wk_inv sqs cqs).

Lemma wk_init id : wk [] Idle [] [] (init_worker id).
Proof.
  exists 0, [], (seqZ 0 NR_MAX_PARALLEL_IO), []. split; simpl; try done.
  by apply init_worker_inv.
Qed.

(** Taking and filling an item. *)
Definition fill_ok (fill : nvmev_io_work → nvmev_io_work) : Prop :=
  ∀ w, w_is_completed (fill w) = false ∧ w_next (fill w) = NIL ∧ w_prev (fill w) = NIL ∧
       work_ok sqs cqs (fill w).

Lemma wp_io_prepare cu st fi top io fresh used k :
  wk_state sqs cqs [] cu st fi top io fresh used k →
  wp take_free k (λ o k1, match o with
    | None => k1 = k ∧ Z.of_nat (length io) = NR_MAX_PARALLEL_IO - 1
    | Some e => ∀ fill, fill_ok fill →
        wp (wq_upd e fill) k1 (λ _ k2, ∃ w, item (work_queue k2) e = payload (fill w) ∧
          wk [(e, w_nsecs_target (fill w))] cu (st ++ [ident (fill w)]) fi k2)
    end).
Proof.
  intros [W _ Hcu Hok Hlog].
  eapply wp_mono; [by apply (wp_take_free nr_range _ _ _ _ _ _ W)|]. intros [e|] k1.
  2:{ intros [-> Hl]. split; [done|]. pose proof (wq_length nr_range _ _ _ _ _ _ W) as Hlen.
      rewrite length_app in Hl. simpl in Hlen. lia. }
  intros (fresh' & used' & Hfu & W1 & Hk1 & Hor) fill Hfill. simpl in W1, Hcu, Hok, Hlog.
  assert (work_queue k1 = work_queue k) as Hq by (rewrite Hk1; done).
  pose proof (wq_nodup _ _ _ _ _ _ W1) as Hnd. apply NoDup_cons in Hnd as [Hne _].
  destruct (wq_lookup _ _ _ _ _ _ e W1 ltac:(set_solver)) as (w & Hw & _).
  destruct (Hfill w) as (Hc & Hn & Hp & Hwork).
  pose proof (aget_inv _ _ _ Hw) as Hr.
  apply (wp_wq_upd _ _ _ w); [done|]. exists w. wsimpl. rewrite item_aset, decide_True by done.
  split; [done|]. exists top, io, fresh', used'.
  assert (∀ i, i ∈ io → item (aset (work_queue k1) e (fill w)) i = item (work_queue k) i) as Hio.
  { intros i Hi. rewrite item_aset, Hq by done. rewrite decide_False; [done|].
    intros ->. apply Hne. simpl. set_solver. }
  split; wsimpl; cbn [fmap list_fmap fst].
  - eapply wq_change; [done|exact W1|exact Hw|..]; intros Hin; exfalso; clear -Hin Hne; set_solver.
  - constructor; [|constructor]. rewrite nxt_aset, prv_aset, !decide_True by done. unfold due.
    rewrite item_aset, decide_True by done. rewrite Hn, Hp. split_and!; try done.
    change (w_is_completed (payload (fill w))) with (w_is_completed (fill w)). by rewrite Hc.
  - assert (∀ x, x ∈ io ++ used → x ∈ [e] ++ io ++ used') as Hsub.
    { intros x Hx. destruct Hor as [->| ->]; set_solver. }
    destruct cu as [|dl x|dl x]; simpl in *; [done|destruct Hcu; auto|auto].
  - constructor.
    + rewrite item_aset, decide_True by done. exact Hwork.
    + apply Forall_forall. intros i Hi. rewrite Hio by done. by apply (proj1 (Forall_forall _ _) Hok).
  - rewrite Hlog, (io_pending_app _ [e]), (pending_ext _ _ io Hio).
    unfold pending at 2. rewrite filter_cons, decide_True.
    + simpl. rewrite item_aset, decide_True by done. solve_Permutation.
    + rewrite item_aset, decide_True by done. apply Hc.
Qed.

Lemma cursor_ok_mono cu l l' : (∀ x, x ∈ l → x ∈ l') → cursor_ok cu l → cursor_ok cu l'.
Proof. intros H. destruct cu; simpl; naive_solver. Qed.

Lemma wp_wk_insert cu st fi k e t :
  wk [(e, t)] cu st fi k → wp (insert_req_sorted e t) k (λ _ k', wk [] cu st fi k').
Proof.
  intros (top & io & fresh & used & [W Hout Hcu Hok Hlog]). simpl in *.
  apply Forall_cons in Hout as [(Hn & Hp & Hd & Hc) _].
  eapply wp_mono; [by apply (wp_insert_wq nr_range _ _ _ _ _ _ _ _ W)|].
  intros [] k' (io1 & io2 & -> & W' & Fr). exists top, (io1 ++ e :: io2), fresh, used.
  assert (∀ i, item (work_queue k') i = item (work_queue k) i) as Hi by apply Fr.
  split; simpl; [done|constructor| | |].
  - eapply cursor_ok_mono; [|exact Hcu]. intros x Hx. clear -Hx. set_solver.
  - rewrite <- Permutation_middle. eapply Forall_impl; [exact Hok|]. intros i. by rewrite Hi.
  - rewrite Hlog, <- Permutation_middle. by rewrite (pending_ext _ _ _ (λ i _, Hi i)).
Qed.

Lemma wp_wk_reclaim out cu st fi k :
  wk out cu st fi k → wp reclaim_worker k (λ _ k', wk out cu st fi k').
Proof.
  intros (top & io & fresh & used & [W Hout Hcu Hok Hlog]).
  eapply wp_mono; [by apply (wp_reclaim_worker nr_range _ _ _ _ _ _ W)|].
  intros [] k' (l1 & l2 & -> & Hfin & _ & W' & Fr). exists top, l2, fresh, (used ++ l1).
  assert (∀ i, item (work_queue k') i = item (work_queue k) i) as Hi by apply Fr.
  split; [done| | | |].
  - apply Forall_forall. intros [e t] He. pose proof (proj1 (Forall_forall _ _) Hout _ He) as Ho.
    cbn beta iota in Ho. destruct (wf_out _ _ _ Fr e) as [H1 H2].
    { apply list_elem_of_fmap. by exists (e, t). }
    unfold due in *. by rewrite Hi, H1, H2.
  - eapply cursor_ok_mono; [|exact Hcu]. intros x Hx. clear -Hx. set_solver.
  - apply Forall_forall. intros i Hin. rewrite Hi. apply (proj1 (Forall_forall _ _) Hok).
    clear -Hin. set_solver.
  - rewrite Hlog. rewrite (pending_ext _ _ _ (λ i _, Hi i)), !io_pending_app.
    rewrite (pending_none _ l1); [done|].
    eapply Forall_impl; [exact Hfin|]. intros i Hf. unfold finished in Hf.
    apply andb_true_iff in Hf as [Hf _]. by apply andb_true_iff in Hf as [Hf _].
Qed.

Lemma wk_latest out cu st fi k t : wk out cu st fi k → wk out cu st fi (set_latest_nsecs t k).
Proof.
  intros (top & io & fresh & used & [W Hout Hcu Hok Hlog]).
  exists (Z.max top t), io, fresh, used. split; wsimpl; try done. by apply wq_set_latest.
Qed.

Lemma wk_begin out cu st fi k dl : wk out cu st fi k → wk out (At dl (io_seq k)) st fi k.
Proof.
  intros (top & io & fresh & used & [W Hout Hcu Hok Hlog]).
  exists top, io, fresh, used. split; try done. simpl. rewrite (wq_io_head _ _ _ _ _ _ W).
  destruct io as [|x io]; [by left|right]. simpl. clear. set_solver.
Qed.

Lemma wk_idle out cu st fi k : wk out cu st fi k → wk out Idle st fi k.
Proof. intros (top & io & fresh & used & []). by exists top, io, fresh, used. Qed.

(** The item at the cursor exists; if it is not completed it is in use. *)
Lemma wk_item out dl c st fi k :
  wk out (At dl c) st fi k → c ≠ NIL → ∃ w, aget (work_queue k) c = Some w ∧ work_ok sqs cqs w.
Proof.
  intros (top & io & fresh & used & [W Hout Hcu Hok Hlog]) Hc. destruct Hcu as [?|Hcu]; [done|].
  destruct (wq_lookup _ _ _ _ _ _ c W) as (w & Hw & Hp); [clear -Hcu; set_solver|].
  exists w. split; [done|]. rewrite app_assoc, elem_of_app in Hcu. destruct Hcu as [Hin|Hin].
  - pose proof (proj1 (Forall_forall _ _) Hok _ Hin) as H. cbn beta in H. rewrite <- Hp in H. exact H.
  - pose proof (proj1 (Forall_forall _ _) (wq_used _ _ _ _ _ _ W) _ Hin) as H. cbn beta in H.
    rewrite <- Hp in H. intros Hf. exfalso. change (w_is_completed w = true) in H. congruence.
Qed.

Lemma wk_visited out dl c st fi k : wk out (At dl c) st fi k → c ≠ NIL → wk out (After dl c) st fi k.
Proof.
  intros (top & io & fresh & used & [W Hout Hcu Hok Hlog]) Hc. exists top, io, fresh, used.
  split; try done. by destruct Hcu.
Qed.

Lemma nchain_next f l e x : nchain f l e → x ∈ l → ∃ y, f x = Some y ∧ (y = e ∨ y ∈ l).
Proof.
  induction l as [|z l IH]; [set_solver|]. intros [Hz Hl] [->|Hx]%elem_of_cons.
  - exists (default e (head l)). split; [done|]. destruct l; [by left|right; simpl; set_solver].
  - destruct (IH Hl Hx) as (y & Hy & [?|?]); exists y; [auto|split; [done|right; set_solver]].
Qed.

Lemma wk_next out dl c st fi k :
  wk out (After dl c) st fi k →
  ∃ w, aget (work_queue k) c = Some w ∧ wk out (At dl (w_next w)) st fi k.
Proof.
  intros (top & io & fresh & used & [W Hout Hcu Hok Hlog]). simpl in Hcu.
  destruct (wq_lookup _ _ _ _ _ _ c W) as (w & Hw & Hp); [clear -Hcu; set_solver|].
  exists w. split; [done|]. exists top, io, fresh, used. split; try done. simpl.
  assert (nxt (work_queue k) c = Some (w_next w)) as Hnx by (unfold nxt; by rewrite Hw).
  rewrite !elem_of_app in *. destruct Hcu as [Hin|[Hin|Hin]].
  - apply list_elem_of_fmap in Hin as ([e t] & -> & Hin).
    pose proof (proj1 (Forall_forall _ _) Hout _ Hin) as (H & _). left. simpl in *. congruence.
  - destruct (nchain_next _ _ _ _ (wq_io_next _ _ _ _ _ _ W) Hin) as (y & Hy & [?|?]);
      [left|right; right; left]; congruence.
  - pose proof (wq_free_next _ _ _ _ _ _ W) as Hfn. apply nchain_app in Hfn as [_ Hfn].
    destruct (nchain_next _ _ _ _ Hfn Hin) as (y & Hy & [?|?]);
      [left|right; right; right]; congruence.
Qed.

Lemma io_pending_cons q c l : pending q (c :: l) =
  (if w_is_completed (item q c) then [] else [ident (item q c)]) ++ pending q l.
Proof.
  unfold pending. rewrite filter_cons.
  destruct (w_is_completed (item q c)); [by rewrite decide_False|by rewrite decide_True].
Qed.

(** Progress of the item at the cursor. *)
Lemma wk_progress out dl c st fi k w w' :
  wk out (At dl c) st fi k → c ≠ NIL → aget (work_queue k) c = Some w →
  w_is_completed w = false → w' = set_flags true (w_is_completed w') w →
  wk out (At dl c) st (fi ++ if w_is_completed w' then [ident w] else [])
    (set_queue (aset (work_queue k) c w') k).
Proof.
  intros (top & io & fresh & used & [W Hout Hcu Hok Hlog]) Hc Hw Hcm Hw'.
  destruct Hcu as [?|Hcu]; [done|]. pose proof (aget_inv _ _ _ Hw) as Hr.
  pose proof (item_get _ _ _ Hw) as Hit.
  assert (c ∉ used) as Hnu.
  { intros Hin. pose proof (proj1 (Forall_forall _ _) (wq_used _ _ _ _ _ _ W) _ Hin) as H.
    cbn beta in H. rewrite Hit in H. change (w_is_completed w = true) in H. congruence. }
  rewrite app_assoc, elem_of_app in Hcu. destruct Hcu as [Hcu|?]; [|done].
  destruct (proj1 (elem_of_Permutation _ _) Hcu) as [l Hl].
  pose proof (wq_nodup _ _ _ _ _ _ W) as Hnd. rewrite app_assoc, NoDup_app in Hnd.
  destruct Hnd as (Hnd & _ & _). rewrite Hl in Hnd. apply NoDup_cons in Hnd as [Hcl _].
  assert (∀ i, i ∈ l → item (aset (work_queue k) c w') i = item (work_queue k) i) as Hother.
  { intros i Hi. rewrite item_aset by done. rewrite decide_False; [done|]. by intros ->. }
  assert (item (aset (work_queue k) c w') c = payload w') as Hitem
    by by rewrite item_aset, decide_True.
  exists top, io, fresh, used. split; wsimpl.
  - eapply wq_change; [done|exact W|exact Hw|..].
    + intros _. rewrite Hw'. done.
    + intros _ _. by rewrite Hw'.
    + done.
  - apply Forall_forall. intros [e t] He. pose proof (proj1 (Forall_forall _ _) Hout _ He) as Ho.
    cbn beta iota in Ho. unfold due in *. rewrite nxt_aset, prv_aset, item_aset by done.
    case_decide as E; [subst e|done]. destruct Ho as (Hn & Hp & Hd & _).
    unfold nxt, prv in *. rewrite Hw in Hn, Hp. rewrite Hit in Hd.
    rewrite Hw'. simpl in *. done.
  - right. clear -Hcu. set_solver.
  - rewrite Hl in *. apply Forall_cons in Hok as [Hokc Hok]. constructor.
    + rewrite Hitem. rewrite Hit in Hokc. rewrite Hw'. intros _ Hf. exact (Hokc Hcm Hf).
    + apply Forall_forall. intros i Hi. rewrite Hother by done. by apply (proj1 (Forall_forall _ _) Hok).
  - rewrite Hl in *. rewrite Hlog, !io_pending_cons, Hitem, Hit, (pending_ext _ _ _ Hother).
    change (w_is_completed (payload w)) with (w_is_completed w). rewrite Hcm.
    change (w_is_completed (payload w')) with (w_is_completed w').
    assert (ident (payload w') = ident w) as -> by by rewrite Hw'.
    destruct (w_is_completed w'); simpl; rewrite ?app_nil_r, <- ?app_assoc; done.
Qed.
End worker.
