(* ===== verification/IoSteps.v ===== *)
(** * Steps of the I/O engine

    The dispatcher's and the workers' actions as steps of a transition system, the
    completion rings, and the proof that the invariant holds in every state the
    system can reach, whatever the order of the steps. *)

From Stdlib Require Import ZArith Lia Sorted.
From stdpp Require Import base numbers list gmap.
From S2P Require Import Prelude Config ChannelModel Nvme FdpLog WorkQueue Dma IoData Io IoInv.

#[local] Open Scope Z_scope.

(** ** Arrays of pages *)

Definition page_get {A} (pages : arr (arr A)) (per e : Z) : option A :=
  aget pages (e / per) ≫= λ p, aget p (e mod per).

Lemma wp_page_entry {S A} (pages : arr (arr A)) per e x (s : S) Q :
  page_get pages per e = Some x → Q x s → wp (page_entry pages per e) s Q.
Proof.
  unfold page_get. intros Hx HQ. destruct (aget pages (e / per)) as [p|] eqn:Hp; [|done].
  unfold page_entry. wp_step. apply (wp_aread _ _ p); [done|]. by apply (wp_aread _ _ x).
Qed.

Lemma wp_set_page_entry {S A} (pages : arr (arr A)) per e x x0 (s : S) Q :
  0 < per → page_get pages per e = Some x0 →
  (∀ pages', (∀ j, page_get pages' per j = if decide (e = j) then Some x else page_get pages per j) →
    Q pages' s) →
  wp (set_page_entry pages per e x) s Q.
Proof.
  unfold page_get. intros Hper Hx HQ. destruct (aget pages (e / per)) as [p|] eqn:Hp; [|done].
  simpl in Hx. unfold set_page_entry. wp_step. apply (wp_aread _ _ p); [done|]. wp_step.
  apply wp_awrite; [by eapply aget_inv|]. apply wp_awrite; [by eapply aget_inv|].
  apply HQ. intros j. rewrite aget_aset by (by eapply aget_inv). case_decide as E1.
  - simpl. rewrite aget_aset by (by eapply aget_inv). case_decide as E2.
    + rewrite decide_True; [done|].
      rewrite (Z.div_mod e per), (Z.div_mod j per) by lia. by rewrite E1, E2.
    + rewrite decide_False; [|by intros ->]. by rewrite <- E1, Hp.
  - rewrite decide_False; [done|]. by intros ->.
Qed.

(** ** Completion rings

    [ring_ok cq l]: [l] are all completions posted to [cq], in order.  The ring
    holds the last of them, as many as it has slots, each in its slot and with the
    phase of its round. *)

Definition phase_at (size n : Z) : Z := if Z.even (n / size) then 1 else 0.

Definition completion_of (w : nvmev_io_work) (phase : Z) : nvme_completion :=
  Completion (w_result0 w) (w_result1 w) (u16 (w_sq_entry w)) (u16 (w_sqid w))
    (u16 (w_command_id w)) (u16 (Z.lor phase (Z.shiftl (w_status w) 1))).

Record ring_ok (cq : nvmev_completion_queue) (l : list nvmev_io_work) : Prop := {
  rg_size : 0 < cq_queue_size cq;
  rg_cover e : 0 ≤ e < cq_queue_size cq → is_Some (page_get (cq_cq cq) NR_CQE_PER_PAGE e);
  rg_head : cq_cq_head cq = Z.of_nat (length l) mod cq_queue_size cq;
  rg_phase : cq_phase cq = phase_at (cq_queue_size cq) (Z.of_nat (length l));
  rg_slots n w : l !! n = Some w → Z.of_nat (length l) - cq_queue_size cq ≤ Z.of_nat n →
    page_get (cq_cq cq) NR_CQE_PER_PAGE (Z.of_nat n mod cq_queue_size cq) =
    Some (completion_of w (phase_at (cq_queue_size cq) (Z.of_nat n)));
}.

Lemma ring_next n size :
  0 < size → 0 ≤ n →
  (n + 1) mod size = (if n mod size + 1 =? size then 0 else n mod size + 1) ∧
  phase_at size (n + 1) =
    (if n mod size + 1 =? size then (if phase_at size n =? 0 then 1 else 0) else phase_at size n).
Proof.
  intros Hs Hn. pose proof (Z.mod_pos_bound n size Hs) as Hm.
  pose proof (Z.div_mod n size ltac:(lia)) as Hd. unfold phase_at.
  destruct (Z.eqb_spec (n mod size + 1) size) as [E|E].
  - assert ((n + 1) / size = n / size + 1) as ->
      by (symmetry; apply (Z.div_unique _ _ _ 0); nia).
    split; [symmetry; apply (Z.mod_unique _ _ (n / size + 1)); nia|].
    rewrite Z.add_1_r, Z.even_succ, <- Z.negb_even. by destruct (Z.even (n / size)).
  - assert ((n + 1) / size = n / size) as ->
      by (symmetry; apply (Z.div_unique _ _ _ (n mod size + 1)); nia).
    split; [symmetry; apply (Z.mod_unique _ _ (n / size)); nia|done].
Qed.

(** Two positions less than a round apart are in different slots. *)
Lemma ring_slots_differ n k size :
  0 < size → 0 ≤ n < k → k - size < n → n mod size ≠ k mod size.
Proof.
  intros Hs Hn Hk E. pose proof (Z.div_mod n size ltac:(lia)). pose proof (Z.div_mod k size ltac:(lia)).
  assert (n / size = k / size ∨ n / size + 1 ≤ k / size) as [Hq|Hq].
  { pose proof (Z.div_le_mono n k size Hs ltac:(lia)). lia. }
  - rewrite Hq in *. nia.
  - nia.
Qed.

(** ** Systems *)

Record io_sys (F : Type) : Type := IoSys {
  y_dev : nvmev_dev F;
  y_cursors : Z → cursor;
  (* the item filled and not yet inserted: its worker, its index, its target *)
  y_disp : option (Z * Z * Z);
  (* worker and item *)
  y_started : list (Z * nvmev_io_work);
  (* worker, item and the time the worker had read *)
  y_finished : list (Z * nvmev_io_work * Z);
}.
Arguments IoSys {F} _ _ _ _ _.
Arguments y_dev {F} _.
Arguments y_cursors {F} _ _.
Arguments y_disp {F} _.
Arguments y_started {F} _.
Arguments y_finished {F} _.

Definition out_of (disp : option (Z * Z * Z)) (i : Z) : list (Z * Z) :=
  match disp with
  | Some (j, e, t) => if decide (j = i) then [(e, t)] else []
  | None => []
  end.
Definition started_of (i : Z) (l : list (Z * nvmev_io_work)) : list nvmev_io_work :=
  (filter (λ x, x.1 = i) l).*2.
Definition finished_of (i : Z) (l : list (Z * nvmev_io_work * Z)) : list nvmev_io_work :=
  (filter (λ x, x.1.1 = i) l).*1.*2.
(** The completions of commands posted to queue [q], in order. *)
Definition posted_to (q : Z) (l : list (Z * nvmev_io_work * Z)) : list nvmev_io_work :=
  filter (λ w, w_is_internal w = false ∧ w_cqid w = q) l.*1.*2.
Definition set_cursor (f : Z → cursor) (i : Z) (cu : cursor) : Z → cursor :=
  λ j, if decide (j = i) then cu else f j.

Lemma started_snoc i j w l :
  started_of i (l ++ [(j, w)]) = started_of i l ++ if decide (j = i) then [w] else [].
Proof.
  unfold started_of. rewrite filter_app, fmap_app. f_equal.
  rewrite filter_cons. simpl. by repeat case_decide.
Qed.
Lemma finished_snoc i j w t l :
  finished_of i (l ++ [(j, w, t)]) = finished_of i l ++ if decide (j = i) then [w] else [].
Proof.
  unfold finished_of. rewrite filter_app, !fmap_app. f_equal.
  rewrite filter_cons. simpl. by repeat case_decide.
Qed.
Lemma posted_snoc q j w t l :
  posted_to q (l ++ [(j, w, t)]) =
  posted_to q l ++ if decide (w_is_internal w = false ∧ w_cqid w = q) then [w] else [].
Proof.
  unfold posted_to. by rewrite !fmap_app, filter_app.
Qed.

Section sys.
Context {F : Type} `{CK : !Clock} `{LC : !LocalClock} `{IC : !IoConfig} `{HD : !IoHandler F}
  `{DC : !DmaCore}.
Context (c : ssd_config) (pfn_valid : Z → bool).
Hypothesis nr_range : 2 ≤ NR_MAX_PARALLEL_IO < 2 ^ 31.
Hypothesis release_returns : ∀ b n (f : F), wp (release_buffer b n) f (λ _ _, True).
Implicit Types (d : nvmev_dev F).

(** Posting appends to the ring. *)
Lemma wp_fill_cq_result d w cq :
  aget (d_cqes d) (w_cqid w) = Some (Some cq) → (∃ l, ring_ok cq l) →
  wp (fill_cq_result w) d (λ _ d', ∃ cq', d' = set_cqes (aset (d_cqes d) (w_cqid w) (Some cq')) d ∧
    ∀ l, ring_ok cq l → ring_ok cq' (l ++ [ident w])).
Proof.
  intros Hcq [l0 R0]. unfold fill_cq_result, get_cq. wp_step. wp_step. wp_step. wp_step.
  apply (wp_aread _ _ (Some cq)); [done|]. apply (wp_deref _ _ cq); [done|]. wp_step.
  destruct (rg_cover _ _ R0 (cq_cq_head cq)) as [x0 Hx0].
  { rewrite (rg_head _ _ R0). apply Z.mod_pos_bound, R0. }
  eapply (wp_set_page_entry _ _ _ _ x0); [done|done|]. intros pages Hpages.
  unfold put_cq. wp_step. wp_step. wp_step. apply wp_awrite; [by eapply aget_inv|]. wp_step.
  eexists. split; [done|]. intros l R.
  destruct (ring_next (Z.of_nat (length l)) (cq_queue_size cq) (rg_size _ _ R) ltac:(lia)) as [N1 N2].
  pose proof (rg_head _ _ R) as Hh.
  assert (Z.of_nat (length (l ++ [ident w])) = Z.of_nat (length l) + 1) as Hlen
    by (rewrite length_app; simpl; lia).
  split; cbn [cq_queue_size cq_cq_head cq_phase cq_cq]; rewrite ?Hlen.
  - apply R.
  - intros e He. rewrite Hpages. case_decide; [done|]. by apply R.
  - by rewrite N1, <- Hh.
  - by rewrite N2, <- (rg_phase _ _ R), <- Hh.
  - intros n w' Hn Hle. rewrite Hpages, Hh.
    apply lookup_snoc_Some in Hn as [[Hlt Hn]|[-> <-]].
    + rewrite decide_False.
      * apply (rg_slots _ _ R); [done|lia].
      * intros E. symmetry in E. revert E. apply ring_slots_differ; [apply R|lia|lia].
    + rewrite decide_True by done. by rewrite (rg_phase _ _ R).
Qed.

Definition sq_size d (q : Z) : option Z :=
  match aget (d_sqes d) q with Some (Some sq) => Some (sq_queue_size sq) | _ => None end.
Definition cq_here d (q : Z) : bool :=
  match aget (d_cqes d) q with Some (Some _) => true | _ => false end.

(** The submission queue of a finished request exists. *)
Definition from_queue d (w : nvmev_io_work) : Prop :=
  w_is_internal w = false → is_Some (sq_size d (w_sqid w)).

Lemma from_queue_ext d d' w : (∀ q, sq_size d' q = sq_size d q) → from_queue d w → from_queue d' w.
Proof. unfold from_queue. by intros ->. Qed.

(** A submission queue of the host: its entries are in its pages and hold commands
    whose copy is safe, for an existing namespace. *)
Record sq_ok d (sq : nvmev_submission_queue) : Prop := {
  sk_size : 0 < sq_queue_size sq;
  sk_entries e : 0 ≤ e < sq_queue_size sq → ∃ cmd,
    page_get (sq_sq sq) NR_SQE_PER_PAGE e = Some cmd ∧ copy_safe c cmd ∧
    0 ≤ u32 (rw_nsid (c_rw cmd) - 1) < alen (d_mapped d);
}.

Record sys_inv (y : io_sys F) : Prop := {
  si_nr : 0 < d_nr_io_workers (y_dev y) < 2 ^ 31;
  si_len : alen (d_io_workers (y_dev y)) = d_nr_io_workers (y_dev y);
  si_dma : d_io_using_dma (y_dev y) = false;
  si_disp i e t : y_disp y = Some (i, e, t) → 0 ≤ i < d_nr_io_workers (y_dev y);
  si_workers i : 0 ≤ i < d_nr_io_workers (y_dev y) → ∃ k, aget (d_io_workers (y_dev y)) i = Some k ∧
    wk_inv (sq_size (y_dev y)) (cq_here (y_dev y)) (out_of (y_disp y) i) (y_cursors y i)
      (started_of i (y_started y)) (finished_of i (y_finished y)) k;
  si_rings q cq : aget (d_cqes (y_dev y)) q = Some (Some cq) →
    ring_ok cq (posted_to q (y_finished y));
  si_sqs q sq : aget (d_sqes (y_dev y)) q = Some (Some sq) → sq_ok (y_dev y) sq;
  si_times : Forall (λ x, w_nsecs_target x.1.2 ≤ x.2) (y_finished y);
  si_posted : Forall (λ x, from_queue (y_dev y) x.1.2) (y_finished y);
}.

(** Devices that differ at most in worker [i], in memory, in the translation layer,
    in the completion queues and in the clocks. *)
Record same_but (i : Z) d d' : Prop := {
  sb_len : alen (d_io_workers d') = alen (d_io_workers d);
  sb_workers j : j ≠ i → aget (d_io_workers d') j = aget (d_io_workers d) j;
  sb_nr : d_nr_io_workers d' = d_nr_io_workers d;
  sb_dma : d_io_using_dma d' = d_io_using_dma d;
  sb_mapped : d_mapped d' = d_mapped d;
  sb_sqes : d_sqes d' = d_sqes d;
}.

Lemma same_but_refl i d : same_but i d d.
Proof. done. Qed.
Lemma same_but_trans i d1 d2 d3 : same_but i d1 d2 → same_but i d2 d3 → same_but i d1 d3.
Proof.
  intros [] []. split; try congruence. intros j Hj. by transitivity (aget (d_io_workers d2) j); auto.
Qed.

Lemma wp_on_worker {A} i (m : M nvmev_io_worker A) d k Q :
  aget (d_io_workers d) i = Some k →
  wp m k (λ a k', ∀ d', same_but i d d' → d_cqes d' = d_cqes d → aget (d_io_workers d') i = Some k' →
    Q a d') →
  wp (on_worker i m) d Q.
Proof.
  intros Hk. unfold wp, on_worker. rewrite Hk. destruct (m k) as [[a k']|]; [|done].
  intros HQ. apply HQ; [|done|].
  - split; try done; simpl; [by rewrite alen_aset|]. intros j Hj. by rewrite aget_aset_ne.
  - simpl. apply aget_aset_eq. by eapply aget_inv.
Qed.

Lemma wp_read_local_clock i d Q :
  (∀ n d', same_but i d d' → d_cqes d' = d_cqes d → d_io_workers d' = d_io_workers d →
    Q (local_clock n) d') →
  wp read_local_clock d Q.
Proof. intros HQ. by apply HQ. Qed.

Lemma wk_ext sqs sqs' cqs cqs' out cu st fi k :
  (∀ q, sqs q = sqs' q) → (∀ q, cqs q = cqs' q) →
  wk_inv sqs cqs out cu st fi k → wk_inv sqs' cqs' out cu st fi k.
Proof.
  intros H1 H2 (top & io & fresh & used & [W Ho Hc Hw Hl]). exists top, io, fresh, used.
  split; try done. eapply Forall_impl; [exact Hw|]. intros i Hi. unfold work_ok in *.
  intros Ha Hb. specialize (Hi Ha Hb). by rewrite <- H1, <- H2.
Qed.

Lemma sq_ok_ext d d' sq : d_mapped d' = d_mapped d → sq_ok d sq → sq_ok d' sq.
Proof. intros H [Hs He]. split; [done|]. by rewrite H. Qed.

(** An action that concerns worker [i] keeps the invariant if it keeps the
    worker's. *)
Lemma sys_update y i d' k' cu' disp' st' fi' :
  sys_inv y → 0 ≤ i < d_nr_io_workers (y_dev y) → same_but i (y_dev y) d' →
  (∀ q, cq_here d' q = cq_here (y_dev y) q) →
  aget (d_io_workers d') i = Some k' →
  wk_inv (sq_size (y_dev y)) (cq_here (y_dev y)) (out_of disp' i) cu' (started_of i st')
    (finished_of i fi') k' →
  (∀ j, j ≠ i → out_of disp' j = out_of (y_disp y) j ∧
    started_of j st' = started_of j (y_started y) ∧
    finished_of j fi' = finished_of j (y_finished y)) →
  (∀ j e t, disp' = Some (j, e, t) → 0 ≤ j < d_nr_io_workers (y_dev y)) →
  (∀ q cq, aget (d_cqes d') q = Some (Some cq) → ring_ok cq (posted_to q fi')) →
  Forall (λ x, w_nsecs_target x.1.2 ≤ x.2) fi' → Forall (λ x, from_queue (y_dev y) x.1.2) fi' →
  sys_inv (IoSys d' (set_cursor (y_cursors y) i cu') disp' st' fi').
Proof.
  intros [Y1 Y2 Y3 Y4 Y5 Y6 Y7 Y8 Y9] Hi [S1 S2 S3 S4 S5 S6] Hcq Hk' Hwk Hother Hdisp Hrings Htimes Hposted.
  assert (∀ q, sq_size d' q = sq_size (y_dev y) q) as Hsq by (intros q; unfold sq_size; by rewrite S6).
  split; simpl.
  - by rewrite S3.
  - by rewrite S1, S3.
  - by rewrite S4.
  - intros j e t Hd. rewrite S3. by eapply Hdisp.
  - intros j Hj. rewrite S3 in Hj. unfold set_cursor. case_decide as E.
    + subst j. exists k'. split; [done|]. by eapply wk_ext; [..|exact Hwk].
    + destruct (Y5 j Hj) as (k & Hk & Hw). exists k. rewrite S2 by done. split; [done|].
      destruct (Hother j E) as (-> & -> & ->). by eapply wk_ext; [..|exact Hw].
  - done.
  - intros q sq Hsq'. rewrite S6 in Hsq'. eapply sq_ok_ext; [exact S5|]. by eapply Y7.
  - done.
  - eapply Forall_impl; [exact Hposted|]. intros x. by apply from_queue_ext.
Qed.

Lemma sys_cursors_ext d cu cu' disp st fi :
  (∀ i, cu i = cu' i) → sys_inv (IoSys d cu disp st fi) → sys_inv (IoSys d cu' disp st fi).
Proof.
  intros H [Y1 Y2 Y3 Y4 Y5 Y6 Y7 Y8 Y9]. split; try done. intros i Hi. simpl. rewrite <- H. by apply Y5.
Qed.

(** The same for an action that leaves the cursors and the finished items alone. *)
Lemma sys_update_queue y i d' k' disp' st' :
  sys_inv y → 0 ≤ i < d_nr_io_workers (y_dev y) → same_but i (y_dev y) d' →
  d_cqes d' = d_cqes (y_dev y) → aget (d_io_workers d') i = Some k' →
  wk_inv (sq_size (y_dev y)) (cq_here (y_dev y)) (out_of disp' i) (y_cursors y i)
    (started_of i st') (finished_of i (y_finished y)) k' →
  (∀ j, j ≠ i → out_of disp' j = out_of (y_disp y) j ∧
    started_of j st' = started_of j (y_started y)) →
  (∀ j e t, disp' = Some (j, e, t) → j = i ∨ y_disp y = Some (j, e, t)) →
  sys_inv (IoSys d' (y_cursors y) disp' st' (y_finished y)).
Proof.
  intros Y Hi Hs Hcq Hk Hwk Hother Hdisp.
  apply (sys_cursors_ext _ (set_cursor (y_cursors y) i (y_cursors y i))).
  { intros j. unfold set_cursor. case_decide; by subst. }
  eapply sys_update; try done.
  - intros q. unfold cq_here. by rewrite Hcq.
  - intros j Hj. destruct (Hother j Hj). done.
  - intros j e t Hd. destruct (Hdisp _ _ _ Hd) as [->|Hd']; [done|]. by eapply (si_disp _ Y).
  - intros q cq Hq. rewrite Hcq in Hq. by apply (si_rings _ Y).
  - apply Y.
  - apply Y.
Qed.

Lemma get_io_worker_range nr sqid : 0 < nr → 0 ≤ get_io_worker nr sqid < nr.
Proof. intros Hn. by apply Z.mod_pos_bound. Qed.

(** Only a worker with all its items but one in use refuses an item. *)
Definition worker_full d (i : Z) : Prop :=
  ∃ k, aget (d_io_workers d) i = Some k ∧ nxt (work_queue k) (free_seq k) = Some NIL.

(** The states after an item was taken and filled, or refused. *)
Definition prepared (y : io_sys F) (d' : nvmev_dev F) (o : option (Z * Z)) (t : Z) : io_sys F :=
  match o with
  | None => IoSys d' (y_cursors y) None (y_started y) (y_finished y)
  | Some (i, e) =>
      IoSys d' (y_cursors y) (Some (i, e, t))
        (y_started y ++
         match aget (d_io_workers d') i with
         | Some k => [(i, ident (item (work_queue k) e))]
         | None => []
         end) (y_finished y)
  end.

Lemma wp_io_allocate y sqid (Q : option (Z * Z) → nvmev_dev F → Prop) :
  sys_inv y → y_disp y = None →
  (∀ d', worker_full (y_dev y) (get_io_worker (d_nr_io_workers (y_dev y)) sqid) →
    sys_inv (prepared y d' None 0) → same_but (-1) (y_dev y) d' →
    d_cqes d' = d_cqes (y_dev y) → Q None d') →
  (∀ i e d1, i = get_io_worker (d_nr_io_workers (y_dev y)) sqid →
    same_but i (y_dev y) d1 → d_cqes d1 = d_cqes (y_dev y) →
    (∀ fill t d2, fill_ok (sq_size (y_dev y)) (cq_here (y_dev y)) fill →
      (∀ w, w_nsecs_target (fill w) = t) → same_but i d1 d2 → d_cqes d2 = d_cqes d1 →
      d_io_workers d2 = d_io_workers d1 →
      wp (on_worker i (wq_upd e fill)) d2 (λ _ d3, same_but i (y_dev y) d3 ∧
        d_cqes d3 = d_cqes (y_dev y) ∧ sys_inv (prepared y d3 (Some (i, e)) t) ∧
        ∃ k w, aget (d_io_workers d3) i = Some k ∧ item (work_queue k) e = payload (fill w))) →
    Q (Some (i, e)) d1) →
  wp (allocate_work_queue_entry sqid) (y_dev y) Q.
Proof.
  intros Y Hdisp Hnone Hsome. unfold allocate_work_queue_entry. wp_step. wp_step.
  pose proof (si_nr _ Y) as Hnr. destruct (Z.eqb_spec (d_nr_io_workers (y_dev y)) 0); [lia|].
  set (i := get_io_worker (d_nr_io_workers (y_dev y)) sqid) in *.
  assert (0 ≤ i < d_nr_io_workers (y_dev y)) as Hi by (apply get_io_worker_range; lia).
  destruct (si_workers _ Y i Hi) as (k & Hk & top & io & fresh & used & W). wp_step.
  apply (wp_on_worker _ _ _ k); [done|]. rewrite Hdisp in W. simpl in W.
  eapply wp_mono; [by apply (wp_io_prepare _ _ nr_range _ _ _ _ _ _ _ _ W)|].
  intros [e|] k1.
  - intros Hfill d1 S1 C1 K1. wp_steps. apply Hsome; [done| |done|].
    { destruct S1. by split. }
    intros fill t d2 Hf Ht S2 C2 W2. apply (wp_on_worker _ _ _ k1).
    { rewrite W2. done. }
    eapply wp_mono; [by apply Hfill|]. intros [] k2 (w & Hitem & Hwk) d3 S3 C3 K3.
    assert (same_but i (y_dev y) d3) as S.
    { eapply same_but_trans; [exact S1|]. eapply same_but_trans; [|exact S3].
      destruct S2. by split. }
    split; [done|]. split; [by rewrite C3, C2|]. split; [|eauto]. unfold prepared. rewrite K3.
    eapply sys_update_queue; try done.
    + by rewrite C3, C2.
    + simpl. rewrite decide_True by done. rewrite Ht in Hwk. rewrite started_snoc, decide_True by done.
      rewrite Hitem. exact Hwk.
    + intros j Hj. simpl. rewrite Hdisp, started_snoc, !decide_False by done.
      by rewrite app_nil_r.
    + intros j e' t' [= <- <- <-]. by left.
  - intros [-> Hlen] d1 S1 C1 K1. wp_step. apply Hnone.
    + exists k. split; [done|]. destruct W as [W _ _ _ _].
      pose proof (wq_length nr_range _ _ _ _ _ _ W) as Hl. simpl in Hl.
      assert (length (fresh ++ used) = 1%nat) as Hfu by (rewrite length_app; lia).
      pose proof (wq_free_head _ _ _ _ _ _ W) as Hh. pose proof (wq_free_next _ _ _ _ _ _ W) as Hn.
      destruct (fresh ++ used) as [|x [|]]; [done| |done]. simpl in Hn. injection Hh as <-. by destruct Hn.
    + eapply sys_update_queue; try done.
      * simpl. by exists top, io, fresh, used.
      * intros j Hj. by rewrite Hdisp.
    + destruct S1. split; try done. intros j Hj. destruct (decide (j = i)) as [->|]; [|auto].
      by rewrite K1, Hk.
    + done.
Qed.

(** ** The actions keep the invariant *)

Lemma prepared_none y d' t : prepared y d' None t = prepared y d' None 0.
Proof. done. Qed.

Lemma wp_prepare_io y sqid cqid e start ret n :
  sys_inv y → y_disp y = None → sq_size (y_dev y) sqid = Some n → 0 ≤ e < n →
  cq_here (y_dev y) cqid = true →
  wp (prepare_io_req sqid cqid e start ret) (y_dev y) (λ o d',
    (∃ i, same_but i (y_dev y) d') ∧ d_cqes d' = d_cqes (y_dev y) ∧
    sys_inv (prepared y d' o (ret_nsecs_target ret)) ∧
    match o with
    | None => worker_full (y_dev y) (get_io_worker (d_nr_io_workers (y_dev y)) sqid)
    | Some (i, x) => i = get_io_worker (d_nr_io_workers (y_dev y)) sqid ∧
        ∃ k, aget (d_io_workers d') i = Some k ∧ w_sqid (item (work_queue k) x) = sqid ∧
          w_cqid (item (work_queue k) x) = cqid ∧ w_sq_entry (item (work_queue k) x) = e ∧
          w_nsecs_target (item (work_queue k) x) = ret_nsecs_target ret ∧
          w_status (item (work_queue k) x) = ret_status ret ∧
          w_is_internal (item (work_queue k) x) = false
    end).
Proof.
  intros Y Hdisp Hsq He Hcq. unfold prepare_io_req. wp_step.
  apply wp_io_allocate; [done|done| |].
  { intros d' Hfull Y' S C. wp_step. split_and!; [by exists (-1)|done|done|done]. }
  intros i x d1 Hi S1 C1 Hfill. unfold sq_size in Hsq.
  destruct (aget (d_sqes (y_dev y)) sqid) as [[sq|]|] eqn:Hs; [|done|done]. injection Hsq as Hn.
  wp_step. wp_step. unfold get_sq. wp_step. wp_step.
  apply (wp_aread _ _ (Some sq)); [by rewrite (sb_sqes _ _ _ S1)|].
  apply (wp_deref _ _ sq); [done|]. wp_step.
  destruct (sk_entries _ _ (si_sqs _ Y _ _ Hs) e ltac:(lia)) as (cmd & Hcmd & _).
  apply (wp_page_entry _ _ _ cmd); [done|]. wp_step.
  apply (wp_read_local_clock i). intros now d2 S2 C2 W2. wp_step.
  eapply wp_mono.
  { apply (Hfill _ (ret_nsecs_target ret)); [|done|done|done|done].
    intros w. split_and!; try done. intros _ _. split; [done|]. exists n. split; [|done]. unfold sq_size. simpl. by rewrite Hs, Hn. }
  intros [] d3 (S3 & C3 & Y3 & k & w & Hk & Hitem). wp_step. split_and!; [by exists i|done|done|done|].
  exists k. rewrite Hitem. done.
Qed.

Lemma wp_prepare_internal y op :
  sys_inv y → y_disp y = None →
  wp (prepare_internal op) (y_dev y) (λ o d',
    (∃ i, same_but i (y_dev y) d') ∧ d_cqes d' = d_cqes (y_dev y) ∧
    sys_inv (prepared y d' o (so_nsecs_target op)) ∧
    match o with
    | None => worker_full (y_dev y) (get_io_worker (d_nr_io_workers (y_dev y)) (so_sqid op))
    | Some (i, x) => ∃ k, aget (d_io_workers d') i = Some k ∧
        w_is_internal (item (work_queue k) x) = true
    end).
Proof.
  intros Y Hdisp. unfold prepare_internal. wp_step. apply wp_io_allocate; [done|done| |].
  { intros d' Hfull Y' S C. wp_step. split_and!; [by exists (-1)|done|done|done]. }
  intros i x d1 Hi S1 C1 Hfill. wp_step. apply (wp_read_local_clock i). intros now d2 S2 C2 W2.
  wp_step. eapply wp_mono.
  { apply (Hfill _ (so_nsecs_target op)); [|done|done|done|done]. intros w. by split_and!. }
  intros [] d3 (S3 & C3 & Y3 & k & w & Hk & Hitem). wp_step. split_and!; [by exists i|done|done|].
  exists k. by rewrite Hitem.
Qed.

Lemma wp_insert y i e t :
  sys_inv y → y_disp y = Some (i, e, t) →
  wp (on_worker i (insert_req_sorted e t)) (y_dev y) (λ _ d', same_but i (y_dev y) d' ∧
    d_cqes d' = d_cqes (y_dev y) ∧ sys_inv (IoSys d' (y_cursors y) None (y_started y) (y_finished y))).
Proof.
  intros Y Hdisp. pose proof (si_disp _ Y _ _ _ Hdisp) as Hi.
  destruct (si_workers _ Y i Hi) as (k & Hk & W). apply (wp_on_worker _ _ _ k); [done|].
  rewrite Hdisp in W. simpl in W. rewrite decide_True in W by done.
  eapply wp_mono; [by apply (wp_wk_insert _ _ nr_range _ _ _ _ _ _ W)|].
  intros [] k' W' d' S C K. split; [done|]. split; [done|]. eapply sys_update_queue; try done.
  intros j Hj. rewrite Hdisp. simpl. by rewrite decide_False.
Qed.

Lemma wp_reclaim y i :
  sys_inv y → 0 ≤ i < d_nr_io_workers (y_dev y) →
  wp (on_worker i reclaim_worker) (y_dev y) (λ _ d', same_but i (y_dev y) d' ∧
    d_cqes d' = d_cqes (y_dev y) ∧ sys_inv (IoSys d' (y_cursors y) (y_disp y) (y_started y) (y_finished y))).
Proof.
  intros Y Hi. destruct (si_workers _ Y i Hi) as (k & Hk & W).
  apply (wp_on_worker _ _ _ k); [done|].
  eapply wp_mono; [by apply (wp_wk_reclaim _ _ nr_range _ _ _ _ _ W)|].
  intros [] k' W' d' S C K. split; [done|]. split; [done|]. eapply sys_update_queue; try done.
  intros j e t Hd. by right.
Qed.

(** The data of an item that is not yet copied can be copied. *)
Lemma wp_perform_io i d sqid e n :
  sq_size d sqid = Some n → 0 ≤ e < n → (∀ q sq, aget (d_sqes d) q = Some (Some sq) → sq_ok d sq) →
  d_io_using_dma d = false →
  wp (perform_io c pfn_valid sqid e) d (λ _ d', same_but i d d' ∧ d_cqes d' = d_cqes d ∧
    d_io_workers d' = d_io_workers d).
Proof.
  intros Hn He Hsqs Hdma. unfold sq_size in Hn.
  destruct (aget (d_sqes d) sqid) as [[sq|]|] eqn:Hs; [|done|done]. injection Hn as Hn.
  destruct (sk_entries _ _ (Hsqs _ _ Hs) e ltac:(lia)) as (cmd & Hcmd & Hsafe & Hns).
  unfold perform_io, get_sq. wp_step. wp_step. wp_step. wp_step.
  apply (wp_aread _ _ (Some sq)); [done|]. apply (wp_deref _ _ sq); [done|]. wp_step.
  apply (wp_page_entry _ _ _ cmd); [done|]. wp_step. wp_step. rewrite Hdma. wp_step.
  apply (wp_mono _ _ (λ _ d', d' = d)).
  { destruct (is_write cmd || is_read cmd); [|by wp_step].
    destruct (aget_some (d_mapped d) _ Hns) as [mp Hmp]. by apply (wp_aread _ _ mp). }
  intros mapped d' ->. wp_step. wp_step.
  eapply wp_mono; [by apply wp_do_perform_io_safe|]. intros r m _. by wp_step.
Qed.

(** What a visit of item [x] by worker [i] finished. *)
Definition newly_finished d d' (i x : Z) : list (Z * nvmev_io_work * Z) :=
  match aget (d_io_workers d) i, aget (d_io_workers d') i with
  | Some k, Some k' =>
      if negb (w_is_completed (item (work_queue k) x)) && w_is_completed (item (work_queue k') x)
      then [(i, ident (item (work_queue k) x), latest_nsecs k')] else []
  | _, _ => []
  end.
Definition visited (y : io_sys F) d' (i dl x : Z) : io_sys F :=
  IoSys d' (set_cursor (y_cursors y) i (After dl x)) (y_disp y) (y_started y)
    (y_finished y ++ newly_finished (y_dev y) d' i x).

(** A visit of item [x] leaves the lists and the other items as they are. *)
Record touched (x : Z) (k k' : nvmev_io_worker) : Prop := {
  to_next j : nxt (work_queue k') j = nxt (work_queue k) j;
  to_item j : j ≠ x → item (work_queue k') j = item (work_queue k) j;
  to_ident : ident (item (work_queue k') x) = ident (item (work_queue k) x);
  to_head : io_seq k' = io_seq k;
}.

Lemma touched_set x k k' w w' :
  touched x k k' → aget (work_queue k') x = Some w → w_next w' = w_next w → ident w' = ident w →
  touched x k (set_queue (aset (work_queue k') x w') k').
Proof.
  intros [T1 T2 T3 T4] Hw Hn Hid. pose proof (aget_inv _ _ _ Hw) as Hr. split; wsimpl.
  - intros j. rewrite nxt_aset by done. case_decide; [|done]. subst j. rewrite <- T1. unfold nxt.
    rewrite Hw. simpl. congruence.
  - intros j Hj. rewrite item_aset, decide_False by done. by apply T2.
  - rewrite item_aset, decide_True by done. rewrite <- T3, (item_get _ _ _ Hw).
    change (ident (payload w')) with (ident w'). by change (ident (payload w)) with (ident w).
  - done.
Qed.

(** The item visited is completed unless it is not yet due at the time read. *)
Definition visit_effect d d' (i dl x : Z) : Prop :=
  ∃ k k', aget (d_io_workers d) i = Some k ∧ aget (d_io_workers d') i = Some k' ∧
    touched x k k' ∧ (∃ n, latest_nsecs k' = u64 (local_clock n + dl)) ∧
    (w_is_completed (item (work_queue k') x) = true ∨ latest_nsecs k' < due (work_queue k) x).

(** The state of a visit: worker [i] has become [k1], the item at the cursor [w1]. *)
Record visiting (y : io_sys F) (i dl x t : Z) (k : nvmev_io_worker) (w : nvmev_io_work)
    (w1 : nvmev_io_work) d1 (k1 : nvmev_io_worker) : Prop := {
  vi_same : same_but i (y_dev y) d1;
  vi_cqes : d_cqes d1 = d_cqes (y_dev y);
  vi_worker : aget (d_io_workers d1) i = Some k1;
  vi_latest : latest_nsecs k1 = t;
  vi_touched : touched x k k1;
  vi_time : ∃ n, t = u64 (local_clock n + dl);
  vi_old : aget (d_io_workers (y_dev y)) i = Some k ∧ aget (work_queue k) x = Some w;
  vi_item : aget (work_queue k1) x = Some w1 ∧ w1 = set_flags (w_is_copied w1) (w_is_completed w) w;
  vi_wk : wk_inv (sq_size (y_dev y)) (cq_here (y_dev y)) (out_of (y_disp y) i) (At dl x)
    (started_of i (y_started y)) (finished_of i (y_finished y)) k1;
}.

Lemma visiting_same y i dl x t k w w1 d1 d2 k1 :
  visiting y i dl x t k w w1 d1 k1 → same_but i d1 d2 → d_cqes d2 = d_cqes d1 →
  aget (d_io_workers d2) i = Some k1 → visiting y i dl x t k w w1 d2 k1.
Proof.
  intros [V1 V2 V3 V4 Vt Vn V5 V6 V7] S C K. split; try done.
  - by eapply same_but_trans.
  - congruence.
Qed.

(** A visit that does not finish the item. *)
Lemma visit_leaves y i dl x t k w w1 d1 k1 :
  sys_inv y → 0 ≤ i < d_nr_io_workers (y_dev y) → x ≠ NIL →
  visiting y i dl x t k w w1 d1 k1 → w_is_completed w = true ∨ t < w_nsecs_target w →
  sys_inv (visited y d1 i dl x) ∧ visit_effect (y_dev y) d1 i dl x.
Proof.
  intros Y Hi Hx [V1 V2 V3 V4 Vt Vn [V5 V5'] [V6 V6'] V7] Hc. split.
  2:{ exists k, k1. rewrite V4. split_and!; try done. unfold due.
      rewrite (item_get _ _ _ V5'), (item_get _ _ _ V6), V6'. exact Hc. }
  unfold visited, newly_finished. rewrite V5, V3.
  rewrite (item_get _ _ _ V5'), (item_get _ _ _ V6), V6'. cbn [payload set_links set_flags w_is_completed].
  rewrite andb_negb_l, app_nil_r. eapply sys_update; try done.
  - intros q. unfold cq_here. by rewrite V2.
  - by apply wk_visited.
  - intros j e t' Hd. by eapply (si_disp _ Y).
  - intros q cq Hq. rewrite V2 in Hq. by apply (si_rings _ Y).
  - apply Y.
  - apply Y.
Qed.

(** The effect of an item that is due: a release or a completion, which the ring of
    its queue receives. *)
Lemma wp_finish y i dl x t k w w1 d1 k1 :
  sys_inv y → x ≠ NIL → visiting y i dl x t k w w1 d1 k1 → w_is_completed w = false →
  wp (if w_is_internal w then
        when releases_buffers
          (zoom d_ftl set_ftl (release_buffer (w_write_buffer w) (w_buffs_to_release w)))
      else fill_cq_result w) d1
    (λ _ d2, same_but i d1 d2 ∧ d_io_workers d2 = d_io_workers d1 ∧
      (∀ q, cq_here d2 q = cq_here d1 q) ∧
      ∀ q cq, aget (d_cqes d2) q = Some (Some cq) →
        ring_ok cq (posted_to q (y_finished y ++ [(i, ident w, t)]))).
Proof.
  intros Y Hx [V1 V2 V3 V4 Vt Vn [V5 V5'] [V6 V6'] V7] Hcm.
  assert (∀ q cq, aget (d_cqes d1) q = Some (Some cq) → ring_ok cq (posted_to q (y_finished y)))
    as Hold by (intros q cq Hq; rewrite V2 in Hq; by apply (si_rings _ Y)).
  destruct (w_is_internal w) eqn:Hint.
  - assert (∀ q, posted_to q (y_finished y ++ [(i, ident w, t)]) = posted_to q (y_finished y)) as Hp.
    { intros q. rewrite posted_snoc, decide_False, app_nil_r; [done|]. intros [Hf _].
      change (w_is_internal w = false) in Hf. congruence. }
    wp_step; [|split_and!; try done; intros q cq; rewrite Hp; apply Hold].
    wp_step. eapply wp_mono; [apply release_returns|]. intros [] f _.
    split_and!; try done. intros q cq. rewrite Hp. apply Hold.
  - destruct (wk_item _ _ _ _ _ _ _ _ V7 Hx) as (w0 & Hw0 & Hok).
    assert (w0 = w1) as -> by congruence.
    assert (cq_here (y_dev y) (w_cqid w) = true) as Hhere.
    { destruct (Hok ltac:(rewrite V6'; exact Hcm) ltac:(rewrite V6'; exact Hint)) as [Hq _].
      rewrite V6' in Hq. exact Hq. }
    unfold cq_here in Hhere. rewrite <- V2 in Hhere.
    destruct (aget (d_cqes d1) (w_cqid w)) as [[cq|]|] eqn:Hcq; [|done|done].
    eapply wp_mono; [apply (wp_fill_cq_result _ _ cq); eauto|].
    intros [] d2 (cq' & -> & Hring). split_and!; try done.
    + intros q. unfold cq_here. simpl. rewrite aget_aset by (by eapply aget_inv).
      case_decide; [subst q; by rewrite Hcq|done].
    + intros q cq2. simpl. rewrite aget_aset by (by eapply aget_inv). rewrite posted_snoc.
      change (w_is_internal (ident w)) with (w_is_internal w).
      change (w_cqid (ident w)) with (w_cqid w). case_decide as Eq.
      * intros [= <-]. subst q. rewrite decide_True by done. apply Hring, Hold. done.
      * intros Hq. rewrite decide_False, app_nil_r by naive_solver. by apply Hold.
Qed.

(** A visit that finishes the item. *)
Lemma visit_finishes y i dl x t k w w1 d1 k1 :
  sys_inv y → 0 ≤ i < d_nr_io_workers (y_dev y) → x ≠ NIL →
  visiting y i dl x t k w w1 d1 k1 → w_is_completed w = false → w_is_copied w1 = true →
  w_nsecs_target w ≤ t →
  wp ((if w_is_internal w then
         when releases_buffers
           (zoom d_ftl set_ftl (release_buffer (w_write_buffer w) (w_buffs_to_release w)))
       else fill_cq_result w) ;;
      on_worker i (wq_upd x set_completed)) d1
    (λ _ d', same_but i (y_dev y) d' ∧ sys_inv (visited y d' i dl x) ∧
      visit_effect (y_dev y) d' i dl x).
Proof.
  intros Y Hi Hx V Hcm Hcp Ht. wp_step. eapply wp_mono; [by eapply wp_finish|].
  destruct V as [V1 V2 V3 V4 Vt Vn [V5 V5'] [V6 V6'] V7].
  intros [] d2 (S2 & W2 & C2 & R2). apply (wp_on_worker _ _ _ k1); [by rewrite W2|].
  apply (wp_wq_upd _ _ _ w1); [done|]. intros d' S' C' K'.
  pose proof (aget_inv _ _ _ V6) as Hr.
  split; [eapply same_but_trans; [exact V1|]; by eapply same_but_trans|]. split.
  2:{ exists k, (set_queue (aset (work_queue k1) x (set_completed w1)) k1). split_and!; try done.
      - by eapply touched_set.
      - wsimpl. by rewrite V4.
      - left. wsimpl. by rewrite item_aset, decide_True. }
  assert (ident w1 = ident w) as Hid by (rewrite V6'; done).
  assert (w_is_completed w1 = false) as Hcm1 by (rewrite V6'; done).
  unfold visited, newly_finished. rewrite V5, K'. wsimpl.
  rewrite item_aset, decide_True by done. rewrite (item_get _ _ _ V5').
  change (w_is_completed (payload w)) with (w_is_completed w). rewrite Hcm.
  change (w_is_completed (payload (set_completed w1))) with true. simpl.
  change (ident (payload w)) with (ident w). rewrite V4.
  eapply sys_update; try done.
  - eapply same_but_trans; [exact V1|]. by eapply same_but_trans.
  - intros q. transitivity (cq_here d2 q); [unfold cq_here; by rewrite C'|].
    rewrite C2. unfold cq_here. by rewrite V2.
  - rewrite finished_snoc, decide_True by done. apply wk_visited; [|done].
    pose proof (wk_progress _ _ nr_range _ _ _ _ _ _ _ (set_completed w1) V7 Hx V6 Hcm1) as Hp.
    rewrite <- Hid. apply Hp. unfold set_completed. by rewrite Hcp.
  - intros j Hj. by rewrite finished_snoc, decide_False, app_nil_r.
  - intros j e t' Hd. by eapply (si_disp _ Y).
  - intros q cq Hq. rewrite C' in Hq. by apply R2.
  - apply Forall_app. split; [apply Y|]. by constructor.
  - apply Forall_app. split; [apply Y|]. constructor; [|constructor]. intros Hint.
    destruct (wk_item _ _ _ _ _ _ _ _ V7 Hx) as (w0 & Hw0 & Hok).
    assert (w0 = w1) as -> by congruence. rewrite V6' in Hok.
    destruct (Hok Hcm Hint) as (_ & n & Hn & _). by exists n.
Qed.

(** The copy, if it is still to be done. *)
Lemma wp_copy_stage y i dl x t k w d2 k2 :
  sys_inv y → x ≠ NIL → visiting y i dl x t k w w d2 k2 → w_is_completed w = false →
  wp (when (negb (w_is_copied w))
        (when (negb (w_is_internal w)) (perform_io c pfn_valid (w_sqid w) (w_sq_entry w)) ;;
         on_worker i (wq_upd x set_copied))) d2
    (λ _ d3, ∃ w3 k3, visiting y i dl x t k w w3 d3 k3 ∧ w_is_copied w3 = true).
Proof.
  intros Y Hx V2 Hcm. destruct (vi_item _ _ _ _ _ _ _ _ _ _ V2) as [Hw _].
  destruct (wk_item _ _ _ _ _ _ _ _ (vi_wk _ _ _ _ _ _ _ _ _ _ V2) Hx) as (w0 & Hw0 & Hok).
  assert (w0 = w) as -> by congruence.
  wp_step; [|by exists w, k2; rewrite <- (negb_involutive (w_is_copied w)), H].
  bool_prop. wp_step. apply (wp_mono _ _ (λ _ d3, visiting y i dl x t k w w d3 k2)).
  - wp_step; [|done]. bool_prop. destruct (Hok Hcm ltac:(done)) as (_ & n & Hn & He).
    eapply wp_mono; [apply (wp_perform_io i _ _ _ n); [|done| |]|].
    + unfold sq_size in *. by rewrite (sb_sqes _ _ _ (vi_same _ _ _ _ _ _ _ _ _ _ V2)).
    + intros q sq. rewrite (sb_sqes _ _ _ (vi_same _ _ _ _ _ _ _ _ _ _ V2)). intros Hq.
      eapply sq_ok_ext; [apply (vi_same _ _ _ _ _ _ _ _ _ _ V2)|]. by eapply (si_sqs _ Y).
    + rewrite (sb_dma _ _ _ (vi_same _ _ _ _ _ _ _ _ _ _ V2)). apply Y.
    + intros [] d3 (S3 & C3 & W3). eapply visiting_same; [exact V2|done|done|].
      rewrite W3. apply V2.
  - intros [] d3 V3. apply (wp_on_worker _ _ _ k2); [apply V3|].
    apply (wp_wq_upd _ _ _ w); [done|]. intros d4 S4 C4 K4.
    exists (set_copied w), (set_queue (aset (work_queue k2) x (set_copied w)) k2).
    split; [|done]. pose proof (aget_inv _ _ _ Hw) as Hr.
    destruct V3 as [A1 A2 A3 A4 Ato An A5 A6 A7]. split; try done.
    + by eapply same_but_trans.
    + congruence.
    + by eapply touched_set.
    + wsimpl. rewrite aget_aset_eq by done. done.
    + pose proof (wk_progress _ _ nr_range _ _ _ _ _ _ _ (set_copied w) A7 Hx Hw Hcm eq_refl) as Hp.
      change (w_is_completed (set_copied w)) with (w_is_completed w) in Hp.
      rewrite Hcm, app_nil_r in Hp. exact Hp.
Qed.

Lemma wp_visit y i dl x :
  sys_inv y → 0 ≤ i < d_nr_io_workers (y_dev y) → y_cursors y i = At dl x → x ≠ NIL →
  wp (io_worker_visit c pfn_valid i dl x) (y_dev y)
    (λ _ d', same_but i (y_dev y) d' ∧ sys_inv (visited y d' i dl x) ∧
      visit_effect (y_dev y) d' i dl x).
Proof.
  intros Y Hi Hcu Hx. destruct (si_workers _ Y i Hi) as (k & Hk & W). rewrite Hcu in W.
  destruct (wk_item _ _ _ _ _ _ _ _ W Hx) as (w & Hw & Hok).
  unfold io_worker_visit. wp_step. apply (wp_read_local_clock i). intros now d0 S0 C0 W0.
  set (t := u64 (local_clock now + dl)). wp_step. apply (wp_on_worker _ _ _ k); [by rewrite W0|]. wp_step.
  intros d1 S1 C1 K1. wp_step.
  assert (visiting y i dl x t k w w d1 (set_latest_nsecs t k)) as V.
  { split; try done; [by eapply same_but_trans|congruence|by exists now| |by apply wk_latest].
    split; [done|by destruct w]. }
  apply (wp_on_worker _ _ _ (set_latest_nsecs t k)); [done|].
  apply (wp_wq_get _ _ w); [done|]. intros d2 S2 C2 K2.
  pose proof (visiting_same _ _ _ _ _ _ _ _ _ d2 _ V S2 C2 K2) as V2.
  destruct (w_is_completed w) eqn:Hcm.
  { wp_step. split; [apply V2|]. eapply visit_leaves; try done. by left. }
  wp_step.
  eapply wp_mono; [by eapply wp_copy_stage|].
  intros [] d3 (w3 & k3 & V3 & Hcp). wp_step.
  - bool_prop. by eapply visit_finishes.
  - bool_prop. split; [apply V3|]. eapply visit_leaves; try done. by right.
Qed.

Lemma wp_next y i dl x :
  sys_inv y → 0 ≤ i < d_nr_io_workers (y_dev y) → y_cursors y i = After dl x →
  wp (io_worker_next i x) (y_dev y) (λ n d', same_but i (y_dev y) d' ∧
    sys_inv (IoSys d' (set_cursor (y_cursors y) i (At dl n)) (y_disp y) (y_started y) (y_finished y))).
Proof.
  intros Y Hi Hcu. destruct (si_workers _ Y i Hi) as (k & Hk & W). rewrite Hcu in W.
  destruct (wk_next _ _ nr_range _ _ _ _ _ _ W) as (w & Hw & W'). unfold io_worker_next. wp_step.
  apply (wp_on_worker _ _ _ k); [done|]. apply (wp_wq_get _ _ w); [done|]. intros d' S C K.
  wp_step. split; [done|]. eapply sys_update; try done.
  - intros q. unfold cq_here. by rewrite C.
  - intros j e t Hd. by eapply (si_disp _ Y).
  - intros q cq Hq. rewrite C in Hq. by apply (si_rings _ Y).
  - apply Y.
  - apply Y.
Qed.

Lemma ring_ok_ext cq cq' l :
  cq_queue_size cq' = cq_queue_size cq → cq_phase cq' = cq_phase cq →
  cq_cq_head cq' = cq_cq_head cq → cq_cq cq' = cq_cq cq → ring_ok cq l → ring_ok cq' l.
Proof. intros H1 H2 H3 H4 [R1 R2 R3 R4 R5]. split; rewrite ?H1, ?H2, ?H3, ?H4; done. Qed.

(** What the host, the translation layer and the interrupt handling may change
    between the actions of the engine: memory, commands in the queues, statistics,
    the tail and interrupt state of completion queues. *)
Record env_step d d' : Prop := {
  ev_workers : d_io_workers d' = d_io_workers d;
  ev_nr : d_nr_io_workers d' = d_nr_io_workers d;
  ev_dma : d_io_using_dma d' = d_io_using_dma d;
  ev_mapped : d_mapped d' = d_mapped d;
  ev_sqs q : sq_size d' q = sq_size d q;
  ev_sq_ok q sq : aget (d_sqes d') q = Some (Some sq) → sq_ok d' sq;
  ev_cqs q : cq_here d' q = cq_here d q;
  ev_rings q cq' : aget (d_cqes d') q = Some (Some cq') → ∃ cq, aget (d_cqes d) q = Some (Some cq) ∧
    cq_queue_size cq' = cq_queue_size cq ∧ cq_phase cq' = cq_phase cq ∧
    cq_cq_head cq' = cq_cq_head cq ∧ cq_cq cq' = cq_cq cq;
}.

Lemma env_inv y d' :
  sys_inv y → env_step (y_dev y) d' →
  sys_inv (IoSys d' (y_cursors y) (y_disp y) (y_started y) (y_finished y)).
Proof.
  intros [Y1 Y2 Y3 Y4 Y5 Y6 Y7 Y8 Y9] [E1 E2 E3 E4 E5 E6 E7 E8]. split; simpl; rewrite ?E1, ?E2, ?E3; try done.
  - intros i Hi. destruct (Y5 i Hi) as (k & Hk & W). exists k. split; [done|].
    eapply wk_ext; [..|exact W]; done.
  - intros q cq' Hq. destruct (E8 _ _ Hq) as (cq & Hq0 & ? & ? & ? & ?).
    eapply ring_ok_ext; [done..|]. by apply Y6.
  - eapply Forall_impl; [exact Y9|]. intros x. by apply from_queue_ext.
Qed.

Lemma wp_irq y i q :
  sys_inv y → 0 ≤ q < alen (d_cqes (y_dev y)) →
  wp (io_worker_irq i q) (y_dev y) (λ _ d', env_step (y_dev y) d').
Proof.
  intros Y Hq. assert (env_step (y_dev y) (y_dev y)) as Hrefl.
  { split; try done; [apply Y|]. intros r cq Hr. by exists cq. }
  unfold io_worker_irq. wp_step. wp_step. pose proof (si_nr _ Y).
  destruct (Z.eqb_spec (d_nr_io_workers (y_dev y)) 0); [lia|].
  destruct (negb (i =? _)); [by wp_step|].
  destruct (aget_some (d_cqes (y_dev y)) q Hq) as [o Ho]. unfold get_cq.
  wp_step. wp_step. wp_step. apply (wp_aread _ _ o); [done|].
  destruct o as [cq|]; [|by wp_step]. destruct (negb (cq_irq_enabled cq)); [by wp_step|].
  wp_step; [|done]. unfold put_cq. wp_step. wp_step. wp_step. wp_step.
  apply wp_awrite; [done|]. wp_step. wp_step. split; try done; simpl.
  - intros r sq Hr. eapply sq_ok_ext; [|by eapply (si_sqs _ Y)]. done.
  - intros r. unfold cq_here. simpl. rewrite aget_aset by done. case_decide; [|done].
    subst r. by rewrite Ho.
  - intros r cq'. rewrite aget_aset by done. case_decide; [|intros Hr; by exists cq'].
    subst r. intros [= <-]. by exists cq.
Qed.

Lemma sys_move y i cu' :
  sys_inv y → 0 ≤ i < d_nr_io_workers (y_dev y) →
  (∀ k, aget (d_io_workers (y_dev y)) i = Some k →
    wk_inv (sq_size (y_dev y)) (cq_here (y_dev y)) (out_of (y_disp y) i) (y_cursors y i)
      (started_of i (y_started y)) (finished_of i (y_finished y)) k →
    wk_inv (sq_size (y_dev y)) (cq_here (y_dev y)) (out_of (y_disp y) i) cu'
      (started_of i (y_started y)) (finished_of i (y_finished y)) k) →
  sys_inv (IoSys (y_dev y) (set_cursor (y_cursors y) i cu') (y_disp y) (y_started y) (y_finished y)).
Proof.
  intros Y Hi Hwk. destruct (si_workers _ Y i Hi) as (k & Hk & W).
  eapply sys_update; try done; try apply Y. by apply Hwk.
Qed.

(** ** The transition system *)

Inductive io_step : io_sys F → io_sys F → Prop :=
(* the dispatcher takes and fills an item for entry [e] of queue [sqid] *)
| step_prepare_io y sqid cqid e start ret n o d' :
    y_disp y = None → sq_size (y_dev y) sqid = Some n → 0 ≤ e < n →
    cq_here (y_dev y) cqid = true →
    prepare_io_req sqid cqid e start ret (y_dev y) = Ok (o, d') →
    io_step y (prepared y d' o (ret_nsecs_target ret))
(* the same for an internal operation *)
| step_prepare_internal y op o d' :
    y_disp y = None → prepare_internal op (y_dev y) = Ok (o, d') →
    io_step y (prepared y d' o (so_nsecs_target op))
(* it inserts the item *)
| step_insert y i e t d' :
    y_disp y = Some (i, e, t) → on_worker i (insert_req_sorted e t) (y_dev y) = Ok (tt, d') →
    io_step y (IoSys d' (y_cursors y) None (y_started y) (y_finished y))
(* it takes the finished items of worker [i] back *)
| step_reclaim y i d' :
    0 ≤ i < d_nr_io_workers (y_dev y) → on_worker i reclaim_worker (y_dev y) = Ok (tt, d') →
    io_step y (IoSys d' (y_cursors y) (y_disp y) (y_started y) (y_finished y))
(* worker [i] begins a scan *)
| step_begin y i dl k :
    0 ≤ i < d_nr_io_workers (y_dev y) → y_cursors y i = Idle →
    aget (d_io_workers (y_dev y)) i = Some k →
    io_step y (IoSys (y_dev y) (set_cursor (y_cursors y) i (At dl (io_seq k)))
      (y_disp y) (y_started y) (y_finished y))
(* it visits the item it is at *)
| step_visit y i dl x d' :
    0 ≤ i < d_nr_io_workers (y_dev y) → y_cursors y i = At dl x → x ≠ NIL →
    io_worker_visit c pfn_valid i dl x (y_dev y) = Ok (tt, d') →
    io_step y (visited y d' i dl x)
(* it goes on to the next item *)
| step_next y i dl x n d' :
    0 ≤ i < d_nr_io_workers (y_dev y) → y_cursors y i = After dl x →
    io_worker_next i x (y_dev y) = Ok (n, d') →
    io_step y (IoSys d' (set_cursor (y_cursors y) i (At dl n)) (y_disp y) (y_started y) (y_finished y))
(* or ends the scan *)
| step_end y i dl :
    0 ≤ i < d_nr_io_workers (y_dev y) → y_cursors y i = At dl NIL →
    io_step y (IoSys (y_dev y) (set_cursor (y_cursors y) i Idle)
      (y_disp y) (y_started y) (y_finished y))
(* everything else *)
| step_env y d' :
    env_step (y_dev y) d' →
    io_step y (IoSys d' (y_cursors y) (y_disp y) (y_started y) (y_finished y)).

(** A device whose workers were just initialised and whose completion queues are
    new. *)
Record io_start d : Prop := {
  st_nr : 0 < d_nr_io_workers d < 2 ^ 31;
  st_workers : d_io_workers d = abuild (d_nr_io_workers d) (init_worker 0) init_worker;
  st_dma : d_io_using_dma d = false;
  st_sqs q sq : aget (d_sqes d) q = Some (Some sq) → sq_ok d sq;
  st_cqs q cq : aget (d_cqes d) q = Some (Some cq) → 0 < cq_queue_size cq ∧
    cq_cq_head cq = 0 ∧ cq_phase cq = 1 ∧
    ∀ e, 0 ≤ e < cq_queue_size cq → is_Some (page_get (cq_cq cq) NR_CQE_PER_PAGE e);
}.
Definition start_of d : io_sys F := IoSys d (λ _, Idle) None [] [].
Definition io_reachable d (y : io_sys F) : Prop := io_start d ∧ rtc io_step (start_of d) y.

Lemma start_inv d : io_start d → sys_inv (start_of d).
Proof.
  intros [S1 S2 S3 S4 S5]. split; simpl; try done.
  - rewrite S2. apply alen_abuild.
  - intros i Hi. exists (init_worker i). rewrite S2, aget_abuild, decide_True by done.
    split; [done|]. by apply wk_init.
  - intros q cq Hq. destruct (S5 q cq Hq) as (H1 & H2 & H3 & H4). by split.
Qed.

Lemma step_inv y y' : io_step y y' → sys_inv y → sys_inv y'.
Proof.
  intros Hs Y. destruct Hs as [y sqid cqid e start ret n o d' Hd Hn He Hc Hr|y op o d' Hd Hr
    |y i e t d' Hd Hr|y i d' Hi Hr|y i dl k Hi Hcu Hk|y i dl x d' Hi Hcu Hx Hr|y i dl x n d' Hi Hcu Hr
    |y i dl Hi Hcu|y d' He].
  - pose proof (wp_prepare_io y sqid cqid e start ret n Y Hd Hn He Hc) as Hw.
    unfold wp in Hw. rewrite Hr in Hw. apply Hw.
  - pose proof (wp_prepare_internal y op Y Hd) as Hw. unfold wp in Hw. rewrite Hr in Hw. apply Hw.
  - pose proof (wp_insert y i e t Y Hd) as Hw. unfold wp in Hw. rewrite Hr in Hw. apply Hw.
  - pose proof (wp_reclaim y i Y Hi) as Hw. unfold wp in Hw. rewrite Hr in Hw. apply Hw.
  - apply sys_move; [done|done|]. intros k' Hk' W. assert (k' = k) as -> by congruence.
    by eapply wk_begin.
  - pose proof (wp_visit y i dl x Y Hi Hcu Hx) as Hw. unfold wp in Hw. rewrite Hr in Hw. apply Hw.
  - pose proof (wp_next y i dl x Y Hi Hcu) as Hw. unfold wp in Hw. rewrite Hr in Hw. apply Hw.
  - apply sys_move; [done|done|]. intros k' Hk' W. by eapply wk_idle.
  - by apply env_inv.
Qed.

Lemma io_reachable_inv d y : io_reachable d y → sys_inv y.
Proof.
  intros [Hst Hr]. apply start_inv in Hst. induction Hr as [|y1 y2 y3 Hs _ IH]; [done|].
  by apply IH, (step_inv _ _ Hs).
Qed.
End sys.
