(* ===== verification/IoDispatch.v ===== *)
(** * The dispatcher as a client of the command handlers

    The interface [IoHandlerLaws] states what the engine expects of a command
    handler.  Against it, the processing of a submission queue is proved to return
    and to be a sequence of the engine's steps that puts each accepted command to
    work, in order. *)

From Stdlib Require Import ZArith Lia.
From stdpp Require Import base numbers list gmap.
From S2P Require Import Prelude Config ChannelModel Nvme FdpLog WorkQueue Dma IoData Io IoInv IoSteps.

#[local] Open Scope Z_scope.

(** What a handler promises: a state of its own [h_inv], commands it is made for
    [h_cmd], and that on those it returns, keeps its state and leaves a command the
    engine can copy, for the same namespace, in the queue. *)
Class IoHandlerLaws (F : Type) `{HD : !IoHandler F} (c : ssd_config) : Type := {
  h_inv : F → Prop;
  h_cmd : nvme_command → Prop;
  h_proc f ns cmd sqid start ret : h_inv f → h_cmd cmd → 0 ≤ start →
    wp (proc_io_cmd ns cmd sqid start ret) f (λ '(ok, r, cmd', ops) f',
      h_inv f' ∧ h_cmd cmd' ∧ copy_safe c cmd' ∧ rw_nsid (c_rw cmd') = rw_nsid (c_rw cmd));
  h_release f b n : wp (release_buffer b n) f (λ _ _, True);
}.

Section dispatch.
Context {F : Type} `{CK : !Clock} `{LC : !LocalClock} `{IC : !IoConfig} `{HD : !IoHandler F}
  `{DC : !DmaCore}.
Context (c : ssd_config) (pfn_valid : Z → bool) `{HL : !IoHandlerLaws F c}.
Hypothesis nr_range : 2 ≤ NR_MAX_PARALLEL_IO < 2 ^ 31.
Implicit Types (d : nvmev_dev F) (y : io_sys F).
#[local] Abbreviation step := (io_step c pfn_valid).
#[local] Abbreviation inv := (sys_inv c).

Definition sq_info d (q : Z) : option (Z * Z) :=
  match aget (d_sqes d) q with
  | Some (Some sq) => Some (sq_queue_size sq, sq_cqid sq)
  | _ => None
  end.

Lemma sq_info_size d q n cqid : sq_info d q = Some (n, cqid) → sq_size d q = Some n.
Proof. unfold sq_info, sq_size. by destruct (aget (d_sqes d) q) as [[sq|]|]; intros [= <- <-]. Qed.

(** [y'] is reached from [y] by steps of the dispatcher. *)
Record ran y y' : Prop := {
  rn_steps : rtc step y y';
  rn_inv : inv y';
  rn_disp : y_disp y' = None;
  rn_cursors : y_cursors y' = y_cursors y;
  rn_finished : y_finished y' = y_finished y;
  rn_nr : d_nr_io_workers (y_dev y') = d_nr_io_workers (y_dev y);
  rn_mapped : d_mapped (y_dev y') = d_mapped (y_dev y);
  rn_sqs q : sq_info (y_dev y') q = sq_info (y_dev y) q;
  rn_cqs q : cq_here (y_dev y') q = cq_here (y_dev y) q;
}.

Lemma ran_refl y : inv y → y_disp y = None → ran y y.
Proof. by split. Qed.

Lemma ran_trans y1 y2 y3 : ran y1 y2 → ran y2 y3 → ran y1 y3.
Proof.
  intros [A1 A2 A3 A4 A5 A6 A7 A8 A9] [B1 B2 B3 B4 B5 B6 B7 B8 B9].
  split; try congruence. by etransitivity.
Qed.

Lemma ran_env y d' :
  inv y → y_disp y = None → env_step c (y_dev y) d' →
  (∀ q, sq_info d' q = sq_info (y_dev y) q) →
  ran y (IoSys d' (y_cursors y) (y_disp y) (y_started y) (y_finished y)).
Proof.
  intros Y Hd E Hi. split; try done; try apply E.
  - apply rtc_once. by apply step_env.
  - by apply env_inv.
Qed.

(** The entries of queue [sqid] put to work, in order. *)
Definition requests (sqid : Z) (l : list (Z * nvmev_io_work)) : list Z :=
  w_sq_entry <$> filter (λ w, w_is_internal w = false ∧ w_sqid w = sqid) l.*2.

Lemma requests_snoc sqid l i w :
  requests sqid (l ++ [(i, w)]) =
  requests sqid l ++
    if decide (w_is_internal w = false ∧ w_sqid w = sqid) then [w_sq_entry w] else [].
Proof.
  unfold requests. rewrite fmap_app, filter_app, fmap_app. f_equal. simpl. rewrite filter_cons.
  by case_decide.
Qed.

End dispatch.

(** ** Actions that leave parts of the device alone *)

Lemma keeps_on_worker {F A B} (f : nvmev_dev F → B) i (m : M nvmev_io_worker A) :
  (∀ d x, f (set_io_workers x d) = f d) → keeps f (on_worker i m).
Proof.
  intros Hf d a d'. unfold on_worker. destruct (aget (d_io_workers d) i) as [k|]; [|done].
  destruct (m k) as [[b k']|]; [|done]. by intros [= _ <-].
Qed.
Lemma keeps_local_clock `{!LocalClock} {F B} (f : nvmev_dev F → B) :
  (∀ d t l, f (set_clocks t l d) = f d) → keeps f read_local_clock.
Proof. intros Hf d b d' [= _ <-]. apply Hf. Qed.
Lemma keeps_put_sq {F B} (f : nvmev_dev F → B) q sq :
  (∀ d x, f (set_sqes x d) = f d) → keeps f (put_sq q sq).
Proof.
  intros Hf d a d'. unfold put_sq, mbind, M_bind, get, awrite. destruct (in_range _ _); [|done].
  intros [= _ <-]. apply Hf.
Qed.
Lemma keeps_put_cq {F B} (f : nvmev_dev F → B) q cq :
  (∀ d x, f (set_cqes x d) = f d) → keeps f (put_cq q cq).
Proof.
  intros Hf d a d'. unfold put_cq, mbind, M_bind, get, awrite. destruct (in_range _ _); [|done].
  intros [= _ <-]. apply Hf.
Qed.
Lemma keeps_ftl_worker {F A} i (m : M nvmev_io_worker A) : keeps (d_ftl (F := F)) (on_worker i m).
Proof. by apply keeps_on_worker. Qed.
Lemma keeps_ftl_clock `{!LocalClock} {F} : keeps (d_ftl (F := F)) read_local_clock.
Proof. by apply keeps_local_clock. Qed.
#[export] Hint Resolve keeps_ftl_worker keeps_ftl_clock keeps_put_sq keeps_put_cq : keeps.

Section dispatcher.
Context {F : Type} `{CK : !Clock} `{LC : !LocalClock} `{IC : !IoConfig} `{HD : !IoHandler F}
  `{DC : !DmaCore}.
Context (c : ssd_config) (pfn_valid : Z → bool) `{HL : !IoHandlerLaws F c}.
Hypothesis nr_range : 2 ≤ NR_MAX_PARALLEL_IO < 2 ^ 31.
Hypothesis clock_range : ∀ n, 0 ≤ cpu_clock n.
Implicit Types (d : nvmev_dev F) (y : io_sys F).
#[local] Abbreviation step := (io_step c pfn_valid).
#[local] Abbreviation inv := (sys_inv c).
#[local] Abbreviation ran := (ran c pfn_valid).

Lemma schedule_keeps_ftl op : keeps (d_ftl (F := F)) (schedule_internal_operation op).
Proof. unfold schedule_internal_operation, prepare_internal, allocate_work_queue_entry. keeps. Qed.
Lemma enqueue_keeps_ftl sqid cqid e start ret :
  keeps (d_ftl (F := F)) (enqueue_io_req sqid cqid e start ret).
Proof.
  unfold enqueue_io_req, prepare_io_req, allocate_work_queue_entry, get_sq, sq_entry, page_entry, aread.
  keeps.
Qed.
Lemma reclaim_keeps_ftl : keeps (d_ftl (F := F)) reclaim_completed_reqs.
Proof. unfold reclaim_completed_reqs, for_range. keeps. Qed.

(** An item prepared, then inserted. *)
Lemma wp_prepared y o d' i0 t :
  y_disp y = None → step y (prepared y d' o t) → inv (prepared y d' o t) →
  same_but i0 (y_dev y) d' → d_cqes d' = d_cqes (y_dev y) →
  wp (match o with
      | None => mret tt
      | Some (i, e) => on_worker i (insert_req_sorted e t)
      end) d' (λ _ d2, ∃ y2, y_dev y2 = d2 ∧ ran y y2 ∧ d_sqes d2 = d_sqes (y_dev y) ∧
    y_started y2 = y_started (prepared y d' o t)).
Proof.
  intros Hdisp Hstep Hinv S C. destruct o as [[i e]|].
  - pose proof (wp_insert c nr_range _ _ _ _ Hinv eq_refl) as Hw. simpl in Hw.
    apply wp_Ok in Hw as ([] & d2 & Hr & S2 & C2 & Y2). eapply wp_intro; [exact Hr|].
    eexists. split; [|split; [|split]].
    2:{ split; [|exact Y2|done|done|done|..].
        - eapply rtc_l; [exact Hstep|]. apply rtc_once.
          exact (step_insert c pfn_valid (prepared y d' (Some (i, e)) t) i e t d2 eq_refl Hr).
        - simpl. by rewrite (sb_nr _ _ _ S2), (sb_nr _ _ _ S).
        - simpl. by rewrite (sb_mapped _ _ _ S2), (sb_mapped _ _ _ S).
        - intros q. unfold sq_info. simpl. by rewrite (sb_sqes _ _ _ S2), (sb_sqes _ _ _ S).
        - intros q. unfold cq_here. simpl. by rewrite C2, C. }
    + done.
    + by rewrite (sb_sqes _ _ _ S2), (sb_sqes _ _ _ S).
    + done.
  - wp_step. exists (prepared y d' None t). split; [done|]. split; [|split; [apply S|done]].
    split; try done.
    + by apply rtc_once.
    + apply S.
    + apply S.
    + intros q. unfold sq_info. simpl. by rewrite (sb_sqes _ _ _ S).
    + intros q. unfold cq_here. simpl. by rewrite C.
Qed.

Lemma wp_io_schedule y op sqid :
  inv y → y_disp y = None →
  wp (schedule_internal_operation op) (y_dev y) (λ _ d', ∃ y', y_dev y' = d' ∧ ran y y' ∧
    d_sqes d' = d_sqes (y_dev y) ∧ d_ftl d' = d_ftl (y_dev y) ∧
    requests sqid (y_started y') = requests sqid (y_started y)).
Proof.
  intros Y Hd. pose proof (schedule_keeps_ftl op (y_dev y)) as Hk.
  assert (wp (schedule_internal_operation op) (y_dev y) (λ _ d', ∃ y', y_dev y' = d' ∧ ran y y' ∧
    d_sqes d' = d_sqes (y_dev y) ∧ requests sqid (y_started y') = requests sqid (y_started y))) as Hw.
  { unfold schedule_internal_operation. wp_step.
    pose proof (wp_prepare_internal c nr_range _ op Y Hd) as Hp.
    apply wp_Ok in Hp as (o & d1 & Hr & [i0 S] & C & Y1 & Ho). eapply wp_intro; [exact Hr|].
    eapply wp_mono; [eapply (wp_prepared y o d1 i0); try done; by eapply step_prepare_internal|].
    intros [] d2 (y2 & <- & R & Hsq & Hst). exists y2. split_and!; try done. rewrite Hst.
    destruct o as [[i e]|]; [|done]. simpl. destruct Ho as (k & -> & Hint).
    rewrite requests_snoc, decide_False, app_nil_r; [done|]. intros [Hf _].
    change (w_is_internal (item (work_queue k) e) = false) in Hf. congruence. }
  apply wp_Ok in Hw as ([] & d' & Hr & y' & H1 & H2 & H3 & H4). eapply wp_intro; [exact Hr|].
  exists y'. split_and!; try done. by eapply Hk.
Qed.

Lemma wp_enqueue y sqid cqid e start ret n :
  inv y → y_disp y = None → sq_size (y_dev y) sqid = Some n → 0 ≤ e < n →
  cq_here (y_dev y) cqid = true →
  wp (enqueue_io_req sqid cqid e start ret) (y_dev y) (λ _ d', ∃ y', y_dev y' = d' ∧ ran y y' ∧
    d_sqes d' = d_sqes (y_dev y) ∧ d_ftl d' = d_ftl (y_dev y) ∧
    (requests sqid (y_started y') = requests sqid (y_started y) ++ [e] ∨
     requests sqid (y_started y') = requests sqid (y_started y) ∧
     worker_full (y_dev y) (get_io_worker (d_nr_io_workers (y_dev y)) sqid))).
Proof.
  intros Y Hd Hn He Hcq. pose proof (enqueue_keeps_ftl sqid cqid e start ret (y_dev y)) as Hk.
  pose proof (wp_prepare_io c nr_range _ sqid cqid e start ret n Y Hd Hn He Hcq) as Hp.
  apply wp_Ok in Hp as (o & d1 & Hr & [i0 S] & C & Y1 & Ho).
  assert (step y (prepared y d1 o (ret_nsecs_target ret))) as Hstep by by eapply step_prepare_io.
  pose proof (wp_prepared y o d1 i0 _ Hd Hstep Y1 S C) as Hins.
  apply wp_Ok in Hins as ([] & d2 & Hr2 & y2 & <- & R & Hsq & Hst).
  assert (enqueue_io_req sqid cqid e start ret (y_dev y) = Ok (tt, y_dev y2)) as Hrun.
  { unfold enqueue_io_req, mbind, M_bind. by rewrite Hr. }
  eapply wp_intro; [exact Hrun|]. exists y2. split_and!; try done; [by eapply Hk|]. rewrite Hst.
  destruct o as [[i x]|]; [left|right; done]. simpl.
  destruct Ho as (_ & k & -> & H1 & H2 & H3 & _ & _ & H4).
  rewrite requests_snoc, decide_True; [by rewrite <- H3|]. done.
Qed.

Lemma wp_reclaim_all y :
  inv y → y_disp y = None →
  wp reclaim_completed_reqs (y_dev y) (λ _ d', ∃ y', y_dev y' = d' ∧ ran y y' ∧
    d_sqes d' = d_sqes (y_dev y) ∧ d_ftl d' = d_ftl (y_dev y) ∧ y_started y' = y_started y).
Proof.
  intros Y Hd. pose proof (reclaim_keeps_ftl (y_dev y)) as Hk. pose proof (si_nr _ _ Y) as Hnr.
  assert (wp reclaim_completed_reqs (y_dev y) (λ _ d', ∃ y', y_dev y' = d' ∧ ran y y' ∧
    d_sqes d' = d_sqes (y_dev y) ∧ y_started y' = y_started y)) as Hw.
  { unfold reclaim_completed_reqs. wp_step. wp_step.
    apply (wp_for_range (λ _ d', ∃ y', y_dev y' = d' ∧ ran y y' ∧
      d_sqes d' = d_sqes (y_dev y) ∧ y_started y' = y_started y)).
    - lia.
    - exists y. split_and!; try done.
    - intros i d1 Hi (y1 & <- & R & Hsq & Hst).
      pose proof (wp_reclaim c nr_range y1 i (rn_inv _ _ _ _ R)) as Hw.
      rewrite (rn_nr _ _ _ _ R) in Hw. specialize (Hw Hi).
      apply wp_Ok in Hw as ([] & d2 & Hr & S2 & C2 & Y2). eapply wp_intro; [exact Hr|].
      eexists. split; [|split; [|split]].
      2:{ eapply ran_trans; [exact R|]. split; [|exact Y2|..]; simpl; try done.
          - apply rtc_once. apply (step_reclaim c pfn_valid y1 i d2); [|done].
            by rewrite (rn_nr _ _ _ _ R).
          - apply R.
          - apply S2.
          - apply S2.
          - intros q. unfold sq_info. by rewrite (sb_sqes _ _ _ S2).
          - intros q. unfold cq_here. by rewrite C2. }
      + done.
      + by rewrite (sb_sqes _ _ _ S2).
      + done.
    - done. }
  apply wp_Ok in Hw as ([] & d' & Hr & y' & H1 & H2 & H3 & H4). eapply wp_intro; [exact Hr|].
  exists y'. split_and!; try done. by eapply Hk.
Qed.

Definition cmds_ok d (sqid : Z) : Prop :=
  ∀ sq e cmd, aget (d_sqes d) sqid = Some (Some sq) → 0 ≤ e < sq_queue_size sq →
    page_get (sq_sq sq) NR_SQE_PER_PAGE e = Some cmd → h_cmd cmd.

Lemma cmds_ok_ext d d' sqid : d_sqes d' = d_sqes d → cmds_ok d sqid → cmds_ok d' sqid.
Proof. unfold cmds_ok. by intros ->. Qed.

(** A queue whose pages or statistics changed. *)
Lemma env_put_sq y d' sqid sq sq' :
  inv y → aget (d_sqes (y_dev y)) sqid = Some (Some sq) →
  sq_queue_size sq' = sq_queue_size sq → sq_cqid sq' = sq_cqid sq → sq_ok c (y_dev y) sq' →
  d_sqes d' = aset (d_sqes (y_dev y)) sqid (Some sq') → d_io_workers d' = d_io_workers (y_dev y) →
  d_nr_io_workers d' = d_nr_io_workers (y_dev y) → d_io_using_dma d' = d_io_using_dma (y_dev y) →
  d_mapped d' = d_mapped (y_dev y) → d_cqes d' = d_cqes (y_dev y) →
  env_step c (y_dev y) d' ∧ ∀ q, sq_info d' q = sq_info (y_dev y) q.
Proof.
  intros Y Hsq Hn Hc Hok H1 H2 H3 H4 H5 H6. pose proof (aget_inv _ _ _ Hsq) as Hr.
  split; [split; try done|].
  - intros q. unfold sq_size. rewrite H1, aget_aset by done. case_decide; [|done].
    subst q. by rewrite Hsq, Hn.
  - intros q sq2. rewrite H1, aget_aset by done. case_decide.
    + intros [= <-]. by eapply sq_ok_ext.
    + intros Hq. eapply sq_ok_ext; [exact H5|]. by eapply (si_sqs _ _ Y).
  - intros q. unfold cq_here. by rewrite H6.
  - intros q cq'. rewrite H6. intros Hq. by exists cq'.
  - intros q. unfold sq_info. rewrite H1, aget_aset by done. case_decide; [|done].
    subst q. by rewrite Hsq, Hn, Hc.
Qed.

(** What holds between the commands of a queue. *)
Record serving y sqid n cqid : Prop := {
  sv_inv : inv y;
  sv_disp : y_disp y = None;
  sv_ftl : h_inv (d_ftl (y_dev y));
  sv_queue : sq_info (y_dev y) sqid = Some (n, cqid);
  sv_cq : cq_here (y_dev y) cqid = true;
  sv_cmds : cmds_ok (y_dev y) sqid;
}.

Lemma serving_ran y y' sqid n cqid :
  serving y sqid n cqid → ran y y' → d_sqes (y_dev y') = d_sqes (y_dev y) →
  d_ftl (y_dev y') = d_ftl (y_dev y) → serving y' sqid n cqid.
Proof.
  intros [A1 A2 A3 A4 A5 A6] R Hs Hf. split.
  - apply R.
  - apply R.
  - by rewrite Hf.
  - by rewrite (rn_sqs _ _ _ _ R).
  - by rewrite (rn_cqs _ _ _ _ R).
  - by eapply cmds_ok_ext.
Qed.

(** The handler's answer to entry [e] of queue [sqid] in state [y]. *)
Definition handler_said y (sqid e : Z) (ok : bool) : Prop :=
  ∃ sq cmd t ret cmd' ops f', aget (d_sqes (y_dev y)) sqid = Some (Some sq) ∧
    page_get (sq_sq sq) NR_SQE_PER_PAGE e = Some cmd ∧
    proc_io_cmd (u32 (rw_nsid (c_rw cmd) - 1)) cmd (u32 sqid) t (Result NVME_SC_SUCCESS t 0)
      (d_ftl (y_dev y)) = Ok (ok, ret, cmd', ops, f').

Lemma wp_call_proc_io_cmd y sqid e n cqid :
  serving y sqid n cqid → 0 ≤ e < n →
  wp (call_proc_io_cmd sqid e) (y_dev y) (λ '(ok, ret, cmd', ops, q, start) d', q = cqid ∧
    handler_said y sqid e ok ∧ ∃ y', y_dev y' = d' ∧ ran y y' ∧ serving y' sqid n cqid ∧ y_started y' = y_started y).
Proof.
  intros [A1 A2 A3 A4 A5 A6] He. unfold sq_info in A4.
  destruct (aget (d_sqes (y_dev y)) sqid) as [[sq|]|] eqn:Hsq; [|done|done].
  injection A4 as Hn Hq. pose proof (aget_inv _ _ _ Hsq) as Hr.
  pose proof (si_sqs _ _ A1 _ _ Hsq) as Hok.
  destruct (sk_entries _ _ _ Hok e ltac:(lia)) as (cmd & Hcmd & Hsafe & Hns).
  unfold call_proc_io_cmd, get_sq. wp_step. wp_step. wp_step. wp_step.
  apply (wp_aread _ _ (Some sq)); [done|]. apply (wp_deref _ _ sq); [done|].
  wp_step. unfold wp at 1, read_wallclock. fold (@wp (nvmev_dev F) Z). wp_step.
  apply (wp_page_entry _ _ _ cmd); [done|]. wp_step. wp_step. wp_step.
  destruct (aget_some (d_mapped (y_dev y)) _ Hns) as [mp Hmp].
  apply (wp_aread _ _ mp); [done|]. wp_step. wp_step.
  assert (h_cmd cmd) as Hhc by (eapply A6; [done| |done]; lia).
  pose proof (h_proc (d_ftl (y_dev y)) (u32 (rw_nsid (c_rw cmd) - 1)) cmd (u32 sqid)
    (cpu_clock (d_ticks (y_dev y))) (Result NVME_SC_SUCCESS (cpu_clock (d_ticks (y_dev y))) 0)
    A3 Hhc (clock_range _)) as Hh.
  apply wp_Ok in Hh as ([[[ok ret] cmd'] ops] & f' & Hrun & Hf & Hc' & Hsafe' & Hns').
  eapply wp_intro; [exact Hrun|]. cbv beta iota. wp_step.
  apply (wp_set_page_entry _ _ _ _ cmd); [done|done|]. intros pages Hpages.
  unfold put_sq. wp_step. wp_step. wp_step. wp_step. apply wp_awrite; [done|]. wp_step. wp_step.
  split; [done|]. split; [unfold handler_said; eauto 12|].
  set (sq' := SubmissionQueue _ _ _ pages). set (d' := set_sqes _ _).
  assert (sq_ok c (y_dev y) sq') as Hok'.
  { split; [apply Hok|]. intros e' He'. simpl. rewrite Hpages. case_decide; [|by apply Hok].
    exists cmd'. rewrite Hns'. done. }
  destruct (env_put_sq y d' sqid sq sq' A1 Hsq eq_refl eq_refl Hok') as [Henv Hinfo]; try done.
  exists (IoSys d' (y_cursors y) (y_disp y) (y_started y) (y_finished y)).
  pose proof (ran_env c pfn_valid y d' A1 A2 Henv Hinfo) as R.
  split_and!; [done|done| |done]. split; simpl; [apply R|done|done| | |].
  - rewrite Hinfo. unfold sq_info. by rewrite Hsq, Hn, Hq.
  - by rewrite (ev_cqs _ _ _ Henv).
  - intros sq2 e2 cmd2. simpl. rewrite aget_aset_eq by done. intros [= <-] He2. simpl.
    rewrite Hpages. case_decide; [by intros [= <-]|]. intros Hc2. by eapply A6.
Qed.

(** Between [y] and [y'] the worker of queue [sqid] was full. *)
Definition was_full y y' sqid : Prop :=
  ∃ y1, rtc step y y1 ∧ rtc step y1 y' ∧
    worker_full (y_dev y1) (get_io_worker (d_nr_io_workers (y_dev y1)) sqid).

Lemma wp_schedule_all y sqid n cqid ops :
  serving y sqid n cqid →
  wp (for_list ops schedule_internal_operation) (y_dev y) (λ _ d', ∃ y', y_dev y' = d' ∧ ran y y' ∧
    serving y' sqid n cqid ∧ requests sqid (y_started y') = requests sqid (y_started y)).
Proof.
  intros Sv. apply (wp_for_list (λ _ d', ∃ y', y_dev y' = d' ∧ ran y y' ∧
    serving y' sqid n cqid ∧ requests sqid (y_started y') = requests sqid (y_started y))).
  - exists y. split_and!; try done. apply ran_refl; apply Sv.
  - intros l1 op l2 d1 _ (y1 & <- & R1 & Sv1 & Hq1).
    eapply wp_mono; [apply (wp_io_schedule y1 op sqid); apply Sv1|].
    intros [] d2 (y2 & <- & R2 & Hs & Hf & Hq2). exists y2. split_and!; [done| | |congruence].
    + by eapply ran_trans.
    + by eapply serving_ran.
  - done.
Qed.

Lemma wp_proc_io y sqid e n cqid :
  serving y sqid n cqid → 0 ≤ e < n →
  wp (nvmev_proc_io c sqid e) (y_dev y) (λ r d', ∃ y', y_dev y' = d' ∧ ran y y' ∧
    serving y' sqid n cqid ∧ handler_said y sqid e (bool_decide (r ≠ None)) ∧
    match r with
    | None => requests sqid (y_started y') = requests sqid (y_started y)
    | Some _ => requests sqid (y_started y') = requests sqid (y_started y) ++ [e] ∨
        requests sqid (y_started y') = requests sqid (y_started y) ∧ was_full y y' sqid
    end).
Proof.
  intros Sv He. unfold nvmev_proc_io. wp_step.
  eapply wp_mono; [by apply wp_call_proc_io_cmd|].
  intros [[[[[ok ret] cmd'] ops] q] start] d1 (-> & Hsaid & y1 & <- & R1 & Sv1 & Hst1). wp_step.
  eapply wp_mono; [by apply wp_schedule_all|].
  intros [] d2 (y2 & <- & R2 & Sv2 & Hst2). rewrite Hst1 in Hst2.
  pose proof (ran_trans _ _ _ _ _ R1 R2) as R12.
  destruct ok; [|wp_step; by exists y2]. wp_step.
  eapply wp_mono.
  { apply (wp_enqueue y2 sqid cqid e start ret n); try apply Sv2; [|done].
    eapply sq_info_size. apply Sv2. }
  intros [] d3 (y3 & <- & R3 & Hs3 & Hf3 & Hq3). wp_step.
  pose proof (serving_ran _ _ _ _ _ Sv2 R3 Hs3 Hf3) as Sv3.
  eapply wp_mono; [apply (wp_reclaim_all y3); apply Sv3|].
  intros [] d4 (y4 & <- & R4 & Hs4 & Hf4 & Hq4). wp_step. exists y4.
  pose proof (ran_trans _ _ _ _ _ R3 R4) as R34.
  split_and!; [done|by eapply ran_trans|by eapply serving_ran|done|]. rewrite Hq4, <- Hst2.
  destruct Hq3 as [Hq3|[Hq3 Hfull]]; [by left|right]. split; [done|].
  exists y2. split_and!; [apply R12|apply R34|done].
Qed.

(** Updating the statistics of a queue. *)
Lemma wp_upd_stat y f sqid n cqid :
  serving y sqid n cqid →
  wp (upd_stat f sqid) (y_dev y) (λ _ d', ∃ y', y_dev y' = d' ∧ ran y y' ∧ serving y' sqid n cqid ∧
    y_started y' = y_started y).
Proof.
  intros [A1 A2 A3 A4 A5 A6]. pose proof A4 as A4'. unfold sq_info in A4'.
  destruct (aget (d_sqes (y_dev y)) sqid) as [[sq|]|] eqn:Hsq; [|done|done].
  injection A4' as Hn Hq. pose proof (aget_inv _ _ _ Hsq) as Hr.
  pose proof (si_sqs _ _ A1 _ _ Hsq) as Hok. unfold upd_stat, get_sq, put_sq.
  wp_step. wp_step. wp_step. wp_step. apply (wp_aread _ _ (Some sq)); [done|].
  apply (wp_deref _ _ sq); [done|]. wp_step. wp_step. wp_step. apply wp_awrite; [done|]. wp_step.
  set (sq' := SubmissionQueue _ _ _ _). set (d' := set_sqes _ _).
  assert (sq_ok c (y_dev y) sq') as Hok' by (destruct Hok; by split).
  destruct (env_put_sq y d' sqid sq sq' A1 Hsq eq_refl eq_refl Hok') as [Henv Hinfo]; try done.
  exists (IoSys d' (y_cursors y) (y_disp y) (y_started y) (y_finished y)).
  pose proof (ran_env c pfn_valid y d' A1 A2 Henv Hinfo) as R.
  split_and!; [done|done| |done]. split; simpl; [apply R|done|done| | |].
  - by rewrite Hinfo.
  - by rewrite (ev_cqs _ _ _ Henv).
  - intros sq2 e2 cmd2. simpl. rewrite aget_aset_eq by done. intros [= <-] He2 Hc2. by eapply A6.
Qed.

(** The entries from [old] on, round the queue. *)
Definition entries_from (old size k : Z) : list Z := (λ i, (old + i) mod size) <$> seqZ 0 k.

Lemma entries_from_snoc old size k :
  0 ≤ k → entries_from old size (k + 1) = entries_from old size k ++ [(old + k) mod size].
Proof.
  intros Hk. unfold entries_from. rewrite seqZ_app by lia. by rewrite fmap_app.
Qed.

(** What the processing of entries achieved: the requests started are accepted
    entries in order, all of them unless the worker was full at some time. *)
Record served y y' sqid n cqid (old k : Z) : Prop := {
  se_ran : ran y y';
  se_serving : serving y' sqid n cqid;
  se_requests : ∃ new, requests sqid (y_started y') = requests sqid (y_started y) ++ new ∧
    sublist new (entries_from old n k) ∧ (new = entries_from old n k ∨ was_full y y' sqid);
}.

Lemma served_more y y1 y2 sqid n cqid old k :
  served y y1 sqid n cqid old k → 0 ≤ k → ran y1 y2 → serving y2 sqid n cqid →
  (requests sqid (y_started y2) = requests sqid (y_started y1) ++ [(old + k) mod n] ∨
   requests sqid (y_started y2) = requests sqid (y_started y1) ∧ was_full y1 y2 sqid) →
  served y y2 sqid n cqid old (k + 1).
Proof.
  intros [R Sv (new & Hq & Hsub & Hall)] Hk R2 Sv2 Hmore. split; [by eapply ran_trans|done|].
  assert (was_full y y1 sqid → was_full y y2 sqid) as Hwf.
  { intros (y' & ? & ? & ?). exists y'. split_and!; [done| |done].
    etransitivity; [done|apply R2]. }
  rewrite entries_from_snoc by done. destruct Hmore as [Hm|[Hm Hfull]].
  - exists (new ++ [(old + k) mod n]). rewrite Hm, Hq, app_assoc.
    split_and!; [done|by apply sublist_app|]. destruct Hall as [->|?]; [by left|right; auto].
  - exists new. rewrite Hm. split_and!; [done|by apply sublist_inserts_r|right].
    destruct Hfull as (y' & ? & ? & ?). exists y'. split_and!; [|done|done].
    etransitivity; [apply R|done].
Qed.

Lemma served_same y y1 y2 sqid n cqid old k :
  served y y1 sqid n cqid old k → ran y1 y2 → serving y2 sqid n cqid →
  requests sqid (y_started y2) = requests sqid (y_started y1) → served y y2 sqid n cqid old k.
Proof.
  intros [R Sv (new & Hq & Hsub & Hall)] R2 Sv2 Hsame. split; [by eapply ran_trans|done|].
  exists new. rewrite Hsame. split_and!; [done|done|]. destruct Hall as [?|(y' & ? & ? & ?)]; [by left|].
  right. exists y'. split_and!; [done| |done]. etransitivity; [done|apply R2].
Qed.

(** Between [y] and [y'] the handler refused entry [e] of queue [sqid]. *)
Definition was_refused y y' (sqid e : Z) : Prop :=
  ∃ y1, rtc step y y1 ∧ rtc step y1 y' ∧ handler_said y1 sqid e false.

Lemma wp_proc_io_sq y sqid new_db old_db n cqid :
  serving y sqid n cqid → 0 ≤ old_db < n → 0 ≤ new_db < n →
  wp (nvmev_proc_io_sq c sqid new_db old_db) (y_dev y) (λ db d', ∃ y' k, y_dev y' = d' ∧
    served y y' sqid n cqid old_db k ∧ 0 ≤ k ≤ (new_db - old_db) mod n ∧ db = (old_db + k) mod n ∧
    (k = (new_db - old_db) mod n ∨ was_refused y y' sqid ((old_db + k) mod n))).
Proof.
  intros Sv Ho Hn. pose proof (sv_queue _ _ _ _ Sv) as Hsq. unfold sq_info in Hsq.
  destruct (aget (d_sqes (y_dev y)) sqid) as [[sq|]|] eqn:Eq; [|done|done]. injection Hsq as Hsz Hcq.
  unfold nvmev_proc_io_sq, get_sq. wp_step. wp_step. wp_step. apply (wp_aread _ _ (Some sq)); [done|].
  rewrite Hsz. set (np := if new_db - old_db <? 0 then _ else _).
  assert (np = (new_db - old_db) mod n) as Hnp.
  { unfold np. destruct (Z.ltb_spec (new_db - old_db) 0).
    - apply (Z.mod_unique _ _ (-1)); lia.
    - apply (Z.mod_unique _ _ 0); lia. }
  pose proof (Z.mod_pos_bound (new_db - old_db) n ltac:(lia)) as Hb. rewrite <- Hnp in Hb.
  wp_step.
  apply (wp_while (λ '(k, e) d', 0 ≤ k ≤ np ∧ e = (old_db + k) mod n ∧
    ∃ y', y_dev y' = d' ∧ served y y' sqid n cqid old_db k) (λ '(k, _), np - k)).
  - split_and!; [lia|lia|by rewrite Z.add_0_r, Z.mod_small|]. exists y. split; [done|].
    split; [by apply ran_refl; apply Sv|done|]. exists []. rewrite app_nil_r. by split_and!; [..|left].
  - lia.
  - intros [k e] d1 (Hk & -> & y1 & <- & Se). split; [lia|].
    assert (∀ k y2, 0 ≤ k ≤ np → served y y2 sqid n cqid old_db k →
      k = np ∨ was_refused y y2 sqid ((old_db + k) mod n) →
      wp (upd_stat stat_dispatch sqid ;;
          if n =? 0 then throw OOPS else mret (Z.rem (old_db + k) n)) (y_dev y2)
        (λ db d', ∃ y' k, y_dev y' = d' ∧ served y y' sqid n cqid old_db k ∧
          0 ≤ k ≤ (new_db - old_db) mod n ∧ db = (old_db + k) mod n ∧
          (k = (new_db - old_db) mod n ∨ was_refused y y' sqid ((old_db + k) mod n)))) as Hend.
    { intros k2 y2 Hk2 Se2 Hwhy. wp_step. eapply wp_mono; [apply wp_upd_stat, Se2|].
      intros [] d3 (y3 & <- & R3 & Sv3 & Hst3). destruct (Z.eqb_spec n 0); [lia|]. wp_step.
      exists y3, k2. split_and!; try lia; [done| |rewrite Z.rem_mod_nonneg by lia; done|].
      - eapply served_same; [done..|by rewrite Hst3].
      - destruct Hwhy as [?|(y' & ? & ? & ?)]; [left; lia|right]. exists y'.
        split_and!; [done| |done]. etransitivity; [done|apply R3]. }
    destruct (Z.ltb_spec k np) as [Hlt|Hge]; [|wp_step; apply Hend; [done|done|left; lia]].
    wp_step. eapply wp_mono.
    { apply wp_proc_io; [apply Se|]. apply Z.mod_pos_bound. lia. }
    intros [sz|] d2 (y2 & <- & R2 & Sv2 & Hsaid & Hq2).
    + wp_step. eapply wp_mono; [by apply wp_upd_stat|].
      intros [] d3 (y3 & <- & R3 & Sv3 & Hst3). wp_step. split; [|lia]. split_and!; [lia|lia| |].
      * pose proof (Z.mod_pos_bound (old_db + k) n ltac:(lia)).
        destruct (Z.eqb_spec ((old_db + k) mod n + 1) n) as [E|E].
        -- apply (Z.mod_unique _ _ ((old_db + k) / n + 1)); [lia|].
           pose proof (Z.div_mod (old_db + k) n ltac:(lia)). lia.
        -- apply (Z.mod_unique _ _ ((old_db + k) / n)); [lia|].
           pose proof (Z.div_mod (old_db + k) n ltac:(lia)). lia.
      * exists y3. split; [done|]. eapply served_same; [|exact R3|done|by rewrite Hst3].
        eapply served_more; [done|lia|done|done|done].
    + wp_step. apply Hend; [lia|by eapply served_same|right]. exists y1.
      split_and!; [apply Se|apply R2|done].
Qed.
End dispatcher.

(** ** Completion doorbells *)

Section doorbells.
Context {F : Type} `{CK : !Clock} `{LC : !LocalClock} `{IC : !IoConfig} `{HD : !IoHandler F}
  `{DC : !DmaCore}.
Context (c : ssd_config) (pfn_valid : Z → bool).
Implicit Types (d : nvmev_dev F) (y : io_sys F).
#[local] Abbreviation inv := (sys_inv c).

(** The submission queue a posted completion names has an index. *)
Lemma posted_queue y q n w :
  inv y → posted_to q (y_finished y) !! n = Some w → 0 ≤ u16 (w_sqid w) < alen (d_sqes (y_dev y)).
Proof.
  intros Y Hw. apply list_elem_of_lookup_2 in Hw. unfold posted_to in Hw.
  apply list_elem_of_filter in Hw as [[Hint _] Hw].
  apply list_elem_of_fmap in Hw as (x & -> & Hw). apply list_elem_of_fmap in Hw as (z & -> & Hz).
  pose proof (proj1 (Forall_forall _ _) (si_posted _ _ Y) _ Hz Hint) as [n' Hn]. unfold sq_size in Hn.
  destruct (aget (d_sqes (y_dev y)) (w_sqid z.1.2)) as [o|] eqn:Hq; [|done].
  pose proof (aget_inv _ _ _ Hq) as Hr. pose proof (u16_range (w_sqid z.1.2)).
  pose proof (Z.mod_le (w_sqid z.1.2) (2 ^ 16) ltac:(lia) ltac:(lia)). unfold u16 in *. lia.
Qed.

Lemma env_refl y : inv y → env_step c (y_dev y) (y_dev y).
Proof. intros Y. split; try done; [apply Y|]. intros q cq Hq. by exists cq. Qed.

Lemma env_trans d1 d2 d3 : env_step c d1 d2 → env_step c d2 d3 → env_step c d1 d3.
Proof.
  intros [A1 A2 A3 A4 A5 A6 A7 A8] [B1 B2 B3 B4 B5 B6 B7 B8]. split; try congruence; try done.
  intros q cq'' Hq''. destruct (B8 _ _ Hq'') as (cq' & Hq' & ? & ? & ? & ?).
  destruct (A8 _ _ Hq') as (cq & Hq & ? & ? & ? & ?). exists cq. split_and!; congruence.
Qed.

(** Updating the statistics of a queue that exists. *)
Lemma wp_upd_stat_env y f q sq :
  inv y → aget (d_sqes (y_dev y)) q = Some (Some sq) →
  wp (upd_stat f q) (y_dev y) (λ _ d', env_step c (y_dev y) d' ∧ d_cqes d' = d_cqes (y_dev y) ∧
    alen (d_sqes d') = alen (d_sqes (y_dev y))).
Proof.
  intros Y Hq. unfold upd_stat, get_sq, put_sq. wp_step. wp_step. wp_step. wp_step.
  apply (wp_aread _ _ (Some sq)); [done|]. apply (wp_deref _ _ sq); [done|]. wp_step. wp_step. wp_step.
  apply wp_awrite; [by eapply aget_inv|]. wp_step.
  set (sq' := SubmissionQueue _ _ _ _). set (d' := set_sqes _ _).
  assert (sq_ok c (y_dev y) sq') as Hok by (destruct (si_sqs _ _ Y _ _ Hq); by split).
  destruct (env_put_sq c y d' q sq sq' Y Hq eq_refl eq_refl Hok) as [Henv _]; try done.
  split_and!; [done|done|]. simpl. by rewrite alen_aset.
Qed.

(** The ring slots from [h] on, round the queue, as the loop walks them: after the
    last slot it visits the index behind it. *)
Definition ring_at (size h j : Z) (behind : bool) : Z := if behind then size else (h + j) mod size.

Lemma wp_proc_io_cq y cqid cq h k :
  inv y → aget (d_cqes (y_dev y)) cqid = Some (Some cq) →
  let size := cq_queue_size cq in
  let l := posted_to cqid (y_finished y) in
  0 ≤ h → Z.of_nat (length l) - size ≤ h → 0 ≤ k < size → h + k ≤ Z.of_nat (length l) →
  wp (nvmev_proc_io_cq cqid ((h + k) mod size) (h mod size)) (y_dev y)
    (λ _ d', env_step c (y_dev y) d').
Proof.
  intros Y Hcq size l Hh Hold Hk Hnew. pose proof (si_rings _ _ Y _ _ Hcq) as R.
  pose proof (Z.mod_pos_bound (h + k) size ltac:(lia)) as Hnb.
  unfold nvmev_proc_io_cq, get_cq. wp_step. wp_step. wp_step. wp_step.
  apply (wp_aread _ _ (Some cq)); [done|]. apply (wp_deref _ _ cq); [done|]. fold size. wp_step.
  apply (wp_while_ghost (λ '(j, b) i d, i = ring_at size h j b ∧ 0 ≤ j ≤ k ∧
      (b = true → (h + j) mod size = 0) ∧ env_step c (y_dev y) d ∧ d_cqes d = d_cqes (y_dev y) ∧
      alen (d_sqes d) = alen (d_sqes (y_dev y)))
    (λ '(j, b), 2 * (k - j) + Z.b2z b) _ _ (0, false)).
  - split_and!; try done; try lia; [simpl; by rewrite Z.add_0_r|by apply env_refl].
  - simpl. lia.
  - intros [j b] i d (-> & Hj & Hb & E & Hc & Ha). split; [destruct b; simpl; lia|].
    pose proof (Z.mod_pos_bound (h + j) size ltac:(lia)) as Hjb. destruct b; simpl.
    + rewrite (proj2 (Z.eqb_neq _ _)), Z.leb_refl by lia. wp_step. exists (j, false).
      split; [|simpl; lia]. split_and!; try done; try lia. simpl. symmetry. by apply Hb.
    + destruct (Z.eqb_spec ((h + j) mod size) ((h + k) mod size)) as [Heq|Hne].
      { wp_step. wp_step. wp_step. wp_step. wp_step. apply (wp_aread _ _ (Some cq)); [by rewrite Hc|].
        apply (wp_deref _ _ cq); [done|]. unfold put_cq. wp_step. wp_step. wp_step.
        apply wp_awrite; [rewrite Hc; by eapply aget_inv|]. wp_step. eapply env_trans; [exact E|].
        pose proof (env_inv c y d Y E) as Yd. split; try done; simpl.
        - intros q sq Hq. eapply sq_ok_ext; [|by eapply (si_sqs _ _ Yd)]. done.
        - intros q. unfold cq_here. simpl. rewrite Hc, aget_aset by (by eapply aget_inv).
          case_decide; [|done]. subst q. by rewrite Hcq.
        - intros q cq'. rewrite Hc, aget_aset by (by eapply aget_inv). case_decide; [|intros Hq; by exists cq'].
          subst q. intros [= <-]. by exists cq. }
      assert (j ≠ k) as Hjk by (by intros ->).
      rewrite (proj2 (Z.leb_gt _ _)) by lia. wp_step. wp_step. wp_step. wp_step.
      apply (wp_aread _ _ (Some cq)); [by rewrite Hc|]. apply (wp_deref _ _ cq); [done|].
      destruct (lookup_lt_is_Some_2 l (Z.to_nat (h + j))) as [w Hw]; [lia|].
      pose proof (rg_slots _ _ R _ _ Hw) as Hs. rewrite Z2Nat.id in Hs by lia.
      fold l size in Hs. specialize (Hs ltac:(lia)).
      wp_step. unfold cq_entry. eapply wp_page_entry; [exact Hs|]. cbn [completion_of cqe_sq_id].
      wp_step. unfold get_sq. wp_step. wp_step.
      destruct (aget_some (d_sqes d) (u16 (w_sqid w))) as [o Ho].
      { rewrite Ha. by eapply posted_queue. }
      apply (wp_aread _ _ o); [done|]. pose proof (env_inv c y d Y E) as Yd.
      assert (∀ d', env_step c d d' → d_cqes d' = d_cqes d → alen (d_sqes d') = alen (d_sqes d) →
        ∃ j' b', ((h + j) mod size + 1 = ring_at size h j' b' ∧ 0 ≤ j' ≤ k ∧
          (b' = true → (h + j') mod size = 0) ∧ env_step c (y_dev y) d' ∧
          d_cqes d' = d_cqes (y_dev y) ∧ alen (d_sqes d') = alen (d_sqes (y_dev y))) ∧
          2 * (k - j') + Z.b2z b' < 2 * (k - j) + 0) as Hnext.
      { intros d' E' Hc' Ha'. pose proof (ring_next (h + j) size ltac:(lia) ltac:(lia)) as [Hn _].
        rewrite <- Z.add_assoc in Hn. exists (j + 1), ((h + j) mod size + 1 =? size).
        destruct (Z.eqb_spec ((h + j) mod size + 1) size) as [En|En]; simpl; (split; [|lia]);
          split_and!; try done; try lia; try congruence; by eapply env_trans. }
      destruct o as [sq|]; wp_step.
      2:{ destruct (Hnext d) as (j' & b' & H1 & H2); [by apply (env_refl (IoSys d (y_cursors y) (y_disp y)
            (y_started y) (y_finished y)))|done|done|]. by exists (j', b'). }
      pose proof (wp_upd_stat_env (IoSys d (y_cursors y) (y_disp y) (y_started y) (y_finished y))
        stat_completed _ sq Yd Ho) as Hu.
      eapply wp_mono; [exact Hu|]. intros [] d' (E' & Hc' & Ha'). wp_step.
      destruct (Hnext d' E' Hc' Ha') as (j' & b' & H1 & H2). by exists (j', b').
Qed.

(** A doorbell that is no slot of the ring nor the index behind it: the index wraps
    before it gets there, and the loop has no end. *)
Lemma proc_io_cq_runs_on y cqid cq new old a d' :
  aget (d_cqes (y_dev y)) cqid = Some (Some cq) → 0 ≤ old ≤ cq_queue_size cq →
  new < 0 ∨ cq_queue_size cq < new →
  nvmev_proc_io_cq cqid new old (y_dev y) ≠ Ok (a, d').
Proof.
  intros Hcq Hold Hnew. unfold nvmev_proc_io_cq, get_cq.
  assert (∀ d, aget (d_cqes d) cqid = Some (Some cq) →
    (o ← (d ← get; aread (d_cqes d) cqid); deref o) d = Ok (cq, d)) as Hget.
  { intros d Hd. unfold mbind, M_bind, get, aread. by rewrite Hd. }
  assert (∀ (A : Type) (m : M (nvmev_dev F) A) (k : A → M (nvmev_dev F) unit) s r,
    (∀ x s', m s ≠ Ok (x, s')) → (m ≫= k) s ≠ Ok r) as Hbind.
  { intros A m k s r Hm. unfold mbind, M_bind. destruct (m s) as [[x s']|] eqn:E; [|done].
    by destruct (Hm x s'). }
  unfold mbind at 1, M_bind at 1. rewrite Hget by done. apply Hbind. intros [] d1.
  apply (while_never (λ i d, 0 ≤ i ≤ cq_queue_size cq ∧ aget (d_cqes d) cqid = Some (Some cq)));
    [|done].
  intros i d v d2 [Hi Hd]. rewrite (proj2 (Z.eqb_neq _ _)) by lia.
  destruct (Z.leb_spec (cq_queue_size cq) i) as [Hle|Hlt].
  { intros [= <- <-]. exists 0. split; [done|]. split; [lia|done]. }
  unfold mbind at 1, M_bind at 1. rewrite Hget by done. intros Hrun.
  assert (keeps d_cqes (e ← cq_entry cq i; o ← get_sq (cqe_sq_id e);
    match o with
    | None => mret (inl (i + 1))
    | Some _ => upd_stat stat_completed (cqe_sq_id e) ;; mret (inl (i + 1))
    end : M (nvmev_dev F) (Z + ()))) as Hk.
  { unfold cq_entry, page_entry, upd_stat, get_sq. keeps. }
  assert (v = inl (i + 1)) as ->.
  { clear Hk. revert Hrun. unfold mbind, M_bind. destruct (cq_entry cq i d) as [[e d3]|]; [|done].
    destruct (get_sq _ d3) as [[[sq|] d4]|]; [|by intros [= <- _]|done].
    destruct (upd_stat _ _ d4) as [[[] d5]|]; [|done]. by intros [= <- _]. }
  exists (i + 1). split; [done|]. split; [lia|]. by rewrite (Hk _ _ _ Hrun).
Qed.
End doorbells.
