(* ===== verification/IoScan.v ===== *)
(** * Scans of the work queue

    The list of a worker as the code walks it, and a worker's undisturbed scan of
    it, which finishes every item that is due. *)

From Stdlib Require Import ZArith Lia Sorted.
From stdpp Require Import base numbers list gmap.
From S2P Require Import Prelude Config ChannelModel Nvme FdpLog WorkQueue Dma IoData Io IoInv IoSteps IoDispatch.

#[local] Open Scope Z_scope.

(** The items met by following [next] from [x]. *)
Fixpoint follow (q : arr nvmev_io_work) (fuel : nat) (x : Z) : list Z :=
  match fuel with
  | O => []
  | S n => if x =? NIL then [] else x :: follow q n (default NIL (nxt q x))
  end.
(** The items in use, in order. *)
Definition queued `{!IoConfig} (k : nvmev_io_worker) : list Z :=
  follow (work_queue k) (Z.to_nat NR_MAX_PARALLEL_IO) (io_seq k).

Lemma follow_chain q l fuel :
  nchain (nxt q) l NIL → (∀ x, x ∈ l → x ≠ NIL) → (length l ≤ fuel)%nat →
  follow q fuel (default NIL (head l)) = l.
Proof.
  revert fuel. induction l as [|x l IH]; intros fuel Hc Hn Hl.
  { destruct fuel; [done|]. simpl. by rewrite Z.eqb_refl. }
  destruct fuel as [|fuel]; simpl in Hl; [lia|]. destruct Hc as [Hx Hc]. simpl.
  rewrite (proj2 (Z.eqb_neq _ _)) by (apply Hn; set_solver). rewrite Hx. simpl. f_equal.
  apply IH; [done| |lia]. intros z Hz. apply Hn. set_solver.
Qed.

Section scan.
Context `{IC : !IoConfig}.
Hypothesis nr_range : 2 ≤ NR_MAX_PARALLEL_IO < 2 ^ 31.

Lemma queued_io top out io fresh used k : wq_inv top out io fresh used k → queued k = io.
Proof.
  intros W. unfold queued. rewrite (wq_io_head _ _ _ _ _ _ W). apply follow_chain; [apply W| |].
  - intros x Hx. eapply wq_not_nil; [done|exact W|]. set_solver.
  - pose proof (wq_length nr_range _ _ _ _ _ _ W). lia.
Qed.

Lemma queued_touched x k k' : touched x k k' → queued k' = queued k.
Proof.
  intros T. unfold queued. rewrite (to_head _ _ _ T). generalize (io_seq k) as z.
  induction (Z.to_nat NR_MAX_PARALLEL_IO) as [|n IH]; intros z; simpl; [done|].
  rewrite (to_next _ _ _ T). by rewrite IH.
Qed.
End scan.

Section scans.
Context {F : Type} `{CK : !Clock} `{LC : !LocalClock} `{IC : !IoConfig} `{HD : !IoHandler F}
  `{DC : !DmaCore}.
Context (c : ssd_config) (pfn_valid : Z → bool).
Hypothesis nr_range : 2 ≤ NR_MAX_PARALLEL_IO < 2 ^ 31.
Hypothesis release_returns : ∀ b n (f : F), wp (release_buffer b n) f (λ _ _, True).
Implicit Types (d : nvmev_dev F) (y : io_sys F).
#[local] Abbreviation step := (io_step c pfn_valid).
#[local] Abbreviation inv := (sys_inv c).

(** ** The clock readings of a visit *)

(** The clock readings so far, and the time worker [i] read last. *)
Definition read_times (i : Z) d : Z * option Z :=
  (d_lticks d, latest_nsecs <$> aget (d_io_workers d) i).

Lemma keeps_read_times {A} i (m : M nvmev_io_worker A) :
  keeps latest_nsecs m → keeps (read_times i) (on_worker i m).
Proof.
  intros Hm d a d'. unfold on_worker, read_times. destruct (aget (d_io_workers d) i) as [k|] eqn:Hk; [|done].
  destruct (m k) as [[b k']|] eqn:Hr; [|done]. intros [= _ <-]. simpl.
  rewrite aget_aset_eq by (by eapply aget_inv). simpl. by rewrite (Hm _ _ _ Hr).
Qed.
Lemma keeps_wq_get x : keeps latest_nsecs (wq_get x).
Proof. unfold wq_get. keeps. Qed.
Lemma keeps_wq_upd x g : keeps latest_nsecs (wq_upd x g).
Proof.
  intros k a k'. unfold wq_upd, mbind, M_bind, get, aread, deref.
  destruct (aget (work_queue k) x) as [w|]; simpl; [|done]. unfold awrite.
  destruct (in_range _ _); simpl; [|done]. by intros [= _ <-].
Qed.
#[local] Hint Resolve keeps_read_times keeps_wq_get keeps_wq_upd : keeps.

(** A visit reads the clock once, and the worker keeps the time read. *)
Lemma visit_reads i dl x d d' k' :
  io_worker_visit c pfn_valid i dl x d = Ok (tt, d') → aget (d_io_workers d') i = Some k' →
  d_lticks d' = d_lticks d + 1 ∧ latest_nsecs k' = u64 (local_clock (d_lticks d) + dl).
Proof.
  unfold io_worker_visit. unfold mbind at 1, M_bind at 1, read_local_clock. cbv zeta.
  set (t := u64 _). set (d1 := set_clocks _ _ _). unfold mbind at 1, M_bind at 1.
  destruct (on_worker i (modify (set_latest_nsecs t)) d1) as [[[] d2]|] eqn:H2; [|done].
  match goal with |- ?m d2 = _ → _ => assert (keeps (read_times i) m) as Hk end.
  { unfold perform_io, fill_cq_result, sq_entry, set_page_entry, page_entry, get_sq, get_cq. keeps.
    apply keeps_zoom. by intros [??] ?. }
  intros Hr Hk'. pose proof (Hk _ _ _ Hr) as He. unfold read_times in He. rewrite Hk' in He.
  injection He as -> Hl. revert H2. unfold on_worker. subst d1. simpl.
  destruct (aget (d_io_workers d) i) as [k|] eqn:Hw; [|done]. intros [= <-]. split; [done|].
  simpl in Hl. rewrite aget_aset_eq in Hl by (by eapply aget_inv). by injection Hl as ->.
Qed.

(** ** Scans *)

(** Item [j] is completed or due after [T]. *)
Definition settled (T : Z) (k : nvmev_io_worker) (j : Z) : Prop :=
  w_is_completed (item (work_queue k) j) = true ∨ T < due (work_queue k) j.

(** A scan at work: the items [l1] are behind the cursor. *)
Record scanning y0 (i dl T : Z) (k0 : nvmev_io_worker) (l1 l2 : list Z) y (k : nvmev_io_worker)
    : Prop := {
  sc_steps : rtc step y0 y;
  sc_inv : inv y;
  sc_nr : d_nr_io_workers (y_dev y) = d_nr_io_workers (y_dev y0);
  sc_disp : y_disp y = y_disp y0;
  sc_started : y_started y = y_started y0;
  sc_cursor : y_cursors y i = At dl (default NIL (head l2));
  sc_worker : aget (d_io_workers (y_dev y)) i = Some k;
  sc_queued : queued k = queued k0;
  sc_next j : nxt (work_queue k) j = nxt (work_queue k0) j;
  sc_list : queued k0 = l1 ++ l2;
  sc_settled : Forall (settled T k) l1;
  sc_ticks : d_lticks (y_dev y) = d_lticks (y_dev y0) + Z.of_nat (length l1);
}.

(** The clock of the workers reads at least [T] at each of the [n] readings from [d]
    on. *)
Definition reads_from d (dl T : Z) (n : nat) : Prop :=
  ∀ j, 0 ≤ j < Z.of_nat n → T ≤ u64 (local_clock (d_lticks d + j) + dl).

(** One visit and the step to the next item. *)
Lemma wp_scan_one y0 i dl T k0 l1 x l2 y k :
  0 ≤ i < d_nr_io_workers (y_dev y0) → reads_from (y_dev y0) dl T (length (l1 ++ x :: l2)) →
  x ≠ NIL → nchain (nxt (work_queue k0)) (l1 ++ x :: l2) NIL → NoDup (l1 ++ x :: l2) →
  scanning y0 i dl T k0 l1 (x :: l2) y k →
  wp (io_worker_visit c pfn_valid i dl x ;; io_worker_next i x) (y_dev y)
    (λ n d', n = default NIL (head l2) ∧
      ∃ y' k', y_dev y' = d' ∧ scanning y0 i dl T k0 (l1 ++ [x]) l2 y' k').
Proof.
  intros Hi HT Hx Hchain Hnd [S1 S2 S3 S4 S5 S6 S7 S8 S9 S10 S11 S12]. simpl in S6.
  assert (0 ≤ i < d_nr_io_workers (y_dev y)) as Hi' by by rewrite S3.
  pose proof (wp_visit c pfn_valid nr_range release_returns y i dl x S2 Hi' S6 Hx) as Hv.
  apply wp_Ok in Hv as ([] & d1 & Hr & Sb & Y1 & k1 & k2 & Hk1 & Hk2 & To & _ & Hend).
  destruct (visit_reads _ _ _ _ _ _ Hr Hk2) as [Hticks Hm].
  assert (k1 = k) as -> by congruence. wp_step. eapply wp_intro; [exact Hr|].
  set (y1 := visited y d1 i dl x) in *.
  assert (y_cursors y1 i = After dl x) as Hcu by (simpl; unfold set_cursor; by rewrite decide_True).
  assert (0 ≤ i < d_nr_io_workers (y_dev y1)) as Hi1 by (simpl; by rewrite (sb_nr _ _ _ Sb)).
  pose proof (wp_next c nr_range y1 i dl x Y1 Hi1 Hcu) as Hw.
  assert (∃ w, aget (work_queue k2) x = Some w ∧ w_next w = default NIL (head l2)) as (w & Hw2 & Hnw).
  { apply nchain_app in Hchain as [_ [Hn _]]. rewrite <- S9, <- (to_next _ _ _ To) in Hn.
    unfold nxt in Hn. destruct (aget (work_queue k2) x) as [w|]; [|done]. exists w.
    split; [done|]. simpl in Hn. congruence. }
  assert (io_worker_next i x d1 = Ok (w_next w, set_io_workers (aset (d_io_workers d1) i k2) d1)) as Hr2.
  { unfold io_worker_next, on_worker, wq_get, mbind, M_bind. rewrite Hk2. simpl.
    unfold aread. rewrite Hw2. done. }
  unfold wp in Hw. simpl in Hw. rewrite Hr2 in Hw. destruct Hw as [Sb2 Y2].
  eapply wp_intro; [exact Hr2|]. split; [done|].
  eexists (IoSys _ _ _ _ _), k2. split; [reflexivity|]. split; [|exact Y2|..]; simpl.
  - eapply rtc_r; [eapply rtc_r; [exact S1|]|].
    + exact (step_visit c pfn_valid y i dl x d1 Hi' S6 Hx Hr).
    + exact (step_next c pfn_valid y1 i dl x _ _ Hi1 Hcu Hr2).
  - by rewrite (sb_nr _ _ _ Sb).
  - done.
  - done.
  - unfold set_cursor. by rewrite decide_True, Hnw.
  - apply aget_aset_eq. by eapply aget_inv.
  - by rewrite (queued_touched _ _ _ To).
  - intros j. by rewrite (to_next _ _ _ To).
  - by rewrite S10, <- app_assoc.
  - apply Forall_app. split.
    + apply Forall_forall. intros j Hj. pose proof (proj1 (Forall_forall _ _) S11 _ Hj) as Hs.
      unfold settled, due in *. rewrite (to_item _ _ _ To); [done|]. intros ->.
      apply NoDup_app in Hnd as (_ & Hd & _). apply (Hd x Hj). set_solver.
    + constructor; [|constructor]. destruct Hend as [Hc|Hl]; [by left|right].
      assert (due (work_queue k2) x = due (work_queue k) x) as ->.
      { pose proof (f_equal w_nsecs_target (to_ident _ _ _ To)) as He. exact He. }
      specialize (HT (Z.of_nat (length l1))). rewrite <- S12, length_app in HT. simpl in HT.
      specialize (HT ltac:(lia)). lia.
  - rewrite Hticks, S12, length_app. simpl. lia.
Qed.

(** A scan settles every item in the queue. *)
Lemma wp_scan y0 i dl T k0 :
  inv y0 → 0 ≤ i < d_nr_io_workers (y_dev y0) → y_cursors y0 i = Idle →
  aget (d_io_workers (y_dev y0)) i = Some k0 → reads_from (y_dev y0) dl T (length (queued k0)) →
  wp (io_worker_scan c pfn_valid i dl) (y_dev y0) (λ _ d', ∃ y' k', y_dev y' = d' ∧
    scanning y0 i dl T k0 (queued k0) [] y' k').
Proof.
  intros Y Hi Hcu Hk HT. destruct (si_workers _ _ Y i Hi) as (k & Hk' & top & io & fresh & used & W).
  assert (k = k0) as -> by congruence. destruct W as [W _ _ _ _].
  pose proof (queued_io nr_range _ _ _ _ _ _ W) as Hio.
  assert (∀ x, x ∈ io → x ≠ NIL) as Hnil.
  { intros x Hx. eapply wq_not_nil; [done|exact W|]. set_solver. }
  assert (NoDup io) as Hnd.
  { pose proof (wq_nodup _ _ _ _ _ _ W) as Hnd. apply NoDup_app in Hnd as (_ & _ & Hnd).
    by apply NoDup_app in Hnd as (Hnd & _ & _). }
  unfold io_worker_scan. wp_step. wp_step. wp_step. apply (wp_aread _ _ k0); [done|].
  pose proof (wq_length nr_range _ _ _ _ _ _ W) as Hlen.
  rewrite (wq_io_head _ _ _ _ _ _ W). rewrite Hio.
  set (y1 := IoSys (y_dev y0) (set_cursor (y_cursors y0) i (At dl (io_seq k0)))
    (y_disp y0) (y_started y0) (y_finished y0)).
  assert (step y0 y1) as Hbegin by by apply step_begin.
  apply (wp_while_ghost (λ l2 x d, x = default NIL (head l2) ∧ ∃ l1 y k, y_dev y = d ∧
    scanning y0 i dl T k0 l1 l2 y k) (λ l2, Z.of_nat (length l2)) _ _ io).
  - split; [done|]. exists [], y1, k0. split; [done|].
    split; try done; simpl.
    + by apply rtc_once.
    + by apply (step_inv c pfn_valid nr_range release_returns _ _ Hbegin).
    + unfold set_cursor. rewrite decide_True by done. by rewrite (wq_io_head _ _ _ _ _ _ W).
    + lia.
  - lia.
  - intros l2 x d (-> & l1 & y & k & <- & Sc). split; [lia|]. destruct l2 as [|x l2]; simpl.
    { rewrite Z.eqb_refl. wp_step. exists y, k. split; [done|].
      pose proof (sc_list _ _ _ _ _ _ _ _ _ Sc) as Hl. rewrite app_nil_r in Hl. congruence. }
    pose proof (sc_list _ _ _ _ _ _ _ _ _ Sc) as Hl. rewrite Hio in Hl.
    pose proof (wq_io_next _ _ _ _ _ _ W) as Hchain. rewrite Hl in Hnil, Hnd, Hchain.
    assert (x ≠ NIL) as Hx by (apply Hnil; clear; set_solver).
    rewrite (proj2 (Z.eqb_neq _ _) Hx). wp_step.
    eapply wp_mono; [apply (wp_scan_one y0 i dl T k0 l1 x l2 y k); try done; by rewrite <- Hl, <- Hio|].
    intros n d' (-> & y' & k' & <- & Sc'). wp_step. exists l2. split; [|lia]. eauto 8.
Qed.

(** After a scan nothing that was due at [T] is pending, and a reclaim empties the
    queue if everything was due. *)
Lemma scan_settles y0 i dl T k0 y k :
  0 ≤ i < d_nr_io_workers (y_dev y0) → y_disp y0 = None →
  scanning y0 i dl T k0 (queued k0) [] y k →
  ∃ rest, started_of i (y_started y) ≡ₚ finished_of i (y_finished y) ++ rest ∧
    Forall (λ w, T < w_nsecs_target w) rest.
Proof.
  intros Hi Hd Sc. assert (0 ≤ i < d_nr_io_workers (y_dev y)) as Hi'.
  { by rewrite (sc_nr _ _ _ _ _ _ _ _ _ Sc). }
  destruct (si_workers _ _ (sc_inv _ _ _ _ _ _ _ _ _ Sc) i Hi')
    as (k' & Hk' & top & io & fresh & used & W).
  assert (k' = k) as ->. { rewrite (sc_worker _ _ _ _ _ _ _ _ _ Sc) in Hk'. congruence. }
  rewrite (sc_disp _ _ _ _ _ _ _ _ _ Sc), Hd in W. destruct W as [W _ _ _ Hlog]. simpl in *.
  exists (pending (work_queue k) io). split; [done|].
  pose proof (queued_io nr_range _ _ _ _ _ _ W) as Hio. rewrite (sc_queued _ _ _ _ _ _ _ _ _ Sc) in Hio.
  pose proof (sc_settled _ _ _ _ _ _ _ _ _ Sc) as Hs. rewrite Hio in Hs.
  apply Forall_forall. intros w Hw. unfold pending in Hw.
  apply list_elem_of_fmap in Hw as (j & -> & Hj). apply list_elem_of_filter in Hj as [Hc Hj].
  pose proof (proj1 (Forall_forall _ _) Hs _ Hj) as [Hcm|Hdue]; [congruence|]. exact Hdue.
Qed.
End scans.
