(* ===== verification/IoProps.v ===== *)
(** * Properties of the I/O engine *)

From Stdlib Require Import ZArith Lia Sorted.
From stdpp Require Import base numbers list strings gmap.
From S2P Require Import Prelude Config ChannelModel Nvme FdpLog WorkQueue Dma IoData Io IoInv IoSteps IoDispatch IoScan.

#[local] Open Scope Z_scope.

(** ** A small device

    One worker with four items, one queue pair with two entries, and a handler that
    takes ten nanoseconds for every command. *)

Module Demo.
#[global] Instance clock : Clock | 100 := λ n, 100 + Z.abs n.
#[global] Instance lclock : LocalClock | 100 := λ n, 100 + Z.abs n.
#[global] Instance four_items : IoConfig | 100 := 4.
(** One channel; transfers complete at once. *)
#[global] Instance dma : DmaCore | 100 := {
  dma_chan_name _ := "dma7chan0"%string;
  dma_dev_name _ := "dma7"%string;
  dma_has_cap cap _ := match cap with DMA_MEMCPY => true | DMA_COMPLETION_NO_ORDER => false end;
  dma_nr_channels := 1;
  dma_request_channel l f := if held 0 l then None else if f 0 then Some 0 else None;
  dma_kmalloc _ := true;
  device_prep_dma_memcpy _ := true;
  tx_submit _ := 1;
  dma_sync_wait l m := match l with
    | _ :: _ :: CallPrep _ dst src n _ :: _ => (DMA_COMPLETE, memcpy dst src n m)
    | _ => (DMA_COMPLETE, m)
    end;
  dma_callback_in_time l m := match l with
    | _ :: _ :: _ :: CallPrep _ dst src n _ :: _ => (true, memcpy dst src n m)
    | _ => (true, m)
    end;
  dma_async_is_tx_complete _ := DMA_COMPLETE;
}.
#[global] Instance dma_laws : DmaLaws | 100.
Proof.
  split.
  - intros l f chan. unfold dma_request_channel, dma. destruct (held 0 l) eqn:Hh; [done|].
    destruct (f 0) eqn:Hf; [|done]. intros [= <-]. split_and!; try done.
  - intros chan cookie dst src n i l m m' [= <-] a. done.
  - intros chan dst src n i l m m' [= <-] a. done.
Qed.
Lemma dma_ok : dma_completes.
Proof.
  split; try done.
  - intros l m. unfold dma_sync_wait, dma. by repeat case_match.
  - intros l m. unfold dma_callback_in_time, dma. by repeat case_match.
Qed.
(** The driver after the channel was set. *)
Definition dma_state : dma_drv :=
  match ioat_dma_chan_set "dma7chan0" dma_start with Ok (_, s) => s | Fault _ => dma_start end.
Lemma dma_state_ready :
  ioat_dma_chan_set "dma7chan0" dma_start = Ok (0, dma_state) ∧ dma_ready dma_state.
Proof. split; [vm_compute; reflexivity|]. split; [reflexivity|]. by exists 0. Qed.
#[global] Instance handler : IoHandler unit | 100 := {
  proc_io_cmd _ cmd _ start ret := mret (true, Result (ret_status ret) (start + 10) 7, cmd, []);
  releases_buffers := true;
  release_buffer _ _ := mret tt;
}.
#[global] Instance laws : IoHandlerLaws unit SAMSUNG_FDP | 100.
Proof.
  refine {| h_inv := λ _, True; h_cmd := copy_safe SAMSUNG_FDP |}.
  - intros [] ns cmd sqid start ret _ Hc _. by wp_steps.
  - done.
Defined.

Definition cmd : nvme_command := NvmeCommand 5 (RwCmd nvme_cmd_write 1 0 0 0 0) 4096 0.
Definition sq : nvmev_submission_queue :=
  SubmissionQueue 1 2 (SqStat 0 0 0 0 0) (anew 1 (anew 64 cmd)).
Definition cq : nvmev_completion_queue :=
  CompletionQueue 3 true false 2 1 0 (-1) (anew 1 (anew 256 (Completion 0 0 0 0 0 0))).
Definition dev : nvmev_dev unit :=
  NvmevDev (abuild 1 (init_worker 0) init_worker) 1 0
    (aset (anew (NR_MAX_IO_QUEUE + 1) None) 1 (Some sq))
    (aset (anew (NR_MAX_IO_QUEUE + 1) None) 1 (Some cq))
    (anew 1 (2 ^ 20)) (2 ^ 20) false (λ a, a mod 256) dma_state tt [] 0 0.

Lemma nr_range : 2 ≤ NR_MAX_PARALLEL_IO < 2 ^ 31.
Proof. by vm_compute. Qed.
Lemma clock_range n : 0 ≤ cpu_clock n.
Proof. unfold cpu_clock, clock. lia. Qed.
Lemma release_returns b n (f : unit) : wp (release_buffer b n) f (λ _ _, True).
Proof. done. Qed.
Lemma cmd_safe : copy_safe SAMSUNG_FDP cmd.
Proof. by vm_compute. Qed.

Lemma page_get_anew {A} (x : A) per e : 0 ≤ e < per → page_get (anew 1 (anew per x)) per e = Some x.
Proof.
  intros He. unfold page_get. rewrite Z.div_small, Z.mod_small by lia.
  rewrite aget_anew, decide_True by lia. simpl. by rewrite aget_anew, decide_True by lia.
Qed.

Lemma start : io_start SAMSUNG_FDP dev.
Proof.
  split; try done.
  - intros q s. simpl. rewrite aget_aset by (unfold NR_MAX_IO_QUEUE; simpl; lia). case_decide.
    + intros [= <-]. split; [done|]. intros e He. change (sq_queue_size sq) with 2 in He.
      exists cmd.
      split; [apply (page_get_anew cmd 64); lia|]. split; [apply cmd_safe|]. by vm_compute.
    + rewrite aget_anew. by case_decide.
  - intros q s. simpl. rewrite aget_aset by (unfold NR_MAX_IO_QUEUE; simpl; lia). case_decide.
    + intros [= <-]. split_and!; try done. intros e He. change (cq_queue_size cq) with 2 in He. eexists.
      apply (page_get_anew _ 256). lia.
    + rewrite aget_anew. by case_decide.
Qed.

(** The state a computation ends in. *)
Definition final {S A} (r : res (A * S)) (s : S) : S :=
  match r with Ok (_, s') => s' | Fault _ => s end.

(** After the first command was put to work. *)
Definition pfn (_ : Z) : bool := true.
Definition ret : nvmev_result := Result 0 110 7.
Definition prepared_dev : nvmev_dev unit := final (prepare_io_req 1 1 0 100 ret dev) dev.
Definition queued_dev : nvmev_dev unit := final (on_worker 0 (insert_req_sorted 0 110) prepared_dev) dev.
Definition prepared_sys : io_sys unit := prepared (start_of dev) prepared_dev (Some (0, 0)) 110.
Definition queued_sys : io_sys unit :=
  IoSys queued_dev (λ _, Idle) None (y_started prepared_sys) [].

Lemma reachable_queued : io_reachable SAMSUNG_FDP pfn dev queued_sys.
Proof.
  split; [apply start|]. apply (rtc_l _ _ prepared_sys).
  - apply (step_prepare_io _ _ (start_of dev) 1 1 0 100 ret 2 (Some (0, 0)) prepared_dev);
      [done|done|lia|done|by vm_compute].
  - apply rtc_once. apply (step_insert _ _ prepared_sys 0 0 110 queued_dev); [done|by vm_compute].
Qed.

(** After the worker has visited the item at a time it was due. *)
Definition scanning_sys : io_sys unit :=
  IoSys queued_dev (set_cursor (λ _, Idle) 0 (At 50 0)) None (y_started prepared_sys) [].
Definition posted_dev : nvmev_dev unit :=
  final (io_worker_visit SAMSUNG_FDP pfn 0 50 0 queued_dev) dev.
Definition posted_sys : io_sys unit := visited scanning_sys posted_dev 0 50 0.

Lemma reachable_scanning : io_reachable SAMSUNG_FDP pfn dev scanning_sys.
Proof.
  split; [apply start|]. eapply rtc_r; [apply reachable_queued|].
  assert (∃ k, aget (d_io_workers queued_dev) 0 = Some k ∧ io_seq k = 0) as (k & Hk & Hs)
    by (eexists; split; vm_compute; reflexivity).
  pose proof (step_begin SAMSUNG_FDP pfn queued_sys 0 50 k ltac:(done) eq_refl Hk) as Hb.
  rewrite Hs in Hb. exact Hb.
Qed.

Lemma reachable_posted : io_reachable SAMSUNG_FDP pfn dev posted_sys.
Proof.
  pose proof (io_reachable_inv _ _ nr_range release_returns _ _ reachable_scanning) as Y.
  assert (0 ≠ NIL) as Hn by by rewrite NIL_val.
  pose proof (wp_visit SAMSUNG_FDP pfn nr_range release_returns scanning_sys 0 50 0 Y
    ltac:(done) eq_refl Hn) as Hw.
  apply wp_Ok in Hw as ([] & d' & Hr & _).
  assert (posted_dev = d') as E.
  { unfold posted_dev. change queued_dev with (y_dev scanning_sys). by rewrite Hr. }
  split; [apply start|]. eapply rtc_r; [apply reachable_scanning|].
  unfold posted_sys. rewrite E.
  exact (step_visit SAMSUNG_FDP pfn scanning_sys 0 50 0 d' (conj (Z.le_refl 0) eq_refl) eq_refl Hn Hr).
Qed.
End Demo.

(** ** The engine *)

Section engine.
Context {F : Type} `{CK : !Clock} `{LC : !LocalClock} `{IC : !IoConfig} `{HD : !IoHandler F}
  `{DC : !DmaCore}.
Context (c : ssd_config) (pfn_valid : Z → bool) `{HL : !IoHandlerLaws F c}.

(** What the dispatcher relies on when it serves queue [sqid]: the translation layer
    is in a state of its own, the queue and its completion queue exist, and the
    commands in it are such as the handler is made for. *)
Definition may_serve (y : io_sys F) (sqid n cqid : Z) : Prop :=
  y_disp y = None ∧ h_inv (d_ftl (y_dev y)) ∧ sq_info (y_dev y) sqid = Some (n, cqid) ∧
  cq_here (y_dev y) cqid = true ∧ cmds_ok c (y_dev y) sqid.

(** Every action of the dispatcher and of the workers that is possible in [y]
    returns; taking an item is refused only by a worker whose items are all in use
    but one.  The host's completion doorbell moves from the [h] completions it had
    consumed by [k] posted ones that are still in the ring. *)
Record never_stuck (y : io_sys F) : Prop := {
  ns_prepare_io sqid cqid e start ret n :
    y_disp y = None → sq_size (y_dev y) sqid = Some n → 0 ≤ e < n →
    cq_here (y_dev y) cqid = true →
    ∃ o d', prepare_io_req sqid cqid e start ret (y_dev y) = Ok (o, d') ∧
      (o = None → worker_full (y_dev y) (get_io_worker (d_nr_io_workers (y_dev y)) sqid));
  ns_prepare_internal op : y_disp y = None →
    ∃ o d', prepare_internal op (y_dev y) = Ok (o, d') ∧
      (o = None → worker_full (y_dev y) (get_io_worker (d_nr_io_workers (y_dev y)) (so_sqid op)));
  ns_insert i e t : y_disp y = Some (i, e, t) →
    ∃ d', on_worker i (insert_req_sorted e t) (y_dev y) = Ok (tt, d');
  ns_reclaim i : 0 ≤ i < d_nr_io_workers (y_dev y) →
    ∃ d', on_worker i reclaim_worker (y_dev y) = Ok (tt, d');
  ns_visit i dl x : 0 ≤ i < d_nr_io_workers (y_dev y) → y_cursors y i = At dl x → x ≠ NIL →
    ∃ d', io_worker_visit c pfn_valid i dl x (y_dev y) = Ok (tt, d');
  ns_next i dl x : 0 ≤ i < d_nr_io_workers (y_dev y) → y_cursors y i = After dl x →
    ∃ n d', io_worker_next i x (y_dev y) = Ok (n, d');
  ns_irq i q : 0 ≤ q < alen (d_cqes (y_dev y)) →
    ∃ d', io_worker_irq i q (y_dev y) = Ok (tt, d');
  ns_call sqid e n cqid : may_serve y sqid n cqid → 0 ≤ e < n →
    ∃ r d', call_proc_io_cmd sqid e (y_dev y) = Ok (r, d');
  ns_proc_sq sqid new old n cqid : may_serve y sqid n cqid → 0 ≤ old < n → 0 ≤ new < n →
    ∃ db d', nvmev_proc_io_sq c sqid new old (y_dev y) = Ok (db, d');
  ns_proc_cq cqid cq h k : aget (d_cqes (y_dev y)) cqid = Some (Some cq) →
    0 ≤ h → Z.of_nat (length (posted_to cqid (y_finished y))) - cq_queue_size cq ≤ h →
    0 ≤ k < cq_queue_size cq → h + k ≤ Z.of_nat (length (posted_to cqid (y_finished y))) →
    ∃ d', nvmev_proc_io_cq cqid ((h + k) mod cq_queue_size cq) (h mod cq_queue_size cq) (y_dev y)
        = Ok (tt, d') ∧ env_step c (y_dev y) d';
}.

(** A completion doorbell that names neither a slot of the ring nor the index behind
    the last one does not return. *)
Definition bad_doorbell_hangs (y : io_sys F) : Prop :=
  ∀ cqid cq new old r d', aget (d_cqes (y_dev y)) cqid = Some (Some cq) →
    0 ≤ old ≤ cq_queue_size cq → new < 0 ∨ cq_queue_size cq < new →
    nvmev_proc_io_cq cqid new old (y_dev y) ≠ Ok (r, d').

Hypothesis nr_range : 2 ≤ NR_MAX_PARALLEL_IO < 2 ^ 31.
Hypothesis clock_range : ∀ n, 0 ≤ cpu_clock n.

Lemma inv_never_stuck y : sys_inv c y → never_stuck y.
Proof.
  intros Y. split.
  - intros sqid cqid e start ret n Hd Hn He Hc.
    pose proof (wp_prepare_io c nr_range y sqid cqid e start ret n Y Hd Hn He Hc) as Hw.
    apply wp_Ok in Hw as (o & d' & Hr & _ & _ & _ & Ho). exists o, d'. split; [done|]. by intros ->.
  - intros op Hd. pose proof (wp_prepare_internal c nr_range y op Y Hd) as Hw.
    apply wp_Ok in Hw as (o & d' & Hr & _ & _ & _ & Ho). exists o, d'. split; [done|]. by intros ->.
  - intros i e t Hd. pose proof (wp_insert c nr_range y i e t Y Hd) as Hw.
    apply wp_Ok in Hw as ([] & d' & Hr & _). eauto.
  - intros i Hi. pose proof (wp_reclaim c nr_range y i Y Hi) as Hw.
    apply wp_Ok in Hw as ([] & d' & Hr & _). eauto.
  - intros i dl x Hi Hcu Hx.
    pose proof (wp_visit c pfn_valid nr_range (λ b n f, h_release f b n) y i dl x Y Hi Hcu Hx) as Hw.
    apply wp_Ok in Hw as ([] & d' & Hr & _). eauto.
  - intros i dl x Hi Hcu. pose proof (wp_next c nr_range y i dl x Y Hi Hcu) as Hw.
    apply wp_Ok in Hw as (n & d' & Hr & _). eauto.
  - intros i q Hq. pose proof (wp_irq c y i q Y Hq) as Hw.
    apply wp_Ok in Hw as ([] & d' & Hr & _). eauto.
  - intros sqid e n cqid (H1 & H2 & H3 & H4 & H5) He.
    pose proof (wp_call_proc_io_cmd c pfn_valid clock_range y sqid e n cqid
      (Build_serving c y sqid n cqid Y H1 H2 H3 H4 H5) He) as Hw.
    apply wp_Ok in Hw as (r & d' & Hr & _). eauto.
  - intros sqid new old n cqid (H1 & H2 & H3 & H4 & H5) Ho Hn.
    pose proof (wp_proc_io_sq c pfn_valid nr_range clock_range y sqid new old n cqid
      (Build_serving c y sqid n cqid Y H1 H2 H3 H4 H5) Ho Hn) as Hw.
    apply wp_Ok in Hw as (db & d' & Hr & _). eauto.
  - intros cqid cq h k Hcq Hh Hold Hk Hnew.
    pose proof (wp_proc_io_cq c y cqid cq h k Y Hcq Hh Hold Hk Hnew) as Hw.
    apply wp_Ok in Hw as ([] & d' & Hr & He). eauto.
Qed.

(** The log of one worker. *)
Lemma inv_log (y : io_sys F) i k :
  sys_inv c y → aget (d_io_workers (y_dev y)) i = Some k →
  NoDup ((out_of (y_disp y) i).*1 ++ queued k) ∧
  started_of i (y_started y) ≡ₚ
    finished_of i (y_finished y) ++
    pending (work_queue k) ((out_of (y_disp y) i).*1 ++ queued k).
Proof.
  intros Y Hk. assert (0 ≤ i < d_nr_io_workers (y_dev y)) as Hi.
  { rewrite <- (si_len _ _ Y). by eapply aget_inv. }
  destruct (si_workers _ _ Y i Hi) as (k' & Hk' & top & io & fresh & used & W).
  assert (k' = k) as -> by congruence. destruct W as [W _ _ _ Hlog].
  rewrite (queued_io nr_range _ _ _ _ _ _ W). split; [|done].
  pose proof (wq_nodup _ _ _ _ _ _ W) as Hnd. rewrite app_assoc, NoDup_app in Hnd. apply Hnd.
Qed.
End engine.

(** C12: In every state the engine reaches, whatever the order in which dispatcher,
    workers and host act, every action returns, for every handler that keeps the
    interface's promises: no index leaves its array, no null queue is followed, no
    loop runs on, also when a worker stands at an item that was finished, freed and
    handed out again in the meantime.  An item is refused only by a worker that has a
    single free item left.  A completion doorbell returns when the host consumes
    posted completions that are still in the ring, and one that lies outside the ring
    never does. *)
Theorem io_engine_never_fails {F : Type} `{CK : !Clock} `{LC : !LocalClock} `{IC : !IoConfig}
    `{HD : !IoHandler F} `{DC : !DmaCore} (c : ssd_config) (pfn_valid : Z → bool)
    `{HL : !IoHandlerLaws F c} (d : nvmev_dev F) (y : io_sys F) :
  2 ≤ NR_MAX_PARALLEL_IO < 2 ^ 31 → (∀ n, 0 ≤ cpu_clock n) →
  io_reachable c pfn_valid d y → never_stuck c pfn_valid y ∧ bad_doorbell_hangs y.
Proof.
  intros Hn Hck Hy. pose proof (io_reachable_inv c pfn_valid Hn (λ b m f, h_release f b m) d y Hy) as Y.
  split; [by apply inv_never_stuck|]. intros cqid cq new old r d'. by apply proc_io_cq_runs_on.
Qed.

Lemma io_engine_never_fails_witness :
  io_reachable SAMSUNG_FDP Demo.pfn Demo.dev Demo.posted_sys ∧
  never_stuck SAMSUNG_FDP Demo.pfn Demo.posted_sys ∧ bad_doorbell_hangs Demo.posted_sys ∧
  (∃ d', nvmev_proc_io_cq 1 1 0 (y_dev Demo.posted_sys) = Ok (tt, d')) ∧
  ∀ r d', nvmev_proc_io_cq 1 3 0 (y_dev Demo.posted_sys) ≠ Ok (r, d').
Proof.
  destruct (io_engine_never_fails SAMSUNG_FDP Demo.pfn Demo.dev Demo.posted_sys Demo.nr_range
    Demo.clock_range Demo.reachable_posted) as [Hs Hb].
  assert (∃ cq, aget (d_cqes (y_dev Demo.posted_sys)) 1 = Some (Some cq) ∧ cq_queue_size cq = 2)
    as (cq & Hcq & Hsize) by (eexists; split; vm_compute; reflexivity).
  assert (length (posted_to 1 (y_finished Demo.posted_sys)) = 1%nat) as Hlen by (vm_compute; reflexivity).
  split; [apply Demo.reachable_posted|]. split; [exact Hs|]. split; [exact Hb|]. split.
  - destruct (ns_proc_cq _ _ _ Hs 1 cq 0 1 Hcq) as (d' & Hr & _); rewrite ?Hlen, ?Hsize; try lia.
    rewrite Hsize in Hr. by exists d'.
  - intros r d'. apply (Hb 1 cq 3 0); [exact Hcq|lia|lia].
Defined.

(** C13: Every item put to work is completed exactly once and not before its time: in
    every reachable state the items a worker was given are, counted with multiplicity,
    those it has finished and those still pending in its list or about to enter it;
    each was finished at a time read after its target. *)
Theorem io_completed_exactly_once {F : Type} `{CK : !Clock} `{LC : !LocalClock} `{IC : !IoConfig}
    `{HD : !IoHandler F} `{DC : !DmaCore} (c : ssd_config) (pfn_valid : Z → bool)
    (d : nvmev_dev F) (y : io_sys F) i k :
  2 ≤ NR_MAX_PARALLEL_IO < 2 ^ 31 → (∀ b n (f : F), wp (release_buffer b n) f (λ _ _, True)) →
  io_reachable c pfn_valid d y → aget (d_io_workers (y_dev y)) i = Some k →
  NoDup ((out_of (y_disp y) i).*1 ++ queued k) ∧
  started_of i (y_started y) ≡ₚ
    finished_of i (y_finished y) ++
    pending (work_queue k) ((out_of (y_disp y) i).*1 ++ queued k) ∧
  Forall (λ x, w_nsecs_target x.1.2 ≤ x.2) (y_finished y).
Proof.
  intros Hn Hr Hy Hk. pose proof (io_reachable_inv c pfn_valid Hn Hr d y Hy) as Y.
  destruct (inv_log c Hn y i k Y Hk) as [Hnd Hlog]. split_and!; [done|done|apply Y].
Qed.

Lemma io_completed_exactly_once_witness :
  ∃ k, aget (d_io_workers (y_dev Demo.queued_sys)) 0 = Some k ∧ queued k = [0] ∧
    length (started_of 0 (y_started Demo.queued_sys)) = 1%nat ∧
    started_of 0 (y_started Demo.queued_sys) ≡ₚ
      finished_of 0 (y_finished Demo.queued_sys) ++ pending (work_queue k) (queued k).
Proof.
  eexists. split; [vm_compute; reflexivity|]. split; [vm_compute; reflexivity|].
  split; [vm_compute; reflexivity|].
  apply (io_completed_exactly_once SAMSUNG_FDP Demo.pfn Demo.dev Demo.queued_sys 0).
  - apply Demo.nr_range.
  - apply Demo.release_returns.
  - apply Demo.reachable_queued.
  - vm_compute. reflexivity.
Defined.

(** C14: The completions of commands posted to a queue form a ring: after any run
    its head and phase are those of the number posted, and the slots hold the latest
    completions in order, each with the phase of its round, so that the host can tell
    new entries from old ones. *)
Theorem io_completion_rings {F : Type} `{CK : !Clock} `{LC : !LocalClock} `{IC : !IoConfig}
    `{HD : !IoHandler F} `{DC : !DmaCore} (c : ssd_config) (pfn_valid : Z → bool)
    (d : nvmev_dev F) (y : io_sys F) q cq :
  2 ≤ NR_MAX_PARALLEL_IO < 2 ^ 31 → (∀ b n (f : F), wp (release_buffer b n) f (λ _ _, True)) →
  io_reachable c pfn_valid d y → aget (d_cqes (y_dev y)) q = Some (Some cq) →
  let l := posted_to q (y_finished y) in
  let n := Z.of_nat (length l) in
  let size := cq_queue_size cq in
  cq_cq_head cq = n mod size ∧ cq_phase cq = phase_at size n ∧
  ∀ j w, l !! j = Some w → n - size ≤ Z.of_nat j →
    page_get (cq_cq cq) NR_CQE_PER_PAGE (Z.of_nat j mod size) =
      Some (completion_of w (phase_at size (Z.of_nat j))).
Proof.
  intros Hn Hr Hy Hq. pose proof (io_reachable_inv c pfn_valid Hn Hr d y Hy) as Y.
  destruct (si_rings _ _ Y q cq Hq) as [R1 R2 R3 R4 R5]. done.
Qed.

Lemma io_completion_rings_witness :
  ∃ cq, aget (d_cqes (y_dev Demo.posted_sys)) 1 = Some (Some cq) ∧
    length (posted_to 1 (y_finished Demo.posted_sys)) = 1%nat ∧ cq_cq_head cq = 1 ∧
    cq_phase cq = phase_at (cq_queue_size cq) 1.
Proof.
  assert (∃ cq, aget (d_cqes (y_dev Demo.posted_sys)) 1 = Some (Some cq) ∧ cq_queue_size cq = 2)
    as (cq & Hcq & Hsize) by (eexists; split; vm_compute; reflexivity).
  assert (length (posted_to 1 (y_finished Demo.posted_sys)) = 1%nat) as Hlen by (vm_compute; reflexivity).
  exists cq. split; [done|]. split; [done|].
  destruct (io_completion_rings SAMSUNG_FDP Demo.pfn Demo.dev Demo.posted_sys 1 cq Demo.nr_range
    Demo.release_returns Demo.reachable_posted Hcq) as (Hh & Hp & _).
  rewrite Hlen in Hh, Hp. rewrite Hh, Hp, Hsize. split; reflexivity.
Defined.

(** C15: A scan of its list that the dispatcher does not disturb returns and leaves
    nothing due behind: if at each visit of an item the worker's clock reads at least
    [T], then every item put to work for it with a target up to [T] is finished
    afterwards. *)
Theorem io_scan_completes {F : Type} `{CK : !Clock} `{LC : !LocalClock} `{IC : !IoConfig}
    `{HD : !IoHandler F} `{DC : !DmaCore} (c : ssd_config) (pfn_valid : Z → bool)
    (d : nvmev_dev F) (y : io_sys F) i dl T k :
  2 ≤ NR_MAX_PARALLEL_IO < 2 ^ 31 → (∀ b n (f : F), wp (release_buffer b n) f (λ _ _, True)) →
  io_reachable c pfn_valid d y → aget (d_io_workers (y_dev y)) i = Some k →
  y_cursors y i = Idle → y_disp y = None → reads_from (y_dev y) dl T (length (queued k)) →
  wp (io_worker_scan c pfn_valid i dl) (y_dev y) (λ _ d', ∃ y' rest, y_dev y' = d' ∧
    rtc (io_step c pfn_valid) y y' ∧ y_started y' = y_started y ∧
    started_of i (y_started y) ≡ₚ finished_of i (y_finished y') ++ rest ∧
    Forall (λ w, T < w_nsecs_target w) rest).
Proof.
  intros Hn Hr Hy Hk Hcu Hd HT. pose proof (io_reachable_inv c pfn_valid Hn Hr d y Hy) as Y.
  assert (0 ≤ i < d_nr_io_workers (y_dev y)) as Hi by (rewrite <- (si_len _ _ Y); by eapply aget_inv).
  eapply wp_mono; [by apply (wp_scan c pfn_valid Hn Hr y i dl T k)|].
  intros [] d' (y' & k' & <- & Sc).
  destruct (scan_settles c pfn_valid Hn y i dl T k y' k' Hi Hd Sc) as (rest & Hlog & Hrest).
  rewrite (sc_started _ _ _ _ _ _ _ _ _ _ _ Sc) in Hlog. exists y', rest.
  split_and!; try done; apply Sc.
Qed.

Lemma io_scan_completes_witness :
  length (started_of 0 (y_started Demo.queued_sys)) = 1%nat ∧
  local_clock 1 = 101 ∧ local_clock 2 = 102 ∧
  wp (io_worker_scan SAMSUNG_FDP Demo.pfn 0 50) (y_dev Demo.queued_sys) (λ _ d', ∃ y' rest,
    y_dev y' = d' ∧ rtc (io_step SAMSUNG_FDP Demo.pfn) Demo.queued_sys y' ∧
    y_started y' = y_started Demo.queued_sys ∧
    started_of 0 (y_started Demo.queued_sys) ≡ₚ finished_of 0 (y_finished y') ++ rest ∧
    Forall (λ w, 151 < w_nsecs_target w) rest).
Proof.
  split; [vm_compute; reflexivity|]. split; [reflexivity|]. split; [reflexivity|].
  assert (∃ k, aget (d_io_workers (y_dev Demo.queued_sys)) 0 = Some k ∧ length (queued k) = 1%nat)
    as (k & Hk & Hq) by (eexists; split; vm_compute; reflexivity).
  assert (d_lticks (y_dev Demo.queued_sys) = 1) as Ht by (vm_compute; reflexivity).
  apply (io_scan_completes SAMSUNG_FDP Demo.pfn Demo.dev Demo.queued_sys 0 50 151 k Demo.nr_range
    Demo.release_returns Demo.reachable_queued).
  - exact Hk.
  - reflexivity.
  - reflexivity.
  - intros n Hn. rewrite Hq in Hn. assert (n = 0) as -> by lia. rewrite Ht. vm_compute. discriminate.
Defined.

(** C16: Processing a submission queue returns for every handler that keeps the
    interface's promises.  It consumes entries in order from the old doorbell on, up
    to the new one or to the first the handler refuses, and returns the index behind
    the last one consumed; everything it does are steps of the engine, and the
    requests it starts are the consumed entries in order, all of them unless the
    worker in charge had a single free item left at some point. *)
Theorem io_proc_sq_outcome {F : Type} `{CK : !Clock} `{LC : !LocalClock} `{IC : !IoConfig}
    `{HD : !IoHandler F} `{DC : !DmaCore} (c : ssd_config) (pfn_valid : Z → bool)
    `{HL : !IoHandlerLaws F c} (d : nvmev_dev F) (y : io_sys F) sqid new_db old_db n cqid :
  2 ≤ NR_MAX_PARALLEL_IO < 2 ^ 31 → (∀ n, 0 ≤ cpu_clock n) →
  io_reachable c pfn_valid d y → y_disp y = None → h_inv (d_ftl (y_dev y)) → sq_info (y_dev y) sqid = Some (n, cqid) →
  cq_here (y_dev y) cqid = true → cmds_ok c (y_dev y) sqid →
  0 ≤ old_db < n → 0 ≤ new_db < n →
  wp (nvmev_proc_io_sq c sqid new_db old_db) (y_dev y) (λ db d', ∃ y' k new, y_dev y' = d' ∧
    rtc (io_step c pfn_valid) y y' ∧ h_inv (d_ftl d') ∧
    0 ≤ k ≤ (new_db - old_db) mod n ∧ db = (old_db + k) mod n ∧
    (k = (new_db - old_db) mod n ∨ was_refused c pfn_valid y y' sqid ((old_db + k) mod n)) ∧
    requests sqid (y_started y') = requests sqid (y_started y) ++ new ∧
    sublist new (entries_from old_db n k) ∧
    (new = entries_from old_db n k ∨ was_full c pfn_valid y y' sqid)).
Proof.
  intros Hn Hck Hy Hd Hf Hq Hcq Hcmds Ho Hnew.
  pose proof (io_reachable_inv c pfn_valid Hn (λ b m f, h_release f b m) d y Hy) as Y.
  eapply wp_mono; [by eapply (wp_proc_io_sq c pfn_valid Hn Hck y sqid new_db old_db n cqid)|].
  intros db d' (y' & k & <- & [R Sv (new & Hreq & Hsub & Hall)] & Hk & Hdb & Hwhy).
  exists y', k, new. split_and!; try done; try lia; [apply R|apply Sv].
Qed.

Lemma io_proc_sq_outcome_witness :
  ∃ db d' y' new, nvmev_proc_io_sq SAMSUNG_FDP 1 1 0 Demo.dev = Ok (db, d') ∧ 0 ≤ db < 2 ∧
    y_dev y' = d' ∧ rtc (io_step SAMSUNG_FDP Demo.pfn) (start_of Demo.dev) y' ∧
    requests 1 (y_started y') = new.
Proof.
  assert (cmds_ok SAMSUNG_FDP (y_dev (start_of Demo.dev)) 1) as Hcmds.
  { intros sq e cmd Hsq He Hcmd.
    assert (aget (d_sqes (y_dev (start_of Demo.dev))) 1 = Some (Some Demo.sq)) as E0
      by (vm_compute; reflexivity).
    assert (sq = Demo.sq) as -> by congruence. change (sq_queue_size Demo.sq) with 2 in He.
    assert (page_get (sq_sq Demo.sq) NR_SQE_PER_PAGE e = Some Demo.cmd) as E
      by (apply (Demo.page_get_anew Demo.cmd 64); lia).
    assert (cmd = Demo.cmd) as -> by (rewrite E in Hcmd; congruence). apply Demo.cmd_safe. }
  pose proof (io_proc_sq_outcome SAMSUNG_FDP Demo.pfn Demo.dev (start_of Demo.dev) 1 1 0 2 1
    Demo.nr_range Demo.clock_range (conj Demo.start (rtc_refl _ _)) eq_refl I eq_refl eq_refl Hcmds
    ltac:(lia) ltac:(lia)) as Hw.
  apply wp_Ok in Hw as (db & d' & Hr & y' & k & new & H1 & H2 & _ & _ & -> & _ & H3 & _).
  eexists _, d', y', new. split; [exact Hr|]. split; [apply Z.mod_pos_bound; lia|].
  split; [exact H1|]. split; [exact H2|exact H3].
Defined.

(** Inserting an item puts it behind the last item that is due no later than
    itself or was due at the worker's latest time, and before items due later than
    both; the lists stay well formed, ordered up to that time, and no item changes. *)
Theorem io_insert_sorted `{IC : !IoConfig} out io fresh used k e t :
  2 ≤ NR_MAX_PARALLEL_IO < 2 ^ 31 →
  wq_inv (latest_nsecs k) (e :: out) io fresh used k →
  nxt (work_queue k) e = Some NIL → prv (work_queue k) e = Some NIL → due (work_queue k) e = t →
  (w_is_completed (item (work_queue k) e) = true → w_is_copied (item (work_queue k) e) = true) →
  wp (insert_req_sorted e t) k (λ _ k', ∃ io1 io2, io = io1 ++ io2 ∧
    queued k' = io1 ++ e :: io2 ∧
    wq_inv (latest_nsecs k) out (io1 ++ e :: io2) fresh used k' ∧
    Forall (λ j, latest_nsecs k < due (work_queue k) j ∧ t < due (work_queue k) j) io2 ∧
    (∀ x, last io1 = Some x → due (work_queue k) x ≤ Z.max (latest_nsecs k) t) ∧
    ∀ i, item (work_queue k') i = item (work_queue k) i).
Proof.
  intros Hnr I Hn Hp <- Hc.
  eapply wp_mono; [by apply (wp_insert_req_sorted Hnr _ _ _ _ _ _ _ _ I)|].
  intros [] k' (io1 & io2 & -> & L & H2 & H1). exists io1, io2.
  assert (wq_inv (latest_nsecs k) out (io1 ++ e :: io2) fresh used k') as W by by eapply wq_inserted.
  split_and!; try done; [by eapply queued_io|apply L].
Qed.

Module DemoInsert.
(** A worker with the item 0, due at 110, taken and filled. *)
Definition worker : nvmev_io_worker :=
  match aget (d_io_workers Demo.prepared_dev) 0 with Some k => k | None => init_worker 0 end.

Lemma worker_inv : wq_inv (latest_nsecs worker) [0] [] [1; 2; 3] [] worker.
Proof.
  split.
  - vm_compute. reflexivity.
  - vm_compute. reflexivity.
  - vm_compute. reflexivity.
  - done.
  - exact I.
  - exact I.
  - vm_compute. reflexivity.
  - vm_compute. reflexivity.
  - vm_compute. repeat split.
  - constructor.
  - intros i Hi. by apply not_elem_of_nil in Hi.
  - constructor.
  - apply Z.le_refl.
Qed.
End DemoInsert.

Lemma io_insert_sorted_witness :
  ∃ io1 io2 k', [] = io1 ++ io2 ∧ queued k' = io1 ++ 0 :: io2 ∧
    insert_req_sorted 0 110 DemoInsert.worker = Ok (tt, k').
Proof.
  assert (wp (insert_req_sorted 0 110) DemoInsert.worker (λ _ k', ∃ io1 io2, [] = io1 ++ io2 ∧
    queued k' = io1 ++ 0 :: io2 ∧
    wq_inv (latest_nsecs DemoInsert.worker) [] (io1 ++ 0 :: io2) [1; 2; 3] [] k' ∧
    Forall (λ j, latest_nsecs DemoInsert.worker < due (work_queue DemoInsert.worker) j ∧
      110 < due (work_queue DemoInsert.worker) j) io2 ∧
    (∀ x, last io1 = Some x →
      due (work_queue DemoInsert.worker) x ≤ Z.max (latest_nsecs DemoInsert.worker) 110) ∧
    ∀ i, item (work_queue k') i = item (work_queue DemoInsert.worker) i)) as Hw.
  { apply (io_insert_sorted [] [] [1; 2; 3] [] DemoInsert.worker 0 110).
    - apply Demo.nr_range.
    - apply DemoInsert.worker_inv.
    - vm_compute. reflexivity.
    - vm_compute. reflexivity.
    - vm_compute. reflexivity.
    - vm_compute. discriminate. }
  apply wp_Ok in Hw as ([] & k' & Hr & io1 & io2 & H1 & H2 & _). by exists io1, io2, k'.
Defined.

(** ** The copies by the CPU and by DMA *)

(** The device with the copy by DMA switched on or off. *)
Definition with_dma {F} (b : bool) (d : nvmev_dev F) : nvmev_dev F :=
  NvmevDev (d_io_workers d) (d_nr_io_workers d) (d_io_worker_turn d) (d_sqes d) (d_cqes d) (d_mapped d)
    (d_storage_start d) b (d_mem d) (d_dma d) (d_ftl d) (d_irqs d) (d_ticks d) (d_lticks d).

(** C37: The copy by DMA and the copy by the CPU of a command's data, on a device with
    a channel and an engine that reports no error.  On a transfer whose pages and
    storage are distinct and that names at most 512 pages both return.  The CPU moves
    exactly the bytes of the transfer between the pages and the namespace's storage,
    DMA between the pages and the start of the whole storage area: for the first
    namespace, which begins there, the memories are equal; for any other a write by
    DMA leaves the namespace's storage as it was outside that place. *)
Theorem io_dma_equivalent {F : Type} `{DC : !DmaCore} `{DL : !DmaLaws} c pfn_valid (d : nvmev_dev F)
    sqid e sq cmd mapped :
  let len := cmd_io_size c (c_rw cmd) in
  let off := cmd_io_offset c (c_rw cmd) in
  let base := d_storage_start d in
  dma_completes → dma_ready (d_dma d) →
  aget (d_sqes d) sqid = Some (Some sq) → page_get (sq_sq sq) NR_SQE_PER_PAGE e = Some cmd →
  aget (d_mapped d) (u32 (rw_nsid (c_rw cmd) - 1)) = Some mapped →
  transfer_ok (d_mem d) cmd len pfn_valid (mapped + off) →
  transfer_ok (d_mem d) cmd len pfn_valid (base + off) → nr_prps cmd len ≤ 512 →
  is_write cmd || is_read cmd = true →
  ∃ m1 m2 s,
    perform_io c pfn_valid sqid e (with_dma false d) = Ok (tt, set_mem m1 (with_dma false d)) ∧
    perform_io c pfn_valid sqid e (with_dma true d) = Ok (tt, set_dma s (set_mem m2 (with_dma true d))) ∧
    transferred (d_mem d) cmd len (mapped + off) len m1 ∧
    transferred (d_mem d) cmd len (base + off) len m2 ∧
    (mapped = base → ∀ a, m1 a = m2 a) ∧
    (is_write cmd = true → ∀ a, ¬ (base + off ≤ a < base + off + len) → m2 a = d_mem d a).
Proof.
  intros len off base Hok Hready Hsq Hcmd Hmap T1 T2 few Hrw.
  pose proof (wp_do_perform_io c pfn_valid (d_mem d) cmd mapped T1) as H1.
  pose proof (wp_do_perform_io_using_dma c pfn_valid (d_mem d) cmd base T2 few (d_dma d) Hok Hready) as H2.
  apply wp_Ok in H1 as (r1 & m1 & E1 & -> & C1). apply wp_Ok in H2 as (r2 & [m2 s] & E2 & -> & _ & C2).
  assert (∀ b, (o ← get_sq sqid; deref o) (with_dma b d) = Ok (sq, with_dma b d)) as Hget.
  { intros b. unfold get_sq, mbind, M_bind, get, aread. simpl. by rewrite Hsq. }
  assert (∀ b, sq_entry sq e (with_dma b d) = Ok (cmd, with_dma b d)) as Hent.
  { intros b. unfold sq_entry. pose proof (wp_page_entry (sq_sq sq) NR_SQE_PER_PAGE e cmd (with_dma b d)
      (λ x s, x = cmd ∧ s = with_dma b d) Hcmd (conj eq_refl eq_refl)) as Hw.
    apply wp_Ok in Hw as (x & s' & -> & -> & ->). done. }
  exists m1, m2, s. split_and!; [| |done|done| |].
  - unfold perform_io. unfold mbind at 1, M_bind at 1. rewrite Hget. unfold mbind at 1, M_bind at 1.
    rewrite Hent. unfold mbind, M_bind, get, aread, zoom. simpl. by rewrite Hrw, Hmap; simpl; rewrite E1.
  - unfold perform_io. unfold mbind at 1, M_bind at 1. rewrite Hget. unfold mbind at 1, M_bind at 1.
    rewrite Hent. unfold mbind, M_bind, get, zoom. simpl. fold base. by rewrite E2.
  - intros ->. by eapply transferred_unique.
  - intros Hw a Ha. unfold transferred in C2. rewrite Hw in C2. by rewrite C2, decide_False.
Qed.

Module DemoTransfer.
(** A write of 24 blocks from the pages 1, 2 and 5, the last two named by the list
    in page 8. *)
Definition memory : mem := λ a, if a =? 0x8001 then 0x20 else if a =? 0x8009 then 0x50 else
  if (0x8000 <=? a) && (a <? 0x8010) then 0 else a mod 256.
Definition cmd (nsid : Z) : nvme_command :=
  NvmeCommand 1 (RwCmd nvme_cmd_write nsid 0 23 0 0) 0x1000 0x8000.

Lemma entries nsid i : 0 ≤ i < 3 →
  prp_at memory (cmd nsid) 12288 i = if i =? 0 then 0x1000 else if i =? 1 then 0x2000 else 0x5000.
Proof. intros Hi. assert (i = 0 ∨ i = 1 ∨ i = 2) as [->| [->| ->]] by lia; by vm_compute. Qed.

Lemma addresses nsid t : 0 ≤ t < 12288 →
  host_addr memory (cmd nsid) 12288 t = if t <? 8192 then 0x1000 + t else 0x5000 + (t - 8192).
Proof.
  intros Ht. unfold host_addr. change (first_len (cmd nsid) 12288) with 4096.
  change (PAGE_SIZE) with 4096. change (c_prp1 (cmd nsid)) with 0x1000.
  destruct (Z.ltb_spec t 4096); [destruct (Z.ltb_spec t 8192); lia|].
  rewrite entries by dlia. destruct (Z.ltb_spec t 8192).
  - replace ((t - 4096) / 4096) with 0 by dlia. simpl. dlia.
  - replace ((t - 4096) / 4096) with 1 by dlia. simpl. dlia.
Qed.

Lemma ok nsid B : 2 ^ 16 ≤ B → transfer_ok memory (cmd nsid) 12288 (λ _, true) B.
Proof.
  intros HB. split; change (nr_prps (cmd nsid) 12288) with 3; try done.
  - intros i Hi. rewrite entries by lia. repeat case_match; lia.
  - intros i Hi. rewrite entries by lia. by repeat case_match; lia || vm_compute.
  - intros t Ht. rewrite addresses by lia. case_match; lia.
  - intros t u Ht Hu. rewrite !addresses by lia. repeat case_match; lia.
  - intros i _ Hi. change (c_prp2 (cmd nsid)) with 0x8000. split; [lia|].
    intros t Ht. rewrite addresses by lia. case_match; lia.
Qed.

(** Two namespaces, of which the second begins at 2 MB, and the command at the head of
    the queue. *)
Definition dev (nsid : Z) : nvmev_dev unit :=
  NvmevDev (abuild 1 (init_worker 0) init_worker) 1 0
    (aset (anew (NR_MAX_IO_QUEUE + 1) None) 1
       (Some (SubmissionQueue 1 2 (SqStat 0 0 0 0 0) (anew 1 (anew 64 (cmd nsid))))))
    (anew (NR_MAX_IO_QUEUE + 1) None) (aset (anew 2 (2 ^ 20)) 1 (2 ^ 21)) (2 ^ 20) false memory
    Demo.dma_state tt [] 0 0.
End DemoTransfer.

Lemma io_dma_equivalent_witness :
  (∃ m1 m2 s,
    perform_io SAMSUNG_FDP (λ _, true) 1 0 (with_dma false (DemoTransfer.dev 1)) =
      Ok (tt, set_mem m1 (with_dma false (DemoTransfer.dev 1))) ∧
    perform_io SAMSUNG_FDP (λ _, true) 1 0 (with_dma true (DemoTransfer.dev 1)) =
      Ok (tt, set_dma s (set_mem m2 (with_dma true (DemoTransfer.dev 1)))) ∧ ∀ a, m1 a = m2 a) ∧
  (∃ m1 m2 s,
    perform_io SAMSUNG_FDP (λ _, true) 1 0 (with_dma false (DemoTransfer.dev 2)) =
      Ok (tt, set_mem m1 (with_dma false (DemoTransfer.dev 2))) ∧
    perform_io SAMSUNG_FDP (λ _, true) 1 0 (with_dma true (DemoTransfer.dev 2)) =
      Ok (tt, set_dma s (set_mem m2 (with_dma true (DemoTransfer.dev 2)))) ∧
    m1 (2 ^ 21 + 8192) = DemoTransfer.memory 0x5000 ∧
    ∀ a, 2 ^ 21 ≤ a → m2 a = DemoTransfer.memory a).
Proof.
  assert (∀ nsid mapped, aget (d_mapped (DemoTransfer.dev nsid)) (u32 (nsid - 1)) = Some mapped → 2 ^ 16 ≤ mapped →
    ∃ m1 m2 s,
      perform_io SAMSUNG_FDP (λ _, true) 1 0 (with_dma false (DemoTransfer.dev nsid)) =
        Ok (tt, set_mem m1 (with_dma false (DemoTransfer.dev nsid))) ∧
      perform_io SAMSUNG_FDP (λ _, true) 1 0 (with_dma true (DemoTransfer.dev nsid)) =
        Ok (tt, set_dma s (set_mem m2 (with_dma true (DemoTransfer.dev nsid)))) ∧
      transferred DemoTransfer.memory (DemoTransfer.cmd nsid) 12288 (mapped + 0) 12288 m1 ∧
      transferred DemoTransfer.memory (DemoTransfer.cmd nsid) 12288 (2 ^ 20 + 0) 12288 m2 ∧
      (mapped = 2 ^ 20 → ∀ a, m1 a = m2 a) ∧
      (true = true → ∀ a, ¬ (2 ^ 20 + 0 ≤ a < 2 ^ 20 + 0 + 12288) → m2 a = DemoTransfer.memory a)) as Hrun.
  { intros nsid mapped Hm Hb.
    exact (io_dma_equivalent (DC := Demo.dma) SAMSUNG_FDP (λ _, true) (DemoTransfer.dev nsid) 1 0
      (SubmissionQueue 1 2 (SqStat 0 0 0 0 0) (anew 1 (anew 64 (DemoTransfer.cmd nsid))))
      (DemoTransfer.cmd nsid) mapped Demo.dma_ok (proj2 Demo.dma_state_ready) eq_refl eq_refl Hm
      (DemoTransfer.ok nsid (mapped + 0) ltac:(lia)) (DemoTransfer.ok nsid (2 ^ 20 + 0) ltac:(lia))
      ltac:(by vm_compute) eq_refl). }
  split.
  - destruct (Hrun 1 (2 ^ 20) eq_refl ltac:(lia)) as (m1 & m2 & s & R1 & R2 & _ & _ & Heq & _).
    exists m1, m2, s. split_and!; [exact R1|exact R2|by apply Heq].
  - destruct (Hrun 2 (2 ^ 21) eq_refl ltac:(lia)) as (m1 & m2 & s & R1 & R2 & T1 & _ & _ & Hout).
    exists m1, m2, s. split_and!; [exact R1|exact R2| |].
    + pose proof (T1 (2 ^ 21 + 8192)) as T1'. rewrite decide_True in T1' by lia. rewrite T1'.
      f_equal.
    + intros a Ha. apply Hout; [done|lia].
Defined.
