(* ===== verification/Sim.v ===== *)
(** * Simulations by a map of states

    [sim φ ok g m n]: from related states the computation [m] does what [n] does.
    [φ] maps the states of [n] to those of [m], [g] its results; [ok] is an invariant
    of the states of [n].  Faults correspond too: [m] fails exactly when [n] does,
    with the same fault.  The rules below follow the structure of the code, so that
    two programs with the same structure are compared statement by statement. *)

From Stdlib Require Import ZArith Lia.
From stdpp Require Import base numbers list gmap.
From S2P Require Import Prelude Pqueue.

#[local] Open Scope Z_scope.

Definition sim {S T A B : Type} (φ : T → S) (ok : T → Prop) (g : B → A) (m : M S A) (n : M T B) : Prop :=
  ∀ t, ok t →
    match n t with
    | Ok (b, t') => ok t' ∧ m (φ t) = Ok (g b, φ t')
    | Fault e => m (φ t) = Fault e
    end.

(** ** Arrays mapped cell by cell *)

Definition amap {A B} (g : B → A) (a : arr B) : arr A :=
  Arr (alen a) (g (adef a)) (g <$> acells a).

Lemma aget_amap {A B} (g : B → A) a i : aget (amap g a) i = g <$> aget a i.
Proof.
  unfold aget, amap. simpl. destruct (in_range (alen a) i); [|done]. simpl. rewrite lookup_fmap.
  by destruct (acells a !! i).
Qed.
Lemma aset_amap {A B} (g : B → A) a i x : aset (amap g a) i (g x) = amap g (aset a i x).
Proof.
  unfold aset, amap. simpl. destruct (in_range (alen a) i); [|done]. simpl. by rewrite fmap_insert.
Qed.
Lemma anew_amap {A B} (g : B → A) n x : anew n (g x) = amap g (anew n x).
Proof. unfold anew, amap. simpl. by rewrite fmap_empty. Qed.
Lemma abuild_amap {A B} (g : B → A) n x f : abuild n (g x) (λ i, g (f i)) = amap g (abuild n x f).
Proof.
  unfold abuild. rewrite anew_amap. generalize (anew n x). induction (seqZ 0 n) as [|i l IH]; intros a; simpl; [done|].
  by rewrite aset_amap, IH.
Qed.

(** Every cell was written: writing a cell's own value changes nothing. *)
Definition dense {A} (a : arr A) : Prop := ∀ i, 0 ≤ i < alen a → is_Some (acells a !! i).

Lemma dense_aset {A} (a : arr A) i x : dense a → dense (aset a i x).
Proof.
  intros D j. unfold aset. destruct (in_range (alen a) i); [|apply D]. simpl. intros Hj.
  apply lookup_insert_is_Some'. right. by apply D.
Qed.
Lemma dense_amap {A B} (g : B → A) a : dense a → dense (amap g a).
Proof. intros D i Hi. simpl in *. rewrite lookup_fmap, fmap_is_Some. by apply D. Qed.
Lemma aset_same {A} (a : arr A) i x : dense a → aget a i = Some x → aset a i x = a.
Proof.
  intros D Hx. pose proof (aget_inv _ _ _ Hx) as Hi. destruct (D i Hi) as [y Hy]. unfold aget, aset in *.
  destruct (in_range (alen a) i); [|done]. rewrite Hy in Hx. injection Hx as ->.
  destruct a as [n d cells]. simpl in *. by rewrite insert_id.
Qed.
Lemma dense_abuild {A} n (x : A) f : dense (abuild n x f).
Proof.
  assert (∀ l (a : arr A), alen a = n →
    let b := foldl (λ b i, aset b i (f i)) a l in
    ∀ i, 0 ≤ i < n → i ∈ l ∨ is_Some (acells a !! i) → is_Some (acells b !! i)) as H.
  { induction l as [|j l IH]; intros a Ha b i Hi Hor; simpl in *.
    { by destruct Hor as [Hin%not_elem_of_nil|]. }
    apply IH; [by rewrite alen_aset|done|]. unfold aset. destruct (decide (i ∈ l)); [by left|]. right.
    destruct Hor as [[->|?]%elem_of_cons|H]; [| done |].
    - rewrite (proj2 (in_range_true _ _)) by lia. simpl. by rewrite lookup_insert_eq.
    - destruct (in_range (alen a) j); [|done]. simpl. apply lookup_insert_is_Some'. by right. }
  intros i Hi. rewrite alen_abuild in Hi. apply (H (seqZ 0 n) (anew n x) eq_refl); [done|].
  left. apply elem_of_seqZ. lia.
Qed.

(** ** The rules *)

Section sim.
Context {S T : Type} {φ : T → S} {ok : T → Prop}.
#[local] Abbreviation sim := (sim φ ok).

Lemma sim_ret {A B} (g : B → A) a b : a = g b → sim g (mret a) (mret b).
Proof. by intros -> t Ht. Qed.
Lemma sim_throw {A B} (g : B → A) e : sim g (throw e) (throw e).
Proof. by intros t Ht. Qed.

Lemma sim_bind {A A' B B'} (g : B → A) (h : B' → A') (m : M S A) (n : M T B) k l :
  sim g m n → (∀ b, sim h (k (g b)) (l b)) → sim h (m ≫= k) (n ≫= l).
Proof.
  intros H K t Ht. specialize (H t Ht). unfold mbind, M_bind. destruct (n t) as [[b t']|e].
  - destruct H as [Ht' ->]. by apply K.
  - by rewrite H.
Qed.

(** A statement of the right-hand program alone. *)
Lemma sim_after {A B B'} (h : B → A) (m : M S A) (n : M T B') l :
  (∀ t, ok t → ∃ b t', n t = Ok (b, t') ∧ ok t' ∧ φ t' = φ t) → (∀ b, sim h m (l b)) → sim h m (n ≫= l).
Proof.
  intros H K t Ht. destruct (H t Ht) as (b & t' & E & Ht' & Eφ). unfold mbind, M_bind. rewrite E, <- Eφ.
  by apply K.
Qed.

Lemma sim_get : sim φ get get.
Proof. by intros t Ht. Qed.
Lemma sim_gets {A B} (g : B → A) f f' : (∀ t, ok t → f (φ t) = g (f' t)) → sim g (gets f) (gets f').
Proof. intros H t Ht. split; [done|]. unfold gets. by rewrite H. Qed.
Lemma sim_modify f f' : (∀ t, ok t → ok (f' t) ∧ f (φ t) = φ (f' t)) → sim (λ x, x) (modify f) (modify f').
Proof. intros H t Ht. destruct (H t Ht) as [H1 H2]. split; [done|]. unfold modify. by rewrite H2. Qed.
Lemma sim_put s t : s = φ t → ok t → sim (λ x, x) (put s) (put t).
Proof. by intros -> Ht t' _. Qed.
Lemma sim_assert b : sim (λ x, x) (NVMEV_ASSERT b) (NVMEV_ASSERT b).
Proof. destruct b; by intros t Ht. Qed.
Lemma sim_deref {A B} (g : B → A) o o' : o = g <$> o' → sim g (deref o) (deref o').
Proof. intros ->. destruct o'; by intros t Ht. Qed.
Lemma sim_deref_id {A} (o : option A) : sim (λ x, x) (deref o) (deref o).
Proof. destruct o; by intros t Ht. Qed.
Lemma sim_aread {A B} (g : B → A) a i : sim g (aread (amap g a) i) (aread a i).
Proof. apply sim_deref, aget_amap. Qed.
Lemma sim_aread_id {A} (a : arr A) i : sim (λ x, x) (aread a i) (aread a i).
Proof. apply sim_deref_id. Qed.
Lemma sim_awrite {A B} (g : B → A) a i x : sim (amap g) (awrite (amap g a) i (g x)) (awrite a i x).
Proof.
  unfold awrite. simpl. destruct (in_range (alen a) i); [|apply sim_throw].
  apply sim_ret, aset_amap.
Qed.
Lemma sim_awrite_id {A} (a : arr A) i x : sim (λ y, y) (awrite a i x) (awrite a i x).
Proof. unfold awrite. destruct (in_range (alen a) i); [by apply sim_ret|apply sim_throw]. Qed.

Lemma sim_if {A B} (g : B → A) (b : bool) m m' n n' :
  sim g m n → sim g m' n' → sim g (if b then m else m') (if b then n else n').
Proof. by destruct b. Qed.
Lemma sim_when b m n : sim (λ x, x) m n → sim (λ x, x) (when b m) (when b n).
Proof. intros H. destruct b; [done|]. by apply sim_ret. Qed.
Lemma sim_option {A B C} (g : B → A) (o : option C) m m' n n' :
  sim g m n → (∀ x, sim g (m' x) (n' x)) →
  sim g (match o with Some x => m' x | None => m end) (match o with Some x => n' x | None => n end).
Proof. intros H H'. by destruct o. Qed.

Lemma sim_loop {X R} p (f : X → M S (X + R)) (f' : X → M T (X + R)) x :
  (∀ x, sim (λ y, y) (f x) (f' x)) → sim (λ y, y) (loop_pos p f x) (loop_pos p f' x).
Proof.
  intros H. revert x. induction p as [p IH|p IH|]; intros x; simpl; [| |done].
  - eapply sim_bind; [done|]. intros [y|v]; [|by apply sim_ret].
    eapply sim_bind; [done|]. intros [z|v]; [done|by apply sim_ret].
  - eapply sim_bind; [done|]. intros [y|v]; [done|by apply sim_ret].
Qed.
Lemma sim_while {X R} b (f : X → M S (X + R)) (f' : X → M T (X + R)) x :
  (∀ x, sim (λ y, y) (f x) (f' x)) → sim (λ y, y) (while_loop b f x) (while_loop b f' x).
Proof.
  intros H. eapply sim_bind; [by apply sim_loop|]. intros [y|v]; [apply sim_throw|by apply sim_ret].
Qed.
Lemma sim_for_list {X} (l : list X) f f' :
  (∀ x, sim (λ y, y) (f x) (f' x)) → sim (λ y, y) (for_list l f) (for_list l f').
Proof.
  intros H. induction l as [|x l IH]; simpl; [by apply sim_ret|]. by eapply sim_bind.
Qed.
Lemma sim_for_range lo hi f f' :
  (∀ x, sim (λ y, y) (f x) (f' x)) → sim (λ y, y) (for_range lo hi f) (for_range lo hi f').
Proof. apply sim_for_list. Qed.

(** On a component that both states have. *)
Lemma sim_zoom {U A} (gs : S → U) ps (gt : T → U) pt (m : M U A) :
  (∀ t, ok t → gs (φ t) = gt t) → (∀ u t, ok t → ok (pt u t) ∧ ps u (φ t) = φ (pt u t)) →
  sim (λ x, x) (zoom gs ps m) (zoom gt pt m).
Proof.
  intros Hg Hp t Ht. unfold zoom. rewrite Hg by done. destruct (m (gt t)) as [[a u]|e]; [|done].
  destruct (Hp u t Ht) as [H1 H2]. by rewrite H2.
Qed.
End sim.

(** On components related by a simulation of their own. *)
Lemma sim_zoom_sim {S T S' T' A B} (φ : T → S) ok (φ' : T' → S') ok' (g : B → A)
    (gs : S → S') ps (gt : T → T') pt (m : M S' A) (n : M T' B) :
  sim φ' ok' g m n → (∀ t, ok t → ok' (gt t) ∧ gs (φ t) = φ' (gt t)) →
  (∀ u t, ok t → ok' u → ok (pt u t) ∧ ps (φ' u) (φ t) = φ (pt u t)) →
  sim φ ok g (zoom gs ps m) (zoom gt pt n).
Proof.
  intros H Hg Hp t Ht. unfold zoom. destruct (Hg t Ht) as [H1 ->]. specialize (H _ H1).
  destruct (n (gt t)) as [[b u]|e]; [|by rewrite H]. destruct H as [Hu ->].
  destruct (Hp u t Ht Hu) as [H2 H3]. by rewrite H3.
Qed.

(** ** One statement *)

Create HintDb sim discriminated.
#[export] Hint Resolve sim_throw sim_get sim_assert sim_deref_id sim_aread sim_aread_id
  sim_awrite sim_awrite_id : sim.

Ltac sim_step :=
  lazymatch goal with
  | |- sim _ _ _ (mret _) (mret _) => apply sim_ret; reflexivity
  | |- sim _ _ _ (if _ then _ else _) (if _ then _ else _) => apply sim_if
  | |- sim _ _ _ (when _ _) (when _ _) => apply sim_when
  | |- sim _ _ _ (while_loop _ _ _) (while_loop _ _ _) => apply sim_while; intros; cbv beta iota
  | |- sim _ _ _ (for_range _ _ _) (for_range _ _ _) => apply sim_for_range; intros; cbv beta iota
  | |- sim _ _ _ (match ?o with Some _ => _ | None => _ end) _ => apply sim_option; [|intros ?]
  | |- sim _ _ _ (match ?p with (_, _) => _ end) _ => destruct p
  | |- sim _ _ _ (_ ≫= _) (_ ≫= _) => first
      [ eapply sim_bind; [solve [eauto 2 with sim nocore]|intros ?; cbv beta iota]
      | eapply (sim_bind (λ x, x)); [|intros ?; cbv beta iota] ]
  | |- _ => solve [eauto 2 with sim nocore]
  end.

(** ** Heaps over corresponding stores *)

Section heap.
Context {St St' E : Type} `{!PqOps St E} `{!PqOps St' E} (h : St' → St).
Hypothesis h_cmppri : ∀ a b, @pq_cmppri St E _ a b = @pq_cmppri St' E _ a b.
Hypothesis h_getpri : ∀ s e, pq_getpri (h s) e = pq_getpri s e.
Hypothesis h_getpos : ∀ s e, pq_getpos (h s) e = pq_getpos s e.
Hypothesis h_setpri : ∀ s e p, pq_setpri (h s) e p = h (pq_setpri s e p).
Hypothesis h_setpos : ∀ s e p, pq_setpos (h s) e p = h (pq_setpos s e p).

(** An invariant of the right-hand store. *)
Context (P : St' → Prop).
Hypothesis P_setpri : ∀ s e p, P s → P (pq_setpri s e p).
Hypothesis P_setpos : ∀ s e p, P s → P (pq_setpos s e p).

Definition heap_map (qs : pqst St' E) : pqst St E := (qs.1, h qs.2).
Definition heap_ok (qs : pqst St' E) : Prop := P qs.2.
#[local] Abbreviation hsim := (sim heap_map heap_ok (λ x, x)).

Lemma sim_d_get i : hsim (d_get i) (d_get i).
Proof. unfold d_get. eapply sim_bind; [apply sim_get|]. intros [q s]. simpl. by repeat sim_step. Qed.
Lemma sim_d_set i e : hsim (d_set i e) (d_set i e).
Proof.
  intros [q s] Ho. unfold d_set, awrite, mbind, M_bind, get. simpl.
  by destruct (in_range (alen (q_d q)) i).
Qed.
Lemma sim_getpri e : hsim (getpri e) (getpri e).
Proof. apply sim_gets. intros [q s] _. apply h_getpri. Qed.
Lemma sim_getpos e : hsim (getpos e) (getpos e).
Proof. apply sim_gets. intros [q s] _. apply h_getpos. Qed.
Lemma sim_setpri e p : hsim (setpri e p) (setpri e p).
Proof. apply sim_modify. intros [q s] Ho. split; [by apply P_setpri|]. unfold heap_map. simpl. by rewrite h_setpri. Qed.
Lemma sim_setpos e p : hsim (setpos e p) (setpos e p).
Proof. apply sim_modify. intros [q s] Ho. split; [by apply P_setpos|]. unfold heap_map. simpl. by rewrite h_setpos. Qed.
Lemma sim_size_set n : hsim (size_set n) (size_set n).
Proof. by apply sim_modify. Qed.
#[local] Hint Resolve sim_d_get sim_d_set sim_getpri sim_getpos sim_setpri sim_setpos sim_size_set : sim.

(** The size of the queue, read from the state. *)
Lemma sim_get_queue {A B} (g : B → A) k l :
  (∀ q s, sim heap_map heap_ok g (k (q, h s)) (l (q, s))) → sim heap_map heap_ok g (get ≫= k) (get ≫= l).
Proof. intros H. eapply sim_bind; [apply sim_get|]. intros [q s]. apply H. Qed.

Lemma sim_bubble_up i : hsim (bubble_up i) (bubble_up i).
Proof. unfold bubble_up. repeat sim_step. rewrite h_cmppri. repeat sim_step. Qed.
Lemma sim_maxchild i : hsim (maxchild i) (maxchild i).
Proof.
  unfold maxchild. apply sim_get_queue. intros q s. simpl. repeat sim_step.
  apply sim_ret. by rewrite h_cmppri.
Qed.
#[local] Hint Resolve sim_bubble_up sim_maxchild : sim.
Lemma sim_percolate_down i : hsim (percolate_down i) (percolate_down i).
Proof.
  unfold percolate_down. do 2 sim_step. apply sim_get_queue. intros q s. simpl. repeat sim_step.
  rewrite h_cmppri. repeat sim_step.
Qed.
#[local] Hint Resolve sim_percolate_down : sim.

Lemma sim_pqueue_insert e : hsim (pqueue_insert e) (pqueue_insert e).
Proof. unfold pqueue_insert. apply sim_get_queue. intros q s. simpl. repeat sim_step. Qed.
Lemma sim_pqueue_change_priority p e : hsim (pqueue_change_priority p e) (pqueue_change_priority p e).
Proof. unfold pqueue_change_priority. do 3 sim_step. rewrite h_cmppri. repeat sim_step. Qed.
Lemma sim_pqueue_pop : hsim pqueue_pop pqueue_pop.
Proof. unfold pqueue_pop. apply sim_get_queue. intros q s. simpl. repeat sim_step. Qed.
Lemma sim_pqueue_peek : hsim pqueue_peek pqueue_peek.
Proof. unfold pqueue_peek. apply sim_get_queue. intros q s. simpl. repeat sim_step. Qed.
End heap.
