(* ===== verification/ConvFtl.v ===== *)
(** * The conventional flash translation layer: operations (src/conv_ftl.c, src/conv_ftl.h)

    The layer from which the FDP layer was derived: one write pointer for the host,
    one for the collector, no handles, events or statistics.  The conventions are
    those of FdpFtl: one partition is a [conv_ftl], what the partitions share with
    each other and with the rest of the driver is [cshared]; a pointer to a line is
    its index, a kernel list of lines the list of their indices, and the victim
    queue is the heap of Pqueue over the line array. *)

From stdpp Require Import base numbers list gmap.
From S2P Require Import Prelude Config Pqueue ChannelModel Ssd Nvme FdpLog.

#[local] Open Scope Z_scope.

(** ** Data *)

Record convparams : Type := ConvParams {
  cv_gc_thres_lines : Z;
  cv_gc_thres_lines_high : Z;
  cv_enable_gc_delay : bool;
  cv_op_area_pcent : Z;  (* in hundredths *)
  cv_pba_pcent : Z;
}.

(** The list links are in the two lists of [line_mgmt]. *)
Record line : Type := Line {
  li_id : Z;
  li_ipc : Z;
  li_vpc : Z;
  li_pos : Z;
}.

Record write_pointer : Type := WPtr {
  p_curline : option Z;
  p_ch : Z;
  p_lun : Z;
  p_pg : Z;
  p_blk : Z;
  p_pl : Z;
}.

Record line_mgmt : Type := LMgmt {
  m_lines : arr line;
  m_free_line_list : list Z;
  m_victim_line_pq : pqueue Z;
  m_full_line_list : list Z;
  m_tt_lines : Z;
  m_free_line_cnt : Z;
  m_victim_line_cnt : Z;
  m_full_line_cnt : Z;
}.

Record write_flow_control : Type := WFlow {
  fc_write_credits : Z;
  fc_credits_to_refill : Z;
}.

Record conv_ftl : Type := ConvFtl {
  cf_ssd : ssd;
  cf_cp : convparams;
  cf_maptbl : arr ppa;
  cf_rmap : arr Z;
  cf_wp : write_pointer;
  cf_gc_wp : write_pointer;
  cf_lm : line_mgmt;
  cf_wfc : write_flow_control;
}.

(** The PCIe channel, the write buffer and the clock; the number of readings of the
    local clock; the internal operations handed to the I/O engine, oldest first. *)
Record cshared : Type := CShared {
  cs_env : env;
  cs_lticks : Z;
  cs_ops : list internal_op;
}.

Definition cstate : Type := conv_ftl * cshared.

(** ** Field updates *)

Definition set_cf_ssd (x : ssd) (f : conv_ftl) : conv_ftl :=
  ConvFtl x (cf_cp f) (cf_maptbl f) (cf_rmap f) (cf_wp f) (cf_gc_wp f) (cf_lm f)
    (cf_wfc f).
Definition set_cf_maptbl (x : arr ppa) (f : conv_ftl) : conv_ftl :=
  ConvFtl (cf_ssd f) (cf_cp f) x (cf_rmap f) (cf_wp f) (cf_gc_wp f) (cf_lm f)
    (cf_wfc f).
Definition set_cf_rmap (x : arr Z) (f : conv_ftl) : conv_ftl :=
  ConvFtl (cf_ssd f) (cf_cp f) (cf_maptbl f) x (cf_wp f) (cf_gc_wp f) (cf_lm f)
    (cf_wfc f).
Definition set_cf_wp (x : write_pointer) (f : conv_ftl) : conv_ftl :=
  ConvFtl (cf_ssd f) (cf_cp f) (cf_maptbl f) (cf_rmap f) x (cf_gc_wp f) (cf_lm f)
    (cf_wfc f).
Definition set_cf_gc_wp (x : write_pointer) (f : conv_ftl) : conv_ftl :=
  ConvFtl (cf_ssd f) (cf_cp f) (cf_maptbl f) (cf_rmap f) (cf_wp f) x (cf_lm f)
    (cf_wfc f).
Definition set_cf_lm (x : line_mgmt) (f : conv_ftl) : conv_ftl :=
  ConvFtl (cf_ssd f) (cf_cp f) (cf_maptbl f) (cf_rmap f) (cf_wp f) (cf_gc_wp f) x
    (cf_wfc f).
Definition set_cf_wfc (x : write_flow_control) (f : conv_ftl) : conv_ftl :=
  ConvFtl (cf_ssd f) (cf_cp f) (cf_maptbl f) (cf_rmap f) (cf_wp f) (cf_gc_wp f)
    (cf_lm f) x.

Definition set_lines (x : arr line) (m : line_mgmt) : line_mgmt :=
  LMgmt x (m_free_line_list m) (m_victim_line_pq m) (m_full_line_list m) (m_tt_lines m)
    (m_free_line_cnt m) (m_victim_line_cnt m) (m_full_line_cnt m).
Definition set_free (l : list Z) (cnt : Z) (m : line_mgmt) : line_mgmt :=
  LMgmt (m_lines m) l (m_victim_line_pq m) (m_full_line_list m) (m_tt_lines m)
    cnt (m_victim_line_cnt m) (m_full_line_cnt m).
Definition set_full (l : list Z) (cnt : Z) (m : line_mgmt) : line_mgmt :=
  LMgmt (m_lines m) (m_free_line_list m) (m_victim_line_pq m) l (m_tt_lines m)
    (m_free_line_cnt m) (m_victim_line_cnt m) cnt.
Definition set_pq (q : pqueue Z) (m : line_mgmt) : line_mgmt :=
  LMgmt (m_lines m) (m_free_line_list m) q (m_full_line_list m) (m_tt_lines m)
    (m_free_line_cnt m) (m_victim_line_cnt m) (m_full_line_cnt m).
Definition set_victim_cnt (cnt : Z) (m : line_mgmt) : line_mgmt :=
  LMgmt (m_lines m) (m_free_line_list m) (m_victim_line_pq m) (m_full_line_list m)
    (m_tt_lines m) (m_free_line_cnt m) cnt (m_full_line_cnt m).

Definition set_li_ipc (x : Z) (l : line) : line :=
  Line (li_id l) x (li_vpc l) (li_pos l).
Definition set_li_vpc (x : Z) (l : line) : line :=
  Line (li_id l) (li_ipc l) x (li_pos l).
Definition set_li_pos (x : Z) (l : line) : line :=
  Line (li_id l) (li_ipc l) (li_vpc l) x.

(** ** Reaching into the state *)

Definition get_ftl : M cstate conv_ftl := gets fst.
Definition spp : M cstate ssdparams := gets (λ s, ssd_sp (cf_ssd (fst s))).
Definition mod_ftl (g : conv_ftl → conv_ftl) : M cstate unit := modify (λ s, (g (fst s), snd s)).
Definition mod_lm (g : line_mgmt → line_mgmt) : M cstate unit :=
  mod_ftl (λ f, set_cf_lm (g (cf_lm f)) f).
Definition on_ssd {A} (m : M sst A) : M cstate A :=
  zoom (λ s, (cf_ssd (fst s), cs_env (snd s)))
       (λ t s, (set_cf_ssd (fst t) (fst s), CShared (snd t) (cs_lticks (snd s)) (cs_ops (snd s)))) m.
Definition on_pq {A} (m : M (pqst (arr line) Z) A) : M cstate A :=
  zoom (λ s, (m_victim_line_pq (cf_lm (fst s)), m_lines (cf_lm (fst s))))
       (λ t s, (set_cf_lm (set_pq (fst t) (set_lines (snd t) (cf_lm (fst s)))) (fst s), snd s)) m.

(** Access through a pointer to a line. *)
Definition line_get (l : Z) : M cstate line :=
  f ← get_ftl; aread (m_lines (cf_lm f)) l.
Definition line_upd (l : Z) (g : line → line) : M cstate unit :=
  x ← line_get l;
  mod_lm (λ m, set_lines (aset (m_lines m) l (g x)) m).

(** ** Callbacks of the victim queue

    They dereference the line pointer without a bounds check. *)

Definition line_cell (s : arr line) (l : Z) : line :=
  default (adef s) (acells s !! l).
Definition line_poke (s : arr line) (l : Z) (g : line → line) : arr line :=
  Arr (alen s) (adef s) (<[l := g (line_cell s l)]> (acells s)).

Definition victim_line_cmp_pri (next curr : Z) : bool := curr <? next.
Definition victim_line_get_pri (s : arr line) (l : Z) : Z := u64 (li_vpc (line_cell s l)).
Definition victim_line_set_pri (s : arr line) (l : Z) (pri : Z) : arr line :=
  line_poke s l (set_li_vpc (s32 pri)).
Definition victim_line_get_pos (s : arr line) (l : Z) : Z := li_pos (line_cell s l).
Definition victim_line_set_pos (s : arr line) (l : Z) (pos : Z) : arr line :=
  line_poke s l (set_li_pos pos).

#[export] Instance line_pq_ops : PqOps (arr line) Z := {|
  pq_cmppri := victim_line_cmp_pri;
  pq_getpri := victim_line_get_pri;
  pq_setpri := victim_line_set_pri;
  pq_getpos := victim_line_get_pos;
  pq_setpos := victim_line_set_pos;
|}.

(** ** Address and mapping helpers *)

Section operations.
Context `{!Clock} `{!LocalClock}.

Definition last_pg_in_wordline (sp : ssdparams) (p : ppa) : bool :=
  g_pg p mod pgs_per_oneshotpg sp =? pgs_per_oneshotpg sp - 1.

Definition should_gc (f : conv_ftl) : bool :=
  m_free_line_cnt (cf_lm f) <=? cv_gc_thres_lines (cf_cp f).
Definition should_gc_high (f : conv_ftl) : bool :=
  m_free_line_cnt (cf_lm f) <=? cv_gc_thres_lines_high (cf_cp f).

Definition get_maptbl_ent (lpn : Z) : M cstate ppa :=
  f ← get_ftl; aread (cf_maptbl f) lpn.

Definition set_maptbl_ent (lpn : Z) (p : ppa) : M cstate unit :=
  f ← get_ftl;
  NVMEV_ASSERT (lpn <? tt_pgs (ssd_sp (cf_ssd f))) ;;
  t ← awrite (cf_maptbl f) lpn p;
  mod_ftl (set_cf_maptbl t).

Definition ppa2pgidx (p : ppa) : M cstate Z :=
  sp ← spp;
  let pgidx := u64 (g_ch p * pgs_per_ch sp + g_lun p * pgs_per_lun sp
                    + g_pl p * pgs_per_pl sp + g_blk p * pgs_per_blk sp + g_pg p) in
  NVMEV_ASSERT (pgidx <? tt_pgs sp) ;;
  mret pgidx.

Definition get_rmap_ent (p : ppa) : M cstate Z :=
  pgidx ← ppa2pgidx p;
  f ← get_ftl;
  aread (cf_rmap f) pgidx.

Definition set_rmap_ent (lpn : Z) (p : ppa) : M cstate unit :=
  pgidx ← ppa2pgidx p;
  f ← get_ftl;
  t ← awrite (cf_rmap f) pgidx lpn;
  mod_ftl (set_cf_rmap t).

Definition consume_write_credit : M cstate unit :=
  mod_ftl (λ f, set_cf_wfc (WFlow (u32 (fc_write_credits (cf_wfc f) - 1))
                           (fc_credits_to_refill (cf_wfc f))) f).

(** ** Lines and write pointers *)

Definition init_lines (sp : ssdparams) : res line_mgmt :=
  let tt := u32 (blks_per_pl sp) in
  if negb (tt =? tt_lines sp) then Fault BUG
  else
    let ids := seqZ 0 tt in
    Ok (LMgmt (abuild tt (Line 0 0 0 0) (λ i, Line i 0 0 0))
          ids (pqueue_init (tt_lines sp)) [] tt (u32 (Z.of_nat (length ids))) 0 0).

Definition init_write_flow_control (sp : ssdparams) : write_flow_control :=
  WFlow (u32 (pgs_per_line sp)) (u32 (pgs_per_line sp)).

Definition check_addr (a max : Z) : M cstate unit :=
  NVMEV_ASSERT ((0 <=? s32 a) && (s32 a <? max)).

Definition get_next_free_line : M cstate (option Z) :=
  f ← get_ftl;
  match m_free_line_list (cf_lm f) with
  | [] => mret None
  | curline :: _ =>
      mod_lm (λ m, set_free (list_del curline (m_free_line_list m))
                     (u32 (m_free_line_cnt m - 1)) m) ;;
      mret (Some curline)
  end.

Definition get_wp (io : io_type) : M cstate write_pointer :=
  f ← get_ftl;
  match io with
  | USER_IO => mret (cf_wp f)
  | GC_IO => mret (cf_gc_wp f)
  end.
Definition set_wp (io : io_type) (w : write_pointer) : M cstate unit :=
  match io with
  | USER_IO => mod_ftl (set_cf_wp w)
  | GC_IO => mod_ftl (set_cf_gc_wp w)
  end.

Definition prepare_write_pointer (io : io_type) : M cstate unit :=
  get_wp io ;;
  o ← get_next_free_line;
  match o with
  | None => throw BUG
  | Some curline =>
      x ← line_get curline;
      set_wp io (WPtr (Some curline) 0 0 0 (u32 (li_id x)) 0)
  end.

(** The tail of [advance_write_pointer]: the line is used up.  [w] has its page,
    LUN and channel reset; the line goes to the full list or to the victim queue
    and the pointer takes the next free line. *)
Definition next_line (io : io_type) (w : write_pointer) : M cstate unit :=
  sp ← spp;
  cur ← deref (p_curline w);
  line ← line_get cur;
  (if u64 (li_vpc line) =? pgs_per_line sp then
     NVMEV_ASSERT (li_ipc line =? 0) ;;
     mod_lm (λ m, set_full (m_full_line_list m ++ [cur]) (u32 (m_full_line_cnt m + 1)) m)
   else
     NVMEV_ASSERT ((0 <=? li_vpc line) && (u64 (li_vpc line) <? pgs_per_line sp)) ;;
     NVMEV_ASSERT (0 <? li_ipc line) ;;
     on_pq (pqueue_insert cur) ;;
     mod_lm (λ m, set_victim_cnt (u32 (m_victim_line_cnt m + 1)) m)) ;;
  check_addr (p_blk w) (blks_per_pl sp) ;;
  o ← get_next_free_line;
  set_wp io (WPtr o (p_ch w) (p_lun w) (p_pg w) (p_blk w) (p_pl w)) ;;
  new ← deref o;
  x ← line_get new;
  let blk := u32 (li_id x) in
  set_wp io (WPtr o (p_ch w) (p_lun w) (p_pg w) blk (p_pl w)) ;;
  check_addr blk (blks_per_pl sp) ;;
  NVMEV_ASSERT (p_pg w =? 0) ;;
  NVMEV_ASSERT (p_lun w =? 0) ;;
  NVMEV_ASSERT (p_ch w =? 0) ;;
  NVMEV_ASSERT (p_pl w =? 0).

Definition advance_write_pointer (io : io_type) : M cstate unit :=
  sp ← spp;
  w ← get_wp io;
  let W ch lun pg := WPtr (p_curline w) ch lun pg (p_blk w) (p_pl w) in
  check_addr (p_pg w) (pgs_per_blk sp) ;;
  let pg := u32 (p_pg w + 1) in
  if negb (pg mod pgs_per_oneshotpg sp =? 0) then set_wp io (W (p_ch w) (p_lun w) pg)
  else
    let pg := u32 (pg - pgs_per_oneshotpg sp) in
    check_addr (p_ch w) (nchs sp) ;;
    let ch := u32 (p_ch w + 1) in
    if negb (ch =? nchs sp) then set_wp io (W ch (p_lun w) pg)
    else
      let ch := 0 in
      check_addr (p_lun w) (luns_per_ch sp) ;;
      let lun := u32 (p_lun w + 1) in
      if negb (lun =? luns_per_ch sp) then set_wp io (W ch lun pg)
      else
        let lun := 0 in
        let pg := u32 (pg + pgs_per_oneshotpg sp) in
        if negb (pg =? pgs_per_blk sp) then set_wp io (W ch lun pg)
        else next_line io (W ch lun 0).

Definition get_new_page (io : io_type) : M cstate ppa :=
  w ← get_wp io;
  let p := set_g_pl (p_pl w) (set_g_blk (p_blk w) (set_g_pg (p_pg w)
             (set_g_lun (p_lun w) (set_g_ch (p_ch w) (ppa_of 0))))) in
  NVMEV_ASSERT (g_pl p =? 0) ;;
  mret p.

(** ** Initialisation *)

Definition init_maptbl (sp : ssdparams) : arr ppa := anew (tt_pgs sp) (ppa_of UNMAPPED_PPA).
Definition init_rmap (sp : ssdparams) : arr Z := anew (tt_pgs sp) INVALID_LPN.

(** The write pointers are set below; before that they are unset memory. *)
Definition unset_wp : write_pointer := WPtr None 0 0 0 0 0.

Definition conv_init_ftl (cpp : convparams) (s : ssd) (sh : cshared) : res cstate :=
  let sp := ssd_sp s in
  match init_lines sp with
  | Fault e => Fault e
  | Ok lm =>
      let f0 := ConvFtl s cpp (init_maptbl sp) (init_rmap sp) unset_wp unset_wp
                  lm (WFlow 0 0) in
      match (prepare_write_pointer USER_IO ;;
             prepare_write_pointer GC_IO ;;
             mod_ftl (set_cf_wfc (init_write_flow_control sp))) (f0, sh) with
      | Ok (_, s') => Ok s'
      | Fault e => Fault e
      end
  end.

Definition conv_init_params (c : ssd_config) : convparams :=
  ConvParams 2 2 true (OP_AREA_PERCENT c)
    (100 + OP_AREA_PERCENT c).

Definition valid_ppa (sp : ssdparams) (p : ppa) : bool :=
  (g_ch p <? nchs sp) && (g_lun p <? luns_per_ch sp) && (g_pl p <? pls_per_lun sp)
  && (g_blk p <? blks_per_pl sp) && (g_pg p <? pgs_per_blk sp).
Definition valid_lpn (sp : ssdparams) (lpn : Z) : bool := lpn <? tt_pgs sp.
Definition mapped_ppa (p : ppa) : bool := negb (ppa_val p =? UNMAPPED_PPA).

(** ** Page and block status *)

Definition get_line (p : ppa) : Z := g_blk p.

Definition mod_ssd (g : ssd → ssd) : M cstate unit := mod_ftl (λ f, set_cf_ssd (g (cf_ssd f)) f).

Definition mark_page_invalid (p : ppa) : M cstate unit :=
  sp ← spp;
  f ← get_ftl;
  pg ← deref (get_pg (cf_ssd f) p);
  NVMEV_ASSERT (pg_status pg =? PG_VALID) ;;
  mod_ssd (upd_pg (set_pg_status PG_INVALID) p) ;;
  f ← get_ftl;
  blk ← deref (get_blk (cf_ssd f) p);
  NVMEV_ASSERT ((0 <=? blk_ipc blk) && (blk_ipc blk <? pgs_per_blk sp)) ;;
  NVMEV_ASSERT ((0 <? blk_vpc blk) && (blk_vpc blk <=? pgs_per_blk sp)) ;;
  mod_ssd (upd_blk (set_blk_counts (s32 (blk_ipc blk + 1)) (s32 (blk_vpc blk - 1))
                      (blk_erase_cnt blk)) p) ;;
  let l := get_line p in
  line ← line_get l;
  NVMEV_ASSERT ((0 <=? li_ipc line) && (u64 (li_ipc line) <? pgs_per_line sp)) ;;
  let was_full_line := u64 (li_vpc line) =? pgs_per_line sp in
  when was_full_line (NVMEV_ASSERT (li_ipc line =? 0)) ;;
  line_upd l (set_li_ipc (s32 (li_ipc line + 1))) ;;
  NVMEV_ASSERT ((0 <? li_vpc line) && (u64 (li_vpc line) <=? pgs_per_line sp)) ;;
  (if negb (li_pos line =? 0)
   then on_pq (pqueue_change_priority (u64 (li_vpc line - 1)) l)
   else line_upd l (λ x, set_li_vpc (s32 (li_vpc x - 1)) x)) ;;
  when was_full_line
    (mod_lm (λ m, set_full (list_del l (m_full_line_list m)) (u32 (m_full_line_cnt m - 1))
                    (set_free (list_del l (m_free_line_list m)) (m_free_line_cnt m) m)) ;;
     on_pq (pqueue_insert l) ;;
     mod_lm (λ m, set_victim_cnt (u32 (m_victim_line_cnt m + 1)) m)).

Definition mark_page_valid (p : ppa) : M cstate unit :=
  sp ← spp;
  f ← get_ftl;
  pg ← deref (get_pg (cf_ssd f) p);
  NVMEV_ASSERT (pg_status pg =? PG_FREE) ;;
  mod_ssd (upd_pg (set_pg_status PG_VALID) p) ;;
  f ← get_ftl;
  blk ← deref (get_blk (cf_ssd f) p);
  NVMEV_ASSERT ((0 <=? blk_vpc blk) && (blk_vpc blk <? pgs_per_blk sp)) ;;
  mod_ssd (upd_blk (set_blk_counts (blk_ipc blk) (s32 (blk_vpc blk + 1)) (blk_erase_cnt blk)) p) ;;
  let l := get_line p in
  line ← line_get l;
  NVMEV_ASSERT ((0 <=? li_vpc line) && (u64 (li_vpc line) <? pgs_per_line sp)) ;;
  line_upd l (set_li_vpc (s32 (li_vpc line + 1))).

Definition mark_block_free (p : ppa) : M cstate unit :=
  sp ← spp;
  for_range 0 (pgs_per_blk sp) (λ i,
    f ← get_ftl;
    blk ← deref (get_blk (cf_ssd f) p);
    pg ← aread (blk_pg blk) i;
    NVMEV_ASSERT (pg_nsecs pg =? secs_per_pg sp) ;;
    mod_ssd (upd_blk (λ b, NandBlock (aupd (blk_pg b) i (set_pg_status PG_FREE)) (blk_npgs b)
                             (blk_ipc b) (blk_vpc b) (blk_erase_cnt b) (blk_wp b)) p)) ;;
  f ← get_ftl;
  blk ← deref (get_blk (cf_ssd f) p);
  NVMEV_ASSERT (blk_npgs blk =? pgs_per_blk sp) ;;
  mod_ssd (upd_blk (set_blk_counts 0 0 (s32 (blk_erase_cnt blk + 1))) p).

(** ** Garbage collection *)

Definition gc_cmd (cmd : nand_op) (xfer_size : Z) (p : ppa) : nand_cmd :=
  NandCmd GC_IO cmd xfer_size 0 false p.

Definition gc_read_page (p : ppa) : M cstate unit :=
  sp ← spp;
  f ← get_ftl;
  when (cv_enable_gc_delay (cf_cp f))
    (on_ssd (ssd_advance_nand (gc_cmd NAND_READ (pgsz sp) p)) ;; mret tt).

Definition gc_write_page (old_ppa : ppa) : M cstate Z :=
  sp ← spp;
  lpn ← get_rmap_ent old_ppa;
  NVMEV_ASSERT (valid_lpn sp lpn) ;;
  new_ppa ← get_new_page GC_IO;
  set_maptbl_ent lpn new_ppa ;;
  set_rmap_ent lpn new_ppa ;;
  mark_page_valid new_ppa ;;
  advance_write_pointer GC_IO ;;
  f ← get_ftl;
  when (cv_enable_gc_delay (cf_cp f))
    (let gcw := if last_pg_in_wordline sp new_ppa
                then gc_cmd NAND_WRITE (u64 (s32 (pgsz sp * pgs_per_oneshotpg sp))) new_ppa
                else gc_cmd NAND_NOP 0 new_ppa in
     on_ssd (ssd_advance_nand gcw) ;; mret tt) ;;
  mret 0.

Definition select_victim_line (force : bool) : M cstate (option Z) :=
  sp ← spp;
  o ← on_pq pqueue_peek;
  match o with
  | None => mret None
  | Some victim_line =>
      line ← line_get victim_line;
      if negb force && (pgs_per_line sp / 8 <? u64 (li_vpc line)) then mret None
      else
        on_pq pqueue_pop ;;
        line_upd victim_line (set_li_pos 0) ;;
        mod_lm (λ m, set_victim_cnt (u32 (m_victim_line_cnt m - 1)) m) ;;
        mret (Some victim_line)
  end.

Definition clean_one_block (p : ppa) : M cstate unit :=
  sp ← spp;
  let fix pages (pgs : list Z) (cnt : Z) : M cstate Z :=
    match pgs with
    | [] => mret cnt
    | pg :: pgs' =>
        let p := set_g_pg pg p in
        f ← get_ftl;
        pg_iter ← deref (get_pg (cf_ssd f) p);
        NVMEV_ASSERT (negb (pg_status pg_iter =? PG_FREE)) ;;
        if pg_status pg_iter =? PG_VALID then
          gc_read_page p ;;
          gc_write_page p ;;
          pages pgs' (s32 (cnt + 1))
        else pages pgs' cnt
    end in
  cnt ← pages (seqZ 0 (pgs_per_blk sp)) 0;
  f ← get_ftl;
  blk ← deref (get_blk (cf_ssd f) p);
  NVMEV_ASSERT (blk_vpc blk =? cnt).

(** The first loop of [clean_one_flashpg]: the number of valid pages. *)
Fixpoint count_valid_pages (n : nat) (ppa_copy : ppa) (cnt : Z) : M cstate Z :=
  match n with
  | O => mret cnt
  | S n' =>
      f ← get_ftl;
      pg_iter ← deref (get_pg (cf_ssd f) ppa_copy);
      NVMEV_ASSERT (negb (pg_status pg_iter =? PG_FREE)) ;;
      count_valid_pages n' (set_g_pg (g_pg ppa_copy + 1) ppa_copy)
        (if pg_status pg_iter =? PG_VALID then cnt + 1 else cnt)
  end.

(** Its second loop: the valid pages are written elsewhere. *)
Fixpoint move_valid_pages (n : nat) (ppa_copy : ppa) : M cstate unit :=
  match n with
  | O => mret tt
  | S n' =>
      f ← get_ftl;
      pg_iter ← deref (get_pg (cf_ssd f) ppa_copy);
      when (pg_status pg_iter =? PG_VALID) (gc_write_page ppa_copy ;; mret tt) ;;
      move_valid_pages n' (set_g_pg (g_pg ppa_copy + 1) ppa_copy)
  end.

Definition clean_one_flashpg (p : ppa) : M cstate unit :=
  sp ← spp;
  let n := Z.to_nat (pgs_per_flashpg sp) in
  cnt ← count_valid_pages n p 0;
  if cnt <=? 0 then mret tt
  else
    f ← get_ftl;
    when (cv_enable_gc_delay (cf_cp f))
      (on_ssd (ssd_advance_nand (gc_cmd NAND_READ (u64 (s32 (pgsz sp * cnt))) p)) ;; mret tt) ;;
    move_valid_pages n p.

Definition mark_line_free (p : ppa) : M cstate unit :=
  let l := get_line p in
  line_upd l (λ x, set_li_vpc 0 (set_li_ipc 0 x)) ;;
  mod_lm (λ m, set_free (m_free_line_list m ++ [l]) (u32 (m_free_line_cnt m + 1)) m).

(** The body of the loops of [do_gc]; [base] has the victim's block. *)
Definition gc_flashpg (base : ppa) (flashpg ch lun : Z) : M cstate unit :=
  sp ← spp;
  let p := set_g_pl 0 (set_g_lun lun (set_g_ch ch
             (set_g_pg (flashpg * pgs_per_flashpg sp) base))) in
  clean_one_flashpg p ;;
  when (flashpg =? flashpgs_per_blk sp - 1)
    (mark_block_free p ;;
     f ← get_ftl;
     when (cv_enable_gc_delay (cf_cp f))
       (on_ssd (ssd_advance_nand (gc_cmd NAND_ERASE 0 p)) ;; mret tt) ;;
     f ← get_ftl;
     lunp ← deref (get_lun (cf_ssd f) p);
     mod_ssd (upd_lun (set_lun_gc_endtime (lun_next_lun_avail_time lunp)) p)).

Definition do_gc (force : bool) : M cstate Z :=
  sp ← spp;
  o ← select_victim_line force;
  match o with
  | None => mret (-1)
  | Some victim_line =>
      line ← line_get victim_line;
      let base := set_g_blk (li_id line) (ppa_of 0) in
      mod_ftl (λ f, set_cf_wfc (WFlow (fc_write_credits (cf_wfc f))
                               (u32 (li_ipc line))) f) ;;
      for_range 0 (flashpgs_per_blk sp) (λ flashpg,
        for_range 0 (nchs sp) (λ ch,
          for_range 0 (luns_per_ch sp) (λ lun, gc_flashpg base flashpg ch lun))) ;;
      mark_line_free base ;;
      mret 0
  end.

Definition foreground_gc : M cstate unit :=
  f ← get_ftl;
  when (should_gc_high f) (do_gc true ;; mret tt).

Definition check_and_refill_write_credit : M cstate unit :=
  f ← get_ftl;
  when (fc_write_credits (cf_wfc f) <=? 0)
    (foreground_gc ;;
     mod_ftl (λ f, set_cf_wfc (WFlow
                              (u32 (fc_write_credits (cf_wfc f)
                                    + fc_credits_to_refill (cf_wfc f)))
                              (fc_credits_to_refill (cf_wfc f))) f)).

Definition is_same_flash_page (sp : ssdparams) (p1 p2 : ppa) : bool :=
  (h_blk_in_ssd p1 =? h_blk_in_ssd p2)
  && (g_pg p1 / pgs_per_flashpg sp =? g_pg p2 / pgs_per_flashpg sp).

(** ** Commands

    A namespace: its partitions and what they share. *)

Definition cnsstate : Type := arr conv_ftl * cshared.

(** Runs [m] on partition [i]. *)
Definition on_part {A} (i : Z) (m : M cstate A) : M cnsstate A :=
  '(fs, sh) ← get;
  f ← aread fs i;
  match m (f, sh) with
  | Ok (a, (f', sh')) => put (aset fs i f', sh') ;; mret a
  | Fault e => throw e
  end.

(** The loop of [conv_init_namespace] that builds the partitions. *)
Fixpoint init_parts (cpp : convparams) (sp : ssdparams) (cpu_nr_dispatcher : Z) (ids : list Z)
    (st : cnsstate) : res cnsstate :=
  match ids with
  | [] => Ok st
  | i :: ids' =>
      let '(s, _, _) := ssd_init sp cpu_nr_dispatcher in
      match conv_init_ftl cpp s (snd st) with
      | Ok (f, sh) => init_parts cpp sp cpu_nr_dispatcher ids' (aset (fst st) i f, sh)
      | Fault e => Fault e
      end
  end.

(** [conv_init_namespace]: afterwards every partition uses the PCIe channel and
    the write buffer of partition 0.  [f0] stands for the memory of the partition
    array before it is filled. *)
Definition conv_init_namespace (c : ssd_config) (f0 : conv_ftl)
    (id size cpu_nr_dispatcher ticks lticks : Z) : res (cnsstate * nvmev_ns) :=
  let nr_parts := SSD_PARTITIONS c in
  match ssd_init_params c size nr_parts with
  | Fault e => Fault e
  | Ok sp =>
      let cpp := conv_init_params c in
      let '(_, pcie, wbuf) := ssd_init sp cpu_nr_dispatcher in
      let sh := CShared (Env pcie wbuf ticks) lticks [] in
      match init_parts cpp sp cpu_nr_dispatcher (seqZ 0 nr_parts) (anew nr_parts f0, sh) with
      | Fault e => Fault e
      | Ok st => Ok (st, Ns id 0 (u64 (size * 100) / cv_pba_pcent cpp) nr_parts)
      end
  end.

(** The inner loop of [conv_read] over the pages of one partition.  The locals
    are [lpn], [xfer_size], [prev_ppa] and [nsecs_latest]. *)
Definition read_part (nr_parts : Z) (srd_stime : Z) (start_lpn end_lpn nsecs_latest : Z)
    : M cstate Z :=
  sp ← spp;
  let srd xfer p := NandCmd USER_IO NAND_READ xfer srd_stime true p in
  prev_ppa ← get_maptbl_ent (start_lpn / nr_parts);
  '(xfer_size, prev_ppa, nsecs_latest) ←
    while_loop (end_lpn - start_lpn + 2) (λ '(lpn, xfer_size, prev_ppa, nsecs_latest),
      if negb (lpn <=? end_lpn) then mret (inr (xfer_size, prev_ppa, nsecs_latest))
      else
        cur_ppa ← get_maptbl_ent (lpn / nr_parts);
        if negb (mapped_ppa cur_ppa) || negb (valid_ppa sp cur_ppa)
        then mret (inl (lpn + nr_parts, xfer_size, prev_ppa, nsecs_latest))
        else if mapped_ppa prev_ppa && is_same_flash_page sp cur_ppa prev_ppa
        then mret (inl (lpn + nr_parts, u32 (xfer_size + pgsz sp), prev_ppa, nsecs_latest))
        else
          nsecs_latest ← (if 0 <? xfer_size then
                            t ← on_ssd (ssd_advance_nand (srd xfer_size prev_ppa));
                            mret (Z.max t nsecs_latest)
                          else mret nsecs_latest);
          mret (inl (lpn + nr_parts, u32 (pgsz sp), cur_ppa, nsecs_latest)))
      (start_lpn, 0, prev_ppa, nsecs_latest);
  if 0 <? xfer_size then
    t ← on_ssd (ssd_advance_nand (srd xfer_size prev_ppa));
    mret (Z.max t nsecs_latest)
  else mret nsecs_latest.

(** The parameters of partition 0, which the handlers take for all. *)
Definition spp0 : M cnsstate ssdparams :=
  '(fs, _) ← get;
  f ← aread fs 0;
  mret (ssd_sp (cf_ssd f)).

Definition conv_read (c : ssd_config) (ns : nvmev_ns) (req : nvmev_request) (ret : nvmev_result)
    : M cnsstate (bool * nvmev_result) :=
  sp ← spp0;
  let cmd := req_cmd req in
  let lba := rw_slba cmd in
  let nr_lba := rw_length cmd + 1 in
  let start_lpn := lba / secs_per_pg sp in
  let end_lpn := u64 (lba + nr_lba - 1) / secs_per_pg sp in
  let nsecs_start := req_nsecs_start req in
  let nr_parts := ns_nr_parts ns in
  if tt_pgs sp <=? end_lpn / nr_parts then mret (false, ret)
  else
    let srd_stime := u64 (nsecs_start + (if LBA_TO_BYTE c nr_lba <=? u32 (KB 4 * nr_parts)
                                         then fw_4kb_rd_lat sp else fw_rd_lat sp)) in
    nsecs_latest ← while_loop (nr_parts + 1) (λ '(i, start_lpn, nsecs_latest),
      if negb ((i <? nr_parts) && (start_lpn <=? end_lpn)) then mret (inr nsecs_latest)
      else
        t ← on_part (start_lpn mod nr_parts)
              (read_part nr_parts srd_stime start_lpn end_lpn nsecs_latest);
        mret (inl (i + 1, start_lpn + 1, t)))
      (0, start_lpn, nsecs_start);
    mret (true, Result NVME_SC_SUCCESS nsecs_latest (ret_result ret)).

(** The page loop's body of [conv_write]: [swr_stime] is the time the data is in
    the buffer, the result the new [nsecs_latest]. *)
Definition write_page (sq_id swr_stime local_lpn nsecs_latest : Z) : M cstate Z :=
  sp ← spp;
  let oneshot_size := u64 (s32 (pgsz sp * pgs_per_oneshotpg sp)) in
  p ← get_maptbl_ent local_lpn;
  when (mapped_ppa p) (mark_page_invalid p ;; set_rmap_ent INVALID_LPN p) ;;
  p ← get_new_page USER_IO;
  set_maptbl_ent local_lpn p ;;
  set_rmap_ent local_lpn p ;;
  mark_page_valid p ;;
  advance_write_pointer USER_IO ;;
  nsecs_latest ←
    (if last_pg_in_wordline sp p then
       nsecs_completed ← on_ssd (ssd_advance_nand
                                  (NandCmd USER_IO NAND_WRITE oneshot_size swr_stime false p));
       modify (λ s, (fst s, CShared (cs_env (snd s)) (cs_lticks (snd s))
                              (cs_ops (snd s) ++ [InternalOp sq_id nsecs_completed oneshot_size]))) ;;
       mret (Z.max nsecs_completed nsecs_latest)
     else mret nsecs_latest);
  consume_write_credit ;;
  check_and_refill_write_credit ;;
  mret nsecs_latest.

Definition on_wbuf {A} (m : M buffer A) : M cnsstate A :=
  zoom (λ s, env_wbuf (cs_env (snd s)))
       (λ b s, (fst s, CShared (Env (env_pcie (cs_env (snd s))) b (env_ticks (cs_env (snd s))))
                         (cs_lticks (snd s)) (cs_ops (snd s)))) m.

Definition conv_write (c : ssd_config) (ns : nvmev_ns) (req : nvmev_request) (ret : nvmev_result)
    : M cnsstate (bool * nvmev_result) :=
  sp ← spp0;
  let cmd := req_cmd req in
  let lba := rw_slba cmd in
  let nr_lba := rw_length cmd + 1 in
  let start_lpn := lba / secs_per_pg sp in
  let end_lpn := u64 (lba + nr_lba - 1) / secs_per_pg sp in
  let nr_parts := ns_nr_parts ns in
  let bytes := LBA_TO_BYTE c nr_lba in
  if tt_pgs sp <=? end_lpn / nr_parts then mret (false, ret)
  else
    allocated_buf_size ← on_wbuf (buffer_allocate bytes);
    if allocated_buf_size <? bytes then mret (false, ret)
    else
      nsecs_xfer_completed ←
        on_part 0 (on_ssd (ssd_advance_write_buffer (req_nsecs_start req) bytes));
      nsecs_latest ← while_loop (end_lpn - start_lpn + 2) (λ '(lpn, nsecs_latest),
        if negb (lpn <=? end_lpn) then mret (inr nsecs_latest)
        else
          t ← on_part (lpn mod nr_parts)
                (write_page (req_sq_id req) nsecs_xfer_completed (lpn / nr_parts)
                   nsecs_latest);
          mret (inl (lpn + 1, t)))
        (start_lpn, nsecs_xfer_completed);
      let target := if negb (Z.land (rw_control cmd) NVME_RW_FUA =? 0)
                       || negb (write_early_completion sp)
                    then nsecs_latest else nsecs_xfer_completed in
      mret (true, Result NVME_SC_SUCCESS target (ret_result ret)).

Definition read_local_clock : M cnsstate Z := λ s,
  Ok (local_clock (cs_lticks (snd s)),
      (fst s, CShared (cs_env (snd s)) (cs_lticks (snd s) + 1) (cs_ops (snd s)))).

(** The local clock is read once, then every partition's NAND idle time. *)
Definition conv_flush (ns : nvmev_ns) (ret : nvmev_result) : M cnsstate nvmev_result :=
  start ← read_local_clock;
  let fix parts (ids : list Z) (latest : Z) : M cnsstate Z :=
    match ids with
    | [] => mret latest
    | i :: ids' =>
        t ← on_part i (on_ssd ssd_next_idle_time);
        parts ids' (Z.max latest t)
    end in
  latest ← parts (seqZ 0 (ns_nr_parts ns)) start;
  mret (Result NVME_SC_SUCCESS latest (ret_result ret)).

Definition conv_proc_nvme_io_cmd (c : ssd_config) (ns : nvmev_ns) (req : nvmev_request)
    (ret : nvmev_result) : M cnsstate (bool * nvmev_result) :=
  NVMEV_ASSERT (ns_csi ns =? 0) ;;
  let op := rw_opcode (req_cmd req) in
  if op =? nvme_cmd_write then conv_write c ns req ret
  else if op =? nvme_cmd_read then conv_read c ns req ret
  else if op =? nvme_cmd_flush then r ← conv_flush ns ret; mret (true, r)
  else mret (true, ret).
End operations.
