(* ===== verification/ConvSim.v ===== *)
(** * The conventional layer is the FDP layer with one handle

    src/fdp_ftl.c was derived from src/conv_ftl.c.  [forget] drops from a state of
    the FDP layer with a single handle what the conventional layer does not have: the
    handle of each line, the array around the write pointer, the FDP context.  Every
    operation of the conventional layer does on the remaining state what the operation
    of the FDP layer does, with the same results and the same faults, as long as no
    event is enabled (an event would read the clock).  In this file the names of the
    FDP layer are qualified. *)

From Stdlib Require Import ZArith Lia Btauto.
From stdpp Require Import base numbers list gmap.
From S2P Require Import Prelude Config Pqueue ChannelModel Ssd Nvme FdpLog FdpFtl Sim ConvFtl.

#[local] Open Scope Z_scope.

(** ** The map of states *)

Definition one_handle : Handles.
Proof. by refine {| NR_RUH := 1 |}. Defined.
#[export] Existing Instance one_handle | 200.

Definition forget_line (x : fdp_line) : line := Line (ln_id x) (ln_ipc x) (ln_vpc x) (ln_pos x).
Definition forget_wp (w : fdp_write_pointer) : write_pointer :=
  WPtr (wp_curline w) (wp_ch w) (wp_lun w) (wp_pg w) (wp_blk w) (wp_pl w).
Definition forget_cp (p : fdpparams) : convparams :=
  ConvParams (cp_gc_thres_lines p) (cp_gc_thres_lines_high p) (cp_enable_gc_delay p)
    (cp_op_area_pcent p) (cp_pba_pcent p).
Definition forget_lm (m : fdp_line_mgmt) : line_mgmt :=
  LMgmt (amap forget_line (lm_lines m)) (lm_free_line_list m) (lm_victim_line_pq m)
    (lm_full_line_list m) (lm_tt_lines m) (lm_free_line_cnt m) (lm_victim_line_cnt m)
    (lm_full_line_cnt m).
Definition forget_wfc (w : fdp_write_flow_control) : write_flow_control :=
  WFlow (wfc_write_credits w) (wfc_credits_to_refill w).
Definition host_wp (f : fdp_ftl) : fdp_write_pointer := default FdpFtl.unset_wp (aget (ftl_wp_ruh f) 0).
Definition forget_ftl (f : fdp_ftl) : conv_ftl :=
  ConvFtl (ftl_ssd f) (forget_cp (ftl_cp f)) (ftl_maptbl f) (ftl_rmap f) (forget_wp (host_wp f))
    (forget_wp (ftl_gc_wp f)) (forget_lm (ftl_lm f)) (forget_wfc (ftl_wfc f)).
Definition forget_shared (sh : shared) : cshared := CShared (sh_env sh) (sh_ctx sh).2 (sh_ops sh).
Definition forget (s : fstate) : cstate := (forget_ftl s.1, forget_shared s.2).

(** No event is enabled, and the context has room for the attributes. *)
Definition quiet (c : fdp_ctx) : Prop :=
  (∀ t, event_enabled (fx_events c) t = false) ∧ 0 < alen (fx_ruh_attr c).
Definition one_ftl (f : fdp_ftl) : Prop := alen (ftl_wp_ruh f) = 1 ∧ dense (lm_lines (ftl_lm f)).
Definition one (s : fstate) : Prop := one_ftl s.1 ∧ quiet (sh_ctx s.2).1.

#[local] Abbreviation csim := (sim forget one).

(** ** Access *)

Lemma sim_get_ftl : csim forget_ftl get_ftl FdpFtl.get_ftl.
Proof. by apply sim_gets. Qed.
Lemma sim_spp : csim (λ x, x) spp FdpFtl.spp.
Proof. by apply sim_gets. Qed.
Lemma sim_mod_ftl g g' :
  (∀ f, one_ftl f → one_ftl (g' f) ∧ g (forget_ftl f) = forget_ftl (g' f)) →
  csim (λ x, x) (mod_ftl g) (FdpFtl.mod_ftl g').
Proof.
  intros H. apply sim_modify. intros [f sh] [H1 H2]. destruct (H f H1) as [H3 H4]. unfold forget, one.
  simpl in *. by rewrite H4.
Qed.
Lemma sim_mod_lm g g' :
  (∀ m, dense (lm_lines m) → dense (lm_lines (g' m)) ∧ g (forget_lm m) = forget_lm (g' m)) →
  csim (λ x, x) (mod_lm g) (FdpFtl.mod_lm g').
Proof.
  intros H. apply sim_mod_ftl. intros f [H1 H2]. destruct (H _ H2) as [H3 H4]. split; [done|].
  unfold set_cf_lm, forget_ftl. simpl. by rewrite H4.
Qed.
Lemma sim_mod_ssd g : csim (λ x, x) (mod_ssd g) (FdpFtl.mod_ssd g).
Proof. by apply sim_mod_ftl. Qed.
Lemma sim_on_ssd {A} (m : M sst A) : csim (λ x, x) (on_ssd m) (FdpFtl.on_ssd m).
Proof. by apply sim_zoom. Qed.

Lemma sim_on_pq {A} (m : M (pqst (arr line) Z) A) (n : M (pqst (arr fdp_line) Z) A) :
  sim (heap_map (amap forget_line)) (heap_ok dense) (λ x, x) m n →
  csim (λ x, x) (on_pq m) (FdpFtl.on_pq n).
Proof. intros H. eapply sim_zoom_sim; [exact H| |].
  - by intros [f sh] [[H1 H2] H3].
  - intros [q ls] [f sh] [[H1 H2] H3] H4. by split. Qed.

Lemma sim_line_get l : csim forget_line (line_get l) (FdpFtl.line_get l).
Proof. eapply sim_bind; [apply sim_get_ftl|]. intros f. apply sim_aread. Qed.
Lemma sim_line_upd l g g' :
  (∀ x, g (forget_line x) = forget_line (g' x)) → csim (λ x, x) (line_upd l g) (FdpFtl.line_upd l g').
Proof.
  intros H. eapply sim_bind; [apply sim_line_get|]. intros x. apply sim_mod_lm. intros m D.
  split; [by apply dense_aset|]. unfold set_lines, forget_lm. simpl. by rewrite H, aset_amap.
Qed.

(** The FDP layer stamps a line with its handle before it looks at it. *)
Lemma sim_stamp l r {A B} (h : B → A) k k' :
  (∀ x, csim h (k (forget_line x)) (k' x)) →
  csim h (line_get l ≫= k) (FdpFtl.line_upd l (set_ln_ruh r) ;; x ← FdpFtl.line_get l; k' x).
Proof.
  intros K [f sh] [[Ho D] Hq]. unfold FdpFtl.line_upd, FdpFtl.line_get, line_get, aread.
  unfold mbind, M_bind, FdpFtl.get_ftl, get_ftl, gets. simpl. rewrite aget_amap.
  destruct (aget (lm_lines (ftl_lm f)) l) as [x|] eqn:Hx; [|done]. simpl.
  set (f' := FdpFtl.set_lm _ f).
  assert (aget (lm_lines (ftl_lm f')) l = Some (set_ln_ruh r x)) as Hx'.
  { simpl. apply aget_aset_eq. by eapply aget_inv. }
  simpl in Hx'. rewrite Hx'. simpl. assert (forget (f', sh) = forget (f, sh)) as Ef.
  { unfold forget. simpl. f_equal. unfold forget_ftl. simpl. f_equal.
    unfold forget_lm. simpl. f_equal. rewrite <- aset_amap.
    change (forget_line (set_ln_ruh r x)) with (forget_line x).
    apply aset_same; [by apply dense_amap|]. by rewrite aget_amap, Hx. }
  change (forget_ftl f, forget_shared sh) with (forget (f, sh)). rewrite <- Ef.
  apply (K (set_ln_ruh r x) (f', sh)). split; [|done]. split; [done|]. by apply dense_aset.
Qed.

(** The context changes alone. *)
Lemma sim_mod_ctx {A B} (h : B → A) m g k :
  (∀ c, quiet c → quiet (g c)) → csim h m k → csim h m (FdpFtl.mod_ctx g ;; k).
Proof.
  intros Hg K. apply sim_after; [|by intros _]. intros [f sh] [H1 H2]. eexists _, _. split; [done|].
  by split; [split; [done|by apply Hg]|].
Qed.
Lemma sim_when_emit `{!LocalClock} {A B} (h : B → A) m b t fl pid nsid k :
  csim h m k → csim h m (when b (FdpFtl.on_ctx (fdp_emit_event t fl pid nsid)) ;; k).
Proof.
  intros K. apply sim_after; [|by intros _]. intros [f [e [c n] o]] [H1 [H2 H3]].
  exists tt, (f, Shared e (c, n) o). split; [|done]. destruct b; [|done]. simpl.
  unfold on_ctx, zoom, fdp_emit_event, mbind, M_bind, get. simpl in *. by rewrite H2.
Qed.

Lemma sim_then_ctx m n g :
  (∀ c, quiet c → quiet (g c)) → csim (λ x, x) m n → csim (λ x, x) m (n ;; FdpFtl.mod_ctx g).
Proof.
  intros Hg H [f sh] Ho. specialize (H _ Ho). unfold mbind, M_bind. destruct (n (f, sh)) as [[[] [f' sh']]|e]; [|done].
  destruct H as [[H1 H2] ->]. by split; [split; [done|by apply Hg]|].
Qed.

(** The FDP layer's own statements are passed over. *)
Ltac conv_step :=
  lazymatch goal with
  | |- sim _ _ _ _ (FdpFtl.mod_ctx _ ≫= _) => apply sim_mod_ctx; [done|]
  | |- sim _ _ _ _ (_ ≫= λ _, FdpFtl.mod_ctx _) => apply sim_then_ctx; [done|]
  | |- sim _ _ _ _ (when _ (FdpFtl.on_ctx (fdp_emit_event _ _ _ _)) ≫= _) => apply sim_when_emit
  | |- _ => sim_step
  end.

#[export] Hint Resolve sim_get_ftl sim_spp sim_mod_ssd sim_on_ssd sim_line_get : sim.
#[export] Hint Extern 2 (sim _ _ _ (mod_lm _) _) => by apply sim_mod_lm : sim.
#[export] Hint Extern 2 (sim _ _ _ (line_upd _ _) _) => by apply sim_line_upd : sim.
#[export] Hint Extern 2 (sim _ _ _ (mod_ftl _) _) => by apply sim_mod_ftl : sim.

(** ** The victim queue *)

Lemma line_cell_map s l : line_cell (amap forget_line s) l = forget_line (FdpFtl.line_cell s l).
Proof. unfold line_cell, FdpFtl.line_cell. simpl. rewrite lookup_fmap. by destruct (acells s !! l). Qed.
Lemma line_poke_map s l g g' :
  (∀ x, g (forget_line x) = forget_line (g' x)) →
  line_poke (amap forget_line s) l g = amap forget_line (FdpFtl.line_poke s l g').
Proof.
  intros H. unfold line_poke, FdpFtl.line_poke, amap. simpl. f_equal. rewrite fmap_insert. f_equal.
  rewrite <- H. f_equal. apply line_cell_map.
Qed.
Lemma dense_poke s l g : dense s → dense (FdpFtl.line_poke s l g).
Proof. intros D i Hi. simpl in *. apply lookup_insert_is_Some'. right. by apply D. Qed.

Lemma pri_map s e : pq_getpri (amap forget_line s) e = pq_getpri s e.
Proof. simpl. unfold victim_line_get_pri. by rewrite line_cell_map. Qed.
Lemma pos_map s e : pq_getpos (amap forget_line s) e = pq_getpos s e.
Proof. simpl. unfold victim_line_get_pos. by rewrite line_cell_map. Qed.
Lemma set_pri_map s e p : pq_setpri (amap forget_line s) e p = amap forget_line (pq_setpri s e p).
Proof. by apply line_poke_map. Qed.
Lemma set_pos_map s e p : pq_setpos (amap forget_line s) e p = amap forget_line (pq_setpos s e p).
Proof. by apply line_poke_map. Qed.
Lemma dense_setpri (s : arr fdp_line) (e : Z) p : dense s → dense (pq_setpri s e p).
Proof. apply dense_poke. Qed.
Lemma dense_setpos (s : arr fdp_line) (e : Z) p : dense s → dense (pq_setpos s e p).
Proof. apply dense_poke. Qed.

Lemma sim_on_insert l : csim (λ x, x) (on_pq (pqueue_insert l)) (FdpFtl.on_pq (pqueue_insert l)).
Proof. apply sim_on_pq, sim_pqueue_insert; auto using pri_map, set_pos_map, dense_setpos. Qed.
Lemma sim_on_change p l :
  csim (λ x, x) (on_pq (pqueue_change_priority p l)) (FdpFtl.on_pq (pqueue_change_priority p l)).
Proof.
  apply sim_on_pq, sim_pqueue_change_priority;
    auto using pri_map, pos_map, set_pri_map, set_pos_map, dense_setpri, dense_setpos.
Qed.
Lemma sim_on_pop : csim (λ x, x) (on_pq pqueue_pop) (FdpFtl.on_pq pqueue_pop).
Proof. apply sim_on_pq, sim_pqueue_pop; auto using pri_map, set_pos_map, dense_setpos. Qed.
Lemma sim_on_peek : csim (λ x, x) (on_pq pqueue_peek) (FdpFtl.on_pq pqueue_peek).
Proof. apply sim_on_pq, sim_pqueue_peek. Qed.
#[export] Hint Resolve sim_on_insert sim_on_change sim_on_pop sim_on_peek : sim.

Section operations.
Context `{CK : !Clock} `{LC : !LocalClock}.

(** ** Mapping tables *)

Lemma sim_get_maptbl_ent l : csim (λ x, x) (get_maptbl_ent l) (FdpFtl.get_maptbl_ent l).
Proof. unfold get_maptbl_ent, FdpFtl.get_maptbl_ent. by repeat sim_step. Qed.
Lemma sim_set_maptbl_ent l p : csim (λ x, x) (set_maptbl_ent l p) (FdpFtl.set_maptbl_ent l p).
Proof. unfold set_maptbl_ent, FdpFtl.set_maptbl_ent. by repeat sim_step. Qed.
Lemma sim_ppa2pgidx p : csim (λ x, x) (ppa2pgidx p) (FdpFtl.ppa2pgidx p).
Proof. unfold ppa2pgidx, FdpFtl.ppa2pgidx. by repeat sim_step. Qed.
#[local] Hint Resolve sim_get_maptbl_ent sim_set_maptbl_ent sim_ppa2pgidx : sim.
Lemma sim_get_rmap_ent p : csim (λ x, x) (get_rmap_ent p) (FdpFtl.get_rmap_ent p).
Proof. unfold get_rmap_ent, FdpFtl.get_rmap_ent. by repeat sim_step. Qed.
Lemma sim_set_rmap_ent l p : csim (λ x, x) (set_rmap_ent l p) (FdpFtl.set_rmap_ent l p).
Proof. unfold set_rmap_ent, FdpFtl.set_rmap_ent. by repeat sim_step. Qed.
Lemma sim_consume : csim (λ x, x) consume_write_credit FdpFtl.consume_write_credit.
Proof. by apply sim_mod_ftl. Qed.
#[local] Hint Resolve sim_get_rmap_ent sim_set_rmap_ent sim_consume : sim.

(** ** Write pointers *)

Lemma sim_check_addr a n : csim (λ x, x) (check_addr a n) (FdpFtl.check_addr a n).
Proof. apply sim_assert. Qed.
Lemma sim_get_next_free_line : csim (λ x, x) get_next_free_line FdpFtl.get_next_free_line.
Proof.
  unfold get_next_free_line, FdpFtl.get_next_free_line. sim_step. simpl.
  destruct (lm_free_line_list (ftl_lm b)) as [|l ls]; [by sim_step|].
  eapply sim_bind; [by apply sim_mod_lm|]. by repeat sim_step.
Qed.

Lemma sim_get_wp io : csim forget_wp (get_wp io) (FdpFtl.get_wp io 0).
Proof.
  unfold get_wp, FdpFtl.get_wp. intros [f sh] [[Hl D] Hq]. unfold mbind, M_bind, get_ftl, FdpFtl.get_ftl, gets. simpl.
  destruct io; simpl; [|done]. unfold mbind, aread. simpl.
  destruct (aget_some (ftl_wp_ruh f) 0) as [w Hw]; [simpl in Hl; lia|].
  rewrite Hw. simpl. split; [done|]. unfold forget. simpl. unfold host_wp. by rewrite Hw.
Qed.
Lemma sim_set_wp io w : csim (λ x, x) (set_wp io (forget_wp w)) (FdpFtl.set_wp io 0 w).
Proof.
  destruct io; simpl; apply sim_mod_ftl; [|done]. intros f [Hl D]. split.
  - split; [|done]. simpl. by rewrite alen_aset.
  - unfold set_cf_wp, forget_ftl, host_wp. simpl. by rewrite aget_aset_eq by lia.
Qed.
#[local] Hint Resolve sim_check_addr sim_get_next_free_line sim_get_wp sim_set_wp : sim.

Lemma sim_prepare io : csim (λ x, x) (prepare_write_pointer io) (FdpFtl.prepare_write_pointer io 0).
Proof.
  unfold prepare_write_pointer, FdpFtl.prepare_write_pointer. do 2 sim_step. destruct b0; [|by sim_step].
  apply sim_stamp. intros x. apply (sim_set_wp io (WritePointer _ _ _ _ _ _)).
Qed.

Lemma sim_next_line io w : csim (λ x, x) (next_line io (forget_wp w)) (FdpFtl.next_line io 0 w).
Proof.
  unfold next_line, FdpFtl.next_line. do 3 sim_step. simpl. eapply sim_bind.
  { repeat sim_step. }
  intros _. do 2 sim_step.
  eapply sim_bind; [apply (sim_set_wp io (WritePointer _ _ _ _ _ _))|]. intros _. sim_step.
  apply sim_stamp. intros x.
  eapply sim_bind; [apply (sim_set_wp io (WritePointer _ _ _ _ _ _))|]. intros _. by repeat sim_step.
Qed.

Lemma sim_advance io : csim (λ x, x) (advance_write_pointer io) (FdpFtl.advance_write_pointer io 0).
Proof.
  unfold advance_write_pointer, FdpFtl.advance_write_pointer. do 2 sim_step. simpl.
  repeat sim_step; try apply (sim_set_wp io (WritePointer _ _ _ _ _ _)).
  apply (sim_next_line io (WritePointer _ _ _ _ _ _)).
Qed.
Lemma sim_get_new_page io : csim (λ x, x) (get_new_page io) (FdpFtl.get_new_page io 0).
Proof. unfold get_new_page, FdpFtl.get_new_page. by repeat sim_step. Qed.
#[local] Hint Resolve sim_prepare sim_advance sim_get_new_page : sim.

(** ** Page status *)

Lemma sim_mark_page_invalid p : csim (λ x, x) (mark_page_invalid p) (FdpFtl.mark_page_invalid p).
Proof.
  unfold mark_page_invalid, FdpFtl.mark_page_invalid. simpl. repeat sim_step.
Qed.
Lemma sim_mark_page_valid p : csim (λ x, x) (mark_page_valid p) (FdpFtl.mark_page_valid p).
Proof. unfold mark_page_valid, FdpFtl.mark_page_valid. simpl. repeat sim_step. Qed.
Lemma sim_mark_block_free p : csim (λ x, x) (mark_block_free p) (FdpFtl.mark_block_free p).
Proof. unfold mark_block_free, FdpFtl.mark_block_free. simpl. repeat conv_step. Qed.
#[local] Hint Resolve sim_mark_page_invalid sim_mark_page_valid sim_mark_block_free : sim.

(** ** Collection *)

Lemma sim_gc_read_page p : csim (λ x, x) (gc_read_page p) (FdpFtl.gc_read_page p).
Proof. unfold gc_read_page, FdpFtl.gc_read_page. simpl. repeat conv_step. Qed.
Lemma sim_gc_write_page p : csim (λ x, x) (gc_write_page p) (FdpFtl.gc_write_page p).
Proof. unfold gc_write_page, FdpFtl.gc_write_page. simpl. repeat conv_step. Qed.
Lemma sim_select_victim_line b : csim (λ x, x) (select_victim_line b) (FdpFtl.select_victim_line b).
Proof. unfold select_victim_line, FdpFtl.select_victim_line. simpl. repeat conv_step. Qed.
#[local] Hint Resolve sim_gc_read_page sim_gc_write_page sim_select_victim_line : sim.

Lemma sim_count_valid n p k : csim (λ x, x) (count_valid_pages n p k) (FdpFtl.count_valid_pages n p k).
Proof.
  revert p k. induction n as [|n IH]; intros p k; simpl; [by conv_step|]. do 3 conv_step. apply IH.
Qed.
Lemma sim_move_valid n p : csim (λ x, x) (move_valid_pages n p) (FdpFtl.move_valid_pages n p).
Proof.
  revert p. induction n as [|n IH]; intros p; simpl; [by conv_step|]. do 2 conv_step.
  eapply sim_bind; [repeat conv_step|]. intros _. apply IH.
Qed.
#[local] Hint Resolve sim_count_valid sim_move_valid : sim.
Lemma sim_clean_one_flashpg p : csim (λ x, x) (clean_one_flashpg p) (FdpFtl.clean_one_flashpg p).
Proof. unfold clean_one_flashpg, FdpFtl.clean_one_flashpg. simpl. repeat conv_step. Qed.
Lemma sim_mark_line_free p : csim (λ x, x) (mark_line_free p) (FdpFtl.mark_line_free p).
Proof. unfold mark_line_free, FdpFtl.mark_line_free. simpl. repeat conv_step. Qed.
#[local] Hint Resolve sim_clean_one_flashpg sim_mark_line_free : sim.
Lemma sim_gc_flashpg p a b k : csim (λ x, x) (gc_flashpg p a b k) (FdpFtl.gc_flashpg p a b k).
Proof. unfold gc_flashpg, FdpFtl.gc_flashpg. simpl. repeat conv_step. Qed.
#[local] Hint Resolve sim_gc_flashpg : sim.
Lemma sim_do_gc b : csim (λ x, x) (do_gc b) (FdpFtl.do_gc b).
Proof. unfold do_gc, FdpFtl.do_gc. simpl. repeat conv_step. Qed.
#[local] Hint Resolve sim_do_gc : sim.
Lemma sim_foreground_gc : csim (λ x, x) foreground_gc FdpFtl.foreground_gc.
Proof. unfold foreground_gc, FdpFtl.foreground_gc. simpl. repeat conv_step. Qed.
#[local] Hint Resolve sim_foreground_gc : sim.
Lemma sim_check_and_refill :
  csim (λ x, x) check_and_refill_write_credit FdpFtl.check_and_refill_write_credit.
Proof. unfold check_and_refill_write_credit, FdpFtl.check_and_refill_write_credit. simpl. repeat conv_step. Qed.
#[local] Hint Resolve sim_check_and_refill : sim.

(** ** Pages of a command *)

Lemma sim_read_part n t a b k : csim (λ x, x) (read_part n t a b k) (FdpFtl.read_part n t a b k).
Proof. unfold read_part, FdpFtl.read_part. simpl. repeat conv_step. Qed.
Lemma sim_write_page q t l k : csim (λ x, x) (write_page q t l k) (FdpFtl.write_page 0 q t l k).
Proof. unfold write_page, FdpFtl.write_page. simpl. repeat conv_step. by apply sim_modify. Qed.
#[local] Hint Resolve sim_read_part sim_write_page : sim.

(** ** Namespaces *)

Definition forget_ns (s : nsstate) : cnsstate := (amap forget_ftl s.1, forget_shared s.2).
Definition one_ns (s : nsstate) : Prop :=
  (∀ i f, aget s.1 i = Some f → one_ftl f) ∧ quiet (sh_ctx s.2).1.
#[local] Abbreviation nsim := (sim forget_ns one_ns (λ x, x)).

Lemma sim_on_part {A} i (m : M cstate A) n :
  csim (λ x, x) m n → nsim (on_part i m) (FdpFtl.on_part i n).
Proof.
  intros H [fs sh] [H1 H2]. unfold on_part, FdpFtl.on_part, mbind, M_bind, get, aread. simpl. rewrite aget_amap.
  destruct (aget fs i) as [f|] eqn:Hf; [|done]. simpl. specialize (H (f, sh) (conj (H1 i f Hf) H2)).
  change (forget_ftl f, forget_shared sh) with (forget (f, sh)).
  destruct (n (f, sh)) as [[a [f' sh']]|e]; [|by rewrite H]. destruct H as [[H3 H4] ->]. simpl. split.
  - split; [|done]. intros j g. pose proof (aget_inv _ _ _ Hf). simpl. rewrite aget_aset by done.
    case_decide; [by intros [= <-]|apply H1].
  - unfold put, mret, M_ret, forget_ns. simpl. by rewrite <- aset_amap.
Qed.

Lemma sim_on_part_ssd {A} i (m : M sst A) : nsim (on_part i (on_ssd m)) (FdpFtl.on_part i (FdpFtl.on_ssd m)).
Proof. apply sim_on_part, sim_on_ssd. Qed.
Lemma sim_on_part_read i n t a b k : nsim (on_part i (read_part n t a b k)) (FdpFtl.on_part i (FdpFtl.read_part n t a b k)).
Proof. apply sim_on_part, sim_read_part. Qed.
Lemma sim_on_part_write i q t l k : nsim (on_part i (write_page q t l k)) (FdpFtl.on_part i (FdpFtl.write_page 0 q t l k)).
Proof. apply sim_on_part, sim_write_page. Qed.
Lemma sim_spp0 : nsim spp0 FdpFtl.spp0.
Proof.
  intros [fs sh] Ho. unfold spp0, FdpFtl.spp0, mbind, M_bind, get, aread. simpl. rewrite aget_amap.
  by destruct (aget fs 0).
Qed.
Lemma sim_on_wbuf {A} (m : M buffer A) : nsim (on_wbuf m) (FdpFtl.on_wbuf m).
Proof. by apply sim_zoom. Qed.
#[local] Hint Resolve sim_on_part_ssd sim_on_part_read sim_on_part_write sim_spp0 sim_on_wbuf : sim.

Lemma sim_mod_shared_ctx {A B} (h : B → A) m g k :
  (∀ c, quiet c → quiet (g c)) → sim forget_ns one_ns h m k →
  sim forget_ns one_ns h m (FdpFtl.mod_shared_ctx g ;; k).
Proof.
  intros Hg K. apply sim_after; [|by intros _]. intros [fs sh] [H1 H2]. eexists _, _. split; [done|].
  by split; [split; [done|by apply Hg]|].
Qed.

(** ** Commands without a placement directive *)

Definition plain_cmd (cmd : nvme_rw_command) : nvme_rw_command :=
  RwCmd (rw_opcode cmd) (rw_nsid cmd) (rw_slba cmd) (rw_length cmd)
    (Z.ldiff (rw_control cmd) (Z.shiftl NVME_RW_DTYPE_MASK NVME_RW_DTYPE_SHIFT)) (rw_dsmgmt cmd).
Definition plain (req : nvmev_request) : nvmev_request :=
  Request (plain_cmd (req_cmd req)) (req_sq_id req) (req_nsecs_start req).

Lemma plain_dtype cmd :
  Z.land (Z.shiftr (rw_control (plain_cmd cmd)) NVME_RW_DTYPE_SHIFT) NVME_RW_DTYPE_MASK = 0.
Proof.
  simpl. apply Z.bits_inj'. intros n Hn. unfold NVME_RW_DTYPE_SHIFT, NVME_RW_DTYPE_MASK.
  rewrite Z.land_spec, Z.shiftr_spec, Z.ldiff_spec, Z.shiftl_spec, Z.bits_0 by lia.
  replace (n + 4 - 4) with n by lia. destruct (Z.testbit 15 n); simpl; btauto.
Qed.
Lemma plain_fua cmd : Z.land (rw_control (plain_cmd cmd)) NVME_RW_FUA = Z.land (rw_control cmd) NVME_RW_FUA.
Proof.
  simpl. apply Z.bits_inj'. intros n Hn. rewrite !Z.land_spec, Z.ldiff_spec.
  destruct (Z.eq_dec n 14) as [->|Hne].
  - change (Z.testbit (Z.shiftl NVME_RW_DTYPE_MASK NVME_RW_DTYPE_SHIFT) 14) with false. simpl. btauto.
  - unfold NVME_RW_FUA. rewrite (Z.shiftl_spec 1 14 n) by done. assert (Z.testbit 1 (n - 14) = false) as ->; [|btauto].
    destruct (Z.ltb_spec (n - 14) 0); [by apply Z.testbit_neg_r|]. by apply Z.bits_above_log2; simpl; lia.
Qed.

Lemma sim_route {A B} (h : B → A) cmd m k :
  sim forget_ns one_ns h m (k (Some 0)) →
  sim forget_ns one_ns h m (FdpFtl.route_placement (plain_cmd cmd) ≫= k).
Proof.
  intros K [fs [e [c n] o]] [H1 [H2 H3]]. unfold route_placement. rewrite plain_dtype. simpl.
  unfold mbind at 1, M_bind at 1. unfold mbind, M_bind, get, aread. simpl in *.
  destruct (aget_some (fx_ruh_attr c) 0) as [x ->]; [lia|]. simpl.
  destruct (x =? NVME_FDP_RUHA_UNUSED); simpl.
  - unfold mbind, M_bind, awrite. rewrite (proj2 (in_range_true _ _)) by lia. simpl.
    apply (K (fs, Shared e (set_ruh_attr _ c, n) o)). split; [done|]. split; [done|]. simpl. by rewrite alen_aset.
  - by apply (K (fs, Shared e (c, n) o)).
Qed.

(** ** The handlers *)

Lemma sim_conv_read c ns req ret : nsim (conv_read c ns req ret) (fdp_read c ns (plain req) ret).
Proof. unfold conv_read, fdp_read. simpl. repeat sim_step. Qed.

Lemma sim_conv_write c ns req ret : nsim (conv_write c ns req ret) (fdp_write c ns (plain req) ret).
Proof.
  unfold conv_write, fdp_write. simpl. sim_step. sim_step; [sim_step|]. apply sim_route. sim_step.
  sim_step; [sim_step|]. do 2 (apply sim_mod_shared_ctx; [done|]).
  pose proof (plain_fua (req_cmd req)) as Hf. simpl in Hf. rewrite Hf. repeat sim_step.
Qed.

Lemma sim_conv_flush ns ret : nsim (conv_flush ns ret) (fdp_flush ns ret).
Proof.
  unfold conv_flush, fdp_flush. eapply (sim_bind (λ x, x)).
  { by intros [fs [e [x n] o]] Ho. }
  intros start. eapply (sim_bind (λ x, x)); [|intros t; by sim_step].
  revert start. induction (seqZ 0 (ns_nr_parts ns)) as [|i ids IH]; intros t; [by sim_step|].
  sim_step. apply IH.
Qed.
#[local] Hint Resolve sim_conv_read sim_conv_write sim_conv_flush : sim.

Lemma sim_conv_proc c ns req ret :
  nsim (conv_proc_nvme_io_cmd c ns req ret) (fdp_proc_nvme_io_cmd c ns (plain req) ret).
Proof. unfold conv_proc_nvme_io_cmd, fdp_proc_nvme_io_cmd. simpl. repeat sim_step. Qed.

(** ** Initialisation *)

Lemma sim_ret_unit {S T} (φ : T → S) ok m n :
  sim φ ok (λ x, x) m n → sim φ ok (λ x, x) m (n ;; mret tt).
Proof.
  intros H t Ht. specialize (H t Ht). unfold mbind, M_bind. by destruct (n t) as [[[] t']|e].
Qed.

Lemma init_lines_map sp :
  init_lines sp = match FdpFtl.init_lines sp with Ok m => Ok (forget_lm m) | Fault e => Fault e end.
Proof.
  unfold init_lines, FdpFtl.init_lines. destruct (negb _); [done|]. unfold forget_lm. simpl.
  by rewrite <- abuild_amap.
Qed.
Lemma init_lines_dense sp m : FdpFtl.init_lines sp = Ok m → dense (lm_lines m).
Proof. unfold FdpFtl.init_lines. destruct (negb _); [done|]. intros [= <-]. apply dense_abuild. Qed.

Lemma conv_init_ftl_map cpp s sh :
  quiet (sh_ctx sh).1 →
  match fdp_init_ftl cpp s sh with
  | Ok st => one st ∧ conv_init_ftl (forget_cp cpp) s (forget_shared sh) = Ok (forget st)
  | Fault e => conv_init_ftl (forget_cp cpp) s (forget_shared sh) = Fault e
  end.
Proof.
  intros Hq. unfold fdp_init_ftl, conv_init_ftl. rewrite init_lines_map.
  destruct (FdpFtl.init_lines (ssd_sp s)) as [m|] eqn:Hm; [|done].
  set (f0 := FdpFtl _ _ _ _ _ _ _ _).
  assert (csim (λ x, x) (prepare_write_pointer USER_IO ;; prepare_write_pointer GC_IO ;;
      mod_ftl (set_cf_wfc (init_write_flow_control (ssd_sp s))))
    (for_range 0 NR_RUH (λ ruh, FdpFtl.prepare_write_pointer USER_IO ruh) ;;
     FdpFtl.prepare_write_pointer GC_IO 0 ;;
     FdpFtl.mod_ftl (FdpFtl.set_wfc (FdpFtl.init_write_flow_control (ssd_sp s))))) as H.
  { eapply (sim_bind (λ x, x)); [apply sim_ret_unit, sim_prepare|]. intros _. repeat sim_step. }
  specialize (H (f0, sh)).
  assert (one (f0, sh)) as Ho by (split; [split; [done|by eapply init_lines_dense]|done]). specialize (H Ho).
  change (ConvFtl _ _ _ _ _ _ _ _, forget_shared sh) with (forget (f0, sh)).
  match type of H with match ?r with _ => _ end => destruct r as [[[] st]|e] end.
  - destruct H as [H1 H2]. split; [done|]. by rewrite H2.
  - by rewrite H.
Qed.

Lemma conv_init_parts_map cpp sp cpu ids fs sh :
  quiet (sh_ctx sh).1 → (∀ i, i ∈ ids → 0 ≤ i < alen fs) →
  (∀ i f, aget fs i = Some f → i ∉ ids → one_ftl f) →
  match FdpFtl.init_parts cpp sp cpu ids (fs, sh) with
  | Ok st => one_ns st ∧
      init_parts (forget_cp cpp) sp cpu ids (forget_ns (fs, sh)) = Ok (forget_ns st)
  | Fault e => init_parts (forget_cp cpp) sp cpu ids (forget_ns (fs, sh)) = Fault e
  end.
Proof.
  revert fs sh. induction ids as [|i ids IH]; intros fs sh Hq Hr Ho; cbn [FdpFtl.init_parts init_parts].
  { split; [|done]. split; [|done]. intros j f Hj. eapply Ho; [exact Hj|apply not_elem_of_nil]. }
  pose proof (conv_init_ftl_map cpp (ssd_init sp cpu).1.1 sh Hq) as H.
  destruct (ssd_init sp cpu) as [[s pcie] wbuf]. cbn [fst snd] in H |- *.
  change (forget_ns (fs, sh)).2 with (forget_shared sh). change (forget_ns (fs, sh)).1 with (amap forget_ftl fs).
  destruct (fdp_init_ftl cpp s sh) as [[f sh']|e]; [|by rewrite H]. destruct H as [[H1 H2] ->].
  simpl. rewrite aset_amap.
  apply (IH (aset fs i f) sh'); [done| |].
  - intros j Hj. rewrite alen_aset. apply Hr. set_solver.
  - intros j g. rewrite aget_aset by (apply Hr; set_solver). case_decide as Hij; [by intros [= <-]|].
    intros Hj Hn. apply (Ho j g Hj). set_solver.
Qed.

(** Any unset memory of the conventional layer is that of some FDP partition. *)
Definition lift_ftl (f : conv_ftl) : fdp_ftl :=
  let p := cf_cp f in let w := cf_wp f in let g := cf_gc_wp f in let m := cf_lm f in
  FdpFtl (cf_ssd f)
    (FdpParams (cv_gc_thres_lines p) (cv_gc_thres_lines_high p) (cv_enable_gc_delay p)
       (cv_op_area_pcent p) (cv_pba_pcent p))
    (cf_maptbl f) (cf_rmap f)
    (anew 1 (WritePointer (p_curline w) (p_ch w) (p_lun w) (p_pg w) (p_blk w) (p_pl w)))
    (WritePointer (p_curline g) (p_ch g) (p_lun g) (p_pg g) (p_blk g) (p_pl g))
    (LineMgmt (amap (λ x, FdpLine (li_id x) (li_ipc x) (li_vpc x) (-1) (li_pos x)) (m_lines m))
       (m_free_line_list m) (m_victim_line_pq m) (m_full_line_list m) (m_tt_lines m)
       (m_free_line_cnt m) (m_victim_line_cnt m) (m_full_line_cnt m))
    (WriteFlowControl (fc_write_credits (cf_wfc f)) (fc_credits_to_refill (cf_wfc f))).

Lemma forget_lift f : forget_ftl (lift_ftl f) = f.
Proof.
  destruct f as [s [p1 p2 p3 p4 p5] mt rm [w1 w2 w3 w4 w5 w6] [g1 g2 g3 g4 g5 g6] [[n d ls] l1 q l2 c1 c2 c3 c4] [x y]].
  unfold forget_ftl, lift_ftl, forget_lm, amap. simpl. f_equal. f_equal. f_equal.
  - by destruct d.
  - rewrite <- map_fmap_compose. rewrite <- (map_fmap_id ls) at 2. apply map_fmap_ext. by intros i [] _.
Qed.

Lemma conv_init_namespace_map c events f0 id size cpu ticks lticks :
  (∀ t, event_enabled events t = false) →
  match fdp_init_namespace c events (lift_ftl f0) id size cpu ticks lticks with
  | Ok (st, ns) => one_ns st ∧ conv_init_namespace c f0 id size cpu ticks lticks = Ok (forget_ns st, ns)
  | Fault e => conv_init_namespace c f0 id size cpu ticks lticks = Fault e
  end.
Proof.
  intros He. unfold fdp_init_namespace, conv_init_namespace.
  destruct (ssd_init_params c size (SSD_PARTITIONS c)) as [sp|]; [|done].
  destruct (ssd_init sp cpu) as [[s pcie] wbuf].
  set (sh := Shared _ _ _). set (fs := anew (SSD_PARTITIONS c) (lift_ftl f0)).
  pose proof (conv_init_parts_map (fdp_init_params c) sp cpu (seqZ 0 (SSD_PARTITIONS c)) fs sh) as H.
  assert (forget_ns (fs, sh) = (anew (SSD_PARTITIONS c) f0, CShared (Env pcie wbuf ticks) lticks [])) as E.
  { unfold forget_ns, fs. simpl. by rewrite <- anew_amap, forget_lift. }
  rewrite E in H. change (conv_init_params c) with (forget_cp (fdp_init_params c)).
  assert (∀ i f, aget fs i = Some f → i ∉ seqZ 0 (SSD_PARTITIONS c) → one_ftl f) as Hn.
  { intros i f Hi%aget_inv Hn. destruct Hn. apply elem_of_seqZ. simpl in Hi. lia. }
  specialize (H (conj He eq_refl)). ospecialize (H _ Hn); [by intros i Hi%elem_of_seqZ|].
  destruct (FdpFtl.init_parts _ _ _ _ (fs, sh)) as [st|e].
  - destruct H as [H1 ->]. by split.
  - by rewrite H.
Qed.
End operations.
