(* ===== verification/ConvProps.v ===== *)
(** * What the conventional namespace promises

    The states of a conventional device are those of an FDP device with one handle,
    seen through [forget_ns]; so the invariant of the FDP layer holds in them.  The
    theorems are stated on the conventional state alone. *)

From Stdlib Require Import ZArith Lia.
From stdpp Require Import base numbers list gmap.
From S2P Require Import Prelude Config Pqueue ChannelModel Ssd Nvme FdpLog FdpFtl FdpGeom FdpInv FdpOps FdpAdvance FdpGc FdpWrite FdpInit FdpIo CoreSpec FdpSpec FdpRefine Sim ConvFtl ConvSim.

#[local] Open Scope Z_scope.
#[local] Existing Instance one_handle | 0.

(** ** The host's view: which pages were written, and the free buffer space *)

Record conv_spec : Type := ConvSpec {
  cx_written : Z → bool;
  cx_buffer : Z;
}.

Definition conv_spec_cmd (sp : ssdparams) (n : Z) (c : ssd_config) (req : nvmev_request) (x : conv_spec)
    : answer * conv_spec :=
  let cmd := req_cmd req in
  let beyond := tt_pgs sp <=? last_lpn sp cmd / n in
  if rw_opcode cmd =? nvme_cmd_write then
    if beyond || (cx_buffer x <? xfer_bytes c cmd) then ((false, NVME_SC_SUCCESS), x)
    else ((true, NVME_SC_SUCCESS),
          ConvSpec (λ k, (first_lpn sp cmd <=? k) && (k <? last_lpn sp cmd + 1) || cx_written x k)
            (cx_buffer x - xfer_bytes c cmd))
  else if rw_opcode cmd =? nvme_cmd_read then ((negb beyond, NVME_SC_SUCCESS), x)
  else ((true, NVME_SC_SUCCESS), x).

Fixpoint conv_spec_session (sp : ssdparams) (n : Z) (c : ssd_config) (reqs : list nvmev_request)
    (x : conv_spec) : list answer * conv_spec :=
  match reqs with
  | [] => ([], x)
  | req :: reqs' =>
      let '(a, x1) := conv_spec_cmd sp n c req x in
      let '(as', x2) := conv_spec_session sp n c reqs' x1 in
      (a :: as', x2)
  end.

Definition conv_mapped (n : Z) (st : cnsstate) (lpn : Z) : bool :=
  match aget (fst st) (lpn mod n) with
  | Some f => match aget (cf_maptbl f) (lpn / n) with Some p => mapped_ppa p | None => false end
  | None => false
  end.

(** A state shows the host [x]. *)
Definition conv_shows (n : Z) (st : cnsstate) (x : conv_spec) : Prop :=
  (∀ k, 0 ≤ k → cx_written x k = conv_mapped n st k) ∧
  cx_buffer x = buf_remaining (env_wbuf (cs_env (snd st))).

Definition conv_set_wbuf (b : buffer) (sh : cshared) : cshared :=
  CShared (Env (env_pcie (cs_env sh)) b (env_ticks (cs_env sh))) (cs_lticks sh) (cs_ops sh).

Section device.
Context `{CK : !Clock} `{LC : !LocalClock}.
Context (c : ssd_config) (size : Z) (sp : ssdparams) (L : Z).

Fixpoint conv_session (ns : nvmev_ns) (reqs : list nvmev_request) : M cnsstate (list (bool * nvmev_result)) :=
  match reqs with
  | [] => mret []
  | req :: reqs' =>
      r ← conv_proc_nvme_io_cmd c ns req (Result 0 0 0);
      rs ← conv_session ns reqs';
      mret (r :: rs)
  end.

(** The states of a namespace [ns] of a new device of [size] bytes whose host keeps
    to the first [L] logical pages of every partition. *)
Inductive conv_reachable (ns : nvmev_ns) : cnsstate → Prop :=
| conv_reach_init f0 id cpu ticks lticks st :
    conv_init_namespace c f0 id size cpu ticks lticks = Ok (st, ns) → conv_reachable ns st
| conv_reach_cmd st req ret r st' :
    conv_reachable ns st → cmd_ok L sp c ns (env_wbuf (cs_env (snd st))) req →
    conv_proc_nvme_io_cmd c ns req ret st = Ok (r, st') → conv_reachable ns st'
| conv_reach_release fs sh bytes b :
    conv_reachable ns (fs, sh) → 0 ≤ bytes →
    buf_remaining (env_wbuf (cs_env sh)) + bytes ≤ buf_size (env_wbuf (cs_env sh)) →
    buffer_release bytes (env_wbuf (cs_env sh)) = Ok (true, b) →
    conv_reachable ns (fs, conv_set_wbuf b sh).

Hypothesis clock_range : ∀ n, 0 ≤ cpu_clock n.
Hypothesis layout : conv_layout c.
Hypothesis partitions : SSD_PARTITIONS c = 4.
Hypothesis buffer_range : 0 ≤ GLOBAL_WB_SIZE c < 2 ^ 32.
Hypothesis size_range : 4 ≤ size ≤ BLKS_PER_PLN c * 2 ^ 31.
Hypothesis params : ssd_init_params c size 4 = Ok sp.
Hypothesis limit : 0 ≤ L < (tt_lines sp - 4) * pgs_per_line sp.

(** ** The invariant, through the FDP layer *)

Definition conv_inv (ns : nvmev_ns) (st : cnsstate) : Prop :=
  ns_nr_parts ns = 4 ∧ ns_csi ns = 0 ∧
  ∃ s gtag, st = forget_ns s ∧ one_ns s ∧ ns_inv L sp 4 gtag s.

Lemma plain_ok ns wbuf req : cmd_ok L sp c ns wbuf req → cmd_ok L sp c ns wbuf (plain req).
Proof using.
  intros [H1 H2]. split; [done|]. simpl. destruct (_ =? _); destruct H2; by split.
Qed.

Lemma conv_proc_inv ns st req ret :
  conv_inv ns st → cmd_ok L sp c ns (env_wbuf (cs_env (snd st))) req →
  wp (conv_proc_nvme_io_cmd c ns req ret) st (λ _ st', conv_inv ns st').
Proof using clock_range.
  intros (Hn & Hc & s & gtag & -> & Ho & Hi) Hok. apply plain_ok in Hok. rewrite <- Hn in Hi.
  pose proof (sim_conv_proc c ns req ret s Ho) as Hs.
  pose proof (wp_proc_cmd clock_range L sp c ns gtag (plain req) ret s Hi Hok) as Hw.
  apply wp_Ok in Hw as (r & s' & E & Hi' & _). rewrite E in Hs. destruct Hs as [Ho' Es].
  unfold wp. rewrite Es. split; [done|]. split; [done|]. rewrite Hn in Hi'. by eexists s', _.
Qed.

Lemma conv_reachable_inv ns st : conv_reachable ns st → conv_inv ns st.
Proof using clock_range layout partitions buffer_range size_range params limit.
  induction 1 as [f0 id cpu ticks lticks st Hinit|st req ret r st' _ IH Hok Hrun|fs sh bytes b _ IH Hb Hsz Hrel].
  - pose proof (conv_init_namespace_map c events_initial f0 id size cpu ticks lticks) as Hm.
    destruct (fdp_init_namespace_ok c events_initial (lift_ftl f0) id size cpu ticks lticks L (λ _, 0))
      as (sp' & Hsp' & Hns); try done. assert (sp' = sp) as -> by congruence.
    destruct (Hns limit) as (s & ns' & Heq & Hinv & Hn & Hcsi & _). rewrite Heq in Hm.
    destruct Hm as [Ho E]; [by intros t; simpl; repeat case_match|]. rewrite E in Hinit.
    injection Hinit as <- <-. split; [done|]. split; [done|]. by exists s, (λ _, 0).
  - pose proof (conv_proc_inv ns st req ret IH Hok) as Hw. unfold wp in Hw. by rewrite Hrun in Hw.
  - destruct IH as (Hn & Hcsi & [gs [e x o]] & gtag & E & Ho & Hinv). injection E as -> ->.
    split; [done|]. split; [done|]. simpl in *. injection Hrel as <-.
    pose proof (ni_wbuf _ _ _ _ _ Hinv) as [Hr Hm]. simpl in Hr, Hm.
    eexists (gs, Shared (Env (env_pcie e) (Buffer _ _) (env_ticks e)) x o), gtag. split; [done|]. split; [done|].
    eapply ns_inv_shared; [exact Hinv|apply Hinv|apply Hinv|].
    unfold buffer_ok. simpl. rewrite u64_small by lia. split; lia.
Qed.

(** ** Commands against the specification *)

Lemma mapped_forget n s k : conv_mapped n (forget_ns s) k = ns_mapped n s k.
Proof using.
  unfold conv_mapped, ns_mapped. simpl. rewrite aget_amap. by destruct (aget s.1 (k mod n)) as [f|].
Qed.

(** The specification of the FDP layer with one handle, without the handles. *)
Lemma spec_plain n req (x : conv_spec) (y : ns_spec) :
  (∀ k, 0 ≤ k → cx_written x k = bool_decide (is_Some (sx_handle y k))) → cx_buffer x = sx_buffer y →
  let cx := conv_spec_cmd sp n c req x in
  let fx := spec_cmd sp n c (plain req) y in
  cx.1 = fx.1 ∧ (∀ k, 0 ≤ k → cx_written cx.2 k = bool_decide (is_Some (sx_handle fx.2 k))) ∧
  cx_buffer cx.2 = sx_buffer fx.2.
Proof using.
  intros Hw Hb. unfold conv_spec_cmd, spec_cmd. cbv zeta. cbn [plain req_cmd]. rewrite Hb.
  change (rw_opcode (plain_cmd (req_cmd req))) with (rw_opcode (req_cmd req)).
  destruct (rw_opcode (req_cmd req) =? nvme_cmd_write); [|by destruct (_ =? nvme_cmd_read)].
  unfold spec_write, placement, has_directive. rewrite plain_dtype. cbv iota.
  change (last_lpn sp (plain_cmd (req_cmd req))) with (last_lpn sp (req_cmd req)).
  change (first_lpn sp (plain_cmd (req_cmd req))) with (first_lpn sp (req_cmd req)).
  change (xfer_bytes c (plain_cmd (req_cmd req))) with (xfer_bytes c (req_cmd req)).
  destruct (tt_pgs sp <=? _); [done|]. simpl. destruct (sx_buffer y <? _); [done|]. simpl.
  split_and!; [done| |done]. intros k Hk. rewrite Hw by done. unfold spec_written.
  by destruct ((_ <=? k) && _).
Qed.

Lemma conv_cmd_shows ns st req x :
  conv_inv ns st → cmd_ok L sp c ns (env_wbuf (cs_env (snd st))) req → conv_shows 4 st x →
  wp (conv_proc_nvme_io_cmd c ns req (Result 0 0 0)) st (λ r st',
    buf_size (env_wbuf (cs_env (snd st'))) = buf_size (env_wbuf (cs_env (snd st))) ∧
    answer_of r = (conv_spec_cmd sp 4 c req x).1 ∧ conv_shows 4 st' (conv_spec_cmd sp 4 c req x).2).
Proof using clock_range.
  intros (Hn & Hc & s & gtag & -> & Ho & Hi) Hok [Hx Hb]. apply plain_ok in Hok. rewrite <- Hn in Hi, Hx |- *.
  pose proof (sim_conv_proc c ns req (Result 0 0 0) s Ho) as Hs.
  set (y := NsSpec (λ k, if ns_mapped (ns_nr_parts ns) s k then Some (gtag k) else None)
    (buf_remaining (env_wbuf (sh_env s.2))) (fx_hbmw (sh_ctx s.2).1)).
  assert (refines L sp (ns_nr_parts ns) s y) as Hr by (split; [by exists gtag|done|done]).
  pose proof (wp_and _ _ _ _ (cmd_refines L sp c ns clock_range (plain req) s y Hr Hok)
    (wp_proc_cmd clock_range L sp c ns gtag (plain req) (Result 0 0 0) s Hi Hok)) as Hw.
  apply wp_Ok in Hw as (r & s' & E & [[(gtag' & _ & Hh') Hb' _] Ha] & (_ & Hsz & _)).
  rewrite E in Hs. destruct Hs as [_ Es]. unfold wp. rewrite Es.
  destruct (spec_plain (ns_nr_parts ns) req x y) as (A1 & A2 & A3); [|done|].
  { intros k Hk. rewrite Hx, mapped_forget by done. simpl. by destruct (ns_mapped _ _ _). }
  split; [done|]. split; [by rewrite A1|]. split; [|by rewrite A3].
  intros k Hk. rewrite A2, mapped_forget, Hh' by done. by destruct (ns_mapped _ _ _).
Qed.

(** A session against the specification. *)
Lemma conv_session_shows ns st reqs x :
  conv_reachable ns st → Forall (cmd_ok L sp c ns (env_wbuf (cs_env (snd st)))) reqs → conv_shows 4 st x →
  ∃ rs st', conv_session ns reqs st = Ok (rs, st') ∧ conv_reachable ns st' ∧
    answer_of <$> rs = (conv_spec_session sp 4 c reqs x).1 ∧
    conv_shows 4 st' (conv_spec_session sp 4 c reqs x).2.
Proof using clock_range layout partitions buffer_range size_range params limit.
  revert st x. induction reqs as [|req reqs IH]; intros st x Hr Hok Hx; simpl.
  { by exists [], st. }
  apply Forall_cons in Hok as [Hreq Hok].
  pose proof (conv_cmd_shows ns st req x (conv_reachable_inv ns st Hr) Hreq Hx) as Hw.
  apply wp_Ok in Hw as (r & st1 & E1 & Hsz & Ha & Hx1). unfold mbind, M_bind. rewrite E1.
  destruct (conv_spec_cmd sp 4 c req x) as [a x1]. simpl in Ha, Hx1.
  destruct (IH st1 x1) as (rs & st2 & E2 & Hr2 & Has & Hx2); [by eapply conv_reach_cmd| |done|].
  { eapply Forall_impl; [exact Hok|]. intros q. by apply cmd_ok_buffer. }
  destruct (conv_spec_session sp 4 c reqs x1) as [as' x2]. simpl in *. exists (r :: rs), st2.
  rewrite E2. split_and!; [done|done| |done]. by rewrite <- Has, <- Ha.
Qed.

(** C10: The conventional device keeps what it promises to the host: from every
    reachable state every session of commands within the stated logical range returns,
    without a fault; each command is answered as the specification says (a write is
    refused beyond the device or when the buffer is full, everything else succeeds),
    and afterwards exactly the pages ever written are mapped and the free buffer space
    is what the accepted writes have left. *)
Theorem conv_session_refines ns st reqs x :
  conv_reachable ns st → Forall (cmd_ok L sp c ns (env_wbuf (cs_env (snd st)))) reqs → conv_shows 4 st x →
  ∃ rs st', conv_session ns reqs st = Ok (rs, st') ∧ conv_reachable ns st' ∧
    answer_of <$> rs = (conv_spec_session sp 4 c reqs x).1 ∧
    conv_shows 4 st' (conv_spec_session sp 4 c reqs x).2.
Proof using clock_range layout partitions buffer_range size_range params limit. apply conv_session_shows. Qed.

(** In every reachable state of the conventional device the forward map, the
    reverse map and the NAND agree: every mapped logical page of a partition is at a
    valid page that belongs to no other logical page and leads back to it, and every
    valid page is the current copy of a logical page.  Every line is in exactly one of
    the free list, the victim queue, the full list and the two open lines, and its
    counters are the numbers of its valid and invalid pages. *)
Theorem conv_mapping_bijective ns st i f :
  conv_reachable ns st → aget (fst st) i = Some f →
  let m := cf_lm f in
  let open l := Z.b2z (p_blk (cf_wp f) =? l) + Z.b2z (p_blk (cf_gc_wp f) =? l) in
  (∀ lpn p, aget (cf_maptbl f) lpn = Some p → mapped_ppa p = true →
     ppa_in sp p ∧ pstatus (cf_ssd f) p = Some PG_VALID ∧
     aget (cf_rmap f) (pgidx sp p) = Some lpn ∧
     ∀ lpn', aget (cf_maptbl f) lpn' = Some p → lpn' = lpn) ∧
  (∀ p, ppa_in sp p → pstatus (cf_ssd f) p = Some PG_VALID →
     ∃ lpn, aget (cf_rmap f) (pgidx sp p) = Some lpn ∧ aget (cf_maptbl f) lpn = Some p) ∧
  (∀ l, occ l (m_free_line_list m) + pmem (m_victim_line_pq m) l + occ l (m_full_line_list m) + open l
        = Z.b2z (in_range (tt_lines sp) l)) ∧
  (∀ l x, aget (m_lines m) l = Some x →
     li_vpc x = lcnt sp (cf_ssd f) l PG_VALID ∧ li_ipc x = lcnt sp (cf_ssd f) l PG_INVALID).
Proof using clock_range layout partitions buffer_range size_range params limit.
  intros Hr Hf m open. destruct (conv_reachable_inv ns st Hr) as (_ & _ & s & gtag & -> & Ho & Hinv).
  simpl in Hf. rewrite aget_amap in Hf. destruct (aget s.1 i) as [g|] eqn:Hg; [|done]. injection Hf as <-.
  destruct (ni_part _ _ _ _ _ Hinv i g Hg) as [Hw Hs]. pose proof (wi_inv _ _ _ Hw) as Hi.
  apply proj1 in Hi. destruct (finv_bijective g Hi) as (B1 & B2). destruct (finv_accounted g Hi) as (A1 & _ & A3).
  simpl in Hs, A1, A3. rewrite Hs in *. split_and!; [exact B1|exact B2| |].
  - intros l. rewrite <- A1. subst m open. simpl.
    change (opened g l) with (Z.b2z (wp_blk (host_wp g) =? l) + (Z.b2z (wp_blk (ftl_gc_wp g) =? l) + 0)). lia.
  - intros l x. subst m. simpl. rewrite aget_amap. destruct (aget _ l) as [y|] eqn:Hy; [|done]. intros [= <-].
    apply (A3 l y Hy).
Qed.
End device.

(** C11: The conventional layer is the FDP layer with one handle: on every state of
    such an FDP namespace without enabled events, a command of the conventional
    namespace has the result, the effect or the fault that the FDP namespace has for
    the same command without its placement directive; a new conventional namespace is
    a new FDP namespace.  What the states have in common is the conventional state. *)
Theorem conv_is_fdp_with_one_handle `{CK : !Clock} `{LC : !LocalClock} c :
  (∀ ns req ret st, one_ns st →
    match fdp_proc_nvme_io_cmd c ns (plain req) ret st with
    | Ok (r, st') => one_ns st' ∧ conv_proc_nvme_io_cmd c ns req ret (forget_ns st) = Ok (r, forget_ns st')
    | Fault e => conv_proc_nvme_io_cmd c ns req ret (forget_ns st) = Fault e
    end) ∧
  (∀ f0 id size cpu ticks lticks,
    match fdp_init_namespace c events_initial (lift_ftl f0) id size cpu ticks lticks with
    | Ok (st, ns) => one_ns st ∧ conv_init_namespace c f0 id size cpu ticks lticks = Ok (forget_ns st, ns)
    | Fault e => conv_init_namespace c f0 id size cpu ticks lticks = Fault e
    end).
Proof.
  split; [intros ns req ret; apply sim_conv_proc|].
  intros. apply conv_init_namespace_map. intros t. simpl. by repeat case_match.
Qed.

(** ** A small device, for concrete runs: 64 MiB, a write and a read of its page *)

Definition small_requests : list nvmev_request :=
  [Request (RwCmd nvme_cmd_write 1 0 7 0 0) 1 0; Request (RwCmd nvme_cmd_read 1 0 7 0 0) 1 0].

Lemma small_conv : ∃ sp, ssd_init_params SAMSUNG_970PRO (MB 64) 4 = Ok sp ∧
  tt_lines sp = 8192 ∧ pgs_per_line sp = 32 ∧ tt_pgs sp = 262144 ∧ secs_per_pg sp = 8.
Proof. eexists. split; [vm_compute; reflexivity|]. by vm_compute. Qed.

Definition unset_conv (sp : ssdparams) : conv_ftl :=
  ConvFtl (ssd_init sp 0).1.1 (conv_init_params SAMSUNG_970PRO) (anew 0 (ppa_of 0)) (anew 0 0) unset_wp unset_wp
    (LMgmt (anew 0 (Line 0 0 0 0)) [] (pqueue_init 0) [] 0 0 0 0) (WFlow 0 0).

Lemma small_requests_ok sp ns b :
  secs_per_pg sp = 8 → ns_nr_parts ns = 4 → ns_csi ns = 0 → buf_size b = MB 1 →
  Forall (cmd_ok 1000 sp SAMSUNG_970PRO ns b) small_requests.
Proof.
  intros H2 H3 H4 H5. unfold small_requests. repeat apply Forall_cons_2; [| |by apply Forall_nil_2];
    (split; [done|]); cbn -[xfer_bytes last_lpn]; split; simpl; try done.
  - left. unfold last_lpn. rewrite H2, H3. by vm_compute.
  - rewrite H5. by vm_compute.
Qed.

(** A new device, to which the requests may be sent. *)
Lemma small_conv_new : ∃ sp st ns, ssd_init_params SAMSUNG_970PRO (MB 64) 4 = Ok sp ∧
  0 ≤ 1000 < (tt_lines sp - 4) * pgs_per_line sp ∧ tt_pgs sp = 262144 ∧ secs_per_pg sp = 8 ∧
  conv_reachable (CK := still_clock) (LC := still_local_clock) SAMSUNG_970PRO (MB 64) sp 1000 ns st ∧
  Forall (cmd_ok 1000 sp SAMSUNG_970PRO ns (env_wbuf (cs_env (snd st)))) small_requests ∧
  conv_shows 4 st (ConvSpec (λ _, false) (MB 1)).
Proof.
  destruct small_conv as (sp & Hsp & H1 & H2 & H3 & H4).
  assert (0 ≤ 1000 < (tt_lines sp - 4) * pgs_per_line sp) as HL by (rewrite H1, H2; by vm_compute).
  destruct (fdp_init_namespace_ok SAMSUNG_970PRO events_initial (lift_ftl (unset_conv sp)) 0 (MB 64) 0 0 0 1000 (λ _, 0)
    samsung_970pro_layout) as (sp' & Hsp' & Hns); [done|by vm_compute|by vm_compute|].
  assert (sp' = sp) as -> by congruence.
  destruct (Hns HL) as (st & ns & Heq & _ & Hn & Hc & Hb & Hun).
  pose proof (conv_init_namespace_map SAMSUNG_970PRO events_initial (unset_conv sp) 0 (MB 64) 0 0 0) as Hm.
  rewrite Heq in Hm. destruct Hm as [_ E]; [by intros t; simpl; repeat case_match|].
  exists sp, (forget_ns st), ns. split; [exact Hsp|]. split; [exact HL|]. split; [exact H3|]. split; [exact H4|].
  split; [|split].
  - exact (conv_reach_init _ _ _ _ _ _ _ _ _ _ _ E).
  - apply small_requests_ok; [assumption..|]. simpl. rewrite Hb. reflexivity.
  - split.
    + intros k Hk. rewrite mapped_forget, Hun by exact Hk. reflexivity.
    + simpl. rewrite Hb. reflexivity.
Qed.

(** The same device after the session. *)
Lemma small_conv_written : ∃ sp st ns, ssd_init_params SAMSUNG_970PRO (MB 64) 4 = Ok sp ∧
  0 ≤ 1000 < (tt_lines sp - 4) * pgs_per_line sp ∧
  conv_reachable (CK := still_clock) (LC := still_local_clock) SAMSUNG_970PRO (MB 64) sp 1000 ns st ∧
  ∃ f p, aget (fst st) 0 = Some f ∧ aget (cf_maptbl f) 0 = Some p ∧ mapped_ppa p = true.
Proof.
  destruct small_conv_new as (sp & st & ns & Hsp & HL & Hpg & Hsec & Hr & Hok & Hx).
  destruct (@conv_session_shows still_clock still_local_clock SAMSUNG_970PRO (MB 64) sp 1000 (λ _, Z.le_refl 0)
    samsung_970pro_layout eq_refl ltac:(by vm_compute) ltac:(by vm_compute) Hsp HL ns st small_requests _ Hr Hok Hx)
    as (rs & st' & _ & Hr' & _ & [Hw _]).
  exists sp, st', ns. split; [exact Hsp|]. split; [exact HL|]. split; [exact Hr'|].
  specialize (Hw 0 (Z.le_refl 0)). unfold small_requests in Hw.
  cbn [conv_spec_session] in Hw. unfold conv_spec_cmd, first_lpn, last_lpn in Hw.
  rewrite Hpg, Hsec in Hw. unfold conv_mapped in Hw. change (0 mod 4) with 0 in Hw. change (0 / 4) with 0 in Hw.
  destruct (aget (fst st') 0) as [f|]; [|discriminate Hw]. destruct (aget (cf_maptbl f) 0) as [p|] eqn:Hp;
    [|discriminate Hw].
  exists f, p. split; [reflexivity|]. split; [exact Hp|]. symmetry. exact Hw.
Qed.

Lemma conv_session_refines_witness :
  ∃ sp ns st rs st',
    conv_session (CK := still_clock) (LC := still_local_clock) SAMSUNG_970PRO ns small_requests st = Ok (rs, st') ∧
    answer_of <$> rs = [(true, 0); (true, 0)] ∧
    conv_reachable (CK := still_clock) (LC := still_local_clock) SAMSUNG_970PRO (MB 64) sp 1000 ns st'.
Proof.
  destruct small_conv_new as (sp & st & ns & Hsp & HL & Hpg & Hsec & Hr & Hok & Hx).
  destruct (@conv_session_refines still_clock still_local_clock SAMSUNG_970PRO (MB 64) sp 1000 (λ _, Z.le_refl 0)
    samsung_970pro_layout eq_refl ltac:(by vm_compute) ltac:(by vm_compute) Hsp HL ns st small_requests _ Hr Hok Hx)
    as (rs & st' & E & Hr' & Ha & _).
  exists sp, ns, st, rs, st'. split; [exact E|]. split; [|exact Hr'].
  unfold small_requests in Ha. cbn [conv_spec_session] in Ha. unfold conv_spec_cmd, first_lpn, last_lpn in Ha.
  rewrite Hpg, Hsec in Ha. exact Ha.
Defined.

Lemma conv_mapping_bijective_witness :
  ∃ sp f p, aget (cf_maptbl f) 0 = Some p ∧ mapped_ppa p = true ∧ ppa_in sp p ∧
    pstatus (cf_ssd f) p = Some PG_VALID ∧ aget (cf_rmap f) (pgidx sp p) = Some 0.
Proof.
  destruct small_conv_written as (sp & st & ns & Hsp & HL & Hr & f & p & Hf & Hp & Hm).
  exists sp, f, p. split; [exact Hp|]. split; [exact Hm|].
  destruct (@conv_mapping_bijective still_clock still_local_clock SAMSUNG_970PRO (MB 64) sp 1000 (λ _, Z.le_refl 0)
    samsung_970pro_layout eq_refl ltac:(by vm_compute) ltac:(by vm_compute) Hsp HL ns st 0 f Hr Hf) as (B1 & _).
  destruct (B1 0 p Hp Hm) as (C1 & C2 & C3 & _). split; [exact C1|]. split; [exact C2|exact C3].
Defined.

Lemma conv_is_fdp_with_one_handle_witness :
  ∃ sp ns st, let req := Request (RwCmd nvme_cmd_write 1 0 7 0 0) 1 0 in
    one_ns st ∧
    conv_init_namespace SAMSUNG_970PRO (unset_conv sp) 0 (MB 64) 0 0 0 = Ok (forget_ns st, ns) ∧
    match @fdp_proc_nvme_io_cmd one_handle still_clock still_local_clock SAMSUNG_970PRO ns (plain req) (Result 0 0 0) st with
    | Ok (r, st') => one_ns st' ∧
        @conv_proc_nvme_io_cmd still_clock still_local_clock SAMSUNG_970PRO ns req (Result 0 0 0) (forget_ns st)
          = Ok (r, forget_ns st')
    | Fault e => False
    end.
Proof.
  destruct small_conv as (sp & Hsp & H1 & H2 & H3 & H4).
  assert (0 ≤ 1000 < (tt_lines sp - 4) * pgs_per_line sp) as HL by (rewrite H1, H2; by vm_compute).
  destruct (fdp_init_namespace_ok SAMSUNG_970PRO events_initial (lift_ftl (unset_conv sp)) 0 (MB 64) 0 0 0 1000 (λ _, 0)
    samsung_970pro_layout) as (sp' & Hsp' & Hns); [done|by vm_compute|by vm_compute|].
  assert (sp' = sp) as -> by congruence.
  destruct (Hns HL) as (st & ns & Heq & Hinv & Hn & Hc & Hb & _).
  destruct (@conv_is_fdp_with_one_handle still_clock still_local_clock SAMSUNG_970PRO) as [Hcmd Hinit].
  specialize (Hinit (unset_conv sp) 0 (MB 64) 0 0 0).
  rewrite Heq in Hinit.
  destruct Hinit as [Ho E]. exists sp, ns, st. cbv zeta. split; [exact Ho|]. split; [exact E|].
  specialize (Hcmd ns (Request (RwCmd nvme_cmd_write 1 0 7 0 0) 1 0) (Result 0 0 0) st Ho).
  pose proof (small_requests_ok sp ns (env_wbuf (sh_env st.2)) H4 Hn Hc) as Hok.
  apply Forall_cons in Hok as [Hok _]; [|rewrite Hb; reflexivity].
  rewrite <- Hn in Hinv.
  pose proof (wp_proc_cmd (CK := still_clock) (LC := still_local_clock) (λ _, Z.le_refl 0) 1000 sp SAMSUNG_970PRO ns (λ _, 0) _ (Result 0 0 0) st Hinv
    (plain_ok SAMSUNG_970PRO sp 1000 ns _ _ Hok)) as Hw.
  apply wp_Ok in Hw as (r & s' & E' & _). rewrite E' in Hcmd |- *. exact Hcmd.
Defined.
