(* ===== verification/SimpleFtl.v ===== *)
(** * The simple translation layer (src/simple_ftl.c)

    A device without NAND: [nr_io_units] units serve the blocks in turn, and the
    completion time of a command is computed from the time its first unit is free.
    The state is the array [io_unit_stat] of those times.  The key-value layer
    schedules its commands in the same way. *)

From Stdlib Require Import ZArith Lia.
From stdpp Require Import base numbers list gmap.
From S2P Require Import Prelude Config ChannelModel Nvme Dma IoData.

#[local] Open Scope Z_scope.

(** The fields of [struct nvmev_config] that describe the units. *)
Record nvmev_config : Type := NvmevConfig {
  cfg_storage_size : Z;
  cfg_nr_io_units : Z;
  cfg_io_unit_shift : Z;
  cfg_read_delay : Z;
  cfg_read_time : Z;
  cfg_read_trailing : Z;
  cfg_write_delay : Z;
  cfg_write_time : Z;
  cfg_write_trailing : Z;
}.

(** ** Operations *)

Section operations.
Context `{CK : !Clock} (c : ssd_config) (cfg : nvmev_config).

(** [1 << io_unit_shift] and the unit of a block; a shift by a negative number or
    by 32 and more, and a remainder by zero, are undefined. *)
Definition io_unit_size : Z := u32 (Z.shiftl 1 (cfg_io_unit_shift cfg)).
Definition first_io_unit (lba : Z) : M (arr Z) Z :=
  if (cfg_nr_io_units cfg =? 0) || negb (in_range 32 (cfg_io_unit_shift cfg)) ||
     (cfg_io_unit_shift cfg <? LBA_BITS c)
  then throw OOPS
  else mret (u32 (Z.shiftr lba (cfg_io_unit_shift cfg - LBA_BITS c) mod cfg_nr_io_units cfg)).

(** The part of [__schedule_io_units] that the layers share: the times are those
    of the command's kind. *)
Definition schedule_units (delay latency trailing : Z) (lba length nsecs_start : Z) : M (arr Z) Z :=
  io_unit ← first_io_unit lba;
  let nr_io_units := s32 (Z.min (cfg_nr_io_units cfg) (u32 (length + io_unit_size - 1) / io_unit_size)) in
  stat ← get;
  busy ← aread stat io_unit;
  let latest := u64 (Z.max nsecs_start busy + delay) in
  while_loop (length / io_unit_size + 2) (λ '(latest, nr_io_units, length, io_unit),
    let latest := u64 (latest + latency) in
    stat ← get;
    stat ← awrite stat io_unit (if 0 <? nr_io_units then u64 (latest + trailing) else latest);
    put stat ;;
    let length := length - Z.min length io_unit_size in
    let io_unit := if cfg_nr_io_units cfg <=? u32 (io_unit + 1) then 0 else u32 (io_unit + 1) in
    if 0 <? length then mret (inl (latest, s32 (nr_io_units - 1), length, io_unit))
    else mret (inr latest)) (latest, nr_io_units, length, io_unit).

Definition schedule_io_units (opcode lba length nsecs_start : Z) : M (arr Z) Z :=
  if opcode =? nvme_cmd_write then
    schedule_units (cfg_write_delay cfg) (cfg_write_time cfg) (cfg_write_trailing cfg) lba length nsecs_start
  else if opcode =? nvme_cmd_read then
    schedule_units (cfg_read_delay cfg) (cfg_read_time cfg) (cfg_read_trailing cfg) lba length nsecs_start
  else schedule_units 0 0 0 lba length nsecs_start.

Definition schedule_flush : M (arr Z) Z :=
  while_loop (cfg_nr_io_units cfg + 2) (λ '(latest, i),
    if i <? cfg_nr_io_units cfg then
      stat ← get;
      t ← aread stat i;
      mret (inl (Z.max latest t, i + 1))
    else mret (inr latest)) (0, 0).

(** The state of the layer: the times of the units and the readings of the clock. *)
Definition simple_state : Type := arr Z * Z.
Definition on_units {A} (m : M (arr Z) A) : M simple_state A := zoom fst (λ a s, (a, snd s)) m.
Definition wallclock : M simple_state Z := λ s, Ok (cpu_clock (snd s), (fst s, snd s + 1)).

Definition NVME_CSI_NVM : Z := 0.

(** [optane] is [BASE_SSD == INTEL_OPTANE]. *)
Definition simple_proc_nvme_io_cmd (optane : bool) (ns : nvmev_ns) (cmd : nvme_rw_command) (ret : nvmev_result)
    : M simple_state (bool * nvmev_result) :=
  NVMEV_ASSERT (ns_csi ns =? NVME_CSI_NVM) ;;
  NVMEV_ASSERT optane ;;
  let op := rw_opcode cmd in
  if (op =? nvme_cmd_write) || (op =? nvme_cmd_read) then
    now ← wallclock;
    t ← on_units (schedule_io_units op (rw_slba cmd) (u32 (cmd_io_size c cmd)) now);
    mret (true, Result (ret_status ret) t (ret_result ret))
  else if op =? nvme_cmd_flush then
    t ← on_units schedule_flush;
    mret (true, Result (ret_status ret) t (ret_result ret))
  else mret (true, ret).

Definition simple_init_namespace (ns : nvmev_ns) (id size : Z) : nvmev_ns :=
  Ns id NVME_CSI_NVM size (ns_nr_parts ns).
End operations.

(** ** What the scheduler computes

    A command of [len] bytes takes [rounds len] rounds, at least one, over the units
    that follow its first one; a unit keeps the time of the last round that reached
    it. *)

Record units_ok (c : ssd_config) (cfg : nvmev_config) (stat : arr Z) : Prop := {
  un_nr : 0 < cfg_nr_io_units cfg < 2 ^ 31;
  un_shift : 1 ≤ cfg_io_unit_shift cfg < 32 ∧ LBA_BITS c ≤ cfg_io_unit_shift cfg;
  un_lba : 0 ≤ LBA_BITS c;
  un_len : alen stat = cfg_nr_io_units cfg;
}.

Section spec.
Context (c : ssd_config) (cfg : nvmev_config).
#[local] Abbreviation nr := (cfg_nr_io_units cfg).
#[local] Abbreviation size := (2 ^ cfg_io_unit_shift cfg).

Definition unit_of (lba : Z) : Z := lba / 2 ^ (cfg_io_unit_shift cfg - LBA_BITS c) mod nr.
Definition rounds (len : Z) : Z := Z.max 1 ((len + size - 1) / size).
Definition trailing_rounds (len : Z) : Z := Z.min nr ((len + size - 1) / size).

(** How many rounds after the first unit a unit comes, and the last of the rounds
    [0 .. n - 1] that reaches it. *)
Definition distance (u j : Z) : Z := (j - u) mod nr.
Definition last_round (u j n : Z) : Z := distance u j + nr * ((n - 1 - distance u j) / nr).

(** The time of unit [j] after [n] rounds from unit [u] at time [t0], when it was
    [old] before and the first [k] rounds have a trailing time. *)
Definition unit_time (t0 latency trailing k u n j old : Z) : Z :=
  if distance u j <? n then
    let i := last_round u j n in
    u64 (t0 + (i + 1) * latency + if i <? k then trailing else 0)
  else old.

Lemma distance_range u j : 0 < nr → 0 ≤ distance u j < nr.
Proof. intros. by apply Z.mod_pos_bound. Qed.

Lemma distance_unit u n : 0 < nr → distance u ((u + n) mod nr) = n mod nr.
Proof.
  intros Hn. unfold distance. rewrite Zminus_mod_idemp_l. f_equal. lia.
Qed.

Lemma distance_inv u j n : 0 < nr → 0 ≤ j < nr → distance u j = n mod nr → j = (u + n) mod nr.
Proof.
  intros Hn Hj Hd. unfold distance in Hd. rewrite <- (Z.mod_small j nr Hj).
  rewrite Z.add_mod by lia. rewrite <- Hd. rewrite <- Z.add_mod by lia.
  replace (u + (j - u)) with j by lia. done.
Qed.

(** One more round changes the time of the unit it reaches. *)
Lemma unit_time_step t0 lat tr k u n j old :
  0 < nr → 0 ≤ j < nr → 0 ≤ n →
  unit_time t0 lat tr k u (n + 1) j old =
    if decide (j = (u + n) mod nr) then u64 (t0 + (n + 1) * lat + if n <? k then tr else 0)
    else unit_time t0 lat tr k u n j old.
Proof.
  intros Hn Hj H0. pose proof (distance_range u j Hn) as Hd. unfold unit_time, last_round.
  pose proof (Z.div_mod n nr ltac:(lia)) as Hdm. pose proof (Z.mod_pos_bound n nr Hn) as Hm.
  assert (0 ≤ n / nr) as Hq by (apply Z.div_pos; lia).
  case_decide as E.
  - assert (distance u j = n mod nr) as Ed by (rewrite E; by apply distance_unit). rewrite Ed.
    rewrite (proj2 (Z.ltb_lt _ _)) by (pose proof (Z.mod_le n nr ltac:(lia) ltac:(lia)); lia).
    replace (n + 1 - 1 - n mod nr) with (n / nr * nr) by lia. rewrite Z.div_mul by lia.
    replace (n mod nr + nr * (n / nr)) with n by lia. done.
  - assert (distance u j ≠ n mod nr) as Ed by (intros Ed; by apply E, distance_inv).
    destruct (Z.ltb_spec (distance u j) (n + 1)), (Z.ltb_spec (distance u j) n); try done; try lia.
    + replace ((n + 1 - 1 - distance u j) / nr) with ((n - 1 - distance u j) / nr); [done|].
      assert (0 ≤ n - 1 - distance u j) by lia. set (a := n - 1 - distance u j) in *.
      replace (n + 1 - 1 - distance u j) with (a + 1) by lia.
      pose proof (Z.div_mod a nr ltac:(lia)) as Ha. pose proof (Z.mod_pos_bound a nr Hn) as Hma.
      destruct (Z.eq_dec (a mod nr) (nr - 1)) as [Hlast|Hlast].
      * exfalso. apply Ed. apply (Z.mod_unique_pos _ _ (a / nr + 1)); lia.
      * apply (Z.div_unique_pos _ _ _ (a mod nr + 1)); lia.
    + exfalso. apply Ed. rewrite Z.mod_small; lia.
Qed.

(** The rounds of a command. *)
Lemma rounds_spec len n :
  0 < size → 0 ≤ len → (rounds len ≤ n + 1 ↔ len - (n + 1) * size ≤ 0) ∨ n < 0.
Proof.
  intros Hs Hl. destruct (decide (n < 0)) as [|Hn]; [by right|left]. unfold rounds.
  pose proof (Z.div_mod (len + size - 1) size ltac:(lia)) as Hd.
  pose proof (Z.mod_pos_bound (len + size - 1) size Hs) as Hm.
  set (q := (len + size - 1) / size) in *. split; intros H; nia.
Qed.
End spec.

Section scheduling.
Context (c : ssd_config) (cfg : nvmev_config).
#[local] Abbreviation nr := (cfg_nr_io_units cfg).
#[local] Abbreviation size := (2 ^ cfg_io_unit_shift cfg).

Lemma io_unit_size_eq : 1 ≤ cfg_io_unit_shift cfg < 32 → io_unit_size cfg = size.
Proof.
  intros Hs. unfold io_unit_size. rewrite Z.shiftl_1_l. apply u32_small.
  split; [apply Z.pow_nonneg; lia|]. apply Z.pow_lt_mono_r; lia.
Qed.

Lemma wp_first_io_unit stat lba (Q : Z → arr Z → Prop) :
  units_ok c cfg stat → Q (unit_of c cfg lba) stat → wp (first_io_unit c cfg lba) stat Q.
Proof.
  intros [Hn [Hs Hl] Hb _] HQ. unfold first_io_unit.
  rewrite (proj2 (Z.eqb_neq nr 0)), (proj2 (in_range_true 32 _)), (proj2 (Z.ltb_ge _ _)) by lia.
  cbn [orb negb]. wp_step. rewrite Z.shiftr_div_pow2 by lia. unfold unit_of in HQ. rewrite u32_small; [done|].
  pose proof (Z.mod_pos_bound (lba / 2 ^ (cfg_io_unit_shift cfg - LBA_BITS c)) nr). lia.
Qed.

(** The next unit of the ring. *)
Lemma next_unit u i :
  0 < nr < 2 ^ 31 →
  (if nr <=? u32 ((u + i) mod nr + 1) then 0 else u32 ((u + i) mod nr + 1)) = (u + (i + 1)) mod nr.
Proof.
  intros Hn. pose proof (Z.mod_pos_bound (u + i) nr ltac:(lia)) as Hm.
  rewrite u32_small by lia.
  replace ((u + (i + 1)) mod nr) with (((u + i) mod nr + 1) mod nr)
    by (rewrite Zplus_mod_idemp_l; f_equal; lia).
  destruct (Z.leb_spec nr ((u + i) mod nr + 1)).
  - replace ((u + i) mod nr + 1) with nr by lia. by rewrite Z.mod_same by lia.
  - symmetry. apply Z.mod_small. lia.
Qed.

Lemma wp_schedule_units delay lat tr lba len start stat busy :
  units_ok c cfg stat → 0 ≤ len → len + size ≤ 2 ^ 32 → aget stat (unit_of c cfg lba) = Some busy →
  wp (schedule_units c cfg delay lat tr lba len start) stat (λ latest stat',
    let t0 := Z.max start busy + delay in
    latest = u64 (t0 + rounds cfg len * lat) ∧ alen stat' = alen stat ∧
    ∀ j old, aget stat j = Some old → aget stat' j = Some
      (unit_time cfg t0 lat tr (trailing_rounds cfg len) (unit_of c cfg lba) (rounds cfg len) j old)).
Proof.
  intros U Hlen Hsz Hbusy. pose proof U as [Hn [Hs Hl] Hb Ha]. unfold schedule_units. wp_step.
  apply wp_first_io_unit; [done|]. wp_steps. eapply wp_aread; [exact Hbusy|].
  rewrite io_unit_size_eq by done. set (u := unit_of c cfg lba) in *. set (t0 := Z.max start busy + delay).
  assert (2 ≤ size) as Hs2 by (change 2 with (2 ^ 1) at 1; apply Z.pow_le_mono_r; lia).
  rewrite (u32_small (len + size - 1)) by lia. unfold trailing_rounds. set (k := Z.min nr ((len + size - 1) / size)).
  assert (0 ≤ (len + size - 1) / size) as Hq by (apply Z.div_pos; lia).
  assert ((len + size - 1) / size ≤ 2 ^ 31) as Hq2.
  { apply Z.div_le_upper_bound; [lia|]. nia. }
  assert (rounds cfg len ≤ len / size + 1) as Hr.
  { unfold rounds. pose proof (Z.div_pos len size). apply Z.max_lub; [lia|].
    replace (len + size - 1) with (len - 1 + 1 * size) by lia. rewrite Z.div_add by lia.
    pose proof (Z.div_le_mono (len - 1) len size). lia. }
  assert (rounds cfg len ≤ 2 ^ 31) as Hr2 by (unfold rounds; lia).
  rewrite (s32_small k) by lia.
  apply (wp_while_ghost (λ i '(latest, n, l, w) stat', 0 ≤ i < rounds cfg len ∧
    latest = u64 (t0 + i * lat) ∧ n = k - i ∧ l = Z.max 0 (len - i * size) ∧
    w = (u + i) mod nr ∧ alen stat' = alen stat ∧
    ∀ j old, aget stat j = Some old → aget stat' j = Some (unit_time cfg t0 lat tr k u i j old))
    (λ i, rounds cfg len - i) _ _ 0).
  - split_and!; try lia.
    + unfold rounds. lia.
    + f_equal. lia.
    + rewrite Z.add_0_r. subst u. unfold unit_of. by rewrite Z.mod_mod by lia.
    + intros j old Hj. unfold unit_time. pose proof (distance_range cfg u j ltac:(lia)).
      by rewrite (proj2 (Z.ltb_ge _ _)) by lia.
  - lia.
  - intros i [[[latest n] l] w] s (Hi & -> & -> & -> & -> & Hal & Hget). split; [lia|]. wp_steps.
    pose proof (Z.mod_pos_bound (u + i) nr ltac:(lia)) as Hw. apply wp_awrite; [lia|]. wp_steps.
    rewrite next_unit by done.
    assert (∀ x y, u64 (u64 x + y) = u64 (x + y)) as Hu by (intros; unfold u64; apply Zplus_mod_idemp_l).
    set (s' := aset s _ _).
    assert (alen s' = alen stat) as Hal' by (subst s'; by rewrite alen_aset).
    assert (∀ j old, aget stat j = Some old →
      aget s' j = Some (unit_time cfg t0 lat tr k u (i + 1) j old)) as Hget'.
    { intros j old Hj. pose proof (aget_inv _ _ _ Hj). rewrite unit_time_step by lia. subst s'.
      rewrite aget_aset by lia. repeat case_decide; try (exfalso; congruence); [|by apply Hget].
      f_equal. rewrite !Hu. replace (t0 + (i + 1) * lat) with (t0 + i * lat + lat) by lia.
      destruct (Z.ltb_spec 0 (k - i)), (Z.ltb_spec i k); try lia; rewrite <- ?(Z.add_assoc (u64 _)), ?Hu; f_equal; lia. }
    rewrite Hu. replace (t0 + i * lat + lat) with (t0 + (i + 1) * lat) by lia.
    replace (Z.max 0 (len - i * size) - Z.min (Z.max 0 (len - i * size)) size)
      with (Z.max 0 (len - (i + 1) * size)) by lia.
    destruct (rounds_spec cfg len i ltac:(lia) Hlen) as [Hrs|]; [|lia].
    destruct (Z.ltb_spec 0 (Z.max 0 (len - (i + 1) * size))) as [E|E]; wp_step.
    + exists (i + 1). split; [|lia]. rewrite s32_small by lia. split_and!; try done; lia.
    + assert (rounds cfg len = i + 1) as -> by lia. done.
Qed.

Lemma wp_schedule_flush stat :
  alen stat = nr → 0 ≤ nr →
  wp (schedule_flush cfg) stat (λ t stat', stat' = stat ∧ 0 ≤ t ∧
    (∀ i x, aget stat i = Some x → x ≤ t) ∧ (t = 0 ∨ ∃ i, aget stat i = Some t)).
Proof.
  intros Hl Hn. unfold schedule_flush.
  apply (wp_while (λ '(t, i) s, s = stat ∧ 0 ≤ t ∧ 0 ≤ i ≤ nr ∧
    (∀ j x, j < i → aget stat j = Some x → x ≤ t) ∧ (t = 0 ∨ ∃ j, aget stat j = Some t))
    (λ '(t, i), nr - i)).
  - split_and!; try done; [|by left]. intros j x Hj Hx. apply aget_inv in Hx. lia.
  - lia.
  - intros [t i] s (-> & Ht & Hi & Hmax & Hin). split; [lia|].
    destruct (Z.ltb_spec i nr) as [Hlt|Hge].
    + wp_steps. destruct (aget_some stat i ltac:(lia)) as [x Hx]. eapply wp_aread; [exact Hx|].
      wp_step. split; [|lia]. split_and!; [done|lia..| |].
      * intros j y Hj Hy. destruct (decide (j = i)) as [->|Hne].
        { rewrite Hx in Hy. injection Hy as <-. lia. }
        specialize (Hmax j y ltac:(lia) Hy). lia.
      * destruct (Z.max_spec t x) as [[_ ->]|[_ ->]]; [right; by exists i|done].
    + wp_step. split_and!; try done. intros j x Hx. pose proof (aget_inv _ _ _ Hx). apply (Hmax j); [lia|done].
Qed.
End scheduling.

(** ** The handler *)

(** Delay, time per round and trailing time of a read or write. *)
Definition kind_times (cfg : nvmev_config) (op : Z) : Z * Z * Z :=
  if op =? nvme_cmd_write then (cfg_write_delay cfg, cfg_write_time cfg, cfg_write_trailing cfg)
  else (cfg_read_delay cfg, cfg_read_time cfg, cfg_read_trailing cfg).

(** C38: What the simple device does with a command.  A read or write returns the time
    its first unit is free (or now, if later) plus the delay and one period per round,
    and every unit it reaches keeps the time of the last round that reached it; a
    flush returns the latest time of all units and changes nothing; any other command
    is accepted and changes nothing.  The scheduling loop ends. *)
Theorem simple_proc_ok `{CK : !Clock} c cfg ns cmd ret stat tick :
  units_ok c cfg stat → ns_csi ns = NVME_CSI_NVM → cmd_io_size c cmd + 2 ^ cfg_io_unit_shift cfg ≤ 2 ^ 32 →
  let op := rw_opcode cmd in
  let len := cmd_io_size c cmd in
  let u := unit_of c cfg (rw_slba cmd) in
  let '(delay, period, trailing) := kind_times cfg op in
  ∃ r stat' tick', simple_proc_nvme_io_cmd c cfg true ns cmd ret (stat, tick) = Ok ((true, r), (stat', tick')) ∧
    ret_status r = ret_status ret ∧ ret_result r = ret_result ret ∧
    if (op =? nvme_cmd_write) || (op =? nvme_cmd_read) then
      tick' = tick + 1 ∧ ∃ busy, aget stat u = Some busy ∧
      let t0 := Z.max (cpu_clock tick) busy + delay in
      ret_nsecs_target r = u64 (t0 + rounds cfg len * period) ∧
      ∀ j old, aget stat j = Some old → aget stat' j = Some
        (unit_time cfg t0 period trailing (trailing_rounds cfg len) u (rounds cfg len) j old)
    else if op =? nvme_cmd_flush then
      stat' = stat ∧ tick' = tick ∧ 0 ≤ ret_nsecs_target r ∧
      (∀ i x, aget stat i = Some x → x ≤ ret_nsecs_target r) ∧
      (ret_nsecs_target r = 0 ∨ ∃ i, aget stat i = Some (ret_nsecs_target r))
    else r = ret ∧ stat' = stat ∧ tick' = tick.
Proof.
  intros U Hcsi Hlen op len u. pose proof U as [Hn [Hs _] _ Hal].
  assert (0 ≤ len < 2 ^ 32) as Hl.
  { split; [apply u64_range|]. subst len.
    assert (0 < 2 ^ cfg_io_unit_shift cfg) by (apply Z.pow_pos_nonneg; lia). lia. }
  destruct (aget_some stat u) as [busy Hbusy].
  { rewrite Hal. subst u. unfold unit_of. apply Z.mod_pos_bound. lia. }
  destruct (kind_times cfg op) as [[delay period] trailing] eqn:Hk.
  match goal with |- ∃ r s t, _ ∧ @?P r s t =>
    enough (wp (simple_proc_nvme_io_cmd c cfg true ns cmd ret) (stat, tick)
      (λ '(ok, r) '(s, t), ok = true ∧ P r s t)) as Hw
      by (apply wp_Ok in Hw as ([ok r] & [s t] & E & -> & HP); by exists r, s, t)
  end.
  unfold simple_proc_nvme_io_cmd. rewrite Hcsi. wp_step. wp_step; [done|]. wp_step. wp_step; [done|].
  fold op len. rewrite (u32_small len) by lia.
  destruct ((op =? nvme_cmd_write) || (op =? nvme_cmd_read)) eqn:Hrw.
  - wp_step. unfold wp at 1, wallclock. cbn [fst snd]. wp_step. unfold on_units. wp_step. cbn [fst].
    eapply (wp_mono _ _ (λ latest stat',
      let t0 := Z.max (cpu_clock tick) busy + delay in
      latest = u64 (t0 + rounds cfg len * period) ∧ alen stat' = alen stat ∧
      ∀ j old, aget stat j = Some old → aget stat' j = Some
        (unit_time cfg t0 period trailing (trailing_rounds cfg len) u (rounds cfg len) j old))).
    { unfold schedule_io_units. unfold kind_times in Hk.
      destruct (op =? nvme_cmd_write); [|rewrite orb_false_l in Hrw; rewrite Hrw];
        injection Hk as <- <- <-; apply wp_schedule_units; solve [assumption|apply Hl|lia]. }
    intros t s' (-> & _ & Hget). wp_step. split_and!; try done. by exists busy.
  - destruct (op =? nvme_cmd_flush); [|by wp_step].
    wp_step. unfold on_units. wp_step. eapply wp_mono; [by apply wp_schedule_flush; [done|lia]|].
    intros t s' (-> & H0 & H1 & H2). by wp_step.
Qed.

(** The defaults of the module parameters (src/main.c). *)
Definition default_config (storage_size : Z) : nvmev_config := NvmevConfig storage_size 8 12 1 1 0 1 1 0.

#[local] Instance idle_clock : Clock := λ _, 5.
Definition busy_units : arr Z := aset (anew 8 0) 1 1000.

Lemma simple_proc_ok_witness :
  let cmd := RwCmd nvme_cmd_write 1 0 15 0 0 in
  ∃ r stat' tick',
    simple_proc_nvme_io_cmd SAMSUNG_970PRO (default_config (MB 64)) true (Ns 0 0 (MB 64) 1) cmd (Result 0 0 0)
      (busy_units, 0) = Ok ((true, r), (stat', tick')) ∧
    ret_nsecs_target r = 8 ∧ aget stat' 0 = Some 7 ∧ aget stat' 2 = Some 0.
Proof.
  intros cmd. pose proof (simple_proc_ok SAMSUNG_970PRO (default_config (MB 64)) (Ns 0 0 (MB 64) 1) cmd (Result 0 0 0)
    busy_units 0) as H.
  destruct H as (r & stat' & tick' & E & _ & _ & _ & busy & Hb & Ht & Hs).
  - split; by vm_compute.
  - reflexivity.
  - by vm_compute.
  - exists r, stat', tick'. split; [exact E|]. assert (busy = 0) as -> by (vm_compute in Hb; congruence).
    split; [rewrite Ht; by vm_compute|]. split; [rewrite (Hs 0 0); by vm_compute|rewrite (Hs 2 0); by vm_compute].
Defined.

(** A unit that is busy until a later time than the round that reaches it loses that
    time: the next command on the unit starts too early. *)
Theorem simple_busy_time_lost :
  ∃ stat' r,
    simple_proc_nvme_io_cmd SAMSUNG_970PRO (default_config (MB 64)) true (Ns 0 0 (MB 64) 1)
      (RwCmd nvme_cmd_write 1 0 15 0 0) (Result 0 0 0) (busy_units, 0) = Ok ((true, r), (stat', 1)) ∧
    aget busy_units 1 = Some 1000 ∧ aget stat' 1 = Some 8.
Proof. eexists _, _. split; [vm_compute; reflexivity|]. by vm_compute. Qed.
