(* ===== verification/Alloc.v ===== *)
(** * The space allocators of the key-value layer (src/append_only.c, src/bitmap.c)

    The key-value layer places values in the storage area through [struct
    allocator_ops].  [AllocatorOps] is that structure, [AllocatorLaws] what the layer
    relies on: an allocation lies in the storage area and overlaps none before it.
    Both allocators keep the promise as long as they have room; neither ever takes
    space back, and neither fails when it has none. *)

From Stdlib Require Import ZArith Lia.
From stdpp Require Import base numbers list gmap.
From S2P Require Import Prelude.

#[local] Open Scope Z_scope.

(** [struct allocator_ops]; the [kill] functions are empty. *)
Class AllocatorOps (A : Type) : Type := {
  alloc_init : Z → M A Z;
  allocate : Z → M A Z;
}.

(** ** Append only *)

Record append_only : Type := AppendOnly {
  ao_latest : Z;
  ao_dev_size : Z;
  ao_total_written : Z;
}.

Definition append_only_allocator_init (size : Z) : M append_only Z :=
  put (AppendOnly 0 size 0) ;;
  mret 1.

Definition append_only_allocate (length : Z) : M append_only Z :=
  a ← get;
  put (AppendOnly (u64 (ao_latest a + length)) (ao_dev_size a) (u64 (ao_total_written a + length))) ;;
  mret (ao_latest a).

#[export] Instance append_only_ops : AllocatorOps append_only := {
  alloc_init := append_only_allocator_init;
  allocate := append_only_allocate;
}.

(** ** Bitmaps of small and large slots *)

Definition SMALL_LENGTH : Z := 1024.
Definition LARGE_LENGTH : Z := 4096.
Definition BITS_PER_LONG : Z := 64.

(** The kernel's search: [bitmap_find_next_zero_area(map, size, start, nr, mask)]. *)
Class BitmapSearch : Type :=
  bitmap_find_next_zero_area : arr bool → Z → Z → Z → Z → Z.

(** The slots of one size: the bits, how many are in use, where to search next and
    the count of allocations. *)
Record slots : Type := Slots {
  sl_bitmap : arr bool;
  sl_nbits : Z;
  sl_last_pos : Z;
  sl_capacity : Z;
}.

Record bitmap : Type := Bitmap {
  bm_small : slots;
  bm_large : slots;
  bm_dev_size : Z;
  bm_total_written : Z;
}.

(** The static variables when the module is loaded. *)
Definition bitmap_static : bitmap :=
  Bitmap (Slots (anew (600000 * BITS_PER_LONG) false) 0 0 0)
    (Slots (anew (300000 * BITS_PER_LONG) false) 0 0 0) 0 0.

(** [bitmap_zero] clears whole words, [bitmap_set] one bit here. *)
Definition bitmap_zero (map : arr bool) (nbits : Z) : M bitmap (arr bool) :=
  let n := BITS_PER_LONG * ((nbits + BITS_PER_LONG - 1) / BITS_PER_LONG) in
  if alen map <? n then throw OOPS else mret (afill map 0 n false).
Definition bitmap_set (map : arr bool) (off : Z) : M bitmap (arr bool) := awrite map off true.

Definition bitmap_allocator_init (size : Z) : M bitmap Z :=
  b ← get;
  let small_nbits := size / 2 / SMALL_LENGTH in
  let large_nbits := size / 2 / LARGE_LENGTH in
  small ← bitmap_zero (sl_bitmap (bm_small b)) small_nbits;
  large ← bitmap_zero (sl_bitmap (bm_large b)) large_nbits;
  put (Bitmap (Slots small small_nbits (sl_last_pos (bm_small b)) (sl_capacity (bm_small b)))
         (Slots large large_nbits (sl_last_pos (bm_large b)) (sl_capacity (bm_large b)))
         size (bm_total_written b)) ;;
  mret 1.

Section bitmap.
Context `{BS : !BitmapSearch}.

(** A slot of one size: its number and the slots afterwards. *)
Definition take_slot (s : slots) : M bitmap (Z * slots) :=
  let off := bitmap_find_next_zero_area (sl_bitmap s) (sl_nbits s) (sl_last_pos s) 1 0 in
  map ← bitmap_set (sl_bitmap s) off;
  let last_pos := u64 (off + 1) in
  let last_pos := if sl_nbits s <? last_pos then 0 else last_pos in
  mret (off, Slots map (sl_nbits s) last_pos (sl_capacity s + 1)).

Definition bitmap_allocate (length : Z) : M bitmap Z :=
  b ← get;
  let total := u64 (bm_total_written b + length) in
  if SMALL_LENGTH <? length then
    '(off, large) ← take_slot (bm_large b);
    put (Bitmap (bm_small b) large (bm_dev_size b) total) ;;
    mret (u64 (bm_dev_size b / 2 + off * LARGE_LENGTH))
  else
    '(off, small) ← take_slot (bm_small b);
    put (Bitmap small (bm_large b) (bm_dev_size b) total) ;;
    mret (u64 (off * SMALL_LENGTH)).

#[export] Instance bitmap_ops : AllocatorOps bitmap := {
  alloc_init := bitmap_allocator_init;
  allocate := bitmap_allocate;
}.
End bitmap.

(** ** What the layer relies on

    [a_static] are the states before initialisation; [a_taken a x] says that byte [x]
    of the storage area belongs to an allocation, [a_room a lens] that allocations of
    these lengths can be served. *)
Class AllocatorLaws (A : Type) `{AO : !AllocatorOps A} : Type := {
  a_static : A → Prop;
  a_inv : Z → A → Prop;
  a_taken : A → Z → Prop;
  a_room : A → list Z → Prop;
  a_init size a : 0 < size < 2 ^ 36 → a_static a →
    wp (alloc_init size) a (λ r a', r ≠ 0 ∧ a_inv size a' ∧ ∀ x, ¬ a_taken a' x);
  a_room_less a len lens : a_room a (len :: lens) → a_room a lens;
  a_allocate size a len lens : 0 ≤ len < 2 ^ 32 → a_inv size a → a_room a (len :: lens) →
    wp (allocate len) a (λ off a', a_inv size a' ∧ a_room a' lens ∧
      0 ≤ off < size ∧ size < 2 ^ 36 ∧ off + len ≤ size ∧
      (∀ x, a_taken a x → a_taken a' x) ∧
      ∀ x, off ≤ x < off + len → ¬ a_taken a x ∧ a_taken a' x);
}.

(** Append only: everything below [latest] is taken. *)
#[export] Instance append_only_laws : AllocatorLaws append_only.
Proof.
  refine {|
    a_static _ := True;
    a_inv size a := 0 ≤ ao_latest a ∧ ao_dev_size a = size ∧ 0 < size < 2 ^ 36;
    a_taken a x := 0 ≤ x < ao_latest a;
    a_room a lens := ao_latest a + zsum (λ x, x) lens < ao_dev_size a ∧ Forall (λ x, 0 ≤ x) lens |}.
  - intros size a Hs _. simpl. unfold append_only_allocator_init. wp_steps. simpl. split_and!; lia.
  - intros a len lens [H1 H2]. apply Forall_cons in H2 as [H2 H3]. simpl in H1. split; [lia|done].
  - intros size a len lens Hlen Hi [H1 H2]. simpl in H1. apply Forall_cons in H2 as [H2 H3].
    assert (0 ≤ zsum (λ x, x) lens) as Hp.
    { clear -H3. induction H3; simpl; lia. }
    simpl. unfold append_only_allocate. wp_steps. simpl.
    rewrite u64_small by lia. split_and!; try lia; try done; intros x Hx; lia.
Defined.

(** Bitmaps: the slots are handed out in order, so those below [last_pos] are taken. *)
Record slots_ok (n : Z) (s : slots) : Prop := {
  so_pos : 0 ≤ sl_last_pos s ≤ sl_nbits s;
  so_fit : sl_nbits s ≤ alen (sl_bitmap s);
  so_len : alen (sl_bitmap s) = n;
  so_free i : sl_last_pos s ≤ i < sl_nbits s → aget (sl_bitmap s) i = Some false;
}.

Section bitmap_laws.
Context `{BS : !BitmapSearch}.

(** The search returns [start] when the area that begins there is free. *)
Hypothesis find_here : ∀ map size start nr, 0 ≤ start → start + nr ≤ size → size ≤ alen map →
  (∀ i, start ≤ i < start + nr → aget map i = Some false) →
  bitmap_find_next_zero_area map size start nr 0 = start.

Lemma wp_take_slot n s (b : bitmap) :
  slots_ok n s → n < 2 ^ 32 → sl_last_pos s < sl_nbits s →
  wp (take_slot s) b (λ '(off, s') b', b' = b ∧ off = sl_last_pos s ∧ slots_ok n s' ∧
    sl_last_pos s' = sl_last_pos s + 1 ∧ sl_nbits s' = sl_nbits s).
Proof using find_here.
  intros [H1 H2 H3 H4] Hn Hr. unfold take_slot. rewrite find_here; [|lia..|intros i Hi; apply H4; lia].
  unfold bitmap_set. wp_step. apply wp_awrite; [lia|]. wp_step. split; [done|]. split; [done|].
  rewrite u64_small by lia. rewrite (proj2 (Z.ltb_ge _ _)) by lia. split; [|done].
  split; simpl; rewrite ?alen_aset; try lia. intros i Hi. rewrite aget_aset_ne by lia. apply H4. lia.
Qed.

Lemma wp_bitmap_zero map nbits (b : bitmap) :
  0 ≤ nbits → nbits + 63 ≤ alen map → alen map mod 64 = 0 →
  wp (bitmap_zero map nbits) b (λ map' b', b' = b ∧ alen map' = alen map ∧
    ∀ i, 0 ≤ i < nbits → aget map' i = Some false).
Proof using.
  intros Hn Hl Hm. unfold bitmap_zero. unfold BITS_PER_LONG. set (n := 64 * ((nbits + 64 - 1) / 64)).
  assert (nbits ≤ n ≤ alen map) as Hr by (subst n; dlia).
  rewrite (proj2 (Z.ltb_ge _ _)) by lia. wp_step. split; [done|].
  rewrite alen_afill by lia. split; [done|]. intros i Hi. rewrite aget_afill by lia.
  by rewrite decide_True by lia.
Qed.

Instance bitmap_laws : AllocatorLaws bitmap.
Proof using find_here.
  refine {|
    a_static b := slots_ok (600000 * 64) (bm_small b) ∧ slots_ok (300000 * 64) (bm_large b) ∧
      sl_last_pos (bm_small b) = 0 ∧ sl_last_pos (bm_large b) = 0;
    a_inv size b := slots_ok (600000 * 64) (bm_small b) ∧ slots_ok (300000 * 64) (bm_large b) ∧
      bm_dev_size b = size ∧ 0 < size < 2 ^ 36 ∧
      sl_nbits (bm_small b) = size / 2 / SMALL_LENGTH ∧ sl_nbits (bm_large b) = size / 2 / LARGE_LENGTH;
    a_taken b x := 0 ≤ x < sl_last_pos (bm_small b) * SMALL_LENGTH ∨
      bm_dev_size b / 2 ≤ x < bm_dev_size b / 2 + sl_last_pos (bm_large b) * LARGE_LENGTH;
    a_room b lens := Forall (λ x, x ≤ LARGE_LENGTH) lens ∧
      sl_last_pos (bm_large b) + cnt (λ x, SMALL_LENGTH <? x) lens ≤ sl_nbits (bm_large b) ∧
      sl_last_pos (bm_small b) + cnt (λ x, negb (SMALL_LENGTH <? x)) lens ≤ sl_nbits (bm_small b) |}.
  - intros size b Hs ([_ _ S3 _] & [_ _ L3 _] & P1 & P2). simpl. unfold bitmap_allocator_init.
    unfold SMALL_LENGTH, LARGE_LENGTH. wp_steps.
    eapply wp_mono; [apply wp_bitmap_zero; rewrite ?S3; dlia|]. intros small b' (-> & A1 & A2). wp_step.
    eapply wp_mono; [apply wp_bitmap_zero; rewrite ?L3; dlia|]. intros large b' (-> & B1 & B2). wp_steps. simpl.
    rewrite P1, P2. split; [done|]. split; [|lia].
    split_and!; try lia; split; simpl; try (rewrite ?A1, ?S3, ?B1, ?L3; dlia); auto.
  - intros b len lens (H1 & H2 & H3). apply Forall_cons in H1 as [_ H1]. simpl in H2, H3.
    split; [done|]. destruct (_ <? len); simpl in *; lia.
  - intros size b len lens Hlen (Hsm & Hlg & Hd & Hs & Nsm & Nlg) (Hr1 & Hr2 & Hr3).
    apply Forall_cons in Hr1 as [Hl Hr1]. simpl in Hr2, Hr3. simpl. unfold bitmap_allocate. wp_steps.
    pose proof (cnt_bounds (λ x, SMALL_LENGTH <? x) lens) as Hc1.
    pose proof (cnt_bounds (λ x, negb (SMALL_LENGTH <? x)) lens) as Hc2.
    pose proof (so_pos _ _ Hsm) as Psm. pose proof (so_pos _ _ Hlg) as Plg.
    unfold SMALL_LENGTH, LARGE_LENGTH in *.
    destruct (Z.ltb_spec 1024 len) as [El|El].
    + cbn [Z.b2z negb] in *. wp_step. eapply wp_mono; [apply (wp_take_slot (300000 * 64)); [done|lia|lia]|].
      intros [off s'] b' (-> & -> & Hs' & Hp & Hnb). wp_steps. simpl. rewrite u64_small by dlia.
      rewrite Hp, Hnb. split_and!; try done; try dlia; intros x Hx; dlia.
    + cbn [Z.b2z negb] in *. wp_step. eapply wp_mono; [apply (wp_take_slot (600000 * 64)); [done|lia|lia]|].
      intros [off s'] b' (-> & -> & Hs' & Hp & Hnb). wp_steps. simpl. rewrite u64_small by dlia.
      rewrite Hp, Hnb. split_and!; try done; try dlia; intros x Hx; dlia.
Defined.
End bitmap_laws.
