(* ===== verification/KvFtl.v ===== *)
(** * The key-value translation layer (src/kv_ftl.c, src/kv_ftl.h, src/nvme_kv.h)

    Keys of up to 16 bytes are kept in a hash table whose slots are chained: a key
    whose slot is taken goes to the next free slot and the last slot of the chain is
    linked to it.  A slot holds where the value is in the storage area.  Values are
    copied between the storage area and the pages the command names; iterators list
    the keys with a given prefix; a batch stores several pairs.

    The storage area, the host's pages and the kernel's buffers are in one physical
    memory [mem]; [kmalloc] is a parameter, the address of each allocation. *)

From Stdlib Require Import ZArith Lia.
From stdpp Require Import base numbers list gmap.
From S2P Require Import Prelude Config Bytes ChannelModel Nvme Dma IoData SimpleFtl Alloc.

#[local] Open Scope Z_scope.

(** ** Commands *)

Definition nvme_cmd_kv_store : Z := 0x81.
Definition nvme_cmd_kv_append : Z := 0x83.
Definition nvme_cmd_kv_retrieve : Z := 0x90.
Definition nvme_cmd_kv_delete : Z := 0xA1.
Definition nvme_cmd_kv_iter_req : Z := 0xB1.
Definition nvme_cmd_kv_iter_read : Z := 0xB2.
Definition nvme_cmd_kv_exist : Z := 0xB3.
Definition nvme_cmd_kv_batch : Z := 0x85.

Definition KV_SUCCESS : Z := 0.
Definition KV_ERR_KEY_NOT_EXIST : Z := 0x310.
Definition ALIGN_LEN : Z := 64.
Definition MAX_SUB_CMD : Z := 8.
Definition ITER_OPTION_OPEN : Z := 1.
Definition ITER_OPTION_CLOSE : Z := 2.

(** [struct nvme_kv_command]: a union whose members agree on these fields; the key
    has 16 bytes. *)
Record nvme_kv_command : Type := KvCommand {
  kc_opcode : Z;
  kc_prp1 : Z;
  kc_prp2 : Z;
  kc_value_len : Z;
  kc_key_len : Z;
  kc_option : Z;
  kc_rsvd4 : Z;
  kc_key : list Z;
}.

(** The iterator commands see the handle in the byte of the key length, and value
    and mask in the first eight bytes of the key. *)
Definition kc_iter_handle (cmd : nvme_kv_command) : Z := kc_key_len cmd.
Definition kc_iter_val (cmd : nvme_kv_command) : Z := le_combine (take 4 (kc_key cmd)).
Definition kc_iter_bitmask (cmd : nvme_kv_command) : Z := le_combine (take 4 (drop 4 (kc_key cmd))).

Definition is_kv_append_cmd (op : Z) : bool := op =? nvme_cmd_kv_append.
Definition is_kv_store_cmd (op : Z) : bool := op =? nvme_cmd_kv_store.
Definition is_kv_retrieve_cmd (op : Z) : bool := op =? nvme_cmd_kv_retrieve.
Definition is_kv_delete_cmd (op : Z) : bool := op =? nvme_cmd_kv_delete.
Definition is_kv_iter_req_cmd (op : Z) : bool := op =? nvme_cmd_kv_iter_req.
Definition is_kv_iter_read_cmd (op : Z) : bool := op =? nvme_cmd_kv_iter_read.
Definition is_kv_exist_cmd (op : Z) : bool := op =? nvme_cmd_kv_exist.
Definition is_kv_batch_cmd (op : Z) : bool := op =? nvme_cmd_kv_batch.
Definition is_kv_cmd (op : Z) : bool :=
  is_kv_append_cmd op || is_kv_store_cmd op || is_kv_retrieve_cmd op || is_kv_delete_cmd op ||
  is_kv_iter_req_cmd op || is_kv_iter_read_cmd op || is_kv_exist_cmd op || is_kv_batch_cmd op.
Definition is_kv_iter_cmd (op : Z) : bool := is_kv_iter_req_cmd op || is_kv_iter_read_cmd op.

(** Every branch of the two functions reads the same field. *)
Definition cmd_key_length (cmd : nvme_kv_command) : Z := kc_key_len cmd + 1.
Definition cmd_value_length (cmd : nvme_kv_command) : Z := u32 (Z.shiftl (kc_value_len cmd) 2).

(** ** State *)

Definition NONE64 : Z := 2 ^ 64 - 1.
Definition NONE32 : Z := 2 ^ 32 - 1.

Record mapping_entry : Type := MapEntry {
  me_key : list Z;
  me_mem_offset : Z;
  me_length : Z;
  me_next_slot : Z;
}.

(** [memset(entry, -1, sizeof entry)] *)
Definition no_entry : mapping_entry := MapEntry (replicate 18 255) NONE64 NONE64 NONE32.

(** An iterator: the fields in use; [it_buf] is the address of its buffer. *)
Record kv_iter_context : Type := IterContext {
  it_prefix : Z;
  it_bitmask : Z;
  it_buf : Z;
  it_current_pos : Z;
}.

Record kv_ftl : Type := KvFtl {
  kv_mapping_table : arr mapping_entry;
  kv_hash_slots : Z;
  kv_iter_handle : arr (option kv_iter_context);
}.

(** The layer, its allocator, the memory and the number of kernel allocations. *)
Record kvst (A : Type) : Type := KvSt {
  ks_ftl : kv_ftl;
  ks_alloc : A;
  ks_mem : mem;
  ks_heap : Z;
}.
Arguments KvSt {A} _ _ _ _.
Arguments ks_ftl {A} _.
Arguments ks_alloc {A} _.
Arguments ks_mem {A} _.
Arguments ks_heap {A} _.

(** [kmalloc n size]: the address the [n]-th allocation returns. *)
Class Kmalloc : Type := kmalloc : Z → Z → Z.

(** ** Hashing and bytes *)

Definition hash_function (key : list Z) : Z :=
  foldl (λ h p, Z.lxor (u32 (h * 16777619)) p) 2166136261 key.

(** The first [n] bytes of an array of characters. *)
Definition char_bytes {S} (a : list Z) (n : Z) : M S (list Z) :=
  if (0 <=? n) && (n <=? Z.of_nat (length a)) then mret (take (Z.to_nat n) a) else throw OOPS.
(** [memcpy(dst, src, n)] between arrays of characters. *)
Definition char_copy {S} (dst src : list Z) (n : Z) : M S (list Z) :=
  b ← char_bytes src n;
  _ ← char_bytes dst n;
  mret (b ++ drop (Z.to_nat n) dst).

Section operations.
Context {A : Type} `{AO : !AllocatorOps A} `{KM : !Kmalloc} `{CK : !Clock}.
Context (c : ssd_config) (cfg : nvmev_config) (storage_mapped : Z).
#[local] Abbreviation K := (M (kvst A)).

Definition get_table : K (arr mapping_entry) := gets (λ s, kv_mapping_table (ks_ftl s)).
Definition get_hash_slots : K Z := gets (λ s, kv_hash_slots (ks_ftl s)).
Definition set_ftl (f : kv_ftl) (s : kvst A) : kvst A := KvSt f (ks_alloc s) (ks_mem s) (ks_heap s).
Definition get_entry (slot : Z) : K mapping_entry :=
  t ← get_table;
  aread t slot.
Definition set_entry (slot : Z) (e : mapping_entry) : K unit :=
  t ← get_table;
  t' ← awrite t slot e;
  modify (λ s, set_ftl (KvFtl t' (kv_hash_slots (ks_ftl s)) (kv_iter_handle (ks_ftl s))) s).
Definition on_mem {B} (m : M mem B) : K B :=
  zoom ks_mem (λ x s, KvSt (ks_ftl s) (ks_alloc s) x (ks_heap s)) m.
Definition on_alloc {B} (m : M A B) : K B :=
  zoom ks_alloc (λ x s, KvSt (ks_ftl s) x (ks_mem s) (ks_heap s)) m.
Definition do_kmalloc (size : Z) : K Z := λ s,
  Ok (kmalloc (ks_heap s) size, KvSt (ks_ftl s) (ks_alloc s) (ks_mem s) (ks_heap s + 1)).

(** [memcpy(dst, src, n)] from a local array to memory and back. *)
Definition mem_store (dst : Z) (bytes : list Z) : K unit :=
  on_mem (modify (λ m a, if (dst <=? a) && (a <? dst + Z.of_nat (length bytes))
                         then bytes !!! Z.to_nat (a - dst) else m a)).
Definition mem_load (src n : Z) : K (list Z) := on_mem (gets (λ m, map m (seqZ src n))).

(** ** The mapping table *)

Definition allocate_mem_offset_by_length (val_len : Z) : K Z :=
  offset ← on_alloc (allocate (u64 val_len));
  if offset =? NONE64 then mret 0 else mret offset.

Definition allocate_mem_offset (cmd : nvme_kv_command) : K Z :=
  if kc_opcode cmd =? nvme_cmd_kv_store then
    offset ← on_alloc (allocate (cmd_value_length cmd));
    if offset =? NONE64 then mret 0 else mret offset
  else mret 0.

Definition get_hash_slot (key : list Z) (key_len : Z) : K Z :=
  b ← char_bytes key key_len;
  n ← get_hash_slots;
  if n =? 0 then throw OOPS else mret (u32 (hash_function b mod n)).

Definition chain_mapping (prev slot : Z) : K unit :=
  e ← get_entry prev;
  set_entry prev (MapEntry (me_key e) (me_mem_offset e) (me_length e) slot).

(** The loops over a chain and over the table: the table does not change during a
    loop, so more than [hash_slots] rounds would visit a slot twice and never end. *)
Definition find_next_slot (original_slot : Z) : K (Z * Z) :=
  n ← get_hash_slots;
  prevs ← while_loop (n + 2) (λ '(tail, prevs),
    e ← get_entry tail;
    if me_mem_offset e =? NONE64 then mret (inr prevs)
    else if me_next_slot e =? NONE32 then mret (inr tail)
    else mret (inl (me_next_slot e, tail))) (original_slot, NONE32);
  ret_slot ← while_loop (n + 2) (λ ret_slot,
    e ← get_entry ret_slot;
    if me_mem_offset e =? NONE64 then mret (inr ret_slot)
    else
      let ret_slot := u32 (ret_slot + 1) in
      mret (inl (if n <=? ret_slot then 0 else ret_slot))) prevs;
  mret (ret_slot, prevs).

Definition new_mapping_entry_by_key (key : list Z) (key_len val_len val_offset : Z) : K Z :=
  NVMEV_ASSERT (val_offset <? cfg_storage_size cfg) ;;
  slot ← get_hash_slot key key_len;
  e ← get_entry slot;
  '(slot, prev_slot) ← (if me_mem_offset e =? NONE64 then mret (slot, NONE32) else find_next_slot slot);
  e ← get_entry slot;
  k ← char_copy (me_key e) key key_len;
  set_entry slot (MapEntry k val_offset (u64 val_len) (me_next_slot e)) ;;
  when (negb (prev_slot =? NONE32)) (chain_mapping prev_slot slot) ;;
  mret 0.

Definition new_mapping_entry (cmd : nvme_kv_command) (val_offset : Z) : K Z :=
  new_mapping_entry_by_key (kc_key cmd) (cmd_key_length cmd) (cmd_value_length cmd) val_offset.

(** The loop that update, lookup and deletion share: the slot of a key. *)
Definition search_slot (key : list Z) (key_len slot : Z) : K (option Z) :=
  n ← get_hash_slots;
  while_loop (n + 2) (λ slot,
    e ← get_entry slot;
    if me_mem_offset e =? NONE64 then mret (inr None)
    else
      b1 ← char_bytes key key_len;
      b2 ← char_bytes (me_key e) key_len;
      if bool_decide (b1 = b2) then mret (inr (Some slot))
      else if me_next_slot e =? NONE32 then mret (inr None)
      else mret (inl (me_next_slot e))) slot.

Definition update_mapping_entry (cmd : nvme_kv_command) : K Z :=
  slot ← get_hash_slot (kc_key cmd) (cmd_key_length cmd);
  found ← search_slot (kc_key cmd) (cmd_key_length cmd) slot;
  match found with
  | Some slot =>
      e ← get_entry slot;
      set_entry slot (MapEntry (me_key e) (me_mem_offset e) (cmd_value_length cmd) (me_next_slot e)) ;;
      mret 0
  | None => mret 1
  end.

Definition get_mapping_entry_by_key (key : list Z) (key_len : Z) : K mapping_entry :=
  slot ← get_hash_slot key key_len;
  found ← search_slot key key_len slot;
  match found with
  | Some slot =>
      e ← get_entry slot;
      k ← char_copy (me_key no_entry) (me_key e) key_len;
      mret (MapEntry k (me_mem_offset e) (me_length e) (me_next_slot e))
  | None => mret no_entry
  end.

Definition get_mapping_entry (cmd : nvme_kv_command) : K mapping_entry :=
  get_mapping_entry_by_key (kc_key cmd) (cmd_key_length cmd).

Definition delete_mapping_entry (cmd : nvme_kv_command) : K mapping_entry :=
  slot ← get_hash_slot (kc_key cmd) (cmd_key_length cmd);
  found ← search_slot (kc_key cmd) (cmd_key_length cmd) slot;
  match found with
  | Some slot => set_entry slot no_entry ;; mret no_entry
  | None => mret no_entry
  end.

(** ** Single commands *)

(** The value's pages, as the copy loop of the I/O engine reads them; here every
    page is mapped with [kmap_atomic_pfn]. *)
Definition prp_cmd (op : Z) (cmd : nvme_kv_command) : nvme_command :=
  NvmeCommand 0 (RwCmd op 0 0 0 0 0) (kc_prp1 cmd) (kc_prp2 cmd).
Definition kv_copy (op : Z) (cmd : nvme_kv_command) (base offset length : Z) : K unit :=
  on_mem (prp_copy (λ _, true) base (prp_cmd op cmd) offset length).

(** Returns the result and [*status]. *)
Definition do_perform_kv_io (cmd : nvme_kv_command) (status : Z) : K (Z * Z) :=
  entry ← get_mapping_entry cmd;
  let exists_ := negb (me_mem_offset entry =? NONE64) in
  let length := cmd_value_length cmd in
  if kc_opcode cmd =? nvme_cmd_kv_store then
    if negb exists_ then
      new_offset ← allocate_mem_offset cmd;
      kv_copy nvme_cmd_write cmd storage_mapped new_offset length ;;
      _ ← new_mapping_entry cmd new_offset;
      mret (0, status)
    else
      kv_copy nvme_cmd_write cmd storage_mapped (me_mem_offset entry) length ;;
      when (negb (length =? me_length entry) && (length <=? SMALL_LENGTH) && (me_length entry <=? SMALL_LENGTH))
        (_ ← update_mapping_entry cmd; mret tt) ;;
      mret (0, status)
  else if kc_opcode cmd =? nvme_cmd_kv_retrieve then
    if negb exists_ then mret (0, KV_ERR_KEY_NOT_EXIST)
    else
      let length := Z.min (me_length entry) length in
      kv_copy nvme_cmd_read cmd storage_mapped (me_mem_offset entry) length ;;
      mret (u32 length, status)
  else if kc_opcode cmd =? nvme_cmd_kv_exist then
    mret (0, if exists_ then status else KV_ERR_KEY_NOT_EXIST)
  else if kc_opcode cmd =? nvme_cmd_kv_delete then
    if negb exists_ then mret (0, KV_ERR_KEY_NOT_EXIST)
    else _ ← delete_mapping_entry cmd; mret (0, status)
  else mret (0, status).

(** ** Batches *)

Definition do_perform_kv_batched_io (opcode : Z) (key : list Z) (key_len : Z) (value : list Z) (val_len : Z) : K Z :=
  entry ← get_mapping_entry_by_key key key_len;
  if opcode =? nvme_cmd_kv_store then
    if me_mem_offset entry =? NONE64 then
      new_offset ← allocate_mem_offset_by_length val_len;
      b ← char_bytes value val_len;
      mem_store (storage_mapped + new_offset) b ;;
      new_mapping_entry_by_key key key_len val_len new_offset
    else
      b ← char_bytes value val_len;
      mem_store (storage_mapped + me_mem_offset entry) b ;;
      mret 0
  else mret 0.

(** [((x - 1) / ALIGN_LEN + 1) * ALIGN_LEN] *)
Definition align_up (x : Z) : Z := (Z.quot (x - 1) ALIGN_LEN + 1) * ALIGN_LEN.

(** [payload->batch_head.attr[i]] of the buffer at [buf]: opcode, key and value
    size; the head has [MAX_SUB_CMD] attributes of 16 bytes and takes 512 bytes. *)
Definition SUB_PAYLOAD : Z := 512.
Definition batch_attr (m : mem) (buf i : Z) : Z * Z * Z :=
  let a := buf + 16 * i in (m a, m (a + 1), s32 (le_combine (map m (seqZ (a + 4) 4)))).

Definition buffer_bytes (buf length off n : Z) : K (list Z) :=
  if (0 <=? off) && (0 <=? n) && (off + n <=? length) then mem_load (buf + off) n else throw OOPS.

Fixpoint batch_items (buf length : Z) (ids : list Z) (payload_offset : Z) : K unit :=
  match ids with
  | [] => mret tt
  | i :: ids' =>
      (if (i <? MAX_SUB_CMD) && (16 * (i + 1) <=? length) then mret tt else throw OOPS) ;;
      m ← on_mem get;
      let '(opcode, key_len, val_len) := batch_attr m buf i in
      kb ← buffer_bytes buf length (SUB_PAYLOAD + payload_offset) key_len;
      key ← char_copy (replicate 20 0) kb key_len;
      vb ← buffer_bytes buf length (SUB_PAYLOAD + payload_offset + align_up key_len) val_len;
      value ← char_copy (replicate 4097 0) vb val_len;
      _ ← do_perform_kv_batched_io opcode key key_len value val_len;
      batch_items buf length ids' (payload_offset + align_up key_len + align_up val_len + ALIGN_LEN)
  end.

Definition do_perform_kv_batch (cmd : nvme_kv_command) (status : Z) : K (Z * Z) :=
  let sub_cmd_cnt := kc_rsvd4 cmd in
  let length := cmd_value_length cmd in
  _ ← do_kmalloc 4097;
  buffer ← do_kmalloc length;
  kv_copy nvme_cmd_write cmd buffer 0 length ;;
  batch_items buffer length (seqZ 0 sub_cmd_cnt) ALIGN_LEN ;;
  mret (0, status).

(** ** Iterators *)

Definition get_handle (iter : Z) : K (option kv_iter_context) :=
  s ← get;
  aread (kv_iter_handle (ks_ftl s)) iter.
Definition set_handle (iter : Z) (h : option kv_iter_context) : K unit :=
  s ← get;
  a ← awrite (kv_iter_handle (ks_ftl s)) iter h;
  put (set_ftl (KvFtl (kv_mapping_table (ks_ftl s)) (kv_hash_slots (ks_ftl s)) a) s).

(** The first free handle of 1 to 16. *)
Fixpoint free_handle (ids : list Z) : K (option Z) :=
  match ids with
  | [] => mret None
  | i :: ids' =>
      h ← get_handle i;
      match h with
      | None => mret (Some i)
      | Some _ => free_handle ids'
      end
  end.

Definition kv_iter_open (cmd : nvme_kv_command) (status : Z) : K (Z * Z) :=
  f ← free_handle (seqZ 1 16);
  match f with
  | None => mret (1, status)
  | Some iter =>
      _ ← do_kmalloc 48;
      buf ← do_kmalloc 32768;
      set_handle iter (Some (IterContext (kc_iter_val cmd) (kc_iter_bitmask cmd) buf 0)) ;;
      mret (iter, 0)
  end.

Definition kv_iter_close (cmd : nvme_kv_command) (status : Z) : K (Z * Z) :=
  let iter := kc_iter_handle cmd in
  h ← get_handle iter;
  match h with
  | Some _ => set_handle iter None
  | None => mret tt
  end ;;
  mret (0, 0).

(** The loop over the table from [pos]: where it stops, the end of the buffer, the
    number of keys and whether the table is finished. *)
Definition iter_matches (h : kv_iter_context) (e : mapping_entry) : bool :=
  negb (me_mem_offset e =? NONE64) &&
  (Z.land (le_combine (take 4 (me_key e))) (it_bitmask h) =? Z.land (it_prefix h) (it_bitmask h)).

Definition iter_collect (h : kv_iter_context) : K (Z * Z * Z * bool) :=
  n ← get_hash_slots;
  while_loop (n + 2) (λ '(pos, buf_offset, nr_keys),
    if negb (pos <? n) then mret (inr (pos, buf_offset, nr_keys, false))
    else
      e ← get_entry pos;
      r ← (if iter_matches h e then
             if 1024 <? buf_offset + 4 + 16 then mret None
             else
               mem_store (it_buf h + buf_offset) (le_split 4 16) ;;
               k ← char_bytes (me_key e) 16;
               mem_store (it_buf h + (buf_offset + 4)) k ;;
               mret (Some (buf_offset + 20, nr_keys + 1))
           else mret (Some (buf_offset, nr_keys)));
      match r with
      | None => mret (inr (pos, buf_offset, nr_keys, false))
      | Some (buf_offset, nr_keys) =>
          if pos + 1 =? n then mret (inr (pos + 1, buf_offset, nr_keys, true))
          else mret (inl (pos + 1, buf_offset, nr_keys))
      end) (it_current_pos h, 4, 0).

Definition kv_iter_read (cmd : nvme_kv_command) (status : Z) : K (Z * Z) :=
  let iter := kc_iter_handle cmd in
  o ← get_handle iter;
  match o with
  | None => mret (0, status)
  | Some h =>
      '(pos, buf_offset, nr_keys, end_) ← iter_collect h;
      mem_store (it_buf h) (le_split 4 nr_keys) ;;
      set_handle iter (Some (IterContext (it_prefix h) (it_bitmask h) (it_buf h) pos)) ;;
      kv_copy nvme_cmd_read cmd (it_buf h) 0 buf_offset ;;
      mret (buf_offset, if (end_ : bool) then 0x393 else 0)
  end.

Definition do_perform_kv_iter_io (cmd : nvme_kv_command) (status : Z) : K (Z * Z) :=
  if is_kv_iter_req_cmd (kc_opcode cmd) then
    if negb (Z.land (kc_option cmd) ITER_OPTION_OPEN =? 0) then kv_iter_open cmd status
    else if negb (Z.land (kc_option cmd) ITER_OPTION_CLOSE =? 0) then kv_iter_close cmd status
    else mret (0, status)
  else if is_kv_iter_read_cmd (kc_opcode cmd) then kv_iter_read cmd status
  else mret (0, status).

(** ** The interface of the layer *)

Definition kv_identify_nvme_io_cmd (cmd : nvme_kv_command) : bool := is_kv_cmd (kc_opcode cmd).

Definition kv_perform_nvme_io_cmd (cmd : nvme_kv_command) (status : Z) : K (Z * Z) :=
  if is_kv_batch_cmd (kc_opcode cmd) then do_perform_kv_batch cmd status
  else if is_kv_iter_cmd (kc_opcode cmd) then do_perform_kv_iter_io cmd status
  else do_perform_kv_io cmd status.

Definition kv_schedule_io_units (opcode lba length nsecs_start : Z) : M (arr Z) Z :=
  if (opcode =? nvme_cmd_write) || (opcode =? nvme_cmd_kv_store) || (opcode =? nvme_cmd_kv_batch) then
    schedule_units c cfg (cfg_write_delay cfg) (cfg_write_time cfg) (cfg_write_trailing cfg) lba length nsecs_start
  else if (opcode =? nvme_cmd_read) || (opcode =? nvme_cmd_kv_retrieve) then
    schedule_units c cfg (cfg_read_delay cfg) (cfg_read_time cfg) (cfg_read_trailing cfg) lba length nsecs_start
  else schedule_units c cfg 0 0 0 lba length nsecs_start.

(** [rw] is the same command as a read or write. *)
Definition kv_proc_nvme_io_cmd (cmd : nvme_kv_command) (rw : nvme_rw_command) (ret : nvmev_result)
    : M simple_state (bool * nvmev_result) :=
  let op := kc_opcode cmd in
  if (op =? nvme_cmd_write) || (op =? nvme_cmd_read) then
    now ← wallclock;
    t ← on_units (kv_schedule_io_units op (rw_slba rw) (u32 (cmd_io_size c rw)) now);
    mret (true, Result (ret_status ret) t (ret_result ret))
  else if op =? nvme_cmd_flush then
    t ← on_units (schedule_flush cfg);
    mret (true, Result (ret_status ret) t (ret_result ret))
  else if (op =? nvme_cmd_kv_store) || (op =? nvme_cmd_kv_retrieve) || (op =? nvme_cmd_kv_batch) then
    now ← wallclock;
    t ← on_units (kv_schedule_io_units op 0 (cmd_value_length cmd) now);
    _ ← wallclock;
    mret (true, Result (ret_status ret) t (ret_result ret))
  else mret (true, ret).

Definition KV_MAPPING_TABLE_SIZE : Z := GB 1.
Definition KV_MAPPING_ENTRY_SIZE : Z := 48.

(** The table is zeroed before the entries are marked free; the last of the 17
    iterator handles keeps what the allocated memory [stale] held. *)
Definition kv_init_namespace (stale : option kv_iter_context) (a : A) (m : mem) (heap id size : Z) (ns : nvmev_ns)
    : res (kvst A * nvmev_ns) :=
  match alloc_init (cfg_storage_size cfg) a with
  | Ok (_, a') =>
      let hash_slots := KV_MAPPING_TABLE_SIZE / KV_MAPPING_ENTRY_SIZE in
      let table := anew hash_slots (MapEntry (replicate 18 0) NONE64 NONE64 NONE32) in
      let handles := aset (anew 17 None) 16 stale in
      Ok (KvSt (KvFtl table hash_slots handles) a' m (heap + 1), Ns id NVME_CSI_NVM size (ns_nr_parts ns))
  | Fault e => Fault e
  end.
End operations.
