(* ===== verification/KvTable.v ===== *)
(** * The hash table of the key-value layer

    [finds] describes the walk along a chain, [tail_of] its last slot, and
    [table_ok] the invariant: links stay in the table and lead to slots that were
    filled later, so every walk ends, also after deletions have cut chains.  What an
    insertion, an update and a deletion do to the walks of every key is shown here
    on tables; the operations of the layer follow. *)

From Stdlib Require Import ZArith Lia.
From stdpp Require Import base numbers list gmap.
From S2P Require Import Prelude Config Bytes ChannelModel Nvme Dma IoData SimpleFtl Alloc KvFtl.

#[local] Open Scope Z_scope.

Definition free (e : mapping_entry) : Prop := me_mem_offset e = NONE64.
#[export] Instance free_dec e : Decision (free e) := decide (me_mem_offset e = NONE64).

Section tables.
Context (KL : nat) (n : Z).
Implicit Types (t : arr mapping_entry) (e : mapping_entry) (k : list Z) (ts : Z → Z).

Definition key_of e : list Z := take KL (me_key e).

(** The walk for key [k] that begins at a slot ends with a result. *)
Inductive finds t k : Z → option Z → Prop :=
| finds_free s e : aget t s = Some e → free e → finds t k s None
| finds_hit s e : aget t s = Some e → ¬ free e → key_of e = k → finds t k s (Some s)
| finds_end s e : aget t s = Some e → ¬ free e → key_of e ≠ k → me_next_slot e = NONE32 → finds t k s None
| finds_next s e r : aget t s = Some e → ¬ free e → key_of e ≠ k → me_next_slot e ≠ NONE32 →
    finds t k (me_next_slot e) r → finds t k s r.

Lemma finds_unique t k s r r' : finds t k s r → finds t k s r' → r = r'.
Proof.
  intros H. revert r'. induction H; intros r' H'; inversion H'; subst; simplify_eq; try done; auto.
Qed.

Lemma finds_some t k s x : finds t k s (Some x) → ∃ e, aget t x = Some e ∧ ¬ free e ∧ key_of e = k.
Proof. remember (Some x) as r eqn:E. induction 1; simplify_eq; eauto. Qed.

(** The last slot of the chain through an occupied slot. *)
Definition ends t e : Prop :=
  me_next_slot e = NONE32 ∨ ∃ e', aget t (me_next_slot e) = Some e' ∧ free e'.
Inductive tail_of t : Z → Z → Prop :=
| tail_here s e : aget t s = Some e → ¬ free e → ends t e → tail_of t s s
| tail_next s e x : aget t s = Some e → ¬ free e → me_next_slot e ≠ NONE32 →
    tail_of t (me_next_slot e) x → tail_of t s x.

Lemma tail_occupied t s x : tail_of t s x → ∃ e, aget t x = Some e ∧ ¬ free e ∧ ends t e.
Proof. induction 1; eauto. Qed.

(** The invariant; [ts] is when a slot was filled. *)
Record table_ok ts t : Prop := {
  tb_len : alen t = n;
  tb_range : 0 < n < NONE32;
  tb_key s e : aget t s = Some e → length (me_key e) = 18%nat;
  tb_free s e : aget t s = Some e → free e → me_next_slot e = NONE32;
  tb_next s e : aget t s = Some e → ¬ free e → me_next_slot e ≠ NONE32 → 0 ≤ me_next_slot e < n;
  tb_later s e e' : aget t s = Some e → ¬ free e → me_next_slot e ≠ NONE32 →
    aget t (me_next_slot e) = Some e' → ¬ free e' → ts s < ts (me_next_slot e);
}.

(** The slots filled after a slot: the measure of the walks. *)
Definition occupied t (s : Z) : bool :=
  match aget t s with Some e => bool_decide (¬ free e) | None => false end.
Definition later ts t (s : Z) : Z := cnt (λ x, occupied t x && (ts s <? ts x)) (seqZ 0 n).
Definition walk ts t (s : Z) : Z := if occupied t s then 1 + later ts t s else 0.

Lemma occupied_true t s e : aget t s = Some e → ¬ free e → occupied t s = true.
Proof. intros H Hf. unfold occupied. rewrite H. by apply bool_decide_eq_true. Qed.
Lemma occupied_false t s e : aget t s = Some e → free e → occupied t s = false.
Proof. intros H Hf. unfold occupied. rewrite H. apply bool_decide_eq_false. tauto. Qed.

Lemma walk_range ts t s : table_ok ts t → 0 ≤ walk ts t s ≤ n + 1.
Proof.
  intros T. pose proof (tb_range _ _ T). unfold walk, later.
  pose proof (cnt_bounds (λ x, occupied t x && (ts s <? ts x)) (seqZ 0 n)) as Hc.
  rewrite length_seqZ in Hc. destruct (occupied t s); lia.
Qed.

Lemma cnt_less (P Q : Z → bool) l x :
  (∀ y, y ∈ l → P y = true → Q y = true) → x ∈ l → P x = false → Q x = true → cnt P l < cnt Q l.
Proof.
  induction l as [|y l IH]; [set_solver|]. intros Hs Hx Hp Hq. simpl.
  assert (cnt P l ≤ cnt Q l) as Hle.
  { clear -Hs. induction l as [|z l IH]; simpl; [lia|].
    assert (cnt P l ≤ cnt Q l) by (apply IH; set_solver). specialize (Hs z ltac:(set_solver)).
    destruct (P z), (Q z); simpl; lia. }
  apply elem_of_cons in Hx as [<-|Hx]; [rewrite Hp, Hq; simpl; lia|].
  specialize (IH ltac:(set_solver) Hx Hp Hq). specialize (Hs y ltac:(set_solver)).
  destruct (P y), (Q y); simpl; lia.
Qed.

Lemma walk_next ts t s e :
  table_ok ts t → aget t s = Some e → ¬ free e → me_next_slot e ≠ NONE32 → walk ts t (me_next_slot e) < walk ts t s.
Proof.
  intros T Hs Hf Hn. pose proof (tb_next _ _ T s e Hs Hf Hn) as Hr. pose proof (tb_len _ _ T) as Hl.
  destruct (aget_some t (me_next_slot e)) as [e' He']; [lia|].
  unfold walk. rewrite (occupied_true t s e) by done.
  destruct (decide (free e')) as [Hf'|Hf'].
  - rewrite (occupied_false t _ e') by done. unfold later.
    pose proof (cnt_bounds (λ x, occupied t x && (ts s <? ts x)) (seqZ 0 n)). lia.
  - rewrite (occupied_true t _ e') by done. pose proof (tb_later _ _ T s e e' Hs Hf Hn He' Hf') as Hlt.
    apply Z.add_lt_mono_l, (cnt_less _ _ _ (me_next_slot e)).
    + intros y _ [Hy1 Hy2%Z.ltb_lt]%andb_true_iff. rewrite Hy1. apply Z.ltb_lt. lia.
    + apply elem_of_seqZ. lia.
    + by rewrite Z.ltb_irrefl, andb_false_r.
    + rewrite (occupied_true t _ e') by done. by apply Z.ltb_lt.
Qed.

(** Every walk ends. *)
Lemma finds_total ts t k s : table_ok ts t → 0 ≤ s < n → ∃ r, finds t k s r.
Proof.
  intros T. remember (Z.to_nat (walk ts t s)) as m eqn:Hm.
  revert s Hm. induction (lt_wf m) as [m _ IH]. intros s Hm Hs.
  destruct (aget_some t s) as [e He]; [rewrite (tb_len _ _ T); lia|].
  destruct (decide (free e)) as [Hf|Hf]; [eexists; by eapply finds_free|].
  destruct (decide (key_of e = k)) as [Hk|Hk]; [eexists; by eapply finds_hit|].
  destruct (decide (me_next_slot e = NONE32)) as [Hn|Hn]; [eexists; by eapply finds_end|].
  destruct (IH (Z.to_nat (walk ts t (me_next_slot e)))) with (s := me_next_slot e) as [r Hr]; [|done| |].
  - pose proof (walk_next ts t s e T He Hf Hn). pose proof (walk_range ts t (me_next_slot e) T). lia.
  - by eapply tb_next.
  - exists r. by eapply finds_next.
Qed.

(** Walks see only keys, links and which slots are free. *)
Lemma finds_ext t t' k s r :
  (∀ x e, aget t x = Some e → ∃ e', aget t' x = Some e' ∧ (free e ↔ free e') ∧
     (¬ free e → key_of e' = key_of e ∧ me_next_slot e' = me_next_slot e)) →
  finds t k s r → finds t' k s r.
Proof.
  intros Hx. induction 1 as [s e He Hf|s e He Hf Hk|s e He Hf Hk Hn|s e r He Hf Hk Hn _ IH];
    destruct (Hx s e He) as (e' & He' & Hff & Hsame).
  - eapply finds_free; [exact He'|tauto].
  - destruct (Hsame Hf) as [Ek En]. eapply finds_hit; [done|tauto|congruence].
  - destruct (Hsame Hf) as [Ek En]. eapply finds_end; [done|tauto|congruence|congruence].
  - destruct (Hsame Hf) as [Ek En]. rewrite <- En in IH. eapply finds_next; [done|tauto|congruence|congruence|done].
Qed.

(** ** Insertion

    A free slot [N] is filled with [new]; the tail [T] of the key's chain, if the
    chain is not empty, is linked to it. *)
Definition linked (e : mapping_entry) (N : Z) : mapping_entry :=
  MapEntry (me_key e) (me_mem_offset e) (me_length e) N.
Definition insert_at t (N : Z) (new : mapping_entry) (T : option Z) : arr mapping_entry :=
  let t' := aset t N new in
  match T with
  | Some T => match aget t' T with Some e => aset t' T (linked e N) | None => t' end
  | None => t'
  end.

Record insertion t (N : Z) (new : mapping_entry) (T : option Z) : Prop := {
  in_free : ∃ e, aget t N = Some e ∧ free e;
  in_small : N ≠ NONE32;
  in_new : ¬ free new ∧ me_next_slot new = NONE32 ∧ length (me_key new) = 18%nat;
  in_tail x : T = Some x → ∃ e, aget t x = Some e ∧ ¬ free e ∧ ends t e;
}.

Lemma insert_at_get t N new T x :
  insertion t N new T →
  aget (insert_at t N new T) x =
    if decide (x = N) then Some new
    else if decide (T = Some x) then (λ e, linked e N) <$> aget t x else aget t x.
Proof.
  intros [(e0 & He0 & Hf0) _ _ HT]. pose proof (aget_inv _ _ _ He0) as Hr. unfold insert_at.
  destruct T as [T|].
  - destruct (HT T eq_refl) as (e & He & Hf & _).
    assert (T ≠ N) as Hne by (intros ->; by simplify_eq).
    rewrite aget_aset_ne by done. rewrite He.
    pose proof (aget_inv _ _ _ He). destruct (decide (x = N)) as [->|Hx].
    + rewrite aget_aset_ne by done. by rewrite aget_aset_eq.
    + destruct (decide (Some T = Some x)) as [[= ->]|Hx2].
      * rewrite aget_aset_eq by (rewrite alen_aset; lia). by rewrite He.
      * rewrite !aget_aset_ne by congruence. done.
  - destruct (decide (x = N)) as [->|Hx]; [by rewrite aget_aset_eq|]. by rewrite aget_aset_ne.
Qed.

Lemma insert_at_len t N new T : alen (insert_at t N new T) = alen t.
Proof.
  unfold insert_at. destruct T as [T|]; [|by rewrite alen_aset].
  destruct (aget _ T); by rewrite ?alen_aset.
Qed.

(** The walks of other keys end as before. *)
Lemma finds_insert_other t N new T k s r :
  insertion t N new T → key_of new ≠ k → finds t k s r → finds (insert_at t N new T) k s r.
Proof.
  intros I Hk. pose proof (λ x, insert_at_get t N new T x I) as G. destruct I as [(e0 & He0 & Hf0) HN32 (Hnf & Hnx & _) HT].
  assert (finds (insert_at t N new T) k N None) as HN.
  { eapply finds_end; [|done|done|done]. by rewrite G, decide_True. }
  induction 1 as [s e He Hf|s e He Hf Hke|s e He Hf Hke Hn|s e r He Hf Hke Hn Hr IH].
  - destruct (decide (s = N)) as [->|Hs]; [done|]. eapply finds_free; [|exact Hf].
    rewrite G, decide_False by done. rewrite decide_False; [done|]. intros ->.
    destruct (HT s eq_refl) as (e' & ? & ? & _). by simplify_eq.
  - assert (s ≠ N) by (intros ->; by simplify_eq). specialize (G s). rewrite decide_False, He in G by done.
    case_decide; [|by eapply finds_hit]. by eapply finds_hit.
  - assert (s ≠ N) by (intros ->; by simplify_eq). specialize (G s). rewrite decide_False, He in G by done.
    case_decide; [|by eapply finds_end]. by eapply finds_next.
  - assert (s ≠ N) by (intros ->; by simplify_eq). specialize (G s). rewrite decide_False, He in G by done.
    case_decide as Hs; [|by eapply finds_next].
    destruct (HT s Hs) as (e1 & He1 & _ & [?|(e' & He' & Hf')]); simplify_eq.
    rewrite (finds_unique t k _ _ None Hr) by by eapply finds_free. by eapply finds_next.
Qed.

(** The walk of the new key ends at the new slot. *)
Lemma finds_insert_tail t N new T s :
  insertion t N new (Some T) → tail_of t s T → finds t (key_of new) s None →
  finds (insert_at t N new (Some T)) (key_of new) s (Some N).
Proof.
  intros I. pose proof (λ x, insert_at_get t N new (Some T) x I) as G.
  destruct I as [(e0 & He0 & Hf0) HN32 (Hnf & Hnx & _) HT].
  assert (finds (insert_at t N new (Some T)) (key_of new) N (Some N)) as HN.
  { eapply finds_hit; [|done|done]. by rewrite G, decide_True. }
  induction 1 as [s e He Hf Hend|s e x He Hf Hn Ht IH]; intros Hfind.
  - assert (s ≠ N) by (intros ->; by simplify_eq). specialize (G s).
    rewrite decide_False, decide_True, He in G by done.
    inversion Hfind; simplify_eq; by eapply finds_next.
  - assert (s ≠ N) by (intros ->; by simplify_eq).
    inversion Hfind as [|e1|e1|e1 r ? He1 _ Hk _ Hr]; simplify_eq. specialize (IH HT G HN Hr).
    destruct (decide (s = x)) as [->|Hne].
    + specialize (G x). rewrite decide_False, decide_True, He in G by done. by eapply finds_next.
    + specialize (G s). rewrite !decide_False in G by congruence. rewrite He in G. by eapply finds_next.
Qed.

Lemma finds_insert_head t N new :
  insertion t N new None → finds (insert_at t N new None) (key_of new) N (Some N).
Proof.
  intros I. eapply finds_hit; [|apply I|done]. rewrite insert_at_get by done. by rewrite decide_True.
Qed.

(** The new slot is the youngest. *)
Definition youngest ts : Z := 1 + foldr Z.max 0 (map ts (seqZ 0 n)).
Lemma youngest_spec ts s : 0 ≤ s < n → ts s < youngest ts.
Proof.
  intros Hs. unfold youngest. assert (s ∈ seqZ 0 n) as Hin by (apply elem_of_seqZ; lia).
  induction (seqZ 0 n) as [|x l IH]; [set_solver|]. simpl.
  apply elem_of_cons in Hin as [->|Hin]; [lia|]. specialize (IH Hin). lia.
Qed.

Lemma table_ok_insert ts t N new T :
  table_ok ts t → insertion t N new T →
  table_ok (λ s, if decide (s = N) then youngest ts else ts s) (insert_at t N new T).
Proof.
  intros K I. pose proof (λ x, insert_at_get t N new T x I) as G.
  pose proof I as [(e0 & He0 & Hf0) HN32 (Hnf & Hnx & Hnl) HT]. destruct K as [K1 K2 K3 K4 K5 K6].
  assert (0 ≤ N < n) as HN by (rewrite <- K1; by eapply aget_inv).
  (* a slot afterwards: the new one, the linked tail, or as before *)
  assert (∀ s e, aget (insert_at t N new T) s = Some e →
    s = N ∧ e = new ∨
    s ≠ N ∧ ∃ e1, aget t s = Some e1 ∧ (e = e1 ∨ T = Some s ∧ ¬ free e1 ∧ e = linked e1 N)) as C.
  { intros s e. rewrite G. case_decide as Hs; [intros [= <-]; by left|]. case_decide as Hs2.
    - destruct (HT s Hs2) as (e1 & He1 & Hf1 & _). rewrite He1. intros [= <-]. right. split; [done|]. exists e1. eauto.
    - intros He. right. eauto. }
  split; try done.
  - by rewrite insert_at_len.
  - intros s e He. destruct (C s e He) as [[_ ->]|(_ & e1 & He1 & [->|(_ & _ & ->)])]; eauto. simpl. eauto.
  - intros s e He Hf. destruct (C s e He) as [[_ ->]|(_ & e1 & He1 & [->|(_ & ? & ->)])]; [done|eauto|done].
  - intros s e He Hf Hn. destruct (C s e He) as [[_ ->]|(_ & e1 & He1 & [->|(_ & ? & ->)])]; [done|eauto|done].
  - intros s e e' He Hf Hn He' Hf'.
    destruct (C s e He) as [[_ ->]|(Hs & e1 & He1 & Hc)]; [done|]. rewrite (decide_False (P := s = N)) by done.
    assert (0 ≤ s < n) by (rewrite <- K1; by eapply aget_inv).
    case_decide as Hd; [by apply youngest_spec|].
    destruct Hc as [->|(_ & _ & ->)]; [|done].
    destruct (C _ e' He') as [[? _]|(_ & e2 & He2 & [->|(_ & ? & ->)])]; [done|by eapply K6..].
Qed.

(** ** Update and deletion *)

Lemma table_ok_update ts t s e e' :
  table_ok ts t → aget t s = Some e → ¬ free e → ¬ free e' → me_key e' = me_key e →
  me_next_slot e' = me_next_slot e → table_ok ts (aset t s e').
Proof.
  intros [K1 K2 K3 K4 K5 K6] Hs Hf Hf' Hk Hn. pose proof (aget_inv _ _ _ Hs) as Hr.
  assert (∀ x y, aget (aset t s e') x = Some y → ∃ y', aget t x = Some y' ∧ (free y ↔ free y') ∧
    me_key y = me_key y' ∧ me_next_slot y = me_next_slot y') as C.
  { intros x y. rewrite aget_aset by done. case_decide; [|by eauto 10]. intros [= <-]. subst x. exists e. tauto. }
  split; try done.
  - by rewrite alen_aset.
  - intros x y Hx. destruct (C x y Hx) as (y' & Hy & _ & -> & _). eauto.
  - intros x y Hx Hfy. destruct (C x y Hx) as (y' & Hy & Hff & _ & ->). eapply K4; [done|tauto].
  - intros x y Hx Hfy. destruct (C x y Hx) as (y' & Hy & Hff & _ & ->). eapply K5; [done|tauto].
  - intros x y z Hx Hfy Hny Hz Hfz. destruct (C x y Hx) as (y' & Hy & Hff & _ & E). rewrite E in *.
    destruct (C _ z Hz) as (z' & Hz' & Hfz' & _). eapply K6; [done|tauto|done|done|tauto].
Qed.

Lemma finds_update t s e e' k x r :
  aget t s = Some e → ¬ free e → ¬ free e' → me_key e' = me_key e → me_next_slot e' = me_next_slot e →
  finds t k x r → finds (aset t s e') k x r.
Proof.
  intros Hs Hf Hf' Hk Hn. apply finds_ext. intros y ey Hy. pose proof (aget_inv _ _ _ Hs).
  rewrite aget_aset by done. case_decide as Hd; [|by eauto 10]. subst y. simplify_eq. exists e'.
  unfold key_of. rewrite Hk. tauto.
Qed.

Lemma free_no_entry : free no_entry.
Proof. done. Qed.

Lemma table_ok_delete ts t s : table_ok ts t → 0 ≤ s < n → table_ok ts (aset t s no_entry).
Proof.
  intros [K1 K2 K3 K4 K5 K6] Hs.
  assert (∀ x y, aget (aset t s no_entry) x = Some y → y = no_entry ∨ aget t x = Some y) as C.
  { intros x y. rewrite aget_aset by lia. case_decide; [intros [= <-]; by left|by right]. }
  split; try done.
  - by rewrite alen_aset.
  - intros x y Hx. destruct (C x y Hx) as [->|]; [done|eauto].
  - intros x y Hx Hf. destruct (C x y Hx) as [->|]; [done|eauto].
  - intros x y Hx Hf. destruct (C x y Hx) as [->|]; [done|eauto].
  - intros x y z Hx Hf Hn Hz Hfz. destruct (C x y Hx) as [->|]; [done|].
    destruct (C _ z Hz) as [->|]; [done|eauto].
Qed.

(** The deleted key is gone; other keys are where they were, or behind the cut. *)
Lemma finds_delete t s k x r :
  0 ≤ s < alen t → finds t k x r →
  r ≠ Some s ∧ finds (aset t s no_entry) k x r ∨ finds (aset t s no_entry) k x None.
Proof.
  intros Hs. assert (finds (aset t s no_entry) k s None) as Hcut.
  { eapply finds_free; [by apply aget_aset_eq|done]. }
  induction 1 as [x e He Hf|x e He Hf Hk|x e He Hf Hk Hn|x e r He Hf Hk Hn _ IH];
    (destruct (decide (x = s)) as [->|Hx]; [by right|]);
    assert (aget (aset t s no_entry) x = Some e) as He' by (by rewrite aget_aset_ne).
  - right. by eapply finds_free.
  - left. split; [congruence|]. by eapply finds_hit.
  - right. by eapply finds_end.
  - destruct IH as [[? IH]|IH]; [left; split; [done|]|right]; by eapply finds_next.
Qed.
End tables.
