(* ===== verification/KvOps.v ===== *)
(** * The operations on the mapping table

    The loops of the code compute the walks of KvTable; insertion, lookup, update
    and deletion as they change the state of the layer. *)

From Stdlib Require Import ZArith Lia.
From stdpp Require Import base numbers list gmap.
From S2P Require Import Prelude Config Bytes ChannelModel Nvme Dma IoData SimpleFtl Alloc KvFtl KvTable.

#[local] Open Scope Z_scope.

Section ops.
Context {A : Type} `{AO : !AllocatorOps A} `{KM : !Kmalloc}.
Context (cfg : nvmev_config) (KL : nat) (n : Z).
Implicit Types (s : kvst A) (key : list Z) (ts : Z → Z).

Definition tbl s : arr mapping_entry := kv_mapping_table (ks_ftl s).
Definition with_tbl s (t : arr mapping_entry) : kvst A :=
  set_ftl (KvFtl t (kv_hash_slots (ks_ftl s)) (kv_iter_handle (ks_ftl s))) s.

(** The slot at which the walk for a key begins. *)
Definition home (k : list Z) : Z := hash_function k mod n.

(** The layer's table satisfies the invariant. *)
Definition tab_ok ts s : Prop := table_ok n ts (tbl s) ∧ kv_hash_slots (ks_ftl s) = n.

Lemma home_range ts s k : tab_ok ts s → 0 ≤ home k < n.
Proof. intros [[_ Hn _ _ _ _] _]. apply Z.mod_pos_bound. lia. Qed.

Lemma wp_get_entry s x e (Q : mapping_entry → kvst A → Prop) :
  aget (tbl s) x = Some e → Q e s → wp (get_entry x) s Q.
Proof. intros He HQ. unfold get_entry, get_table. wp_steps. by eapply wp_aread. Qed.

Lemma wp_set_entry s x e (Q : unit → kvst A → Prop) :
  0 ≤ x < alen (tbl s) → Q tt (with_tbl s (aset (tbl s) x e)) → wp (set_entry x e) s Q.
Proof. intros Hx HQ. unfold set_entry, get_table. wp_steps. apply wp_awrite; [done|]. by wp_steps. Qed.

Lemma wp_char_bytes {S} a (t : S) m (Q : list Z → S → Prop) :
  (m ≤ length a)%nat → Q (take m a) t → wp (char_bytes a (Z.of_nat m)) t Q.
Proof.
  intros Hm HQ. unfold char_bytes. rewrite (proj2 (Z.leb_le _ _)), (proj2 (Z.leb_le _ _)) by lia.
  cbn [andb]. wp_step. by rewrite Nat2Z.id.
Qed.

Lemma wp_char_copy {S} dst src (t : S) m (Q : list Z → S → Prop) :
  (m ≤ length src)%nat → (m ≤ length dst)%nat → Q (take m src ++ drop m dst) t →
  wp (char_copy dst src (Z.of_nat m)) t Q.
Proof.
  intros H1 H2 HQ. unfold char_copy. wp_step. apply wp_char_bytes; [done|]. wp_step.
  apply wp_char_bytes; [done|]. wp_step. by rewrite Nat2Z.id.
Qed.

Lemma wp_get_hash_slot ts s key (Q : Z → kvst A → Prop) :
  tab_ok ts s → (KL ≤ length key)%nat → Q (home (take KL key)) s →
  wp (get_hash_slot key (Z.of_nat KL)) s Q.
Proof.
  intros T Hk HQ. pose proof (home_range ts s (take KL key) T) as Hh. destruct T as [[_ Hn _ _ _ _] Hs].
  unfold get_hash_slot. wp_step. apply wp_char_bytes; [done|]. unfold get_hash_slots. wp_steps. rewrite Hs.
  rewrite (proj2 (Z.eqb_neq n 0)) by lia. wp_step. fold (home (take KL key)).
  rewrite u32_small; [done|]. unfold NONE32 in Hn. lia.
Qed.

Hypothesis key_range : (1 ≤ KL ≤ 16)%nat.

(** The search loop is the walk. *)
Lemma wp_search_slot ts s key x :
  tab_ok ts s → (KL ≤ length key)%nat → 0 ≤ x < n →
  wp (search_slot key (Z.of_nat KL) x) s (λ r s', s' = s ∧ finds KL (tbl s) (take KL key) x r).
Proof using key_range.
  intros [T Hs] Hk Hx. pose proof T as [T1 T2 T3 T4 T5 _].
  unfold search_slot, get_hash_slots. wp_steps. rewrite Hs.
  apply (wp_while (λ y s', s' = s ∧ 0 ≤ y < n ∧
    ∀ r, finds KL (tbl s) (take KL key) y r → finds KL (tbl s) (take KL key) x r) (walk n ts (tbl s))).
  - done.
  - pose proof (walk_range n ts (tbl s) x T). lia.
  - intros y s' (-> & Hy & Hc). split; [apply (walk_range n ts (tbl s) y T)|].
    destruct (aget_some (tbl s) y) as [e He]; [lia|]. wp_step. apply (wp_get_entry _ _ e); [done|].
    destruct (Z.eqb_spec (me_mem_offset e) NONE64) as [Hf|Hf].
    { wp_step. split; [done|]. apply Hc. by eapply finds_free. }
    wp_step. apply wp_char_bytes; [done|]. wp_step.
    apply wp_char_bytes; [rewrite (T3 y e He); lia|]. fold (key_of KL e).
    case_bool_decide as Hkey.
    { wp_step. split; [done|]. apply Hc. by eapply finds_hit. }
    destruct (Z.eqb_spec (me_next_slot e) NONE32) as [Hn|Hn]; wp_step.
    + split; [done|]. apply Hc. by eapply finds_end.
    + split; [|by apply (walk_next n ts (tbl s) y e T)]. split_and!; [done|by eapply T5..|].
      intros r Hr. apply Hc. by eapply finds_next.
Qed.

(** The next free slot after [x], going round the table. *)
Lemma wp_probe ts s x f e :
  tab_ok ts s → 0 ≤ x < n → aget (tbl s) f = Some e → free e →
  wp (while_loop (n + 2) (λ ret_slot : Z,
    e ← get_entry ret_slot;
    if me_mem_offset e =? NONE64 then mret (inr ret_slot)
    else
      let ret_slot := u32 (ret_slot + 1) in
      mret (inl (if n <=? ret_slot then 0 else ret_slot))) x) s
    (λ N s', s' = s ∧ ∃ e', aget (tbl s) N = Some e' ∧ free e').
Proof using key_range.
  intros [[T1 T2 _ _ _ _] Hs] Hx Hf Hfree. pose proof (aget_inv _ _ _ Hf) as Hfr. rewrite T1 in Hfr.
  unfold NONE32 in T2.
  apply (wp_while (λ y s', s' = s ∧ 0 ≤ y < n) (λ y, if y <=? f then f - y else n + f - y)).
  - done.
  - destruct (Z.leb_spec x f); lia.
  - intros y s' (-> & Hy). split; [destruct (Z.leb_spec y f); lia|].
    destruct (aget_some (tbl s) y) as [e' He']; [lia|]. wp_step. apply (wp_get_entry _ _ e'); [done|].
    destruct (Z.eqb_spec (me_mem_offset e') NONE64) as [Hf'|Hf']; [wp_step; eauto|].
    cbv zeta. rewrite u32_small by lia. wp_step.
    assert (y ≠ f) as Hne by (intros ->; by simplify_eq).
    destruct (Z.leb_spec n (y + 1)); (split; [split; [done|lia]|]);
      repeat match goal with |- context [?a <=? ?b] => destruct (Z.leb_spec a b) end; lia.
Qed.

(** The last slot of the chain. *)
Lemma wp_tail ts s x e :
  tab_ok ts s → aget (tbl s) x = Some e → ¬ free e →
  wp (while_loop (n + 2) (λ '(tail, prevs),
    e ← get_entry tail;
    if me_mem_offset e =? NONE64 then mret (inr prevs)
    else if me_next_slot e =? NONE32 then mret (inr tail)
    else mret (inl (me_next_slot e, tail))) (x, NONE32)) s (λ r s', s' = s ∧ tail_of (tbl s) x r).
Proof using key_range.
  intros [T Hs] Hx Hne. pose proof T as [T1 T2 T3 T4 T5 T6]. pose proof (aget_inv _ _ _ Hx) as Hxr.
  apply (wp_while (λ '(tail, prevs) s', s' = s ∧ 0 ≤ tail < n ∧
    (tail = x ∨ ∃ e, aget (tbl s) prevs = Some e ∧ ¬ free e ∧ me_next_slot e = tail ∧ tail ≠ NONE32 ∧
       ∀ y, tail_of (tbl s) prevs y → tail_of (tbl s) x y) ∧
    (∀ y, tail_of (tbl s) tail y → tail_of (tbl s) x y)) (λ '(tail, _), walk n ts (tbl s) tail)).
  - split_and!; [done|lia|lia|by left|done].
  - pose proof (walk_range n ts (tbl s) x T). lia.
  - intros [y p] s' (-> & Hy & Hp & Hc). split; [apply (walk_range n ts (tbl s) y T)|].
    destruct (aget_some (tbl s) y) as [ey Hey]; [lia|]. wp_step. apply (wp_get_entry _ _ ey); [done|].
    destruct (Z.eqb_spec (me_mem_offset ey) NONE64) as [Hfy|Hfy].
    { wp_step. split; [done|]. destruct Hp as [->|(e' & He' & Hf' & Hn' & Hn2 & Hc')]; [by simplify_eq|].
      apply Hc'. eapply tail_here; [done|done|]. right. rewrite Hn'. by exists ey. }
    destruct (Z.eqb_spec (me_next_slot ey) NONE32) as [Hn|Hn]; wp_step.
    + split; [done|]. apply Hc. eapply tail_here; [done|done|by left].
    + split; [|by apply (walk_next n ts (tbl s) y ey T)]. split_and!; [done|by eapply T5..| |].
      * right. exists ey. split_and!; auto.
      * intros z Hz. apply Hc. by eapply tail_next.
Qed.

Lemma wp_find_next_slot ts s x e f ef :
  tab_ok ts s → aget (tbl s) x = Some e → ¬ free e → aget (tbl s) f = Some ef → free ef →
  wp (find_next_slot x) s (λ '(N, T) s', s' = s ∧ tail_of (tbl s) x T ∧
    ∃ e', aget (tbl s) N = Some e' ∧ free e').
Proof using key_range.
  intros T Hx Hne Hf Hfree. pose proof T as [[T1 _ _ _ _ _] Hs].
  unfold find_next_slot, get_hash_slots. wp_steps. rewrite Hs.
  eapply wp_mono; [by eapply (wp_tail ts s x e)|]. intros prevs s' (-> & Ht). wp_step.
  destruct (tail_occupied _ _ _ Ht) as (et & Het & _). pose proof (aget_inv _ _ _ Het).
  eapply wp_mono; [eapply (wp_probe ts s prevs f ef); [done|lia|done|done]|].
  intros N s' (-> & HN). by wp_step.
Qed.

Lemma with_tbl_twice s t t' : with_tbl (with_tbl s t) t' = with_tbl s t'.
Proof. done. Qed.

(** Insertion of a key that the table does not hold. *)
Lemma wp_new_mapping_entry ts s key val_len off f ef :
  tab_ok ts s → (KL ≤ length key)%nat → finds KL (tbl s) (take KL key) (home (take KL key)) None →
  aget (tbl s) f = Some ef → free ef → 0 ≤ off < cfg_storage_size cfg → off ≠ NONE64 → 0 ≤ val_len < 2 ^ 64 →
  wp (new_mapping_entry_by_key cfg key (Z.of_nat KL) val_len off) s (λ _ s', ∃ N new T,
    s' = with_tbl s (insert_at (tbl s) N new T) ∧ insertion (tbl s) N new T ∧
    key_of KL new = take KL key ∧ me_mem_offset new = off ∧ me_length new = val_len ∧
    finds KL (tbl s') (take KL key) (home (take KL key)) (Some N)).
Proof using key_range.
  intros T Hk Hnone Hf Hfree Hoff Hoff2 Hvl. pose proof T as [[T1 T2 T3 T4 T5 T6] Hs].
  set (k := take KL key) in *. set (h := home k) in *. pose proof (home_range ts s k T) as Hh. fold h in Hh.
  unfold new_mapping_entry_by_key. wp_step. wp_step; [apply Z.ltb_lt; lia|]. wp_step.
  eapply wp_get_hash_slot; [exact T|done|]. fold k h. wp_step.
  destruct (aget_some (tbl s) h) as [eh Heh]; [lia|]. apply (wp_get_entry _ _ eh); [done|]. wp_step.
  (* the slot and the tail to be linked to it *)
  eapply (wp_mono _ _ (λ '(N, p) s', s' = s ∧ ∃ T e, aget (tbl s) N = Some e ∧ free e ∧
    p = default NONE32 T ∧ (T = None → N = h) ∧ ∀ x, T = Some x → tail_of (tbl s) h x)).
  { destruct (Z.eqb_spec (me_mem_offset eh) NONE64) as [Hfh|Hfh].
    - wp_step. split; [done|]. exists None, eh. split_and!; done.
    - eapply wp_mono; [by eapply (wp_find_next_slot ts s h eh f ef)|].
      intros [N p] s' (-> & Ht & e' & He' & Hf'). split; [done|]. exists (Some p), e'.
      split_and!; [done|done|done|done|]. by intros x [= <-]. }
  intros [N p] s' (-> & oT & eN & HeN & HfN & -> & HTn & HTs). wp_step.
  apply (wp_get_entry _ _ eN); [done|]. wp_step. apply wp_char_copy; [done|rewrite (T3 N eN HeN); lia|].
  pose proof (aget_inv _ _ _ HeN) as HNr. wp_step. apply wp_set_entry; [done|].
  rewrite (T4 N eN HeN HfN). rewrite u64_small by done.
  set (new := MapEntry (k ++ drop KL (me_key eN)) off val_len NONE32).
  assert (length k = KL) as Hlk by (subst k; rewrite length_take; lia).
  assert (insertion (tbl s) N new oT) as I.
  { split.
    - by exists eN.
    - unfold NONE32 in *. lia.
    - split_and!; [done|done|]. subst new. simpl. rewrite length_app, length_drop, (T3 N eN HeN). lia.
    - intros x Hx. destruct (tail_occupied _ _ _ (HTs x Hx)) as (e & ? & ? & ?). eauto. }
  assert (key_of KL new = k) as Hkn by (unfold key_of; simpl; by rewrite take_app_length').
  assert (finds KL (insert_at (tbl s) N new oT) k h (Some N)) as Hfinds.
  { rewrite <- Hkn. destruct oT as [x|].
    - apply finds_insert_tail; [done|by apply HTs|by rewrite Hkn].
    - rewrite <- (HTn eq_refl). by apply finds_insert_head. }
  wp_step. eapply (wp_mono _ _ (λ _ s', s' = with_tbl s (insert_at (tbl s) N new oT))).
  - wp_step.
    + destruct oT as [x|]; [|done]. simpl. destruct (in_tail _ _ _ _ I x eq_refl) as (e & He & Hfe & _).
      assert (x ≠ N) as Hne by (intros ->; by simplify_eq). pose proof (aget_inv _ _ _ He).
      assert (aget (tbl (with_tbl s (aset (tbl s) N new))) x = Some e) as He' by (cbn; by rewrite aget_aset_ne).
      unfold chain_mapping. wp_step. apply (wp_get_entry _ _ e); [done|]. apply wp_set_entry; [cbn; by rewrite alen_aset|].
      rewrite with_tbl_twice. cbn in He'. by rewrite He'.
    + bool_prop. destruct oT as [x|]; [|done]. simpl in *.
      destruct (in_tail _ _ _ _ I x eq_refl) as (e & He & _). apply aget_inv in He. unfold NONE32 in *. lia.
  - intros [] s' ->. wp_step. exists N, new, oT. by split_and!.
Qed.

(** What lookup returns for the entry it finds. *)
Lemma wp_get_mapping_entry ts s key :
  tab_ok ts s → (KL ≤ length key)%nat →
  wp (get_mapping_entry_by_key key (Z.of_nat KL)) s (λ r s', s' = s ∧
    match me_mem_offset r =? NONE64 with
    | true => finds KL (tbl s) (take KL key) (home (take KL key)) None
    | false => ∃ x e, finds KL (tbl s) (take KL key) (home (take KL key)) (Some x) ∧
        aget (tbl s) x = Some e ∧ me_mem_offset r = me_mem_offset e ∧ me_length r = me_length e
    end).
Proof using key_range.
  intros T Hk. pose proof T as [[T1 T2 T3 T4 T5 T6] Hs]. unfold get_mapping_entry_by_key. wp_step.
  eapply wp_get_hash_slot; [exact T|done|]. wp_step.
  eapply wp_mono; [by eapply (wp_search_slot ts s key); [exact T|done|eapply home_range]|].
  intros [x|] s' [-> Hf]; [|by wp_step]. destruct (finds_some _ _ _ _ _ Hf) as (e & He & Hfe & _).
  wp_step. apply (wp_get_entry _ _ e); [done|]. wp_step.
  apply wp_char_copy; [rewrite (T3 x e He); lia|simpl; lia|]. wp_step. split; [done|]. cbn [me_mem_offset].
  destruct (Z.eqb_spec (me_mem_offset e) NONE64); [done|]. by exists x, e.
Qed.

Lemma wp_update_mapping_entry ts s cmd x e :
  tab_ok ts s → cmd_key_length cmd = Z.of_nat KL → (KL ≤ length (kc_key cmd))%nat →
  finds KL (tbl s) (take KL (kc_key cmd)) (home (take KL (kc_key cmd))) (Some x) → aget (tbl s) x = Some e →
  wp (update_mapping_entry cmd) s (λ _ s',
    s' = with_tbl s (aset (tbl s) x (MapEntry (me_key e) (me_mem_offset e) (cmd_value_length cmd) (me_next_slot e)))).
Proof using key_range.
  intros T Hkl Hk Hf He. unfold update_mapping_entry. rewrite Hkl. wp_step.
  eapply wp_get_hash_slot; [exact T|done|]. wp_step.
  eapply wp_mono; [by eapply (wp_search_slot ts s (kc_key cmd)); [exact T|done|eapply home_range]|].
  intros r s' [-> Hr]. rewrite (finds_unique _ _ _ _ _ _ Hr Hf). wp_step. apply (wp_get_entry _ _ e); [done|].
  wp_step. apply wp_set_entry; [by eapply aget_inv|]. by wp_step.
Qed.

Lemma wp_delete_mapping_entry ts s cmd x :
  tab_ok ts s → cmd_key_length cmd = Z.of_nat KL → (KL ≤ length (kc_key cmd))%nat →
  finds KL (tbl s) (take KL (kc_key cmd)) (home (take KL (kc_key cmd))) (Some x) →
  wp (delete_mapping_entry cmd) s (λ _ s', s' = with_tbl s (aset (tbl s) x no_entry)).
Proof using key_range.
  intros T Hkl Hk Hf. destruct (finds_some _ _ _ _ _ Hf) as (e & He & _). unfold delete_mapping_entry. rewrite Hkl. wp_step.
  eapply wp_get_hash_slot; [exact T|done|]. wp_step.
  eapply wp_mono; [by eapply (wp_search_slot ts s (kc_key cmd)); [exact T|done|eapply home_range]|].
  intros r s' [-> Hr]. rewrite (finds_unique _ _ _ _ _ _ Hr Hf). wp_step.
  apply wp_set_entry; [by eapply aget_inv|]. by wp_step.
Qed.
End ops.
