(* ===== verification/KvIo.v ===== *)
(** * The key-value layer as a map

    The layer shows the host a map from keys to values.  The invariant [kv_inv] adds
    to that of the table the places of the values: they are in the storage area, in
    space the allocator has handed out, and no two overlap.  The lemmas follow the
    commands through lookup, copy and table. *)

From Stdlib Require Import ZArith Lia.
From stdpp Require Import base numbers list gmap.
From S2P Require Import Prelude Config Bytes ChannelModel Nvme Dma IoData SimpleFtl Alloc KvFtl KvTable KvOps.

#[local] Open Scope Z_scope.

Section io.
Context {A : Type} `{AO : !AllocatorOps A} `{AL : !AllocatorLaws A} `{KM : !Kmalloc}.
Context (cfg : nvmev_config) (storage : Z) (KL : nat) (n : Z).
#[local] Abbreviation size := (cfg_storage_size cfg).
Hypothesis key_range : (1 ≤ KL ≤ 16)%nat.
Implicit Types (s : kvst A) (k : list Z) (ts cap : Z → Z) (X : list Z → option (list Z)).

(** ** The invariant and the map *)

Definition in_storage (a : Z) : Prop := storage ≤ a < storage + size.

Record handle_ok (h : kv_iter_context) : Prop := {
  ho_pos : 0 ≤ it_current_pos h ≤ n;
  ho_apart a : it_buf h ≤ a < it_buf h + 32768 → ¬ in_storage a;
}.

Record kv_inv ts cap s : Prop := {
  ki_tab : tab_ok n ts s;
  ki_alloc : a_inv size (ks_alloc s);
  ki_handles : alen (kv_iter_handle (ks_ftl s)) = 17;
  ki_handle i h : aget (kv_iter_handle (ks_ftl s)) i = Some (Some h) → handle_ok h;
  ki_region x e : aget (tbl s) x = Some e → ¬ free e →
    0 ≤ me_mem_offset e < size ∧ me_mem_offset e + cap x ≤ size ∧ 0 ≤ me_length e ≤ cap x ∧
    ∀ y, me_mem_offset e ≤ y < me_mem_offset e + cap x → a_taken (ks_alloc s) y;
  ki_disjoint x x' e e' y : aget (tbl s) x = Some e → ¬ free e → aget (tbl s) x' = Some e' → ¬ free e' → x ≠ x' →
    ¬ (me_mem_offset e ≤ y < me_mem_offset e + cap x ∧ me_mem_offset e' ≤ y < me_mem_offset e' + cap x');
}.

(** The bytes of a value. *)
Definition value_at s (e : mapping_entry) : list Z :=
  map (ks_mem s) (seqZ (storage + me_mem_offset e) (me_length e)).

Definition entry_value s (r : option Z) : option (list Z) :=
  x ← r; e ← aget (tbl s) x; Some (value_at s e).

(** The layer shows the map [X]. *)
Definition shows s X : Prop :=
  ∀ k, length k = KL → ∃ r, finds KL (tbl s) k (home n k) r ∧ X k = entry_value s r.

Definition put_key X k (v : option (list Z)) : list Z → option (list Z) :=
  λ k', if decide (k' = k) then v else X k'.

(** Free slots of the table. *)
Definition free_slots s : Z := cnt (λ x, negb (occupied (tbl s) x)) (seqZ 0 n).

Lemma length_value s e : 0 ≤ me_length e → Z.of_nat (length (value_at s e)) = me_length e.
Proof using key_range. intros He. unfold value_at. rewrite length_map, length_seqZ. lia. Qed.

Lemma free_slot ts s : tab_ok n ts s → 0 < free_slots s → ∃ f e, aget (tbl s) f = Some e ∧ free e.
Proof using key_range.
  intros [T _] Hp. unfold free_slots in Hp.
  assert (∃ f, f ∈ seqZ 0 n ∧ occupied (tbl s) f = false) as (f & Hf%elem_of_seqZ & Ho).
  { induction (seqZ 0 n) as [|x l IH]; simpl in Hp; [lia|].
    destruct (occupied (tbl s) x) eqn:E; [|exists x; set_solver].
    destruct IH as (f & ? & ?); [done|]. exists f. set_solver. }
  destruct (aget_some (tbl s) f) as [e He]; [rewrite (tb_len _ _ _ T); lia|]. exists f, e. split; [done|].
  unfold occupied in Ho. rewrite He in Ho. apply bool_decide_eq_false in Ho. by destruct (decide (free e)).
Qed.

(** Lookup of a key of the map. *)
Lemma shows_found s X k : shows s X → length k = KL →
  match X k with
  | None => finds KL (tbl s) k (home n k) None
  | Some v => ∃ x e, finds KL (tbl s) k (home n k) (Some x) ∧ aget (tbl s) x = Some e ∧ ¬ free e ∧ v = value_at s e
  end.
Proof using key_range.
  intros HX Hk. destruct (HX k Hk) as ([x|] & Hr & ->); simpl; [|done].
  destruct (finds_some _ _ _ _ _ Hr) as (e & He & Hf & _). rewrite He. simpl. by exists x, e.
Qed.

(** The host's pages for a transfer of [len] bytes: usable wherever in the storage
    area the other side is. *)
Definition pages_ok s (op : Z) (cmd : nvme_kv_command) (len : Z) : Prop :=
  len = 0 ∨ ∀ B, storage ≤ B → B + len ≤ storage + size →
    transfer_ok (ks_mem s) (prp_cmd op cmd) len (λ _, true) B.

(** The bytes the host's pages hold. *)
Definition host_addr_of s (cmd : nvme_kv_command) (len t : Z) : Z :=
  host_addr (ks_mem s) (prp_cmd nvme_cmd_write cmd) len t.
Definition host_value s (cmd : nvme_kv_command) (len : Z) : list Z :=
  map (λ t, ks_mem s (host_addr_of s cmd len t)) (seqZ 0 len).

Definition with_mem s (m : mem) : kvst A := KvSt (ks_ftl s) (ks_alloc s) m (ks_heap s).

Lemma wp_prp_copy_0 base cmd off (m : mem) (Q : unit → mem → Prop) :
  Q tt m → wp (prp_copy (λ _, true) base cmd off 0) m Q.
Proof using key_range. done. Qed.

(** The copy of a value into the storage area. *)
Lemma wp_copy_in s cmd off len :
  pages_ok s nvme_cmd_write cmd len → 0 ≤ off → 0 ≤ len → off + len ≤ size →
  wp (kv_copy nvme_cmd_write cmd storage off len) s (λ _ s', ∃ m, s' = with_mem s m ∧
    (∀ a, ¬ (storage + off ≤ a < storage + off + len) → m a = ks_mem s a) ∧
    map m (seqZ (storage + off) len) = host_value s cmd len).
Proof using key_range.
  intros Hp Ho Hl Hs. unfold kv_copy, on_mem. wp_step. destruct Hp as [->|TR].
  { apply wp_prp_copy_0. by exists (ks_mem s). }
  specialize (TR (storage + off) ltac:(lia) ltac:(lia)).
  eapply wp_mono; [by apply wp_prp_copy|]. intros [] m T. unfold transferred in T. cbn in T.
  exists m. split; [done|]. split; [intros a Ha; by rewrite T, decide_False|].
  unfold host_value. apply list_eq. intros i. rewrite !list_lookup_fmap.
  destruct (decide (i < Z.to_nat len)%nat) as [Hi|Hi].
  - rewrite !lookup_seqZ_lt by lia. simpl. f_equal. rewrite T, decide_True by lia.
    f_equal. unfold host_addr_of. f_equal. lia.
  - rewrite !lookup_seqZ_ge by lia. done.
Qed.

(** The copy of a value out of the storage area. *)
Lemma wp_copy_out s cmd base off len :
  pages_ok s nvme_cmd_read cmd len → 0 ≤ len ≤ size →
  (len = 0 ∨ transfer_ok (ks_mem s) (prp_cmd nvme_cmd_read cmd) len (λ _, true) (base + off)) →
  wp (kv_copy nvme_cmd_read cmd base off len) s (λ _ s', ∃ m, s' = with_mem s m ∧
    (∀ a, in_storage a → m a = ks_mem s a) ∧
    ∀ t, 0 ≤ t < len → m (host_addr_of s cmd len t) = ks_mem s (base + off + t)).
Proof using key_range.
  intros Hp Hl Htr. unfold kv_copy, on_mem. wp_step.
  destruct Htr as [->|TR]; [apply wp_prp_copy_0; exists (ks_mem s); split_and!; [done|done|lia]|].
  pose proof (tr_len _ _ _ _ _ TR) as Hlen. destruct Hp as [?|Hp]; [lia|].
  eapply wp_mono; [by apply wp_prp_copy|]. intros [] m T. unfold transferred in T. cbn in T.
  destruct T as [T1 T2]. exists m. split; [done|]. split; [|by apply T1].
  intros a Ha. apply T2. intros t Ht ->. unfold in_storage in Ha.
  set (h := host_addr _ _ _ _) in *. set (B := Z.min h (storage + size - len)).
  pose proof (tr_disjoint _ _ _ _ _ (Hp B ltac:(lia) ltac:(lia)) t Ht) as Hd. fold h in Hd. lia.
Qed.

(** ** A new key *)

Lemma value_at_frame s s' e :
  (∀ a, storage + me_mem_offset e ≤ a < storage + me_mem_offset e + me_length e → ks_mem s' a = ks_mem s a) →
  value_at s' e = value_at s e.
Proof using key_range.
  intros H. unfold value_at. apply map_ext_in. intros a Ha%list_elem_of_In%elem_of_seqZ. apply H. lia.
Qed.

Section insert.
Context ts cap s (N : Z) (new : mapping_entry) (oT : option Z) (a' : A) (m' : mem).
#[local] Abbreviation off := (me_mem_offset new).
#[local] Abbreviation len := (me_length new).
Hypothesis INV : kv_inv ts cap s.
Hypothesis INS : insertion (tbl s) N new oT.
Hypothesis alloc_inv : a_inv size a'.
Hypothesis alloc_more : ∀ y, a_taken (ks_alloc s) y → a_taken a' y.
Hypothesis alloc_new : ∀ y, off ≤ y < off + len → ¬ a_taken (ks_alloc s) y ∧ a_taken a' y.
Hypothesis region : 0 ≤ off < size ∧ off + len ≤ size ∧ 0 ≤ len.
Hypothesis mem_frame : ∀ a, ¬ (storage + off ≤ a < storage + off + len) → m' a = ks_mem s a.
#[local] Abbreviation s' := (with_tbl (KvSt (ks_ftl s) a' m' (ks_heap s)) (insert_at (tbl s) N new oT)).
#[local] Abbreviation cap' := (λ x, if decide (x = N) then len else cap x).

(** A slot afterwards is the new one or has the place it had. *)
Lemma inserted x e : aget (tbl s') x = Some e →
  x = N ∧ e = new ∨ x ≠ N ∧ ∃ e1, aget (tbl s) x = Some e1 ∧ (free e ↔ free e1) ∧
    me_mem_offset e = me_mem_offset e1 ∧ me_length e = me_length e1 ∧ me_key e = me_key e1.
Proof using key_range INS.
  cbn. rewrite insert_at_get by done. case_decide as Hx; [intros [= <-]; by left|]. right. split; [done|].
  case_decide; [|by eauto 10]. destruct (aget (tbl s) x) as [e1|]; simpl in *; [|done]. simplify_eq. by exists e1.
Qed.

Lemma inv_insert : kv_inv (λ x, if decide (x = N) then youngest n ts else ts x) cap' s'.
Proof using key_range INV INS alloc_inv alloc_more alloc_new region.
  destruct INV as [[K1 K2] K3 K4 K5 K6 K7]. split.
  - split; [|done]. by apply table_ok_insert.
  - done.
  - done.
  - done.
  - intros x e Hx Hf. destruct (inserted x e Hx) as [[-> ->]|(Hne & e1 & H1 & Hff & E1 & E2 & _)].
    + rewrite decide_True by done. split_and!; try lia. intros y Hy. by apply alloc_new.
    + rewrite decide_False by done. rewrite E1, E2. destruct (K6 x e1 H1) as (? & ? & ? & Ht); [tauto|].
      split_and!; try lia. intros y Hy. by apply alloc_more, Ht.
  - intros x x' e e' y Hx Hf Hx' Hf' Hne.
    destruct (inserted x e Hx) as [[-> ->]|(Hn & e1 & H1 & Hff & E1 & E2 & _)],
      (inserted x' e' Hx') as [[-> ->]|(Hn' & e1' & H1' & Hff' & E1' & E2' & _)]; try done;
      rewrite ?(decide_True (P := N = N)), ?decide_False by done; rewrite ?E1, ?E1'; intros [Hy Hy'].
    + apply alloc_new in Hy as [Hy _]. apply Hy. eapply K6; [done|tauto|done].
    + apply alloc_new in Hy' as [Hy' _]. apply Hy'. eapply K6; [done|tauto|done].
    + eapply (K7 x x' e1 e1' y); [done|tauto|done|tauto|done|done].
Qed.

Lemma shows_insert X k :
  shows s X → key_of KL new = k → length k = KL → finds KL (tbl s') k (home n k) (Some N) →
  shows s' (put_key X k (Some (map m' (seqZ (storage + off) len)))).
Proof using key_range INV INS alloc_new mem_frame.
  intros HX Hk Hl Hf k' Hk'. unfold put_key. case_decide as Hd.
  - subst k'. exists (Some N). split; [done|]. cbn. rewrite insert_at_get, decide_True by done. done.
  - destruct (HX k' Hk') as (r & Hr & ->). exists r. split; [by apply finds_insert_other; [|congruence|]|].
    destruct r as [x|]; [|done]. destruct (finds_some _ _ _ _ _ Hr) as (e & He & Hfe & _). simpl. rewrite He. simpl.
    destruct (in_free _ _ _ _ INS) as (e0 & He0 & Hf0).
    assert (x ≠ N) as Hne by (intros ->; by simplify_eq).
    destruct (ki_region _ _ _ INV x e He Hfe) as (R1 & R2 & R3 & R4).
    assert (∀ e', me_mem_offset e' = me_mem_offset e → me_length e' = me_length e → value_at s e = value_at s' e') as Hv.
    { intros e' E1 E2. transitivity (value_at s' e); [|unfold value_at; by rewrite E1, E2].
      symmetry. apply value_at_frame. intros a Ha. cbn. apply mem_frame. intros Hin.
      destruct (alloc_new (a - storage)) as [Hnt _]; [lia|]. apply Hnt, R4. lia. }
    cbn. rewrite insert_at_get, decide_False by done. case_decide; rewrite He; simpl; f_equal; by apply Hv.
Qed.

Lemma free_slots_insert : free_slots s' = free_slots s - 1.
Proof using key_range INV INS.
  destruct (in_free _ _ _ _ INS) as (e0 & He0 & Hf0). destruct (in_new _ _ _ _ INS) as [Hnf _].
  pose proof (aget_inv _ _ _ He0) as Hr. rewrite (tb_len _ _ _ (proj1 (ki_tab _ _ _ INV))) in Hr.
  unfold free_slots. rewrite (cnt_upd (λ x, negb (occupied (tbl s) x)) _ _ N).
  - rewrite (occupied_false _ N e0) by done. rewrite (occupied_true _ N new); [simpl; lia| |done].
    cbn. by rewrite insert_at_get, decide_True.
  - apply NoDup_seqZ.
  - apply elem_of_seqZ. lia.
  - intros x Hx Hne. f_equal. unfold occupied. cbn. rewrite insert_at_get, decide_False by done.
    case_decide; [|done]. by destruct (aget (tbl s) x).
Qed.
End insert.

(** ** A key that has a value *)

Lemma inv_update ts cap s x e m' len :
  kv_inv ts cap s → aget (tbl s) x = Some e → ¬ free e → 0 ≤ len ≤ cap x →
  let e' := MapEntry (me_key e) (me_mem_offset e) len (me_next_slot e) in
  kv_inv ts cap (with_tbl (with_mem s m') (aset (tbl s) x e')).
Proof using key_range.
  intros [[K1 K2] K3 K4 K5 K6 K7] He Hf Hl e'. pose proof (aget_inv _ _ _ He) as Hr.
  assert (∀ y z, aget (aset (tbl s) x e') y = Some z → ∃ z', aget (tbl s) y = Some z' ∧ (free z ↔ free z') ∧
    me_mem_offset z = me_mem_offset z' ∧ (y = x ∧ me_length z = len ∨ me_length z = me_length z')) as C.
  { intros y z. rewrite aget_aset by done. case_decide; [|by eauto 10]. intros [= <-]. subst y. exists e.
    split_and!; [done|done|done|by left]. }
  split; try done.
  - split; [|done]. by eapply table_ok_update.
  - intros y z Hy Hfz. destruct (C y z Hy) as (z' & Hz & Hff & -> & Hlen).
    destruct (K6 y z' Hz) as (? & ? & ? & ?); [tauto|]. split_and!; try done; try lia; destruct Hlen as [[-> ->]| ->]; lia.
  - intros y y' z z' q Hy Hfz Hy' Hfz' Hne. destruct (C y z Hy) as (w & Hw & Hff & -> & _).
    destruct (C y' z' Hy') as (w' & Hw' & Hff' & -> & _). eapply K7; [done|tauto|done|tauto|done].
Qed.

Lemma shows_update ts cap s X k x e m' len :
  kv_inv ts cap s → shows s X → length k = KL → finds KL (tbl s) k (home n k) (Some x) → aget (tbl s) x = Some e →
  (∀ a, ¬ (storage + me_mem_offset e ≤ a < storage + me_mem_offset e + cap x) → m' a = ks_mem s a) →
  let e' := MapEntry (me_key e) (me_mem_offset e) len (me_next_slot e) in
  shows (with_tbl (with_mem s m') (aset (tbl s) x e'))
    (put_key X k (Some (map m' (seqZ (storage + me_mem_offset e) len)))).
Proof using key_range.
  intros INV HX Hl Hf He Hm e' k' Hk'. destruct (finds_some _ _ _ _ _ Hf) as (e1 & He1 & Hfe & Hke). simplify_eq.
  pose proof (aget_inv _ _ _ He) as Hr. destruct (HX k' Hk') as (r & Hfr & Hxr). unfold put_key.
  case_decide as Hd.
  - subst k'. exists (Some x). split; [by eapply finds_update|]. cbn. by rewrite aget_aset_eq.
  - exists r. split; [by eapply finds_update|]. rewrite Hxr. destruct r as [y|]; [|done].
    destruct (finds_some _ _ _ _ _ Hfr) as (ey & Hey & Hfy & Hky). simpl. rewrite Hey. cbn.
    assert (x ≠ y) as Hne by (intros ->; by simplify_eq). rewrite aget_aset_ne by done. rewrite Hey. simpl. f_equal.
    symmetry. apply value_at_frame. intros a Ha. cbn. apply Hm. intros Hin.
    pose proof (ki_region _ _ _ INV y ey Hey Hfy) as (R1 & R2 & R3 & _).
    apply (ki_disjoint _ _ _ INV x y e ey (a - storage)); try done. lia.
Qed.

Lemma inv_delete ts cap s x :
  kv_inv ts cap s → 0 ≤ x < n → kv_inv ts cap (with_tbl s (aset (tbl s) x no_entry)).
Proof using key_range.
  intros [[K1 K2] K3 K4 K5 K6 K7] Hx.
  assert (∀ y z, aget (aset (tbl s) x no_entry) y = Some z → ¬ free z → aget (tbl s) y = Some z) as C.
  { intros y z. rewrite aget_aset by (rewrite (tb_len _ _ _ K1); lia). case_decide; [intros [= <-] []; done|done]. }
  split; try done.
  - split; [|done]. by apply table_ok_delete.
  - intros y z Hy Hf. eapply K6; [by apply C|done].
  - intros y y' z z' q Hy Hf Hy' Hf' Hne. eapply K7; [by apply C|done|by apply C|done|done].
Qed.

(** The map the layer shows, computed by its own search. *)
Definition view s (k : list Z) : option (list Z) :=
  match search_slot k (Z.of_nat KL) (home n k) s with
  | Ok (r, _) => entry_value s r
  | Fault _ => None
  end.

Lemma view_spec ts s k : tab_ok n ts s → length k = KL → ∃ r, finds KL (tbl s) k (home n k) r ∧ view s k = entry_value s r.
Proof using key_range.
  intros T Hk. pose proof (wp_search_slot KL n key_range ts s k (home n k) T ltac:(lia) ltac:(by eapply home_range)) as Hw.
  apply wp_Ok in Hw as (r & s' & E & -> & Hf). exists r. rewrite <- Hk, take_ge in Hf by done. rewrite <- Hk.
  split; [by rewrite Hk in *|]. unfold view. by rewrite E.
Qed.

Lemma shows_view ts cap s : kv_inv ts cap s → shows s (view s).
Proof using key_range. intros I k Hk. by eapply view_spec; [apply I|]. Qed.

(** The key is gone, and every other key has its value or none. *)
Lemma shows_delete ts cap s X k x :
  kv_inv ts cap s → shows s X → length k = KL → finds KL (tbl s) k (home n k) (Some x) →
  let s' := with_tbl s (aset (tbl s) x no_entry) in
  shows s' (view s') ∧ view s' k = None ∧ ∀ k', length k' = KL → view s' k' = X k' ∨ view s' k' = None.
Proof using key_range.
  intros INV HX Hl Hf s'. destruct (finds_some _ _ _ _ _ Hf) as (e & He & Hfe & Hke).
  pose proof (aget_inv _ _ _ He) as Hr. pose proof (tb_len _ _ _ (proj1 (ki_tab _ _ _ INV))) as Hlen.
  assert (kv_inv ts cap s') as INV' by (apply inv_delete; [done|lia]).
  split; [by eapply shows_view|].
  assert (∀ k' r, length k' = KL → finds KL (tbl s) k' (home n k') r →
    r ≠ Some x ∧ view s' k' = entry_value s r ∨ view s' k' = None) as C.
  { intros k' r Hk' Hfr. destruct (view_spec ts s' k' (ki_tab _ _ _ INV') Hk') as (r' & Hr' & ->).
    destruct (finds_delete KL (tbl s) x k' _ r Hr Hfr) as [[Hne Hd]|Hd].
    - left. split; [done|]. rewrite (finds_unique _ _ _ _ _ _ Hr' Hd). destruct r as [y|]; [|done]. simpl. cbn.
      rewrite aget_aset_ne by congruence. done.
    - right. by rewrite (finds_unique _ _ _ _ _ _ Hr' Hd). }
  split; [destruct (C k _ Hl Hf) as [[? _]|]; done|].
  intros k' Hk'. destruct (HX k' Hk') as (r & Hfr & ->). destruct (C k' r Hk' Hfr) as [[_ ->]|]; [by left|by right].
Qed.

(** A table that is read the same. *)
Lemma inv_same_table ts cap s t :
  kv_inv ts cap (with_tbl s t) → alen t = alen (tbl s) → (∀ x, aget t x = aget (tbl s) x) → kv_inv ts cap s.
Proof using key_range.
  intros [[[T1 T2 T3 T4 T5 T6] K2] K3 K4 K5 K6 K7] Hl Hg. cbn in *.
  split; try done; cbn in *.
  - split; [split|done]; try done; cbn in *.
    + congruence.
    + intros x e. rewrite <- Hg. apply T3.
    + intros x e. rewrite <- Hg. apply T4.
    + intros x e. rewrite <- Hg. apply T5.
    + intros x e e'. rewrite <- !Hg. apply T6.
  - intros x e. rewrite <- Hg. apply K6.
  - intros x x' e e' y. rewrite <- !Hg. apply K7.
Qed.

Lemma shows_same_table s t X :
  shows (with_tbl s t) X → (∀ x, aget t x = aget (tbl s) x) → shows s X.
Proof using key_range.
  intros HX Hg k Hk. destruct (HX k Hk) as (r & Hr & ->). exists r. split.
  - eapply finds_ext; [|exact Hr]. intros x e. cbn. rewrite Hg. intros He. by exists e.
  - destruct r as [x|]; [|done]. simpl. cbn. by rewrite Hg.
Qed.

(** ** The commands on one key *)

Definition key_arg (cmd : nvme_kv_command) : list Z := take KL (kc_key cmd).

Record key_ok (cmd : nvme_kv_command) : Prop := {
  ko_len : cmd_key_length cmd = Z.of_nat KL;
  ko_key : (KL ≤ length (kc_key cmd))%nat;
}.

(** A command the layer can serve: its pages are usable; a new value has a slot and
    space; a value that replaces another has its length, or is shorter and both are
    small. *)
Record kv_cmd_ok s X (cmd : nvme_kv_command) : Prop := {
  kc_ok_key : key_ok cmd;
  kc_ok_store : kc_opcode cmd = nvme_cmd_kv_store →
    pages_ok s nvme_cmd_write cmd (cmd_value_length cmd) ∧
    match X (key_arg cmd) with
    | None => a_room (ks_alloc s) [cmd_value_length cmd] ∧ 0 < free_slots s
    | Some old => cmd_value_length cmd = Z.of_nat (length old) ∨
        cmd_value_length cmd ≤ Z.of_nat (length old) ≤ SMALL_LENGTH
    end;
  kc_ok_retrieve v : kc_opcode cmd = nvme_cmd_kv_retrieve → X (key_arg cmd) = Some v →
    pages_ok s nvme_cmd_read cmd (Z.min (Z.of_nat (length v)) (cmd_value_length cmd));
}.

(** The specification: [input] are the bytes of the command's pages, [r] result and
    status.  A deletion removes its key and may lose other keys. *)
Definition kv_spec (cmd : nvme_kv_command) (status : Z) (input : list Z) X (r : Z * Z) X' : Prop :=
  let k := key_arg cmd in
  let op := kc_opcode cmd in
  if op =? nvme_cmd_kv_store then r = (0, status) ∧ X' = put_key X k (Some input)
  else if op =? nvme_cmd_kv_retrieve then
    X' = X ∧ r = match X k with
                 | None => (0, KV_ERR_KEY_NOT_EXIST)
                 | Some v => (Z.min (Z.of_nat (length v)) (cmd_value_length cmd), status)
                 end
  else if op =? nvme_cmd_kv_exist then
    X' = X ∧ r = (0, match X k with Some _ => status | None => KV_ERR_KEY_NOT_EXIST end)
  else if op =? nvme_cmd_kv_delete then
    match X k with
    | None => X' = X ∧ r = (0, KV_ERR_KEY_NOT_EXIST)
    | Some _ => r = (0, status) ∧ X' k = None ∧ ∀ k', length k' = KL → X' k' = X k' ∨ X' k' = None
    end
  else X' = X ∧ r = (0, status).

(** What a retrieval leaves in the host's pages. *)
Definition delivered s (cmd : nvme_kv_command) X (r : Z * Z) s' : Prop :=
  kc_opcode cmd = nvme_cmd_kv_retrieve → ∀ v, X (key_arg cmd) = Some v →
  ∀ t, 0 ≤ t < fst r → v !! Z.to_nat t = Some (ks_mem s' (host_addr_of s cmd (fst r) t)).

Lemma value_length_range cmd : 0 ≤ cmd_value_length cmd < 2 ^ 32.
Proof using key_range. apply u32_range. Qed.

Lemma length_key_arg cmd : key_ok cmd → length (key_arg cmd) = KL.
Proof using key_range. intros [_ Hk]. unfold key_arg. rewrite length_take. lia. Qed.

(** Storing under a new key. *)
Lemma wp_store_new ts cap s X cmd (status : Z) :
  kv_inv ts cap s → shows s X → kv_cmd_ok s X cmd → kc_opcode cmd = nvme_cmd_kv_store → X (key_arg cmd) = None →
  let len := cmd_value_length cmd in
  wp (new_offset ← allocate_mem_offset cmd;
      kv_copy nvme_cmd_write cmd storage new_offset len ;;
      _ ← new_mapping_entry cfg cmd new_offset;
      mret (0, status)) s
    (λ r s', r = (0, status) ∧ ∃ ts' cap', kv_inv ts' cap' s' ∧
       shows s' (put_key X (key_arg cmd) (Some (host_value s cmd len)))).
Proof using key_range.
  intros INV HX [Hk Hst _] Hop Hnone len. destruct (Hst Hop) as [Hp Hroom]. rewrite Hnone in Hroom.
  destruct Hroom as [Hroom Hfree]. pose proof (value_length_range cmd) as Hl. fold len in Hl, Hp, Hroom.
  pose proof (length_key_arg cmd Hk) as Hlk.
  wp_step. unfold allocate_mem_offset. rewrite (proj2 (Z.eqb_eq _ _) Hop). wp_step. unfold on_alloc. wp_step.
  eapply wp_mono; [by eapply (a_allocate size); [exact Hl|apply INV|exact Hroom]|].
  intros off a' (Ha & _ & Ho & Hsz & Hol & Hmore & Hnew).
  rewrite (proj2 (Z.eqb_neq off NONE64)) by (unfold NONE64; lia). wp_step. wp_step.
  set (s1 := KvSt (ks_ftl s) a' (ks_mem s) (ks_heap s)).
  eapply wp_mono; [apply (wp_copy_in s1 cmd off len); [exact Hp|lia..]|]. intros [] s2 (m & -> & Hm & Hv).
  wp_step. unfold new_mapping_entry. rewrite (ko_len _ Hk).
  destruct (free_slot ts s (ki_tab _ _ _ INV) Hfree) as (f & ef & Hf & Hff).
  pose proof (shows_found s X (key_arg cmd) HX Hlk) as Hfnd. rewrite Hnone in Hfnd.
  eapply wp_mono.
  { eapply (wp_new_mapping_entry cfg KL n key_range ts (with_mem s1 m) (kc_key cmd) (cmd_value_length cmd) off f ef);
      [apply INV|apply Hk|exact Hfnd|exact Hf|exact Hff|done|unfold NONE64; lia|fold len; lia]. }
  intros r s3 (N & new & oT & -> & I & Hkey & Eo & El & Hfin). wp_step. split; [done|].
  fold (key_arg cmd) in Hkey, Hfin. fold len in El.
  eexists _, _. split.
  - eapply (inv_insert ts cap s N new oT a' m); rewrite ?Eo, ?El; try done; lia.
  - replace (host_value s cmd len) with (map m (seqZ (storage + me_mem_offset new) (me_length new))).
    2:{ rewrite Eo, El. exact Hv. }
    eapply (shows_insert ts cap s N new oT a' m); rewrite ?Eo, ?El; try done.
Qed.

(** Storing under a key that has a value: the entry the code looked up is [ent]. *)
Lemma wp_store_again ts cap s X cmd (status : Z) ent x e :
  kv_inv ts cap s → shows s X → kv_cmd_ok s X cmd → kc_opcode cmd = nvme_cmd_kv_store →
  finds KL (tbl s) (key_arg cmd) (home n (key_arg cmd)) (Some x) → aget (tbl s) x = Some e → ¬ free e →
  X (key_arg cmd) = Some (value_at s e) → me_mem_offset ent = me_mem_offset e → me_length ent = me_length e →
  let len := cmd_value_length cmd in
  wp (kv_copy nvme_cmd_write cmd storage (me_mem_offset ent) len ;;
      when (negb (len =? me_length ent) && (len <=? SMALL_LENGTH) && (me_length ent <=? SMALL_LENGTH))
        (_ ← update_mapping_entry cmd; mret tt) ;;
      mret (0, status)) s
    (λ r s', r = (0, status) ∧ ∃ ts' cap', kv_inv ts' cap' s' ∧
       shows s' (put_key X (key_arg cmd) (Some (host_value s cmd len)))).
Proof using key_range.
  intros INV HX [Hk Hst _] Hop Hfnd He Hfe HXk -> -> len. destruct (Hst Hop) as [Hp Hroom]. rewrite HXk in Hroom.
  destruct (ki_region _ _ _ INV x e He Hfe) as (R1 & R2 & R3 & R4). rewrite length_value in Hroom by lia.
  pose proof (value_length_range cmd) as Hl. pose proof (length_key_arg cmd Hk) as Hlk. fold len in Hl, Hp, Hroom.
  set (e' := MapEntry (me_key e) (me_mem_offset e) len (me_next_slot e)).
  wp_step. eapply wp_mono; [apply (wp_copy_in s cmd); [exact Hp|lia..]|]. intros [] s2 (m & -> & Hm & Hv).
  assert (kv_inv ts cap (with_tbl (with_mem s m) (aset (tbl s) x e'))) as INV' by (apply inv_update; [done..|lia]).
  assert (shows (with_tbl (with_mem s m) (aset (tbl s) x e'))
    (put_key X (key_arg cmd) (Some (host_value s cmd len)))) as HX'.
  { rewrite <- Hv. eapply shows_update; [done..|]. intros a Ha. apply Hm. lia. }
  wp_step. wp_step.
  - wp_step. eapply wp_mono.
    { eapply (wp_update_mapping_entry KL n key_range ts (with_mem s m) cmd x e); [apply INV|apply Hk|apply Hk|done|done]. }
    intros r s3 ->. wp_steps. split; [done|]. by exists ts, cap.
  - wp_step. split; [done|]. assert (len = me_length e) as El.
    { destruct Hroom as [?|[H1 H2]]; [done|]. bool_prop.
      destruct (Z.eqb_spec len (me_length e)); [done|]. rewrite (proj2 (Z.leb_le len SMALL_LENGTH)) in H by lia.
      rewrite (proj2 (Z.leb_le (me_length e) SMALL_LENGTH)) in H by lia. done. }
    assert (e' = e) as Ee by (subst e'; rewrite El; by destruct e).
    assert (∀ y, aget (aset (tbl s) x e') y = aget (tbl (with_mem s m)) y) as Hg.
    { intros y. rewrite Ee. change (tbl (with_mem s m)) with (tbl s). pose proof (aget_inv _ _ _ He). rewrite aget_aset by done. case_decide; congruence. }
    exists ts, cap. split; [by eapply inv_same_table; [exact INV'|apply alen_aset|]|by eapply shows_same_table].
Qed.

(** Retrieving the value of a key. *)
Lemma wp_retrieve ts cap s X cmd (status : Z) ent e x :
  kv_inv ts cap s → shows s X → kv_cmd_ok s X cmd → kc_opcode cmd = nvme_cmd_kv_retrieve →
  aget (tbl s) x = Some e → ¬ free e → X (key_arg cmd) = Some (value_at s e) →
  me_mem_offset ent = me_mem_offset e → me_length ent = me_length e →
  let length := Z.min (me_length ent) (cmd_value_length cmd) in
  wp (kv_copy nvme_cmd_read cmd storage (me_mem_offset ent) length ;; mret (u32 length, status)) s
    (λ r s', r = (length, status) ∧ kv_inv ts cap s' ∧ shows s' X ∧ delivered s cmd X r s').
Proof using key_range.
  intros INV HX [Hk _ Hrt] Hop He Hfe HXk Eo El length. pose proof (Hrt _ Hop HXk) as Hp.
  destruct (ki_region _ _ _ INV x e He Hfe) as (R1 & R2 & R3 & R4). rewrite length_value in Hp by lia.
  pose proof (value_length_range cmd) as Hl. subst length. rewrite Eo, El.
  set (len := Z.min (me_length e) (cmd_value_length cmd)) in *.
  wp_step. eapply wp_mono; [apply (wp_copy_out s cmd storage); [exact Hp|lia|]|].
  { destruct Hp as [->|Hp]; [by left|]. right. apply Hp; lia. }
  intros [] s2 (m & -> & Hm & Hd). wp_step. rewrite u32_small by lia. split; [done|].
  assert (∀ y ey, aget (tbl s) y = Some ey → ¬ free ey → value_at (with_mem s m) ey = value_at s ey) as Hv.
  { intros y ey Hy Hfy. destruct (ki_region _ _ _ INV y ey Hy Hfy) as (? & ? & ? & _).
    apply value_at_frame. intros a Ha. apply Hm. unfold in_storage. lia. }
  split; [by destruct INV|]. split.
  - intros k Hlk. destruct (HX k Hlk) as (r & Hr & ->). exists r. split; [done|]. destruct r as [y|]; [|done].
    destruct (finds_some _ _ _ _ _ Hr) as (ey & Hey & Hfy & _). simpl. change (tbl (with_mem s m)) with (tbl s). rewrite Hey. simpl. f_equal.
    symmetry. by eapply Hv.
  - intros _ v Hxv t Ht. simpl in Ht. rewrite HXk in Hxv. injection Hxv as <-. cbn [fst ks_mem with_mem].
    rewrite Hd by done. unfold value_at. rewrite list_lookup_fmap, lookup_seqZ_lt by lia. simpl.
    do 2 f_equal. lia.
Qed.

(** The whole of a command on one key. *)
Lemma wp_kv_io ts cap s X cmd status :
  kv_inv ts cap s → shows s X → kv_cmd_ok s X cmd →
  wp (do_perform_kv_io cfg storage cmd status) s (λ r s', ∃ ts' cap' X',
    kv_inv ts' cap' s' ∧ shows s' X' ∧ delivered s cmd X r s' ∧
    kv_spec cmd status (host_value s cmd (cmd_value_length cmd)) X r X').
Proof using key_range.
  intros INV HX Hok. pose proof (kc_ok_key _ _ _ Hok) as Hk. pose proof (length_key_arg cmd Hk) as Hlk.
  pose proof (shows_found s X (key_arg cmd) HX Hlk) as Hfnd.
  unfold do_perform_kv_io, get_mapping_entry. rewrite (ko_len _ Hk). wp_step.
  eapply wp_mono; [by eapply (wp_get_mapping_entry KL n key_range ts s); [apply INV|apply Hk]|].
  intros ent s' [-> Hent]. fold (key_arg cmd) in Hent. cbv zeta.
  (* the entry looked up is that of the map *)
  assert (match X (key_arg cmd) with
    | None => (me_mem_offset ent =? NONE64) = true
    | Some v => (me_mem_offset ent =? NONE64) = false ∧ ∃ x e,
        finds KL (tbl s) (key_arg cmd) (home n (key_arg cmd)) (Some x) ∧ aget (tbl s) x = Some e ∧ ¬ free e ∧
        v = value_at s e ∧ me_mem_offset ent = me_mem_offset e ∧ me_length ent = me_length e
    end) as Hcase.
  { destruct (X (key_arg cmd)) as [v|] eqn:EX.
    - destruct Hfnd as (x & e & Hf & He & Hfe & ->).
      destruct (me_mem_offset ent =? NONE64); [by pose proof (finds_unique _ _ _ _ _ _ Hf Hent)|].
      split; [done|]. destruct Hent as (x' & e1 & Hf' & He' & E1 & E2).
      pose proof (finds_unique _ _ _ _ _ _ Hf Hf'). simplify_eq. eauto 10.
    - destruct (me_mem_offset ent =? NONE64); [done|]. destruct Hent as (x & e & Hf & _).
      by pose proof (finds_unique _ _ _ _ _ _ Hf Hfnd). }
  unfold kv_spec. destruct (Z.eqb_spec (kc_opcode cmd) nvme_cmd_kv_store) as [Hop|Hop].
  { assert (∀ r s', delivered s cmd X r s') as Hdel by (intros r s' Hr; by rewrite Hop in Hr).
    destruct (X (key_arg cmd)) as [v|] eqn:EX.
    - destruct Hcase as (-> & x & e & Hf & He & Hfe & -> & Eo & El). cbn [negb].
      eapply wp_mono; [by eapply wp_store_again|]. intros r s' (-> & ts' & cap' & ? & ?). by eexists ts', cap', _.
    - rewrite Hcase. cbn [negb]. eapply wp_mono; [by eapply wp_store_new|].
      intros r s' (-> & ts' & cap' & ? & ?). by eexists ts', cap', _. }
  destruct (Z.eqb_spec (kc_opcode cmd) nvme_cmd_kv_retrieve) as [Hop2|Hop2].
  { destruct (X (key_arg cmd)) as [v|] eqn:EX.
    - destruct Hcase as (-> & x & e & Hf & He & Hfe & -> & Eo & El). cbn [negb].
      eapply wp_mono; [by eapply wp_retrieve|]. intros r s' (-> & ? & ? & ?). exists ts, cap, X. split_and!; try done.
      destruct (ki_region _ _ _ INV x e He Hfe) as (_ & _ & ? & _). by rewrite length_value, El by lia.
    - rewrite Hcase. cbn [negb]. wp_step. exists ts, cap, X. split_and!; try done. intros _ v. by rewrite EX. }
  assert (∀ r s', delivered s cmd X r s') as Hdel by (intros r s' Hr; done).
  destruct (kc_opcode cmd =? nvme_cmd_kv_exist).
  { wp_step. exists ts, cap, X. split_and!; try done. destruct (X (key_arg cmd)); [by destruct Hcase as [-> _]|by rewrite Hcase]. }
  destruct (kc_opcode cmd =? nvme_cmd_kv_delete); [|wp_step; by exists ts, cap, X].
  destruct (X (key_arg cmd)) as [v|] eqn:EX.
  - destruct Hcase as (-> & x & e & Hf & He & Hfe & -> & Eo & El). cbn [negb]. wp_step.
    eapply wp_mono; [eapply (wp_delete_mapping_entry KL n key_range ts s cmd x); [apply INV|apply Hk|apply Hk|done]|].
    intros r s' ->. wp_step. destruct (shows_delete ts cap s X (key_arg cmd) x INV HX Hlk Hf) as (V1 & V2 & V3).
    eexists ts, cap, _. split; [|split; [exact V1|by split_and!]].
    apply inv_delete; [done|]. pose proof (aget_inv _ _ _ He). by rewrite (tb_len _ _ _ (proj1 (ki_tab _ _ _ INV))) in *.
  - rewrite Hcase. cbn [negb]. wp_step. by exists ts, cap, X.
Qed.
End io.
