(* ===== verification/KvIter.v ===== *)
(** * Iterators of the key-value layer

    A read of an iterator delivers the keys of the next occupied slots whose first
    four bytes agree with the prefix under the mask, at most 51 of them, and leaves
    the iterator behind the last slot it has dealt with. *)

From Stdlib Require Import ZArith Lia.
From stdpp Require Import base numbers list gmap.
From S2P Require Import Prelude Config Bytes ChannelModel Nvme Dma IoData SimpleFtl Alloc KvFtl KvTable KvOps KvIo.

#[local] Open Scope Z_scope.

Section bytes.
Context {A : Type} `{AO : !AllocatorOps A} `{AL : !AllocatorLaws A} `{KM : !Kmalloc}.
Implicit Types (s : kvst A) (h : kv_iter_context).

(** ** What a read delivers *)

Definition slot_matches h (t : arr mapping_entry) (x : Z) : bool :=
  match aget t x with Some e => iter_matches h e | None => false end.

(** The matching slots in [lo .. hi - 1]. *)
Definition matching h (t : arr mapping_entry) (lo hi : Z) : list Z :=
  filter (λ x, slot_matches h t x = true) (seqZ lo (hi - lo)).

Definition slot_key (t : arr mapping_entry) (x : Z) : list Z :=
  match aget t x with Some e => take 16 (me_key e) | None => [] end.

(** The bytes for the keys of a list of slots, and the whole buffer. *)
Definition key_bytes (t : arr mapping_entry) (xs : list Z) : list Z :=
  mjoin (map (λ x, le_split 4 16 ++ slot_key t x) xs).
Definition iter_bytes (t : arr mapping_entry) (xs : list Z) : list Z :=
  le_split 4 (Z.of_nat (length xs)) ++ key_bytes t xs.

Lemma matching_step h t lo p :
  lo ≤ p → matching h t lo (p + 1) = matching h t lo p ++ if slot_matches h t p then [p] else [].
Proof using.
  intros Hp. unfold matching. replace (p + 1 - lo) with ((p - lo) + 1) by lia. rewrite seqZ_app by lia.
  rewrite filter_app. f_equal. replace (lo + (p - lo)) with p by lia.
  replace (seqZ p 1) with [p] by done.
  destruct (slot_matches h t p) eqn:E; [by rewrite filter_cons_True|]. rewrite filter_cons_False; [done|by rewrite E].
Qed.

Lemma matching_split h t lo p hi :
  lo ≤ p ≤ hi → matching h t lo hi = matching h t lo p ++ matching h t p hi.
Proof using.
  intros Hp. unfold matching. replace (hi - lo) with ((p - lo) + (hi - p)) by lia. rewrite seqZ_app by lia.
  rewrite filter_app. do 2 f_equal. f_equal. lia.
Qed.

Lemma matching_nil h t p : matching h t p p = [].
Proof using. unfold matching. by rewrite Z.sub_diag. Qed.

Lemma key_bytes_app t xs ys : key_bytes t (xs ++ ys) = key_bytes t xs ++ key_bytes t ys.
Proof using. unfold key_bytes. by rewrite map_app, join_app. Qed.

(** ** Stores to memory *)

Definition mem_bytes (m : mem) (a : Z) (l : list Z) : Prop := map m (seqZ a (Z.of_nat (length l))) = l.

Lemma mem_bytes_get m a l i : mem_bytes m a l → 0 ≤ i < Z.of_nat (length l) → l !! Z.to_nat i = Some (m (a + i)).
Proof using.
  intros H Hi. rewrite <- H, list_lookup_fmap, lookup_seqZ_lt by lia. simpl. do 2 f_equal. lia.
Qed.

Lemma mem_bytes_intro m a l :
  (∀ i, 0 ≤ i < Z.of_nat (length l) → l !! Z.to_nat i = Some (m (a + i))) → mem_bytes m a l.
Proof using.
  intros H. apply list_eq. intros i. rewrite list_lookup_fmap.
  destruct (decide (i < length l)%nat) as [Hi|Hi].
  - rewrite lookup_seqZ_lt by lia. simpl. specialize (H (Z.of_nat i) ltac:(lia)). rewrite Nat2Z.id in H. by rewrite H.
  - rewrite lookup_seqZ_ge by lia. by rewrite lookup_ge_None_2 by lia.
Qed.

Lemma mem_bytes_app m a l l' :
  mem_bytes m a l → mem_bytes m (a + Z.of_nat (length l)) l' → mem_bytes m a (l ++ l').
Proof using.
  intros H H'. unfold mem_bytes. rewrite length_app, Nat2Z.inj_add, seqZ_app by lia. by rewrite map_app, H, H'.
Qed.

Lemma mem_bytes_frame m m' a l :
  mem_bytes m a l → (∀ x, a ≤ x < a + Z.of_nat (length l) → m' x = m x) → mem_bytes m' a l.
Proof using.
  intros H Hx. unfold mem_bytes in *. rewrite <- H at 2. apply map_ext_in.
  intros x Hin%list_elem_of_In%elem_of_seqZ. apply Hx. lia.
Qed.

Lemma wp_mem_store s dst bytes (Q : unit → kvst A → Prop) :
  (∀ m, mem_bytes m dst bytes →
     (∀ a, ¬ (dst ≤ a < dst + Z.of_nat (length bytes)) → m a = ks_mem s a) → Q tt (with_mem s m)) →
  wp (mem_store dst bytes) s Q.
Proof using.
  intros HQ. unfold mem_store, on_mem. wp_step. wp_step. apply HQ.
  - apply mem_bytes_intro. intros i Hi. rewrite (proj2 (Z.leb_le _ _)), (proj2 (Z.ltb_lt _ _)) by lia. cbn [andb].
    replace (dst + i - dst) with i by lia. apply list_lookup_lookup_total_lt. lia.
  - intros a Ha. destruct (Z.leb_spec dst a), (Z.ltb_spec a (dst + Z.of_nat (length bytes))); simpl; done || lia.
Qed.
End bytes.

(** ** The loop over the table *)

Section iter.
Context {A : Type} `{AO : !AllocatorOps A} `{AL : !AllocatorLaws A} `{KM : !Kmalloc}.
Context (n : Z).
Implicit Types (s : kvst A) (h : kv_iter_context) (ts : Z → Z).

(** What the loop leaves: where it stopped and what is in the buffer. *)
Record collected h s (p0 pos nr : Z) (m : mem) : Prop := {
  co_range : p0 ≤ pos ≤ n;
  co_nr : nr = Z.of_nat (length (matching h (tbl s) p0 pos));
  co_max : nr ≤ 51;
  co_len : Z.of_nat (length (key_bytes (tbl s) (matching h (tbl s) p0 pos))) = 20 * nr;
  co_bytes : mem_bytes m (it_buf h + 4) (key_bytes (tbl s) (matching h (tbl s) p0 pos));
  co_frame a : ¬ (it_buf h ≤ a < it_buf h + 1024) → m a = ks_mem s a;
}.

Lemma collected_skip h s p0 pos nr m :
  collected h s p0 pos nr m → pos < n → slot_matches h (tbl s) pos = false → collected h s p0 (pos + 1) nr m.
Proof using.
  intros [C1 C2 C3 C4 C5 C6] Hp Hm.
  assert (matching h (tbl s) p0 (pos + 1) = matching h (tbl s) p0 pos) as E
    by (rewrite matching_step, Hm by lia; apply app_nil_r).
  split; rewrite ?E; try done. lia.
Qed.

Lemma collected_more h s p0 pos nr m m1 m2 e :
  collected h s p0 pos nr m → pos < n → nr < 51 → aget (tbl s) pos = Some e → length (me_key e) = 18%nat →
  iter_matches h e = true →
  mem_bytes m1 (it_buf h + (4 + 20 * nr)) (le_split 4 16) →
  (∀ a, ¬ (it_buf h + (4 + 20 * nr) ≤ a < it_buf h + (4 + 20 * nr) + 4) → m1 a = m a) →
  mem_bytes m2 (it_buf h + (4 + 20 * nr + 4)) (take 16 (me_key e)) →
  (∀ a, ¬ (it_buf h + (4 + 20 * nr + 4) ≤ a < it_buf h + (4 + 20 * nr + 4) + 16) → m2 a = m1 a) →
  collected h s p0 (pos + 1) (nr + 1) m2.
Proof using.
  intros [C1 C2 C3 C4 C5 C6] Hp Hn He Hk Hm M1 F1 M2 F2.
  assert (slot_matches h (tbl s) pos = true) as Hsm by (unfold slot_matches; by rewrite He).
  assert (matching h (tbl s) p0 (pos + 1) = matching h (tbl s) p0 pos ++ [pos]) as E
    by (by rewrite matching_step, Hsm by lia).
  assert (key_bytes (tbl s) [pos] = le_split 4 16 ++ take 16 (me_key e)) as Ek.
  { unfold key_bytes. simpl. unfold slot_key. by rewrite He, app_nil_r. }
  assert (length (take 16 (me_key e)) = 16%nat) as Hl by (rewrite length_take, Hk; lia).
  split; rewrite ?E, ?key_bytes_app, ?Ek, ?length_app; try lia.
  - simpl. lia.
  - rewrite Hl, length_le_split. lia.
  - apply mem_bytes_app.
    + eapply mem_bytes_frame; [exact C5|]. intros x Hx. rewrite F2, F1 by lia. done.
    + rewrite C4. apply mem_bytes_app.
      * replace (it_buf h + 4 + 20 * nr) with (it_buf h + (4 + 20 * nr)) by lia.
        eapply mem_bytes_frame; [exact M1|]. intros x Hx. rewrite length_le_split in Hx. apply F2. lia.
      * rewrite length_le_split.
        by replace (it_buf h + 4 + 20 * nr + Z.of_nat 4) with (it_buf h + (4 + 20 * nr + 4)) by lia.
  - intros a Ha. rewrite F2, F1 by lia. by apply C6.
Qed.

Lemma wp_iter_collect ts s h :
  tab_ok n ts s → 0 ≤ it_current_pos h ≤ n →
  wp (iter_collect h) s (λ '(pos, buf_offset, nr, end_) s', ∃ m, s' = with_mem s m ∧
    collected h s (it_current_pos h) pos nr m ∧ buf_offset = 4 + 20 * nr ∧
    (if end_ then pos = n ∧ it_current_pos h < n
     else pos = n ∧ it_current_pos h = n ∨ pos < n ∧ nr = 51 ∧ slot_matches h (tbl s) pos = true)).
Proof using.
  intros [T Hs] Hp. set (p0 := it_current_pos h) in *. pose proof T as [T1 T2 T3 _ _ _].
  unfold iter_collect, get_hash_slots. wp_steps. rewrite Hs.
  apply (wp_while (λ '(pos, bo, nr) s', ∃ m, s' = with_mem s m ∧ collected h s p0 pos nr m ∧ bo = 4 + 20 * nr ∧
    (pos = n → p0 = n)) (λ '(pos, _, _), n - pos)).
  - exists (ks_mem s). split; [by destruct s|]. split_and!; [|lia|done].
    split; rewrite ?matching_nil; try done; lia.
  - fold p0. lia.
  - intros [[pos bo] nr] s' (m & -> & C & -> & Hpn). pose proof (co_range _ _ _ _ _ _ C) as Hr. split; [lia|].
    destruct (Z.ltb_spec pos n) as [Hlt|Hge]; cbn [negb].
    2:{ wp_step. exists m. split_and!; try done. left. split; [lia|]. apply Hpn. lia. }
    destruct (aget_some (tbl s) pos) as [e He]; [lia|]. wp_step. apply (wp_get_entry _ _ e); [done|]. wp_step.
    (* after the slot was dealt with *)
    assert (∀ nr' m', collected h s p0 (pos + 1) nr' m' →
      wp (if pos + 1 =? n then mret (inr (pos + 1, 4 + 20 * nr', nr', true))
          else mret (inl (pos + 1, 4 + 20 * nr', nr'))) (with_mem s m') (λ r s', match r with
        | inl y => (let '(p, b, k) := y in ∃ m, s' = with_mem s m ∧ collected h s p0 p k m ∧ b = 4 + 20 * k ∧ (p = n → p0 = n)) ∧
            (let '(p, _, _) := y in n - p) < n - pos
        | inr (p, b, k, end_) => ∃ m, s' = with_mem s m ∧ collected h s p0 p k m ∧ b = 4 + 20 * k ∧
            (if end_ : bool then p = n ∧ p0 < n else p = n ∧ p0 = n ∨ p < n ∧ k = 51 ∧ slot_matches h (tbl s) p = true)
        end)) as Hnext.
    { intros nr' m' C'. destruct (Z.eqb_spec (pos + 1) n); wp_step; [exists m'; split_and!; done || lia|].
      split; [|lia]. exists m'. split_and!; done || lia. }
    destruct (iter_matches h e) eqn:Hm.
    + assert (slot_matches h (tbl s) pos = true) as Hsm by (unfold slot_matches; by rewrite He).
      destruct (Z.ltb_spec 1024 (4 + 20 * nr + 4 + 16)) as [Hfull|Hroom].
      * wp_steps. exists m. pose proof (co_max _ _ _ _ _ _ C). split_and!; try done. right. split_and!; [done|lia|done].
      * wp_step. apply wp_mem_store. intros m1 M1 F1. wp_step.
        apply (wp_char_bytes (me_key e) _ 16%nat); [rewrite (T3 pos e He); lia|]. wp_step.
        apply wp_mem_store. intros m2 M2 F2. wp_step. cbv beta iota.
        replace (4 + 20 * nr + 20) with (4 + 20 * (nr + 1)) by lia.
        eapply wp_mono; [apply (Hnext (nr + 1) m2)|by intros [[[] ?]|[[[] ?] ?]]].
        rewrite length_take, (T3 pos e He) in F2. rewrite length_le_split in F1.
        eapply (collected_more h s p0 pos nr m m1 m2 e); try done; [lia|by eapply T3].
    + wp_step. cbv beta iota. eapply wp_mono; [apply (Hnext nr m)|by intros [[[] ?]|[[[] ?] ?]]].
      apply collected_skip; [done|done|]. unfold slot_matches. by rewrite He.
Qed.

(** ** The commands *)

Context (cfg : nvmev_config) (storage : Z).

Definition with_handle s (i : Z) (o : option kv_iter_context) : kvst A :=
  set_ftl (KvFtl (tbl s) (kv_hash_slots (ks_ftl s)) (aset (kv_iter_handle (ks_ftl s)) i o)) s.

Lemma wp_get_handle s i o (Q : option kv_iter_context → kvst A → Prop) :
  aget (kv_iter_handle (ks_ftl s)) i = Some o → Q o s → wp (get_handle i) s Q.
Proof using. intros Hi HQ. unfold get_handle. wp_steps. by eapply wp_aread. Qed.

Lemma wp_set_handle s i o (Q : unit → kvst A → Prop) :
  0 ≤ i < alen (kv_iter_handle (ks_ftl s)) → Q tt (with_handle s i o) → wp (set_handle i o) s Q.
Proof using. intros Hi HQ. unfold set_handle. wp_steps. apply wp_awrite; [done|]. by wp_steps. Qed.

(** The pages of an iterator read: they are not in the iterator's buffer and not in
    the storage area.  At most 1024 bytes are transferred, so no list is read. *)
Record iter_pages_ok (h : kv_iter_context) (cmd : nvme_kv_command) : Prop := {
  ip_transfer m len : 0 < len ≤ 1024 → transfer_ok m (prp_cmd nvme_cmd_read cmd) len (λ _, true) (it_buf h);
  ip_apart m len t : 0 ≤ t < len → len ≤ 1024 → ¬ in_storage cfg storage (host_addr m (prp_cmd nvme_cmd_read cmd) len t);
}.

(** What a read does: the bytes it delivers, where the iterator is afterwards and
    the status; [xs] are the slots it has delivered. *)
Record iter_read_post (h : kv_iter_context) s cmd (r : Z * Z) s' (pos : Z) (xs : list Z) : Prop := {
  ir_xs : xs = matching h (tbl s) (it_current_pos h) pos;
  ir_rest : matching h (tbl s) (it_current_pos h) n = xs ++ matching h (tbl s) pos n;
  ir_max : Z.of_nat (length xs) ≤ 51;
  ir_result : fst r = Z.of_nat (length (iter_bytes (tbl s) xs));
  ir_status : snd r = if (pos =? n) && (it_current_pos h <? n) then 0x393 else 0;
  ir_progress : it_current_pos h ≤ pos ≤ n ∧ (pos < n → Z.of_nat (length xs) = 51);
  ir_delivered t : 0 ≤ t < fst r → iter_bytes (tbl s) xs !! Z.to_nat t
    = Some (ks_mem s' (host_addr (ks_mem s) (prp_cmd nvme_cmd_read cmd) (fst r) t));
  ir_state : s' = with_handle (with_mem s (ks_mem s')) (kc_iter_handle cmd)
    (Some (IterContext (it_prefix h) (it_bitmask h) (it_buf h) pos));
  ir_storage a : in_storage cfg storage a → ks_mem s' a = ks_mem s a;
}.

(** Transfers without a list of entries do not look at memory. *)
Lemma host_addr_short m m' cmd len t : len ≤ PAGE_SIZE → host_addr m cmd len t = host_addr m' cmd len t.
Proof using.
  intros Hl. unfold host_addr, prp_at, uses_list, rest_len, first_len.
  pose proof (Z.mod_pos_bound (c_prp1 cmd) PAGE_SIZE ltac:(reflexivity)).
  rewrite (proj2 (Z.ltb_ge PAGE_SIZE _)) by lia. done.
Qed.

Lemma wp_kv_iter_read ts s h cmd status :
  tab_ok n ts s → aget (kv_iter_handle (ks_ftl s)) (kc_iter_handle cmd) = Some (Some h) →
  handle_ok cfg storage n h → iter_pages_ok h cmd →
  wp (kv_iter_read cmd status) s (λ r s', ∃ pos xs, iter_read_post h s cmd r s' pos xs).
Proof using.
  intros T Hh [Hp Hb] [I1 I2]. pose proof (aget_inv _ _ _ Hh) as Hhr. unfold kv_iter_read. wp_step.
  apply (wp_get_handle _ _ (Some h)); [done|]. wp_step.
  eapply wp_mono; [by eapply wp_iter_collect|]. intros [[[pos bo] nr] end_] s1 (m & -> & C & -> & Hend).
  destruct C as [C1 C2 C3 C4 C5 C6]. set (xs := matching h (tbl s) (it_current_pos h) pos) in *.
  wp_step. apply wp_mem_store. intros m1 M1 F1. wp_step. apply wp_set_handle; [done|].
  rewrite length_le_split in F1. set (s1 := with_handle _ _ _).
  assert (mem_bytes m1 (it_buf h) (iter_bytes (tbl s) xs)) as Mb.
  { unfold iter_bytes. rewrite <- C2. apply mem_bytes_app; [done|]. rewrite length_le_split.
    eapply mem_bytes_frame; [exact C5|]. intros x Hx. apply F1. lia. }
  assert (Z.of_nat (length (iter_bytes (tbl s) xs)) = 4 + 20 * nr) as Lb.
  { unfold iter_bytes. rewrite length_app, length_le_split. lia. }
  assert (0 ≤ nr) as Hnr by lia. wp_step. unfold kv_copy, on_mem. wp_step.
  pose proof (I1 m1 (4 + 20 * nr) ltac:(lia)) as TR. rewrite <- (Z.add_0_r (it_buf h)) in TR.
  eapply wp_mono; [by apply (wp_prp_copy _ _ _ _ _ _ TR)|]. intros [] m2 Tr. unfold transferred in Tr. cbn in Tr.
  destruct Tr as [Tr1 Tr2]. wp_step. exists pos, xs. split; try done.
  - apply matching_split. lia.
  - lia.
  - simpl. destruct end_; [destruct Hend as [-> Hend]|destruct Hend as [[-> Hend]|[Hend _]]].
    + by rewrite Z.eqb_refl, (proj2 (Z.ltb_lt _ _)).
    + by rewrite Hend, Z.eqb_refl, Z.ltb_irrefl.
    + by rewrite (proj2 (Z.eqb_neq pos n)) by lia.
  - split; [lia|]. intros Hlt. destruct end_; [lia|]. lia.
  - intros t Ht. cbn [fst] in *. rewrite (host_addr_short (ks_mem s) m1) by (unfold PAGE_SIZE; lia).
    cbn [ks_mem]. rewrite Tr1 by done. rewrite (mem_bytes_get m1 (it_buf h)) by (done || lia). do 2 f_equal. lia.
  - intros a Ha. cbn [ks_mem]. rewrite Tr2.
    + rewrite F1; [apply C6|]; intros Hin; apply (Hb a); lia || done.
    + intros t Ht ->. apply (I2 m1 (4 + 20 * nr) t); lia || done.
Qed.

(** The first free handle. *)
Lemma wp_free_handle s ids :
  Forall (λ i, 0 ≤ i < alen (kv_iter_handle (ks_ftl s))) ids →
  wp (free_handle ids) s (λ o s', s' = s ∧
    match o with
    | Some i => i ∈ ids ∧ aget (kv_iter_handle (ks_ftl s)) i = Some None
    | None => ∀ i, i ∈ ids → ∃ h, aget (kv_iter_handle (ks_ftl s)) i = Some (Some h)
    end).
Proof using.
  induction ids as [|i ids IH]; intros Hr; simpl; [wp_step; split; [done|]; set_solver|].
  apply Forall_cons in Hr as [Hi Hr]. destruct (aget_some (kv_iter_handle (ks_ftl s)) i Hi) as [o Ho].
  wp_step. apply (wp_get_handle _ _ o); [done|]. destruct o as [h|].
  - eapply wp_mono; [by apply IH|]. intros [j|] s' [-> Hj]; (split; [done|]).
    + destruct Hj. split; [by right|done].
    + intros k [->|Hk]%elem_of_cons; [by exists h|by apply Hj].
  - wp_step. split; [done|]. split; [by left|done].
Qed.

(** The heap of the kernel is not in the storage area. *)
Hypothesis heap_apart : ∀ i len a, kmalloc i len ≤ a < kmalloc i len + len → ¬ in_storage cfg storage a.

(** Opening takes a free handle, if one of 1 to 16 is free; its iterator is at the
    first slot. *)
Lemma wp_kv_iter_open s cmd status :
  alen (kv_iter_handle (ks_ftl s)) = 17 → 0 ≤ n →
  wp (kv_iter_open cmd status) s (λ r s',
    (∃ i h, 1 ≤ i ≤ 16 ∧ aget (kv_iter_handle (ks_ftl s)) i = Some None ∧ r = (i, 0) ∧
       h = IterContext (kc_iter_val cmd) (kc_iter_bitmask cmd) (kmalloc (ks_heap s + 1) 32768) 0 ∧
       handle_ok cfg storage n h ∧
       s' = with_handle (KvSt (ks_ftl s) (ks_alloc s) (ks_mem s) (ks_heap s + 1 + 1)) i (Some h)) ∨
    (∀ i, 1 ≤ i ≤ 16 → ∃ h, aget (kv_iter_handle (ks_ftl s)) i = Some (Some h)) ∧ r = (1, status) ∧ s' = s).
Proof using heap_apart.
  intros Hl Hn. unfold kv_iter_open. wp_step. eapply wp_mono.
  { apply wp_free_handle. apply Forall_forall. intros i Hi%elem_of_seqZ. lia. }
  intros [i|] s' [-> Hi].
  - destruct Hi as [Hi%elem_of_seqZ Hf]. wp_step. unfold wp at 1, do_kmalloc. wp_step.
    unfold wp at 1. cbn [ks_ftl ks_alloc ks_mem ks_heap]. wp_step. apply wp_set_handle; [cbn; lia|]. wp_step. left.
    eexists i, _. split; [lia|]. split_and!; try done. split; simpl; [lia|]. by apply heap_apart.
  - wp_step. right. split_and!; try done. intros i Hi'. apply Hi, elem_of_seqZ. lia.
Qed.

Lemma wp_kv_iter_close s cmd status :
  0 ≤ kc_iter_handle cmd < alen (kv_iter_handle (ks_ftl s)) →
  wp (kv_iter_close cmd status) s (λ r s', r = (0, 0) ∧
    (s' = s ∧ aget (kv_iter_handle (ks_ftl s)) (kc_iter_handle cmd) = Some None ∨
     s' = with_handle s (kc_iter_handle cmd) None)).
Proof using.
  intros Hi. unfold kv_iter_close. destruct (aget_some _ _ Hi) as [o Ho]. wp_step.
  apply (wp_get_handle _ _ o); [done|]. wp_step. destruct o as [h|].
  - apply wp_set_handle; [done|]. wp_step. auto.
  - by wp_steps; auto.
Qed.

(** ** Iterators leave the map alone *)

Context (KL : nat).

Lemma inv_handle ts cap s i o :
  kv_inv cfg storage n ts cap s → (∀ h, o = Some h → handle_ok cfg storage n h) →
  kv_inv cfg storage n ts cap (with_handle s i o).
Proof using.
  intros [K1 K2 K3 K4 K5 K6] Ho. split; try done; cbn.
  - by rewrite alen_aset.
  - intros j h. destruct (decide (0 ≤ i < alen (kv_iter_handle (ks_ftl s)))) as [Hi|Hi].
    + rewrite aget_aset by done. case_decide; [intros [= ->]; by apply Ho|by apply K4].
    + rewrite aset_oob by done. by apply K4.
Qed.

Lemma inv_mem ts cap s m : kv_inv cfg storage n ts cap s → kv_inv cfg storage n ts cap (with_mem s m).
Proof using. by intros [K1 K2 K3 K4 K5 K6]. Qed.

Lemma inv_heap ts cap s (i : Z) :
  kv_inv cfg storage n ts cap s → kv_inv cfg storage n ts cap (KvSt (ks_ftl s) (ks_alloc s) (ks_mem s) i).
Proof using. by intros [K1 K2 K3 K4 K5 K6]. Qed.

(** The map depends only on the table and the storage area. *)
Lemma shows_storage ts cap s s' X :
  kv_inv cfg storage n ts cap s → shows storage KL n s X → tbl s' = tbl s →
  (∀ a, in_storage cfg storage a → ks_mem s' a = ks_mem s a) → shows storage KL n s' X.
Proof using.
  intros INV HX Ht Hm k Hk. destruct (HX k Hk) as (r & Hr & ->). exists r. rewrite Ht. split; [done|].
  destruct r as [x|]; [|done]. destruct (finds_some _ _ _ _ _ Hr) as (e & He & Hf & _). simpl. rewrite Ht, He. simpl.
  f_equal. symmetry. unfold value_at. apply map_ext_in. intros a Ha%list_elem_of_In%elem_of_seqZ. apply Hm.
  destruct (ki_region _ _ _ _ _ _ INV x e He Hf) as (? & ? & ? & _). unfold in_storage. lia.
Qed.
End iter.
