(* ===== verification/KvBatch.v ===== *)
(** * Batches of the key-value layer

    A batch is one payload of up to eight pairs: a head with the kind and the sizes of
    each, then the keys and values at multiples of 64 bytes.  The payload is copied
    into a buffer of the kernel and its pairs are stored one after the other. *)

From Stdlib Require Import ZArith Lia.
From stdpp Require Import base numbers list gmap.
From S2P Require Import Prelude Config Bytes ChannelModel Nvme Dma IoData SimpleFtl Alloc KvFtl KvTable KvOps KvIo KvIter.

#[local] Open Scope Z_scope.

(** ** The pairs of a payload

    [p] are the bytes of the payload. *)

Definition pay_bytes (p : Z → Z) (off len : Z) : list Z := map p (seqZ off len).
Definition pay_attr (p : Z → Z) (i : Z) : Z * Z * Z :=
  (p (16 * i), p (16 * i + 1), s32 (le_combine (pay_bytes p (16 * i + 4) 4))).

(** The pairs with numbers [ids], the first of them at [off]. *)
Fixpoint batch_pairs (p : Z → Z) (ids : list Z) (off : Z) : list (list Z * list Z) :=
  match ids with
  | [] => []
  | i :: ids' =>
      let '(op, kl, vl) := pay_attr p i in
      (pay_bytes p (SUB_PAYLOAD + off) kl, pay_bytes p (SUB_PAYLOAD + off + align_up kl) vl)
        :: batch_pairs p ids' (off + align_up kl + align_up vl + ALIGN_LEN)
  end.

Definition put_pairs (X : list Z → option (list Z)) (l : list (list Z * list Z)) : list Z → option (list Z) :=
  foldl (λ X kv, put_key X kv.1 (Some kv.2)) X l.

(** A payload of [length] bytes the layer can serve: stores only, keys of the common
    length, everything inside the payload, and a pair for a key that has a value has
    a value of the same length. *)
Fixpoint batch_ok (KL : nat) (p : Z → Z) (length_ : Z) (ids : list Z) (off : Z) (X : list Z → option (list Z)) : Prop :=
  match ids with
  | [] => True
  | i :: ids' =>
      let '(op, kl, vl) := pay_attr p i in
      let k := pay_bytes p (SUB_PAYLOAD + off) kl in
      let v := pay_bytes p (SUB_PAYLOAD + off + align_up kl) vl in
      (0 ≤ i < MAX_SUB_CMD ∧ 16 * (i + 1) ≤ length_ ∧ op = nvme_cmd_kv_store ∧ kl = Z.of_nat KL ∧ 0 ≤ vl ≤ 4096 ∧
       0 ≤ off ∧ SUB_PAYLOAD + off + kl ≤ length_ ∧ SUB_PAYLOAD + off + align_up kl + vl ≤ length_) ∧
      (∀ old, X k = Some old → Z.of_nat (length old) = vl) ∧
      batch_ok KL p length_ ids' (off + align_up kl + align_up vl + ALIGN_LEN) (put_key X k (Some v))
  end.

Section batch.
Context {A : Type} `{AO : !AllocatorOps A} `{AL : !AllocatorLaws A} `{KM : !Kmalloc}.
Context (cfg : nvmev_config) (storage : Z) (KL : nat) (n : Z).
#[local] Abbreviation size := (cfg_storage_size cfg).
#[local] Abbreviation inv := (kv_inv cfg storage n).
#[local] Abbreviation shows_map := (shows storage KL n).
Hypothesis key_range : (1 ≤ KL ≤ 16)%nat.
Implicit Types (s : kvst A) (k : list Z) (ts cap : Z → Z) (X : list Z → option (list Z)).

(** What storing one pair keeps: room for the others, and memory outside the storage. *)
Record stored s s' (lens : list Z) : Prop := {
  sd_room : a_room (ks_alloc s') lens;
  sd_slots : free_slots n s - 1 ≤ free_slots n s';
  sd_mem a : ¬ in_storage cfg storage a → ks_mem s' a = ks_mem s a;
  sd_heap : ks_heap s' = ks_heap s;
}.

Lemma wp_batched_store ts cap s X key value vl lens :
  inv ts cap s → shows_map s X → (KL ≤ length key)%nat → (vl ≤ length value)%nat → (vl ≤ 4096)%nat →
  a_room (ks_alloc s) (Z.of_nat vl :: lens) → 0 < free_slots n s →
  (∀ old, X (take KL key) = Some old → length old = vl) →
  wp (do_perform_kv_batched_io cfg storage nvme_cmd_kv_store key (Z.of_nat KL) value (Z.of_nat vl)) s
    (λ _ s', stored s s' lens ∧ ∃ ts' cap', inv ts' cap' s' ∧
       shows_map s' (put_key X (take KL key) (Some (take vl value)))).
Proof using key_range.
  intros INV HX Hk Hv Hv2 Hroom Hfree Hold. set (k := take KL key) in *.
  assert (length k = KL) as Hlk by (subst k; rewrite length_take; lia).
  assert (length (take vl value) = vl) as Hlv by (rewrite length_take; lia).
  pose proof (shows_found storage KL n key_range s X k HX Hlk) as Hfnd.
  unfold do_perform_kv_batched_io. wp_step.
  eapply wp_mono; [by eapply (wp_get_mapping_entry KL n key_range ts s key); [apply INV|]|].
  intros ent s' [-> Hent]. fold k in Hent. change (nvme_cmd_kv_store =? nvme_cmd_kv_store) with true. cbv iota.
  destruct (me_mem_offset ent =? NONE64) eqn:Ee.
  - assert (X k = None) as EX.
    { destruct (X k); [|done]. destruct Hfnd as (x & e & Hf & _). by pose proof (finds_unique _ _ _ _ _ _ Hf Hent). }
    wp_step. unfold allocate_mem_offset_by_length. wp_step. unfold on_alloc. wp_step. rewrite u64_small by lia.
    eapply wp_mono; [by eapply (a_allocate size); [|apply INV|exact Hroom]; lia|].
    intros off a' (Ha & Hr' & Ho & Hsz & Hol & Hmore & Hnew).
    rewrite (proj2 (Z.eqb_neq off NONE64)) by (unfold NONE64; lia). wp_step. wp_step.
    apply wp_char_bytes; [done|]. wp_step. apply wp_mem_store. intros m Mb Mf. rewrite Hlv in Mf.
    unfold mem_bytes in Mb. rewrite Hlv in Mb. cbn [ks_mem] in Mf.
    destruct (free_slot KL n key_range ts s (ki_tab _ _ _ _ _ _ INV) Hfree) as (f & ef & Hf & Hff).
    set (s1 := with_mem _ m).
    eapply wp_mono.
    { eapply (wp_new_mapping_entry cfg KL n key_range ts s1 key (Z.of_nat vl) off f ef);
        [apply INV|done|exact Hent|exact Hf|exact Hff|done|unfold NONE64; lia|lia]. }
    intros r s3 (N & new & oT & -> & I & Hkey & Eo & El & Hfin). fold k in Hkey, Hfin.
    split.
    + split; cbn; try done.
      * change (free_slots n s - 1 ≤ free_slots n
          (with_tbl (KvSt (ks_ftl s) a' m (ks_heap s)) (insert_at (tbl s) N new oT))).
        rewrite (free_slots_insert cfg storage KL n key_range ts cap s N new oT a' m INV I). lia.
      * intros a Hna. apply Mf. unfold in_storage in Hna. lia.
    + eexists _, _. split.
      * eapply (inv_insert cfg storage KL n key_range ts cap s N new oT a' m); rewrite ?Eo, ?El; try done; lia.
      * replace (take vl value) with (map m (seqZ (storage + me_mem_offset new) (me_length new)))
          by (by rewrite Eo, El).
        eapply (shows_insert cfg storage KL n key_range ts cap s N new oT a' m); rewrite ?Eo, ?El; try done.
  - destruct Hent as (x & e & Hf & He & Eo & _).
    assert (X k = Some (value_at storage s e)) as EX.
    { destruct (X k); [|by pose proof (finds_unique _ _ _ _ _ _ Hf Hfnd)].
      destruct Hfnd as (x' & e' & Hf' & He' & _ & ->). pose proof (finds_unique _ _ _ _ _ _ Hf Hf'). by simplify_eq. }
    destruct (finds_some _ _ _ _ _ Hf) as (e1 & He1 & Hfe & _). simplify_eq.
    destruct (ki_region _ _ _ _ _ _ INV x e He Hfe) as (R1 & R2 & R3 & R4). specialize (Hold _ EX).
    assert (me_length e = Z.of_nat vl) as El by (rewrite <- Hold; by rewrite (length_value storage KL key_range) by lia).
    wp_step. apply wp_char_bytes; [done|]. wp_step. rewrite Eo. apply wp_mem_store. intros m Mb Mf. wp_step.
    rewrite Hlv in Mf. unfold mem_bytes in Mb. rewrite Hlv in Mb.
    set (e' := MapEntry (me_key e) (me_mem_offset e) (Z.of_nat vl) (me_next_slot e)).
    assert (e' = e) as Ee' by (subst e'; rewrite <- El; by destruct e).
    assert (∀ y, aget (aset (tbl s) x e') y = aget (tbl (with_mem s m)) y) as Hg.
    { intros y. rewrite Ee'. change (tbl (with_mem s m)) with (tbl s). pose proof (aget_inv _ _ _ He).
      rewrite aget_aset by done. case_decide; congruence. }
    split.
    + split; cbn; try done.
      * by eapply a_room_less.
      * change (free_slots n (with_mem s m)) with (free_slots n s). lia.
      * intros a Hna. apply Mf. unfold in_storage in Hna. lia.
    + exists ts, cap. split.
      * by apply inv_mem.
      * eapply (shows_same_table storage KL n key_range); [|exact Hg]. rewrite <- Mb.
        eapply (shows_update cfg storage KL n key_range); [done..|]. intros a Hna. apply Mf. lia.
Qed.

(** ** The loop over the pairs *)

(** The buffer at [buf] holds the payload and is not in the storage area. *)
Definition holds_payload (m : mem) (buf length_ : Z) (p : Z → Z) : Prop :=
  ∀ j, 0 ≤ j < length_ → m (buf + j) = p j ∧ ¬ in_storage cfg storage (buf + j).

Lemma holds_bytes m buf length_ p off len :
  holds_payload m buf length_ p → 0 ≤ off → off + len ≤ length_ → map m (seqZ (buf + off) len) = pay_bytes p off len.
Proof using key_range.
  intros H Ho Hl. unfold pay_bytes. apply list_eq. intros i. rewrite !list_lookup_fmap.
  destruct (decide (i < Z.to_nat len)%nat) as [Hi|Hi].
  - rewrite !lookup_seqZ_lt by lia. simpl. f_equal.
    destruct (H (Z.of_nat i + off)) as [E _]; [lia|]. replace (off + Z.of_nat i) with (Z.of_nat i + off) by lia.
    rewrite <- E. f_equal. lia.
  - rewrite !lookup_seqZ_ge by lia. done.
Qed.

Lemma holds_attr m buf length_ p i :
  holds_payload m buf length_ p → 0 ≤ i → 16 * (i + 1) ≤ length_ → batch_attr m buf i = pay_attr p i.
Proof using key_range.
  intros H Hi Hl. unfold batch_attr, pay_attr. f_equal; [f_equal|].
  - apply H. lia.
  - rewrite <- Z.add_assoc. apply H. lia.
  - do 2 f_equal. rewrite <- Z.add_assoc. apply (holds_bytes m buf length_); [done|lia..].
Qed.

Lemma wp_buffer_bytes s buf length_ p off len (Q : list Z → kvst A → Prop) :
  holds_payload (ks_mem s) buf length_ p → 0 ≤ off → 0 ≤ len → off + len ≤ length_ →
  Q (pay_bytes p off len) s → wp (buffer_bytes buf length_ off len) s Q.
Proof using key_range.
  intros H Ho Hl Hle HQ. unfold buffer_bytes. rewrite !(proj2 (Z.leb_le _ _)) by lia. cbn [andb].
  unfold mem_load, on_mem. wp_step. wp_step. rewrite (holds_bytes _ _ length_ p) by done. by destruct s.
Qed.

Lemma length_pay p off len : 0 ≤ len → Z.of_nat (length (pay_bytes p off len)) = len.
Proof using key_range. intros Hl. unfold pay_bytes. rewrite length_map, length_seqZ. lia. Qed.

(** The lengths of the values. *)
Definition pair_lens (l : list (list Z * list Z)) : list Z := map (λ kv, Z.of_nat (length kv.2)) l.

Lemma wp_batch_items ids off ts cap s X buf length_ p :
  inv ts cap s → shows_map s X → holds_payload (ks_mem s) buf length_ p →
  batch_ok KL p length_ ids off X →
  a_room (ks_alloc s) (pair_lens (batch_pairs p ids off)) → Z.of_nat (length ids) ≤ free_slots n s →
  wp (batch_items cfg storage buf length_ ids off) s (λ _ s', ∃ ts' cap', inv ts' cap' s' ∧
    shows_map s' (put_pairs X (batch_pairs p ids off))).
Proof using key_range.
  revert off ts cap s X. induction ids as [|i ids IH]; intros off ts cap s X INV HX Hp Hok Hroom Hfree;
    cbn [batch_items batch_pairs batch_ok] in *.
  { wp_step. by exists ts, cap. }
  rewrite length_cons in Hfree.
  destruct (pay_attr p i) as [[op kl] vl] eqn:Ea.
  destruct Hok as ((Hi & Hi2 & -> & -> & Hvl & Hoff & Hb1 & Hb2) & Hold & Hok).
  set (k := pay_bytes p (SUB_PAYLOAD + off) (Z.of_nat KL)) in *.
  set (v := pay_bytes p (SUB_PAYLOAD + off + align_up (Z.of_nat KL)) vl) in *.
  assert (length k = KL) as Hlk by (apply Nat2Z.inj, length_pay; lia).
  assert (Z.of_nat (length v) = vl) as Hlv by (apply length_pay; lia).
  assert (0 ≤ align_up (Z.of_nat KL)) as Hau.
  { unfold align_up, ALIGN_LEN. pose proof (Z.quot_pos (Z.of_nat KL - 1) 64). lia. }
  wp_step. rewrite (proj2 (Z.ltb_lt _ _)), (proj2 (Z.leb_le _ _)) by lia. cbn [andb]. wp_step. wp_step. unfold on_mem.
  wp_step. wp_step. rewrite (holds_attr _ _ length_ p i) by (done || lia). rewrite Ea.
  replace (KvSt (ks_ftl s) (ks_alloc s) (ks_mem s) (ks_heap s)) with s by by destruct s.
  wp_step. eapply wp_buffer_bytes; [exact Hp|unfold SUB_PAYLOAD in *; lia..|]. fold k.
  wp_step. apply wp_char_copy; [lia|simpl; lia|].
  wp_step. eapply wp_buffer_bytes; [exact Hp|unfold SUB_PAYLOAD in *; lia..|]. fold v.
  wp_step. rewrite <- Hlv at 1. apply wp_char_copy; [lia|rewrite length_replicate; lia|].
  rewrite !take_ge by lia. wp_step. rewrite <- Hlv at 1.
  set (key := k ++ _). set (value := v ++ _).
  assert (take KL key = k) as Hkey by (subst key; by rewrite take_app_length').
  assert (take (length v) value = v) as Hval by (subst value; by rewrite take_app_length).
  eapply wp_mono.
  { apply (wp_batched_store ts cap s X key value (length v) (pair_lens (batch_pairs p ids
      (off + align_up (Z.of_nat KL) + align_up vl + ALIGN_LEN)))); try done.
    - subst key. rewrite length_app. lia.
    - subst value. rewrite length_app. lia.
    - lia.
    - lia.
    - rewrite Hkey. intros old Ho. specialize (Hold old Ho). lia. }
  intros _ s' ([S1 S2 S3 _] & ts' & cap' & INV' & HX'). rewrite Hkey, Hval in HX'.
  eapply (IH _ ts' cap' s' _ INV' HX'); [|exact Hok|exact S1|lia].
  intros j Hj. destruct (Hp j Hj) as [E Hn]. split; [|done]. by rewrite S3.
Qed.

(** ** The command *)

Hypothesis heap_apart : ∀ i len a, kmalloc i len ≤ a < kmalloc i len + len → ¬ in_storage cfg storage a.

(** The payload in the host's pages. *)
Definition payload s (cmd : nvme_kv_command) : Z → Z :=
  λ j, ks_mem s (host_addr_of s cmd (cmd_value_length cmd) j).

Record batch_cmd_ok s X (cmd : nvme_kv_command) : Prop := {
  bc_count : 0 ≤ kc_rsvd4 cmd;
  bc_pages : transfer_ok (ks_mem s) (prp_cmd nvme_cmd_write cmd) (cmd_value_length cmd) (λ _, true)
    (kmalloc (ks_heap s + 1) (cmd_value_length cmd));
  bc_batch : batch_ok KL (payload s cmd) (cmd_value_length cmd) (seqZ 0 (kc_rsvd4 cmd)) ALIGN_LEN X;
  bc_room : a_room (ks_alloc s) (pair_lens (batch_pairs (payload s cmd) (seqZ 0 (kc_rsvd4 cmd)) ALIGN_LEN));
  bc_slots : kc_rsvd4 cmd ≤ free_slots n s;
}.

Definition batch_of s (cmd : nvme_kv_command) : list (list Z * list Z) :=
  batch_pairs (payload s cmd) (seqZ 0 (kc_rsvd4 cmd)) ALIGN_LEN.

Lemma wp_kv_batch ts cap s X cmd status :
  inv ts cap s → shows_map s X → batch_cmd_ok s X cmd →
  wp (do_perform_kv_batch cfg storage cmd status) s (λ r s', r = (0, status) ∧ ∃ ts' cap',
    inv ts' cap' s' ∧ shows_map s' (put_pairs X (batch_of s cmd))).
Proof using key_range heap_apart.
  intros INV HX [B1 TR B3 B4 B5]. unfold do_perform_kv_batch. wp_step. unfold wp at 1, do_kmalloc. wp_step.
  unfold wp at 1. cbn [ks_ftl ks_alloc ks_mem ks_heap]. set (len := cmd_value_length cmd) in *.
  set (buf := kmalloc (ks_heap s + 1) len) in *. set (s1 := KvSt _ _ _ _).
  wp_step. unfold kv_copy, on_mem. wp_step. rewrite <- (Z.add_0_r buf) in TR.
  eapply wp_mono; [by apply (wp_prp_copy _ _ _ _ _ _ TR)|]. intros [] m T. unfold transferred in T. cbn in T.
  rewrite Z.add_0_r in T. wp_step. set (s2 := KvSt _ _ m _).
  assert (inv ts cap s2) as INV2 by by destruct INV.
  eapply wp_mono; [apply (wp_batch_items _ _ ts cap s2 X buf len (payload s cmd)); try done|].
  - eapply (shows_storage n cfg storage KL ts cap s s2 X); [done|done|done|].
    intros a Ha. cbn. rewrite T, decide_False; [done|]. intros Hin. by apply (heap_apart (ks_heap s + 1) len a).
  - intros j Hj. split; [|apply (heap_apart (ks_heap s + 1) len); lia].
    cbn. rewrite T, decide_True by lia. unfold payload, host_addr_of. fold len. do 2 f_equal. lia.
  - rewrite length_seqZ, Z2Nat.id by done. done.
  - intros [] s' (ts' & cap' & ? & ?). wp_step. split; [done|]. by exists ts', cap'.
Qed.
End batch.
