(* ===== verification/KvProps.v ===== *)
(** * Properties of the key-value layer *)

From Stdlib Require Import ZArith Lia.
From stdpp Require Import base numbers list gmap.
From S2P Require Import Prelude Config Bytes ChannelModel Nvme Dma IoData SimpleFtl Alloc KvFtl KvTable KvOps KvIo KvIter KvBatch.

#[local] Open Scope Z_scope.

(** The slots of the shipped table. *)
Definition SLOTS : Z := KV_MAPPING_TABLE_SIZE / KV_MAPPING_ENTRY_SIZE.

Section device.
Context {A : Type} `{AO : !AllocatorOps A} `{AL : !AllocatorLaws A} `{KM : !Kmalloc}.
Context (cfg : nvmev_config) (storage : Z) (KL : nat).
Implicit Types (s : kvst A) (X : list Z → option (list Z)) (cmd : nvme_kv_command).
#[local] Abbreviation inv := (kv_inv cfg storage SLOTS).
#[local] Abbreviation shows_map := (shows storage KL SLOTS).

(** The commands the layer can serve in a state that shows [X]. *)
Definition iter_cmd_ok s cmd : Prop :=
  (is_kv_iter_read_cmd (kc_opcode cmd) = true ∨ Z.land (kc_option cmd) ITER_OPTION_OPEN = 0 →
     0 ≤ kc_iter_handle cmd < 17) ∧
  (is_kv_iter_read_cmd (kc_opcode cmd) = true →
     ∀ h, aget (kv_iter_handle (ks_ftl s)) (kc_iter_handle cmd) = Some (Some h) → iter_pages_ok cfg storage h cmd).

Definition command_ok s X cmd : Prop :=
  if is_kv_batch_cmd (kc_opcode cmd) then batch_cmd_ok KL SLOTS s X cmd
  else if is_kv_iter_cmd (kc_opcode cmd) then iter_cmd_ok s cmd
  else kv_cmd_ok cfg storage KL SLOTS s X cmd.

(** What a command answers and which map it leaves. *)
Definition command_spec s cmd (status : Z) X (r : Z * Z) X' : Prop :=
  if is_kv_batch_cmd (kc_opcode cmd) then r = (0, status) ∧ X' = put_pairs X (batch_of s cmd)
  else if is_kv_iter_cmd (kc_opcode cmd) then X' = X
  else kv_spec KL cmd status (host_value s cmd (cmd_value_length cmd)) X r X'.

(** The states of a new layer after commands it can serve. *)
Inductive kv_reachable : kvst A → Prop :=
| kv_reach_init a m heap id size ns s ns' :
    a_static a → kv_init_namespace cfg None a m heap id size ns = Ok (s, ns') → kv_reachable s
| kv_reach_cmd s X cmd status r s' :
    kv_reachable s → shows_map s X → command_ok s X cmd →
    kv_perform_nvme_io_cmd cfg storage cmd status s = Ok (r, s') → kv_reachable s'.

Hypothesis key_range : (1 ≤ KL ≤ 16)%nat.
Hypothesis size_range : 0 < cfg_storage_size cfg < 2 ^ 36.
Hypothesis heap_apart : ∀ i len a, kmalloc i len ≤ a < kmalloc i len + len → ¬ in_storage cfg storage a.

Lemma SLOTS_range : 0 < SLOTS < NONE32.
Proof using. by vm_compute. Qed.

Lemma kv_init_ok a m heap id size ns :
  a_static a → ∃ s ns', kv_init_namespace cfg None a m heap id size ns = Ok (s, ns') ∧
    inv (λ _, 0) (λ _, 0) s ∧ shows_map s (λ _, None) ∧ ns_csi ns' = NVME_CSI_NVM ∧ free_slots SLOTS s = SLOTS ∧
    ks_mem s = m ∧ ks_heap s = heap + 1.
Proof using key_range size_range.
  intros Ha. pose proof (a_init _ _ size_range Ha) as Hw. apply wp_Ok in Hw as (r & a' & E & _ & Hi & _).
  unfold kv_init_namespace. rewrite E. eexists _, _. split; [reflexivity|]. fold SLOTS.
  set (e0 := MapEntry (replicate 18 0) NONE64 NONE64 NONE32).
  pose proof SLOTS_range as HS. revert HS. generalize SLOTS. intros N HS.
  assert (∀ x e, aget (anew N e0) x = Some e → e = e0) as He0.
  { intros x e. rewrite aget_anew. case_decide; [by intros [= <-]|done]. }
  split_and!; try done.
  - split; try done.
    + split; [split|done]; try done.
      * intros x e ->%He0. done.
      * intros x e ->%He0. done.
      * intros x e ->%He0 []. done.
      * intros x e e' ->%He0 []. done.
    + intros i h. change (aget (aset (anew 17 None) 16 None) i = Some (Some h) → handle_ok cfg storage N h).
      rewrite aget_aset by (cbn; lia). rewrite aget_anew. repeat case_decide; done.
    + intros x e ->%He0 []. done.
    + intros x x' e e' y ->%He0 []. done.
  - intros k Hk. exists None. split; [|done]. eapply finds_free.
    + cbn. rewrite aget_anew, decide_True; [done|]. apply Z.mod_pos_bound. lia.
    + done.
  - unfold free_slots. rewrite cnt_all; [by rewrite length_seqZ, Z2Nat.id by lia|].
    intros x Hx%elem_of_seqZ. unfold occupied. cbn. rewrite aget_anew, decide_True by lia. done.
Qed.

(** Every command, in any state that satisfies the invariant. *)
Lemma wp_perform ts cap s X cmd status :
  inv ts cap s → shows_map s X → command_ok s X cmd →
  wp (kv_perform_nvme_io_cmd cfg storage cmd status) s (λ r s', ∃ ts' cap' X',
    inv ts' cap' s' ∧ shows_map s' X' ∧ command_spec s cmd status X r X' ∧ delivered KL s cmd X r s').
Proof using key_range heap_apart.
  intros INV HX Hok. unfold kv_perform_nvme_io_cmd, command_ok, command_spec, delivered in *.
  destruct (is_kv_batch_cmd (kc_opcode cmd)) eqn:Eb.
  { unfold is_kv_batch_cmd in Eb. bool_prop. rewrite Eb.
    eapply wp_mono; [by eapply wp_kv_batch|]. intros r s' (-> & ts' & cap' & ? & ?).
    by exists ts', cap', (put_pairs X (batch_of s cmd)). }
  destruct (is_kv_iter_cmd (kc_opcode cmd)) eqn:Ei.
  2:{ eapply wp_mono; [by eapply wp_kv_io|]. intros r s' (ts' & cap' & X' & ? & ? & ? & ?). by exists ts', cap', X'. }
  assert (kc_opcode cmd ≠ nvme_cmd_kv_retrieve) as Hnr by (intros E; by rewrite E in Ei).
  assert (∀ s' (r : Z * Z), (inv ts cap s' ∧ shows_map s' X) → ∃ ts' cap' X', inv ts' cap' s' ∧ shows_map s' X' ∧ X' = X ∧
    (kc_opcode cmd = nvme_cmd_kv_retrieve → ∀ v, X (key_arg KL cmd) = Some v →
     ∀ t, 0 ≤ t < r.1 → v !! Z.to_nat t = Some (ks_mem s' (host_addr_of s cmd r.1 t)))) as Hdone.
  { intros s' r [? ?]. by exists ts, cap, X. }
  destruct Hok as [Ho1 Ho2]. unfold do_perform_kv_iter_io.
  pose proof (ki_handles _ _ _ _ _ _ INV) as Hh. pose proof SLOTS_range.
  destruct (is_kv_iter_req_cmd (kc_opcode cmd)) eqn:Eq.
  - destruct (Z.eqb_spec (Z.land (kc_option cmd) ITER_OPTION_OPEN) 0) as [Eo|Eo]; cbn [negb].
    + destruct (Z.eqb_spec (Z.land (kc_option cmd) ITER_OPTION_CLOSE) 0); cbn [negb]; [wp_step; by apply Hdone|].
      eapply wp_mono; [apply wp_kv_iter_close; rewrite Hh; auto|].
      intros r s' (-> & [[-> _]| ->]); [by apply Hdone|]. apply Hdone. split; [by apply inv_handle|].
      by eapply (shows_storage SLOTS cfg storage KL ts cap s).
    + eapply wp_mono; [by apply (wp_kv_iter_open SLOTS cfg storage heap_apart); [|lia]|].
      intros r s' [(i & h & _ & _ & _ & _ & Hok & ->)|(_ & _ & ->)]; [|by apply Hdone]. apply Hdone. split.
      * apply inv_handle; [by apply inv_heap|]. by intros h' [= <-].
      * by eapply (shows_storage SLOTS cfg storage KL ts cap s).
  - unfold is_kv_iter_cmd in Ei. rewrite Eq in Ei. cbn [orb] in Ei. rewrite Ei.
    destruct (aget_some (kv_iter_handle (ks_ftl s)) (kc_iter_handle cmd)) as [[h|] Hget]; [rewrite Hh; by auto| |].
    + eapply wp_mono; [eapply (wp_kv_iter_read SLOTS cfg storage ts); [apply INV|done|by eapply INV|by apply Ho2]|].
      intros r s' (pos & xs & P). apply Hdone. rewrite (ir_state _ _ _ _ _ _ _ _ _ _ P). split.
      * apply inv_handle; [by apply inv_mem|]. intros h' [= <-]. destruct (ki_handle _ _ _ _ _ _ INV _ _ Hget) as [_ Hb].
        split; [|done]. simpl. destruct (ir_progress _ _ _ _ _ _ _ _ _ _ P). destruct (ki_handle _ _ _ _ _ _ INV _ _ Hget). lia.
      * eapply (shows_storage SLOTS cfg storage KL ts cap s); [done|done|done|]. apply P.
    + unfold kv_iter_read. wp_step. apply (wp_get_handle _ _ None); [done|]. wp_step. by apply Hdone.
Qed.

Lemma kv_reachable_inv s : kv_reachable s → ∃ ts cap, inv ts cap s.
Proof using key_range size_range heap_apart.
  induction 1 as [a m heap id size ns s ns' Ha Hi|s X cmd status r s' _ (ts & cap & INV) HX Hok Hrun].
  - destruct (kv_init_ok a m heap id size ns Ha) as (s1 & ns1 & E & INV & _). rewrite E in Hi. injection Hi as <- _. eauto.
  - pose proof (wp_perform ts cap s X cmd status INV HX Hok) as Hw. unfold wp in Hw. rewrite Hrun in Hw.
    destruct Hw as (ts' & cap' & _ & ? & _). eauto.
Qed.

(** C17: The key-value layer is a map from keys to values.  In every state reachable by
    the commands it can serve it shows a map; every such command returns (no endless
    walk along a chain, no access outside the table), is answered as the map says and
    leaves the changed map: a store puts the bytes of the host's pages under the key,
    a retrieval delivers the bytes of the value, a batch puts its pairs in order,
    iterators change nothing, and a deletion removes its key but may lose others. *)
Theorem kv_command_refines s :
  kv_reachable s → shows_map s (view storage KL SLOTS s) ∧
  ∀ X cmd status, shows_map s X → command_ok s X cmd →
    ∃ r s' X', kv_perform_nvme_io_cmd cfg storage cmd status s = Ok (r, s') ∧ kv_reachable s' ∧
      shows_map s' X' ∧ command_spec s cmd status X r X' ∧ delivered KL s cmd X r s'.
Proof using key_range size_range heap_apart.
  intros Hr. destruct (kv_reachable_inv s Hr) as (ts & cap & INV). split; [by eapply shows_view|].
  intros X cmd status HX Hok. pose proof (wp_perform ts cap s X cmd status INV HX Hok) as Hw.
  apply wp_Ok in Hw as (r & s' & E & ts' & cap' & X' & _ & HX' & Hs & Hd). exists r, s', X'.
  split_and!; try done. by eapply kv_reach_cmd.
Qed.

(** C18: What was stored is what is retrieved: after a store, a retrieval of the same
    key into pages that are long enough returns the length of the value and leaves in
    the pages the bytes the store took from its pages. *)
Theorem kv_store_retrieve s X c1 status :
  kv_reachable s → shows_map s X → kc_opcode c1 = nvme_cmd_kv_store → kv_cmd_ok cfg storage KL SLOTS s X c1 →
  let len := cmd_value_length c1 in
  ∃ s1, kv_perform_nvme_io_cmd cfg storage c1 status s = Ok ((0, status), s1) ∧
    ∀ c2, kc_opcode c2 = nvme_cmd_kv_retrieve → key_ok KL c2 → key_arg KL c2 = key_arg KL c1 →
      len ≤ cmd_value_length c2 → pages_ok cfg storage s1 nvme_cmd_read c2 len →
      ∃ s2, kv_perform_nvme_io_cmd cfg storage c2 status s1 = Ok ((len, status), s2) ∧
        ∀ t, 0 ≤ t < len → ks_mem s2 (host_addr_of s1 c2 len t) = ks_mem s (host_addr_of s c1 len t).
Proof using key_range size_range heap_apart.
  intros Hr HX Hop Hok len. destruct (kv_reachable_inv s Hr) as (ts & cap & INV).
  pose proof (value_length_range KL key_range c1) as Hlen. fold len in Hlen.
  assert (command_ok s X c1) as Hc by (unfold command_ok; by rewrite Hop).
  pose proof (wp_perform ts cap s X c1 status INV HX Hc) as Hw.
  apply wp_Ok in Hw as (r & s1 & E1 & ts1 & cap1 & X1 & INV1 & HX1 & Hs & _).
  unfold command_spec, kv_spec in Hs. rewrite Hop in Hs. cbn in Hs. destruct Hs as [-> ->].
  exists s1. split; [done|]. intros c2 Hop2 Hk2 Hkey Hl Hp. set (X1 := put_key _ _ _) in *.
  assert (X1 (key_arg KL c2) = Some (host_value s c1 len)) as Hx.
  { rewrite Hkey. subst X1. unfold put_key. by rewrite decide_True. }
  assert (Z.of_nat (length (host_value s c1 len)) = len) as Hlv
    by (unfold host_value; rewrite length_map, length_seqZ; lia).
  assert (command_ok s1 X1 c2) as Hc2.
  { unfold command_ok. rewrite Hop2. split; [done|by rewrite Hop2|].
    intros v _. rewrite Hx. intros [= <-]. rewrite Hlv. by rewrite Z.min_l. }
  pose proof (wp_perform ts1 cap1 s1 X1 c2 status INV1 HX1 Hc2) as Hw.
  apply wp_Ok in Hw as (r & s2 & E2 & _ & _ & X2 & _ & _ & Hs & Hd).
  unfold command_spec, kv_spec in Hs. rewrite Hop2 in Hs. cbn in Hs. rewrite Hx, Hlv, Z.min_l in Hs by done.
  destruct Hs as [_ ->]. exists s2. split; [done|]. intros t Ht. specialize (Hd Hop2 _ Hx t Ht). cbn [fst] in Hd.
  unfold host_value in Hd. rewrite list_lookup_fmap, lookup_seqZ_lt in Hd by lia. simpl in Hd.
  injection Hd as Hd. rewrite <- Hd. do 2 f_equal. lia.
Qed.

(** A read of an open iterator delivers the 16-byte keys of the next matching
    slots, at most 51, with their number in front; slots delivered now and slots that
    are left make up the slots that were left before, so successive reads list every
    matching slot exactly once; the status tells when the table is finished; table,
    space and values are not changed. *)
Theorem kv_iter_read_ok s cmd status h :
  kv_reachable s → kc_opcode cmd = nvme_cmd_kv_iter_read →
  aget (kv_iter_handle (ks_ftl s)) (kc_iter_handle cmd) = Some (Some h) → iter_pages_ok cfg storage h cmd →
  ∃ r s' pos xs, kv_perform_nvme_io_cmd cfg storage cmd status s = Ok (r, s') ∧
    iter_read_post SLOTS cfg storage h s cmd r s' pos xs.
Proof using key_range size_range heap_apart.
  intros Hr Hop Hh Hp. destruct (kv_reachable_inv s Hr) as (ts & cap & INV).
  pose proof (wp_kv_iter_read SLOTS cfg storage ts s h cmd status (ki_tab _ _ _ _ _ _ INV) Hh
    (ki_handle _ _ _ _ _ _ INV _ _ Hh) Hp) as Hw.
  apply wp_Ok in Hw as (r & s' & E & pos & xs & P). exists r, s', pos, xs. split; [|done].
  unfold kv_perform_nvme_io_cmd, do_perform_kv_iter_io. rewrite Hop. exact E.
Qed.
End device.

(** A store of a new key never returns when the table is full: the search for a
    free slot goes round the table for ever. *)
Theorem kv_full_table_hangs {A : Type} (cfg : nvmev_config) (KL : nat) (n : Z) ts (s : kvst A) key val_len off :
  (1 ≤ KL ≤ 16)%nat → tab_ok n ts s → free_slots n s = 0 → (KL ≤ length key)%nat →
  0 ≤ off < cfg_storage_size cfg →
  new_mapping_entry_by_key cfg key (Z.of_nat KL) val_len off s = Fault HANG.
Proof.
  intros Hkl T Hfull Hk Hoff. pose proof T as [[T1 T2 T3 T4 T5 T6] Hs]. unfold NONE32 in T2.
  assert (∀ x, 0 ≤ x < n → ∃ e, aget (tbl s) x = Some e ∧ ¬ free e) as Hocc.
  { intros x Hx. destruct (aget_some (tbl s) x) as [e He]; [lia|]. exists e. split; [done|]. intros Hf.
    pose proof (cnt_zero _ _ x Hfull ltac:(apply elem_of_seqZ; lia)) as Hz. cbn beta in Hz.
    by rewrite (occupied_false (tbl s) x e) in Hz. }
  set (h := home n (take KL key)). assert (0 ≤ h < n) as Hh by by eapply home_range.
  destruct (Hocc h Hh) as (eh & Heh & Hfh). unfold new_mapping_entry_by_key.
  apply (bind_Ok _ _ _ (λ _ s', s' = s)); [apply wp_assert; [apply Z.ltb_lt; lia|done]|]. intros [] s0 ->.
  apply (bind_Ok _ _ _ (λ x s', x = h ∧ s' = s)); [by eapply wp_get_hash_slot|].
  intros x s0 [-> ->].
  apply (bind_Ok _ _ _ (λ x s', x = eh ∧ s' = s)); [by apply (wp_get_entry _ _ eh)|].
  intros x s0 [-> ->].
  apply bind_Fault. destruct (Z.eqb_spec (me_mem_offset eh) NONE64); [done|]. unfold find_next_slot, get_hash_slots.
  apply (bind_Ok _ _ _ (λ x s', x = n ∧ s' = s)); [by apply wp_gets|]. intros x s0 [-> ->].
  eapply bind_Ok; [by eapply (wp_tail KL n Hkl ts s h eh)|]. intros prevs s0 [-> Ht].
  apply bind_Fault. apply (while_hangs (λ x s', s' = s ∧ 0 ≤ x < n)).
  - intros x s0 [-> Hx]. destruct (Hocc x Hx) as (e & He & Hf).
    eexists _, s. split.
    + apply (bind_Ok _ _ _ (λ x s', x = e ∧ s' = s)); [by apply (wp_get_entry _ _ e)|].
      intros y s0 [-> ->]. rewrite (proj2 (Z.eqb_neq _ _) Hf). reflexivity.
    + rewrite u32_small by lia. split; [done|]. destruct (Z.leb_spec n (x + 1)); lia.
  - split; [done|]. destruct (tail_occupied _ _ _ Ht) as (e & He & _). apply aget_inv in He. lia.
Qed.

(** ** A small device: 64 MiB of storage at 1 GiB, the host's page at 4096 *)

Module KvDemo.
#[global] Instance heap : Kmalloc | 100 := λ i _, 2 ^ 40 + Z.abs i * 65536.
#[global] Instance clock : Clock | 100 := λ _, 0.
Definition cfg : nvmev_config := default_config (MB 64).
Definition storage : Z := 2 ^ 30.

(** Two keys with the same home slot. *)
Definition k1 : list Z := [50; 55; 98; 97].
Definition k2 : list Z := [53; 53; 52; 102].
Lemma same_home : home SLOTS k1 = home SLOTS k2 ∧ k1 ≠ k2.
Proof. by vm_compute. Qed.

Definition cmd (op : Z) (k : list Z) (value_len : Z) : nvme_kv_command :=
  KvCommand op 4096 0 value_len 3 0 0 (k ++ replicate 12 0).
Definition memory : mem := λ a, a mod 256.
Definition start : kvst append_only :=
  KvSt (KvFtl (anew SLOTS (MapEntry (replicate 18 0) NONE64 NONE64 NONE32)) SLOTS (aset (anew 17 None) 16 None))
    (AppendOnly 0 (MB 64) 0) memory 1.

Lemma start_new : kv_init_namespace cfg None (AppendOnly 0 0 0) memory 0 0 (MB 64) (Ns 0 0 0 0) =
  Ok (start, Ns 0 NVME_CSI_NVM (MB 64) 0).
Proof. reflexivity. Qed.

Lemma key_range : (1 ≤ 4 ≤ 16)%nat.
Proof. lia. Qed.
Lemma size_range : 0 < cfg_storage_size cfg < 2 ^ 36.
Proof. by vm_compute. Qed.
Lemma heap_apart i len a : kmalloc i len ≤ a < kmalloc i len + len → ¬ in_storage cfg storage a.
Proof.
  unfold kmalloc, heap, in_storage, storage, cfg. change (cfg_storage_size _) with (2 ^ 26). lia.
Qed.

(** Transfers between one page and anything above 1 GiB. *)
Lemma pages op c m len B :
  kc_prp1 c = 4096 → 0 < len ≤ 4096 → 2 ^ 30 ≤ B → transfer_ok m (prp_cmd op c) len (λ _, true) B.
Proof.
  intros Hp Hl HB.
  assert (first_len (prp_cmd op c) len = len) as F
    by (unfold first_len, PAGE_SIZE; simpl; rewrite Hp; change (4096 mod 4096) with 0; lia).
  assert (nr_prps (prp_cmd op c) len = 1) as N by (unfold nr_prps, rest_len; rewrite F, Z.sub_diag; reflexivity).
  assert (uses_list (prp_cmd op c) len = false) as U by (unfold uses_list, rest_len; rewrite F, Z.sub_diag; reflexivity).
  assert (∀ t, 0 ≤ t < len → host_addr m (prp_cmd op c) len t = 4096 + t) as H.
  { intros t Ht. unfold host_addr. rewrite F, (proj2 (Z.ltb_lt t len)) by lia. simpl. lia. }
  split; rewrite ?N, ?U; try done.
  - lia.
  - intros i Hi. replace i with 0 by lia. cbn. lia.
  - intros i Hi. lia.
  - intros t Ht. rewrite H by done. lia.
  - intros t u Ht Hu. rewrite !H by done. lia.
Qed.

Lemma static_alloc : a_static (AppendOnly 0 0 0).
Proof. exact I. Qed.

Lemma start_facts : kv_reachable cfg storage 4 start ∧ shows storage 4 SLOTS start (λ _, None) ∧
  free_slots SLOTS start = SLOTS.
Proof.
  destruct (kv_init_ok cfg storage 4 key_range size_range (AppendOnly 0 0 0) memory 0 0 (MB 64) (Ns 0 0 0 0) static_alloc)
    as (s & ns & E & _ & HX & _ & Hf & _).
  rewrite start_new in E. injection E as <- <-.
  split; [|split; [exact HX|exact Hf]]. exact (kv_reach_init cfg storage 4 _ _ _ _ _ _ _ _ static_alloc start_new).
Qed.

(** Storing four bytes is possible in the new device. *)
Lemma store_ok k : length k = 4%nat → kv_cmd_ok cfg storage 4 SLOTS start (λ _, None) (cmd nvme_cmd_kv_store k 1).
Proof.
  intros Hk. split.
  - split; [reflexivity|]. simpl. rewrite length_app, Hk. simpl. lia.
  - intros _. split; [|split].
    + right. intros B HB _. apply pages; [reflexivity|by vm_compute|exact HB].
    + split; [by vm_compute|]. apply Forall_cons. split; [by vm_compute|by apply Forall_nil].
    + rewrite (proj2 (proj2 start_facts)). apply SLOTS_range.
  - intros v H. discriminate H.
Qed.

(** The state after a command. *)
Definition after (c : nvme_kv_command) (s : kvst append_only) : kvst append_only :=
  match kv_perform_nvme_io_cmd cfg storage c 0 s with Ok (_, s') => s' | Fault _ => s end.
Fixpoint run (cs : list nvme_kv_command) (s : kvst append_only) : res (list (Z * Z)) :=
  match cs with
  | [] => Ok []
  | c :: cs' =>
      match kv_perform_nvme_io_cmd cfg storage c 0 s with
      | Ok (r, s') => match run cs' s' with Ok rs => Ok (r :: rs) | Fault e => Fault e end
      | Fault e => Fault e
      end
  end.
End KvDemo.

Lemma kv_command_refines_witness :
  ∃ r s', kv_perform_nvme_io_cmd KvDemo.cfg KvDemo.storage (KvDemo.cmd nvme_cmd_kv_store KvDemo.k1 1) 0 KvDemo.start
    = Ok (r, s') ∧ r = (0, 0) ∧ kv_reachable KvDemo.cfg KvDemo.storage 4 s' ∧
    ∃ X', shows KvDemo.storage 4 SLOTS s' X' ∧ X' KvDemo.k1 = Some [0; 1; 2; 3].
Proof.
  destruct KvDemo.start_facts as (Hr & HX & _).
  destruct (kv_command_refines KvDemo.cfg KvDemo.storage 4 KvDemo.key_range KvDemo.size_range KvDemo.heap_apart
    KvDemo.start Hr) as [_ H].
  destruct (H _ (KvDemo.cmd nvme_cmd_kv_store KvDemo.k1 1) 0 HX (KvDemo.store_ok KvDemo.k1 eq_refl))
    as (r & s' & X' & E & Hr' & HX' & [-> ->] & _).
  exists (0, 0), s'. split; [exact E|]. split; [reflexivity|]. split; [exact Hr'|].
  eexists. split; [exact HX'|]. by vm_compute.
Defined.

Lemma kv_store_retrieve_witness :
  let c1 := KvDemo.cmd nvme_cmd_kv_store KvDemo.k1 1 in
  let c2 := KvDemo.cmd nvme_cmd_kv_retrieve KvDemo.k1 1 in
  ∃ s1 s2, kv_perform_nvme_io_cmd KvDemo.cfg KvDemo.storage c1 0 KvDemo.start = Ok ((0, 0), s1) ∧
    kv_perform_nvme_io_cmd KvDemo.cfg KvDemo.storage c2 0 s1 = Ok ((4, 0), s2) ∧ ks_mem s2 4097 = 1.
Proof.
  intros c1 c2. destruct KvDemo.start_facts as (Hr & HX & _).
  destruct (kv_store_retrieve KvDemo.cfg KvDemo.storage 4 KvDemo.key_range KvDemo.size_range KvDemo.heap_apart
    KvDemo.start _ c1 0 Hr HX eq_refl (KvDemo.store_ok KvDemo.k1 eq_refl)) as (s1 & E1 & H).
  destruct (H c2) as (s2 & E2 & Hb).
  - reflexivity.
  - split; [reflexivity|]. simpl. lia.
  - reflexivity.
  - by vm_compute.
  - right. intros B HB _. change (cmd_value_length c1) with 4. apply KvDemo.pages; [reflexivity|lia|exact HB].
  - exists s1, s2. split; [exact E1|]. split; [exact E2|]. change (cmd_value_length c1) with 4 in Hb.
    specialize (Hb 1 ltac:(lia)). assert (host_addr_of s1 c2 4 1 = 4097) as E by (vm_compute; reflexivity).
    rewrite E in Hb. rewrite Hb. vm_compute. reflexivity.
Defined.

Definition open_cmd : nvme_kv_command := KvCommand nvme_cmd_kv_iter_req 4096 0 0 0 ITER_OPTION_OPEN 0 (replicate 16 0).
Definition read_cmd : nvme_kv_command := KvCommand nvme_cmd_kv_iter_read 4096 0 256 1 0 0 (replicate 16 0).

Lemma kv_iter_read_ok_witness :
  let s := KvDemo.after open_cmd KvDemo.start in
  ∃ h r s' pos xs, aget (kv_iter_handle (ks_ftl s)) 1 = Some (Some h) ∧
    kv_perform_nvme_io_cmd KvDemo.cfg KvDemo.storage read_cmd 0 s = Ok (r, s') ∧
    iter_read_post SLOTS KvDemo.cfg KvDemo.storage h s read_cmd r s' pos xs.
Proof.
  intros s. destruct KvDemo.start_facts as (Hr & HX & _).
  assert (kv_perform_nvme_io_cmd KvDemo.cfg KvDemo.storage open_cmd 0 KvDemo.start = Ok ((1, 0), s)) as E by reflexivity.
  assert (kv_reachable KvDemo.cfg KvDemo.storage 4 s) as Hs.
  { eapply kv_reach_cmd; [exact Hr|exact HX| |exact E]. split; [intros _; by vm_compute|discriminate]. }
  set (h := IterContext 0 0 (2 ^ 40 + 2 * 65536) 0).
  assert (aget (kv_iter_handle (ks_ftl s)) 1 = Some (Some h)) as Hh by reflexivity.
  destruct (kv_iter_read_ok KvDemo.cfg KvDemo.storage 4 KvDemo.key_range KvDemo.size_range KvDemo.heap_apart
    s read_cmd 0 h Hs eq_refl Hh) as (r & s' & pos & xs & E' & P).
  - split.
    + intros m len Hl. apply KvDemo.pages; [reflexivity|lia|]. subst h. cbn. lia.
    + intros m len t Ht Hl. unfold host_addr, first_len, PAGE_SIZE. cbn [prp_cmd read_cmd c_prp1 kc_prp1].
      change (4096 mod 4096) with 0. rewrite (proj2 (Z.ltb_lt _ _)) by lia.
      unfold in_storage, KvDemo.storage. lia.
  - exists h, r, s', pos, xs. split; [exact Hh|]. split; [exact E'|exact P].
Defined.

(** A table of one slot, which is taken. *)
Definition full_state : kvst append_only :=
  KvSt (KvFtl (anew 1 (MapEntry (replicate 18 7) 0 4 NONE32)) 1 (anew 17 None)) (AppendOnly 4 4096 4) KvDemo.memory 1.

Lemma kv_full_table_hangs_witness :
  new_mapping_entry_by_key KvDemo.cfg KvDemo.k1 4 4 8 full_state = Fault HANG.
Proof.
  apply (kv_full_table_hangs KvDemo.cfg 4 1 (λ _, 0) full_state KvDemo.k1 4 8).
  - lia.
  - split; [|reflexivity]. unfold full_state.
    assert (∀ x e, aget (anew 1 (MapEntry (replicate 18 7) 0 4 NONE32)) x = Some e →
      e = MapEntry (replicate 18 7) 0 4 NONE32) as H by (intros x e; rewrite aget_anew; case_decide; congruence).
    split; cbn; try done.
    + by intros x e ->%H.
    + by intros x e ->%H.
    + by intros x e ->%H.
    + by intros x e e' ->%H.
  - reflexivity.
  - simpl. lia.
  - by vm_compute.
Defined.

(** Deleting a key can lose another one: of two keys with the same home slot the
    second is stored behind the first; when the first is deleted its link is erased,
    and the second, which was never deleted, no longer exists. *)
Theorem kv_delete_loses_key :
  KvDemo.run [KvDemo.cmd nvme_cmd_kv_store KvDemo.k1 1; KvDemo.cmd nvme_cmd_kv_store KvDemo.k2 1;
              KvDemo.cmd nvme_cmd_kv_exist KvDemo.k2 0; KvDemo.cmd nvme_cmd_kv_delete KvDemo.k1 0;
              KvDemo.cmd nvme_cmd_kv_exist KvDemo.k2 0] KvDemo.start
  = Ok [(0, 0); (0, 0); (0, 0); (0, 0); (0, KV_ERR_KEY_NOT_EXIST)].
Proof. vm_compute. reflexivity. Qed.

(** A value that replaces a shorter one is written over what follows it: storing
    eight bytes under the first key changes the four bytes of the second. *)
Theorem kv_longer_value_overwrites :
  let s := KvDemo.after (KvDemo.cmd nvme_cmd_kv_store KvDemo.k2 1)
             (KvDemo.after (KvDemo.cmd nvme_cmd_kv_store KvDemo.k1 1) KvDemo.start) in
  let s' := KvDemo.after (KvDemo.cmd nvme_cmd_kv_store KvDemo.k1 2) s in
  view KvDemo.storage 4 SLOTS s KvDemo.k2 = Some [0; 1; 2; 3] ∧
  view KvDemo.storage 4 SLOTS s' KvDemo.k2 = Some [4; 5; 6; 7].
Proof. vm_compute. by split. Qed.
