(* ===== verification/Pci.v ===== *)
(** * The emulated PCI function (src/pci.c, src/pci.h)

    The configuration space is a page of bytes; the structs of src/pci.h are
    overlaid on it, so a field is a little-endian unit at an offset and a range of
    its bits.  The driver of the host reaches it through [nvmev_pci_read] and
    [nvmev_pci_write].  Identifiers of the PCI standard (the PCI_ constants of the
    kernel headers) have the values the standard gives them. *)

From Stdlib Require Import ZArith Lia.
From stdpp Require Import base numbers list gmap.
From S2P Require Import Prelude Bytes.

#[local] Open Scope Z_scope.

(** ** Constants *)

Definition NVMEV_DEVICE_ID : Z := 0x0110.
Definition NVMEV_VENDOR_ID : Z := 0x0c51.
Definition NVMEV_SUBSYSTEM_ID : Z := 0x370d.
Definition NVMEV_SUBSYSTEM_VENDOR_ID : Z := NVMEV_VENDOR_ID.
Definition NVMEV_INTX_IRQ : Z := 15.

Definition PCI_COMMAND : Z := 0x04.
Definition PCI_STATUS : Z := 0x06.
Definition PCI_BIST : Z := 0x0f.
Definition PCI_BASE_ADDRESS_0 : Z := 0x10.
Definition PCI_INTERRUPT_LINE : Z := 0x3c.
Definition PCI_COMMAND_INTX_DISABLE : Z := 0x400.
Definition PCI_BIST_START : Z := 0x40.
Definition PCI_MSIX_FLAGS : Z := 2.
Definition PCI_MSIX_FLAGS_MASKALL : Z := 0x4000.
Definition PCI_MSIX_FLAGS_ENABLE : Z := 0x8000.
Definition PCI_HEADER_TYPE_NORMAL : Z := 0.
Definition PCI_BASE_CLASS_STORAGE : Z := 1.
Definition PCI_BASE_ADDRESS_MEM_TYPE_64 : Z := 4.
Definition PCI_CAP_ID_PM : Z := 0x01.
Definition PCI_CAP_ID_EXP : Z := 0x10.
Definition PCI_CAP_ID_MSIX : Z := 0x11.
Definition PCI_PM_CAP_PME_D0 : Z := 0x800.
Definition PCI_EXP_FLAGS : Z := 2.
Definition PCI_EXP_TYPE_ENDPOINT : Z := 0.
Definition PCI_EXT_CAP_ID_ERR : Z := 0x01.
Definition PCI_EXT_CAP_ID_VC : Z := 0x02.
Definition PCI_EXT_CAP_ID_DSN : Z := 0x03.
Definition PCI_EXT_CAP_ID_PWR : Z := 0x04.
Definition PCI_EXT_CAP_ID_ARI : Z := 0x0e.
Definition PCI_EXT_CAP_ID_SECPCI : Z := 0x19.
Definition PCI_CFG_SPACE_SIZE : Z := 256.

Definition OFFS_PCI_HDR : Z := 0x0.
Definition OFFS_PCI_PM_CAP : Z := 0x40.
Definition OFFS_PCI_MSIX_CAP : Z := 0x50.
Definition OFFS_PCIE_CAP : Z := 0x60.
Definition OFFS_PCI_EXT_CAP : Z := PCI_CFG_SPACE_SIZE.

(** ** State *)

(** The configuration space [virtDev], the flag [intx_disabled], and
    [pdev->msix_enabled] once the PCI device exists. *)
Record pci_state : Type := PciState {
  pci_cfg : arr Z;
  pci_intx_disabled : bool;
  pci_msix : option bool;
}.
Definition set_cfg (x : arr Z) (s : pci_state) : pci_state :=
  PciState x (pci_intx_disabled s) (pci_msix s).

(** [n] bytes at [off], all of which must exist. *)
Definition read_le (off : Z) (n : nat) : M (arr Z) Z :=
  a ← get;
  if (0 <=? off) && (off + Z.of_nat n <=? alen a) then mret (load_le a off n) else throw OOPS.

(** Bits [lo] to [lo + w - 1] of [x] replaced by [v]. *)
Definition insert_bits (lo w v x : Z) : Z :=
  Z.lor (Z.ldiff x (Z.shiftl (Z.ones w) lo)) (Z.shiftl (Z.land v (Z.ones w)) lo).

(** A bit-field assignment in the unit of [n] bytes at [off]. *)
Definition set_field (off : Z) (n : nat) (lo w v : Z) : M (arr Z) unit :=
  x ← read_le off n;
  store_le off n (insert_bits lo w v x).

(** ** Initialisation *)

Definition PCI_HEADER_SETTINGS (base_pa : Z) : M (arr Z) unit :=
  store_le 2 2 NVMEV_DEVICE_ID ;;
  store_le 0 2 NVMEV_VENDOR_ID ;;
  set_field 4 1 1 1 1 ;;
  set_field 6 1 4 1 1 ;;
  set_field 14 1 7 1 0 ;;
  set_field 14 1 0 7 PCI_HEADER_TYPE_NORMAL ;;
  store_le 8 1 0x01 ;;
  store_le 11 1 PCI_BASE_CLASS_STORAGE ;;
  store_le 10 1 0x08 ;;
  store_le 9 1 0x02 ;;
  set_field 16 4 1 2 (Z.shiftr PCI_BASE_ADDRESS_MEM_TYPE_64 1) ;;
  set_field 16 4 14 18 (Z.shiftr (Z.land base_pa 0xFFFFFFFF) 14) ;;
  store_le 20 4 (Z.shiftr base_pa 32) ;;
  store_le 46 2 NVMEV_SUBSYSTEM_ID ;;
  store_le 44 2 NVMEV_SUBSYSTEM_VENDOR_ID ;;
  store_le 48 4 0x0 ;;
  store_le 52 1 OFFS_PCI_PM_CAP ;;
  store_le 61 1 0 ;;
  store_le 60 1 NVMEV_INTX_IRQ.

Definition PCI_PMCAP_SETTINGS (pmcap : Z) : M (arr Z) unit :=
  store_le pmcap 1 PCI_CAP_ID_PM ;;
  store_le (pmcap + 1) 1 OFFS_PCI_MSIX_CAP ;;
  set_field (pmcap + 2) 2 0 3 3 ;;
  set_field (pmcap + 4) 2 3 1 1 ;;
  set_field (pmcap + 4) 2 0 2 (Z.shiftr PCI_PM_CAP_PME_D0 16).

Definition PCI_MSIXCAP_SETTINGS (msixcap : Z) : M (arr Z) unit :=
  store_le msixcap 1 PCI_CAP_ID_MSIX ;;
  store_le (msixcap + 1) 1 OFFS_PCIE_CAP ;;
  set_field (msixcap + 2) 2 15 1 1 ;;
  set_field (msixcap + 2) 2 0 11 127 ;;
  set_field (msixcap + 4) 4 0 3 0 ;;
  set_field (msixcap + 4) 4 3 29 0x400 ;;
  set_field (msixcap + 8) 4 3 29 0x1000 ;;
  set_field (msixcap + 8) 4 0 3 0.

Definition PCI_PCIECAP_SETTINGS (pciecap : Z) : M (arr Z) unit :=
  store_le pciecap 1 PCI_CAP_ID_EXP ;;
  store_le (pciecap + 1) 1 0x0 ;;
  set_field (pciecap + 2) 1 0 4 PCI_EXP_FLAGS ;;
  set_field (pciecap + 3) 1 1 5 0 ;;
  set_field (pciecap + 2) 1 4 4 PCI_EXP_TYPE_ENDPOINT ;;
  set_field (pciecap + 4) 4 0 3 1 ;;
  set_field (pciecap + 4) 4 3 2 0 ;;
  set_field (pciecap + 4) 4 5 1 1 ;;
  set_field (pciecap + 4) 4 6 3 6 ;;
  set_field (pciecap + 4) 4 9 3 2 ;;
  set_field (pciecap + 4) 4 15 1 1 ;;
  set_field (pciecap + 4) 4 18 8 0 ;;
  set_field (pciecap + 4) 4 26 2 0 ;;
  set_field (pciecap + 4) 4 28 1 1.

(** [cid], [cver] and [next] of the extended capability at [ext_cap]. *)
Definition set_ext_cap (ext_cap cid next : Z) : M (arr Z) unit :=
  store_le ext_cap 2 cid ;;
  set_field (ext_cap + 2) 2 0 4 1 ;;
  set_field (ext_cap + 2) 2 4 12 next.

Definition PCI_EXTCAP_SETTINGS (ext_cap_base : Z) : M (arr Z) unit :=
  set_ext_cap ext_cap_base PCI_EXT_CAP_ID_ERR (PCI_CFG_SPACE_SIZE + 0x50) ;;
  set_ext_cap (ext_cap_base + 0x50) PCI_EXT_CAP_ID_VC (PCI_CFG_SPACE_SIZE + 0x80) ;;
  set_ext_cap (ext_cap_base + 0x80) PCI_EXT_CAP_ID_PWR (PCI_CFG_SPACE_SIZE + 0x90) ;;
  set_ext_cap (ext_cap_base + 0x90) PCI_EXT_CAP_ID_ARI (PCI_CFG_SPACE_SIZE + 0x170) ;;
  set_ext_cap (ext_cap_base + 0x170) PCI_EXT_CAP_ID_DSN (PCI_CFG_SPACE_SIZE + 0x1a0) ;;
  set_ext_cap (ext_cap_base + 0x1a0) PCI_EXT_CAP_ID_SECPCI 0.

(** The configuration space of [VDEV_INIT], filled by [NVMEV_PCI_INIT]. *)
Definition virtDev_zero : arr Z := anew PAGE_SIZE 0.
Definition pci_settings (memmap_start : Z) : M (arr Z) unit :=
  PCI_HEADER_SETTINGS memmap_start ;;
  PCI_PMCAP_SETTINGS OFFS_PCI_PM_CAP ;;
  PCI_MSIXCAP_SETTINGS OFFS_PCI_MSIX_CAP ;;
  PCI_PCIECAP_SETTINGS OFFS_PCIE_CAP ;;
  PCI_EXTCAP_SETTINGS OFFS_PCI_EXT_CAP.

(** ** Accesses by the host *)

(** The return code and [*val]: the low [size] bytes of the caller's [val] are
    replaced. *)
Definition nvmev_pci_read (devfn where_ size val : Z) : M pci_state (Z * Z) :=
  if negb (devfn =? 0) then mret (1, val)
  else
    x ← zoom pci_cfg set_cfg (read_le where_ (Z.to_nat size));
    mret (0, Z.lor (Z.ldiff val (Z.ones (8 * size))) x).

(** A write to the command register: the INTx flag and the interrupt status. *)
Definition write_command (val new : Z) : M pci_state unit :=
  when (negb (Z.land (Z.lxor val new) PCI_COMMAND_INTX_DISABLE =? 0))
    (let disabled := negb (Z.land new PCI_COMMAND_INTX_DISABLE =? 0) in
     modify (λ s, PciState (pci_cfg s) disabled (pci_msix s)) ;;
     when (negb disabled) (zoom pci_cfg set_cfg (set_field PCI_STATUS 1 3 1 0))).

Definition write_msix_flags (val new : Z) : M pci_state unit :=
  s ← get;
  match pci_msix s with
  | None => mret tt
  | Some _ =>
      when (negb (Z.land (Z.lxor val new) PCI_MSIX_FLAGS_ENABLE =? 0))
        (modify (λ s, PciState (pci_cfg s) (pci_intx_disabled s)
           (Some (negb (Z.land new PCI_MSIX_FLAGS_ENABLE =? 0)))))
  end.

(** The bits a write at [where_] may change. *)
Definition write_mask (where_ : Z) : Z :=
  if where_ <? OFFS_PCI_PM_CAP then
    if where_ =? PCI_COMMAND then PCI_COMMAND_INTX_DISABLE
    else if where_ =? PCI_STATUS then 0xF200
    else if where_ =? PCI_BIST then PCI_BIST_START
    else if where_ =? PCI_BASE_ADDRESS_0 then 0xFFFFC000
    else if where_ =? PCI_INTERRUPT_LINE then 0xFF
    else 0x0
  else if where_ <? OFFS_PCI_MSIX_CAP then 0xFFFFFFFF
  else if where_ <? OFFS_PCIE_CAP then
    if where_ - OFFS_PCI_MSIX_CAP =? PCI_MSIX_FLAGS
    then Z.lor PCI_MSIX_FLAGS_MASKALL PCI_MSIX_FLAGS_ENABLE
    else 0x0
  else 0xFFFFFFFF.

Definition nvmev_pci_write (where_ size new : Z) : M pci_state Z :=
  if 4 <? size then throw OOPS
  else
    val ← zoom pci_cfg set_cfg (read_le where_ (Z.to_nat size));
    when (where_ =? PCI_COMMAND) (write_command val new) ;;
    when (where_ - OFFS_PCI_MSIX_CAP =? PCI_MSIX_FLAGS) (write_msix_flags val new) ;;
    let mask := write_mask where_ in
    zoom pci_cfg set_cfg
      (store_le where_ (Z.to_nat size) (Z.lor (Z.ldiff val mask) (Z.land new mask))) ;;
    mret 0.

(** ** Capability lists *)

(** The lists a driver walks: identifier and offset of each capability. *)
Fixpoint caps_from (fuel : nat) (a : arr Z) (off : Z) : list (Z * Z) :=
  match fuel with
  | O => []
  | S fuel' =>
      if off =? 0 then []
      else (load_le a off 1, off) :: caps_from fuel' a (load_le a (off + 1) 1)
  end.
Definition capabilities (a : arr Z) : list (Z * Z) :=
  if Z.testbit (load_le a 6 1) 4 then caps_from 48 a (load_le a 52 1) else [].
Fixpoint ext_caps_from (fuel : nat) (a : arr Z) (off : Z) : list (Z * Z) :=
  match fuel with
  | O => []
  | S fuel' =>
      if off =? 0 then []
      else (load_le a off 2, off) :: ext_caps_from fuel' a (Z.shiftr (load_le a (off + 2) 2) 4)
  end.
Definition ext_capabilities (a : arr Z) : list (Z * Z) :=
  ext_caps_from 64 a PCI_CFG_SPACE_SIZE.
