(* ===== verification/PciProps.v ===== *)
(** * Theorems on the PCI function

    Bits of the configuration space, the effect of one write, what a host can never
    change, and the space a new device shows. *)

From Stdlib Require Import ZArith Lia.
From stdpp Require Import base numbers list gmap.
From S2P Require Import Prelude Bytes Pci.

#[local] Open Scope Z_scope.

(** ** Bits of a byte buffer *)

Definition bit (a : arr Z) (i k : Z) : bool :=
  match aget a i with Some b => Z.testbit b k | None => false end.

Definition is_bytes (a : arr Z) : Prop := ∀ i b, aget a i = Some b → 0 ≤ b < 2 ^ 8.

Lemma testbit_byte_high b k : 0 ≤ b < 2 ^ 8 → 8 ≤ k → Z.testbit b k = false.
Proof.
  intros Hb Hk. destruct (decide (b = 0)) as [->|]; [apply Z.testbit_0_l|].
  apply Z.bits_above_log2; [lia|]. assert (Z.log2 b < 8) by (apply Z.log2_lt_pow2; lia). lia.
Qed.

Lemma testbit_byte_cons b x j :
  0 ≤ b < 2 ^ 8 → 0 ≤ j →
  Z.testbit (b + 2 ^ 8 * x) j = if decide (j < 8) then Z.testbit b j else Z.testbit x (j - 8).
Proof.
  intros Hb Hj. rewrite (Z.mul_comm (2 ^ 8)), <- Z.shiftl_mul_pow2 by lia.
  assert (Z.land b (Z.shiftl x 8) = 0) as Hz.
  { apply Z.bits_inj'. intros n Hn. rewrite Z.land_spec, Z.bits_0, Z.shiftl_spec by lia.
    destruct (decide (n < 8)).
    - rewrite (Z.testbit_neg_r x) by lia. apply andb_false_r.
    - rewrite (testbit_byte_high b) by lia. done. }
  pose proof (Z.add_lor_land b (Z.shiftl x 8)) as Hadd. rewrite Hz, Z.add_0_r in Hadd.
  rewrite <- Hadd, Z.lor_spec, Z.shiftl_spec by lia.
  case_decide.
  - rewrite (Z.testbit_neg_r x) by lia. apply orb_false_r.
  - by rewrite (testbit_byte_high b) by lia.
Qed.

Lemma testbit_le_combine l j :
  Forall (λ b, 0 ≤ b < 2 ^ 8) l → 0 ≤ j →
  Z.testbit (le_combine l) j =
    match l !! Z.to_nat (j / 8) with Some b => Z.testbit b (j mod 8) | None => false end.
Proof.
  intros Hl. revert j. induction Hl as [|b l Hb _ IH]; intros j Hj.
  - simpl. by rewrite Z.testbit_0_l.
  - cbn [le_combine]. rewrite testbit_byte_cons by done. case_decide.
    + rewrite Z.div_small, Z.mod_small by lia. done.
    + rewrite IH by lia. replace (Z.to_nat (j / 8)) with (S (Z.to_nat ((j - 8) / 8))).
      2:{ replace (j / 8) with ((j - 8) / 8 + 1) by dlia.
          pose proof (Z.div_pos (j - 8) 8). lia. }
      simpl. by replace (j mod 8) with ((j - 8) mod 8) by dlia.
Qed.

Lemma lookup_le_split n v i :
  (i < n)%nat → le_split n v !! i = Some (Z.shiftr v (8 * Z.of_nat i) mod 2 ^ 8).
Proof.
  revert v i. induction n as [|n IH]; intros v i Hi; [lia|]. destruct i as [|i]; simpl.
  - by rewrite Z.shiftr_0_r.
  - rewrite IH by lia. f_equal. f_equal. rewrite <- (Z.shiftr_div_pow2 v 8) by lia.
    rewrite Z.shiftr_shiftr by lia. f_equal. lia.
Qed.

Lemma bit_load a off n j :
  is_bytes a → 0 ≤ off → off + Z.of_nat n ≤ alen a → 0 ≤ j < 8 * Z.of_nat n →
  Z.testbit (load_le a off n) j = bit a (off + j / 8) (j mod 8).
Proof.
  intros Ha Ho Hn Hj. unfold load_le.
  assert (∀ i, (i < n)%nat → load_bytes a off n !! i = aget a (off + Z.of_nat i)) as Hlk.
  { clear j Hj. intros i Hi. unfold load_bytes. revert off i Ho Hn Hi.
    induction n as [|n IH]; intros off i Ho Hn Hi; [lia|].
    rewrite seqZ_cons by lia. simpl.
    destruct (aget_some a off ltac:(lia)) as [b Hb]. rewrite Hb.
    replace (Z.pred (Z.of_nat (S n))) with (Z.of_nat n) by lia.
    destruct i as [|i]; simpl; [by rewrite Z.add_0_r|].
    replace (Z.succ off) with (off + 1) by lia. rewrite IH by lia. f_equal. lia. }
  rewrite testbit_le_combine; [|apply Forall_forall|lia].
  - rewrite Hlk by dlia. unfold bit. rewrite Z2Nat.id by dlia. done.
  - intros b Hb. unfold load_bytes in Hb. apply list_elem_of_omap in Hb as (i & _ & Hi).
    by eapply Ha.
Qed.

(** The bits after a store. *)
Lemma wp_store_bits off n v a :
  is_bytes a → 0 ≤ off → off + Z.of_nat n ≤ alen a →
  wp (store_le off n v) a (λ _ a', alen a' = alen a ∧ is_bytes a' ∧
    ∀ i k, 0 ≤ k < 8 → bit a' i k =
      if decide (off ≤ i < off + Z.of_nat n) then Z.testbit v (8 * (i - off) + k) else bit a i k).
Proof.
  intros Ha Ho Hn. eapply wp_mono; [by apply wp_store_le|]. intros [] a' [Hlen Hget].
  split_and!; [done| |].
  - intros i b. rewrite Hget. case_decide; [|by apply Ha]. rewrite lookup_le_split by lia.
    intros [= <-]. apply Z.mod_pos_bound. lia.
  - intros i k Hk. unfold bit. rewrite Hget. case_decide; [|done].
    rewrite lookup_le_split by lia. rewrite Z.mod_pow2_bits_low by lia.
    rewrite Z.shiftr_spec by lia. f_equal. lia.
Qed.

Lemma wp_read_le off n a Q :
  0 ≤ off → off + Z.of_nat n ≤ alen a → Q (load_le a off n) a → wp (read_le off n) a Q.
Proof.
  intros Ho Hn HQ. unfold read_le. wp_steps.
  rewrite (proj2 (Z.leb_le _ _) Ho), (proj2 (Z.leb_le _ _) Hn). done.
Qed.

Lemma testbit_insert lo w v x j :
  0 ≤ lo → 0 ≤ w → 0 ≤ j →
  Z.testbit (insert_bits lo w v x) j =
    if decide (lo ≤ j < lo + w) then Z.testbit v (j - lo) else Z.testbit x j.
Proof.
  intros Hlo Hw Hj. unfold insert_bits.
  rewrite Z.lor_spec, Z.ldiff_spec, !Z.shiftl_spec by lia.
  destruct (decide (j < lo)).
  - rewrite !(Z.testbit_neg_r _ (j - lo)) by lia. rewrite decide_False by lia.
    by rewrite andb_true_r, orb_false_r.
  - rewrite Z.land_spec, Z.testbit_ones by lia.
    rewrite (proj2 (Z.leb_le 0 (j - lo))) by lia. simpl. case_decide.
    + rewrite (proj2 (Z.ltb_lt _ _)) by lia. by rewrite andb_true_r, andb_false_r.
    + rewrite (proj2 (Z.ltb_ge _ _)) by lia. by rewrite andb_false_r, andb_true_r, orb_false_r.
Qed.

(** ** One write *)

(** Accesses as the PCI core issues them. *)
Record access : Type := Access { a_where : Z; a_size : Z; a_value : Z }.
Definition access_ok (x : access) : Prop :=
  (a_size x = 1 ∨ a_size x = 2 ∨ a_size x = 4) ∧ 0 ≤ a_where x ∧ a_where x mod a_size x = 0 ∧
  a_where x + a_size x ≤ PAGE_SIZE ∧ 0 ≤ a_value x < 2 ^ (8 * a_size x).

Record pci_ok (s : pci_state) : Prop := {
  po_len : alen (pci_cfg s) = PAGE_SIZE;
  po_bytes : is_bytes (pci_cfg s);
}.

(** The interrupt status, bit 3 of the status register. *)
Definition is_sts_is (i k : Z) : bool := (i =? PCI_STATUS) && (k =? 3).

(** What a write does to a bit. *)
Definition written (x : access) (i k : Z) (old : bool) : bool :=
  let j := 8 * (i - a_where x) + k in
  if decide (a_where x ≤ i < a_where x + a_size x)
  then if Z.testbit (write_mask (a_where x)) j then Z.testbit (a_value x) j else old
  else old.

Lemma wp_set_field off n lo w v a :
  is_bytes a → 0 ≤ off → off + Z.of_nat n ≤ alen a → 0 ≤ lo → 0 ≤ w →
  wp (set_field off n lo w v) a (λ _ a', alen a' = alen a ∧ is_bytes a' ∧
    ∀ i k, 0 ≤ k < 8 → bit a' i k =
      if decide (off ≤ i < off + Z.of_nat n) then
        if decide (lo ≤ 8 * (i - off) + k < lo + w) then Z.testbit v (8 * (i - off) + k - lo)
        else bit a i k
      else bit a i k).
Proof.
  intros Ha Ho Hn Hlo Hw. unfold set_field. wp_step. apply wp_read_le; [done|done|].
  eapply wp_mono; [by apply wp_store_bits|]. intros [] a' (Hlen & Hb & Hbit).
  split_and!; [done|done|]. intros i k Hk. rewrite Hbit by done. case_decide; [|done].
  rewrite testbit_insert by lia. case_decide; [done|]. rewrite bit_load by (done || lia).
  f_equal; dlia.
Qed.

(** What happens before the bytes are stored: flags, and perhaps the interrupt
    status. *)
Definition same_but_is (s s' : pci_state) : Prop :=
  pci_ok s' ∧ ∀ i k, 0 ≤ k < 8 → is_sts_is i k = false →
    bit (pci_cfg s') i k = bit (pci_cfg s) i k.

Lemma wp_write_command val new s :
  pci_ok s → wp (write_command val new) s (λ _ s', same_but_is s s').
Proof.
  intros [Hl Hb]. unfold write_command. wp_step; [|by split].
  wp_step. wp_step. wp_step; [|by split].
  wp_step. eapply wp_mono.
  - apply wp_set_field; simpl; try done; rewrite ?Hl; unfold PCI_STATUS, PAGE_SIZE; lia.
  - simpl. intros [] a (Hlen & Hby & Hbit). split; simpl.
    + split; simpl; [by rewrite Hlen|done].
    + intros i k Hk His. rewrite Hbit by done. unfold is_sts_is, PCI_STATUS in *.
      repeat case_decide; try done. assert (i = 6) as -> by lia. assert (k = 3) as -> by lia. done.
Qed.

Lemma wp_write_msix val new s :
  pci_ok s → wp (write_msix_flags val new) s (λ _ s', same_but_is s s').
Proof.
  intros [Hl Hb]. unfold write_msix_flags. wp_step. wp_step.
  destruct (pci_msix s); [|by wp_step; split]. wp_step; [|by split]. by wp_step; split.
Qed.

Lemma write_mask_range w : 0 ≤ write_mask w < 2 ^ 32.
Proof. unfold write_mask. repeat case_match; by vm_compute. Qed.

Lemma wp_pci_write x s :
  pci_ok s → access_ok x →
  wp (nvmev_pci_write (a_where x) (a_size x) (a_value x)) s (λ r s', r = 0 ∧ pci_ok s' ∧
    ∀ i k, 0 ≤ k < 8 → is_sts_is i k = false →
      bit (pci_cfg s') i k = written x i k (bit (pci_cfg s) i k)).
Proof.
  intros Hs (Hsz & Hw & _ & Hr & Hv). pose proof Hs as [Hl Hb]. unfold nvmev_pci_write.
  rewrite (proj2 (Z.ltb_ge 4 _)) by lia. wp_step. wp_step.
  apply wp_read_le; [lia|rewrite Z2Nat.id by lia; lia|].
  set (val := load_le _ _ _). wp_step.
  assert (set_cfg (pci_cfg s) s = s) as -> by by destruct s.
  eapply (wp_mono _ _ (λ _ s', same_but_is s s')).
  { wp_step; [by apply wp_write_command|by split]. }
  intros [] s1 [Hs1 H1]. wp_step.
  eapply (wp_mono _ _ (λ _ s', same_but_is s s')).
  { wp_step; [|by split].
    eapply wp_mono; [by apply wp_write_msix|]. intros [] s2 [Hs2 H2]. split; [done|].
    intros i k Hk His. by rewrite H2, H1. }
  intros [] s2 [Hs2 H2]. wp_step. wp_step. destruct Hs2 as [Hl2 Hb2].
  eapply wp_mono; [apply wp_store_bits; [done|done|rewrite Z2Nat.id by lia; lia]|].
  intros [] a (Hlen & Hby & Hbit). wp_step. split_and!; [done|by split; simpl; [congruence|]|].
  intros i k Hk His. simpl. rewrite Hbit, Z2Nat.id by lia. unfold written.
  case_decide; [|by apply H2]. set (j := 8 * (i - a_where x) + k).
  assert (0 ≤ j < 8 * a_size x) by lia.
  rewrite Z.lor_spec, Z.ldiff_spec, Z.land_spec. unfold val.
  rewrite bit_load by (done || lia).
  replace (a_where x + j / 8) with i by (subst j; dlia).
  replace (j mod 8) with k by (subst j; dlia).
  destruct (Z.testbit (write_mask (a_where x)) j); simpl.
  - by rewrite andb_true_r, andb_false_r.
  - by rewrite andb_true_r, andb_false_r, orb_false_r.
Qed.

(** ** Any series of writes *)

Definition host_writes (l : list access) : M pci_state unit :=
  for_list l (λ x, nvmev_pci_write (a_where x) (a_size x) (a_value x) ;; mret tt).

(** The bits of the header and of the MSI-X capability that may ever change. *)
Definition byte_mask (i : Z) : Z :=
  if i =? 0x05 then 0x04 else if i =? 0x06 then 0x08 else if i =? 0x07 then 0xF2
  else if i =? 0x0f then 0x40 else if i =? 0x11 then 0xC0
  else if (i =? 0x12) || (i =? 0x13) then 0xFF else if i =? 0x3c then 0xFF
  else if i =? 0x53 then 0xC0 else 0.
Definition protected (i k : Z) : bool :=
  (((0 <=? i) && (i <? OFFS_PCI_PM_CAP)) || ((OFFS_PCI_MSIX_CAP <=? i) && (i <? OFFS_PCIE_CAP)))
  && negb (Z.testbit (byte_mask i) k).

(** Every access that touches a protected byte has a mask that spares it. *)
Definition spares (w n : Z) : bool :=
  forallb (λ i, forallb (λ k, negb (protected i k) ||
    negb (Z.testbit (write_mask w) (8 * (i - w) + k))) (seqZ 0 8)) (seqZ w n).
Lemma all_spare :
  forallb (λ n, forallb (λ w, negb (w mod n =? 0) || spares w n) (seqZ 0 0x60)) [1; 2; 4] = true.
Proof. by vm_compute. Qed.

Lemma forallb_seqZ f lo n i : forallb f (seqZ lo n) = true → lo ≤ i < lo + n → f i = true.
Proof.
  intros H Hi. apply (proj1 (forallb_forall _ _) H). apply list_elem_of_In, elem_of_seqZ. lia.
Qed.

Lemma spared x i k :
  access_ok x → 0 ≤ k < 8 → protected i k = true →
  a_where x ≤ i < a_where x + a_size x →
  Z.testbit (write_mask (a_where x)) (8 * (i - a_where x) + k) = false.
Proof.
  intros (Hsz & Hw & Hal & _) Hk Hp Hi.
  assert (a_where x < 0x60) as Hlt.
  { unfold protected, OFFS_PCI_PM_CAP, OFFS_PCI_MSIX_CAP, OFFS_PCIE_CAP in Hp. bool_prop.
    destruct (decide (i < 0x60)); [lia|].
    rewrite (proj2 (Z.ltb_ge i 0x40)), (proj2 (Z.ltb_ge i 0x60)) in * by lia.
    rewrite !andb_false_r in *. done. }
  pose proof (proj1 (forallb_forall _ _) all_spare (a_size x) ltac:(simpl; intuition)) as H.
  apply (forallb_seqZ _ _ _ (a_where x)) in H; [|lia]. cbn beta in H. rewrite Hal in H. cbn [negb Z.eqb orb] in H.
  apply (forallb_seqZ _ _ _ i) in H; [|lia]. apply (forallb_seqZ _ _ _ k) in H; [|lia].
  cbn beta in H. rewrite Hp in H. by apply negb_true_iff in H.
Qed.

Lemma protected_not_is i k : protected i k = true → is_sts_is i k = false.
Proof.
  unfold is_sts_is. destruct (i =? PCI_STATUS) eqn:Ei; [|done].
  destruct (k =? 3) eqn:Ek; [|done]. bool_prop. subst. by vm_compute.
Qed.

Lemma wp_host_writes l s :
  pci_ok s → Forall access_ok l →
  wp (host_writes l) s (λ _ s', pci_ok s' ∧
    ∀ i k, 0 ≤ k < 8 → protected i k = true → bit (pci_cfg s') i k = bit (pci_cfg s) i k).
Proof.
  intros Hs Hl. unfold host_writes. revert s Hs. induction Hl as [|x l Hx _ IH]; intros s Hs; simpl.
  { by wp_step. }
  wp_step. wp_step. eapply wp_mono; [by apply wp_pci_write|]. intros r s1 (_ & Hs1 & H1). wp_step.
  eapply wp_mono; [by apply IH|]. intros [] s2 (Hs2 & H2). split; [done|].
  intros i k Hk Hp. rewrite H2, H1 by (done || by apply protected_not_is).
  unfold written. case_decide; [|done]. by rewrite spared.
Qed.

(** ** A new device *)

(** A prefix of stores evaluated. *)
Ltac run_store := apply wp_bind; eapply wp_intro; [vm_compute; reflexivity|].

Definition device_id : Z := 0x01100c51.
Definition class_rev : Z := 0x01080201.
Definition subsystem : Z := 0x370d0c51.

(** What identifies a new device. *)
Record pci_shape (base : Z) (a : arr Z) : Prop := {
  ps_id : load_le a 0 4 = device_id;
  ps_class : load_le a 8 4 = class_rev;
  ps_subsystem : load_le a 0x2c 4 = subsystem;
  ps_cap : load_le a 0x34 1 = OFFS_PCI_PM_CAP;
  ps_msix : load_le a 0x50 2 = PCI_CAP_ID_MSIX + 2 ^ 8 * OFFS_PCIE_CAP;
  ps_msix_tables : load_le a 0x54 8 = 8 * 0x400 + 2 ^ 32 * (8 * 0x1000);
  ps_bar_type : Z.land (load_le a 0x10 4) 0x3FFF = PCI_BASE_ADDRESS_MEM_TYPE_64;
  ps_bar_high : load_le a 0x14 4 = base / 2 ^ 32;
}.

Lemma le_split_4 v : le_split 4 v =
  [v mod 2 ^ 8; v / 2 ^ 8 mod 2 ^ 8; v / 2 ^ 8 / 2 ^ 8 mod 2 ^ 8; v / 2 ^ 8 / 2 ^ 8 / 2 ^ 8 mod 2 ^ 8].
Proof. done. Qed.

Lemma wp_store_list off n v l a Q :
  le_split n v = l → wp (store_bytes off l) a Q → wp (store_le off n v) a Q.
Proof. by intros <-. Qed.

(** Stores keep bytes bytes. *)
Definition keeps_bytes (m : M (arr Z) unit) : Prop :=
  ∀ a u a', is_bytes a → m a = Ok (u, a') → is_bytes a'.

Lemma keeps_bytes_bind m1 (m2 : unit → M (arr Z) unit) :
  keeps_bytes m1 → (∀ u, keeps_bytes (m2 u)) → keeps_bytes (m1 ≫= m2).
Proof.
  intros H1 H2 a u a' Ha Heq. unfold mbind, M_bind in Heq.
  destruct (m1 a) as [[u1 a1]|] eqn:E; [|done]. eapply H2; [|done]. by eapply H1.
Qed.

Lemma is_bytes_aset a i b : is_bytes a → 0 ≤ b < 2 ^ 8 → is_bytes (aset a i b).
Proof.
  intros Ha Hb j c. unfold aset. destruct (in_range (alen a) i) eqn:E; [|by apply Ha].
  apply in_range_true in E. pose proof (aget_aset a i j b E) as H. unfold aset in H.
  rewrite (proj2 (in_range_true _ _) E) in H. rewrite H. case_decide; [by intros [= <-]|by apply Ha].
Qed.

Lemma keeps_store off n v : keeps_bytes (store_le off n v).
Proof.
  unfold store_le. pose proof (le_split_bytes n v) as Hl. revert off.
  induction Hl as [|b l Hb _ IH]; intros off a u a' Ha; simpl; [by intros [= _ <-]|].
  unfold mbind, M_bind, get, awrite. destruct (in_range (alen a) off) eqn:E; [|done]. cbn.
  intros Heq. eapply IH; [|done]. by apply is_bytes_aset.
Qed.

Lemma keeps_field off n lo w v : keeps_bytes (set_field off n lo w v).
Proof.
  intros a u a' Ha. unfold set_field, read_le, mbind, M_bind, get. cbn.
  destruct (_ && _); [|done]. cbn. by apply keeps_store.
Qed.

Create HintDb pci discriminated.
#[export] Hint Resolve keeps_store keeps_field : pci.
Ltac keeps := repeat (apply keeps_bytes_bind; [|intros _]); auto with pci.

Lemma keeps_settings base : keeps_bytes (pci_settings base).
Proof.
  unfold pci_settings, PCI_HEADER_SETTINGS, PCI_PMCAP_SETTINGS, PCI_MSIXCAP_SETTINGS,
    PCI_PCIECAP_SETTINGS, PCI_EXTCAP_SETTINGS, set_ext_cap.
  repeat (apply keeps_bytes_bind; [keeps|intros _]); keeps.
Qed.

(** The two lists of capabilities of a new device. *)
Definition new_caps : list (Z * Z) :=
  [(PCI_CAP_ID_PM, 0x40); (PCI_CAP_ID_MSIX, 0x50); (PCI_CAP_ID_EXP, 0x60)].
Definition new_ext_caps : list (Z * Z) :=
  [(PCI_EXT_CAP_ID_ERR, 0x100); (PCI_EXT_CAP_ID_VC, 0x150); (PCI_EXT_CAP_ID_PWR, 0x180);
   (PCI_EXT_CAP_ID_ARI, 0x190); (PCI_EXT_CAP_ID_DSN, 0x270); (PCI_EXT_CAP_ID_SECPCI, 0x2a0)].

(** What a driver reads of a new device. *)
Definition pci_view (a : arr Z) :
    Z * list (Z * Z) * list (Z * Z) * (Z * Z * Z * Z * Z * Z) * list Z * list Z :=
  (alen a, capabilities a, ext_capabilities a,
   (load_le a 0 4, load_le a 8 4, load_le a 0x2c 4, load_le a 0x34 1, load_le a 0x50 2, load_le a 0x54 8),
   load_bytes a 0x10 4, load_bytes a 0x14 4).

(** The settings run with the bytes of the two base registers as variables. *)
Lemma settings_run base :
  wp (pci_settings base) virtDev_zero (λ _ a, pci_view a =
    (PAGE_SIZE, new_caps, new_ext_caps,
     (device_id, class_rev, subsystem, OFFS_PCI_PM_CAP, PCI_CAP_ID_MSIX + 2 ^ 8 * OFFS_PCIE_CAP,
      8 * 0x400 + 2 ^ 32 * (8 * 0x1000)),
     le_split 4 (insert_bits 14 18 (Z.shiftr (Z.land base 0xFFFFFFFF) 14) 4),
     le_split 4 (Z.shiftr base 32))).
Proof.
  unfold pci_settings. apply wp_bind. unfold PCI_HEADER_SETTINGS. do 11 run_store.
  apply wp_bind. unfold set_field at 1. apply wp_bind. eapply wp_intro; [vm_compute; reflexivity|].
  eapply wp_store_list; [apply le_split_4|]. rewrite (le_split_4 (insert_bits _ _ _ _)).
  remember (insert_bits _ _ _ _) as lo eqn:Hlo. clear Hlo.
  repeat match goal with |- context [?x mod 2 ^ 8] => generalize (x mod 2 ^ 8); intros ? end.
  eapply wp_intro; [vm_compute; reflexivity|].
  apply wp_bind. eapply wp_store_list; [apply le_split_4|]. rewrite (le_split_4 (Z.shiftr _ _)).
  remember (Z.shiftr base 32) as hi eqn:Hhi. clear Hhi.
  repeat match goal with |- context [?x mod 2 ^ 8] => generalize (x mod 2 ^ 8); intros ? end.
  eapply wp_intro; [vm_compute; reflexivity|].
  do 5 run_store. eapply wp_intro; [vm_compute; reflexivity|].
  do 3 run_store. eapply wp_intro; [vm_compute; reflexivity|].
  vm_compute. reflexivity.
Qed.

(** Ranges of fields. *)
Lemma le_combine_range l :
  Forall (λ b, 0 ≤ b < 2 ^ 8) l → 0 ≤ le_combine l < 2 ^ (8 * Z.of_nat (length l)).
Proof.
  induction 1 as [|b l Hb _ IH]; [done|]. cbn [le_combine length].
  replace (8 * Z.of_nat (S (length l))) with (8 + 8 * Z.of_nat (length l)) by lia.
  rewrite Z.pow_add_r by lia. lia.
Qed.

Lemma load_bytes_range a off n : is_bytes a → Forall (λ b, 0 ≤ b < 2 ^ 8) (load_bytes a off n).
Proof.
  intros Ha. apply Forall_forall. intros b Hb. unfold load_bytes in Hb.
  apply list_elem_of_omap in Hb as (i & _ & Hi). by eapply Ha.
Qed.

Lemma length_load_bytes a off n :
  0 ≤ off → off + Z.of_nat n ≤ alen a → length (load_bytes a off n) = n.
Proof.
  revert off. induction n as [|n IH]; intros off Ho Hn; [done|]. unfold load_bytes.
  rewrite seqZ_cons by lia. simpl. destruct (aget_some a off ltac:(lia)) as [b ->]. simpl. f_equal.
  replace (Z.pred (Z.of_nat (S n))) with (Z.of_nat n) by lia.
  apply (IH (off + 1)); lia.
Qed.

Lemma load_le_range a off n :
  is_bytes a → 0 ≤ off → off + Z.of_nat n ≤ alen a → 0 ≤ load_le a off n < 2 ^ (8 * Z.of_nat n).
Proof.
  intros Ha Ho Hn. unfold load_le.
  pose proof (le_combine_range _ (load_bytes_range a off n Ha)) as H.
  by rewrite length_load_bytes in H.
Qed.

Lemma testbit_high x n j : 0 ≤ x < 2 ^ n → 0 ≤ n ≤ j → Z.testbit x j = false.
Proof.
  intros Hx Hj. rewrite <- (Z.mod_small x (2 ^ n)) by done.
  by rewrite Z.mod_pow2_bits_high by lia.
Qed.

(** Fields of which the bits selected by [m] are equal. *)
Lemma load_le_bits a a' off n m :
  is_bytes a → is_bytes a' → alen a' = alen a → 0 ≤ off → off + Z.of_nat n ≤ alen a →
  (∀ i k, off ≤ i < off + Z.of_nat n → 0 ≤ k < 8 → Z.testbit m (8 * (i - off) + k) = true →
     bit a' i k = bit a i k) →
  Z.land (load_le a' off n) m = Z.land (load_le a off n) m.
Proof.
  intros Ha Ha' Hlen Ho Hn Hbit. apply Z.bits_inj'. intros j Hj. rewrite !Z.land_spec.
  destruct (Z.testbit m j) eqn:Hm; rewrite ?andb_false_r, ?andb_true_r; [|done].
  destruct (decide (j < 8 * Z.of_nat n)).
  - rewrite !bit_load by (done || lia). apply Hbit; [dlia|dlia|]. rewrite <- Hm. f_equal. dlia.
  - rewrite !(testbit_high _ (8 * Z.of_nat n)); try done; try lia; apply load_le_range; lia || done.
Qed.

Lemma load_le_same a a' off n :
  is_bytes a → is_bytes a' → alen a' = alen a → 0 ≤ off → off + Z.of_nat n ≤ alen a →
  (∀ i k, off ≤ i < off + Z.of_nat n → 0 ≤ k < 8 → bit a' i k = bit a i k) →
  load_le a' off n = load_le a off n.
Proof.
  intros Ha Ha' Hlen Ho Hn Hbit.
  pose proof (load_le_bits a a' off n (-1) Ha Ha' Hlen Ho Hn) as H.
  rewrite !Z.land_m1_r in H. apply H. intros i k Hi Hk _. by apply Hbit.
Qed.

(** All bits of the bytes are protected, as far as [m] selects them. *)
Definition all_protected (off n m : Z) : bool :=
  forallb (λ i, forallb (λ k, negb (Z.testbit m (8 * (i - off) + k)) || protected i k) (seqZ 0 8))
    (seqZ off n).

Lemma load_protected s s' off n m :
  pci_ok s → pci_ok s' → all_protected off (Z.of_nat n) m = true →
  0 ≤ off → off + Z.of_nat n ≤ PAGE_SIZE →
  (∀ i k, 0 ≤ k < 8 → protected i k = true → bit (pci_cfg s') i k = bit (pci_cfg s) i k) →
  Z.land (load_le (pci_cfg s') off n) m = Z.land (load_le (pci_cfg s) off n) m.
Proof.
  intros [Hl Hb] [Hl' Hb'] Hp Ho Hn Hbit.
  apply load_le_bits; try done; [congruence|lia|]. intros i k Hi Hk Hm. apply Hbit; [done|].
  apply (forallb_seqZ _ _ _ i) in Hp; [|lia]. cbn beta in Hp.
  apply (forallb_seqZ _ _ _ k) in Hp; [|lia]. cbn beta in Hp. by rewrite Hm in Hp.
Qed.

Lemma shape_kept base s s' :
  pci_ok s → pci_ok s' →
  (∀ i k, 0 ≤ k < 8 → protected i k = true → bit (pci_cfg s') i k = bit (pci_cfg s) i k) →
  pci_shape base (pci_cfg s) → pci_shape base (pci_cfg s').
Proof.
  intros Hs Hs' Hbit [].
  assert (∀ off n, all_protected off (Z.of_nat n) (-1) = true → 0 ≤ off →
    off + Z.of_nat n ≤ PAGE_SIZE → load_le (pci_cfg s') off n = load_le (pci_cfg s) off n) as Hsame.
  { intros off n Hp Ho Hn. pose proof (load_protected s s' off n (-1) Hs Hs' Hp Ho Hn Hbit) as H.
    by rewrite !Z.land_m1_r in H. }
  split; try (rewrite Hsame; [done|by vm_compute|done|done]).
  rewrite <- ps_bar_type0. by apply load_protected.
Qed.

(** Sizing of the base register: the host writes all ones and reads back. *)
Definition bar_sizing : M pci_state (Z * Z) :=
  nvmev_pci_write PCI_BASE_ADDRESS_0 4 0xFFFFFFFF ;;
  nvmev_pci_read 0 PCI_BASE_ADDRESS_0 4 0.

Lemma wp_bar_sizing base s :
  pci_ok s → pci_shape base (pci_cfg s) →
  wp bar_sizing s (λ r _, r = (0, 0xFFFFC004)).
Proof.
  intros Hs Hshape. unfold bar_sizing. wp_step.
  eapply wp_mono; [apply (wp_pci_write (Access PCI_BASE_ADDRESS_0 4 0xFFFFFFFF)); [done|]|].
  { split_and!; [by right; right|by vm_compute|by vm_compute|by vm_compute|by vm_compute|by vm_compute]. }
  intros r s1 (_ & Hs1 & Hbit). unfold nvmev_pci_read. cbn [Z.eqb negb]. wp_step. wp_step.
  pose proof Hs as [Hl Hb]. pose proof Hs1 as [Hl1 Hb1].
  apply wp_read_le; [done|by rewrite Hl1|]. wp_step. f_equal.
  change (Z.ldiff 0 (Z.ones (8 * 4))) with 0. rewrite Z.lor_0_l.
  pose proof (ps_bar_type _ _ Hshape) as Hty.
  apply Z.bits_inj'. intros j Hj. destruct (decide (j < 32)).
  - change (Z.to_nat 4) with 4%nat. rewrite bit_load by (done || rewrite ?Hl1; lia || done).
    rewrite Hbit; [|dlia|].
    2:{ unfold is_sts_is, PCI_STATUS, PCI_BASE_ADDRESS_0.
        destruct (16 + j / 8 =? 6) eqn:E; [|done]. bool_prop. exfalso. dlia. }
    unfold written; cbn [a_where a_size a_value]. rewrite decide_True by (unfold PCI_BASE_ADDRESS_0; dlia).
    replace (8 * (PCI_BASE_ADDRESS_0 + j / 8 - PCI_BASE_ADDRESS_0) + j mod 8) with j by dlia.
    change (write_mask PCI_BASE_ADDRESS_0) with 0xFFFFC000.
    assert (bit (pci_cfg s) (PCI_BASE_ADDRESS_0 + j / 8) (j mod 8) =
            Z.testbit (load_le (pci_cfg s) 0x10 4) j) as ->
      by (rewrite bit_load; done || rewrite ?Hl; lia || done).
    destruct (decide (j < 14)).
    + assert (Z.testbit 0xFFFFC000 j = false) as ->.
      { apply negb_true_iff. apply (forallb_seqZ (λ j, negb (Z.testbit 0xFFFFC000 j)) 0 14); [done|lia]. }
      assert (Z.testbit 0x3FFF j = true) as H3.
      { apply (forallb_seqZ (λ j, Z.testbit 0x3FFF j) 0 14); [done|lia]. }
      rewrite <- (andb_true_r (Z.testbit (load_le _ _ _) j)), <- H3, <- Z.land_spec, Hty.
      apply eqb_prop. apply (forallb_seqZ (λ j, Bool.eqb (Z.testbit PCI_BASE_ADDRESS_MEM_TYPE_64 j)
        (Z.testbit 0xFFFFC004 j)) 0 14); [done|lia].
    + apply eqb_prop. apply (forallb_seqZ (λ j, Bool.eqb (if Z.testbit 0xFFFFC000 j then
        Z.testbit 0xFFFFFFFF j else Z.testbit (load_le (pci_cfg s) 0x10 4) j)
        (Z.testbit 0xFFFFC004 j)) 14 18); [by vm_compute|lia].
  - rewrite !(testbit_high _ 32); try done; try lia.
    apply (load_le_range _ 16 4); [done|done|by rewrite Hl1].
Qed.

Lemma testbit_base base j :
  0 ≤ j → Z.testbit (Z.land (insert_bits 14 18 (Z.shiftr (Z.land base 0xFFFFFFFF) 14) 4) (Z.ones 32)) j =
          if decide (14 ≤ j < 32) then Z.testbit base j else Z.testbit 4 j.
Proof.
  intros Hj. change 0xFFFFFFFF with (Z.ones 32). rewrite Z.land_spec, testbit_insert by lia.
  rewrite Z.testbit_ones, (proj2 (Z.leb_le 0 j)) by lia. simpl. case_decide.
  - rewrite Z.shiftr_spec by lia. replace (j - 14 + 14) with j by lia.
    rewrite Z.land_spec, Z.testbit_ones, (proj2 (Z.leb_le 0 j)), (proj2 (Z.ltb_lt j 32)) by lia.
    rewrite decide_True by lia. simpl. by rewrite !andb_true_r.
  - rewrite decide_False by lia. destruct (decide (j < 32)).
    + rewrite (proj2 (Z.ltb_lt j 32)) by lia. apply andb_true_r.
    + rewrite (testbit_high 4 3) by lia. done.
Qed.

Lemma le_combine_split_4 v : le_combine (le_split 4 v) = Z.land v (Z.ones 32).
Proof.
  apply Z.bits_inj'. intros j Hj. rewrite testbit_le_combine by (done || apply le_split_bytes).
  rewrite Z.land_spec, Z.testbit_ones by lia. rewrite (proj2 (Z.leb_le 0 j)) by lia. cbn [andb].
  destruct (decide (j < 32)).
  - rewrite lookup_le_split by (apply Nat2Z.inj_lt; rewrite Z2Nat.id; dlia).
    rewrite Z.mod_pow2_bits_low, Z.shiftr_spec by dlia. rewrite (proj2 (Z.ltb_lt j 32)) by lia.
    rewrite andb_true_r. f_equal. rewrite Z2Nat.id; dlia.
  - rewrite lookup_ge_None_2.
    + rewrite (proj2 (Z.ltb_ge j 32)) by lia. by rewrite andb_false_r.
    + rewrite length_le_split. apply Nat2Z.inj_le. rewrite Z2Nat.id; dlia.
Qed.

(** What the settings leave in the configuration space. *)
Lemma wp_pci_settings base :
  0 ≤ base < 2 ^ 64 →
  wp (pci_settings base) virtDev_zero (λ _ a, alen a = PAGE_SIZE ∧ is_bytes a ∧
    capabilities a = new_caps ∧ ext_capabilities a = new_ext_caps ∧ pci_shape base a ∧
    Z.ldiff (load_le a 0x10 4) 0x3FFF = Z.ldiff (Z.land base 0xFFFFFFFF) 0x3FFF).
Proof.
  intros Hbase. assert (is_bytes virtDev_zero) as Hz.
  { intros i b. unfold virtDev_zero. rewrite aget_anew. case_decide; [|done]. by intros [= <-]. }
  destruct (wp_Ok _ _ _ (settings_run base)) as ([] & a & Heq & Hrun).
  eapply wp_intro; [exact Heq|]. apply (keeps_settings base virtDev_zero tt a Hz) in Heq as Hby. clear Heq.
  unfold pci_view in Hrun. rewrite !pair_equal_spec in Hrun.
  destruct Hrun as (((((Hlen & Hc) & He) & (((((H0 & H8) & H2c) & H34) & H50) & H54)) & H10) & H14).
  assert (load_le a 0x10 4 = le_combine (le_split 4
    (insert_bits 14 18 (Z.shiftr (Z.land base 0xFFFFFFFF) 14) 4))) as Hlo
    by (unfold load_le; by rewrite H10).
  assert (load_le a 0x14 4 = le_combine (le_split 4 (Z.shiftr base 32))) as Hhi
    by (unfold load_le; by rewrite H14).
  rewrite le_combine_split_4 in Hlo, Hhi.
  assert (Z.land (load_le a 0x10 4) 0x3FFF = PCI_BASE_ADDRESS_MEM_TYPE_64) as Hty;
    [|assert (load_le a 0x14 4 = base / 2 ^ 32) as Hup;
      [|assert (Z.ldiff (load_le a 0x10 4) 0x3FFF = Z.ldiff (Z.land base 0xFFFFFFFF) 0x3FFF) as Hbar;
        [|by split_and!]]]; rewrite ?Hlo, ?Hhi.
  - apply Z.bits_inj'. intros j Hj. rewrite Z.land_spec, testbit_base by done.
    change 0x3FFF with (Z.ones 14). rewrite Z.testbit_ones by lia.
    rewrite (proj2 (Z.leb_le 0 j)) by lia. simpl. destruct (decide (j < 14)).
    + rewrite (proj2 (Z.ltb_lt j 14)) by lia. rewrite decide_False by lia. apply andb_true_r.
    + rewrite (proj2 (Z.ltb_ge j 14)) by lia. rewrite andb_false_r.
      by rewrite (testbit_high PCI_BASE_ADDRESS_MEM_TYPE_64 3) by (unfold PCI_BASE_ADDRESS_MEM_TYPE_64; lia).
  - rewrite Z.land_ones, Z.shiftr_div_pow2 by lia. apply Z.mod_small.
    split; [apply Z.div_pos; lia|apply Z.div_lt_upper_bound; lia].
  - apply Z.bits_inj'. intros j Hj. rewrite !Z.ldiff_spec, testbit_base, Z.land_spec by done.
    change 0x3FFF with (Z.ones 14). change 0xFFFFFFFF with (Z.ones 32).
    rewrite !Z.testbit_ones by lia. rewrite (proj2 (Z.leb_le 0 j)) by lia. simpl.
    destruct (decide (j < 14)).
    + rewrite (proj2 (Z.ltb_lt j 14)) by lia. by rewrite !andb_false_r.
    + rewrite (proj2 (Z.ltb_ge j 14)) by lia. rewrite !andb_true_r. case_decide.
      * rewrite (proj2 (Z.ltb_lt j 32)) by lia. by rewrite andb_true_r.
      * rewrite (proj2 (Z.ltb_ge j 32)), andb_false_r by lia. apply (testbit_high 4 3); lia.
Qed.

(** C24: A new device shows the identifiers, the two capability lists and a 64-bit base
    register of 16 KiB at the reserved memory (rounded down to 16 KiB); no series of
    aligned accesses by the host changes its identifiers, class, subsystem, capability
    pointer, MSI-X tables or the type and size of the register. *)
Theorem pci_config_protected base l :
  0 ≤ base < 2 ^ 64 → Forall access_ok l →
  wp (pci_settings base) virtDev_zero (λ _ a,
    capabilities a = new_caps ∧ ext_capabilities a = new_ext_caps ∧ pci_shape base a ∧
    Z.ldiff (load_le a 0x10 4) 0x3FFF = Z.ldiff (Z.land base 0xFFFFFFFF) 0x3FFF ∧
    ∀ s, pci_cfg s = a → wp (host_writes l) s (λ _ s',
      pci_shape base (pci_cfg s') ∧ wp bar_sizing s' (λ r _, r = (0, 0xFFFFC004)))).
Proof.
  intros Hb Hl. eapply wp_mono; [by apply wp_pci_settings|].
  intros [] a (Hlen & Hby & Hc & He & Hs & Hbar). split_and!; try done. intros s <-.
  assert (pci_ok s) as Hok by by split.
  eapply wp_mono; [by apply wp_host_writes|]. intros [] s' [Hok' Hbit].
  assert (pci_shape base (pci_cfg s')) as Hs' by exact (shape_kept base s s' Hok Hok' Hbit Hs).
  split; [exact Hs'|exact (wp_bar_sizing base s' Hok' Hs')].
Qed.
Lemma pci_config_protected_witness :
  0 ≤ 0x100000000 < 2 ^ 64 ∧ Forall access_ok [Access 4 2 0x406; Access 16 4 0x80000000; Access 0x52 2 0xC000] ∧
  wp (pci_settings 0x100000000) virtDev_zero (λ _ a, capabilities a = new_caps).
Proof.
  assert (Forall access_ok [Access 4 2 0x406; Access 16 4 0x80000000; Access 0x52 2 0xC000]) as Hl.
  { repeat (apply Forall_cons; split); [..|by apply Forall_nil]; (split; [simpl; lia|]); split_and!; by vm_compute. }
  split; [lia|]. split; [done|].
  eapply wp_mono; [apply (pci_config_protected 0x100000000 _ ltac:(lia) Hl)|]. by intros [] a [H _].
Defined.
