(* ===== verification/Ctrl.v ===== *)
(** * Controller registers and the admin queue (src/pci.c, src/nvmev.h)

    The host programs the controller through registers in the first page of the BAR
    and rings doorbells in the second; both are memory, so the dispatcher finds out
    what changed by comparing with the copy it took last ([nvmev_proc_bars]).  The
    state below is the part of struct nvmev_dev that registers and admin commands
    touch.  Physical memory is a function from addresses to bytes, and the kernel's
    mapping of a page is the page's address. *)

From Stdlib Require Import ZArith Lia.
From stdpp Require Import base numbers list gmap.
From S2P Require Import Prelude Config Bytes Nvme FdpLog Dma IoData Io Pci.

#[local] Open Scope Z_scope.

(** ** Registers *)

(** The words of [struct nvme_ctrl_regs], which are those of [struct __nvme_bar]. *)
Record nvme_ctrl_regs : Type := CtrlRegs {
  r_cap : Z;
  r_vs : Z;
  r_intms : Z;
  r_intmc : Z;
  r_cc : Z;
  r_rsvd1 : Z;
  r_csts : Z;
  r_nssr : Z;
  r_aqa : Z;
  r_asq : Z;
  r_acq : Z;
  r_cmbloc : Z;
  r_cmbsz : Z;
}.

Definition set_cc (x : Z) (r : nvme_ctrl_regs) : nvme_ctrl_regs :=
  CtrlRegs (r_cap r) (r_vs r) (r_intms r) (r_intmc r) x (r_rsvd1 r) (r_csts r) (r_nssr r)
    (r_aqa r) (r_asq r) (r_acq r) (r_cmbloc r) (r_cmbsz r).
Definition set_csts (x : Z) (r : nvme_ctrl_regs) : nvme_ctrl_regs :=
  CtrlRegs (r_cap r) (r_vs r) (r_intms r) (r_intmc r) (r_cc r) (r_rsvd1 r) x (r_nssr r)
    (r_aqa r) (r_asq r) (r_acq r) (r_cmbloc r) (r_cmbsz r).
Definition set_aqa (x : Z) (r : nvme_ctrl_regs) : nvme_ctrl_regs :=
  CtrlRegs (r_cap r) (r_vs r) (r_intms r) (r_intmc r) (r_cc r) (r_rsvd1 r) (r_csts r) (r_nssr r)
    x (r_asq r) (r_acq r) (r_cmbloc r) (r_cmbsz r).
Definition set_asq (x : Z) (r : nvme_ctrl_regs) : nvme_ctrl_regs :=
  CtrlRegs (r_cap r) (r_vs r) (r_intms r) (r_intmc r) (r_cc r) (r_rsvd1 r) (r_csts r) (r_nssr r)
    (r_aqa r) x (r_acq r) (r_cmbloc r) (r_cmbsz r).
Definition set_acq (x : Z) (r : nvme_ctrl_regs) : nvme_ctrl_regs :=
  CtrlRegs (r_cap r) (r_vs r) (r_intms r) (r_intmc r) (r_cc r) (r_rsvd1 r) (r_csts r) (r_nssr r)
    (r_aqa r) (r_asq r) x (r_cmbloc r) (r_cmbsz r).

(** Bit fields of the registers. *)
Definition field (lo w x : Z) : Z := Z.land (Z.shiftr x lo) (Z.ones w).
Definition aqa_asqs (x : Z) : Z := field 0 12 x.
Definition aqa_acqs (x : Z) : Z := field 16 12 x.
Definition cc_en (x : Z) : Z := field 0 1 x.
Definition cc_shn (x : Z) : Z := field 14 2 x.
Definition csts_rdy (x : Z) : Z := field 0 1 x.
Definition csts_shst (x : Z) : Z := field 2 2 x.

Definition CAP_CSS_BIT_SPECIFIC : Z := Z.shiftl 1 6.

(** ** Queues *)

(** The page tables of the queues hold addresses; a null table is [None]. *)
Record nvmev_admin_queue : Type := AdminQueue {
  aq_phase : Z;
  aq_sq_depth : Z;
  aq_cq_depth : Z;
  aq_cq_head : Z;
  aq_nvme_sq : option (arr Z);
  aq_nvme_cq : option (arr Z);
}.

(** The I/O queues as admin commands set them up; Io has what the I/O engine does
    with them. *)
Record sq_desc : Type := SqDesc {
  sd_qid : Z;
  sd_cqid : Z;
  sd_priority : Z;
  sd_phys_contig : bool;
  sd_queue_size : Z;
  sd_sq : arr Z;
  sd_mapped : option Z;
}.
Record cq_desc : Type := CqDesc {
  cd_qid : Z;
  cd_irq_vector : Z;
  cd_irq_enabled : bool;
  cd_interrupt_ready : bool;
  cd_phys_contig : bool;
  cd_queue_size : Z;
  cd_phase : Z;
  cd_cq_head : Z;
  cd_cq_tail : Z;
  cd_cq : arr Z;
  cd_mapped : option Z;
}.

Inductive irq : Type := MsiIrq (virq : Z) | IntIrq.

(** ** The device *)

Record vdev : Type := Vdev {
  v_mem : mem;
  v_bar : nvme_ctrl_regs;
  v_old_bar : nvme_ctrl_regs;
  v_dbs : arr Z;
  v_old_dbs : arr Z;
  v_admin_q : option nvmev_admin_queue;
  v_nr_sq : Z;
  v_nr_cq : Z;
  v_sqes : arr (option sq_desc);
  v_cqes : arr (option cq_desc);
  v_fdp : fdp_ctx;
  v_pci : pci_state;
  v_irqs : list irq;
}.

Definition set_v_mem (x : mem) (v : vdev) : vdev :=
  Vdev x (v_bar v) (v_old_bar v) (v_dbs v) (v_old_dbs v) (v_admin_q v) (v_nr_sq v) 
    (v_nr_cq v) (v_sqes v) (v_cqes v) (v_fdp v) (v_pci v) (v_irqs v).
Definition set_v_bar (x : nvme_ctrl_regs) (v : vdev) : vdev :=
  Vdev (v_mem v) x (v_old_bar v) (v_dbs v) (v_old_dbs v) (v_admin_q v) (v_nr_sq v) 
    (v_nr_cq v) (v_sqes v) (v_cqes v) (v_fdp v) (v_pci v) (v_irqs v).
Definition set_v_old_bar (x : nvme_ctrl_regs) (v : vdev) : vdev :=
  Vdev (v_mem v) (v_bar v) x (v_dbs v) (v_old_dbs v) (v_admin_q v) (v_nr_sq v) (v_nr_cq v) 
    (v_sqes v) (v_cqes v) (v_fdp v) (v_pci v) (v_irqs v).
Definition set_v_dbs (x : arr Z) (v : vdev) : vdev :=
  Vdev (v_mem v) (v_bar v) (v_old_bar v) x (v_old_dbs v) (v_admin_q v) (v_nr_sq v) 
    (v_nr_cq v) (v_sqes v) (v_cqes v) (v_fdp v) (v_pci v) (v_irqs v).
Definition set_v_old_dbs (x : arr Z) (v : vdev) : vdev :=
  Vdev (v_mem v) (v_bar v) (v_old_bar v) (v_dbs v) x (v_admin_q v) (v_nr_sq v) (v_nr_cq v) 
    (v_sqes v) (v_cqes v) (v_fdp v) (v_pci v) (v_irqs v).
Definition set_v_admin_q (x : option nvmev_admin_queue) (v : vdev) : vdev :=
  Vdev (v_mem v) (v_bar v) (v_old_bar v) (v_dbs v) (v_old_dbs v) x (v_nr_sq v) (v_nr_cq v) 
    (v_sqes v) (v_cqes v) (v_fdp v) (v_pci v) (v_irqs v).
Definition set_v_nr_sq (x : Z) (v : vdev) : vdev :=
  Vdev (v_mem v) (v_bar v) (v_old_bar v) (v_dbs v) (v_old_dbs v) (v_admin_q v) x 
    (v_nr_cq v) (v_sqes v) (v_cqes v) (v_fdp v) (v_pci v) (v_irqs v).
Definition set_v_nr_cq (x : Z) (v : vdev) : vdev :=
  Vdev (v_mem v) (v_bar v) (v_old_bar v) (v_dbs v) (v_old_dbs v) (v_admin_q v) (v_nr_sq v) 
    x (v_sqes v) (v_cqes v) (v_fdp v) (v_pci v) (v_irqs v).
Definition set_v_sqes (x : arr (option sq_desc)) (v : vdev) : vdev :=
  Vdev (v_mem v) (v_bar v) (v_old_bar v) (v_dbs v) (v_old_dbs v) (v_admin_q v) (v_nr_sq v) 
    (v_nr_cq v) x (v_cqes v) (v_fdp v) (v_pci v) (v_irqs v).
Definition set_v_cqes (x : arr (option cq_desc)) (v : vdev) : vdev :=
  Vdev (v_mem v) (v_bar v) (v_old_bar v) (v_dbs v) (v_old_dbs v) (v_admin_q v) (v_nr_sq v) 
    (v_nr_cq v) (v_sqes v) x (v_fdp v) (v_pci v) (v_irqs v).
Definition set_v_fdp (x : fdp_ctx) (v : vdev) : vdev :=
  Vdev (v_mem v) (v_bar v) (v_old_bar v) (v_dbs v) (v_old_dbs v) (v_admin_q v) (v_nr_sq v) 
    (v_nr_cq v) (v_sqes v) (v_cqes v) x (v_pci v) (v_irqs v).
Definition set_v_pci (x : pci_state) (v : vdev) : vdev :=
  Vdev (v_mem v) (v_bar v) (v_old_bar v) (v_dbs v) (v_old_dbs v) (v_admin_q v) (v_nr_sq v) 
    (v_nr_cq v) (v_sqes v) (v_cqes v) (v_fdp v) x (v_irqs v).
Definition set_v_irqs (x : list irq) (v : vdev) : vdev :=
  Vdev (v_mem v) (v_bar v) (v_old_bar v) (v_dbs v) (v_old_dbs v) (v_admin_q v) (v_nr_sq v) 
    (v_nr_cq v) (v_sqes v) (v_cqes v) (v_fdp v) (v_pci v) x.

(** ** Memory *)

(** Writing the bytes [l] at [a]. *)
Definition mem_write (a : Z) (l : list Z) (m : mem) : mem :=
  λ x, if in_range (Z.of_nat (length l)) (x - a) then default 0 (l !! Z.to_nat (x - a)) else m x.
(** The little-endian unit of [n] bytes at [a]. *)
Definition mem_read (m : mem) (a n : Z) : Z := le_combine (map m (seqZ a n)).

Definition ld (a n : Z) : M vdev Z := gets (λ v, mem_read (v_mem v) a n).
Definition st (a : Z) (l : list Z) : M vdev unit := modify (λ v, set_v_mem (mem_write a l (v_mem v)) v).

(** [page_address(pfn_to_page(addr >> PAGE_SHIFT) + i)] *)
Definition page_of (addr i : Z) : Z := Z.shiftl (Z.shiftr addr PAGE_SHIFT + i) PAGE_SHIFT.
Definition prp_address_offset (prp offset : Z) : Z := page_of prp offset + Z.land prp PAGE_OFFSET_MASK.
Definition prp_address (prp : Z) : Z := prp_address_offset prp 0.

(** ** Interrupts *)

Section ctrl.
Context (msi_get_virq : Z → Z).

Definition process_msi_irq (msi_index : Z) : M vdev unit :=
  let virq := msi_get_virq msi_index in
  if virq =? 0 then throw BUG
  else modify (λ v, set_v_irqs (v_irqs v ++ [MsiIrq virq]) v).

Definition nvmev_signal_irq (msi_index : Z) : M vdev unit :=
  v ← get;
  msix_enabled ← deref (pci_msix (v_pci v));
  if (msix_enabled : bool) then process_msi_irq msi_index
  else
    zoom v_pci set_v_pci (zoom pci_cfg set_cfg (set_field PCI_STATUS 1 3 1 1)) ;;
    modify (λ v, set_v_irqs (v_irqs v ++ [IntIrq]) v).
End ctrl.

(** ** Register changes *)

Definition write_dbs (i x : Z) : M vdev unit :=
  v ← get;
  old ← awrite (v_old_dbs v) i x;
  new ← awrite (v_dbs v) i x;
  put (set_v_dbs new (set_v_old_dbs old v)).

Definition set_old_bar (f : nvme_ctrl_regs → nvme_ctrl_regs) : M vdev unit :=
  modify (λ v, set_v_old_bar (f (v_old_bar v)) v).

Definition sizeof_nvme_command : Z := 64.
Definition sizeof_nvme_completion : Z := 16.

(** The pages of a queue of [depth] entries of [size] bytes. *)
Definition queue_pages (addr depth size : Z) : arr Z :=
  let num_pages := DIV_ROUND_UP (depth * size) PAGE_SIZE in
  abuild num_pages 0 (page_of addr).

Definition bars_aqa : M vdev unit :=
  v ← get;
  let aqa := r_aqa (v_bar v) in
  set_old_bar (set_aqa aqa) ;;
  let '(sq, cq) := match v_admin_q v with
                   | None => (None, None)
                   | Some q => (aq_nvme_sq q, aq_nvme_cq q)
                   end in
  modify (set_v_admin_q (Some (AdminQueue 1 (aqa_asqs aqa + 1) (aqa_acqs aqa + 1) 0 sq cq))) ;;
  write_dbs 0 0 ;;
  write_dbs 1 0.

Definition bars_asq (q : nvmev_admin_queue) : M vdev unit :=
  v ← get;
  let asq := r_asq (v_bar v) in
  set_old_bar (set_asq asq) ;;
  let sq_depth := aqa_asqs (r_aqa (v_bar v)) + 1 in
  modify (set_v_admin_q (Some (AdminQueue (aq_phase q) sq_depth (aq_cq_depth q) (aq_cq_head q)
    (Some (queue_pages asq sq_depth sizeof_nvme_command)) (aq_nvme_cq q)))) ;;
  write_dbs 0 0.

Definition bars_acq (q : nvmev_admin_queue) : M vdev unit :=
  v ← get;
  let acq := r_acq (v_bar v) in
  set_old_bar (set_acq acq) ;;
  let cq_depth := aqa_acqs (r_aqa (v_bar v)) + 1 in
  modify (set_v_admin_q (Some (AdminQueue 1 (aq_sq_depth q) cq_depth 0 (aq_nvme_sq q)
    (Some (queue_pages acq cq_depth sizeof_nvme_completion))))) ;;
  write_dbs 1 0.

Definition bars_cc : M vdev unit :=
  v ← get;
  let cc := r_cc (v_bar v) in
  let set_bar_csts f := modify (λ v, set_v_bar (set_csts (f (r_csts (v_bar v))) (v_bar v)) v) in
  (if cc_en cc =? 1 then
     match v_admin_q v with
     | Some _ => set_bar_csts (insert_bits 0 1 1)
     | None => mret tt
     end
   else when (cc_en cc =? 0) (set_bar_csts (insert_bits 0 1 0))) ;;
  when (cc_shn cc =? 1)
    (set_bar_csts (insert_bits 2 2 2) ;;
     write_dbs 0 0 ;;
     write_dbs 1 0 ;;
     v ← get;
     q ← deref (v_admin_q v);
     put (set_v_admin_q (Some (AdminQueue (aq_phase q) (aq_sq_depth q) (aq_cq_depth q) 0
       (aq_nvme_sq q) (aq_nvme_cq q))) v)) ;;
  set_old_bar (set_cc cc).

(** The first register found changed is processed; true if there was one. *)
Definition nvmev_proc_bars : M vdev bool :=
  v ← get;
  let old := v_old_bar v in
  let bar := v_bar v in
  if negb (r_aqa old =? r_aqa bar) then bars_aqa ;; mret true
  else if negb (r_asq old =? r_asq bar) then
    match v_admin_q v with
    | None => mret true
    | Some q => bars_asq q ;; mret true
    end
  else if negb (r_acq old =? r_acq bar) then
    match v_admin_q v with
    | None => mret true
    | Some q => bars_acq q ;; mret true
    end
  else if negb (r_cc old =? r_cc bar) then bars_cc ;; mret true
  else mret false.

(** ** Start-up *)

(** [__init_nvme_ctrl_regs]; [zns]: the build supports zoned namespaces. *)
Definition init_nvme_ctrl_regs (zns : bool) : nvme_ctrl_regs :=
  let cap := insert_bits 24 8 1 (insert_bits 0 16 (1024 - 1) 0) in
  CtrlRegs (if zns then insert_bits 37 8 CAP_CSS_BIT_SPECIFIC cap else cap)
    (insert_bits 16 16 1 0) 0 0 0 0 0 0 0 0 0 0 0.

(** What [__create_pci_bus] does with the registers of the new device. *)
Definition create_pci_bus (zns : bool) : M vdev unit :=
  v ← get;
  let bar := init_nvme_ctrl_regs zns in
  let dbs := anew (PAGE_SIZE / 4) 0 in
  db0 ← aread dbs 0;
  old_dbs ← awrite (anew (PAGE_SIZE / 4) 0) 0 db0;
  put (set_v_pci (PciState (pci_cfg (v_pci v)) (pci_intx_disabled (v_pci v)) (Some false))
    (set_v_bar bar (set_v_old_bar bar (set_v_dbs dbs (set_v_old_dbs old_dbs v))))).

(** [VDEV_INIT] and [NVMEV_PCI_INIT]: the device before its namespaces are used;
    the memory is what the machine holds. *)
Definition VDEV_INIT (m : mem) (fdp : fdp_ctx) : vdev :=
  let zero := CtrlRegs 0 0 0 0 0 0 0 0 0 0 0 0 0 in
  Vdev m zero zero (anew 0 0) (anew 0 0) None 0 0 (anew (NR_MAX_IO_QUEUE + 1) None)
    (anew (NR_MAX_IO_QUEUE + 1) None) fdp (PciState virtDev_zero false None) [].
Definition NVMEV_PCI_INIT (zns : bool) (memmap_start : Z) : M vdev bool :=
  zoom v_pci set_v_pci (zoom pci_cfg set_cfg (pci_settings memmap_start)) ;;
  modify (λ v, set_v_pci (PciState (pci_cfg (v_pci v)) false (pci_msix (v_pci v))) v) ;;
  create_pci_bus zns ;;
  mret true.
