(* ===== verification/CtrlProps.v ===== *)
(** * Theorems on the controller registers

    Bringing the controller up: whenever the dispatcher looks between the register
    writes of the host, it ends with the same admin queue and the controller ready.
    A reset that leaves the queue registers as they are keeps the old queue state. *)

From Stdlib Require Import ZArith Lia.
From stdpp Require Import base numbers list gmap.
From S2P Require Import Prelude Config Bytes Nvme FdpLog Dma IoData Io Pci PciProps Ctrl.

#[local] Open Scope Z_scope.

(** ** The host and the dispatcher *)

Inductive ctrl_event : Type :=
| HostAqa (x : Z) | HostAsq (x : Z) | HostAcq (x : Z) | HostCc (x : Z) | Poll.
#[export] Instance ctrl_event_eq_dec : EqDecision ctrl_event.
Proof. solve_decision. Defined.

Definition set_bar (f : nvme_ctrl_regs → nvme_ctrl_regs) : M vdev unit :=
  modify (λ v, set_v_bar (f (v_bar v)) v).
Definition ctrl_step (e : ctrl_event) : M vdev unit :=
  match e with
  | HostAqa x => set_bar (set_aqa x)
  | HostAsq x => set_bar (set_asq x)
  | HostAcq x => set_bar (set_acq x)
  | HostCc x => set_bar (set_cc x)
  | Poll => nvmev_proc_bars ;; mret tt
  end.
Definition ctrl_run (l : list ctrl_event) : M vdev unit := for_list l ctrl_step.

(** The dispatcher looks until nothing is left to do. *)
Fixpoint settle (n : nat) : M vdev unit :=
  match n with
  | O => throw HANG
  | S n' => b ← nvmev_proc_bars; if (b : bool) then settle n' else mret tt
  end.

(** A controller that was just created. *)
Record fresh (v : vdev) : Prop := {
  fr_old : v_old_bar v = v_bar v;
  fr_regs : r_aqa (v_bar v) = 0 ∧ r_asq (v_bar v) = 0 ∧ r_acq (v_bar v) = 0 ∧ r_cc (v_bar v) = 0;
  fr_csts : r_csts (v_bar v) = 0;
  fr_queue : v_admin_q v = None;
  fr_dbs : alen (v_dbs v) = 1024 ∧ alen (v_old_dbs v) = 1024;
}.

Lemma wp_write_dbs i x v :
  alen (v_dbs v) = 1024 → alen (v_old_dbs v) = 1024 → 0 ≤ i < 1024 →
  wp (write_dbs i x) v (λ _ v', v' =
    set_v_dbs (aset (v_dbs v) i x) (set_v_old_dbs (aset (v_old_dbs v) i x) v)).
Proof.
  intros H1 H2 Hi. unfold write_dbs. wp_steps. apply wp_awrite; [lia|]. wp_steps.
  apply wp_awrite; [lia|]. by wp_steps.
Qed.

Section bring_up.
Context (A S C K : Z) (v0 : vdev).
Hypothesis A_set : A ≠ 0.
Hypothesis S_set : S ≠ 0.
Hypothesis C_set : C ≠ 0.
Hypothesis K_set : K ≠ 0.
Hypothesis K_en : cc_en K = 1.
Hypothesis K_shn : cc_shn K = 0.
Hypothesis v0_fresh : fresh v0.

(** The series of events in which the host writes each register once, the control
    register last, and the dispatcher looks at any time. *)
Definition is_poll (e : ctrl_event) : bool := match e with Poll => true | _ => false end.
Definition programs (l : list ctrl_event) : Prop :=
  ∃ p, filter (λ e, is_poll e = false) l = p ++ [HostCc K] ∧
       p ≡ₚ [HostAqa A; HostAsq S; HostAcq C].

(** Which registers the host has written and which the dispatcher has seen. *)
Record progress : Type := Progress {
  wa : bool; ws : bool; wc : bool; wk : bool;
  sa : bool; ss : bool; sc : bool; sk : bool;
}.
Definition reg (b : bool) (x : Z) : Z := if b then x else 0.
Definition progress_ok (b : progress) : Prop :=
  implb (sa b) (wa b) && implb (ss b) (ws b && sa b) && implb (sc b) (wc b && sa b) &&
  implb (wk b) (wa b && ws b && wc b) && implb (sk b) (wk b && sa b && ss b && sc b) = true.

(** The admin queue the host asks for. *)
Definition asked_queue (b : progress) : nvmev_admin_queue :=
  AdminQueue 1 (aqa_asqs A + 1) (aqa_acqs A + 1) 0
    (if ss b then Some (queue_pages S (aqa_asqs A + 1) sizeof_nvme_command) else None)
    (if sc b then Some (queue_pages C (aqa_acqs A + 1) sizeof_nvme_completion) else None).

Definition state_of (b : progress) (dbs old_dbs : arr Z) : vdev :=
  let bar := set_cc (reg (wk b) K) (set_csts (reg (sk b) 1)
    (set_aqa (reg (wa b) A) (set_asq (reg (ws b) S) (set_acq (reg (wc b) C) (v_bar v0))))) in
  let old := set_cc (reg (sk b) K)
    (set_aqa (reg (sa b) A) (set_asq (reg (ss b) S) (set_acq (reg (sc b) C) (v_bar v0)))) in
  set_v_dbs dbs (set_v_old_dbs old_dbs (set_v_bar bar (set_v_old_bar old
    (set_v_admin_q (if sa b then Some (asked_queue b) else None) v0)))).

Definition pending (b : progress) : nat :=
  (if sa b then 0 else 1) + (if ss b then 0 else 1) + (if sc b then 0 else 1) + (if sk b then 0 else 1).

(** The next thing the dispatcher sees. *)
Definition look (b : progress) : bool * progress :=
  if wa b && negb (sa b) then (true, Progress (wa b) (ws b) (wc b) (wk b) true (ss b) (sc b) (sk b))
  else if ws b && negb (ss b) then
    (true, if sa b then Progress (wa b) (ws b) (wc b) (wk b) (sa b) true (sc b) (sk b) else b)
  else if wc b && negb (sc b) then
    (true, if sa b then Progress (wa b) (ws b) (wc b) (wk b) (sa b) (ss b) true (sk b) else b)
  else if wk b && negb (sk b) then
    (true, Progress (wa b) (ws b) (wc b) (wk b) (sa b) (ss b) (sc b) true)
  else (false, b).

Lemma reg_neq x b1 b2 : x ≠ 0 → (reg b1 x =? reg b2 x) = Bool.eqb b1 b2.
Proof.
  intros H. unfold reg. destruct b1, b2; [apply Z.eqb_refl| | |done]; apply Z.eqb_neq; lia.
Qed.

(** The doorbell pages along the way. *)
Definition dbs_like (b : progress) (d o : arr Z) : Prop :=
  alen d = 1024 ∧ alen o = 1024 ∧
  ∀ i, (sa b = true → 0 ≤ i < 2 → aget d i = Some 0 ∧ aget o i = Some 0) ∧
       (¬ 0 ≤ i < 2 → aget d i = aget (v_dbs v0) i ∧ aget o i = aget (v_old_dbs v0) i).
Definition shape (b : progress) (v : vdev) : Prop :=
  progress_ok b ∧ ∃ d o, v = state_of b d o ∧ dbs_like b d o.

Lemma dbs_like_aset b b' d o i :
  dbs_like b d o → sa b = true → 0 ≤ i < 2 → dbs_like b' (aset d i 0) (aset o i 0).
Proof.
  intros (Hd & Ho & H) Hs Hi. split_and!; [by rewrite alen_aset|by rewrite alen_aset|].
  intros j. destruct (H j) as [Hin Hout]. rewrite !aget_aset by lia. split.
  - intros _ Hj. case_decide; [done|]. by apply Hin.
  - intros Hj. rewrite !decide_False by lia. by apply Hout.
Qed.

Lemma dbs_like_aqa b b' d o :
  dbs_like b d o → dbs_like b' (aset (aset d 0 0) 1 0) (aset (aset o 0 0) 1 0).
Proof.
  intros (Hd & Ho & H). split_and!; [by rewrite !alen_aset|by rewrite !alen_aset|].
  intros j. destruct (H j) as [_ Hout]. rewrite !aget_aset by (rewrite ?alen_aset; lia). split.
  - intros _ Hj. destruct (decide (j = 0)) as [->|]; [done|]. rewrite !decide_True by lia. done.
  - intros Hj. rewrite !decide_False by lia. by apply Hout.
Qed.

Ltac destruct_bools := repeat match goal with b : bool |- _ => destruct b end.
Ltac absurd_bools H := exfalso; clear -H; unfold progress_ok in H; destruct_bools; discriminate H.
Ltac flat := cbn [state_of v_mem v_bar v_old_bar v_dbs v_old_dbs v_admin_q v_nr_sq v_nr_cq v_sqes v_cqes
  v_fdp v_pci v_irqs set_v_dbs set_v_old_dbs set_v_bar set_v_old_bar set_v_admin_q
  set_cc set_csts set_aqa set_asq set_acq r_cap r_vs r_intms r_intmc r_rsvd1 r_csts r_nssr r_cmbloc
  r_cmbsz r_aqa r_asq r_acq r_cc wa ws wc wk sa ss sc sk asked_queue aq_phase aq_sq_depth aq_cq_depth
  aq_cq_head aq_nvme_sq aq_nvme_cq reg andb negb Bool.eqb fst snd look] in *.

Lemma look_aqa w1 w2 w3 d o (b := Progress true w1 w2 w3 false false false false) :
  dbs_like b d o → progress_ok b →
  wp bars_aqa (state_of b d o) (λ _ v', shape (Progress true w1 w2 w3 true false false false) v').
Proof.
  intros Hdb Hok. pose proof Hdb as (Hd & Ho & _). unfold bars_aqa, set_old_bar. wp_steps. subst b. flat.
  wp_steps. flat.
  eapply wp_mono; [by apply wp_write_dbs|]. intros [] v ->. flat.
  eapply wp_mono; [apply wp_write_dbs; flat; rewrite ?alen_aset; done|]. intros [] v ->. flat.
  split.
  - by destruct_bools.
  - eexists _, _. split; [reflexivity|]. by apply (dbs_like_aqa _ _ _ _ Hdb).
Qed.

Lemma look_asq w2 w3 s3 d o (b := Progress true true w2 w3 true false s3 false) :
  dbs_like b d o → progress_ok b →
  wp (bars_asq (asked_queue b)) (state_of b d o)
    (λ _ v', shape (Progress true true w2 w3 true true s3 false) v').
Proof.
  intros Hdb Hok. pose proof Hdb as (Hd & Ho & _). unfold bars_asq, set_old_bar. wp_steps. subst b. flat.
  eapply wp_mono; [by apply wp_write_dbs|]. intros [] v ->. flat.
  split.
  - by destruct_bools.
  - eexists _, _. split; [reflexivity|]. by apply (dbs_like_aset _ _ _ _ _ Hdb).
Qed.

Lemma look_acq w1 w3 s2 d o (b := Progress true w1 true w3 true s2 false false) :
  dbs_like b d o → progress_ok b →
  wp (bars_acq (asked_queue b)) (state_of b d o)
    (λ _ v', shape (Progress true w1 true w3 true s2 true false) v').
Proof.
  intros Hdb Hok. pose proof Hdb as (Hd & Ho & _). unfold bars_acq, set_old_bar. wp_steps. subst b. flat.
  eapply wp_mono; [by apply wp_write_dbs|]. intros [] v ->. flat.
  split.
  - by destruct_bools.
  - eexists _, _. split; [reflexivity|]. by apply (dbs_like_aset _ _ _ _ _ Hdb).
Qed.

Lemma look_cc d o (b := Progress true true true true true true true false) :
  dbs_like b d o →
  wp bars_cc (state_of b d o) (λ _ v', shape (Progress true true true true true true true true) v').
Proof.
  intros Hdb. unfold bars_cc, set_old_bar. wp_step. wp_step. subst b. flat. rewrite K_en, K_shn. flat.
  cbn [Z.eqb Pos.eqb when]. wp_steps. flat.
  split; [done|]. eexists _, _. split; [reflexivity|done].
Qed.

Lemma state_regs b d o (v := state_of b d o) :
  r_aqa (v_old_bar v) = reg (sa b) A ∧ r_aqa (v_bar v) = reg (wa b) A ∧
  r_asq (v_old_bar v) = reg (ss b) S ∧ r_asq (v_bar v) = reg (ws b) S ∧
  r_acq (v_old_bar v) = reg (sc b) C ∧ r_acq (v_bar v) = reg (wc b) C ∧
  r_cc (v_old_bar v) = reg (sk b) K ∧ r_cc (v_bar v) = reg (wk b) K ∧
  v_admin_q v = if sa b then Some (asked_queue b) else None.
Proof. done. Qed.

Lemma wp_look b v :
  shape b v → wp nvmev_proc_bars v (λ r v', r = (look b).1 ∧ shape (look b).2 v').
Proof.
  intros [Hok (d & o & -> & Hdb)]. unfold nvmev_proc_bars. wp_step. wp_step.
  destruct (state_regs b d o) as (-> & -> & -> & -> & -> & -> & -> & -> & ->).
  rewrite !reg_neq by done.
  assert (shape b (state_of b d o)) as Hsame by (split; [done|]; by eexists _, _).
  destruct b as [w1 w2 w3 w4 s1 s2 s3 s4].
  cbn [wa ws wc wk sa ss sc sk look andb negb Bool.eqb fst snd].
  destruct w1, s1; cbn [andb negb Bool.eqb fst snd].
  - destruct w2, s2; cbn [andb negb Bool.eqb fst snd]; try absurd_bools Hok.
    + destruct w3, s3; cbn [andb negb Bool.eqb fst snd]; try absurd_bools Hok.
      * destruct w4, s4; cbn [andb negb Bool.eqb fst snd]; try absurd_bools Hok.
        -- by wp_step.
        -- wp_step. eapply wp_mono; [exact (look_cc _ _ Hdb)|]. intros [] v' H. by wp_step.
        -- by wp_step.
      * wp_step. destruct s4; [absurd_bools Hok|].
        eapply wp_mono; [exact (look_acq _ _ _ _ _ Hdb Hok)|]. intros [] v' H. by wp_step.
      * destruct w4, s4; try absurd_bools Hok. cbn [andb negb Bool.eqb fst snd]. by wp_step.
    + wp_step. destruct s4; [absurd_bools Hok|].
      eapply wp_mono; [exact (look_asq _ _ _ _ _ Hdb Hok)|]. intros [] v' H. by wp_step.
    + destruct w3, s3; cbn [andb negb Bool.eqb fst snd]; try absurd_bools Hok.
      * destruct w4, s4; try absurd_bools Hok. cbn [andb negb Bool.eqb fst snd]. by wp_step.
      * wp_step. destruct s4; [absurd_bools Hok|].
        eapply wp_mono; [exact (look_acq _ _ _ _ _ Hdb Hok)|]. intros [] v' H. by wp_step.
      * destruct w4, s4; try absurd_bools Hok. cbn [andb negb Bool.eqb fst snd]. by wp_step.
  - wp_step. destruct s2, s3, s4; try absurd_bools Hok.
    eapply wp_mono; [exact (look_aqa _ _ _ _ _ Hdb Hok)|]. intros [] v' H. by wp_step.
  - absurd_bools Hok.
  - destruct s2, s3, s4; try absurd_bools Hok. destruct w4; [absurd_bools Hok|].
    destruct w2, w3; cbn [andb negb Bool.eqb fst snd]; by wp_step.
Qed.
Lemma look_writes b :
  wa (look b).2 = wa b ∧ ws (look b).2 = ws b ∧ wc (look b).2 = wc b ∧ wk (look b).2 = wk b.
Proof. destruct b as [w1 w2 w3 w4 s1 s2 s3 s4]. unfold look. simpl. by destruct w1, w2, w3, w4, s1, s2, s3, s4. Qed.

(** With everything written the dispatcher looks at most four more times. *)
Definition all_written (b : progress) : Prop := wa b = true ∧ ws b = true ∧ wc b = true ∧ wk b = true.
Definition done_progress : progress := Progress true true true true true true true true.

Lemma look_pending b :
  progress_ok b → all_written b →
  if (look b).1 then (pending (look b).2 < pending b)%nat else b = done_progress.
Proof.
  destruct b as [w1 w2 w3 w4 s1 s2 s3 s4]. intros Hok (H1 & H2 & H3 & H4). simpl in *. subst.
  unfold progress_ok in Hok. simpl in Hok.
  destruct s1, s2, s3, s4; try discriminate Hok; unfold pending; simpl; (done || lia).
Qed.

Lemma wp_settle n b v :
  shape b v → all_written b → (pending b < n)%nat →
  wp (settle n) v (λ _ v', shape done_progress v').
Proof.
  revert b v. induction n as [|n IH]; intros b v Hs Hw Hn; [lia|]. simpl. wp_step.
  eapply wp_mono; [by apply wp_look|]. intros r v' [-> Hs'].
  pose proof (look_pending b ltac:(by destruct Hs) Hw) as Hp.
  destruct (look b) as [r b'] eqn:E. cbn [fst snd] in *. destruct r.
  - apply (IH b'); [done| |lia]. pose proof (look_writes b) as Hlw. rewrite E in Hlw. simpl in Hlw.
    destruct Hw as (H1 & H2 & H3 & H4), Hlw as (L1 & L2 & L3 & L4). split_and!; congruence.
  - subst b. wp_step. cbv in E. by injection E as <-.
Qed.

(** The state reflects which registers were written so far. *)
Definition flags (l : list ctrl_event) : bool * bool * bool * bool :=
  (bool_decide (HostAqa A ∈ l), bool_decide (HostAsq S ∈ l), bool_decide (HostAcq C ∈ l),
   bool_decide (HostCc K ∈ l)).
Definition written_by (l : list ctrl_event) (v : vdev) : Prop :=
  ∃ b, shape b v ∧ (wa b, ws b, wc b, wk b) = flags l.

Lemma bool_decide_snoc (e x : ctrl_event) l :
  bool_decide (e ∈ l ++ [x]) = bool_decide (e ∈ l) || bool_decide (e = x).
Proof.
  rewrite (bool_decide_ext _ (e ∈ l ∨ e = x)); [apply bool_decide_or|].
  by rewrite elem_of_app, list_elem_of_singleton.
Qed.

Lemma flags_snoc l x : flags (l ++ [x]) =
  let '(f1, f2, f3, f4) := flags l in
  (f1 || bool_decide (HostAqa A = x), f2 || bool_decide (HostAsq S = x),
   f3 || bool_decide (HostAcq C = x), f4 || bool_decide (HostCc K = x)).
Proof. unfold flags. by rewrite !bool_decide_snoc. Qed.

Lemma wp_ctrl_step l x v :
  written_by l v →
  x ∈ [HostAqa A; HostAsq S; HostAcq C; HostCc K; Poll] →
  (x = HostCc K → HostAqa A ∈ l ∧ HostAsq S ∈ l ∧ HostAcq C ∈ l) →
  wp (ctrl_step x) v (λ _ v', written_by (l ++ [x]) v').
Proof.
  intros (b & Hs & Hf) Hx Hcc. unfold written_by. rewrite flags_snoc, <- Hf. cbn beta iota.
  destruct (decide (x = Poll)) as [->|Hnp].
  { cbn [ctrl_step]. wp_step. eapply wp_mono; [by apply wp_look|]. intros r v' [_ Hs']. wp_step.
    exists (look b).2. destruct (look_writes b) as (-> & -> & -> & ->).
    rewrite !(bool_decide_eq_false_2 (_ = Poll)), !orb_false_r by done. by split. }
  destruct Hs as [Hok (d & o & -> & Hdb)]. destruct b as [w1 w2 w3 w4 s1 s2 s3 s4].
  cbn [wa ws wc wk] in *.
  assert (x = HostAqa A ∨ x = HostAsq S ∨ x = HostAcq C ∨ x = HostCc K) as Hcase.
  { rewrite !elem_of_cons, elem_of_nil in Hx. clear -Hx Hnp. tauto. }
  destruct Hcase as [-> | [-> | [-> | ->]]]; cbn [ctrl_step]; unfold set_bar; wp_step.
  - exists (Progress true w2 w3 w4 s1 s2 s3 s4). rewrite (bool_decide_eq_true_2 (HostAqa A = _)) by done.
    rewrite !(bool_decide_eq_false_2 (_ = HostAqa A)), !orb_false_r, orb_true_r by done.
    split; [|done]. split; [|by eexists _, _]. clear -Hok. unfold progress_ok in *. simpl in *.
    by destruct w1, w2, w3, w4, s1, s2, s3, s4.
  - exists (Progress w1 true w3 w4 s1 s2 s3 s4). rewrite (bool_decide_eq_true_2 (HostAsq S = _)) by done.
    rewrite !(bool_decide_eq_false_2 (_ = HostAsq S)), !orb_false_r, orb_true_r by done.
    split; [|done]. split; [|by eexists _, _]. clear -Hok. unfold progress_ok in *. simpl in *.
    by destruct w1, w2, w3, w4, s1, s2, s3, s4.
  - exists (Progress w1 w2 true w4 s1 s2 s3 s4). rewrite (bool_decide_eq_true_2 (HostAcq C = _)) by done.
    rewrite !(bool_decide_eq_false_2 (_ = HostAcq C)), !orb_false_r, orb_true_r by done.
    split; [|done]. split; [|by eexists _, _]. clear -Hok. unfold progress_ok in *. simpl in *.
    by destruct w1, w2, w3, w4, s1, s2, s3, s4.
  - exists (Progress w1 w2 w3 true s1 s2 s3 s4). rewrite (bool_decide_eq_true_2 (HostCc K = _)) by done.
    rewrite !(bool_decide_eq_false_2 (_ = HostCc K)), !orb_false_r, orb_true_r by done.
    split; [|done]. split; [|by eexists _, _].
    destruct (Hcc eq_refl) as (I1 & I2 & I3). unfold flags in Hf.
    rewrite !bool_decide_eq_true_2 in Hf by done. injection Hf as -> -> -> _.
    clear -Hok. unfold progress_ok in *. simpl in *. by destruct w4, s1, s2, s3, s4.
Qed.

(** What the order of the host's writes means for a prefix. *)
Lemma programs_step l l1 x l2 :
  programs l → l = l1 ++ x :: l2 →
  x ∈ [HostAqa A; HostAsq S; HostAcq C; HostCc K; Poll] ∧
  (x = HostCc K → HostAqa A ∈ l1 ∧ HostAsq S ∈ l1 ∧ HostAcq C ∈ l1).
Proof.
  intros (p & Hf & Hp) ->. rewrite filter_app, filter_cons in Hf.
  assert (HostCc K ∉ p) as Hnot by (rewrite Hp; set_solver).
  destruct (decide (is_poll x = false)) as [Hx|Hx].
  2:{ destruct x; try (by destruct Hx). split; [set_solver|done]. }
  split.
  - assert (x ∈ p ++ [HostCc K]) as Hin by (rewrite <- Hf; set_solver). rewrite Hp in Hin. set_solver.
  - intros ->. assert (filter (λ e, is_poll e = false) l1 = p) as Hl1.
    { revert Hf Hnot. generalize (filter (λ e, is_poll e = false) l1) as q,
        (filter (λ e, is_poll e = false) l2) as r. clear. intros q r.
      revert p. induction q as [|y q IH]; intros p Hf Hnot; destruct p as [|z p]; simpl in *; try done.
      - injection Hf as <- _. destruct Hnot. apply list_elem_of_here.
      - injection Hf as _ Hf. by destruct q.
      - injection Hf as -> Hf. f_equal. apply IH; [done|]. intros Hin. apply Hnot. by right. }
    assert (∀ e, e ∈ p → e ∈ l1) as Hsub by (intros e; rewrite <- Hl1, list_elem_of_filter; by intros []).
    split_and!; apply Hsub; rewrite Hp; set_solver.
Qed.

Lemma programs_all l : programs l → flags l = (true, true, true, true).
Proof.
  intros (p & Hf & Hp). unfold flags.
  assert (∀ e, e ∈ p ++ [HostCc K] → e ∈ l) as Hsub
    by (intros e; rewrite <- Hf, list_elem_of_filter; by intros []).
  rewrite !bool_decide_eq_true_2; [done|..]; apply Hsub; rewrite ?Hp; set_solver.
Qed.

Lemma fresh_shape : shape (Progress false false false false false false false false) v0.
Proof.
  destruct v0_fresh as [Hold (Ha & Hs & Hc & Hk) Hst Hq (Hd & Ho)]. split; [done|].
  exists (v_dbs v0), (v_old_dbs v0). split; [|split_and!; [done|done|intros i; by split]].
  clear -Hold Ha Hs Hc Hk Hst Hq. unfold state_of. destruct v0 as [m [] old ? ? ? ? ? ? ? ? ? ?]. simpl in *.
  by subst.
Qed.

Lemma wp_bring_up l :
  programs l → wp (ctrl_run l ;; settle 5) v0 (λ _ v, shape done_progress v).
Proof.
  intros Hl. wp_step. apply (wp_for_list written_by).
  - exists (Progress false false false false false false false false). split; [apply fresh_shape|done].
  - intros l1 x l2 v Heq Hw. destruct (programs_step _ _ _ _ Hl Heq) as [Hx Hcc].
    by apply wp_ctrl_step.
  - intros v (b & Hs & Hf). rewrite (programs_all _ Hl) in Hf. injection Hf as H1 H2 H3 H4.
    apply (wp_settle _ b); [done|done|]. unfold pending. destruct (sa b), (ss b), (sc b), (sk b); lia.
Qed.
End bring_up.

(** The controller is up: the admin queue of the host, empty, in its first phase. *)
Record ready (A S C : Z) (v : vdev) : Prop := {
  rd_queue : v_admin_q v = Some (AdminQueue 1 (aqa_asqs A + 1) (aqa_acqs A + 1) 0
    (Some (queue_pages S (aqa_asqs A + 1) sizeof_nvme_command))
    (Some (queue_pages C (aqa_acqs A + 1) sizeof_nvme_completion)));
  rd_rdy : csts_rdy (r_csts (v_bar v)) = 1;
  rd_dbs i : 0 ≤ i < 2 → aget (v_dbs v) i = Some 0 ∧ aget (v_old_dbs v) i = Some 0;
  rd_quiet : nvmev_proc_bars v = Ok (false, v);
}.
(** Nothing but registers, doorbells and the admin queue differs. *)
Definition same_rest (v v' : vdev) : Prop :=
  v_mem v' = v_mem v ∧ v_nr_sq v' = v_nr_sq v ∧ v_nr_cq v' = v_nr_cq v ∧ v_sqes v' = v_sqes v ∧
  v_cqes v' = v_cqes v ∧ v_fdp v' = v_fdp v ∧ v_pci v' = v_pci v ∧ v_irqs v' = v_irqs v.


Lemma wp_create_controller zns base m fdp :
  0 ≤ base < 2 ^ 64 →
  wp (NVMEV_PCI_INIT zns base) (VDEV_INIT m fdp) (λ ok v, ok = true ∧ fresh v ∧
    capabilities (pci_cfg (v_pci v)) = new_caps ∧ pci_msix (v_pci v) = Some false ∧
    v_mem v = m ∧ v_fdp v = fdp ∧ v_nr_sq v = 0 ∧ v_nr_cq v = 0 ∧ v_irqs v = [] ∧
    v_sqes v = anew (NR_MAX_IO_QUEUE + 1) None ∧ v_cqes v = anew (NR_MAX_IO_QUEUE + 1) None ∧
    pci_ok (v_pci v)).
Proof.
  intros Hb. unfold NVMEV_PCI_INIT. wp_step. wp_step. wp_step.
  eapply wp_mono; [by apply (wp_pci_settings base)|].
  intros [] a (Hlen & Hby & Hc & _). wp_step. wp_step. wp_step. unfold create_pci_bus. wp_step. wp_step.
  wp_step. apply (wp_aread _ _ 0); [done|]. wp_step. apply wp_awrite; [by vm_compute|]. wp_step. wp_step.
  split; [done|]. split; [|by split_and!]. split; simpl; try done; by destruct zns.
Qed.

(** The controller is up, and so is what the admin commands need besides. *)
Record controller_up (A S C : Z) (m : mem) (fdp : fdp_ctx) (v : vdev) : Prop := {
  cu_ready : ready A S C v;
  cu_mem : v_mem v = m;
  cu_fdp : v_fdp v = fdp;
  cu_irqs : v_irqs v = [];
  cu_queues : v_sqes v = anew (NR_MAX_IO_QUEUE + 1) None ∧ v_cqes v = anew (NR_MAX_IO_QUEUE + 1) None;
  cu_pci : pci_ok (v_pci v) ∧ pci_msix (v_pci v) = Some false;
  cu_dbs : alen (v_dbs v) = 1024 ∧ alen (v_old_dbs v) = 1024;
}.

Lemma wp_controller_up zns base m fdp A S C K l :
  0 ≤ base < 2 ^ 64 → A ≠ 0 → S ≠ 0 → C ≠ 0 → K ≠ 0 → cc_en K = 1 → cc_shn K = 0 →
  programs A S C K l →
  wp (NVMEV_PCI_INIT zns base ;; ctrl_run l ;; settle 5) (VDEV_INIT m fdp) (λ _ v,
    controller_up A S C m fdp v).
Proof.
  intros Hbase HA HS HC HK Hen Hsh Hl. wp_step.
  eapply wp_mono; [by apply wp_create_controller|].
  intros ok v0 (_ & Hv & _ & Hx & Hm & Hf & _ & _ & Hi & Hsq & Hcq & Hp).
  eapply wp_mono; [by apply (wp_bring_up A S C K v0)|].
  intros [] v [_ (d & o & -> & Hd & Ho & Hdb)]. split; [|exact Hm|exact Hf|exact Hi|by split|by split|by split]. split; try done.
  - intros i Hi'. by apply (Hdb i).
  - unfold nvmev_proc_bars, mbind, M_bind, get. cbn. by rewrite !Z.eqb_refl.
Qed.
(** C21: Whatever the dispatcher sees of the host's register writes and when: from a new
    device, once the host has programmed the queue registers and then enabled the
    controller, the dispatcher needs at most four more looks, after which the controller
    is ready with exactly the admin queue the host asked for and there is nothing left
    to do. *)
Theorem ctrl_bring_up zns base m fdp A S C K l :
  0 ≤ base < 2 ^ 64 → A ≠ 0 → S ≠ 0 → C ≠ 0 → K ≠ 0 → cc_en K = 1 → cc_shn K = 0 →
  programs A S C K l →
  wp (NVMEV_PCI_INIT zns base ;; ctrl_run l ;; settle 5) (VDEV_INIT m fdp) (λ _ v,
    ready A S C v ∧ v_mem v = m ∧ v_fdp v = fdp ∧ v_irqs v = [] ∧
    v_sqes v = anew (NR_MAX_IO_QUEUE + 1) None ∧ v_cqes v = anew (NR_MAX_IO_QUEUE + 1) None).
Proof.
  intros Hbase HA HS HC HK Hen Hsh Hl. eapply wp_mono; [exact (wp_controller_up zns base m fdp A S C K l Hbase HA HS HC HK Hen Hsh Hl)|].
  intros [] v [Hr Hm Hf Hi [Hs Hc] _ _]. by split_and!.
Qed.
Lemma ctrl_bring_up_witness :
  programs 0x1f001f 0x100000 0x101000 0x460001
    [Poll; HostAcq 0x101000; Poll; HostAqa 0x1f001f; HostAsq 0x100000; Poll; HostCc 0x460001] ∧
  wp (NVMEV_PCI_INIT false 0x100000000 ;;
      ctrl_run [Poll; HostAcq 0x101000; Poll; HostAqa 0x1f001f; HostAsq 0x100000; Poll; HostCc 0x460001] ;;
      settle 5) (VDEV_INIT (λ _, 0) (fdp_init_ctx [] 0)) (λ _ v, csts_rdy (r_csts (v_bar v)) = 1).
Proof.
  assert (programs 0x1f001f 0x100000 0x101000 0x460001
    [Poll; HostAcq 0x101000; Poll; HostAqa 0x1f001f; HostAsq 0x100000; Poll; HostCc 0x460001]) as Hl.
  { exists [HostAcq 0x101000; HostAqa 0x1f001f; HostAsq 0x100000]. split; [done|].
    apply (perm_trans (l' := [HostAqa 0x1f001f; HostAcq 0x101000; HostAsq 0x100000])); repeat constructor. }
  split; [exact Hl|].
  eapply wp_mono; [apply (ctrl_bring_up false 0x100000000 (λ _, 0) (fdp_init_ctx [] 0)
    0x1f001f 0x100000 0x101000 0x460001 _ ltac:(lia) ltac:(lia) ltac:(lia) ltac:(lia) ltac:(lia)
    eq_refl eq_refl Hl)|].
  intros [] v [H _]. apply (rd_rdy _ _ _ _ H).
Defined.

(** ** A controller reset *)

(** The control register is the only one that changed. *)
Definition synced (v : vdev) : Prop :=
  r_aqa (v_old_bar v) = r_aqa (v_bar v) ∧ r_asq (v_old_bar v) = r_asq (v_bar v) ∧
  r_acq (v_old_bar v) = r_acq (v_bar v).
Definition same_queue (v v' : vdev) : Prop :=
  v_admin_q v' = v_admin_q v ∧ v_dbs v' = v_dbs v ∧ v_old_dbs v' = v_old_dbs v ∧
  r_aqa (v_bar v') = r_aqa (v_bar v) ∧ r_asq (v_bar v') = r_asq (v_bar v) ∧
  r_acq (v_bar v') = r_acq (v_bar v) ∧ r_cc (v_bar v') = r_cc (v_bar v).

Lemma wp_poll_cc v q :
  synced v → v_admin_q v = Some q → cc_shn (r_cc (v_bar v)) = 0 →
  wp nvmev_proc_bars v (λ r v', r = negb (r_cc (v_old_bar v) =? r_cc (v_bar v)) ∧ synced v' ∧
    same_queue v v' ∧ r_cc (v_old_bar v') = r_cc (v_bar v) ∧
    (r = true → csts_rdy (r_csts (v_bar v')) = cc_en (r_cc (v_bar v))) ∧
    (r = false → v' = v)).
Proof.
  intros (H1 & H2 & H3) Hq Hs. unfold nvmev_proc_bars. wp_step. wp_step.
  rewrite H1, H2, H3, !Z.eqb_refl. cbn [negb].
  destruct (r_cc (v_old_bar v) =? r_cc (v_bar v)) eqn:E; cbn [negb].
  { bool_prop. wp_step. by split_and!. }
  wp_step. unfold bars_cc. wp_step. wp_step. rewrite Hs, Hq. cbn [Z.eqb when].
  assert (cc_en (r_cc (v_bar v)) = 0 ∨ cc_en (r_cc (v_bar v)) = 1) as Hen.
  { unfold cc_en, field. rewrite Z.land_ones by lia. change (2 ^ 1) with 2.
    pose proof (Z.mod_pos_bound (Z.shiftr (r_cc (v_bar v)) 0) 2 ltac:(lia)). lia. }
  assert (∀ b x, 0 ≤ b ≤ 1 → csts_rdy (insert_bits 0 1 b x) = b) as Hrdy.
  { intros b x Hb. unfold csts_rdy, field. apply Z.bits_inj'. intros j Hj.
    rewrite Z.land_spec, Z.shiftr_spec, testbit_insert, Z.testbit_ones by lia.
    replace (j + 0 - 0) with j by lia. rewrite Z.add_0_r.
    destruct (decide (j = 0)) as [->|].
    - rewrite decide_True by lia. cbn. apply andb_true_r.
    - rewrite (testbit_high b 1 j) by lia. rewrite (proj2 (Z.leb_le 0 j)), (proj2 (Z.ltb_ge j 1)) by lia.
      apply andb_false_r. }
  destruct Hen as [-> | ->]; cbn [Z.eqb Pos.eqb when]; repeat (wp_step; try wp_step);
    split_and!; try done; intros _; apply Hrdy; lia.
Qed.

(** The host disables the controller, programs the queue registers again and enables it;
    the dispatcher looks after each step. *)
Definition reset_run (off on : Z) (b : nvme_ctrl_regs) : list ctrl_event :=
  [HostCc off; Poll; HostAqa (r_aqa b); HostAsq (r_asq b); HostAcq (r_acq b); Poll; HostCc on; Poll].

Lemma wp_reset v q off on :
  synced v → v_admin_q v = Some q → cc_shn off = 0 → cc_shn on = 0 → cc_en on = 1 → off ≠ on →
  wp (ctrl_run (reset_run off on (v_bar v))) v (λ _ v',
    csts_rdy (r_csts (v_bar v')) = 1 ∧ v_admin_q v' = Some q ∧
    v_dbs v' = v_dbs v ∧ v_old_dbs v' = v_old_dbs v).
Proof.
  intros Hs Hq Hoff Hon Hen Hne. unfold ctrl_run, reset_run, ctrl_step, set_bar. cbn [for_list].
  wp_step. wp_step. wp_step. wp_step.
  eapply wp_mono; [by apply (wp_poll_cc (set_v_bar (set_cc off (v_bar v)) v) q)|].
  intros r1 v1 (_ & Hs1 & (Q1 & D1 & O1 & A1 & S1 & C1 & K1) & Hcc1 & _ & _). wp_step.
  simpl in Q1, D1, O1, A1, S1, C1, K1, Hcc1.
  do 6 wp_step. rewrite <- A1, <- S1, <- C1. wp_step. wp_step.
  eapply wp_mono; [apply (wp_poll_cc _ q)|].
  { done. }
  { simpl. congruence. }
  { simpl. by rewrite K1. }
  intros r2 v2 (_ & Hs2 & (Q2 & D2 & O2 & A2 & S2 & C2 & K2) & Hcc2 & _ & _).
  simpl in Q2, D2, O2, A2, S2, C2, K2, Hcc2. wp_step. wp_step. wp_step. wp_step. wp_step.
  eapply wp_mono; [apply (wp_poll_cc _ q)|].
  { done. }
  { simpl. congruence. }
  { done. }
  intros r3 v3 (Hr & _ & (Q3 & D3 & O3 & _) & _ & Hrdy & _). simpl in Q3, D3, O3, Hr, Hrdy.
  do 2 wp_step. split_and!; [|congruence..]. rewrite Hrdy; [done|].
  rewrite Hr, Hcc2, K1. apply negb_true_iff, Z.eqb_neq. done.
Qed.

(** The admin queue with its head at entry 0 and all else, the phase too, as it was. *)
Definition rewound (q : nvmev_admin_queue) : nvmev_admin_queue :=
  AdminQueue (aq_phase q) (aq_sq_depth q) (aq_cq_depth q) 0 (aq_nvme_sq q) (aq_nvme_cq q).

Lemma wp_shutdown v q down :
  synced v → v_admin_q v = Some q → alen (v_dbs v) = 1024 → alen (v_old_dbs v) = 1024 →
  cc_shn down = 1 → down ≠ r_cc (v_old_bar v) →
  wp (ctrl_run [HostCc down; Poll]) v (λ _ v',
    synced v' ∧ v_admin_q v' = Some (rewound q) ∧
    v_dbs v' = aset (aset (v_dbs v) 0 0) 1 0 ∧ v_old_dbs v' = aset (aset (v_old_dbs v) 0 0) 1 0 ∧
    r_aqa (v_bar v') = r_aqa (v_bar v) ∧ r_asq (v_bar v') = r_asq (v_bar v) ∧
    r_acq (v_bar v') = r_acq (v_bar v)).
Proof.
  intros (H1 & H2 & H3) Hq D1 D2 Hd Hne. unfold ctrl_run, ctrl_step, set_bar. cbn [for_list].
  wp_step. wp_step. wp_step. wp_step. unfold nvmev_proc_bars. wp_step. wp_step. simpl.
  rewrite H1, H2, H3, !Z.eqb_refl, (proj2 (Z.eqb_neq (r_cc (v_old_bar v)) down)) by done. cbn [negb].
  wp_step. unfold bars_cc. wp_step. wp_step. simpl. rewrite Hd, Hq. cbn [Z.eqb Pos.eqb when].
  wp_step. apply (wp_mono _ _ (λ _ v1, ∃ c, v1 = set_v_bar (set_csts c (set_cc down (v_bar v))) v)).
  { destruct (cc_en down =? 1); [wp_step; eauto|]. destruct (cc_en down =? 0); cbn [when]; [wp_step; eauto|].
    exists (r_csts (v_bar v)). by destruct v as [? []]. }
  intros [] v1 [c ->]. do 4 wp_step.
  eapply wp_mono; [by apply wp_write_dbs|]. intros [] v1 ->. wp_step.
  eapply wp_mono; [by apply wp_write_dbs; simpl; rewrite ?alen_aset|]. intros [] v1 ->. wp_step. wp_step. simpl. rewrite Hq.
  repeat wp_step. unfold synced, rewound. simpl. by split_and!.
Qed.

(** C31: A controller reset keeps the old admin queue.  When the host disables the
    controller, programs the same queue registers again and enables it, the controller
    reports ready but the admin queue still has the head, the phase and the doorbells it
    had before the reset, so its next completion does not go where a host that starts
    from entry 0 in phase 1 looks for it.  When the host shuts the controller down first,
    the queue comes back with its head at entry 0 and its doorbells 0, but still in its old
    phase. *)
Theorem ctrl_reset_keeps_queue v q off on :
  synced v → v_admin_q v = Some q →
  cc_shn off = 0 → cc_shn on = 0 → cc_en on = 1 → off ≠ on →
  wp (ctrl_run (reset_run off on (v_bar v))) v (λ _ v',
    csts_rdy (r_csts (v_bar v')) = 1 ∧ v_admin_q v' = Some q ∧
    v_dbs v' = v_dbs v ∧ v_old_dbs v' = v_old_dbs v) ∧
  (∀ down, alen (v_dbs v) = 1024 → alen (v_old_dbs v) = 1024 →
    cc_shn down = 1 → down ≠ r_cc (v_old_bar v) →
    wp (ctrl_run ([HostCc down; Poll] ++ reset_run off on (v_bar v))) v (λ _ v',
      csts_rdy (r_csts (v_bar v')) = 1 ∧ v_admin_q v' = Some (rewound q) ∧
      v_dbs v' = aset (aset (v_dbs v) 0 0) 1 0 ∧ v_old_dbs v' = aset (aset (v_old_dbs v) 0 0) 1 0)).
Proof.
  intros Hs Hq Hoff Hon Hen Hne. split; [by apply wp_reset|]. intros down D1 D2 Hd Hc.
  unfold ctrl_run. apply for_list_app.
  eapply wp_mono; [by apply (wp_shutdown v q down)|].
  intros [] v1 (Hs1 & Hq1 & E1 & E2 & A1 & A2 & A3). unfold reset_run. rewrite <- A1, <- A2, <- A3, <- E1, <- E2.
  by apply wp_reset.
Qed.
Lemma ctrl_reset_keeps_queue_witness :
  let q := AdminQueue 0 32 32 5 None None in
  let regs := CtrlRegs 0 0 0 0 0x460001 0 1 0 0x1f001f 0x100000 0x101000 0 0 in
  let dbs := aset (aset (anew 1024 0) 0 5) 1 5 in
  let v := set_v_bar regs (set_v_old_bar regs (set_v_dbs dbs (set_v_old_dbs dbs
    (set_v_admin_q (Some q) (VDEV_INIT (λ _, 0) (fdp_init_ctx [] 0)))))) in
  wp (ctrl_run [HostCc 0x460000; Poll; HostAqa 0x1f001f; HostAsq 0x100000; HostAcq 0x101000; Poll;
                HostCc 0x460001; Poll]) v (λ _ v', csts_rdy (r_csts (v_bar v')) = 1 ∧ v_admin_q v' = Some q) ∧
  wp (ctrl_run [HostCc 0x464001; Poll; HostCc 0x460000; Poll; HostAqa 0x1f001f; HostAsq 0x100000;
                HostAcq 0x101000; Poll; HostCc 0x460001; Poll]) v (λ _ v',
    csts_rdy (r_csts (v_bar v')) = 1 ∧ v_admin_q v' = Some (AdminQueue 0 32 32 0 None None) ∧
    aget (v_dbs v') 0 = Some 0).
Proof.
  intros q regs dbs v.
  destruct (ctrl_reset_keeps_queue v q 0x460000 0x460001) as [H1 H2]; [by vm_compute|done..|lia|]. split.
  - eapply wp_mono; [exact H1|]. intros [] v' (E1 & E2 & _). by split.
  - eapply wp_mono; [apply (H2 0x464001); [by vm_compute..|vm_compute; discriminate]|]. intros [] v' (E1 & E2 & E3 & _). by rewrite E3.
Defined.
