(* ===== verification/Admin.v ===== *)
(** * Admin commands (src/admin.c)

    Queue management, log pages, identify, features and the dispatch of the commands
    of the admin submission queue.  Commands and completions are bytes in memory: a
    handler reads the fields of its command where and when the code does, so a host
    buffer that overlaps the queues is as harmful as it is on the device.

    Each page the controller fills is built in a byte buffer of its own and then
    written to memory; the code fills it in place, with no access to anything else in
    between. *)

From Stdlib Require Import ZArith Lia String Ascii.
From stdpp Require Import base numbers list gmap.
From S2P Require Import Prelude Config Bytes Nvme FdpLog Dma IoData Io Zns Pci Ctrl.

#[local] Open Scope Z_scope.

(** ** Constants (src/nvme.h, src/nvme_zns.h, src/nvme_fdp.h) *)

Definition nvme_admin_delete_sq : Z := 0x00.
Definition nvme_admin_create_sq : Z := 0x01.
Definition nvme_admin_get_log_page : Z := 0x02.
Definition nvme_admin_delete_cq : Z := 0x04.
Definition nvme_admin_create_cq : Z := 0x05.
Definition nvme_admin_identify : Z := 0x06.
Definition nvme_admin_abort_cmd : Z := 0x08.
Definition nvme_admin_set_features : Z := 0x09.
Definition nvme_admin_get_features : Z := 0x0a.
Definition nvme_admin_async_event : Z := 0x0c.

Definition NVME_QUEUE_PHYS_CONTIG : Z := Z.shiftl 1 0.
Definition NVME_CQ_IRQ_ENABLED : Z := Z.shiftl 1 1.
Definition NVME_FEAT_NUM_QUEUES : Z := 0x07.
Definition NVME_LOG_SMART : Z := 0x02.
Definition NVME_LOG_CMD_EFFECTS : Z := 0x05.
Definition NVME_CMD_EFFECTS_CSUPP : Z := Z.shiftl 1 0.
Definition NVME_CMD_EFFECTS_LBCC : Z := Z.shiftl 1 1.
Definition NVME_SC_INVALID_OPCODE : Z := 0x1.
Definition NVME_SC_FEATURE_NOT_CHANGEABLE : Z := 0x10e.
Definition NVME_LBAF_RP_BEST : Z := 0.
Definition NVME_LBAF_RP_GOOD : Z := 2.
Definition NVME_NIDT_CSI : Z := 0x4.
Definition OZCS_ZRWA : Z := Z.shiftl 1 1.
Definition ZRWACAP_EXPFLUSHSUP : Z := Z.shiftl 1 0.
Definition NVME_CTRL_CTRATT_ENDGRPS : Z := Z.shiftl 1 4.
Definition NVME_CTRL_CTRATT_FDPS : Z := Z.shiftl 1 19.
Definition NVME_NS_FEAT_IO_OPT : Z := Z.shiftl 1 4.

(** Offsets of the fields of a command: [command_id] and [nsid] of every command,
    [prp1], and the words 10 and 11 as the handlers split them. *)
Definition CMD_ID : Z := 2.
Definition CMD_NSID : Z := 4.
Definition CMD_PRP1 : Z := 24.
Definition CMD_DW10 : Z := 40.
Definition CMD_DW10H : Z := 42.
Definition CMD_DW11 : Z := 44.
Definition CMD_DW11H : Z := 46.

Section admin.
Context (c : ssd_config) (pfn_valid : Z → bool) (msi_get_virq : Z → Z).
(** The namespaces and the parameters of the zoned ones. *)
Context (nss : arr nvmev_ns) (zp : Z → znsparams).

Definition nr_ns : Z := NR_NAMESPACES.
(** SUPPORTED_SSD_TYPE and NS_SSD_TYPE: both entries of the table are the type of
    the build. *)
Definition SUPPORTED_SSD_TYPE (t : ssd_type) : bool := bool_decide (NS_SSD_TYPE_0 c = t).
Definition NS_SSD_TYPE (nsid : Z) : M vdev ssd_type :=
  if in_range 2 nsid then mret (NS_SSD_TYPE_0 c) else throw OOPS.

(** ** Queue entries *)

Definition admin_queue : M vdev nvmev_admin_queue := v ← get; deref (v_admin_q v).

(** The address of entry [eid] of a table of pages. *)
Definition entry_addr (pages : option (arr Z)) (eid size : Z) : M vdev Z :=
  pages ← deref pages;
  p ← aread pages (u64 eid / (PAGE_SIZE / size));
  mret (p + size * (u64 eid mod (PAGE_SIZE / size))).

(** [n] bytes at [off] of the command at [eid]. *)
Definition sqe (eid off n : Z) : M vdev Z :=
  queue ← admin_queue;
  a ← entry_addr (aq_nvme_sq queue) eid sizeof_nvme_command;
  ld (a + off) n.

(** The bytes of a [struct nvme_completion]. *)
Definition completion_bytes (e : nvme_completion) : list Z :=
  le_split 4 (cqe_result0 e) ++ le_split 4 (cqe_result1 e) ++ le_split 2 (cqe_sq_head e)
  ++ le_split 2 (cqe_sq_id e) ++ le_split 2 (cqe_command_id e) ++ le_split 2 (cqe_status e).

Definition make_cq_entry_results (eid ret result0 result1 : Z) : M vdev unit :=
  queue ← admin_queue;
  command_id ← sqe eid CMD_ID 2;
  let cq_head := aq_cq_head queue in
  a ← entry_addr (aq_nvme_cq queue) cq_head sizeof_nvme_completion;
  st a (completion_bytes (Completion result0 result1 eid 0 command_id
    (Z.lor (aq_phase queue) (Z.shiftl ret 1)))) ;;
  let wrap := cq_head + 1 =? aq_cq_depth queue in
  modify (set_v_admin_q (Some (AdminQueue
    (if wrap then (if aq_phase queue =? 0 then 1 else 0) else aq_phase queue)
    (aq_sq_depth queue) (aq_cq_depth queue) (if wrap then 0 else cq_head + 1)
    (aq_nvme_sq queue) (aq_nvme_cq queue)))).
Definition make_cq_entry (eid ret : Z) : M vdev unit := make_cq_entry_results eid ret 0 0.

(** ** Queue management *)

(** The pages of a new queue and its mapping. *)
Definition map_queue (prp1 queue_size size : Z) : arr Z * option Z :=
  let num_pages := DIV_ROUND_UP (queue_size * size) PAGE_SIZE in
  if pfn_valid (Z.shiftr prp1 PAGE_SHIFT)
  then (abuild num_pages 0 (prp_address_offset prp1), None)
  else (abuild num_pages 0 (λ i, prp1 + i * PAGE_SIZE), Some prp1).

Definition nvmev_admin_create_cq (eid : Z) : M vdev unit :=
  cqid ← sqe eid CMD_DW10 2;
  cq_flags ← sqe eid CMD_DW11 2;
  let irq_enabled := negb (Z.land cq_flags NVME_CQ_IRQ_ENABLED =? 0) in
  irq_vector ← (if irq_enabled then sqe eid CMD_DW11H 2 else mret 0);
  qsize ← sqe eid CMD_DW10H 2;
  let queue_size := qsize + 1 in
  prp1 ← sqe eid CMD_PRP1 8;
  let '(pages, mapped) := map_queue prp1 queue_size sizeof_nvme_completion in
  let cq := CqDesc cqid irq_vector irq_enabled false
              (negb (Z.land cq_flags NVME_QUEUE_PHYS_CONTIG =? 0)) queue_size 1 0 (-1) pages mapped in
  v ← get;
  cqes ← awrite (v_cqes v) cqid (Some cq);
  put (set_v_cqes cqes v) ;;
  write_dbs (cqid * 2 + 1) 0 ;;
  make_cq_entry eid NVME_SC_SUCCESS.

Definition nvmev_admin_delete_cq (eid : Z) : M vdev unit :=
  qid ← sqe eid CMD_DW10 2;
  v ← get;
  cqes ← awrite (v_cqes v) qid None;
  put (set_v_cqes cqes v) ;;
  make_cq_entry eid NVME_SC_SUCCESS.

Definition nvmev_admin_create_sq (eid : Z) : M vdev unit :=
  sqid ← sqe eid CMD_DW10 2;
  cqid ← sqe eid CMD_DW11H 2;
  sq_flags ← sqe eid CMD_DW11 2;
  qsize ← sqe eid CMD_DW10H 2;
  let queue_size := qsize + 1 in
  prp1 ← sqe eid CMD_PRP1 8;
  let '(pages, mapped) := map_queue prp1 queue_size sizeof_nvme_command in
  let sq := SqDesc sqid cqid (Z.land sq_flags 0xFFFE)
              (negb (Z.land sq_flags NVME_QUEUE_PHYS_CONTIG =? 0)) queue_size pages mapped in
  v ← get;
  sqes ← awrite (v_sqes v) sqid (Some sq);
  put (set_v_sqes sqes v) ;;
  write_dbs (sqid * 2) 0 ;;
  make_cq_entry eid NVME_SC_SUCCESS.

Definition nvmev_admin_delete_sq (eid : Z) : M vdev unit :=
  qid ← sqe eid CMD_DW10 2;
  v ← get;
  sqes ← awrite (v_sqes v) qid None;
  put (set_v_sqes sqes v) ;;
  make_cq_entry eid NVME_SC_SUCCESS.

(** ** Log pages *)

(** [struct nvme_smart_log], of which only the spare threshold is not 0. *)
Definition smart_log : list Z := replicate 4 0 ++ [20] ++ replicate 507 0.

Definition acs (i : Z) : Z :=
  if bool_decide (i ∈ [nvme_admin_get_log_page; nvme_admin_identify; nvme_admin_set_features;
                       nvme_admin_get_features; nvme_admin_async_event])
  then NVME_CMD_EFFECTS_CSUPP else 0.
Definition iocs (i : Z) : Z :=
  if negb (SUPPORTED_SSD_TYPE SSD_TYPE_ZNS) then 0
  else if i =? nvme_cmd_zone_append then NVME_CMD_EFFECTS_CSUPP
  else if i =? nvme_cmd_zone_mgmt_send then Z.lor NVME_CMD_EFFECTS_CSUPP NVME_CMD_EFFECTS_LBCC
  else if i =? nvme_cmd_zone_mgmt_recv then NVME_CMD_EFFECTS_CSUPP
  else 0.
Definition effects_log : list Z :=
  concat (map (λ i, le_split 4 (acs i)) (seqZ 0 256)) ++
  concat (map (λ i, le_split 4 (iocs i)) (seqZ 0 256)) ++ replicate 2048 0.

(** [__memcpy(page, &object, len)]: bytes behind the object do not exist. *)
Definition copy_log (page : Z) (object : list Z) (len : Z) : M vdev unit :=
  if len <=? Z.of_nat (length object) then st page (take (Z.to_nat len) object) else throw OOPS.

Definition is_fdp_log (lid : Z) : bool :=
  SUPPORTED_SSD_TYPE SSD_TYPE_FDP &&
  bool_decide (lid ∈ [NVME_LOG_FDP_CONFIGS; NVME_LOG_FDP_RUH_USAGE; NVME_LOG_FDP_STATS; NVME_LOG_FDP_EVENTS]).

Definition log_length (numdu numdl : Z) : Z :=
  u32 (Z.shiftl (u32 (Z.lor (u32 (Z.shiftl numdu 16)) numdl + 1)) 2).

Definition nvmev_admin_get_log_page (eid : Z) : M vdev unit :=
  numdu ← sqe eid CMD_DW11 2;
  numdl ← sqe eid CMD_DW10H 2;
  let len := log_length numdu numdl in
  prp1 ← sqe eid CMD_PRP1 8;
  let page := prp_address prp1 in
  lid ← sqe eid CMD_DW10 1;
  (if lid =? NVME_LOG_SMART then copy_log page smart_log len
   else if lid =? NVME_LOG_CMD_EFFECTS then copy_log page effects_log len
   else if is_fdp_log lid then
     v ← get;
     match fdp_get_log_page (v_fdp v) lid len with
     | Ok l => st page l
     | Fault f => throw f
     end
   else st page (replicate (Z.to_nat len) 0)) ;;
  make_cq_entry eid NVME_SC_SUCCESS.

(** ** Identify *)

(** A page filled by [m] and written to [addr]. *)
Definition st_page (addr : Z) (m : M (arr Z) unit) : M vdev unit :=
  match m (anew PAGE_SIZE 0) with
  | Ok (_, page) => st addr (load_bytes page 0 (Z.to_nat PAGE_SIZE))
  | Fault f => throw f
  end.

Definition store_lbaf (i ms ds rp : Z) : M (arr Z) unit :=
  store_le (128 + 4 * i) 2 ms ;;
  store_le (128 + 4 * i + 2) 1 ds ;;
  store_le (128 + 4 * i + 3) 1 rp.

(** The sizes of a namespace of [nsze] blocks, and what FDP adds. *)
Definition fill_id_ns_sizes (nsze : Z) (fdp : bool) : M (arr Z) unit :=
  store_le 0 8 nsze ;;
  store_le 8 8 nsze ;;
  store_le 16 8 nsze ;;
  when fdp
    (let lbas_per_oneshot := u16 (Z.shiftr (ONESHOT_PAGE_SIZE c) (LBA_BITS c)) in
     store_le 24 1 NVME_NS_FEAT_IO_OPT ;;
     store_le 102 2 NVMEV_FDP_ENDGID ;;
     store_le 64 2 (lbas_per_oneshot - 1) ;;
     store_le 66 2 (lbas_per_oneshot - 1) ;;
     store_le 72 2 (lbas_per_oneshot - 1)).

(** The fields of [struct nvme_id_ns] for a namespace of [size] bytes. *)
Definition fill_id_ns (size : Z) (fdp : bool) : M (arr Z) unit :=
  store_lbaf 0 0 9 NVME_LBAF_RP_GOOD ;;
  store_lbaf 1 8 9 NVME_LBAF_RP_GOOD ;;
  store_lbaf 2 16 9 NVME_LBAF_RP_GOOD ;;
  store_lbaf 3 0 12 NVME_LBAF_RP_BEST ;;
  store_lbaf 4 8 12 NVME_LBAF_RP_BEST ;;
  store_lbaf 5 64 12 NVME_LBAF_RP_BEST ;;
  store_lbaf 6 128 12 NVME_LBAF_RP_BEST ;;
  flbas ← (if LBA_BITS c =? 9 then mret 0
           else if LBA_BITS c =? 12 then mret 3 else throw BUG);
  store_le 26 1 flbas ;;
  store_le 25 1 6 ;;
  store_le 29 1 0 ;;
  page ← get;
  fill_id_ns_sizes (Z.shiftr size (load_le page (128 + 4 * flbas + 2) 1)) fdp.

Definition nvmev_admin_identify_namespace (eid : Z) : M vdev unit :=
  nsid1 ← sqe eid CMD_NSID 4;
  let nsid := u32 (nsid1 - 1) in
  prp1 ← sqe eid CMD_PRP1 8;
  ns ← aread nss nsid;
  fdp ← (if SUPPORTED_SSD_TYPE SSD_TYPE_FDP then
           t ← NS_SSD_TYPE nsid; mret (bool_decide (t = SSD_TYPE_FDP))
         else mret false);
  st_page (prp_address prp1) (fill_id_ns (ns_size ns) fdp) ;;
  make_cq_entry eid NVME_SC_SUCCESS.

(** The loop over the namespaces: [ns] is the address of the next identifier. *)
Fixpoint list_namespaces (eid : Z) (ids : list Z) (ns : Z) : M vdev unit :=
  match ids with
  | [] => mret tt
  | i :: ids' =>
      nsid ← sqe eid CMD_NSID 4;
      if nsid <? i then st ns (le_split 4 i) ;; list_namespaces eid ids' (ns + 4)
      else list_namespaces eid ids' ns
  end.
Definition nvmev_admin_identify_namespaces (eid : Z) : M vdev unit :=
  prp1 ← sqe eid CMD_PRP1 8;
  let ns := prp_address prp1 in
  st ns (replicate (Z.to_nat (PAGE_SIZE * 2)) 0) ;;
  list_namespaces eid (seqZ 1 nr_ns) ns ;;
  make_cq_entry eid NVME_SC_SUCCESS.

Definition fill_id_ns_desc (csi : Z) : M (arr Z) unit :=
  store_le 0 1 NVME_NIDT_CSI ;;
  store_le 1 1 1 ;;
  store_le 4 1 csi.
Definition nvmev_admin_identify_namespace_desc (eid : Z) : M vdev unit :=
  nsid1 ← sqe eid CMD_NSID 4;
  let nsid := s32 (nsid1 - 1) in
  prp1 ← sqe eid CMD_PRP1 8;
  ns ← aread nss nsid;
  st_page (prp_address prp1) (fill_id_ns_desc (ns_csi ns)) ;;
  make_cq_entry eid NVME_SC_SUCCESS.

Definition fill_id_zns_ns (z : znsparams) : M (arr Z) unit :=
  store_le 0 2 0 ;;
  store_le 2 2 0 ;;
  store_le 4 4 (zp_nr_active_zones z - 1) ;;
  store_le 8 4 (zp_nr_open_zones z - 1) ;;
  when (0 <? zp_nr_zrwa_zones z)
    (store_le 2 2 OZCS_ZRWA ;;
     store_le 44 4 (zp_nr_zrwa_zones z - 1) ;;
     store_le 48 2 (zp_zrwafg_size z) ;;
     store_le 50 2 (zp_zrwa_size z) ;;
     store_le 52 1 ZRWACAP_EXPFLUSHSUP) ;;
  store_le 2816 8 (BYTE_TO_LBA c (zp_zone_size z)) ;;
  store_le 2824 1 0.
Definition nvmev_admin_identify_zns_namespace (eid : Z) : M vdev unit :=
  nsid1 ← sqe eid CMD_NSID 4;
  let nsid := s32 (nsid1 - 1) in
  ns ← aread nss nsid;
  t ← NS_SSD_TYPE nsid;
  if bool_decide (t ≠ SSD_TYPE_ZNS) then make_cq_entry eid NVME_SC_SUCCESS
  else
    NVMEV_ASSERT (ns_csi ns =? NVME_CSI_ZNS) ;;
    prp1 ← sqe eid CMD_PRP1 8;
    st_page (prp_address prp1) (fill_id_zns_ns (zp nsid)) ;;
    make_cq_entry eid NVME_SC_SUCCESS.

Definition nvmev_admin_identify_zns_ctrl (eid : Z) : M vdev unit :=
  prp1 ← sqe eid CMD_PRP1 8;
  st (prp_address prp1) [0] ;;
  make_cq_entry eid NVME_SC_SUCCESS.

(** The characters of a C string with the byte that ends it. *)
Definition c_string (s : string) : list Z :=
  map (λ a, Z.of_N (N_of_ascii a)) (list_ascii_of_string s) ++ [0].

Definition fill_id_ctrl : M (arr Z) unit :=
  store_le 516 4 nr_ns ;;
  store_le 520 2 0 ;;
  store_le 258 1 3 ;;
  store_le 525 1 0 ;;
  store_bytes 4 (c_string "CSL_Virt_SN_01") ;;
  store_bytes 24 (c_string "CSL_Virt_MN_01") ;;
  store_bytes 64 (c_string "CSL_002") ;;
  store_le 77 1 (MDTS c) ;;
  store_le 512 1 0x66 ;;
  store_le 513 1 0x44 ;;
  when (SUPPORTED_SSD_TYPE SSD_TYPE_FDP)
    (store_le 96 4 (Z.lor NVME_CTRL_CTRATT_ENDGRPS NVME_CTRL_CTRATT_FDPS)).
Definition nvmev_admin_identify_ctrl (eid : Z) : M vdev unit :=
  prp1 ← sqe eid CMD_PRP1 8;
  st_page (prp_address prp1) fill_id_ctrl ;;
  make_cq_entry eid NVME_SC_SUCCESS.

Definition nvmev_admin_identify (eid : Z) : M vdev unit :=
  cns ← sqe eid CMD_DW10 4;
  if cns =? 0x00 then nvmev_admin_identify_namespace eid
  else if cns =? 0x01 then nvmev_admin_identify_ctrl eid
  else if cns =? 0x02 then nvmev_admin_identify_namespaces eid
  else if cns =? 0x03 then nvmev_admin_identify_namespace_desc eid
  else if cns =? 0x05 then nvmev_admin_identify_zns_namespace eid
  else if cns =? 0x06 then nvmev_admin_identify_zns_ctrl eid
  else make_cq_entry eid NVME_SC_INVALID_OPCODE.

(** ** Features *)

(** The two queue counts as one word. *)
Definition num_queues_result (v : vdev) : Z :=
  Z.lor (u32 (Z.shiftl (u32 (v_nr_cq v - 1)) 16)) (u32 (v_nr_sq v - 1)).

(** The buffer of an FDP Events feature command: [prp1 ? prp_address(prp1) : NULL].  No
    more than 255 descriptors of two bytes are read. *)
Definition feature_buffer (m : mem) (prp1 : Z) : option (arr Z) :=
  if prp1 =? 0 then None else Some (abuild 512 0 (λ i, m (prp_address prp1 + i))).

Definition set_num_queues (dw11 : Z) : M vdev Z :=
  modify (set_v_nr_sq (Z.min (Z.land dw11 0xFFFF + 1) NR_MAX_IO_QUEUE)) ;;
  modify (set_v_nr_cq (Z.min (Z.land (Z.shiftr dw11 16) 0xFFFF + 1) NR_MAX_IO_QUEUE)) ;;
  gets num_queues_result.

(** All other features are accepted and ignored. *)
Definition nvmev_admin_set_features (eid : Z) : M vdev unit :=
  fid ← sqe eid CMD_DW10 4;
  '(sc, result0) ←
    (if fid =? NVME_FEAT_NUM_QUEUES then
       dw11 ← sqe eid CMD_DW11 4;
       result0 ← set_num_queues dw11;
       mret (NVME_SC_SUCCESS, result0)
     else if negb (SUPPORTED_SSD_TYPE SSD_TYPE_FDP) then mret (NVME_SC_SUCCESS, 0)
     else if fid =? NVME_FEAT_FDP then
       dw11 ← sqe eid CMD_DW11 4;
       mret (if negb (Z.land dw11 0x1 =? 0x1) || negb (Z.land (Z.shiftr dw11 8) 0xFF =? 0)
             then NVME_SC_FEATURE_NOT_CHANGEABLE else NVME_SC_SUCCESS, 0)
     else if fid =? NVME_FEAT_FDP_EVENTS then
       dw11 ← sqe eid CMD_DW11 4;
       prp1 ← sqe eid CMD_PRP1 8;
       v ← get;
       match fdp_set_feature_events (v_fdp v) dw11 (feature_buffer (v_mem v) prp1) with
       | Ok (fdp, result) => put (set_v_fdp fdp v) ;; mret (NVME_SC_SUCCESS, result)
       | Fault f => throw f
       end
     else mret (NVME_SC_SUCCESS, 0));
  make_cq_entry_results eid sc result0 0.

Definition nvmev_admin_get_features (eid : Z) : M vdev unit :=
  fid ← sqe eid CMD_DW10 4;
  result0 ←
    (if fid =? NVME_FEAT_NUM_QUEUES then gets num_queues_result
     else if negb (SUPPORTED_SSD_TYPE SSD_TYPE_FDP) then mret 0
     else if fid =? NVME_FEAT_FDP then mret 0x1
     else if fid =? NVME_FEAT_FDP_EVENTS then
       dw11 ← sqe eid CMD_DW11 4;
       prp1 ← sqe eid CMD_PRP1 8;
       v ← get;
       match fdp_get_feature_events (v_fdp v) dw11 (feature_buffer (v_mem v) prp1) with
       | Ok (result, Some desc) =>
           st (prp_address prp1) (load_bytes desc 0 (2 * length (fx_events (v_fdp v)))) ;;
           mret result
       | Ok (result, None) => mret result
       | Fault f => throw f
       end
     else mret 0);
  make_cq_entry_results eid NVME_SC_SUCCESS result0 0.

Definition nvmev_admin_async_event (eid : Z) : M vdev unit := make_cq_entry eid NVME_SC_SUCCESS.

(** ** Dispatch *)

Definition nvmev_proc_admin_req (entry_id : Z) : M vdev unit :=
  opcode ← sqe entry_id 0 1;
  if opcode =? nvme_admin_delete_sq then nvmev_admin_delete_sq entry_id
  else if opcode =? nvme_admin_create_sq then nvmev_admin_create_sq entry_id
  else if opcode =? nvme_admin_get_log_page then nvmev_admin_get_log_page entry_id
  else if opcode =? nvme_admin_delete_cq then nvmev_admin_delete_cq entry_id
  else if opcode =? nvme_admin_create_cq then nvmev_admin_create_cq entry_id
  else if opcode =? nvme_admin_identify then nvmev_admin_identify entry_id
  else if opcode =? nvme_admin_abort_cmd then mret tt
  else if opcode =? nvme_admin_set_features then nvmev_admin_set_features entry_id
  else if opcode =? nvme_admin_get_features then nvmev_admin_get_features entry_id
  else if opcode =? nvme_admin_async_event then nvmev_admin_async_event entry_id
  else make_cq_entry entry_id NVME_SC_INVALID_OPCODE.

(** The next [n] commands from entry [curr] on. *)
Fixpoint proc_admin_reqs (n : nat) (curr : Z) : M vdev unit :=
  match n with
  | O => mret tt
  | S n' =>
      nvmev_proc_admin_req curr ;;
      queue ← admin_queue;
      proc_admin_reqs n' (if curr + 1 =? aq_sq_depth queue then 0 else curr + 1)
  end.

Definition nvmev_proc_admin_sq (new_db old_db : Z) : M vdev unit :=
  num_proc ← (if new_db - old_db <? 0 then
                queue ← admin_queue; mret (new_db - old_db + aq_sq_depth queue)
              else mret (new_db - old_db));
  proc_admin_reqs (Z.to_nat num_proc) old_db ;;
  nvmev_signal_irq msi_get_virq 0.

Definition nvmev_proc_admin_cq (new_db old_db : Z) : M vdev unit := mret tt.

(** The admin part of [nvmev_proc_dbs]: true if a doorbell was rung. *)
Definition proc_admin_dbs : M vdev bool :=
  v ← get;
  new_sq ← aread (v_dbs v) 0;
  old_sq ← aread (v_old_dbs v) 0;
  updated ← (if new_sq =? old_sq then mret false
             else
               nvmev_proc_admin_sq (s32 new_sq) (s32 old_sq) ;;
               v ← get;
               a ← awrite (v_old_dbs v) 0 new_sq;
               put (set_v_old_dbs a v) ;;
               mret true);
  v ← get;
  new_cq ← aread (v_dbs v) 1;
  old_cq ← aread (v_old_dbs v) 1;
  if new_cq =? old_cq then mret updated
  else
    nvmev_proc_admin_cq (s32 new_cq) (s32 old_cq) ;;
    a ← awrite (v_old_dbs v) 1 new_cq;
    put (set_v_old_dbs a v) ;;
    mret true.
End admin.
