(* ===== verification/AdminQueue.v ===== *)
(** * The admin queues in memory

    Reads and writes of physical memory, the addresses of the entries of a queue that
    is a table of pages, the reading of a command and the posting of a completion. *)

From Stdlib Require Import ZArith Lia.
From stdpp Require Import base numbers list gmap.
From S2P Require Import Prelude Config Bytes Nvme FdpLog Dma IoData Io Zns Pci PciProps Ctrl CtrlProps Admin.

#[local] Open Scope Z_scope.

(** ** Memory *)

Definition region (a n : Z) (x : Z) : Prop := a ≤ x < a + n.

Lemma mem_write_other a l m x : ¬ region a (Z.of_nat (length l)) x → mem_write a l m x = m x.
Proof. unfold mem_write, region. intros H. by rewrite (proj2 (in_range_false _ _)) by lia. Qed.

Lemma mem_read_ext m m' a n :
  (∀ x, region a n x → m' x = m x) → mem_read m' a n = mem_read m a n.
Proof.
  intros H. unfold mem_read. f_equal. apply map_ext_in. intros x Hx.
  apply H. apply list_elem_of_In, elem_of_seqZ in Hx. unfold region. lia.
Qed.

Lemma map_mem_write a l m : map (mem_write a l m) (seqZ a (Z.of_nat (length l))) = l.
Proof.
  apply list_eq. intros i. rewrite list_lookup_fmap.
  destruct (decide (i < length l)%nat) as [Hi|Hi].
  - rewrite lookup_seqZ_lt by lia. simpl. unfold mem_write.
    rewrite (proj2 (in_range_true _ _)) by lia. replace (Z.to_nat (a + Z.of_nat i - a)) with i by lia.
    by destruct (lookup_lt_is_Some_2 l i Hi) as [b ->].
  - rewrite lookup_seqZ_ge, lookup_ge_None_2 by lia. done.
Qed.

(** A field of a written structure. *)
Lemma mem_read_write a l1 n v l2 m off :
  off = Z.of_nat (length l1) →
  mem_read (mem_write a (l1 ++ le_split n v ++ l2) m) (a + off) (Z.of_nat n) = v mod 2 ^ (8 * Z.of_nat n).
Proof.
  intros ->. unfold mem_read.
  assert (map (mem_write a (l1 ++ le_split n v ++ l2) m)
    (seqZ (a + Z.of_nat (length l1)) (Z.of_nat n)) = le_split n v) as ->.
  { apply list_eq. intros i. rewrite list_lookup_fmap. destruct (decide (i < n)%nat) as [Hi|Hi].
    - rewrite lookup_seqZ_lt by lia. simpl. unfold mem_write.
      rewrite (proj2 (in_range_true _ _)) by (rewrite !length_app, length_le_split; lia).
      replace (Z.to_nat _) with (length l1 + i)%nat by lia.
      rewrite lookup_app_r, lookup_app_l by (rewrite ?length_le_split; lia).
      replace (length l1 + i - length l1)%nat with i by lia. by rewrite lookup_le_split.
    - rewrite lookup_seqZ_ge by lia.
      rewrite lookup_ge_None_2; [done|rewrite length_le_split; lia]. }
  clear. revert v. induction n as [|n IH]; intros v.
  { simpl. by rewrite Z.mod_1_r. }
  cbn [le_split le_combine]. rewrite IH. replace (8 * Z.of_nat (S n)) with (8 + 8 * Z.of_nat n) by lia.
  rewrite Z.pow_add_r by lia. rewrite Z.rem_mul_r by lia. lia.
Qed.

(** ** Entries of a queue *)

Lemma page_of_add addr i : page_of addr i = page_of addr 0 + PAGE_SIZE * i.
Proof. unfold page_of, PAGE_SHIFT, PAGE_SIZE. rewrite !Z.shiftl_mul_pow2 by lia. lia. Qed.

Lemma prp_address_add prp i : prp_address_offset prp i = prp + PAGE_SIZE * i.
Proof.
  unfold prp_address_offset. rewrite page_of_add. unfold page_of, PAGE_OFFSET_MASK, PAGE_SHIFT, PAGE_SIZE.
  change (4096 - 1) with (Z.ones 12). rewrite Z.land_ones, Z.shiftl_mul_pow2, Z.shiftr_div_pow2 by lia.
  pose proof (Z.div_mod prp (2 ^ 12)). lia.
Qed.

Lemma prp_address_eq prp : prp_address prp = prp.
Proof. unfold prp_address. rewrite prp_address_add. lia. Qed.

(** A table of consecutive pages from [base] on, long enough for [depth] entries. *)
Definition spans (pages : arr Z) (base depth size : Z) : Prop :=
  ∀ i, 0 ≤ i → i * PAGE_SIZE < depth * size → aget pages i = Some (base + PAGE_SIZE * i).

Lemma div_round_up_page n : 0 ≤ n < 2 ^ 60 → ∀ i, 0 ≤ i → i * PAGE_SIZE < n → i < DIV_ROUND_UP n PAGE_SIZE.
Proof.
  intros Hn i Hi Hlt. pose proof (DIV_ROUND_UP_spec n PAGE_SIZE ltac:(done) ltac:(lia)) as H.
  unfold PAGE_SIZE in *. lia.
Qed.

Lemma abuild_spans f base depth size :
  0 ≤ depth * size < 2 ^ 60 → (∀ i, f i = base + PAGE_SIZE * i) →
  spans (abuild (DIV_ROUND_UP (depth * size) PAGE_SIZE) 0 f) base depth size.
Proof.
  intros Hn Hf i Hi Hlt. rewrite aget_abuild, decide_True, Hf; [done|].
  split; [done|]. by apply div_round_up_page.
Qed.

Lemma queue_pages_spans addr depth size :
  0 ≤ depth * size < 2 ^ 60 → spans (queue_pages addr depth size) (page_of addr 0) depth size.
Proof. intros H. apply abuild_spans; [done|]. intros i. apply page_of_add. Qed.

Lemma wp_entry_addr pages base depth size e (v : vdev) Q :
  spans pages base depth size → size = 16 ∨ size = 64 → 0 ≤ e < depth → depth < 2 ^ 32 →
  Q (base + size * e) v → wp (entry_addr (Some pages) e size) v Q.
Proof.
  intros Hp Hsz He Hd HQ. unfold entry_addr. wp_step. eapply wp_deref; [done|].
  rewrite u64_small by lia. wp_step.
  destruct Hsz as [-> | ->]; [change (PAGE_SIZE / 16) with 256|change (PAGE_SIZE / 64) with 64];
    (eapply wp_aread; [apply Hp; unfold PAGE_SIZE; dlia|]); wp_step.
  - replace (_ + _ + _) with (base + 16 * e); [done|unfold PAGE_SIZE; dlia].
  - replace (_ + _ + _) with (base + 64 * e); [done|unfold PAGE_SIZE; dlia].
Qed.

(** ** The invariant of the admin queue *)

(** The two rings of [q] are memory, disjoint, at [SB] and [CB]. *)
Record rings (SB CB : Z) (q : nvmev_admin_queue) : Prop := {
  rg_sq : ∃ p, aq_nvme_sq q = Some p ∧ spans p SB (aq_sq_depth q) sizeof_nvme_command;
  rg_cq : ∃ p, aq_nvme_cq q = Some p ∧ spans p CB (aq_cq_depth q) sizeof_nvme_completion;
  rg_sq_depth : 0 < aq_sq_depth q ≤ 2 ^ 16;
  rg_cq_depth : 0 < aq_cq_depth q ≤ 2 ^ 16;
  rg_head : 0 ≤ aq_cq_head q < aq_cq_depth q;
  rg_phase : aq_phase q = 0 ∨ aq_phase q = 1;
  rg_disjoint x : region SB (64 * aq_sq_depth q) x → region CB (16 * aq_cq_depth q) x → False;
}.

(** The memory of the rings. *)
Definition in_rings (SB CB : Z) (q : nvmev_admin_queue) (x : Z) : Prop :=
  region SB (64 * aq_sq_depth q) x ∨ region CB (16 * aq_cq_depth q) x.

(** [n] bytes at [off] of the command at entry [e] of the submission ring. *)
Definition cmd_field (m : mem) (SB e off n : Z) : Z := mem_read m (SB + 64 * e + off) n.

Lemma wp_sqe SB CB q v e off n Q :
  v_admin_q v = Some q → rings SB CB q → 0 ≤ e < aq_sq_depth q →
  Q (cmd_field (v_mem v) SB e off n) v → wp (sqe e off n) v Q.
Proof.
  intros Hq Hr He HQ. destruct (rg_sq _ _ _ Hr) as (p & Hp & Hs). unfold sqe, admin_queue.
  wp_step. wp_step. wp_step. eapply wp_deref; [exact Hq|]. wp_step. rewrite Hp.
  pose proof (rg_sq_depth _ _ _ Hr).
  eapply wp_entry_addr; [exact Hs|by right|done|lia|]. unfold ld. by wp_step.
Qed.

(** The queue after a completion. *)
Definition advance (q : nvmev_admin_queue) : nvmev_admin_queue :=
  let wrap := aq_cq_head q + 1 =? aq_cq_depth q in
  AdminQueue (if wrap then (if aq_phase q =? 0 then 1 else 0) else aq_phase q)
    (aq_sq_depth q) (aq_cq_depth q) (if wrap then 0 else aq_cq_head q + 1)
    (aq_nvme_sq q) (aq_nvme_cq q).

Lemma advance_rings SB CB q : rings SB CB q → rings SB CB (advance q).
Proof.
  intros []. split; simpl; try done.
  - destruct (aq_cq_head q + 1 =? aq_cq_depth q) eqn:E; bool_prop; lia.
  - destruct (aq_cq_head q + 1 =? aq_cq_depth q); [|done].
    destruct rg_phase0 as [-> | ->]; simpl; auto.
Qed.

Definition the_completion (m : mem) (SB e : Z) (q : nvmev_admin_queue) (sc r0 r1 : Z) : nvme_completion :=
  Completion r0 r1 e 0 (cmd_field m SB e CMD_ID 2) (Z.lor (aq_phase q) (Z.shiftl sc 1)).

Lemma wp_make_cq_entry SB CB q v e sc r0 r1 :
  v_admin_q v = Some q → rings SB CB q → 0 ≤ e < aq_sq_depth q →
  wp (make_cq_entry_results e sc r0 r1) v (λ _ v', v' =
    set_v_admin_q (Some (advance q)) (set_v_mem (mem_write (CB + 16 * aq_cq_head q)
      (completion_bytes (the_completion (v_mem v) SB e q sc r0 r1)) (v_mem v)) v)).
Proof.
  intros Hq Hr He. destruct (rg_cq _ _ _ Hr) as (p & Hp & Hs). unfold make_cq_entry_results, admin_queue.
  wp_step. wp_step. wp_step. eapply wp_deref; [exact Hq|].
  wp_step. eapply wp_sqe; [exact Hq|exact Hr|done|]. wp_step. rewrite Hp.
  pose proof (rg_cq_depth _ _ _ Hr). pose proof (rg_head _ _ _ Hr).
  eapply wp_entry_addr; [exact Hs|by left|done|lia|]. wp_step. unfold st. wp_step. wp_step.
  unfold advance. by rewrite Hp.
Qed.
