(* ===== verification/AdminOps.v ===== *)
(** * What the admin commands do to the controller

    Every handler writes only the buffer its command names, leaves the rings and the
    registers alone, and posts exactly one completion; Abort posts none. *)

From Stdlib Require Import ZArith Lia.
From stdpp Require Import base numbers list gmap.
From S2P Require Import Prelude Config Bytes Nvme FdpLog Dma IoData Io Zns Pci PciProps Ctrl CtrlProps Admin AdminQueue.

#[local] Open Scope Z_scope.

(** ** The state between commands *)

(** The FDP state as features and log pages need it. *)
Record fdp_ok (f : fdp_ctx) : Prop := {
  fo_wf : ctx_wf f;
  fo_events : length (fx_events f) = 3%nat;
  fo_types : Forall (λ te, 0 ≤ fst te < 2 ^ 8) (fx_events f);
}.

Record adm (SB CB : Z) (q : nvmev_admin_queue) (v : vdev) : Prop := {
  ad_queue : v_admin_q v = Some q;
  ad_rings : rings SB CB q;
  ad_dbs : alen (v_dbs v) = 1024 ∧ alen (v_old_dbs v) = 1024;
  ad_tables : alen (v_sqes v) = NR_MAX_IO_QUEUE + 1 ∧ alen (v_cqes v) = NR_MAX_IO_QUEUE + 1;
  ad_fdp : fdp_ok (v_fdp v);
  ad_pci : pci_ok (v_pci v) ∧ is_Some (pci_msix (v_pci v));
}.

(** The work of a command apart from its completion: memory changes only in [B]. *)
Record served (B : Z → Prop) (v v' : vdev) : Prop := {
  sv_queue : v_admin_q v' = v_admin_q v;
  sv_pci : v_pci v' = v_pci v;
  sv_irqs : v_irqs v' = v_irqs v;
  sv_bars : v_bar v' = v_bar v ∧ v_old_bar v' = v_old_bar v;
  sv_mem x : ¬ B x → v_mem v' x = v_mem v x;
  sv_dbs_len : alen (v_dbs v') = alen (v_dbs v) ∧ alen (v_old_dbs v') = alen (v_old_dbs v);
  sv_dbs i : i < 2 → aget (v_dbs v') i = aget (v_dbs v) i ∧ aget (v_old_dbs v') i = aget (v_old_dbs v) i;
  sv_tables : alen (v_sqes v') = alen (v_sqes v) ∧ alen (v_cqes v') = alen (v_cqes v);
  sv_fdp : fdp_ok (v_fdp v) → fdp_ok (v_fdp v');
}.

#[export] Instance served_refl B : Reflexive (served B).
Proof. intros v. by split. Qed.

Lemma served_adm SB CB q B v v' : adm SB CB q v → served B v v' → adm SB CB q v'.
Proof.
  intros [Q R [D D'] [T T'] F P] [SQ SP _ _ _ [SD SD'] _ [ST ST'] SF].
  split; [congruence|done|split; congruence|split; congruence|auto|by rewrite SP].
Qed.

(** The completion posted for entry [e] with status [sc], given the memory [m] before
    the command. *)
Definition posted (SB CB : Z) (q : nvmev_admin_queue) (m : mem) (e sc r0 : Z) (v v' : vdev) : Prop :=
  v' = set_v_admin_q (Some (advance q)) (set_v_mem (mem_write (CB + 16 * aq_cq_head q)
         (completion_bytes (the_completion m SB e q sc r0 0)) (v_mem v)) v).

(** A whole command. *)
Definition handled (SB CB : Z) (q : nvmev_admin_queue) (B : Z → Prop) (e sc : Z) (v v' : vdev) : Prop :=
  ∃ v1 r0, served B v v1 ∧ posted SB CB q (v_mem v) e sc r0 v1 v'.

(** The next field of the command, in a state that satisfies [adm]. *)
Ltac field_of Ha := wp_step; eapply wp_sqe; [exact (ad_queue _ _ _ _ Ha)|exact (ad_rings _ _ _ _ Ha)|done|].

Section ops.
Context (c : ssd_config) (pfn_valid : Z → bool) (nss : arr nvmev_ns) (zp : Z → znsparams).
Context (SB CB : Z) (q : nvmev_admin_queue).

(** The build: blocks of 512 bytes or 4 KiB, and namespaces of its type. *)
Record build_ok : Prop := {
  bo_lba : LBA_BITS c = 9 ∨ LBA_BITS c = 12;
  bo_csi i ns : NS_SSD_TYPE_0 c = SSD_TYPE_ZNS → aget nss i = Some ns → ns_csi ns = NVME_CSI_ZNS;
}.
#[local] Abbreviation fld v e off n := (cmd_field (v_mem v) SB e off n).

(** Fields of the command are read back unchanged as long as the memory of the rings
    is. *)
Lemma field_served B v v1 e off n :
  served B v v1 → rings SB CB q → (∀ x, B x → ¬ in_rings SB CB q x) →
  0 ≤ e < aq_sq_depth q → 0 ≤ off → off + n ≤ 64 →
  fld v1 e off n = fld v e off n.
Proof.
  intros Hs Hr HB He Ho Hn. unfold cmd_field. apply mem_read_ext. intros x Hx.
  apply (sv_mem _ _ _ Hs). intros Hb. apply (HB x Hb). left. unfold region in *. lia.
Qed.

Lemma wp_post v e sc r0 :
  adm SB CB q v → 0 ≤ e < aq_sq_depth q →
  wp (make_cq_entry_results e sc r0 0) v (λ _ v', posted SB CB q (v_mem v) e sc r0 v v').
Proof. intros [Hq Hr _ _ _ _] He. exact (wp_make_cq_entry SB CB q v e sc r0 0 Hq Hr He). Qed.

Lemma wp_finish_cmd B v v1 e sc r0 :
  served B v v1 → adm SB CB q v → (∀ x, B x → ¬ in_rings SB CB q x) → 0 ≤ e < aq_sq_depth q →
  wp (make_cq_entry_results e sc r0 0) v1 (λ _ v', handled SB CB q B e sc v v').
Proof.
  intros Hs Ha HB He. pose proof (served_adm _ _ _ _ _ _ Ha Hs) as Ha1.
  eapply wp_mono; [exact (wp_post v1 e sc r0 Ha1 He)|].
  intros [] v' ->. exists v1, r0. split; [exact Hs|]. unfold posted. do 3 f_equal.
  unfold the_completion. rewrite (field_served B v v1); [done|done|by destruct Ha|done|done|done|].
  unfold CMD_ID. lia.
Qed.

(** ** Queue management *)

Lemma served_dbs B v i :
  alen (v_dbs v) = 1024 → alen (v_old_dbs v) = 1024 → 2 ≤ i < 1024 →
  served B v (set_v_dbs (aset (v_dbs v) i 0) (set_v_old_dbs (aset (v_old_dbs v) i 0) v)).
Proof.
  intros H1 H2 Hi. split; simpl; try done.
  - by rewrite !alen_aset.
  - intros j Hj. by rewrite !aget_aset_ne by lia.
Qed.

Lemma served_trans B v1 v2 v3 : served B v1 v2 → served B v2 v3 → served B v1 v3.
Proof.
  intros [Q1 P1 I1 [B1 B1'] M1 [L1 L1'] D1 [T1 T1'] F1] [Q2 P2 I2 [B2 B2'] M2 [L2 L2'] D2 [T2 T2'] F2].
  split; try (split; congruence); try congruence; try auto.
  - intros x Hx. rewrite M2, M1; done.
  - intros i Hi. destruct (D1 i Hi), (D2 i Hi). split; congruence.
Qed.

Definition no_buffer (x : Z) : Prop := False.

(** The queue a creation command asks for. *)
Definition asked_cq (v : vdev) (e : Z) : cq_desc :=
  let flags := fld v e CMD_DW11 2 in
  let irq_enabled := negb (Z.land flags NVME_CQ_IRQ_ENABLED =? 0) in
  let size := fld v e CMD_DW10H 2 + 1 in
  let '(pages, mapped) := map_queue pfn_valid (fld v e CMD_PRP1 8) size sizeof_nvme_completion in
  CqDesc (fld v e CMD_DW10 2) (if irq_enabled then fld v e CMD_DW11H 2 else 0) irq_enabled false
    (negb (Z.land flags NVME_QUEUE_PHYS_CONTIG =? 0)) size 1 0 (-1) pages mapped.
Definition asked_sq (v : vdev) (e : Z) : sq_desc :=
  let flags := fld v e CMD_DW11 2 in
  let size := fld v e CMD_DW10H 2 + 1 in
  let '(pages, mapped) := map_queue pfn_valid (fld v e CMD_PRP1 8) size sizeof_nvme_command in
  SqDesc (fld v e CMD_DW10 2) (fld v e CMD_DW11H 2) (Z.land flags 0xFFFE)
    (negb (Z.land flags NVME_QUEUE_PHYS_CONTIG =? 0)) size pages mapped.

(** The states before the completion. *)
Definition with_cq (i : Z) (o : option cq_desc) (v : vdev) : vdev := set_v_cqes (aset (v_cqes v) i o) v.
Definition with_sq (i : Z) (o : option sq_desc) (v : vdev) : vdev := set_v_sqes (aset (v_sqes v) i o) v.
Definition clear_dbs (i : Z) (v : vdev) : vdev :=
  set_v_dbs (aset (v_dbs v) i 0) (set_v_old_dbs (aset (v_old_dbs v) i 0) v).

Lemma served_with_cq B v i o : served B v (with_cq i o v).
Proof. split; simpl; try done. by rewrite alen_aset. Qed.
Lemma served_with_sq B v i o : served B v (with_sq i o v).
Proof. split; simpl; try done. by rewrite alen_aset. Qed.

Lemma wp_create_cq v e :
  adm SB CB q v → 0 ≤ e < aq_sq_depth q → 1 ≤ fld v e CMD_DW10 2 ≤ NR_MAX_IO_QUEUE →
  wp (nvmev_admin_create_cq pfn_valid e) v (λ _ v', ∃ v1,
    v1 = clear_dbs (fld v e CMD_DW10 2 * 2 + 1) (with_cq (fld v e CMD_DW10 2) (Some (asked_cq v e)) v) ∧
    served no_buffer v v1 ∧ posted SB CB q (v_mem v) e 0 0 v1 v').
Proof.
  intros Ha He Hq. unfold nvmev_admin_create_cq. field_of Ha. field_of Ha.
  set (irq_enabled := negb _). wp_step.
  assert (wp (if irq_enabled then sqe e CMD_DW11H 2 else mret 0) v
    (λ r v', r = (if irq_enabled then fld v e CMD_DW11H 2 else 0) ∧ v' = v)) as Hvec.
  { destruct irq_enabled; [|by wp_step].
    eapply wp_sqe; [exact (ad_queue _ _ _ _ Ha)|exact (ad_rings _ _ _ _ Ha)|done|done]. }
  eapply wp_mono; [exact Hvec|]. intros r v' [-> ->]. field_of Ha. field_of Ha.
  unfold asked_cq. fold irq_enabled.
  destruct (map_queue pfn_valid (fld v e CMD_PRP1 8) (fld v e CMD_DW10H 2 + 1)
    sizeof_nvme_completion) as [pages mapped].
  destruct (ad_tables _ _ _ _ Ha) as [_ Ht]. destruct (ad_dbs _ _ _ _ Ha) as [Hd1 Hd2].
  wp_step. wp_step. wp_step. apply wp_awrite; [rewrite Ht; lia|]. wp_step. wp_step. wp_step.
  eapply wp_mono; [apply wp_write_dbs; simpl; [done|done|unfold NR_MAX_IO_QUEUE in *; lia]|].
  intros [] v1 ->.
  match goal with |- wp _ ?s _ => set (v1 := s) end.
  assert (served no_buffer v v1) as Hs.
  { eapply served_trans; [apply served_with_cq|]. apply served_dbs; simpl; [done|done|].
    unfold NR_MAX_IO_QUEUE in *. lia. }
  pose proof (served_adm _ _ _ _ _ _ Ha Hs) as Ha1.
  eapply wp_mono; [exact (wp_post v1 e 0 0 Ha1 He)|].
  intros [] v' Hp. exists v1. split; [reflexivity|]. split; [exact Hs|exact Hp].
Qed.

Lemma wp_create_sq v e :
  adm SB CB q v → 0 ≤ e < aq_sq_depth q → 1 ≤ fld v e CMD_DW10 2 ≤ NR_MAX_IO_QUEUE →
  wp (nvmev_admin_create_sq pfn_valid e) v (λ _ v', ∃ v1,
    v1 = clear_dbs (fld v e CMD_DW10 2 * 2) (with_sq (fld v e CMD_DW10 2) (Some (asked_sq v e)) v) ∧
    served no_buffer v v1 ∧ posted SB CB q (v_mem v) e 0 0 v1 v').
Proof.
  intros Ha He Hq. unfold nvmev_admin_create_sq. do 5 field_of Ha.
  unfold asked_sq.
  destruct (map_queue pfn_valid (fld v e CMD_PRP1 8) (fld v e CMD_DW10H 2 + 1)
    sizeof_nvme_command) as [pages mapped].
  destruct (ad_tables _ _ _ _ Ha) as [Ht _]. destruct (ad_dbs _ _ _ _ Ha) as [Hd1 Hd2].
  wp_step. wp_step. wp_step. apply wp_awrite; [rewrite Ht; lia|]. wp_step. wp_step. wp_step.
  eapply wp_mono; [apply wp_write_dbs; simpl; [done|done|unfold NR_MAX_IO_QUEUE in *; lia]|].
  intros [] v1 ->.
  match goal with |- wp _ ?s _ => set (v1 := s) end.
  assert (served no_buffer v v1) as Hs.
  { eapply served_trans; [apply served_with_sq|]. apply served_dbs; simpl; [done|done|].
    unfold NR_MAX_IO_QUEUE in *. lia. }
  pose proof (served_adm _ _ _ _ _ _ Ha Hs) as Ha1.
  eapply wp_mono; [exact (wp_post v1 e 0 0 Ha1 He)|].
  intros [] v' Hp. exists v1. split; [reflexivity|]. split; [exact Hs|exact Hp].
Qed.

Lemma wp_delete_cq v e :
  adm SB CB q v → 0 ≤ e < aq_sq_depth q → 0 ≤ fld v e CMD_DW10 2 ≤ NR_MAX_IO_QUEUE →
  wp (nvmev_admin_delete_cq e) v (λ _ v',
    posted SB CB q (v_mem v) e 0 0 (with_cq (fld v e CMD_DW10 2) None v) v').
Proof.
  intros Ha He Hq. unfold nvmev_admin_delete_cq. field_of Ha.
  destruct (ad_tables _ _ _ _ Ha) as [_ Ht].
  wp_step. wp_step. wp_step. apply wp_awrite; [rewrite Ht; lia|]. wp_step. wp_step.
  pose proof (served_adm _ _ _ _ _ _ Ha (served_with_cq no_buffer v (fld v e CMD_DW10 2) None)) as Ha1.
  exact (wp_post _ e 0 0 Ha1 He).
Qed.

Lemma wp_delete_sq v e :
  adm SB CB q v → 0 ≤ e < aq_sq_depth q → 0 ≤ fld v e CMD_DW10 2 ≤ NR_MAX_IO_QUEUE →
  wp (nvmev_admin_delete_sq e) v (λ _ v',
    posted SB CB q (v_mem v) e 0 0 (with_sq (fld v e CMD_DW10 2) None v) v').
Proof.
  intros Ha He Hq. unfold nvmev_admin_delete_sq. field_of Ha.
  destruct (ad_tables _ _ _ _ Ha) as [Ht _].
  wp_step. wp_step. wp_step. apply wp_awrite; [rewrite Ht; lia|]. wp_step. wp_step.
  pose proof (served_adm _ _ _ _ _ _ Ha (served_with_sq no_buffer v (fld v e CMD_DW10 2) None)) as Ha1.
  exact (wp_post _ e 0 0 Ha1 He).
Qed.

(** ** Writing buffers *)

Lemma served_write (B : Z → Prop) v a l :
  (∀ x, region a (Z.of_nat (length l)) x → B x) →
  served B v (set_v_mem (mem_write a l (v_mem v)) v).
Proof.
  intros HB. split; simpl; try done. intros x Hx. apply mem_write_other. intros Hr. by apply Hx, HB.
Qed.

Definition sized (m : M (arr Z) unit) : Prop :=
  ∀ a, alen a = PAGE_SIZE → wp m a (λ _ a', alen a' = PAGE_SIZE).

Lemma sized_store off n v : 0 ≤ off → off + Z.of_nat n ≤ PAGE_SIZE → sized (store_le off n v).
Proof.
  intros Ho Hn a Ha. eapply wp_mono; [apply wp_store_le; lia|]. intros [] a' [H _]. lia.
Qed.
Lemma sized_bytes off l : 0 ≤ off → off + Z.of_nat (length l) ≤ PAGE_SIZE → sized (store_bytes off l).
Proof.
  intros Ho Hn a Ha. eapply wp_mono; [apply wp_store_bytes; lia|]. intros [] a' [H _]. lia.
Qed.
Lemma sized_bind m1 (m2 : unit → M (arr Z) unit) : sized m1 → (∀ u, sized (m2 u)) → sized (m1 ≫= m2).
Proof. intros H1 H2 a Ha. wp_step. eapply wp_mono; [by apply H1|]. intros u a' Ha'. by apply H2. Qed.
Lemma sized_when b m : sized m → sized (when b m).
Proof. intros H a Ha. destruct b; [by apply H|done]. Qed.

Ltac sized_steps := repeat first
  [ apply sized_when | apply sized_bind; [|intros _]
  | apply sized_store; [unfold PAGE_SIZE; lia|unfold PAGE_SIZE; simpl; lia]
  | apply sized_bytes; [unfold PAGE_SIZE; lia|by vm_compute] ].

Lemma sized_id_ctrl : sized (fill_id_ctrl c).
Proof. unfold fill_id_ctrl. sized_steps. Qed.
Lemma sized_id_ns_desc csi : sized (fill_id_ns_desc csi).
Proof. unfold fill_id_ns_desc. sized_steps. Qed.
Lemma sized_id_zns_ns z : sized (fill_id_zns_ns c z).
Proof. unfold fill_id_zns_ns. sized_steps. Qed.

Lemma sized_get (m : arr Z → M (arr Z) unit) : (∀ a, sized (m a)) → sized (a ← get; m a).
Proof. intros H a Ha. wp_step. wp_step. by apply H. Qed.
Lemma sized_id_ns size fdp : build_ok → sized (fill_id_ns c size fdp).
Proof.
  intros build. unfold fill_id_ns, store_lbaf. do 7 (apply sized_bind; [sized_steps|intros _]).
  destruct (bo_lba build) as [-> | ->]; cbn [Z.eqb Pos.eqb]; intros a Ha; wp_step; wp_step; revert a Ha;
    do 3 (apply sized_bind; [sized_steps|intros _]); apply sized_get; intros page; unfold fill_id_ns_sizes; sized_steps.
Qed.

(** ** What a command names *)

Definition disjoint_rings (B : Z → Prop) : Prop := ∀ x, B x → ¬ in_rings SB CB q x.

Definition cmd_len (m : mem) (e : Z) : Z :=
  log_length (cmd_field m SB e CMD_DW11 2) (cmd_field m SB e CMD_DW10H 2).
Definition cmd_prp (m : mem) (e : Z) : Z := cmd_field m SB e CMD_PRP1 8.

(** The length of the host buffer of the command. *)
Definition log_buffer (m : mem) (e : Z) : Z :=
  if is_fdp_log c (cmd_field m SB e CMD_DW10 1) then Z.min (cmd_len m e) PAGE_SIZE else cmd_len m e.
Definition id_buffer (m : mem) (e : Z) : Z :=
  let cns := cmd_field m SB e CMD_DW10 4 in
  if cns =? 2 then PAGE_SIZE * 2 else if cns =? 6 then 1
  else if bool_decide (cns ∈ [0; 1; 3]) then PAGE_SIZE
  else if (cns =? 5) && bool_decide (NS_SSD_TYPE_0 c = SSD_TYPE_ZNS) then PAGE_SIZE else 0.
Definition feature_buffer_len (m : mem) (e : Z) : Z :=
  if SUPPORTED_SSD_TYPE c SSD_TYPE_FDP && (cmd_field m SB e CMD_DW10 4 =? NVME_FEAT_FDP_EVENTS)
     && negb (cmd_prp m e =? 0) then 6 else 0.

(** The log pages that are copied from an object must not be longer than it. *)
Definition log_ok (m : mem) (e : Z) : Prop :=
  (cmd_field m SB e CMD_DW10 1 = NVME_LOG_SMART → cmd_len m e ≤ 512) ∧
  (cmd_field m SB e CMD_DW10 1 = NVME_LOG_CMD_EFFECTS → cmd_len m e ≤ 4096).
Definition nsid_ok (m : mem) (e : Z) : Prop :=
  1 ≤ cmd_field m SB e CMD_NSID 4 ≤ 2 ∧ is_Some (aget nss (cmd_field m SB e CMD_NSID 4 - 1)).

(** ** Log pages *)

Lemma wp_served_st (B : Z → Prop) v a l :
  (∀ x, region a (Z.of_nat (length l)) x → B x) →
  wp (st a l) v (λ _ v', served B v v').
Proof. intros HB. unfold st. wp_step. by apply served_write. Qed.

Lemma log_len_nonneg m e : 0 ≤ cmd_len m e.
Proof. unfold cmd_len, log_length. apply u32_range. Qed.

Lemma wp_fdp_log_len f lid len :
  ctx_wf f → lid ∈ [NVME_LOG_FDP_CONFIGS; NVME_LOG_FDP_RUH_USAGE; NVME_LOG_FDP_STATS; NVME_LOG_FDP_EVENTS] →
  ∃ l, fdp_get_log_page f lid len = Ok l ∧ length l = Z.to_nat (Z.min len PAGE_SIZE).
Proof.
  intros Hf Hlid. unfold fdp_get_log_page.
  assert (wp (fdp_log f lid) (anew PAGE_SIZE 0) (λ _ log, alen log = PAGE_SIZE)) as Hw.
  { apply elem_of_cons in Hlid as [->|Hlid];
      [eapply wp_mono; [exact (log_configs_spec f Hf)|intros ? ? H; exact (proj1 H)]|].
    apply elem_of_cons in Hlid as [->|Hlid];
      [eapply wp_mono; [exact (log_ruh_usage_spec f Hf)|intros ? ? H; exact (proj1 H)]|].
    apply elem_of_cons in Hlid as [->|Hlid];
      [eapply wp_mono; [exact (log_stats_spec f Hf)|intros ? ? H; exact (proj1 H)]|].
    apply elem_of_cons in Hlid as [->|Hlid];
      [eapply wp_mono; [exact (log_events_spec f Hf)|intros ? ? H; exact (proj1 H)]|].
    by apply elem_of_nil in Hlid. }
  apply wp_Ok in Hw as ([] & log & -> & Hlog). eexists. split; [reflexivity|].
  apply length_load_bytes; [done|]. rewrite Hlog. unfold PAGE_SIZE. lia.
Qed.


Lemma wp_copy_log v a l len :
  0 ≤ len ≤ Z.of_nat (length l) →
  wp (copy_log a l len) v (λ _ v', served (region a len) v v').
Proof.
  intros Hl. unfold copy_log. rewrite (proj2 (Z.leb_le _ _)) by lia. apply wp_served_st.
  intros x. rewrite length_take. unfold region. lia.
Qed.

Lemma length_effects_log : length (effects_log c) = 4096%nat.
Proof.
  unfold effects_log. rewrite !length_app, length_replicate.
  assert (∀ (f : Z → Z) l, length (concat (map (λ i, le_split 4 (f i)) l)) = (4 * length l)%nat) as H.
  { intros f l. induction l as [|i l IH]; [done|]. cbn [map concat length].
    rewrite length_app, length_le_split, IH. lia. }
  rewrite !H, length_seqZ. done.
Qed.

Lemma wp_get_log_page v e :
  adm SB CB q v → 0 ≤ e < aq_sq_depth q → log_ok (v_mem v) e →
  disjoint_rings (region (cmd_prp (v_mem v) e) (log_buffer (v_mem v) e)) →
  wp (nvmev_admin_get_log_page c e) v (λ _ v',
    handled SB CB q (region (cmd_prp (v_mem v) e) (log_buffer (v_mem v) e)) e 0 v v').
Proof.
  intros Ha He [Hsm Hef] Hd. unfold nvmev_admin_get_log_page. do 4 field_of Ha.
  fold (cmd_len (v_mem v) e) (cmd_prp (v_mem v) e). rewrite prp_address_eq.
  unfold log_buffer in *. pose proof (log_len_nonneg (v_mem v) e) as Hl.
  wp_step. eapply wp_mono with (Q := λ _ v1, served (region (cmd_prp (v_mem v) e)
    (if is_fdp_log c (fld v e CMD_DW10 1) then Z.min (cmd_len (v_mem v) e) PAGE_SIZE
     else cmd_len (v_mem v) e)) v v1);
    [|intros [] v1 Hs; exact (wp_finish_cmd _ _ _ _ _ _ Hs Ha Hd He)].
  destruct (Z.eqb_spec (fld v e CMD_DW10 1) NVME_LOG_SMART) as [E|_].
  { rewrite E. replace (is_fdp_log c NVME_LOG_SMART) with false
      by (unfold is_fdp_log; by rewrite andb_false_r).
    apply wp_copy_log. change (length smart_log) with 512%nat. auto with lia. }
  destruct (Z.eqb_spec (fld v e CMD_DW10 1) NVME_LOG_CMD_EFFECTS) as [E|_].
  { rewrite E. replace (is_fdp_log c NVME_LOG_CMD_EFFECTS) with false
      by (unfold is_fdp_log; by rewrite andb_false_r).
    apply wp_copy_log. rewrite length_effects_log. auto with lia. }
  destruct (is_fdp_log c (fld v e CMD_DW10 1)) eqn:E.
  - wp_step. wp_step. unfold is_fdp_log in E. apply andb_true_iff in E as [_ E%bool_decide_eq_true].
    destruct (wp_fdp_log_len (v_fdp v) _ (cmd_len (v_mem v) e) (fo_wf _ (ad_fdp _ _ _ _ Ha)) E)
      as (l & -> & Hlen).
    apply wp_served_st. intros x. rewrite Hlen. unfold region, PAGE_SIZE. lia.
  - apply wp_served_st. intros x. rewrite length_replicate. unfold region. lia.
Qed.

(** ** Identify *)

Lemma wp_st_page v a m :
  sized m → wp (st_page a m) v (λ _ v', served (region a PAGE_SIZE) v v').
Proof.
  intros Hm. unfold st_page. destruct (wp_Ok _ _ _ (Hm (anew PAGE_SIZE 0) eq_refl)) as ([] & page & -> & Hp).
  apply wp_served_st. intros x. rewrite length_load_bytes; [|done|rewrite Hp; unfold PAGE_SIZE; lia].
  unfold PAGE_SIZE. by rewrite Z2Nat.id.
Qed.

Lemma wp_identify_ctrl v e :
  adm SB CB q v → 0 ≤ e < aq_sq_depth q → disjoint_rings (region (cmd_prp (v_mem v) e) PAGE_SIZE) →
  wp (nvmev_admin_identify_ctrl c e) v (λ _ v',
    handled SB CB q (region (cmd_prp (v_mem v) e) PAGE_SIZE) e 0 v v').
Proof.
  intros Ha He Hd. unfold nvmev_admin_identify_ctrl. field_of Ha. fold (cmd_prp (v_mem v) e).
  rewrite prp_address_eq. wp_step. eapply wp_mono; [apply wp_st_page, sized_id_ctrl|].
  intros [] v1 Hs. exact (wp_finish_cmd _ _ _ _ _ _ Hs Ha Hd He).
Qed.

Lemma wp_aread_ns v i (Q : nvmev_ns → vdev → Prop) :
  is_Some (aget nss i) → (∀ ns, aget nss i = Some ns → Q ns v) → wp (aread nss i) v Q.
Proof. intros [ns Hns] HQ. eapply wp_aread; [exact Hns|auto]. Qed.

Lemma wp_identify_namespace v e :
  build_ok → adm SB CB q v → 0 ≤ e < aq_sq_depth q → nsid_ok (v_mem v) e →
  disjoint_rings (region (cmd_prp (v_mem v) e) PAGE_SIZE) →
  wp (nvmev_admin_identify_namespace c nss e) v (λ _ v',
    handled SB CB q (region (cmd_prp (v_mem v) e) PAGE_SIZE) e 0 v v').
Proof.
  intros build Ha He [Hn Hns] Hd. unfold nvmev_admin_identify_namespace. do 2 field_of Ha.
  fold (cmd_prp (v_mem v) e). rewrite u32_small by lia. wp_step.
  apply wp_aread_ns; [done|]. intros ns _.
  wp_step. eapply wp_mono with (Q := λ _ v', v' = v).
  { destruct (SUPPORTED_SSD_TYPE c SSD_TYPE_FDP); [|by wp_step]. unfold NS_SSD_TYPE.
    rewrite (proj2 (in_range_true _ _)) by lia. wp_step. wp_step. by wp_step. }
  intros fdp v' ->. rewrite prp_address_eq. wp_step.
  eapply wp_mono; [apply wp_st_page, sized_id_ns, build|].
  intros [] v1 Hs. exact (wp_finish_cmd _ _ _ _ _ _ Hs Ha Hd He).
Qed.

Lemma wp_identify_namespace_desc v e :
  adm SB CB q v → 0 ≤ e < aq_sq_depth q → nsid_ok (v_mem v) e →
  disjoint_rings (region (cmd_prp (v_mem v) e) PAGE_SIZE) →
  wp (nvmev_admin_identify_namespace_desc nss e) v (λ _ v',
    handled SB CB q (region (cmd_prp (v_mem v) e) PAGE_SIZE) e 0 v v').
Proof.
  intros Ha He [Hn Hns] Hd. unfold nvmev_admin_identify_namespace_desc. do 2 field_of Ha.
  fold (cmd_prp (v_mem v) e). rewrite s32_small by lia. wp_step.
  apply wp_aread_ns; [done|]. intros ns _. rewrite prp_address_eq. wp_step.
  eapply wp_mono; [apply wp_st_page, sized_id_ns_desc|].
  intros [] v1 Hs. exact (wp_finish_cmd _ _ _ _ _ _ Hs Ha Hd He).
Qed.

Lemma wp_identify_zns_namespace v e :
  build_ok → adm SB CB q v → 0 ≤ e < aq_sq_depth q → nsid_ok (v_mem v) e →
  let n := if bool_decide (NS_SSD_TYPE_0 c = SSD_TYPE_ZNS) then PAGE_SIZE else 0 in
  disjoint_rings (region (cmd_prp (v_mem v) e) n) →
  wp (nvmev_admin_identify_zns_namespace c nss zp e) v (λ _ v',
    handled SB CB q (region (cmd_prp (v_mem v) e) n) e 0 v v').
Proof.
  intros build Ha He [Hn Hns] n Hd. unfold nvmev_admin_identify_zns_namespace. field_of Ha.
  rewrite s32_small by lia. wp_step. apply wp_aread_ns; [done|]. intros ns Hget. wp_step.
  unfold NS_SSD_TYPE. rewrite (proj2 (in_range_true _ _)) by lia. wp_step. subst n.
  destruct (decide (NS_SSD_TYPE_0 c = SSD_TYPE_ZNS)) as [E|E].
  - rewrite (bool_decide_eq_true_2 _ E) in Hd |- *. rewrite (bool_decide_eq_false_2 (_ ≠ _)) by auto.
    rewrite (bo_csi build _ _ E Hget), Z.eqb_refl. unfold NVMEV_ASSERT. wp_step. wp_step.
    field_of Ha. fold (cmd_prp (v_mem v) e). rewrite prp_address_eq. wp_step.
    eapply wp_mono; [apply wp_st_page, sized_id_zns_ns|].
    intros [] v1 Hs. exact (wp_finish_cmd _ _ _ _ _ _ Hs Ha Hd He).
  - rewrite (bool_decide_eq_false_2 _ E) in Hd |- *. rewrite (bool_decide_eq_true_2 (_ ≠ _)) by done.
    exact (wp_finish_cmd _ _ _ _ _ _ (served_refl _ v) Ha Hd He).
Qed.

Lemma wp_list_namespaces B v e ids v1 ns :
  adm SB CB q v → 0 ≤ e < aq_sq_depth q → served B v v1 →
  (∀ x, region ns (4 * Z.of_nat (length ids)) x → B x) →
  wp (list_namespaces e ids ns) v1 (λ _ v', served B v v').
Proof.
  intros Ha He Hs HB. revert v1 ns Hs HB. induction ids as [|i ids IH]; intros v1 ns Hs HB; cbn [list_namespaces].
  { by wp_step. }
  pose proof (served_adm _ _ _ _ _ _ Ha Hs) as Ha1. field_of Ha1.
  destruct (_ <? i).
  - wp_step. eapply wp_mono; [apply (wp_served_st B)|].
    { intros x. rewrite length_le_split. intros Hx. apply HB. unfold region in *. cbn [length]. lia. }
    intros [] v2 Hs2. apply IH; [by eapply served_trans|]. intros x Hx. apply HB.
    unfold region in *. cbn [length]. lia.
  - apply IH; [done|]. intros x Hx. apply HB. unfold region in *. cbn [length]. lia.
Qed.

Lemma wp_identify_namespaces v e :
  adm SB CB q v → 0 ≤ e < aq_sq_depth q →
  disjoint_rings (region (cmd_prp (v_mem v) e) (PAGE_SIZE * 2)) →
  wp (nvmev_admin_identify_namespaces e) v (λ _ v',
    handled SB CB q (region (cmd_prp (v_mem v) e) (PAGE_SIZE * 2)) e 0 v v').
Proof.
  intros Ha He Hd. unfold nvmev_admin_identify_namespaces. field_of Ha.
  fold (cmd_prp (v_mem v) e). rewrite prp_address_eq.
  wp_step. eapply wp_mono; [apply (wp_served_st (region (cmd_prp (v_mem v) e) (PAGE_SIZE * 2)))|].
  { intros x. by rewrite length_replicate. }
  intros [] v1 Hs. wp_step. eapply wp_mono; [apply (wp_list_namespaces _ _ _ _ _ _ Ha He Hs)|].
  { intros x. rewrite length_seqZ. change (4 * Z.of_nat (Z.to_nat nr_ns)) with 4.
    unfold region, PAGE_SIZE. lia. }
  intros [] v2 Hs2. exact (wp_finish_cmd _ _ _ _ _ _ Hs2 Ha Hd He).
Qed.

Lemma wp_identify_zns_ctrl v e :
  adm SB CB q v → 0 ≤ e < aq_sq_depth q →
  disjoint_rings (region (cmd_prp (v_mem v) e) 1) →
  wp (nvmev_admin_identify_zns_ctrl e) v (λ _ v',
    handled SB CB q (region (cmd_prp (v_mem v) e) 1) e 0 v v').
Proof.
  intros Ha He Hd. unfold nvmev_admin_identify_zns_ctrl. field_of Ha. fold (cmd_prp (v_mem v) e).
  rewrite prp_address_eq. wp_step.
  eapply wp_mono; [by apply (wp_served_st (region (cmd_prp (v_mem v) e) 1))|].
  intros [] v1 Hs. exact (wp_finish_cmd _ _ _ _ _ _ Hs Ha Hd He).
Qed.

Definition id_status (m : mem) (e : Z) : Z :=
  if bool_decide (cmd_field m SB e CMD_DW10 4 ∈ [0; 1; 2; 3; 5; 6]) then NVME_SC_SUCCESS
  else NVME_SC_INVALID_OPCODE.

Lemma wp_identify v e :
  build_ok → adm SB CB q v → 0 ≤ e < aq_sq_depth q →
  (fld v e CMD_DW10 4 ∈ [0; 3; 5] → nsid_ok (v_mem v) e) →
  disjoint_rings (region (cmd_prp (v_mem v) e) (id_buffer (v_mem v) e)) →
  wp (nvmev_admin_identify c nss zp e) v (λ _ v',
    handled SB CB q (region (cmd_prp (v_mem v) e) (id_buffer (v_mem v) e)) e (id_status (v_mem v) e) v v').
Proof.
  intros build Ha He Hns Hd0. unfold nvmev_admin_identify. field_of Ha. revert Hd0.
  unfold id_status, id_buffer.
  destruct (Z.eqb_spec (fld v e CMD_DW10 4) 0) as [E|E0].
  { rewrite E. simpl. intros Hd. apply wp_identify_namespace; [done|done|done| |done].
    apply Hns. rewrite E. by apply (bool_decide_unpack _). }
  destruct (Z.eqb_spec (fld v e CMD_DW10 4) 1) as [E|E1].
  { rewrite E. simpl. intros Hd. by apply wp_identify_ctrl. }
  destruct (Z.eqb_spec (fld v e CMD_DW10 4) 2) as [E|E2].
  { rewrite E. intros Hd. by apply wp_identify_namespaces. }
  destruct (Z.eqb_spec (fld v e CMD_DW10 4) 3) as [E|E3].
  { rewrite E. simpl. intros Hd. apply wp_identify_namespace_desc; [done|done| |done].
    apply Hns. rewrite E. by apply (bool_decide_unpack _). }
  destruct (Z.eqb_spec (fld v e CMD_DW10 4) 5) as [E|E5].
  { rewrite E. cbn [Z.eqb Pos.eqb andb]. change (bool_decide (5 ∈ [0; 1; 3])) with false.
    change (bool_decide (5 ∈ _)) with true. intros Hd.
    apply wp_identify_zns_namespace; [done|done|done| |done]. apply Hns. rewrite E. by apply (bool_decide_unpack _). }
  destruct (Z.eqb_spec (fld v e CMD_DW10 4) 6) as [E|E6].
  { rewrite E. simpl. intros Hd. by apply wp_identify_zns_ctrl. }
  rewrite !(bool_decide_eq_false_2 (fld v e CMD_DW10 4 ∈ _))
    by (rewrite !elem_of_cons, elem_of_nil; tauto).
  intros Hd. exact (wp_finish_cmd _ _ _ _ _ _ (served_refl _ v) Ha Hd He).
Qed.

(** ** Features *)

Definition with_queues (nr_sq nr_cq : Z) (v : vdev) : vdev := set_v_nr_cq nr_cq (set_v_nr_sq nr_sq v).
(** The queue counts a host asks for in [dw11]. *)
Definition asked_queues (dw11 : Z) (v : vdev) : vdev :=
  with_queues (Z.min (Z.land dw11 0xFFFF + 1) NR_MAX_IO_QUEUE)
    (Z.min (Z.land (Z.shiftr dw11 16) 0xFFFF + 1) NR_MAX_IO_QUEUE) v.

Lemma served_queues B v a b : served B v (with_queues a b v).
Proof. by split. Qed.

Lemma wp_set_num_queues v e :
  adm SB CB q v → 0 ≤ e < aq_sq_depth q → fld v e CMD_DW10 4 = NVME_FEAT_NUM_QUEUES →
  wp (nvmev_admin_set_features c e) v (λ _ v', let v1 := asked_queues (fld v e CMD_DW11 4) v in
    posted SB CB q (v_mem v) e 0 (num_queues_result v1) v1 v').
Proof.
  intros Ha He Hf. unfold nvmev_admin_set_features. field_of Ha. rewrite Hf, Z.eqb_refl.
  wp_step. field_of Ha. wp_step. unfold set_num_queues. wp_step. wp_step. wp_step. wp_step. wp_step. wp_step.
  eapply wp_mono; [apply wp_post; [|done]|].
  { exact (served_adm _ _ _ no_buffer _ _ Ha (served_queues _ v _ _)). }
  intros [] v' ->. reflexivity.
Qed.

Lemma wp_get_num_queues v e :
  adm SB CB q v → 0 ≤ e < aq_sq_depth q → fld v e CMD_DW10 4 = NVME_FEAT_NUM_QUEUES →
  wp (nvmev_admin_get_features c e) v (λ _ v',
    posted SB CB q (v_mem v) e 0 (num_queues_result v) v v').
Proof.
  intros Ha He Hf. unfold nvmev_admin_get_features. field_of Ha. rewrite Hf, Z.eqb_refl.
  wp_step. wp_step. by apply wp_post.
Qed.

(** The configuration of FDP can only be confirmed: enabled, index 0. *)
Definition feature_status (m : mem) (e : Z) : Z :=
  let fid := cmd_field m SB e CMD_DW10 4 in
  let dw11 := cmd_field m SB e CMD_DW11 4 in
  if SUPPORTED_SSD_TYPE c SSD_TYPE_FDP && (fid =? NVME_FEAT_FDP)
     && (negb (Z.land dw11 1 =? 1) || negb (Z.land (Z.shiftr dw11 8) 255 =? 0))
  then NVME_SC_FEATURE_NOT_CHANGEABLE else NVME_SC_SUCCESS.

Lemma set_events_ok f events :
  fdp_ok f → fst <$> events = fst <$> fx_events f → fdp_ok (set_events f events).
Proof.
  intros [[] L T] H. split; [by split| |]; simpl.
  - by rewrite <- (length_fmap fst events), H, length_fmap.
  - assert (Forall (λ t, 0 ≤ t < 2 ^ 8) (fst <$> fx_events f)) as T' by (by apply Forall_fmap).
    rewrite <- H in T'. by apply Forall_fmap in T'.
Qed.

Lemma fdp_set_feature_ok f dw11 m prp :
  fdp_ok f → ∃ f' r, fdp_set_feature_events f dw11 (feature_buffer m prp) = Ok (f', r) ∧ fdp_ok f'.
Proof.
  intros Hf. unfold feature_buffer. destruct (prp =? 0); [by eexists _, _|].
  destruct (set_feature_events_spec f dw11 (abuild 512 0 (λ i, m (prp_address prp + i))))
    as (events & r & -> & Hty & _).
  { rewrite alen_abuild by lia. rewrite noet_of_eq. dlia. }
  eexists _, _. split; [reflexivity|]. by apply set_events_ok.
Qed.

Lemma served_fdp B v f : fdp_ok f → served B v (set_v_fdp f v).
Proof. by split. Qed.

Lemma wp_set_features v e :
  adm SB CB q v → 0 ≤ e < aq_sq_depth q →
  wp (nvmev_admin_set_features c e) v (λ _ v',
    handled SB CB q no_buffer e (feature_status (v_mem v) e) v v').
Proof.
  intros Ha He. destruct (Z.eqb_spec (fld v e CMD_DW10 4) NVME_FEAT_NUM_QUEUES) as [E|E].
  { eapply wp_mono; [by apply wp_set_num_queues|]. intros [] v' Hp.
    exists (asked_queues (fld v e CMD_DW11 4) v), (num_queues_result (asked_queues (fld v e CMD_DW11 4) v)).
    split; [apply served_queues|]. unfold feature_status. rewrite E, andb_false_r. exact Hp. }
  assert (disjoint_rings no_buffer) as Hd by (intros x []).
  unfold nvmev_admin_set_features, feature_status. field_of Ha.
  rewrite (proj2 (Z.eqb_neq _ _) E).
  wp_step. eapply wp_mono with (Q := λ r v1, served no_buffer v v1 ∧ fst r =
    (if SUPPORTED_SSD_TYPE c SSD_TYPE_FDP && (fld v e CMD_DW10 4 =? NVME_FEAT_FDP)
     && (negb (Z.land (fld v e CMD_DW11 4) 1 =? 1)
       || negb (Z.land (Z.shiftr (fld v e CMD_DW11 4) 8) 255 =? 0))
     then NVME_SC_FEATURE_NOT_CHANGEABLE else NVME_SC_SUCCESS)).
  - destruct (SUPPORTED_SSD_TYPE c SSD_TYPE_FDP); cbn [negb andb]; [|by wp_step].
    destruct (_ =? NVME_FEAT_FDP); cbn [andb].
    { field_of Ha. by wp_step. }
    destruct (_ =? NVME_FEAT_FDP_EVENTS); [|by wp_step].
    do 2 field_of Ha. wp_step. wp_step.
    destruct (fdp_set_feature_ok (v_fdp v) (fld v e CMD_DW11 4) (v_mem v) (fld v e CMD_PRP1 8)
      (ad_fdp _ _ _ _ Ha)) as (f' & r & -> & Hf).
    wp_step. wp_step. wp_step. split; [by apply served_fdp|done].
  - intros [sc r0] v1 [Hs Hsc]. simpl in Hsc. subst sc. exact (wp_finish_cmd _ _ _ _ _ _ Hs Ha Hd He).
Qed.

Lemma fdp_get_feature_ok f dw11 m prp :
  fdp_ok f → ∃ r desc, fdp_get_feature_events f dw11 (feature_buffer m prp) = Ok (r, desc) ∧
    (desc = None ↔ prp = 0) ∧ ∀ d, desc = Some d → alen d = 512.
Proof.
  intros Hf. unfold feature_buffer. destruct (Z.eqb_spec prp 0) as [E|E]; [by eexists _, None|].
  unfold fdp_get_feature_events.
  pose proof (wp_store_event_descs (fx_events f) 0 (abuild 512 0 (λ i, m (prp_address prp + i)))) as Hw.
  rewrite alen_abuild, (fo_events _ Hf) in Hw by lia.
  destruct (wp_Ok _ _ _ (Hw ltac:(lia) ltac:(lia) (fo_types _ Hf))) as ([] & d & -> & Hd & _).
  eexists _, _. split; [reflexivity|]. split; [done|]. by intros d' [= <-].
Qed.

Lemma wp_get_features v e :
  adm SB CB q v → 0 ≤ e < aq_sq_depth q →
  disjoint_rings (region (cmd_prp (v_mem v) e) (feature_buffer_len (v_mem v) e)) →
  wp (nvmev_admin_get_features c e) v (λ _ v',
    handled SB CB q (region (cmd_prp (v_mem v) e) (feature_buffer_len (v_mem v) e)) e 0 v v').
Proof.
  intros Ha He Hd. unfold nvmev_admin_get_features, feature_buffer_len in *. field_of Ha.
  wp_step. eapply wp_mono with (Q := λ _ v1, served (region (cmd_prp (v_mem v) e)
    (if SUPPORTED_SSD_TYPE c SSD_TYPE_FDP && (fld v e CMD_DW10 4 =? NVME_FEAT_FDP_EVENTS)
        && negb (cmd_prp (v_mem v) e =? 0) then 6 else 0)) v v1);
    [|intros r v1 Hs; exact (wp_finish_cmd _ _ _ _ _ _ Hs Ha Hd He)].
  clear Hd. destruct (Z.eqb_spec (fld v e CMD_DW10 4) NVME_FEAT_NUM_QUEUES) as [E|E].
  { by wp_step. }
  destruct (SUPPORTED_SSD_TYPE c SSD_TYPE_FDP); cbn [negb andb]; [|by wp_step].
  destruct (Z.eqb_spec (fld v e CMD_DW10 4) NVME_FEAT_FDP) as [E'|E']; [by wp_step|].
  destruct (_ =? NVME_FEAT_FDP_EVENTS); cbn [andb]; [|by wp_step].
  do 2 field_of Ha. fold (cmd_prp (v_mem v) e). wp_step. wp_step.
  pose proof (ad_fdp _ _ _ _ Ha) as Hf.
  destruct (fdp_get_feature_ok (v_fdp v) (fld v e CMD_DW11 4) (v_mem v) (cmd_prp (v_mem v) e) Hf)
    as (r & [d|] & -> & H0 & Hd); [|by wp_step].
  destruct (Z.eqb_spec (cmd_prp (v_mem v) e) 0) as [E0|_]; [by apply H0 in E0|]. cbn [negb].
  wp_step. rewrite prp_address_eq.
  eapply wp_mono; [apply (wp_served_st (region (cmd_prp (v_mem v) e) 6))|].
  - intros x. rewrite (fo_events _ Hf), length_load_bytes; [done|done|]. by rewrite (Hd d eq_refl).
  - intros [] v1 Hs. by wp_step.
Qed.
End ops.
