(* ===== verification/AdminSession.v ===== *)
(** * Sessions of the admin queue

    What one command of the admin submission queue does, whichever it is, and what a
    doorbell that announces several does: every command but Abort gets one completion,
    in the order of the commands. *)

From Stdlib Require Import ZArith Lia.
From stdpp Require Import base numbers list gmap.
From S2P Require Import Prelude Config Bytes Nvme FdpLog Dma IoData Io Zns Pci PciProps Ctrl CtrlProps Admin AdminQueue AdminOps.

#[local] Open Scope Z_scope.

Section session.
Context (c : ssd_config) (pfn_valid : Z → bool) (nss : arr nvmev_ns) (zp : Z → znsparams).
Context (SB CB : Z).

(** ** One command *)

Definition cmd_op (m : mem) (e : Z) : Z := cmd_field m SB e 0 1.

(** The length of the buffer a command names, and the status it ends with. *)
Definition cmd_buffer (m : mem) (e : Z) : Z :=
  let op := cmd_op m e in
  if op =? nvme_admin_get_log_page then log_buffer c SB m e
  else if op =? nvme_admin_identify then id_buffer c SB m e
  else if op =? nvme_admin_get_features then feature_buffer_len c SB m e
  else 0.
Definition cmd_status (m : mem) (e : Z) : Z :=
  let op := cmd_op m e in
  if op =? nvme_admin_identify then id_status SB m e
  else if op =? nvme_admin_set_features then feature_status c SB m e
  else if bool_decide (op ∈ [nvme_admin_delete_sq; nvme_admin_create_sq; nvme_admin_get_log_page;
    nvme_admin_delete_cq; nvme_admin_create_cq; nvme_admin_get_features; nvme_admin_async_event])
  then NVME_SC_SUCCESS else NVME_SC_INVALID_OPCODE.
Definition buffer_of (m : mem) (e : Z) : Z → Prop := region (cmd_prp SB m e) (cmd_buffer m e).

(** The commands the device survives: the code does not check these conditions. *)
Record cmd_ok (q : nvmev_admin_queue) (m : mem) (e : Z) : Prop := {
  co_buffer : disjoint_rings SB CB q (buffer_of m e);
  co_qid : cmd_op m e ∈ [nvme_admin_delete_sq; nvme_admin_create_sq; nvme_admin_delete_cq;
             nvme_admin_create_cq] → 1 ≤ cmd_field m SB e CMD_DW10 2 ≤ NR_MAX_IO_QUEUE;
  co_log : cmd_op m e = nvme_admin_get_log_page → log_ok SB m e;
  co_nsid : cmd_op m e = nvme_admin_identify → cmd_field m SB e CMD_DW10 4 ∈ [0; 3; 5] →
            nsid_ok nss SB m e;
}.

Lemma served_mono (B B' : Z → Prop) v v' : (∀ x, B x → B' x) → served B v v' → served B' v v'.
Proof. intros H []. split; try done. auto. Qed.
Lemma handled_mono q (B B' : Z → Prop) e sc v v' :
  (∀ x, B x → B' x) → handled SB CB q B e sc v v' → handled SB CB q B' e sc v v'.
Proof. intros H (v1 & r0 & Hs & Hp). exists v1, r0. split; [by eapply served_mono|done]. Qed.

(** A handler with a known result, as an instance of [handled]. *)
Lemma handled_posted q B e v v1 v' :
  served no_buffer v v1 → posted SB CB q (v_mem v) e 0 0 v1 v' → handled SB CB q B e 0 v v'.
Proof. intros Hs Hp. exists v1, 0. split; [|done]. by apply (served_mono no_buffer). Qed.

Lemma wp_admin_req q v e :
  build_ok c nss → adm SB CB q v → 0 ≤ e < aq_sq_depth q → cmd_ok q (v_mem v) e →
  cmd_op (v_mem v) e ≠ nvme_admin_abort_cmd →
  wp (nvmev_proc_admin_req c pfn_valid nss zp e) v (λ _ v',
    handled SB CB q (buffer_of (v_mem v) e) e (cmd_status (v_mem v) e) v v').
Proof.
  intros build Ha He [Hd Hq Hl Hn] Hab. unfold nvmev_proc_admin_req.
  field_of Ha.
  unfold buffer_of, cmd_status, cmd_buffer in *. fold (cmd_op (v_mem v) e).
  remember (cmd_op (v_mem v) e) as op eqn:Eop. clear Eop.
  destruct (Z.eqb_spec op nvme_admin_delete_sq) as [E|N0].
  { subst op. eapply wp_mono; [apply wp_delete_sq; [done|done|]|].
    - enough (1 ≤ cmd_field (v_mem v) SB e CMD_DW10 2 ≤ NR_MAX_IO_QUEUE) by lia.
      apply Hq. by apply (bool_decide_unpack _).
    - intros [] v' Hp. by eapply handled_posted, Hp; apply served_with_sq. }
  destruct (Z.eqb_spec op nvme_admin_create_sq) as [E|N1].
  { subst op. eapply wp_mono; [apply wp_create_sq; [done|done|]|].
    - apply Hq. by apply (bool_decide_unpack _).
    - intros [] v' (v1 & _ & Hs & Hp). by eapply handled_posted. }
  destruct (Z.eqb_spec op nvme_admin_get_log_page) as [E|N2].
  { subst op. apply wp_get_log_page; [done|done|by apply Hl|done]. }
  destruct (Z.eqb_spec op nvme_admin_delete_cq) as [E|N3].
  { subst op. eapply wp_mono; [apply wp_delete_cq; [done|done|]|].
    - enough (1 ≤ cmd_field (v_mem v) SB e CMD_DW10 2 ≤ NR_MAX_IO_QUEUE) by lia.
      apply Hq. by apply (bool_decide_unpack _).
    - intros [] v' Hp. by eapply handled_posted, Hp; apply served_with_cq. }
  destruct (Z.eqb_spec op nvme_admin_create_cq) as [E|N4].
  { subst op. eapply wp_mono; [apply wp_create_cq; [done|done|]|].
    - apply Hq. by apply (bool_decide_unpack _).
    - intros [] v' (v1 & _ & Hs & Hp). by eapply handled_posted. }
  destruct (Z.eqb_spec op nvme_admin_identify) as [E|N5].
  { subst op. apply wp_identify; [done|done|done|done|by apply Hn|done]. }
  destruct (Z.eqb_spec op nvme_admin_abort_cmd) as [E|_]; [done|].
  destruct (Z.eqb_spec op nvme_admin_set_features) as [E|N7].
  { subst op. eapply wp_mono; [by apply wp_set_features|]. intros [] v' Hh.
    by eapply handled_mono, Hh; intros x []. }
  destruct (Z.eqb_spec op nvme_admin_get_features) as [E|N8].
  { subst op. by apply wp_get_features. }
  destruct (Z.eqb_spec op nvme_admin_async_event) as [E|N9].
  { subst op. exact (wp_finish_cmd SB CB q _ v v e 0 0 (served_refl _ v) Ha Hd He). }
  rewrite bool_decide_eq_false_2 by (rewrite !elem_of_cons, elem_of_nil; tauto).
  exact (wp_finish_cmd SB CB q _ v v e _ 0 (served_refl _ v) Ha Hd He).
Qed.

(** ** The same command in another memory *)

Lemma field_same m m' e off n :
  (∀ x, region (SB + 64 * e) 64 x → m' x = m x) → 0 ≤ off → off + n ≤ 64 →
  cmd_field m' SB e off n = cmd_field m SB e off n.
Proof.
  intros H Ho Hn. unfold cmd_field. apply mem_read_ext. intros x Hx. apply H. unfold region in *. lia.
Qed.

Lemma cmd_same m m' e :
  (∀ x, region (SB + 64 * e) 64 x → m' x = m x) →
  cmd_op m' e = cmd_op m e ∧ cmd_prp SB m' e = cmd_prp SB m e ∧ cmd_buffer m' e = cmd_buffer m e ∧
  cmd_status m' e = cmd_status m e ∧ (log_ok SB m e → log_ok SB m' e) ∧
  (nsid_ok nss SB m e → nsid_ok nss SB m' e) ∧
  (∀ n, n ≤ 4 → cmd_field m' SB e CMD_DW10 n = cmd_field m SB e CMD_DW10 n) ∧
  cmd_field m' SB e CMD_ID 2 = cmd_field m SB e CMD_ID 2.
Proof.
  intros H.
  unfold cmd_status, cmd_buffer, log_buffer, id_buffer, feature_buffer_len, id_status, feature_status,
    log_ok, nsid_ok, cmd_op, cmd_len, cmd_prp.
  assert (∀ n, n ≤ 4 → cmd_field m' SB e CMD_DW10 n = cmd_field m SB e CMD_DW10 n) as Hw.
  { intros n Hn. apply field_same; [done|done|]. unfold CMD_DW10. lia. }
  rewrite !Hw by done. rewrite !(field_same m m' e) by done.
  split; [done|]. split; [done|]. split; [done|]. split; [done|]. split; [done|]. split; [done|].
  by split.
Qed.

Lemma cmd_ok_same q m m' e :
  (∀ x, region (SB + 64 * e) 64 x → m' x = m x) → cmd_ok q m e → cmd_ok q m' e.
Proof.
  intros H [D Q L N]. destruct (cmd_same _ _ _ H) as (Eo & Ep & Eb & _ & El & En & Ef & _).
  split; unfold buffer_of in *; rewrite ?Eo, ?Ep, ?Eb, ?Ef by lia; auto.
Qed.

(** ** The ring after some completions *)

Definition ring_after (k : nat) (q : nvmev_admin_queue) : nvmev_admin_queue := Nat.iter k advance q.

Lemma ring_after_depths k q :
  aq_sq_depth (ring_after k q) = aq_sq_depth q ∧ aq_cq_depth (ring_after k q) = aq_cq_depth q.
Proof. by induction k. Qed.

Lemma ring_after_rings k q : rings SB CB q → rings SB CB (ring_after k q).
Proof. intros H. induction k; [done|]. by apply advance_rings. Qed.

Lemma succ_div_mod x d :
  0 < d → if x mod d + 1 =? d then (x + 1) mod d = 0 ∧ (x + 1) / d = x / d + 1
          else (x + 1) mod d = x mod d + 1 ∧ (x + 1) / d = x / d.
Proof.
  intros Hd. pose proof (Z.div_mod x d ltac:(lia)). pose proof (Z.mod_pos_bound x d Hd).
  destruct (Z.eqb_spec (x mod d + 1) d) as [E|E]; split; symmetry.
  - apply (Z.mod_unique _ _ (x / d + 1)); [left|]; lia.
  - apply (Z.div_unique _ _ _ 0); [left|]; lia.
  - apply (Z.mod_unique _ _ (x / d)); [left|]; lia.
  - apply (Z.div_unique _ _ _ (x mod d + 1)); [left|]; lia.
Qed.

(** The slot and the phase tag of the [k]-th completion. *)
Definition slot_at (q : nvmev_admin_queue) (k : nat) : Z := (aq_cq_head q + Z.of_nat k) mod aq_cq_depth q.
Definition phase_at (q : nvmev_admin_queue) (k : nat) : Z :=
  if Z.even ((aq_cq_head q + Z.of_nat k) / aq_cq_depth q) then aq_phase q else 1 - aq_phase q.

Lemma ring_after_head q k :
  rings SB CB q → aq_cq_head (ring_after k q) = slot_at q k ∧ aq_phase (ring_after k q) = phase_at q k.
Proof.
  intros [_ _ _ Hd Hh Hp _]. unfold slot_at, phase_at. induction k as [|k [IHh IHp]].
  { change (Z.of_nat 0) with 0. rewrite Z.add_0_r, Z.mod_small, Z.div_small by lia. done. }
  change (ring_after (S k) q) with (advance (ring_after k q)). unfold advance. cbn [aq_cq_head aq_phase].
  destruct (ring_after_depths k q) as [_ Ed]. rewrite Ed, IHh, IHp.
  replace (aq_cq_head q + Z.of_nat (S k)) with (aq_cq_head q + Z.of_nat k + 1) by lia.
  pose proof (succ_div_mod (aq_cq_head q + Z.of_nat k) (aq_cq_depth q) ltac:(lia)) as H.
  destruct (_ =? aq_cq_depth q); destruct H as [-> ->]; [|done]. split; [done|].
  rewrite Z.add_1_r, Z.even_succ, <- Z.negb_even.
  destruct (Z.even _), Hp as [-> | ->]; done.
Qed.

Lemma slot_at_range q k : 0 < aq_cq_depth q → 0 ≤ slot_at q k < aq_cq_depth q.
Proof. intros. unfold slot_at. apply Z.mod_pos_bound. lia. Qed.

(** Completions less than a whole ring apart have different slots. *)
Lemma slot_at_ne q j k :
  (j < k)%nat → Z.of_nat k < Z.of_nat j + aq_cq_depth q → slot_at q j ≠ slot_at q k.
Proof.
  intros Hjk Hd E. unfold slot_at in E.
  pose proof (Z.div_mod (aq_cq_head q + Z.of_nat j) (aq_cq_depth q) ltac:(lia)) as H1.
  pose proof (Z.div_mod (aq_cq_head q + Z.of_nat k) (aq_cq_depth q) ltac:(lia)) as H2.
  rewrite E in H1. revert H1 H2. generalize ((aq_cq_head q + Z.of_nat j) / aq_cq_depth q).
  generalize ((aq_cq_head q + Z.of_nat k) / aq_cq_depth q). intros y x H1 H2.
  assert (0 < aq_cq_depth q * (y - x) < aq_cq_depth q) by lia. clear - H.
  destruct (Z.le_gt_cases (y - x) 0); nia.
Qed.

(** ** Several commands *)

(** The completion of the command at [e], the [k]-th one since the ring was [q]. *)
Definition completion_of (m : mem) (q : nvmev_admin_queue) (k : nat) (e r0 : Z) : nvme_completion :=
  Completion r0 0 e 0 (cmd_field m SB e CMD_ID 2) (Z.lor (phase_at q k) (Z.shiftl (cmd_status m e) 1)).

(** The 16 bytes of a slot of the completion ring. *)
Definition slot_bytes (m : mem) (slot : Z) : list Z := map m (seqZ (CB + 16 * slot) 16).

(** What has happened since [v0] when the commands [cs] have been answered: their
    completions are in the ring, at least the last turn of it, and memory has changed
    only there and in their buffers. *)
Record answered (q0 : nvmev_admin_queue) (v0 : vdev) (cs : list Z) (v : vdev) : Prop := {
  an_adm : adm SB CB (ring_after (length cs) q0) v;
  an_pci : v_pci v = v_pci v0;
  an_irqs : v_irqs v = v_irqs v0;
  an_bars : v_bar v = v_bar v0 ∧ v_old_bar v = v_old_bar v0;
  an_dbs i : i < 2 → aget (v_dbs v) i = aget (v_dbs v0) i ∧ aget (v_old_dbs v) i = aget (v_old_dbs v0) i;
  an_mem x : ¬ region CB (16 * aq_cq_depth q0) x → Forall (λ e, ¬ buffer_of (v_mem v0) e x) cs →
             v_mem v x = v_mem v0 x;
  an_posted k e : cs !! k = Some e → Z.of_nat (length cs) ≤ Z.of_nat k + aq_cq_depth q0 →
             ∃ r0, slot_bytes (v_mem v) (slot_at q0 k) =
                   completion_bytes (completion_of (v_mem v0) q0 k e r0);
}.

Lemma answered_nil q v : adm SB CB q v → answered q v [] v.
Proof. intros Ha. split; done. Qed.

Lemma length_completion_bytes e : length (completion_bytes e) = 16%nat.
Proof. unfold completion_bytes. by rewrite !length_app, !length_le_split. Qed.

(** Reading a slot after the completion of another, or of itself. *)
Lemma slot_bytes_ext m m' s :
  (∀ x, region (CB + 16 * s) 16 x → m' x = m x) → slot_bytes m' s = slot_bytes m s.
Proof.
  intros H. unfold slot_bytes. apply map_ext_in. intros x Hx. apply H.
  apply list_elem_of_In, elem_of_seqZ in Hx. unfold region. lia.
Qed.
Lemma slot_bytes_write m s c' :
  slot_bytes (mem_write (CB + 16 * s) (completion_bytes c') m) s = completion_bytes c'.
Proof.
  unfold slot_bytes. pose proof (map_mem_write (CB + 16 * s) (completion_bytes c') m) as H.
  by rewrite length_completion_bytes in H.
Qed.

Lemma adm_posted q q0 m e sc r0 v v' :
  adm SB CB q v → posted SB CB q m e sc r0 v v' → q0 = advance q → adm SB CB q0 v'.
Proof. intros [Q R D T F P] -> ->. split; simpl; try done. by apply advance_rings. Qed.

Lemma disjoint_rings_after k q B : disjoint_rings SB CB q B → disjoint_rings SB CB (ring_after k q) B.
Proof.
  unfold disjoint_rings, in_rings. destruct (ring_after_depths k q) as [-> ->]. done.
Qed.

(** The submission ring has not changed. *)
Lemma answered_sq q0 v0 cs v e x :
  answered q0 v0 cs v → rings SB CB q0 → Forall (cmd_ok q0 (v_mem v0)) cs → 0 ≤ e < aq_sq_depth q0 →
  region (SB + 64 * e) 64 x → v_mem v x = v_mem v0 x.
Proof.
  intros Hs Hr Hcs He Hx. assert (region SB (64 * aq_sq_depth q0) x) as Hin by (unfold region in *; lia).
  apply (an_mem _ _ _ _ Hs).
  - intros Hc. by eapply (rg_disjoint _ _ _ Hr).
  - eapply Forall_impl; [exact Hcs|]. intros e' Hok Hb. apply (co_buffer _ _ _ Hok x Hb). by left.
Qed.

Lemma wp_answer q0 v0 cs v e :
  build_ok c nss → answered q0 v0 cs v → rings SB CB q0 →
  Forall (cmd_ok q0 (v_mem v0)) cs → cmd_ok q0 (v_mem v0) e → 0 ≤ e < aq_sq_depth q0 →
  cmd_op (v_mem v0) e ≠ nvme_admin_abort_cmd →
  wp (nvmev_proc_admin_req c pfn_valid nss zp e) v (λ _ v', answered q0 v0 (cs ++ [e]) v').
Proof.
  intros build Hs Hr Hcs Hok He Hop.
  assert (∀ x, region (SB + 64 * e) 64 x → v_mem v x = v_mem v0 x) as Hsq
    by (intros x; by eapply answered_sq).
  destruct (cmd_same _ _ _ Hsq) as (Eo & Ep & Eb & Es & _ & _ & _ & Ei).
  destruct (ring_after_depths (length cs) q0) as [Eds Edc].
  destruct (ring_after_head q0 (length cs) Hr) as [Eh Eph].
  assert (cmd_ok (ring_after (length cs) q0) (v_mem v) e) as Hok'.
  { destruct (cmd_ok_same _ _ _ _ Hsq Hok) as [D Q L N]. split; try done. by apply disjoint_rings_after. }
  pose proof (an_adm _ _ _ _ Hs) as Ha.
  eapply wp_mono; [apply (wp_admin_req _ _ _ build Ha); [by rewrite Eds|done|by rewrite Eo]|].
  intros [] v' (v1 & r0 & Hsv & Hp). unfold buffer_of in Hsv. rewrite Ep, Eb in Hsv.
  pose proof (served_adm _ _ _ _ _ _ Ha Hsv) as Ha1.
  pose proof (slot_at_range q0 (length cs) ltac:(pose proof (rg_cq_depth _ _ _ Hr); lia)) as Hslot.
  assert (ring_after (length (cs ++ [e])) q0 = advance (ring_after (length cs) q0)) as Enext.
  { rewrite length_app, Nat.add_1_r. done. }
  split.
  - by eapply adm_posted.
  - rewrite Hp. simpl. by rewrite (sv_pci _ _ _ Hsv), (an_pci _ _ _ _ Hs).
  - rewrite Hp. simpl. by rewrite (sv_irqs _ _ _ Hsv), (an_irqs _ _ _ _ Hs).
  - rewrite Hp. simpl. destruct (sv_bars _ _ _ Hsv), (an_bars _ _ _ _ Hs). split; congruence.
  - intros i Hi. rewrite Hp. simpl. destruct (sv_dbs _ _ _ Hsv i Hi), (an_dbs _ _ _ _ Hs i Hi).
    split; congruence.
  - intros x Hc Hb. apply Forall_app in Hb as [Hb Hbe]. rewrite Forall_singleton in Hbe.
    rewrite Hp. cbn [v_mem set_v_mem set_v_admin_q]. rewrite mem_write_other.
    + rewrite (sv_mem _ _ _ Hsv) by exact Hbe. by apply (an_mem _ _ _ _ Hs).
    + rewrite length_completion_bytes, Eh. unfold region in *. lia.
  - intros k e' Hk Hlen. rewrite length_app in Hlen. cbn [length] in Hlen.
    rewrite Hp. cbn [v_mem set_v_mem set_v_admin_q]. rewrite Eh.
    destruct (decide (k < length cs)%nat) as [Hlt|Hge].
    + rewrite lookup_app_l in Hk by done. destruct (an_posted _ _ _ _ Hs k e' Hk ltac:(lia)) as [r Hr0].
      exists r. rewrite <- Hr0.
      pose proof (slot_at_ne q0 k (length cs) Hlt ltac:(lia)) as Hne.
      pose proof (slot_at_range q0 k ltac:(lia)) as Hk'.
      apply slot_bytes_ext. intros x Hx. rewrite mem_write_other.
      * apply (sv_mem _ _ _ Hsv). intros Hb. apply (co_buffer _ _ _ Hok x Hb). right.
        unfold region in *. lia.
      * rewrite length_completion_bytes. unfold region in *. lia.
    + assert (k = length cs) as -> by (apply lookup_lt_Some in Hk; rewrite length_app in Hk; simpl in Hk; lia).
      rewrite lookup_app_r, Nat.sub_diag in Hk by done. injection Hk as <-. exists r0.
      rewrite slot_bytes_write. unfold the_completion, completion_of. by rewrite Eph, Es, Ei.
Qed.

(** ** A doorbell *)

(** The [n] entries of a ring of [depth] from [curr] on. *)
Definition entries_from (depth curr : Z) (n : nat) : list Z :=
  map (λ i, (curr + Z.of_nat i) mod depth) (seq 0 n).

Lemma entries_from_S depth curr n :
  0 ≤ curr < depth →
  entries_from depth curr (S n) =
    curr :: entries_from depth (if curr + 1 =? depth then 0 else curr + 1) n.
Proof.
  intros Hc. unfold entries_from. cbn [seq map]. rewrite <- seq_shift, map_map. f_equal.
  - change (Z.of_nat 0) with 0. rewrite Z.add_0_r. by apply Z.mod_small.
  - apply map_ext. intros i. replace (curr + Z.of_nat (S i)) with (curr + 1 + Z.of_nat i) by lia.
    destruct (Z.eqb_spec (curr + 1) depth) as [->|_]; [|done].
    rewrite <- Z.add_mod_idemp_l, Z_mod_same_full by lia. done.
Qed.

Lemma entries_from_range depth curr n : 0 < depth → Forall (λ e, 0 ≤ e < depth) (entries_from depth curr n).
Proof.
  intros Hd. apply Forall_forall. intros e He. apply list_elem_of_In, in_map_iff in He as (i & <- & _).
  apply Z.mod_pos_bound. lia.
Qed.

(** The commands among [es] that are answered. *)
Definition to_answer (m : mem) (es : list Z) : list Z :=
  filter (λ e, cmd_op m e ≠ nvme_admin_abort_cmd) es.

Lemma wp_admin_reqs q0 v0 n :
  build_ok c nss → rings SB CB q0 → ∀ cs v curr,
  0 ≤ curr < aq_sq_depth q0 → answered q0 v0 cs v → Forall (cmd_ok q0 (v_mem v0)) cs →
  Forall (cmd_ok q0 (v_mem v0)) (entries_from (aq_sq_depth q0) curr n) →
  wp (proc_admin_reqs c pfn_valid nss zp n curr) v (λ _ v',
    answered q0 v0 (cs ++ to_answer (v_mem v0) (entries_from (aq_sq_depth q0) curr n)) v').
Proof.
  intros build Hr. induction n as [|n IH]; intros cs v curr Hc Ha Hcs Hes.
  { cbn [proc_admin_reqs]. wp_step. unfold entries_from, to_answer. simpl. by rewrite app_nil_r. }
  rewrite entries_from_S in Hes |- * by done. apply Forall_cons in Hes as [Hok Hes].
  cbn [proc_admin_reqs]. wp_step.
  eapply wp_mono with (Q := λ _ v', answered q0 v0 (cs ++ to_answer (v_mem v0) [curr]) v').
  - destruct (decide (cmd_op (v_mem v0) curr = nvme_admin_abort_cmd)) as [E|E].
    + unfold to_answer. rewrite filter_cons_False by auto. rewrite filter_nil, app_nil_r.
      unfold nvmev_proc_admin_req. pose proof (an_adm _ _ _ _ Ha) as Had.
      wp_step. eapply wp_sqe; [exact (ad_queue _ _ _ _ Had)|exact (ad_rings _ _ _ _ Had)| |].
      { by rewrite (proj1 (ring_after_depths _ _)). }
      fold (cmd_op (v_mem v) curr).
      destruct (cmd_same (v_mem v0) (v_mem v) curr) as [-> _]; [intros x; by eapply answered_sq|].
      rewrite E. simpl. by wp_step.
    + unfold to_answer. rewrite filter_cons_True by done. rewrite filter_nil. by apply wp_answer.
  - intros [] v' Ha'. wp_step. unfold admin_queue. wp_step. wp_step.
    eapply wp_deref; [exact (ad_queue _ _ _ _ (an_adm _ _ _ _ Ha'))|].
    rewrite (proj1 (ring_after_depths _ _)).
    eapply wp_mono; [apply IH|].
    + destruct (Z.eqb_spec (curr + 1) (aq_sq_depth q0)); lia.
    + exact Ha'.
    + apply Forall_app. split; [done|]. unfold to_answer. apply Forall_forall. intros x Hx.
      apply list_elem_of_filter in Hx as [_ Hx]. by apply list_elem_of_singleton in Hx as ->.
    + exact Hes.
    + intros [] v'' Ha''. rewrite <- app_assoc in Ha''. unfold to_answer in *.
      rewrite <- filter_app in Ha''. exact Ha''.
Qed.
End session.
