(* ===== verification/AdminProps.v ===== *)
(** * Theorems on the admin commands

    The admin doorbell, the creation and deletion of I/O queues, and the negotiation
    of their number. *)

From Stdlib Require Import ZArith Lia.
From stdpp Require Import base numbers list gmap.
From S2P Require Import Prelude Config Bytes Nvme FdpLog Dma IoData Io Zns Pci PciProps Ctrl CtrlProps Admin AdminQueue AdminOps AdminSession.

#[local] Open Scope Z_scope.

Section doorbell.
Context (c : ssd_config) (pfn_valid : Z → bool) (msi_get_virq : Z → Z).
Context (nss : arr nvmev_ns) (zp : Z → znsparams) (SB CB : Z).

(** The interrupt of the admin queue can be raised. *)
Definition irq_ok (v : vdev) : Prop := pci_msix (v_pci v) = Some true → msi_get_virq 0 ≠ 0.
Definition admin_irq (v : vdev) : irq :=
  match pci_msix (v_pci v) with Some true => MsiIrq (msi_get_virq 0) | _ => IntIrq end.

Lemma wp_signal_irq v :
  pci_ok (v_pci v) → is_Some (pci_msix (v_pci v)) → irq_ok v →
  wp (nvmev_signal_irq msi_get_virq 0) v (λ _ v', ∃ p, pci_ok p ∧ pci_msix p = pci_msix (v_pci v) ∧
    v' = set_v_irqs (v_irqs v ++ [admin_irq v]) (set_v_pci p v)).
Proof.
  intros [Hl Hb] [b Hm] Hi. unfold nvmev_signal_irq, admin_irq, irq_ok in *. rewrite Hm in *.
  wp_step. wp_step. wp_step. eapply wp_deref; [exact Hm|]. destruct b.
  - unfold process_msi_irq. rewrite (proj2 (Z.eqb_neq _ _)) by auto. wp_step.
    exists (v_pci v). split; [by split|]. split; [done|]. by destruct v.
  - wp_step. apply wp_zoom, wp_zoom. eapply wp_mono; [apply wp_set_field; [done|done| |done|done]|].
    { rewrite Hl. unfold PCI_STATUS, PAGE_SIZE. lia. }
    intros [] a (Hla & Hba & _). wp_step. eexists. split; [|split; [|reflexivity]].
    + split; simpl; [by rewrite Hla|done].
    + exact Hm.
Qed.

(** The entries a new doorbell value announces. *)
Definition announced (q : nvmev_admin_queue) (old new : Z) : list Z :=
  entries_from (aq_sq_depth q) old (Z.to_nat ((new - old) mod aq_sq_depth q)).

(** What is left of [answered] when the interrupt has been raised. *)
Record notified (q : nvmev_admin_queue) (v : vdev) (cs : list Z) (v' : vdev) : Prop := {
  nt_adm : adm SB CB (ring_after (length cs) q) v';
  nt_irqs : v_irqs v' = v_irqs v ++ [admin_irq v];
  nt_bars : v_bar v' = v_bar v ∧ v_old_bar v' = v_old_bar v;
  nt_dbs i : i < 2 → aget (v_dbs v') i = aget (v_dbs v) i ∧ aget (v_old_dbs v') i = aget (v_old_dbs v) i;
  nt_mem x : ¬ region CB (16 * aq_cq_depth q) x → Forall (λ e, ¬ buffer_of c SB (v_mem v) e x) cs →
             v_mem v' x = v_mem v x;
  nt_posted k e : cs !! k = Some e → Z.of_nat (length cs) ≤ Z.of_nat k + aq_cq_depth q →
             ∃ r0, slot_bytes CB (v_mem v') (slot_at q k) =
                   completion_bytes (completion_of c SB (v_mem v) q k e r0);
}.

Lemma wp_admin_sq q v new old :
  build_ok c nss → adm SB CB q v → irq_ok v → 0 ≤ old < aq_sq_depth q → 0 ≤ new < aq_sq_depth q →
  Forall (cmd_ok c nss SB CB q (v_mem v)) (announced q old new) →
  wp (nvmev_proc_admin_sq c pfn_valid msi_get_virq nss zp new old) v (λ _ v',
    notified q v (to_answer SB (v_mem v) (announced q old new)) v').
Proof.
  intros build Ha Hi Ho Hn Hok. unfold nvmev_proc_admin_sq.
  wp_step. eapply wp_mono with (Q := λ n v', n = (new - old) mod aq_sq_depth q ∧ v' = v).
  - destruct (Z.ltb_spec (new - old) 0).
    + unfold admin_queue. wp_step. wp_step. wp_step. eapply wp_deref; [exact (ad_queue _ _ _ _ Ha)|].
      wp_step. split; [|done]. apply (Z.mod_unique _ _ (-1)); [left|]; lia.
    + wp_step. split; [|done]. symmetry. apply Z.mod_small. lia.
  - intros n v' [-> ->]. wp_step.
    eapply wp_mono; [apply (wp_admin_reqs c pfn_valid nss zp SB CB q v _ build (ad_rings _ _ _ _ Ha) [] v old);
      [done|by apply answered_nil|done|exact Hok]|].
    intros [] v1 [A1 P1 I1 B1 D1 M1 C1]. cbn [app] in *. fold (announced q old new) in *.
    destruct (ad_pci _ _ _ _ A1) as [Hp Hm].
    eapply wp_mono; [apply wp_signal_irq; [done|done|]|].
    { unfold irq_ok in *. by rewrite P1. }
    intros [] v2 (p & Hpp & Hpm & ->). split; simpl; try done.
    + destruct A1 as [Q R D T F P]. split; simpl; try done. split; [done|]. by rewrite Hpm.
    + unfold admin_irq. by rewrite I1, P1.
Qed.

(** The doorbells [db]/[old] of a ring, as the dispatcher finds them. *)
Definition doorbells (v : vdev) (new old newc oldc : Z) : Prop :=
  aget (v_dbs v) 0 = Some new ∧ aget (v_old_dbs v) 0 = Some old ∧
  aget (v_dbs v) 1 = Some newc ∧ aget (v_old_dbs v) 1 = Some oldc.

(** The state after the doorbell of the submission queue has been looked at; the copy
    of the other one holds [oldc]. *)
Record settled (q : nvmev_admin_queue) (v : vdev) (new old newc oldc : Z) (v' : vdev) : Prop := {
  st_adm : adm SB CB (ring_after (length (to_answer SB (v_mem v) (announced q old new))) q) v';
  st_irqs : v_irqs v' = v_irqs v ++ (if new =? old then [] else [admin_irq v]);
  st_doorbells : doorbells v' new new newc oldc;
  st_bars : v_bar v' = v_bar v ∧ v_old_bar v' = v_old_bar v;
  st_mem x : ¬ region CB (16 * aq_cq_depth q) x →
             Forall (λ e, ¬ buffer_of c SB (v_mem v) e x) (to_answer SB (v_mem v) (announced q old new)) →
             v_mem v' x = v_mem v x;
  st_posted k e : to_answer SB (v_mem v) (announced q old new) !! k = Some e →
             ∃ r0, slot_bytes CB (v_mem v') (slot_at q k) =
                   completion_bytes (completion_of c SB (v_mem v) q k e r0);
}.

Lemma announced_nil q old : announced q old old = [].
Proof. unfold announced. by rewrite Z.sub_diag, Zmod_0_l. Qed.

Definition with_old_db (i x : Z) (v : vdev) : vdev := set_v_old_dbs (aset (v_old_dbs v) i x) v.

Lemma adm_old_db q i x v : adm SB CB q v → adm SB CB q (with_old_db i x v).
Proof. intros [Q R [D1 D2] T F P]. split; simpl; try done. by rewrite alen_aset. Qed.

Definition adm_lens (v : vdev) : Prop := alen (v_dbs v) = 1024 ∧ alen (v_old_dbs v) = 1024.

Lemma settled_old_db q v new old newc oldc x v1 :
  settled q v new old newc oldc v1 → settled q v new old newc x (with_old_db 1 x v1).
Proof.
  intros [A I (D1 & D2 & D3 & D4) B M P]. pose proof (aget_inv _ _ _ D4) as Hl.
  split; simpl; try done; [by apply adm_old_db|]. split; [done|]. simpl.
  split; [by rewrite aget_aset_ne|]. split; [done|]. by apply aget_aset_eq.
Qed.

(** The first half of the dispatcher: the submission doorbell. *)
Lemma wp_sq_doorbell q v new old newc oldc :
  build_ok c nss → adm SB CB q v → irq_ok v → doorbells v new old newc oldc →
  0 ≤ old < aq_sq_depth q → 0 ≤ new < aq_sq_depth q →
  Forall (cmd_ok c nss SB CB q (v_mem v)) (announced q old new) →
  Z.of_nat (length (to_answer SB (v_mem v) (announced q old new))) ≤ aq_cq_depth q →
  wp (if new =? old then mret false
      else nvmev_proc_admin_sq c pfn_valid msi_get_virq nss zp (s32 new) (s32 old) ;;
           v ← get; a ← awrite (v_old_dbs v) 0 new; put (set_v_old_dbs a v) ;; mret true) v
    (λ b v', b = negb (new =? old) ∧ settled q v new old newc oldc v').
Proof.
  intros build Ha Hi (Dn & Do & Dnc & Doc) Ho Hn Hok Hlen.
  destruct (Z.eqb_spec new old) as [->|Hne].
  { wp_step. split; [done|]. split; rewrite ?announced_nil, ?Z.eqb_refl, ?app_nil_r; done. }
  pose proof (rg_sq_depth _ _ _ (ad_rings _ _ _ _ Ha)) as Hdepth.
  rewrite !s32_small by lia. wp_step.
  eapply wp_mono; [by apply wp_admin_sq|]. intros [] v1 [A1 I1 B1 D1 M1 P1].
  destruct (D1 0 ltac:(done)) as [E1 E1'], (D1 1 ltac:(done)) as [E2 E2'].
  rewrite Do in E1'. pose proof (aget_inv _ _ _ E1') as Hin.
  wp_step. wp_step. wp_step. apply wp_awrite; [done|]. wp_step. wp_step. wp_step. split; [done|].
  change (set_v_old_dbs _ v1) with (with_old_db 0 new v1).
  split; try done; simpl.
  - by apply adm_old_db.
  - rewrite I1. by rewrite (proj2 (Z.eqb_neq _ _) Hne).
  - unfold doorbells. simpl. split; [by rewrite E1|]. split; [by apply aget_aset_eq|].
    split; [by rewrite E2|].
    by rewrite aget_aset_ne, E2' by done.
  - intros k e Hk. apply P1; [done|lia].
Qed.
End doorbell.

(** The dispatcher's look at the two doorbells. *)
Lemma wp_admin_dbs c pfn_valid msi_get_virq nss zp SB CB q v new old newc oldc :
  build_ok c nss → adm SB CB q v → irq_ok msi_get_virq v → doorbells v new old newc oldc →
  0 ≤ old < aq_sq_depth q → 0 ≤ new < aq_sq_depth q →
  Forall (cmd_ok c nss SB CB q (v_mem v)) (announced q old new) →
  Z.of_nat (length (to_answer SB (v_mem v) (announced q old new))) ≤ aq_cq_depth q →
  wp (proc_admin_dbs c pfn_valid msi_get_virq nss zp) v (λ updated v',
    updated = negb ((new =? old) && (newc =? oldc)) ∧
    settled c msi_get_virq SB CB q v new old newc newc v').
Proof.
  intros build Ha Hi Hd Ho Hn Hok Hlen. unfold proc_admin_dbs. wp_step. wp_step.
  wp_step. eapply wp_aread; [exact (proj1 Hd)|].
  wp_step. eapply wp_aread; [exact (proj1 (proj2 Hd))|]. wp_step.
  eapply wp_mono; [by apply (wp_sq_doorbell c pfn_valid msi_get_virq nss zp SB CB q v new old newc oldc)|].
  intros b v1 [-> Hs]. destruct (st_doorbells _ _ _ _ _ _ _ _ _ _ _ Hs) as (_ & _ & Dnc & Doc).
  wp_step. wp_step. wp_step. eapply wp_aread; [exact Dnc|]. wp_step. eapply wp_aread; [exact Doc|].
  rewrite negb_andb. destruct (Z.eqb_spec newc oldc) as [->|Hne].
  - wp_step. rewrite orb_false_r. by split.
  - unfold nvmev_proc_admin_cq. wp_step. wp_step. wp_step.
    apply wp_awrite; [exact (aget_inv _ _ _ Doc)|]. wp_step. wp_step. wp_step. rewrite orb_true_r.
    split; [done|]. by eapply settled_old_db.
Qed.

(** C19: an admin doorbell of a queue in use (any fill, any turn of the rings, new
    entries across the end of the ring): the dispatcher answers exactly the announced
    commands, in order, all but Abort with one completion that carries the command's
    identifier, its entry, its status and the phase tag of its turn; it raises one
    interrupt, changes memory only in the completion ring and in the buffers the
    commands name, and leaves no doorbell pending. *)
Theorem admin_doorbell_ok c pfn_valid msi_get_virq nss zp SB CB q v new old newc oldc :
  build_ok c nss → adm SB CB q v → irq_ok msi_get_virq v → doorbells v new old newc oldc →
  0 ≤ old < aq_sq_depth q → 0 ≤ new < aq_sq_depth q →
  Forall (cmd_ok c nss SB CB q (v_mem v)) (announced q old new) →
  Z.of_nat (length (to_answer SB (v_mem v) (announced q old new))) ≤ aq_cq_depth q →
  wp (proc_admin_dbs c pfn_valid msi_get_virq nss zp) v (λ updated v',
    updated = negb ((new =? old) && (newc =? oldc)) ∧
    settled c msi_get_virq SB CB q v new old newc newc v').
Proof. apply wp_admin_dbs. Qed.

(** A device in the last turn of its rings: an asynchronous event request, an abort and
    an identify command in the entries 3, 0 and 1. *)
Definition example_mem : mem :=
  mem_write 0x100C0 ([0x0c; 0; 7; 0] ++ replicate 60 0)
    (mem_write 0x10000 ([0x08; 0; 8; 0] ++ replicate 60 0)
      (mem_write 0x10040 ([0x06; 0; 9; 0] ++ replicate 20 0 ++ le_split 8 0x30000 ++ replicate 8 0
        ++ [1; 0; 0; 0] ++ replicate 20 0) (λ _, 0))).
Definition example_queue : nvmev_admin_queue :=
  AdminQueue 1 4 4 3 (Some (queue_pages 0x10000 4 64)) (Some (queue_pages 0x20000 4 16)).
Definition example_fdp : fdp_ctx := fdp_init_ctx [(0, false); (3, true); (129, false)] 1048576.
Definition example_pci : pci_state := PciState virtDev_zero false (Some false).
Definition example_vdev (m : mem) (q : nvmev_admin_queue) : vdev :=
  set_v_pci example_pci (set_v_dbs (aset (anew 1024 0) 0 2) (set_v_old_dbs (aset (anew 1024 0) 0 3)
    (set_v_admin_q (Some q) (VDEV_INIT m example_fdp)))).

Lemma example_adm m : adm 0x10000 0x20000 example_queue (example_vdev m example_queue).
Proof.
  split; try done.
  - split; try done; simpl; try lia.
    + eexists. split; [reflexivity|]. by apply (queue_pages_spans 0x10000 4 64).
    + eexists. split; [reflexivity|]. by apply (queue_pages_spans 0x20000 4 16).
    + unfold region. lia.
  - split; [by apply fdp_init_ctx_wf|done|]. repeat constructor; simpl; lia.
  - split; [|by eexists]. split; [done|]. intros i b. cbn [pci_cfg v_pci set_v_pci example_vdev example_pci].
    unfold virtDev_zero. rewrite aget_anew. case_decide; [|done]. by intros [= <-].
Qed.

(** A command without a buffer, a queue or a namespace. *)
Lemma cmd_ok_plain c nss SB CB q m e :
  cmd_buffer c SB m e = 0 → cmd_op SB m e ∉ [nvme_admin_delete_sq; nvme_admin_create_sq;
    nvme_admin_delete_cq; nvme_admin_create_cq; nvme_admin_get_log_page; nvme_admin_identify] →
  cmd_ok c nss SB CB q m e.
Proof.
  intros Hb Ho. rewrite !elem_of_cons, elem_of_nil in Ho. split.
  - intros x. unfold buffer_of, region. lia.
  - rewrite !elem_of_cons, elem_of_nil. tauto.
  - tauto.
  - tauto.
Qed.

Lemma example_identify nss :
  cmd_ok SAMSUNG_970PRO nss 0x10000 0x20000 example_queue example_mem 1.
Proof.
  assert (cmd_op 0x10000 example_mem 1 = 6) as Eo by by vm_compute.
  assert (cmd_field example_mem 0x10000 1 CMD_DW10 4 = 1) as Ec by by vm_compute.
  split; rewrite ?Eo, ?Ec.
  - intros x. unfold buffer_of.
    assert (cmd_buffer SAMSUNG_970PRO 0x10000 example_mem 1 = 4096) as -> by by vm_compute.
    assert (cmd_prp 0x10000 example_mem 1 = 0x30000) as -> by by vm_compute.
    unfold in_rings, region. simpl. lia.
  - intros H. by apply (bool_decide_pack _) in H.
  - done.
  - intros _ H. by apply (bool_decide_pack _) in H.
Qed.

Definition no_zones : znsparams := ZnsParams 0 0 0 0 0 0 0 0 0 0 0 0.
Lemma admin_doorbell_ok_witness :
  wp (proc_admin_dbs SAMSUNG_970PRO (λ _, true) (λ _, 0) (anew 1 (Ns 1 0 1048576 1)) (λ _, no_zones))
    (example_vdev example_mem example_queue) (λ updated v', updated = true ∧
      v_irqs v' = [IntIrq] ∧ doorbells v' 2 2 0 0 ∧
      (∃ r0, slot_bytes 0x20000 (v_mem v') 3 = completion_bytes (Completion r0 0 3 0 7 1)) ∧
      (∃ r0, slot_bytes 0x20000 (v_mem v') 0 = completion_bytes (Completion r0 0 1 0 9 0))).
Proof.
  eapply wp_mono; [apply (admin_doorbell_ok SAMSUNG_970PRO (λ _, true) (λ _, 0) (anew 1 (Ns 1 0 1048576 1))
    (λ _, no_zones) 0x10000 0x20000 example_queue (example_vdev example_mem example_queue) 2 3 0 0)|].
  - split; [by left|done].
  - apply example_adm.
  - done.
  - by vm_compute.
  - simpl. lia.
  - simpl. lia.
  - assert (announced example_queue 3 2 = [3; 0; 1]) as -> by by vm_compute.
    repeat (apply Forall_cons; split); [| |apply example_identify|by apply Forall_nil];
      (apply cmd_ok_plain; [by vm_compute|]; intros H; by apply (bool_decide_pack _) in H).
  - by vm_compute.
  - intros b v' [-> [_ Hi Hd _ _ Hp]]. split; [done|]. split; [exact Hi|]. split; [exact Hd|]. split.
    + destruct (Hp 0%nat 3 ltac:(by vm_compute)) as [r Hr]. exists r. etransitivity; [exact Hr|].
      unfold completion_of. do 2 f_equal; by vm_compute.
    + destruct (Hp 1%nat 1 ltac:(by vm_compute)) as [r Hr]. exists r. etransitivity; [exact Hr|].
      unfold completion_of. do 2 f_equal; by vm_compute.
Defined.

(** ** I/O queues *)

Definition mem_bytes (m : mem) : Prop := ∀ x, 0 ≤ m x < 2 ^ 8.

Lemma cmd_field_range m SB e off n :
  mem_bytes m → 0 ≤ n → 0 ≤ cmd_field m SB e off n < 2 ^ (8 * n).
Proof.
  intros Hm Hn. unfold cmd_field, mem_read.
  pose proof (le_combine_range (map m (seqZ (SB + 64 * e + off) n))) as H.
  rewrite length_map, length_seqZ, Z2Nat.id in H by done. apply H.
  apply Forall_forall. intros b Hb. apply list_elem_of_In, in_map_iff in Hb as (x & <- & _). apply Hm.
Qed.

(** A table of pages gives entry [i] of a queue of [depth] entries at
    [base + size * i]. *)
Definition table_at (pages : arr Z) (base depth size : Z) : Prop :=
  ∀ i (v : vdev), 0 ≤ i < depth →
    wp (entry_addr (Some pages) i size) v (λ a v', a = base + size * i ∧ v' = v).

Lemma map_queue_table pfn_valid prp depth size :
  0 < depth ≤ 2 ^ 16 → size = 16 ∨ size = 64 →
  table_at (fst (map_queue pfn_valid prp depth size)) prp depth size.
Proof.
  intros Hd Hs. assert (spans (fst (map_queue pfn_valid prp depth size)) prp depth size) as Hsp.
  { assert (0 ≤ depth * size < 2 ^ 60) by (destruct Hs; subst size; lia).
    unfold map_queue. destruct (pfn_valid _); (apply abuild_spans; [done|]; intros i).
    - apply prp_address_add.
    - lia. }
  intros i v Hi. eapply wp_entry_addr; [exact Hsp|exact Hs|done|lia|done].
Qed.

(** The device after a command on queue [qid]: only its slots have changed. *)
Definition other_sqs (qid : Z) (v v' : vdev) : Prop :=
  (∀ j, j ≠ qid → aget (v_sqes v') j = aget (v_sqes v) j) ∧ v_cqes v' = v_cqes v.
Definition other_cqs (qid : Z) (v v' : vdev) : Prop :=
  (∀ j, j ≠ qid → aget (v_cqes v') j = aget (v_cqes v) j) ∧ v_sqes v' = v_sqes v.
Definition doorbell_reset (i : Z) (v v' : vdev) : Prop :=
  aget (v_dbs v') i = Some 0 ∧ aget (v_old_dbs v') i = Some 0 ∧
  ∀ j, j ≠ i → aget (v_dbs v') j = aget (v_dbs v) j ∧ aget (v_old_dbs v') j = aget (v_old_dbs v) j.

(** A new queue in its first turn, with the parameters of its command. *)
Definition new_sq (SB : Z) (m : mem) (e : Z) (sq : sq_desc) : Prop :=
  let size := cmd_field m SB e CMD_DW10H 2 + 1 in
  sd_qid sq = cmd_field m SB e CMD_DW10 2 ∧ sd_cqid sq = cmd_field m SB e CMD_DW11H 2 ∧
  sd_queue_size sq = size ∧ table_at (sd_sq sq) (cmd_prp SB m e) size sizeof_nvme_command.
Definition new_cq (SB : Z) (m : mem) (e : Z) (cq : cq_desc) : Prop :=
  let size := cmd_field m SB e CMD_DW10H 2 + 1 in
  let irq := Z.testbit (cmd_field m SB e CMD_DW11 2) 1 in
  cd_qid cq = cmd_field m SB e CMD_DW10 2 ∧ cd_irq_enabled cq = irq ∧
  cd_irq_vector cq = (if irq then cmd_field m SB e CMD_DW11H 2 else 0) ∧
  cd_queue_size cq = size ∧ cd_phase cq = 1 ∧ cd_cq_head cq = 0 ∧ cd_cq_tail cq = -1 ∧
  cd_interrupt_ready cq = false ∧
  table_at (cd_cq cq) (cmd_prp SB m e) size sizeof_nvme_completion.

Lemma asked_sq_new pfn_valid SB v e : mem_bytes (v_mem v) → new_sq SB (v_mem v) e (asked_sq pfn_valid SB v e).
Proof.
  intros Hm. unfold asked_sq, new_sq, cmd_prp.
  pose proof (cmd_field_range (v_mem v) SB e CMD_DW10H 2 Hm ltac:(done)) as Hr.
  pose proof (map_queue_table pfn_valid (cmd_field (v_mem v) SB e CMD_PRP1 8)
    (cmd_field (v_mem v) SB e CMD_DW10H 2 + 1) sizeof_nvme_command ltac:(lia) ltac:(by right)) as Ht.
  destruct (map_queue _ _ _ _) as [pages mapped]. by split_and!.
Qed.

Lemma land_bit_1 x : negb (Z.land x NVME_CQ_IRQ_ENABLED =? 0) = Z.testbit x 1.
Proof.
  change NVME_CQ_IRQ_ENABLED with (2 ^ 1). rewrite Z.testbit_odd, Z.shiftr_div_pow2 by done.
  destruct (Z.eqb_spec (Z.land x (2 ^ 1)) 0) as [E|E].
  - assert (Z.testbit (Z.land x (2 ^ 1)) 1 = false) as H by (by rewrite E, Z.bits_0).
    rewrite Z.land_spec, Z.pow2_bits_true, andb_true_r in H by done.
    by rewrite Z.testbit_odd, Z.shiftr_div_pow2 in H by done.
  - destruct (Z.odd (x / 2 ^ 1)) eqn:Ho; [done|]. destruct E. apply Z.bits_inj_0. intros j.
    rewrite Z.land_spec, Z.pow2_bits_eqb by done. destruct (Z.eqb_spec 1 j) as [<-|_]; [|by rewrite andb_false_r].
    by rewrite Z.testbit_odd, Z.shiftr_div_pow2, Ho by done.
Qed.

Lemma asked_cq_new pfn_valid SB v e : mem_bytes (v_mem v) → new_cq SB (v_mem v) e (asked_cq pfn_valid SB v e).
Proof.
  intros Hm. unfold asked_cq, new_cq, cmd_prp. rewrite land_bit_1.
  pose proof (cmd_field_range (v_mem v) SB e CMD_DW10H 2 Hm ltac:(done)) as Hr.
  pose proof (map_queue_table pfn_valid (cmd_field (v_mem v) SB e CMD_PRP1 8)
    (cmd_field (v_mem v) SB e CMD_DW10H 2 + 1) sizeof_nvme_completion ltac:(lia) ltac:(by left)) as Ht.
  destruct (map_queue _ _ _ _) as [pages mapped]. by split_and!.
Qed.

(** The handler of an opcode. *)
Lemma wp_dispatch c pfn_valid nss zp SB CB q v e (m : M vdev unit) Q :
  adm SB CB q v → 0 ≤ e < aq_sq_depth q →
  (let op := cmd_op SB (v_mem v) e in
   op = nvme_admin_delete_sq ∧ m = nvmev_admin_delete_sq e ∨
   op = nvme_admin_create_sq ∧ m = nvmev_admin_create_sq pfn_valid e ∨
   op = nvme_admin_delete_cq ∧ m = nvmev_admin_delete_cq e ∨
   op = nvme_admin_create_cq ∧ m = nvmev_admin_create_cq pfn_valid e ∨
   op = nvme_admin_set_features ∧ m = nvmev_admin_set_features c e ∨
   op = nvme_admin_get_features ∧ m = nvmev_admin_get_features c e) →
  wp m v Q → wp (nvmev_proc_admin_req c pfn_valid nss zp e) v Q.
Proof.
  intros Ha He Hop Hm. unfold nvmev_proc_admin_req.
  field_of Ha.
  fold (cmd_op SB (v_mem v) e). revert Hop. cbv zeta. generalize (cmd_op SB (v_mem v) e). intros op Hop.
  destruct Hop as [[-> ->]|[[-> ->]|[[-> ->]|[[-> ->]|[[-> ->]|[-> ->]]]]]]; exact Hm.
Qed.

Lemma doorbell_reset_clear i v v' :
  alen (v_dbs v) = 1024 → alen (v_old_dbs v) = 1024 → 0 ≤ i < 1024 →
  v_dbs v' = aset (v_dbs v) i 0 → v_old_dbs v' = aset (v_old_dbs v) i 0 → doorbell_reset i v v'.
Proof.
  intros H1 H2 Hi E1 E2. unfold doorbell_reset. rewrite E1, E2.
  split; [apply aget_aset_eq; lia|]. split; [apply aget_aset_eq; lia|].
  intros j Hj. by rewrite !aget_aset_ne.
Qed.

(** C22: creating a queue puts one of the size, the memory and the parameters of the
    command in its slot (whether or not the memory is mapped page by page), entry i at
    PRP1 plus i times the entry size, in its first turn and with a doorbell of 0;
    deleting it empties the slot.  No other queue and no other doorbell changes. *)
Theorem admin_queues_ok c pfn_valid nss zp SB CB q v e :
  adm SB CB q v → 0 ≤ e < aq_sq_depth q → mem_bytes (v_mem v) →
  let qid := cmd_field (v_mem v) SB e CMD_DW10 2 in 1 ≤ qid ≤ NR_MAX_IO_QUEUE →
  let req := nvmev_proc_admin_req c pfn_valid nss zp e in
  (cmd_op SB (v_mem v) e = nvme_admin_create_sq → wp req v (λ _ v',
    (∃ sq, aget (v_sqes v') qid = Some (Some sq) ∧ new_sq SB (v_mem v) e sq) ∧
    other_sqs qid v v' ∧ doorbell_reset (qid * 2) v v')) ∧
  (cmd_op SB (v_mem v) e = nvme_admin_create_cq → wp req v (λ _ v',
    (∃ cq, aget (v_cqes v') qid = Some (Some cq) ∧ new_cq SB (v_mem v) e cq) ∧
    other_cqs qid v v' ∧ doorbell_reset (qid * 2 + 1) v v')) ∧
  (cmd_op SB (v_mem v) e = nvme_admin_delete_sq → wp req v (λ _ v',
    aget (v_sqes v') qid = Some None ∧ other_sqs qid v v' ∧ v_dbs v' = v_dbs v)) ∧
  (cmd_op SB (v_mem v) e = nvme_admin_delete_cq → wp req v (λ _ v',
    aget (v_cqes v') qid = Some None ∧ other_cqs qid v v' ∧ v_dbs v' = v_dbs v)).
Proof.
  intros Ha He Hm qid Hq req. subst qid req.
  destruct (ad_tables _ _ _ _ Ha) as [Ts Tc]. destruct (ad_dbs _ _ _ _ Ha) as [D1 D2].
  unfold NR_MAX_IO_QUEUE in *. split_and!; intros Hop; (eapply wp_dispatch; [exact Ha|exact He|cbv zeta; eauto 10|]).
  - eapply wp_mono; [by apply (wp_create_sq pfn_valid SB CB q)|].
    intros [] v' (v1 & -> & _ & ->). split; [|split]; simpl.
    + eexists. split; [by apply aget_aset_eq; lia|]. by apply asked_sq_new.
    + split; [|done]. intros j Hj. simpl. by rewrite aget_aset_ne.
    + apply doorbell_reset_clear; [done|done|lia|done|done].
  - eapply wp_mono; [by apply (wp_create_cq pfn_valid SB CB q)|].
    intros [] v' (v1 & -> & _ & ->). split; [|split]; simpl.
    + eexists. split; [by apply aget_aset_eq; lia|]. by apply asked_cq_new.
    + split; [|done]. intros j Hj. simpl. by rewrite aget_aset_ne.
    + apply doorbell_reset_clear; [done|done|lia|done|done].
  - eapply wp_mono; [apply (wp_delete_sq SB CB q); [done|done|unfold NR_MAX_IO_QUEUE; lia]|].
    intros [] v' ->. split; [|split]; simpl; [apply aget_aset_eq; lia| |done].
    split; [|done]. intros j Hj. simpl. by rewrite aget_aset_ne.
  - eapply wp_mono; [apply (wp_delete_cq SB CB q); [done|done|unfold NR_MAX_IO_QUEUE; lia]|].
    intros [] v' ->. split; [|split]; simpl; [apply aget_aset_eq; lia| |done].
    split; [|done]. intros j Hj. simpl. by rewrite aget_aset_ne.
Qed.

Lemma mem_bytes_write a l m :
  Forall (λ b, 0 ≤ b < 2 ^ 8) l → mem_bytes m → mem_bytes (mem_write a l m).
Proof.
  intros Hl Hm x. unfold mem_write. destruct (in_range _ _); [|apply Hm].
  destruct (l !! Z.to_nat (x - a)) as [b|] eqn:E; [|done]. simpl.
  rewrite Forall_forall in Hl. apply Hl. by eapply list_elem_of_lookup_2.
Qed.

(** Creation of the submission queue 2, of 1024 entries at 0x40000, for completion
    queue 3. *)
Definition create_mem : mem :=
  mem_write 0x10000 ([0x01; 0; 5; 0] ++ replicate 20 0 ++ le_split 8 0x40000 ++ replicate 8 0
    ++ [2; 0; 255; 3; 1; 0; 3; 0] ++ replicate 16 0) (λ _, 0).
Lemma admin_queues_ok_witness :
  wp (nvmev_proc_admin_req SAMSUNG_970PRO (λ _, true) (anew 1 (Ns 1 0 1048576 1)) (λ _, no_zones) 0)
    (example_vdev create_mem example_queue) (λ _ v', ∃ sq, aget (v_sqes v') 2 = Some (Some sq) ∧
      sd_cqid sq = 3 ∧ sd_queue_size sq = 1024 ∧ table_at (sd_sq sq) 0x40000 1024 64).
Proof.
  destruct (admin_queues_ok SAMSUNG_970PRO (λ _, true) (anew 1 (Ns 1 0 1048576 1)) (λ _, no_zones)
    0x10000 0x20000 example_queue (example_vdev create_mem example_queue) 0) as [Hsq _].
  - apply example_adm.
  - simpl. lia.
  - apply mem_bytes_write; [|done]. apply (bool_decide_unpack _). by vm_compute.
  - by vm_compute.
  - eapply wp_mono; [apply Hsq; by vm_compute|].
    intros [] v' ((sq & Hg & (_ & Hc & Hs & Ht)) & _). exists sq. split; [exact Hg|].
    split; [rewrite Hc; by vm_compute|]. split; [rewrite Hs; by vm_compute|].
    assert (cmd_field create_mem 0x10000 0 CMD_DW10H 2 + 1 = 1024) as E by by vm_compute.
    assert (cmd_prp 0x10000 create_mem 0 = 0x40000) as E' by by vm_compute.
    change (v_mem (example_vdev create_mem example_queue)) with create_mem in Ht.
    rewrite E, E' in Ht. exact Ht.
Defined.

(** ** The number of queues *)

(** The word a host reads the counts from. *)
Definition counts_word (sq cq : Z) : Z := (cq - 1) * 2 ^ 16 + (sq - 1).

Lemma lor_shifted a b n : 0 ≤ n → 0 ≤ b < 2 ^ n → Z.lor (a * 2 ^ n) b = a * 2 ^ n + b.
Proof.
  intros Hn Hb. assert (Z.land (a * 2 ^ n) b = 0) as H.
  { apply Z.bits_inj_0. intros j. rewrite Z.land_spec.
    destruct (decide (j < 0)); [by rewrite Z.testbit_neg_r by lia|].
    destruct (decide (j < n)); [by rewrite Z.mul_pow2_bits_low by lia|].
    by rewrite (testbit_high b n j), andb_false_r by lia. }
  pose proof (Z.add_lor_land (a * 2 ^ n) b). lia.
Qed.

Lemma num_queues_word v :
  1 ≤ v_nr_sq v ≤ NR_MAX_IO_QUEUE → 1 ≤ v_nr_cq v ≤ NR_MAX_IO_QUEUE →
  num_queues_result v = counts_word (v_nr_sq v) (v_nr_cq v).
Proof.
  unfold NR_MAX_IO_QUEUE, num_queues_result, counts_word. intros Hs Hc.
  rewrite (u32_small (v_nr_cq v - 1)), (u32_small (v_nr_sq v - 1)) by lia.
  rewrite Z.shiftl_mul_pow2 by lia. rewrite u32_small by lia.
  apply lor_shifted; lia.
Qed.

Lemma asked_count x n : 1 ≤ Z.min (Z.land (Z.shiftr x n) 0xFFFF + 1) NR_MAX_IO_QUEUE ≤ NR_MAX_IO_QUEUE.
Proof.
  change 0xFFFF with (Z.ones 16). rewrite Z.land_ones by lia. pose proof (Z.mod_pos_bound (Z.shiftr x n) (2 ^ 16)).
  unfold NR_MAX_IO_QUEUE. lia.
Qed.

(** C23: whatever numbers of queues a host asks for in Set Features, the device settles
    on 1 to 72 of each kind, at most what was asked (the field is 0's based), answers
    with them, and answers a later Get Features with the same word. *)
Theorem admin_num_queues_roundtrip c pfn_valid nss zp SB CB q v e1 e2 :
  adm SB CB q v → 0 ≤ e1 < aq_sq_depth q → 0 ≤ e2 < aq_sq_depth q → 2 ≤ aq_cq_depth q →
  cmd_op SB (v_mem v) e1 = nvme_admin_set_features → cmd_op SB (v_mem v) e2 = nvme_admin_get_features →
  cmd_field (v_mem v) SB e1 CMD_DW10 4 = NVME_FEAT_NUM_QUEUES →
  cmd_field (v_mem v) SB e2 CMD_DW10 4 = NVME_FEAT_NUM_QUEUES →
  let req := nvmev_proc_admin_req c pfn_valid nss zp in
  let dw11 := cmd_field (v_mem v) SB e1 CMD_DW11 4 in
  let sq := Z.min (dw11 mod 2 ^ 16 + 1) NR_MAX_IO_QUEUE in
  let cq := Z.min (dw11 / 2 ^ 16 mod 2 ^ 16 + 1) NR_MAX_IO_QUEUE in
  wp (req e1 ;; req e2) v (λ _ v',
    v_nr_sq v' = sq ∧ v_nr_cq v' = cq ∧ 1 ≤ sq ≤ 72 ∧ 1 ≤ cq ≤ 72 ∧
    slot_bytes CB (v_mem v') (slot_at q 0) = completion_bytes
      (Completion (counts_word sq cq) 0 e1 0 (cmd_field (v_mem v) SB e1 CMD_ID 2) (phase_at q 0)) ∧
    slot_bytes CB (v_mem v') (slot_at q 1) = completion_bytes
      (Completion (counts_word sq cq) 0 e2 0 (cmd_field (v_mem v) SB e2 CMD_ID 2) (phase_at q 1))).
Proof.
  intros Ha H1 H2 Hd O1 O2 F1 F2 req dw11 sq cq. subst req. wp_step.
  eapply wp_dispatch; [exact Ha|exact H1|cbv zeta; eauto 10|].
  eapply wp_mono; [by apply (wp_set_num_queues c SB CB q v e1)|]. intros [] v1 Hp. cbv zeta in Hp.
  fold dw11 in Hp. assert (asked_queues dw11 v = with_queues sq cq v) as E.
  { unfold asked_queues. change 0xFFFF with (Z.ones 16). rewrite !Z.land_ones, Z.shiftr_div_pow2 by lia. done. }
  rewrite E in Hp. clear E.
  assert (1 ≤ sq ≤ 72 ∧ 1 ≤ cq ≤ 72) as [Hsq Hcq] by (subst sq cq; unfold NR_MAX_IO_QUEUE; dlia).
  rewrite num_queues_word in Hp by done. cbn [v_nr_sq v_nr_cq with_queues set_v_nr_sq set_v_nr_cq] in Hp.
  assert (adm SB CB (advance q) v1) as Ha1.
  { eapply adm_posted; [|exact Hp|done]. exact (served_adm _ _ _ no_buffer _ _ Ha (served_queues _ v _ _)). }
  pose proof (ad_rings _ _ _ _ Ha) as Hr. pose proof (ring_after_head SB CB q 0 Hr) as [Eh0 Ep0].
  pose proof (ring_after_head SB CB q 1 Hr) as [Eh1 Ep1].
  change (ring_after 0 q) with q in Eh0, Ep0. change (ring_after 1 q) with (advance q) in Eh1, Ep1.
  pose proof (slot_at_range q 0 ltac:(lia)) as Hs0. pose proof (slot_at_range q 1 ltac:(lia)) as Hs1.
  assert (v_mem v1 = mem_write (CB + 16 * slot_at q 0)
    (completion_bytes (Completion (counts_word sq cq) 0 e1 0 (cmd_field (v_mem v) SB e1 CMD_ID 2)
      (phase_at q 0))) (v_mem v)) as Hm1.
  { rewrite Hp. cbn [v_mem set_v_mem set_v_admin_q with_queues set_v_nr_sq set_v_nr_cq].
    unfold the_completion. by rewrite <- Eh0, <- Ep0, Z.shiftl_0_l, Z.lor_0_r. }
  assert (v_nr_sq v1 = sq ∧ v_nr_cq v1 = cq) as [Nsq Ncq] by by rewrite Hp.
  clear Hp. assert (∀ x, region (SB + 64 * e2) 64 x → v_mem v1 x = v_mem v x) as Hsame.
  { intros x Hx. rewrite Hm1. apply mem_write_other. rewrite length_completion_bytes. intros Hx'.
    apply (rg_disjoint _ _ _ Hr x); unfold region in *; lia. }
  destruct (cmd_same c nss SB _ _ _ Hsame) as (Eop & _ & _ & _ & _ & _ & Ef & Eid).
  eapply wp_dispatch; [exact Ha1|exact H2|cbv zeta; rewrite Eop; eauto 10|].
  eapply wp_mono; [apply (wp_get_num_queues c SB CB (advance q) v1 e2 Ha1 H2)|].
  { by rewrite Ef. }
  intros [] v2 Hp. rewrite num_queues_word in Hp by (rewrite ?Nsq, ?Ncq; done). rewrite Nsq, Ncq in Hp.
  unfold posted, the_completion in Hp. rewrite Eid, Eh1, Ep1, Z.shiftl_0_l, Z.lor_0_r in Hp.
  split; [by rewrite Hp|]. split; [by rewrite Hp|]. split; [done|]. split; [done|].
  rewrite Hp. cbn [v_mem set_v_mem set_v_admin_q]. split; [|apply slot_bytes_write].
  etransitivity; [|apply (slot_bytes_write CB (v_mem v) (slot_at q 0))]. rewrite Hm1.
  apply slot_bytes_ext. intros x Hx. apply mem_write_other. rewrite length_completion_bytes.
  pose proof (slot_at_ne q 0 1 ltac:(lia) ltac:(lia)). unfold region in *. lia.
Qed.

(** The host asks for 256 and 65 queues in entry 0 and reads the counts back in
    entry 1. *)
Definition queues_mem : mem :=
  mem_write 0x10000 ([0x09; 0; 5; 0] ++ replicate 36 0 ++ [7; 0; 0; 0] ++ [255; 0; 64; 0] ++ replicate 16 0)
    (mem_write 0x10040 ([0x0a; 0; 6; 0] ++ replicate 36 0 ++ [7; 0; 0; 0] ++ replicate 20 0) (λ _, 0)).
Lemma admin_num_queues_roundtrip_witness :
  wp (nvmev_proc_admin_req SAMSUNG_970PRO (λ _, true) (anew 1 (Ns 1 0 1048576 1)) (λ _, no_zones) 0 ;;
      nvmev_proc_admin_req SAMSUNG_970PRO (λ _, true) (anew 1 (Ns 1 0 1048576 1)) (λ _, no_zones) 1)
    (example_vdev queues_mem example_queue) (λ _ v', v_nr_sq v' = 72 ∧ v_nr_cq v' = 65 ∧
      slot_bytes 0x20000 (v_mem v') 0 = completion_bytes (Completion (64 * 65536 + 71) 0 1 0 6 0)).
Proof.
  eapply wp_mono; [apply (admin_num_queues_roundtrip SAMSUNG_970PRO (λ _, true)
    (anew 1 (Ns 1 0 1048576 1)) (λ _, no_zones) 0x10000 0x20000 example_queue
    (example_vdev queues_mem example_queue) 0 1); [apply example_adm|simpl; lia..|by vm_compute|by vm_compute
      |by vm_compute|by vm_compute]|].
  intros [] v' (Hs & Hc & _ & _ & _ & H). split; [rewrite Hs; by vm_compute|].
  split; [rewrite Hc; by vm_compute|]. etransitivity; [exact H|]. by f_equal.
Defined.
