(* ===== verification/AdminStart.v ===== *)
(** * From power-on to the first admin commands

    The composition of the register protocol, the PCI configuration and the admin
    commands. *)

From Stdlib Require Import ZArith Lia.
From stdpp Require Import base numbers list gmap.
From S2P Require Import Prelude Config Bytes Nvme FdpLog Dma IoData Io Zns Pci PciProps Ctrl CtrlProps Admin AdminQueue AdminOps AdminSession AdminProps.

#[local] Open Scope Z_scope.

(** The queue a host has programmed with the registers [A], [S] and [C]. *)
Definition programmed (A S C : Z) : nvmev_admin_queue :=
  AdminQueue 1 (aqa_asqs A + 1) (aqa_acqs A + 1) 0
    (Some (queue_pages S (aqa_asqs A + 1) sizeof_nvme_command))
    (Some (queue_pages C (aqa_acqs A + 1) sizeof_nvme_completion)).

(** Its rings do not overlap. *)
Definition separate (A S C : Z) : Prop :=
  ∀ x, region (page_of S 0) (64 * (aqa_asqs A + 1)) x → region (page_of C 0) (16 * (aqa_acqs A + 1)) x → False.

Lemma field_range lo w x : 0 ≤ w → 0 ≤ field lo w x < 2 ^ w.
Proof. intros Hw. unfold field. rewrite Z.land_ones by done. apply Z.mod_pos_bound. lia. Qed.

Lemma controller_up_adm A S C m fdp v :
  controller_up A S C m fdp v → fdp_ok fdp → separate A S C →
  adm (page_of S 0) (page_of C 0) (programmed A S C) v.
Proof.
  intros [[Hq _ _ _] _ Hf _ [Hs Hc] [Hp Hm] Hd] Hfdp Hsep.
  pose proof (field_range 0 12 A ltac:(done)) as Ha. pose proof (field_range 16 12 A ltac:(done)) as Hb.
  fold (aqa_asqs A) in Ha. fold (aqa_acqs A) in Hb.
  split; [exact Hq| |exact Hd| |by rewrite Hf|split; [exact Hp|by eexists]].
  - split; simpl; [| |lia|lia|lia|by right|exact Hsep]; (eexists; split; [reflexivity|]);
      apply queue_pages_spans; unfold sizeof_nvme_command, sizeof_nvme_completion; lia.
  - by rewrite Hs, Hc.
Qed.

(** The host puts commands in the ring and rings the doorbell. *)
Definition host_submit (m : mem) (n : Z) : M vdev unit :=
  modify (λ v, set_v_mem m (set_v_dbs (aset (v_dbs v) 0 n) v)).

Lemma adm_submit SB CB q m n v : adm SB CB q v → adm SB CB q (set_v_mem m (set_v_dbs (aset (v_dbs v) 0 n) v)).
Proof. intros [Q R [D1 D2] T F P]. split; simpl; try done. by rewrite alen_aset. Qed.

Lemma announced_first A S C n :
  0 ≤ n ≤ aqa_asqs A → announced (programmed A S C) 0 n = seqZ 0 n.
Proof.
  intros Hn. unfold announced, entries_from. simpl. rewrite Z.sub_0_r, Z.mod_small by lia.
  apply list_eq. intros i. rewrite list_lookup_fmap. destruct (decide (Z.of_nat i < n)) as [Hi|Hi].
  - rewrite lookup_seq_lt, lookup_seqZ_lt by lia. simpl. f_equal. rewrite Z.mod_small; lia.
  - rewrite lookup_seq_ge, lookup_seqZ_ge by lia. done.
Qed.

(** C20: from power-on: the device is created, the host programs and enables it while the
    dispatcher polls at any time, then puts commands at the start of its ring and rings
    the doorbell: the k-th answered command finds its completion in slot k of the memory
    the host named, with the phase tag 1; one interrupt is raised. *)
Theorem admin_first_commands_ok c pfn_valid msi_get_virq nss zp zns base m fdp A S C K l m' n :
  0 ≤ base < 2 ^ 64 → A ≠ 0 → S ≠ 0 → C ≠ 0 → K ≠ 0 → cc_en K = 1 → cc_shn K = 0 →
  programs A S C K l → build_ok c nss → fdp_ok fdp → separate A S C →
  0 ≤ n ≤ aqa_asqs A → n ≤ aqa_acqs A + 1 →
  let SB := page_of S 0 in let CB := page_of C 0 in
  Forall (cmd_ok c nss SB CB (programmed A S C) m') (seqZ 0 n) →
  wp ((NVMEV_PCI_INIT zns base ;; ctrl_run l ;; settle 5) ;; host_submit m' n ;;
      proc_admin_dbs c pfn_valid msi_get_virq nss zp) (VDEV_INIT m fdp) (λ updated v',
    updated = negb (n =? 0) ∧ v_irqs v' = (if n =? 0 then [] else [IntIrq]) ∧
    ∀ k e, to_answer SB m' (seqZ 0 n) !! k = Some e →
      ∃ r0, slot_bytes CB (v_mem v') (Z.of_nat k) = completion_bytes
        (Completion r0 0 e 0 (cmd_field m' SB e CMD_ID 2) (Z.lor 1 (Z.shiftl (cmd_status c SB m' e) 1)))).
Proof.
  intros Hbase HA HS HC HK Hen Hsh Hl build Hfdp Hsep Hn Hn' SB CB Hok. wp_step.
  eapply wp_mono; [exact (wp_controller_up zns base m fdp A S C K l Hbase HA HS HC HK Hen Hsh Hl)|].
  intros [] v Hup. pose proof (controller_up_adm _ _ _ _ _ _ Hup Hfdp Hsep) as Ha.
  destruct Hup as [[_ _ Hdbs _] _ _ Hi _ [_ Hmsi] [Hd1 Hd2]]. wp_step. unfold host_submit. wp_step.
  destruct (Hdbs 0 ltac:(lia)) as [_ Hold0], (Hdbs 1 ltac:(lia)) as [Hnew1 Hold1].
  assert (length (to_answer SB m' (seqZ 0 n)) ≤ length (seqZ 0 n))%nat as Hlen by apply length_filter.
  rewrite length_seqZ in Hlen.
  eapply wp_mono; [apply (wp_admin_dbs c pfn_valid msi_get_virq nss zp SB CB (programmed A S C) _ n 0 0 0)|].
  - exact build.
  - by apply adm_submit.
  - unfold irq_ok. simpl. by rewrite Hmsi.
  - split; [apply aget_aset_eq; lia|]. split; [done|]. simpl. by rewrite aget_aset_ne.
  - simpl. lia.
  - simpl. lia.
  - by rewrite announced_first.
  - rewrite announced_first by done. simpl. lia.
  - intros b v' [-> [_ Hirq _ _ _ Hp]]. rewrite announced_first in Hp by done. simpl in Hirq, Hp.
    split; [by rewrite andb_true_r|]. split.
    + rewrite Hirq, Hi. unfold admin_irq. simpl. by rewrite Hmsi.
    + intros k e Hk. destruct (Hp k e Hk) as [r0 Hr0]. exists r0. apply lookup_lt_Some in Hk.
      unfold completion_of, phase_at, slot_at in Hr0. simpl in Hr0.
      rewrite Z.div_small, Z.mod_small in Hr0 by lia. exact Hr0.
Qed.

Definition first_mem : mem :=
  mem_write 0x100000 ([0x0c; 0; 7; 0] ++ replicate 60 0)
    (mem_write 0x100040 ([0x0a; 0; 8; 0] ++ replicate 36 0 ++ [7; 0; 0; 0] ++ replicate 20 0) (λ _, 0)).
Definition first_events : list ctrl_event :=
  [Poll; HostAcq 0x101000; Poll; HostAqa 0x1f001f; HostAsq 0x100000; Poll; HostCc 0x460001].

Lemma admin_first_commands_ok_witness :
  wp ((NVMEV_PCI_INIT false 0x100000000 ;; ctrl_run first_events ;; settle 5) ;; host_submit first_mem 2 ;;
      proc_admin_dbs SAMSUNG_970PRO (λ _, true) (λ _, 0) (anew 1 (Ns 1 0 1048576 1)) (λ _, no_zones))
    (VDEV_INIT (λ _, 0) example_fdp) (λ updated v', updated = true ∧ v_irqs v' = [IntIrq] ∧
      (∃ r0, slot_bytes 0x101000 (v_mem v') 0 = completion_bytes (Completion r0 0 0 0 7 1)) ∧
      (∃ r0, slot_bytes 0x101000 (v_mem v') 1 = completion_bytes (Completion r0 0 1 0 8 1))).
Proof.
  eapply wp_mono; [apply (admin_first_commands_ok SAMSUNG_970PRO (λ _, true) (λ _, 0)
    (anew 1 (Ns 1 0 1048576 1)) (λ _, no_zones) false 0x100000000 (λ _, 0) example_fdp
    0x1f001f 0x100000 0x101000 0x460001 first_events first_mem 2); [lia|lia|lia|lia|lia|done|done|..]|].
  - exists [HostAcq 0x101000; HostAqa 0x1f001f; HostAsq 0x100000]. split; [done|].
    apply (perm_trans (l' := [HostAqa 0x1f001f; HostAcq 0x101000; HostAsq 0x100000])); repeat constructor.
  - split; [by left|done].
  - split; [by apply fdp_init_ctx_wf|done|]. repeat constructor; simpl; lia.
  - intros x. unfold region. change (page_of 0x100000 0) with 0x100000. change (page_of 0x101000 0) with 0x101000.
    change (aqa_asqs 0x1f001f) with 31. lia.
  - by vm_compute.
  - by vm_compute.
  - change (page_of 0x100000 0) with 0x100000. change (page_of 0x101000 0) with 0x101000.
    change (seqZ 0 2) with [0; 1]. repeat (apply Forall_cons; split); [| |by apply Forall_nil];
      (apply cmd_ok_plain; [by vm_compute|]; intros H; by apply (bool_decide_pack _) in H).
  - intros b v' (-> & Hi & Hp). split; [done|]. split; [exact Hi|].
    change (page_of 0x100000 0) with 0x100000 in Hp. change (page_of 0x101000 0) with 0x101000 in Hp. split.
    + destruct (Hp 0%nat 0 ltac:(by vm_compute)) as [r Hr]. exists r. etransitivity; [exact Hr|].
      do 2 f_equal; by vm_compute.
    + destruct (Hp 1%nat 1 ltac:(by vm_compute)) as [r Hr]. exists r. etransitivity; [exact Hr|].
      do 2 f_equal; by vm_compute.
Defined.
