(* ===== verification/Layout.v ===== *)
(** * The memory layout of C structures

    Types of structure members, their size and alignment, and the place of a member in
    its structure, as the System V ABI of x86-64 lays them out: integers at multiples of
    their size, bit fields in units of their declared type, which they do not cross,
    packed structures without padding.  Wire has the structures of the program. *)

From Stdlib Require Import ZArith Lia String.
From stdpp Require Import base numbers list.
From S2P Require Import Prelude.

#[local] Open Scope Z_scope.

(** Integers and the units of bit fields are given by their size in bytes. *)
Inductive ctype : Type :=
| CInt (bytes : Z)
| CBits (bytes w : Z)
| CArray (t : ctype) (n : Z)
| CStruct (is_packed : bool) (ms : list (string * ctype))
| CUnion (ms : list (string * ctype)).

Definition t8 : ctype := CInt 1.
Definition t16 : ctype := CInt 2.
Definition t32 : ctype := CInt 4.
Definition t64 : ctype := CInt 8.
Definition array : ctype → Z → ctype := CArray.
Definition struct : list (string * ctype) → ctype := CStruct false.
Definition packed : list (string * ctype) → ctype := CStruct true.
Definition union : list (string * ctype) → ctype := CUnion.
Definition bits (unit : ctype) (w : Z) : ctype :=
  match unit with CInt n => CBits n w | t => t end.
(** The name of a member without one; its own members are those of its owner. *)
Definition anon : string := EmptyString.

Definition round_up (x a : Z) : Z := (x + a - 1) / a * a.

Fixpoint align_of (t : ctype) : Z :=
  match t with
  | CInt n | CBits n _ => n
  | CArray t' _ => align_of t'
  | CStruct true _ => 1
  | CStruct false ms | CUnion ms =>
      (fix go ms := match ms with [] => 1 | (_, t') :: ms' => Z.max (align_of t') (go ms') end) ms
  end.

(** The first bit and the end of a member of [size] bytes that follows the bit [pos]. *)
Definition place (is_packed : bool) (pos : Z) (t : ctype) (size : Z) : Z * Z :=
  match t with
  | CBits n w =>
      let start := if 8 * n <? pos mod (8 * n) + w then round_up pos (8 * n) else pos in
      (start, start + w)
  | _ =>
      let start := round_up pos (8 * (if is_packed then 1 else align_of t)) in
      (start, start + 8 * size)
  end.

Fixpoint size_of (t : ctype) : Z :=
  match t with
  | CInt n | CBits n _ => n
  | CArray t' n => size_of t' * n
  | CStruct is_packed ms =>
      let fill := fix go pos ms :=
        match ms with
        | [] => pos
        | (_, t') :: ms' => go (snd (place is_packed pos t' (size_of t'))) ms'
        end in
      round_up (round_up (fill 0 ms) 8 / 8) (align_of t)
  | CUnion ms =>
      round_up ((fix go ms := match ms with [] => 0 | (_, t') :: ms' => Z.max (size_of t') (go ms') end) ms)
        (align_of t)
  end.

(** The named members of a type at the bit [base], those of unnamed ones included. *)
Fixpoint members (t : ctype) (base : Z) : list (string * (Z * ctype)) :=
  match t with
  | CStruct is_packed ms =>
      (fix go pos ms :=
        match ms with
        | [] => []
        | (name, t') :: ms' =>
            let '(b, e) := place is_packed pos t' (size_of t') in
            (if String.eqb name anon then members t' (base + b) else [(name, (base + b, t'))]) ++ go e ms'
        end) 0 ms
  | CUnion ms =>
      (fix go ms :=
        match ms with
        | [] => []
        | (name, t') :: ms' =>
            (if String.eqb name anon then members t' base else [(name, (base, t'))]) ++ go ms'
        end) ms
  | _ => []
  end.

(** ** Access paths *)

Inductive selector : Type := Fld (name : string) | Idx (i : Z).
Coercion Fld : string >-> selector.
Coercion Idx : Z >-> selector.

Fixpoint find_member (name : string) (ms : list (string * (Z * ctype))) : option (Z * ctype) :=
  match ms with
  | [] => None
  | (s, x) :: ms' => if String.eqb s name then Some x else find_member name ms'
  end.

Definition width_of (t : ctype) : Z := match t with CBits _ w => w | _ => 8 * size_of t end.

(** The first bit and the width of what a path names in a value of type [t] at the bit
    [base]. *)
Fixpoint field_at (t : ctype) (base : Z) (p : list selector) : option (Z * Z) :=
  match p with
  | [] => Some (base, width_of t)
  | Fld name :: p' =>
      match find_member name (members t base) with
      | Some (b, t') => field_at t' b p'
      | None => None
      end
  | Idx i :: p' =>
      match t with
      | CArray t' n =>
          if in_range n i then field_at t' (base + 8 * size_of t' * i) p' else None
      | _ => None
      end
  end.
