(* ===== verification/Wire.v ===== *)
(** * The structures on the wire

    The layouts of the structures the host and the device exchange, member by member
    as the headers declare them: commands, completions, identify pages, log pages,
    zone reports, the configuration space and the controller registers. *)

From Stdlib Require Import ZArith String.
From stdpp Require Import base numbers list.
From S2P Require Import Prelude Layout.

#[local] Open Scope Z_scope.
#[local] Open Scope string_scope.

(** ** Identify structures and log pages (src/nvme.h) *)

Definition nvme_id_power_state_t : ctype :=
  struct [("max_power", t16); ("rsvd2", t8); ("flags", t8); ("entry_lat", t32); ("exit_lat", t32);
    ("read_tput", t8); ("read_lat", t8); ("write_tput", t8); ("write_lat", t8); ("idle_power", t16);
    ("idle_scale", t8); ("rsvd19", t8); ("active_power", t16); ("active_work_scale", t8);
    ("rsvd23", array t8 9)].
Definition nvme_id_ctrl_t : ctype :=
  struct [("vid", t16); ("ssvid", t16); ("sn", array t8 20); ("mn", array t8 40); ("fr", array t8 8);
    ("rab", t8); ("ieee", array t8 3); ("mic", t8); ("mdts", t8); ("cntlid", t16); ("ver", t32);
    ("rtd3r", t32); ("rtd3e", t32); ("oaes", t32); ("ctratt", t32); ("rrls", t16); ("cntrltype", t8);
    ("rsvd84", array t8 153); ("oacs", t16); ("acl", t8); ("aerl", t8); ("frmw", t8); ("lpa", t8);
    ("elpe", t8); ("npss", t8); ("avscc", t8); ("apsta", t8); ("wctemp", t16); ("cctemp", t16);
    ("rsvd270", array t8 242); ("sqes", t8); ("cqes", t8); ("rsvd514", array t8 2); ("nn", t32);
    ("oncs", t16); ("fuses", t16); ("fna", t8); ("vwc", t8); ("awun", t16); ("awupf", t16); ("nvscc", t8);
    ("rsvd531", t8); ("acwu", t16); ("rsvd534", array t8 2); ("sgls", t32); ("rsvd540", array t8 1508);
    ("psd", array nvme_id_power_state_t 32); ("vs", array t8 1024)].
Definition nvme_lbaf_t : ctype :=
  struct [("ms", t16); ("ds", t8); ("rp", t8)].
Definition nvme_id_ns_t : ctype :=
  struct [("nsze", t64); ("ncap", t64); ("nuse", t64); ("nsfeat", t8); ("nlbaf", t8); ("flbas", t8);
    ("mc", t8); ("dpc", t8); ("dps", t8); ("nmic", t8); ("rescap", t8); ("fpi", t8); ("rsvd33", t8);
    ("nawun", t16); ("nawupf", t16); ("nacwu", t16); ("nabsn", t16); ("nabo", t16); ("nabspf", t16);
    ("rsvd46", t16); ("nvmcap", array t64 2); ("npwg", t16); ("npwa", t16); ("npdg", t16); ("npda", t16);
    ("nows", t16); ("mssrl", t16); ("mcl", t32); ("msrc", t8); ("rsvd81", array t8 11); ("anagrpid", t32);
    ("rsvd96", array t8 3); ("nsattr", t8); ("nvmsetid", t16); ("endgid", t16); ("nguid", array t8 16);
    ("eui64", array t8 8); ("lbaf", array nvme_lbaf_t 16); ("rsvd192", array t8 192);
    ("vs", array t8 3712)].
Definition nvme_id_ns_desc_t : ctype :=
  struct [("nidt", t8); ("nidl", t8); ("rsvd", array t8 2); ("nid", array t8 4092)].
Definition nvme_smart_log_t : ctype :=
  struct [("critical_warning", t8); ("temperature", array t8 2); ("avail_spare", t8); ("spare_thresh", t8);
    ("percent_used", t8); ("rsvd6", array t8 26); ("data_units_read", array t8 16);
    ("data_units_written", array t8 16); ("host_reads", array t8 16); ("host_writes", array t8 16);
    ("ctrl_busy_time", array t8 16); ("power_cycles", array t8 16); ("power_on_hours", array t8 16);
    ("unsafe_shutdowns", array t8 16); ("media_errors", array t8 16); ("num_err_log_entries", array t8 16);
    ("warning_temp_time", t32); ("critical_comp_time", t32); ("temp_sensor", array t16 8);
    ("rsvd216", array t8 296)].
Definition nvme_effects_log_t : ctype :=
  struct [("acs", array t32 256); ("iocs", array t32 256); ("resv", array t8 2048)].

(** ** Commands and completions (src/nvme.h) *)

Definition nvme_common_command_t : ctype :=
  struct [("opcode", t8); ("flags", t8); ("command_id", t16); ("nsid", t32); ("cdw2", array t32 2);
    ("metadata", t64); ("prp1", t64); ("prp2", t64); ("cdw10", array t32 6)].
Definition nvme_rw_command_t : ctype :=
  struct [("opcode", t8); ("flags", t8); ("command_id", t16); ("nsid", t32); ("rsvd2", t64);
    ("metadata", t64); ("prp1", t64); ("prp2", t64); ("slba", t64); ("length", t16); ("control", t16);
    ("dsmgmt", t32); ("reftag", t32); ("apptag", t16); ("appmask", t16)].
Definition nvme_get_log_page_command_t : ctype :=
  struct [("opcode", t8); ("flags", t8); ("command_id", t16); ("nsid", t32); ("rsvd2", array t64 2);
    ("prp1", t64); ("prp2", t64); ("lid", t8); ("lsp", t8); ("numdl", t16); ("numdu", t16); ("rsvd11", t16);
    (anon, union [(anon, struct [("lpol", t32); ("lpou", t32)]); ("lpo", t64)]); ("rsvd14", array t8 3);
    ("csi", t8); ("rsvd15", t32)].
Definition nvme_dsm_cmd_t : ctype :=
  struct [("opcode", t8); ("flags", t8); ("command_id", t16); ("nsid", t32); ("rsvd2", array t64 2);
    ("prp1", t64); ("prp2", t64); ("nr", t32); ("attributes", t32); ("rsvd12", array t32 4)].
Definition nvme_identify_t : ctype :=
  struct [("opcode", t8); ("flags", t8); ("command_id", t16); ("nsid", t32); ("rsvd2", array t64 2);
    ("prp1", t64); ("prp2", t64); ("cns", t32); ("rsvd11", array t32 5)].
Definition nvme_features_t : ctype :=
  struct [("opcode", t8); ("flags", t8); ("command_id", t16); ("nsid", t32); ("rsvd2", array t64 2);
    ("prp1", t64); ("prp2", t64); ("fid", t32); ("dword11", t32); ("rsvd12", array t32 4)].
Definition nvme_create_cq_t : ctype :=
  struct [("opcode", t8); ("flags", t8); ("command_id", t16); ("rsvd1", array t32 5); ("prp1", t64);
    ("rsvd8", t64); ("cqid", t16); ("qsize", t16); ("cq_flags", t16); ("irq_vector", t16);
    ("rsvd12", array t32 4)].
Definition nvme_create_sq_t : ctype :=
  struct [("opcode", t8); ("flags", t8); ("command_id", t16); ("rsvd1", array t32 5); ("prp1", t64);
    ("rsvd8", t64); ("sqid", t16); ("qsize", t16); ("sq_flags", t16); ("cqid", t16);
    ("rsvd12", array t32 4)].
Definition nvme_delete_queue_t : ctype :=
  struct [("opcode", t8); ("flags", t8); ("command_id", t16); ("rsvd1", array t32 9); ("qid", t16);
    ("rsvd10", t16); ("rsvd11", array t32 5)].
Definition nvme_abort_cmd_t : ctype :=
  struct [("opcode", t8); ("flags", t8); ("command_id", t16); ("rsvd1", array t32 9); ("sqid", t16);
    ("cid", t16); ("rsvd11", array t32 5)].
Definition nvme_download_firmware_t : ctype :=
  struct [("opcode", t8); ("flags", t8); ("command_id", t16); ("rsvd1", array t32 5); ("prp1", t64);
    ("prp2", t64); ("numd", t32); ("offset", t32); ("rsvd12", array t32 4)].
Definition nvme_format_cmd_t : ctype :=
  struct [("opcode", t8); ("flags", t8); ("command_id", t16); ("nsid", t32); ("rsvd2", array t64 4);
    ("cdw10", t32); ("rsvd11", array t32 5)].
Definition nvme_command_t : ctype :=
  struct [(anon, union [("common", nvme_common_command_t); ("rw", nvme_rw_command_t);
      ("get_log_page", nvme_get_log_page_command_t); ("identify", nvme_identify_t);
      ("features", nvme_features_t); ("create_cq", nvme_create_cq_t); ("create_sq", nvme_create_sq_t);
      ("delete_queue", nvme_delete_queue_t); ("dlfw", nvme_download_firmware_t);
      ("format", nvme_format_cmd_t); ("dsm", nvme_dsm_cmd_t); ("abort", nvme_abort_cmd_t)])].
Definition nvme_completion_t : ctype :=
  struct [("result0", t32); ("result1", t32); ("sq_head", t16); ("sq_id", t16); ("command_id", t16);
    ("status", t16)].

(** ** Zoned namespaces (src/nvme_zns.h) *)

Definition nvme_id_zns_ctrl_t : ctype :=
  struct [("zasl", t8); ("rsvd1", array t8 4095)].
Definition nvme_zns_lbaf_t : ctype :=
  struct [("zsze", t64); ("zdes", t8); ("resv", array t8 7)].
Definition nvme_id_zns_ns_t : ctype :=
  struct [("zoc", t16); ("ozcs", t16); ("mar", t32); ("mor", t32); ("rrl", t32); ("frl", t32);
    ("rsv1", array t32 6); ("numzrwa", t32); ("zrwafg", t16); ("zrwasz", t16); ("zrwacap", t8);
    ("rsv2", array t8 2763); ("lbaf", array nvme_zns_lbaf_t 16); ("rsv3", array t8 768);
    ("vs", array t8 256)].
Definition zone_descriptor_t : ctype :=
  struct [("type", bits t8 4); (anon, bits t8 4); (anon, bits t8 4); ("state", bits t8 4);
    (anon, union [("za", t8); (anon, struct [("zfc", bits t8 1); ("fzr", bits t8 1); ("rzr", bits t8 1);
        ("zrwav", bits t8 1); (anon, bits t8 3); ("zdef", bits t8 1)])]); (anon, union [("zai", t8);
      (anon, struct [("fzrtl", bits t8 2); ("rzrtl", bits t8 2); (anon, bits t8 4)])]); ("reserved", t32);
    ("zone_capacity", t64); ("zslba", t64); ("wp", t64); ("rsvd", array t32 8)].
Definition zone_report_t : ctype :=
  struct [("nr_zones", t64); ("rsvd", array t64 7); ("zd", array zone_descriptor_t 1)].
Definition nvme_zone_mgmt_recv_t : ctype :=
  struct [("opcode", t8); ("flags", t8); ("command_id", t16); ("nsid", t32); ("cdw2", array t32 2);
    ("metadata", t64); ("prp1", t64); ("prp2", t64); ("slba", t64); ("nr_dw", t32);
    (anon, union [("DW13", t32); (anon, struct [("zra", t8); ("zra_specific_field", t8);
        ("zra_specific_features", bits t16 1); ("reserved", bits t16 15)])]); ("rsvd", array t32 3)].
Definition nvme_zone_mgmt_send_t : ctype :=
  struct [("opcode", t8); ("flags", t8); ("command_id", t16); ("nsid", t32); ("cdw2", array t32 2);
    ("metadata", t64); ("prp1", t64); ("prp2", t64); ("slba", t64); ("reserved", t32);
    (anon, union [("DW13", t32); (anon, struct [("zsa", bits t32 8); ("select_all", bits t32 1);
        ("zsaso", bits t32 1); (anon, bits t32 22)])]); ("rsvd", array t32 3)].
Definition nvme_zone_append_t : ctype :=
  struct [("opcode", t8); ("flags", t8); ("command_id", t16); ("nsid", t32); ("cdw2", array t32 2);
    ("metadata", t64); ("prp1", t64); ("prp2", t64); ("slba", t64); (anon, union [("DW12", t32);
      (anon, struct [("nr_lba", bits t32 16); (anon, bits t32 4); ("dtype", bits t32 4);
        ("stc", bits t32 1); ("piremap", bits t32 1); ("printfo", bits t32 4); ("fua", bits t32 1);
        ("lr", bits t32 1)])]); (anon, union [("DW13", t32); (anon, struct [(anon, bits t32 16);
        ("dspec", bits t32 16)])]); ("DW14", t32); (anon, union [("DW15", t32);
      (anon, struct [("lbat", bits t32 16); ("lbatm", bits t32 16)])])].

(** ** Flexible data placement (src/nvme_fdp.h) *)

Definition nvme_fdp_config_log_t : ctype :=
  packed [("n", t16); ("version", t8); ("rsvd3", t8); ("size", t32); ("rsvd8", array t8 8)].
Definition nvme_fdp_ruh_desc_t : ctype :=
  packed [("ruht", t8); ("rsvd1", array t8 3)].
Definition nvme_fdp_config_desc_t : ctype :=
  packed [("dsze", t16); ("fdpa", t8); ("vss", t8); ("nrg", t32); ("nruh", t16); ("maxpids", t16);
    ("nns", t32); ("runs", t64); ("erutl", t32); ("rsvd28", array t8 36)].
Definition nvme_fdp_ruhu_log_t : ctype :=
  packed [("nruh", t16); ("rsvd2", array t8 6)].
Definition nvme_fdp_ruhu_desc_t : ctype :=
  packed [("ruha", t8); ("rsvd1", array t8 7)].
Definition nvme_fdp_stats_log_t : ctype :=
  packed [("hbmw", array t8 16); ("mbmw", array t8 16); ("mbe", array t8 16); ("rsvd48", array t8 16)].
Definition nvme_fdp_events_log_t : ctype :=
  packed [("n", t32); ("rsvd4", array t8 60)].
Definition nvme_fdp_event_t : ctype :=
  packed [("type", t8); ("flags", t8); ("pid", t16); ("timestamp", t64); ("nsid", t32);
    ("type_specific", array t8 16); ("rsvd32", array t8 32)].
Definition nvme_fdp_supported_event_desc_t : ctype :=
  packed [("evt", t8); ("evta", t8)].

(** ** Key-value commands (src/nvme_kv.h) *)

Definition nvme_data_ptr_t : ctype :=
  union [(anon, struct [("prp1", t64); ("prp2", t64)])].
Definition nvme_kv_store_command_t : ctype :=
  struct [("opcode", t8); ("flags", t8); ("command_id", t16); ("nsid", t32); ("rsvd", t64); ("offset", t32);
    ("rsvd2", t32); ("dptr", nvme_data_ptr_t); ("value_len", t32); ("key_len", t8); ("option", t8);
    ("invalid_byte", bits t8 2); ("rsvd3", bits t8 6); ("rsvd4", t8);
    (anon, union [(anon, struct [("key", array t8 16)]); (anon, struct [("key_prp", t64);
        ("key_prp2", t64)])])].
Definition nvme_kv_append_command_t : ctype :=
  struct [("opcode", t8); ("flags", t8); ("command_id", t16); ("nsid", t32); ("rsvd", t64); ("offset", t32);
    ("rsvd2", t32); ("dptr", nvme_data_ptr_t); ("value_len", t32); ("key_len", t8); ("option", t8);
    ("invalid_byte", bits t8 2); ("rsvd3", bits t8 6); ("rsvd4", t8);
    (anon, union [(anon, struct [("key", array t8 16)]); (anon, struct [("key_prp", t64);
        ("key_prp2", t64)])])].
Definition nvme_kv_batch_command_t : ctype :=
  struct [("opcode", t8); ("flags", t8); ("command_id", t16); ("nsid", t32); ("rsvd", t64); ("offset", t32);
    ("rsvd2", t32); ("dptr", nvme_data_ptr_t); ("value_len", t32); ("key_len", t8); ("option", t8);
    ("rsvd3", t8); ("rsvd4", t8); (anon, union [(anon, struct [("key", array t8 16)]);
      (anon, struct [("key_prp", t64); ("key_prp2", t64)])])].
Definition nvme_kv_retrieve_command_t : ctype :=
  struct [("opcode", t8); ("flags", t8); ("command_id", t16); ("nsid", t32); ("rsvd", t64); ("offset", t32);
    ("rsvd2", t32); ("dptr", nvme_data_ptr_t); ("value_len", t32); ("key_len", t8); ("option", t8);
    ("rsvd3", t16); (anon, union [(anon, struct [("key", array t8 16)]); (anon, struct [("key_prp", t64);
        ("key_prp2", t64)])])].
Definition nvme_kv_delete_command_t : ctype :=
  struct [("opcode", t8); ("flags", t8); ("command_id", t16); ("nsid", t32); ("rsvd", t64); ("offset", t32);
    ("rsvd2", t32); ("rsvd3", array t64 2); ("value_len", t32); ("key_len", t8); ("option", t8);
    ("rsvd4", t16); (anon, union [(anon, struct [("key", array t8 16)]); (anon, struct [("key_prp", t64);
        ("key_prp2", t64)])])].
Definition nvme_kv_iter_req_command_t : ctype :=
  struct [("opcode", t8); ("flags", t8); ("command_id", t16); ("nsid", t32); ("rsvd", array t64 4);
    ("zero", t32); ("iter_handle", t8); ("option", t8); ("rsvd2", t16); ("iter_val", t32);
    ("iter_bitmask", t32); ("rsvd3", t64)].
Definition nvme_kv_iter_read_command_t : ctype :=
  struct [("opcode", t8); ("flags", t8); ("command_id", t16); ("nsid", t32); ("rsvd", array t64 2);
    ("dptr", nvme_data_ptr_t); ("value_len", t32); ("iter_handle", t8); ("option", t8); ("rsvd2", t16);
    ("rsvd3", array t64 2)].
Definition nvme_kv_exist_command_t : ctype :=
  struct [("opcode", t8); ("flags", t8); ("command_id", t16); ("nsid", t32); ("rsvd", t64); ("offset", t32);
    ("rsvd2", t32); ("rsvd3", array t64 2); ("value_len", t32); ("key_len", t8); ("option", t8);
    ("rsvd4", t16); (anon, union [(anon, struct [("key", array t8 16)]); (anon, struct [("key_prp", t64);
        ("key_prp2", t64)])])].
Definition sub_cmd_attribute_t : ctype :=
  struct [("opcode", t8); ("keySize", t8); ("reservedDw0", array t8 2); ("valueSize", t32); ("option", t8);
    ("nsid", t8); ("reservedDw2", array t8 2); ("NoUsed", t32)].
Definition batch_cmd_head_t : ctype :=
  struct [("attr", array sub_cmd_attribute_t 8); ("reserved", array t8 384)].
Definition sub_cmd_head_t : ctype :=
  struct [("reserved", array t8 64)].
Definition nvme_kv_command_t : ctype :=
  struct [(anon, union [("common", nvme_common_command_t); ("kv_store", nvme_kv_store_command_t);
      ("kv_retrieve", nvme_kv_retrieve_command_t); ("kv_delete", nvme_kv_delete_command_t);
      ("kv_append", nvme_kv_append_command_t); ("kv_iter_req", nvme_kv_iter_req_command_t);
      ("kv_iter_read", nvme_kv_iter_read_command_t); ("kv_exist", nvme_kv_exist_command_t);
      ("kv_batch", nvme_kv_batch_command_t)])].

(** ** Configuration space and registers (src/pci.h) *)

Definition nvme_bar_t : ctype :=
  struct [("cap", t64); ("vs", t32); ("intms", t32); ("intmc", t32); ("cc", t32); ("rsvd1", t32);
    ("csts", t32); ("nssr", t32); ("aqa", t32); ("asq", t64); ("acq", t64); ("cmbloc", t32);
    ("cmbsz", t32)].
Definition pci_header_t : ctype :=
  struct [("id", struct [("vid", t16); ("did", t16)]); ("cmd", struct [("iose", bits t8 1);
      ("mse", bits t8 1); ("bme", bits t8 1); ("sce", bits t8 1); ("mwie", bits t8 1); ("vga", bits t8 1);
      ("pee", bits t8 1); ("fixed", bits t8 1); ("see", bits t8 1); ("fbe", bits t8 1); ("id", bits t8 1);
      ("rsvd", bits t8 5)]); ("sts", struct [("rsvd1", bits t8 3); ("is", bits t8 1); ("cl", bits t8 1);
      ("c66", bits t8 1); ("rsvd2", bits t8 1); ("fbc", bits t8 1); ("dpd", bits t8 1); ("devt", bits t8 2);
      ("sta", bits t8 1); ("rta", bits t8 1); ("rma", bits t8 1); ("sse", bits t8 1); ("dpe", bits t8 1)]);
    ("rid", t8); ("cc", struct [("pi", t8); ("scc", t8); ("bcc", t8)]); ("cls", t8); ("mlt", t8);
    ("htype", struct [("hl", bits t8 7); ("mfd", bits t8 1)]); ("bist", struct [("cc", bits t8 4);
      ("rsvd", bits t8 2); ("sb", bits t8 1); ("bc", bits t8 1)]); ("mlbar", struct [("rte", bits t32 1);
      ("tp", bits t32 2); ("pf", bits t32 1); ("rsvd", bits t32 10); ("ba", bits t32 18)]); ("mulbar", t32);
    ("idbar", t32); ("bar3", t32); ("bar4", t32); ("bar5", t32); ("ccptr", t32);
    ("ss", struct [("ssvid", t16); ("ssid", t16)]); ("erom", t32); ("cap", t8); ("rsvd", array t8 7);
    ("intr", struct [("iline", t8); ("ipin", t8)]); ("mgnt", t8); ("mlat", t8)].
Definition pci_pm_cap_t : ctype :=
  struct [("pid", struct [("cid", t8); ("next", t8)]); ("pc", struct [("vs", bits t16 3);
      ("pmec", bits t16 1); ("resv", bits t16 1); ("dsi", bits t16 1); ("auxc", bits t16 3);
      ("d1s", bits t16 1); ("d2s", bits t16 1); ("psup", bits t16 5)]); ("pmcs", struct [("ps", bits t16 2);
      ("rsvd01", bits t16 1); ("nsfrst", bits t16 1); ("rsvd02", bits t16 4); ("pmee", bits t16 1);
      ("dse", bits t16 4); ("dsc", bits t16 2); ("pmes", bits t16 1)]); ("ext", array t8 2)].
Definition pci_msix_cap_t : ctype :=
  struct [("mxid", struct [("cid", t8); ("next", t8)]); ("mxc", struct [("ts", bits t16 11);
      ("rsvd", bits t16 3); ("fm", bits t16 1); ("mxe", bits t16 1)]);
    ("mtab", struct [("tbir", bits t32 3); ("to", bits t32 29)]); ("mpba", struct [("pbir", bits t32 3);
      ("pbao", bits t32 29)])].
Definition pcie_cap_t : ctype :=
  struct [("pxid", struct [("cid", t8); ("next", t8)]); ("pxcap", struct [("ver", bits t8 4);
      ("dpt", bits t8 4); ("si", bits t8 1); ("imn", bits t8 5); ("rsvd", bits t8 2)]);
    ("pxdcap", struct [("mps", bits t32 3); ("pfs", bits t32 2); ("etfs", bits t32 1); ("l0sl", bits t32 3);
      ("l1l", bits t32 3); ("rsvd", bits t32 3); ("rer", bits t32 1); ("rsvd2", bits t32 2);
      ("csplv", bits t32 8); ("cspls", bits t32 2); ("flrc", bits t32 1); ("rsvd3", bits t32 3)]);
    ("pxdc", struct [("cere", bits t16 1); ("nfere", bits t16 1); ("fere", bits t16 2);
      ("urre", bits t16 1); ("ero", bits t16 1); ("mps", bits t16 3); ("ete", bits t16 1);
      ("pfe", bits t16 1); ("appme", bits t16 1); ("ens", bits t16 1); ("mrrs", bits t16 3);
      ("iflr", bits t16 1)]); ("pxds", struct [("ced", bits t16 1); ("nfed", bits t16 1);
      ("fed", bits t16 1); ("urd", bits t16 1); ("apd", bits t16 1); ("tp", bits t16 1);
      ("rsvd", bits t16 10)]); ("pxlcap", struct [("sls", bits t32 4); ("mlw", bits t32 6);
      ("aspms", bits t32 2); ("l0sel", bits t32 3); ("l1el", bits t32 3); ("cpm", bits t32 1);
      ("sderc", bits t32 1); ("dllla", bits t32 20); ("lbnc", bits t32 1); ("aoc", bits t32 1);
      ("rsvd", bits t32 1); ("pn", bits t32 8)]); ("pxlc", struct [("aspmc", bits t16 2);
      ("rsvd", bits t16 1); ("rcb", bits t16 1); ("rsvd2", bits t16 2); ("ccc", bits t16 1);
      ("es", bits t16 1); ("ecpm", bits t16 1); ("hawd", bits t16 1); ("rsvd3", bits t16 6)]);
    ("pxls", struct [("clc", bits t16 4); ("nlw", bits t16 6); ("rsvd", bits t16 2); ("scc", bits t16 1);
      ("rsvd2", bits t16 3)]); ("pxdcap2", struct [("ctrs", bits t32 4); ("ctds", bits t32 1);
      ("arifs", bits t32 1); ("aors", bits t32 1); ("aocs32", bits t32 1); ("aocs", bits t32 1);
      ("ccs128", bits t32 1); ("nprpr", bits t32 1); ("ltrs", bits t32 1); ("tphcs", bits t32 2);
      ("rsvd", bits t32 4); ("obffs", bits t32 2); ("effs", bits t32 1); ("eetps", bits t32 1);
      ("meetp", bits t32 2); ("rsvd2", bits t32 8)]); ("pxdc2", struct [("ctv", bits t32 4);
      ("ctd", bits t32 1); ("rsvd", bits t32 5); ("ltrme", bits t32 1); ("rsvd2", bits t32 2);
      ("obffe", bits t32 2); ("rsvd3", bits t32 17)])].
Definition pci_ext_cap_t : ctype :=
  struct [("cid", t16); ("cver", bits t16 4); ("next", bits t16 12)].
Definition pci_ext_cap_aer_t : ctype :=
  struct [("id", pci_ext_cap_t); ("aeruces", struct [("rsvd", bits t32 4); ("dlpes", bits t32 1);
      ("rsvd2", bits t32 7); ("pts", bits t32 1); ("fcpes", bits t32 1); ("cts", bits t32 1);
      ("cas", bits t32 1); ("ucs", bits t32 1); ("ros", bits t32 1); ("mts", bits t32 1);
      ("ecrces", bits t32 1); ("ures", bits t32 1); ("acsvs", bits t32 1); ("uies", bits t32 1);
      ("mcbts", bits t32 1); ("aoebs", bits t32 1); ("tpbes", bits t32 1); ("rsvd3", bits t32 6)]);
    ("aerucem", struct [("rsvd", bits t32 4); ("dlpem", bits t32 1); ("rsvd2", bits t32 7);
      ("ptm", bits t32 1); ("fcpem", bits t32 1); ("ctm", bits t32 1); ("cam", bits t32 1);
      ("ucm", bits t32 1); ("rom", bits t32 1); ("mtm", bits t32 1); ("ecrcem", bits t32 1);
      ("urem", bits t32 1); ("acsvm", bits t32 1); ("uiem", bits t32 1); ("mcbtm", bits t32 1);
      ("aoebm", bits t32 1); ("tpbem", bits t32 1); ("rsvd3", bits t32 6)]);
    ("aerucesev", struct [("rsvd", bits t32 4); ("dlpesev", bits t32 1); ("rsvd2", bits t32 7);
      ("ptsev", bits t32 1); ("fcpesev", bits t32 1); ("ctsev", bits t32 1); ("casev", bits t32 1);
      ("ucsev", bits t32 1); ("rosev", bits t32 1); ("mtsev", bits t32 1); ("ecrcesev", bits t32 1);
      ("uresev", bits t32 1); ("acsvsev", bits t32 1); ("uiesev", bits t32 1); ("mcbtsev", bits t32 1);
      ("aoebsev", bits t32 1); ("tpbesev", bits t32 1); ("rsvd3", bits t32 6)]);
    ("aerces", struct [("res", bits t32 1); ("rsvd", bits t32 5); ("bts", bits t32 1); ("bds", bits t32 1);
      ("rrs", bits t32 1); ("rsvd2", bits t32 3); ("rts", bits t32 1); ("anfes", bits t32 1);
      ("cies", bits t32 1); ("hlos", bits t32 1); ("rsvd3", bits t32 16)]);
    ("aercem", struct [("rem", bits t32 1); ("rsvd", bits t32 5); ("btm", bits t32 1); ("bdm", bits t32 1);
      ("rrm", bits t32 1); ("rsvd2", bits t32 3); ("rtm", bits t32 1); ("anfem", bits t32 1);
      ("ciem", bits t32 1); ("hlom", bits t32 1); ("rsvd3", bits t32 16)]);
    ("aercc", struct [("fep", bits t32 5); ("egc", bits t32 1); ("ege", bits t32 1); ("ecc", bits t32 1);
      ("ece", bits t32 1); ("mhrc", bits t32 1); ("mhre", bits t32 1); ("tplp", bits t32 1);
      ("rsvd", bits t32 20)]); ("aerhl", struct [("hb3", t8); ("hb2", t8); ("hb1", t8); ("hb0", t8);
      ("hb7", t8); ("hb6", t8); ("hb5", t8); ("hb4", t8); ("hb11", t8); ("hb10", t8); ("hb9", t8);
      ("hb8", t8); ("hb15", t8); ("hb14", t8); ("hb13", t8); ("hb12", t8)]);
    ("aertlp", struct [("tpl1b3", t8); ("tpl1b2", t8); ("tpl1b1", t8); ("tpl1b0", t8); ("tpl2b3", t8);
      ("tpl2b2", t8); ("tpl2b1", t8); ("tpl2b0", t8); ("tpl3b3", t8); ("tpl3b2", t8); ("tpl3b1", t8);
      ("tpl3b0", t8); ("tpl4b3", t8); ("tpl4b2", t8); ("tpl4b1", t8); ("tpl4b0", t8)])].
Definition pci_ext_cap_dsn_t : ctype :=
  struct [("id", pci_ext_cap_t); ("serial", t64)].
Definition nvme_ctrl_regs_t : ctype :=
  struct [(anon, union [("cap", struct [("mqes", t16); ("cqr", bits t16 1); ("ams", bits t16 2);
        ("rsvd", bits t16 5); ("to", bits t16 8); ("dstrd", bits t16 4); ("nssrs", bits t16 1);
        ("css", bits t16 8); ("rsvd2", bits t16 3); ("mpsmin", bits t16 4); ("mpsmax", bits t16 4);
        ("rsvd3", bits t16 8)]); ("u_cap", t64)]); (anon, union [("vs", struct [("rsvd", t8); ("mnr", t8);
        ("mjr", t16)]); ("u_vs", t32)]); ("intms", t32); ("intmc", t32);
    (anon, union [("cc", struct [("en", bits t16 1); ("rsvd", bits t16 3); ("css", bits t16 3);
        ("mps", bits t16 4); ("ams", bits t16 3); ("shn", bits t16 2); ("iosqes", bits t16 4);
        ("iocqes", bits t16 4); ("rsvd2", bits t16 8)]); ("u_cc", t32)]); ("rsvd1", t32);
    (anon, union [("csts", struct [("rdy", bits t32 1); ("cfs", bits t32 1); ("shst", bits t32 2);
        ("nssro", bits t32 1); ("pp", bits t32 1); ("rsvd", bits t32 26)]); ("u_csts", t32)]);
    ("nssr", t32); (anon, union [("aqa", struct [("asqs", bits t32 12); ("rsvd1", bits t32 4);
        ("acqs", bits t32 12); ("rsvd2", bits t32 4)]); ("u_aqa", t32)]);
    (anon, union [("asq", struct [("rsvd", bits t64 12); ("asqb", bits t64 52)]); ("u_asq", t64)]);
    (anon, union [("acq", struct [("rsvd", bits t64 12); ("acqb", bits t64 52)]); ("u_acq", t64)]);
    (anon, union [("cmbloc", struct [("bir", bits t32 3); ("rsvd", bits t32 9); ("ofst", bits t32 20)]);
      ("u_cmbloc", t32)]); (anon, union [("cmbsz", struct [("sqs", bits t32 1); ("cqs", bits t32 1);
        ("lists", bits t32 1); ("rds", bits t32 1); ("wds", bits t32 1); ("rsvd", bits t32 3);
        ("szu", bits t32 4); ("sz", bits t32 20)]); ("u_cmbsz", t32)])].
