(* ===== verification/WireProps.v ===== *)
(** * What is on the wire

    Reading a structure in memory member by member, and the theorems that relate what
    the device writes and reads by offset to the structures of the headers. *)

From Stdlib Require Import ZArith Lia String.
From stdpp Require Import base numbers list.
From S2P Require Import Prelude Config Bytes Nvme FdpLog Dma IoData Io Zns Pci PciProps Ctrl CtrlProps Admin AdminQueue AdminOps AdminSession AdminProps Layout Wire.

#[local] Open Scope string_scope.
#[local] Open Scope list_scope.
#[local] Open Scope Z_scope.

(** ** Reading a member *)

(** [w] bits from the bit [b] of the memory at [a]. *)
Definition read_bits (m : mem) (a b w : Z) : Z :=
  if (b mod 8 =? 0) && (w mod 8 =? 0) then mem_read m (a + b / 8) (w / 8)
  else field (b mod 8) w (mem_read m (a + b / 8) (DIV_ROUND_UP (b mod 8 + w) 8)).
Definition fetch (m : mem) (a : Z) (t : ctype) (p : list selector) : option Z :=
  match field_at t 0 p with
  | Some (b, w) => Some (read_bits m a b w)
  | None => None
  end.

Lemma le_combine_mod n v : le_combine (le_split n v) = v mod 2 ^ (8 * Z.of_nat n).
Proof.
  revert v. induction n as [|n IH]; intros v.
  { simpl. by rewrite Z.mod_1_r. }
  cbn [le_split le_combine]. rewrite IH. replace (8 * Z.of_nat (S n)) with (8 + 8 * Z.of_nat n) by lia.
  rewrite Z.pow_add_r by lia. rewrite Z.rem_mul_r by lia. lia.
Qed.

(** ** Pages as series of writes *)

(** The contents of a page that was clear before the writes [ws], the last one first. *)
Fixpoint written (ws : list (Z * list Z)) (x : Z) : Z :=
  match ws with
  | [] => 0
  | (off, l) :: ws' =>
      if in_range (Z.of_nat (length l)) (x - off) then default 0 (l !! Z.to_nat (x - off)) else written ws' x
  end.

Definition holds (a : arr Z) (ws : list (Z * list Z)) : Prop :=
  alen a = PAGE_SIZE ∧ ∀ x, 0 ≤ x < PAGE_SIZE → aget a x = Some (written ws x).
(** [m] takes a page with the writes [ws] to one with the writes [ws']. *)
Definition fills (ws : list (Z * list Z)) (m : M (arr Z) unit) (ws' : list (Z * list Z)) : Prop :=
  ∀ a, holds a ws → wp m a (λ _ a', holds a' ws').

Lemma holds_empty : holds (anew PAGE_SIZE 0) [].
Proof. split; [done|]. intros x Hx. rewrite aget_anew. by case_decide. Qed.

Lemma fills_bytes ws off l :
  0 ≤ off → off + Z.of_nat (length l) ≤ PAGE_SIZE → fills ws (store_bytes off l) ((off, l) :: ws).
Proof.
  intros Ho Hn a [Ha Hw]. eapply wp_mono; [apply wp_store_bytes; lia|]. intros [] a' [Hl Hg].
  split; [congruence|]. intros x Hx. rewrite Hg. cbn [written].
  case_decide as Hd.
  - rewrite (proj2 (in_range_true _ _)) by lia.
    destruct (lookup_lt_is_Some_2 l (Z.to_nat (x - off))) as [b Hb]; [lia|]. by rewrite Hb.
  - rewrite (proj2 (in_range_false _ _)) by lia. by apply Hw.
Qed.
Lemma fills_store ws off n v :
  0 ≤ off → off + Z.of_nat n ≤ PAGE_SIZE → fills ws (store_le off n v) ((off, le_split n v) :: ws).
Proof. intros Ho Hn. apply (fills_bytes ws off (le_split n v)); rewrite ?length_le_split; done. Qed.
Lemma fills_bind ws m1 m2 w1 w2 : fills ws m1 w1 → fills w1 m2 w2 → fills ws (m1 ;; m2) w2.
Proof.
  intros H1 H2 a Ha. wp_step. eapply wp_mono; [by apply H1|]. intros [] a' Ha'. by apply H2.
Qed.
(** The rest may depend on a byte that is known. *)
Lemma fills_get ws off (f : Z → M (arr Z) unit) w :
  0 ≤ off < PAGE_SIZE → fills ws (f (written ws off)) w → fills ws (page ← get; f (load_le page off 1)) w.
Proof.
  intros Ho H a Ha. wp_step. wp_step.
  assert (load_le a off 1 = written ws off) as ->; [|by apply H].
  destruct Ha as [_ Hw]. unfold load_le, load_bytes.
  change (seqZ off (Z.of_nat 1)) with [Z.of_nat 0 + off]. change (Z.of_nat 0 + off) with off.
  cbn [omap list_omap]. rewrite Hw by done. cbn [le_combine]. lia.
Qed.

(** The pages, the last write first. *)
Definition lbaf_writes (i ms ds rp : Z) (ws : list (Z * list Z)) : list (Z * list Z) :=
  (128 + 4 * i + 3, le_split 1 rp) :: (128 + 4 * i + 2, le_split 1 ds) :: (128 + 4 * i, le_split 2 ms) :: ws.
Definition id_ctrl_writes (c : ssd_config) : list (Z * list Z) :=
  (if SUPPORTED_SSD_TYPE c SSD_TYPE_FDP
   then [(96, le_split 4 (Z.lor NVME_CTRL_CTRATT_ENDGRPS NVME_CTRL_CTRATT_FDPS))] else []) ++
  [(513, le_split 1 0x44); (512, le_split 1 0x66); (77, le_split 1 (MDTS c));
   (64, c_string "CSL_002"); (24, c_string "CSL_Virt_MN_01"); (4, c_string "CSL_Virt_SN_01");
   (525, le_split 1 0); (258, le_split 1 3); (520, le_split 2 0); (516, le_split 4 nr_ns)].
Definition id_ns_writes (c : ssd_config) (size : Z) (fdp : bool) : list (Z * list Z) :=
  let nsze := Z.shiftr size (LBA_BITS c) in
  let per_oneshot := u16 (Z.shiftr (ONESHOT_PAGE_SIZE c) (LBA_BITS c)) in
  (if fdp
   then [(72, le_split 2 (per_oneshot - 1)); (66, le_split 2 (per_oneshot - 1));
         (64, le_split 2 (per_oneshot - 1)); (102, le_split 2 NVMEV_FDP_ENDGID);
         (24, le_split 1 NVME_NS_FEAT_IO_OPT)]
   else []) ++
  [(16, le_split 8 nsze); (8, le_split 8 nsze); (0, le_split 8 nsze);
   (29, le_split 1 0); (25, le_split 1 6); (26, le_split 1 (if LBA_BITS c =? 9 then 0 else 3))] ++
  lbaf_writes 6 128 12 NVME_LBAF_RP_BEST (lbaf_writes 5 64 12 NVME_LBAF_RP_BEST
  (lbaf_writes 4 8 12 NVME_LBAF_RP_BEST (lbaf_writes 3 0 12 NVME_LBAF_RP_BEST
  (lbaf_writes 2 16 9 NVME_LBAF_RP_GOOD (lbaf_writes 1 8 9 NVME_LBAF_RP_GOOD
  (lbaf_writes 0 0 9 NVME_LBAF_RP_GOOD [])))))).

Ltac fills_steps := repeat first
  [ eapply fills_bind
  | apply fills_store; [unfold PAGE_SIZE; lia|unfold PAGE_SIZE; simpl; lia]
  | apply fills_bytes; [unfold PAGE_SIZE; lia|by vm_compute] ].

Lemma fills_id_ctrl c : fills [] (fill_id_ctrl c) (id_ctrl_writes c).
Proof.
  unfold fill_id_ctrl, id_ctrl_writes. destruct (SUPPORTED_SSD_TYPE c SSD_TYPE_FDP); cbn [when app].
  - fills_steps.
  - fills_steps. by intros a Ha.
Qed.

Lemma fills_ret {A} ws (x : A) (f : A → M (arr Z) unit) w : fills ws (f x) w → fills ws (y ← mret x; f y) w.
Proof. intros H a Ha. wp_step. wp_step. by apply H. Qed.

Lemma fills_lbaf ws i ms ds rp : 0 ≤ i < 16 → fills ws (store_lbaf i ms ds rp) (lbaf_writes i ms ds rp ws).
Proof.
  intros Hi. unfold store_lbaf, lbaf_writes.
  eapply fills_bind; [|eapply fills_bind]; apply fills_store; unfold PAGE_SIZE; lia.
Qed.

Lemma fills_id_ns c nss size fdp : build_ok c nss → fills [] (fill_id_ns c size fdp) (id_ns_writes c size fdp).
Proof.
  intros build. unfold fill_id_ns, id_ns_writes. do 7 (eapply fills_bind; [apply fills_lbaf; lia|]).
  destruct (bo_lba _ _ build) as [E|E]; rewrite E; cbn [Z.eqb Pos.eqb]; apply fills_ret;
    do 3 (eapply fills_bind; [apply fills_store; unfold PAGE_SIZE; lia|]);
    (apply (fills_get _ _ (λ b, fill_id_ns_sizes c (Z.shiftr size b) fdp)); [unfold PAGE_SIZE; lia|]).
  - replace (written _ _) with 9 by by vm_compute. unfold fill_id_ns_sizes. rewrite E.
    destruct fdp; cbn [when app]; fills_steps. by intros a Ha.
  - replace (written _ _) with 12 by by vm_compute. unfold fill_id_ns_sizes. rewrite E.
    destruct fdp; cbn [when app]; fills_steps. by intros a Ha.
Qed.

(** ** The page in memory *)

Definition page_is (m : mem) (a : Z) (ws : list (Z * list Z)) : Prop :=
  ∀ x, 0 ≤ x < PAGE_SIZE → m (a + x) = written ws x.

Lemma omap_total {A B} (f : A → option B) (g : A → B) (l : list A) :
  (∀ x, x ∈ l → f x = Some (g x)) → omap f l = g <$> l.
Proof.
  induction l as [|x l IH]; intros H; [done|]. cbn [omap list_omap]. rewrite (H x) by by left.
  cbn [fmap list_fmap]. f_equal. apply IH. intros y Hy. apply H. by right.
Qed.

Lemma wp_st_page_is v a m ws :
  fills [] m ws → wp (st_page a m) v (λ _ v', served (region a PAGE_SIZE) v v' ∧ page_is (v_mem v') a ws).
Proof.
  intros Hm. unfold st_page. destruct (wp_Ok _ _ _ (Hm _ holds_empty)) as ([] & page & -> & [_ Hp]).
  unfold load_bytes. rewrite (omap_total _ (written ws)).
  2:{ intros x Hx%elem_of_seqZ. apply Hp. unfold PAGE_SIZE in *. lia. }
  unfold st. wp_step. split.
  - apply served_write. intros x. rewrite length_fmap, length_seqZ. unfold region, PAGE_SIZE. lia.
  - intros x Hx. cbn [v_mem set_v_mem]. unfold mem_write. rewrite length_fmap, length_seqZ.
    unfold PAGE_SIZE in *. rewrite (proj2 (in_range_true _ _)) by lia.
    rewrite list_lookup_fmap. replace (a + x - a) with x by lia. rewrite lookup_seqZ_lt by lia. simpl. f_equal. lia.
Qed.

Lemma page_is_other m m' a ws :
  (∀ x, region a PAGE_SIZE x → m' x = m x) → page_is m a ws → page_is m' a ws.
Proof. intros H Hp x Hx. rewrite H by (unfold region; lia). by apply Hp. Qed.

(** Reading a member of the page. *)
Lemma fetch_page m a ws t p b n :
  page_is m a ws → field_at t 0 p = Some (8 * b, 8 * n) → 0 ≤ b → 0 ≤ n → b + n ≤ PAGE_SIZE →
  fetch m a t p = Some (le_combine (map (written ws) (seqZ b n))).
Proof.
  intros Hp Hf Hb Hn Hle. unfold fetch, read_bits. rewrite Hf. rewrite !(Z.mul_comm 8), !Z.mod_mul by done.
  cbn [Z.eqb andb]. rewrite !Z.div_mul by done. unfold mem_read. f_equal. f_equal.
  apply list_eq. intros i. rewrite !list_lookup_fmap. destruct (decide (Z.of_nat i < n)).
  - rewrite !lookup_seqZ_lt by lia. simpl. f_equal. rewrite <- Hp by lia. f_equal. lia.
  - rewrite !lookup_seqZ_ge by lia. done.
Qed.

(** The buffer survives the completion. *)
Lemma wp_finish_page SB CB q v v1 e ws :
  adm SB CB q v → 0 ≤ e < aq_sq_depth q → disjoint_rings SB CB q (region (cmd_prp SB (v_mem v) e) PAGE_SIZE) →
  served (region (cmd_prp SB (v_mem v) e) PAGE_SIZE) v v1 → page_is (v_mem v1) (cmd_prp SB (v_mem v) e) ws →
  wp (make_cq_entry e NVME_SC_SUCCESS) v1 (λ _ v', page_is (v_mem v') (cmd_prp SB (v_mem v) e) ws).
Proof.
  intros Ha He Hd Hs Hp. pose proof (served_adm _ _ _ _ _ _ Ha Hs) as Ha1.
  eapply wp_mono; [exact (wp_post SB CB q v1 e 0 0 Ha1 He)|]. intros [] v' ->.
  eapply page_is_other; [|exact Hp]. intros x Hx. cbn [v_mem set_v_mem set_v_admin_q].
  apply mem_write_other. rewrite length_completion_bytes. intros Hr. apply (Hd x Hx). right.
  pose proof (rg_head _ _ _ (ad_rings _ _ _ _ Ha)). unfold region in *. lia.
Qed.

(** ** Identify *)

Ltac fetch_byte_field Hp b n :=
  erewrite (fetch_page _ _ _ _ _ b n Hp); [|by vm_compute|lia|lia|unfold PAGE_SIZE; lia].

(** What a host finds in the page of a controller. *)
Record ctrl_page (c : ssd_config) (m : mem) (a : Z) : Prop := {
  cp_nn : fetch m a nvme_id_ctrl_t [Fld "nn"] = Some 1;
  cp_mdts : fetch m a nvme_id_ctrl_t [Fld "mdts"] = Some (MDTS c mod 2 ^ 8);
  cp_sqes : fetch m a nvme_id_ctrl_t [Fld "sqes"] = Some 0x66;
  cp_cqes : fetch m a nvme_id_ctrl_t [Fld "cqes"] = Some 0x44;
  cp_acl : fetch m a nvme_id_ctrl_t [Fld "acl"] = Some 3;
  cp_ctratt : fetch m a nvme_id_ctrl_t [Fld "ctratt"] =
    Some (if SUPPORTED_SSD_TYPE c SSD_TYPE_FDP then 2 ^ 19 + 2 ^ 4 else 0);
  cp_sn : map (λ i : Z, fetch m a nvme_id_ctrl_t [Fld "sn"; Idx i]) (seqZ 0 15) =
    map Some (c_string "CSL_Virt_SN_01");
}.

Lemma id_ctrl_page c m a : page_is m a (id_ctrl_writes c) → ctrl_page c m a.
Proof.
  intros Hp. unfold id_ctrl_writes in Hp.
  assert (∀ i, 0 ≤ i < 20 → fetch m a nvme_id_ctrl_t [Fld "sn"; Idx i] =
    Some (le_combine (map (written (id_ctrl_writes c)) (seqZ (4 + i) 1)))) as Hsn.
  { intros i Hi. apply fetch_page; [exact Hp| |lia|lia|unfold PAGE_SIZE; lia].
    unfold field_at. change (find_member "sn" (members nvme_id_ctrl_t 0)) with (Some (32, array t8 20)).
    unfold array. rewrite (proj2 (in_range_true _ _)) by lia. change (size_of t8) with 1.
    unfold width_of. f_equal. f_equal. lia. }
  assert (map (λ i : Z, fetch m a nvme_id_ctrl_t [Fld "sn"; Idx i]) (seqZ 0 15) =
    map (λ i, Some (le_combine (map (written (id_ctrl_writes c)) (seqZ (4 + i) 1)))) (seqZ 0 15)) as Hs.
  { apply map_ext_in. intros i Hi. apply Hsn. apply list_elem_of_In, elem_of_seqZ in Hi. lia. }
  unfold id_ctrl_writes in Hs. clear Hsn.
  destruct (SUPPORTED_SSD_TYPE c SSD_TYPE_FDP) eqn:E; cbn [app] in Hp, Hs; split.
  all: try (rewrite Hs; reflexivity).
  all: try (fetch_byte_field Hp 77 1; f_equal; exact (le_combine_mod 1 (MDTS c))).
  all: rewrite ?E; first [fetch_byte_field Hp 516 4|fetch_byte_field Hp 512 1|fetch_byte_field Hp 513 1
    |fetch_byte_field Hp 258 1|fetch_byte_field Hp 96 4]; reflexivity.
Qed.

(** What a host finds in the page of a namespace of [size] bytes. *)
Record ns_page (c : ssd_config) (size : Z) (fdp : bool) (m : mem) (a : Z) : Prop := {
  np_sizes : Forall (λ s, fetch m a nvme_id_ns_t [Fld s] = Some (Z.shiftr size (LBA_BITS c) mod 2 ^ 64))
    ["nsze"; "ncap"; "nuse"];
  np_nlbaf : fetch m a nvme_id_ns_t [Fld "nlbaf"] = Some 6;
  np_format : ∃ f, fetch m a nvme_id_ns_t [Fld "flbas"] = Some f ∧
    fetch m a nvme_id_ns_t [Fld "lbaf"; Idx f; Fld "ds"] = Some (LBA_BITS c) ∧
    fetch m a nvme_id_ns_t [Fld "lbaf"; Idx f; Fld "ms"] = Some 0;
  np_fdp : fdp = true →
    fetch m a nvme_id_ns_t [Fld "nsfeat"] = Some NVME_NS_FEAT_IO_OPT ∧
    fetch m a nvme_id_ns_t [Fld "endgid"] = Some NVMEV_FDP_ENDGID ∧
    Forall (λ s, fetch m a nvme_id_ns_t [Fld s] =
      Some ((u16 (Z.shiftr (ONESHOT_PAGE_SIZE c) (LBA_BITS c)) - 1) mod 2 ^ 16)) ["npwg"; "npwa"; "nows"];
}.

Lemma id_ns_page c nss size fdp m a :
  build_ok c nss → page_is m a (id_ns_writes c size fdp) → ns_page c size fdp m a.
Proof.
  intros build Hp. unfold id_ns_writes, lbaf_writes in Hp.
  destruct (bo_lba _ _ build) as [E|E]; rewrite E in Hp; destruct fdp; cbn [app Z.eqb Pos.eqb] in Hp; split; rewrite ?E.
  all: try (repeat (apply Forall_cons; split); [| | |by apply Forall_nil]).
  all: try (first [fetch_byte_field Hp 0 8|fetch_byte_field Hp 8 8|fetch_byte_field Hp 16 8];
    f_equal; exact (le_combine_mod 8 _)).
  all: try (fetch_byte_field Hp 25 1; reflexivity).
  all: try (exists 0; split; [fetch_byte_field Hp 26 1; reflexivity|]; split;
    [fetch_byte_field Hp 130 1; reflexivity|fetch_byte_field Hp 128 2; reflexivity]).
  all: try (exists 3; split; [fetch_byte_field Hp 26 1; reflexivity|]; split;
    [fetch_byte_field Hp 142 1; reflexivity|fetch_byte_field Hp 140 2; reflexivity]).
  all: intros Hf; try discriminate.
  all: split; [fetch_byte_field Hp 24 1; reflexivity|]; split; [fetch_byte_field Hp 102 2; reflexivity|].
  all: repeat (apply Forall_cons; split); [| | |by apply Forall_nil].
  all: first [fetch_byte_field Hp 64 2|fetch_byte_field Hp 66 2|fetch_byte_field Hp 72 2];
    f_equal; exact (le_combine_mod 2 _).
Qed.

(** C25: what a host reads through the structures of nvme.h in the page of an Identify
    command: the limits, entry sizes, attributes and serial number of the controller;
    the size of the namespace in blocks, a format whose block size is the one the
    translation layers use, and for FDP the endurance group and the write unit. *)
Theorem identify_pages_ok c nss SB CB q v e :
  build_ok c nss → adm SB CB q v → 0 ≤ e < aq_sq_depth q →
  disjoint_rings SB CB q (region (cmd_prp SB (v_mem v) e) PAGE_SIZE) →
  wp (nvmev_admin_identify_ctrl c e) v (λ _ v', ctrl_page c (v_mem v') (cmd_prp SB (v_mem v) e)) ∧
  ∀ ns, nsid_ok nss SB (v_mem v) e → aget nss (cmd_field (v_mem v) SB e CMD_NSID 4 - 1) = Some ns →
    wp (nvmev_admin_identify_namespace c nss e) v (λ _ v',
      ns_page c (ns_size ns) (SUPPORTED_SSD_TYPE c SSD_TYPE_FDP) (v_mem v') (cmd_prp SB (v_mem v) e)).
Proof.
  intros build Ha He Hd. split.
  - unfold nvmev_admin_identify_ctrl. field_of Ha. fold (cmd_prp SB (v_mem v) e). rewrite prp_address_eq.
    wp_step. eapply wp_mono; [apply wp_st_page_is, fills_id_ctrl|]. intros [] v1 [Hs Hp].
    eapply wp_mono; [exact (wp_finish_page _ _ _ _ _ _ _ Ha He Hd Hs Hp)|]. intros [] v'. apply id_ctrl_page.
  - intros ns [Hn _] Hns. unfold nvmev_admin_identify_namespace. do 2 field_of Ha.
    fold (cmd_prp SB (v_mem v) e). rewrite u32_small by lia. wp_step. eapply wp_aread; [exact Hns|].
    wp_step. eapply wp_mono with (Q := λ fdp v', fdp = SUPPORTED_SSD_TYPE c SSD_TYPE_FDP ∧ v' = v).
    { destruct (SUPPORTED_SSD_TYPE c SSD_TYPE_FDP) eqn:E; [|by wp_step]. unfold NS_SSD_TYPE.
      rewrite (proj2 (in_range_true _ _)) by lia. wp_step. wp_step. wp_step. split; [exact E|done]. }
    intros fdp v' [-> ->]. rewrite prp_address_eq. wp_step.
    eapply wp_mono; [eapply wp_st_page_is, fills_id_ns, build|]. intros [] v1 [Hs Hp].
    eapply wp_mono; [exact (wp_finish_page _ _ _ _ _ _ _ Ha He Hd Hs Hp)|]. intros [] v'.
    by apply id_ns_page with nss.
Qed.

Definition identify_mem : mem :=
  mem_write 0x10000 ([0x06; 0; 9; 0; 1; 0; 0; 0] ++ replicate 16 0 ++ le_split 8 0x30000 ++ replicate 32 0) (λ _, 0).
Lemma identify_pages_ok_witness :
  wp (nvmev_admin_identify_ctrl SAMSUNG_FDP 0) (example_vdev identify_mem example_queue) (λ _ v',
    fetch (v_mem v') 0x30000 nvme_id_ctrl_t [Fld "ctratt"] = Some 0x80010) ∧
  wp (nvmev_admin_identify_namespace SAMSUNG_FDP (anew 1 (Ns 1 0 1048576 1)) 0)
    (example_vdev identify_mem example_queue) (λ _ v',
    fetch (v_mem v') 0x30000 nvme_id_ns_t [Fld "nsze"] = Some 2048).
Proof.
  assert (cmd_prp 0x10000 identify_mem 0 = 0x30000) as Ep by by vm_compute.
  assert (cmd_field identify_mem 0x10000 0 CMD_NSID 4 = 1) as En by by vm_compute.
  destruct (identify_pages_ok SAMSUNG_FDP (anew 1 (Ns 1 0 1048576 1)) 0x10000 0x20000 example_queue
    (example_vdev identify_mem example_queue) 0) as [Hc Hn].
  - split; [by left|done].
  - apply example_adm.
  - simpl. lia.
  - change (v_mem (example_vdev identify_mem example_queue)) with identify_mem. rewrite Ep.
    intros x. unfold in_rings, region, PAGE_SIZE. simpl. lia.
  - change (v_mem (example_vdev identify_mem example_queue)) with identify_mem in *.
    rewrite Ep in Hc, Hn. split.
    + eapply wp_mono; [exact Hc|]. intros [] v' H. exact (cp_ctratt _ _ _ H).
    + eapply wp_mono; [apply (Hn (Ns 1 0 1048576 1))|].
      * unfold nsid_ok. rewrite En. split; [lia|by eexists].
      * by rewrite En.
      * intros [] v' H. pose proof (np_sizes _ _ _ _ _ H) as Hs. apply Forall_cons in Hs as [Hs _]. exact Hs.
Defined.

(** ** Sizes and fields *)

(** What the code allocates, copies or steps by, against the structures. *)
Definition wire_sizes : list (ctype * Z) :=
  [(nvme_command_t, sizeof_nvme_command); (nvme_kv_command_t, sizeof_nvme_command);
   (nvme_completion_t, sizeof_nvme_completion);
   (nvme_id_ctrl_t, PAGE_SIZE); (nvme_id_ns_t, PAGE_SIZE); (nvme_id_ns_desc_t, PAGE_SIZE);
   (nvme_id_zns_ns_t, PAGE_SIZE); (nvme_id_zns_ctrl_t, PAGE_SIZE); (nvme_effects_log_t, PAGE_SIZE);
   (nvme_smart_log_t, 512); (zone_descriptor_t, sizeof_zone_descriptor);
   (nvme_fdp_config_log_t, sizeof_config_log); (nvme_fdp_config_desc_t, sizeof_config_desc);
   (nvme_fdp_ruh_desc_t, sizeof_ruh_desc); (nvme_fdp_ruhu_log_t, sizeof_ruhu_log);
   (nvme_fdp_ruhu_desc_t, sizeof_ruhu_desc); (nvme_fdp_events_log_t, sizeof_events_log);
   (nvme_fdp_event_t, sizeof_event); (nvme_fdp_supported_event_desc_t, 2);
   (nvme_bar_t, size_of nvme_ctrl_regs_t)].

(** The capabilities with their offsets in the configuration space. *)
Definition pci_places : list (Z * ctype * Z) :=
  [(OFFS_PCI_HDR, pci_header_t, OFFS_PCI_PM_CAP); (OFFS_PCI_PM_CAP, pci_pm_cap_t, OFFS_PCI_MSIX_CAP);
   (OFFS_PCI_MSIX_CAP, pci_msix_cap_t, OFFS_PCIE_CAP); (OFFS_PCIE_CAP, pcie_cap_t, OFFS_PCI_EXT_CAP)].

(** The fields the admin commands are read by: alternative, member, offset, bytes. *)
Definition wire_fields : list (string * string * Z * Z) :=
  [("common", "opcode", 0, 1); ("common", "command_id", CMD_ID, 2);
   ("create_cq", "prp1", CMD_PRP1, 8); ("create_cq", "cqid", CMD_DW10, 2); ("create_cq", "qsize", CMD_DW10H, 2);
   ("create_cq", "cq_flags", CMD_DW11, 2); ("create_cq", "irq_vector", CMD_DW11H, 2);
   ("create_sq", "prp1", CMD_PRP1, 8); ("create_sq", "sqid", CMD_DW10, 2); ("create_sq", "qsize", CMD_DW10H, 2);
   ("create_sq", "sq_flags", CMD_DW11, 2); ("create_sq", "cqid", CMD_DW11H, 2);
   ("delete_queue", "qid", CMD_DW10, 2);
   ("get_log_page", "prp1", CMD_PRP1, 8); ("get_log_page", "lid", CMD_DW10, 1);
   ("get_log_page", "numdl", CMD_DW10H, 2); ("get_log_page", "numdu", CMD_DW11, 2);
   ("identify", "nsid", CMD_NSID, 4); ("identify", "prp1", CMD_PRP1, 8); ("identify", "cns", CMD_DW10, 4);
   ("features", "prp1", CMD_PRP1, 8); ("features", "fid", CMD_DW10, 4); ("features", "dword11", CMD_DW11, 4)].

Lemma fetch_aligned m a t p b n :
  field_at t 0 p = Some (8 * b, 8 * n) → fetch m a t p = Some (mem_read m (a + b) n).
Proof.
  intros Hf. unfold fetch, read_bits. rewrite Hf. rewrite !(Z.mul_comm 8), !Z.mod_mul by done.
  cbn [Z.eqb andb]. by rewrite !Z.div_mul by done.
Qed.

(** The structures of the headers against the offsets and sizes of the code: every
    command, completion, identify page, log page and descriptor has the size the code
    uses, the PCI capabilities fit in their places, admin commands are read at the
    members of their structures, and a posted completion is read back member by member.
    Two declarations are too long: the zone management commands have 72 bytes, and two
    bit fields too wide displace the device status of the PCI Express capability to
    byte 12. *)
Theorem wire_formats_ok :
  Forall (λ '(t, n), size_of t = n) wire_sizes ∧
  Forall (λ '(off, t, next), off + size_of t ≤ next) pci_places ∧
  (∀ m SB e, Forall (λ '(alt, name, off, n),
    fetch m (SB + 64 * e) nvme_command_t [Fld alt; Fld name] = Some (cmd_field m SB e off n)) wire_fields) ∧
  (∀ m a x, let get s := fetch (mem_write a (completion_bytes x) m) a nvme_completion_t [Fld s] in
    get "result0" = Some (cqe_result0 x mod 2 ^ 32) ∧ get "result1" = Some (cqe_result1 x mod 2 ^ 32) ∧
    get "sq_head" = Some (cqe_sq_head x mod 2 ^ 16) ∧ get "sq_id" = Some (cqe_sq_id x mod 2 ^ 16) ∧
    get "command_id" = Some (cqe_command_id x mod 2 ^ 16) ∧ get "status" = Some (cqe_status x mod 2 ^ 16)) ∧
  (size_of nvme_zone_mgmt_recv_t = 72 ∧ size_of nvme_zone_mgmt_send_t = 72 ∧
   field_at pcie_cap_t 0 [Fld "pxds"] = Some (8 * 12, 16)).
Proof.
  split; [|split; [|split; [|split]]].
  - repeat (apply Forall_cons; split; [by vm_compute|]). by apply Forall_nil.
  - repeat (apply Forall_cons; split; [by vm_compute|]). by apply Forall_nil.
  - intros m SB e. unfold wire_fields.
    repeat (apply Forall_cons; split; [apply fetch_aligned; by vm_compute|]). by apply Forall_nil.
  - intros m a [r0 r1 sh si ci st]. cbv zeta. unfold completion_bytes. cbn [cqe_result0 cqe_result1 cqe_sq_head
      cqe_sq_id cqe_command_id cqe_status].
    rewrite (fetch_aligned _ _ _ _ 0 4), (fetch_aligned _ _ _ _ 4 4), (fetch_aligned _ _ _ _ 8 2),
      (fetch_aligned _ _ _ _ 10 2), (fetch_aligned _ _ _ _ 12 2), (fetch_aligned _ _ _ _ 14 2) by by vm_compute.
    split_and!; f_equal.
    + exact (mem_read_write a [] 4 r0 _ m 0 eq_refl).
    + exact (mem_read_write a (le_split 4 r0) 4 r1 _ m 4 eq_refl).
    + exact (mem_read_write a (le_split 4 r0 ++ le_split 4 r1) 2 sh _ m 8 eq_refl).
    + exact (mem_read_write a (le_split 4 r0 ++ le_split 4 r1 ++ le_split 2 sh) 2 si _ m 10 eq_refl).
    + exact (mem_read_write a (le_split 4 r0 ++ le_split 4 r1 ++ le_split 2 sh ++ le_split 2 si) 2 ci _ m 12 eq_refl).
    + pose proof (mem_read_write a (le_split 4 r0 ++ le_split 4 r1 ++ le_split 2 sh ++ le_split 2 si ++ le_split 2 ci)
        2 st [] m 14 eq_refl) as H. exact H.
  - by vm_compute.
Qed.
