(* ===== verification/Double.v ===== *)
(** * Double-precision numbers

    The part of C's double that src/lsm_workload.c computes with: non-negative numbers,
    each the binary64 number nearest to the exact result, ties to even.  A number is an
    integer times a power of two; exponents are unbounded, since no computation of the
    program comes near the limits of the format. *)

From Stdlib Require Import ZArith Lia.
From stdpp Require Import base numbers.
From S2P Require Import Prelude.

#[local] Open Scope Z_scope.

Record double : Type := Double { d_mant : Z; d_exp : Z }.

(** [2 ^ e] is a fraction: the powers of its numerator and denominator. *)
Definition up (e : Z) : Z := 2 ^ Z.max 0 e.
Definition down (e : Z) : Z := 2 ^ Z.max 0 (- e).

(** The double nearest to [p / q]: a quotient of 53 bits, rounded to nearest even. *)
Definition nearest (n d : Z) : Z :=
  let m := n / d in
  let r := n mod d in
  if 2 * r <? d then m else if (d <? 2 * r) || negb (Z.even m) then m + 1 else m.
Definition magnitude (p q : Z) : Z :=
  let k := Z.log2 p - Z.log2 q in
  if q * up k <=? p * down k then k else k - 1.
Definition round (p q : Z) : double :=
  if p =? 0 then Double 0 0
  else let e := magnitude p q - 52 in Double (nearest (p * down e) (q * up e)) e.

(** (double)n and (uint64_t)x *)
Definition of_int (n : Z) : double := round n 1.
Definition to_u64 (x : double) : Z := u64 (d_mant x * up (d_exp x) / down (d_exp x)).

Definition dmul (x y : double) : double :=
  let e := d_exp x + d_exp y in round (d_mant x * d_mant y * up e) (down e).
Definition ddiv (x y : double) : double :=
  let e := d_exp x - d_exp y in round (d_mant x * up e) (d_mant y * down e).
Definition dadd (x y : double) : double :=
  let e := Z.min (d_exp x) (d_exp y) in
  round ((d_mant x * up (d_exp x - e) + d_mant y * up (d_exp y - e)) * up e) (down e).

(** ** Integers in double precision *)

(** [x] is the number [n]. *)
Definition is_int (x : double) (n : Z) : Prop := d_mant x * up (d_exp x) = n * down (d_exp x).

Lemma up_pos e : 0 < up e.
Proof. apply Z.pow_pos_nonneg; lia. Qed.
Lemma down_pos e : 0 < down e.
Proof. apply Z.pow_pos_nonneg; lia. Qed.
Lemma up_nonneg e : 0 ≤ e → up e = 2 ^ e ∧ down e = 1.
Proof. intros H. unfold up, down. by rewrite Z.max_r, Z.max_l by lia. Qed.
Lemma up_nonpos e : e ≤ 0 → up e = 1 ∧ down e = 2 ^ (- e).
Proof. intros H. unfold up, down. by rewrite Z.max_l, Z.max_r by lia. Qed.

(** [2 ^ (a - b) = 2 ^ a / 2 ^ b] *)
Lemma up_sub a b : up (a - b) * down a * up b = down (a - b) * up a * down b.
Proof.
  unfold up, down. rewrite <- !Z.pow_add_r by lia. f_equal. lia.
Qed.
Lemma up_add a b : up (a + b) * down a * down b = down (a + b) * up a * up b.
Proof. unfold up, down. rewrite <- !Z.pow_add_r by lia. f_equal. lia. Qed.

(** The magnitude is the exponent of the leading bit. *)
Lemma magnitude_spec p q :
  0 < p → 0 < q →
  q * up (magnitude p q) ≤ p * down (magnitude p q) < 2 * (q * up (magnitude p q)).
Proof.
  intros Hp Hq. unfold magnitude. pose proof (Z.log2_spec p Hp) as [P1 P2]. pose proof (Z.log2_spec q Hq) as [Q1 Q2].
  set (k := Z.log2 p - Z.log2 q) in *. rewrite Z.pow_succ_r in P2, Q2 by apply Z.log2_nonneg.
  pose proof (Z.log2_nonneg p). pose proof (Z.log2_nonneg q).
  assert (2 ^ Z.log2 p * down k = 2 ^ Z.log2 q * up k) as E.
  { unfold up, down. rewrite <- !Z.pow_add_r by lia. f_equal. lia. }
  pose proof (up_pos k). pose proof (down_pos k).
  destruct (Z.leb_spec (q * up k) (p * down k)) as [Hle|Hlt].
  - split; [done|]. nia.
  - assert (2 * (up (k - 1) * down k) = down (k - 1) * up k) as E1.
    { unfold up, down. rewrite <- (Z.pow_1_r 2) at 1. rewrite <- !Z.pow_add_r by lia. f_equal. lia. }
    pose proof (up_pos (k - 1)). pose proof (down_pos (k - 1)). split.
    + assert (q * up k ≤ 2 * (p * down k)) by nia. apply (Zmult_le_reg_r _ _ (up k)); [lia|].
      replace (p * down (k - 1) * up k) with (2 * (p * down k) * up (k - 1)) by nia. nia.
    + apply (Zmult_lt_reg_r _ _ (up k)); [lia|].
      replace (p * down (k - 1) * up k) with (2 * (p * down k) * up (k - 1)) by nia. nia.
Qed.

(** An exact quotient below [2 ^ 53] is not rounded. *)
Lemma nearest_exact n d x : 0 < d → n = x * d → nearest n d = x.
Proof.
  intros Hd ->. unfold nearest. rewrite Z.mod_mul, Z.div_mul by lia. simpl.
  by rewrite (proj2 (Z.ltb_lt _ _)) by lia.
Qed.
Lemma nearest_bounds n d : 0 < d → n / d ≤ nearest n d ≤ n / d + 1.
Proof. intros Hd. unfold nearest. repeat case_match; lia. Qed.
Lemma nearest_down n d : 0 < d → 2 * (n mod d) < d → nearest n d = n / d.
Proof. intros Hd H. unfold nearest. by rewrite (proj2 (Z.ltb_lt _ _)) by lia. Qed.

Lemma magnitude_int p q x : 0 < q → 0 < x < 2 ^ 53 → p = x * q → magnitude p q ≤ 52.
Proof.
  intros Hq Hx ->. pose proof (magnitude_spec (x * q) q ltac:(nia) Hq) as [H1 H2].
  set (k := magnitude (x * q) q) in *. destruct (Z.le_gt_cases k 52) as [|Hk]; [done|].
  destruct (up_nonneg k ltac:(lia)) as [Eu Ed]. rewrite Eu, Ed in *.
  pose proof (Z.pow_le_mono_r 2 53 k ltac:(lia) ltac:(lia)). nia.
Qed.

Lemma round_int p q x : 0 < q → 0 ≤ x < 2 ^ 53 → p = x * q → is_int (round p q) x.
Proof.
  intros Hq Hx Hp. unfold round, is_int. destruct (Z.eqb_spec p 0) as [Hz|Hz].
  { assert (x = 0) as -> by nia. done. }
  assert (0 < x) by nia. pose proof (magnitude_int p q x Hq ltac:(lia) Hp) as Hk. cbn [d_mant d_exp].
  destruct (up_nonpos (magnitude p q - 52) ltac:(lia)) as [Eu Ed].
  rewrite (nearest_exact _ _ (x * down (magnitude p q - 52))); rewrite Eu; nia.
Qed.

Lemma is_int_of n : 0 ≤ n < 2 ^ 53 → is_int (of_int n) n.
Proof. intros H. apply round_int; lia. Qed.

Lemma is_int_mul x y m n : is_int x m → is_int y n → 0 ≤ m * n < 2 ^ 53 → is_int (dmul x y) (m * n).
Proof.
  unfold is_int at 1 2. intros Hx Hy Hb. unfold dmul. apply round_int; [apply down_pos|done|].
  pose proof (up_add (d_exp x) (d_exp y)) as E.
  apply (Z.mul_reg_r _ _ (down (d_exp x) * down (d_exp y))).
  { pose proof (down_pos (d_exp x)). pose proof (down_pos (d_exp y)). nia. }
  transitivity (d_mant x * d_mant y * (up (d_exp x + d_exp y) * down (d_exp x) * down (d_exp y))); [ring|].
  rewrite E. transitivity (down (d_exp x + d_exp y) * (d_mant x * up (d_exp x)) * (d_mant y * up (d_exp y))); [ring|].
  rewrite Hx, Hy. ring.
Qed.
Lemma is_int_add x y m n : is_int x m → is_int y n → 0 ≤ m + n < 2 ^ 53 → is_int (dadd x y) (m + n).
Proof.
  unfold is_int at 1 2. intros Hx Hy Hb. unfold dadd. set (e := Z.min (d_exp x) (d_exp y)).
  apply round_int; [apply down_pos|done|].
  assert (∀ z k, e ≤ d_exp z → d_mant z * up (d_exp z) = k * down (d_exp z) →
    d_mant z * up (d_exp z - e) * up e = k * down e) as H.
  { intros z k He Hz. destruct (up_nonneg (d_exp z - e) ltac:(lia)) as [_ Ed].
    pose proof (up_sub (d_exp z) e) as E. rewrite Ed in E. pose proof (down_pos (d_exp z)).
    apply (Z.mul_reg_r _ _ (down (d_exp z))); [lia|].
    transitivity (d_mant z * (up (d_exp z - e) * down (d_exp z) * up e)); [ring|]. rewrite E.
    transitivity (d_mant z * up (d_exp z) * down e); [ring|]. rewrite Hz. ring. }
  rewrite !Z.mul_add_distr_r, (H x m), (H y n) by (done || lia). ring.
Qed.

(** A quotient is cut to the integer quotient: rounding never carries it to the next
    integer. *)
Lemma round_trunc p q m n :
  0 < p → 0 < q → 0 < n → 0 ≤ m < 2 ^ 53 → p * n = m * q →
  d_mant (round p q) * up (d_exp (round p q)) / down (d_exp (round p q)) = m / n.
Proof.
  intros Hp Hq Hn Hm E. destruct (decide (m mod n = 0)) as [Hd|Hd].
  { assert (m = m / n * n) as Em by (pose proof (Z.div_mod m n); lia).
    assert (is_int (round p q) (m / n)) as ->; [|apply Z.div_mul; pose proof (down_pos (d_exp (round p q))); lia].
    apply round_int; [done| |].
    - pose proof (Z.div_pos m n). pose proof (Z.div_le_upper_bound m n m). nia.
    - apply (Z.mul_reg_r _ _ n); [lia|]. rewrite E. rewrite Em at 1. ring. }
  pose proof (magnitude_spec p q Hp Hq) as [M1 M2]. unfold round.
  rewrite (proj2 (Z.eqb_neq p 0)) by lia. cbn [d_mant d_exp]. set (k := magnitude p q) in *.
  assert (2 ≤ n) as Hn2. { destruct (decide (n = 1)) as [->|]; [by rewrite Z.mod_1_r in Hd|lia]. }
  (* n * 2 ^ k < 2 ^ 53 *)
  assert (n * up k ≤ m * down k) as Hk.
  { apply (Zmult_le_reg_r _ _ q); [lia|]. replace (m * down k * q) with (p * down k * n) by nia. nia. }
  assert (k < 52) as Hk52.
  { destruct (Z.lt_ge_cases k 52) as [|Hge]; [done|]. destruct (up_nonneg k ltac:(lia)) as [Eu Ed].
    rewrite Eu, Ed in Hk. pose proof (Z.pow_le_mono_r 2 52 k ltac:(lia) ltac:(lia)). nia. }
  destruct (up_nonpos (k - 52) ltac:(lia)) as [Eu Ed]. rewrite Eu, Ed, !Z.mul_1_r.
  replace (- (k - 52)) with (52 - k) by lia. set (E2 := 2 ^ (52 - k)).
  assert (0 < E2) as HE by (apply Z.pow_pos_nonneg; lia).
  pose proof (Z.div_mod m n ltac:(lia)) as Dm. pose proof (Z.mod_pos_bound m n Hn) as Bm.
  set (f := m / n) in *.
  pose proof (Z.div_mod (p * E2) q ltac:(lia)) as Dp. pose proof (Z.mod_pos_bound (p * E2) q Hq) as Bp.
  set (h := p * E2 / q) in *. set (r := p * E2 mod q) in *.
  (* f <= p / q < f + 1 *)
  assert (f * q ≤ p) as Hlo by (apply (Zmult_le_reg_r _ _ n); nia).
  assert (p < (f + 1) * q) as Hhi by (apply (Zmult_lt_reg_r _ _ n); nia).
  assert (f * E2 ≤ h) as Hh1. { apply Z.div_le_lower_bound; nia. }
  assert (h < (f + 1) * E2) as Hh2. { apply Z.div_lt_upper_bound; nia. }
  pose proof (nearest_bounds (p * E2) q Hq) as Hb. fold h in Hb.
  assert (nearest (p * E2) q < (f + 1) * E2) as Hlt.
  { destruct (Z.le_gt_cases (h + 2) ((f + 1) * E2)) as [|Hc]; [lia|]. assert (h = (f + 1) * E2 - 1) as Eh by lia.
    rewrite nearest_down; [fold h; lia|done|]. fold r. destruct (Z.lt_ge_cases (2 * r) q) as [|Hr]; [done|exfalso].
    (* then q >= 2 E2 ((f + 1) q - p), so n >= 2 E2 *)
    assert (2 * E2 * ((f + 1) * q - p) ≤ q) as H1 by nia.
    assert (2 * E2 * ((f + 1) * n - m) * q ≤ n * q) as H2.
    { replace (2 * E2 * ((f + 1) * n - m) * q) with (2 * E2 * ((f + 1) * q - p) * n) by nia. nia. }
    apply Zmult_le_reg_r in H2; [|lia]. assert (2 * E2 ≤ n) as H3 by nia.
    assert (2 * E2 * up k = 2 ^ 53 * down k) as H4.
    { unfold E2, up, down. rewrite <- (Z.pow_1_r 2) at 1. rewrite <- !Z.pow_add_r by lia. f_equal. lia. }
    pose proof (up_pos k). pose proof (down_pos k). nia. }
  symmetry. apply (Z.div_unique _ _ _ (nearest (p * E2) q - f * E2)); lia.
Qed.

Lemma is_int_pos x n : is_int x n → 0 < n → 0 < d_mant x.
Proof. unfold is_int. pose proof (up_pos (d_exp x)). pose proof (down_pos (d_exp x)). nia. Qed.
Lemma is_int_zero x : is_int x 0 → d_mant x = 0.
Proof. unfold is_int. pose proof (up_pos (d_exp x)). nia. Qed.

(** Integers divided in double precision and cut to an integer. *)
Lemma to_u64_div x y m n :
  is_int x m → is_int y n → 0 ≤ m < 2 ^ 53 → 0 < n → to_u64 (ddiv x y) = m / n.
Proof.
  intros Hx Hy Hm Hn. unfold to_u64, ddiv. pose proof (is_int_pos _ _ Hy Hn).
  pose proof (up_pos (d_exp x - d_exp y)). pose proof (down_pos (d_exp x - d_exp y)).
  assert (0 ≤ m / n < 2 ^ 53) as Hq.
  { split; [apply Z.div_pos; lia|]. apply Z.div_lt_upper_bound; nia. }
  destruct (decide (m = 0)) as [->|Hm0].
  { rewrite (is_int_zero _ Hx). done. }
  pose proof (is_int_pos _ _ Hx ltac:(lia)).
  rewrite (round_trunc _ _ m n); [by apply u64_small; lia|nia|nia|done|done|].
  unfold is_int in Hx, Hy. pose proof (up_sub (d_exp x) (d_exp y)) as E.
  pose proof (down_pos (d_exp x)). pose proof (down_pos (d_exp y)). pose proof (up_pos (d_exp y)).
  apply (Z.mul_reg_r _ _ (down (d_exp x) * up (d_exp y))); [nia|].
  transitivity (d_mant x * n * (up (d_exp x - d_exp y) * down (d_exp x) * up (d_exp y))); [ring|]. rewrite E.
  transitivity (d_mant x * up (d_exp x) * (n * down (d_exp y)) * down (d_exp x - d_exp y)); [ring|].
  rewrite Hx, <- Hy. ring.
Qed.
