(* ===== verification/Workload.v ===== *)
(** * The workload generators (src/fdp_workload.c, src/lsm_workload.c)

    The two host programs that write to the device through the passthrough ioctl of the
    kernel, hot and cold data or the levels of an LSM tree tagged with placement
    directives.  The C library's rand, the ioctl and the allocator are the class
    [Machine]; a program's state is its random sequence, its data buffer and the log of
    its ioctl calls.  Arguments are taken as converted by atoi and strtoul. *)

From Stdlib Require Import ZArith String.
From stdpp Require Import base numbers list.
From S2P Require Import Prelude Double.

#[local] Open Scope Z_scope.

Definition IO_BYTES : Z := 32 * 1024.
Definition LBA_BYTES : Z := 512.
Definition LBAS_PER_IO : Z := IO_BYTES / LBA_BYTES.
Definition NVME_CMD_WRITE : Z := 0x01.
Definition DTYPE_PLACEMENT : Z := 2.
Definition MAX_LEVELS : Z := 8.
Definition MIN_BAND_IOS : Z := 8.
Definition RAND_MAX : Z := 2 ^ 31 - 1.

(** [struct nvme_passthru_cmd] of the kernel, the fields the programs set; the others
    are 0. *)
Record nvme_passthru_cmd : Type := PassthruCmd {
  pt_opcode : Z;
  pt_nsid : Z;
  pt_addr : Z;
  pt_data_len : Z;
  pt_cdw10 : Z;
  pt_cdw11 : Z;
  pt_cdw12 : Z;
  pt_cdw13 : Z;
}.

(** An ioctl call and whether it returned 0. *)
Notation ioctl_log := (list (nvme_passthru_cmd * bool)).

(** [rand_seq seed i] is the [i]-th number after srand(seed); the answer of an ioctl may
    depend on all calls before it; [alloc n] is the address of [n] bytes. *)
Class Machine : Type := {
  rand_seq : Z → Z → Z;
  rand_range seed i : 0 ≤ rand_seq seed i ≤ RAND_MAX;
  ioctl_ok : ioctl_log → nvme_passthru_cmd → bool;
  alloc : Z → option Z;
}.

Record host : Type := Host {
  h_seed : Z;
  h_rand : Z;
  h_buf : Z;
  h_log : ioctl_log;
}.
Definition set_h_seed (x : Z) (h : host) : host := Host x 0 (h_buf h) (h_log h).
Definition set_h_buf (x : Z) (h : host) : host := Host (h_seed h) (h_rand h) x (h_log h).

Section workload.
Context `{!Machine}.

Definition rand : M host Z := λ h,
  Ok (rand_seq (h_seed h) (h_rand h), Host (h_seed h) (h_rand h + 1) (h_buf h) (h_log h)).
Definition srand (seed : Z) : M host unit := modify (set_h_seed seed).
Definition ioctl (cmd : nvme_passthru_cmd) : M host bool := λ h,
  let ok := ioctl_ok (h_log h) cmd in
  Ok (ok, Host (h_seed h) (h_rand h) (h_buf h) (h_log h ++ [(cmd, ok)])).

(** ** Shared by both programs *)

Definition write_cmd (addr idx dtype dspec : Z) : nvme_passthru_cmd :=
  let slba := u64 (idx * LBAS_PER_IO) in
  PassthruCmd NVME_CMD_WRITE 1 addr IO_BYTES (Z.land slba 0xffffffff) (u32 (Z.shiftr slba 32))
    (Z.lor (LBAS_PER_IO - 1) (u32 (Z.shiftl dtype 20))) (u32 (Z.shiftl dspec 16)).

Definition do_write (idx dtype dspec : Z) : M host Z :=
  h ← get;
  let cmd := write_cmd (h_buf h) idx dtype dspec in
  while_loop 100002 (λ attempt,
    ok ← ioctl cmd;
    if ok : bool then mret (inr 0)
    else if 100000 <? attempt + 1 then mret (inr (-1))
    else mret (inl (attempt + 1))) 0.

(** A remainder by 0 traps. *)
Definition rnd (m : Z) : M host Z :=
  a ← rand;
  b ← rand;
  if m =? 0 then throw OOPS else mret (u64 (u64 (a * 32768) + b) mod m).

(** The slots of the working set: [ws_pct] percent of the device. *)
Definition total_ios (dev_bytes ws_pct : Z) : Z := u64 (dev_bytes / LBA_BYTES / LBAS_PER_IO * ws_pct) / 100.

(** Fisher-Yates shuffle of [0 .. tot - 1]. *)
Definition shuffle (tot : Z) : M host (arr Z) :=
  while_loop (2 ^ 64 + 1) (λ '(i, perm),
    if 0 <? i then
      j ← rnd (u64 (i + 1));
      t ← aread perm i;
      x ← aread perm j;
      perm1 ← awrite perm i x;
      perm2 ← awrite perm1 j t;
      mret (inl (i - 1, perm2))
    else mret (inr perm)) (u64 (tot - 1), abuild tot 0 (λ i, i)).

(** [n] writes, counted by their outcome. *)
Definition count_writes (n : Z) (body : Z → M host Z) : M host (Z * Z) :=
  while_loop (n + 1) (λ '(i, don, failed),
    if i <? n then
      r ← body i;
      mret (inl (i + 1, if r =? 0 then don + 1 else don, if r =? 0 then failed else failed + 1))
    else mret (inr (don, failed))) (0, 0, 0).

(** The command line after the program's name: the device, whose size is [None] when it
    cannot be opened, the mode, the amount to write and the optional numbers. *)
Record args : Type := Args {
  a_dev_bytes : option Z;
  a_mode : string;
  a_churn_mb : Z;
  a_opts : list Z;
}.
Definition opt (a : args) (i : nat) (d : Z) : Z := default d (a_opts a !! i).
Definition is_fill (a : args) : bool := String.prefix "fill" (a_mode a).
Definition is_fdp (a : args) : bool := match String.index 0 "fdp" (a_mode a) with Some _ => true | None => false end.
Definition churn_ios (churn_mb : Z) : Z := u64 (churn_mb * 1024 * 1024) / IO_BYTES.
Definition clamp_ws (ws_pct : Z) : Z := if (ws_pct <? 1) || (99 <? ws_pct) then 90 else ws_pct.

(** ** Hot and cold data (src/fdp_workload.c) *)

(** The slots of the hot and of the cold region. *)
Definition hot_cold (tot hot_space_pct : Z) : Z * Z :=
  let hot := u64 (tot * hot_space_pct) / 100 in
  let hot := if hot =? 0 then 1 else hot in
  let cold := u64 (tot - hot) in
  (hot, if cold =? 0 then 1 else cold).

Definition hot_cold_fill (tot hot : Z) (fdp : bool) : M host (Z * Z) :=
  perm ← shuffle tot;
  count_writes tot (λ i,
    idx ← aread perm i;
    let '(dt, ds) := if fdp then (DTYPE_PLACEMENT, if idx <? hot then 1 else 2) else (0, 0) in
    do_write idx dt ds).

Definition hot_cold_churn (n hot cold hot_write_pct : Z) (fdp : bool) : M host (Z * Z) :=
  count_writes n (λ _,
    x ← rand;
    if x mod 100 <? hot_write_pct then
      y ← rand;
      do_write (y mod hot) (if fdp then DTYPE_PLACEMENT else 0) (if fdp then 1 else 0)
    else
      y ← rand;
      do_write (u64 (hot + y mod cold)) (if fdp then DTYPE_PLACEMENT else 0) (if fdp then 2 else 0)).

Definition fdp_workload (argv : option args) : M host Z :=
  match argv with
  | None => mret 2
  | Some a =>
      let hot_space_pct := opt a 0 20 in
      let hot_write_pct := opt a 1 90 in
      let seed := opt a 2 1 in
      let ws_pct := clamp_ws (opt a 3 90) in
      match a_dev_bytes a with
      | None => mret 1
      | Some dev_bytes =>
          if dev_bytes <=? 0 then mret 1
          else
            let tot := total_ios dev_bytes ws_pct in
            let '(hot, cold) := hot_cold tot hot_space_pct in
            match alloc IO_BYTES with
            | None => mret 1
            | Some buf =>
                modify (set_h_buf buf) ;;
                srand seed ;;
                if is_fill a then
                  match alloc (u64 (tot * 8)) with
                  | None => mret 1
                  | Some _ =>
                      r ← hot_cold_fill tot hot (is_fdp a);
                      mret (if r.2 =? 0 then 0 else 1)
                  end
                else
                  r ← hot_cold_churn (churn_ios (a_churn_mb a)) hot cold hot_write_pct (is_fdp a);
                  mret (if r.2 =? 0 then 0 else 1)
            end
      end
  end.

(** ** The levels of an LSM tree (src/lsm_workload.c) *)

Definition group_of_level (level L N : Z) : Z :=
  if L <=? N then u32 (level + 1)
  else if level <? N - 1 then u32 (level + 1)
  else u32 N.

(** The weights of the levels, [T] times larger from level to level, and their sum. *)
Fixpoint weights (n : nat) (T pw wsum : double) : list double * double :=
  match n with
  | O => ([], wsum)
  | S n' => let '(w, s) := weights n' T (dmul pw T) (dadd wsum pw) in (pw :: w, s)
  end.

(** The bands of the levels, first slot and number of slots, one behind the other; and
    the slots given out. *)
Fixpoint bands (tot wsum : double) (w : list double) (acc : Z) : list (Z * Z) * Z :=
  match w with
  | [] => ([], acc)
  | x :: w' =>
      let ios := to_u64 (ddiv (dmul tot x) wsum) in
      let '(b, a) := bands tot wsum w' (u64 (acc + ios)) in
      ((acc, ios) :: b, a)
  end.

(** The last level gets what rounding has left. *)
Definition lsm_bands (tot T L : Z) : list (Z * Z) :=
  let '(w, wsum) := weights (Z.to_nat L) (of_int T) (of_int 1) (of_int 0) in
  let '(b, acc) := bands (of_int tot) wsum w 0 in
  alter (λ '(start, ios), (start, u64 (ios + u64 (tot - acc)))) (Z.to_nat (L - 1)) b.

(** The first level whose band ends behind the slot. *)
Fixpoint level_of (b : list (Z * Z)) (idx lvl last : Z) : Z :=
  match b with
  | [] => last
  | (start, ios) :: b' => if idx <? u64 (start + ios) then lvl else level_of b' idx (lvl + 1) last
  end.

Definition lsm_fill (tot : Z) (b : list (Z * Z)) (L N : Z) (fdp : bool) : M host (Z * Z) :=
  perm ← shuffle tot;
  count_writes tot (λ i,
    idx ← aread perm i;
    let lvl := level_of b idx 0 (L - 1) in
    do_write idx (if fdp then DTYPE_PLACEMENT else 0) (if fdp then group_of_level lvl L N else 0)).

Definition lsm_churn (n : Z) (b : list (Z * Z)) (L N : Z) (fdp : bool) : M host (Z * Z) :=
  count_writes n (λ _,
    lvl ← rnd L;
    band ← deref (b !! Z.to_nat lvl);
    off ← rnd band.2;
    do_write (u64 (band.1 + off)) (if fdp then DTYPE_PLACEMENT else 0)
      (if fdp then group_of_level lvl L N else 0)).

Definition clamp_T (T : Z) : Z := if T <? 2 then 2 else T.
Definition clamp_L (L : Z) : Z :=
  let L := if L <? 1 then 1 else L in if MAX_LEVELS <? L then MAX_LEVELS else L.
Definition clamp_N (N L : Z) : Z :=
  let N := if N <? 1 then 1 else N in if L <? N then L else N.

Definition lsm_workload (argv : option args) : M host Z :=
  match argv with
  | None => mret 2
  | Some a =>
      let T := clamp_T (opt a 0 4) in
      let L := clamp_L (opt a 1 4) in
      let N := clamp_N (opt a 2 (opt a 1 4)) L in
      let seed := opt a 3 1 in
      let ws_pct := clamp_ws (opt a 4 90) in
      match a_dev_bytes a with
      | None => mret 1
      | Some dev_bytes =>
          if dev_bytes <=? 0 then mret 1
          else
            let tot := total_ios dev_bytes ws_pct in
            let b := lsm_bands tot T L in
            if existsb (λ band, band.2 <? MIN_BAND_IOS) b then mret 3
            else match alloc IO_BYTES with
            | None => mret 1
            | Some buf =>
                modify (set_h_buf buf) ;;
                srand seed ;;
                if is_fill a then
                  match alloc (u64 (tot * 8)) with
                  | None => mret 1
                  | Some _ =>
                      r ← lsm_fill tot b L N (is_fdp a);
                      mret (if r.2 =? 0 then 0 else 1)
                  end
                else
                  r ← lsm_churn (churn_ios (a_churn_mb a)) b L N (is_fdp a);
                  mret (if r.2 =? 0 then 0 else 1)
            end
      end
  end.
End workload.
