(* ===== verification/WorkloadProps.v ===== *)
(** * What the workload generators write

    The bands of the LSM levels, the shuffle, the calls of the ioctl, and the path of a
    placement directive from a level of the tree to the handle of a logical page. *)

From Stdlib Require Import ZArith Lia String.
From stdpp Require Import base numbers list.
From S2P Require Import Prelude Config Ssd Bytes Nvme FdpLog FdpFtl FdpIo FdpRefine Dma IoData Ctrl Admin AdminQueue Layout Wire WireProps Double Workload.

#[local] Open Scope Z_scope.

(** ** The bands in integers *)

(** The first [n] powers of [T] from [p] on. *)
Fixpoint powers (n : nat) (T p : Z) : list Z :=
  match n with
  | O => []
  | S n' => p :: powers n' T (p * T)
  end.
Definition total (l : list Z) : Z := zsum id l.
Lemma total_cons x l : total (x :: l) = x + total l.
Proof. done. Qed.

Fixpoint int_bands (tot W : Z) (ps : list Z) (acc : Z) : list (Z * Z) * Z :=
  match ps with
  | [] => ([], acc)
  | p :: ps' =>
      let ios := tot * p / W in
      let '(b, a) := int_bands tot W ps' (acc + ios) in
      ((acc, ios) :: b, a)
  end.

Lemma total_powers n T p : total (powers n T p) * (T - 1) = p * T ^ Z.of_nat n - p.
Proof.
  revert p. induction n as [|n IH]; intros p; [cbn; lia|].
  cbn [powers]. rewrite total_cons, Nat2Z.inj_succ, Z.pow_succ_r by lia. specialize (IH (p * T)). nia.
Qed.
Lemma powers_pos n T p : 0 < p → 0 < T → Forall (λ x, 0 < x) (powers n T p).
Proof. revert p. induction n as [|n IH]; intros p Hp HT; constructor; [done|]. apply IH; nia. Qed.
Lemma total_nonneg l : Forall (λ x, 0 < x) l → 0 ≤ total l.
Proof. induction 1; [done|]. rewrite total_cons. lia. Qed.

Lemma weights_int n T t p pw s ws :
  is_int t T → is_int pw p → is_int ws s → 0 < p → 2 ≤ T → 0 ≤ s →
  p * T ^ Z.of_nat n < 2 ^ 53 → s + total (powers n T p) < 2 ^ 53 →
  Forall2 is_int (weights n t pw ws).1 (powers n T p) ∧ is_int (weights n t pw ws).2 (s + total (powers n T p)).
Proof.
  intros HtT. revert p pw s ws. induction n as [|n IH]; intros p pw s ws Hp Hs Hp0 HT Hs0 Hb Hsum; cbn [weights powers].
  { split; [constructor|]. unfold total. cbn [zsum]. by rewrite Z.add_0_r. }
  rewrite Nat2Z.inj_succ, Z.pow_succ_r in Hb by lia.
  pose proof (Z.pow_pos_nonneg T (Z.of_nat n) ltac:(lia) ltac:(lia)).
  pose proof (total_nonneg _ (powers_pos n T (p * T) ltac:(nia) ltac:(lia))). cbn [powers] in Hsum. rewrite total_cons in *.
  destruct (IH (p * T) (dmul pw t) (s + p) (dadd ws pw)) as [H1 H2]; [|apply is_int_add; [done..|lia]|nia|lia|lia|nia|lia|].
  { apply is_int_mul; [done..|nia]. }
  destruct (weights n t (dmul pw t) (dadd ws pw)) as [w s']. cbn [fst snd] in *. split; [by constructor|].
  by rewrite Z.add_assoc.
Qed.

Lemma int_bands_total tot W ps acc :
  0 ≤ tot → 0 < W → Forall (λ x, 0 < x) ps →
  acc ≤ (int_bands tot W ps acc).2 ∧ ((int_bands tot W ps acc).2 - acc) * W ≤ tot * total ps.
Proof.
  intros Ht HW Hps. revert acc. induction Hps as [|p ps Hp Hps IH]; intros acc; cbn [int_bands].
  { unfold total. cbn. lia. }
  specialize (IH (acc + tot * p / W)). destruct (int_bands tot W ps (acc + tot * p / W)) as [b a].
  cbn [snd] in *. rewrite total_cons.
  pose proof (Z.mul_div_le (tot * p) W HW). pose proof (Z.div_pos (tot * p) W ltac:(nia) HW). nia.
Qed.

Lemma bands_int tot W t wsum w ps acc :
  is_int t tot → is_int wsum W → Forall2 is_int w ps → Forall (λ x, 0 < x) ps →
  0 ≤ tot → 0 < W → (∀ p, p ∈ ps → tot * p < 2 ^ 53) → 0 ≤ acc →
  (int_bands tot W ps acc).2 < 2 ^ 53 →
  bands t wsum w acc = int_bands tot W ps acc.
Proof.
  intros Ht HW Hw Hps Htot HW0 Hp. revert acc Hps Hp. induction Hw as [|x p w ps Hx Hw IH]; intros acc Hps Hp Hacc Hb; [done|].
  apply Forall_cons in Hps as [Hp0 Hps]. cbn [bands int_bands] in *.
  pose proof (Hp p ltac:(left)) as Hbp.
  rewrite (to_u64_div _ _ (tot * p) W) by (try apply is_int_mul; done || nia).
  pose proof (int_bands_total tot W ps (acc + tot * p / W) Htot HW0 Hps) as [Hge _].
  pose proof (Z.div_pos (tot * p) W ltac:(nia) HW0).
  assert ((int_bands tot W ps (acc + tot * p / W)).2 < 2 ^ 53) as Hb'.
  { by destruct (int_bands tot W ps (acc + tot * p / W)). }
  rewrite u64_small by lia. rewrite IH; [done|done| |lia|done]. intros q Hq. apply Hp. by right.
Qed.

(** ** The bands of the levels *)

(** Level [i] of [L]: its first slot and its number of slots. *)
Definition weight_sum (T L : Z) : Z := total (powers (Z.to_nat L) T 1).
Definition band_ok (tot T L : Z) (b : list (Z * Z)) (i start ios : Z) : Prop :=
  start = zsum snd (take (Z.to_nat i) b) ∧ 0 ≤ ios ∧
  if i =? L - 1 then start + ios = tot else ios = tot * T ^ i / weight_sum T L.

Lemma int_bands_lookup tot W T n p acc i start ios :
  (int_bands tot W (powers n T p) acc).1 !! i = Some (start, ios) →
  ios = tot * (p * T ^ Z.of_nat i) / W ∧
  start = acc + zsum snd (take i (int_bands tot W (powers n T p) acc).1).
Proof.
  revert p acc i. induction n as [|n IH]; intros p acc i; cbn [powers int_bands]; [done|].
  destruct (int_bands tot W (powers n T (p * T)) (acc + tot * p / W)) as [b a] eqn:E. cbn [fst].
  destruct i as [|i]; cbn [lookup list_lookup].
  { intros [= <- <-]. simpl. rewrite Z.mul_1_r. lia. }
  intros Hi. specialize (IH (p * T) (acc + tot * p / W) i). rewrite E in IH. cbn [fst] in IH.
  destruct (IH Hi) as [-> ->]. rewrite Nat2Z.inj_succ, Z.pow_succ_r by lia. split.
  - f_equal. ring.
  - cbn [take zsum snd]. lia.
Qed.
Lemma int_bands_length tot W ps acc : length (int_bands tot W ps acc).1 = length ps.
Proof.
  revert acc. induction ps as [|p ps IH]; intros acc; cbn [int_bands]; [done|].
  specialize (IH (acc + tot * p / W)). destruct (int_bands _ _ ps _). simpl in *. by rewrite IH.
Qed.
Lemma int_bands_acc tot W ps acc :
  (int_bands tot W ps acc).2 = acc + zsum snd (int_bands tot W ps acc).1.
Proof.
  revert acc. induction ps as [|p ps IH]; intros acc; cbn [int_bands]; [cbn; lia|].
  specialize (IH (acc + tot * p / W)). destruct (int_bands _ _ ps _). simpl in *. lia.
Qed.
Lemma length_powers n T p : length (powers n T p) = n.
Proof. revert p. induction n; intros p; simpl; auto. Qed.

Lemma zsum_nonneg {A} (f : A → Z) l : (∀ x, x ∈ l → 0 ≤ f x) → 0 ≤ zsum f l.
Proof.
  induction l as [|x l IH]; intros H; cbn [zsum]; [lia|].
  pose proof (H x ltac:(left)). assert (0 ≤ zsum f l); [|lia]. apply IH. intros y Hy. apply H. by right.
Qed.

Section bands.
Context (tot T L : Z).
Hypothesis HL : 1 ≤ L ≤ MAX_LEVELS.
Hypothesis HT : 2 ≤ T.
Hypothesis Htot : 1 ≤ tot.
Hypothesis Hbound : tot * T ^ L < 2 ^ 53.

Let W : Z := weight_sum T L.
Let pows : list Z := powers (Z.to_nat L) T 1.

Lemma power_bounds : 1 ≤ T ^ L < 2 ^ 53 ∧ 1 ≤ W < T ^ L.
Proof using HL HT Htot Hbound.
  pose proof (Z.pow_pos_nonneg T L ltac:(lia) ltac:(lia)). pose proof (total_powers (Z.to_nat L) T 1) as Ht.
  rewrite Z2Nat.id in Ht by lia. fold pows in Ht.
  assert (1 ≤ W) as HW.
  { unfold W, weight_sum. destruct (Z.to_nat L) as [|n] eqn:E; [lia|]. cbn [powers]. rewrite total_cons.
    pose proof (total_nonneg _ (powers_pos n T (1 * T) ltac:(lia) ltac:(lia))). lia. }
  unfold W, weight_sum. fold pows. unfold W, weight_sum in HW. fold pows in HW. nia.
Qed.

Lemma pows_elem p : p ∈ pows → 0 < p ∧ tot * p < 2 ^ 53.
Proof using HL HT Htot Hbound.
  intros Hp. assert (0 < p) as H0.
  { pose proof (powers_pos (Z.to_nat L) T 1 ltac:(lia) ltac:(lia)) as H. rewrite Forall_forall in H. by apply H. }
  split; [done|]. pose proof power_bounds as [_ HW].
  assert (p ≤ W).
  2:{ apply Z.le_lt_trans with (tot * W); [apply Z.mul_le_mono_nonneg_l; lia|].
      apply Z.lt_trans with (tot * T ^ L); [apply Z.mul_lt_mono_pos_l; lia|done]. }
  unfold W, weight_sum. fold pows.
  pose proof (powers_pos (Z.to_nat L) T 1 ltac:(lia) ltac:(lia)) as H. fold pows in H. clear -Hp H.
  induction H as [|x l Hx H IH]; [by apply elem_of_nil in Hp|]. rewrite total_cons.
  pose proof (total_nonneg _ H). apply elem_of_cons in Hp as [->|Hp]; [lia|]. specialize (IH Hp). lia.
Qed.

Lemma int_bands_fit : 0 ≤ (int_bands tot W pows 0).2 ≤ tot.
Proof using HL HT Htot Hbound.
  pose proof power_bounds as [_ HW].
  pose proof (int_bands_total tot W pows 0 ltac:(lia) ltac:(lia) (powers_pos (Z.to_nat L) T 1 ltac:(lia) ltac:(lia))) as [H1 H2].
  change (total pows) with W in H2. nia.
Qed.

Lemma lsm_bands_int :
  lsm_bands tot T L = alter (λ '(start, ios), (start, ios + (tot - (int_bands tot W pows 0).2)))
    (Z.to_nat (L - 1)) (int_bands tot W pows 0).1.
Proof using HL HT Htot Hbound.
  pose proof power_bounds as [HP HW]. pose proof int_bands_fit as Hf.
  unfold lsm_bands. destruct (weights_int (Z.to_nat L) T (of_int T) 1 (of_int 1) 0 (of_int 0)) as [H1 H2].
  all: try (by apply is_int_of). all: try done.
  { apply is_int_of. pose proof (Z.pow_le_mono_r T 1 L ltac:(lia) ltac:(lia)) as H. rewrite Z.pow_1_r in H. lia. }
  { rewrite Z2Nat.id by lia. lia. } { fold pows. change (total pows) with W. lia. }
  destruct (weights _ _ _ _) as [w wsum]. cbn [fst snd] in H1, H2. fold pows in H1, H2.
  change (0 + total pows) with W in H2.
  assert (tot < 2 ^ 53) by nia.
  rewrite (bands_int tot W _ _ _ pows); [| |done|done| |lia|lia| |lia|lia].
  - pose proof (int_bands_acc tot W pows 0) as Ha. destruct (int_bands tot W pows 0) as [b acc] eqn:Eb. cbn [fst snd] in *.
    apply list_eq. intros i. destruct (decide (Z.to_nat (L - 1) = i)) as [Hi|Hi];
      [subst i; rewrite !list_lookup_alter_eq|by rewrite !list_lookup_alter_ne].
    destruct (b !! Z.to_nat (L - 1)) as [[start ios]|] eqn:E; [|done]. simpl. do 2 f_equal.
    pose proof (int_bands_lookup tot W T (Z.to_nat L) 1 0 (Z.to_nat (L - 1)) start ios) as Hl. fold pows in Hl.
    rewrite Eb in Hl. destruct (Hl E) as [Hios _]. rewrite Z.mul_1_l, Z2Nat.id in Hios by lia.
    assert (tot * T ^ (L - 1) < 2 ^ 53).
    { pose proof (Z.pow_le_mono_r T (L - 1) L ltac:(lia) ltac:(lia)). nia. }
    pose proof (Z.pow_pos_nonneg T (L - 1) ltac:(lia) ltac:(lia)).
    pose proof (Z.div_pos (tot * T ^ (L - 1)) W ltac:(nia) ltac:(lia)).
    pose proof (Z.div_le_upper_bound (tot * T ^ (L - 1)) W (tot * T ^ (L - 1)) ltac:(lia) ltac:(nia)).
    rewrite (u64_small (tot - acc)) by lia. apply u64_small. lia.
  - apply is_int_of. lia.
  - apply powers_pos; lia.
  - intros p Hp. by apply pows_elem.
Qed.

Lemma lsm_bands_length : length (lsm_bands tot T L) = Z.to_nat L.
Proof using HL HT Htot Hbound.
  rewrite lsm_bands_int, length_alter, int_bands_length. apply length_powers.
Qed.

Lemma lsm_bands_spec i :
  0 ≤ i < L → ∃ start ios, lsm_bands tot T L !! Z.to_nat i = Some (start, ios) ∧
    band_ok tot T L (lsm_bands tot T L) i start ios.
Proof using HL HT Htot Hbound.
  intros Hi. pose proof int_bands_fit as Hf. pose proof power_bounds as [_ HW].
  rewrite lsm_bands_int. set (b := (int_bands tot W pows 0).1). set (acc := (int_bands tot W pows 0).2).
  fold acc in Hf. assert (length b = Z.to_nat L) as Hlen.
  { unfold b. rewrite int_bands_length. apply length_powers. }
  destruct (lookup_lt_is_Some_2 b (Z.to_nat i)) as [[start ios] E]; [lia|].
  pose proof (int_bands_lookup tot W T (Z.to_nat L) 1 0 (Z.to_nat i) start ios E) as [Hios Hst].
  fold pows in Hst. fold b in Hst. rewrite Z.add_0_l in Hst.
  rewrite Z.mul_1_l, Z2Nat.id in Hios by lia.
  pose proof (Z.pow_pos_nonneg T i ltac:(lia) ltac:(lia)).
  pose proof (Z.div_pos (tot * T ^ i) W ltac:(nia) ltac:(lia)).
  exists start, (if i =? L - 1 then ios + (tot - acc) else ios). unfold band_ok.
  rewrite take_alter_ge by lia.
  destruct (Z.eqb_spec i (L - 1)) as [->|Hne].
  - rewrite list_lookup_alter_eq, E. split; [done|]. split; [done|]. split; [lia|].
    pose proof (int_bands_acc tot W pows 0) as Ha. fold b acc in Ha.
    rewrite <- (take_drop_middle b _ _ E), zsum_app in Ha. cbn [zsum snd] in Ha.
    rewrite drop_ge in Ha by lia. cbn [zsum] in Ha. lia.
  - rewrite list_lookup_alter_ne, E by lia. split; [done|]. split; [done|]. split; [lia|]. by rewrite Hios.
Qed.
End bands.

(** Bands one behind the other from [acc] on. *)
Fixpoint in_row (acc : Z) (b : list (Z * Z)) : Prop :=
  match b with
  | [] => True
  | (start, ios) :: b' => start = acc ∧ 0 ≤ ios ∧ acc + ios < 2 ^ 64 ∧ in_row (acc + ios) b'
  end.
Lemma level_of_band b acc i start ios idx lvl last :
  in_row acc b → acc ≤ idx → b !! i = Some (start, ios) → start ≤ idx < start + ios →
  0 ≤ acc → level_of b idx lvl last = lvl + Z.of_nat i.
Proof.
  revert acc i lvl. induction b as [|[st io] b IH]; intros acc i lvl Hrow Hacc Hi Hidx H0; [done|].
  destruct Hrow as (-> & Hio & Hlt & Hrow). cbn [level_of]. rewrite u64_small by lia. destruct i as [|i].
  - injection Hi as -> ->. rewrite (proj2 (Z.ltb_lt _ _)) by lia. lia.
  - cbn [lookup list_lookup] in Hi. assert (acc + io ≤ start).
    { clear -Hrow Hi. revert Hrow Hi. generalize (acc + io). revert i.
      induction b as [|[s0 i0] b IH]; intros i a Hrow Hi; [done|]. destruct Hrow as (-> & H1 & _ & Hrow).
      destruct i as [|i]; [injection Hi; lia|]. specialize (IH i _ Hrow Hi). lia. }
    rewrite (proj2 (Z.ltb_ge _ _)) by lia. rewrite (IH (acc + io) i (lvl + 1)); [lia|done|lia|done|done|lia].
Qed.
Lemma in_row_lookup b acc :
  0 ≤ acc → (∀ i start ios, b !! i = Some (start, ios) → start = acc + zsum snd (take i b) ∧ 0 ≤ ios) →
  acc + zsum snd b < 2 ^ 64 → in_row acc b.
Proof.
  revert acc. induction b as [|[s o] b IH]; intros acc Ha H Hs; cbn [in_row]; [done|]. cbn [zsum snd] in Hs.
  destruct (H 0%nat s o eq_refl) as [Hs0 Ho]. cbn [take zsum] in Hs0.
  assert (0 ≤ zsum snd b).
  { apply zsum_nonneg. intros [s1 o1] [k Hk]%list_elem_of_lookup. by destruct (H (S k) s1 o1 Hk). }
  split_and!; [lia|done|lia|]. apply IH; [lia| |lia].
  intros i start ios Hi. destruct (H (S i) start ios Hi) as [H1 H2]. cbn [take zsum snd] in H1. split; [lia|done].
Qed.

Lemma lsm_bands_row tot T L :
  1 ≤ L ≤ MAX_LEVELS → 2 ≤ T → 1 ≤ tot → tot * T ^ L < 2 ^ 53 →
  in_row 0 (lsm_bands tot T L) ∧ zsum snd (lsm_bands tot T L) = tot.
Proof.
  intros HL HT Htot Hb. pose proof (lsm_bands_length tot T L HL HT Htot Hb) as Hlen.
  assert (∀ i start ios, lsm_bands tot T L !! i = Some (start, ios) →
    band_ok tot T L (lsm_bands tot T L) (Z.of_nat i) start ios) as H.
  { intros i start ios Hi. pose proof (lookup_lt_Some _ _ _ Hi).
    destruct (lsm_bands_spec tot T L HL HT Htot Hb (Z.of_nat i)) as (s & o & E & Hok); [lia|].
    rewrite Nat2Z.id, Hi in E. injection E as -> ->. done. }
  destruct (lookup_lt_is_Some_2 (lsm_bands tot T L) (Z.to_nat (L - 1))) as [[start ios] E]; [lia|].
  destruct (H _ _ _ E) as (H1 & H2 & H3). rewrite Z2Nat.id, Z.eqb_refl in H3 by lia.
  assert (zsum snd (lsm_bands tot T L) = tot) as Hs.
  { rewrite <- (take_drop_middle _ _ _ E), zsum_app. cbn [zsum snd]. rewrite drop_ge by lia. cbn [zsum].
    rewrite Nat2Z.id in H1. lia. }
  split; [|done]. apply in_row_lookup; [done| |nia].
  intros i s o Hi. destruct (H _ _ _ Hi) as (E1 & E2 & _). rewrite Nat2Z.id in E1. by split.
Qed.

(** ** Calls of the ioctl *)

(** One [do_write]: refused attempts and the accepted one, or 100001 refused ones. *)
Inductive call (c : nvme_passthru_cmd) : ioctl_log → Z → Prop :=
| call_ok k : Z.of_nat k ≤ 100000 → call c (replicate k (c, false) ++ [(c, true)]) 0
| call_fail : call c (replicate (Z.to_nat 100001) (c, false)) (-1).

(** The calls of a run, with the number that failed. *)
Inductive calls : list nvme_passthru_cmd → Z → ioctl_log → Prop :=
| calls_nil : calls [] 0 []
| calls_snoc cs f gs c g r : calls cs f gs → call c g r →
    calls (cs ++ [c]) (if r =? 0 then f else f + 1) (gs ++ g).

Definition accepted (g : ioctl_log) : list nvme_passthru_cmd := (filter (λ x, x.2 = true) g).*1.

Lemma accepted_app g1 g2 : accepted (g1 ++ g2) = accepted g1 ++ accepted g2.
Proof. unfold accepted. by rewrite list.filter_app, fmap_app. Qed.
Lemma accepted_refused c n : accepted (replicate n (c, false)) = [].
Proof. unfold accepted. induction n; [done|]. cbn [replicate]. by rewrite list.filter_cons_False. Qed.
Lemma call_accepted c g r : call c g r → (r = 0 ∧ accepted g = [c]) ∨ (r = -1 ∧ accepted g = []).
Proof.
  intros []; [left|right]; (split; [done|]); rewrite ?accepted_app, accepted_refused; done.
Qed.
Lemma calls_accepted cs f g :
  calls cs f g → 0 ≤ f ∧ accepted g `sublist_of` cs ∧ (f = 0 → accepted g = cs) ∧
    Z.of_nat (length (accepted g)) + f = Z.of_nat (length cs).
Proof.
  induction 1 as [|cs f gs c g r H IH Hc]; [done|]. destruct IH as (H1 & H2 & H3 & H4).
  rewrite accepted_app, !length_app. cbn [length].
  destruct (call_accepted _ _ _ Hc) as [[-> ->]|[-> ->]]; simpl.
  - split; [done|]. split; [by apply sublist_app|]. split; [|lia]. intros Hf. by rewrite H3.
  - split; [lia|]. rewrite app_nil_r. split; [by apply sublist_inserts_r|]. split; lia.
Qed.

Section programs.
Context `{MA : !Machine}.

(** The host after the calls [g]. *)
Definition called (h h' : host) (g : ioctl_log) : Prop := h_log h' = h_log h ++ g ∧ h_buf h' = h_buf h.
Lemma called_nil h : called h h [].
Proof. split; [by rewrite app_nil_r|done]. Qed.
Lemma called_trans h1 h2 h3 g1 g2 : called h1 h2 g1 → called h2 h3 g2 → called h1 h3 (g1 ++ g2).
Proof. intros [E1 E2] [E3 E4]. split; [by rewrite E3, E1, app_assoc|congruence]. Qed.

Lemma wp_rand h (Q : Z → host → Prop) : (∀ x h', 0 ≤ x ≤ RAND_MAX → called h h' [] → Q x h') → wp rand h Q.
Proof. intros H. apply H; [apply rand_range|]. split; [by rewrite app_nil_r|done]. Qed.

Lemma wp_rnd m h (Q : Z → host → Prop) :
  0 < m → (∀ x h', 0 ≤ x < m → called h h' [] → Q x h') → wp (rnd m) h Q.
Proof.
  intros Hm H. unfold rnd. wp_step. apply wp_rand. intros x h1 _ H1. wp_step. apply wp_rand. intros y h2 _ H2.
  rewrite (proj2 (Z.eqb_neq m 0)) by lia. wp_step. apply H; [by apply Z.mod_pos_bound|].
  exact (called_trans _ _ _ _ _ H1 H2).
Qed.

Lemma wp_do_write idx dt ds h (Q : Z → host → Prop) :
  (∀ r h' g, call (write_cmd (h_buf h) idx dt ds) g r → called h h' g → Q r h') → wp (do_write idx dt ds) h Q.
Proof.
  intros HQ. unfold do_write. wp_step. wp_step. set (c := write_cmd _ _ _ _) in *.
  apply (wp_while (λ a h1, 0 ≤ a ≤ 100000 ∧ called h h1 (replicate (Z.to_nat a) (c, false))) (λ a, 100000 - a)).
  { split; [lia|]. apply called_nil. } { lia. }
  intros a h1 [Ha H1]. split; [lia|]. wp_step. unfold ioctl. unfold wp at 1.
  set (ok := ioctl_ok (h_log h1) c). set (h2 := Host _ _ _ _).
  assert (called h1 h2 [(c, ok)]) as H2 by done. pose proof (called_trans _ _ _ _ _ H1 H2) as H3.
  destruct ok.
  { wp_step. apply (HQ _ _ _ (call_ok c (Z.to_nat a) ltac:(lia)) H3). }
  assert (replicate (Z.to_nat a) (c, false) ++ [(c, false)] = replicate (Z.to_nat (a + 1)) (c, false)) as E.
  { rewrite Z2Nat.inj_add by lia. by rewrite replicate_add. }
  rewrite E in H3. destruct (Z.ltb_spec 100000 (a + 1)) as [Hlt|Hge]; wp_step.
  - replace (a + 1) with 100001 in H3 by lia. exact (HQ _ _ _ (call_fail c) H3).
  - split; [split; [lia|done]|lia].
Qed.

(** [n] writes: the [i]-th is some command with [R i]. *)
Lemma wp_count_writes (R : Z → nvme_passthru_cmd → Prop) n body h (Q : Z * Z → host → Prop) :
  0 ≤ n →
  (∀ i h1, 0 ≤ i < n → h_buf h1 = h_buf h → wp (body i) h1 (λ r h2, ∃ c g, R i c ∧ call c g r ∧ called h1 h2 g)) →
  (∀ d f h' cs g, calls cs f g → called h h' g → Forall2 R (seqZ 0 n) cs → d + f = n → Q (d, f) h') →
  wp (count_writes n body) h Q.
Proof.
  intros Hn Hbody HQ. unfold count_writes.
  apply (wp_while (λ '(i, d, f) h1, 0 ≤ i ≤ n ∧ d + f = i ∧
    ∃ cs g, calls cs f g ∧ called h h1 g ∧ Forall2 R (seqZ 0 i) cs) (λ '(i, d, f), n - i)).
  { split; [lia|]. split; [done|]. exists [], []. split; [constructor|]. split; [apply called_nil|constructor]. }
  { lia. }
  intros [[i d] f] h1 (Hi & Hdf & cs & g & Hc & Hg & HR). split; [lia|].
  destruct (Z.ltb_spec i n) as [Hlt|Hge]; wp_step.
  - eapply wp_mono; [apply Hbody; [lia|apply Hg]|]. intros r h2 (c & g' & Hr & Hcall & Hh2). wp_step.
    split; [|lia]. split; [lia|]. split; [destruct (r =? 0); lia|]. exists (cs ++ [c]), (g ++ g').
    split; [by constructor|]. split; [by eapply called_trans|].
    rewrite seqZ_app by lia. apply Forall2_app; [done|]. change (seqZ (0 + i) 1) with [Z.of_nat 0 + (0 + i)].
    constructor; [by replace (Z.of_nat 0 + (0 + i)) with i by lia|constructor].
  - assert (i = n) as -> by lia. by eapply HQ.
Qed.

(** ** The shuffle *)

(** An array that holds each of [0 .. n - 1] once. *)
Record permutes (n : Z) (p : arr Z) : Prop := {
  pm_len : alen p = n;
  pm_range i x : aget p i = Some x → 0 ≤ x < n;
  pm_inj i j x : aget p i = Some x → aget p j = Some x → i = j;
}.

Lemma permutes_swap n p i j x y :
  permutes n p → aget p i = Some x → aget p j = Some y → permutes n (aset (aset p i y) j x).
Proof.
  intros [P1 P2 P3] Hi Hj. pose proof (aget_inv _ _ _ Hi). pose proof (aget_inv _ _ _ Hj).
  assert (∀ k, aget (aset (aset p i y) j x) k =
    if decide (j = k) then Some x else if decide (i = k) then Some y else aget p k) as E.
  { intros k. rewrite !aget_aset by (rewrite ?alen_aset; lia). done. }
  split; [by rewrite !alen_aset| |].
  - intros k z. rewrite E. repeat case_decide; intros Hz; simplify_eq; eauto.
  - intros k l z. rewrite !E. repeat case_decide; intros Hk Hl; simplify_eq; eauto.
    all: match goal with
      | Hp : ∀ i j x : Z, _, H1 : aget _ _ = Some ?v, H2 : aget _ _ = Some ?v |- _ =>
          pose proof (Hp _ _ _ H1 H2); congruence
      end.
Qed.

Lemma permutes_init n : 0 ≤ n → permutes n (abuild n 0 (λ i, i)).
Proof.
  intros Hn. split; [apply alen_abuild| |].
  - intros i x. rewrite aget_abuild. case_decide; [|done]. by intros [= <-].
  - intros i j x. rewrite !aget_abuild. repeat case_decide; try done. congruence.
Qed.

(** The order in which the slots are written. *)
Definition order (n : Z) (p : arr Z) : list Z := (λ i, default 0 (aget p i)) <$> seqZ 0 n.

Lemma permutes_order n p : permutes n p → order n p ≡ₚ seqZ 0 n.
Proof.
  intros [P1 P2 P3]. assert (∀ i, i ∈ seqZ 0 n → ∃ x, aget p i = Some x) as Hsome.
  { intros i Hi%elem_of_seqZ. apply aget_some. lia. }
  apply submseteq_length_Permutation; [|unfold order; by rewrite length_fmap].
  apply NoDup_submseteq.
  - apply NoDup_fmap_2_strong; [|apply NoDup_seqZ]. intros i j Hi Hj.
    destruct (Hsome i Hi) as [x Hx], (Hsome j Hj) as [y Hy]. rewrite Hx, Hy. simpl. intros ->. eauto.
  - intros x Hx. apply list_elem_of_fmap in Hx as (i & -> & Hi). destruct (Hsome i Hi) as [x Hx]. rewrite Hx.
    apply elem_of_seqZ. simpl. specialize (P2 _ _ Hx). lia.
Qed.

Lemma wp_shuffle n h (Q : arr Z → host → Prop) :
  1 ≤ n < 2 ^ 64 → (∀ p h', permutes n p → called h h' [] → Q p h') → wp (shuffle n) h Q.
Proof.
  intros Hn HQ. unfold shuffle. rewrite u64_small by lia.
  apply (wp_while (λ '(i, p) h1, 0 ≤ i < n ∧ permutes n p ∧ called h h1 []) (λ '(i, p), i)).
  { split; [lia|]. split; [apply permutes_init; lia|apply called_nil]. } { lia. }
  intros [i p] h1 (Hi & Hp & H1). split; [lia|]. destruct (Z.ltb_spec 0 i) as [Hlt|Hge]; [|wp_step; by apply HQ].
  pose proof (pm_len _ _ Hp) as Hlen. rewrite u64_small by lia. wp_step. apply wp_rnd; [lia|]. intros j h2 Hj H2.
  destruct (aget_some p i ltac:(lia)) as [x Hx], (aget_some p j ltac:(lia)) as [y Hy].
  wp_step. eapply wp_aread; [exact Hx|]. wp_step. eapply wp_aread; [exact Hy|].
  wp_step. apply wp_awrite; [lia|]. wp_step. apply wp_awrite; [rewrite alen_aset; lia|]. wp_step.
  split; [|lia]. split; [lia|]. split; [by apply permutes_swap|]. exact (called_trans _ _ _ _ _ H1 H2).
Qed.

(** ** Filling *)

(** Every slot is written once, slot [idx] with the directive [tag idx]. *)
Definition filled (n : Z) (tag : Z → Z * Z) (buf : Z) (cs : list nvme_passthru_cmd) : Prop :=
  ∃ l, l ≡ₚ seqZ 0 n ∧ cs = (λ idx, write_cmd buf idx (tag idx).1 (tag idx).2) <$> l.

Lemma wp_fill n tag body h (Q : Z * Z → host → Prop) :
  1 ≤ n < 2 ^ 63 → (∀ idx, body idx = do_write idx (tag idx).1 (tag idx).2) →
  (∀ d f h' cs g, calls cs f g → called h h' g → filled n tag (h_buf h) cs → Q (d, f) h') →
  wp (p ← shuffle n; count_writes n (λ i, idx ← aread p i; body idx)) h Q.
Proof.
  intros Hn Hbody HQ. wp_step. apply wp_shuffle; [lia|]. intros p h1 Hp [L1 B1].
  apply (wp_count_writes (λ i c, ∃ idx, aget p i = Some idx ∧
    c = write_cmd (h_buf h) idx (tag idx).1 (tag idx).2)); [lia| |].
  - intros i h2 Hi Hb. destruct (aget_some p i) as [idx Hidx]; [by rewrite (pm_len _ _ Hp)|].
    wp_step. eapply wp_aread; [exact Hidx|]. rewrite Hbody. apply wp_do_write. intros r h3 g Hc Hg.
    rewrite Hb, B1 in Hc. exists (write_cmd (h_buf h) idx (tag idx).1 (tag idx).2), g. split; [by exists idx|done].
  - intros d f h2 cs g Hcs [L2 B2] HR _. apply (HQ d f h2 cs g Hcs).
    { split; [rewrite L2, L1; by rewrite app_nil_r|congruence]. }
    exists (order n p). split; [by apply permutes_order|].
    apply Forall2_same_length_lookup in HR as [Hl HR]. apply list_eq. intros i. unfold order.
    rewrite !list_lookup_fmap. destruct (seqZ 0 n !! i) as [k|] eqn:Ek; simpl.
    + destruct (lookup_lt_is_Some_2 cs i) as [c Hc]; [rewrite <- Hl; by eapply lookup_lt_Some|]. rewrite Hc.
      destruct (HR i k c Ek Hc) as (idx & E1 & ->). by rewrite E1.
    + apply lookup_ge_None in Ek. apply lookup_ge_None. lia.
Qed.
End programs.

(** ** From the ioctl to the namespace *)

(** The entry the kernel puts into the submission queue for a passthrough command, and
    the command the device reads from it through [struct nvme_rw_command]. *)
Definition passthru_entry (id prp1 prp2 : Z) (p : nvme_passthru_cmd) : list Z :=
  le_split 1 (pt_opcode p) ++ le_split 1 0 ++ le_split 2 id ++ le_split 4 (pt_nsid p) ++ le_split 8 0 ++
  le_split 8 0 ++ le_split 8 prp1 ++ le_split 8 prp2 ++
  le_split 4 (pt_cdw10 p) ++ le_split 4 (pt_cdw11 p) ++ le_split 4 (pt_cdw12 p) ++ le_split 4 (pt_cdw13 p) ++
  le_split 8 0.
Definition rw_of (p : nvme_passthru_cmd) : nvme_rw_command :=
  RwCmd (pt_opcode p) (pt_nsid p) (pt_cdw10 p + 2 ^ 32 * pt_cdw11 p) (pt_cdw12 p mod 2 ^ 16)
    (pt_cdw12 p / 2 ^ 16) (pt_cdw13 p).

(** Every field of the command fits its place. *)
Record cmd_fits (p : nvme_passthru_cmd) : Prop := {
  cf_opcode : 0 ≤ pt_opcode p < 2 ^ 8;
  cf_nsid : 0 ≤ pt_nsid p < 2 ^ 32;
  cf_cdw10 : 0 ≤ pt_cdw10 p < 2 ^ 32;
  cf_cdw11 : 0 ≤ pt_cdw11 p < 2 ^ 32;
  cf_cdw12 : 0 ≤ pt_cdw12 p < 2 ^ 32;
  cf_cdw13 : 0 ≤ pt_cdw13 p < 2 ^ 32;
}.

Lemma le_split_app n k a b :
  0 ≤ a < 2 ^ (8 * Z.of_nat n) → le_split (n + k) (a + 2 ^ (8 * Z.of_nat n) * b) = le_split n a ++ le_split k b.
Proof.
  revert a. induction n as [|n IH]; intros a Ha.
  { simpl. f_equal. simpl in Ha. lia. }
  replace (8 * Z.of_nat (S n)) with (8 + 8 * Z.of_nat n) in * by lia. rewrite Z.pow_add_r in * by lia.
  cbn [Nat.add le_split app]. f_equal.
  - rewrite <- Z.mul_assoc. rewrite (Z.mul_comm (2 ^ 8)). apply Z.mod_add. lia.
  - rewrite <- Z.mul_assoc. rewrite (Z.mul_comm (2 ^ 8) (2 ^ _ * b)), Z.div_add by lia. apply IH.
    split; [apply Z.div_pos; lia|]. apply Z.div_lt_upper_bound; lia.
Qed.

Lemma rw_of_wire m a id prp1 prp2 p :
  cmd_fits p →
  let get s := fetch (mem_write a (passthru_entry id prp1 prp2 p) m) a nvme_rw_command_t [Fld s] in
  get "opcode"%string = Some (rw_opcode (rw_of p)) ∧ get "nsid"%string = Some (rw_nsid (rw_of p)) ∧
  get "slba"%string = Some (rw_slba (rw_of p)) ∧ get "length"%string = Some (rw_length (rw_of p)) ∧
  get "control"%string = Some (rw_control (rw_of p)) ∧ get "dsmgmt"%string = Some (rw_dsmgmt (rw_of p)).
Proof.
  intros [F1 F2 F3 F4 F5 F6]. cbv zeta.
  assert (le_split 4 (pt_cdw12 p) = le_split 2 (pt_cdw12 p mod 2 ^ 16) ++ le_split 2 (pt_cdw12 p / 2 ^ 16)) as E12.
  { rewrite <- (le_split_app 2 2) by (simpl; apply Z.mod_pos_bound; lia). f_equal.
    pose proof (Z.div_mod (pt_cdw12 p) (2 ^ 16)). simpl. lia. }
  assert (le_split 4 (pt_cdw10 p) ++ le_split 4 (pt_cdw11 p) = le_split 8 (pt_cdw10 p + 2 ^ 32 * pt_cdw11 p)) as E10.
  { by rewrite <- (le_split_app 4 4). }
  pose proof (Z.mod_pos_bound (pt_cdw12 p) (2 ^ 16) ltac:(lia)).
  assert (0 ≤ pt_cdw12 p / 2 ^ 16 < 2 ^ 16).
  { split; [apply Z.div_pos; lia|]. apply Z.div_lt_upper_bound; lia. }
  unfold passthru_entry. rewrite E12, <- !app_assoc, (app_assoc (le_split 4 (pt_cdw10 p))), E10.
  set (o := le_split 1 (pt_opcode p)). set (z := le_split 1 0). set (i := le_split 2 id).
  set (n := le_split 4 (pt_nsid p)). set (e8 := le_split 8 0).
  set (p1 := le_split 8 prp1). set (p2 := le_split 8 prp2). set (sl := le_split 8 (pt_cdw10 p + _)).
  set (ln := le_split 2 (pt_cdw12 p mod 2 ^ 16)). set (ct := le_split 2 (pt_cdw12 p / 2 ^ 16)).
  rewrite (fetch_aligned _ _ _ _ 0 1), (fetch_aligned _ _ _ _ 4 4), (fetch_aligned _ _ _ _ 40 8),
    (fetch_aligned _ _ _ _ 48 2), (fetch_aligned _ _ _ _ 50 2), (fetch_aligned _ _ _ _ 52 4) by by vm_compute.
  unfold rw_of. cbn [rw_opcode rw_nsid rw_slba rw_length rw_control rw_dsmgmt].
  assert (∀ l1 k v l2 off, off = Z.of_nat (length l1) → 0 ≤ v < 2 ^ (8 * Z.of_nat k) →
    mem_read (mem_write a (l1 ++ le_split k v ++ l2) m) (a + off) (Z.of_nat k) = v) as R.
  { intros l1 k v l2 off Ho Hv. rewrite (mem_read_write a l1 k v l2 m off Ho). by apply Z.mod_small. }
  split_and!; f_equal.
  - exact (R [] 1%nat (pt_opcode p) _ 0 eq_refl F1).
  - exact (R (o ++ z ++ i) 4%nat (pt_nsid p) _ 4 eq_refl F2).
  - pose proof (R (o ++ z ++ i ++ n ++ e8 ++ e8 ++ p1 ++ p2) 8%nat (pt_cdw10 p + 2 ^ 32 * pt_cdw11 p)
      (ln ++ ct ++ le_split 4 (pt_cdw13 p) ++ e8) 40 eq_refl ltac:(simpl; lia)) as E. by rewrite <- !app_assoc in E.
  - pose proof (R (o ++ z ++ i ++ n ++ e8 ++ e8 ++ p1 ++ p2 ++ sl) 2%nat (pt_cdw12 p mod 2 ^ 16)
      (ct ++ le_split 4 (pt_cdw13 p) ++ e8) 48 eq_refl ltac:(simpl; lia)) as E. by rewrite <- !app_assoc in E.
  - pose proof (R (o ++ z ++ i ++ n ++ e8 ++ e8 ++ p1 ++ p2 ++ sl ++ ln) 2%nat (pt_cdw12 p / 2 ^ 16)
      (le_split 4 (pt_cdw13 p) ++ e8) 50 eq_refl ltac:(simpl; lia)) as E. by rewrite <- !app_assoc in E.
  - pose proof (R (o ++ z ++ i ++ n ++ e8 ++ e8 ++ p1 ++ p2 ++ sl ++ ln ++ ct) 4%nat (pt_cdw13 p)
      e8 52 eq_refl F6) as E. by rewrite <- !app_assoc in E.
Qed.

(** What the device makes of a write of the programs: eight logical pages from the slot
    on, and the handle its directive names. *)
Lemma write_cmd_fits buf idx dt ds : 0 ≤ idx → cmd_fits (write_cmd buf idx dt ds).
Proof.
  intros Hi. pose proof (u64_range (idx * LBAS_PER_IO)) as H. split; cbn; try done; try apply u32_range.
  - change 4294967295 with (Z.ones 32). rewrite Z.land_ones by done. by apply Z.mod_pos_bound.
  - change (LBAS_PER_IO - 1) with 63. split; [apply Z.lor_nonneg; split; [done|apply u32_range]|].
    pose proof (u32_range (dt ≪ 20)) as Hr. destruct (decide (Z.lor 63 (u32 (dt ≪ 20)) = 0)) as [->|Hz]; [done|].
    apply Z.log2_lt_pow2; [pose proof (proj2 (Z.lor_nonneg 63 (u32 (dt ≪ 20)))); lia|].
    rewrite Z.log2_lor by lia. apply Z.max_lub_lt; [done|].
    destruct (decide (u32 (dt ≪ 20) = 0)) as [->|]; [done|]. apply Z.log2_lt_pow2; lia.
Qed.

Lemma rw_of_write buf idx dt ds :
  0 ≤ idx < 2 ^ 57 → dt ∈ [0; DTYPE_PLACEMENT] → 0 ≤ ds < 2 ^ 16 →
  rw_of (write_cmd buf idx dt ds) = RwCmd nvme_cmd_write 1 (64 * idx) 63 (16 * dt) (65536 * ds).
Proof.
  intros Hi Hdt Hds. unfold rw_of, write_cmd, LBAS_PER_IO. change (IO_BYTES / LBA_BYTES) with 64.
  rewrite (u64_small (idx * 64)) by lia. cbn [pt_opcode pt_nsid pt_cdw10 pt_cdw11 pt_cdw12 pt_cdw13]. f_equal.
  - change 4294967295 with (Z.ones 32). rewrite Z.land_ones, Z.shiftr_div_pow2 by done.
    rewrite u32_small by dlia. pose proof (Z.div_mod (idx * 64) (2 ^ 32)). lia.
  - repeat (apply elem_of_cons in Hdt as [->|Hdt]); [done|done|by apply elem_of_nil in Hdt].
  - repeat (apply elem_of_cons in Hdt as [->|Hdt]); [done|done|by apply elem_of_nil in Hdt].
  - rewrite Z.shiftl_mul_pow2 by done. rewrite u32_small by lia. lia.
Qed.

Definition tag_handle (dt ds : Z) : option Z :=
  if dt =? DTYPE_PLACEMENT then if ds <? FDP_NR_RUH then Some ds else None else Some 0.

Lemma write_placement sp buf idx dt ds :
  0 ≤ idx < 2 ^ 57 → dt ∈ [0; DTYPE_PLACEMENT] → 0 ≤ ds < 2 ^ 16 → secs_per_pg sp = 8 →
  let cmd := rw_of (write_cmd buf idx dt ds) in
  first_lpn sp cmd = 8 * idx ∧ last_lpn sp cmd = 8 * idx + 7 ∧
  placement (NH := fdp_handles) cmd = tag_handle dt ds.
Proof.
  intros Hi Hdt Hds Hsp. cbv zeta. rewrite rw_of_write by done. unfold first_lpn, last_lpn, placement, has_directive,
    placement_id, tag_handle. cbn [rw_slba rw_length rw_control rw_dsmgmt]. rewrite Hsp.
  rewrite u64_small by lia. change (@NR_RUH fdp_handles) with FDP_NR_RUH.
  replace ((65536 * ds) ≫ 16) with ds by (rewrite Z.shiftr_div_pow2 by done; dlia).
  rewrite u16_small by done. rewrite Z.leb_antisym. split_and!; [dlia|dlia|].
  repeat (apply elem_of_cons in Hdt as [->|Hdt]); [done|cbn; by destruct (ds <? _)|by apply elem_of_nil in Hdt].
Qed.

(** A namespace that accepts all of [cmds], with [free] bytes of buffer space at each. *)
Fixpoint spec_fill (sp : ssdparams) (n : Z) (c : ssd_config) (cmds : list nvme_rw_command) (free : list Z)
    (x : ns_spec) : option ns_spec :=
  match cmds, free with
  | [], _ => Some x
  | cmd :: cmds', b :: free' =>
      match spec_write (NH := fdp_handles) sp n c cmd (NsSpec (sx_handle x) b (sx_host_bytes x)) with
      | ((true, status), x') => if status =? NVME_SC_SUCCESS then spec_fill sp n c cmds' free' x' else None
      | _ => None
      end
  | _, [] => None
  end.

Lemma spec_fill_handles sp n c buf tag l free x x' k :
  (∀ idx, idx ∈ l → 0 ≤ idx < 2 ^ 57) → (∀ idx, (tag idx).1 ∈ [0; DTYPE_PLACEMENT] ∧ 0 ≤ (tag idx).2 < 2 ^ 16) →
  secs_per_pg sp = 8 →
  spec_fill sp n c ((λ idx, rw_of (write_cmd buf idx (tag idx).1 (tag idx).2)) <$> l) free x = Some x' →
  sx_handle x' k = if decide (k / 8 ∈ l) then tag_handle (tag (k / 8)).1 (tag (k / 8)).2 else sx_handle x k.
Proof.
  intros Hl Htag Hsp. revert free x. induction l as [|idx l IH]; intros free x; cbn [fmap list_fmap spec_fill].
  { intros [= <-]. rewrite decide_False; [done|]. apply not_elem_of_nil. }
  destruct free as [|b free]; [done|]. destruct (Htag idx) as [Hdt Hds].
  destruct (write_placement sp buf idx _ _ (Hl idx ltac:(left)) Hdt Hds Hsp) as (Ef & El & Ep).
  unfold spec_write. rewrite Ef, El, Ep. destruct (tt_pgs sp <=? _); [done|].
  destruct (tag_handle (tag idx).1 (tag idx).2) as [ruh|] eqn:Et; [|done]. cbn [sx_buffer].
  destruct (b <? _); [done|]. cbn [Z.eqb NVME_SC_SUCCESS]. intros Hx.
  rewrite (IH ltac:(intros i Hi; apply Hl; by right) _ _ Hx). cbn [sx_handle].
  destruct (decide (k / 8 ∈ l)) as [Hin|Hnin].
  { rewrite decide_True by by right. done. }
  unfold spec_written. destruct (decide (k / 8 ∈ idx :: l)) as [Hin'|Hnin'].
  - apply elem_of_cons in Hin' as [E|]; [|done]. rewrite E, Et.
    rewrite (proj2 (Z.leb_le _ _)), (proj2 (Z.ltb_lt _ _)) by dlia. done.
  - assert (k / 8 ≠ idx) by (intros E; apply Hnin'; rewrite E; left).
    destruct (Z.leb_spec (8 * idx) k), (Z.ltb_spec k (8 * idx + 7 + 1)); simpl; try done. exfalso. dlia.
Qed.

Lemma spec_fill_accepts sp n c buf tag l free x x' idx :
  (∀ i, i ∈ l → 0 ≤ i < 2 ^ 57) → (∀ i, (tag i).1 ∈ [0; DTYPE_PLACEMENT] ∧ 0 ≤ (tag i).2 < 2 ^ 16) →
  secs_per_pg sp = 8 →
  spec_fill sp n c ((λ i, rw_of (write_cmd buf i (tag i).1 (tag i).2)) <$> l) free x = Some x' →
  idx ∈ l → is_Some (tag_handle (tag idx).1 (tag idx).2).
Proof.
  intros Hl Htag Hsp. revert free x. induction l as [|i l IH]; intros free x; cbn [fmap list_fmap spec_fill].
  { intros _ Hi. by apply elem_of_nil in Hi. }
  destruct free as [|b free]; [done|]. destruct (Htag i) as [Hdt Hds].
  destruct (write_placement sp buf i _ _ (Hl i ltac:(left)) Hdt Hds Hsp) as (_ & _ & Ep).
  unfold spec_write. rewrite Ep. destruct (tt_pgs sp <=? _); [done|].
  destruct (tag_handle (tag i).1 (tag i).2) as [ruh|] eqn:Et; [|done]. destruct (_ <? _); [done|].
  cbn [Z.eqb NVME_SC_SUCCESS]. intros Hx Hin. apply elem_of_cons in Hin as [->|Hin]; [by rewrite Et|].
  apply (IH ltac:(intros k Hk; apply Hl; by right) _ _ Hx Hin).
Qed.

Lemma level_groups L N i j :
  1 ≤ N ≤ L → L ≤ MAX_LEVELS → 0 ≤ i → i < j < L →
  (group_of_level i L N = group_of_level j L N ↔ N - 1 ≤ i) ∧ 1 ≤ group_of_level j L N ≤ N.
Proof.
  unfold MAX_LEVELS. intros HN HL Hi Hj. unfold group_of_level. rewrite !u32_small by lia. repeat case_match; bool_prop; lia.
Qed.

(** ** The programs *)

Section fills.
Context `{MA : !Machine}.

(** A run that issues a write to each of [tot] slots once, slot [idx] with [tag idx]: in
    the order of some permutation every slot's write is tried until it is accepted or has
    been refused 100001 times, and nothing else is issued.  It returns 0 exactly when all
    writes were accepted, and otherwise 1; a namespace that has accepted them holds each
    page behind the handle of its slot. *)
Definition fills_slots (tot buf : Z) (tag : Z → Z * Z) (r : Z) (g : ioctl_log) : Prop :=
  (r = 0 ∨ r = 1) ∧
  (∃ l f, l ≡ₚ seqZ 0 tot ∧ let cs := (λ idx, write_cmd buf idx (tag idx).1 (tag idx).2) <$> l in
    calls cs f g ∧ accepted g `sublist_of` cs ∧ (r = 0 ↔ accepted g = cs)) ∧
  ∀ sp n c free x x' k, r = 0 → secs_per_pg sp = 8 →
    spec_fill sp n c (rw_of <$> accepted g) free x = Some x' →
    (∀ idx, 0 ≤ idx < tot → is_Some (tag_handle (tag idx).1 (tag idx).2)) ∧
    sx_handle x' k = if decide (0 ≤ k < 8 * tot) then tag_handle (tag (k / 8)).1 (tag (k / 8)).2 else sx_handle x k.

Lemma filled_slots tot buf tag cs f g :
  tot < 2 ^ 57 → (∀ idx, (tag idx).1 ∈ [0; DTYPE_PLACEMENT] ∧ 0 ≤ (tag idx).2 < 2 ^ 16) →
  calls cs f g → filled tot tag buf cs → fills_slots tot buf tag (if f =? 0 then 0 else 1) g.
Proof.
  intros Htot Htag Hc (l & Hl & ->). destruct (calls_accepted _ _ _ Hc) as (H0 & Hsub & Hall & Hlen). split; [|split].
  - destruct (f =? 0); [by left|by right].
  - exists l, f. split; [done|]. cbv zeta. split; [done|]. split; [done|].
    destruct (Z.eqb_spec f 0) as [Hf|Hf]; [split; [by intros _; apply Hall|done]|].
    split; [done|]. intros E. rewrite E in Hlen. lia.
  - intros sp n c free x x' k Hr Hsp Hx. destruct (Z.eqb_spec f 0) as [Hf|]; [|done].
    rewrite (Hall Hf), <- list_fmap_compose in Hx.
    assert (∀ idx, idx ∈ l → 0 ≤ idx < 2 ^ 57) as Hrange by (intros idx; rewrite Hl, elem_of_seqZ; lia).
    split.
    { intros idx Hi. apply (spec_fill_accepts sp n c buf tag l free x x'); [done..|].
      rewrite Hl, elem_of_seqZ. lia. }
    rewrite (spec_fill_handles sp n c buf tag l free x x' k); [|done..|exact Hx].
    assert (k / 8 ∈ l ↔ 0 ≤ k < 8 * tot) as E; [|by rewrite (decide_ext _ _ _ _ E)].
    rewrite Hl, elem_of_seqZ. split; intros; dlia.
Qed.

Lemma total_ios_range d ws : 0 < d < 2 ^ 63 → 1 ≤ ws ≤ 99 → 0 ≤ total_ios d ws < 2 ^ 48.
Proof.
  intros Hd Hw. unfold total_ios, LBAS_PER_IO. change (IO_BYTES / LBA_BYTES) with 64. unfold LBA_BYTES.
  assert (0 ≤ d / 512 / 64 < 2 ^ 48) as Hq by dlia.
  set (q := d / 512 / 64) in *. clearbody q. assert (0 ≤ q * ws ≤ q * 99) as Hm by nia.
  rewrite u64_small by lia. dlia.
Qed.
Lemma clamp_ws_range ws : 1 ≤ clamp_ws ws ≤ 99.
Proof. unfold clamp_ws. repeat case_match; bool_prop; lia. Qed.

(** What a filling run of either program is given. *)
Record fill_args (a : args) (ws_opt : nat) (tot buf : Z) : Prop := {
  fa_mode : is_fill a = true;
  fa_dev : ∃ d, a_dev_bytes a = Some d ∧ 0 < d < 2 ^ 63 ∧ tot = total_ios d (clamp_ws (opt a ws_opt 90));
  fa_tot : 1 ≤ tot;
  fa_buf : alloc IO_BYTES = Some buf;
  fa_perm : alloc (u64 (tot * 8)) ≠ None;
}.

Lemma fill_runs tot buf tag body h :
  1 ≤ tot < 2 ^ 57 → (∀ idx, body idx = do_write idx (tag idx).1 (tag idx).2) →
  (∀ idx, (tag idx).1 ∈ [0; DTYPE_PLACEMENT] ∧ 0 ≤ (tag idx).2 < 2 ^ 16) → h_buf h = buf →
  wp (r ← (p ← shuffle tot; count_writes tot (λ i, idx ← aread p i; body idx)); mret (if r.2 =? 0 then 0 else 1))
    h (λ r h', ∃ g, called h h' g ∧ fills_slots tot buf tag r g).
Proof.
  intros Ht Hbody Htag <-. wp_step. apply (wp_fill tot tag); [lia|done|]. intros d f h' cs g Hc Hg Hf. wp_step.
  exists g. split; [done|]. by eapply filled_slots; [lia|done|exact Hc|].
Qed.

Lemma fdp_workload_fills a tot buf h :
  fill_args a 3 tot buf →
  wp (fdp_workload (Some a)) h (λ r h', ∃ g, h_log h' = h_log h ++ g ∧
    fills_slots tot buf (λ idx, if is_fdp a
      then (DTYPE_PLACEMENT, if idx <? (hot_cold tot (opt a 0 20)).1 then 1 else 2) else (0, 0)) r g).
Proof.
  intros [Hm (d & Hd & Hdr & ->) Ht Hb Hp]. pose proof (total_ios_range d _ Hdr (clamp_ws_range (opt a 3 90))).
  unfold fdp_workload. rewrite Hd. rewrite (proj2 (Z.leb_gt _ _)) by lia.
  destruct (hot_cold _ (opt a 0 20)) as [hot cold]. rewrite Hb, Hm. wp_step. wp_step. wp_step. unfold srand. wp_step.
  destruct (alloc (u64 _)) as [perm|]; [|done]. unfold hot_cold_fill.
  eapply wp_mono; [eapply (fill_runs _ buf (λ idx, if is_fdp a
    then (DTYPE_PLACEMENT, if idx <? hot then 1 else 2) else (0, 0)))|].
  - lia.
  - intros idx. by destruct (is_fdp a).
  - intros idx. destruct (is_fdp a); simpl; (split; [|destruct (idx <? hot); lia]); [right; left|left].
  - done.
  - intros r h' (g & [Hg _] & Hs). exists g. by split.
Qed.

(** The arguments of src/lsm_workload.c: fan-out, levels, handles. *)
Definition lsm_T (a : args) : Z := clamp_T (opt a 0 4).
Definition lsm_L (a : args) : Z := clamp_L (opt a 1 4).
Definition lsm_N (a : args) : Z := clamp_N (opt a 2 (opt a 1 4)) (lsm_L a).
Definition lsm_tag (a : args) (tot idx : Z) : Z * Z :=
  if is_fdp a
  then (DTYPE_PLACEMENT,
        group_of_level (level_of (lsm_bands tot (lsm_T a) (lsm_L a)) idx 0 (lsm_L a - 1)) (lsm_L a) (lsm_N a))
  else (0, 0).

Lemma lsm_ranges a : 2 ≤ lsm_T a ∧ 1 ≤ lsm_L a ≤ MAX_LEVELS ∧ 1 ≤ lsm_N a ≤ lsm_L a.
Proof.
  assert (1 ≤ lsm_L a ≤ MAX_LEVELS) as HL.
  { unfold lsm_L, clamp_L, MAX_LEVELS. repeat case_match; bool_prop; lia. }
  split; [unfold lsm_T, clamp_T; case_match; bool_prop; lia|]. split; [done|].
  unfold lsm_N, clamp_N. repeat case_match; bool_prop; lia.
Qed.
Lemma level_of_range b idx lvl last :
  (lvl ≤ level_of b idx lvl last < lvl + Z.of_nat (length b)) ∨ level_of b idx lvl last = last.
Proof.
  revert lvl. induction b as [|[s o] b IH]; intros lvl; cbn [level_of length]; [by right|].
  case_match; [left; lia|]. destruct (IH (lvl + 1)); [left; lia|by right].
Qed.
Lemma group_range level L N :
  1 ≤ N ≤ L → L ≤ MAX_LEVELS → 0 ≤ level < L → 1 ≤ group_of_level level L N ≤ N.
Proof.
  unfold MAX_LEVELS. intros HN HL Hl. unfold group_of_level. rewrite !u32_small by lia. repeat case_match; bool_prop; lia.
Qed.

Section lsm.
Context (a : args) (tot buf : Z).
Hypothesis Hargs : fill_args a 4 tot buf.
Hypothesis Hbound : tot * lsm_T a ^ lsm_L a < 2 ^ 53.
Let bds := lsm_bands tot (lsm_T a) (lsm_L a).

Lemma lsm_level idx : 0 ≤ level_of bds idx 0 (lsm_L a - 1) < lsm_L a.
Proof using Hargs Hbound.
  destruct (lsm_ranges a) as (HT & HL & HN). pose proof (fa_tot _ _ _ _ Hargs).
  pose proof (lsm_bands_length tot _ _ HL HT ltac:(done) Hbound) as Hlen. fold bds in Hlen.
  destruct (level_of_range bds idx 0 (lsm_L a - 1)); lia.
Qed.

Lemma lsm_tag_ok idx :
  (lsm_tag a tot idx).1 ∈ [0; DTYPE_PLACEMENT] ∧ 0 ≤ (lsm_tag a tot idx).2 < 2 ^ 16.
Proof using Hargs Hbound.
  destruct (lsm_ranges a) as (_ & HL & HN). unfold MAX_LEVELS in HL. unfold lsm_tag.
  destruct (is_fdp a); cbn [fst snd]; [|split; [left|lia]]. split; [right; left|].
  pose proof (group_range _ _ _ HN (proj2 HL) (lsm_level idx)). fold bds. lia.
Qed.

Lemma lsm_workload_fills h :
  Forall (λ band, MIN_BAND_IOS ≤ band.2) bds →
  wp (lsm_workload (Some a)) h (λ r h', ∃ g, h_log h' = h_log h ++ g ∧ fills_slots tot buf (lsm_tag a tot) r g).
Proof using Hargs Hbound.
  intros Hmin. pose proof lsm_tag_ok as Htag. pose proof Hargs as [Hm (d & Hd & Hdr & Et) Ht Hb Hp].
  pose proof (total_ios_range d _ Hdr (clamp_ws_range (opt a 4 90))) as Hr. rewrite <- Et in Hr.
  unfold lsm_workload. rewrite Hd. rewrite (proj2 (Z.leb_gt _ _)) by lia. rewrite <- Et.
  fold (lsm_T a) (lsm_L a). fold (lsm_N a). fold bds.
  assert (existsb (λ band, band.2 <? MIN_BAND_IOS) bds = false) as ->.
  { clear -Hmin. induction Hmin as [|x l Hx _ IH]; [done|]. simpl. rewrite IH, (proj2 (Z.ltb_ge _ _) Hx). done. }
  rewrite Hb, Hm. wp_step. wp_step. wp_step. unfold srand. wp_step.
  destruct (alloc (u64 _)) as [perm|]; [|done]. unfold lsm_fill.
  eapply wp_mono; [eapply (fill_runs _ buf (lsm_tag a tot))|].
  - lia.
  - intros idx. unfold lsm_tag. fold bds. by destruct (is_fdp a).
  - done.
  - done.
  - intros r h' (g & [Hg _] & Hs). exists g. by split.
Qed.

(** The handle of a slot is that of its level. *)
Lemma lsm_tag_band lvl start ios idx :
  is_fdp a = true → bds !! Z.to_nat lvl = Some (start, ios) → 0 ≤ lvl → start ≤ idx < start + ios →
  lsm_tag a tot idx = (DTYPE_PLACEMENT, group_of_level lvl (lsm_L a) (lsm_N a)) ∧ 0 ≤ idx < tot.
Proof using Hargs Hbound.
  intros Hf Hb Hl Hi. destruct (lsm_ranges a) as (HT & HL & HN). pose proof (fa_tot _ _ _ _ Hargs) as Ht.
  destruct (lsm_bands_row tot _ _ HL HT Ht Hbound) as [Hrow Hsum]. fold bds in Hrow, Hsum.
  pose proof (lsm_bands_length tot _ _ HL HT Ht Hbound) as Hlen. fold bds in Hlen.
  pose proof (lookup_lt_Some _ _ _ Hb).
  destruct (lsm_bands_spec tot _ _ HL HT Ht Hbound lvl ltac:(lia)) as (s & o & E & Hok & Ho & _).
  fold bds in E, Hok. rewrite Hb in E. injection E as <- <-.
  assert (0 ≤ start ∧ start + ios ≤ tot) as [H0 H1].
  { pose proof (take_drop_middle _ _ _ Hb) as Ed. rewrite <- Ed, zsum_app in Hsum. cbn [zsum snd] in Hsum.
    assert (∀ x, x ∈ bds → 0 ≤ snd x) as Hpos.
    { intros [s1 o1] [k Hk]%list_elem_of_lookup. pose proof (lookup_lt_Some _ _ _ Hk).
      destruct (lsm_bands_spec tot _ _ HL HT Ht Hbound (Z.of_nat k) ltac:(lia)) as (s & o & E & _ & Ho1 & _).
      fold bds in E. rewrite Nat2Z.id, Hk in E. by injection E as -> ->. }
    pose proof (zsum_nonneg snd (take (Z.to_nat lvl) bds)) as P1.
    pose proof (zsum_nonneg snd (drop (S (Z.to_nat lvl)) bds)) as P2.
    assert (0 ≤ zsum snd (take (Z.to_nat lvl) bds)).
    { apply P1. intros x Hx. apply Hpos. rewrite <- (take_drop (Z.to_nat lvl) bds). apply elem_of_app. by left. }
    assert (0 ≤ zsum snd (drop (S (Z.to_nat lvl)) bds)).
    { apply P2. intros x Hx. apply Hpos. rewrite <- (take_drop (S (Z.to_nat lvl)) bds). apply elem_of_app. by right. }
    lia. }
  split; [|lia]. unfold lsm_tag. rewrite Hf. fold bds. do 2 f_equal.
  rewrite (level_of_band bds 0 (Z.to_nat lvl) start ios idx 0); [lia|done|lia|done|lia|done].
Qed.
End lsm.
End fills.

(** ** The theorems *)

(** C29: the level bands of lsm_workload, computed in double precision, are the exact
    integer ones: contiguous from slot 0, level i has floor(tot * T^i / sum of the
    powers) slots, the last level ends at the last slot of the working set, and the
    program's search finds the level of every slot. *)
Theorem lsm_bands_exact tot T L :
  1 ≤ L ≤ MAX_LEVELS → 2 ≤ T → 1 ≤ tot → tot * T ^ L < 2 ^ 53 →
  length (lsm_bands tot T L) = Z.to_nat L ∧
  (∀ i, 0 ≤ i < L → ∃ start ios, lsm_bands tot T L !! Z.to_nat i = Some (start, ios) ∧
    band_ok tot T L (lsm_bands tot T L) i start ios ∧
    ∀ idx, start ≤ idx < start + ios → level_of (lsm_bands tot T L) idx 0 (L - 1) = i) ∧
  zsum snd (lsm_bands tot T L) = tot.
Proof.
  intros HL HT Htot Hb. destruct (lsm_bands_row tot T L HL HT Htot Hb) as [Hrow Hsum].
  split; [by apply lsm_bands_length|]. split; [|done]. intros i Hi.
  destruct (lsm_bands_spec tot T L HL HT Htot Hb i Hi) as (start & ios & E & Hok). exists start, ios.
  split; [done|]. split; [done|]. intros idx Hidx. destruct Hok as (Hst & _).
  assert (0 ≤ start).
  { rewrite Hst. apply zsum_nonneg. intros [s1 o1] Hx. assert ((s1, o1) ∈ lsm_bands tot T L) as [k Hk]%list_elem_of_lookup.
    { rewrite <- (take_drop (Z.to_nat i) (lsm_bands tot T L)). apply elem_of_app. by left. }
    pose proof (lookup_lt_Some _ _ _ Hk) as Hlt. rewrite lsm_bands_length in Hlt by done.
    destruct (lsm_bands_spec tot T L HL HT Htot Hb (Z.of_nat k) ltac:(lia)) as (s & o & E1 & _ & Ho & _).
    rewrite Nat2Z.id, Hk in E1. by injection E1 as -> ->. }
  rewrite (level_of_band _ 0 (Z.to_nat i) start ios idx 0); [lia|done|lia|done|done|done].
Qed.

Lemma lsm_bands_exact_witness :
  lsm_bands 1000 4 4 = [(0, 11); (11, 47); (58, 188); (246, 754)] ∧ zsum snd (lsm_bands 1000 4 4) = 1000.
Proof. split; [by vm_compute|]. apply (lsm_bands_exact 1000 4 4); [done|lia|lia|by vm_compute]. Defined.

(** C28: a fill of lsm_workload with placement returns after issuing one write to every
    slot of the working set, in a random order, each tried until it is accepted or has
    been refused 100001 times; it returns 0 exactly when all were accepted; a namespace
    that accepted these writes then holds every page behind the handle of its level, and
    two levels share a handle exactly if both are among the coldest, beyond the N - 1
    hottest.  With eight handles asked for, no namespace accepts all writes: the handles
    of the device are 0 to 7, those of the program 1 to 8. *)
Theorem lsm_levels_separated `{MA : !Machine} a tot buf h :
  fill_args a 4 tot buf → is_fdp a = true → tot * lsm_T a ^ lsm_L a < 2 ^ 53 →
  Forall (λ band, MIN_BAND_IOS ≤ band.2) (lsm_bands tot (lsm_T a) (lsm_L a)) →
  ∃ r h' g, lsm_workload (Some a) h = Ok (r, h') ∧ h_log h' = h_log h ++ g ∧
    fills_slots tot buf (lsm_tag a tot) r g ∧
    (∀ sp n c free x x', r = 0 → secs_per_pg sp = 8 → spec_fill sp n c (rw_of <$> accepted g) free x = Some x' →
      lsm_N a < 8 ∧ ∀ lvl start ios k, 0 ≤ lvl →
        lsm_bands tot (lsm_T a) (lsm_L a) !! Z.to_nat lvl = Some (start, ios) →
        8 * start ≤ k < 8 * (start + ios) → sx_handle x' k = Some (group_of_level lvl (lsm_L a) (lsm_N a))) ∧
    ∀ i j, 0 ≤ i → i < j < lsm_L a →
      (group_of_level i (lsm_L a) (lsm_N a) = group_of_level j (lsm_L a) (lsm_N a) ↔ lsm_N a - 1 ≤ i).
Proof.
  intros Hargs Hf Hb Hmin. destruct (lsm_ranges a) as (HT & HL & HN). pose proof (fa_tot _ _ _ _ Hargs) as Ht.
  pose proof (lsm_workload_fills a tot buf Hargs Hb h Hmin) as Hw.
  apply wp_Ok in Hw as (r & h' & Heq & g & Hg & Hs). exists r, h', g. do 3 (split; [done|]). split.
  2:{ intros i j Hi Hj. by apply level_groups; [done|lia|done|done]. }
  intros sp n c free x x' Hr Hsp Hx. destruct Hs as (_ & _ & Hs).
  assert (∀ lvl start ios k, 0 ≤ lvl → lsm_bands tot (lsm_T a) (lsm_L a) !! Z.to_nat lvl = Some (start, ios) →
    8 * start ≤ k < 8 * (start + ios) → group_of_level lvl (lsm_L a) (lsm_N a) < 8 ∧
    sx_handle x' k = Some (group_of_level lvl (lsm_L a) (lsm_N a))) as H.
  { intros lvl start ios k Hl Hband Hk.
    destruct (lsm_tag_band a tot buf Hargs Hb lvl start ios (k / 8) Hf Hband Hl ltac:(dlia)) as [Etag Hidx].
    destruct (Hs sp n c free x x' k Hr Hsp Hx) as [Hall ->]. specialize (Hall (k / 8) Hidx).
    rewrite decide_True by dlia. rewrite Etag in *. cbn [fst snd] in *. unfold tag_handle in *.
    cbn [Z.eqb DTYPE_PLACEMENT Pos.eqb] in *. change FDP_NR_RUH with 8 in *.
    destruct (Z.ltb_spec (group_of_level lvl (lsm_L a) (lsm_N a)) 8); [done|by destruct Hall]. }
  split; [|intros; by eapply H].
  destruct (lsm_bands_spec tot _ _ HL HT Ht Hb (lsm_L a - 1) ltac:(lia)) as (start & ios & E & _).
  assert (MIN_BAND_IOS ≤ ios) as Hios by (by apply (proj1 (Forall_lookup _ _) Hmin _ _ E)). unfold MIN_BAND_IOS in Hios.
  destruct (H (lsm_L a - 1) start ios (8 * start) ltac:(lia) E ltac:(lia)) as [Hg8 _].
  unfold group_of_level in Hg8. unfold MAX_LEVELS in HL. rewrite !u32_small in Hg8 by lia. repeat case_match; bool_prop; lia.
Qed.

(** A kernel that accepts every command, a short device. *)
#[local] Program Instance quiet_machine : Machine := {|
  rand_seq seed i := (seed + 7 * i) mod 2 ^ 31;
  ioctl_ok _ _ := true;
  alloc _ := Some 0x1000;
|}.
Next Obligation. intros seed i. pose proof (Z.mod_pos_bound (seed + 7 * i) (2 ^ 31)). unfold RAND_MAX. lia. Qed.
Definition example_args : args := Args (Some (30 * IO_BYTES)) "fillfdp" 0 [2; 2; 2].
Definition example_host : host := Host 1 0 0 [].

Example lsm_run : ∃ h', lsm_workload (Some example_args) example_host = Ok (0, h') ∧ length (h_log h') = 27%nat.
Proof. eexists. split; vm_compute; reflexivity. Qed.

Lemma lsm_levels_separated_witness :
  ∃ r h' g, lsm_workload (Some example_args) example_host = Ok (r, h') ∧ h_log h' = [] ++ g ∧
    fills_slots 27 0x1000 (lsm_tag example_args 27) r g.
Proof.
  destruct (lsm_levels_separated example_args 27 0x1000 example_host) as (r & h' & g & H1 & H2 & H3 & _).
  - split; [done| |done|done|done]. exists (30 * IO_BYTES). split; [done|]. split; [by vm_compute|done].
  - done.
  - by vm_compute.
  - replace (lsm_bands 27 (lsm_T example_args) (lsm_L example_args)) with [(0, 9); (9, 18)] by by vm_compute.
    repeat (apply Forall_cons; split; [by vm_compute|]). by apply Forall_nil.
  - exists r, h', g. exact (conj H1 (conj H2 H3)).
Defined.

(** ** Churn *)

(** A write in the band of some level, tagged with it. *)
Definition in_band (b : list (Z * Z)) (L N : Z) (fdp : bool) (buf : Z) (c : nvme_passthru_cmd) : Prop :=
  ∃ lvl start ios idx, b !! Z.to_nat lvl = Some (start, ios) ∧ start ≤ idx < start + ios ∧
    c = write_cmd buf idx (if fdp then DTYPE_PLACEMENT else 0) (if fdp then group_of_level lvl L N else 0).

(** Each of the [n] writes of a churn run goes to a slot of some level's band and
    carries the directive of that level. *)
Lemma lsm_churn_in_band `{MA : !Machine} n b L N fdp h :
  0 ≤ n → 1 ≤ L → length b = Z.to_nat L → Forall (λ band, 0 < band.2) b →
  (∀ i start ios, b !! i = Some (start, ios) → 0 ≤ start ∧ start + ios < 2 ^ 64) →
  wp (lsm_churn n b L N fdp) h (λ '(d, f) h', d + f = n ∧ ∃ cs g, calls cs f g ∧ called h h' g ∧
    length cs = Z.to_nat n ∧
    Forall (in_band b L N fdp (h_buf h)) cs).
Proof.
  intros Hn HL Hlen Hpos Hrange. unfold lsm_churn.
  apply (wp_count_writes (λ _, in_band b L N fdp (h_buf h))); [done| |].
  - intros i h1 Hi Hb. wp_step. apply wp_rnd; [lia|]. intros lvl h2 Hlvl [L2 B2].
    destruct (lookup_lt_is_Some_2 b (Z.to_nat lvl)) as [[start ios] E]; [lia|].
    wp_step. eapply wp_deref; [exact E|]. wp_step. cbn [fst snd].
    assert (0 < ios) as Ho by (apply (proj1 (Forall_lookup _ _) Hpos _ _ E)).
    destruct (Hrange _ _ _ E) as [Hs He].
    apply wp_rnd; [done|]. intros off h3 Hoff [L3 B3]. rewrite u64_small by lia. apply wp_do_write.
    intros r h4 g Hc [L4 B4]. rewrite B3, B2, Hb in Hc. eexists _, g. split; [|split; [exact Hc|]].
    + exists lvl, start, ios, (start + off). split; [done|]. split; [lia|done].
    + split; [|congruence]. by rewrite L4, L3, L2, !app_nil_r.
  - intros d f h' cs g Hc Hg HR Hdf. split; [done|]. exists cs, g. do 2 (split; [done|]). split.
    + apply Forall2_length in HR. by rewrite <- HR, length_seqZ.
    + apply Forall_forall. intros c Hc'. apply list_elem_of_lookup in Hc' as [k Hk].
      by destruct (Forall2_lookup_r _ _ _ _ _ HR Hk) as (? & _ & ?).
Qed.

(** The hot and the cold region split the working set, unless the hot share is 100
    percent or more: then the cold writes leave it. *)
Lemma hot_cold_split tot pct :
  2 ≤ tot < 2 ^ 57 → 0 ≤ pct < 100 →
  let '(hot, cold) := hot_cold tot pct in 1 ≤ hot ∧ 1 ≤ cold ∧ hot + cold = tot.
Proof.
  intros Ht Hp. unfold hot_cold. assert (0 ≤ tot * pct ≤ tot * 99) as Hb by nia.
  rewrite (u64_small (tot * pct)) by lia.
  assert (0 ≤ tot * pct / 100 < tot) as Hq.
  { split; [apply Z.div_pos; lia|]. apply Z.div_lt_upper_bound; lia. }
  destruct (Z.eqb_spec (tot * pct / 100) 0) as [E|E].
  - rewrite u64_small by lia. destruct (Z.eqb_spec (tot - 1) 0); lia.
  - rewrite u64_small by lia. destruct (Z.eqb_spec (tot - tot * pct / 100) 0); lia.
Qed.
Lemma hot_cold_overflow tot : 1 ≤ tot < 2 ^ 56 → hot_cold tot 100 = (tot, 1) ∧ hot_cold tot 200 = (2 * tot, 2 ^ 64 - tot).
Proof.
  intros Ht. unfold hot_cold. rewrite (u64_small (tot * 100)), (u64_small (tot * 200)) by lia.
  rewrite <- (Z.div_unique_exact (tot * 100) 100 tot), <- (Z.div_unique_exact (tot * 200) 100 (2 * tot)) by lia.
  rewrite (proj2 (Z.eqb_neq tot 0)), (proj2 (Z.eqb_neq (2 * tot) 0)) by lia. rewrite Z.sub_diag. split; [done|].
  replace (u64 (tot - 2 * tot)) with (2 ^ 64 - tot); [by rewrite (proj2 (Z.eqb_neq _ 0)) by lia|].
  unfold u64. apply (Z.mod_unique _ _ (-1)); lia.
Qed.
