(* ===== verification/Driver.v ===== *)
(** * The driver: parameters, namespaces, dispatcher, procfs (src/main.c)

    Loading the parameters, giving the storage area to the namespaces, the dispatcher's
    loop and the files under /proc/nvmev.  What the kernel answers is the class
    [Kernel]. *)

From Stdlib Require Import ZArith String Ascii.
From stdpp Require Import base numbers list gmap.
From S2P Require Import Prelude Config SimpleFtl Io.

#[local] Open Scope Z_scope.

(** What the kernel answers: the memory map of the firmware, whether the storage area
    can be mapped, the bus be created, the DMA channel be taken. *)
Class Kernel : Type := {
  e820_mapped_any : Z → Z → Z → bool;
  storage_maps : bool;
  bus_scans : bool;
  dma_chan_set : bool;
}.
Definition E820_TYPE_RAM : Z := 1.
Definition E820_TYPE_RESERVED : Z := 2.

Definition EPERM : Z := 1.
Definition EIO : Z := 5.
Definition EINVAL : Z := 22.

(** ** Module parameters *)

Record params : Type := Params {
  p_memmap_start : Z;
  p_memmap_size : Z;
  p_read_time : Z;
  p_read_delay : Z;
  p_read_trailing : Z;
  p_write_time : Z;
  p_write_delay : Z;
  p_write_trailing : Z;
  p_nr_io_units : Z;
  p_io_unit_shift : Z;
  p_cpus : option string;
}.
Definition default_params : params := Params 0 0 1 1 0 1 1 0 8 12 None.

(** [struct nvmev_config]; the fields of the unit model are those of [SimpleFtl]. *)
Record driver_config : Type := DriverConfig {
  dc_memmap_start : Z;
  dc_memmap_size : Z;
  dc_storage_start : Z;
  dc_units : nvmev_config;
  dc_cpu_nr_dispatcher : Z;
  dc_nr_io_workers : Z;
  dc_cpu_nr_io_workers : arr Z;
}.

Section params.
Context `{!Kernel}.

Definition validate_configs_arch (p : params) : Z :=
  let resv_start_bytes := p_memmap_start p in
  let resv_end_bytes := u64 (resv_start_bytes + p_memmap_size p - 1) in
  if e820_mapped_any resv_start_bytes resv_end_bytes E820_TYPE_RAM then - EPERM
  else if negb (e820_mapped_any resv_start_bytes resv_end_bytes E820_TYPE_RESERVED) then - EPERM
  else 0.

Definition validate_configs (p : params) : Z :=
  if p_memmap_start p =? 0 then - EINVAL
  else if p_memmap_size p =? 0 then - EINVAL
  else if p_memmap_size p <=? MB 1 then - EINVAL
  else if negb (validate_configs_arch p =? 0) then - EPERM
  else if (p_nr_io_units p =? 0) || (p_io_unit_shift p =? 0) then - EINVAL
  else if p_read_time p =? 0 then - EINVAL
  else if p_write_time p =? 0 then - EINVAL
  else 0.

(** simple_strtol in base 10: an optional sign and the digits up to the first other
    character. *)
Definition digit (c : ascii) : option Z :=
  let n := Z.of_nat (nat_of_ascii c) in if (48 <=? n) && (n <=? 57) then Some (n - 48) else None.
Fixpoint digits (s : string) (acc : Z) : Z :=
  match s with
  | EmptyString => acc
  | String c s' => match digit c with Some d => digits s' (acc * 10 + d) | None => acc end
  end.
Definition strtol (s : string) : Z :=
  match s with
  | String "-"%char s' => - digits s' 0
  | _ => digits s 0
  end.

(** The tokens strsep cuts at commas. *)
Fixpoint tokens (s : string) : list string :=
  match s with
  | EmptyString => [EmptyString]
  | String c s' =>
      if Ascii.eqb c ","%char then EmptyString :: tokens s'
      else match tokens s' with
           | t :: ts => String c t :: ts
           | [] => [String c EmptyString]
           end
  end.

(** The first CPU is the dispatcher's, each other one a worker's; the array of the
    workers' CPUs has 32 cells and is not checked. *)
Fixpoint load_cpus (first : bool) (cpus : list string) (c : driver_config) : res driver_config :=
  match cpus with
  | [] => Ok c
  | cpu :: cpus' =>
      let cpu_nr := u32 (strtol cpu) in
      if first then
        load_cpus false cpus' (DriverConfig (dc_memmap_start c) (dc_memmap_size c) (dc_storage_start c) (dc_units c)
          cpu_nr (dc_nr_io_workers c) (dc_cpu_nr_io_workers c))
      else if in_range 32 (dc_nr_io_workers c) then
        load_cpus false cpus' (DriverConfig (dc_memmap_start c) (dc_memmap_size c) (dc_storage_start c) (dc_units c)
          (dc_cpu_nr_dispatcher c) (dc_nr_io_workers c + 1)
          (aset (dc_cpu_nr_io_workers c) (dc_nr_io_workers c) cpu_nr))
      else Fault OOPS
  end.

(** [table] is the part of the area taken for the mapping table of a key-value build. *)
Definition load_configs (table : Z) (p : params) : res (option driver_config) :=
  if validate_configs p <? 0 then Ok None
  else
    let memmap_size := u64 (p_memmap_size p - table) in
    let units := NvmevConfig (u64 (memmap_size - MB 1)) (p_nr_io_units p) (p_io_unit_shift p)
      (p_read_delay p) (p_read_time p) (p_read_trailing p)
      (p_write_delay p) (p_write_time p) (p_write_trailing p) in
    let c := DriverConfig (p_memmap_start p) memmap_size (u64 (p_memmap_start p + MB 1)) units
      (u32 (-1)) 0 (anew 32 0) in
    match load_cpus true (match p_cpus p with Some s => tokens s | None => [] end) c with
    | Ok c' => Ok (Some c')
    | Fault e => Fault e
    end.

(** ** Namespaces *)

(** A namespace as it is handed to the initialisation of its layer. *)
Record ns_place : Type := NsPlace {
  np_id : Z;
  np_type : ssd_type;
  np_size : Z;
  np_addr : Z;
}.

(** [types] and [caps] are the tables ns_ssd_type and ns_capacity; capacity 0 means all
    that is left. *)
Fixpoint place_namespaces (ids : list Z) (types : arr ssd_type) (caps : arr Z) (remaining_capacity ns_addr : Z)
    : res (list ns_place) :=
  match ids with
  | [] => Ok []
  | i :: ids' =>
      match aget types i, aget caps i with
      | Some type, Some cap =>
          let size := if cap =? 0 then remaining_capacity else Z.min cap remaining_capacity in
          match place_namespaces ids' types caps (u64 (remaining_capacity - size)) (u64 (ns_addr + size)) with
          | Ok l => Ok (NsPlace i type size ns_addr :: l)
          | Fault e => Fault e
          end
      | _, _ => Fault OOPS
      end
  end.
Definition namespace_places (nr_ns : Z) (types : arr ssd_type) (caps : arr Z) (storage_size storage_mapped : Z)
    : res (list ns_place) :=
  place_namespaces (seqZ 0 nr_ns) types caps storage_size storage_mapped.
End params.

(** ** The dispatcher *)

Section dispatcher.
Context {S : Type} (proc_bars proc_dbs : M S bool) (jiffies : Z → Z) (HZ : Z).

Definition CONFIG_NVMEVIRT_IDLE_TIMEOUT : Z := 60.
Inductive pause : Type := SleepJiffy | Resched.

(** [time_after(a, b)] compares across the wrap of the counter. *)
Definition time_after (a b : Z) : bool := 2 ^ 63 <=? u64 (b - a).

(** One round of the loop: the state of the device, the number of readings of the clock
    and the time something was last found. *)
Definition dispatcher_round : M (S * Z * Z) pause := λ '(s, t, last),
  match proc_bars s with
  | Fault e => Fault e
  | Ok (found1, s1) =>
      let '(t1, last1) := if found1 : bool then (t + 1, jiffies t) else (t, last) in
      match proc_dbs s1 with
      | Fault e => Fault e
      | Ok (found2, s2) =>
          let '(t2, last2) := if found2 : bool then (t1 + 1, jiffies t1) else (t1, last1) in
          let idle := time_after (jiffies t2) (u64 (last2 + CONFIG_NVMEVIRT_IDLE_TIMEOUT * HZ)) in
          Ok (if negb (CONFIG_NVMEVIRT_IDLE_TIMEOUT =? 0) && idle then SleepJiffy else Resched,
              (s2, t2 + 1, last2))
      end
  end.
End dispatcher.

(** ** Statistics (/proc/nvmev/stat) *)

Definition get_nr_entries (dbs old_dbs : arr Z) (dbs_idx queue_size : Z) : res Z :=
  match aget dbs dbs_idx, aget old_dbs dbs_idx with
  | Some d, Some o => let diff := s32 (d - o) in Ok (if diff <? 0 then s32 (diff + queue_size) else diff)
  | _, _ => Fault OOPS
  end.

(** A line of the file: the queue, its new entries and its counters. *)
Record stat_line : Type := StatLine {
  sl_qid : Z;
  sl_new : Z;
  sl_stat : nvmev_sq_stat;
}.
(** The totals, in the order of the last line. *)
Definition stat_total : Type := Z * Z * Z * Z.
Definition add_total (s : nvmev_sq_stat) (t : stat_total) : stat_total :=
  let '(in_flight, dispatch, dispatched, io) := t in
  (u32 (in_flight + nr_in_flight s), u32 (dispatch + nr_dispatch s), u32 (dispatched + nr_dispatched s),
   u64 (io + total_io s)).
Definition reset_max (s : nvmev_sq_stat) : nvmev_sq_stat :=
  SqStat (nr_dispatched s) (nr_dispatch s) (nr_in_flight s) 0 (total_io s).

(** Queues with their size and counters; reading the file clears the maxima. *)
Definition sq_table : Type := arr (option (Z * nvmev_sq_stat)).
Fixpoint stat_lines (ids : list Z) (dbs old_dbs : arr Z) (sqes : sq_table) (t : stat_total)
    : res (list stat_line * stat_total * sq_table) :=
  match ids with
  | [] => Ok ([], t, sqes)
  | i :: ids' =>
      match aget sqes i with
      | None => Fault OOPS
      | Some None => stat_lines ids' dbs old_dbs sqes t
      | Some (Some (queue_size, stat)) =>
          match get_nr_entries dbs old_dbs (i * 2) queue_size with
          | Fault e => Fault e
          | Ok n =>
              match stat_lines ids' dbs old_dbs (aset sqes i (Some (queue_size, reset_max stat))) (add_total stat t) with
              | Ok (ls, t', q) => Ok (StatLine i n stat :: ls, t', q)
              | Fault e => Fault e
              end
          end
      end
  end.
Definition proc_stat_read (nr_sq : Z) (dbs old_dbs : arr Z) (sqes : sq_table)
    : res (list stat_line * stat_total * sq_table) :=
  stat_lines (seqZ 1 nr_sq) dbs old_dbs sqes (0, 0, 0, 0).

Fixpoint clear_stats (ids : list Z) (sqes : sq_table) : res sq_table :=
  match ids with
  | [] => Ok sqes
  | i :: ids' =>
      match aget sqes i with
      | None => Fault OOPS
      | Some None => clear_stats ids' sqes
      | Some (Some (queue_size, _)) => clear_stats ids' (aset sqes i (Some (queue_size, SqStat 0 0 0 0 0)))
      end
  end.
Definition proc_stat_write (nr_sq : Z) (sqes : sq_table) : res sq_table := clear_stats (seqZ 1 nr_sq) sqes.

(** ** The other files *)

(** Whitespace and an unsigned number, as "%u" of sscanf reads them. *)
Definition is_space (c : ascii) : bool :=
  let n := Z.of_nat (nat_of_ascii c) in (n =? 32) || ((9 <=? n) && (n <=? 13)).
Fixpoint skip_space (s : string) : string :=
  match s with
  | String c s' => if is_space c then skip_space s' else s
  | EmptyString => EmptyString
  end.
Fixpoint take_digits (s : string) (acc : Z) : Z * string :=
  match s with
  | String c s' => match digit c with Some d => take_digits s' (acc * 10 + d) | None => (acc, s) end
  | EmptyString => (acc, s)
  end.
Definition scan_uint (s : string) : option (Z * string) :=
  match skip_space s with
  | String c _ as s' => match digit c with
                        | Some _ => let '(n, r) := take_digits s' 0 in Some (u32 n, r)
                        | None => None
                        end
  | EmptyString => None
  end.
(** "%d" into an unsigned variable: a minus sign may precede the digits. *)
Definition scan_int (s : string) : option (Z * string) :=
  match skip_space s with
  | String "-"%char (String c _ as s') => match digit c with
                                          | Some _ => let '(n, r) := take_digits s' 0 in Some (u32 (- n), r)
                                          | None => None
                                          end
  | _ => scan_uint s
  end.
(** "%u %u ... %u": the numbers up to the first that does not match. *)
Fixpoint scan_uints (n : nat) (s : string) : list Z :=
  match n with
  | O => []
  | S n' => match scan_uint s with Some (v, r) => v :: scan_uints n' r | None => [] end
  end.

(** The files that set times and units; numbers that are missing keep their values. *)
Definition set_times (l : list Z) (delay time trailing : Z) : Z * Z * Z :=
  (default delay (l !! 0%nat), default time (l !! 1%nat), default trailing (l !! 2%nat)).
Definition write_read_times (input : string) (c : nvmev_config) : nvmev_config :=
  let '(delay, time, trailing) :=
    set_times (scan_uints 3 input) (cfg_read_delay c) (cfg_read_time c) (cfg_read_trailing c) in
  NvmevConfig (cfg_storage_size c) (cfg_nr_io_units c) (cfg_io_unit_shift c) delay time trailing
    (cfg_write_delay c) (cfg_write_time c) (cfg_write_trailing c).
Definition write_write_times (input : string) (c : nvmev_config) : nvmev_config :=
  let '(delay, time, trailing) :=
    set_times (scan_uints 3 input) (cfg_write_delay c) (cfg_write_time c) (cfg_write_trailing c) in
  NvmevConfig (cfg_storage_size c) (cfg_nr_io_units c) (cfg_io_unit_shift c)
    (cfg_read_delay c) (cfg_read_time c) (cfg_read_trailing c) delay time trailing.
(** The number of units, their shift and a new table of times; nothing without a number. *)
Definition write_io_units (input : string) (c : nvmev_config) (stat : arr Z) : nvmev_config * arr Z :=
  match scan_int input with
  | None => (c, stat)
  | Some (nr, rest) =>
      (NvmevConfig (cfg_storage_size c) nr
         (match scan_int rest with Some (shift, _) => shift | None => cfg_io_unit_shift c end)
         (cfg_read_delay c) (cfg_read_time c) (cfg_read_trailing c)
         (cfg_write_delay c) (cfg_write_time c) (cfg_write_trailing c), anew nr 0)
  end.
