(* ===== verification/DriverProps.v ===== *)
(** * Parameters and areas

    What the module parameters are turned into, and where the namespaces lie in the
    storage area. *)

From Stdlib Require Import ZArith Lia String.
From stdpp Require Import base numbers list gmap.
From S2P Require Import Prelude Config SimpleFtl Io Driver.

#[local] Open Scope Z_scope.

(** ** CPUs *)

(** The fields that the list of CPUs does not touch. *)
Definition same_areas (c c' : driver_config) : Prop :=
  dc_memmap_start c' = dc_memmap_start c ∧ dc_memmap_size c' = dc_memmap_size c ∧
  dc_storage_start c' = dc_storage_start c ∧ dc_units c' = dc_units c.

Lemma load_workers_cpus cpus c :
  0 ≤ dc_nr_io_workers c → alen (dc_cpu_nr_io_workers c) = 32 →
  if Z.of_nat (length cpus) + dc_nr_io_workers c <=? 32 then
    ∃ c', load_cpus false cpus c = Ok c' ∧ same_areas c c' ∧
      dc_cpu_nr_dispatcher c' = dc_cpu_nr_dispatcher c ∧
      dc_nr_io_workers c' = dc_nr_io_workers c + Z.of_nat (length cpus) ∧
      (∀ i, i < dc_nr_io_workers c → aget (dc_cpu_nr_io_workers c') i = aget (dc_cpu_nr_io_workers c) i) ∧
      ∀ i s, cpus !! i = Some s → aget (dc_cpu_nr_io_workers c') (dc_nr_io_workers c + Z.of_nat i) = Some (u32 (strtol s))
  else load_cpus false cpus c = Fault OOPS ∨ 32 < dc_nr_io_workers c.
Proof.
  revert c. induction cpus as [|cpu cpus IH]; intros c Hn Hlen; cbn [load_cpus length].
  { destruct (Z.leb_spec (Z.of_nat 0 + dc_nr_io_workers c) 32); [|right; lia]. exists c.
    split; [done|]. split; [done|]. split; [done|]. split; [lia|]. done. }
  destruct (in_range 32 (dc_nr_io_workers c)) eqn:Hr.
  2:{ apply in_range_false in Hr. rewrite (proj2 (Z.leb_gt _ _)) by lia. by left. }
  apply in_range_true in Hr. set (c1 := DriverConfig _ _ _ _ _ _ _).
  specialize (IH c1). cbn [c1 dc_nr_io_workers dc_cpu_nr_io_workers] in IH. rewrite alen_aset in IH.
  specialize (IH ltac:(lia) Hlen). replace (Z.of_nat (S (length cpus)) + dc_nr_io_workers c) with
    (Z.of_nat (length cpus) + (dc_nr_io_workers c + 1)) by lia.
  destruct (Z.leb_spec (Z.of_nat (length cpus) + (dc_nr_io_workers c + 1)) 32); [|destruct IH; [by left|lia]].
  destruct IH as (c' & E & Ha & Hd & Hw & Hold & Hnew). exists c'. split; [exact E|]. split; [exact Ha|].
  split; [exact Hd|]. split; [lia|]. split.
  - intros i Hi. rewrite Hold by lia. apply aget_aset_ne. lia.
  - intros [|i] s Hs.
    + injection Hs as ->. rewrite Z.add_0_r, Hold by lia. apply aget_aset_eq. lia.
    + rewrite <- (Hnew i s Hs). f_equal. lia.
Qed.

(** ** Areas *)

(** Namespaces one behind the other from [addr] on, within [free] bytes. *)
Fixpoint in_area (addr free : Z) (l : list ns_place) : Prop :=
  match l with
  | [] => True
  | n :: l' => np_addr n = addr ∧ 0 ≤ np_size n ≤ free ∧ in_area (addr + np_size n) (free - np_size n) l'
  end.

Lemma place_in_area ids types caps free addr :
  (∀ i, i ∈ ids → 0 ≤ i < alen types ∧ 0 ≤ i < alen caps) → (∀ i cap, aget caps i = Some cap → 0 ≤ cap) →
  0 ≤ free → 0 ≤ addr → addr + free < 2 ^ 64 →
  ∃ l, place_namespaces ids types caps free addr = Ok l ∧ in_area addr free l ∧ np_id <$> l = ids.
Proof.
  intros Hids Hcaps. revert free addr. induction ids as [|i ids IH]; intros free addr Hf Ha Hb.
  { by exists []. }
  destruct (Hids i ltac:(left)) as [Ht Hc]. destruct (aget_some types i Ht) as [t Et], (aget_some caps i Hc) as [cap Ec].
  cbn [place_namespaces]. rewrite Et, Ec. specialize (Hcaps i cap Ec) as Hcap.
  set (size := if cap =? 0 then free else Z.min cap free).
  assert (0 ≤ size ≤ free) by (unfold size; case_match; lia). rewrite !u64_small by lia.
  destruct (IH ltac:(intros j Hj; apply Hids; by right) (free - size) (addr + size)) as (l & -> & Hl & Hi); [lia..|].
  exists (NsPlace i t size addr :: l). split; [done|]. split; [by split|]. cbn. by rewrite Hi.
Qed.

Lemma in_area_lookup addr free l i n :
  in_area addr free l → l !! i = Some n → addr ≤ np_addr n ∧ 0 ≤ np_size n ∧ np_addr n + np_size n ≤ addr + free.
Proof.
  revert addr free i. induction l as [|m l IH]; intros addr free i; [done|]. intros (<- & Hs & Hl) Hi.
  destruct i as [|i]; [injection Hi as ->; lia|]. specialize (IH _ _ _ Hl Hi). lia.
Qed.
(** Different namespaces do not overlap. *)
Lemma in_area_disjoint addr free l i j n m :
  in_area addr free l → (i < j)%nat → l !! i = Some n → l !! j = Some m → np_addr n + np_size n ≤ np_addr m.
Proof.
  revert addr free i j. induction l as [|k l IH]; intros addr free i j; [done|]. intros (<- & Hs & Hl) Hij Hi Hj.
  destruct j as [|j]; [lia|]. destruct i as [|i].
  - injection Hi as ->. destruct (in_area_lookup _ _ _ _ _ Hl Hj). done.
  - by apply (IH _ _ i j Hl); [lia|..].
Qed.

(** ** The theorem *)

Section areas.
Context `{KN : !Kernel}.

(** C30: from valid parameters: the storage area is the reserved region without its first
    MiB (and, in a key-value build, without the table behind it), inside the region; the
    first CPU of the list is the dispatcher's and the others are the workers', in order;
    the namespaces lie one behind the other in the mapped area, disjoint and within it.
    A list of more than 33 CPUs writes beyond the array of the workers. *)
Theorem driver_areas_ok table p cpus first :
  validate_configs p = 0 → 0 ≤ p_memmap_start p → p_memmap_start p + p_memmap_size p < 2 ^ 64 →
  0 ≤ table → table + MB 1 < p_memmap_size p →
  match p_cpus p with Some s => tokens s | None => [] end = first :: cpus →
  if Z.of_nat (length cpus) <=? 32 then
    ∃ c, load_configs table p = Ok (Some c) ∧
      p_memmap_start p + MB 1 = dc_storage_start c ∧ 0 < cfg_storage_size (dc_units c) ∧
      dc_storage_start c + cfg_storage_size (dc_units c) + table = p_memmap_start p + p_memmap_size p ∧
      dc_cpu_nr_dispatcher c = u32 (strtol first) ∧ dc_nr_io_workers c = Z.of_nat (length cpus) ∧
      (∀ i s, cpus !! i = Some s → aget (dc_cpu_nr_io_workers c) (Z.of_nat i) = Some (u32 (strtol s))) ∧
      ∀ nr_ns types caps mapped,
        0 ≤ nr_ns ≤ alen types → nr_ns ≤ alen caps → (∀ i cap, aget caps i = Some cap → 0 ≤ cap) →
        0 ≤ mapped → mapped + cfg_storage_size (dc_units c) < 2 ^ 64 →
        ∃ l, namespace_places nr_ns types caps (cfg_storage_size (dc_units c)) mapped = Ok l ∧
          np_id <$> l = seqZ 0 nr_ns ∧
          (∀ i n, l !! i = Some n → mapped ≤ np_addr n ∧ 0 ≤ np_size n ∧
            np_addr n + np_size n ≤ mapped + cfg_storage_size (dc_units c)) ∧
          ∀ i j n m, (i < j)%nat → l !! i = Some n → l !! j = Some m → np_addr n + np_size n ≤ np_addr m
  else load_configs table p = Fault OOPS.
Proof.
  intros Hv Hs Hb Ht Htab Hcpus. unfold load_configs. rewrite Hv, Hcpus. cbn [Z.ltb Z.compare].
  assert (0 < MB 1) as Hm by done. set (c0 := DriverConfig _ _ _ _ _ _ _). cbn [load_cpus].
  set (c1 := DriverConfig _ _ _ _ _ _ _).
  pose proof (load_workers_cpus cpus c1 ltac:(done) ltac:(done)) as H. cbn [c1 dc_nr_io_workers] in H.
  change (dc_nr_io_workers c0) with 0 in H. rewrite Z.add_0_r in H.
  destruct (Z.of_nat (length cpus) <=? 32); [|by destruct H as [->|]].
  destruct H as (c & -> & (A1 & A2 & A3 & A4) & Hd & Hn & _ & Hw). exists c. split; [done|].
  rewrite A3, A4. unfold c1, c0.
  cbn [dc_storage_start dc_units cfg_storage_size].
  rewrite (u64_small (p_memmap_start p + MB 1)), (u64_small (p_memmap_size p - table)), u64_small by lia.
  split; [lia|]. split; [lia|]. split; [lia|]. split; [exact Hd|]. split; [lia|].
  split; [exact Hw|]. intros nr_ns types caps mapped Hnr Hcaps Hcap0 Hmap Hmb.
  destruct (place_in_area (seqZ 0 nr_ns) types caps (p_memmap_size p - table - MB 1) mapped) as (l & El & Hl & Hi).
  - intros i Hi%elem_of_seqZ. lia.
  - done.
  - lia.
  - done.
  - done.
  - exists l. split; [exact El|]. split; [exact Hi|]. split; [intros i n; by apply in_area_lookup|].
    intros i j n m. by apply in_area_disjoint with (free := p_memmap_size p - table - MB 1) (addr := mapped).
Qed.
End areas.

#[local] Instance reserved_memory : Kernel := {|
  e820_mapped_any _ _ type := type =? E820_TYPE_RESERVED;
  storage_maps := true;
  bus_scans := true;
  dma_chan_set := true;
|}.
Definition area_params : params := Params 0x100000000 0x40000000 1 1 0 1 1 0 8 12 (Some "3,4,5"%string).

Lemma driver_areas_ok_witness :
  ∃ c, load_configs 0 area_params = Ok (Some c) ∧ dc_storage_start c = 0x100100000 ∧
    dc_cpu_nr_dispatcher c = 3 ∧ dc_nr_io_workers c = 2 ∧ aget (dc_cpu_nr_io_workers c) 1 = Some 5.
Proof.
  pose proof (driver_areas_ok 0 area_params ["4"; "5"]%string "3"%string) as H.
  destruct H as (c & H1 & H2 & _ & _ & H3 & H4 & H5 & _).
  - by vm_compute.
  - by vm_compute.
  - by vm_compute.
  - done.
  - by vm_compute.
  - by vm_compute.
  - exists c. split; [exact H1|]. split; [exact (eq_sym H2)|]. split; [exact H3|]. split; [exact H4|].
    exact (H5 1%nat "5"%string eq_refl).
Defined.

(** ** Counting entries *)

(** The entries between two doorbell values of a ring. *)
Lemma get_nr_entries_ok dbs old i qs d o :
  aget dbs i = Some d → aget old i = Some o → 0 < qs < 2 ^ 31 → 0 ≤ d < qs → 0 ≤ o < qs →
  get_nr_entries dbs old i qs = Ok ((d - o) mod qs).
Proof.
  intros Hd Ho Hq Hd0 Ho0. unfold get_nr_entries. rewrite Hd, Ho. rewrite s32_small by lia. f_equal.
  destruct (Z.ltb_spec (d - o) 0).
  - rewrite s32_small by lia. symmetry. rewrite <- (Z.mod_add _ 1), Z.mul_1_l by lia. apply Z.mod_small. lia.
  - symmetry. apply Z.mod_small. lia.
Qed.
