(* ===== verification/Lifecycle.v ===== *)
(** * Loading and unloading the module (src/main.c)

    The kernel resources - memory, mappings, threads, procfs entries, the bus - that
    start-up, register writes, queue commands and removal take and give back.  The
    state is, for every pointer the driver keeps, whether it is null, points to a live
    object or dangles.  Memory that belongs to the namespaces' layers is not followed;
    allocations succeed, except those whose failure the code handles ([Kernel]). *)

From Stdlib Require Import ZArith.
From stdpp Require Import base numbers list gmap.
From S2P Require Import Prelude SimpleFtl Io Driver.

#[local] Open Scope Z_scope.

(** ** Kernel resources *)

(** What the driver keeps pointers to; the index is a queue, worker or file. *)
Inductive slot : Type :=
| Vdev | VirtDev | VirtBus | BarMap | OldDbs | OldBar | MsixTable
| AdminQ | AdminSq | AdminCq
| IoUnitStat | StorageMap | ProcRoot | ProcFile (i : Z)
| Namespaces | DmaChannel
| IoWorkers | WorkQueue (i : Z) | WorkerThread (i : Z) | Dispatcher
| Sq (i : Z) | SqPages (i : Z) | SqMap (i : Z)
| Cq (i : Z) | CqPages (i : Z) | CqMap (i : Z).

Definition slot_code (s : slot) : Z * Z :=
  match s with
  | Vdev => (0, 0) | VirtDev => (1, 0) | VirtBus => (2, 0) | BarMap => (3, 0) | OldDbs => (4, 0) | OldBar => (5, 0)
  | MsixTable => (6, 0) | AdminQ => (7, 0) | AdminSq => (8, 0) | AdminCq => (9, 0) | IoUnitStat => (10, 0)
  | StorageMap => (11, 0) | ProcRoot => (12, 0) | ProcFile i => (13, i) | Namespaces => (14, 0)
  | DmaChannel => (15, 0) | IoWorkers => (16, 0) | WorkQueue i => (17, i) | WorkerThread i => (18, i)
  | Dispatcher => (19, 0) | Sq i => (20, i) | SqPages i => (21, i) | SqMap i => (22, i)
  | Cq i => (23, i) | CqPages i => (24, i) | CqMap i => (25, i)
  end.
Definition slot_of (c : Z * Z) : option slot :=
  let '(k, i) := c in
  match k with
  | 0 => Some Vdev | 1 => Some VirtDev | 2 => Some VirtBus | 3 => Some BarMap | 4 => Some OldDbs | 5 => Some OldBar
  | 6 => Some MsixTable | 7 => Some AdminQ | 8 => Some AdminSq | 9 => Some AdminCq | 10 => Some IoUnitStat
  | 11 => Some StorageMap | 12 => Some ProcRoot | 13 => Some (ProcFile i) | 14 => Some Namespaces
  | 15 => Some DmaChannel | 16 => Some IoWorkers | 17 => Some (WorkQueue i) | 18 => Some (WorkerThread i)
  | 19 => Some Dispatcher | 20 => Some (Sq i) | 21 => Some (SqPages i) | 22 => Some (SqMap i)
  | 23 => Some (Cq i) | 24 => Some (CqPages i) | 25 => Some (CqMap i)
  | _ => None
  end.
#[export] Instance slot_eq_dec : EqDecision slot.
Proof. solve_decision. Defined.
#[export] Instance slot_countable : Countable slot.
Proof. refine (inj_countable slot_code slot_of _). by intros []. Defined.

(** A pointer is null (no entry), to a live object ([true]) or dangling ([false]);
    [d_lost] holds the objects whose last pointer was overwritten. *)
Record driver : Type := Driver {
  d_ptr : gmap slot bool;
  d_lost : list slot;
  d_nr_workers : Z;
  d_using_dma : bool;
  d_queues_sq : Z;
  d_queues_cq : Z;
}.
Definition set_ptr (x : gmap slot bool) (l : list slot) (d : driver) : driver :=
  Driver x l (d_nr_workers d) (d_using_dma d) (d_queues_sq d) (d_queues_cq d).
Definition set_using_dma (x : bool) (d : driver) : driver :=
  Driver (d_ptr d) (d_lost d) (d_nr_workers d) x (d_queues_sq d) (d_queues_cq d).
Definition set_queues (sq cq : Z) (d : driver) : driver :=
  Driver (d_ptr d) (d_lost d) (d_nr_workers d) (d_using_dma d) sq cq.
Definition live (d : driver) (s : slot) : bool := bool_decide (d_ptr d !! s = Some true).
Definition null (d : driver) (s : slot) : bool := bool_decide (d_ptr d !! s = None).
Definition lose (d : driver) (s : slot) : list slot := if live d s then s :: d_lost d else d_lost d.

(** p = kzalloc(...), memremap(...), kthread_create(...) and the like *)
Definition acquire (s : slot) : M driver unit := modify (λ d, set_ptr (<[s := true]> (d_ptr d)) (lose d s) d).
(** kfree(p), memunmap(p), kthread_stop(p) and the like: nothing for null; freeing twice
    is a fault. *)
Definition release (s : slot) : M driver unit := λ d,
  match d_ptr d !! s with
  | None => Ok (tt, d)
  | Some true => Ok (tt, set_ptr (<[s := false]> (d_ptr d)) (d_lost d) d)
  | Some false => Fault OOPS
  end.
(** p = NULL *)
Definition clear (s : slot) : M driver unit := modify (λ d, set_ptr (delete s (d_ptr d)) (lose d s) d).

Definition empty_driver : driver := Driver ∅ [] 0 false 0 0.

(** ** Start-up and removal *)

Section lifecycle.
Context `{!Kernel}.

Definition VDEV_INIT : M driver unit := acquire Vdev ;; acquire VirtDev.

Definition VDEV_FINALIZE : M driver unit :=
  release MsixTable ;;
  release BarMap ;;
  release OldBar ;;
  release OldDbs ;;
  d ← get;
  (if negb (null d AdminQ) then release AdminCq ;; release AdminSq ;; release AdminQ else mret tt) ;;
  release VirtDev ;;
  release Vdev.

Definition proc_files : list slot := ProcRoot :: (ProcFile <$> seqZ 0 5).

Definition NVMEV_STORAGE_INIT : M driver unit :=
  acquire IoUnitStat ;;
  when storage_maps (acquire StorageMap) ;;
  for_list proc_files acquire.
Definition NVMEV_STORAGE_FINAL : M driver unit :=
  for_list (ProcFile <$> seqZ 0 5) release ;;
  release ProcRoot ;;
  release StorageMap ;;
  release IoUnitStat.

Definition NVMEV_NAMESPACE_INIT : M driver unit := acquire Namespaces.
Definition NVMEV_NAMESPACE_FINAL : M driver unit := release Namespaces ;; clear Namespaces.

(** One device is on the bus. *)
Definition create_pci_bus : M driver bool :=
  if bus_scans then
    acquire BarMap ;; acquire OldDbs ;; acquire OldBar ;; acquire MsixTable ;; mret true
  else mret false.
Definition NVMEV_PCI_INIT : M driver bool :=
  bus ← create_pci_bus;
  when bus (acquire VirtBus) ;;
  mret bus.

Definition NVMEV_IO_WORKER_INIT : M driver unit :=
  acquire IoWorkers ;;
  d ← get;
  for_range 0 (d_nr_workers d) (λ i, acquire (WorkQueue i) ;; acquire (WorkerThread i)).
Definition NVMEV_IO_WORKER_FINAL : M driver unit :=
  d ← get;
  for_range 0 (d_nr_workers d) (λ i, release (WorkerThread i) ;; release (WorkQueue i)) ;;
  release IoWorkers.

Definition NVMEV_DISPATCHER_INIT : M driver unit := acquire Dispatcher.
Definition NVMEV_DISPATCHER_FINAL : M driver unit :=
  d ← get;
  if negb (null d Dispatcher) then release Dispatcher ;; clear Dispatcher else mret tt.

Definition load_workers (c : driver_config) : M driver unit :=
  modify (λ d, Driver (d_ptr d) (d_lost d) (dc_nr_io_workers c) (d_using_dma d) (d_queues_sq d) (d_queues_cq d)).

(** [module_init]; [table] as in [load_configs]. *)
Definition NVMeV_init (table : Z) (p : params) : M driver Z :=
  VDEV_INIT ;;
  match load_configs table p with
  | Fault e => throw e
  | Ok None => VDEV_FINALIZE ;; mret (- EIO)
  | Ok (Some c) =>
      load_workers c ;;
      NVMEV_STORAGE_INIT ;;
      NVMEV_NAMESPACE_INIT ;;
      d ← get;
      when (d_using_dma d)
        (if dma_chan_set then acquire DmaChannel else modify (set_using_dma false)) ;;
      ok ← NVMEV_PCI_INIT;
      if ok : bool then
        NVMEV_IO_WORKER_INIT ;;
        NVMEV_DISPATCHER_INIT ;;
        mret 0
      else VDEV_FINALIZE ;; mret (- EIO)
  end.

(** [module_exit] *)
Definition NVMeV_exit : M driver unit :=
  d ← get;
  when (negb (null d VirtBus)) (release VirtBus) ;;
  NVMEV_DISPATCHER_FINAL ;;
  NVMEV_IO_WORKER_FINAL ;;
  NVMEV_NAMESPACE_FINAL ;;
  NVMEV_STORAGE_FINAL ;;
  d ← get;
  when (d_using_dma d) (release DmaChannel) ;;
  for_range 0 (d_queues_sq d) (λ i, release (Sq i)) ;;
  for_range 0 (d_queues_cq d) (λ i, release (Cq i)) ;;
  VDEV_FINALIZE.

(** ** While the module is loaded *)

(** Registers (src/pci.c). *)
Definition setup_aqa : M driver unit := d ← get; when (null d AdminQ) (acquire AdminQ).
Definition setup_asq : M driver unit :=
  d ← get;
  if null d AdminQ then mret tt
  else when (negb (null d AdminSq)) (release AdminSq ;; clear AdminSq) ;; acquire AdminSq.
Definition setup_acq : M driver unit :=
  d ← get;
  if null d AdminQ then mret tt
  else when (negb (null d AdminCq)) (release AdminCq ;; clear AdminCq) ;; acquire AdminCq.

(** Queue commands (src/admin.c).  The descriptor, its table of pages and, when the
    memory is not the kernel's, its mapping; a descriptor that replaces another one
    takes the pointers of the old one with it. *)
Definition create_queue (q pages map : slot) (remapped : bool) : M driver unit :=
  clear pages ;; clear map ;;
  acquire pages ;;
  when remapped (acquire map) ;;
  acquire q.
Definition delete_queue (q pages map : slot) : M driver unit :=
  d ← get;
  when (negb (null d q))
    (release pages ;; clear pages ;; release map ;; clear map ;; release q) ;;
  clear q.
Definition create_sq (i : Z) (remapped : bool) : M driver unit := create_queue (Sq i) (SqPages i) (SqMap i) remapped.
Definition create_cq (i : Z) (remapped : bool) : M driver unit := create_queue (Cq i) (CqPages i) (CqMap i) remapped.
Definition delete_sq (i : Z) : M driver unit := delete_queue (Sq i) (SqPages i) (SqMap i).
Definition delete_cq (i : Z) : M driver unit := delete_queue (Cq i) (CqPages i) (CqMap i).

(** A write to /proc/nvmev/io_units: a new table of times, the old one freed later. *)
Definition renew_io_unit_stat : M driver unit := release IoUnitStat ;; clear IoUnitStat ;; acquire IoUnitStat.

(** What can happen between loading and unloading. *)
Inductive event : Type :=
| SetAqa | SetAsq | SetAcq
| CreateSq (i : Z) (remapped : bool) | DeleteSq (i : Z)
| CreateCq (i : Z) (remapped : bool) | DeleteCq (i : Z)
| NumQueues (sq cq : Z) | WriteIoUnits.
Definition run_event (e : event) : M driver unit :=
  match e with
  | SetAqa => setup_aqa
  | SetAsq => setup_asq
  | SetAcq => setup_acq
  | CreateSq i remapped => create_sq i remapped
  | DeleteSq i => delete_sq i
  | CreateCq i remapped => create_cq i remapped
  | DeleteCq i => delete_cq i
  | NumQueues sq cq => modify (set_queues sq cq)
  | WriteIoUnits => renew_io_unit_stat
  end.
End lifecycle.
