(* ===== verification/LifecycleProps.v ===== *)
(** * What loading, running and unloading leave behind

    Nothing is freed twice; what stays allocated after the module is gone, exactly, on
    every path. *)

From Stdlib Require Import ZArith Lia String.
From stdpp Require Import base numbers list gmap.
From S2P Require Import Prelude SimpleFtl Io Driver Lifecycle.

#[local] Open Scope Z_scope.

(** ** Releasing *)

Definition clean (d : driver) : Prop := ∀ s, d_ptr d !! s ≠ Some false.

(** From [d] to [d'] the slots [P] have been released and nothing else changed. *)
Record freed (P : slot → Prop) (d d' : driver) : Prop := {
  fr_in s : P s → d_ptr d' !! s ≠ Some true;
  fr_out s : ¬ P s → d_ptr d' !! s = d_ptr d !! s;
  fr_lost : d_lost d' = d_lost d;
  fr_workers : d_nr_workers d' = d_nr_workers d;
  fr_dma : d_using_dma d' = d_using_dma d;
  fr_sq : d_queues_sq d' = d_queues_sq d;
  fr_cq : d_queues_cq d' = d_queues_cq d;
}.

Lemma freed_none d : freed (λ _, False) d d.
Proof. by split. Qed.
Lemma freed_ext (P P' : slot → Prop) d d' : (∀ s, P s ↔ P' s) → freed P d d' → freed P' d d'.
Proof. intros H []. split; try done; naive_solver. Qed.

(** Releasing one more slot. *)
Lemma wp_release_slot (P : slot → Prop) d0 d s (Q : unit → driver → Prop) :
  clean d0 → freed P d0 d → ¬ P s → (∀ d', freed (λ t, P t ∨ t = s) d0 d' → Q tt d') → wp (release s) d Q.
Proof.
  intros Hc [H1 H2 H3 H4 H5 H6 H7] Hs HQ. unfold release, wp. pose proof (Hc s) as Hcs. rewrite <- (H2 s Hs) in Hcs.
  destruct (d_ptr d !! s) as [[]|] eqn:E; [|done|]; apply HQ.
  - split; try done; simpl; intros t Ht.
    + destruct (decide (t = s)) as [->|Hne]; [by rewrite lookup_insert_eq|].
      rewrite lookup_insert_ne by done. apply H1. naive_solver.
    + rewrite lookup_insert_ne by naive_solver. apply H2. naive_solver.
  - split; try done; intros t Ht; [|naive_solver]. destruct Ht as [Ht| ->]; [by apply H1|by rewrite E].
Qed.

(** A pointer reset after its object was released. *)
Lemma wp_clear (P : slot → Prop) d0 d s (Q : unit → driver → Prop) :
  freed P d0 d → P s → (∀ d', freed P d0 d' → Q tt d') → wp (clear s) d Q.
Proof.
  intros [H1 H2 H3 H4 H5 H6 H7] Hs HQ. unfold clear. wp_step. apply HQ.
  assert (lose d s = d_lost d) as El.
  { unfold lose, live. rewrite bool_decide_false; [done|]. by apply H1. }
  split; try done; simpl; [| |by rewrite El]; intros t Ht.
  - destruct (decide (t = s)) as [->|]; [by rewrite lookup_delete_eq|]. rewrite lookup_delete_ne by done. by apply H1.
  - rewrite lookup_delete_ne by naive_solver. by apply H2.
Qed.

(** A family of slots. *)
Lemma wp_release_range (P : slot → Prop) d0 d lo hi (f : Z → slot) (Q : unit → driver → Prop) :
  clean d0 → freed P d0 d → (∀ i j, f i = f j → i = j) → (∀ i, lo ≤ i < hi → ¬ P (f i)) →
  (∀ d', freed (λ t, P t ∨ ∃ i, lo ≤ i < hi ∧ t = f i) d0 d' → Q tt d') →
  wp (for_range lo hi (λ i, release (f i))) d Q.
Proof.
  intros Hc Hf Hinj Hfresh HQ. destruct (decide (lo ≤ hi)) as [Hle|Hgt].
  2:{ unfold for_range. rewrite seqZ_nil by lia. cbn [for_list]. wp_step. apply HQ. eapply freed_ext; [|exact Hf].
      intros s. split; [by left|]. intros [|(i & Hi & _)]; [done|lia]. }
  apply (wp_for_range (λ k d', freed (λ t, P t ∨ ∃ i, lo ≤ i < k ∧ t = f i) d0 d')); [done| | |done].
  - eapply freed_ext; [|exact Hf]. intros s. split; [by left|]. intros [|(i & Hi & _)]; [done|lia].
  - intros i d1 Hi H1. eapply wp_release_slot; [done|exact H1| |].
    + intros [Hp|(j & Hj & E)]; [by apply (Hfresh i)|]. apply Hinj in E. lia.
    + intros d' Hd. eapply freed_ext; [|exact Hd]. intros s. split.
      * intros [[Hs|(j & Hj & E)]|E]; [by left|right; exists j; split; [lia|done]|right; exists i; split; [lia|done]].
      * intros [Hs|(j & Hj & E)]; [by left; left|]. destruct (decide (j = i)) as [->|]; [by right|].
        left. right. exists j. split; [lia|done].
Qed.

(** Workers: the thread, then its queue. *)
Lemma wp_release_workers (P : slot → Prop) d0 d n (Q : unit → driver → Prop) :
  clean d0 → freed P d0 d → (∀ i, ¬ P (WorkerThread i) ∧ ¬ P (WorkQueue i)) →
  (∀ d', freed (λ t, P t ∨ ∃ i, 0 ≤ i < n ∧ (t = WorkerThread i ∨ t = WorkQueue i)) d0 d' → Q tt d') →
  wp (for_range 0 n (λ i, release (WorkerThread i) ;; release (WorkQueue i))) d Q.
Proof.
  intros Hc Hf Hfresh HQ. destruct (decide (0 ≤ n)) as [Hle|Hgt].
  2:{ unfold for_range. rewrite seqZ_nil by lia. cbn [for_list]. wp_step. apply HQ. eapply freed_ext; [|exact Hf].
      intros s. split; [by left|]. intros [|(i & Hi & _)]; [done|lia]. }
  apply (wp_for_range (λ k d', freed (λ t, P t ∨ ∃ i, 0 ≤ i < k ∧ (t = WorkerThread i ∨ t = WorkQueue i)) d0 d'));
    [done| | |done].
  - eapply freed_ext; [|exact Hf]. intros s. split; [by left|]. intros [|(i & Hi & _)]; [done|lia].
  - intros i d1 Hi H1. destruct (Hfresh i) as [F1 F2]. wp_step. eapply wp_release_slot; [done|exact H1| |].
    { intros [Hp|(j & Hj & [E|E])]; [done|injection E as ->; lia|done]. }
    intros d2 H2. eapply wp_release_slot; [done|exact H2| |].
    { intros [[Hp|(j & Hj & [E|E])]|E]; [done|done|injection E as ->; lia|done]. }
    intros d' Hd. eapply freed_ext; [|exact Hd]. intros s. split.
    + intros [[[Hs|(j & Hj & E)]| ->]| ->]; [by left|right; exists j; split; [lia|done]|right; exists i..];
        (split; [lia|naive_solver]).
    + intros [Hs|(j & Hj & E)]; [by left; left; left|]. destruct (decide (j = i)) as [->|]; [naive_solver|].
      left. left. right. exists j. split; [lia|done].
Qed.

(** ** The loaded module *)

(** Which slots may be in use, and what they need. *)
Definition slot_ok (d : driver) (s : slot) : Prop :=
  match s with
  | ProcFile i => 0 ≤ i < 5
  | WorkQueue i | WorkerThread i => 0 ≤ i < d_nr_workers d
  | Sq i | Cq i => 1 ≤ i ≤ NR_MAX_IO_QUEUE
  | SqPages i | SqMap i => d_ptr d !! Sq i = Some true
  | CqPages i | CqMap i => d_ptr d !! Cq i = Some true
  | AdminSq | AdminCq => d_ptr d !! AdminQ = Some true
  | DmaChannel => d_using_dma d = true
  | _ => True
  end.
Record loaded (d : driver) : Prop := {
  ld_ptr s x : d_ptr d !! s = Some x → x = true ∧ slot_ok d s;
  ld_lost : d_lost d = [];
  ld_sq : 0 ≤ d_queues_sq d ≤ NR_MAX_IO_QUEUE;
  ld_cq : 0 ≤ d_queues_cq d ≤ NR_MAX_IO_QUEUE;
}.
Lemma loaded_clean d : loaded d → clean d.
Proof. intros H s E. by destruct (ld_ptr _ H s false E). Qed.

(** What unloading does not give back. *)
Definition leak_slot (d : driver) (s : slot) : Prop :=
  match s with
  | Sq i => d_queues_sq d ≤ i
  | Cq i => d_queues_cq d ≤ i
  | SqPages _ | SqMap _ | CqPages _ | CqMap _ => True
  | _ => False
  end.

(** A null slot counts as released. *)
Lemma freed_null (P : slot → Prop) d0 d s :
  freed P d0 d → ¬ P s → d_ptr d0 !! s = None → freed (λ t, P t ∨ t = s) d0 d.
Proof.
  intros [H1 H2 H3 H4 H5 H6 H7] Hs E. split; try done; intros t Ht; [|naive_solver].
  destruct Ht as [Ht| ->]; [by apply H1|]. by rewrite (H2 s Hs), E.
Qed.
(** if (p) release(p) *)
Lemma wp_release_if (P : slot → Prop) d0 d s (Q : unit → driver → Prop) :
  clean d0 → freed P d0 d → ¬ P s → (∀ d', freed (λ t, P t ∨ t = s) d0 d' → Q tt d') →
  wp (when (negb (null d s)) (release s)) d Q.
Proof.
  intros Hc Hf Hs HQ. wp_step; [by eapply wp_release_slot|]. apply HQ. apply freed_null; [done|done|].
  unfold null in *. rewrite <- (fr_out _ _ _ Hf s Hs). destruct (d_ptr d !! s); [|done]. by rewrite bool_decide_false in *.
Qed.

Ltac free_with L H := eapply L; [eassumption|exact H|simpl; naive_solver|]; clear H; intros ? H.
Ltac free H := wp_step; free_with wp_release_slot H.
Ltac free_range H := wp_step; eapply wp_release_range;
  [eassumption|exact H|by intros ?? [=]|simpl; naive_solver|]; clear H; intros ? H.

(** The end of both the failed start and the removal. *)
Definition finalized (s : slot) : Prop :=
  match s with
  | MsixTable | BarMap | OldBar | OldDbs | AdminCq | AdminSq | AdminQ | VirtDev | Vdev => True
  | _ => False
  end.
Lemma wp_finalize (P : slot → Prop) d0 d (Q : unit → driver → Prop) :
  loaded d0 → freed P d0 d → (∀ s, finalized s → ¬ P s) →
  (∀ d', freed (λ t, P t ∨ finalized t) d0 d' → Q tt d') → wp VDEV_FINALIZE d Q.
Proof.
  intros Hl H Hfresh HQ. pose proof (loaded_clean _ Hl) as Hc.
  assert (∀ s, finalized s → P s → False) as Hf by (intros s ? ?; by apply (Hfresh s)). clear Hfresh.
  unfold VDEV_FINALIZE.
  pose proof (Hf MsixTable I). pose proof (Hf BarMap I). pose proof (Hf OldBar I). pose proof (Hf OldDbs I).
  pose proof (Hf AdminCq I). pose proof (Hf AdminSq I). pose proof (Hf AdminQ I). pose proof (Hf VirtDev I).
  pose proof (Hf Vdev I). clear Hf.
  do 4 free H. wp_step. wp_step. wp_step.
  eapply (wp_mono _ _ (λ _ d', freed (λ t, P t ∨ t = MsixTable ∨ t = BarMap ∨ t = OldBar ∨ t = OldDbs ∨
    t = AdminCq ∨ t = AdminSq ∨ t = AdminQ) d0 d')).
  - match goal with |- context [null ?x AdminQ] => destruct (null x AdminQ) eqn:En end; unfold null in En.
    + apply bool_decide_eq_true in En. rewrite (fr_out _ _ _ H) in En by naive_solver.
      assert (d_ptr d0 !! AdminCq = None ∧ d_ptr d0 !! AdminSq = None) as [E1 E2].
      { split; match goal with |- ?x = None => destruct x as [b|] eqn:E; [|done] end;
          destruct (ld_ptr _ Hl _ _ E) as [_ Hs]; simpl in Hs; congruence. }
      simpl. wp_step. apply (freed_null _ _ _ AdminCq) in H; [|simpl; naive_solver|done].
      apply (freed_null _ _ _ AdminSq) in H; [|simpl; naive_solver|done].
      apply (freed_null _ _ _ AdminQ) in H; [|simpl; naive_solver|done].
      eapply freed_ext; [|exact H]. intros s. simpl. naive_solver.
    + simpl. do 2 free H. free_with wp_release_slot H. eapply freed_ext; [|exact H]. intros s. simpl. naive_solver.
  - clear H. intros [] d4 H. free H. free_with wp_release_slot H. apply HQ. eapply freed_ext; [|exact H].
    intros s. simpl. split; [intros Hs; repeat (destruct Hs as [Hs|Hs]); subst; simpl; auto|].
    intros [Hs|Hs]; [auto|]. destruct s; simpl in Hs; auto 12; done.
Qed.

(** What the removal releases before the queues. *)
Definition loaded_slot (d : driver) (t : slot) : Prop :=
  t = VirtBus ∨ t = Dispatcher ∨ (∃ i, 0 ≤ i < d_nr_workers d ∧ (t = WorkerThread i ∨ t = WorkQueue i)) ∨
  t = IoWorkers ∨ t = Namespaces ∨ (∃ i, 0 ≤ i < 5 ∧ t = ProcFile i) ∨ t = ProcRoot ∨ t = StorageMap ∨
  t = IoUnitStat.

Lemma wp_exit d (Q : unit → driver → Prop) :
  loaded d → (∀ d', (∀ s, d_ptr d' !! s = Some true ↔ d_ptr d !! s = Some true ∧ leak_slot d s) →
    d_lost d' = [] → Q tt d') → wp NVMeV_exit d Q.
Proof.
  intros Hl HQ. pose proof (loaded_clean _ Hl) as Hc. pose proof (freed_none d) as H.
  unfold NVMeV_exit. wp_step. wp_step. wp_step. free_with wp_release_if H.
  unfold NVMEV_DISPATCHER_FINAL. wp_step. wp_step. wp_step.
  eapply (wp_mono _ _ (λ _ d', freed (λ t, t = VirtBus ∨ t = Dispatcher) d d')).
  { match goal with |- context [null ?x Dispatcher] => destruct (null x Dispatcher) eqn:En end; unfold null in En; simpl.
    - apply bool_decide_eq_true in En. rewrite (fr_out _ _ _ H) in En by naive_solver. wp_step.
      eapply freed_ext; [|exact (freed_null _ _ _ Dispatcher H ltac:(naive_solver) En)]. naive_solver.
    - free H. eapply wp_clear; [exact H|naive_solver|]. intros d2 H2. eapply freed_ext; [|exact H2]. naive_solver. }
  clear H. intros [] d4 H. unfold NVMEV_IO_WORKER_FINAL. wp_step. wp_step. wp_step. rewrite (fr_workers _ _ _ H).
  wp_step. eapply wp_release_workers; [exact Hc|exact H|intros i; split; naive_solver|]. clear H. intros d5 H.
  free_with wp_release_slot H. unfold NVMEV_NAMESPACE_FINAL. do 2 wp_step. free_with wp_release_slot H.
  eapply wp_clear; [exact H|simpl; naive_solver|]. clear H. intros d6 H.
  unfold NVMEV_STORAGE_FINAL. change (ProcFile <$> seqZ 0 5) with (ProcFile <$> [0; 1; 2; 3; 4]).
  cbn [fmap list_fmap for_list]. do 2 wp_step. do 5 free H. wp_step. do 2 free H. free_with wp_release_slot H.
  wp_step. wp_step. wp_step. rewrite (fr_dma _ _ _ H), (fr_sq _ _ _ H), (fr_cq _ _ _ H).
  eapply (wp_mono _ _ (λ _ d', freed (λ t, loaded_slot d t ∨ t = DmaChannel) d d')).
  { assert (∀ s, (∃ i, 0 ≤ i < 5 ∧ s = ProcFile i) ↔
      s = ProcFile 0 ∨ s = ProcFile 1 ∨ s = ProcFile 2 ∨ s = ProcFile 3 ∨ s = ProcFile 4) as Hp.
    { intros s. split; [|by intros Hs; destruct_or! Hs; subst s;
        match goal with |- ∃ _, _ ∧ ProcFile ?k = _ => exists k end].
      intros (i & Hi & ->). assert (i = 0 ∨ i = 1 ∨ i = 2 ∨ i = 3 ∨ i = 4) as Hd by lia. naive_solver. }
    match type of H with freed _ _ ?x => assert (freed (loaded_slot d) d x) as H1 end.
    { eapply freed_ext; [|exact H]. intros s. unfold loaded_slot. rewrite Hp. simpl. tauto. }
    clear H. wp_step.
    - eapply wp_release_slot; [exact Hc|exact H1|unfold loaded_slot; naive_solver|]. by intros d8 H8.
    - apply (freed_null _ _ _ DmaChannel) in H1; [exact H1|unfold loaded_slot; naive_solver|].
      destruct (d_ptr d !! DmaChannel) eqn:E; [|done]. destruct (ld_ptr _ Hl _ _ E) as [_ Hs]. simpl in Hs. congruence. }
  clear H. intros [] d9 H. wp_step.
  eapply wp_release_range; [exact Hc|exact H|by intros ?? [=]|unfold loaded_slot; naive_solver|]. clear H. intros d10 H.
  wp_step.
  eapply wp_release_range; [exact Hc|exact H|by intros ?? [=]|unfold loaded_slot; naive_solver|]. clear H. intros d11 H.
  eapply wp_finalize; [exact Hl|exact H| |].
  { intros s Hs. unfold loaded_slot. destruct s; try done; naive_solver. }
  clear H. intros d12 H. apply HQ; [|by rewrite (fr_lost _ _ _ H), (ld_lost _ Hl)].
  intros s. split.
  - intros Hs. match type of H with freed ?P _ _ => assert (¬ P s) as Hn by (intros Hp; by apply (fr_in _ _ _ H s Hp)) end.
    rewrite (fr_out _ _ _ H s Hn) in Hs. split; [done|]. destruct (ld_ptr _ Hl _ _ Hs) as [_ Hok].
    unfold loaded_slot in Hn. destruct s; simpl in *; try done; try (by exfalso; apply Hn; auto 15);
      try (exfalso; apply Hn; clear Hn; naive_solver).
    + destruct (Z.le_gt_cases (d_queues_sq d) i); [done|]. exfalso. apply Hn. left. left. right. exists i. split; [lia|done].
    + destruct (Z.le_gt_cases (d_queues_cq d) i); [done|]. exfalso. apply Hn. left. right. exists i. split; [lia|done].
  - intros [Hs Hleak]. rewrite (fr_out _ _ _ H s); [done|]. unfold loaded_slot.
    destruct s; simpl in *; try done; intros Hp; repeat (destruct Hp as [Hp|Hp]; try done);
      destruct Hp as (j & Hj & E); try (destruct E as [E|E]); simplify_eq; lia.
Qed.

(** ** Loading *)

(** Exactly the slots [P] are in use, with [n] workers. *)
Record only (P : slot → Prop) (n : Z) (dma : bool) (d : driver) : Prop := {
  on_in s : P s → d_ptr d !! s = Some true;
  on_out s : ¬ P s → d_ptr d !! s = None;
  on_rest : d = Driver (d_ptr d) [] n dma 0 0;
}.
Lemma only_ext (P P' : slot → Prop) n dma d : (∀ s, P s ↔ P' s) → only P n dma d → only P' n dma d.
Proof. intros H []. split; try done; naive_solver. Qed.

Lemma wp_acquire_slot (P : slot → Prop) n dma d s (Q : unit → driver → Prop) :
  only P n dma d → ¬ P s → (∀ d', only (λ t, P t ∨ t = s) n dma d' → Q tt d') → wp (acquire s) d Q.
Proof.
  intros [H1 H2 H3] Hs HQ. unfold acquire. wp_step. apply HQ.
  destruct d as [ptr lost nw ud sq cq]. cbn [d_ptr] in *. injection H3 as -> -> -> -> ->.
  assert (lose (Driver ptr [] n dma 0 0) s = []) as El.
  { unfold lose, live. rewrite bool_decide_false; [done|]. simpl. by rewrite H2. }
  split; unfold set_ptr; cbn [d_ptr d_nr_workers d_using_dma d_queues_sq d_queues_cq]; [..|by rewrite El].
  - intros t [Ht| ->]; [|by rewrite lookup_insert_eq]. rewrite lookup_insert_ne; [by apply H1|].
    intros ->. by apply Hs.
  - intros t Ht. rewrite lookup_insert_ne by naive_solver. apply H2. naive_solver.
Qed.

Ltac take H := eapply wp_acquire_slot; [exact H|simpl; naive_solver|]; clear H; intros ? H.

Lemma wp_acquire_workers (P : slot → Prop) n dma d (Q : unit → driver → Prop) :
  only P n dma d → (∀ i, ¬ P (WorkerThread i) ∧ ¬ P (WorkQueue i)) → 0 ≤ n →
  (∀ d', only (λ t, P t ∨ ∃ i, 0 ≤ i < n ∧ (t = WorkQueue i ∨ t = WorkerThread i)) n dma d' → Q tt d') →
  wp (for_range 0 n (λ i, acquire (WorkQueue i) ;; acquire (WorkerThread i))) d Q.
Proof.
  intros Ho Hfresh Hn HQ.
  apply (wp_for_range (λ k d', only (λ t, P t ∨ ∃ i, 0 ≤ i < k ∧ (t = WorkQueue i ∨ t = WorkerThread i)) n dma d'));
    [done| | |done].
  - eapply only_ext; [|exact Ho]. intros s. split; [by left|]. intros [|(i & Hi & _)]; [done|lia].
  - intros i d1 Hi H1. destruct (Hfresh i) as [F1 F2]. wp_step. eapply wp_acquire_slot; [exact H1| |].
    { intros [Hp|(j & Hj & [E|E])]; [done|injection E as ->; lia|done]. }
    intros d2 H2. eapply wp_acquire_slot; [exact H2| |].
    { intros [[Hp|(j & Hj & [E|E])]|E]; [done|done|injection E as ->; lia|done]. }
    intros d' Hd. eapply only_ext; [|exact Hd]. intros s. split.
    + intros [[[Hs|(j & Hj & E)]| ->]| ->]; [by left|right; exists j; split; [lia|done]|right; exists i..];
        (split; [lia|naive_solver]).
    + intros [Hs|(j & Hj & E)]; [by left; left; left|]. destruct (decide (j = i)) as [->|]; [naive_solver|].
      left. left. right. exists j. split; [lia|done].
Qed.

Lemma only_loaded P n dma d : only P n dma d → (∀ s, P s → slot_ok d s) → (∀ s, P s ∨ ¬ P s) → loaded d.
Proof.
  intros [H1 H2 H3] Hok Hdec. split; try (by rewrite H3).
  intros s x Hs. destruct (Hdec s) as [Hp|Hp]; [rewrite (H1 s Hp) in Hs; injection Hs as <-; by split; [|apply Hok]|].
  by rewrite (H2 s Hp) in Hs.
Qed.

Section loading.
Context `{KN : !Kernel}.

(** What the driver owns before the bus is scanned. *)
Definition stored (dma : bool) (s : slot) : Prop :=
  match s with
  | IoUnitStat | ProcRoot | Namespaces => True
  | StorageMap => storage_maps = true
  | DmaChannel => dma && dma_chan_set = true
  | ProcFile i => 0 ≤ i < 5
  | _ => False
  end.
(** What a loaded module owns. *)
Definition booted (n : Z) (dma : bool) (s : slot) : Prop :=
  match s with
  | Vdev | VirtDev | VirtBus | BarMap | OldDbs | OldBar | MsixTable | IoWorkers | Dispatcher => True
  | WorkQueue i | WorkerThread i => 0 ≤ i < n
  | _ => stored dma s
  end.

Lemma stored_dec dma s : stored dma s ∨ ¬ stored dma s.
Proof.
  destruct s; simpl; try (by left); try (right; intros []; fail).
  - destruct storage_maps; [by left|by right].
  - destruct (decide (0 ≤ i < 5)); [by left|by right].
  - destruct (dma && dma_chan_set); [by left|by right].
Qed.
Lemma booted_dec n dma s : booted n dma s ∨ ¬ booted n dma s.
Proof.
  destruct s; try (by left); try apply (stored_dec dma); simpl; (destruct (decide (0 ≤ i < n)); [by left|by right]).
Qed.

Lemma proc_file_cases s :
  (∃ i, 0 ≤ i < 5 ∧ s = ProcFile i) ↔
  s = ProcFile 0 ∨ s = ProcFile 1 ∨ s = ProcFile 2 ∨ s = ProcFile 3 ∨ s = ProcFile 4.
Proof.
  split.
  - intros (i & Hi & ->). assert (i = 0 ∨ i = 1 ∨ i = 2 ∨ i = 3 ∨ i = 4) as Hd by lia. naive_solver.
  - by intros Hs; destruct_or! Hs; subst s; match goal with |- ∃ _, _ ∧ ProcFile ?k = _ => exists k end.
Qed.

Lemma wp_storage_init n dma d (Q : unit → driver → Prop) :
  only (λ s, s = Vdev ∨ s = VirtDev) n dma d →
  (∀ d', only (λ s, s = Vdev ∨ s = VirtDev ∨ (stored false s ∧ s ≠ Namespaces)) n dma d' → Q tt d') →
  wp NVMEV_STORAGE_INIT d Q.
Proof.
  intros H HQ. unfold NVMEV_STORAGE_INIT. wp_step. take H. wp_step.
  eapply (wp_mono _ _ (λ _ d', only (λ s, s = Vdev ∨ s = VirtDev ∨ s = IoUnitStat ∨
    (s = StorageMap ∧ storage_maps = true)) n dma d')).
  { wp_step.
    - take H. eapply only_ext; [|exact H]. intros s. simpl. naive_solver.
    - match goal with E : storage_maps = _ |- _ => rewrite E end.
      eapply only_ext; [|exact H]. intros s. simpl. intuition congruence. }
  clear H. intros [] d1 H. change proc_files with [ProcRoot; ProcFile 0; ProcFile 1; ProcFile 2; ProcFile 3; ProcFile 4].
  cbn [for_list]. do 6 (wp_step; take H). wp_step. apply HQ. eapply only_ext; [|exact H].
  intros s. pose proof (proc_file_cases s) as Hp. destruct s; simpl; try (intuition congruence).
  split; [naive_solver|]. intros [Hs|[Hs|[Hs _]]]; [done|done|]. destruct Hp as [Hp _].
  destruct Hp as [?|[?|[?|[?|?]]]]; [by eexists|tauto..].
Qed.

(** The driver before loading. *)
Definition unloaded (dma : bool) : driver := Driver ∅ [] 0 dma 0 0.
Lemma only_unloaded dma : only (λ _, False) 0 dma (unloaded dma).
Proof. split; [done| |done]. intros s _. apply lookup_empty. Qed.

Lemma only_workers P n n' dma d (Q : unit → driver → Prop) c :
  only P n dma d → dc_nr_io_workers c = n' → (∀ d', only P n' dma d' → Q tt d') → wp (load_workers c) d Q.
Proof.
  intros [H1 H2 H3] <- HQ. unfold load_workers. wp_step. apply HQ.
  destruct d as [ptr lost nw ud sq cq]. cbn [d_ptr] in *. by injection H3 as -> -> -> -> ->.
Qed.
Lemma only_using P n dma d (Q : unit → driver → Prop) :
  only P n dma d → (∀ d', only P n false d' → Q tt d') → wp (modify (set_using_dma false)) d Q.
Proof.
  intros [H1 H2 H3] HQ. wp_step. apply HQ.
  destruct d as [ptr lost nw ud sq cq]. cbn [d_ptr] in *. by injection H3 as -> -> -> -> ->.
Qed.
Lemma only_using_dma P n dma d : only P n dma d → d_using_dma d = dma.
Proof. intros [_ _ ->]. done. Qed.
Lemma only_nr_workers P n dma d : only P n dma d → d_nr_workers d = n.
Proof. intros [_ _ ->]. done. Qed.

(** Storage, namespaces and the DMA channel. *)
Lemma wp_load table p c dma d (Q : Z → driver → Prop) m :
  load_configs table p = Ok (Some c) → only (λ s, s = Vdev ∨ s = VirtDev) 0 dma d →
  (∀ d', only (λ s, s = Vdev ∨ s = VirtDev ∨ stored dma s) (dc_nr_io_workers c) (dma && dma_chan_set) d' → wp m d' Q) →
  wp (load_workers c ;; NVMEV_STORAGE_INIT ;; NVMEV_NAMESPACE_INIT ;; d ← get;
      when (d_using_dma d) (if dma_chan_set then acquire DmaChannel else modify (set_using_dma false)) ;; m) d Q.
Proof.
  intros Hc H HQ. wp_step. eapply only_workers; [exact H|done|]. clear H. intros d1 H.
  wp_step. eapply wp_storage_init; [exact H|]. clear H. intros d2 H.
  wp_step. unfold NVMEV_NAMESPACE_INIT. eapply wp_acquire_slot; [exact H|simpl; naive_solver|]. clear H. intros d3 H.
  wp_step. wp_step. rewrite (only_using_dma _ _ _ _ H). wp_step.
  assert (∀ s b, ((s = Vdev ∨ s = VirtDev ∨ stored false s ∧ s ≠ Namespaces) ∨ s = Namespaces) ∨ (s = DmaChannel ∧ b = true)
    ↔ s = Vdev ∨ s = VirtDev ∨ match s with DmaChannel => b = true | _ => stored false s end) as Hs.
  { intros s b. destruct s; simpl; intuition congruence. }
  eapply (wp_mono _ _ (λ _ d', only (λ s, s = Vdev ∨ s = VirtDev ∨ stored dma s) (dc_nr_io_workers c)
    (dma && dma_chan_set) d')).
  - assert (∀ s, s = Vdev ∨ s = VirtDev ∨ stored dma s ↔
      s = Vdev ∨ s = VirtDev ∨ match s with DmaChannel => dma && dma_chan_set = true | _ => stored false s end) as Hd.
    { intros s. by destruct s. }
    wp_step; subst dma.
    + destruct dma_chan_set eqn:E; simpl.
      * eapply wp_acquire_slot; [exact H|simpl; naive_solver|]. clear H. intros d4 H.
        eapply only_ext; [|exact H]. intros s. rewrite Hd, <- Hs. simpl. naive_solver.
      * eapply only_using; [exact H|]. clear H. intros d4 H.
        eapply only_ext; [|exact H]. intros s. rewrite Hd, <- Hs. simpl. naive_solver.
    + eapply only_ext; [|exact H]. intros s. rewrite Hd, <- Hs. simpl. naive_solver.
  - clear H. intros [] d4 H. by apply HQ.
Qed.

(** Loading: the outcomes. *)
Lemma wp_init table p c dma :
  load_configs table p = Ok (Some c) → 0 ≤ dc_nr_io_workers c →
  wp (NVMeV_init table p) (unloaded dma) (λ r d,
    if bus_scans then r = 0 ∧ only (booted (dc_nr_io_workers c) dma) (dc_nr_io_workers c) (dma && dma_chan_set) d
    else r = - EIO ∧ ∀ s, d_ptr d !! s = Some true ↔ stored dma s).
Proof.
  intros Hc Hn. pose proof (only_unloaded dma) as H. unfold NVMeV_init, VDEV_INIT. wp_step. wp_step. take H. take H.
  rewrite Hc. eapply wp_load; [exact Hc|eapply only_ext; [|exact H]; naive_solver|]. clear H. intros d2 H. wp_step.
  unfold NVMEV_PCI_INIT, create_pci_bus. wp_step. destruct bus_scans eqn:Eb.
  - do 4 (wp_step; take H). wp_step. cbn [when]. wp_step. take H. wp_step.
    unfold NVMEV_IO_WORKER_INIT. wp_step. wp_step. take H. wp_step. wp_step. rewrite (only_nr_workers _ _ _ _ H).
    eapply wp_acquire_workers; [exact H|intros i; split; simpl; naive_solver|done|]. clear H. intros d3 H.
    wp_step. unfold NVMEV_DISPATCHER_INIT. eapply wp_acquire_slot; [exact H|simpl; naive_solver|]. clear H. intros d4 H.
    wp_step. split; [done|]. eapply only_ext; [|exact H]. intros s. destruct s; simpl; naive_solver.
  - wp_step. cbn [when]. wp_step. wp_step. wp_step.
    assert (loaded d2) as Hl.
    { eapply only_loaded; [exact H| |].
      - intros s [->|[->|Hs]]; [done|done|]. destruct s; try done. simpl in *. rewrite (only_using_dma _ _ _ _ H). done.
      - intros s. destruct (stored_dec dma s); [naive_solver|]. destruct (decide (s = Vdev)), (decide (s = VirtDev)); naive_solver. }
    try wp_step. eapply (wp_finalize (λ _, False)); [exact Hl|apply freed_none|naive_solver|]. intros d3 H3. wp_step. split; [done|].
    intros s. split.
    + intros Hs. assert (¬ finalized s) as Hf by (intros Hf; by apply (fr_in _ _ _ H3 s (or_intror Hf))).
      rewrite (fr_out _ _ _ H3 s) in Hs by naive_solver. destruct (stored_dec dma s) as [Hd|Hd]; [done|].
      assert (s ≠ Vdev ∧ s ≠ VirtDev) as [? ?] by (split; intros ->; by apply Hf).
      rewrite (on_out _ _ _ _ H s) in Hs by naive_solver. done.
    + intros Hs. rewrite (fr_out _ _ _ H3 s); [apply (on_in _ _ _ _ H); by right; right|]. destruct s; simpl in *; naive_solver.
Qed.
End loading.

(** ** Running *)

Definition event_ok (d : driver) (e : event) : Prop :=
  match e with
  | CreateSq i _ => 1 ≤ i ≤ NR_MAX_IO_QUEUE ∧ d_ptr d !! Sq i = None
  | CreateCq i _ => 1 ≤ i ≤ NR_MAX_IO_QUEUE ∧ d_ptr d !! Cq i = None
  | NumQueues sq cq => 1 ≤ sq ≤ NR_MAX_IO_QUEUE ∧ 1 ≤ cq ≤ NR_MAX_IO_QUEUE
  | _ => True
  end.

(** What acquisition, and release with a reset, make of the pointers. *)
Lemma wp_acquire_at d s (Q : unit → driver → Prop) :
  d_ptr d !! s ≠ Some true → Q tt (set_ptr (<[s := true]> (d_ptr d)) (d_lost d) d) → wp (acquire s) d Q.
Proof.
  intros Hs HQ. unfold acquire. wp_step. unfold lose, live. by rewrite bool_decide_false.
Qed.
Lemma wp_clear_at d s (Q : unit → driver → Prop) :
  d_ptr d !! s ≠ Some true → Q tt (set_ptr (delete s (d_ptr d)) (d_lost d) d) → wp (clear s) d Q.
Proof.
  intros Hs HQ. unfold clear. wp_step. unfold lose, live. by rewrite bool_decide_false.
Qed.
Lemma wp_drop d s (Q : unit → driver → Prop) :
  d_ptr d !! s ≠ Some false → Q tt (set_ptr (delete s (d_ptr d)) (d_lost d) d) →
  wp (release s) d (λ _ d1, wp (clear s) d1 Q).
Proof.
  intros Hs HQ. unfold release, wp at 1. destruct (d_ptr d !! s) as [[]|] eqn:E; [|done|].
  - apply wp_clear_at; simpl; [by rewrite lookup_insert_eq|]. unfold set_ptr in *. simpl. by rewrite delete_insert_eq.
  - apply wp_clear_at; [by rewrite E|done].
Qed.

Lemma wp_drop_then d s (m : M driver unit) (Q : unit → driver → Prop) :
  d_ptr d !! s ≠ Some false → wp m (set_ptr (delete s (d_ptr d)) (d_lost d) d) Q →
  wp (release s ;; clear s ;; m) d Q.
Proof.
  intros Hs HQ. wp_step. eapply wp_mono; [by apply (wp_drop d s (λ _ d', wp m d' Q))|].
  intros [] d1 H1. by wp_step.
Qed.

Lemma loaded_ptr d s : loaded d → d_ptr d !! s = None ∨ d_ptr d !! s = Some true ∧ slot_ok d s.
Proof.
  intros Hl. destruct (d_ptr d !! s) as [x|] eqn:E; [right|by left].
  destruct (ld_ptr _ Hl _ _ E) as [-> Hok]. done.
Qed.

Lemma loaded_set d ptr :
  loaded d → (∀ s x, ptr !! s = Some x → x = true ∧ slot_ok (set_ptr ptr [] d) s) → loaded (set_ptr ptr [] d).
Proof. intros [] H. by split. Qed.

(** [d'] is [d] with the pointers [f]. *)
Definition updated (f : slot → option bool) (d d' : driver) : Prop :=
  (∀ s, d_ptr d' !! s = f s) ∧ d' = set_ptr (d_ptr d') [] d.

Lemma updated_loaded f d d' :
  loaded d → updated f d d' → (∀ s x, f s = Some x → x = true ∧ slot_ok d' s) → loaded d'.
Proof.
  intros Hl [Hf ->] Hok. apply loaded_set; [done|]. intros s x Hs. apply Hok. rewrite <- Hf. exact Hs.
Qed.

Lemma wp_create_queue d q pages map (remapped : bool) (Q : unit → driver → Prop) :
  loaded d → d_ptr d !! q = None → d_ptr d !! pages = None → d_ptr d !! map = None →
  q ≠ pages → q ≠ map → pages ≠ map →
  (∀ d', updated (λ s, if decide (s = q ∨ s = pages) then Some true
                       else if decide (s = map) then (if remapped then Some true else None)
                       else d_ptr d !! s) d d' → Q tt d') →
  wp (create_queue q pages map remapped) d Q.
Proof.
  intros Hl Eq Ep Em N1 N2 N3 HQ. unfold create_queue.
  wp_step. apply wp_clear_at; [by rewrite Ep|]. wp_step. apply wp_clear_at; [simpl; by rewrite lookup_delete_ne, Em|].
  wp_step. apply wp_acquire_at; [simpl; by rewrite lookup_delete_ne, lookup_delete_eq|]. wp_step.
  destruct remapped; cbn [when].
  - apply wp_acquire_at; [simpl; by rewrite lookup_insert_ne, lookup_delete_eq|].
    apply wp_acquire_at; [simpl; by rewrite !lookup_insert_ne, !lookup_delete_ne, Eq|].
    apply HQ. split; [|unfold set_ptr; simpl; by rewrite (ld_lost _ Hl)].
    intros s. simpl. destruct (decide (s = q)) as [->|Nq]; [rewrite lookup_insert_eq, decide_True by auto; done|].
    rewrite lookup_insert_ne by done. destruct (decide (s = map)) as [->|Nm].
    { rewrite lookup_insert_eq. by case_decide. }
    rewrite lookup_insert_ne by done. destruct (decide (s = pages)) as [->|Np].
    { rewrite lookup_insert_eq, decide_True by auto. done. }
    rewrite lookup_insert_ne, !lookup_delete_ne, !decide_False by (congruence || (intros [|]; congruence)). done.
  - wp_step. apply wp_acquire_at; [simpl; by rewrite lookup_insert_ne, !lookup_delete_ne, Eq|].
    apply HQ. split; [|unfold set_ptr; simpl; by rewrite (ld_lost _ Hl)].
    intros s. simpl. destruct (decide (s = q)) as [->|Nq]; [rewrite lookup_insert_eq, decide_True by auto; done|].
    rewrite lookup_insert_ne by done. destruct (decide (s = pages)) as [->|Np].
    { rewrite lookup_insert_eq, decide_True by auto. done. }
    rewrite lookup_insert_ne by done. rewrite (decide_False (P := s = q ∨ s = pages)) by (intros [|]; congruence).
    destruct (decide (s = map)) as [->|Nm]; [by rewrite lookup_delete_eq|]. by rewrite !lookup_delete_ne by congruence.
Qed.

Lemma wp_delete_queue d q pages map (Q : unit → driver → Prop) :
  loaded d → q ≠ pages → q ≠ map → pages ≠ map →
  (d_ptr d !! q = None → d_ptr d !! pages = None ∧ d_ptr d !! map = None) →
  (∀ d', updated (λ s, if decide (s = q ∨ s = pages ∨ s = map) then None else d_ptr d !! s) d d' → Q tt d') →
  wp (delete_queue q pages map) d Q.
Proof.
  intros Hl N1 N2 N3 Hnull HQ. pose proof (loaded_clean _ Hl) as Hc. unfold delete_queue. wp_step. wp_step. wp_step.
  destruct (null d q) eqn:En; unfold null in En; cbn [negb when].
  - apply bool_decide_eq_true in En. destruct (Hnull En) as [Ep Em]. wp_step. apply wp_clear_at; [by rewrite En|].
    apply HQ. split; [|unfold set_ptr; simpl; by rewrite (ld_lost _ Hl)]. intros s. simpl.
    case_decide as Hd; [destruct_or? Hd; subst; [by rewrite lookup_delete_eq|by rewrite lookup_delete_ne..]|].
    by rewrite lookup_delete_ne by naive_solver.
  - apply wp_drop_then; [apply Hc|]. apply wp_drop_then; [simpl; rewrite lookup_delete_ne by done; apply Hc|].
    eapply wp_mono; [eapply wp_drop; [simpl; rewrite !lookup_delete_ne by done; apply Hc|]|by intros [] d1 H1; exact H1].
    apply HQ. split; [|unfold set_ptr; simpl; by rewrite (ld_lost _ Hl)]. intros s. simpl.
    destruct (decide (s = q)) as [->|Nq]; [rewrite lookup_delete_eq, decide_True by auto; done|].
    rewrite lookup_delete_ne by done. destruct (decide (s = map)) as [->|Nm].
    { rewrite lookup_delete_eq, decide_True by auto. done. }
    rewrite lookup_delete_ne by done. destruct (decide (s = pages)) as [->|Np].
    { rewrite lookup_delete_eq, decide_True by auto. done. }
    rewrite lookup_delete_ne, decide_False by (congruence || (intros [|[|]]; congruence)). done.
Qed.

(** A step keeps the other slots and what they need. *)
Lemma slot_ok_keep d d' s :
  slot_ok d s → d_nr_workers d' = d_nr_workers d → d_using_dma d' = d_using_dma d →
  (d_ptr d !! AdminQ = Some true → d_ptr d' !! AdminQ = Some true) →
  (∀ i, s = SqPages i ∨ s = SqMap i → d_ptr d' !! Sq i = d_ptr d !! Sq i) →
  (∀ i, s = CqPages i ∨ s = CqMap i → d_ptr d' !! Cq i = d_ptr d !! Cq i) → slot_ok d' s.
Proof.
  intros H E1 E2 Ha Hs Hc. destruct s; simpl in *; rewrite ?E1, ?E2; auto; rewrite ?Hs, ?Hc by auto; done.
Qed.
Lemma updated_fields f d d' : updated f d d' → d_nr_workers d' = d_nr_workers d ∧ d_using_dma d' = d_using_dma d.
Proof. intros [_ ->]. done. Qed.

Lemma wp_renew d s (Q : unit → driver → Prop) :
  loaded d → (∀ d', updated (λ t, if decide (t = s) then Some true else d_ptr d !! t) d d' → Q tt d') →
  wp (release s ;; clear s ;; acquire s) d Q.
Proof.
  intros Hl HQ. apply wp_drop_then; [by apply (loaded_clean _ Hl)|].
  apply wp_acquire_at; [simpl; by rewrite lookup_delete_eq|]. apply HQ.
  split; [|unfold set_ptr; simpl; by rewrite (ld_lost _ Hl)]. intros t. simpl.
  case_decide; [by subst; rewrite lookup_insert_eq|]. by rewrite lookup_insert_ne, lookup_delete_ne.
Qed.
Lemma wp_fresh d s (Q : unit → driver → Prop) :
  loaded d → d_ptr d !! s = None →
  (∀ d', updated (λ t, if decide (t = s) then Some true else d_ptr d !! t) d d' → Q tt d') → wp (acquire s) d Q.
Proof.
  intros Hl Hs HQ. apply wp_acquire_at; [by rewrite Hs|]. apply HQ.
  split; [|unfold set_ptr; simpl; by rewrite (ld_lost _ Hl)]. intros t. simpl.
  case_decide; [by subst; rewrite lookup_insert_eq|]. by rewrite lookup_insert_ne.
Qed.

(** A slot other than a queue's is set. *)
Lemma set_loaded d d' s :
  loaded d → updated (λ t, if decide (t = s) then Some true else d_ptr d !! t) d d' → slot_ok d' s →
  (∀ i, s ≠ Sq i ∧ s ≠ Cq i) → loaded d'.
Proof.
  intros Hl Hu Hok Hq. pose proof (updated_fields _ _ _ Hu) as [E1 E2]. eapply updated_loaded; [done|exact Hu|].
  intros t x. cbn beta. destruct (decide (t = s)) as [->|Ht]; [intros [= <-]; by split|]. intros Hx.
  destruct (ld_ptr _ Hl _ _ Hx) as [-> Hold].
  split; [done|]. destruct Hu as [Hf _]. eapply slot_ok_keep; [exact Hold|done|done|..].
  - intros Ha. rewrite Hf. by destruct (decide _).
  - intros i _. rewrite Hf. destruct (decide _) as [Hd|]; [|done]. destruct (Hq i). congruence.
  - intros i _. rewrite Hf. destruct (decide _) as [Hd|]; [|done]. destruct (Hq i). congruence.
Qed.

(** The table of an admin queue. *)
Lemma wp_setup_ring d s (Q : unit → driver → Prop) :
  loaded d → s = AdminSq ∨ s = AdminCq → (∀ d', loaded d' → Q tt d') →
  wp (d ← get; if null d AdminQ then mret tt
      else when (negb (null d s)) (release s ;; clear s) ;; acquire s) d Q.
Proof.
  intros Hl Hs HQ. wp_step. wp_step. unfold null. destruct (loaded_ptr d AdminQ Hl) as [E|[E _]].
  { rewrite bool_decide_true by done. wp_step. by apply HQ. }
  rewrite (bool_decide_false (d_ptr d !! AdminQ = None)) by (by rewrite E).
  assert (∀ d', updated (λ t, if decide (t = s) then Some true else d_ptr d !! t) d d' → Q tt d') as HQ'.
  { intros d' Hu. apply HQ. eapply set_loaded; [exact Hl|exact Hu| |destruct Hs as [-> | ->]; done].
    assert (d_ptr d' !! AdminQ = Some true) as Ea.
    { destruct Hu as [Hf _]. rewrite Hf. by destruct (decide _). }
    by destruct Hs as [-> | ->]. }
  destruct (loaded_ptr d s Hl) as [Es|[Es _]].
  - rewrite bool_decide_true by done. cbn [negb when]. wp_step. wp_step. by apply wp_fresh.
  - rewrite bool_decide_false by (by rewrite Es). cbn [negb when]. wp_step. wp_step.
    pose proof (wp_renew d s Q Hl HQ') as Hw. unfold wp, mbind, M_bind in Hw |- *.
    destruct (release s d) as [[[] d1]|]; [|done]. destruct (clear s d1) as [[[] d2]|]; done.
Qed.

(** Queues: the descriptor, its pages and its mapping come and go together. *)
Lemma created_loaded d d' (cq : bool) i (remapped : bool) :
  loaded d → 1 ≤ i ≤ NR_MAX_IO_QUEUE →
  updated (λ s, if decide (s = (if cq then Cq i else Sq i) ∨ s = (if cq then CqPages i else SqPages i)) then Some true
                else if decide (s = (if cq then CqMap i else SqMap i)) then (if remapped then Some true else None)
                else d_ptr d !! s) d d' → loaded d'.
Proof.
  intros Hl Hi Hu. pose proof (updated_fields _ _ _ Hu) as [E1 E2]. destruct Hu as [Hf Hd]. cbn beta in Hf.
  assert (d_ptr d' !! (if cq then Cq i else Sq i) = Some true) as Eq.
  { rewrite Hf. rewrite decide_True; [done|by left]. }
  eapply updated_loaded; [done|exact (conj Hf Hd)|]. intros t x. cbn beta.
  case_decide as Ht.
  { intros [= <-]. split; [done|]. destruct Ht as [-> | ->]; destruct cq; done. }
  case_decide as Hm; [subst t|].
  { destruct remapped; [|done]. intros [= <-]. split; [done|]. by destruct cq. }
  intros Hx. destruct (ld_ptr _ Hl _ _ Hx) as [-> Hold]. split; [done|]. eapply slot_ok_keep; [exact Hold|done|done|..].
  - intros Ha. rewrite Hf. destruct cq; simpl; done.
  - intros j Hj. rewrite Hf. destruct cq; simpl; [done|]. destruct (decide (j = i)) as [->|]; [naive_solver|].
    rewrite decide_False by (intros [|]; congruence). done.
  - intros j Hj. rewrite Hf. destruct cq; simpl; [|done]. destruct (decide (j = i)) as [->|]; [naive_solver|].
    rewrite decide_False by (intros [|]; congruence). done.
Qed.

Lemma deleted_loaded d d' (cq : bool) i :
  loaded d →
  updated (λ s, if decide (s = (if cq then Cq i else Sq i) ∨ s = (if cq then CqPages i else SqPages i) ∨
                           s = (if cq then CqMap i else SqMap i)) then None else d_ptr d !! s) d d' → loaded d'.
Proof.
  intros Hl Hu. pose proof (updated_fields _ _ _ Hu) as [E1 E2]. pose proof Hu as [Hf _]. cbn beta in Hf.
  eapply updated_loaded; [done|exact Hu|]. intros t x. cbn beta. case_decide as Ht; [done|].
  intros Hx. destruct (ld_ptr _ Hl _ _ Hx) as [-> Hold]. split; [done|]. eapply slot_ok_keep; [exact Hold|done|done|..].
  - intros Ha. rewrite Hf. destruct cq; simpl; done.
  - intros j Hj. rewrite Hf. destruct cq; simpl; [done|]. destruct (decide (j = i)) as [->|]; [naive_solver|].
    rewrite decide_False by (intros [|[|]]; congruence). done.
  - intros j Hj. rewrite Hf. destruct cq; simpl; [|done]. destruct (decide (j = i)) as [->|]; [naive_solver|].
    rewrite decide_False by (intros [|[|]]; congruence). done.
Qed.

Lemma queue_null d i :
  loaded d → (d_ptr d !! Sq i = None → d_ptr d !! SqPages i = None ∧ d_ptr d !! SqMap i = None) ∧
             (d_ptr d !! Cq i = None → d_ptr d !! CqPages i = None ∧ d_ptr d !! CqMap i = None).
Proof.
  intros Hl. split; intros E; split.
  - destruct (loaded_ptr d (SqPages i) Hl) as [|[_ Hs]]; [done|]. simpl in Hs. congruence.
  - destruct (loaded_ptr d (SqMap i) Hl) as [|[_ Hs]]; [done|]. simpl in Hs. congruence.
  - destruct (loaded_ptr d (CqPages i) Hl) as [|[_ Hs]]; [done|]. simpl in Hs. congruence.
  - destruct (loaded_ptr d (CqMap i) Hl) as [|[_ Hs]]; [done|]. simpl in Hs. congruence.
Qed.

Lemma wp_event d e (Q : unit → driver → Prop) :
  loaded d → event_ok d e → (∀ d', loaded d' → Q tt d') → wp (run_event e) d Q.
Proof.
  intros Hl He HQ. destruct e as [ | | |i r|i|i r|i|sq cq| ]; simpl in *.
  - unfold setup_aqa. wp_step. wp_step. unfold null. wp_step; [|by apply HQ].
    match goal with H : _ = true |- _ => apply bool_decide_eq_true in H as E end. apply wp_fresh; [done|done|].
    intros d' Hu. apply HQ. eapply set_loaded; [exact Hl|exact Hu|done|done].
  - apply wp_setup_ring; [done|by left|done].
  - apply wp_setup_ring; [done|by right|done].
  - destruct He as [Hi E]. destruct (proj1 (queue_null d i Hl) E) as [Ep Em].
    apply (wp_create_queue d (Sq i) (SqPages i) (SqMap i)); [exact Hl|exact E|exact Ep|exact Em|discriminate..|].
    intros d' Hu. apply HQ. exact (created_loaded d d' false i r Hl Hi Hu).
  - apply (wp_delete_queue d (Sq i) (SqPages i) (SqMap i)); [exact Hl|discriminate..|exact (proj1 (queue_null d i Hl))|].
    intros d' Hu. apply HQ. exact (deleted_loaded d d' false i Hl Hu).
  - destruct He as [Hi E]. destruct (proj2 (queue_null d i Hl) E) as [Ep Em].
    apply (wp_create_queue d (Cq i) (CqPages i) (CqMap i)); [exact Hl|exact E|exact Ep|exact Em|discriminate..|].
    intros d' Hu. apply HQ. exact (created_loaded d d' true i r Hl Hi Hu).
  - apply (wp_delete_queue d (Cq i) (CqPages i) (CqMap i)); [exact Hl|discriminate..|exact (proj2 (queue_null d i Hl))|].
    intros d' Hu. apply HQ. exact (deleted_loaded d d' true i Hl Hu).
  - wp_step. apply HQ. destruct Hl as [H1 H2 H3 H4]. split; simpl; [exact H1|done|lia|lia].
  - apply wp_renew; [done|]. intros d' Hu. apply HQ. eapply set_loaded; [exact Hl|exact Hu|done|done].
Qed.

(** ** The theorems *)

(** A series of events that the host may cause, from [d] to [d']. *)
Inductive runs : driver → list event → driver → Prop :=
| runs_done d : runs d [] d
| runs_step d e d1 es d2 : event_ok d e → run_event e d = Ok (tt, d1) → runs d1 es d2 → runs d (e :: es) d2.

Lemma runs_loaded d es d' : loaded d → runs d es d' → loaded d'.
Proof.
  intros Hl. induction 1 as [|d e d1 es d2 He Hr _ IH]; [done|]. apply IH.
  pose proof (wp_event d e (λ _ d', loaded d') Hl He (λ _ H, H)) as Hw. unfold wp in Hw. by rewrite Hr in Hw.
Qed.

(** A live object. *)
Definition holds (d : driver) (s : slot) : Prop := d_ptr d !! s = Some true.

Section lifecycle.
Context `{KN : !Kernel}.

(** C27: loading either gives a running module, or - when the bus cannot be created - fails
    with -EIO and keeps the storage mapping, the procfs files, the table of times and the
    namespaces for ever.  While it runs every event of the host can be carried out, and
    unloading frees nothing twice, loses no pointer, and gives back everything but the
    page tables and mappings of the queues that still exist and the descriptors numbered
    from the queue count on: the last queue.  Without queues nothing is left. *)
Theorem driver_lifecycle table p c dma :
  load_configs table p = Ok (Some c) → 0 ≤ dc_nr_io_workers c →
  ∃ r d0, NVMeV_init table p (unloaded dma) = Ok (r, d0) ∧
    if bus_scans then r = 0 ∧ ∀ es d, runs d0 es d →
      (∀ e, event_ok d e → ∃ d', run_event e d = Ok (tt, d')) ∧
      ∃ d', NVMeV_exit d = Ok (tt, d') ∧ d_lost d' = [] ∧
        (∀ s, holds d' s ↔ holds d s ∧ leak_slot d s) ∧
        ((∀ i, ¬ holds d (Sq i) ∧ ¬ holds d (Cq i)) → ∀ s, ¬ holds d' s)
    else r = - EIO ∧ ∀ s, holds d0 s ↔ stored dma s.
Proof.
  intros Hc Hn. destruct (wp_Ok _ _ _ (wp_init table p c dma Hc Hn)) as (r & d0 & E & H). exists r, d0. split; [done|].
  destruct bus_scans; [|exact H]. destruct H as [-> Ho]. split; [done|]. intros es d Hr.
  assert (loaded d0) as Hl0.
  { eapply only_loaded; [exact Ho| |apply booted_dec]. intros s Hs. destruct s; simpl in *; try done;
      rewrite ?(only_nr_workers _ _ _ _ Ho), ?(only_using_dma _ _ _ _ Ho); done. }
  pose proof (runs_loaded _ _ _ Hl0 Hr) as Hl. split.
  { intros e He. pose proof (wp_event d e (λ _ _, True) Hl He (λ _ _, I)) as Hw.
    destruct (wp_Ok _ _ _ Hw) as ([] & d' & Ee & _). by exists d'. }
  destruct (wp_Ok _ _ _ (wp_exit d (λ _ d', (∀ s, holds d' s ↔ holds d s ∧ leak_slot d s) ∧ d_lost d' = []) Hl
    (λ d' H1 H2, conj H1 H2))) as ([] & d' & Ee & Hs & Hlost).
  exists d'. do 3 (split; [done|]). intros Hq s Hh. apply Hs in Hh as [Hh Hk].
  destruct (ld_ptr _ Hl _ _ Hh) as [_ Hok]. destruct s; simpl in *; try done;
    match goal with i : Z |- _ => destruct (Hq i); done end.
Qed.
End lifecycle.

(** A machine with a reserved region, and a run that leaves a queue behind. *)
#[local] Instance example_kernel : Kernel := {|
  e820_mapped_any _ _ type := type =? E820_TYPE_RESERVED;
  storage_maps := true;
  bus_scans := true;
  dma_chan_set := true;
|}.
Definition example_params : params := Params 0x100000000 0x40000000 1 1 0 1 1 0 8 12 (Some "0,1,2"%string).
Definition load_run_unload : M driver unit :=
  NVMeV_init 0 example_params ;;
  for_list [SetAqa; SetAsq; SetAcq; NumQueues 1 1; CreateCq 1 true; CreateSq 1 false] run_event ;;
  NVMeV_exit.
Example one_queue_leaks :
  match load_run_unload (unloaded false) with
  | Ok (_, d) => live d <$> [Sq 1; SqPages 1; Cq 1; CqPages 1; CqMap 1; Vdev; WorkQueue 1]
  | Fault _ => []
  end = [true; true; true; true; true; false; false].
Proof. vm_compute. reflexivity. Qed.

Lemma driver_lifecycle_witness :
  ∃ d0, NVMeV_init 0 example_params (unloaded false) = Ok (0, d0) ∧
    ∃ d', NVMeV_exit d0 = Ok (tt, d') ∧ d_lost d' = [].
Proof.
  destruct (load_configs 0 example_params) as [[c|]|] eqn:E; [|vm_compute in E; discriminate..].
  destruct (driver_lifecycle 0 example_params c false E) as (r & d0 & E0 & -> & H).
  - vm_compute in E. injection E as <-. vm_compute. discriminate.
  - exists d0. split; [exact E0|]. destruct (H [] d0 (runs_done d0)) as (_ & d' & H1 & H2 & _).
    exists d'. exact (conj H1 H2).
Defined.
